(* ===== verification/_CoqProject ===== *)
-Q . S2P
Prelude.v
Replicated.v
Crdt.v
StateCrdt.v
GoFloat.v
Utf8.v
GoSort.v
DocumentCrdt.v
Pool.v
Breaker.v
BreakerRegistry.v
RateLimiter.v
Retry.v
LoaderResilience.v
Bulkhead.v
MemCache.v
AuthLimiter.v
Binary.v
Status.v
GoStrings.v
GoParse.v
Version.v
GoAny.v
UnicodeText.v
Json.v
McpErrors.v
Redact.v
ToolRelations.v
EdgeTools.v
EdgeSearch.v
EdgeBatch.v
EdgeRateLimit.v
EdgeValidation.v
EdgeStreaming.v
EdgeAuth.v
TextSplitter.v
Tokenizer.v
SentenceSplitter.v
ServiceErrors.v
SemanticChunker.v
Redis.v
ApiKeys.v
AuthMiddleware.v
DocumentLock.v
Storage.v
ServiceInterfaces.v
RuleEngine.v
PolicyManager.v
Authorizer.v
ServiceLimits.v
Transaction.v
WorkflowModels.v
WorkflowGraph.v
WorkflowInput.v
WorkflowTemplates.v
ServiceMonad.v
WorkflowService.v
ExecutionControl.v
WorkflowRows.v
WorkflowSystem.v
TaskModels.v
TaskRows.v
Assignment.v
RuleAssignment.v
TaskService.v
TaskLife.v
CoreClient.v
EdgeHandler.v
EdgeSystem.v
Dedup.v
ContextLock.v
Retrieval.v
EdgeBuiltin.v
EdgeTasks.v
EdgeWorkflows.v
EdgeAgents.v
EdgeTemplates.v
EdgeContexts.v
EdgeProviders.v
