(* ===== verification/Prelude.v ===== *)
(** * Developer Mesh: verification library (root file)

    Developer Mesh is a set of Go services (an MCP edge server, a REST API, a worker, a
    loader for retrieval) over shared packages in [src/pkg].  This library models the
    packages whose behaviour is their own logic rather than calls of a database, a queue
    or a remote service, and proves what makes them correct; where the code does not do
    what its names or comments promise, it proves what the code does instead.

    ** Parts and files

    - Go itself.  [GoFloat.v] ([float64]), [Utf8.v] and [UnicodeText.v] (strings as runes,
      package [unicode] over an argument), [GoSort.v] (the contract of [sort.Slice]),
      [GoStrings.v] and [GoParse.v] (packages [strings] and [strconv], [fmt]'s [%v] of
      floats), durations, [GoAny.v] (values of type
      [interface{}], as [encoding/json] makes them).
    - Collaboration ([pkg/collaboration]).  Replicas of agents' shared state.
      [Replicated.v] is the interface: a class [Replicated] of merge operations with laws
      ([ReplicatedLaws]: a join on well-formed, compatible states up to an equivalence)
      and what follows for any implementation (the order and number of merges do not
      matter).  [Crdt.v] implements it for [crdt/types.go] (vector clocks), [gcounter.go],
      [pncounter.go], [lwwregister.go] and [orset.go], a Module per type, and has a step
      relation ([Network]) of replicas that increment and merge counters.  [StateCrdt.v]
      is [state_crdt.go], which composes them, with its operation log.  [DocumentCrdt.v]
      is [document_crdt.go], a text with fractional positions.
    - Resilience ([pkg/resilience]).  [Breaker.v] is [circuit_breaker.go] and [counts.go];
      [BreakerRegistry.v] the manager and [circuit_breaker_config.go]; [RateLimiter.v] is
      [rate_limiter*.go]; [Bulkhead.v] is [bulkhead.go].  [Pool.v] is what managers share:
      names bound to objects that clients hold by pointer.
    - Retries: [Retry.v] is [pkg/retry/retry.go], [pkg/utils/retry.go] and the loop of the
      rag-loader; [LoaderResilience.v] is [apps/rag-loader/internal/resilience].
    - Caches and authentication.  [MemCache.v] is [pkg/common/cache/memory.go] (Module
      [Memory]) and the edge server's [memory_cache.go] (Module [Edge]), with the class
      [CacheOps] for the interface of [cache.go]; its clients are [AuthLimiter.v]
      ([pkg/auth/rate_limiter.go]), [ApiKeys.v] ([auth.go], [api_keys.go], [key_types.go],
      [config_keys.go]) and [AuthMiddleware.v] (tokens, [middleware.go] and
      [auth_middleware.go]), which puts the limiter in front of the keys.  [Authorizer.v]
      is [production_authorizer.go], over the policies of [PolicyManager.v].
    - Rules ([pkg/rules]): [RuleEngine.v] is [engine.go] with its expression evaluator,
      [PolicyManager.v] is [policy_manager.go].
    - Services ([pkg/services]).  [ServiceErrors.v] (errors and validation),
      [ServiceInterfaces.v] (the classes of the repositories and engines the services
      call), [ServiceMonad.v] (their effects: state, Go errors, panics),
      [ServiceLimits.v] (rate limits and quotas), [Transaction.v] (two-phase commit and
      compensation), [Redis.v] and [DocumentLock.v] ([document_lock_service.go], as
      programs over the commands of Redis whose interleavings are a labelled transition
      system).
    - Workflows.  [WorkflowModels.v] (the records of [pkg/models]), [WorkflowGraph.v]
      (cycles, order, simulation), [WorkflowInput.v] (schemas of inputs),
      [WorkflowTemplates.v], [WorkflowService.v] (creating and executing workflows),
      [ExecutionControl.v] (pause, resume, approval, cancellation), [Storage.v] and
      [WorkflowRows.v] (the repository over a table of rows), [WorkflowSystem.v] (the
      service run with that repository).
    - Tasks.  [TaskModels.v], [TaskRows.v] (the repository), [Assignment.v] (the
      strategies of the assignment engine), [RuleAssignment.v] (the engine run with the
      rules of [RuleEngine.v]), [TaskService.v] (the operations) and [TaskLife.v] (what
      any sequence of them does to the tasks).
    - Texts ([pkg/chunking/text], [pkg/tokenizer], [apps/rag-loader]): [TextSplitter.v],
      [Tokenizer.v], [SentenceSplitter.v], [SemanticChunker.v].
    - Data: [Binary.v] is the frame header of [pkg/models/websocket/binary.go];
      [Status.v] the status machines, task completion and roles of [pkg/models];
      [Version.v] is [pkg/updater/version.go].

    ** How the code is modelled

    A method is a function of the receiver that returns the new receiver with its
    results; a Go error is a value ([result], [option]).  Record fields, methods and
    constants keep the names of the source ([Set_], [String_], [Type_] where the name is
    taken).  The clock, [uuid.New()], [math.Pow] and random numbers are arguments.  A Go
    map is a [gmap]; where the code ranges over one, the order is an argument constrained
    by [ranges], or the loop is proved not to depend on it ([KeyLocal], [range_order]).
    Integers are [Z] (or [N] for [uint64] counters) with the wrap-around written out;
    [float64] is [SpecFloat]'s binary64, with amd64's conversion of floats out of range
    and without fused multiply-add.  Strings are byte strings, compared bytewise as Go
    does.  Code outside [src] is an argument: a class of operations with its documented
    laws (Redis, JSON web tokens, SHA-256, UUIDs' text, repositories behind an interface,
    Unicode's tables, regular expressions), and each theorem over one has an instance.

    Concurrency: a method that holds its mutex from start to end is one step.  Where the
    code does not ([CircuitBreaker.Execute], [Bulkhead], the lock service), the atomic
    actions are separate steps and the theorems quantify over their interleavings:
    [Breaker.sys_step], [Bulkhead.step] and [DocumentLock.run].  [Breaker.transitionTo] is
    one step although its two locked parts are not: the second only resets counters.  In
    [DocumentCrdt] the mutex itself is in the state, because [Merge] takes it twice; there
    a method can return, panic or block.  Goroutines of the workflow service are jobs of
    its state, run in any order by [ExecutionControl.step].

    Fuel: [Retry]'s loops take a number of iterations, and the theorems give one that is
    enough ([MaxRetries], [MaxAttempts], [MaxRetries + 1]) and show that more changes
    nothing; [LoaderResilience]'s [TakeWait] is proved not to end for any fuel where it
    waits for more than the bucket holds; [GoStrings.itoa] has 20 digits, more than an
    [int64] needs; loops over the runes of a string have one unit per byte and use at
    least one per rune, and [ParseDuration] one per byte; [WorkflowGraph]'s searches have
    one unit per node and are proved to need no more; [TextSplitter]'s forced split has
    one per byte; trees of tasks are searched to a depth of ten, as the code does;
    transactions retry three times, as the code does; the rule evaluator follows the
    three levels of its grammar and has no fuel.

    ** What the theorems show

    The properties of the manifest carry a number C1, C2, ... in the comment above them.
    - Tasks and workflows: every task follows its status machine through any sequence of
      operations ([TaskLife]); creating an execution, the gate on dependencies and the
      absence of cycles ([WorkflowService], [WorkflowGraph]); with the repository as it
      is no execution ever finishes and no step is recorded ([WorkflowSystem]); accepted
      inputs conform to their schema, substitution is simultaneous ([WorkflowInput],
      [WorkflowTemplates]); updates of rows are optimistic and rows round-trip
      ([WorkflowRows]); assigned agents suit the task ([Assignment]), which the rules of
      an engine can prevent for all agents ([RuleAssignment]).
    - Rules and policies: the evaluator means what its grammar says, decisions respect
      priorities, caching changes no answer of the authorizer ([RuleEngine],
      [PolicyManager], [Authorizer]).
    - Locks and authentication: one holder per document under every interleaving, and
      what an expired key leaves behind ([DocumentLock]); how long a revoked key lives in
      the cache, what the cache loses, created keys are accepted ([ApiKeys]); tokens
      round-trip and only signed ones are accepted, and guesses lock out other keys
      ([AuthMiddleware], [AuthLimiter]).
    - Replicas: counters count each event once, the last write wins, replicas that merged
      the same states agree, and where documents diverge or block ([Crdt], [StateCrdt],
      [DocumentCrdt]).
    - Resilience: the breaker refines a specification over the history of outcomes; the
      retry loops end within their bounds; limiters and quotas admit no more than they
      say; the bulkhead's capacity under every interleaving; two-phase commit is atomic
      ([Breaker], [Retry], [RateLimiter], [ServiceLimits], [Bulkhead], [Transaction]).
    - Texts and data: chunks cover the text and fit the budget, sentences keep every
      character that is not space, headers and versions survive encoding.
    Theorems without a number describe further behaviour of the same definitions.

    ** Not modelled

    Log lines, metrics and traces; [ToJSON]; results that bulkhead operations return;
    metadata of document operations; the read-through caches of repositories; last-used
    times of API keys; the bodies of workflow steps' tasks ([run_step] is an argument).
    Whole packages are left out because they are calls of something else: most
    repositories (SQL), tool providers and adapters (HTTP), webhooks and events (Redis
    streams), embedding and search (models, vector search), the applications' wiring. *)

From stdpp Require Import base gmap strings list sorting.
From Stdlib Require Import ZArith Lia.

Declare Scope go_scope.
Delimit Scope go_scope with go.

Local Open Scope Z_scope.

(** ** Machine integers

    Go's fixed-width integers are [Z] values kept in range by the conversion
    that the language applies after each operation. *)

Definition u32 (x : Z) : Z := x mod 2 ^ 32.
Definition u64 (x : Z) : Z := x mod 2 ^ 64.
Definition i64 (x : Z) : Z := (x + 2 ^ 63) mod 2 ^ 64 - 2 ^ 63.
Definition max_int64 : Z := 2 ^ 63 - 1.
Definition min_int64 : Z := - 2 ^ 63.
Definition in_u64 (x : Z) : Prop := 0 <= x < 2 ^ 64.
Definition in_i64 (x : Z) : Prop := min_int64 <= x <= max_int64.

#[export] Instance in_u64_dec x : Decision (in_u64 x).
Proof. unfold in_u64. apply _. Defined.
#[export] Instance in_i64_dec x : Decision (in_i64 x).
Proof. unfold in_i64. apply _. Defined.

(** Expose the widths to [lia]. *)
Ltac unfold_ints :=
  unfold in_u64, in_i64, max_int64, min_int64 in *;
  change (2 ^ 64) with 18446744073709551616 in *;
  change (2 ^ 63) with 9223372036854775808 in *;
  change (2 ^ 32) with 4294967296 in *.

Lemma u64_range x : in_u64 (u64 x).
Proof. unfold in_u64, u64. apply Z.mod_pos_bound. lia. Qed.

Lemma u64_small x : in_u64 x -> u64 x = x.
Proof. intros H. apply Z.mod_small, H. Qed.

Lemma u64_idemp x : u64 (u64 x) = u64 x.
Proof. apply u64_small, u64_range. Qed.

Lemma u64_add_l x y : u64 (u64 x + y) = u64 (x + y).
Proof. apply Zplus_mod_idemp_l. Qed.

Lemma u64_add_r x y : u64 (x + u64 y) = u64 (x + y).
Proof. apply Zplus_mod_idemp_r. Qed.

Lemma i64_range x : in_i64 (i64 x).
Proof.
  unfold i64, in_i64, max_int64, min_int64.
  pose proof (Z.mod_pos_bound (x + 2 ^ 63) (2 ^ 64)). lia.
Qed.

Lemma i64_small x : in_i64 x -> i64 x = x.
Proof.
  unfold in_i64, max_int64, min_int64, i64. intros H.
  rewrite Z.mod_small; lia.
Qed.

Lemma i64_cong x y : x mod 2 ^ 64 = y mod 2 ^ 64 -> i64 x = i64 y.
Proof.
  intros H. unfold i64. f_equal.
  by rewrite <-(Zplus_mod_idemp_l x), H, Zplus_mod_idemp_l.
Qed.

Lemma i64_u64 x : i64 (u64 x) = i64 x.
Proof. apply i64_cong. unfold u64. by rewrite Zmod_mod. Qed.

Lemma i64_mod x : i64 x mod 2 ^ 64 = x mod 2 ^ 64.
Proof.
  unfold i64. rewrite Zminus_mod_idemp_l. f_equal. lia.
Qed.

Lemma i64_sub x y : i64 (i64 x - i64 y) = i64 (x - y).
Proof. apply i64_cong. by rewrite Zminus_mod, !i64_mod, <-Zminus_mod. Qed.

Lemma i64_add_l x y : i64 (i64 x + y) = i64 (x + y).
Proof. apply i64_cong. by rewrite <-(Zplus_mod_idemp_l (i64 x)), i64_mod, Zplus_mod_idemp_l. Qed.

Lemma i64_sub_l x y : i64 (i64 x - y) = i64 (x - y).
Proof. apply (i64_add_l x (- y)). Qed.

(** ** Time

    A [time.Time] is its distance in nanoseconds from Go's zero time, so
    [time.Time{}] is [0].  [t.Sub(u)] saturates at the bounds of
    [time.Duration], an [int64]. *)

Definition zero_time : Z := 0.
Definition millisecond : Z := 1000000.
Definition second : Z := 1000 * millisecond.
Definition minute : Z := 60 * second.
Definition time_sub (t u : Z) : Z := Z.max min_int64 (Z.min max_int64 (t - u)).
Definition time_after (t u : Z) : bool := u <? t.
Definition time_before (t u : Z) : bool := t <? u.

Lemma time_sub_small t u : in_i64 (t - u) -> time_sub t u = t - u.
Proof. unfold in_i64, time_sub. lia. Qed.

Lemma time_sub_gt t u d : 0 <= d < max_int64 -> d < t - u <-> d < time_sub t u.
Proof. unfold time_sub. unfold_ints. lia. Qed.

(** ** Results of fallible code *)

Inductive result (E A : Type) : Type :=
| Ok (a : A)
| Err (e : E).
Arguments Ok {E A} a.
Arguments Err {E A} e.

#[export] Instance result_ret {E} : MRet (result E) := @Ok E.
#[export] Instance result_bind {E} : MBind (result E) :=
  λ A B f m, match m with Ok a => f a | Err e => Err e end.

#[export] Instance result_eq_dec {E A} `{EqDecision E, EqDecision A} :
  EqDecision (result E A).
Proof. solve_decision. Defined.

Definition is_ok {E A} (r : result E A) : bool :=
  match r with Ok _ => true | Err _ => false end.

Lemma bind_ok {E A B} (m : result E A) (f : A -> result E B) b :
  m ≫= f = Ok b -> exists a, m = Ok a /\ f a = Ok b.
Proof. destruct m as [a|e]; [by exists a | done]. Qed.

(** ** Strings as Go compares them (bytewise) *)

Lemma string_ltb_le a b : String.ltb a b = negb (String.leb b a).
Proof.
  unfold String.ltb, String.leb. rewrite String.compare_antisym.
  by destruct (String.compare b a).
Qed.

Lemma string_leb_true a b : String.leb a b = true <-> String.le a b.
Proof. unfold String.le. by rewrite Is_true_true. Qed.

Lemma string_ltb_irrefl a : String.ltb a a = false.
Proof.
  rewrite string_ltb_le. apply negb_false_iff, string_leb_true.
  reflexivity.
Qed.

Lemma string_ltb_connected a b :
  String.ltb a b = false -> String.ltb b a = false -> a = b.
Proof.
  rewrite !string_ltb_le, !negb_false_iff, !string_leb_true.
  intros H1 H2. by apply (anti_symm String.le).
Qed.

Lemma string_ltb_asym a b : String.ltb a b = true -> String.ltb b a = false.
Proof.
  rewrite !string_ltb_le, negb_true_iff, negb_false_iff.
  destruct (String.leb_total a b); congruence.
Qed.

Lemma string_ltb_trans a b c :
  String.ltb a b = true -> String.ltb b c = true -> String.ltb a c = true.
Proof.
  intros H1 H2. destruct (String.ltb a c) eqn:H3; [done|].
  pose proof (string_ltb_asym _ _ H1) as H1'.
  rewrite !string_ltb_le in *.
  apply negb_false_iff, string_leb_true in H3, H1'.
  apply negb_true_iff in H2. assert (String.le c b) as H4 by by etrans.
  apply string_leb_true in H4. congruence.
Qed.

(** ** Maps with Go's zero-value default *)

Section default.
Context `{Countable K}.

(** [m[k]] for a map whose element type has zero value [d]. *)
Definition get {A} (d : A) (m : gmap K A) (k : K) : A := default d (m !! k).

Lemma get_insert {A} (d : A) m i j x :
  get d (<[i := x]> m) j = if decide (i = j) then x else get d m j.
Proof. unfold get. rewrite lookup_insert. by case_decide. Qed.

Lemma get_empty {A} (d : A) (k : K) : get d ∅ k = d.
Proof. unfold get. by rewrite lookup_empty. Qed.

Lemma get_some {A} (d : A) (m : gmap K A) k x : m !! k = Some x -> get d m k = x.
Proof. unfold get. by intros ->. Qed.
End default.

(** ** [for k, v := range m]

    Go ranges over a map in an unspecified order: any list that permutes
    [map_to_list m].  A loop whose body writes only the entry of its own key
    has a result that does not depend on the order; [KeyLocal] states that
    shape of body once, and [range_lookup] gives the loop's result. *)

Definition ranges `{Countable K} {V} (l : list (K * V)) (m : gmap K V) : Prop :=
  l ≡ₚ map_to_list m.

Class KeyLocal `{Countable K} {V A} (body : gmap K A -> K * V -> gmap K A)
    (upd : K -> V -> option A -> option A) : Prop := {
  key_local_self m k v : body m (k, v) !! k = upd k v (m !! k);
  key_local_other m k v j : j ≠ k -> body m (k, v) !! j = m !! j;
}.

Section range.
Context `{Countable K} {V A : Type}.
Implicit Types (m : gmap K A) (o : gmap K V).

Lemma ranges_refl o : ranges (map_to_list o) o.
Proof. unfold ranges. reflexivity. Qed.

Lemma ranges_NoDup l o : ranges l o -> NoDup l.*1.
Proof. intros Hl. rewrite Hl. apply NoDup_fst_map_to_list. Qed.

Lemma ranges_elem l o k v : ranges l o -> (k, v) ∈ l <-> o !! k = Some v.
Proof. intros Hl. rewrite Hl. apply elem_of_map_to_list. Qed.

Lemma foldl_key_local `{!KeyLocal body upd} l m j :
  NoDup l.*1 ->
  foldl body m l !! j =
    match (list_to_map l : gmap K V) !! j with
    | Some v => upd j v (m !! j)
    | None => m !! j
    end.
Proof.
  revert m. induction l as [|[k v] l IH]; intros m Hnd; simpl; [done|].
  apply NoDup_cons in Hnd as [Hk Hnd]. rewrite IH by done. simpl.
  destruct (decide (k = j)) as [->|Hne].
  - rewrite lookup_insert_eq, (not_elem_of_list_to_map_1 _ j) by done.
    apply key_local_self.
  - rewrite lookup_insert_ne by done. by rewrite key_local_other.
Qed.

Lemma range_lookup `{!KeyLocal body upd} l o m j :
  ranges l o ->
  foldl body m l !! j =
    match o !! j with Some v => upd j v (m !! j) | None => m !! j end.
Proof.
  intros Hl. rewrite foldl_key_local by (by eapply ranges_NoDup).
  rewrite (list_to_map_proper l (map_to_list o)) by
    (done || by eapply ranges_NoDup).
  by rewrite list_to_map_to_list.
Qed.

Lemma range_order `{!KeyLocal body upd} l l' o m :
  ranges l o -> ranges l' o -> foldl body m l = foldl body m l'.
Proof.
  intros Hl Hl'. apply map_eq. intros j.
  by rewrite (range_lookup l o), (range_lookup l' o).
Qed.
End range.

(** A total over the values of a map, for counters that summarise its entries. *)
Section weight.
Context `{Countable K} {A : Type} (w : A -> Z).
Implicit Types m : gmap K A.

Definition map_weight m : Z := map_fold (λ _ x acc, w x + acc) 0 m.

Lemma map_weight_empty : map_weight ∅ = 0.
Proof. apply map_fold_empty. Qed.

Lemma map_weight_insert m i x : m !! i = None -> map_weight (<[i := x]> m) = w x + map_weight m.
Proof. intros Hi. unfold map_weight. rewrite map_fold_insert_L; [done|intros; lia|done]. Qed.

Lemma map_weight_delete m i x : m !! i = Some x -> map_weight m = w x + map_weight (delete i m).
Proof.
  intros Hi. rewrite <-(insert_delete_id m i x Hi) at 1.
  apply map_weight_insert, lookup_delete_eq.
Qed.

Lemma map_weight_update m i x y :
  m !! i = Some x -> map_weight (<[i := y]> m) = map_weight m - w x + w y.
Proof.
  intros Hi. rewrite (map_weight_delete m i x Hi), <-insert_delete_eq.
  rewrite map_weight_insert by apply lookup_delete_eq. lia.
Qed.

Lemma map_weight_nonneg m : (forall x, 0 <= w x) -> 0 <= map_weight m.
Proof.
  intros Hw. induction m as [|i x m Hi IH] using map_ind; [by rewrite map_weight_empty|].
  rewrite map_weight_insert by done. pose proof (Hw x). lia.
Qed.
End weight.

(** A [range] loop that accumulates with a commuting body. *)
Lemma foldl_permutation {A S} (f : S -> A -> S) (l l' : list A) s :
  (forall s a b, f (f s a) b = f (f s b) a) -> l ≡ₚ l' -> foldl f s l = foldl f s l'.
Proof.
  intros Hf Hl. revert s.
  induction Hl as [|a l l' _ IH|a b l|l1 l2 l3 _ IH1 _ IH2]; intros s; simpl; auto.
  - by rewrite Hf.
  - by rewrite IH1.
Qed.

Lemma list_filter_all {A} (P : A -> Prop) `{!forall x, Decision (P x)} l :
  Forall P l -> filter P l = l.
Proof.
  induction 1 as [|x l Hx _ IH]; [done|]. by rewrite filter_cons, decide_True, IH by done.
Qed.

Lemma list_filter_none {A} (P : A -> Prop) `{!forall x, Decision (P x)} l :
  Forall (λ x, ~ P x) l -> filter P l = [].
Proof.
  induction 1 as [|x l Hx _ IH]; [done|]. by rewrite filter_cons, decide_False by done.
Qed.

(** The loop that appends the elements that pass a test. *)
Lemma foldl_append_if {A} (p : A -> bool) l acc :
  foldl (λ acc x, if p x then acc ++ [x] else acc) acc l = acc ++ filter (λ x, p x = true) l.
Proof.
  revert acc. induction l as [|x l IH]; intros acc; simpl; [by rewrite app_nil_r|].
  rewrite filter_cons, IH. destruct (p x); simpl; [by rewrite <-app_assoc|done].
Qed.

(** ** Automation *)

Create HintDb go discriminated.
#[export] Hint Resolve u64_range i64_range ranges_refl string_ltb_irrefl : go.

(** Case analysis on the boolean tests of the code, innermost first. *)
Ltac bool_cases :=
  repeat match goal with
  | |- context [Z.ltb ?a ?b] => destruct (Z.ltb_spec a b)
  | |- context [Z.leb ?a ?b] => destruct (Z.leb_spec a b)
  | |- context [Z.eqb ?a ?b] => destruct (Z.eqb_spec a b)
  end; simpl.

(** Turn boolean comparisons in the context into propositions. *)
Ltac bool_hyps :=
  repeat match goal with
  | H : andb _ _ = true |- _ => apply andb_prop in H; destruct H
  | H : orb _ _ = false |- _ => apply orb_false_elim in H; destruct H
  | H : negb _ = true |- _ => apply negb_true_iff in H
  | H : negb _ = false |- _ => apply negb_false_iff in H
  | H : Z.ltb _ _ = true |- _ => apply Z.ltb_lt in H
  | H : Z.ltb _ _ = false |- _ => apply Z.ltb_ge in H
  | H : Z.leb _ _ = true |- _ => apply Z.leb_le in H
  | H : Z.leb _ _ = false |- _ => apply Z.leb_gt in H
  | H : Z.eqb _ _ = true |- _ => apply Z.eqb_eq in H
  | H : Z.eqb _ _ = false |- _ => apply Z.eqb_neq in H
  end.
