(* ===== verification/Replicated.v ===== *)
(** * Replicated: what a state-based replicated type promises

    The interface between the replicated types of [pkg/collaboration/crdt] and
    their clients ([StateCRDT] keeps maps of them).  [Replicated] has the
    operations: the fresh replica ([New...] in the code), [Merge] restricted to
    an argument of the right dynamic type, the predicate [ok] that every
    operation keeps, and [compat], what two replicas must agree on for their
    merge to commute.  [ReplicatedLaws] has the laws: on compatible replicas
    [merge] is a join up to [≡].  Clients prove convergence once, from the
    laws; Crdt.v discharges them for each type. *)

From stdpp Require Import base gmap strings list sorting.
From Stdlib Require Import ZArith Lia.
From S2P Require Import Prelude.

Class Replicated (A : Type) `{Equiv A} := {
  rep_new : A;
  rep_merge : A -> A -> A;
  rep_ok : A -> Prop;
  rep_compat : relation A;
}.

Class ReplicatedLaws (A : Type) `{Replicated A} : Prop := {
  rep_equivalence :: Equivalence (≡@{A});
  rep_merge_proper :: Proper ((≡) ==> (≡) ==> (≡@{A})) rep_merge;
  rep_ok_new : rep_ok rep_new;
  rep_ok_merge a b : rep_ok a -> rep_ok b -> rep_ok (rep_merge a b);
  rep_merge_new a : rep_ok a -> rep_merge rep_new a ≡ a;
  rep_merge_idem a : rep_merge a a ≡ a;
  rep_merge_assoc a b c :
    rep_ok a -> rep_ok b -> rep_ok c ->
    rep_merge (rep_merge a b) c ≡ rep_merge a (rep_merge b c);
  rep_merge_comm a b :
    rep_ok a -> rep_ok b -> rep_compat a b -> rep_merge a b ≡ rep_merge b a;
}.

Create HintDb replicated discriminated.
#[export] Hint Resolve rep_ok_new rep_ok_merge : replicated.

(** ** Convergence

    A replica that starts in [s] and receives the states [l], in that order. *)

Section convergence.
Context `{ReplicatedLaws A}.

Definition merge_all (s : A) (l : list A) : A := foldl rep_merge s l.

(** Every state is well formed, and every two can be merged in either order. *)
Definition all_compat (l : list A) : Prop :=
  Forall rep_ok l /\ forall a b, a ∈ l -> b ∈ l -> rep_compat a b.

Lemma merge_all_proper l s s' : s ≡ s' -> merge_all s l ≡ merge_all s' l.
Proof.
  revert s s'. induction l as [|a l IH]; intros s s' Hs; simpl; [done|].
  apply IH. by rewrite Hs.
Qed.

Lemma merge_all_ok s l : rep_ok s -> Forall rep_ok l -> rep_ok (merge_all s l).
Proof.
  intros Hs Hl. revert s Hs. induction Hl; intros s Hs; simpl; [done|].
  eauto with replicated.
Qed.

Lemma merge_swap s a b :
  rep_ok s -> rep_ok a -> rep_ok b -> rep_compat a b ->
  rep_merge (rep_merge s a) b ≡ rep_merge (rep_merge s b) a.
Proof.
  intros Hs Ha Hb Hab. rewrite !rep_merge_assoc by done.
  by rewrite (rep_merge_comm a b).
Qed.

Lemma all_compat_incl l l' : l' ⊆ l -> all_compat l -> all_compat l'.
Proof.
  intros Hl [Hok Hc]. split; [|intros a b Ha Hb; apply Hc; by apply Hl].
  rewrite Forall_forall in *. intros a Ha. by apply Hok, Hl.
Qed.

Lemma merge_all_perm l l' s :
  rep_ok s -> all_compat l -> l ≡ₚ l' -> merge_all s l ≡ merge_all s l'.
Proof.
  intros Hs Hc Hl. revert s Hs Hc.
  induction Hl as [|a l l' _ IH|a b l|l1 l2 l3 H12 IH1 _ IH2]; intros s Hs Hc; simpl.
  - done.
  - destruct (proj1 (Forall_cons _ _ _) (proj1 Hc)) as [Ha _].
    apply IH; [by apply rep_ok_merge|]. eapply all_compat_incl, Hc. set_solver.
  - destruct Hc as [[Ha [Hb _]%Forall_cons]%Forall_cons Hc].
    apply merge_all_proper, merge_swap; auto. apply Hc; set_solver.
  - etrans; [by apply IH1|]. apply IH2; [done|].
    eapply all_compat_incl, Hc. intros x. by rewrite H12.
Qed.

Lemma merge_all_app s l l' : merge_all s (l ++ l') = merge_all (merge_all s l) l'.
Proof. apply foldl_app. Qed.

Lemma merge_all_absorb1 s l a :
  rep_ok s -> all_compat l -> a ∈ l -> rep_merge (merge_all s l) a ≡ merge_all s l.
Proof.
  intros Hs Hc Ha. assert (rep_ok a) by (by eapply Forall_forall; [apply Hc|]).
  apply list_elem_of_split in Ha as (l1 & l2 & ->).
  assert (rep_ok (merge_all s (l1 ++ l2))).
  { apply merge_all_ok; [done|]. eapply all_compat_incl, Hc; set_solver. }
  rewrite (merge_all_perm (l1 ++ a :: l2) ((l1 ++ l2) ++ [a])); [|done|done|].
  - rewrite merge_all_app. simpl. by rewrite rep_merge_assoc, rep_merge_idem.
  - by rewrite <-Permutation_middle, Permutation_cons_append.
Qed.

Lemma merge_all_absorb s l l' :
  rep_ok s -> all_compat l -> l' ⊆ l -> merge_all (merge_all s l) l' ≡ merge_all s l.
Proof.
  intros Hs Hc. induction l' as [|a l' IH]; intros Hsub; simpl; [done|].
  rewrite <-IH at 2 by set_solver.
  apply merge_all_proper, merge_all_absorb1; set_solver.
Qed.

(** Replicas that received the same states agree, whatever the order of
    delivery and however often a state was delivered. *)
Lemma merge_all_converge s l l' :
  rep_ok s -> all_compat l -> (forall a, a ∈ l <-> a ∈ l') ->
  merge_all s l ≡ merge_all s l'.
Proof.
  intros Hs Hc Hll.
  assert (all_compat l') by (eapply all_compat_incl, Hc; intros ??; set_solver).
  rewrite <-(merge_all_absorb s l l') by (done || set_solver).
  rewrite <-(merge_all_absorb s l' l) by (done || intros ??; set_solver).
  rewrite <-!merge_all_app. apply merge_all_perm; [done| |apply Permutation_app_comm].
  eapply all_compat_incl, Hc. intros a. set_solver.
Qed.
End convergence.

(** ** Maps of replicas

    [StateCRDT] merges a map of replicas by creating the missing entries with
    [New...()] and merging into them. *)

Section map_merge.
Context `{ReplicatedLaws A}.

Definition merge_entry (m : gmap string A) (kv : string * A) : gmap string A :=
  <[kv.1 := rep_merge (get rep_new m kv.1) kv.2]> m.

Definition map_merge (m o : gmap string A) : gmap string A :=
  foldl merge_entry m (map_to_list o).

#[export] Instance merge_entry_local :
  KeyLocal merge_entry (λ _ v x, Some (rep_merge (default rep_new x) v)).
Proof.
  split; intros m k v; unfold merge_entry; simpl.
  - apply lookup_insert_eq.
  - intros j Hj. by rewrite lookup_insert_ne.
Qed.

Lemma map_merge_lookup l m o p :
  ranges l o ->
  foldl merge_entry m l !! p =
    match o !! p with
    | Some y => Some (rep_merge (default rep_new (m !! p)) y)
    | None => m !! p
    end.
Proof. intros Hl. by rewrite (range_lookup l o). Qed.

Lemma map_merge_at m o p :
  map_merge m o !! p =
    match o !! p with
    | Some y => Some (rep_merge (default rep_new (m !! p)) y)
    | None => m !! p
    end.
Proof. apply map_merge_lookup, ranges_refl. Qed.

(** Go's iteration order does not matter. *)
Lemma map_merge_order l m o : ranges l o -> foldl merge_entry m l = map_merge m o.
Proof. intros Hl. by eapply range_order; [|apply ranges_refl]. Qed.

Definition map_ok (m : gmap string A) : Prop := map_Forall (λ _ a, rep_ok a) m.
Definition map_compat (m o : gmap string A) : Prop :=
  forall p a b, m !! p = Some a -> o !! p = Some b -> rep_compat a b.

#[export] Instance gmap_replicated : Replicated (gmap string A) := {|
  rep_new := ∅; rep_merge := map_merge; rep_ok := map_ok; rep_compat := map_compat |}.
End map_merge.

Section map_laws.
Context `{ReplicatedLaws A}.
Implicit Types (m o : gmap string A).

Lemma map_ok_default m p : map_ok m -> rep_ok (default rep_new (m !! p)).
Proof.
  intros Hm. destruct (m !! p) eqn:Hp; simpl; [by eapply Hm | apply rep_ok_new].
Qed.

(** The laws of the entries carry over to maps, keys present on one side
    included: a missing entry is created fresh before it is merged into. *)
#[export] Instance gmap_laws : ReplicatedLaws (gmap string A).
Proof.
  split; try apply _; simpl.
  - intros m m' Hm o o' Ho p. rewrite !map_merge_at.
    specialize (Hm p). specialize (Ho p).
    destruct Ho as [y y' Hy|]; [|done]. constructor.
    destruct Hm as [x x' Hx|]; simpl; by rewrite ?Hx, Hy.
  - intros p a Hp. by rewrite lookup_empty in Hp.
  - intros m o Hm Ho p a. rewrite map_merge_at.
    destruct (o !! p) as [y|] eqn:Hy; [|by apply Hm]. intros [= <-].
    apply rep_ok_merge; [by apply map_ok_default | by eapply Ho].
  - intros m Hm p. rewrite map_merge_at.
    rewrite lookup_empty. destruct (m !! p) eqn:Hp; simpl; [|done].
    constructor. apply rep_merge_new. by eapply Hm.
  - intros m p. rewrite map_merge_at.
    destruct (m !! p); simpl; [|done]. constructor. apply rep_merge_idem.
  - intros l m o Hl Hm Ho p. rewrite !map_merge_at.
    destruct (o !! p) as [z|] eqn:Hz; [|done]. constructor.
    assert (rep_ok z) by (by eapply Ho).
    destruct (m !! p) as [y|] eqn:Hy; simpl; [|by rewrite rep_merge_new].
    rewrite rep_merge_assoc; [done|by apply map_ok_default|by eapply Hm|done].
  - intros m o Hm Ho Hc p. rewrite !map_merge_at.
    destruct (m !! p) as [x|] eqn:Hx, (o !! p) as [y|] eqn:Hy; simpl; try constructor.
    + apply rep_merge_comm; [by eapply Hm|by eapply Ho|by eapply Hc].
    + symmetry. apply rep_merge_new. by eapply Hm.
    + apply rep_merge_new. by eapply Ho.
Qed.
End map_laws.
