(* ===== verification/Crdt.v ===== *)
(** * Crdt: the replicated types of [pkg/collaboration/crdt]

    [VectorClock] (types.go), [GCounter], [PNCounter], [LWWRegister] and
    [ORSet], a module each: the struct as a record, one definition per method,
    then the method's lemmas and the type's [ReplicatedLaws].  The mutexes make
    every method atomic, so a method is a function of the struct's value.  A
    [uint64] is an [N] with the wrap-around written out; a tag of [uuid.New()]
    is an argument. *)

From stdpp Require Import base gmap strings list sorting functions.
From Stdlib Require Import ZArith Lia.
From S2P Require Import Prelude Replicated.

Local Open Scope N_scope.

Definition u64n (x : N) : N := x mod 2 ^ 64.

Lemma u64n_small x : x < 2 ^ 64 -> u64n x = x.
Proof. apply N.mod_small. Qed.

Lemma u64n_add_l x y : u64n (u64n x + y) = u64n (x + y).
Proof. apply N.Div0.add_mod_idemp_l. Qed.

Lemma u64n_add_r x y : u64n (x + u64n y) = u64n (x + y).
Proof. apply N.Div0.add_mod_idemp_r. Qed.

Lemma u64n_idemp x : u64n (u64n x) = u64n x.
Proof. apply N.Div0.mod_mod. Qed.

(** ** Per-node counts

    [VectorClock] and [GCounter] are maps from node to count, a missing node
    counting zero, and both take the maximum of each count when they join. *)

(** [if count > m[nodeID] { m[nodeID] = count }] *)
Definition raise_entry (m : gmap string N) (kv : string * N) : gmap string N :=
  if get 0 m kv.1 <? kv.2 then <[kv.1 := kv.2]> m else m.

(** [clone[k] = v] *)
Definition copy_entry {A} (m : gmap string A) (kv : string * A) : gmap string A :=
  <[kv.1 := kv.2]> m.

#[global] Instance raise_entry_local :
  KeyLocal raise_entry (λ _ v x, if default 0 x <? v then Some v else x).
Proof.
  split; intros m k v; unfold raise_entry, get; simpl.
  - destruct (_ <? _); [by rewrite lookup_insert_eq | done].
  - intros j Hj. destruct (_ <? _); [by rewrite lookup_insert_ne | done].
Qed.

#[global] Instance copy_entry_local {A} : KeyLocal (@copy_entry A) (λ _ v _, Some v).
Proof.
  split; intros m k v; unfold copy_entry; simpl.
  - apply lookup_insert_eq.
  - intros j Hj. by rewrite lookup_insert_ne.
Qed.

Lemma range_raise l o m n :
  ranges l o -> get 0 (foldl raise_entry m l) n = N.max (get 0 m n) (get 0 o n).
Proof.
  intros Hl. unfold get at 1. rewrite (range_lookup l o) by done. unfold get.
  destruct (o !! n) as [v|]; simpl; [|lia].
  destruct (N.ltb_spec (default 0 (m !! n)) v); simpl; lia.
Qed.

Lemma range_copy {A} l (o : gmap string A) : ranges l o -> foldl copy_entry ∅ l = o.
Proof.
  intros Hl. apply map_eq. intros j. rewrite (range_lookup l o) by done.
  destruct (o !! j); [done | apply lookup_empty].
Qed.

(** Two maps count the same at every node. *)
Definition same_counts (m o : gmap string N) : Prop := forall n, get 0 m n = get 0 o n.

#[global] Instance same_counts_equiv : Equivalence same_counts.
Proof. split; repeat intro; unfold same_counts in *; congruence. Qed.

(** The sum of all counts. *)
Definition count_sum (m : gmap string N) : N := map_fold (λ _ v acc, v + acc) 0 m.

Lemma count_sum_insert m n x :
  m !! n = None -> count_sum (<[n := x]> m) = x + count_sum m.
Proof. intros Hn. apply map_fold_insert_L; [intros; lia | done]. Qed.

Lemma count_sum_delete m n : count_sum m = get 0 m n + count_sum (delete n m).
Proof.
  unfold get. destruct (m !! n) as [x|] eqn:Hn; simpl.
  - rewrite <-(insert_delete_id m n x) at 1 by done.
    rewrite count_sum_insert by apply lookup_delete_eq. done.
  - by rewrite delete_id.
Qed.

Lemma count_sum_update m n x :
  count_sum (<[n := x]> m) + get 0 m n = x + count_sum m.
Proof.
  rewrite (count_sum_delete (<[n := x]> m) n), (count_sum_delete m n).
  rewrite get_insert, decide_True by done. rewrite delete_insert_eq. lia.
Qed.

Lemma count_sum_same m o : same_counts m o -> count_sum m = count_sum o.
Proof.
  revert o. induction m as [|n x m Hn IH] using map_ind; intros o Ho.
  - induction o as [|k y o Hk IHo] using map_ind; [done|].
    rewrite count_sum_insert by done.
    assert (y = 0) as ->.
    { specialize (Ho k). rewrite get_empty, get_insert, decide_True in Ho by done. done. }
    rewrite <-IHo; [done|]. intros j. specialize (Ho j).
    rewrite Ho, get_insert. case_decide as Hj; [|done]. subst j.
    unfold get. by rewrite Hk.
  - rewrite count_sum_insert by done.
    rewrite (count_sum_delete o n), <-(IH (delete n o)).
    + specialize (Ho n). rewrite get_insert, decide_True in Ho by done. lia.
    + intros j. specialize (Ho j). unfold get in *.
      destruct (decide (n = j)) as [<-|Hj].
      * by rewrite Hn, lookup_delete_eq.
      * by rewrite lookup_insert_ne, lookup_delete_ne in *.
Qed.

(** ** VectorClock *)

Module VectorClock.
Record t := Mk { entries : gmap string N }.

Definition NewVectorClock : t := Mk ∅.

Definition at_ (vc : t) (n : string) : N := get 0 (entries vc) n.

(** [vc[nodeID]++] *)
Definition Increment (vc : t) (nodeID : string) : t :=
  Mk (<[nodeID := u64n (at_ vc nodeID + 1)]> (entries vc)).

Definition Update (vc other : t) : t :=
  Mk (foldl raise_entry (entries vc) (map_to_list (entries other))).

(** The first loop of [HappensBefore]: [None] is its [return false]. *)
Fixpoint happens_loop (other : t) (l : list (string * N)) (atLeastOneLess : bool)
  : option bool :=
  match l with
  | [] => Some atLeastOneLess
  | (nodeID, clock) :: l =>
      if at_ other nodeID <? clock then None
      else happens_loop other l
             (if clock <? at_ other nodeID then true else atLeastOneLess)
  end.

(** The second loop: nodes of [other] that are not in [vc]. *)
Definition missing_loop (vc : t) (l : list (string * N)) (atLeastOneLess : bool) : bool :=
  foldl (λ less '(nodeID, clock),
           match entries vc !! nodeID with
           | None => if 0 <? clock then true else less
           | Some _ => less
           end) atLeastOneLess l.

(** [HappensBefore] when Go ranges over [vc] as [l] and over [other] as [l']. *)
Definition happens_before_in (l l' : list (string * N)) (vc other : t) : bool :=
  match happens_loop other l false with
  | None => false
  | Some less => missing_loop vc l' less
  end.

Definition HappensBefore (vc other : t) : bool :=
  happens_before_in (map_to_list (entries vc)) (map_to_list (entries other)) vc other.

Definition Concurrent (vc other : t) : bool :=
  negb (HappensBefore vc other) && negb (HappensBefore other vc).

Definition Clone (vc : t) : t := Mk (foldl copy_entry ∅ (map_to_list (entries vc))).

#[global] Instance clock_equiv : Equiv t := λ a b, same_counts (entries a) (entries b).

(** The causal order that [HappensBefore] decides. *)
Definition causally_before (a b : t) : Prop :=
  (forall n, at_ a n <= at_ b n) /\ exists n, at_ a n < at_ b n.

Lemma at_Increment vc n m :
  at_ (Increment vc n) m = if decide (n = m) then u64n (at_ vc n + 1) else at_ vc m.
Proof. unfold at_, Increment. simpl. by rewrite get_insert. Qed.

Lemma at_Update vc other n : at_ (Update vc other) n = N.max (at_ vc n) (at_ other n).
Proof. apply range_raise, ranges_refl. Qed.

Lemma clock_Clone_id vc : Clone vc = vc.
Proof. destruct vc as [m]. unfold Clone. f_equal. apply range_copy, ranges_refl. Qed.

Lemma happens_loop_spec other l less :
  match happens_loop other l less with
  | None => exists n c, (n, c) ∈ l /\ at_ other n < c
  | Some b =>
      (forall n c, (n, c) ∈ l -> c <= at_ other n) /\
      (b = true <-> less = true \/ exists n c, (n, c) ∈ l /\ c < at_ other n)
  end.
Proof.
  revert less. induction l as [|[n c] l IH]; intros less; simpl.
  { split; [intros ?? []%not_elem_of_nil|].
    split; [by left|]. intros [|(?&?&[]%not_elem_of_nil&_)]; done. }
  destruct (N.ltb_spec (at_ other n) c) as [Hlt|Hge].
  { exists n, c. split; [left | done]. }
  specialize (IH (if c <? at_ other n then true else less)).
  destruct (happens_loop other l _) as [b|].
  - destruct IH as [IH1 IH2]. split.
    + intros n' c' [[= -> ->]|?]%elem_of_cons; [done | by apply IH1].
    + rewrite IH2. destruct (N.ltb_spec c (at_ other n)) as [Hlt|Hle].
      * split; [|by left]. intros _. right. exists n, c. split; [left | done].
      * split; (intros [?|(n'&c'&Hin&Hlt)]; [by left|right]).
        -- exists n', c'. split; [by right | done].
        -- apply elem_of_cons in Hin as [[= -> ->]|?]; [lia | by exists n', c'].
  - destruct IH as (n' & c' & Hin & Hlt). exists n', c'. split; [by right | done].
Qed.

Lemma missing_loop_spec vc l less :
  missing_loop vc l less = true <->
    less = true \/ exists n c, (n, c) ∈ l /\ entries vc !! n = None /\ 0 < c.
Proof.
  unfold missing_loop. revert less.
  induction l as [|[n c] l IH]; intros less; simpl.
  { split; [by left|]. intros [|(?&?&[]%not_elem_of_nil&_)]; done. }
  rewrite IH. split.
  - intros [Hless|(n'&c'&?&?)]; [|right; exists n', c'; split; [by right|done]].
    destruct (entries vc !! n) eqn:Hn; [by left|].
    destruct (N.ltb_spec 0 c); [|by left].
    right. exists n, c. split; [left | done].
  - intros [->|(n'&c'&[[= -> ->]|?]%elem_of_cons&Hn&Hc)].
    + left. destruct (entries vc !! n); [done|]. by destruct (0 <? c).
    + left. rewrite Hn. by destruct (N.ltb_spec 0 c); [|lia].
    + right. by exists n', c'.
Qed.

(** Whatever the iteration orders, [HappensBefore] decides the causal order. *)
Lemma happens_before_spec l l' vc other :
  ranges l (entries vc) -> ranges l' (entries other) ->
  happens_before_in l l' vc other = true <-> causally_before vc other.
Proof.
  intros Hl Hl'. unfold happens_before_in, causally_before.
  pose proof (happens_loop_spec other l false) as Hloop.
  destruct (happens_loop other l false) as [less|].
  - destruct Hloop as [Hle Hless]. rewrite missing_loop_spec, Hless. split.
    + intros Hex. split.
      { intros n. destruct (entries vc !! n) as [c|] eqn:Hn; unfold at_ at 1, get; rewrite Hn.
        - apply Hle. by rewrite ranges_elem.
        - simpl. lia. }
      destruct Hex as [[|(n&c&Hin&Hlt)]|(n&c&Hin&Hn&Hc)]; [done|..];
        exists n; rewrite ranges_elem in Hin by done.
      * unfold at_ at 1. by rewrite (get_some _ _ _ _ Hin).
      * unfold at_. rewrite (get_some _ _ _ _ Hin). unfold get. by rewrite Hn.
    + intros [_ [n Hn]]. destruct (entries vc !! n) as [c|] eqn:Hc.
      * left. right. exists n, c. rewrite ranges_elem by done. split; [done|].
        unfold at_ at 1 in Hn. by rewrite (get_some _ _ _ _ Hc) in Hn.
      * right. unfold at_ at 2, get in Hn.
        destruct (entries other !! n) as [c|] eqn:Ho; simpl in Hn; [|lia].
        exists n, c. rewrite ranges_elem by done. repeat split; [done..|lia].
  - destruct Hloop as (n & c & Hin & Hlt). rewrite ranges_elem in Hin by done.
    split; [done|]. intros [Hle _]. specialize (Hle n).
    unfold at_ at 1 in Hle. rewrite (get_some _ _ _ _ Hin) in Hle. lia.
Qed.

Lemma HappensBefore_true vc other :
  HappensBefore vc other = true <-> causally_before vc other.
Proof. apply happens_before_spec; apply ranges_refl. Qed.

Lemma HappensBefore_false vc other :
  HappensBefore vc other = false <-> ~ causally_before vc other.
Proof. rewrite <-HappensBefore_true. by destruct (HappensBefore vc other). Qed.

#[global] Instance causally_before_strict : StrictOrder causally_before.
Proof.
  split.
  - intros a [_ [n Hn]]. lia.
  - intros a b c [Hab [n Hn]] [Hbc _]. split.
    + intros m. specialize (Hab m). specialize (Hbc m). lia.
    + exists n. specialize (Hbc n). lia.
Qed.

#[global] Instance clock_replicated : Replicated t := {|
  rep_new := NewVectorClock; rep_merge := Update;
  rep_ok := λ _, True; rep_compat := λ _ _, True |}.

#[global] Instance clock_laws : ReplicatedLaws t.
Proof.
  assert (forall a b n, get 0 (entries (Update a b)) n =
    N.max (get 0 (entries a) n) (get 0 (entries b) n)) as Hup by apply at_Update.
  split; simpl; try done.
  - split; repeat intro; unfold equiv, clock_equiv, same_counts in *; congruence.
  - intros a a' Ha b b' Hb n. by rewrite !Hup, Ha, Hb.
  - intros a _ n. rewrite Hup. simpl. rewrite get_empty. lia.
  - intros a n. rewrite Hup. lia.
  - intros a b c _ _ _ n. rewrite !Hup. lia.
  - intros a b _ _ _ n. rewrite !Hup. lia.
Qed.
End VectorClock.

(** ** The dynamic values and the [CRDT] interface *)

(** An [interface{}] as this package stores it.  [VOther] stands for a value of
    any other dynamic type; the code never looks inside one. *)
Inductive GoValue :=
| VNil
| VBool (b : bool)
| VInt64 (z : Z)
| VString (s : string)
| VStrings (l : list string)
| VOther (go_type : string) (payload : positive).

#[global] Instance GoValue_eq_dec : EqDecision GoValue.
Proof. solve_decision. Defined.

Record GCounter := MkGCounter { counters : gmap string N }.
Record PNCounter := MkPNCounter { positive_ : GCounter; negative : GCounter }.
Record LWWRegister := MkLWW { value : GoValue; timestamp : Z; nodeID : string }.
Record ORSet := MkORSet { set_elements : gmap string (gset N) }.

(** A value of interface type [crdt.CRDT]. *)
Inductive CRDT :=
| AsGCounter (c : GCounter)
| AsPNCounter (c : PNCounter)
| AsLWWRegister (r : LWWRegister)
| AsORSet (s : ORSet)
| AsOther (go_type : string).

(** What [%T] prints. *)
Definition go_type_of (c : CRDT) : string :=
  match c with
  | AsGCounter _ => "*crdt.GCounter"
  | AsPNCounter _ => "*crdt.PNCounter"
  | AsLWWRegister _ => "*crdt.LWWRegister"
  | AsORSet _ => "*crdt.ORSet"
  | AsOther go_type => go_type
  end.

Definition cannot_merge (self : string) (other : CRDT) : string :=
  ("cannot merge " +:+ self +:+ " with " +:+ go_type_of other)%string.

(** ** GCounter *)

Module GCounter.
Definition NewGCounter : GCounter := MkGCounter ∅.

Definition count (g : GCounter) (n : string) : N := get 0 (counters g) n.

Definition Increment (g : GCounter) (nodeID : string) (delta : N) : GCounter :=
  MkGCounter (<[nodeID := u64n (count g nodeID + delta)]> (counters g)).

Definition Value (g : GCounter) : N :=
  foldl (λ total '(_, count), u64n (total + count)) 0 (map_to_list (counters g)).

Definition merge (g other : GCounter) : GCounter :=
  MkGCounter (foldl raise_entry (counters g) (map_to_list (counters other))).

Definition Merge (g : GCounter) (other : CRDT) : result string GCounter :=
  match other with
  | AsGCounter otherCounter => Ok (merge g otherCounter)
  | _ => Err (cannot_merge "GCounter" other)
  end.

Definition Clone (g : GCounter) : GCounter :=
  MkGCounter (foldl copy_entry ∅ (map_to_list (counters g))).

Definition GetState (g : GCounter) : gmap string N :=
  foldl copy_entry ∅ (map_to_list (counters g)).

#[global] Instance gcounter_equiv : Equiv GCounter :=
  λ a b, same_counts (counters a) (counters b).

Lemma count_Increment g n d m :
  count (Increment g n d) m =
    if decide (n = m) then u64n (count g n + d) else count g m.
Proof. unfold count, Increment. simpl. by rewrite get_insert. Qed.

Lemma count_merge g o n : count (merge g o) n = N.max (count g n) (count o n).
Proof. apply range_raise, ranges_refl. Qed.

Lemma gcounter_Clone_id g : Clone g = g.
Proof. destruct g as [m]. unfold Clone. f_equal. apply range_copy, ranges_refl. Qed.

Lemma value_fold l total :
  foldl (λ total '(_, count), u64n (total + count)) (u64n total) l =
    u64n (total + foldr (λ kv acc, kv.2 + acc) 0 (l : list (string * N))).
Proof.
  revert total. induction l as [|[n c] l IH]; intros total; simpl.
  - by rewrite N.add_0_r.
  - rewrite u64n_add_l, IH. f_equal. lia.
Qed.

Lemma Value_sum g : Value g = u64n (count_sum (counters g)).
Proof.
  unfold Value. change 0 with (u64n 0) at 1. rewrite value_fold, N.add_0_l. f_equal.
  unfold count_sum. rewrite map_fold_foldr.
  induction (map_to_list (counters g)) as [|[n c] l IH]; simpl; congruence.
Qed.

#[global] Instance Value_proper : Proper ((≡) ==> (=)) Value.
Proof.
  intros a b Hab. rewrite !Value_sum. f_equal. by apply count_sum_same.
Qed.

(** Modulo 2^64, [Increment] adds exactly its delta, overflow included. *)
Lemma gcounter_Value_Increment g n d : Value (Increment g n d) = u64n (Value g + d).
Proof.
  rewrite !Value_sum, u64n_add_l. unfold Increment. simpl.
  pose proof (count_sum_update (counters g) n (u64n (count g n + d))) as Hsum.
  pose proof (count_sum_delete (counters g) n) as Hdel.
  fold (count g n) in Hsum, Hdel.
  assert (count_sum (<[n:=u64n (count g n + d)]> (counters g)) =
    u64n (count g n + d) + count_sum (delete n (counters g))) as -> by lia.
  rewrite u64n_add_l, Hdel. f_equal. lia.
Qed.

Lemma same_count a b n : a ≡ b -> count a n = count b n.
Proof. intros Hab. apply Hab. Qed.

#[global] Instance Increment_proper :
  Proper ((≡) ==> (=) ==> (=) ==> (≡@{GCounter})) Increment.
Proof.
  intros a b Hab n ? <- d ? <- m.
  change (count (Increment a n d) m = count (Increment b n d) m).
  by rewrite !count_Increment, !(same_count a b _ Hab).
Qed.

#[global] Instance gcounter_replicated : Replicated GCounter := {|
  rep_new := NewGCounter; rep_merge := merge;
  rep_ok := λ _, True; rep_compat := λ _ _, True |}.

#[global] Instance gcounter_laws : ReplicatedLaws GCounter.
Proof.
  assert (forall a b n, get 0 (counters (merge a b)) n =
    N.max (get 0 (counters a) n) (get 0 (counters b) n)) as Hup by apply count_merge.
  split; simpl; try done.
  - split; repeat intro; unfold equiv, gcounter_equiv, same_counts in *; congruence.
  - intros a a' Ha b b' Hb n. by rewrite !Hup, Ha, Hb.
  - intros a _ n. rewrite Hup. simpl. rewrite get_empty. lia.
  - intros a n. rewrite Hup. lia.
  - intros a b c _ _ _ n. rewrite !Hup. lia.
  - intros a b _ _ _ n. rewrite !Hup. lia.
Qed.
End GCounter.

(** ** PNCounter *)

Module PNCounter.
Definition NewPNCounter : PNCounter :=
  MkPNCounter GCounter.NewGCounter GCounter.NewGCounter.

Definition Increment (p : PNCounter) (nodeID : string) (delta : N) : PNCounter :=
  MkPNCounter (GCounter.Increment (positive_ p) nodeID delta) (negative p).

Definition Decrement (p : PNCounter) (nodeID : string) (delta : N) : PNCounter :=
  MkPNCounter (positive_ p) (GCounter.Increment (negative p) nodeID delta).

(** [int64(p) - int64(n)]: both conversions and the subtraction wrap. *)
Definition Value (p : PNCounter) : Z :=
  i64 (i64 (Z.of_N (GCounter.Value (positive_ p))) -
       i64 (Z.of_N (GCounter.Value (negative p)))).

Definition Merge (p : PNCounter) (other : CRDT) : result string PNCounter :=
  match other with
  | AsPNCounter otherCounter =>
      match GCounter.Merge (positive_ p) (AsGCounter (positive_ otherCounter)) with
      | Err err => Err ("failed to merge positive counters: " +:+ err)%string
      | Ok pos =>
          match GCounter.Merge (negative p) (AsGCounter (negative otherCounter)) with
          | Err err => Err ("failed to merge negative counters: " +:+ err)%string
          | Ok neg => Ok (MkPNCounter pos neg)
          end
      end
  | _ => Err (cannot_merge "PNCounter" other)
  end.

Definition Clone (p : PNCounter) : PNCounter :=
  MkPNCounter (GCounter.Clone (positive_ p)) (GCounter.Clone (negative p)).

#[global] Instance pncounter_equiv : Equiv PNCounter :=
  λ a b, positive_ a ≡ positive_ b /\ negative a ≡ negative b.

(** [Merge] between two PN-counters never fails. *)
Definition merge (p other : PNCounter) : PNCounter :=
  MkPNCounter (GCounter.merge (positive_ p) (positive_ other))
              (GCounter.merge (negative p) (negative other)).

Lemma Merge_ok p o : Merge p (AsPNCounter o) = Ok (merge p o).
Proof. done. Qed.

Lemma pncounter_Clone_id p : Clone p = p.
Proof. destruct p. unfold Clone. by rewrite !GCounter.gcounter_Clone_id. Qed.

(** The value as one conversion of the exact difference. *)
Lemma Value_diff p :
  Value p = i64 (Z.of_N (count_sum (counters (positive_ p))) -
                 Z.of_N (count_sum (counters (negative p)))).
Proof.
  unfold Value. rewrite i64_sub, !GCounter.Value_sum. unfold u64n.
  rewrite !N2Z.inj_mod. change (Z.of_N (2 ^ 64)) with (2 ^ 64)%Z.
  apply i64_cong. by rewrite <-Zminus_mod.
Qed.

#[global] Instance Value_proper : Proper ((≡) ==> (=)) Value.
Proof. intros a b [Hp Hn]. unfold Value. by rewrite Hp, Hn. Qed.

Lemma i64_add_u64n x y : i64 (x + Z.of_N (u64n y)) = i64 (x + Z.of_N y).
Proof.
  apply i64_cong. unfold u64n. rewrite N2Z.inj_mod. apply Zplus_mod_idemp_r.
Qed.

Lemma i64_sub_u64n x y : i64 (x - Z.of_N (u64n y)) = i64 (x - Z.of_N y).
Proof.
  apply i64_cong. unfold u64n. rewrite N2Z.inj_mod. apply Zminus_mod_idemp_r.
Qed.

Lemma pncounter_Value_Increment p n d : Value (Increment p n d) = i64 (Value p + Z.of_N d).
Proof.
  unfold Value, Increment. simpl.
  rewrite GCounter.gcounter_Value_Increment, !i64_sub, i64_add_l.
  rewrite <-Z.add_opp_l, i64_add_u64n. f_equal. lia.
Qed.

Lemma Value_Decrement p n d : Value (Decrement p n d) = i64 (Value p - Z.of_N d).
Proof.
  unfold Value, Decrement. simpl.
  rewrite GCounter.gcounter_Value_Increment, !i64_sub, i64_sub_l, i64_sub_u64n.
  f_equal. lia.
Qed.

#[global] Instance pncounter_replicated : Replicated PNCounter := {|
  rep_new := NewPNCounter; rep_merge := merge;
  rep_ok := λ _, True; rep_compat := λ _ _, True |}.

#[global] Instance pncounter_laws : ReplicatedLaws PNCounter.
Proof.
  split; simpl; try done.
  - split.
    + by intros a.
    + intros a b [??]. split; by symmetry.
    + intros a b c [??] [??]. split; by etrans.
  - intros a a' [Hp Hn] b b' [Hp' Hn']. split.
    + exact (rep_merge_proper (A := GCounter) _ _ Hp _ _ Hp').
    + exact (rep_merge_proper (A := GCounter) _ _ Hn _ _ Hn').
  - intros a _. split; exact (rep_merge_new (A := GCounter) _ I).
  - intros a. split; exact (rep_merge_idem (A := GCounter) _).
  - intros a b c _ _ _. split; exact (rep_merge_assoc (A := GCounter) _ _ _ I I I).
  - intros a b _ _ _. split; exact (rep_merge_comm (A := GCounter) _ _ I I I).
Qed.
End PNCounter.

(** ** LWWRegister *)

Module LWWRegister.
Definition NewLWWRegister : LWWRegister := MkLWW VNil zero_time "".

(** [t1.After(t2) || (t1.Equal(t2) && n1 > n2)] *)
Definition wins (t1 : Z) (n1 : string) (t2 : Z) (n2 : string) : bool :=
  time_after t1 t2 || ((t1 =? t2)%Z && String.ltb n2 n1).

Definition Set_ (r : LWWRegister) (v : GoValue) (ts : Z) (n : string) : LWWRegister :=
  if wins ts n (timestamp r) (nodeID r) then MkLWW v ts n else r.

Definition Get (r : LWWRegister) : GoValue := value r.

Definition GetWithMetadata (r : LWWRegister) : GoValue * Z * string :=
  (value r, timestamp r, nodeID r).

Definition merge (r other : LWWRegister) : LWWRegister :=
  if wins (timestamp other) (nodeID other) (timestamp r) (nodeID r)
  then MkLWW (value other) (timestamp other) (nodeID other) else r.

Definition Merge (r : LWWRegister) (other : CRDT) : result string LWWRegister :=
  match other with
  | AsLWWRegister otherReg => Ok (merge r otherReg)
  | _ => Err (cannot_merge "LWWRegister" other)
  end.

Definition Clone (r : LWWRegister) : LWWRegister :=
  MkLWW (value r) (timestamp r) (nodeID r).

#[global] Instance lww_equiv : Equiv LWWRegister := (=).

(** A write as the register that holds only it. *)
Definition same_stamp (a b : LWWRegister) : Prop :=
  timestamp a = timestamp b /\ nodeID a = nodeID b.

(** Equal stamps carry equal values: no node writes twice in a nanosecond. *)
Definition lww_compat (a b : LWWRegister) : Prop := same_stamp a b -> value a = value b.

(** Every register is at or above the fresh one, which holds [nil]. *)
Definition lww_ok (r : LWWRegister) : Prop :=
  (0 <= timestamp r)%Z /\
  (timestamp r = 0%Z -> nodeID r = "" -> value r = VNil).

Lemma wins_irrefl t n : wins t n t n = false.
Proof.
  unfold wins, time_after. rewrite Z.ltb_irrefl, Z.eqb_refl. apply string_ltb_irrefl.
Qed.

Lemma wins_spec t1 n1 t2 n2 :
  wins t1 n1 t2 n2 = true <-> (t2 < t1 \/ t1 = t2 /\ String.ltb n2 n1 = true)%Z.
Proof.
  unfold wins, time_after. rewrite orb_true_iff, andb_true_iff, Z.ltb_lt, Z.eqb_eq. done.
Qed.

Lemma wins_trans t1 n1 t2 n2 t3 n3 :
  wins t1 n1 t2 n2 = true -> wins t2 n2 t3 n3 = true -> wins t1 n1 t3 n3 = true.
Proof.
  rewrite !wins_spec. intros [?|[-> H1]] [?|[-> H2]]; [lia..|].
  right. split; [done|]. by eapply string_ltb_trans.
Qed.

Lemma wins_connected t1 n1 t2 n2 :
  wins t1 n1 t2 n2 = false -> wins t2 n2 t1 n1 = false -> t1 = t2 /\ n1 = n2.
Proof.
  unfold wins, time_after.
  rewrite !orb_false_iff, !andb_false_iff, !Z.ltb_ge, !Z.eqb_neq.
  intros [? H1] [? H2]. assert (t1 = t2) as -> by lia. split; [done|].
  destruct H1 as [|H1]; [done|]. destruct H2 as [|H2]; [done|].
  by apply string_ltb_connected.
Qed.

Lemma wins_asym t1 n1 t2 n2 :
  wins t1 n1 t2 n2 = true -> wins t2 n2 t1 n1 = false.
Proof.
  intros H1. destruct (wins t2 n2 t1 n1) eqn:H2; [|done].
  pose proof (wins_trans _ _ _ _ _ _ H1 H2) as H3. by rewrite wins_irrefl in H3.
Qed.

(** A register that does not lose to [b] does not lose to what [b] beats. *)
Lemma wins_cotrans t1 n1 t2 n2 t3 n3 :
  wins t1 n1 t3 n3 = true -> wins t1 n1 t2 n2 = true \/ wins t2 n2 t3 n3 = true.
Proof.
  intros H13. destruct (wins t1 n1 t2 n2) eqn:H12; [by left|right].
  destruct (wins t2 n2 t1 n1) eqn:H21; [by eapply wins_trans|].
  by destruct (wins_connected _ _ _ _ H12 H21) as [-> ->].
Qed.

(** [merge] keeps the register with the winning stamp. *)
Lemma merge_if r o :
  merge r o = if wins (timestamp o) (nodeID o) (timestamp r) (nodeID r) then o else r.
Proof. unfold merge. destruct o; by destruct (wins _ _ _ _). Qed.

Lemma Set_merge r v ts n : Set_ r v ts n = merge r (MkLWW v ts n).
Proof. done. Qed.

Lemma lww_Clone_id r : Clone r = r.
Proof. by destruct r. Qed.

#[global] Instance lww_replicated : Replicated LWWRegister := {|
  rep_new := NewLWWRegister; rep_merge := merge;
  rep_ok := lww_ok; rep_compat := lww_compat |}.

#[global] Instance lww_laws : ReplicatedLaws LWWRegister.
Proof.
  split; unfold equiv, lww_equiv; simpl; try apply _.
  - split; simpl; [unfold zero_time; lia | done].
  - intros a b Ha Hb. rewrite merge_if. by destruct (wins _ _ _ _).
  - intros [v t n] [Ht Hv]. rewrite merge_if. simpl in *.
    destruct (wins t n zero_time "") eqn:Hw; [done|].
    assert (wins zero_time "" t n = false) as Hw'.
    { apply not_true_is_false. rewrite wins_spec. unfold zero_time.
      intros [?|[_ H]]; [lia|]. by destruct n. }
    destruct (wins_connected _ _ _ _ Hw Hw') as [-> ->].
    unfold NewLWWRegister. by rewrite Hv.
  - intros a. by rewrite merge_if, wins_irrefl.
  - intros a b c _ _ _. rewrite !merge_if.
    destruct (wins (timestamp b) (nodeID b) (timestamp a) (nodeID a)) eqn:Hba,
      (wins (timestamp c) (nodeID c) (timestamp b) (nodeID b)) eqn:Hcb; simpl;
      rewrite ?Hba, ?Hcb; try done.
    + by rewrite (wins_trans _ _ _ _ _ _ Hcb Hba).
    + destruct (wins (timestamp c) _ (timestamp a) _) eqn:Hca; [|done].
      destruct (wins_cotrans _ _ (timestamp b) (nodeID b) _ _ Hca); congruence.
  - intros a b _ _ Hc. rewrite !merge_if.
    destruct (wins (timestamp b) (nodeID b) _ _) eqn:Hba.
    + by rewrite (wins_asym _ _ _ _ Hba).
    + destruct (wins (timestamp a) (nodeID a) _ _) eqn:Hab; [done|].
      destruct (wins_connected _ _ _ _ Hab Hba) as [Ht Hn].
      specialize (Hc (conj Ht Hn)). destruct a, b. simpl in *. congruence.
Qed.
End LWWRegister.

(** ** ORSet *)

Module ORSet.
Definition NewORSet : ORSet := MkORSet ∅.

(** [s.elements[element]], the nil map where the element is absent. *)
Definition tags (s : ORSet) (e : string) : gset N := get ∅ (set_elements s) e.

(** The tag is what [uuid.New()] returned. *)
Definition Add (s : ORSet) (element : string) (tag : N) : ORSet :=
  MkORSet (<[element := {[tag]} ∪ tags s element]> (set_elements s)).

Definition Remove (s : ORSet) (element : string) : ORSet :=
  MkORSet (delete element (set_elements s)).

Definition Contains (s : ORSet) (element : string) : bool :=
  match set_elements s !! element with
  | Some tags => Nat.ltb 0 (size tags)
  | None => false
  end.

Definition add_element (result : list string) (kv : string * gset N) : list string :=
  if Nat.ltb 0 (size kv.2) then result ++ [kv.1] else result.

(** [Elements] when Go ranges over the map as [l]. *)
Definition elements_in (l : list (string * gset N)) : list string :=
  foldl add_element [] l.

Definition Elements (s : ORSet) : list string := elements_in (map_to_list (set_elements s)).

(** The inner loop: [s.elements[element][tag] = true]. *)
Definition add_tags (ts : gset N) (l : list N) : gset N :=
  foldl (λ ts tag, {[tag]} ∪ ts) ts l.

Definition merge_element (m : gmap string (gset N)) (kv : string * gset N)
  : gmap string (gset N) :=
  <[kv.1 := add_tags (get ∅ m kv.1) (elements kv.2)]> m.

Definition merge (s other : ORSet) : ORSet :=
  MkORSet (foldl merge_element (set_elements s) (map_to_list (set_elements other))).

Definition Merge (s : ORSet) (other : CRDT) : result string ORSet :=
  match other with
  | AsORSet otherSet => Ok (merge s otherSet)
  | _ => Err (cannot_merge "ORSet" other)
  end.

Definition clone_element (m : gmap string (gset N)) (kv : string * gset N)
  : gmap string (gset N) :=
  <[kv.1 := add_tags ∅ (elements kv.2)]> m.

Definition Clone (s : ORSet) : ORSet :=
  MkORSet (foldl clone_element ∅ (map_to_list (set_elements s))).

Definition Size (s : ORSet) : nat :=
  foldl (λ count '(_, tags), if Nat.ltb 0 (size (tags : gset N)) then S count else count)
    0%nat (map_to_list (set_elements s)).

#[global] Instance orset_equiv : Equiv ORSet := λ a b, forall e, tags a e = tags b e.

Lemma add_tags_union ts l : add_tags ts l = list_to_set l ∪ ts.
Proof.
  revert ts. induction l as [|t l IH]; intros ts; simpl; [set_solver|].
  rewrite IH. set_solver.
Qed.

Lemma add_tags_elements ts (o : gset N) : add_tags ts (elements o) = o ∪ ts.
Proof. by rewrite add_tags_union, list_to_set_elements_L. Qed.

#[global] Instance merge_element_local :
  KeyLocal merge_element (λ _ o x, Some (o ∪ default ∅ x)).
Proof.
  split; intros m k v; unfold merge_element, get; simpl.
  - by rewrite lookup_insert_eq, add_tags_elements.
  - intros j Hj. by rewrite lookup_insert_ne.
Qed.

#[global] Instance clone_element_local : KeyLocal clone_element (λ _ o _, Some o).
Proof.
  split; intros m k v; unfold clone_element; simpl.
  - by rewrite lookup_insert_eq, add_tags_elements, union_empty_r_L.
  - intros j Hj. by rewrite lookup_insert_ne.
Qed.

Lemma tags_merge s o e : tags (merge s o) e = tags s e ∪ tags o e.
Proof.
  unfold tags, merge, get. simpl.
  rewrite (range_lookup _ (set_elements o)) by apply ranges_refl.
  destruct (set_elements o !! e); simpl; set_solver.
Qed.

Lemma tags_Add s e t e' :
  tags (Add s e t) e' = if decide (e = e') then {[t]} ∪ tags s e else tags s e'.
Proof. unfold tags, Add. simpl. by rewrite get_insert. Qed.

Lemma tags_Remove s e e' :
  tags (Remove s e) e' = if decide (e = e') then ∅ else tags s e'.
Proof.
  unfold tags, Remove, get. simpl. rewrite lookup_delete. by case_decide.
Qed.

Lemma size_pos (X : gset N) : Nat.ltb 0 (size X) = true <-> X <> ∅.
Proof.
  rewrite Nat.ltb_lt. split.
  - intros Hs ->. rewrite size_empty in Hs. lia.
  - intros HX. destruct (decide (size X = 0%nat)) as [Hz|]; [|lia].
    by apply size_empty_inv, leibniz_equiv in Hz.
Qed.

Lemma Contains_tags s e : Contains s e = true <-> tags s e <> ∅.
Proof.
  unfold Contains, tags, get. destruct (set_elements s !! e); simpl; [apply size_pos|].
  split; done.
Qed.

#[global] Instance Contains_proper : Proper ((≡) ==> (=) ==> (=)) Contains.
Proof.
  intros a b Hab e ? <-. apply eq_iff_eq_true. rewrite !Contains_tags. by rewrite Hab.
Qed.

Lemma orset_Clone_id s : Clone s = s.
Proof.
  destruct s as [m]. unfold Clone. f_equal. simpl. apply map_eq. intros e.
  rewrite (range_lookup _ m) by apply ranges_refl.
  destruct (m !! e); [done | apply lookup_empty].
Qed.

Lemma elements_in_spec (l : list (string * gset N)) (e : string) (result : list string) :
  e ∈ foldl add_element result l <->
  e ∈ result \/ exists ts, (e, ts) ∈ l /\ ts <> ∅.
Proof.
  revert result. induction l as [|[e' ts] l IH]; intros result; simpl.
  { split; [by left|]. intros [|(?&[]%not_elem_of_nil&_)]; done. }
  rewrite IH. unfold add_element. simpl. destruct (Nat.ltb 0 (size ts)) eqn:Hs.
  - apply size_pos in Hs. rewrite elem_of_app, list_elem_of_singleton. split.
    + intros [[? | ->]|(ts'&?&?)]; [by left|right..].
      * exists ts. split; [left | done].
      * exists ts'. split; [by right | done].
    + intros [?|(ts'&[[= -> ->]|?]%elem_of_cons&?)]; [eauto..|].
      right. by exists ts'.
  - apply not_true_iff_false in Hs. rewrite size_pos in Hs. split.
    + intros [?|(ts'&?&?)]; [by left|right]. exists ts'. split; [by right | done].
    + intros [?|(ts'&[[= -> ->]|?]%elem_of_cons&?)]; [by left|done|right]. by exists ts'.
Qed.

(** [Elements] lists what [Contains] accepts, in any iteration order. *)
Lemma elements_in_contains l s e :
  ranges l (set_elements s) -> e ∈ elements_in l <-> Contains s e = true.
Proof.
  intros Hl. unfold elements_in. rewrite elements_in_spec, Contains_tags.
  unfold tags, get. split.
  - intros [[]%not_elem_of_nil|(ts&Hin&Hts)].
    apply ranges_elem with (o := set_elements s) in Hin; [|done]. by rewrite Hin.
  - intros Hts. right. destruct (set_elements s !! e) as [ts|] eqn:He; [|done].
    exists ts. split; [|done]. by rewrite (ranges_elem l (set_elements s)).
Qed.

#[global] Instance orset_replicated : Replicated ORSet := {|
  rep_new := NewORSet; rep_merge := merge;
  rep_ok := λ _, True; rep_compat := λ _ _, True |}.

#[global] Instance orset_laws : ReplicatedLaws ORSet.
Proof.
  split; simpl; try done.
  - split; repeat intro; unfold equiv, orset_equiv in *; congruence.
  - intros a a' Ha b b' Hb e. by rewrite !tags_merge, Ha, Hb.
  - intros a _ e. rewrite tags_merge. unfold tags at 1. simpl. rewrite get_empty. set_solver.
  - intros a e. rewrite tags_merge. set_solver.
  - intros a b c _ _ _ e. rewrite !tags_merge. set_solver.
  - intros a b _ _ _ e. rewrite !tags_merge. set_solver.
Qed.
End ORSet.

(** ** A network of G-counters

    Node [i] increments its own entry of its own replica and merges the
    replicas of its peers, at any time and in any order.  [issued] is the
    specification: what each node has added so far. *)

Module Network.
Record sys := Mk { replicas : string -> GCounter; issued : string -> N }.

Definition init : sys := Mk (λ _, GCounter.NewGCounter) (λ _, 0).

Inductive step : sys -> sys -> Prop :=
| step_increment i d s :
    issued s i + d < 2 ^ 64 ->
    step s (Mk (<[i := GCounter.Increment (replicas s i) i d]> (replicas s))
               (<[i := issued s i + d]> (issued s)))
| step_merge i j s :
    step s (Mk (<[i := GCounter.merge (replicas s i) (replicas s j)]> (replicas s))
               (issued s)).

(** No replica counts more than was issued; each knows its own node exactly. *)
Definition inv (s : sys) : Prop :=
  (forall i n, GCounter.count (replicas s i) n <= issued s n) /\
  (forall n, GCounter.count (replicas s n) n = issued s n) /\
  (forall n, issued s n < 2 ^ 64).

Lemma inv_init : inv init.
Proof. repeat split; unfold GCounter.count; simpl; intros; rewrite ?get_empty; lia. Qed.

Lemma inv_step s s' : step s s' -> inv s -> inv s'.
Proof.
  intros [i d s0 Hd|i j s0] (Hle & Hown & Hlt); repeat split; simpl.
  - intros k n. destruct (decide (i = k)) as [<-|Hk];
      rewrite ?fn_lookup_insert, ?fn_lookup_insert_ne by done.
    + rewrite GCounter.count_Increment. case_decide as Hn.
      * subst n. rewrite Hown, fn_lookup_insert, u64n_small; [lia | done].
      * by rewrite fn_lookup_insert_ne.
    + destruct (decide (i = n)) as [<-|Hn];
        rewrite ?fn_lookup_insert, ?fn_lookup_insert_ne by done; [|done].
      specialize (Hle k i). lia.
  - intros n. destruct (decide (i = n)) as [<-|Hn];
      rewrite ?fn_lookup_insert, ?fn_lookup_insert_ne by done; [|done].
    by rewrite GCounter.count_Increment, decide_True, Hown, u64n_small.
  - intros n. destruct (decide (i = n)) as [<-|Hn];
      by rewrite ?fn_lookup_insert, ?fn_lookup_insert_ne.
  - intros k n. destruct (decide (i = k)) as [<-|Hk];
      rewrite ?fn_lookup_insert, ?fn_lookup_insert_ne by done; [|done].
    rewrite GCounter.count_merge. pose proof (Hle i n). pose proof (Hle j n). lia.
  - intros n. destruct (decide (i = n)) as [<-|Hn];
      rewrite ?fn_lookup_insert, ?fn_lookup_insert_ne by done; [|done].
    rewrite GCounter.count_merge, Hown. specialize (Hle j i). lia.
  - done.
Qed.

Lemma inv_reachable s : rtc step init s -> inv s.
Proof.
  intros Hr. pose proof inv_init as Hi. revert Hi.
  induction Hr; eauto using inv_step.
Qed.

Lemma count_merge_all (g : GCounter) (l : list GCounter) n :
  GCounter.count (merge_all g l) n =
    foldr (λ o acc, N.max (GCounter.count o n) acc) (GCounter.count g n) l.
Proof.
  revert g. induction l as [|o l IH]; intros g; simpl; [done|].
  rewrite IH. change (rep_merge g o) with (GCounter.merge g o).
  rewrite GCounter.count_merge. clear IH.
  induction l as [|o' l IHl]; simpl; lia.
Qed.

(** The counts of the listed nodes, added up. *)
Definition sum_over (f : string -> N) (nodes : list string) : N :=
  foldr (λ n acc, f n + acc) 0 nodes.

Lemma sum_over_ext f g nodes :
  (forall n, n ∈ nodes -> f n = g n) -> sum_over f nodes = sum_over g nodes.
Proof.
  induction nodes as [|n nodes IH]; intros Hfg; simpl; [done|].
  rewrite (Hfg n) by left. f_equal. apply IH. intros k Hk. apply Hfg. by right.
Qed.

Lemma count_sum_support m nodes :
  NoDup nodes -> (forall n, get 0 m n <> 0 -> n ∈ nodes) ->
  count_sum m = sum_over (get 0 m) nodes.
Proof.
  intros Hnd. revert m. induction Hnd as [|n nodes Hn _ IH]; intros m Hm; simpl.
  - transitivity (count_sum ∅); [|done]. apply count_sum_same. intros n.
    rewrite get_empty. destruct (decide (get 0 m n = 0)) as [|Hz]; [done|].
    by apply Hm, not_elem_of_nil in Hz.
  - rewrite (count_sum_delete m n), (IH (delete n m)).
    + f_equal. apply sum_over_ext. intros k Hk. unfold get.
      rewrite lookup_delete_ne; congruence.
    + intros k. unfold get. destruct (decide (n = k)) as [<-|Hk].
      * by rewrite lookup_delete_eq.
      * rewrite lookup_delete_ne by done. intros Hz.
        by apply Hm, elem_of_cons in Hz as [->|].
Qed.

(** A replica that hears from every node that issued anything counts exactly
    what was issued at each node. *)
Lemma merge_all_exact s i peers n :
  inv s -> (n = i \/ n ∈ peers \/ issued s n = 0) ->
  GCounter.count (merge_all (replicas s i) (replicas s <$> peers)) n = issued s n.
Proof.
  intros (Hle & Hown & _) Hn. rewrite count_merge_all. apply N.le_antisymm.
  - clear Hn. induction peers as [|j peers IH]; csimpl; [apply Hle|].
    specialize (Hle j n). lia.
  - destruct Hn as [->|[Hn|Hz]]; [|induction Hn; csimpl|lia].
    + rewrite <-Hown. induction peers as [|j peers IH]; csimpl; lia.
    + rewrite Hown. lia.
    + lia.
Qed.
End Network.

(** ** Properties *)

(** A local operation on a PN-counter. *)
Inductive pn_op :=
| OpInc (node : string) (delta : N)
| OpDec (node : string) (delta : N).

Definition pn_apply (p : PNCounter) (op : pn_op) : PNCounter :=
  match op with
  | OpInc n d => PNCounter.Increment p n d
  | OpDec n d => PNCounter.Decrement p n d
  end.

Definition pn_delta (op : pn_op) : Z :=
  match op with OpInc _ d => Z.of_N d | OpDec _ d => - Z.of_N d end.

Definition pn_total (ops : list pn_op) : Z := foldr (λ op acc, pn_delta op + acc)%Z 0%Z ops.

Lemma Value_in_i64 p : in_i64 (PNCounter.Value p).
Proof. apply i64_range. Qed.

(** A write to a last-write-wins register. *)
Record lww_write := Write { w_value : GoValue; w_time : Z; w_node : string }.

Definition lww_set (r : LWWRegister) (w : lww_write) : LWWRegister :=
  LWWRegister.Set_ r (w_value w) (w_time w) (w_node w).

Definition as_register (w : lww_write) : LWWRegister :=
  MkLWW (w_value w) (w_time w) (w_node w).

(** Writes with the same stamp are the same write. *)
Definition distinct_stamps (l : list lww_write) : Prop :=
  forall w w', w ∈ l -> w' ∈ l ->
    w_time w = w_time w' -> w_node w = w_node w' -> w = w'.

(** [w] is newer than the stamp of [r]. *)
Definition beats (w : lww_write) (r : LWWRegister) : bool :=
  LWWRegister.wins (w_time w) (w_node w) (timestamp r) (nodeID r).

Lemma lww_set_swap r w w' :
  (w_time w = w_time w' -> w_node w = w_node w' -> w = w') ->
  lww_set (lww_set r w) w' = lww_set (lww_set r w') w.
Proof.
  intros Hd. unfold lww_set. rewrite !LWWRegister.Set_merge, !LWWRegister.merge_if.
  destruct w as [v t n], w' as [v' t' n']. simpl in *.
  destruct (LWWRegister.wins t n (timestamp r) _) eqn:H1,
    (LWWRegister.wins t' n' (timestamp r) _) eqn:H2; simpl; rewrite ?H1, ?H2; try done.
  - destruct (LWWRegister.wins t' n' t n) eqn:H3.
    + by rewrite (LWWRegister.wins_asym _ _ _ _ H3).
    + destruct (LWWRegister.wins t n t' n') eqn:H4; [done|].
      destruct (LWWRegister.wins_connected _ _ _ _ H4 H3) as [-> ->].
      by injection (Hd eq_refl eq_refl) as ->.
  - destruct (LWWRegister.wins t' n' t n) eqn:H3; [|done].
    by rewrite (LWWRegister.wins_trans _ _ _ _ _ _ H3 H1) in H2.
  - destruct (LWWRegister.wins t n t' n') eqn:H3; [|done].
    by rewrite (LWWRegister.wins_trans _ _ _ _ _ _ H3 H2) in H1.
Qed.

Lemma lww_sets_perm l l' r :
  distinct_stamps l -> l ≡ₚ l' -> foldl lww_set r l = foldl lww_set r l'.
Proof.
  intros Hd Hl. revert r Hd.
  induction Hl as [|w l l' _ IH|w w' l|l1 l2 l3 H12 IH1 _ IH2]; intros r Hd; simpl; auto.
  - apply IH. intros a b Ha Hb. apply Hd; by right.
  - f_equal. apply lww_set_swap. apply Hd; [left | right; left].
  - rewrite IH1 by done. apply IH2. intros a b. rewrite <-H12. apply Hd.
Qed.

Lemma lww_sets_beat l r w : beats w (foldl lww_set r l) = true -> beats w r = true.
Proof.
  revert r. induction l as [|w' l IH]; intros r; simpl; [done|].
  intros H%IH. unfold lww_set, LWWRegister.Set_ in H.
  destruct (LWWRegister.wins (w_time w') (w_node w') _ _) eqn:Hw; [|done].
  by eapply LWWRegister.wins_trans.
Qed.

Lemma lww_sets_max l r w : w ∈ l -> beats w (foldl lww_set r l) = false.
Proof.
  intros Hw. revert r. induction Hw as [w l|w w' l _ IH]; intros r; simpl; [|apply IH].
  apply not_true_iff_false. intros H%lww_sets_beat.
  unfold beats, lww_set, LWWRegister.Set_ in H.
  destruct (LWWRegister.wins (w_time w) _ (timestamp r) _) eqn:Hr; [|congruence].
  simpl in H. by rewrite LWWRegister.wins_irrefl in H.
Qed.

Lemma lww_sets_origin l r : foldl lww_set r l = r \/ exists w, w ∈ l /\ foldl lww_set r l = as_register w.
Proof.
  revert r. induction l as [|w l IH]; intros r; simpl; [by left|].
  destruct (IH (lww_set r w)) as [->|(w'&?&->)].
  - unfold lww_set, LWWRegister.Set_. destruct (LWWRegister.wins _ _ _ _); [|by left].
    right. exists w. split; [left | done].
  - right. exists w'. split; [by right | done].
Qed.

(** [VectorClock.HappensBefore] decides the causal order: at every node the
    first clock is at most the second, and somewhere it is smaller.  The answer
    does not depend on the orders in which Go ranges over the two maps. *)
Theorem happens_before_decides l l' vc other :
  ranges l (VectorClock.entries vc) -> ranges l' (VectorClock.entries other) ->
  VectorClock.happens_before_in l l' vc other = VectorClock.HappensBefore vc other /\
  (VectorClock.HappensBefore vc other = true <->
     (forall n, VectorClock.at_ vc n <= VectorClock.at_ other n) /\
     exists n, VectorClock.at_ vc n < VectorClock.at_ other n).
Proof.
  intros Hl Hl'. split; [|apply VectorClock.HappensBefore_true].
  apply eq_iff_eq_true. rewrite VectorClock.HappensBefore_true.
  by apply VectorClock.happens_before_spec.
Qed.

Lemma happens_before_decides_witness :
  let a := VectorClock.Mk {["n1" := 1]} in
  let b := VectorClock.Mk {["n1" := 1; "n2" := 3]} in
  VectorClock.happens_before_in [("n1", 1)] [("n2", 3); ("n1", 1)] a b =
    VectorClock.HappensBefore a b.
Proof.
  refine (proj1 (happens_before_decides [("n1", 1)] [("n2", 3); ("n1", 1)]
    (VectorClock.Mk {["n1" := 1]}) (VectorClock.Mk {["n1" := 1; "n2" := 3]}) _ _)).
  - vm_compute. reflexivity.
  - vm_compute. apply Permutation_swap || reflexivity.
Defined.



(** The value of a PN-counter after any sequence of increments and decrements
    at any nodes is its old value plus the sum of the signed deltas, wrapped once
    to [int64]: the wrap-around of the entries, of the two sums and of the
    conversions never shows otherwise. *)
Theorem pncounter_value_tracks p ops :
  PNCounter.Value (foldl pn_apply p ops) = i64 (PNCounter.Value p + pn_total ops).
Proof.
  revert p. induction ops as [|op ops IH]; intros p; simpl.
  - rewrite Z.add_0_r. symmetry. apply i64_small, Value_in_i64.
  - rewrite IH. transitivity (i64 (i64 (PNCounter.Value p + pn_delta op) + pn_total ops)).
    + do 2 f_equal. destruct op as [n d|n d]; simpl;
        [apply PNCounter.pncounter_Value_Increment | apply PNCounter.Value_Decrement].
    + rewrite i64_add_l. f_equal. lia.
Qed.

(** Last write wins: writes with distinct stamps leave the register in the
    same state in whatever order they arrive; that state is the old one or one of
    the writes, and no write has a newer stamp than it. *)
Theorem lww_last_write_wins l l' r :
  distinct_stamps l -> l ≡ₚ l' ->
  foldl lww_set r l = foldl lww_set r l' /\
  (foldl lww_set r l = r \/ exists w, w ∈ l /\ foldl lww_set r l = as_register w) /\
  (forall w, w ∈ l -> beats w (foldl lww_set r l) = false).
Proof.
  intros Hd Hl. split; [by apply lww_sets_perm|]. split; [apply lww_sets_origin|].
  intros w. apply lww_sets_max.
Qed.

Lemma lww_last_write_wins_witness :
  let l := [Write (VString "a") 5 "n1"; Write (VString "b") 5 "n2"; Write VNil 3 "n3"] in
  foldl lww_set LWWRegister.NewLWWRegister l =
    foldl lww_set LWWRegister.NewLWWRegister (reverse l).
Proof.
  intros l. apply (lww_last_write_wins l (reverse l) LWWRegister.NewLWWRegister).
  - intros w w' Hw Hw'. unfold l in *.
    repeat setoid_rewrite elem_of_cons in Hw. repeat setoid_rewrite elem_of_cons in Hw'.
    destruct Hw as [->|[->|[->|[]%not_elem_of_nil]]],
      Hw' as [->|[->|[->|[]%not_elem_of_nil]]]; done.
  - symmetry. apply reverse_Permutation.
Defined.

(** [ORSet.Remove] forgets the removed tags, so it does not survive a merge: a
    removed element is back exactly when the other replica still holds it, even
    with only tags that the remover had observed. *)
Theorem orset_remove_undone s o e :
  ORSet.Contains (ORSet.Remove s e) e = false /\
  ORSet.Contains (ORSet.merge (ORSet.Remove s e) o) e = ORSet.Contains o e.
Proof.
  split.
  - apply not_true_is_false. rewrite ORSet.Contains_tags, ORSet.tags_Remove.
    rewrite decide_True by done. auto.
  - apply eq_iff_eq_true. rewrite !ORSet.Contains_tags, ORSet.tags_merge.
    rewrite ORSet.tags_Remove, decide_True by done. by rewrite union_empty_l_L.
Qed.
