(* ===== verification/StateCrdt.v ===== *)
(** * StateCrdt: workspace state synchronisation

    [pkg/collaboration/state_crdt.go]: a replica keeps maps of counters,
    registers and sets, a vector clock and the log of operations.  Local
    methods and [ApplyOperation] are the operation-based side, [Merge] the
    state-based side.  Every method holds the replica's mutex from start to end,
    so it is a function of the replica.  [uuid.New()] and [time.Now()] are
    arguments. *)

From stdpp Require Import base gmap strings list sorting.
From Stdlib Require Import ZArith Lia.
From S2P Require Import Prelude Replicated Crdt.

(** [StateOperation] *)
Record StateOperation := MkOp {
  op_ID : N;
  op_Type : string;
  op_Path : string;
  op_Value : GoValue;
  op_Delta : Z;
  op_NodeID : string;
  op_Clock : VectorClock.t;
  op_Timestamp : Z;
}.

(** [StateCRDT] *)
Record StateCRDT := MkState {
  stateID : N;
  st_nodeID : string;
  clock : VectorClock.t;
  st_counters : gmap string PNCounter;
  registers : gmap string LWWRegister;
  sets : gmap string ORSet;
  operations : list StateOperation;
}.

Definition NewStateCRDT (id : N) (node : string) : StateCRDT :=
  MkState id node VectorClock.NewVectorClock ∅ ∅ ∅ [].

(** Field updates, as the code assigns them. *)
Definition with_clock (s : StateCRDT) (c : VectorClock.t) : StateCRDT :=
  MkState (stateID s) (st_nodeID s) c (st_counters s) (registers s) (sets s) (operations s).
Definition with_counters (s : StateCRDT) (m : gmap string PNCounter) : StateCRDT :=
  MkState (stateID s) (st_nodeID s) (clock s) m (registers s) (sets s) (operations s).
Definition with_registers (s : StateCRDT) (m : gmap string LWWRegister) : StateCRDT :=
  MkState (stateID s) (st_nodeID s) (clock s) (st_counters s) m (sets s) (operations s).
Definition with_sets (s : StateCRDT) (m : gmap string ORSet) : StateCRDT :=
  MkState (stateID s) (st_nodeID s) (clock s) (st_counters s) (registers s) m (operations s).
Definition log_op (s : StateCRDT) (op : StateOperation) : StateCRDT :=
  MkState (stateID s) (st_nodeID s) (clock s) (st_counters s) (registers s) (sets s)
    (operations s ++ [op]).

(** [if m[path] == nil { m[path] = New() }], then [m[path].method(...)]. *)
Definition update_path {A} (new : A) (f : A -> A) (m : gmap string A) (path : string)
  : gmap string A :=
  <[path := f (default new (m !! path))]> m.

(** The operation a local method creates: the clock is already incremented. *)
Definition new_op (s : StateCRDT) (id : N) (now : Z) (typ path : string)
    (v : GoValue) (delta : Z) : StateOperation :=
  MkOp id typ path v delta (st_nodeID s) (VectorClock.Clone (clock s)) now.

Definition tick (s : StateCRDT) : StateCRDT :=
  with_clock s (VectorClock.Increment (clock s) (st_nodeID s)).

(** [Set(path, value)] *)
Definition Set_ (s : StateCRDT) (id : N) (now : Z) (path : string) (v : GoValue)
  : StateOperation * StateCRDT :=
  let s := tick s in
  let op := new_op s id now "set" path v 0 in
  let s := with_registers s
    (update_path LWWRegister.NewLWWRegister
       (λ r, LWWRegister.Set_ r v (op_Timestamp op) (op_NodeID op)) (registers s) path) in
  (op, log_op s op).

(** [Get(path)]: registers first, then counters, then sets. *)
Definition Get (s : StateCRDT) (path : string) : GoValue * bool :=
  match registers s !! path with
  | Some reg =>
      let value := LWWRegister.Get reg in
      (value, bool_decide (value <> VNil))
  | None =>
      match st_counters s !! path with
      | Some counter => (VInt64 (PNCounter.Value counter), true)
      | None =>
          match sets s !! path with
          | Some set => (VStrings (ORSet.Elements set), true)
          | None => (VNil, false)
          end
      end
  end.

(** [IncrementCounter(path, delta)]: the logged delta is [int64(delta)]. *)
Definition IncrementCounter (s : StateCRDT) (id : N) (now : Z) (path : string) (delta : N)
  : StateOperation * StateCRDT :=
  let s := tick s in
  let op := new_op s id now "increment" path VNil (i64 (Z.of_N delta)) in
  let s := with_counters s
    (update_path PNCounter.NewPNCounter
       (λ c, PNCounter.Increment c (op_NodeID op) delta) (st_counters s) path) in
  (op, log_op s op).

Definition DecrementCounter (s : StateCRDT) (id : N) (now : Z) (path : string) (delta : N)
  : StateOperation * StateCRDT :=
  let s := tick s in
  let op := new_op s id now "decrement" path VNil (i64 (Z.of_N delta)) in
  let s := with_counters s
    (update_path PNCounter.NewPNCounter
       (λ c, PNCounter.Decrement c (op_NodeID op) delta) (st_counters s) path) in
  (op, log_op s op).

(** [AddToSet(path, element)]: [tag] is what [ORSet.Add] draws. *)
Definition AddToSet (s : StateCRDT) (id : N) (now : Z) (tag : N) (path element : string)
  : StateOperation * StateCRDT :=
  let s := tick s in
  let op := new_op s id now "add_to_set" path (VString element) 0 in
  let s := with_sets s
    (update_path ORSet.NewORSet (λ o, ORSet.Add o element tag) (sets s) path) in
  (op, log_op s op).

Definition RemoveFromSet (s : StateCRDT) (id : N) (now : Z) (path element : string)
  : StateOperation * StateCRDT :=
  let s := tick s in
  let op := new_op s id now "remove_from_set" path (VString element) 0 in
  let s := match sets s !! path with
           | Some o => with_sets s (<[path := ORSet.Remove o element]> (sets s))
           | None => s
           end in
  (op, log_op s op).

(** [uint64(op.Delta)] *)
Definition op_delta64 (op : StateOperation) : N := Z.to_N (u64 (op_Delta op)).

(** [ApplyOperation(op)]: the new replica, and the error of an unknown type.
    The clock is updated before the type is looked at; [tag] is the draw of
    [ORSet.Add]. *)
Definition ApplyOperation (s : StateCRDT) (tag : N) (op : StateOperation)
  : StateCRDT * option string :=
  let s := with_clock s (VectorClock.Update (clock s) (op_Clock op)) in
  let path := op_Path op in
  if bool_decide (op_Type op = "set") then
    (log_op (with_registers s
       (update_path LWWRegister.NewLWWRegister
          (λ r, LWWRegister.Set_ r (op_Value op) (op_Timestamp op) (op_NodeID op))
          (registers s) path)) op, None)
  else if bool_decide (op_Type op = "increment") then
    (log_op (with_counters s
       (update_path PNCounter.NewPNCounter
          (λ c, PNCounter.Increment c (op_NodeID op) (op_delta64 op))
          (st_counters s) path)) op, None)
  else if bool_decide (op_Type op = "decrement") then
    (log_op (with_counters s
       (update_path PNCounter.NewPNCounter
          (λ c, PNCounter.Decrement c (op_NodeID op) (op_delta64 op))
          (st_counters s) path)) op, None)
  else if bool_decide (op_Type op = "add_to_set") then
    (log_op (with_sets s
       (update_path ORSet.NewORSet
          (λ o, match op_Value op with
                | VString element => ORSet.Add o element tag
                | _ => o
                end) (sets s) path)) op, None)
  else if bool_decide (op_Type op = "remove_from_set") then
    (log_op (match sets s !! path, op_Value op with
             | Some o, VString element =>
                 with_sets s (<[path := ORSet.Remove o element]> (sets s))
             | _, _ => s
             end) op, None)
  else (s, Some ("unknown operation type: " +:+ op_Type op)%string).

(** [GetState()]: three loops over one result map, later paths overwriting. *)
Definition state_of_registers (m : gmap string GoValue) (kv : string * LWWRegister)
  : gmap string GoValue :=
  match LWWRegister.Get kv.2 with VNil => m | v => <[kv.1 := v]> m end.
Definition state_of_counters (m : gmap string GoValue) (kv : string * PNCounter)
  : gmap string GoValue := <[kv.1 := VInt64 (PNCounter.Value kv.2)]> m.
Definition state_of_sets (m : gmap string GoValue) (kv : string * ORSet)
  : gmap string GoValue := <[kv.1 := VStrings (ORSet.Elements kv.2)]> m.

Definition GetState (s : StateCRDT) : gmap string GoValue :=
  let state := foldl state_of_registers ∅ (map_to_list (registers s)) in
  let state := foldl state_of_counters state (map_to_list (st_counters s)) in
  foldl state_of_sets state (map_to_list (sets s)).

(** [Merge(other)] for another [*StateCRDT]: the three maps, then the clock.
    The log is not merged. *)
Definition merge (s other : StateCRDT) : StateCRDT :=
  let s := with_registers s (foldl merge_entry (registers s) (map_to_list (registers other))) in
  let s := with_counters s (foldl merge_entry (st_counters s) (map_to_list (st_counters other))) in
  let s := with_sets s (foldl merge_entry (sets s) (map_to_list (sets other))) in
  with_clock s (VectorClock.Update (clock s) (clock other)).

(** A value of interface type [crdt.CRDT], as [Merge] receives it. *)
Inductive MergeArg :=
| AsStateCRDT (s : StateCRDT)
| AsLeaf (c : CRDT).

Definition Merge (s : StateCRDT) (other : MergeArg) : result string StateCRDT :=
  match other with
  | AsStateCRDT otherState => Ok (merge s otherState)
  | AsLeaf c => Err (cannot_merge "StateCRDT" c)
  end.

(** [clone.m[path] = x.Clone()] *)
Definition clone_entry {A} (clone : A -> A) (acc : gmap string A) (kv : string * A)
  : gmap string A := <[kv.1 := clone kv.2]> acc.

Definition Clone (s : StateCRDT) : StateCRDT :=
  MkState (stateID s) (st_nodeID s) (VectorClock.Clone (clock s))
    (foldl (clone_entry PNCounter.Clone) ∅ (map_to_list (st_counters s)))
    (foldl (clone_entry LWWRegister.Clone) ∅ (map_to_list (registers s)))
    (foldl (clone_entry ORSet.Clone) ∅ (map_to_list (sets s)))
    (operations s).

(** [GetOperationsSince(since)]: the loop's [continue] as a filter. *)
Definition sent_since (since : VectorClock.t) (op : StateOperation) : bool :=
  negb (negb (VectorClock.HappensBefore since (op_Clock op)) &&
        negb (VectorClock.Concurrent since (op_Clock op))).

Definition GetOperationsSince (s : StateCRDT) (since : VectorClock.t) : list StateOperation :=
  foldl (λ ops op, if sent_since since op then ops ++ [op] else ops) [] (operations s).

(** ** Merge is a join of the replicated part *)

#[global] Instance state_equiv : Equiv StateCRDT := λ a b,
  clock a ≡ clock b /\ st_counters a ≡ st_counters b /\
  registers a ≡ registers b /\ sets a ≡ sets b.

#[global] Instance state_replicated : Replicated StateCRDT := {|
  rep_new := NewStateCRDT 0 "";
  rep_merge := merge;
  rep_ok := λ s, rep_ok (registers s);
  rep_compat := λ a b, rep_compat (registers a) (registers b) |}.

Lemma merge_parts a b :
  clock (merge a b) = rep_merge (clock a) (clock b) /\
  st_counters (merge a b) = rep_merge (st_counters a) (st_counters b) /\
  registers (merge a b) = rep_merge (registers a) (registers b) /\
  sets (merge a b) = rep_merge (sets a) (sets b).
Proof. done. Qed.

Lemma counters_ok (m : gmap string PNCounter) : rep_ok m.
Proof. by intros p a _. Qed.

Lemma sets_ok (m : gmap string ORSet) : rep_ok m.
Proof. by intros p a _. Qed.

Lemma clocks_ok (c : VectorClock.t) : rep_ok c.
Proof. done. Qed.
#[global] Hint Resolve counters_ok sets_ok clocks_ok : replicated.

(** Prove an equivalence of replicas part by part, [t] being given the type. *)
Ltac by_parts t :=
  split; [t VectorClock.t|split; [t (gmap string PNCounter)|
  split; [t (gmap string LWWRegister)|t (gmap string ORSet)]]].

#[global] Instance state_laws : ReplicatedLaws StateCRDT.
Proof.
  split.
  - split.
    + intros a. by repeat split.
    + intros a b (?&?&?&?). repeat split; by symmetry.
    + intros a b c (?&?&?&?) (?&?&?&?). repeat split; by etrans.
  - intros a a' (?&?&?&?) b b' (?&?&?&?).
    by_parts ltac:(fun A => by refine (rep_merge_proper (A := A) _ _ _ _ _ _)).
  - exact (rep_ok_new (A := gmap string LWWRegister)).
  - intros a b Ha Hb. exact (rep_ok_merge (A := gmap string LWWRegister) _ _ Ha Hb).
  - intros a Ha.
    by_parts ltac:(fun A => refine (rep_merge_new (A := A) _ _); auto with replicated).
  - intros a. by_parts ltac:(fun A => exact (rep_merge_idem (A := A) _)).
  - intros a b c Ha Hb Hc.
    by_parts ltac:(fun A => refine (rep_merge_assoc (A := A) _ _ _ _ _ _);
                            auto with replicated).
  - intros a b Ha Hb Hc.
    by_parts ltac:(fun A => refine (rep_merge_comm (A := A) _ _ _ _ _);
                            first [exact Hc | done | auto with replicated]).
Qed.

(** ** The effect of an operation, part by part *)

Definition reg_effect (op : StateOperation) (m : gmap string LWWRegister)
  : gmap string LWWRegister :=
  if bool_decide (op_Type op = "set") then
    update_path LWWRegister.NewLWWRegister
      (λ r, LWWRegister.Set_ r (op_Value op) (op_Timestamp op) (op_NodeID op)) m (op_Path op)
  else m.

Definition counter_change (op : StateOperation) (c : PNCounter) : PNCounter :=
  if bool_decide (op_Type op = "increment")
  then PNCounter.Increment c (op_NodeID op) (op_delta64 op)
  else PNCounter.Decrement c (op_NodeID op) (op_delta64 op).

Definition counter_effect (op : StateOperation) (m : gmap string PNCounter)
  : gmap string PNCounter :=
  if bool_decide (op_Type op = "increment" \/ op_Type op = "decrement")
  then update_path PNCounter.NewPNCounter (counter_change op) m (op_Path op) else m.

Definition set_add (tag : N) (op : StateOperation) (o : ORSet) : ORSet :=
  match op_Value op with VString element => ORSet.Add o element tag | _ => o end.

Definition set_effect (tag : N) (op : StateOperation) (m : gmap string ORSet)
  : gmap string ORSet :=
  if bool_decide (op_Type op = "add_to_set") then
    update_path ORSet.NewORSet (set_add tag op) m (op_Path op)
  else if bool_decide (op_Type op = "remove_from_set") then
    match m !! op_Path op, op_Value op with
    | Some o, VString element => <[op_Path op := ORSet.Remove o element]> m
    | _, _ => m
    end
  else m.

Lemma apply_parts s tag op :
  let s' := fst (ApplyOperation s tag op) in
  clock s' = VectorClock.Update (clock s) (op_Clock op) /\
  st_counters s' = counter_effect op (st_counters s) /\
  registers s' = reg_effect op (registers s) /\
  sets s' = set_effect tag op (sets s).
Proof.
  unfold ApplyOperation, counter_effect, counter_change, reg_effect, set_effect.
  destruct (bool_decide_reflect (op_Type op = "set")) as [E|];
    [rewrite E; by repeat split|].
  destruct (bool_decide_reflect (op_Type op = "increment")) as [E|];
    [rewrite E; by repeat split|].
  destruct (bool_decide_reflect (op_Type op = "decrement")) as [E|];
    [rewrite E; by repeat split|].
  rewrite (bool_decide_eq_false_2 (_ \/ _)) by tauto.
  repeat case_bool_decide; [by repeat split| |by repeat split].
  simpl. destruct (sets s !! op_Path op), (op_Value op); by repeat split.
Qed.

#[global] Instance Increment_proper :
  Proper ((≡) ==> (=) ==> (=) ==> (≡@{PNCounter})) PNCounter.Increment.
Proof.
  intros a b [Hp Hn] n ? <- d ? <-. split; [|done].
  by apply (GCounter.Increment_proper _ _ Hp).
Qed.

#[global] Instance Decrement_proper :
  Proper ((≡) ==> (=) ==> (=) ==> (≡@{PNCounter})) PNCounter.Decrement.
Proof.
  intros a b [Hp Hn] n ? <- d ? <-. split; [done|].
  by apply (GCounter.Increment_proper _ _ Hn).
Qed.

#[global] Instance Add_proper : Proper ((≡) ==> (=) ==> (=) ==> (≡@{ORSet})) ORSet.Add.
Proof. intros a b Hab e ? <- t ? <- e'. by rewrite !ORSet.tags_Add, !(Hab _). Qed.

#[global] Instance Remove_proper : Proper ((≡) ==> (=) ==> (≡@{ORSet})) ORSet.Remove.
Proof. intros a b Hab e ? <- e'. by rewrite !ORSet.tags_Remove, (Hab _). Qed.

Lemma update_path_proper `{Equiv A} `{!Equivalence (≡@{A})} (new : A) f m m' p :
  Proper ((≡) ==> (≡)) f -> m ≡ m' ->
  update_path new f m p ≡ update_path new f m' p.
Proof.
  intros Hf Hm. unfold update_path. apply insert_proper; [|done].
  apply Hf. destruct (Hm p); simpl; [done | reflexivity].
Qed.

Lemma update_path_swap `{Equiv A} `{!Equivalence (≡@{A})} (new : A) f g m p q :
  (forall x, f (g x) ≡ g (f x)) ->
  update_path new f (update_path new g m p) q ≡ update_path new g (update_path new f m q) p.
Proof.
  intros Hfg. unfold update_path. destruct (decide (p = q)) as [->|Hpq].
  - rewrite !lookup_insert_eq, !insert_insert_eq. simpl. by apply insert_proper.
  - rewrite !lookup_insert_ne by done. by rewrite insert_insert_ne.
Qed.

#[global] Instance apply_proper tag op :
  Proper ((≡) ==> (≡)) (λ s, fst (ApplyOperation s tag op)).
Proof.
  intros s s' (Hc & Hn & Hr & Hs).
  destruct (apply_parts s tag op) as (E1 & E2 & E3 & E4).
  destruct (apply_parts s' tag op) as (F1 & F2 & F3 & F4).
  split; [|split; [|split]]; cbv beta; rewrite ?E1, ?E2, ?E3, ?E4, ?F1, ?F2, ?F3, ?F4.
  - by refine (rep_merge_proper (A := VectorClock.t) _ _ _ _ _ _).
  - unfold counter_effect. case_bool_decide; [|done].
    apply update_path_proper; [|done]. intros a b Hab. unfold counter_change.
    case_bool_decide; by rewrite Hab.
  - unfold reg_effect. case_bool_decide; [|done].
    apply update_path_proper; [|done]. by intros a b ->.
  - unfold set_effect. repeat case_bool_decide; [| |done].
    + apply update_path_proper; [|done]. intros a b Hab. unfold set_add.
      destruct (op_Value op); by rewrite ?Hab.
    + specialize (Hs (op_Path op)) as Hp.
      destruct Hp as [x y Hxy|]; [|done].
      destruct (op_Value op); try done. apply insert_proper; [|done]. by rewrite Hxy.
Qed.

(** Two operations whose order does not matter: neither is a removal, and two
    writes carry different stamps or the same value. *)
Definition commuting (op op' : StateOperation) : Prop :=
  op_Type op <> "remove_from_set" /\ op_Type op' <> "remove_from_set" /\
  (op_Timestamp op = op_Timestamp op' -> op_NodeID op = op_NodeID op' ->
   op_Value op = op_Value op').

Lemma counter_change_swap op op' c :
  counter_change op (counter_change op' c) ≡ counter_change op' (counter_change op c).
Proof.
  assert (forall g n d n' d' m,
    GCounter.count (GCounter.Increment (GCounter.Increment g n d) n' d') m =
    GCounter.count (GCounter.Increment (GCounter.Increment g n' d') n d) m) as Hg.
  { intros g n d n' d' m. rewrite !GCounter.count_Increment.
    destruct (decide (n = m)) as [->|]; destruct (decide (n' = m)) as [->|];
      rewrite ?decide_True by done; rewrite ?decide_False by done; try done.
    rewrite !u64n_add_l. f_equal. lia. }
  unfold counter_change. repeat case_bool_decide; (split; intros m; [| ]; simpl;
    first [reflexivity | apply Hg]).
Qed.

Lemma set_add_swap tag tag' op op' o :
  set_add tag op (set_add tag' op' o) ≡ set_add tag' op' (set_add tag op o).
Proof.
  unfold set_add. destruct (op_Value op) as [| | |e| |], (op_Value op') as [| | |e'| |];
    try done. intros x. rewrite !ORSet.tags_Add.
  destruct (decide (e = x)) as [->|]; destruct (decide (e' = x)) as [->|];
    rewrite ?decide_True by done; rewrite ?decide_False by done; set_solver.
Qed.

Lemma apply_swap s tag tag' op op' :
  commuting op op' ->
  fst (ApplyOperation (fst (ApplyOperation s tag op)) tag' op') ≡
  fst (ApplyOperation (fst (ApplyOperation s tag' op')) tag op).
Proof.
  intros (Hr & Hr' & Hst).
  destruct (apply_parts s tag op) as (E1 & E2 & E3 & E4).
  destruct (apply_parts s tag' op') as (F1 & F2 & F3 & F4).
  destruct (apply_parts (fst (ApplyOperation s tag op)) tag' op') as (G1 & G2 & G3 & G4).
  destruct (apply_parts (fst (ApplyOperation s tag' op')) tag op) as (K1 & K2 & K3 & K4).
  split; [|split; [|split]].
  - rewrite G1, K1, E1, F1.
    exact (merge_swap (A := VectorClock.t) _ _ _ I I I I).
  - rewrite G2, K2, E2, F2. unfold counter_effect.
    repeat case_bool_decide; try done. apply update_path_swap. apply counter_change_swap.
  - rewrite G3, K3, E3, F3. unfold reg_effect.
    repeat case_bool_decide; try done. apply update_path_swap. intros r.
    refine (lww_set_swap r (Write (op_Value op) (op_Timestamp op) (op_NodeID op))
      (Write (op_Value op') (op_Timestamp op') (op_NodeID op')) _). simpl. intros Ht Hn. by rewrite (Hst Ht Hn), Ht, Hn.
  - rewrite G4, K4, E4, F4. unfold set_effect.
    rewrite !(bool_decide_eq_false_2 (_ = "remove_from_set")) by done.
    repeat case_bool_decide; try done. apply update_path_swap. apply set_add_swap.
Qed.

(** Deliver operations one after the other, each with the tag its [Add] draws. *)
Definition deliver (s : StateCRDT) (l : list (N * StateOperation)) : StateCRDT :=
  foldl (λ s t, fst (ApplyOperation s t.1 t.2)) s l.

Definition all_commuting (l : list (N * StateOperation)) : Prop :=
  forall a b, a ∈ l -> b ∈ l -> commuting a.2 b.2.

Lemma deliver_proper l s s' : s ≡ s' -> deliver s l ≡ deliver s' l.
Proof.
  revert s s'. induction l as [|[t op] l IH]; intros s s' Hs; simpl; [done|].
  apply IH. by apply apply_proper.
Qed.

Lemma deliver_perm l l' s : all_commuting l -> l ≡ₚ l' -> deliver s l ≡ deliver s l'.
Proof.
  intros Hc Hl. revert s Hc.
  induction Hl as [|a l l' _ IH|a b l|l1 l2 l3 H12 IH1 _ IH2]; intros s Hc; simpl.
  - done.
  - apply IH. intros x y Hx Hy. apply Hc; by right.
  - apply deliver_proper, apply_swap, Hc; [left | right; left].
  - etrans; [by apply IH1|]. apply IH2. intros x y. rewrite <-H12. apply Hc.
Qed.

(** ** Reachable replicas *)

(** What can happen to a replica.  Times of day are after Go's zero time. *)
Inductive evolves : StateCRDT -> StateCRDT -> Prop :=
| ev_set s id now path v : (0 < now)%Z -> evolves s (snd (Set_ s id now path v))
| ev_increment s id now path d : evolves s (snd (IncrementCounter s id now path d))
| ev_decrement s id now path d : evolves s (snd (DecrementCounter s id now path d))
| ev_add s id now tag path e : evolves s (snd (AddToSet s id now tag path e))
| ev_remove s id now path e : evolves s (snd (RemoveFromSet s id now path e))
| ev_apply s tag op : (0 < op_Timestamp op)%Z -> evolves s (fst (ApplyOperation s tag op))
| ev_merge s other : rep_ok other -> evolves s (merge s other).

Lemma new_state_ok id node : rep_ok (NewStateCRDT id node).
Proof. exact (rep_ok_new (A := gmap string LWWRegister)). Qed.

Lemma Set_ok r v t n :
  (0 < t)%Z -> rep_ok r -> rep_ok (LWWRegister.Set_ r v t n).
Proof.
  intros Ht Hr. unfold LWWRegister.Set_. destruct (LWWRegister.wins _ _ _ _); [|done].
  split; simpl; lia.
Qed.

Lemma update_path_ok `{ReplicatedLaws A} (f : A -> A) m p :
  (forall x, rep_ok x -> rep_ok (f x)) -> rep_ok m -> rep_ok (update_path rep_new f m p).
Proof.
  intros Hf Hm q x. unfold update_path. rewrite lookup_insert. case_decide.
  - intros [= <-]. apply Hf. by apply map_ok_default.
  - apply Hm.
Qed.

Lemma evolves_ok s s' : evolves s s' -> rep_ok s -> rep_ok s'.
Proof.
  intros Hev Hok. destruct Hev as [s id now path v Hnow| | | |s id now path e
                                   |s tag op Hnow|s other Hother]; try exact Hok.
  - refine (update_path_ok (A := LWWRegister) _ _ _ _ Hok). intros r. by apply Set_ok.
  - simpl. by destruct (sets s !! path).
  - change (rep_ok (registers (fst (ApplyOperation s tag op)))).
    destruct (apply_parts s tag op) as (_ & _ & -> & _). unfold reg_effect.
    case_bool_decide; [|exact Hok].
    refine (update_path_ok (A := LWWRegister) _ _ _ _ Hok). intros r. by apply Set_ok.
  - exact (rep_ok_merge (A := StateCRDT) _ _ Hok Hother).
Qed.

(** The sent delta survives [int64] and [uint64]. *)
Lemma delta_roundtrip d :
  (d < 2 ^ 64)%N -> Z.to_N (u64 (i64 (Z.of_N d))) = d.
Proof.
  intros Hd. unfold u64. rewrite i64_mod, Z.mod_small; [by rewrite N2Z.id|].
  split; [lia|]. change (2 ^ 64)%Z with (Z.of_N (2 ^ 64)). lia.
Qed.

Lemma tick_clock s :
  (VectorClock.at_ (clock s) (st_nodeID s) + 1 < 2 ^ 64)%N ->
  VectorClock.Update (clock s) (VectorClock.Clone (clock (tick s))) ≡ clock (tick s).
Proof.
  intros Hb n. rewrite VectorClock.clock_Clone_id.
  change (VectorClock.at_ (VectorClock.Update (clock s) (clock (tick s))) n =
          VectorClock.at_ (clock (tick s)) n).
  rewrite VectorClock.at_Update. unfold tick. simpl. rewrite VectorClock.at_Increment.
  case_decide as Hn; [|lia]. subst n. rewrite u64n_small by done. lia.
Qed.

(** The paths of a replica, by the kind of data they name. *)
Definition only_register (s : StateCRDT) path :=
  is_Some (registers s !! path) /\ st_counters s !! path = None /\ sets s !! path = None.

#[global] Instance state_of_registers_local :
  KeyLocal state_of_registers
    (λ _ r x, match LWWRegister.Get r with VNil => x | v => Some v end).
Proof.
  split; intros m k v; unfold state_of_registers; simpl.
  - destruct (LWWRegister.Get v); [done|..]; apply lookup_insert_eq.
  - intros j Hj. destruct (LWWRegister.Get v); [done|..]; by rewrite lookup_insert_ne.
Qed.

#[global] Instance state_of_counters_local :
  KeyLocal state_of_counters (λ _ c _, Some (VInt64 (PNCounter.Value c))).
Proof.
  split; intros m k v; unfold state_of_counters; simpl; [apply lookup_insert_eq|].
  intros j Hj. by rewrite lookup_insert_ne.
Qed.

#[global] Instance state_of_sets_local :
  KeyLocal state_of_sets (λ _ o _, Some (VStrings (ORSet.Elements o))).
Proof.
  split; intros m k v; unfold state_of_sets; simpl; [apply lookup_insert_eq|].
  intros j Hj. by rewrite lookup_insert_ne.
Qed.

(** [GetState] at a path: a set hides a counter, which hides a register. *)
Lemma GetState_at s path :
  GetState s !! path =
    match sets s !! path with
    | Some o => Some (VStrings (ORSet.Elements o))
    | None =>
        match st_counters s !! path with
        | Some c => Some (VInt64 (PNCounter.Value c))
        | None =>
            match registers s !! path with
            | Some r => match LWWRegister.Get r with VNil => None | v => Some v end
            | None => None
            end
        end
    end.
Proof.
  unfold GetState.
  rewrite (range_lookup _ (sets s)), (range_lookup _ (st_counters s)),
    (range_lookup _ (registers s)), lookup_empty by apply ranges_refl.
  by destruct (sets s !! path), (st_counters s !! path), (registers s !! path).
Qed.

#[global] Instance clone_entry_local {A} (clone : A -> A) :
  KeyLocal (clone_entry clone) (λ _ x _, Some (clone x)).
Proof.
  split; intros m k v; unfold clone_entry; simpl; [apply lookup_insert_eq|].
  intros j Hj. by rewrite lookup_insert_ne.
Qed.

Lemma clone_map {A} (clone : A -> A) (m : gmap string A) :
  (forall x, clone x = x) -> foldl (clone_entry clone) ∅ (map_to_list m) = m.
Proof.
  intros Hc. apply map_eq. intros p. rewrite (range_lookup _ m) by apply ranges_refl.
  destruct (m !! p); [by rewrite Hc | apply lookup_empty].
Qed.

Lemma state_Clone_id s : Clone s = s.
Proof.
  unfold Clone. rewrite VectorClock.clock_Clone_id, !clone_map; [by destruct s|..];
    auto using PNCounter.pncounter_Clone_id, LWWRegister.lww_Clone_id, ORSet.orset_Clone_id.
Qed.

Lemma GetOperationsSince_filter s since :
  GetOperationsSince s since = List.filter (sent_since since) (operations s).
Proof.
  unfold GetOperationsSince.
  assert (forall acc, foldl (λ ops op, if sent_since since op then ops ++ [op] else ops)
    acc (operations s) = acc ++ List.filter (sent_since since) (operations s)) as H.
  { induction (operations s) as [|op ops IH]; intros acc; simpl; [by rewrite app_nil_r|].
    rewrite IH. destruct (sent_since since op); [by rewrite <-app_assoc|done]. }
  apply (H []).
Qed.

(** An operation is held back only when its clock is causally before [since]. *)
Lemma sent_since_spec since op :
  sent_since since op = true <-> ~ VectorClock.causally_before (op_Clock op) since.
Proof.
  unfold sent_since, VectorClock.Concurrent.
  rewrite <-VectorClock.HappensBefore_true.
  destruct (VectorClock.HappensBefore since (op_Clock op)) eqn:H1,
    (VectorClock.HappensBefore (op_Clock op) since) eqn:H2; simpl; try tauto.
  - apply VectorClock.HappensBefore_true in H1, H2. exfalso.
    apply (irreflexivity VectorClock.causally_before since). by etrans.
  - split; congruence.
  - split; congruence.
  - split; congruence.
Qed.

Lemma sets_apply s tag op :
  sets (fst (ApplyOperation s tag op)) = set_effect tag op (sets s).
Proof. apply apply_parts. Qed.

Lemma counters_apply s tag op :
  st_counters (fst (ApplyOperation s tag op)) = counter_effect op (st_counters s).
Proof. apply apply_parts. Qed.

Lemma clock_apply s tag op :
  clock (fst (ApplyOperation s tag op)) = VectorClock.Update (clock s) (op_Clock op).
Proof. apply apply_parts. Qed.

Lemma set_effect_add tag op e m :
  op_Type op = "add_to_set" -> op_Value op = VString e ->
  set_effect tag op m =
    update_path ORSet.NewORSet (λ o, ORSet.Add o e tag) m (op_Path op).
Proof.
  intros Ht Hv. unfold set_effect, set_add. by rewrite Ht, Hv.
Qed.

(** What a removal does where the path exists; elsewhere it does nothing. *)
Definition remove_at (e path : string) (m : gmap string ORSet) : gmap string ORSet :=
  match m !! path with Some o => <[path := ORSet.Remove o e]> m | None => m end.

Lemma set_effect_remove tag op e m :
  op_Type op = "remove_from_set" -> op_Value op = VString e ->
  set_effect tag op m = remove_at e (op_Path op) m.
Proof.
  intros Ht Hv. unfold set_effect, remove_at. rewrite Ht, Hv.
  rewrite bool_decide_eq_false_2 by done. rewrite bool_decide_eq_true_2 by done.
  by destruct (m !! op_Path op).
Qed.

Lemma counter_effect_increment op m :
  op_Type op = "increment" ->
  counter_effect op m =
    update_path PNCounter.NewPNCounter
      (λ c, PNCounter.Increment c (op_NodeID op) (op_delta64 op)) m (op_Path op).
Proof.
  intros Ht. unfold counter_effect, counter_change. by rewrite Ht.
Qed.

Lemma elem_of_GetOperationsSince s since op :
  op ∈ GetOperationsSince s since <->
    op ∈ operations s /\ ~ VectorClock.causally_before (op_Clock op) since.
Proof.
  rewrite GetOperationsSince_filter, <-sent_since_spec, !list_elem_of_In. apply filter_In.
Qed.

(** One round of pull synchronisation of [b] from [a] (no [Add] draws a tag). *)
Definition poll (a b : StateCRDT) : StateCRDT :=
  deliver b ((λ op, (0%N, op)) <$> GetOperationsSince a (clock b)).

Lemma poll_one a b op :
  operations a = [op] -> sent_since (clock b) op = true ->
  poll a b = fst (ApplyOperation b 0 op).
Proof.
  intros Ha Hs. unfold poll. rewrite GetOperationsSince_filter, Ha. simpl. by rewrite Hs.
Qed.

(** ** Properties *)

(** C6 Strong eventual consistency: replicas that merged the same states agree,
    whatever the order and the number of deliveries, when equally stamped writes
    to a register carry equal values.  They agree on what the code can read:
    each register's value, each counter's value, each set's members. *)
Theorem state_merge_converges (s : StateCRDT) (l l' : list StateCRDT) :
  rep_ok s -> all_compat l -> (forall a, a ∈ l <-> a ∈ l') ->
  merge_all s l ≡ merge_all s l' /\
  forall path,
    LWWRegister.Get <$> registers (merge_all s l) !! path =
      LWWRegister.Get <$> registers (merge_all s l') !! path /\
    PNCounter.Value <$> st_counters (merge_all s l) !! path =
      PNCounter.Value <$> st_counters (merge_all s l') !! path /\
    forall e, (λ o, ORSet.Contains o e) <$> sets (merge_all s l) !! path =
      (λ o, ORSet.Contains o e) <$> sets (merge_all s l') !! path.
Proof.
  intros Hs Hc Hll. pose proof (merge_all_converge s l l' Hs Hc Hll) as Heq.
  split; [done|]. destruct Heq as (_ & Hn & Hr & Ht). intros path.
  specialize (Hn path). specialize (Hr path). specialize (Ht path).
  split; [|split; [|intros e]].
  - by destruct Hr as [x y ->|].
  - destruct Hn as [x y Hxy|]; simpl; [by rewrite Hxy|done].
  - destruct Ht as [x y Hxy|]; simpl; [by rewrite Hxy|done].
Qed.

Lemma state_merge_converges_witness :
  let fresh := NewStateCRDT 1 "c" in
  let a := snd (IncrementCounter (NewStateCRDT 1 "a") 10 5 "hits" 3) in
  let b := snd (Set_ (NewStateCRDT 1 "b") 11 6 "title" (VString "x")) in
  merge_all fresh [a; b] ≡ merge_all fresh [b; a; b].
Proof.
  intros fresh a b.
  apply (state_merge_converges fresh [a; b] [b; a; b]).
  - apply new_state_ok.
  - split.
    + apply Forall_cons_2; [|apply Forall_cons_2; [|apply Forall_nil_2]].
      * exact (evolves_ok _ _ (ev_increment _ _ _ _ _) (new_state_ok _ _)).
      * refine (evolves_ok _ _ (ev_set (NewStateCRDT 1 "b") 11 6 "title" _ _) (new_state_ok _ _)). done.
    + intros x y Hx Hy. rewrite !elem_of_cons, elem_of_nil in Hx, Hy.
      destruct Hx as [->|[->|[]]], Hy as [->|[->|[]]]; intros p r r' Hr Hr' Hst; try done.
      by simplify_eq.
  - intros x. rewrite !elem_of_cons. tauto.
Defined.

(** Every replica that local operations, remote operations and merges produce
    from a new one is well formed: each register is at or above the fresh
    register, so that merging into a missing path is a join (the condition of
    the convergence theorem). *)
Theorem state_reachable_ok id node s :
  rtc evolves (NewStateCRDT id node) s -> rep_ok s /\ merge (NewStateCRDT id node) s ≡ s.
Proof.
  intros Hr. assert (rep_ok s) as Hok.
  { pose proof (new_state_ok id node) as Hnew. revert Hnew. induction Hr; eauto using evolves_ok. }
  split; [done|]. exact (rep_merge_new (A := StateCRDT) s Hok).
Qed.

Lemma state_reachable_ok_witness :
  rep_ok (snd (Set_ (NewStateCRDT 1 "a") 7 9 "title" (VString "x"))).
Proof.
  apply (state_reachable_ok 1 "a"). apply rtc_once. by apply ev_set.
Defined.

(** Operation-based synchronisation: operations other than removals, with
    distinctly stamped writes, can be delivered in any order. *)
Theorem state_delivery_order s l l' :
  all_commuting l -> l ≡ₚ l' ->
  deliver s l ≡ deliver s l' /\
  forall path, PNCounter.Value <$> st_counters (deliver s l) !! path =
               PNCounter.Value <$> st_counters (deliver s l') !! path.
Proof.
  intros Hc Hl. pose proof (deliver_perm l l' s Hc Hl) as Heq. split; [done|].
  intros path. destruct Heq as (_ & Hn & _).
  destruct (Hn path) as [x y Hxy|]; simpl; [by rewrite Hxy|done].
Qed.

Lemma state_delivery_order_witness :
  let op1 := fst (IncrementCounter (NewStateCRDT 1 "a") 10 5 "hits" 3) in
  let op2 := fst (Set_ (NewStateCRDT 1 "b") 11 6 "title" (VString "x")) in
  deliver (NewStateCRDT 1 "c") [(0%N, op1); (0%N, op2)] ≡
    deliver (NewStateCRDT 1 "c") [(0%N, op2); (0%N, op1)].
Proof.
  intros op1 op2. apply (state_delivery_order (NewStateCRDT 1 "c")
    [(0%N, op1); (0%N, op2)] [(0%N, op2); (0%N, op1)]).
  - intros x y Hx Hy. rewrite !elem_of_cons, elem_of_nil in Hx, Hy.
    destruct Hx as [->|[->|[]]], Hy as [->|[->|[]]]; by repeat split.
  - apply Permutation_swap.
Defined.

(** A concurrent add and removal of one element do not commute: the replica
    that applies the removal last loses the element, the other one keeps it, so
    two replicas that applied the same operations diverge. *)
Theorem state_add_remove_diverge s tag e add rem :
  op_Type add = "add_to_set" -> op_Value add = VString e ->
  op_Type rem = "remove_from_set" -> op_Value rem = VString e ->
  op_Path rem = op_Path add ->
  (λ o, ORSet.Contains o e) <$> sets (deliver s [(tag, add); (tag, rem)]) !! op_Path add
    = Some false /\
  (λ o, ORSet.Contains o e) <$> sets (deliver s [(tag, rem); (tag, add)]) !! op_Path add
    = Some true.
Proof.
  intros Ha Hva Hr Hvr Hp. unfold deliver. cbn [foldl fst snd].
  rewrite !sets_apply, (set_effect_remove _ rem e), (set_effect_add _ add e),
    (set_effect_add _ add e), !Hp by done.
  unfold update_path. split.
  - unfold remove_at. rewrite !lookup_insert_eq. simpl. f_equal. apply not_true_is_false. rewrite ORSet.Contains_tags, ORSet.tags_Remove.
    rewrite decide_True by done. auto.
  - rewrite lookup_insert_eq. simpl. f_equal.
    apply ORSet.Contains_tags. rewrite ORSet.tags_Add, decide_True by done. set_solver.
Qed.

Lemma state_add_remove_diverge_witness :
  let pre := NewStateCRDT 1 "a" in
  let add := fst (AddToSet pre 10 5 77 "labels" "x") in
  let rem := fst (RemoveFromSet pre 11 6 "labels" "x") in
  (λ o, ORSet.Contains o "x") <$>
    sets (deliver (NewStateCRDT 1 "c") [(77%N, add); (77%N, rem)]) !! "labels" = Some false.
Proof.
  intros pre add rem.
  by apply (state_add_remove_diverge (NewStateCRDT 1 "c") 77 "x" add rem).
Defined.

(** [GetOperationsSince] returns, in log order, every operation whose clock is
    not causally before [since].  The operation stamped with [since] itself is
    among them, and [ApplyOperation] does not recognise it: a peer that polls
    with its own clock applies an increment a second time. *)
Theorem state_poll_double_counts a_id id now path d :
  (d < 2 ^ 64)%N ->
  let a := snd (IncrementCounter (NewStateCRDT a_id "a") id now path d) in
  (forall since o, o ∈ GetOperationsSince a since <->
     o ∈ operations a /\ ~ VectorClock.causally_before (op_Clock o) since) /\
  forall b_id, let b1 := poll a (NewStateCRDT b_id "b") in
    PNCounter.Value <$> st_counters b1 !! path = Some (i64 (Z.of_N d)) /\
    PNCounter.Value <$> st_counters (poll a b1) !! path = Some (i64 (2 * Z.of_N d)).
Proof.
  intros Hd a. split; [intros since o; apply elem_of_GetOperationsSince|].
  intros b_id b1. subst a. set (op := fst (IncrementCounter (NewStateCRDT a_id "a") id now path d)).
  assert (b1 = fst (ApplyOperation (NewStateCRDT b_id "b") 0 op)) as -> by done.
  rewrite (poll_one _ _ op) by done.
  rewrite !counters_apply, !(counter_effect_increment op) by done.
  unfold update_path. rewrite !lookup_insert_eq.
  change (default _ (st_counters (NewStateCRDT b_id "b") !! op_Path op))
    with PNCounter.NewPNCounter.
  assert (forall x, PNCounter.Value <$> Some x = Some (PNCounter.Value x)) as Hv by done.
  assert (forall c : PNCounter, default PNCounter.NewPNCounter (Some c) = c) as Hd' by done.
  rewrite !Hv, !Hd'.
  rewrite !PNCounter.pncounter_Value_Increment. change (op_delta64 op) with (Z.to_N (u64 (i64 (Z.of_N d)))).
  change (PNCounter.Value PNCounter.NewPNCounter) with 0%Z.
  rewrite delta_roundtrip, i64_add_l by done. split; do 2 f_equal. lia.
Qed.

Lemma state_poll_double_counts_witness :
  let a := snd (IncrementCounter (NewStateCRDT 1 "a") 10 5 "hits" 3) in
  PNCounter.Value <$> st_counters (poll a (poll a (NewStateCRDT 2 "b"))) !! "hits" = Some 6%Z.
Proof.
  intros a. destruct (state_poll_double_counts 1 10 5 "hits" 3) as [_ H]; [done|].
  apply (H 2%N).
Defined.

(** A remote replica in the same state that applies a local operation reaches
    the state of the local replica: the effect of [Set], [IncrementCounter],
    [DecrementCounter] and [RemoveFromSet] is replayed exactly, deltas over the
    [int64] range included, and that of [AddToSet] up to the tag it draws. *)
Theorem state_remote_replay s peer id now path tag :
  s ≡ peer -> (VectorClock.at_ (clock s) (st_nodeID s) + 1 < 2 ^ 64)%N ->
  let replays (r : StateOperation * StateCRDT) :=
    fst (ApplyOperation peer tag (fst r)) ≡ snd r in
  (forall v, replays (Set_ s id now path v)) /\
  (forall d, (d < 2 ^ 64)%N -> replays (IncrementCounter s id now path d)) /\
  (forall d, (d < 2 ^ 64)%N -> replays (DecrementCounter s id now path d)) /\
  (forall e, replays (AddToSet s id now tag path e)) /\
  (forall e, replays (RemoveFromSet s id now path e)).
Proof.
  intros Heq Hb replays.
  assert (forall r, fst (ApplyOperation s tag (fst r)) ≡ snd r -> replays r) as Hsame.
  { intros r Hr. unfold replays. rewrite <-Hr. by apply apply_proper. }
  split; [|split; [|split; [|split]]]; intros; apply Hsame.
  - by split; [apply (tick_clock s Hb)|].
  - split; [apply (tick_clock s Hb)|]. simpl. unfold op_delta64. simpl.
    by rewrite delta_roundtrip.
  - split; [apply (tick_clock s Hb)|]. simpl. unfold op_delta64. simpl.
    by rewrite delta_roundtrip.
  - by split; [apply (tick_clock s Hb)|].
  - unfold ApplyOperation, RemoveFromSet. simpl.
    by destruct (sets s !! path); (split; [apply (tick_clock s Hb)|]).
Qed.

Lemma state_remote_replay_witness :
  let r := DecrementCounter (NewStateCRDT 1 "a") 10 5 "hits" (2 ^ 63) in
  fst (ApplyOperation (NewStateCRDT 2 "b") 0 (fst r)) ≡ snd r.
Proof.
  destruct (state_remote_replay (NewStateCRDT 1 "a") (NewStateCRDT 2 "b") 10 5 "hits" 0)
    as (_ & _ & H & _); [done | vm_compute; done |].
  apply H. vm_compute. done.
Defined.

(** [Get] and [GetState] disagree on a path that names data of two kinds: [Get]
    looks at registers, then counters, then sets, while in [GetState] sets
    overwrite counters and counters registers.  On a path of one kind they agree. *)
Theorem state_get_vs_getstate s path :
  (forall r c, registers s !! path = Some r -> st_counters s !! path = Some c ->
     sets s !! path = None ->
     fst (Get s path) = LWWRegister.Get r /\
     GetState s !! path = Some (VInt64 (PNCounter.Value c))) /\
  (st_counters s !! path = None /\ sets s !! path = None \/
   registers s !! path = None /\ sets s !! path = None \/
   registers s !! path = None /\ st_counters s !! path = None ->
     GetState s !! path = if snd (Get s path) then Some (fst (Get s path)) else None).
Proof.
  rewrite GetState_at. unfold Get. split.
  - intros r c -> -> ->. done.
  - intros [[-> ->]|[[-> ->]|[-> ->]]];
      [destruct (registers s !! path) as [r|]|destruct (st_counters s !! path)|
       destruct (sets s !! path)]; try done.
    simpl. by destruct (LWWRegister.Get r).
Qed.

Lemma state_get_vs_getstate_witness :
  let s := snd (Set_ (NewStateCRDT 1 "a") 10 5 "p" (VString "x")) in
  GetState s !! "p" = Some (VString "x").
Proof.
  intros s. rewrite (proj2 (state_get_vs_getstate s "p")); [done|]. by left.
Defined.
