(* ===== verification/GoFloat.v ===== *)
(** * GoFloat: [float64]

    A [float64] is an IEEE 754 binary64 number of [SpecFloat], the executable
    specification that comes with Rocq: 53 bits of precision, exponents below
    1024, round to nearest even.  The operators are Go's.  A decimal constant
    such as [0.6] is the division of two exact integers, which IEEE division
    rounds to the same nearest number as the compiler. *)

From stdpp Require Import base decidable tactics.
From Stdlib Require Import ZArith Lia.
From Corelib Require Import SpecFloat.
From S2P Require Import Prelude.

Local Open Scope Z_scope.

Definition float64 : Type := spec_float.

(** [float64(n)] for an integer. *)
Definition f64_of_Z (n : Z) : float64 := binary_normalize 53 1024 n 0 false.

Definition f64_add (x y : float64) : float64 := SFadd 53 1024 x y.
Definition f64_sub (x y : float64) : float64 := SFsub 53 1024 x y.
Definition f64_mul (x y : float64) : float64 := SFmul 53 1024 x y.
Definition f64_div (x y : float64) : float64 := SFdiv 53 1024 x y.
Definition f64_lt (x y : float64) : bool := SFltb x y.
Definition f64_le (x y : float64) : bool := SFleb x y.
Definition f64_eq (x y : float64) : bool := SFeqb x y.

(** A constant [num / den] of the source. *)
Definition f64_const (num den : Z) : float64 := f64_div (f64_of_Z num) (f64_of_Z den).

(** The integer part; [None] for infinities and NaN. *)
Definition f64_trunc (x : float64) : option Z :=
  match x with
  | S754_zero _ => Some 0
  | S754_finite s m e =>
      let a := if 0 <=? e then Z.pos m * 2 ^ e else Z.pos m / 2 ^ (- e) in
      Some (if s then - a else a)
  | _ => None
  end.

(** [int(x)]: Go leaves a value out of range to the implementation; amd64 yields
    the smallest [int64]. *)
Definition f64_to_int (x : float64) : Z :=
  match f64_trunc x with
  | Some z => if (min_int64 <=? z) && (z <=? max_int64) then z else min_int64
  | None => min_int64
  end.

(** [time.Duration.Seconds]. *)
Definition duration_seconds (d : Z) : float64 :=
  f64_add (f64_of_Z (Z.quot d second))
          (f64_div (f64_of_Z (Z.rem d second)) (f64_of_Z second)).

#[export] Instance float64_eq_dec : EqDecision float64.
Proof. unfold float64. solve_decision. Defined.

Lemma f64_to_int_range x : in_i64 (f64_to_int x).
Proof.
  unfold f64_to_int. destruct (f64_trunc x) as [z|]; [|unfold_ints; lia].
  destruct (_ && _) eqn:H; bool_hyps; unfold_ints; lia.
Qed.

Example f64_const_examples :
  f64_const 3 5 = S754_finite false 5404319552844595 (-53) /\
  f64_to_int (f64_mul (duration_seconds (1500 * millisecond)) (f64_of_Z 10)) = 15 /\
  f64_le (f64_div (f64_of_Z 6) (f64_of_Z 10)) (f64_const 3 5) = true.
Proof. vm_compute. done. Qed.

(** ** Order of floats

    Comparisons are lexicographic on sign, exponent and mantissa; NaN compares
    with nothing. *)

Ltac float_cases :=
  repeat match goal with
  | x : float64 |- _ => destruct x as [[]|[]| |[] ? ?]
  end; simpl; try done;
  repeat match goal with
  | |- context [Pos.compare_cont Eq ?a ?b] => change (Pos.compare_cont Eq a b) with (Pos.compare a b)
  | |- context [Z.compare ?a ?b] => destruct (Z.compare_spec a b); subst; simpl
  | |- context [Pos.compare ?a ?b] => destruct (Pos.compare_spec a b); subst; simpl
  end; try done; try lia.

Lemma f64_lt_le_trans x y z : f64_lt x y = true -> f64_le y z = true -> f64_lt x z = true.
Proof. unfold f64_lt, f64_le, SFltb, SFleb, SFcompare. float_cases. Qed.

Lemma f64_lt_irrefl x : f64_lt x x = false.
Proof. unfold f64_lt, f64_le, SFltb, SFleb, SFcompare. float_cases. Qed.

Lemma f64_eq_lt_l x y z : f64_eq x y = true -> f64_lt x z = f64_lt y z.
Proof. unfold f64_lt, f64_eq, SFltb, SFeqb, SFcompare. float_cases. Qed.

Lemma f64_eq_lt_r x y z : f64_eq x y = true -> f64_lt z x = f64_lt z y.
Proof. unfold f64_lt, f64_eq, SFltb, SFeqb, SFcompare. float_cases. Qed.

Lemma f64_lt_trans x y z : f64_lt x y = true -> f64_lt y z = true -> f64_lt x z = true.
Proof. unfold f64_lt, SFltb, SFcompare. float_cases. Qed.

(** A number, not NaN, is on one side of any two that differ. *)
Lemma f64_lt_split x y z :
  f64_eq z z = true -> f64_lt x y = true -> f64_lt x z = true \/ f64_lt z y = true.
Proof. unfold f64_lt, f64_eq, SFltb, SFeqb, SFcompare. float_cases; auto. Qed.
