(* ===== verification/Utf8.v ===== *)
(** * Utf8: Go strings as sequences of runes

    A Go string is a sequence of bytes.  [for i, r := range s] decodes it as UTF-8:
    [i] is the byte offset of the rune [r], and a byte that starts no valid encoding
    counts as the rune U+FFFD of width 1.  [string(rs)] encodes runes, with U+FFFD for
    the numbers that are no rune. *)

From stdpp Require Import base decidable list strings.
From Stdlib Require Import ZArith Lia.
From S2P Require Import Prelude.

Local Open Scope Z_scope.

Definition RuneError : Z := 0xFFFD.

Definition between (a b x : Z) : bool := (a <=? x) && (x <=? b).

(** A continuation byte, and its six bits. *)
Definition cont (b : Z) : bool := between 0x80 0xBF b.
Definition low6 (b : Z) : Z := b mod 64.

(** The second byte that the first byte of a long encoding allows. *)
Definition second3 (b0 b1 : Z) : bool :=
  if b0 =? 0xE0 then between 0xA0 0xBF b1
  else if b0 =? 0xED then between 0x80 0x9F b1 else cont b1.
Definition second4 (b0 b1 : Z) : bool :=
  if b0 =? 0xF0 then between 0x90 0xBF b1
  else if b0 =? 0xF4 then between 0x80 0x8F b1 else cont b1.

(** The first rune of [b0 :: bs] and its width in bytes ([utf8.DecodeRune]). *)
Definition decode_rune (b0 : Z) (bs : list Z) : Z * nat :=
  if b0 <? 0x80 then (b0, 1%nat)
  else if between 0xC2 0xDF b0 then
    match bs with
    | b1 :: _ => if cont b1 then ((b0 - 0xC0) * 64 + low6 b1, 2%nat) else (RuneError, 1%nat)
    | _ => (RuneError, 1%nat)
    end
  else if between 0xE0 0xEF b0 then
    match bs with
    | b1 :: b2 :: _ =>
        if second3 b0 b1 && cont b2
        then (((b0 - 0xE0) * 64 + low6 b1) * 64 + low6 b2, 3%nat) else (RuneError, 1%nat)
    | _ => (RuneError, 1%nat)
    end
  else if between 0xF0 0xF4 b0 then
    match bs with
    | b1 :: b2 :: b3 :: _ =>
        if second4 b0 b1 && cont b2 && cont b3
        then ((((b0 - 0xF0) * 64 + low6 b1) * 64 + low6 b2) * 64 + low6 b3, 4%nat)
        else (RuneError, 1%nat)
    | _ => (RuneError, 1%nat)
    end
  else (RuneError, 1%nat).

(** [for i, r := range s] from byte offset [i]; each rune takes at least one byte, so
    the number of bytes is enough fuel. *)
Fixpoint range_from (fuel : nat) (i : Z) (bs : list Z) : list (Z * Z) :=
  match fuel, bs with
  | S fuel, b :: bs =>
      let '(r, w) := decode_rune b bs in
      (i, r) :: range_from fuel (i + Z.of_nat w) (drop (w - 1) bs)
  | _, _ => []
  end.

Definition bytes_of (s : string) : list Z :=
  (λ a, Z.of_N (Ascii.N_of_ascii a)) <$> String.list_ascii_of_string s.
Definition string_of (bs : list Z) : string :=
  String.string_of_list_ascii ((λ b, Ascii.ascii_of_N (Z.to_N b)) <$> bs).

Definition range_string (s : string) : list (Z * Z) :=
  let bs := bytes_of s in range_from (length bs) 0 bs.
(** [[]rune(s)] *)
Definition runes (s : string) : list Z := snd <$> range_string s.

Definition valid_rune (r : Z) : bool :=
  between 0 0xD7FF r || between 0xE000 0x10FFFF r.

(** [utf8.AppendRune] *)
Definition encode_rune (r : Z) : list Z :=
  if negb (valid_rune r) then [0xEF; 0xBF; 0xBD]
  else if r <? 0x80 then [r]
  else if r <? 0x800 then [0xC0 + r / 64; 0x80 + low6 r]
  else if r <? 0x10000 then [0xE0 + r / 4096; 0x80 + low6 (r / 64); 0x80 + low6 r]
  else [0xF0 + r / 262144; 0x80 + low6 (r / 4096); 0x80 + low6 (r / 64); 0x80 + low6 r].

(** [string(rs)] *)
Definition string_of_runes (rs : list Z) : string := string_of (rs ≫= encode_rune).

Example runes_examples :
  runes "aé€" = [0x61; 0xE9; 0x20AC] /\ range_string "é!" = [(0, 0xE9); (2, 0x21)] /\
  string_of_runes [0x61; 0xE9; 0x20AC] = "aé€"%string /\
  runes (string_of [0xE2; 0x82; 0x41; 0xC0; 0xED; 0xA0; 0x80])
    = [RuneError; RuneError; 0x41; RuneError; RuneError; RuneError; RuneError].
Proof. vm_compute. done. Qed.

(** ** Round trip *)

Lemma between_true a b x : between a b x = true <-> a <= x <= b.
Proof. unfold between. rewrite andb_true_iff, !Z.leb_le. lia. Qed.

Lemma between_false a b x : between a b x = false <-> x < a \/ b < x.
Proof. rewrite <-not_true_iff_false, between_true. lia. Qed.

Ltac utf8_cases :=
  repeat match goal with
  | |- context [between ?a ?b ?x] =>
      let H := fresh "Hb" in
      destruct (between a b x) eqn:H; [apply between_true in H | apply between_false in H];
      simpl
  | |- context [Z.ltb ?a ?b] => destruct (Z.ltb_spec a b); simpl
  | |- context [Z.eqb ?a ?b] => destruct (Z.eqb_spec a b); simpl
  end.

Lemma low6_range b : 0 <= low6 b < 64.
Proof. unfold low6. apply Z.mod_pos_bound. lia. Qed.

Lemma cont_low6 b : cont (0x80 + low6 b) = true.
Proof. apply between_true. pose proof (low6_range b). lia. Qed.

Lemma low6_cont b : low6 (0x80 + low6 b) = low6 b.
Proof.
  unfold low6. rewrite Z.add_mod_idemp_r by lia. change 0x80 with (2 * 64).
  by rewrite Z.add_comm, Z_mod_plus_full.
Qed.

(** The groups of six bits give the number back. *)
Lemma low6_join r : r / 64 * 64 + low6 r = r.
Proof. unfold low6. pose proof (Z.div_mod r 64). lia. Qed.

Lemma div_join64 r : r / 4096 * 64 + low6 (r / 64) = r / 64.
Proof. change 4096 with (64 * 64). rewrite <-Z.div_div by lia. apply low6_join. Qed.

Lemma div_join4096 r : r / 262144 * 64 + low6 (r / 4096) = r / 4096.
Proof. change 262144 with (4096 * 64). rewrite <-Z.div_div by lia. apply low6_join. Qed.

Lemma valid_rune_range r : valid_rune r = true -> 0 <= r < 0xD800 \/ 0xE000 <= r < 0x110000.
Proof. unfold valid_rune. rewrite orb_true_iff, !between_true. lia. Qed.

Lemma second3_ok r :
  valid_rune r = true -> 0x800 <= r < 0x10000 ->
  second3 (0xE0 + r / 4096) (0x80 + low6 (r / 64)) = true.
Proof.
  intros Hv%valid_rune_range Hr. unfold second3, cont, low6.
  repeat case_match; apply between_true; bool_hyps; Z.to_euclidean_division_equations; lia.
Qed.

Lemma second4_ok r :
  0x10000 <= r < 0x110000 ->
  second4 (0xF0 + r / 262144) (0x80 + low6 (r / 4096)) = true.
Proof.
  intros Hr. unfold second4, cont, low6.
  repeat case_match; apply between_true; bool_hyps; Z.to_euclidean_division_equations; lia.
Qed.

Lemma decode_encode r rest :
  valid_rune r = true ->
  exists b bs, encode_rune r = b :: bs /\ decode_rune b (bs ++ rest) = (r, S (length bs)).
Proof.
  intros Hv. pose proof (valid_rune_range r Hv) as Hr.
  unfold encode_rune. rewrite Hv. simpl.
  destruct (Z.ltb_spec r 0x80); [|destruct (Z.ltb_spec r 0x800);
    [|destruct (Z.ltb_spec r 0x10000)]]; (do 2 eexists; split; [done|]); unfold decode_rune.
  - by rewrite (proj2 (Z.ltb_lt r 0x80)) by lia.
  - assert (2 <= r / 64 < 32) by (Z.to_euclidean_division_equations; lia).
    utf8_cases; try lia. rewrite cont_low6, low6_cont. do 2 f_equal.
    rewrite <-(low6_join r) at 3. lia.
  - assert (0 <= r / 4096 < 16) by (Z.to_euclidean_division_equations; lia).
    utf8_cases; try lia. rewrite second3_ok, cont_low6, !low6_cont by (done || lia). simpl.
    do 2 f_equal. pose proof (low6_join r). pose proof (div_join64 r). lia.
  - assert (0 <= r / 262144 < 5) by (Z.to_euclidean_division_equations; lia).
    utf8_cases; try lia. rewrite second4_ok, !cont_low6, !low6_cont by lia. simpl.
    do 2 f_equal. pose proof (low6_join r). pose proof (div_join64 r).
    pose proof (div_join4096 r). lia.
Qed.

Lemma range_from_encode rs : forall fuel i rest,
  Forall (λ r, valid_rune r = true) rs -> (length (rs ≫= encode_rune) <= fuel)%nat ->
  snd <$> range_from fuel i ((rs ≫= encode_rune) ++ rest) =
    rs ++ (snd <$> range_from (fuel - length rs) (i + Z.of_nat (length (rs ≫= encode_rune))) rest).
Proof.
  induction rs as [|r rs IH]; intros fuel i rest Hv Hf.
  - simpl. by rewrite Nat.sub_0_r, Z.add_0_r.
  - apply Forall_cons in Hv as [Hr Hv]. change ((r :: rs) ≫= encode_rune)
      with (encode_rune r ++ (rs ≫= encode_rune)) in *.
    destruct (decode_encode r ((rs ≫= encode_rune) ++ rest) Hr) as (b & bs & He & Hd).
    rewrite He in *. simpl in Hf. destruct fuel as [|fuel]; [lia|].
    rewrite <-!app_assoc. cbn [app range_from]. rewrite Hd. cbn [fmap list_fmap snd].
    rewrite length_app in Hf. simpl.
    rewrite Nat.sub_0_r, drop_app_length, IH by (done || lia).
    rewrite length_app. do 4 f_equal. lia.
Qed.

Lemma bytes_of_string_of bs : Forall (λ b, 0 <= b < 256) bs -> bytes_of (string_of bs) = bs.
Proof.
  intros Hb. unfold bytes_of, string_of. rewrite String.list_ascii_of_string_of_list_ascii.
  induction Hb as [|b bs Hb _ IH]; [done|]. cbn [fmap list_fmap]. rewrite IH. f_equal.
  rewrite Ascii.N_ascii_embedding by lia. lia.
Qed.

Lemma encode_rune_bytes r : Forall (λ b, 0 <= b < 256) (encode_rune r).
Proof.
  unfold encode_rune. pose proof (low6_range r). pose proof (low6_range (r / 64)).
  pose proof (low6_range (r / 4096)).
  destruct (valid_rune r) eqn:Hv; simpl; [apply valid_rune_range in Hv|];
    repeat case_match; bool_hyps; repeat apply Forall_cons_2; try apply Forall_nil_2;
    try lia; Z.to_euclidean_division_equations; lia.
Qed.

(** Decoding what was encoded gives the runes back. *)
Lemma runes_string_of_runes rs :
  Forall (λ r, valid_rune r = true) rs -> runes (string_of_runes rs) = rs.
Proof.
  intros Hv. unfold runes, range_string, string_of_runes. rewrite bytes_of_string_of.
  - pose proof (range_from_encode rs (length (rs ≫= encode_rune)) 0 [] Hv) as H.
    rewrite app_nil_r in H. rewrite H by lia.
    destruct (length _ - _)%nat; simpl; by rewrite app_nil_r.
  - clear Hv. induction rs as [|r rs IH]; [constructor|].
    apply Forall_app. split; [apply encode_rune_bytes|done].
Qed.

(** ** Valid strings *)

Lemma bytes_of_app s t : bytes_of ((s ++ t)%string) = (bytes_of s ++ bytes_of t)%list.
Proof. unfold bytes_of. rewrite <-fmap_app. f_equal. induction s as [|a s IH]; [done|]. simpl. by f_equal. Qed.
Lemma bytes_of_length s : length (bytes_of s) = String.length s.
Proof. unfold bytes_of. rewrite length_fmap. induction s as [|a s IH]; [done|]. simpl. by rewrite IH. Qed.

Lemma string_of_app xs ys : string_of (xs ++ ys) = (string_of xs ++ string_of ys)%string.
Proof. unfold string_of. rewrite fmap_app. induction xs as [|x xs IH]; [done|]. exact (f_equal (String _) IH). Qed.

Lemma string_of_bytes_of s : string_of (bytes_of s) = s.
Proof.
  unfold string_of, bytes_of. rewrite <-list_fmap_compose.
  induction s as [|a s IH]; [done|]. cbn. rewrite N2Z.id, Ascii.ascii_N_embedding. f_equal. exact IH.
Qed.

(** A string that is the encoding of runes. *)
Definition utf8 (s : string) : Prop := ∃ rs, Forall (λ r, valid_rune r = true) rs /\ s = string_of_runes rs.

Lemma utf8_runes s : utf8 s -> string_of_runes (runes s) = s.
Proof. intros (rs & Hv & ->). by rewrite runes_string_of_runes. Qed.

Lemma string_of_runes_app rs rs' : string_of_runes (rs ++ rs') = (string_of_runes rs ++ string_of_runes rs')%string.
Proof. unfold string_of_runes. by rewrite bind_app, string_of_app. Qed.

Lemma utf8_app s t : utf8 s -> utf8 t -> utf8 (s ++ t)%string.
Proof.
  intros (rs & Hrs & ->) (rs' & Hrs' & ->). exists (rs ++ rs').
  by rewrite string_of_runes_app, Forall_app.
Qed.

Lemma bytes_of_string_of_runes rs : bytes_of (string_of_runes rs) = rs ≫= encode_rune.
Proof.
  apply bytes_of_string_of. induction rs as [|r rs IH]; [constructor|]. apply Forall_app. split; [apply encode_rune_bytes|done].
Qed.

(** Either one ASCII byte, or none at all. *)
Lemma encode_rune_ascii r :
  encode_rune r = [r] \/ (encode_rune r ≠ [] /\ Forall (λ b, 128 <= b) (encode_rune r)).
Proof.
  unfold encode_rune. pose proof (low6_range r). pose proof (low6_range (r / 64)). pose proof (low6_range (r / 4096)).
  destruct (valid_rune r) eqn:Hv; simpl; [apply valid_rune_range in Hv|right; split; [done|repeat constructor; lia]].
  destruct (Z.ltb_spec r 0x80); [by left|right].
  repeat case_match; (split; [done|]); bool_hyps; repeat apply Forall_cons_2; try apply Forall_nil_2;
    try lia; Z.to_euclidean_division_equations; lia.
Qed.

(** An ASCII byte of an encoding is a rune. *)
Lemma encode_split rs p b q :
  rs ≫= encode_rune = p ++ b :: q -> b < 128 ->
  ∃ rs1 rs2, rs = rs1 ++ b :: rs2 /\ p = rs1 ≫= encode_rune /\ q = rs2 ≫= encode_rune.
Proof.
  intros Heq Hb. revert p Heq. induction rs as [|r rs IH]; intros p Heq; [by destruct p|].
  change ((r :: rs) ≫= encode_rune) with (encode_rune r ++ (rs ≫= encode_rune)) in Heq.
  assert ((∃ p', p = encode_rune r ++ p' /\ rs ≫= encode_rune = p' ++ b :: q) \/
    (p = [] /\ r = b /\ q = rs ≫= encode_rune)) as [(p' & -> & Heq')|(-> & -> & ->)].
  { destruct (app_eq_app _ _ _ _ Heq) as (l & [[He Hl]|[-> Hl]]); [|by left; exists l].
    destruct l as [|x l]; [left; exists []; rewrite app_nil_r in He; by rewrite app_nil_r, He|].
    injection Hl as <- ->. destruct (encode_rune_ascii r) as [Hr|[_ Hr]].
    - rewrite Hr in He. destruct p as [|y p]; [|by destruct p]. injection He as -> <-. by right.
    - rewrite He in Hr. apply Forall_app in Hr as [_ Hr]. apply Forall_cons in Hr as [Hr _]. lia. }
  - destruct (IH p' Heq') as (rs1 & rs2 & -> & -> & ->). by exists (r :: rs1), rs2.
  - by exists [], rs.
Qed.

(** Cutting a valid string at an ASCII character. *)
Lemma utf8_cut s a t :
  utf8 (s ++ String a t)%string -> (Ascii.N_of_ascii a < 128)%N -> utf8 s /\ utf8 t.
Proof.
  intros (rs & Hv & Heq) Ha. apply (f_equal bytes_of) in Heq. rewrite bytes_of_app, bytes_of_string_of_runes in Heq.
  symmetry in Heq. apply encode_split in Heq as (rs1 & rs2 & -> & Hs & Ht); [|lia].
  apply Forall_app in Hv as [Hv1 Hv2]. apply Forall_cons in Hv2 as [_ Hv2].
  change (bytes_of t = rs2 ≫= encode_rune) in Ht.
  split; [exists rs1|exists rs2]; (split; [done|]); unfold string_of_runes; rewrite <- ?Hs, <- ?Ht; by rewrite string_of_bytes_of.
Qed.

Lemma utf8_empty : utf8 "".
Proof. by exists []. Qed.

(** ** What decoding gives *)

Lemma low6_second a x b : 128 <= a -> a <= x <= b -> b < 192 -> low6 x = x - 128.
Proof. intros Ha H Hb. unfold low6. symmetry. apply (Z.mod_unique_pos x 64 2); lia. Qed.

Lemma valid_in x : 0 <= x <= 0xD7FF \/ 0xE000 <= x <= 0x10FFFF -> valid_rune x = true.
Proof. intros H. unfold valid_rune. rewrite orb_true_iff, !between_true. lia. Qed.

Lemma decode_rune_ascii b bs r w : decode_rune b bs = (r, w) -> r < 0x80 -> r = b /\ w = 1%nat.
Proof.
  unfold decode_rune. pose proof (low6_range b). destruct (Z.ltb_spec b 128); [by intros [= <- <-]|].
  intros Hd Hr. exfalso. revert Hd.
  assert (forall x, 0 <= low6 x) as Hlow by (intros x; pose proof (low6_range x); lia).
  repeat case_match; intros [= <- <-]; unfold RuneError in *; try lia; bool_hyps; rewrite ?between_true in *.
  - pose proof (Hlow z). lia.
  - pose proof (Hlow z). pose proof (Hlow z0). unfold second3 in *. assert (b = 0xE0) as -> by lia. cbn in *.
    match goal with H : between 160 191 z = true |- _ => apply between_true in H end.
    rewrite (low6_second 160 z 191) in * by lia. lia.
  - pose proof (Hlow z). pose proof (Hlow z0). pose proof (Hlow z1). unfold second4 in *. assert (b = 0xF0) as -> by lia. cbn in *.
    match goal with H : between 144 191 z = true |- _ => apply between_true in H end.
    rewrite (low6_second 144 z 191) in * by lia. lia.
Qed.

Lemma decode_rune_valid b bs : 0 <= b -> valid_rune (fst (decode_rune b bs)) = true.
Proof.
  intros Hb. unfold decode_rune. assert (forall x, 0 <= low6 x < 64) as Hlow by apply low6_range.
  destruct (Z.ltb_spec b 128); [unfold valid_rune; cbn; apply orb_true_iff; left; apply between_true; lia|].
  repeat case_match; try reflexivity; bool_hyps; rewrite ?between_true in *; cbn [fst].
  - apply valid_in. pose proof (Hlow z). lia.
  - apply valid_in. pose proof (Hlow z). pose proof (Hlow z0). unfold second3 in *.
    destruct (Z.eqb_spec b 0xE0) as [->|]; [lia|]. destruct (Z.eqb_spec b 0xED) as [->|]; [|lia].
    match goal with H : between 128 159 z = true |- _ => apply between_true in H; rewrite (low6_second 128 z 191) in * by lia end. lia.
  - apply valid_in. pose proof (Hlow z). pose proof (Hlow z0). pose proof (Hlow z1). unfold second4 in *.
    destruct (Z.eqb_spec b 0xF0) as [->|].
    { match goal with H : between 144 191 z = true |- _ => apply between_true in H; rewrite (low6_second 144 z 191) in * by lia end. lia. }
    destruct (Z.eqb_spec b 0xF4) as [->|]; [|lia].
    match goal with H : between 128 143 z = true |- _ => apply between_true in H; rewrite (low6_second 128 z 191) in * by lia end. lia.
Qed.

Lemma bytes_of_range s : Forall (λ b, 0 <= b < 256) (bytes_of s).
Proof.
  unfold bytes_of. apply Forall_fmap, Forall_forall. intros a _. pose proof (Ascii.N_ascii_bounded a). cbn. lia.
Qed.

Lemma range_from_valid fuel i bs :
  Forall (λ b, 0 <= b) bs -> Forall (λ r, valid_rune r = true) (snd <$> range_from fuel i bs).
Proof.
  revert i bs. induction fuel as [|fuel IH]; intros i [|b bs] Hb; [constructor..|].
  apply Forall_cons in Hb as [Hb Hbs]. cbn [range_from]. pose proof (decode_rune_valid b bs Hb) as Hv.
  destruct (decode_rune b bs) as [r w]. cbn. constructor; [done|]. by apply IH, Forall_drop.
Qed.

Lemma runes_valid s : Forall (λ r, valid_rune r = true) (runes s).
Proof.
  apply range_from_valid. eapply Forall_impl; [apply bytes_of_range|]. simpl. lia.
Qed.

(** If all runes are ASCII, they are the bytes. *)
Lemma range_from_ascii fuel i bs :
  (length bs <= fuel)%nat -> Forall (λ r, r < 0x80) (snd <$> range_from fuel i bs) -> snd <$> range_from fuel i bs = bs.
Proof.
  revert i bs. induction fuel as [|fuel IH]; intros i [|b bs] Hf Ha; simpl in Hf; [done|lia|done|]. cbn [range_from] in *.
  destruct (decode_rune b bs) as [r w] eqn:Hd. cbn in Ha. apply Forall_cons in Ha as [Hr Ha].
  apply decode_rune_ascii in Hd as [-> ->]; [|done]. cbn in *. f_equal. apply IH; [lia|done].
Qed.

Lemma runes_ascii s : Forall (λ r, r < 0x80) (runes s) -> runes s = bytes_of s.
Proof. by apply range_from_ascii. Qed.
