(* ===== verification/GoSort.v ===== *)
(** * GoSort: [sort.Slice]

    [sort.Slice] promises a sorted permutation and nothing about elements that compare
    equal: it is not stable.  [SliceSort] is any function with that contract, so what is
    proved about the code holds whatever the library does with ties.  [insertion_sort]
    shows that the contract can be met. *)

From stdpp Require Import base decidable list sets sorting.
From S2P Require Import Prelude.

Class SliceSort := slice_sort : forall {A}, (A -> A -> bool) -> list A -> list A.

(** [less] orders the elements of [l] strictly, ties being an equivalence. *)
Record orders {A} (less : A -> A -> bool) (l : list A) : Prop := {
  less_irrefl : forall x, x ∈ l -> less x x = false;
  less_trans : forall x y z, x ∈ l -> y ∈ l -> z ∈ l ->
    less x y = true -> less y z = true -> less x z = true;
  less_split : forall x y z, x ∈ l -> y ∈ l -> z ∈ l ->
    less x y = true -> less x z = true \/ less z y = true;
}.

Lemma orders_sub {A} (less : A -> A -> bool) l l' :
  (forall x, x ∈ l' -> x ∈ l) -> orders less l -> orders less l'.
Proof.
  intros Hs [Hirr Htr Hsp]. split; intros x; intros.
  - auto.
  - eapply Htr; [| | |eassumption|eassumption]; auto.
  - eapply Hsp; auto.
Qed.

Definition not_after {A} (less : A -> A -> bool) (x y : A) : Prop := less y x = false.

Class SliceSortLaws `{SliceSort} : Prop := {
  slice_sort_perm : forall {A} (less : A -> A -> bool) l, slice_sort less l ≡ₚ l;
  slice_sort_sorted : forall {A} (less : A -> A -> bool) l,
    orders less l -> StronglySorted (not_after less) (slice_sort less l);
}.

(** Strictly increasing, as a test. *)
Fixpoint increasing {A} (less : A -> A -> bool) (l : list A) : bool :=
  match l with
  | [] => true
  | x :: l => forallb (less x) l && increasing less l
  end.

Section sort.
Context {A : Type} (less : A -> A -> bool).
Implicit Types l : list A.

Lemma increasing_cons x l :
  increasing less (x :: l) = true <->
  (forall y, y ∈ l -> less x y = true) /\ increasing less l = true.
Proof. simpl. rewrite andb_true_iff, forallb_forall. by setoid_rewrite list_elem_of_In. Qed.

Lemma increasing_app l l' :
  increasing less (l ++ l') = true <->
  increasing less l = true /\ increasing less l' = true /\
  forall x y, x ∈ l -> y ∈ l' -> less x y = true.
Proof.
  induction l as [|a l IH]; [split; [intros H; split_and!; [done..|set_solver]|by intros (?&?&?)]|].
  change ((a :: l) ++ l') with (a :: (l ++ l')). rewrite !increasing_cons, IH. set_solver.
Qed.

Lemma increasing_filter (P : A -> Prop) `{!forall x, Decision (P x)} l :
  increasing less l = true -> increasing less (filter P l) = true.
Proof.
  induction l as [|a l IH]; [done|]. rewrite increasing_cons. intros [Ha Hl].
  rewrite filter_cons. case_decide; [|auto]. apply increasing_cons. split; [|auto].
  intros y [_ Hy]%list_elem_of_filter. auto.
Qed.

Lemma increasing_total l x y :
  increasing less l = true -> x ∈ l -> y ∈ l -> x = y \/ less x y = true \/ less y x = true.
Proof.
  induction l as [|a l IH]; [set_solver|]. rewrite increasing_cons. intros [Ha Hl].
  rewrite !elem_of_cons. intros [->|Hx] [->|Hy]; auto.
Qed.

(** A list that has a strictly increasing rearrangement is sorted to it. *)
Lemma slice_sort_unique `{SliceSortLaws} l l' :
  (forall x, less x x = false) ->
  (forall x y z, less x y = true -> less y z = true -> less x z = true) ->
  l' ≡ₚ l -> increasing less l' = true -> slice_sort less l = l'.
Proof.
  intros Hirr Htr Hp Hinc.
  assert (forall x y, less x y = true -> less y x = false) as Hasym.
  { intros x y Hxy. apply not_true_iff_false. intros Hyx.
    pose proof (Htr _ _ _ Hxy Hyx). by rewrite Hirr in *. }
  assert (forall x, x ∈ l <-> x ∈ l') as Hin by (intros x; by rewrite Hp).
  assert (orders less l) as Ho.
  { split; [auto|eauto|]. intros x y z Hx Hy Hz Hxy.
    destruct (increasing_total l' x z Hinc) as [->|[?|Hzx]]; try (by apply Hin); auto.
    right. by apply (Htr z x y). }
  apply (StronglySorted_unique_strong (not_after less)).
  - intros x y Hx Hy Hxy Hyx. rewrite slice_sort_perm in Hx.
    destruct (increasing_total l' x y Hinc) as [|[?|?]]; [by apply Hin|done..| |];
      unfold not_after in *; congruence.
  - by apply slice_sort_sorted.
  - clear - Hinc Hasym. induction l' as [|a l' IH]; constructor.
    + apply increasing_cons in Hinc as [_ Hinc]. auto.
    + apply increasing_cons in Hinc as [Ha _]. apply Forall_forall. intros y Hy.
      apply Hasym. by apply Ha.
  - by rewrite slice_sort_perm.
Qed.
End sort.

(** ** Insertion sort *)

Fixpoint insert_sorted {A} (less : A -> A -> bool) (x : A) (l : list A) : list A :=
  match l with
  | [] => [x]
  | y :: l' => if less y x then y :: insert_sorted less x l' else x :: l
  end.

#[export] Instance insertion_sort : SliceSort := λ A less l, foldr (insert_sorted less) [] l.

Lemma insert_sorted_perm {A} (less : A -> A -> bool) x l : insert_sorted less x l ≡ₚ x :: l.
Proof.
  induction l as [|y l IH]; simpl; [done|]. destruct (less y x); [|done].
  rewrite IH. apply Permutation_swap.
Qed.

Lemma insertion_sort_perm {A} (less : A -> A -> bool) l : slice_sort less l ≡ₚ l.
Proof.
  unfold slice_sort, insertion_sort. induction l as [|x l IH]; simpl; [done|].
  by rewrite insert_sorted_perm, IH.
Qed.

Lemma insert_sorted_ok {A} (less : A -> A -> bool) x l :
  orders less (x :: l) -> StronglySorted (not_after less) l ->
  StronglySorted (not_after less) (insert_sorted less x l).
Proof.
  intros Ho Hl. pose proof Ho as [Hirr Htr Hsp]. induction Hl as [|y l Hl IH Hy]; simpl; [by repeat constructor|].
  destruct (less y x) eqn:Hyx.
  - constructor.
    + assert (orders less (x :: l)) as Ho' by (eapply orders_sub; [|exact Ho]; set_solver).
      by apply IH; destruct Ho'.
    + rewrite insert_sorted_perm. constructor; [|done]. unfold not_after.
      apply not_true_iff_false. intros Hxy.
      assert (less y y = true) as Hyy by (apply (Htr y x y); (done || by left || by right; left)).
      rewrite Hirr in Hyy by (by right; left). done.
  - constructor; [by constructor|]. constructor; [done|].
    rewrite Forall_forall in Hy |- *. intros z Hz. unfold not_after in *.
    apply not_true_iff_false. intros Hzx.
    destruct (Hsp z x y) as [H|H];
      [by do 2 right|by left|by right; left|exact Hzx| |congruence].
    rewrite (Hy z Hz) in H. done.
Qed.

#[export] Instance insertion_sort_laws : SliceSortLaws.
Proof.
  split; [intros; apply insertion_sort_perm|].
  intros A less l. unfold slice_sort, insertion_sort.
  induction l as [|x l IH]; simpl; intros Ho; [constructor|].
  assert (forall z, z ∈ foldr (insert_sorted less) [] l -> z ∈ l) as Hin.
  { intros z. by rewrite (insertion_sort_perm less l). }
  apply insert_sorted_ok.
  - eapply orders_sub; [|exact Ho]. intros z. rewrite !elem_of_cons. naive_solver.
  - apply IH. eapply orders_sub; [|exact Ho]. intros z. by right.
Qed.
