(* ===== verification/DocumentCrdt.v ===== *)
(** * DocumentCrdt: [pkg/collaboration/document_crdt.go]

    A replica of a text document: operations by ID, characters with a fractional
    position, a vector clock and tombstones.  Methods run in a monad over the replica
    whose outcomes are a return (with Go's error as a value), a panic, or blocking for
    ever on the replica's own mutex.  [uuid.New()] and [time.Now()] are arguments: [id]
    is the operation's ID, [cid k] the ID of its [k]-th character.  [sort.Slice] is any
    function with [GoSort]'s contract.  [Metadata], which no method reads or writes, is
    left out. *)

From stdpp Require Import base decidable gmap strings list sorting.
From Stdlib Require Import ZArith Lia.
From S2P Require Import Prelude Replicated Crdt GoFloat GoSort Utf8.

Local Open Scope Z_scope.

Record CRDTOperation := MkOperation {
  ID : N;
  Type_ : string;
  Position : Z;
  Content : string;
  Length : Z;
  NodeID : string;
  Clock : VectorClock.t;
  Timestamp : Z;
}.

Record CharacterNode := MkChar {
  char_ID : N;
  Character : Z;
  char_Position : float64;
  Deleted : bool;
  char_NodeID : string;
  char_Clock : VectorClock.t;
}.

Record DocumentCRDT := MkDoc {
  mu : bool;
  documentID : N;
  operations : gmap N CRDTOperation;
  clock : VectorClock.t;
  nodeID : string;
  tombstones : gset N;
  characters : list CharacterNode;
}.

Definition NewDocumentCRDT (documentID : N) (nodeID : string) : DocumentCRDT :=
  MkDoc false documentID ∅ VectorClock.NewVectorClock nodeID ∅ [].

(** *** Field updates *)

Definition set_mu (b : bool) (d : DocumentCRDT) : DocumentCRDT :=
  MkDoc b (documentID d) (operations d) (clock d) (nodeID d) (tombstones d) (characters d).
Definition set_clock (c : VectorClock.t) (d : DocumentCRDT) : DocumentCRDT :=
  MkDoc (mu d) (documentID d) (operations d) c (nodeID d) (tombstones d) (characters d).
(** [d.operations[op.ID] = op] *)
Definition log_op (op : CRDTOperation) (d : DocumentCRDT) : DocumentCRDT :=
  MkDoc (mu d) (documentID d) (<[ID op := op]> (operations d)) (clock d) (nodeID d)
    (tombstones d) (characters d).
Definition set_text (ts : gset N) (cs : list CharacterNode) (d : DocumentCRDT) : DocumentCRDT :=
  MkDoc (mu d) (documentID d) (operations d) (clock d) (nodeID d) ts cs.

(** ** Outcomes *)

Inductive outcome (A : Type) : Type :=
| Returns (r : result string A) (d : DocumentCRDT)
| Panics (d : DocumentCRDT)
| Blocks.
Arguments Returns {A} r d.
Arguments Panics {A} d.
Arguments Blocks {A}.

Definition M (A : Type) : Type := DocumentCRDT -> outcome A.

#[export] Instance M_ret : MRet M := λ A a d, Returns (Ok a) d.
#[export] Instance M_bind : MBind M := λ A B f m d,
  match m d with
  | Returns (Ok a) d => f a d
  | Returns (Err e) d => Returns (Err e) d
  | Panics d => Panics d
  | Blocks => Blocks
  end.

Definition fail {A} (e : string) : M A := λ d, Returns (Err e) d.
(** [fmt.Errorf] with [%w]; messages are modelled without the numbers in them. *)
Definition wrap_error {A} (msg : string) (m : M A) : M A := λ d,
  match m d with Returns (Err e) d => Returns (Err (msg +:+ e)%string) d | o => o end.
Definition panic {A} : M A := λ d, Panics d.
Definition gets {A} (f : DocumentCRDT -> A) : M A := λ d, Returns (Ok (f d)) d.
Definition modify (f : DocumentCRDT -> DocumentCRDT) : M unit := λ d, Returns (Ok tt) (f d).

(** [d.mu.Lock(); defer d.mu.Unlock()]: Go's mutexes are not reentrant.  Read locks
    block and release in the same way, within one goroutine. *)
Definition locked {A} (m : M A) : M A := λ d,
  if mu d then Blocks
  else match m (set_mu true d) with
       | Returns r d => Returns r (set_mu false d)
       | Panics d => Panics (set_mu false d)
       | Blocks => Blocks
       end.

(** ** Operations *)

(** A run of fresh IDs, for examples. *)
Definition ids (base : N) : nat -> N := λ k, (base + N.of_nat k)%N.

Section document.
Context `{SliceSort}.

Definition visible_less (x y : CharacterNode) : bool :=
  f64_lt (char_Position x) (char_Position y).

Definition getVisibleCharacters (d : DocumentCRDT) : list CharacterNode :=
  let visible := foldl (λ visible char, if negb (Deleted char) then visible ++ [char] else visible)
                       [] (characters d) in
  slice_sort visible_less visible.

(** [visibleChars[i].Position]; the code has tested the bounds. *)
Definition position_at (visibleChars : list CharacterNode) (i : Z) : float64 :=
  match visibleChars !! Z.to_nat i with Some c => char_Position c | None => f64_of_Z 0 end.

Definition calculatePosition (index : Z) (d : DocumentCRDT) : float64 :=
  let visibleChars := getVisibleCharacters d in
  let len := Z.of_nat (length visibleChars) in
  if index <=? 0 then f64_of_Z 0
  else if len <=? index then
    if len =? 0 then f64_of_Z 1
    else f64_add (position_at visibleChars (len - 1)) (f64_of_Z 1)
  else
    let prevPos := position_at visibleChars (index - 1) in
    let nextPos := position_at visibleChars index in
    f64_div (f64_add prevPos nextPos) (f64_of_Z 2).

(** [startPos + float64(i)*0.00001] *)
Definition char_position (startPos : float64) (i : Z) : float64 :=
  f64_add startPos (f64_mul (f64_of_Z i) (f64_const 1 100000)).

Definition new_chars (cid : nat -> N) (startPos : float64) (op : CRDTOperation)
  : list CharacterNode :=
  imap (λ k '(i, char), MkChar (cid k) char (char_position startPos i) false (NodeID op)
                          (VectorClock.Clone (Clock op)))
       (range_string (Content op)).

Definition applyInsert (cid : nat -> N) (op : CRDTOperation) : M unit :=
  startPos ← gets (calculatePosition (Position op));
  modify (λ d, set_text (tombstones d) (characters d ++ new_chars cid startPos op) d).

(** The inner loop of [applyDelete], up to its [break]. *)
Fixpoint mark_deleted (id : N) (cs : list CharacterNode) : list CharacterNode :=
  match cs with
  | [] => []
  | c :: cs =>
      if bool_decide (char_ID c = id)
      then MkChar (char_ID c) (Character c) (char_Position c) true (char_NodeID c) (char_Clock c) :: cs
      else c :: mark_deleted id cs
  end.

Definition has_id (id : N) (cs : list CharacterNode) : bool :=
  existsb (λ c, bool_decide (char_ID c = id)) cs.

Definition delete_char (id : N) (d : DocumentCRDT) : DocumentCRDT :=
  set_text (if has_id id (characters d) then {[id]} ∪ tombstones d else tombstones d)
           (mark_deleted id (characters d)) d.

(** [for i := op.Position; i < endPos; i++]: [n] iterations are left. *)
Fixpoint delete_loop (n : nat) (i : Z) (visibleChars : list CharacterNode) : M unit :=
  match n with
  | O => mret tt
  | S n =>
      if i <? 0 then panic
      else match visibleChars !! Z.to_nat i with
           | Some c => modify (delete_char (char_ID c));; delete_loop n (i + 1) visibleChars
           | None => panic
           end
  end.

Definition applyDelete (op : CRDTOperation) : M unit :=
  visibleChars ← gets getVisibleCharacters;
  let len := Z.of_nat (length visibleChars) in
  if len <=? Position op then fail "delete position out of bounds"
  else
    let endPos := i64 (Position op + Length op) in
    let endPos := if len <? endPos then len else endPos in
    delete_loop (Z.to_nat (endPos - Position op)) (Position op) visibleChars.

(** The clock advances before the operation is tried. *)
Definition new_op (id : N) (now : Z) (typ : string) (position : Z) (content : string)
    (len : Z) : M CRDTOperation :=
  modify (λ d, set_clock (VectorClock.Increment (clock d) (nodeID d)) d);;
  gets (λ d, MkOperation id typ position content len (nodeID d) (VectorClock.Clone (clock d)) now).

Definition Insert (id : N) (now : Z) (cid : nat -> N) (position : Z) (content : string)
  : M CRDTOperation :=
  locked (op ← new_op id now "insert" position content 0;
          applyInsert cid op;;
          modify (log_op op);; mret op).

Definition Delete (id : N) (now : Z) (position len : Z) : M CRDTOperation :=
  locked (op ← new_op id now "delete" position EmptyString len;
          applyDelete op;;
          modify (log_op op);; mret op).

Definition ApplyOperation (cid : nat -> N) (op : CRDTOperation) : M unit :=
  locked (seen ← gets (λ d, operations d !! ID op);
          match seen with
          | Some _ => mret tt
          | None =>
              modify (λ d, set_clock (VectorClock.Update (clock d) (Clock op)) d);;
              (if bool_decide (Type_ op = "insert") then applyInsert cid op
               else if bool_decide (Type_ op = "delete") then applyDelete op
               else fail ("unknown operation type: " +:+ Type_ op)%string);;
              modify (log_op op)
          end).

Definition GetContent : M string :=
  locked (gets (λ d, string_of_runes (Character <$> getVisibleCharacters d))).

(** A value of interface type [crdt.CRDT], as [Merge] receives it; [AsItself] is the
    replica's own pointer. *)
Inductive MergeArg :=
| AsDocument (other : DocumentCRDT)
| AsItself
| AsLeaf (c : CRDT).

(** The loop of [Merge] over [otherDoc.operations]; [cids] draws the character IDs. *)
Fixpoint merge_loop (cids : N -> nat -> N) (l : list (N * CRDTOperation)) : M unit :=
  match l with
  | [] => mret tt
  | (opID, op) :: l =>
      seen ← gets (λ d, operations d !! opID);
      match seen with
      | Some _ => mret tt
      | None => wrap_error "failed to apply operation: " (ApplyOperation (cids opID) op)
      end;;
      merge_loop cids l
  end.

(** [l] is the order of [range otherDoc.operations]. *)
Definition Merge (cids : N -> nat -> N) (l : list (N * CRDTOperation)) (other : MergeArg)
  : M unit :=
  match other with
  | AsLeaf c => fail (cannot_merge "DocumentCRDT" c)
  | AsDocument otherDoc =>
      locked (if mu otherDoc then λ _, Blocks else merge_loop cids l)
  | AsItself => locked (λ d, if mu d then Blocks else merge_loop cids l d)
  end.

Definition Clone : M DocumentCRDT :=
  locked (gets (λ d,
    MkDoc false (documentID d)
      (foldl (λ m '(id, op), <[id := op]> m) ∅ (map_to_list (operations d)))
      (VectorClock.Clone (clock d)) (nodeID d)
      (foldl (λ s id, {[id]} ∪ s) ∅ (elements (tombstones d))) (characters d))).

Definition GetType : string := "DocumentCRDT".

Definition sent_since (since : VectorClock.t) (op : CRDTOperation) : bool :=
  negb (negb (VectorClock.HappensBefore since (Clock op)) &&
        negb (VectorClock.Concurrent since (Clock op))).

(** [l] is the order of [range d.operations]. *)
Definition GetOperationsSince (l : list (N * CRDTOperation)) (since : VectorClock.t)
  : M (list CRDTOperation) :=
  locked (gets (λ _,
    slice_sort (λ x y, time_before (Timestamp x) (Timestamp y))
      (foldl (λ ops '(_, op), if sent_since since op then ops ++ [op] else ops) [] l))).

(** ** The visible text as a list *)

(** What [calculatePosition] computes from the visible characters. *)
Definition position_in (V : list CharacterNode) (index : Z) : float64 :=
  let len := Z.of_nat (length V) in
  if index <=? 0 then f64_of_Z 0
  else if len <=? index then
    if len =? 0 then f64_of_Z 1 else f64_add (position_at V (len - 1)) (f64_of_Z 1)
  else f64_div (f64_add (position_at V (index - 1)) (position_at V index)) (f64_of_Z 2).

(** An insertion splices its characters in, a deletion cuts a slice out. *)
Definition insert_at (cid : nat -> N) (op : CRDTOperation) (V : list CharacterNode)
  : list CharacterNode :=
  let p := Z.to_nat (Position op) in
  take p V ++ new_chars cid (position_in V (Position op)) op ++ drop p V.
Definition delete_at (op : CRDTOperation) (V : list CharacterNode) : list CharacterNode :=
  take (Z.to_nat (Position op)) V ++ drop (Z.to_nat (Position op + Length op)) V.

Definition is_visible (c : CharacterNode) : Prop := Deleted c = false.
Definition deleted_ids (cs : list CharacterNode) : gset N :=
  list_to_set (char_ID <$> filter (λ c, Deleted c = true) cs).
Definition text (d : DocumentCRDT) : list Z := Character <$> getVisibleCharacters d.
Definition orderly (V : list CharacterNode) : bool := increasing visible_less V.

Lemma visible_fold cs :
  foldl (λ visible char, if negb (Deleted char) then visible ++ [char] else visible) [] cs
    = filter is_visible cs.
Proof.
  rewrite foldl_append_if. simpl. apply list_filter_iff. intros c. unfold is_visible.
  by destruct (Deleted c).
Qed.

Context `{!SliceSortLaws}.

Lemma getVisible_perm d : getVisibleCharacters d ≡ₚ filter is_visible (characters d).
Proof. unfold getVisibleCharacters. by rewrite slice_sort_perm, visible_fold. Qed.

Lemma getVisible_eq d V :
  V ≡ₚ filter is_visible (characters d) -> orderly V = true -> getVisibleCharacters d = V.
Proof.
  intros Hp Ho. unfold getVisibleCharacters. rewrite visible_fold.
  apply slice_sort_unique; [apply _|intros x; apply f64_lt_irrefl|
    intros x y z; apply f64_lt_trans|done|done].
Qed.

Lemma calculatePosition_in i d : calculatePosition i d = position_in (getVisibleCharacters d) i.
Proof. done. Qed.

Lemma new_chars_visible cid x op : filter is_visible (new_chars cid x op) = new_chars cid x op.
Proof.
  unfold new_chars. generalize (range_string (Content op)) as l. intros l. revert cid.
  induction l as [|[i c] l IH]; intros cid; [done|].
  simpl. rewrite filter_cons, decide_True by done. f_equal. apply (IH (λ k, cid (S k))).
Qed.

Lemma new_chars_text cid x op : Character <$> new_chars cid x op = runes (Content op).
Proof.
  unfold new_chars, runes. rewrite fmap_imap. generalize (range_string (Content op)) as l.
  intros l. revert cid. induction l as [|[i c] l IH]; intros cid; [done|].
  simpl. f_equal. apply (IH (λ k, cid (S k))).
Qed.

(** [applyInsert] always succeeds; with room between the neighbours it splices. *)
Definition after_insert (cid : nat -> N) (op : CRDTOperation) (d : DocumentCRDT) : DocumentCRDT :=
  set_text (tombstones d)
    (characters d ++ new_chars cid (position_in (getVisibleCharacters d) (Position op)) op) d.

Lemma applyInsert_eq cid op d : applyInsert cid op d = Returns (Ok tt) (after_insert cid op d).
Proof. done. Qed.

Lemma after_insert_visible cid op d :
  orderly (insert_at cid op (getVisibleCharacters d)) = true ->
  getVisibleCharacters (after_insert cid op d) = insert_at cid op (getVisibleCharacters d).
Proof.
  intros Ho. apply getVisible_eq; [|done]. unfold insert_at. simpl.
  rewrite filter_app, new_chars_visible, <-getVisible_perm.
  rewrite (Permutation_app_comm (new_chars _ _ _)), app_assoc, take_drop. done.
Qed.

(** The visible characters depend on the characters only. *)
Lemma getVisible_chars d d' :
  characters d = characters d' -> getVisibleCharacters d = getVisibleCharacters d'.
Proof. unfold getVisibleCharacters. by intros ->. Qed.

(** ** Deletion *)

Definition del (c : CharacterNode) : CharacterNode :=
  MkChar (char_ID c) (Character c) (char_Position c) true (char_NodeID c) (char_Clock c).

(** IDs name characters, and tombstones are the IDs of the deleted ones. *)
Record doc_ok (d : DocumentCRDT) : Prop := {
  ids_unique : NoDup (char_ID <$> characters d);
  tombs_ok : tombstones d = deleted_ids (characters d);
}.

Lemma mark_deleted_ids id cs : char_ID <$> mark_deleted id cs = char_ID <$> cs.
Proof.
  induction cs as [|c cs IH]; [done|]. cbn [mark_deleted].
  case_bool_decide; rewrite !fmap_cons; [done|]. by rewrite IH.
Qed.

Lemma mark_deleted_other id cs : id ∉ char_ID <$> cs -> mark_deleted id cs = cs.
Proof.
  induction cs as [|c cs IH]; [done|]. rewrite fmap_cons, not_elem_of_cons. intros [Hc Hcs].
  simpl. rewrite bool_decide_false by congruence. by rewrite IH.
Qed.

Lemma mark_deleted_visible id cs :
  NoDup (char_ID <$> cs) ->
  filter is_visible (mark_deleted id cs)
    = filter (λ c, char_ID c ≠ id) (filter is_visible cs).
Proof.
  induction cs as [|c cs IH]; [done|]. rewrite fmap_cons, NoDup_cons. intros [Hc Hcs].
  cbn [mark_deleted]. case_bool_decide as Hid.
  - subst id. rewrite filter_cons, decide_False by done.
    assert (filter (λ x, char_ID x ≠ char_ID c) (filter is_visible cs) = filter is_visible cs) as Hsame.
    { apply list_filter_all. apply Forall_forall. intros x [_ Hx]%list_elem_of_filter Heq.
      apply Hc. rewrite <-Heq. by apply list_elem_of_fmap_2. }
    rewrite (filter_cons _ c). case_decide; rewrite ?filter_cons, ?(decide_False (P := char_ID c ≠ _)); auto.
  - rewrite !(filter_cons is_visible). case_decide; [|auto].
    rewrite filter_cons, decide_True by done. by rewrite IH.
Qed.

Lemma mark_deleted_deleted id cs :
  deleted_ids (mark_deleted id cs)
    = if has_id id cs then {[id]} ∪ deleted_ids cs else deleted_ids cs.
Proof.
  unfold deleted_ids. induction cs as [|c cs IH]; [done|].
  cbn [mark_deleted has_id existsb]. case_bool_decide as Hid; cbn [orb].
  - subst id. rewrite !filter_cons, decide_True by done. simpl.
    destruct (Deleted c); simpl; set_solver.
  - fold (has_id id cs). rewrite !filter_cons.
    destruct (decide (Deleted c = true)); rewrite ?fmap_cons, ?list_to_set_cons, IH;
      destruct (has_id id cs); set_solver.
Qed.

Lemma delete_char_ok id d : doc_ok d -> doc_ok (delete_char id d).
Proof.
  intros [Hids Ht]. split; simpl; [by rewrite mark_deleted_ids|].
  by rewrite mark_deleted_deleted, Ht.
Qed.

(** The state after deleting the listed characters. *)
Definition delete_chars (l : list N) (d : DocumentCRDT) : DocumentCRDT :=
  foldl (λ d id, delete_char id d) d l.

Lemma delete_chars_ok l d : doc_ok d -> doc_ok (delete_chars l d).
Proof. revert d. induction l as [|id l IH]; intros d Hd; [done|]. by apply IH, delete_char_ok. Qed.

Lemma delete_chars_visible l d :
  doc_ok d ->
  filter is_visible (characters (delete_chars l d))
    = filter (λ c, char_ID c ∉ l) (filter is_visible (characters d)).
Proof.
  revert d. induction l as [|id l IH]; intros d Hd; simpl.
  { symmetry. apply list_filter_all, Forall_forall. intros x _. apply not_elem_of_nil. }
  rewrite IH by (by apply delete_char_ok). simpl. rewrite mark_deleted_visible by apply Hd.
  rewrite list_filter_filter. apply list_filter_iff. intros c. rewrite not_elem_of_cons. tauto.
Qed.

Lemma delete_loop_eq n i V d :
  (i + n <= length V)%nat ->
  delete_loop n (Z.of_nat i) V d
    = Returns (Ok tt) (delete_chars (char_ID <$> take n (drop i V)) d).
Proof.
  revert i d. induction n as [|n IH]; intros i d Hi; [done|]. simpl.
  rewrite (proj2 (Z.ltb_ge _ _)) by lia. rewrite Nat2Z.id.
  destruct (lookup_lt_is_Some_2 V i) as [c Hc]; [lia|]. rewrite Hc.
  rewrite (drop_S _ _ _ Hc). simpl. unfold mbind, M_bind, modify.
  replace (Z.of_nat i + 1) with (Z.of_nat (S i)) by lia. by rewrite IH by lia.
Qed.

Lemma delete_loop_negative n i V d : i < 0 -> (0 < n)%nat -> delete_loop n i V d = Panics d.
Proof. intros Hi Hn. destruct n; [lia|]. simpl. by rewrite (proj2 (Z.ltb_lt _ _)) by lia. Qed.

Definition end_of (op : CRDTOperation) (d : DocumentCRDT) : Z :=
  Z.min (Z.of_nat (length (getVisibleCharacters d))) (i64 (Position op + Length op)).

(** The IDs that a deletion marks. *)
Definition cut (op : CRDTOperation) (d : DocumentCRDT) : list N :=
  char_ID <$> take (Z.to_nat (end_of op d - Position op))
                   (drop (Z.to_nat (Position op)) (getVisibleCharacters d)).

Lemma applyDelete_eq op d :
  applyDelete op d =
    if Z.of_nat (length (getVisibleCharacters d)) <=? Position op
    then Returns (Err "delete position out of bounds") d
    else if (Position op <? 0) && (Position op <? end_of op d) then Panics d
    else Returns (Ok tt) (delete_chars (cut op d) d).
Proof.
  unfold applyDelete, gets, mbind, M_bind. unfold cut, end_of.
  set (V := getVisibleCharacters d). set (e := i64 _).
  destruct (Z.leb_spec (Z.of_nat (length V)) (Position op)) as [|Hp]; [done|].
  replace (if Z.of_nat (length V) <? e then Z.of_nat (length V) else e)
    with (Z.min (Z.of_nat (length V)) e) by (bool_cases; lia).
  set (m := Z.min _ _).
  destruct (Z.ltb_spec (Position op) 0) as [Hneg|Hpos]; simpl.
  - destruct (Z.ltb_spec (Position op) m); [apply delete_loop_negative; lia|].
    by replace (Z.to_nat (m - Position op)) with 0%nat by lia.
  - rewrite <-(Z2Nat.id (Position op)) at 2 by done.
    rewrite delete_loop_eq by lia. done.
Qed.

Lemma filter_cut {B} (f : B -> N) l p n :
  NoDup (f <$> l) ->
  filter (λ x, f x ∉ f <$> take n (drop p l)) l = take p l ++ drop (p + n) l.
Proof.
  assert (forall a b c, NoDup (f <$> a ++ b ++ c) ->
          filter (λ x, f x ∉ f <$> b) (a ++ b ++ c) = a ++ c) as Habc.
  { intros a b c. rewrite !fmap_app, !NoDup_app. intros (_ & Ha & _ & Hb & _).
    rewrite !filter_app.
    rewrite (list_filter_all _ a), (list_filter_none _ b), (list_filter_all _ c); [done|..];
      apply Forall_forall; intros x Hx.
    - intros Hn. apply (Hb (f x)); [done|by apply list_elem_of_fmap_2].
    - intros Hn. by apply Hn, list_elem_of_fmap_2.
    - intros Hn. apply (Ha (f x)); [by apply list_elem_of_fmap_2|]. apply elem_of_app. by left. }
  specialize (Habc (take p l) (take n (drop p l)) (drop (p + n) l)).
  assert (take p l ++ take n (drop p l) ++ drop (p + n) l = l) as El.
  { rewrite <-drop_drop. by rewrite !take_drop. }
  by rewrite El in Habc.
Qed.

Lemma visible_ids d : doc_ok d -> NoDup (char_ID <$> getVisibleCharacters d).
Proof.
  intros [Hids _]. rewrite getVisible_perm. eapply sublist_NoDup; [exact Hids|].
  apply fmap_sublist, sublist_filter.
Qed.

(** A slice within bounds is cut out of the visible text. *)
Lemma after_delete_visible op d :
  doc_ok d -> orderly (getVisibleCharacters d) = true ->
  0 <= Position op -> 0 <= Length op -> Position op + Length op <= max_int64 ->
  getVisibleCharacters (delete_chars (cut op d) d) = delete_at op (getVisibleCharacters d).
Proof.
  intros Hok Ho Hp Hl Hm. unfold delete_at.
  assert (i64 (Position op + Length op) = Position op + Length op) as Hi.
  { apply i64_small. unfold_ints. lia. }
  assert (filter (λ c, char_ID c ∉ cut op d) (getVisibleCharacters d)
          = take (Z.to_nat (Position op)) (getVisibleCharacters d) ++
            drop (Z.to_nat (Position op + Length op)) (getVisibleCharacters d)) as Hcut.
  { unfold cut. rewrite filter_cut by (by apply visible_ids). f_equal.
    unfold end_of. rewrite Hi.
    destruct (decide (Position op + Length op <= Z.of_nat (length (getVisibleCharacters d)))).
    - f_equal. lia.
    - rewrite !drop_ge by lia. done. }
  apply getVisible_eq.
  - rewrite delete_chars_visible, <-Hcut by done. by rewrite getVisible_perm.
  - rewrite <-Hcut. by apply increasing_filter.
Qed.

Lemma has_id_true i cs : has_id i cs = true <-> i ∈ char_ID <$> cs.
Proof.
  unfold has_id. rewrite existsb_exists, list_elem_of_fmap.
  setoid_rewrite list_elem_of_In. setoid_rewrite bool_decide_eq_true. naive_solver.
Qed.

Lemma delete_chars_tombs l d :
  (forall i, i ∈ l -> i ∈ char_ID <$> characters d) ->
  tombstones (delete_chars l d) = list_to_set l ∪ tombstones d.
Proof.
  revert d. induction l as [|i l IH]; intros d Hl; simpl; [set_solver|].
  rewrite IH; simpl.
  - rewrite (proj2 (has_id_true i _)) by (apply Hl; left). set_solver.
  - intros j Hj. rewrite mark_deleted_ids. apply Hl. by right.
Qed.

Lemma delete_chars_frame l d :
  clock (delete_chars l d) = clock d /\ operations (delete_chars l d) = operations d.
Proof.
  revert d. induction l as [|i l IH]; intros d; [done|]. simpl.
  destruct (IH (delete_char i d)) as [-> ->]. done.
Qed.

(** The IDs of the slice of [op.Length] characters at [op.Position]. *)
Definition slice_ids (op : CRDTOperation) (V : list CharacterNode) : list N :=
  char_ID <$> take (Z.to_nat (Length op)) (drop (Z.to_nat (Position op)) V).

Lemma cut_slice op d :
  0 <= Position op \/ Length op = 0 -> 0 <= Length op -> in_i64 (Position op + Length op) ->
  cut op d = slice_ids op (getVisibleCharacters d).
Proof.
  intros Hp Hn Hi. unfold cut, slice_ids, end_of. rewrite i64_small by done. f_equal.
  set (V := getVisibleCharacters d).
  destruct (decide (Position op + Length op <= Z.of_nat (length V))); [f_equal; lia|].
  rewrite !take_ge; rewrite ?length_drop; [done|lia..].
Qed.

Lemma slice_ids_in op d :
  forall i, i ∈ slice_ids op (getVisibleCharacters d) -> i ∈ char_ID <$> characters d.
Proof.
  intros i (c & -> & Hc)%list_elem_of_fmap. apply list_elem_of_fmap_2.
  apply elem_of_take in Hc as (k & Hk & _). apply list_elem_of_lookup_2 in Hk.
  assert (c ∈ getVisibleCharacters d) as Hv.
  { rewrite <-(take_drop (Z.to_nat (Position op)) (getVisibleCharacters d)).
    apply elem_of_app. by right. }
  rewrite getVisible_perm in Hv. by apply list_elem_of_filter in Hv as [_ ?].
Qed.

(** ** The methods, branch by branch *)

Definition tick (d : DocumentCRDT) : DocumentCRDT :=
  set_clock (VectorClock.Increment (clock d) (nodeID d)) d.

(** The operation that a local edit creates. *)
Definition local_op (id : N) (now : Z) (typ : string) (position : Z) (content : string) (len : Z)
    (d : DocumentCRDT) : CRDTOperation :=
  MkOperation id typ position content len (nodeID d) (VectorClock.Clone (clock (tick d))) now.

Lemma set_mu_mu b c d : set_mu b (set_mu c d) = set_mu b d.
Proof. done. Qed.

Lemma set_mu_id d : mu d = false -> set_mu false d = d.
Proof. destruct d; simpl. by intros ->. Qed.

Lemma Insert_eq id now cid p s d :
  mu d = false ->
  let op := local_op id now "insert" p s 0 d in
  Insert id now cid p s d
    = Returns (Ok op) (log_op op (set_mu false (after_insert cid op (set_mu true (tick d))))).
Proof. intros Hmu op. unfold Insert, locked. rewrite Hmu. done. Qed.

(** What a method does with the outcome of [applyDelete]. *)
Definition finish {A} (a : A) (op : CRDTOperation) (o : outcome unit) : outcome A :=
  match o with
  | Returns (Ok _) d => Returns (Ok a) (log_op op (set_mu false d))
  | Returns (Err e) d => Returns (Err e) (set_mu false d)
  | Panics d => Panics (set_mu false d)
  | Blocks => Blocks
  end.

Lemma Delete_eq id now p n d :
  mu d = false ->
  let op := local_op id now "delete" p EmptyString n d in
  Delete id now p n d = finish op op (applyDelete op (set_mu true (tick d))).
Proof.
  intros Hmu op. unfold Delete, locked. rewrite Hmu.
  unfold new_op, mbind, M_bind, modify, gets. fold op. unfold mret, M_ret.
  change (MkOperation _ _ _ _ _ _ _ _) with op.
  change (set_clock _ _) with (set_mu true (tick d)).
  by destruct (applyDelete op (set_mu true (tick d))) as [[[]|]| |].
Qed.

Definition heard (op : CRDTOperation) (d : DocumentCRDT) : DocumentCRDT :=
  set_clock (VectorClock.Update (clock d) (Clock op)) d.

Lemma ApplyOperation_seen cid op d :
  mu d = false -> is_Some (operations d !! ID op) -> ApplyOperation cid op d = Returns (Ok tt) d.
Proof.
  intros Hmu [o Ho]. unfold ApplyOperation, locked. rewrite Hmu.
  unfold mbind, M_bind, gets. simpl. rewrite Ho. unfold mret, M_ret.
  by rewrite set_mu_mu, set_mu_id.
Qed.

Lemma ApplyOperation_new cid op d :
  mu d = false -> operations d !! ID op = None ->
  ApplyOperation cid op d =
    finish tt op
      (let d := set_mu true (heard op d) in
       if bool_decide (Type_ op = "insert") then applyInsert cid op d
       else if bool_decide (Type_ op = "delete") then applyDelete op d
       else Returns (Err ("unknown operation type: " +:+ Type_ op)%string) d).
Proof.
  intros Hmu Ho. unfold ApplyOperation, locked. rewrite Hmu.
  unfold mbind, M_bind, gets. simpl. rewrite Ho. unfold modify.
  change (set_clock _ _) with (set_mu true (heard op d)).
  destruct (bool_decide _); [done|]. destruct (bool_decide _); [|done].
  by destruct (applyDelete op (set_mu true (heard op d))) as [[[]|]| |].
Qed.

(** ** Reachable replicas *)

Definition fresh (cid : nat -> N) (d : DocumentCRDT) : Prop :=
  (forall i j, cid i = cid j -> i = j) /\ forall k, cid k ∉ char_ID <$> characters d.

(** The method came back, by a return or a panic. *)
Definition ends {A} (o : outcome A) (d : DocumentCRDT) : Prop :=
  match o with Returns _ d' => d' = d | Panics d' => d' = d | Blocks => False end.

Inductive doc_step (d d' : DocumentCRDT) : Prop :=
| DoInsert id now cid p s : fresh cid d -> ends (Insert id now cid p s d) d' -> doc_step d d'
| DoDelete id now p n : ends (Delete id now p n d) d' -> doc_step d d'
| DoApply cid op : fresh cid d -> ends (ApplyOperation cid op d) d' -> doc_step d d'.

(** What an edit keeps: well-formedness, the log and the deletions. *)
Record keeps (d d' : DocumentCRDT) : Prop := {
  keeps_ok : doc_ok d -> doc_ok d';
  keeps_ops : forall i, is_Some (operations d !! i) -> is_Some (operations d' !! i);
  keeps_tombs : tombstones d ⊆ tombstones d';
}.

#[local] Instance keeps_po : PreOrder keeps.
Proof.
  split; [by split|]. intros x y z [H1 H2 H3] [H4 H5 H6]. split; [auto|auto|set_solver].
Qed.

Lemma keeps_delete id d : keeps d (delete_char id d).
Proof. split; [apply delete_char_ok|done|]. simpl. destruct (has_id _ _); set_solver. Qed.

Lemma keeps_deletes l d : keeps d (delete_chars l d).
Proof.
  revert d. induction l as [|i l IH]; intros d; [reflexivity|].
  etrans; [apply keeps_delete|apply IH].
Qed.

Lemma new_chars_ids cid x op :
  exists n, char_ID <$> new_chars cid x op = cid <$> seq 0 n.
Proof.
  exists (length (range_string (Content op))). unfold new_chars. rewrite fmap_imap.
  generalize (range_string (Content op)) as l. intros l. revert cid.
  induction l as [|[i c] l IH]; intros cid; [done|].
  simpl. f_equal. rewrite <-fmap_S_seq, <-list_fmap_compose. apply (IH (λ k, cid (S k))).
Qed.

Lemma keeps_insert cid op d : fresh cid d -> keeps d (after_insert cid op d).
Proof.
  intros [Hinj Hf]. split; [|done|done]. intros [Hids Ht]. split; simpl.
  - destruct (new_chars_ids cid (position_in (getVisibleCharacters d) (Position op)) op) as [n Hn].
    rewrite fmap_app, Hn. apply NoDup_app. split; [done|]. split.
    + intros i Hi (k & -> & _)%list_elem_of_fmap. by apply (Hf k).
    + apply NoDup_fmap_2; [intros i j; apply Hinj|apply NoDup_seq].
  - rewrite Ht. unfold deleted_ids. rewrite filter_app, fmap_app, list_to_set_app_L.
    rewrite (list_filter_none _ (new_chars _ _ _)); [set_solver|].
    rewrite <-(new_chars_visible cid _ op). apply Forall_forall.
    intros c [Hc _]%list_elem_of_filter. unfold is_visible in Hc. congruence.
Qed.

Lemma keeps_log op d : keeps d (log_op op d).
Proof.
  split; [by intros [? ?]|intros i Hi|done]. simpl.
  destruct (decide (ID op = i)) as [->|]; [rewrite lookup_insert_eq; eauto|].
  by rewrite lookup_insert_ne.
Qed.

Lemma keeps_same d d' :
  characters d' = characters d -> tombstones d' = tombstones d ->
  operations d' = operations d -> keeps d d'.
Proof.
  intros Hc Ht Ho. split; [|by rewrite Ho|by rewrite Ht].
  intros [? ?]. split; by rewrite ?Ht, Hc.
Qed.

Lemma keeps_finish {A} (a : A) op d d0 d' :
  keeps d0 d -> ends (finish a op (applyDelete op d)) d' -> keeps d0 d' /\ mu d' = false.
Proof.
  intros Hk. rewrite applyDelete_eq.
  assert (keeps d0 (set_mu false d)) as Hk' by (etrans; [exact Hk|by apply keeps_same]).
  destruct (_ <=? _); [|destruct (_ && _)]; simpl; intros <-; split; try done.
  etrans; [|apply keeps_log]. etrans; [exact Hk|]. etrans; [apply keeps_deletes|].
  by apply keeps_same.
Qed.

Lemma keeps_added {A} (a : A) cid op d d0 d' :
  fresh cid d -> keeps d0 d -> ends (finish a op (applyInsert cid op d)) d' ->
  keeps d0 d' /\ mu d' = false.
Proof.
  intros Hf Hk. rewrite applyInsert_eq. simpl. intros <-. split; [|done].
  etrans; [|apply keeps_log]. etrans; [exact Hk|]. etrans; [by apply keeps_insert|].
  by apply keeps_same.
Qed.

Lemma step_keeps d d' : mu d = false -> doc_step d d' -> keeps d d' /\ mu d' = false.
Proof.
  intros Hmu [id now cid p s Hf He|id now p n He|cid op Hf He].
  - rewrite Insert_eq in He by done.
    apply (keeps_added tt cid (local_op id now "insert" p s 0 d) (set_mu true (tick d)));
      [done|by apply keeps_same|done].
  - rewrite Delete_eq in He by done. eapply keeps_finish; [|exact He]. by apply keeps_same.
  - destruct (operations d !! ID op) eqn:Ho.
    { rewrite ApplyOperation_seen in He by eauto. simpl in He. by subst. }
    rewrite ApplyOperation_new in He by done. cbv zeta in He.
    destruct (bool_decide _);
      [eapply keeps_added; [|by apply (keeps_same _ (set_mu true (heard op d)))|exact He]; done|].
    destruct (bool_decide _);
      [eapply keeps_finish; [by apply (keeps_same _ (set_mu true (heard op d)))|exact He]|].
    simpl in He. subst. split; [by apply keeps_same|done].
Qed.

Lemma steps_keep d d' : mu d = false -> rtc doc_step d d' -> keeps d d' /\ mu d' = false.
Proof.
  intros Hmu H'. induction H' as [d|d d1 d2 Hs _ IH]; [by split|].
  destruct (step_keeps d d1 Hmu Hs) as [Hk Hmu1]. destruct (IH Hmu1) as [Hk2 ?].
  split; [by etrans|done].
Qed.

(** ** Properties *)

(** Text edits: an insertion for whose characters there is room between the two
    neighbours' positions splices its runes into the text at the given index (clamped to
    the text), and it does the same at every other replica that receives the operation and
    has room for it; the replica returns exactly the operation that it logs. *)
Theorem doc_insert_splices id now cid p s d :
  mu d = false ->
  let op := local_op id now "insert" p s 0 d in
  let spliced t := take (Z.to_nat p) t ++ runes s ++ drop (Z.to_nat p) t in
  orderly (insert_at cid op (getVisibleCharacters d)) = true ->
  exists d', Insert id now cid p s d = Returns (Ok op) d' /\
    operations d' = <[id := op]> (operations d) /\ text d' = spliced (text d) /\
    GetContent d' = Returns (Ok (string_of_runes (spliced (text d)))) d' /\
    forall cid' peer, mu peer = false -> operations peer !! id = None ->
      orderly (insert_at cid' op (getVisibleCharacters peer)) = true ->
      exists peer', ApplyOperation cid' op peer = Returns (Ok tt) peer' /\
        text peer' = spliced (text peer).
Proof.
  intros Hmu op spliced Hroom.
  assert (forall c e, orderly (insert_at c op (getVisibleCharacters e)) = true ->
            text (after_insert c op e) = spliced (text e)) as Htext.
  { intros c e He. unfold text at 1. rewrite after_insert_visible by done.
    unfold insert_at. rewrite !fmap_app, new_chars_text, fmap_take, fmap_drop. done. }
  eexists. split_and!; [by apply Insert_eq|done|by apply (Htext cid (set_mu true (tick d)))|..].
  - unfold GetContent, locked. simpl.
    change (Character <$> _) with (text (after_insert cid op (set_mu true (tick d)))).
    by rewrite Htext.
  - intros cid' peer Hmu' Hnew Hroom'. rewrite ApplyOperation_new by done.
    eexists. split; [done|]. by apply (Htext cid' (set_mu true (heard op peer))).
Qed.

(** Deletion, branch by branch: an index past the text is refused and a negative one
    with characters to delete panics, both leaving text, log and tombstones as they were
    but the clock advanced and the mutex free; otherwise, on a well-formed replica, exactly
    the slice of the text is cut out and its characters become tombstones. *)
Theorem doc_delete_cuts id now p n d :
  mu d = false -> doc_ok d -> orderly (getVisibleCharacters d) = true ->
  0 <= n -> in_i64 (p + n) ->
  let op := local_op id now "delete" p EmptyString n d in
  let unchanged d' := text d' = text d /\ operations d' = operations d /\
                      tombstones d' = tombstones d in
  exists d', clock d' = VectorClock.Increment (clock d) (nodeID d) /\ mu d' = false /\
    if Z.of_nat (length (text d)) <=? p then
      Delete id now p n d = Returns (Err "delete position out of bounds") d' /\ unchanged d'
    else if (p <? 0) && (0 <? n) then
      Delete id now p n d = Panics d' /\ unchanged d'
    else
      Delete id now p n d = Returns (Ok op) d' /\ operations d' = <[id := op]> (operations d) /\
      text d' = take (Z.to_nat p) (text d) ++ drop (Z.to_nat (p + n)) (text d) /\
      tombstones d' = list_to_set (slice_ids op (getVisibleCharacters d)) ∪ tombstones d.
Proof.
  intros Hmu Hok Hord Hn Hmax op unchanged. rewrite Delete_eq by done. fold op.
  set (e := set_mu true (tick d)).
  assert (getVisibleCharacters e = getVisibleCharacters d) as Hv by done.
  assert (doc_ok e) as Hoke by (by destruct Hok).
  rewrite applyDelete_eq, Hv. unfold text at 1. rewrite length_fmap.
  change (Position op) with p.
  destruct (Z.leb_spec (Z.of_nat (length (getVisibleCharacters d))) p) as [|Hlen];
    [by exists (set_mu false e)|].
  assert (p <? end_of op e = (0 <? n)) as Hend.
  { unfold end_of. rewrite Hv, i64_small by done. change (Position op) with p.
    change (Length op) with n. bool_cases; lia. }
  rewrite Hend. destruct ((p <? 0) && (0 <? n)) eqn:Hneg; [by exists (set_mu false e)|].
  assert (0 <= p \/ n = 0) as Hpn by (destruct (Z.ltb_spec p 0), (Z.ltb_spec 0 n); done || lia).
  destruct (delete_chars_frame (cut op e) e) as [Hc Ho].
  exists (log_op op (set_mu false (delete_chars (cut op e) e))).
  split; [exact Hc|]. split; [done|]. split; [done|].
  split; [by simpl; rewrite Ho|]. split.
  - unfold text. rewrite (getVisible_chars _ (delete_chars (cut op e) e)) by done.
    destruct (decide (0 <= p)) as [Hp|Hp].
    + rewrite after_delete_visible by (done || apply Hmax). rewrite Hv. unfold delete_at.
      by rewrite fmap_app, fmap_take, fmap_drop.
    + assert (n = 0) as -> by lia.
      assert (cut op e = []) as -> by (rewrite cut_slice by (done || lia); done).
      rewrite !Z2Nat.nonpos by lia. done.
  - simpl. rewrite delete_chars_tombs.
    + by rewrite cut_slice by (done || lia).
    + rewrite cut_slice by (done || lia). apply slice_ids_in.
Qed.

(** Whatever local and remote edits a replica goes through, refusals and panics
    included, IDs stay unique, the tombstones are the deleted characters, and the mutex is
    free between calls. *)
Theorem doc_reachable_ok docid node d :
  rtc doc_step (NewDocumentCRDT docid node) d ->
  NoDup (char_ID <$> characters d) /\ tombstones d = deleted_ids (characters d) /\ mu d = false.
Proof.
  intros Hd. destruct (steps_keep (NewDocumentCRDT docid node) d) as [Hk Hmu]; [done..|].
  destruct (keeps_ok _ _ Hk) as [? ?]; [by repeat constructor|]. done.
Qed.

(** Exactly-once delivery: once an operation was applied, delivering it again at any
    later state returns without an error and changes nothing, and deletions are never
    undone.  A refused operation leaves text and log as they were, but not the clock. *)
Theorem doc_exactly_once cid op d :
  mu d = false ->
  match ApplyOperation cid op d with
  | Returns (Ok _) d1 =>
      forall cid' d2, rtc doc_step d1 d2 ->
        ApplyOperation cid' op d2 = Returns (Ok tt) d2 /\ tombstones d1 ⊆ tombstones d2
  | Returns (Err _) d1 | Panics d1 =>
      text d1 = text d /\ operations d1 = operations d /\
      clock d1 = VectorClock.Update (clock d) (Clock op)
  | Blocks => False
  end.
Proof.
  intros Hmu.
  assert (forall d1, mu d1 = false -> is_Some (operations d1 !! ID op) ->
    forall cid' d2, rtc doc_step d1 d2 ->
      ApplyOperation cid' op d2 = Returns (Ok tt) d2 /\ tombstones d1 ⊆ tombstones d2) as Hagain.
  { intros d1 Hmu1 Hin cid' d2 Hsteps. destruct (steps_keep _ _ Hmu1 Hsteps) as [Hk Hmu2].
    split; [|apply Hk]. apply ApplyOperation_seen; [done|]. by apply Hk. }
  destruct (operations d !! ID op) eqn:Hop.
  { rewrite ApplyOperation_seen by eauto. apply Hagain; eauto. }
  rewrite ApplyOperation_new by done. cbv zeta.
  destruct (bool_decide _).
  { rewrite applyInsert_eq. cbn [finish]. apply Hagain; [done|]. simpl. rewrite lookup_insert_eq. eauto. }
  destruct (bool_decide _); [|done].
  rewrite applyDelete_eq. destruct (_ <=? _); [done|destruct (_ && _); [done|]].
  cbn [finish]. apply Hagain; [done|]. simpl. rewrite lookup_insert_eq. eauto.
Qed.

Lemma merge_loop_locked cids l d :
  mu d = true ->
  merge_loop cids l d =
    if bool_decide (Forall (λ kv, is_Some (operations d !! kv.1)) l)
    then Returns (Ok tt) d else Blocks.
Proof.
  intros Hmu. induction l as [|[k op] l IH]; [done|].
  cbn [merge_loop]. unfold mbind, M_bind, gets in *.
  destruct (operations d !! k) as [o|] eqn:Ho.
  - unfold mret, M_ret. rewrite IH. case_bool_decide as Hl.
    + rewrite bool_decide_true; [done|]. apply Forall_cons. simpl. rewrite Ho. eauto.
    + rewrite bool_decide_false; [done|]. by intros [_ ?]%Forall_cons.
  - unfold wrap_error, ApplyOperation, locked. rewrite Hmu.
    rewrite bool_decide_false; [done|]. rewrite Forall_cons. simpl. rewrite Ho.
    intros [[? ?] _]. done.
Qed.

(** C33 [Merge] holds the replica's mutex and calls [ApplyOperation], which locks it again:
    it returns only when the other replica has no operation that is new here, in which
    case it changes nothing, and blocks for ever otherwise; merging a replica with itself
    always blocks. *)
Theorem doc_merge_blocks cids l other d :
  mu d = false -> mu other = false -> ranges l (operations other) ->
  Merge cids l (AsDocument other) d
    = (if bool_decide (dom (operations other) ⊆ dom (operations d))
       then Returns (Ok tt) d else Blocks) /\
  Merge cids l AsItself d = Blocks.
Proof.
  intros Hmu Hother Hl. unfold Merge, locked. rewrite Hmu, Hother. split; [|done].
  assert (Forall (λ kv, is_Some (operations d !! kv.1)) l
          <-> dom (operations other) ⊆ dom (operations d)) as Hiff.
  { rewrite Forall_forall, elem_of_subseteq. setoid_rewrite elem_of_dom. split.
    - intros Hin k [o Hk]. apply (Hin (k, o)). by apply (ranges_elem _ _ _ _ Hl).
    - intros Hin [k o] Hk. apply Hin. apply (ranges_elem _ _ _ _ Hl) in Hk. eauto. }
  rewrite merge_loop_locked by done. simpl. do 2 case_bool_decide; try tauto.
  by rewrite set_mu_mu, set_mu_id.
Qed.

Lemma GetContent_eq d :
  mu d = false -> GetContent d = Returns (Ok (string_of_runes (text d))) d.
Proof.
  intros Hmu. unfold GetContent, locked, gets. by rewrite Hmu, set_mu_mu, set_mu_id.
Qed.

(** The replica after a local insertion. *)
Definition inserted (id : N) (now : Z) (cid : nat -> N) (p : Z) (s : string) (d : DocumentCRDT)
  : DocumentCRDT :=
  let op := local_op id now "insert" p s 0 d in
  log_op op (set_mu false (after_insert cid op (set_mu true (tick d)))).

Lemma inserted_visible id now cid p s d V :
  V ≡ₚ getVisibleCharacters d ++
       new_chars cid (position_in (getVisibleCharacters d) p) (local_op id now "insert" p s 0 d) ->
  orderly V = true -> getVisibleCharacters (inserted id now cid p s d) = V.
Proof.
  intros Hp Ho. apply getVisible_eq; [|done]. rewrite Hp. simpl.
  rewrite filter_app, new_chars_visible, <-getVisible_perm. done.
Qed.

(** The replica after a remote operation that succeeds. *)
Definition received_insert (cid : nat -> N) (op : CRDTOperation) (d : DocumentCRDT) : DocumentCRDT :=
  log_op op (set_mu false (after_insert cid op (set_mu true (heard op d)))).
Definition received_delete (op : CRDTOperation) (d : DocumentCRDT) : DocumentCRDT :=
  let e := set_mu true (heard op d) in log_op op (set_mu false (delete_chars (cut op e) e)).
Definition deleted (id : N) (now p n : Z) (d : DocumentCRDT) : DocumentCRDT :=
  let op := local_op id now "delete" p EmptyString n d in
  let e := set_mu true (tick d) in log_op op (set_mu false (delete_chars (cut op e) e)).

Lemma received_insert_visible cid op d V :
  V ≡ₚ getVisibleCharacters d ++ new_chars cid (position_in (getVisibleCharacters d) (Position op)) op ->
  orderly V = true -> getVisibleCharacters (received_insert cid op d) = V.
Proof.
  intros Hp Ho. apply getVisible_eq; [|done]. rewrite Hp. simpl.
  rewrite filter_app, new_chars_visible, <-getVisible_perm. done.
Qed.

(** A deletion within the text, local or remote ([e]: the replica with its clock updated). *)
Record deletable (op : CRDTOperation) (d : DocumentCRDT) : Prop := {
  del_ok : doc_ok d;
  del_orderly : orderly (getVisibleCharacters d) = true;
  del_start : 0 <= Position op < Z.of_nat (length (getVisibleCharacters d));
  del_length : 0 <= Length op;
  del_int : Position op + Length op <= max_int64;
}.

Lemma deletable_apply op d :
  deletable op d ->
  applyDelete op d = Returns (Ok tt) (delete_chars (cut op d) d) /\
  getVisibleCharacters (delete_chars (cut op d) d) = delete_at op (getVisibleCharacters d).
Proof.
  intros [Hok Ho Hs Hl Hi]. split; [|apply after_delete_visible; (done || apply Hs)].
  rewrite applyDelete_eq, (proj2 (Z.leb_gt _ _)), (proj2 (Z.ltb_ge (Position op) 0)) by lia. done.
Qed.

Lemma received_delete_operations op d :
  operations (received_delete op d) = <[ID op := op]> (operations d).
Proof. unfold received_delete. simpl. by rewrite (proj2 (delete_chars_frame _ _)). Qed.

Lemma deleted_operations id now p n d :
  operations (deleted id now p n d)
    = <[id := local_op id now "delete" p EmptyString n d]> (operations d).
Proof. unfold deleted. simpl. by rewrite (proj2 (delete_chars_frame _ _)). Qed.

Lemma deletable_same op d e : characters e = characters d -> tombstones e = tombstones d ->
  deletable op d -> deletable op e.
Proof.
  intros Hc Ht [[? ?] ? ? ? ?]. pose proof (getVisible_chars e d Hc) as Hv.
  split; rewrite ?Hv; try done. split; by rewrite ?Ht, Hc.
Qed.

Lemma Delete_within id now p n d :
  mu d = false -> let op := local_op id now "delete" p EmptyString n d in
  deletable op d ->
  Delete id now p n d = Returns (Ok op) (deleted id now p n d) /\
  getVisibleCharacters (deleted id now p n d) = delete_at op (getVisibleCharacters d).
Proof.
  intros Hmu op Hd. rewrite Delete_eq by done. fold op.
  destruct (deletable_apply op (set_mu true (tick d))) as [-> Hv]; [by apply (deletable_same op d)|].
  split; [done|exact Hv].
Qed.

Lemma receive_insert cid op d :
  mu d = false -> operations d !! ID op = None -> Type_ op = "insert" ->
  ApplyOperation cid op d = Returns (Ok tt) (received_insert cid op d).
Proof. intros Hmu Ho Ht. rewrite ApplyOperation_new by done. cbv zeta. by rewrite Ht. Qed.

Lemma receive_delete cid op d :
  mu d = false -> operations d !! ID op = None -> Type_ op = "delete" -> deletable op d ->
  ApplyOperation cid op d = Returns (Ok tt) (received_delete op d) /\
  getVisibleCharacters (received_delete op d) = delete_at op (getVisibleCharacters d).
Proof.
  intros Hmu Ho Ht Hd. rewrite ApplyOperation_new by done. cbv zeta. rewrite Ht. simpl.
  destruct (deletable_apply op (set_mu true (heard op d))) as [Ha Hv];
    [by apply (deletable_same op d)|].
  change (set_mu true _) with (set_mu true (heard op d)). rewrite Ha. split; [done|exact Hv].
Qed.

Lemma new_document_visible docid node : getVisibleCharacters (NewDocumentCRDT docid node) = [].
Proof. by apply getVisible_eq. Qed.

(** A character's position is its predecessor's plus a fixed step, so an insertion of
    two runes between neighbours typed together overshoots the right neighbour: pasting
    ["XY"] between ["a"] and ["c"] gives ["aXcY"], for every sorting function. *)
Theorem doc_paste_interleaves docid node id1 id2 now1 now2 cid1 cid2 :
  exists d1 d2 op1 op2,
    Insert id1 now1 cid1 0 "ac" (NewDocumentCRDT docid node) = Returns (Ok op1) d1 /\
    GetContent d1 = Returns (Ok "ac"%string) d1 /\
    Insert id2 now2 cid2 1 "XY" d1 = Returns (Ok op2) d2 /\
    GetContent d2 = Returns (Ok "aXcY"%string) d2.
Proof.
  set (d := NewDocumentCRDT docid node).
  set (d1 := inserted id1 now1 cid1 0 "ac" d). set (d2 := inserted id2 now2 cid2 1 "XY" d1).
  pose proof (new_document_visible docid node) as HV0. fold d in HV0.
  assert (getVisibleCharacters d1 = insert_at cid1 (local_op id1 now1 "insert" 0 "ac" 0 d) []) as HV1.
  { apply inserted_visible; rewrite ?HV0; by vm_compute. }
  set (new := new_chars cid2 (position_in (insert_at cid1 (local_op id1 now1 "insert" 0 "ac" 0 d) []) 1)
                (local_op id2 now2 "insert" 1 "XY" 0 d1)).
  assert (getVisibleCharacters d2
          = take 1 (insert_at cid1 (local_op id1 now1 "insert" 0 "ac" 0 d) []) ++ take 1 new ++
            drop 1 (insert_at cid1 (local_op id1 now1 "insert" 0 "ac" 0 d) []) ++ drop 1 new) as HV2.
  { apply inserted_visible; rewrite ?HV1; [|by vm_compute]. fold new.
    rewrite <-(take_drop 1 (insert_at _ _ [])) at 3. rewrite <-(take_drop 1 new) at 3.
    by rewrite <-app_assoc, (Permutation_app_swap_app (drop 1 _)). }
  exists d1, d2, (local_op id1 now1 "insert" 0 "ac" 0 d), (local_op id2 now2 "insert" 1 "XY" 0 d1).
  split; [by apply Insert_eq|]. split; [|split; [by apply Insert_eq|]];
    rewrite GetContent_eq by done; unfold text; rewrite ?HV1, ?HV2; do 2 f_equal; by vm_compute.
Qed.

(** Compute well-formedness, positions being left alone. *)
Ltac compute_ok := split; [apply (bool_decide_unpack _); by vm_compute | by vm_compute].

(** Operations carry indexes into their author's text, so concurrent edits do not
    commute: two replicas of the document ["ab"], one inserting ["X"] in the middle, the
    other deleting the ["a"], exchange their operations without an error, know the same
    operations, and keep the contents ["Xb"] and ["bX"]. *)
Theorem doc_replicas_diverge docid now1 now2 now3 :
  exists op a1 b1 opX a2 opD b2 a3 b3,
    Insert 1 now1 (ids 100) 0 "ab" (NewDocumentCRDT docid "a") = Returns (Ok op) a1 /\
    ApplyOperation (ids 200) op (NewDocumentCRDT docid "b") = Returns (Ok tt) b1 /\
    Insert 2 now2 (ids 110) 1 "X" a1 = Returns (Ok opX) a2 /\
    Delete 3 now3 0 1 b1 = Returns (Ok opD) b2 /\
    ApplyOperation (ids 120) opD a2 = Returns (Ok tt) a3 /\
    ApplyOperation (ids 210) opX b2 = Returns (Ok tt) b3 /\
    dom (operations a3) = dom (operations b3) /\
    GetContent a3 = Returns (Ok "Xb"%string) a3 /\ GetContent b3 = Returns (Ok "bX"%string) b3.
Proof.
  set (a0 := NewDocumentCRDT docid "a"). set (b0 := NewDocumentCRDT docid "b").
  pose proof (new_document_visible docid "a") as Va0. fold a0 in Va0.
  pose proof (new_document_visible docid "b") as Vb0. fold b0 in Vb0.
  set (op := local_op 1 now1 "insert" 0 "ab" 0 a0).
  set (a1 := inserted 1 now1 (ids 100) 0 "ab" a0). set (b1 := received_insert (ids 200) op b0).
  assert (getVisibleCharacters a1 = insert_at (ids 100) op []) as Va1.
  { apply inserted_visible; rewrite ?Va0; by vm_compute. }
  assert (getVisibleCharacters b1 = insert_at (ids 200) op []) as Vb1.
  { apply received_insert_visible; rewrite ?Vb0; by vm_compute. }
  set (opX := local_op 2 now2 "insert" 1 "X" 0 a1).
  set (opD := local_op 3 now3 "delete" 0 EmptyString 1 b1).
  set (a2 := inserted 2 now2 (ids 110) 1 "X" a1).
  assert (getVisibleCharacters a2 = insert_at (ids 110) opX (insert_at (ids 100) op [])) as Va2.
  { apply inserted_visible; rewrite ?Va1; [|by vm_compute]. unfold insert_at at 1.
    rewrite (Permutation_app_comm (new_chars _ _ _)), app_assoc, take_drop. done. }
  destruct (Delete_within 3 now3 0 1 b1) as [Hb2 Vb2]; [done|..].
  { split; [compute_ok|by rewrite Vb1; vm_compute|by rewrite Vb1; vm_compute|done|done]. }
  destruct (receive_delete (ids 120) opD a2) as [Ha3 Va3]; [done..| |].
  { split; [compute_ok|by rewrite Va2; vm_compute|by rewrite Va2; vm_compute|done|done]. }
  set (b2 := deleted 3 now3 0 1 b1) in *. rewrite Vb1 in Vb2.
  assert (getVisibleCharacters (received_insert (ids 210) opX b2)
          = delete_at opD (insert_at (ids 200) op []) ++
            new_chars (ids 210) (position_in (delete_at opD (insert_at (ids 200) op [])) 1) opX) as Vb3.
  { apply received_insert_visible; rewrite ?Vb2; [done|by vm_compute]. }
  rewrite Va2 in Va3.
  exists op, a1, b1, opX, a2, opD, b2, (received_delete opD a2), (received_insert (ids 210) opX b2).
  split; [by apply Insert_eq|]. split; [apply receive_insert; by vm_compute|].
  split; [by apply Insert_eq|]. split; [exact Hb2|]. split; [exact Ha3|].
  assert (operations b2 = <[ID opD := opD]> (operations b1)) as Ob2 by apply deleted_operations.
  split; [apply receive_insert; [done|rewrite Ob2; by vm_compute|done]|]. split; [|split].
  - rewrite received_delete_operations.
    change (operations (received_insert _ opX b2)) with (<[ID opX := opX]> (operations b2)).
    rewrite Ob2. by vm_compute.
  - rewrite GetContent_eq by done. unfold text. rewrite Va3. reflexivity.
  - rewrite GetContent_eq by done. unfold text. rewrite Vb3. reflexivity.
Qed.

End document.

(** ** Examples *)

Definition content_of {A} (o : outcome A) : option string :=
  match o with
  | Returns _ d => match GetContent d with Returns (Ok s) _ => Some s | _ => None end
  | _ => None
  end.

Example edit_example :
  let d := NewDocumentCRDT 1 "a" in
  content_of ((Insert 1 0 (ids 100) 0 "hello";; Insert 2 0 (ids 200) 5 " wörld";;
               Delete 3 0 1 3) d) = Some "ho wörld"%string.
Proof. vm_compute. done. Qed.

(** ** Instances of the properties, with insertion sort *)

Definition hello : DocumentCRDT :=
  match Insert 1 0 (ids 100) 0 "hello" (NewDocumentCRDT 1 "a") with
  | Returns _ d => d
  | _ => NewDocumentCRDT 1 "a"
  end.

Lemma doc_insert_splices_witness :
  exists d', GetContent d' = Returns (Ok "hello, wörld"%string) d'.
Proof.
  destruct (doc_insert_splices 2 7 (ids 200) 5 ", wörld" hello) as (d' & _ & _ & _ & Hd & _);
    [by vm_compute..|].
  exists d'. exact Hd.
Defined.

Lemma doc_delete_cuts_witness :
  (exists d', mu d' = false /\ text d' = runes "ho") /\
  (exists d', mu d' = false /\ Delete 2 7 (-1) 3 hello = Panics d').
Proof.
  assert (doc_ok hello) as Hok by (split; [apply (bool_decide_unpack _)|]; by vm_compute).
  assert (forall n, n <= 4 -> (Z.of_nat (length (text hello)) <=? n) = false) as Hlen.
  { intros n Hn. replace (length (text hello)) with 5%nat by (by vm_compute). apply Z.leb_gt. lia. }
  split.
  - destruct (doc_delete_cuts 2 7 1 3 hello) as (d' & _ & Hmu & Hd);
      [by vm_compute|exact Hok|by vm_compute|lia|by vm_compute|].
    rewrite Hlen in Hd by lia. destruct Hd as (_ & _ & Ht & _).
    exists d'. split; [exact Hmu|]. rewrite Ht. by vm_compute.
  - destruct (doc_delete_cuts 2 7 (-1) 3 hello) as (d' & _ & Hmu & Hd);
      [by vm_compute|exact Hok|by vm_compute|lia|by vm_compute|].
    rewrite Hlen in Hd by lia. destruct Hd as (Hd & _).
    exists d'. split; [exact Hmu|exact Hd].
Defined.

Lemma doc_reachable_ok_witness : mu hello = false /\ tombstones hello = deleted_ids (characters hello).
Proof.
  destruct (doc_reachable_ok 1 "a" hello) as (_ & Ht & Hmu); [|by split].
  apply rtc_once, (DoInsert _ _ 1 0 (ids 100) 0 "hello"); [|by vm_compute].
  split; [intros i j; unfold ids; lia|]. intros k Hk. by apply elem_of_nil in Hk.
Defined.

Lemma doc_exactly_once_witness :
  let op := local_op 2 7 "insert" 5 "!" 0 hello in
  match ApplyOperation (ids 200) op (NewDocumentCRDT 2 "b") with
  | Returns (Ok _) d1 => ApplyOperation (ids 300) op d1 = Returns (Ok tt) d1
  | _ => False
  end.
Proof.
  intros op. pose proof (doc_exactly_once (ids 200) op (NewDocumentCRDT 2 "b") eq_refl) as Hp.
  destruct (ApplyOperation (ids 200) op (NewDocumentCRDT 2 "b")) as [[[]|e] d1|d1|] eqn:Ha;
    [|discriminate Ha..].
  by apply (Hp (ids 300) d1).
Defined.

Lemma doc_merge_blocks_witness :
  let other := map_to_list (operations hello) in
  Merge (λ _, ids 500) other (AsDocument hello) (NewDocumentCRDT 1 "b") = Blocks /\
  Merge (λ _, ids 500) other (AsDocument hello) hello = Returns (Ok tt) hello.
Proof.
  intros other. split.
  - destruct (doc_merge_blocks (λ _, ids 500) other hello (NewDocumentCRDT 1 "b")) as [-> _];
      [by vm_compute..|exact (ranges_refl _)|by vm_compute].
  - destruct (doc_merge_blocks (λ _, ids 500) other hello hello) as [-> _];
      [by vm_compute..|exact (ranges_refl _)|by vm_compute].
Defined.

Lemma doc_paste_interleaves_witness :
  exists d1 d2 op1 op2,
    Insert 1 0 (ids 100) 0 "ac" (NewDocumentCRDT 1 "a") = Returns (Ok op1) d1 /\
    GetContent d1 = Returns (Ok "ac"%string) d1 /\
    Insert 2 0 (ids 200) 1 "XY" d1 = Returns (Ok op2) d2 /\
    GetContent d2 = Returns (Ok "aXcY"%string) d2.
Proof. exact (doc_paste_interleaves 1 "a" 1 2 0 0 (ids 100) (ids 200)). Defined.

Lemma doc_replicas_diverge_witness :
  exists d1 d2, GetContent d1 = Returns (Ok "Xb"%string) d1 /\ GetContent d2 = Returns (Ok "bX"%string) d2.
Proof.
  destruct (doc_replicas_diverge 1 0 0 0) as (? & ? & ? & ? & ? & ? & ? & a3 & b3 & H).
  exists a3, b3. split; apply H.
Defined.
