(* ===== verification/Pool.v ===== *)
(** * Pool: objects reached through named pointers

    Several components keep a Go map from names to pointers ([*CircuitBreaker],
    [*RateLimiter], ...).  A [pool] is such a map with the store the pointers point
    into; an address stays valid for ever, as a pointer does, also after the map
    drops it.  [view] is what a client sees, and the lemmas say when calls through
    the map act on each name's object alone. *)

From stdpp Require Import base decidable gmap strings list.
From Stdlib Require Import ZArith Lia.
From S2P Require Import Prelude.

Record pool (A : Type) := Pool {
  names : gmap string nat;
  store : list A;
}.
Arguments Pool {A} names store.
Arguments names {A} p.
Arguments store {A} p.

Definition empty_pool {A} : pool A := Pool ∅ [].

(** [&T{...}] bound to [n] in the map. *)
Definition bind_new {A} (n : string) (x : A) (p : pool A) : nat * pool A :=
  (length (store p), Pool (<[n := length (store p)]> (names p)) (store p ++ [x])).

Definition bind_unless_bound {A} (n : string) (x : A) (p : pool A) : nat * pool A :=
  match names p !! n with
  | Some a => (a, p)
  | None => bind_new n x p
  end.

(** [for n, c := range configs { m[n] = New(n, c) }]. *)
Definition bind_all {A C} (new : string -> C -> A) (l : list (string * C)) : pool A :=
  foldl (λ p '(n, c), snd (bind_new n (new n c) p)) empty_pool l.

(** A method call through a pointer. *)
Definition at_address {A R} (a : nat) (f : A -> R * A) (p : pool A)
  : option R * pool A :=
  match store p !! a with
  | Some x => let '(r, x) := f x in (Some r, Pool (names p) (<[a := x]> (store p)))
  | None => (None, p)
  end.

(** ** Pools without sharing *)

(** Names bind addresses in the store, and no two names the same one. *)
Record pool_ok {A} (p : pool A) : Prop := {
  pool_bound : forall n a, names p !! n = Some a -> (a < length (store p))%nat;
  pool_inj : forall n n' a, names p !! n = Some a -> names p !! n' = Some a -> n = n';
}.

(** What a client sees: each name's own object. *)
Definition view {A} (p : pool A) : gmap string A := omap (λ a, store p !! a) (names p).

Lemma pool_ok_empty {A} : pool_ok (@empty_pool A).
Proof. split; intros *; simpl; by rewrite lookup_empty. Qed.

Lemma view_lookup {A} (p : pool A) n : view p !! n = names p !! n ≫= λ a, store p !! a.
Proof. apply lookup_omap. Qed.

Lemma view_bound {A} (p : pool A) n : pool_ok p -> view p !! n = None <-> names p !! n = None.
Proof.
  intros Hp. rewrite view_lookup. destruct (names p !! n) as [a|] eqn:Ha; [|done].
  simpl. rewrite lookup_ge_None. pose proof (pool_bound _ Hp n a Ha).
  split; [lia|done].
Qed.

Lemma bind_new_ok {A} n (x : A) p : pool_ok p -> pool_ok (snd (bind_new n x p)).
Proof.
  intros [Hb Hi]. split; simpl.
  - intros m a. rewrite length_app, lookup_insert_Some. simpl.
    intros [[_ <-]|[_ Ha%Hb]]; lia.
  - intros m m' a. rewrite !lookup_insert_Some.
    intros [[<- <-]|[Hm Ha]] [[<- Ha']|[Hm' Ha']]; eauto.
    + apply Hb in Ha'. lia.
    + subst a. apply Hb in Ha. lia.
Qed.

Lemma view_bind_new {A} n (x : A) p : pool_ok p -> view (snd (bind_new n x p)) = <[n := x]> (view p).
Proof.
  intros [Hb _]. apply map_eq. intros m. rewrite view_lookup. simpl.
  destruct (decide (n = m)) as [<-|Hne].
  - rewrite !lookup_insert_eq. simpl. by rewrite list_lookup_middle.
  - rewrite !lookup_insert_ne, view_lookup by done.
    destruct (names p !! m) as [a|] eqn:Ha; [|done]. simpl.
    by rewrite lookup_app_l by eauto.
Qed.

Lemma at_address_ok {A R} a (f : A -> R * A) p :
  pool_ok p -> pool_ok (snd (at_address a f p)).
Proof.
  intros [Hb Hi]. unfold at_address. destruct (store p !! a) as [x|]; [|done].
  destruct (f x) as [r x']. split; simpl; [intros n b; rewrite length_insert; apply Hb|done].
Qed.

Lemma view_at_address {A R} n a x (f : A -> R * A) p :
  pool_ok p -> names p !! n = Some a -> store p !! a = Some x ->
  fst (at_address a f p) = Some (fst (f x)) /\
  view (snd (at_address a f p)) = <[n := snd (f x)]> (view p).
Proof.
  intros [Hb Hi] Hn Ha. unfold at_address. rewrite Ha.
  destruct (f x) as [r x']. split; [done|]. simpl.
  apply map_eq. intros m. rewrite view_lookup. simpl.
  destruct (decide (n = m)) as [<-|Hne].
  - rewrite lookup_insert_eq, Hn. simpl.
    apply list_lookup_insert_eq. by apply lookup_lt_Some in Ha.
  - rewrite lookup_insert_ne, view_lookup by done.
    destruct (names p !! m) as [b|] eqn:Hm; [|done]. simpl.
    apply list_lookup_insert_ne. intros ->. eauto.
Qed.

(** A call through [get], on a name bound before or just now. *)
Lemma bind_unless_bound_view {A} n (new : A) p :
  pool_ok p ->
  let '(a, p') := bind_unless_bound n new p in
  let x := default new (view p !! n) in
  pool_ok p' /\ names p' !! n = Some a /\ store p' !! a = Some x /\
  view p' = <[n := x]> (view p).
Proof.
  intros Hp. unfold bind_unless_bound. destruct (names p !! n) as [a|] eqn:Ha.
  - destruct (lookup_lt_is_Some_2 (store p) a) as [x Hx]; [by eapply pool_bound|].
    assert (view p !! n = Some x) as Hv by (rewrite view_lookup, Ha; done).
    rewrite Hv. simpl. split_and!; try done. by rewrite insert_id.
  - pose proof (proj2 (view_bound p n Hp) Ha) as Hv. rewrite Hv. simpl.
    split_and!; [by apply (bind_new_ok n new)|apply lookup_insert_eq| |].
    + by rewrite list_lookup_middle.
    + by apply (view_bind_new n new).
Qed.

Section calls.
Context {A R : Type} (n : string) (new : A) (f : A -> R * A).

Definition call_named (p : pool A) : option R * pool A :=
  let '(a, p) := bind_unless_bound n new p in at_address a f p.

Lemma call_named_view p :
  pool_ok p ->
  let x := default new (view p !! n) in
  pool_ok (snd (call_named p)) /\
  fst (call_named p) = Some (fst (f x)) /\
  view (snd (call_named p)) = <[n := snd (f x)]> (view p).
Proof.
  intros Hp. pose proof (bind_unless_bound_view n new p Hp) as H.
  unfold call_named. destruct (bind_unless_bound n new p) as [a p'].
  destruct H as (Hp' & Hn & Ha & Hv). split; [by apply at_address_ok|].
  destruct (view_at_address n a _ f p' Hp' Hn Ha) as [-> ->]. split; [done|].
  rewrite Hv. apply insert_insert_eq.
Qed.
End calls.


Lemma bind_all_view {A C} (new : string -> C -> A) l :
  NoDup l.*1 ->
  pool_ok (bind_all new l) /\
  view (bind_all new l)
    = map_imap (λ n c, Some (new n c)) (list_to_map l).
Proof.
  intros Hnd. unfold bind_all.
  enough (forall p, pool_ok p ->
    let p' := foldl (λ p '(n, c), snd (bind_new n (new n c) p)) p l in
    pool_ok p' /\ forall n, view p' !! n =
      match (list_to_map l : gmap string C) !! n with
      | Some c => Some (new n c) | None => view p !! n end) as H.
  { destruct (H empty_pool pool_ok_empty) as [? Hv]. split; [done|].
    apply map_eq. intros n. rewrite Hv, map_lookup_imap.
    destruct (list_to_map l !! n); [done|]. by rewrite view_lookup. }
  induction l as [|[n c] l IH]; intros p Hp; simpl; [done|].
  apply NoDup_cons in Hnd as [Hn Hnd].
  destruct (IH Hnd _ (bind_new_ok n (new n c) p Hp)) as [Hp' Hv].
  split; [done|]. intros m. rewrite Hv, view_bind_new by done.
  destruct (decide (n = m)) as [<-|Hne].
  - by rewrite (not_elem_of_list_to_map_1 _ n), !lookup_insert_eq by done.
  - by rewrite !lookup_insert_ne by done.
Qed.

Lemma ranges_names_ok {A} l (m : pool A) :
  ranges l (names m) -> (forall n a, (n, a) ∈ l -> names m !! n = Some a) /\ NoDup l.*1.
Proof.
  intros Hl. split; [|by eapply ranges_NoDup].
  intros n a. by rewrite (ranges_elem l (names m)).
Qed.
