(* ===== verification/Breaker.v ===== *)
(** * Breaker: [pkg/resilience]'s circuit breaker

    [counts.go], [circuit_breaker.go] and [circuit_breaker_config.go].  The
    breaker's atomics and mutex-protected fields are one record; [canExecute],
    [recordSuccess], [recordFailure], [transitionTo] and [Reset] are its atomic
    steps, and [Execute] is [canExecute], then [reject_call] or [enter_call], the
    call of the wrapped function, [settle_call] and [leave_call].  These are also
    the steps of the interleaving semantics [sys_step], where calls overlap; one
    call of [transitionTo] is one step there.  Logging and metrics calls have no
    effect on the state and are left out; [time.Now()] is an argument, read once
    per step.

    The manager and the registry keep pointers to breakers: a store of breakers
    and a map from names to its addresses, so that two names, or an old and a new
    breaker of one name, share state exactly when the Go pointers do. *)

From stdpp Require Import base decidable gmap strings list sorting.
From Stdlib Require Import ZArith Lia.
From S2P Require Import Prelude GoFloat.

Local Open Scope Z_scope.

(** ** Counts *)

(** [Counts]: request counters are [int] (no run reaches 2^63 requests), the
    two compatibility totals are [uint32] and wrap. *)
Record Counts := MkCounts {
  Requests : Z;
  Successes : Z;
  Failures : Z;
  ConsecutiveSuccesses : Z;
  ConsecutiveFailures : Z;
  Timeout_ : Z;
  ShortCircuited : Z;
  Rejected : Z;
  LastSuccess : Z;
  LastFailure : Z;
  LastTimeout : Z;
  TotalSuccesses : Z;
  TotalFailures : Z;
}.

Definition NewCounts : Counts :=
  MkCounts 0 0 0 0 0 0 0 0 zero_time zero_time zero_time 0 0.

Definition RecordSuccess (now : Z) (c : Counts) : Counts :=
  MkCounts (Requests c + 1) (Successes c + 1) (Failures c)
    (ConsecutiveSuccesses c + 1) 0
    (Timeout_ c) (ShortCircuited c) (Rejected c)
    now (LastFailure c) (LastTimeout c)
    (u32 (TotalSuccesses c + 1)) (TotalFailures c).

Definition RecordFailure (now : Z) (c : Counts) : Counts :=
  MkCounts (Requests c + 1) (Successes c) (Failures c + 1)
    0 (ConsecutiveFailures c + 1)
    (Timeout_ c) (ShortCircuited c) (Rejected c)
    (LastSuccess c) now (LastTimeout c)
    (TotalSuccesses c) (u32 (TotalFailures c + 1)).

Definition RecordTimeout (now : Z) (c : Counts) : Counts :=
  MkCounts (Requests c + 1) (Successes c) (Failures c + 1)
    0 (ConsecutiveFailures c + 1)
    (Timeout_ c + 1) (ShortCircuited c) (Rejected c)
    (LastSuccess c) now now
    (TotalSuccesses c) (u32 (TotalFailures c + 1)).

Definition RecordRejected (c : Counts) : Counts :=
  MkCounts (Requests c) (Successes c) (Failures c)
    (ConsecutiveSuccesses c) (ConsecutiveFailures c)
    (Timeout_ c) (ShortCircuited c) (Rejected c + 1)
    (LastSuccess c) (LastFailure c) (LastTimeout c)
    (TotalSuccesses c) (TotalFailures c).

Definition RecordShortCircuited (c : Counts) : Counts :=
  MkCounts (Requests c) (Successes c) (Failures c)
    (ConsecutiveSuccesses c) (ConsecutiveFailures c)
    (Timeout_ c) (ShortCircuited c + 1) (Rejected c)
    (LastSuccess c) (LastFailure c) (LastTimeout c)
    (TotalSuccesses c) (TotalFailures c).

(** [Reset]: the two [uint32] totals and the timestamps are kept. *)
Definition Reset_counts (c : Counts) : Counts :=
  MkCounts 0 0 0 0 0 0 0 0 (LastSuccess c) (LastFailure c) (LastTimeout c)
    (TotalSuccesses c) (TotalFailures c).

Definition ResetTimestamps (c : Counts) : Counts :=
  MkCounts (Requests c) (Successes c) (Failures c)
    (ConsecutiveSuccesses c) (ConsecutiveFailures c)
    (Timeout_ c) (ShortCircuited c) (Rejected c)
    zero_time zero_time zero_time
    (TotalSuccesses c) (TotalFailures c).

(** ** The breaker *)

(** [CircuitBreakerState], an [int] with three named values. *)
Inductive CircuitBreakerState :=
| CircuitBreakerClosed
| CircuitBreakerOpen
| CircuitBreakerHalfOpen
| UnknownState (n : Z).

#[export] Instance CircuitBreakerState_eq_dec : EqDecision CircuitBreakerState.
Proof. solve_decision. Defined.

Definition String_of_state (s : CircuitBreakerState) : string :=
  match s with
  | CircuitBreakerClosed => "closed"
  | CircuitBreakerOpen => "open"
  | CircuitBreakerHalfOpen => "half-open"
  | UnknownState _ => "unknown"
  end.

Record CircuitBreakerConfig := MkConfig {
  FailureThreshold : Z;
  FailureRatio : float64;
  ResetTimeout : Z;
  SuccessThreshold : Z;
  TimeoutThreshold : Z;
  MaxRequestsHalfOpen : Z;
  MinimumRequestCount : Z;
}.

(** The wrapped function's value and error are opaque to the breaker. *)
Inductive breaker_error (E : Type) :=
| ErrCircuitBreakerOpen
| ErrCircuitBreakerTimeout
| ErrMaxRequestsExceeded
| ErrUnknownState (s : CircuitBreakerState)
| ErrContext (e : E)
| ErrFn (e : E)
| Wrapped (msg : string) (e : breaker_error E).
Arguments ErrCircuitBreakerOpen {E}.
Arguments ErrCircuitBreakerTimeout {E}.
Arguments ErrMaxRequestsExceeded {E}.
Arguments ErrUnknownState {E} s.
Arguments ErrContext {E} e.
Arguments ErrFn {E} e.
Arguments Wrapped {E} msg e.

Record CircuitBreaker := MkBreaker {
  name : string;
  config : CircuitBreakerConfig;
  state : CircuitBreakerState;
  counts : Counts;
  lastFailureTime : Z;
  lastStateChange : Z;
  halfOpenRequests : Z;
}.

(** [if config.F == 0 { config.F = default }], field by field. *)
Definition apply_defaults (c : CircuitBreakerConfig) : CircuitBreakerConfig :=
  MkConfig
    (if FailureThreshold c =? 0 then 5 else FailureThreshold c)
    (if f64_eq (FailureRatio c) (f64_of_Z 0) then f64_const 6 10 else FailureRatio c)
    (if ResetTimeout c =? 0 then 30 * second else ResetTimeout c)
    (if SuccessThreshold c =? 0 then 2 else SuccessThreshold c)
    (if TimeoutThreshold c =? 0 then 5 * second else TimeoutThreshold c)
    (if MaxRequestsHalfOpen c =? 0 then 5 else MaxRequestsHalfOpen c)
    (if MinimumRequestCount c =? 0 then 10 else MinimumRequestCount c).

Definition NewCircuitBreaker (n : string) (c : CircuitBreakerConfig) (now : Z)
  : CircuitBreaker :=
  MkBreaker n (apply_defaults c) CircuitBreakerClosed NewCounts zero_time now 0.

Definition with_counts (cb : CircuitBreaker) (c : Counts) : CircuitBreaker :=
  MkBreaker (name cb) (config cb) (state cb) c (lastFailureTime cb) (lastStateChange cb)
    (halfOpenRequests cb).
Definition with_lastFailureTime (cb : CircuitBreaker) (t : Z) : CircuitBreaker :=
  MkBreaker (name cb) (config cb) (state cb) (counts cb) t (lastStateChange cb)
    (halfOpenRequests cb).
Definition with_halfOpenRequests (cb : CircuitBreaker) (n : Z) : CircuitBreaker :=
  MkBreaker (name cb) (config cb) (state cb) (counts cb) (lastFailureTime cb)
    (lastStateChange cb) n.

Definition transitionTo (now : Z) (newState : CircuitBreakerState) (cb : CircuitBreaker)
  : CircuitBreaker :=
  if bool_decide (state cb = newState) then cb
  else
    let cb := MkBreaker (name cb) (config cb) newState (counts cb)
                (lastFailureTime cb) now (halfOpenRequests cb) in
    if bool_decide (newState = CircuitBreakerHalfOpen)
    then with_halfOpenRequests (with_counts cb NewCounts) 0
    else cb.

Definition canExecute {E} (now : Z) (cb : CircuitBreaker)
  : option (breaker_error E) * CircuitBreaker :=
  match state cb with
  | CircuitBreakerClosed => (None, cb)
  | CircuitBreakerOpen =>
      if ResetTimeout (config cb) <? time_sub now (lastFailureTime cb)
      then (None, transitionTo now CircuitBreakerHalfOpen cb)
      else (Some ErrCircuitBreakerOpen, cb)
  | CircuitBreakerHalfOpen =>
      if MaxRequestsHalfOpen (config cb) <=? halfOpenRequests cb
      then (Some ErrMaxRequestsExceeded, cb)
      else (None, cb)
  | UnknownState n => (Some (ErrUnknownState (UnknownState n)), cb)
  end.

Definition recordSuccess (now : Z) (cb : CircuitBreaker) : CircuitBreaker :=
  let c := RecordSuccess now (counts cb) in
  let cb := with_counts cb c in
  match state cb with
  | CircuitBreakerHalfOpen =>
      if SuccessThreshold (config cb) <=? ConsecutiveSuccesses c
      then transitionTo now CircuitBreakerClosed cb else cb
  | _ => cb
  end.

Definition recordFailure (now : Z) (cb : CircuitBreaker) : CircuitBreaker :=
  let c := RecordFailure now (counts cb) in
  let cb := with_lastFailureTime (with_counts cb c) now in
  match state cb with
  | CircuitBreakerClosed =>
      if FailureThreshold (config cb) <=? ConsecutiveFailures c
      then transitionTo now CircuitBreakerOpen cb
      else if MinimumRequestCount (config cb) <=? Requests c then
        let failureRatio := f64_div (f64_of_Z (Failures c)) (f64_of_Z (Requests c)) in
        if f64_le (FailureRatio (config cb)) failureRatio
        then transitionTo now CircuitBreakerOpen cb else cb
      else cb
  | CircuitBreakerHalfOpen => transitionTo now CircuitBreakerOpen cb
  | _ => cb
  end.

Definition Reset (now : Z) (cb : CircuitBreaker) : CircuitBreaker :=
  let cb := transitionTo now CircuitBreakerClosed cb in
  with_halfOpenRequests (with_counts cb NewCounts) 0.

(** ** Execute *)

(** What the [select] of [Execute] observes. *)
Inductive outcome (V E : Type) :=
| CtxDone (e : E)
| TimedOut
| Returned (r : result E V).
Arguments CtxDone {V E} e.
Arguments TimedOut {V E}.
Arguments Returned {V E} r.

(** The rejection path: [recordFailure], then the wrapped error. *)
Definition reject_call {V E} (now : Z) (err : breaker_error E) (cb : CircuitBreaker)
  : result (breaker_error E) V * CircuitBreaker :=
  (Err (Wrapped "circuit breaker execution failed" err), recordFailure now cb).

(** [if cb.getState() == CircuitBreakerHalfOpen { cb.halfOpenRequests.Add(1) }]:
    whether the call is tracked, so that the deferred [Add(-1)] runs. *)
Definition enter_call (cb : CircuitBreaker) : bool * CircuitBreaker :=
  if bool_decide (state cb = CircuitBreakerHalfOpen)
  then (true, with_halfOpenRequests cb (halfOpenRequests cb + 1))
  else (false, cb).

(** The [select]. *)
Definition settle_call {V E} (now : Z) (o : outcome V E) (cb : CircuitBreaker)
  : result (breaker_error E) V * CircuitBreaker :=
  match o with
  | CtxDone e => (Err (Wrapped "context cancelled" (ErrContext e)), recordFailure now cb)
  | TimedOut => (Err ErrCircuitBreakerTimeout, recordFailure now cb)
  | Returned (Err e) =>
      (Err (Wrapped "circuit breaker execution failed" (ErrFn e)), recordFailure now cb)
  | Returned (Ok v) => (Ok v, recordSuccess now cb)
  end.

(** The deferred [Add(-1)]. *)
Definition leave_call (tracked : bool) (cb : CircuitBreaker) : CircuitBreaker :=
  if tracked then with_halfOpenRequests cb (halfOpenRequests cb - 1) else cb.

(** One call with no other call in between: it starts at [t0], and the select
    fires at [t1] with [o]. *)
Definition Execute {V E} (t0 t1 : Z) (o : outcome V E) (cb : CircuitBreaker)
  : result (breaker_error E) V * CircuitBreaker :=
  match canExecute t0 cb with
  | (Some err, cb) => reject_call t0 err cb
  | (None, cb) =>
      let '(tracked, cb) := enter_call cb in
      let '(r, cb) := settle_call t1 o cb in
      (r, leave_call tracked cb)
  end.

(** [ExecuteWithFallback]: [fallback] is the optional function. *)
Definition ExecuteWithFallback {V E} (t0 t1 : Z) (o : outcome V E)
    (fallback : option (breaker_error E -> result (breaker_error E) V))
    (cb : CircuitBreaker) : result (breaker_error E) V * CircuitBreaker :=
  match Execute t0 t1 o cb with
  | (Ok v, cb) => (Ok v, cb)
  | (Err err, cb) =>
      match fallback with
      | Some f => (f err, cb)
      | None => (Err err, cb)
      end
  end.

Definition ExecuteWithDefaultValue {V E} (t0 t1 : Z) (o : outcome V E) (defaultValue : V)
    (cb : CircuitBreaker) : result (breaker_error E) V * CircuitBreaker :=
  ExecuteWithFallback t0 t1 o (Some (λ _, Ok defaultValue)) cb.

(** ** Metrics *)

Inductive metric :=
| MString (s : string)
| MInt (n : Z)
| MTime (t : Z)
| MFloat (x : float64).

(** [GetMetrics]: a snapshot. *)
Definition GetMetrics (now : Z) (cb : CircuitBreaker) : gmap string metric :=
  let c := counts cb in
  list_to_map [
    ("name", MString (name cb));
    ("state", MString (String_of_state (state cb)));
    ("requests", MInt (Requests c));
    ("successes", MInt (Successes c));
    ("failures", MInt (Failures c));
    ("total_successes", MInt (TotalSuccesses c));
    ("total_failures", MInt (TotalFailures c));
    ("consecutive_successes", MInt (ConsecutiveSuccesses c));
    ("consecutive_failures", MInt (ConsecutiveFailures c));
    ("timeout", MInt (Timeout_ c));
    ("rejected", MInt (Rejected c));
    ("short_circuited", MInt (ShortCircuited c));
    ("last_state_change", MTime (lastStateChange cb));
    ("last_failure", MTime (lastFailureTime cb));
    ("time_since_last_failure",
      MFloat (duration_seconds (time_sub now (lastFailureTime cb))))
  ].

(** ** The interleaving of calls

    [calls] maps the goroutines inside [Execute] to the point they reached. *)
Inductive stage (E : Type) :=
| Rejecting (err : breaker_error E)
| Cleared
| InFlight (tracked : bool)
| Leaving (tracked : bool).
Arguments Rejecting {E} err.
Arguments Cleared {E}.
Arguments InFlight {E} tracked.
Arguments Leaving {E} tracked.

Record sys (E : Type) := Sys { brk : CircuitBreaker; calls : gmap nat (stage E) }.
Arguments Sys {E} brk calls.
Arguments brk {E} s.
Arguments calls {E} s.

Inductive sys_step {V E} : sys E -> sys E -> Prop :=
| st_reject cb cs id now err cb' :
    cs !! id = None -> canExecute now cb = (Some err, cb') ->
    sys_step (Sys cb cs) (Sys cb' (<[id := Rejecting err]> cs))
| st_rejected cb cs id now err :
    cs !! id = Some (Rejecting err) ->
    sys_step (Sys cb cs)
      (Sys (snd (reject_call (V := V) now err cb)) (delete id cs))
| st_admit cb cs id now cb' :
    cs !! id = None -> canExecute (E := E) now cb = (None, cb') ->
    sys_step (Sys cb cs) (Sys cb' (<[id := Cleared]> cs))
| st_enter cb cs id tracked cb' :
    cs !! id = Some Cleared -> enter_call cb = (tracked, cb') ->
    sys_step (Sys cb cs) (Sys cb' (<[id := InFlight tracked]> cs))
| st_settle cb cs id tracked now (o : outcome V E) :
    cs !! id = Some (InFlight tracked) ->
    sys_step (Sys cb cs)
      (Sys (snd (settle_call now o cb)) (<[id := Leaving tracked]> cs))
| st_leave cb cs id tracked :
    cs !! id = Some (Leaving tracked) ->
    sys_step (Sys cb cs) (Sys (leave_call tracked cb) (delete id cs))
| st_reset cb cs now :
    sys_step (Sys cb cs) (Sys (Reset now cb) cs).

(** ** Abstract specification

    The breaker as a phase, the outcomes since the counts were last cleared
    (newest first) and the time of the last failure.  The thresholds are read off
    the history. *)

Record spec := Spec {
  phase : CircuitBreakerState;
  history : list bool;
  last_failure : Z;
}.

(** The length of the newest unbroken run of outcome [b]. *)
Fixpoint run_of (b : bool) (h : list bool) : Z :=
  match h with
  | x :: h => if Bool.eqb x b then 1 + run_of b h else 0
  | [] => 0
  end.

Fixpoint total_of (b : bool) (h : list bool) : Z :=
  match h with
  | x :: h => (if Bool.eqb x b then 1 else 0) + total_of b h
  | [] => 0
  end.

Definition trips (cfg : CircuitBreakerConfig) (h : list bool) : bool :=
  (FailureThreshold cfg <=? run_of false h)
  || ((MinimumRequestCount cfg <=? Z.of_nat (length h))
      && f64_le (FailureRatio cfg)
           (f64_div (f64_of_Z (total_of false h)) (f64_of_Z (Z.of_nat (length h))))).

Definition spec_record (cfg : CircuitBreakerConfig) (now : Z) (ok : bool) (s : spec) : spec :=
  let h := ok :: history s in
  let p :=
    match phase s, ok with
    | CircuitBreakerClosed, false => if trips cfg h then CircuitBreakerOpen else phase s
    | CircuitBreakerHalfOpen, false => CircuitBreakerOpen
    | CircuitBreakerHalfOpen, true =>
        if SuccessThreshold cfg <=? run_of true h then CircuitBreakerClosed else phase s
    | _, _ => phase s
    end in
  Spec p h (if ok then last_failure s else now).

Definition succeeded {V E} (o : outcome V E) : bool :=
  match o with Returned (Ok _) => true | _ => false end.

(** A call that is refused counts as a failure at the time of the call. *)
Definition spec_call {V E} (cfg : CircuitBreakerConfig) (t0 t1 : Z) (o : outcome V E)
    (s : spec) : bool * spec :=
  if bool_decide (phase s = CircuitBreakerOpen) then
    if ResetTimeout cfg <? time_sub t0 (last_failure s)
    then (true, spec_record cfg t1 (succeeded o)
                  (Spec CircuitBreakerHalfOpen [] (last_failure s)))
    else (false, spec_record cfg t0 false s)
  else (true, spec_record cfg t1 (succeeded o) s).

(** What the caller gets. *)
Definition call_result {V E} (admitted : bool) (o : outcome V E)
  : result (breaker_error E) V :=
  if admitted then
    match o with
    | CtxDone e => Err (Wrapped "context cancelled" (ErrContext e))
    | TimedOut => Err ErrCircuitBreakerTimeout
    | Returned (Err e) => Err (Wrapped "circuit breaker execution failed" (ErrFn e))
    | Returned (Ok v) => Ok v
    end
  else Err (Wrapped "circuit breaker execution failed" ErrCircuitBreakerOpen).

(** A run of sequential calls: start time, end time, outcome. *)
Fixpoint run_calls {V E} (cb : CircuitBreaker) (l : list (Z * Z * outcome V E))
  : list (result (breaker_error E) V) * CircuitBreaker :=
  match l with
  | [] => ([], cb)
  | (t0, t1, o) :: l =>
      let '(r, cb) := Execute t0 t1 o cb in
      let '(rs, cb) := run_calls cb l in
      (r :: rs, cb)
  end.

Fixpoint spec_calls {V E} (cfg : CircuitBreakerConfig) (s : spec)
    (l : list (Z * Z * outcome V E)) : list (result (breaker_error E) V) * spec :=
  match l with
  | [] => ([], s)
  | (t0, t1, o) :: l =>
      let '(a, s) := spec_call cfg t0 t1 o s in
      let '(rs, s) := spec_calls cfg s l in
      (call_result a o :: rs, s)
  end.

(** The data refinement: counters against the history. *)
Definition represents (c : Counts) (h : list bool) : Prop :=
  Requests c = Z.of_nat (length h) /\
  Successes c = total_of true h /\ Failures c = total_of false h /\
  ConsecutiveSuccesses c = run_of true h /\ ConsecutiveFailures c = run_of false h.

Record simulates (cfg : CircuitBreakerConfig) (cb : CircuitBreaker) (s : spec) : Prop := {
  sim_config : config cb = cfg;
  sim_phase : state cb = phase s;
  sim_counts : represents (counts cb) (history s);
  sim_last : lastFailureTime cb = last_failure s;
  sim_idle : halfOpenRequests cb = 0;
  sim_known : forall n, phase s ≠ UnknownState n;
}.

Lemma represents_new : represents NewCounts [].
Proof. repeat split. Qed.

Lemma represents_success now c h :
  represents c h -> represents (RecordSuccess now c) (true :: h).
Proof. intros (H1 & H2 & H3 & H4 & H5). unfold represents. simpl. lia. Qed.

Lemma represents_failure now c h :
  represents c h -> represents (RecordFailure now c) (false :: h).
Proof. intros (H1 & H2 & H3 & H4 & H5). unfold represents. simpl. lia. Qed.

Definition record (now : Z) (ok : bool) (cb : CircuitBreaker) : CircuitBreaker :=
  if ok then recordSuccess now cb else recordFailure now cb.

Lemma settle_record {V E} now (o : outcome V E) cb :
  settle_call now o cb = (call_result true o, record now (succeeded o) cb).
Proof. by destruct o as [e| |[v|e]]. Qed.

(** Neither recording touches [halfOpenRequests] or the configuration. *)
Lemma record_frame now ok cb :
  halfOpenRequests (record now ok cb) = halfOpenRequests cb /\
  config (record now ok cb) = config cb.
Proof.
  unfold record, recordSuccess, recordFailure, transitionTo.
  destruct ok, cb as [n cfg [] c lf lc ho]; simpl;
    repeat (case_match; simpl); done.
Qed.

(** One recording against its specification; [halfOpenRequests] is whatever it
    is while the call is in flight. *)
Lemma record_sim cfg now ok cb s :
  config cb = cfg -> state cb = phase s -> represents (counts cb) (history s) ->
  lastFailureTime cb = last_failure s ->
  let cb' := record now ok cb in
  let s' := spec_record cfg now ok s in
  state cb' = phase s' /\ represents (counts cb') (history s') /\
  lastFailureTime cb' = last_failure s'.
Proof.
  destruct cb as [n cfg' st c lf lc ho], s as [p h lf']. simpl.
  intros -> -> Hc ->. unfold record, spec_record. destruct ok; simpl.
  - pose proof (represents_success now c h Hc) as Hc'.
    destruct Hc as (_ & _ & _ & Hs & _).
    unfold recordSuccess. destruct p; simpl; try done.
    rewrite Hs, (Z.add_comm _ 1). unfold transitionTo. simpl. by case_match.
  - pose proof (represents_failure now c h Hc) as Hc'.
    destruct Hc as (Hr & _ & Hf & _ & Hcf).
    unfold recordFailure, trips. destruct p; simpl; try done.
    rewrite Hr, Hf, Hcf, (Z.add_1_r (Z.of_nat _)), <-Nat2Z.inj_succ, !(Z.add_comm _ 1).
    unfold transitionTo. simpl.
    destruct (FailureThreshold cfg <=? _); simpl; [done|].
    destruct (MinimumRequestCount cfg <=? _); simpl; [by case_match|done].
Qed.

Lemma spec_record_known cfg now ok s :
  (forall n, phase s ≠ UnknownState n) ->
  forall n, phase (spec_record cfg now ok s) ≠ UnknownState n.
Proof.
  intros H n. unfold spec_record. simpl. specialize (H n).
  destruct (phase s), ok; simpl; try case_match; congruence.
Qed.

(** A call that was let through, up to its return. *)
Lemma admitted_sim {V E} cfg cb s t1 (o : outcome V E) :
  simulates cfg cb s ->
  let '(tracked, cb1) := enter_call cb in
  let '(r, cb2) := settle_call t1 o cb1 in
  r = call_result true o /\
  simulates cfg (leave_call tracked cb2) (spec_record cfg t1 (succeeded o) s).
Proof.
  intros [Hcfg Hp Hc Hl Hi Hk].
  unfold enter_call. case_bool_decide as Hhalf; rewrite settle_record; simpl; split; try done.
  - set (cb1 := with_halfOpenRequests cb _).
    destruct (record_frame t1 (succeeded o) cb1) as [Hho Hcf].
    destruct (record_sim cfg t1 (succeeded o) cb1 s) as (H1 & H2 & H3); try done.
    subst cb1. simpl in *.
    split; try done; simpl; [congruence|lia|by apply (spec_record_known cfg t1 (succeeded o))].
  - destruct (record_frame t1 (succeeded o) cb) as [Hho Hcf].
    destruct (record_sim cfg t1 (succeeded o) cb s) as (H1 & H2 & H3); try done.
    split; try done; simpl; [congruence|lia|by apply (spec_record_known cfg t1 (succeeded o))].
Qed.

(** One call against its specification. *)
Lemma call_sim {V E} cfg cb s t0 t1 (o : outcome V E) :
  0 < MaxRequestsHalfOpen cfg ->
  simulates cfg cb s ->
  let '(r, cb') := Execute t0 t1 o cb in
  let '(a, s') := spec_call cfg t0 t1 o s in
  r = call_result a o /\ simulates cfg cb' s'.
Proof.
  intros Hmax Hsim. pose proof Hsim as [Hcfg Hp Hc Hl Hi Hk].
  unfold Execute, spec_call, canExecute. rewrite Hp, Hcfg, Hl, Hi.
  destruct (phase s) as [| | |n] eqn:Hph; simpl.
  - pose proof (admitted_sim cfg cb s t1 o Hsim). by repeat case_match.
  - destruct (_ <? _); simpl.
    + assert (simulates cfg (transitionTo t0 CircuitBreakerHalfOpen cb)
                (Spec CircuitBreakerHalfOpen [] (last_failure s))) as Hsim'.
      { unfold transitionTo. rewrite bool_decide_false by congruence. split; done. }
      pose proof (admitted_sim cfg _ _ t1 o Hsim').
      destruct (enter_call _) as [tr cb1]. by destruct (settle_call t1 o cb1).
    + unfold reject_call. change (recordFailure t0 cb) with (record t0 false cb).
      split; [done|].
      destruct (record_frame t0 false cb) as [Hho Hcf].
      destruct (record_sim cfg t0 false cb s) as (H1 & H2 & H3); try done; [congruence|].
      split; try done; [congruence..|].
      apply (spec_record_known cfg t0 false). intros n. by rewrite Hph.
  - destruct (Z.leb_spec (MaxRequestsHalfOpen cfg) 0); [lia|].
    pose proof (admitted_sim cfg cb s t1 o Hsim). by repeat case_match.
  - by destruct (Hk n).
Qed.

Lemma new_sim n cfg now :
  simulates (apply_defaults cfg) (NewCircuitBreaker n cfg now)
    (Spec CircuitBreakerClosed [] zero_time).
Proof. by split. Qed.

(** ** Invariant of the interleaved breaker *)

(** Thresholds that make sense: what [apply_defaults] yields for a configuration
    without negative fields. *)
Definition sane (cfg : CircuitBreakerConfig) : Prop :=
  0 < FailureThreshold cfg /\ 0 < SuccessThreshold cfg /\ 0 < MaxRequestsHalfOpen cfg.

#[export] Instance sane_dec cfg : Decision (sane cfg).
Proof. unfold sane. apply _. Defined.

Record counts_ok (c : Counts) : Prop := {
  counts_total : Requests c = Successes c + Failures c;
  counts_successes : 0 <= ConsecutiveSuccesses c <= Successes c;
  counts_failures : 0 <= ConsecutiveFailures c <= Failures c;
  counts_run : ConsecutiveSuccesses c = 0 \/ ConsecutiveFailures c = 0;
}.

Definition phase_ok (cfg : CircuitBreakerConfig) (s : CircuitBreakerState) (c : Counts) : Prop :=
  match s with
  | CircuitBreakerClosed => ConsecutiveFailures c < FailureThreshold cfg
  | CircuitBreakerOpen => True
  | CircuitBreakerHalfOpen =>
      Failures c = 0 /\ ConsecutiveSuccesses c = Successes c /\
      Successes c < SuccessThreshold cfg
  | UnknownState _ => False
  end.

Definition breaker_ok (cb : CircuitBreaker) : Prop :=
  counts_ok (counts cb) /\ phase_ok (config cb) (state cb) (counts cb).

Lemma counts_ok_new : counts_ok NewCounts.
Proof. split; simpl; lia. Qed.

Lemma counts_ok_success now c : counts_ok c -> counts_ok (RecordSuccess now c).
Proof. intros []. split; simpl; lia. Qed.

Lemma counts_ok_failure now c : counts_ok c -> counts_ok (RecordFailure now c).
Proof. intros []. split; simpl; lia. Qed.

#[export] Hint Resolve counts_ok_new counts_ok_success counts_ok_failure : go.

Lemma breaker_ok_record now ok cb :
  sane (config cb) -> breaker_ok cb -> breaker_ok (record now ok cb).
Proof.
  destruct cb as [n cfg st c lf lc ho]. intros (Hf & Hs & _) [Hc Hp]. simpl in *.
  destruct Hc as [H1 H2 H3 H4] eqn:E; clear E.
  unfold record, recordSuccess, recordFailure, transitionTo.
  destruct ok, st; simpl in *; try done;
    repeat (case_match; bool_hyps; simpl); unfold breaker_ok; simpl;
    (split; [auto with go | simpl; lia]).
Qed.

Lemma breaker_ok_canExecute {E} now cb (r : option (breaker_error E)) cb' :
  sane (config cb) -> canExecute now cb = (r, cb') -> breaker_ok cb -> breaker_ok cb'.
Proof.
  destruct cb as [n cfg st c lf lc ho]. intros (Hf & Hs & _) Hr [Hc Hp]. simpl in *.
  unfold canExecute, transitionTo in Hr. destruct st; simpl in *; simplify_eq/=; try done.
  - case_match; simplify_eq/=; split; simpl; auto with go; lia.
  - by case_match; simplify_eq/=.
Qed.

Lemma breaker_ok_reset now cb : sane (config cb) -> breaker_ok (Reset now cb).
Proof.
  intros (Hf & Hs & _). unfold Reset, transitionTo.
  case_bool_decide as H; split; simpl; rewrite ?H; auto with go; simpl; lia.
Qed.

Lemma config_canExecute {E} now cb (r : option (breaker_error E)) cb' :
  canExecute now cb = (r, cb') -> config cb' = config cb.
Proof.
  destruct cb as [n cfg [] c lf lc ho]; unfold canExecute, transitionTo; simpl;
    intros; repeat case_match; by simplify_eq/=.
Qed.

Lemma sys_step_ok {V E} (a b : sys E) :
  sys_step (V := V) a b -> sane (config (brk a)) -> breaker_ok (brk a) ->
  breaker_ok (brk b) /\ config (brk b) = config (brk a).
Proof.
  intros Hs Hsane Hok. destruct Hs as
    [cb cs id now err cb' _ Hc|cb cs id now err _|cb cs id now cb' _ Hc
    |cb cs id tracked cb' _ He|cb cs id tracked now o _|cb cs id tracked _|cb cs now]; simpl in *.
  - eauto using breaker_ok_canExecute, config_canExecute.
  - split; [by apply (breaker_ok_record now false)|].
    apply (record_frame now false cb).
  - eauto using breaker_ok_canExecute, config_canExecute.
  - unfold enter_call in He. by case_match; simplify_eq/=.
  - rewrite settle_record. simpl. split; [by apply breaker_ok_record|].
    apply (record_frame now (succeeded o) cb).
  - by destruct tracked.
  - split; [by apply breaker_ok_reset|]. unfold Reset, transitionTo. by case_match.
Qed.

(** ** Runs of one phase *)

Definition refused {V E} : result (breaker_error E) V :=
  Err (Wrapped "circuit breaker execution failed" ErrCircuitBreakerOpen).

(** Each call starts at most [d] after the previous recorded failure. *)
Fixpoint spaced_within {V E} (d : Z) (t : Z) (l : list (Z * Z * outcome V E)) : Prop :=
  match l with
  | [] => True
  | (t0, _, _) :: l => time_sub t0 t <= d /\ spaced_within d t0 l
  end.

(** A refused call leaves the breaker open and moves [lastFailureTime] to now. *)
Lemma Execute_refused {V E} t0 t1 (o : outcome V E) cb :
  state cb = CircuitBreakerOpen ->
  time_sub t0 (lastFailureTime cb) <= ResetTimeout (config cb) ->
  let '(r, cb') := Execute t0 t1 o cb in
  r = refused /\ state cb' = CircuitBreakerOpen /\ lastFailureTime cb' = t0 /\
  config cb' = config cb.
Proof.
  destruct cb as [n cfg st c lf lc ho]. simpl. intros -> Ht.
  unfold Execute, canExecute. simpl. by rewrite (proj2 (Z.ltb_ge _ _) Ht).
Qed.

(** A successful call in half-open phase counts one success; the last one needed
    closes the breaker. *)
Lemma Execute_probe {V E} t0 t1 (v : V) cb :
  state cb = CircuitBreakerHalfOpen -> halfOpenRequests cb = 0 ->
  0 < MaxRequestsHalfOpen (config cb) ->
  let '(r, cb') := Execute (E := E) t0 t1 (Returned (Ok v)) cb in
  r = Ok v /\ config cb' = config cb /\ halfOpenRequests cb' = 0 /\
  ConsecutiveSuccesses (counts cb') = ConsecutiveSuccesses (counts cb) + 1 /\
  state cb' = (if SuccessThreshold (config cb) <=? ConsecutiveSuccesses (counts cb')
               then CircuitBreakerClosed else CircuitBreakerHalfOpen).
Proof.
  destruct cb as [n cfg st c lf lc ho]. simpl. intros -> -> Hm.
  unfold Execute, canExecute. simpl. rewrite (proj2 (Z.leb_gt _ _) Hm).
  unfold enter_call. simpl. unfold recordSuccess, transitionTo. simpl.
  by destruct (SuccessThreshold cfg <=? ConsecutiveSuccesses c + 1) eqn:H; simpl; rewrite ?H.
Qed.

Lemma recover {V E} (l : list (Z * Z * V)) cb :
  state cb = CircuitBreakerHalfOpen -> halfOpenRequests cb = 0 ->
  0 < MaxRequestsHalfOpen (config cb) -> l ≠ [] ->
  ConsecutiveSuccesses (counts cb) + Z.of_nat (length l) = SuccessThreshold (config cb) ->
  let '(rs, cb') :=
    run_calls (E := E) cb (map (λ '(t0, t1, v), (t0, t1, Returned (Ok v))) l) in
  rs = map (λ '(_, _, v), Ok v) l /\ state cb' = CircuitBreakerClosed.
Proof.
  revert cb. induction l as [|[[t0 t1] v] l IH]; intros cb Hst Hho Hm Hne Hn; [done|].
  simpl. pose proof (Execute_probe (E := E) t0 t1 v cb Hst Hho Hm) as H.
  destruct (Execute t0 t1 _ cb) as [r cb1]. destruct H as (-> & Hcf & Hho1 & Hcs & Hst1).
  rewrite Hcs in Hst1. simpl in Hn. destruct l as [|x l].
  - simpl in *. split; [done|]. rewrite Hst1.
    by rewrite (proj2 (Z.leb_le _ _)) by lia.
  - rewrite (proj2 (Z.leb_gt _ _)) in Hst1 by (simpl in Hn; lia).
    specialize (IH cb1 Hst1 Hho1). rewrite Hcf in IH.
    specialize (IH Hm ltac:(done)). rewrite Hcs in IH.
    specialize (IH ltac:(simpl in *; lia)).
    destruct (run_calls cb1 _) as [rs cb2]. destruct IH as [-> Hst2]. done.
Qed.

(** ** Calls that race through the half-open check *)

(** [n] more goroutines read [halfOpenRequests] before any of them adds to it. *)
Lemma race_admit {V E} cb n (cs : gmap nat (stage E)) (now : Z) :
  state cb = CircuitBreakerHalfOpen -> halfOpenRequests cb < MaxRequestsHalfOpen (config cb) ->
  (forall i, (0 < i <= n)%nat -> cs !! i = None) ->
  exists cs', rtc (sys_step (V := V)) (Sys cb cs) (Sys cb cs') /\
    (forall i, (0 < i <= n)%nat -> cs' !! i = Some Cleared) /\
    (forall i, (i = 0 \/ n < i)%nat -> cs' !! i = cs !! i).
Proof.
  intros Hst Hm. induction n as [|n IH]; intros Hcs.
  { exists cs. split; [done|]. split; [lia|done]. }
  destruct IH as (cs' & Hr & Hin & Hout); [intros; apply Hcs; lia|].
  exists (<[S n := Cleared]> cs'). split_and!.
  - eapply rtc_r; [exact Hr|]. apply st_admit with (now := now).
    + rewrite Hout by lia. apply Hcs. lia.
    + unfold canExecute. rewrite Hst. by rewrite (proj2 (Z.leb_gt _ _) Hm).
  - intros i Hi. destruct (decide (i = S n)) as [->|Hne]; [by rewrite lookup_insert_eq|].
    rewrite lookup_insert_ne by done. apply Hin. lia.
  - intros i Hi. rewrite lookup_insert_ne by lia. apply Hout. lia.
Qed.

(** Then all of them enter. *)
Lemma race_enter {V E} cb n (cs : gmap nat (stage E)) :
  state cb = CircuitBreakerHalfOpen ->
  (forall i, (i < n)%nat -> cs !! i = Some Cleared) ->
  exists cs', rtc (sys_step (V := V)) (Sys cb cs)
      (Sys (with_halfOpenRequests cb (halfOpenRequests cb + Z.of_nat n)) cs') /\
    (forall i, (i < n)%nat -> cs' !! i = Some (InFlight true)) /\
    (forall i, (n <= i)%nat -> cs' !! i = cs !! i).
Proof.
  intros Hst. induction n as [|n IH]; intros Hcs.
  { exists cs. rewrite Z.add_0_r. destruct cb. split; [done|]. split; [lia|done]. }
  destruct IH as (cs' & Hr & Hin & Hout); [intros; apply Hcs; lia|].
  exists (<[n := InFlight true]> cs'). split_and!.
  - eapply rtc_r; [exact Hr|]. apply st_enter.
    + rewrite Hout by lia. apply Hcs. lia.
    + unfold enter_call. simpl. rewrite bool_decide_true by done.
      unfold with_halfOpenRequests. simpl. do 2 f_equal. lia.
  - intros i Hi. destruct (decide (i = n)) as [->|Hne]; [by rewrite lookup_insert_eq|].
    rewrite lookup_insert_ne by done. apply Hin. lia.
  - intros i Hi. rewrite lookup_insert_ne by lia. apply Hout. lia.
Qed.

(** ** Properties *)


Definition example_config : CircuitBreakerConfig :=
  MkConfig 2 (f64_const 9 10) (30 * second) 2 second 1 100.


(** C7 Sequential calls refine the abstract breaker: from creation on, every call
    returns what the specification says (the function's own result, or the refusal
    exactly in the specification's open phase) and the phase is the specification's,
    whose thresholds are read off the history of outcomes. *)
Theorem breaker_refines {V E} n cfg now (l : list (Z * Z * outcome V E)) :
  0 < MaxRequestsHalfOpen (apply_defaults cfg) ->
  let '(rs, cb) := run_calls (NewCircuitBreaker n cfg now) l in
  let '(rs', s) := spec_calls (apply_defaults cfg) (Spec CircuitBreakerClosed [] zero_time) l in
  rs = rs' /\ state cb = phase s /\ represents (counts cb) (history s).
Proof.
  intros Hmax. pose proof (new_sim n cfg now) as Hsim.
  revert Hsim. generalize (NewCircuitBreaker n cfg now), (Spec CircuitBreakerClosed [] zero_time).
  induction l as [|[[t0 t1] o] l IH]; intros cb s Hsim; simpl.
  { split; [done|]. by destruct Hsim. }
  pose proof (call_sim _ _ _ t0 t1 o Hmax Hsim) as H.
  destruct (Execute t0 t1 o cb) as [r cb1], (spec_call _ t0 t1 o s) as [a s1].
  destruct H as [-> Hsim1]. specialize (IH _ _ Hsim1).
  destruct (run_calls cb1 l), (spec_calls _ s1 l). by destruct IH as [-> ?].
Qed.

Definition example_calls : list (Z * Z * outcome nat string) :=
  [(1, 2, TimedOut); (3, 4, Returned (Err "refused"%string)); (5, 6, Returned (Ok 7%nat));
   (31 * second, 31 * second, Returned (Ok 8%nat));
   (32 * second, 32 * second, Returned (Ok 9%nat))].

Lemma breaker_refines_witness :
  map is_ok (fst (run_calls (NewCircuitBreaker "db" example_config 0) example_calls))
    = [false; false; false; true; true] /\
  let '(rs, cb) := run_calls (NewCircuitBreaker "db" example_config 0) example_calls in
  let '(rs', s) := spec_calls (apply_defaults example_config)
                     (Spec CircuitBreakerClosed [] zero_time) example_calls in
  rs = rs' /\ state cb = phase s /\ represents (counts cb) (history s).
Proof.
  split; [vm_compute; reflexivity|].
  exact (breaker_refines "db" example_config 0 example_calls eq_refl).
Defined.

(** A refused call restarts the reset timer: while each call starts no more
    than [ResetTimeout] after the previous one, an open breaker refuses every call
    and stays open, however long the sequence lasts. *)
Theorem breaker_starves {V E} (l : list (Z * Z * outcome V E)) cb :
  state cb = CircuitBreakerOpen ->
  spaced_within (ResetTimeout (config cb)) (lastFailureTime cb) l ->
  Forall (.= refused) (fst (run_calls cb l)) /\
  state (snd (run_calls cb l)) = CircuitBreakerOpen.
Proof.
  revert cb. induction l as [|[[t0 t1] o] l IH]; intros cb Hst Hsp; simpl; [done|].
  destruct Hsp as [Ht Hsp].
  pose proof (Execute_refused t0 t1 o cb Hst Ht) as H.
  destruct (Execute t0 t1 o cb) as [r cb1]. destruct H as (-> & Hst1 & Hlf & Hcf).
  specialize (IH cb1 Hst1). rewrite Hcf, Hlf in IH. specialize (IH Hsp).
  destruct (run_calls cb1 l). simpl in *. destruct IH. split; [by constructor|done].
Qed.

Lemma breaker_starves_witness :
  let cb := transitionTo 0 CircuitBreakerOpen (NewCircuitBreaker "db" example_config 0) in
  let l := (λ i, let t := Z.of_nat i * 20 * second in
                 (t, t, Returned (E := string) (Ok i))) <$> seq 1 50 in
  Forall (.= refused) (fst (run_calls cb l)) /\
  state (snd (run_calls cb l)) = CircuitBreakerOpen.
Proof.
  intros cb l. apply (breaker_starves l cb); [reflexivity|].
  vm_compute. repeat (split; [congruence|]). exact I.
Defined.

(** Recovery: once more than [ResetTimeout] passed since the last recorded
    failure, [SuccessThreshold] successful calls are all let through, return their
    values and close an open breaker. *)
Theorem breaker_recovers {V E} t0 t1 (v : V) l cb :
  state cb = CircuitBreakerOpen -> sane (config cb) ->
  ResetTimeout (config cb) < time_sub t0 (lastFailureTime cb) ->
  Z.of_nat (length ((t0, t1, v) :: l)) = SuccessThreshold (config cb) ->
  let '(rs, cb') :=
    run_calls (E := E) cb
      (map (λ '(t0, t1, v), (t0, t1, Returned (Ok v))) ((t0, t1, v) :: l)) in
  rs = map (λ '(_, _, v), Ok v) ((t0, t1, v) :: l) /\ state cb' = CircuitBreakerClosed.
Proof.
  intros Hst (_ & _ & Hm) Ht Hn.
  set (cb1 := transitionTo t0 CircuitBreakerHalfOpen cb).
  assert (forall l', run_calls cb (map (λ '(t0, t1, v), (t0, t1, Returned (E := E) (Ok v)))
                        ((t0, t1, v) :: l'))
                   = run_calls cb1 (map (λ '(t0, t1, v), (t0, t1, Returned (Ok v)))
                        ((t0, t1, v) :: l'))) as ->.
  { intros l'. simpl. unfold cb1, Execute, canExecute, transitionTo. rewrite Hst. simpl.
    rewrite (proj2 (Z.ltb_lt _ _) Ht), (proj2 (Z.leb_gt _ _) Hm). done. }
  apply recover; unfold cb1, transitionTo; rewrite ?Hst; done.
Qed.

Lemma breaker_recovers_witness :
  let cb := transitionTo 0 CircuitBreakerOpen (NewCircuitBreaker "db" example_config 0) in
  let l := [(31 * second, 31 * second, 1%nat); (32 * second, 33 * second, 2%nat)] in
  let '(rs, cb') :=
    run_calls (E := string) cb (map (λ '(t0, t1, v), (t0, t1, Returned (Ok v))) l) in
  rs = map (λ '(_, _, v), Ok v) l /\ state cb' = CircuitBreakerClosed.
Proof.
  intros cb l.
  apply (breaker_recovers (E := string) (31 * second) (31 * second) 1%nat
           [(32 * second, 33 * second, 2%nat)] cb);
    [reflexivity|vm_compute; repeat split; congruence|vm_compute; congruence|reflexivity].
Defined.

(** [MaxRequestsHalfOpen] does not bound overlapping calls: [canExecute] reads
    [halfOpenRequests] before [Execute] adds to it, so after the reset timeout any
    number of goroutines can be running their functions in half-open phase at once. *)
Theorem breaker_half_open_race {V E} cb now n :
  state cb = CircuitBreakerOpen -> sane (config cb) ->
  ResetTimeout (config cb) < time_sub now (lastFailureTime cb) ->
  exists s : sys E, rtc (sys_step (V := V)) (Sys cb ∅) s /\
    state (brk s) = CircuitBreakerHalfOpen /\ halfOpenRequests (brk s) = Z.of_nat (S n) /\
    forall i, (i <= n)%nat -> calls s !! i = Some (InFlight true).
Proof.
  intros Hst (_ & _ & Hm) Ht. set (cb1 := transitionTo now CircuitBreakerHalfOpen cb).
  assert (state cb1 = CircuitBreakerHalfOpen /\ halfOpenRequests cb1 = 0 /\
          config cb1 = config cb) as (Hst1 & Hho1 & Hcf1).
  { unfold cb1, transitionTo. by rewrite Hst. }
  destruct (race_admit (V := V) (E := E) cb1 n {[0%nat := Cleared]} now)
    as (cs1 & Hr1 & Hin1 & Hout1); [done|by rewrite Hho1, Hcf1| |].
  { intros i Hi. apply lookup_singleton_ne. lia. }
  destruct (race_enter (V := V) cb1 (S n) cs1) as (cs2 & Hr2 & Hin2 & _); [done| |].
  { intros [|i] Hi; [|apply Hin1; lia]. rewrite Hout1 by lia. apply lookup_singleton_eq. }
  eexists. split; [|split_and!].
  - eapply rtc_l; [|etrans; [exact Hr1|exact Hr2]].
    apply (st_admit _ _ 0%nat now); [done|].
    unfold canExecute. rewrite Hst. by rewrite (proj2 (Z.ltb_lt _ _) Ht).
  - done.
  - simpl. lia.
  - intros i Hi. apply Hin2. lia.
Qed.

Lemma breaker_half_open_race_witness :
  let cb := transitionTo 0 CircuitBreakerOpen (NewCircuitBreaker "db" example_config 0) in
  MaxRequestsHalfOpen (config cb) = 1 /\
  exists s : sys string, rtc (sys_step (V := nat)) (Sys cb ∅) s /\
    state (brk s) = CircuitBreakerHalfOpen /\ halfOpenRequests (brk s) = 10 /\
    forall i, (i <= 9)%nat -> calls s !! i = Some (InFlight true).
Proof.
  intros cb. split; [reflexivity|].
  apply (breaker_half_open_race (V := nat) (E := string) cb (31 * second) 9);
    [reflexivity|vm_compute; repeat split; congruence|vm_compute; congruence].
Defined.
