(* ===== verification/BreakerRegistry.v ===== *)
(** * BreakerRegistry: the breakers of a process

    [CircuitBreakerManager] ([pkg/resilience/circuit_breaker.go]) and
    [CircuitBreakerRegistry] ([circuit_breaker_config.go]).  Both hold a map from
    names to breaker pointers, a [pool]. *)

From stdpp Require Import base decidable gmap strings list sorting.
From Stdlib Require Import ZArith Lia.
From S2P Require Import Prelude Pool GoFloat Breaker.

Local Open Scope Z_scope.

(** ** The manager *)

Module Manager.

Definition defaultConfig : CircuitBreakerConfig :=
  MkConfig 5 (f64_const 6 10) (30 * second) 2 (5 * second) 5 10.

(** [l] is the order in which [range] visits [defaultConfigs]. *)
Definition NewCircuitBreakerManager (now : Z) (l : list (string * CircuitBreakerConfig))
  : pool CircuitBreaker :=
  bind_all (λ n c, NewCircuitBreaker n c now) l.

Definition GetCircuitBreaker (now : Z) (n : string) (m : pool CircuitBreaker) : nat * pool CircuitBreaker :=
  bind_unless_bound n (NewCircuitBreaker n defaultConfig now) m.

Definition Execute {V E} (now t0 t1 : Z) (o : outcome V E) (n : string) (m : pool CircuitBreaker)
  : option (result (breaker_error E) V) * pool CircuitBreaker :=
  let '(a, m) := GetCircuitBreaker now n m in
  at_address a (Breaker.Execute t0 t1 o) m.

Definition ExecuteWithFallback {V E} (now t0 t1 : Z) (o : outcome V E)
    (fallback : option (breaker_error E -> result (breaker_error E) V))
    (n : string) (m : pool CircuitBreaker) : option (result (breaker_error E) V) * pool CircuitBreaker :=
  let '(a, m) := GetCircuitBreaker now n m in
  at_address a (Breaker.ExecuteWithFallback t0 t1 o fallback) m.

Definition ExecuteWithDefaultValue {V E} (now t0 t1 : Z) (o : outcome V E) (d : V)
    (n : string) (m : pool CircuitBreaker) : option (result (breaker_error E) V) * pool CircuitBreaker :=
  let '(a, m) := GetCircuitBreaker now n m in
  at_address a (Breaker.ExecuteWithDefaultValue t0 t1 o d) m.

(** [l] is the order of [range m.breakers]. *)
Definition ResetAll (now : Z) (l : list (string * nat)) (m : pool CircuitBreaker) : pool CircuitBreaker :=
  foldl (λ m '(_, a), snd (at_address a (λ cb, ((), Reset now cb)) m)) m l.

Definition GetAllMetrics (now : Z) (m : pool CircuitBreaker) : gmap string (gmap string metric) :=
  omap (λ a, GetMetrics now <$> store m !! a) (names m).

End Manager.

(** ** Service configurations *)

Record CircuitBreakerServiceConfig := MkService {
  Enabled : bool;
  MaxRequests : Z;
  Interval : Z;
  svc_Timeout : Z;
  svc_FailureThreshold : float64;
  svc_SuccessThreshold : Z;
  svc_MinimumRequestCount : Z;
  svc_MaxRequestsHalfOpen : Z;
}.

Definition DefaultCircuitBreakerConfigs : gmap string CircuitBreakerServiceConfig :=
  let svc mr i t ft st mc ho :=
    MkService true mr (i * second) (t * second) (f64_const ft 10) st mc ho in
  list_to_map [
    ("task_service", svc 100 10 30 5 5 10 10);
    ("workflow_service", svc 50 10 45 6 3 5 5);
    ("agent_service", svc 200 5 15 5 5 20 20);
    ("context_service", svc 150 10 20 4 5 15 15);
    ("document_service", svc 100 10 25 5 5 10 10);
    ("workspace_service", svc 100 10 20 5 5 10 10);
    ("embedding_service", svc 30 30 60 3 2 3 3);
    ("aws_s3", svc 200 10 30 3 3 10 20);
    ("aws_sqs", svc 500 5 10 3 5 20 50);
    ("redis_cache", svc 1000 5 5 2 10 50 100);
    ("postgres_db", svc 200 10 10 1 5 20 20)
  ].

(** The two functions on the package's table, which is a variable. *)
Definition GetCircuitBreakerConfig (table : gmap string CircuitBreakerServiceConfig)
    (serviceName : string) : option CircuitBreakerServiceConfig :=
  table !! serviceName.

Definition SetCircuitBreakerConfig (serviceName : string) (c : CircuitBreakerServiceConfig)
    (table : gmap string CircuitBreakerServiceConfig)
  : gmap string CircuitBreakerServiceConfig :=
  <[serviceName := c]> table.

Definition ToCircuitBreakerConfig (c : CircuitBreakerServiceConfig) : CircuitBreakerConfig :=
  MkConfig (svc_MinimumRequestCount c) (svc_FailureThreshold c) (svc_Timeout c)
    (svc_SuccessThreshold c) (svc_Timeout c) (svc_MaxRequestsHalfOpen c)
    (svc_MinimumRequestCount c).

(** ** The registry *)

Module Registry.

Record t := MkRegistry {
  breakers : pool CircuitBreaker;
  configs : gmap string CircuitBreakerServiceConfig;
}.

Definition NewCircuitBreakerRegistry (table : gmap string CircuitBreakerServiceConfig) : t :=
  MkRegistry empty_pool (map_fold insert ∅ table).

Definition fallback_config : CircuitBreakerServiceConfig :=
  MkService true 100 (10 * second) (30 * second) (f64_const 5 10) 5 10 10.

Definition config_of (r : t) (serviceName : string) : CircuitBreakerServiceConfig :=
  default fallback_config (configs r !! serviceName).

Definition GetOrCreate (now : Z) (serviceName : string) (r : t) : nat * t :=
  match names (breakers r) !! serviceName with
  | Some a => (a, r)
  | None =>
      let cb := NewCircuitBreaker serviceName
                  (ToCircuitBreakerConfig (config_of r serviceName)) now in
      let '(a, p) := bind_new serviceName cb (breakers r) in
      (a, MkRegistry p (configs r))
  end.

Definition UpdateConfig (now : Z) (serviceName : string) (c : CircuitBreakerServiceConfig)
    (r : t) : t :=
  let cs := <[serviceName := c]> (configs r) in
  match names (breakers r) !! serviceName with
  | Some _ =>
      let cb := NewCircuitBreaker serviceName (ToCircuitBreakerConfig c) now in
      MkRegistry (snd (bind_new serviceName cb (breakers r))) cs
  | None => MkRegistry (breakers r) cs
  end.

(** The copy loop of [GetAllBreakers]; the copy holds the same pointers. *)
Definition GetAllBreakers (r : t) : gmap string nat :=
  map_fold insert ∅ (names (breakers r)).

Definition GetHealthStatus (r : t) : gmap string string :=
  map_fold (λ n _ status, <[n := "registered"%string]> status) ∅ (names (breakers r)).

(** The process-wide registry, [nil] until it is initialised. *)
Definition InitializeGlobalCircuitBreakerRegistry
    (table : gmap string CircuitBreakerServiceConfig) : option t :=
  Some (NewCircuitBreakerRegistry table).

Definition GetGlobalCircuitBreaker (now : Z) (serviceName : string) (g : option t)
  : option nat * option t :=
  match g with
  | None => (None, None)
  | Some r => let '(a, r) := GetOrCreate now serviceName r in (Some a, Some r)
  end.

End Registry.

(** [ResetAll] in any order of the map. *)
Lemma reset_all_view now l (p : pool CircuitBreaker) :
  pool_ok p -> (forall n a, (n, a) ∈ l -> names p !! n = Some a) -> NoDup l.*1 ->
  let p' := Manager.ResetAll now l p in
  pool_ok p' /\ names p' = names p /\
  forall n, view p' !! n =
    if decide (n ∈ l.*1) then Reset now <$> view p !! n else view p !! n.
Proof.
  revert p. induction l as [|[n a] l IH]; intros p Hp Hl Hnd; simpl.
  { split_and!; try done. }
  apply NoDup_cons in Hnd as [Hn Hnd].
  assert (names p !! n = Some a) as Hna by (apply Hl; constructor).
  destruct (lookup_lt_is_Some_2 (store p) a) as [cb Hcb]; [by eapply pool_bound|].
  set (p1 := snd (at_address a _ p)).
  destruct (view_at_address n a cb (λ cb, ((), Reset now cb)) p Hp Hna Hcb) as [_ Hv1].
  fold p1 in Hv1.
  assert (names p1 = names p) as Hn1 by (subst p1; unfold at_address; by rewrite Hcb).
  destruct (IH p1) as (Hp' & Hn' & Hv'); [by apply at_address_ok| |done|].
  { intros m b Hm. rewrite Hn1. apply Hl. by constructor. }
  split_and!; [done|by rewrite Hn', Hn1|]. intros m. rewrite Hv', Hv1. simpl.
  destruct (decide (m = n)) as [->|Hne].
  - rewrite (decide_False (P := n ∈ l.*1)), decide_True by (done || constructor).
    rewrite lookup_insert_eq, view_lookup, Hna. simpl. by rewrite Hcb.
  - rewrite lookup_insert_ne by done.
    destruct (decide (m ∈ l.*1)) as [Hin|Hin].
    + by rewrite decide_True by (by constructor).
    + rewrite decide_False; [done|]. by rewrite elem_of_cons; intros [?|?].
Qed.

(** ** Operations of the manager *)

(** [manages m]: what the exported operations reach from a new manager. *)
Inductive manages : pool CircuitBreaker -> Prop :=
| mg_new now l : NoDup l.*1 -> manages (Manager.NewCircuitBreakerManager now l)
| mg_get now n m : manages m -> manages (snd (Manager.GetCircuitBreaker now n m))
| mg_execute {V E} now t0 t1 (o : outcome V E) n m :
    manages m -> manages (snd (Manager.Execute now t0 t1 o n m))
| mg_fallback {V E} now t0 t1 (o : outcome V E) f n m :
    manages m -> manages (snd (Manager.ExecuteWithFallback now t0 t1 o f n m))
| mg_default {V E} now t0 t1 (o : outcome V E) d n m :
    manages m -> manages (snd (Manager.ExecuteWithDefaultValue now t0 t1 o d n m))
| mg_reset now l m :
    manages m -> ranges l (names m) -> manages (Manager.ResetAll now l m).

Lemma new_manager_view now l :
  NoDup l.*1 ->
  pool_ok (Manager.NewCircuitBreakerManager now l) /\
  view (Manager.NewCircuitBreakerManager now l)
    = map_imap (λ n c, Some (NewCircuitBreaker n c now)) (list_to_map l).
Proof. apply (bind_all_view (λ n c, NewCircuitBreaker n c now)). Qed.

Lemma manages_ok m : manages m -> pool_ok m.
Proof.
  induction 1 as [now l Hl|now n m _ IH|V E now t0 t1 o n m _ IH|V E now t0 t1 o f n m _ IH
                 |V E now t0 t1 o d n m _ IH|now l m _ IH Hl].
  - by apply new_manager_view.
  - pose proof (bind_unless_bound_view n (NewCircuitBreaker n Manager.defaultConfig now) m IH) as H.
    unfold Manager.GetCircuitBreaker. destruct (bind_unless_bound _ _ _). by destruct H.
  - apply (call_named_view n _ (Execute t0 t1 o) m IH).
  - apply (call_named_view n _ (ExecuteWithFallback t0 t1 o f) m IH).
  - apply (call_named_view n _ (ExecuteWithDefaultValue t0 t1 o d) m IH).
  - destruct (ranges_names_ok l m Hl). by apply reset_all_view.
Qed.

(** ** The registry *)

Inductive registered (table : gmap string CircuitBreakerServiceConfig) : Registry.t -> Prop :=
| rg_new : registered table (Registry.NewCircuitBreakerRegistry table)
| rg_get now n r : registered table r -> registered table (snd (Registry.GetOrCreate now n r))
| rg_update now n c r :
    registered table r -> registered table (Registry.UpdateConfig now n c r)
| rg_call {R} a (f : CircuitBreaker -> R * CircuitBreaker) r :
    registered table r ->
    registered table
      (Registry.MkRegistry (snd (at_address a f (Registry.breakers r))) (Registry.configs r)).

Lemma GetOrCreate_bind now n r :
  Registry.GetOrCreate now n r =
    let new := NewCircuitBreaker n (ToCircuitBreakerConfig (Registry.config_of r n)) now in
    (fst (bind_unless_bound n new (Registry.breakers r)),
     Registry.MkRegistry (snd (bind_unless_bound n new (Registry.breakers r)))
       (Registry.configs r)).
Proof.
  destruct r as [p cs]. unfold Registry.GetOrCreate, bind_unless_bound. simpl.
  by destruct (names p !! n).
Qed.

Lemma registered_ok table r : registered table r -> pool_ok (Registry.breakers r).
Proof.
  induction 1 as [|now n r _ IH|now n c r _ IH|R a f r _ IH]; simpl.
  - apply pool_ok_empty.
  - rewrite GetOrCreate_bind. simpl.
    pose proof (bind_unless_bound_view n (NewCircuitBreaker n
      (ToCircuitBreakerConfig (Registry.config_of r n)) now) _ IH) as H.
    destruct (bind_unless_bound _ _ _). by destruct H.
  - unfold Registry.UpdateConfig. destruct (names _ !! n); [by apply (bind_new_ok n)|done].
  - by apply at_address_ok.
Qed.

Lemma copy_map {A} (m : gmap string A) : map_fold insert ∅ m = m.
Proof.
  induction m as [|i x m Hi IH] using map_ind; [done|].
  rewrite map_fold_insert_L; [by rewrite IH| |done].
  intros j1 j2 z1 z2 y Hne _ _. by apply insert_insert_ne.
Qed.

#[export] Instance CircuitBreakerConfig_eq_dec : EqDecision CircuitBreakerConfig.
Proof. solve_decision. Defined.

Lemma copy_configs : map_fold insert ∅ DefaultCircuitBreakerConfigs = DefaultCircuitBreakerConfigs.
Proof. apply copy_map. Qed.

Definition service_ok (svc : CircuitBreakerServiceConfig) : Prop :=
  apply_defaults (ToCircuitBreakerConfig svc) = ToCircuitBreakerConfig svc /\
  sane (ToCircuitBreakerConfig svc).

#[export] Instance service_ok_dec svc : Decision (service_ok svc).
Proof. unfold service_ok. apply _. Defined.

(** The table, service by service. *)
Lemma default_service_sane n :
  service_ok (default Registry.fallback_config (DefaultCircuitBreakerConfigs !! n)).
Proof.
  destruct (DefaultCircuitBreakerConfigs !! n) as [svc|] eqn:Hn; simpl.
  - revert n svc Hn.
    change (map_Forall (λ _, service_ok) DefaultCircuitBreakerConfigs).
    refine (bool_decide_unpack _ _). vm_compute. exact I.
  - vm_compute. done.
Qed.

(** ** Properties *)

(** A manager is a finite map of independent breakers: after any operations, a
    call by name runs the breaker of that name (a new one with the default
    configuration when the name is unknown), returns its result and changes no other
    name's breaker; [ResetAll], in whatever order it visits the map, resets each. *)
Theorem manager_refines {V E} m now t0 t1 (o : outcome V E) n l :
  manages m -> ranges l (names m) ->
  let cb := default (NewCircuitBreaker n Manager.defaultConfig now) (view m !! n) in
  fst (Manager.Execute now t0 t1 o n m) = Some (fst (Execute t0 t1 o cb)) /\
  view (snd (Manager.Execute now t0 t1 o n m)) = <[n := snd (Execute t0 t1 o cb)]> (view m) /\
  view (Manager.ResetAll now l m) = Reset now <$> view m.
Proof.
  intros Hm%manages_ok Hl cb.
  destruct (call_named_view n (NewCircuitBreaker n Manager.defaultConfig now)
              (Execute t0 t1 o) m Hm) as (_ & Hr & Hv).
  split; [exact Hr|]. split; [exact Hv|].
  destruct (ranges_names_ok l m Hl) as [Hb Hnd].
  destruct (reset_all_view now l m Hm Hb Hnd) as (_ & _ & Hreset).
  apply map_eq. intros k. rewrite Hreset, lookup_fmap.
  case_decide as Hk; [done|]. rewrite view_lookup.
  destruct (names m !! k) as [a|] eqn:Ha; [|done].
  destruct Hk. apply list_elem_of_fmap. exists (k, a). split; [done|].
  by apply (ranges_elem l (names m)).
Qed.

Definition example_manager : pool CircuitBreaker :=
  Manager.NewCircuitBreakerManager 0 [("db"%string, example_config); ("s3"%string, example_config)].

Lemma manager_refines_witness :
  let l := map_to_list (names example_manager) in
  view (Manager.ResetAll 5 l example_manager) = Reset 5 <$> view example_manager /\
  exists cb, view example_manager !! "s3"%string = Some cb /\
  view (snd (Manager.Execute 1 2 3 (TimedOut (V := nat) (E := string)) "db" example_manager))
    !! "s3"%string = Some cb.
Proof.
  intros l.
  destruct (manager_refines example_manager 5 2 3 (TimedOut (V := nat) (E := string)) "db" l)
    as (_ & _ & H); [|apply ranges_refl|].
  { apply mg_new. refine (bool_decide_unpack _ _). vm_compute. exact I. }
  split; [exact H|]. eexists. split; vm_compute; reflexivity.
Defined.

(** [UpdateConfig] replaces a live breaker: the name's new pointer is a closed
    breaker with the new configuration and cleared counts, whatever the phase of the
    old one, which its holders keep using unchanged; a name without a breaker only
    has its configuration recorded, and the next [GetOrCreate] builds from it. *)
Theorem registry_update table r now now' n c :
  registered table r ->
  let r' := Registry.UpdateConfig now n c r in
  let '(a, r'') := Registry.GetOrCreate now' n r' in
  (exists t, store (Registry.breakers r'') !! a
             = Some (NewCircuitBreaker n (ToCircuitBreakerConfig c) t)) /\
  forall a0 cb, store (Registry.breakers r) !! a0 = Some cb ->
    a0 ≠ a /\ store (Registry.breakers r'') !! a0 = Some cb.
Proof.
  intros Hr%registered_ok. unfold Registry.UpdateConfig, Registry.GetOrCreate.
  destruct (names (Registry.breakers r) !! n) as [a1|] eqn:Ha; simpl.
  - rewrite lookup_insert_eq. simpl. split.
    + exists now. by rewrite list_lookup_middle.
    + intros a0 cb Hcb. pose proof (lookup_lt_Some _ _ _ Hcb).
      split; [lia|]. by rewrite lookup_app_l.
  - rewrite Ha. unfold Registry.config_of. simpl. rewrite lookup_insert_eq. simpl. split.
    + exists now'. by rewrite list_lookup_middle.
    + intros a0 cb Hcb. pose proof (lookup_lt_Some _ _ _ Hcb).
      split; [lia|]. by rewrite lookup_app_l.
Qed.

Lemma registry_update_witness :
  let r := snd (Registry.GetOrCreate 1 "aws_s3"
                  (Registry.NewCircuitBreakerRegistry DefaultCircuitBreakerConfigs)) in
  let r' := Registry.UpdateConfig 2 "aws_s3" Registry.fallback_config r in
  let '(a, r'') := Registry.GetOrCreate 3 "aws_s3" r' in
  (exists t, store (Registry.breakers r'') !! a
             = Some (NewCircuitBreaker "aws_s3"
                       (ToCircuitBreakerConfig Registry.fallback_config) t)) /\
  forall a0 cb, store (Registry.breakers r) !! a0 = Some cb ->
    a0 ≠ a /\ store (Registry.breakers r'') !! a0 = Some cb.
Proof.
  intros r. apply (registry_update DefaultCircuitBreakerConfigs r 2 3 "aws_s3").
  apply rg_get, rg_new.
Defined.

(** Every service of the default table, and every other name, gets a breaker whose
    thresholds are positive, so that the breaker's invariant holds from its creation;
    [NewCircuitBreaker]'s own defaults never replace a field of the table. *)
Theorem registry_defaults now n :
  let '(a, r) := Registry.GetOrCreate now n
                   (Registry.NewCircuitBreakerRegistry DefaultCircuitBreakerConfigs) in
  exists cb, store (Registry.breakers r) !! a = Some cb /\
    sane (config cb) /\ breaker_ok cb /\
    config cb = ToCircuitBreakerConfig
                  (default Registry.fallback_config
                     (GetCircuitBreakerConfig DefaultCircuitBreakerConfigs n)).
Proof.
  unfold Registry.NewCircuitBreakerRegistry. rewrite copy_configs.
  unfold Registry.GetOrCreate, GetCircuitBreakerConfig. cbn [Registry.breakers names empty_pool].
  rewrite lookup_empty. unfold Registry.config_of. cbn [Registry.configs].
  pose proof (default_service_sane n) as Hsvc. revert Hsvc.
  generalize (default Registry.fallback_config (DefaultCircuitBreakerConfigs !! n)).
  intros svc [Hd Hs]. cbn -[apply_defaults sane].
  eexists. split; [reflexivity|]. cbn -[apply_defaults sane]. rewrite Hd.
  split; [done|]. split; [|done]. split; [apply counts_ok_new|].
  cbn -[apply_defaults sane]. rewrite Hd. apply Hs.
Qed.
