(* ===== verification/RateLimiter.v ===== *)
(** * RateLimiter: [pkg/resilience]'s token bucket

    [rate_limiter.go] and [rate_limiter_methods.go].  [Allow] is one atomic step
    (it holds the limiter's mutex); [time.Now()] is its argument.  The refill is
    computed in [float64] and truncated, and the sum of tokens is an [int] that
    wraps, as in the code.  The manager is a [pool] of limiters. *)

From stdpp Require Import base decidable gmap strings list.
From Stdlib Require Import ZArith Lia.
From S2P Require Import Prelude Pool GoFloat.

Local Open Scope Z_scope.

Record RateLimiterConfig := MkLimit {
  Limit : Z;
  Period : Z;
  BurstFactor : Z;
}.

Record RateLimiter := MkLimiter {
  limiter_name : string;
  limiter_config : RateLimiterConfig;
  tokens : Z;
  lastRefill : Z;
}.

Definition NewRateLimiter (now : Z) (n : string) (c : RateLimiterConfig) : RateLimiter :=
  MkLimiter n c (Limit c) now.

Definition min (a b : Z) : Z := if a <? b then a else b.

(** [int(elapsed.Seconds() * float64(Limit) / Period.Seconds())]. *)
Definition tokensToAdd (c : RateLimiterConfig) (elapsed : Z) : Z :=
  f64_to_int (f64_div (f64_mul (duration_seconds elapsed) (f64_of_Z (Limit c)))
                (duration_seconds (Period c))).

Definition refill (now : Z) (r : RateLimiter) : RateLimiter :=
  let elapsed := time_sub now (lastRefill r) in
  if 0 <? elapsed then
    let add := tokensToAdd (limiter_config r) elapsed in
    if 0 <? add
    then MkLimiter (limiter_name r) (limiter_config r)
           (min (i64 (tokens r + add)) (Limit (limiter_config r))) now
    else r
  else r.

Definition Allow (now : Z) (r : RateLimiter) : bool * RateLimiter :=
  let r := refill now r in
  if 0 <? tokens r
  then (true, MkLimiter (limiter_name r) (limiter_config r) (tokens r - 1) (lastRefill r))
  else (false, r).

(** An empty method. *)
Definition AdjustRateLimit {I} (info : I) (r : RateLimiter) : RateLimiter := r.

Definition defaultLimit : RateLimiterConfig := MkLimit 100 minute 3.

(** [l]: the order of [range defaultConfigs]. *)
Definition NewRateLimiterManager (now : Z) (l : list (string * RateLimiterConfig))
  : pool RateLimiter :=
  bind_all (λ n c, NewRateLimiter now n c) l.

Definition GetRateLimiter (now : Z) (n : string) (m : pool RateLimiter)
  : nat * pool RateLimiter :=
  bind_unless_bound n (NewRateLimiter now n defaultLimit) m.

(** ** Accounting *)

(** The tokens that a call at [now] adds before it asks for one. *)
Definition added (now : Z) (r : RateLimiter) : Z :=
  if 0 <? time_sub now (lastRefill r)
  then Z.max 0 (tokensToAdd (limiter_config r) (time_sub now (lastRefill r))) else 0.

Lemma added_nonneg now r : 0 <= added now r.
Proof. unfold added. destruct (_ <? _); lia. Qed.

Fixpoint allow_all (l : list Z) (r : RateLimiter) : list bool * RateLimiter :=
  match l with
  | [] => ([], r)
  | now :: l =>
      let '(b, r) := Allow now r in
      let '(bs, r) := allow_all l r in
      (b :: bs, r)
  end.

Fixpoint all_added (l : list Z) (r : RateLimiter) : Z :=
  match l with
  | [] => 0
  | now :: l => added now r + all_added l (snd (Allow now r))
  end.

Definition admitted (bs : list bool) : Z := foldr (λ (b : bool) n, (if b then 1 else 0) + n) 0 bs.
Arguments admitted : simpl never.

Lemma i64_le x : min_int64 <= x -> i64 x <= x.
Proof.
  intros H. unfold i64.
  pose proof (Z.mod_le (x + 2 ^ 63) (2 ^ 64)). unfold_ints. lia.
Qed.

Lemma min_le a b : min a b <= a /\ min a b <= b.
Proof. unfold min. bool_cases; lia. Qed.

Definition limiter_ok (r : RateLimiter) : Prop :=
  tokens r <= Limit (limiter_config r) /\ min_int64 <= tokens r.

Lemma refill_le now r :
  limiter_ok r -> in_i64 (Limit (limiter_config r)) ->
  limiter_ok (refill now r) /\ tokens (refill now r) <= tokens r + added now r /\
  limiter_config (refill now r) = limiter_config r.
Proof.
  intros [H1 H2] HL. unfold refill, added, limiter_ok.
  generalize (tokensToAdd (limiter_config r) (time_sub now (lastRefill r))). intros add.
  pose proof (min_le (i64 (tokens r + add)) (Limit (limiter_config r))) as [Ha Hb].
  pose proof (i64_range (tokens r + add)) as Hr.
  bool_cases; split_and!; try done; try lia.
  - unfold min. bool_cases; unfold_ints; lia.
  - pose proof (i64_le (tokens r + add)). lia.
Qed.

Lemma Allow_step now r :
  limiter_ok r -> in_i64 (Limit (limiter_config r)) ->
  let '(b, r') := Allow now r in
  limiter_ok r' /\ limiter_config r' = limiter_config r /\
  (if b then 1 else 0) + tokens r' <= tokens r + added now r /\
  (0 <= tokens r -> in_i64 (tokens r + added now r) -> 0 <= tokens r').
Proof.
  intros Hok HL. destruct (refill_le now r Hok HL) as ([H1 H2] & H3 & H4).
  assert (0 <= tokens r -> in_i64 (tokens r + added now r) -> 0 <= Limit (limiter_config r) ->
          0 <= tokens (refill now r)) as Hpos.
  { unfold refill, added. bool_cases; intros Hp Hin HLp; try lia.
    rewrite Z.max_r in Hin by lia. simpl. rewrite i64_small by done.
    unfold min. bool_cases; lia. }
  unfold Allow. destruct Hok. bool_cases; unfold limiter_ok; simpl; rewrite ?H4 in *;
    split_and!; try done; unfold_ints; try lia; intros; apply Hpos; lia.
Qed.

Lemma admitted_cons b bs : admitted (b :: bs) = (if b then 1 else 0) + admitted bs.
Proof. done. Qed.

Lemma allow_all_bound l r :
  limiter_ok r -> in_i64 (Limit (limiter_config r)) ->
  let '(bs, r') := allow_all l r in
  limiter_ok r' /\ limiter_config r' = limiter_config r /\
  admitted bs + tokens r' <= tokens r + all_added l r.
Proof.
  revert r. induction l as [|now l IH]; intros r Hok HL; simpl; [split_and!; try done; unfold admitted; simpl; lia|].
  pose proof (Allow_step now r Hok HL) as H.
  destruct (Allow now r) as [b r1]. destruct H as (Hok1 & Hc1 & H1 & _).
  rewrite <-Hc1 in HL. specialize (IH r1 Hok1 HL).
  destruct (allow_all l r1) as [bs r2]. destruct IH as (Hok2 & Hc2 & H2).
  rewrite admitted_cons. simpl. split_and!; [done|congruence|lia].
Qed.

Lemma allow_all_nonneg l r :
  limiter_ok r -> in_i64 (Limit (limiter_config r)) -> 0 <= tokens r ->
  (forall now r, tokens r <= Limit (limiter_config r) ->
     tokens r + added now r <= max_int64) ->
  0 <= tokens (snd (allow_all l r)).
Proof.
  revert r. induction l as [|now l IH]; intros r Hok HL Hpos Hadd; simpl; [done|].
  pose proof (Allow_step now r Hok HL) as H.
  destruct (Allow now r) as [b r1]. destruct H as (Hok1 & Hc1 & _ & H1).
  rewrite <-Hc1 in HL. specialize (IH r1 Hok1 HL). destruct (allow_all l r1).
  apply IH; [|done]. apply H1; [done|]. split; [|apply Hadd, Hok].
  pose proof (added_nonneg now r). unfold_ints. lia.
Qed.

(** While no time passes only the tokens at hand are given out. *)
Lemma allow_all_burst n now r :
  time_sub now (lastRefill r) <= 0 -> 0 <= tokens r ->
  admitted (fst (allow_all (repeat now n) r)) = Z.min (Z.of_nat n) (tokens r).
Proof.
  revert r. induction n as [|n IH]; intros r Ht Hr; [unfold admitted; simpl; lia|].
  simpl. unfold Allow, refill. rewrite (proj2 (Z.ltb_ge _ _) Ht).
  destruct (Z.ltb_spec 0 (tokens r)) as [Hp|Hp].
  - set (r1 := MkLimiter _ _ _ _). specialize (IH r1 Ht).
    destruct (allow_all (repeat now n) r1). simpl in *. rewrite admitted_cons, IH; subst r1; simpl; lia.
  - specialize (IH r Ht Hr). destruct (allow_all (repeat now n) r). simpl in *.
    rewrite admitted_cons. lia.
Qed.

(** ** Properties *)

(** A new limiter admits at most [Limit] requests plus the tokens that the refills
    computed, whatever the times of the calls; it never holds more than [Limit]
    tokens, even where the [int] sum of tokens wraps; and of [n] requests in a burst
    it admits exactly the first [Limit]. *)
Theorem limiter_bound now n c l k now' :
  0 <= Limit c <= max_int64 -> now' <= now ->
  let r := NewRateLimiter now n c in
  admitted (fst (allow_all l r)) + tokens (snd (allow_all l r)) <= Limit c + all_added l r /\
  tokens (snd (allow_all l r)) <= Limit c /\
  admitted (fst (allow_all (repeat now' k) r)) = Z.min (Z.of_nat k) (Limit c).
Proof.
  intros HL Hnow r.
  assert (limiter_ok r) as Hok by (unfold limiter_ok; simpl; unfold_ints; lia).
  assert (in_i64 (Limit (limiter_config r))) as HL' by (simpl; unfold_ints; lia).
  pose proof (allow_all_bound l r Hok HL') as H'.
  destruct (allow_all l r) as [bs r']. simpl. destruct H' as ([H1 _] & Hc & H3).
  simpl in *. rewrite Hc in H1. split_and!; [done|done|].
  apply allow_all_burst; simpl; [|lia]. unfold time_sub. unfold_ints. lia.
Qed.

Lemma limiter_bound_witness :
  let r := NewRateLimiter 0 "api" (MkLimit 3 minute 3) in
  let l := [1; second; 20 * second; 20 * second; 21 * second; 50 * second] in
  fst (allow_all l r) = [true; true; true; true; false; true] /\
  (admitted (fst (allow_all l r)) + tokens (snd (allow_all l r)) <= 3 + all_added l r /\
   tokens (snd (allow_all l r)) <= 3 /\
   admitted (fst (allow_all (repeat 0 5) r)) = Z.min 5 3).
Proof.
  intros r l. split; [vm_compute; reflexivity|].
  apply (limiter_bound 0 "api" (MkLimit 3 minute 3) l 5 0); [vm_compute; split; congruence|lia].
Defined.
