(* ===== verification/Retry.v ===== *)
(** * Retry: the retry loops

    [pkg/retry/retry.go] (policies), [pkg/utils/retry.go] ([RetryWithBackoff]) and the
    rag-loader's [RetryWithBackoff] ([apps/rag-loader/internal/resilience]).  The
    world a loop runs in is an [env]: what the n-th call of the function returns, and
    what the loop observes of the clock and the context after it.  A loop yields its
    result, the number of calls it made and the delays it slept.  [math.Pow] and
    [rand.Float64] are arguments: the delays depend on them, the results do not. *)

From stdpp Require Import base decidable gmap strings list.
From Stdlib Require Import ZArith Lia.
From S2P Require Import Prelude GoFloat.

Local Open Scope Z_scope.

(** ** Errors *)

(** A Go error: a sentinel made by [errors.New], the two error structs of
    [pkg/utils], a type of another package that may implement [RetryableError], or a
    [%w] wrapper. *)
Inductive error :=
| Sentinel (s : string)
| HTTPError (StatusCode : Z) (Message : string)
| NetworkError (Message : string)
| Foreign (id : string) (retryable : option bool)
| Wrap (msg : string) (e : error).

#[export] Instance error_eq_dec : EqDecision error.
Proof. solve_decision. Defined.

(** [errors.Is] for a target that is not itself a wrapper. *)
Fixpoint error_is (err target : error) : bool :=
  match err with
  | Wrap _ e => error_is e target
  | _ => bool_decide (err = target)
  end.

Definition HTTPError_IsRetryable (code : Z) : bool :=
  if (code =? 429) || (code =? 502) || (code =? 503) || (code =? 504) then true
  else 500 <=? code.

Definition NetworkError_IsRetryable : bool := true.

(** [errors.As(err, &retryable)] and the answer of the error it finds. *)
Fixpoint as_retryable (err : error) : option bool :=
  match err with
  | HTTPError code _ => Some (HTTPError_IsRetryable code)
  | NetworkError _ => Some NetworkError_IsRetryable
  | Foreign _ r => r
  | Sentinel _ => None
  | Wrap _ e => as_retryable e
  end.

(** [errors.As] for the two structs. *)
Fixpoint as_HTTPError (err : error) : option Z :=
  match err with HTTPError c _ => Some c | Wrap _ e => as_HTTPError e | _ => None end.
Fixpoint as_NetworkError (err : error) : bool :=
  match err with NetworkError _ => true | Wrap _ e => as_NetworkError e | _ => false end.

Definition ErrTimeout : error := Sentinel "operation timeout".
Definition ErrRateLimit : error := Sentinel "rate limit exceeded".
Definition ErrServiceUnavailable : error := Sentinel "service temporarily unavailable".
Definition ErrMaxRetriesExceeded : error := Sentinel "max retries exceeded".

Definition IsRetryableHTTPError (err : error) : bool :=
  match as_retryable err with
  | Some b => b
  | None =>
      match as_HTTPError err with
      | Some code => HTTPError_IsRetryable code
      | None =>
          if as_NetworkError err then NetworkError_IsRetryable
          else error_is err ErrTimeout || error_is err ErrRateLimit
               || error_is err ErrServiceUnavailable
      end
  end.

(** ** The world of a loop *)

(** Indices count the calls from 0. *)
Record env := MkEnv {
  fn : nat -> option error;          (* the n-th call; [None] is [nil] *)
  elapsed : nat -> Z;                (* [time.Since(start)] after it *)
  ctx_err : nat -> option error;     (* [ctx.Err()] after it *)
  ctx_done : nat -> option error;    (* the [select]: [None] when the timer fires *)
}.

Record outcome := Outcome {
  returned : option error;
  calls : nat;
  slept : list Z;
}.

(** [time.Duration(x)] of a [float64]. *)
Definition duration_of (x : float64) : Z := f64_to_int x.

Section backoff.
Context (pow : float64 -> float64 -> float64) (rand : nat -> float64).

(** ** [pkg/retry] *)

Record Config := MkRetryConfig {
  InitialInterval : Z;
  MaxInterval : Z;
  MaxElapsedTime : Z;
  Multiplier : float64;
  MaxRetries : Z;
}.

Definition NewExponentialBackoff (c : Config) : Config :=
  MkRetryConfig
    (if InitialInterval c <=? 0 then 100 * millisecond else InitialInterval c)
    (if MaxInterval c <=? 0 then 30 * second else MaxInterval c)
    (if MaxElapsedTime c <=? 0 then 5 * minute else MaxElapsedTime c)
    (if f64_le (Multiplier c) (f64_of_Z 1) then f64_of_Z 2 else Multiplier c)
    (if MaxRetries c <=? 0 then 10 else MaxRetries c).

(** [delay * f * (rand.Float64()*2 - 1)]. *)
Definition jitter (delay f : float64) (r : float64) : float64 :=
  f64_mul (f64_mul delay f) (f64_sub (f64_mul r (f64_of_Z 2)) (f64_of_Z 1)).

Definition NextDelay (c : Config) (attempt : nat) : Z :=
  let delay := f64_mul (f64_of_Z (InitialInterval c))
                 (pow (Multiplier c) (f64_of_Z (Z.of_nat attempt - 1))) in
  let delay := if f64_lt (f64_of_Z (MaxInterval c)) delay
               then f64_of_Z (MaxInterval c) else delay in
  let delay := f64_add delay (jitter delay (f64_const 2 10) (rand attempt)) in
  duration_of delay.

(** The [for] loop of [ExponentialBackoff.Execute]; [attempt] calls were made. *)
Fixpoint backoff_loop (fuel : nat) (c : Config) (w : env) (attempt : nat) (zs : list Z)
  : option outcome :=
  match fuel with
  | O => None
  | S fuel =>
      match fn w attempt with
      | None => Some (Outcome None (S attempt) zs)
      | Some err =>
          let i := attempt in
          let attempt := S attempt in
          if (0 <? MaxRetries c) && (MaxRetries c <=? Z.of_nat attempt)
          then Some (Outcome (Some err) attempt zs)
          else if MaxElapsedTime c <=? elapsed w i
          then Some (Outcome (Some err) attempt zs)
          else
            match ctx_err w i with
            | Some e => Some (Outcome (Some e) attempt zs)
            | None =>
                let delay := NextDelay c attempt in
                match ctx_done w i with
                | None => backoff_loop fuel c w attempt (zs ++ [delay])
                | Some e => Some (Outcome (Some e) attempt zs)
                end
            end
      end
  end.

Definition ExponentialBackoff_Execute (fuel : nat) (c : Config) (w : env) : option outcome :=
  backoff_loop fuel c w 0 [].

Record FixedDelay := NewFixedDelay {
  delay : Z;
  maxRetries : Z;
}.

Definition FixedDelay_NextDelay (f : FixedDelay) (attempt : nat) : Z := delay f.

Fixpoint fixed_loop (fuel : nat) (f : FixedDelay) (w : env) (attempt : nat) (zs : list Z)
  : option outcome :=
  match fuel with
  | O => None
  | S fuel =>
      match fn w attempt with
      | None => Some (Outcome None (S attempt) zs)
      | Some err =>
          let i := attempt in
          let attempt := S attempt in
          if (0 <? maxRetries f) && (maxRetries f <=? Z.of_nat attempt)
          then Some (Outcome (Some err) attempt zs)
          else
            match ctx_err w i with
            | Some e => Some (Outcome (Some e) attempt zs)
            | None =>
                match ctx_done w i with
                | None => fixed_loop fuel f w attempt (zs ++ [delay f])
                | Some e => Some (Outcome (Some e) attempt zs)
                end
            end
      end
  end.

Definition FixedDelay_Execute (fuel : nat) (f : FixedDelay) (w : env) : option outcome :=
  fixed_loop fuel f w 0 [].

(** ** [pkg/utils] *)

Record RetryConfig := MkUtilsConfig {
  MaxAttempts : Z;
  InitialDelay : Z;
  MaxDelay : Z;
  u_Multiplier : float64;
  JitterFactor : float64;
  RetryableErrors : list error;
  RetryIf : option (error -> bool);
}.

Definition DefaultRetryConfig : RetryConfig :=
  MkUtilsConfig 3 (1 * second) (30 * second) (f64_of_Z 2) (f64_const 1 10) [] None.

Definition shouldRetry (err : error) (c : RetryConfig) : bool :=
  match RetryIf c with
  | Some f => f err
  | None =>
      match as_retryable err with
      | Some b => b
      | None => existsb (error_is err) (RetryableErrors c)
      end
  end.

Definition calculateDelay (attempt : nat) (c : RetryConfig) : Z :=
  let delay := f64_mul (f64_of_Z (InitialDelay c))
                 (pow (u_Multiplier c) (f64_of_Z (Z.of_nat attempt - 1))) in
  let delay := if f64_lt (f64_of_Z (MaxDelay c)) delay then f64_of_Z (MaxDelay c) else delay in
  let delay := if f64_lt (f64_of_Z 0) (JitterFactor c)
               then f64_add delay (jitter delay (JitterFactor c) (rand attempt)) else delay in
  let delay := if f64_lt delay (f64_of_Z 0) then f64_of_Z 0 else delay in
  duration_of delay.

(** [RetryResult]; [TotalDuration] is what the clock says and is left out. *)
Record RetryResult := MkResult {
  Attempts : Z;
  LastError : option error;
}.

(** [fmt.Errorf("all %d attempts failed: %w", ...)]: with a [nil] [LastError] the
    new error wraps nothing. *)
Definition all_failed (r : RetryResult) : error :=
  match LastError r with
  | Some e => Wrap "all attempts failed" e
  | None => Sentinel "all attempts failed"
  end.

(** The [for] loop, from the iteration with [attempt = Attempts + 1]; [n] bounds
    the iterations left.  The exit by [break] and by the loop condition is [inl]. *)
Fixpoint retry_loop (n : nat) (c : RetryConfig) (w : env) (r : RetryResult) (zs : list Z)
  : RetryResult * option error * list Z :=
  let exhausted r := (r, Some (all_failed r), zs) in
  match n with
  | O => exhausted r
  | S n =>
      let attempt := Attempts r + 1 in
      match fn w (Z.to_nat (attempt - 1)) with
      | None => (MkResult attempt (LastError r), None, zs)
      | Some err =>
          let r := MkResult attempt (Some err) in
          if attempt =? MaxAttempts c then exhausted r
          else if negb (shouldRetry err c) then exhausted r
          else
            let delay := calculateDelay (Z.to_nat attempt) c in
            match ctx_done w (Z.to_nat (attempt - 1)) with
            | None => retry_loop n c w r (zs ++ [delay])
            | Some e => (r, Some (Wrap "retry cancelled" e), zs)
            end
      end
  end.

Definition RetryWithBackoff (c : option RetryConfig) (w : env)
  : RetryResult * option error * list Z :=
  let c := default DefaultRetryConfig c in
  retry_loop (Z.to_nat (MaxAttempts c)) c w (MkResult 0 None) [].

End backoff.

(** ** The rag-loader *)

Module Loader.

Record RetryConfig := MkConfig {
  MaxRetries : Z;
  InitialDelay : Z;
  MaxDelay : Z;
  Multiplier : float64;
  RetryableErrors : list error;
}.

Definition DefaultRetryConfig : RetryConfig :=
  MkConfig 3 (1 * second) (30 * second) (f64_of_Z 2) [].

Definition isRetryable (err : error) (retryableErrors : list error) : bool :=
  match retryableErrors with
  | [] => true
  | _ => existsb (error_is err) retryableErrors
  end.

(** The next delay, capped as an integer. *)
Definition next_delay (c : RetryConfig) (delay : Z) : Z :=
  let delay := duration_of (f64_mul (f64_of_Z delay) (Multiplier c)) in
  if MaxDelay c <? delay then MaxDelay c else delay.

(** The [for] loop at [attempt], with [n] iterations left. *)
Fixpoint loop (n : nat) (c : RetryConfig) (w : env) (attempt : nat) (delay : Z)
    (lastErr : option error) (zs : list Z) : outcome :=
  match n with
  | O => Outcome (Some (Wrap "%w: %v" ErrMaxRetriesExceeded)) attempt zs
  | S n =>
      match fn w attempt with
      | None => Outcome None (S attempt) zs
      | Some err =>
          if negb (isRetryable err (RetryableErrors c))
          then Outcome (Some (Wrap "non-retryable error" err)) (S attempt) zs
          else if Z.of_nat attempt =? MaxRetries c
          then Outcome (Some (Wrap "%w: %v" ErrMaxRetriesExceeded)) (S attempt) zs
          else
            match ctx_done w attempt with
            | None => loop n c w (S attempt) (next_delay c delay) (Some err) (zs ++ [delay])
            | Some e => Outcome (Some e) (S attempt) zs
            end
      end
  end.

Definition RetryWithBackoff (c : RetryConfig) (w : env) : outcome :=
  loop (Z.to_nat (MaxRetries c + 1)) c w 0 (InitialDelay c) None [].

End Loader.

(** ** The loops, call by call *)

(** After call [i] an exponential-backoff loop goes on. *)
Definition backoff_goes_on (c : Config) (w : env) (i : nat) : Prop :=
  fn w i ≠ None /\ elapsed w i < MaxElapsedTime c /\ ctx_err w i = None /\ ctx_done w i = None.

(** What every loop guarantees of the outcome [o] of calls [a], [a + 1], ... *)
Record ran_from (goes_on : nat -> Prop) (w : env) (a : nat) (zs : list Z) (o : outcome)
  : Prop := {
  ran_calls : (a < calls o)%nat;
  ran_on : forall i, (a <= i)%nat -> (S i < calls o)%nat -> goes_on i;
  ran_result : returned o = None <-> fn w (pred (calls o)) = None;
  ran_slept : (length (slept o) + a + 1 = calls o + length zs)%nat;
}.

Lemma ran_once goes_on w a zs r :
  (r = None <-> fn w a = None) -> ran_from goes_on w a zs (Outcome r (S a) zs).
Proof. intros H. split; simpl; [lia|lia|done|lia]. Qed.

Lemma ran_step (goes_on : nat -> Prop) w a zs d o :
  goes_on a -> ran_from goes_on w (S a) (zs ++ [d]) o -> ran_from goes_on w a zs o.
Proof.
  intros Hgo [H1 H2 H3 H4]. rewrite length_app in H4. simpl in H4.
  split; [lia| |done|lia].
  intros i Hi Hlt. destruct (decide (i = a)) as [->|Hne]; [done|]. apply H2; lia.
Qed.

(** The loop returns at call [a]. *)
Ltac leave_loop :=
  eexists; split; [done|]; simpl; split; [apply ran_once; naive_solver|];
  split; [lia|]; intros ? Hgo; hnf in Hgo; destruct_and? Hgo; simpl in *; lia || congruence.

Lemma backoff_loop_runs pow rand c w n a zs :
  0 < MaxRetries c -> Z.of_nat a + Z.of_nat n = MaxRetries c -> (0 < n)%nat ->
  exists o, (forall k, backoff_loop pow rand (n + k) c w a zs = Some o) /\
    ran_from (backoff_goes_on c w) w a zs o /\ Z.of_nat (calls o) <= MaxRetries c /\
    (Z.of_nat (calls o) < MaxRetries c -> ~ backoff_goes_on c w (pred (calls o))).
Proof.
  intros Hmax. revert a zs. induction n as [|n IH]; intros a zs Ha Hn; [lia|]. simpl.
  destruct (fn w a) as [err|] eqn:Hfn; [|leave_loop].
  rewrite (proj2 (Z.ltb_lt _ _) Hmax). simpl.
  destruct (Z.leb_spec (MaxRetries c) (Z.of_nat (S a))); [leave_loop|].
  destruct (Z.leb_spec (MaxElapsedTime c) (elapsed w a)); [leave_loop|].
  destruct (ctx_err w a) as [e|] eqn:Hce; [leave_loop|].
  destruct (ctx_done w a) as [e|] eqn:Hcd; [leave_loop|].
  destruct (IH (S a) (zs ++ [NextDelay pow rand c (S a)])) as (o & Ho & Hr & Hc & Hs);
    [lia|lia|].
  exists o. split; [exact Ho|]. split; [|done].
  eapply ran_step; [|exact Hr]. split_and!; congruence || done.
Qed.

Definition fixed_goes_on (w : env) (i : nat) : Prop :=
  fn w i ≠ None /\ ctx_err w i = None /\ ctx_done w i = None.

Lemma fixed_loop_runs f w n a zs :
  0 < maxRetries f -> Z.of_nat a + Z.of_nat n = maxRetries f -> (0 < n)%nat ->
  exists o, (forall k, fixed_loop (n + k) f w a zs = Some o) /\
    ran_from (fixed_goes_on w) w a zs o /\ Z.of_nat (calls o) <= maxRetries f /\
    (Z.of_nat (calls o) < maxRetries f -> ~ fixed_goes_on w (pred (calls o))).
Proof.
  intros Hmax. revert a zs. induction n as [|n IH]; intros a zs Ha Hn; [lia|]. simpl.
  destruct (fn w a) as [err|] eqn:Hfn; [|leave_loop].
  rewrite (proj2 (Z.ltb_lt _ _) Hmax). simpl.
  destruct (Z.leb_spec (maxRetries f) (Z.of_nat (S a))); [leave_loop|].
  destruct (ctx_err w a) as [e|] eqn:Hce; [leave_loop|].
  destruct (ctx_done w a) as [e|] eqn:Hcd; [leave_loop|].
  destruct (IH (S a) (zs ++ [delay f])) as (o & Ho & Hr & Hc & Hs); [lia|lia|].
  exists o. split; [exact Ho|]. split; [|done].
  eapply ran_step; [|exact Hr]. split_and!; congruence || done.
Qed.

(** With no bound only a success or a cancellation ends the loop. *)
Lemma fixed_loop_diverges f w fuel a zs :
  maxRetries f <= 0 -> (forall i, fixed_goes_on w i) -> fixed_loop fuel f w a zs = None.
Proof.
  intros Hmax Hgo. revert a zs. induction fuel as [|fuel IH]; intros a zs; [done|]. simpl.
  destruct (Hgo a) as (Hfn & Hce & Hcd).
  destruct (fn w a); [|done]. rewrite (proj2 (Z.ltb_ge _ _) Hmax). simpl.
  by rewrite Hce, Hcd.
Qed.

(** [utils.RetryWithBackoff] after [k] calls. *)
Definition retry_goes_on (c : RetryConfig) (w : env) (i : nat) : Prop :=
  (exists err, fn w i = Some err /\ shouldRetry err c = true) /\
  Z.of_nat (S i) < MaxAttempts c /\ ctx_done w i = None.

Record retried (c : RetryConfig) (w : env) (k : nat) (n : Z)
    (res : RetryResult * option error * list Z) : Prop := {
  retried_range : Z.of_nat k < Attempts (fst (fst res)) <= n;
  retried_on : forall i, (k <= i)%nat -> Z.of_nat (S i) < Attempts (fst (fst res)) ->
    retry_goes_on c w i;
  retried_last :
    let last := fn w (Z.to_nat (Attempts (fst (fst res)) - 1)) in
    (snd (fst res) = None <-> last = None) /\
    (last ≠ None -> LastError (fst (fst res)) = last);
}.

Lemma retry_loop_runs pow rand c w n r zs :
  0 <= Attempts r -> Attempts r + Z.of_nat n = MaxAttempts c -> (0 < n)%nat ->
  retried c w (Z.to_nat (Attempts r)) (MaxAttempts c) (retry_loop pow rand n c w r zs).
Proof.
  revert r zs. induction n as [|n IH]; intros r zs Hr Hn Hpos; [lia|]. simpl.
  rewrite Z.add_simpl_r.
  destruct (fn w (Z.to_nat (Attempts r))) as [err|] eqn:Hfn.
  2: { split; simpl; [lia|lia|]. rewrite Z.add_simpl_r, Hfn. done. }
  assert (forall e zs', retried c w (Z.to_nat (Attempts r)) (MaxAttempts c)
            (MkResult (Attempts r + 1) (Some err), Some e, zs')) as Hstop.
  { intros e zs'. split; simpl; [lia|lia|]. rewrite Z.add_simpl_r, Hfn.
    split; [split; discriminate|done]. }
  destruct (Z.eqb_spec (Attempts r + 1) (MaxAttempts c)) as [Hlast|Hlast]; [apply Hstop|].
  destruct (shouldRetry err c) eqn:Hshould; [|apply Hstop]. simpl.
  destruct (ctx_done w (Z.to_nat (Attempts r))) as [e|] eqn:Hcd; [apply Hstop|].
  set (r' := MkResult (Attempts r + 1) (Some err)). set (zs' := zs ++ _).
  destruct (IH r' zs') as [H1 H2 H3]; [simpl; lia..|].
  split; [simpl in *; lia| |done].
  intros i Hi Hlt. destruct (decide (i = Z.to_nat (Attempts r))) as [->|Hne].
  - split; [by exists err|]. split; [lia|done].
  - apply H2; [simpl; lia|done].
Qed.

(** The rag-loader's loop. *)
Definition loader_goes_on (c : Loader.RetryConfig) (w : env) (i : nat) : Prop :=
  (exists err, fn w i = Some err /\ Loader.isRetryable err (Loader.RetryableErrors c) = true) /\
  Z.of_nat i < Loader.MaxRetries c /\ ctx_done w i = None.

Lemma next_delay_le c d : Loader.next_delay c d <= Loader.MaxDelay c.
Proof. unfold Loader.next_delay. bool_cases; lia. Qed.

Definition loader_retryable (c : Loader.RetryConfig) (w : env) (i : nat) : Prop :=
  exists err, fn w i = Some err /\ Loader.isRetryable err (Loader.RetryableErrors c) = true.

Lemma loader_loop_runs c w n a d e zs :
  Z.of_nat a + Z.of_nat n = Loader.MaxRetries c + 1 -> (0 < n)%nat ->
  let o := Loader.loop n c w a d e zs in
  ran_from (loader_goes_on c w) w a zs o /\ Z.of_nat (calls o) <= Loader.MaxRetries c + 1 /\
  (forall b, d <= b -> Loader.MaxDelay c <= b -> Forall (λ x, x <= b) zs -> Forall (λ x, x <= b) (slept o)) /\
  (Z.of_nat (calls o) = Loader.MaxRetries c + 1 -> loader_retryable c w (pred (calls o)) ->
   returned o = Some (Wrap "%w: %v" ErrMaxRetriesExceeded)).
Proof.
  revert a d e zs. induction n as [|n IH]; intros a d e zs Ha Hn; [lia|]. simpl.
  destruct (fn w a) as [err|] eqn:Hfn.
  2: { simpl. split_and!; [apply ran_once; by rewrite Hfn|lia|done|].
       intros _ (err & Herr & _). simpl in Herr. congruence. }
  assert (forall x, ran_from (loader_goes_on c w) w a zs (Outcome (Some x) (S a) zs)) as Honce.
  { intros x. apply ran_once. by rewrite Hfn. }
  destruct (Loader.isRetryable err _) eqn:Hret; simpl.
  2: { split_and!; [done|lia|done|].
       intros _ (err' & Herr' & Hret'). simpl in Herr'. congruence. }
  destruct (Z.eqb_spec (Z.of_nat a) (Loader.MaxRetries c)) as [Heq|Hne]; simpl.
  { split_and!; [done|lia|done|done]. }
  destruct (ctx_done w a) as [x|] eqn:Hcd; simpl.
  { split_and!; [done|lia|done|lia]. }
  destruct (IH (S a) (Loader.next_delay c d) (Some err) (zs ++ [d])) as (H1 & H2 & H3 & H4);
    [lia|lia|].
  split_and!; [|done| |done].
  - eapply ran_step; [|exact H1]. split; [by exists err|]. split; [lia|done].
  - intros b Hd Hb Hzs. apply H3; [pose proof (next_delay_le c d); lia|done|].
    apply Forall_app. split; [done|]. by constructor.
Qed.

Definition flaky (n : nat) (err : error) : env :=
  MkEnv (λ i, if (i <? n)%nat then Some err else None) (λ i, Z.of_nat i * second)
    (λ _, None) (λ _, None).

(** ** Properties *)

(** [ExponentialBackoff.Execute] always returns: with the configuration its
    constructor builds it calls the function at least once and at most [MaxRetries]
    times, goes on exactly while the call failed, time is left and the context lives,
    returns [nil] exactly when the last call succeeded, and sleeps between calls. *)
Theorem backoff_total pow rand c0 w :
  let c := NewExponentialBackoff c0 in
  exists o,
    (forall k, ExponentialBackoff_Execute pow rand (Z.to_nat (MaxRetries c) + k) c w = Some o) /\
    ran_from (backoff_goes_on c w) w 0 [] o /\ Z.of_nat (calls o) <= MaxRetries c /\
    (Z.of_nat (calls o) < MaxRetries c -> ~ backoff_goes_on c w (pred (calls o))).
Proof.
  intros c. assert (0 < MaxRetries c) by (subst c; simpl; bool_cases; lia).
  apply backoff_loop_runs; lia.
Qed.

(** [FixedDelay.Execute] returns within [maxRetries] calls when that is positive;
    otherwise it returns only if a call succeeds or the context ends: for a function
    that keeps failing no number of iterations is enough. *)
Theorem fixed_delay_termination f w :
  (0 < maxRetries f ->
   exists o, (forall k, FixedDelay_Execute (Z.to_nat (maxRetries f) + k) f w = Some o) /\
     ran_from (fixed_goes_on w) w 0 [] o /\ Z.of_nat (calls o) <= maxRetries f) /\
  (maxRetries f <= 0 -> (forall i, fixed_goes_on w i) ->
   forall fuel, FixedDelay_Execute fuel f w = None).
Proof.
  split.
  - intros Hmax. destruct (fixed_loop_runs f w (Z.to_nat (maxRetries f)) 0 [])
      as (o & Ho & Hr & Hc & _); [lia..|]. by exists o.
  - intros Hmax Hgo fuel. by apply fixed_loop_diverges.
Qed.

Lemma fixed_delay_termination_witness :
  (exists o, (forall k, FixedDelay_Execute (3 + k) (NewFixedDelay second 3)
                          (flaky 2 ErrTimeout) = Some o) /\ Z.of_nat (calls o) <= 3) /\
  (forall fuel, FixedDelay_Execute fuel (NewFixedDelay second 0)
     (MkEnv (λ _, Some ErrTimeout) (λ _, 0) (λ _, None) (λ _, None)) = None).
Proof.
  split.
  - destruct (proj1 (fixed_delay_termination (NewFixedDelay second 3) (flaky 2 ErrTimeout)))
      as (o & Ho & _ & Hc); [reflexivity|]. exists o. split; [exact Ho|exact Hc].
  - apply (proj2 (fixed_delay_termination (NewFixedDelay second 0) _)); [simpl; lia|].
    intros i. repeat split. discriminate.
Defined.

(** [utils.RetryWithBackoff] makes between one and [MaxAttempts] calls, repeats a
    call only after an error that [shouldRetry] accepts, reports in [Attempts] the
    number of calls, returns [nil] exactly when the last one succeeded, and otherwise
    an error that wraps the last failure ([LastError]) or the context's. *)
Theorem utils_retry_bounded pow rand c w :
  0 < MaxAttempts c ->
  retried c w 0 (MaxAttempts c) (RetryWithBackoff pow rand (Some c) w).
Proof.
  intros Hmax. apply (retry_loop_runs pow rand c w _ (MkResult 0 None)); simpl; lia.
Qed.

Lemma utils_retry_bounded_witness :
  let res := RetryWithBackoff (λ x _, x) (λ _, f64_const 1 2) (Some DefaultRetryConfig)
               (flaky 2 (Wrap "call" (HTTPError 503 "busy"))) in
  (Attempts (fst (fst res)) = 3 /\ snd (fst res) = None) /\
  retried DefaultRetryConfig (flaky 2 (Wrap "call" (HTTPError 503 "busy"))) 0 3 res.
Proof.
  intros res. split; [vm_compute; split; reflexivity|].
  apply (utils_retry_bounded (λ x _, x) (λ _, f64_const 1 2) DefaultRetryConfig).
  vm_compute. reflexivity.
Defined.

(** The rag-loader's [RetryWithBackoff] makes at most [MaxRetries + 1] calls,
    repeats only retryable errors, never sleeps longer than the first delay or
    [MaxDelay], returns [nil] exactly when the last call succeeded, and after
    [MaxRetries + 1] retryable failures the error [ErrMaxRetriesExceeded]. *)
Theorem loader_retry_bounded c w :
  0 <= Loader.MaxRetries c ->
  let o := Loader.RetryWithBackoff c w in
  ran_from (loader_goes_on c w) w 0 [] o /\
  Z.of_nat (calls o) <= Loader.MaxRetries c + 1 /\
  Forall (λ x, x <= Z.max (Loader.InitialDelay c) (Loader.MaxDelay c)) (slept o) /\
  (Z.of_nat (calls o) = Loader.MaxRetries c + 1 -> loader_retryable c w (pred (calls o)) ->
   exists e, returned o = Some e /\ error_is e ErrMaxRetriesExceeded = true).
Proof.
  intros Hmax o.
  destruct (loader_loop_runs c w (Z.to_nat (Loader.MaxRetries c + 1)) 0
              (Loader.InitialDelay c) None []) as (H1 & H2 & H3 & H4); [lia..|].
  fold (Loader.RetryWithBackoff c w) in *. fold o in H1, H2, H3, H4.
  split_and!; [done|done|apply H3; [lia..|constructor]|].
  intros Hn Hr. eexists. split; [by apply H4|]. done.
Qed.

Lemma loader_retry_bounded_witness :
  let w := flaky 9 (Sentinel "reset by peer") in
  let o := Loader.RetryWithBackoff Loader.DefaultRetryConfig w in
  (calls o = 4%nat /\ slept o = [1 * second; 2 * second; 4 * second]) /\
  (ran_from (loader_goes_on Loader.DefaultRetryConfig w) w 0 [] o /\
   Z.of_nat (calls o) <= 4 /\
   Forall (λ x, x <= 30 * second) (slept o) /\
   (Z.of_nat (calls o) = 4 -> loader_retryable Loader.DefaultRetryConfig w (pred (calls o)) ->
    exists e, returned o = Some e /\ error_is e ErrMaxRetriesExceeded = true)).
Proof.
  intros w o. split; [vm_compute; split; reflexivity|].
  apply (loader_retry_bounded Loader.DefaultRetryConfig w). vm_compute. congruence.
Defined.
