(* ===== verification/LoaderResilience.v ===== *)
(** * LoaderResilience: the rag-loader's breaker and limiters

    [apps/rag-loader/internal/resilience/circuit_breaker.go] (the breaker; its retry
    loop is in Retry.v) and [rate_limiter.go].  [golang.org/x/time/rate] is not part
    of the repository: a [rate.Limiter] is a parameter, given by its operations. *)

From stdpp Require Import base decidable gmap strings list.
From Stdlib Require Import ZArith Lia.
From S2P Require Import Prelude GoFloat.

Local Open Scope Z_scope.

(** ** Circuit breaker *)

Inductive CircuitBreakerState :=
| StateClosed
| StateOpen
| StateHalfOpen
| StateOther (n : Z).

#[export] Instance loader_state_eq_dec : EqDecision CircuitBreakerState.
Proof. solve_decision. Defined.

Definition String_of_state (s : CircuitBreakerState) : string :=
  match s with
  | StateClosed => "closed"
  | StateOpen => "open"
  | StateHalfOpen => "half-open"
  | StateOther _ => "unknown"
  end.

Record CircuitBreakerConfig := MkConfig {
  MaxFailures : Z;
  ResetTimeout : Z;
  HalfOpenMaxRequests : Z;
  FailureThreshold : float64;
  MinimumRequestCount : Z;
}.

Definition DefaultCircuitBreakerConfig : CircuitBreakerConfig :=
  MkConfig 5 (60 * second) 3 (f64_const 5 10) 10.

Record CircuitBreaker := MkBreaker {
  config : CircuitBreakerConfig;
  state : CircuitBreakerState;
  failures : Z;
  successes : Z;
  requests : Z;
  lastAttempt : Z;
}.

Definition NewCircuitBreaker (c : CircuitBreakerConfig) : CircuitBreaker :=
  MkBreaker
    (MkConfig
       (if MaxFailures c <=? 0 then 5 else MaxFailures c)
       (if ResetTimeout c <=? 0 then 60 * second else ResetTimeout c)
       (if HalfOpenMaxRequests c <=? 0 then 3 else HalfOpenMaxRequests c)
       (FailureThreshold c) (MinimumRequestCount c))
    StateClosed 0 0 0 zero_time.

Definition setState (s : CircuitBreakerState) (cb : CircuitBreaker) : CircuitBreaker :=
  MkBreaker (config cb) s (failures cb) (successes cb) (requests cb) (lastAttempt cb).

Definition reset (cb : CircuitBreaker) : CircuitBreaker :=
  MkBreaker (config cb) (state cb) 0 0 0 (lastAttempt cb).

Definition allow (now : Z) (cb : CircuitBreaker) : bool * CircuitBreaker :=
  match state cb with
  | StateClosed => (true, cb)
  | StateOpen =>
      if ResetTimeout (config cb) <? time_sub now (lastAttempt cb)
      then (true, setState StateHalfOpen cb)
      else (false, cb)
  | StateHalfOpen =>
      if requests cb <? HalfOpenMaxRequests (config cb) then (true, cb) else (false, cb)
  | StateOther _ => (false, cb)
  end.

Definition failureRate (cb : CircuitBreaker) : float64 :=
  f64_div (f64_of_Z (failures cb)) (f64_of_Z (requests cb)).

Definition onSuccess (cb : CircuitBreaker) : CircuitBreaker :=
  match state cb with
  | StateHalfOpen =>
      if HalfOpenMaxRequests (config cb) <=? successes cb
      then reset (setState StateClosed cb) else cb
  | StateClosed =>
      if MinimumRequestCount (config cb) <=? requests cb then
        if f64_lt (failureRate cb) (FailureThreshold (config cb)) then reset cb else cb
      else cb
  | _ => cb
  end.

Definition onFailure (cb : CircuitBreaker) : CircuitBreaker :=
  match state cb with
  | StateHalfOpen => setState StateOpen cb
  | StateClosed =>
      if MaxFailures (config cb) <=? failures cb then setState StateOpen cb
      else if MinimumRequestCount (config cb) <=? requests cb then
        if f64_le (FailureThreshold (config cb)) (failureRate cb)
        then setState StateOpen cb else cb
      else cb
  | _ => cb
  end.

Definition recordResult (now : Z) (success : bool) (cb : CircuitBreaker) : CircuitBreaker :=
  let cb := MkBreaker (config cb) (state cb) (failures cb) (successes cb)
              (requests cb + 1) now in
  if success
  then onSuccess (MkBreaker (config cb) (state cb) (failures cb) (successes cb + 1)
                    (requests cb) (lastAttempt cb))
  else onFailure (MkBreaker (config cb) (state cb) (failures cb + 1) (successes cb)
                    (requests cb) (lastAttempt cb)).

(** [Execute]: [err] is what [fn] returns; [None] is [nil].  It starts at [t0] and
    [fn] ends at [t1]. *)
Inductive execute_error (E : Type) :=
| ErrCircuitOpen
| ErrFn (e : E).
Arguments ErrCircuitOpen {E}.
Arguments ErrFn {E} e.

Definition Execute {E} (t0 t1 : Z) (err : option E) (cb : CircuitBreaker)
  : option (execute_error E) * CircuitBreaker :=
  match allow t0 cb with
  | (false, cb) => (Some ErrCircuitOpen, cb)
  | (true, cb) =>
      (ErrFn <$> err, recordResult t1 (match err with None => true | _ => false end) cb)
  end.

Inductive stat :=
| SString (s : string)
| SInt (n : Z)
| SFloat (x : float64)
| STime (t : Z).

Definition Stats (cb : CircuitBreaker) : gmap string stat :=
  list_to_map [
    ("state", SString (String_of_state (state cb)));
    ("failures", SInt (failures cb));
    ("successes", SInt (successes cb));
    ("requests", SInt (requests cb));
    ("failure_rate",
      SFloat (if 0 <? requests cb then failureRate cb else f64_of_Z 0));
    ("last_attempt", STime (lastAttempt cb))
  ].

(** ** Rate limiters *)

(** [rate.Limiter]: [AllowN], [SetLimit] and [NewLimiter]. *)
Class RateLimiterOps (L : Type) := {
  NewLimiter : float64 -> Z -> L;
  limiter_AllowN : Z -> Z -> L -> bool * L;
  SetLimit : float64 -> L -> L;
}.

Section limiters.
Context {L : Type} `{!RateLimiterOps L}.

Record SourceRateLimits := MkSources {
  GitHub : float64;
  Web : float64;
  S3 : float64;
  Confluence : float64;
  Jira : float64;
}.

Record RateLimiterConfig := MkLimits {
  RequestsPerSecond : float64;
  BurstSize : Z;
  PerSourceLimit : option SourceRateLimits;
}.

Definition DefaultRateLimiterConfig : RateLimiterConfig :=
  MkLimits (f64_of_Z 100) 50
    (Some (MkSources (f64_of_Z 10) (f64_of_Z 20) (f64_of_Z 50) (f64_of_Z 10) (f64_of_Z 10))).

Record RateLimiter := MkRateLimiter {
  limits : RateLimiterConfig;
  globalLimiter : L;
  sourceLimiters : gmap string L;
}.

Definition source_limiter (x : float64) : L := NewLimiter x (f64_to_int x).

Definition NewRateLimiter (c : RateLimiterConfig) : RateLimiter :=
  MkRateLimiter c (NewLimiter (RequestsPerSecond c) (BurstSize c))
    (match PerSourceLimit c with
     | None => ∅
     | Some s =>
         list_to_map [
           ("github", source_limiter (GitHub s));
           ("web", source_limiter (Web s));
           ("s3", source_limiter (S3 s));
           ("confluence", source_limiter (Confluence s));
           ("jira", source_limiter (Jira s))
         ]
     end).

Definition AllowN (now n : Z) (rl : RateLimiter) : bool * RateLimiter :=
  let '(b, g) := limiter_AllowN now n (globalLimiter rl) in
  (b, MkRateLimiter (limits rl) g (sourceLimiters rl)).

Definition Allow (now : Z) (rl : RateLimiter) : bool * RateLimiter := AllowN now 1 rl.

Definition AllowForSource (now : Z) (sourceType : string) (rl : RateLimiter)
  : bool * RateLimiter :=
  let '(b, rl) := Allow now rl in
  if negb b then (false, rl)
  else
    match sourceLimiters rl !! sourceType with
    | Some l =>
        let '(b, l) := limiter_AllowN now 1 l in
        (b, MkRateLimiter (limits rl) (globalLimiter rl)
              (<[sourceType := l]> (sourceLimiters rl)))
    | None => (true, rl)
    end.

(** *** Adaptive limiter *)

Record AdaptiveRateLimiter := MkAdaptive {
  baseLimiter : RateLimiter;
  currentRate : float64;
  minRate : float64;
  maxRate : float64;
  adjustInterval : Z;
}.

Record AdaptiveRateLimiterConfig := MkAdaptiveConfig {
  InitialRate : float64;
  MinRate : float64;
  MaxRate : float64;
  a_BurstSize : Z;
  AdjustInterval : Z;
}.

Definition NewAdaptiveRateLimiter (c : AdaptiveRateLimiterConfig) : AdaptiveRateLimiter :=
  MkAdaptive (NewRateLimiter (MkLimits (InitialRate c) (a_BurstSize c) None))
    (InitialRate c) (MinRate c) (MaxRate c) (AdjustInterval c).

Definition adaptive_Allow (now : Z) (a : AdaptiveRateLimiter) : bool * AdaptiveRateLimiter :=
  let '(b, rl) := Allow now (baseLimiter a) in
  (b, MkAdaptive rl (currentRate a) (minRate a) (maxRate a) (adjustInterval a)).

(** The three adjustments, in the order of the code: a later one overrides. *)
Definition proposed_rate (errorRate latency : float64) (rate : float64) : float64 :=
  let newRate := rate in
  let newRate := if f64_lt (f64_const 1 10) errorRate
                 then f64_mul rate (f64_const 9 10) else newRate in
  let newRate := if f64_lt (f64_of_Z 1) latency
                 then f64_mul rate (f64_const 95 100) else newRate in
  if f64_lt errorRate (f64_const 1 100) && f64_lt latency (f64_const 5 10)
  then f64_mul rate (f64_const 105 100) else newRate.

Definition clamp (lo hi x : float64) : float64 :=
  let x := if f64_lt x lo then lo else x in
  if f64_lt hi x then hi else x.

Definition AdjustRate (errorRate latency : float64) (a : AdaptiveRateLimiter)
  : AdaptiveRateLimiter :=
  let oldRate := currentRate a in
  let newRate := clamp (minRate a) (maxRate a) (proposed_rate errorRate latency oldRate) in
  if negb (f64_eq newRate oldRate)
  then MkAdaptive
         (MkRateLimiter (limits (baseLimiter a)) (SetLimit newRate (globalLimiter (baseLimiter a)))
            (sourceLimiters (baseLimiter a)))
         newRate (minRate a) (maxRate a) (adjustInterval a)
  else a.

End limiters.
Arguments RateLimiter : clear implicits.
Arguments AdaptiveRateLimiter : clear implicits.

(** ** Token bucket *)

Module TokenBucket.

Record Config := MkBucketConfig {
  Capacity : Z;
  RefillRate : float64;
  InitialTokens : Z;
}.

Record t := MkBucket {
  capacity : Z;
  tokens : float64;
  refillRate : float64;
  lastRefill : Z;
}.

Definition NewTokenBucket (now : Z) (c : Config) : t :=
  let i := InitialTokens c in
  let i := if Capacity c <? i then Capacity c else i in
  let i := if i =? 0 then Capacity c else i in
  MkBucket (Capacity c) (f64_of_Z i) (RefillRate c) now.

Definition refill (now : Z) (b : t) : t :=
  let elapsed := time_sub now (lastRefill b) in
  let tokensToAdd := f64_mul (duration_seconds elapsed) (refillRate b) in
  let n := f64_add (tokens b) tokensToAdd in
  let n := if f64_lt (f64_of_Z (capacity b)) n then f64_of_Z (capacity b) else n in
  MkBucket (capacity b) n (refillRate b) now.

Definition Take (now n : Z) (b : t) : bool * t :=
  let b := refill now b in
  if f64_le (f64_of_Z n) (tokens b)
  then (true, MkBucket (capacity b) (f64_sub (tokens b) (f64_of_Z n)) (refillRate b)
                (lastRefill b))
  else (false, b).

(** [time.Duration(needed/tb.refillRate) * time.Second]: the conversion drops the
    fraction of a second, the product is an [int64]. *)
Definition waitTime (n : Z) (b : t) : Z :=
  i64 (f64_to_int (f64_div (f64_sub (f64_of_Z n) (tokens b)) (refillRate b)) * second).

(** [TakeWait]: the i-th iteration runs at [clock i]; [ctx i] is the outcome of its
    [select].  [inl tt] is a return of [nil]. *)
Fixpoint TakeWait {E} (fuel : nat) (clock : nat -> Z) (ctx : nat -> option E)
    (i : nat) (n : Z) (b : t) : option (result E unit * t) :=
  match fuel with
  | O => None
  | S fuel =>
      let '(ok, b) := Take (clock i) n b in
      if ok then Some (Ok (), b)
      else
        match ctx i with
        | None => TakeWait fuel clock ctx (S i) n b
        | Some e => Some (Err e, b)
        end
  end.

Definition Available (now : Z) (b : t) : Z * t :=
  let b := refill now b in (f64_to_int (tokens b), b).

End TokenBucket.

(** ** The breaker under overlapping calls

    [allow] and [recordResult] hold the mutex; between them a call runs its
    function, so any interleaving of the two is possible. *)
Inductive breaker_step : CircuitBreaker -> CircuitBreaker -> Prop :=
| bs_allow now cb : breaker_step cb (snd (allow now cb))
| bs_record now ok cb : breaker_step cb (recordResult now ok cb).

Record breaker_ok (cb : CircuitBreaker) : Prop := {
  ok_counts : requests cb = failures cb + successes cb /\ 0 <= failures cb /\ 0 <= successes cb;
  ok_closed : state cb = StateClosed -> failures cb < MaxFailures (config cb);
  ok_known : forall n, state cb ≠ StateOther n;
  ok_config : 0 < MaxFailures (config cb) /\ 0 < HalfOpenMaxRequests (config cb);
}.

Lemma new_ok c : breaker_ok (NewCircuitBreaker c).
Proof. split; simpl; bool_cases; try done; lia. Qed.

Lemma breaker_step_ok a b : breaker_step a b -> breaker_ok a -> breaker_ok b.
Proof.
  intros Hs [H1 H2 H3 H4]. destruct Hs as [now cb|now ok cb].
  - unfold allow. destruct (state cb) eqn:Hst; repeat (case_match; simpl);
      split; simpl; congruence || done || auto.
  - destruct cb as [c st f s r la]. simpl in *.
    unfold recordResult, onSuccess, onFailure.
    destruct ok, st; simpl; repeat (case_match; bool_hyps; simpl); split; simpl;
      try done; try lia; intros; specialize (H2 eq_refl); lia.
Qed.

(** Half-open with the quota of requests used up. *)
Definition wedged (cb : CircuitBreaker) : Prop :=
  state cb = StateHalfOpen /\ HalfOpenMaxRequests (config cb) <= requests cb.

Lemma wedged_refuses {E} t0 t1 (err : option E) cb :
  wedged cb -> Execute t0 t1 err cb = (Some ErrCircuitOpen, cb).
Proof.
  intros [Hst Hr]. unfold Execute, allow. rewrite Hst.
  by rewrite (proj2 (Z.ltb_ge _ _) Hr).
Qed.

Fixpoint run_calls {E} (cb : CircuitBreaker) (l : list (Z * Z * option E))
  : list (option (execute_error E)) * CircuitBreaker :=
  match l with
  | [] => ([], cb)
  | (t0, t1, err) :: l =>
      let '(r, cb) := Execute t0 t1 err cb in
      let '(rs, cb) := run_calls cb l in
      (r :: rs, cb)
  end.

Lemma wedged_for_ever {E} cb (l : list (Z * Z * option E)) :
  wedged cb -> run_calls cb l = (replicate (length l) (Some ErrCircuitOpen), cb).
Proof.
  intros Hw. induction l as [|[[t0 t1] err] l IH]; [done|]. simpl.
  rewrite wedged_refuses by done. by rewrite IH.
Qed.

(** ** Clamped rates *)

Lemma clamp_range lo hi x :
  f64_lt hi lo = false ->
  f64_lt (clamp lo hi x) lo = false /\ f64_lt hi (clamp lo hi x) = false.
Proof.
  intros H. unfold clamp.
  destruct (f64_lt x lo) eqn:H1; [by rewrite H, f64_lt_irrefl|].
  destruct (f64_lt hi x) eqn:H2; [by rewrite H, f64_lt_irrefl|done].
Qed.

(** ** Properties *)

(** The rag-loader's breaker can wedge for ever: nothing clears [requests] when it
    goes half-open, so after one successful probe of a breaker that had already seen
    [HalfOpenMaxRequests - 1] requests (and too few successes to close) every later
    call is refused, whatever its time, and no transition leaves half-open. *)
Theorem loader_breaker_wedges {E} cb t0 t1 (l : list (Z * Z * option E)) :
  state cb = StateOpen -> ResetTimeout (config cb) < time_sub t0 (lastAttempt cb) ->
  HalfOpenMaxRequests (config cb) <= requests cb + 1 ->
  successes cb + 1 < HalfOpenMaxRequests (config cb) ->
  let '(r, cb') := Execute (E := E) t0 t1 None cb in
  r = None /\ state cb' = StateHalfOpen /\
  run_calls cb' l = (replicate (length l) (Some ErrCircuitOpen), cb').
Proof.
  destruct cb as [c st f s n la]. simpl. intros -> Ht Hn Hs.
  unfold Execute, allow. simpl. rewrite (proj2 (Z.ltb_lt _ _) Ht).
  unfold recordResult, onSuccess. simpl. rewrite (proj2 (Z.leb_gt _ _) Hs).
  split; [done|]. split; [done|]. by apply wedged_for_ever.
Qed.

Definition tripped : CircuitBreaker :=
  snd (run_calls (NewCircuitBreaker DefaultCircuitBreakerConfig)
         (repeat (1 * second, 1 * second, Some "refused"%string) 5)).

Lemma loader_breaker_wedges_witness :
  let l := repeat (3600 * second, 3600 * second, @None string) 100 in
  let '(r, cb') := Execute (E := string) (62 * second) (62 * second) None tripped in
  r = None /\ state cb' = StateHalfOpen /\
  run_calls cb' l = (replicate (length l) (Some ErrCircuitOpen), cb').
Proof.
  apply (loader_breaker_wedges tripped (62 * second) (62 * second));
    vm_compute; congruence.
Defined.

(** In every state that overlapping calls reach the counters agree (requests are
    failures plus successes) and a closed breaker has fewer than [MaxFailures]
    failures. *)
Theorem loader_breaker_invariant c cb :
  rtc breaker_step (NewCircuitBreaker c) cb -> breaker_ok cb.
Proof.
  intros Hr. remember (NewCircuitBreaker c) as cb0 eqn:H0.
  assert (breaker_ok cb0) as Hok by (subst; apply new_ok). clear H0.
  induction Hr; eauto using breaker_step_ok.
Qed.

Lemma loader_breaker_invariant_witness :
  breaker_ok (recordResult 5 false (snd (allow 4 (NewCircuitBreaker DefaultCircuitBreakerConfig)))).
Proof.
  apply (loader_breaker_invariant DefaultCircuitBreakerConfig).
  eapply rtc_l; [apply (bs_allow 4)|]. apply rtc_once, bs_record.
Defined.

(** [TakeWait] for more tokens than the bucket holds never returns by itself:
    whatever the clock, every iteration fails and only the context ends the loop. *)
Theorem take_wait_over_capacity {E} fuel clock (ctx : nat -> option E) n b :
  f64_lt (f64_of_Z (TokenBucket.capacity b)) (f64_of_Z n) = true ->
  (forall i, ctx i = None) ->
  TokenBucket.TakeWait fuel clock ctx 0 n b = None.
Proof.
  intros Hn Hctx. generalize 0%nat. revert b Hn. induction fuel as [|fuel IH]; intros b Hn i; [done|].
  simpl. unfold TokenBucket.Take. set (b' := TokenBucket.refill (clock i) b).
  assert (TokenBucket.capacity b' = TokenBucket.capacity b) as Hcap by done.
  assert (f64_lt (f64_of_Z (TokenBucket.capacity b)) (TokenBucket.tokens b') = false) as Hle.
  { unfold b', TokenBucket.refill. simpl.
    destruct (f64_lt _ (f64_add _ _)) eqn:H; [apply f64_lt_irrefl|done]. }
  destruct (f64_le (f64_of_Z n) (TokenBucket.tokens b')) eqn:Htake.
  { rewrite (f64_lt_le_trans _ _ _ Hn Htake) in Hle. done. }
  rewrite Hctx. apply IH. by rewrite Hcap.
Qed.

Lemma take_wait_over_capacity_witness :
  let b := TokenBucket.NewTokenBucket 0 (TokenBucket.MkBucketConfig 10 (f64_of_Z 100) 0) in
  TokenBucket.waitTime 11 b = 0 /\
  TokenBucket.TakeWait 1000 (λ i, Z.of_nat i * second) (λ _, @None string) 0 11 b = None.
Proof.
  intros b. split; [vm_compute; reflexivity|].
  apply (take_wait_over_capacity 1000 _ (λ _, @None string) 11 b); [vm_compute; reflexivity|].
  reflexivity.
Defined.

(** [AdjustRate] keeps the rate between [minRate] and [maxRate], whatever the
    measurements (NaN included), and when both the error rate and the latency are
    high the reduction is the latency's 5%, not the error rate's 10%. *)
Theorem adaptive_rate_clamped {L} `{!RateLimiterOps L} (a : AdaptiveRateLimiter L)
    errorRate latency :
  f64_lt (maxRate a) (minRate a) = false ->
  let a' := AdjustRate errorRate latency a in
  (f64_lt (currentRate a') (minRate a') = false /\
   f64_lt (maxRate a') (currentRate a') = false) /\
  (f64_lt (f64_const 1 10) errorRate = true -> f64_lt (f64_of_Z 1) latency = true ->
   f64_lt errorRate (f64_const 1 100) = false ->
   proposed_rate errorRate latency (currentRate a)
     = f64_mul (currentRate a) (f64_const 95 100)).
Proof.
  intros Hb a'. split.
  - unfold a', AdjustRate. set (x := clamp _ _ _).
    destruct (clamp_range (minRate a) (maxRate a)
                (proposed_rate errorRate latency (currentRate a)) Hb) as [H1 H2]. fold x in H1, H2.
    destruct (f64_eq x (currentRate a)) eqn:Heq; simpl; [|done].
    by rewrite <-(f64_eq_lt_l _ _ _ Heq), <-(f64_eq_lt_r _ _ _ Heq).
  - intros He Hl Hlow. unfold proposed_rate. by rewrite Hlow, Hl.
Qed.

#[local] Instance counter_limiter : RateLimiterOps (float64 * Z) := {
  NewLimiter r b := (r, b);
  limiter_AllowN _ n l := (n <=? snd l, if n <=? snd l then (fst l, snd l - n) else l);
  SetLimit r l := (r, snd l);
}.

Lemma adaptive_rate_clamped_witness :
  let a := NewAdaptiveRateLimiter
             (MkAdaptiveConfig (f64_of_Z 100) (f64_of_Z 99) (f64_of_Z 200) 50 second) in
  let a' := AdjustRate (f64_const 5 10) (f64_of_Z 3) a in
  currentRate a' = f64_of_Z 99 /\
  ((f64_lt (currentRate a') (minRate a') = false /\
    f64_lt (maxRate a') (currentRate a') = false) /\
   (f64_lt (f64_const 1 10) (f64_const 5 10) = true -> f64_lt (f64_of_Z 1) (f64_of_Z 3) = true ->
    f64_lt (f64_const 5 10) (f64_const 1 100) = false ->
    proposed_rate (f64_const 5 10) (f64_of_Z 3) (currentRate a)
      = f64_mul (currentRate a) (f64_const 95 100))).
Proof.
  intros a. split; [vm_compute; reflexivity|].
  apply (adaptive_rate_clamped a (f64_const 5 10) (f64_of_Z 3)). vm_compute. reflexivity.
Defined.
