(* ===== verification/Bulkhead.v ===== *)
(** * Bulkhead: [pkg/resilience/bulkhead.go]

    A bulkhead is shared by the goroutines that call [Execute], by the queue
    processor and by the goroutines it starts.  [step] is one atomic action of one of
    them: a channel operation, an atomic counter update next to it, or the branch a
    [select] takes; a run is a list of events.  An action that would block has no
    successor ([Blocked]), and a send on a closed channel is [Panic].  Operations'
    results and metrics are left out.  Each call of [Execute] has its own number. *)

From stdpp Require Import base decidable gmap strings list.
From Stdlib Require Import ZArith Lia.
From S2P Require Import Prelude Pool GoFloat RateLimiter.

Local Open Scope Z_scope.

Record BulkheadConfig := MkBulkheadConfig {
  MaxConcurrentCalls : Z;
  MaxQueueDepth : Z;
  QueueTimeout : Z;
  RateLimitConfig : option RateLimiterConfig;
  EnableBackpressure : bool;
}.

(** What a call of [Execute] returns. *)
Inductive response :=
| ErrClosed
| ErrRateLimited
| ErrBulkheadFull
| ErrBulkheadQueueFull
| ErrBulkheadContextCanceled
| ErrBulkheadTimeout
| ErrCtx
| Completed.

(** Where a goroutine inside [Execute] is. *)
Inductive caller :=
| Entered              (* before the [select] on the semaphore *)
| Direct               (* in [executeWithResource] *)
| Unavailable          (* in [handleResourceUnavailable], before the send *)
| Sent                 (* sent to the queue, [queuedRequests] not yet counted *)
| Waiting.             (* in the [select] on the result *)

(** Where an execution of an operation is, in [executeWithResource]. *)
Inductive runner :=
| Acquired             (* holds a slot *)
| Running              (* [activeRequests] counted, operation running *)
| Finished             (* [completedRequests] counted *)
| Released.            (* slot given back, [activeRequests] not yet *)

Record Bulkhead := MkBulkhead {
  config : BulkheadConfig;
  semaphore : Z;
  queue : list nat;
  queue_closed : bool;
  processor : option nat;
  rateLimiter : option RateLimiter;
  activeRequests : Z;
  queuedRequests : Z;
  totalRequests : Z;
  rejectedRequests : Z;
  completedRequests : Z;
  timedOutRequests : Z;
  closed : bool;
  next : nat;
  callers : gmap nat caller;
  runners : gmap nat runner;
  results : gmap nat response;
  responses : gmap nat response;
}.

Definition apply_defaults (c : BulkheadConfig) : BulkheadConfig :=
  MkBulkheadConfig
    (if MaxConcurrentCalls c <=? 0 then 10 else MaxConcurrentCalls c)
    (if MaxQueueDepth c <? 0 then 0 else MaxQueueDepth c)
    (if QueueTimeout c <=? 0 then 30 * second else QueueTimeout c)
    (RateLimitConfig c) (EnableBackpressure c).

Definition NewBulkhead (now : Z) (name : string) (c : BulkheadConfig) : Bulkhead :=
  MkBulkhead (apply_defaults c) 0 [] false None
    (NewRateLimiter now name <$> RateLimitConfig c) 0 0 0 0 0 0 false 0 ∅ ∅ ∅ ∅.

(** *** Field updates *)

Definition set_semaphore (x : Z) (b : Bulkhead) : Bulkhead :=
  MkBulkhead (config b) x (queue b) (queue_closed b) (processor b) (rateLimiter b)
    (activeRequests b) (queuedRequests b) (totalRequests b) (rejectedRequests b)
    (completedRequests b) (timedOutRequests b) (closed b) (next b) (callers b) (runners b)
    (results b) (responses b).
Definition set_queue (q : list nat) (p : option nat) (b : Bulkhead) : Bulkhead :=
  MkBulkhead (config b) (semaphore b) q (queue_closed b) p (rateLimiter b)
    (activeRequests b) (queuedRequests b) (totalRequests b) (rejectedRequests b)
    (completedRequests b) (timedOutRequests b) (closed b) (next b) (callers b) (runners b)
    (results b) (responses b).
Definition set_limiter (l : option RateLimiter) (b : Bulkhead) : Bulkhead :=
  MkBulkhead (config b) (semaphore b) (queue b) (queue_closed b) (processor b) l
    (activeRequests b) (queuedRequests b) (totalRequests b) (rejectedRequests b)
    (completedRequests b) (timedOutRequests b) (closed b) (next b) (callers b) (runners b)
    (results b) (responses b).
(** Adds to the six counters, in the order of the record. *)
Definition count (act que tot rej com tim : Z) (b : Bulkhead) : Bulkhead :=
  MkBulkhead (config b) (semaphore b) (queue b) (queue_closed b) (processor b) (rateLimiter b)
    (activeRequests b + act) (queuedRequests b + que) (totalRequests b + tot)
    (rejectedRequests b + rej) (completedRequests b + com) (timedOutRequests b + tim)
    (closed b) (next b) (callers b) (runners b) (results b) (responses b).
Definition close_flags (q : bool) (b : Bulkhead) : Bulkhead :=
  MkBulkhead (config b) (semaphore b) (queue b) q (processor b) (rateLimiter b)
    (activeRequests b) (queuedRequests b) (totalRequests b) (rejectedRequests b)
    (completedRequests b) (timedOutRequests b) true (next b) (callers b) (runners b)
    (results b) (responses b).
Definition set_next (n : nat) (b : Bulkhead) : Bulkhead :=
  MkBulkhead (config b) (semaphore b) (queue b) (queue_closed b) (processor b) (rateLimiter b)
    (activeRequests b) (queuedRequests b) (totalRequests b) (rejectedRequests b)
    (completedRequests b) (timedOutRequests b) (closed b) n (callers b) (runners b)
    (results b) (responses b).
Definition set_callers (m : gmap nat caller) (b : Bulkhead) : Bulkhead :=
  MkBulkhead (config b) (semaphore b) (queue b) (queue_closed b) (processor b) (rateLimiter b)
    (activeRequests b) (queuedRequests b) (totalRequests b) (rejectedRequests b)
    (completedRequests b) (timedOutRequests b) (closed b) (next b) m (runners b)
    (results b) (responses b).
Definition set_runners (m : gmap nat runner) (b : Bulkhead) : Bulkhead :=
  MkBulkhead (config b) (semaphore b) (queue b) (queue_closed b) (processor b) (rateLimiter b)
    (activeRequests b) (queuedRequests b) (totalRequests b) (rejectedRequests b)
    (completedRequests b) (timedOutRequests b) (closed b) (next b) (callers b) m
    (results b) (responses b).
Definition set_results (m r : gmap nat response) (b : Bulkhead) : Bulkhead :=
  MkBulkhead (config b) (semaphore b) (queue b) (queue_closed b) (processor b) (rateLimiter b)
    (activeRequests b) (queuedRequests b) (totalRequests b) (rejectedRequests b)
    (completedRequests b) (timedOutRequests b) (closed b) (next b) (callers b) (runners b)
    m r.

Definition at_caller (id : nat) (s : caller) (b : Bulkhead) : Bulkhead :=
  set_callers (<[id := s]> (callers b)) b.
Definition at_runner (id : nat) (s : runner) (b : Bulkhead) : Bulkhead :=
  set_runners (<[id := s]> (runners b)) b.

(** [Execute] of call [id] returns [r]. *)
Definition respond (id : nat) (r : response) (b : Bulkhead) : Bulkhead :=
  set_results (results b) (<[id := r]> (responses b)) (set_callers (delete id (callers b)) b).

Inductive outcome :=
| Blocked
| Panic
| Next (b : Bulkhead).

Inductive event :=
| EEnter (now : Z)          (* [Execute] up to the first [select] *)
| EAcquire (id : nat)       (* that [select] *)
| EStart (id : nat) | EComplete (id : nat) | ERelease (id : nat) | EDrop (id : nat)
| ESend (id : nat)          (* the send on the queue, or backpressure *)
| ECancelSend (id : nat)    (* [ctx.Done()] while the send blocks *)
| ECount (id : nat)         (* [queuedRequests.Add(1)] *)
| EDeliver (id : nat) | ETimeout (id : nat) | ECancelWait (id : nat)
| EDequeue | EProcAcquire | EProcCancel
| EClose.

(** [Execute]: the closed test, the total and the rate limit. *)
Definition enter (now : Z) (b : Bulkhead) : Bulkhead :=
  let id := next b in
  let b := set_next (S id) b in
  if closed b then respond id ErrClosed b
  else
    let b := count 0 0 1 0 0 0 b in
    match rateLimiter b with
    | Some rl =>
        let '(ok, rl) := Allow now rl in
        let b := set_limiter (Some rl) b in
        if ok then at_caller id Entered b
        else respond id ErrRateLimited (count 0 0 0 1 0 0 b)
    | None => at_caller id Entered b
    end.

(** The [select] with [default], and the test that opens
    [handleResourceUnavailable]. *)
Definition acquire (id : nat) (b : Bulkhead) : Bulkhead :=
  if semaphore b <? MaxConcurrentCalls (config b)
  then at_runner id Acquired (at_caller id Direct (set_semaphore (semaphore b + 1) b))
  else if MaxQueueDepth (config b) =? 0
  then respond id ErrBulkheadFull (count 0 0 0 1 0 0 b)
  else at_caller id Unavailable b.

Definition send (id : nat) (b : Bulkhead) : outcome :=
  if queue_closed b then Panic
  else if Z.of_nat (length (queue b)) <? MaxQueueDepth (config b)
  then Next (at_caller id Sent (set_queue (queue b ++ [id]) (processor b) b))
  else if EnableBackpressure (config b)
  then Next (respond id ErrBulkheadQueueFull (count 0 0 0 1 0 0 b))
  else Blocked.

(** The end of [executeWithResource]: the caller returns, or the result is sent. *)
Definition drop (id : nat) (b : Bulkhead) : Bulkhead :=
  let b := count (-1) 0 0 0 0 0 (set_runners (delete id (runners b)) b) in
  match callers b !! id with
  | Some Direct => respond id Completed b
  | _ => set_results (<[id := Completed]> (results b)) (responses b) b
  end.

Definition step (e : event) (b : Bulkhead) : outcome :=
  match e with
  | EEnter now => Next (enter now b)
  | EAcquire id =>
      match callers b !! id with Some Entered => Next (acquire id b) | _ => Blocked end
  | EStart id =>
      match runners b !! id with
      | Some Acquired => Next (count 1 0 0 0 0 0 (at_runner id Running b))
      | _ => Blocked
      end
  | EComplete id =>
      match runners b !! id with
      | Some Running => Next (count 0 0 0 0 1 0 (at_runner id Finished b))
      | _ => Blocked
      end
  | ERelease id =>
      match runners b !! id with
      | Some Finished => Next (set_semaphore (semaphore b - 1) (at_runner id Released b))
      | _ => Blocked
      end
  | EDrop id =>
      match runners b !! id with Some Released => Next (drop id b) | _ => Blocked end
  | ESend id =>
      match callers b !! id with Some Unavailable => send id b | _ => Blocked end
  | ECancelSend id =>
      match callers b !! id with
      | Some Unavailable =>
          if EnableBackpressure (config b) then Blocked
          else Next (respond id ErrBulkheadContextCanceled (count 0 0 0 1 0 0 b))
      | _ => Blocked
      end
  | ECount id =>
      match callers b !! id with
      | Some Sent => Next (at_caller id Waiting (count 0 1 0 0 0 0 b))
      | _ => Blocked
      end
  | EDeliver id =>
      match callers b !! id, results b !! id with
      | Some Waiting, Some r => Next (respond id r b)
      | _, _ => Blocked
      end
  | ETimeout id =>
      match callers b !! id with
      | Some Waiting => Next (respond id ErrBulkheadTimeout (count 0 0 0 0 0 1 b))
      | _ => Blocked
      end
  | ECancelWait id =>
      match callers b !! id with
      | Some Waiting => Next (respond id ErrCtx (count 0 0 0 1 0 0 b))
      | _ => Blocked
      end
  | EDequeue =>
      match processor b, queue b with
      | None, id :: q => Next (set_queue q (Some id) b)
      | _, _ => Blocked
      end
  | EProcAcquire =>
      match processor b with
      | Some id =>
          if semaphore b <? MaxConcurrentCalls (config b)
          then Next (at_runner id Acquired (count 0 (-1) 0 0 0 0
                 (set_semaphore (semaphore b + 1) (set_queue (queue b) None b))))
          else Blocked
      | None => Blocked
      end
  | EProcCancel =>
      match processor b with
      | Some id =>
          Next (set_results (<[id := ErrBulkheadContextCanceled]> (results b)) (responses b)
            (count 0 (-1) 0 1 0 0 (set_queue (queue b) None b)))
      | None => Blocked
      end
  | EClose =>
      if closed b then Next b
      else Next (close_flags (0 <? MaxQueueDepth (config b)) b)
  end.

Fixpoint run (es : list event) (b : Bulkhead) : outcome :=
  match es with
  | [] => Next b
  | e :: es => match step e b with Next b => run es b | r => r end
  end.

Record BulkheadStats := MkStats {
  ActiveRequests : Z;
  QueuedRequests : Z;
  TotalRequests : Z;
  RejectedRequests : Z;
  CompletedRequests : Z;
  TimedOutRequests : Z;
  MaxConcurrent : Z;
  stats_MaxQueueDepth : Z;
}.

Definition GetStats (b : Bulkhead) : BulkheadStats :=
  MkStats (activeRequests b) (queuedRequests b) (totalRequests b) (rejectedRequests b)
    (completedRequests b) (timedOutRequests b) (MaxConcurrentCalls (config b))
    (MaxQueueDepth (config b)).

(** ** The manager *)

Record BulkheadManager := MkBulkheadManager {
  bulkheads : pool Bulkhead;
  configs : gmap string BulkheadConfig;
}.

(** [l]: the order of [range defaultConfigs]. *)
Definition NewBulkheadManager (now : Z) (l : list (string * BulkheadConfig)) : BulkheadManager :=
  MkBulkheadManager (bind_all (NewBulkhead now) l) (list_to_map l).

Definition defaultConfig : BulkheadConfig := MkBulkheadConfig 10 100 (30 * second) None true.

Definition GetBulkhead (now : Z) (name : string) (m : BulkheadManager) : nat * BulkheadManager :=
  let c := default defaultConfig (configs m !! name) in
  let '(a, p) := bind_unless_bound name (NewBulkhead now name c) (bulkheads m) in
  (a, MkBulkheadManager p (configs m)).

Definition GetAllStats (m : BulkheadManager) : gmap string BulkheadStats :=
  GetStats <$> view (bulkheads m).

Definition DefaultBulkheadConfigs : gmap string BulkheadConfig :=
  let limit n f := Some (MkLimit n minute f) in
  list_to_map [
    ("github_api", MkBulkheadConfig 50 200 (60 * second) (limit 100 2) true);
    ("harness_api", MkBulkheadConfig 30 100 (45 * second) (limit 50 2) true);
    ("database", MkBulkheadConfig 100 500 (10 * second) None true);
    ("cache", MkBulkheadConfig 200 1000 (5 * second) None true);
    ("agent_execution", MkBulkheadConfig 20 50 (120 * second) (limit 30 1) true);
    ("workflow_execution", MkBulkheadConfig 15 30 (180 * second) (limit 20 1) true)
  ].

(** ** Invariant *)

Definition pending (b : Bulkhead) : list nat := option_list (processor b) ++ queue b.

(** A call is in one place: not yet queued, queued, or running. *)
Record ids_ok (b : Bulkhead) : Prop := {
  ids_next : forall id, (next b <= id)%nat ->
    callers b !! id = None /\ runners b !! id = None /\ id ∉ pending b;
  ids_pending : NoDup (pending b);
  ids_waiting : forall id, id ∈ pending b -> runners b !! id = None;
  ids_entered : forall id,
    callers b !! id = Some Entered \/ callers b !! id = Some Unavailable ->
    runners b !! id = None /\ id ∉ pending b;
}.

Definition holds (s : runner) : Z := match s with Released => 0 | _ => 1 end.
Definition active (s : runner) : Z := match s with Acquired => 0 | _ => 1 end.
Definition executing (s : runner) : Z := match s with Running => 1 | _ => 0 end.
Definition uncounted (s : caller) : Z := match s with Sent => 1 | _ => 0 end.

Record counts_ok (b : Bulkhead) : Prop := {
  cnt_config : 0 < MaxConcurrentCalls (config b) /\ 0 <= MaxQueueDepth (config b);
  cnt_semaphore : semaphore b = map_weight holds (runners b);
  cnt_capacity : semaphore b <= MaxConcurrentCalls (config b);
  cnt_active : activeRequests b = map_weight active (runners b);
  cnt_queue : Z.of_nat (length (queue b)) <= MaxQueueDepth (config b);
  cnt_queued : queuedRequests b
    = Z.of_nat (length (pending b)) - map_weight uncounted (callers b);
}.

Lemma new_ids_ok now n c : ids_ok (NewBulkhead now n c).
Proof.
  split; unfold pending; simpl; intros; rewrite ?lookup_empty in *;
    [split_and!; try done; apply not_elem_of_nil|by apply NoDup_nil|done|].
  naive_solver.
Qed.

Lemma new_counts_ok now n c : counts_ok (NewBulkhead now n c).
Proof. split; simpl; rewrite ?map_weight_empty; bool_cases; lia. Qed.

(** The record's fields after an update, and the case split on what [id] was. *)
Ltac lookups :=
  repeat match goal with
  | H : context [<[?i := _]> _ !! ?j] |- _ =>
      destruct (decide (i = j)) as [<-|?];
      [rewrite lookup_insert_eq in H|rewrite lookup_insert_ne in H by done]
  | H : context [delete ?i _ !! ?j] |- _ =>
      destruct (decide (i = j)) as [<-|?];
      [rewrite lookup_delete_eq in H|rewrite lookup_delete_ne in H by done]
  end.

Lemma ids_caller b id s :
  ids_ok b -> (id < next b)%nat ->
  (s = Entered \/ s = Unavailable -> runners b !! id = None /\ id ∉ pending b) ->
  ids_ok (at_caller id s b).
Proof.
  intros [H1 H2 H3 H4] Hlt Hs. split; simpl; try done.
  - intros j Hj. rewrite lookup_insert_ne by lia. by apply H1.
  - intros j Hj. lookups; [naive_solver|by apply H4].
Qed.

Lemma ids_respond b id r : ids_ok b -> ids_ok (respond id r b).
Proof.
  intros [H1 H2 H3 H4]. split; simpl; try done.
  - intros j Hj. destruct (H1 j Hj) as (? & ? & ?). split; [|done].
    rewrite lookup_delete. by case_decide.
  - intros j Hj. lookups; [naive_solver|by apply H4].
Qed.

(** A runner of a known call changes state. *)
Lemma ids_runner b id s s' : ids_ok b -> runners b !! id = Some s -> ids_ok (at_runner id s' b).
Proof.
  intros [H1 H2 H3 H4] Hs. split; simpl; try done.
  - intros j Hj. destruct (H1 j Hj) as (? & ? & ?). rewrite lookup_insert_ne; congruence || done.
  - intros j Hj. rewrite lookup_insert_ne; [by apply H3|]. intros ->.
    rewrite H3 in Hs by done. done.
  - intros j Hj. destruct (H4 j Hj). rewrite lookup_insert_ne; [done|]. congruence.
Qed.

Lemma ids_caller_lt b id s : ids_ok b -> callers b !! id = Some s -> (id < next b)%nat.
Proof.
  intros [H1 _ _ _] Hs. apply Nat.lt_nge. intros Hle. destruct (H1 id Hle). congruence.
Qed.

Lemma ids_runner_gone b id : ids_ok b -> ids_ok (set_runners (delete id (runners b)) b).
Proof.
  intros [H1 H2 H3 H4]. split; simpl; try done; intros j Hj.
  - destruct (H1 j Hj) as (? & ? & ?). rewrite lookup_delete. by case_decide.
  - rewrite lookup_delete. case_decide; auto.
  - destruct (H4 j Hj). rewrite lookup_delete. by case_decide.
Qed.

(** Counters and results do not matter. *)
Lemma ids_same b b' :
  next b' = next b -> callers b' = callers b -> runners b' = runners b ->
  pending b' = pending b -> ids_ok b -> ids_ok b'.
Proof. intros Hn Hc Hr Hp [H1 H2 H3 H4]. split; by rewrite ?Hn, ?Hc, ?Hr, ?Hp. Qed.

Lemma ids_enter now b : ids_ok b -> ids_ok (enter now b).
Proof.
  intros Hok. pose proof Hok as [H1 H2 H3 H4].
  assert (ids_ok (set_next (S (next b)) b)) as Hn.
  { split; simpl; try done. intros j Hj. apply H1. lia. }
  assert (forall b', callers b' = callers b -> runners b' = runners b ->
            pending b' = pending b -> next b' = S (next b) ->
            ids_ok b' /\ ids_ok (at_caller (next b) Entered b')) as Hin.
  { intros b' Hc Hr Hp Hnx. assert (ids_ok b') as Hok' by (by eapply ids_same; [..|exact Hn]).
    split; [done|]. apply ids_caller; [done|lia|].
    intros _. rewrite Hr, Hp. destruct (H1 (next b)) as (? & ? & ?); done. }
  unfold enter. destruct (closed _); [by apply ids_respond|].
  destruct (rateLimiter _) as [rl|]; [|by apply Hin].
  simpl. destruct (Allow now rl) as [[] rl']; [by apply Hin|].
  apply ids_respond. by apply Hin.
Qed.

Lemma ids_pending_runner b id b' :
  ids_ok b -> next b' = next b -> callers b' = callers b ->
  runners b' = <[id := Acquired]> (runners b) ->
  (forall j, j ∈ pending b' -> j ∈ pending b /\ j ≠ id) -> NoDup (pending b') ->
  (id < next b)%nat ->
  (callers b !! id = Some Entered \/ callers b !! id = Some Unavailable -> False) ->
  ids_ok b'.
Proof.
  intros [H1 H2 H3 H4] Hn Hc Hr Hp Hnd Hlt Hno.
  split; rewrite ?Hn, ?Hc, ?Hr; try done.
  - intros j Hj. destruct (H1 j Hj) as (? & ? & ?).
    rewrite lookup_insert_ne by lia. split_and!; try done. intros [? _]%Hp. done.
  - intros j [Hj Hne]%Hp. rewrite lookup_insert_ne by done. by apply H3.
  - intros j Hj. destruct (H4 j Hj). rewrite lookup_insert_ne.
    + split; [done|]. intros [? _]%Hp. done.
    + intros ->. by apply Hno.
Qed.

(** [callers], [runners] and [pending] unchanged but for the call's own entries. *)
Lemma ids_acquire b id : ids_ok b -> callers b !! id = Some Entered -> ids_ok (acquire id b).
Proof.
  intros Hok Hid. pose proof (ids_caller_lt _ _ _ Hok Hid) as Hlt.
  destruct (ids_entered _ Hok id) as [Hr Hp]; [by left|].
  unfold acquire. destruct (_ <? _); [|destruct (_ =? _)].
  - apply (ids_pending_runner (at_caller id Direct b) id); simpl; try done.
    + apply ids_caller; [done|done|]. intros [?|?]; discriminate.
    + intros j Hj. split; [done|]. intros ->. done.
    + exact (ids_pending b Hok).
    + rewrite lookup_insert_eq. intros [?|?]; discriminate.
  - apply ids_respond. by eapply ids_same; [..|exact Hok].
  - apply ids_caller; [done|done|]. done.
Qed.

Lemma ids_send b id b' :
  ids_ok b -> callers b !! id = Some Unavailable -> send id b = Next b' -> ids_ok b'.
Proof.
  intros Hok Hid. pose proof (ids_caller_lt _ _ _ Hok Hid) as Hlt.
  destruct (ids_entered _ Hok id) as [Hr Hp]; [by right|].
  unfold send. destruct (queue_closed b); [done|].
  destruct (_ <? _); [|destruct (EnableBackpressure _); [|done]]; intros [= <-].
  2: { apply ids_respond. by eapply ids_same; [..|exact Hok]. }
  destruct Hok as [H1 H2 H3 H4]. unfold pending in *.
  split; unfold pending; simpl; rewrite ?app_assoc.
  - intros j Hj. destruct (H1 j Hj) as (? & ? & ?). rewrite lookup_insert_ne by lia.
    split_and!; try done. rewrite elem_of_app, list_elem_of_singleton. intros [?|?]; [done|lia].
  - apply NoDup_app. split_and!; [done| |apply NoDup_singleton].
    intros j Hj ->%list_elem_of_singleton. done.
  - intros j. rewrite elem_of_app, list_elem_of_singleton. intros [?| ->]; auto.
  - intros j Hj. lookups; [naive_solver|]. destruct (H4 j Hj) as [? ?].
    split; [done|]. rewrite elem_of_app, list_elem_of_singleton. intros [?|?]; congruence.
Qed.

Lemma step_ids e b b' : ids_ok b -> step e b = Next b' -> ids_ok b'.
Proof.
  intros Hok. pose proof (ids_caller_lt b) as Hlt.
  destruct e as [now|id|id|id|id|id|id|id|id|id|id|id| | | |]; simpl.
  - intros [= <-]. by apply ids_enter.
  - destruct (callers b !! id) as [[]|] eqn:Hc; try done. intros [= <-]. by apply ids_acquire.
  - destruct (runners b !! id) as [[]|] eqn:Hr; try done. intros [= <-].
    eapply ids_same; [..|by eapply ids_runner]; done.
  - destruct (runners b !! id) as [[]|] eqn:Hr; try done. intros [= <-].
    eapply ids_same; [..|by eapply ids_runner]; done.
  - destruct (runners b !! id) as [[]|] eqn:Hr; try done. intros [= <-].
    eapply ids_same; [..|by eapply ids_runner]; done.
  - destruct (runners b !! id) as [[]|] eqn:Hr; try done. intros [= <-].
    pose proof (ids_runner_gone b id Hok) as Hgone. unfold drop. simpl.
    destruct (callers b !! id) as [[]|]; [|apply ids_respond|..];
      by (eapply ids_same; [..|exact Hgone]).
  - destruct (callers b !! id) as [[]|] eqn:Hc; try done. by apply ids_send.
  - destruct (callers b !! id) as [[]|] eqn:Hc; try done.
    destruct (EnableBackpressure _); [done|]. intros [= <-].
    apply ids_respond. by eapply ids_same; [..|exact Hok].
  - destruct (callers b !! id) as [[]|] eqn:Hc; try done. intros [= <-].
    apply ids_caller; [by eapply ids_same; [..|exact Hok]|by eapply Hlt|].
    intros [?|?]; discriminate.
  - destruct (callers b !! id) as [[]|] eqn:Hc; try done.
    destruct (results b !! id); [|done]. intros [= <-]. by apply ids_respond.
  - destruct (callers b !! id) as [[]|] eqn:Hc; try done. intros [= <-].
    apply ids_respond. by eapply ids_same; [..|exact Hok].
  - destruct (callers b !! id) as [[]|] eqn:Hc; try done. intros [= <-].
    apply ids_respond. by eapply ids_same; [..|exact Hok].
  - destruct (processor b) eqn:Hp, (queue b) eqn:Hq; try done. intros [= <-].
    eapply ids_same; [..|exact Hok]; try done. unfold pending. simpl. by rewrite Hp, Hq.
  - destruct (processor b) as [id|] eqn:Hp; [|done].
    destruct (_ <? _); [|done]. intros [= <-].
    pose proof (ids_pending b Hok) as Hnd.
    assert (id ∈ pending b) as Hin by (unfold pending; rewrite Hp; simpl; constructor).
    unfold pending in Hnd. rewrite Hp in Hnd. apply NoDup_cons in Hnd as [Hni Hnd].
    apply (ids_pending_runner b id); simpl; try done.
    + unfold pending. simpl. rewrite Hp. simpl. intros j Hj. split; [by constructor|].
      by intros ->.
    + apply Nat.lt_nge. intros Hle. by destruct (ids_next b Hok id Hle) as (_ & _ & ?).
    + intros Hc. by destruct (ids_entered b Hok id Hc).
  - destruct (processor b) as [id|] eqn:Hp; [|done]. intros [= <-].
    destruct Hok as [H1 H2 H3 H4]. unfold pending in *. rewrite Hp in *. simpl in *.
    apply NoDup_cons in H2 as [_ H2].
    split; unfold pending; simpl; set_solver.
  - destruct (closed b); intros [= <-]; [done|]. by eapply ids_same; [..|exact Hok].
Qed.

(** *** Counters *)

Lemma weight_gone {A} (w : A -> Z) (m : gmap nat A) i x :
  m !! i = Some x -> map_weight w (delete i m) = map_weight w m - w x.
Proof. intros Hi. rewrite (map_weight_delete w m i x Hi). lia. Qed.

(** [respond] takes a caller that is not between its send and its count. *)
Lemma counts_respond b id r :
  (forall s, callers b !! id = Some s -> uncounted s = 0) ->
  counts_ok b -> counts_ok (respond id r b).
Proof.
  intros Hs [H1 H2 H3 H4 H5 H6]. split; simpl; try done.
  change (pending (respond id r b)) with (pending b). rewrite H6.
  destruct (callers b !! id) as [s|] eqn:Hid; [|by rewrite delete_id].
  rewrite (weight_gone _ _ _ _ Hid), (Hs s) by done. lia.
Qed.

Lemma counts_caller b id s s' :
  callers b !! id = s -> default 0 (uncounted <$> s) = uncounted s' ->
  counts_ok b -> counts_ok (at_caller id s' b).
Proof.
  intros Hid Hs [H1 H2 H3 H4 H5 H6]. split; simpl; try done.
  change (pending (at_caller id s' b)) with (pending b). rewrite H6.
  destruct s as [s|]; simpl in Hs.
  - rewrite (map_weight_update _ _ _ _ _ Hid). lia.
  - rewrite map_weight_insert by done. lia.
Qed.

(** The counters that [counts_ok] does not mention. *)
Lemma counts_count b tot rej com tim :
  counts_ok b -> counts_ok (count 0 0 tot rej com tim b).
Proof. intros [H1 H2 H3 H4 H5 H6]. split; simpl; try done; rewrite ?Z.add_0_r; done. Qed.

#[local] Hint Resolve counts_count : core.

Lemma counts_enter now b : ids_ok b -> counts_ok b -> counts_ok (enter now b).
Proof.
  intros Hids Hok.
  destruct (ids_next b Hids (next b)) as (Hc & _ & _); [lia|].
  assert (forall b', callers b' = callers b -> counts_ok b' ->
            counts_ok (at_caller (next b) Entered b') /\
            forall r, counts_ok (respond (next b) r b')) as Hin.
  { intros b' Hc' Hok'. split; [|intros r].
    - apply (counts_caller _ _ None); [by rewrite Hc'|done|done].
    - apply counts_respond; [|done]. intros s. rewrite Hc', Hc. done. }
  assert (counts_ok (set_next (S (next b)) b)) as Hn by (by destruct Hok).
  unfold enter. destruct (closed _); [by apply Hin|].
  destruct (rateLimiter _) as [rl|]; [|apply Hin; auto].
  destruct (Allow now rl) as [[] rl'].
  - apply Hin; [done|]. pose proof (counts_count _ 1 0 0 0 Hn) as H. by destruct H.
  - apply Hin; [done|]. apply counts_count.
    pose proof (counts_count _ 1 0 0 0 Hn) as H. by destruct H.
Qed.

(** A runner appears with a slot, or moves on. *)
Lemma counts_start b id b' :
  runners b !! id = None -> semaphore b < MaxConcurrentCalls (config b) ->
  config b' = config b -> semaphore b' = semaphore b + 1 ->
  runners b' = <[id := Acquired]> (runners b) -> activeRequests b' = activeRequests b ->
  queue b' = queue b ->
  queuedRequests b' = Z.of_nat (length (pending b')) - map_weight uncounted (callers b') ->
  counts_ok b -> counts_ok b'.
Proof.
  intros Hr Hlt Hcf Hs Hrn Ha Hq Hqd [H1 H2 H3 H4 H5 H6].
  split; rewrite ?Hcf, ?Hs, ?Hrn, ?Ha, ?Hq, ?map_weight_insert by done; simpl; done || lia.
Qed.

Lemma counts_runner b id s s' sem act com :
  runners b !! id = Some s ->
  sem = holds s' - holds s -> act = active s' - active s -> sem <= 0 ->
  counts_ok b ->
  counts_ok (count act 0 0 0 com 0 (set_semaphore (semaphore b + sem) (at_runner id s' b))).
Proof.
  intros Hr -> -> Hle [H1 H2 H3 H4 H5 H6].
  split; simpl; rewrite ?(map_weight_update _ _ _ _ _ Hr); try done; try lia.
  change (pending _) with (pending b). lia.
Qed.

Lemma counts_drop b id : runners b !! id = Some Released -> counts_ok b -> counts_ok (drop id b).
Proof.
  intros Hr Hok. unfold drop.
  assert (counts_ok (count (-1) 0 0 0 0 0 (set_runners (delete id (runners b)) b))) as Hgone.
  { destruct Hok as [H1 H2 H3 H4 H5 H6].
    split; simpl; rewrite ?(weight_gone _ _ _ _ Hr); simpl; try done; try lia.
    change (pending _) with (pending b). lia. }
  simpl. destruct (callers b !! id) as [[]|] eqn:Hc; try (by destruct Hgone).
  apply counts_respond; [|done]. simpl. intros s. rewrite Hc. by intros [= <-].
Qed.

Lemma counts_acquire b id :
  ids_ok b -> callers b !! id = Some Entered -> counts_ok b -> counts_ok (acquire id b).
Proof.
  intros Hids Hid Hok. destruct (ids_entered _ Hids id) as [Hr _]; [by left|].
  unfold acquire. destruct (Z.ltb_spec (semaphore b) (MaxConcurrentCalls (config b))).
  - pose proof (counts_caller b id _ Direct Hid eq_refl Hok) as Hd.
    apply (counts_start (at_caller id Direct b) id); try done.
    apply (cnt_queued _ Hd).
  - destruct (_ =? _); [|by apply (counts_caller _ _ _ _ Hid)].
    apply counts_respond; [|auto]. simpl. intros s. rewrite Hid. by intros [= <-].
Qed.

Lemma counts_send b id b' :
  callers b !! id = Some Unavailable -> send id b = Next b' -> counts_ok b -> counts_ok b'.
Proof.
  intros Hid. unfold send. destruct (queue_closed b); [done|].
  destruct (Z.ltb_spec (Z.of_nat (length (queue b))) (MaxQueueDepth (config b)));
    [|destruct (EnableBackpressure _); [|done]]; intros [= <-] Hok.
  - destruct Hok as [H1 H2 H3 H4 H5 H6]. split; unfold pending in *; simpl; try done.
    + rewrite length_app. simpl. lia.
    + rewrite (map_weight_update _ _ _ _ _ Hid), app_assoc, length_app. simpl. lia.
  - apply counts_respond; [|auto]. simpl. intros s. rewrite Hid. by intros [= <-].
Qed.

Lemma counts_proc b id :
  processor b = Some id -> runners b !! id = None ->
  semaphore b < MaxConcurrentCalls (config b) -> counts_ok b ->
  counts_ok (at_runner id Acquired (count 0 (-1) 0 0 0 0
    (set_semaphore (semaphore b + 1) (set_queue (queue b) None b)))).
Proof.
  intros Hp Hr Hlt Hok. pose proof (cnt_queued _ Hok) as Hq.
  apply (counts_start b id); simpl; try done; [lia|].
  rewrite Hq. unfold pending. rewrite Hp. simpl. lia.
Qed.

Lemma step_counts e b b' :
  ids_ok b -> step e b = Next b' -> counts_ok b -> counts_ok b'.
Proof.
  intros Hids. destruct e as [now|id|id|id|id|id|id|id|id|id|id|id| | | |]; simpl.
  - intros [= <-]. by apply counts_enter.
  - destruct (callers b !! id) as [[]|] eqn:Hc; try done. intros [= <-]. by apply counts_acquire.
  - destruct (runners b !! id) as [[]|] eqn:Hr; try done. intros [= <-] Hok.
    pose proof (counts_runner b id _ Running 0 1 0 Hr) as H. rewrite Z.add_0_r in H. by apply H.
  - destruct (runners b !! id) as [[]|] eqn:Hr; try done. intros [= <-] Hok.
    pose proof (counts_runner b id _ Finished 0 0 1 Hr) as H. rewrite Z.add_0_r in H. by apply H.
  - destruct (runners b !! id) as [[]|] eqn:Hr; try done. intros [= <-] Hok.
    pose proof (counts_runner b id _ Released (-1) 0 0 Hr eq_refl eq_refl ltac:(lia) Hok) as H.
    destruct H as [H1 H2 H3 H4 H5 H6]. simpl in *. rewrite Z.add_0_r in H4, H6. by split.
  - destruct (runners b !! id) as [[]|] eqn:Hr; try done. intros [= <-]. by apply counts_drop.
  - destruct (callers b !! id) as [[]|] eqn:Hc; try done. by apply counts_send.
  - destruct (callers b !! id) as [[]|] eqn:Hc; try done.
    destruct (EnableBackpressure _); [done|]. intros [= <-] Hok.
    apply counts_respond; [|auto]. simpl. intros s. rewrite Hc. by intros [= <-].
  - destruct (callers b !! id) as [[]|] eqn:Hc; try done. intros [= <-] [H1 H2 H3 H4 H5 H6].
    split; simpl; try done; [lia|].
    rewrite (map_weight_update _ _ _ _ _ Hc). change (pending _) with (pending b). simpl. lia.
  - destruct (callers b !! id) as [[]|] eqn:Hc; try done.
    destruct (results b !! id); [|done]. intros [= <-] Hok.
    apply counts_respond; [|done]. intros s. rewrite Hc. by intros [= <-].
  - destruct (callers b !! id) as [[]|] eqn:Hc; try done. intros [= <-] Hok.
    apply counts_respond; [|auto]. simpl. intros s. rewrite Hc. by intros [= <-].
  - destruct (callers b !! id) as [[]|] eqn:Hc; try done. intros [= <-] Hok.
    apply counts_respond; [|auto]. simpl. intros s. rewrite Hc. by intros [= <-].
  - destruct (processor b) eqn:Hp, (queue b) eqn:Hq; try done. intros [= <-] [H1 H2 H3 H4 H5 H6].
    unfold pending in *. rewrite Hp, Hq in *.
    split; unfold pending; simpl in *; try done; lia.
  - destruct (processor b) as [id|] eqn:Hp; [|done].
    destruct (Z.ltb_spec (semaphore b) (MaxConcurrentCalls (config b))); [|done].
    intros [= <-] Hok. apply counts_proc; try done.
    apply (ids_waiting _ Hids). unfold pending. rewrite Hp. simpl. constructor.
  - destruct (processor b) as [id|] eqn:Hp; [|done]. intros [= <-] [H1 H2 H3 H4 H5 H6].
    unfold pending in *. rewrite Hp in *. split; unfold pending; simpl in *; try done; lia.
  - destruct (closed b); intros [= <-] Hok; [done|]. by destruct Hok.
Qed.

Lemma run_ok es b b' :
  ids_ok b -> counts_ok b -> run es b = Next b' -> ids_ok b' /\ counts_ok b'.
Proof.
  revert b. induction es as [|e es IH]; intros b Hids Hok; simpl; [by intros [= <-]|].
  destruct (step e b) as [| |b1] eqn:Hs; [done..|].
  apply IH; [by eapply step_ids|by eapply step_counts].
Qed.

Lemma map_weight_le {A} (w v : A -> Z) (m : gmap nat A) :
  (forall x, w x <= v x) -> map_weight w m <= map_weight v m.
Proof.
  intros Hw. induction m as [|i x m Hi IH] using map_ind; [by rewrite !map_weight_empty|].
  rewrite !map_weight_insert by done. specialize (Hw x). lia.
Qed.

(** ** Properties *)

(** Resource isolation: however the goroutines interleave, at most
    [MaxConcurrentCalls] operations execute at once and at most [MaxQueueDepth] wait
    in the channel; the semaphore counts exactly the executions that hold a slot, and
    the gauge [queuedRequests] is the number of queued operations less those whose
    sender has not counted itself yet. *)
Theorem bulkhead_capacity now n c es b :
  run es (NewBulkhead now n c) = Next b ->
  map_weight executing (runners b) <= semaphore b <= MaxConcurrentCalls (config b) /\
  Z.of_nat (length (queue b)) <= MaxQueueDepth (config b) /\
  queuedRequests b = Z.of_nat (length (pending b)) - map_weight uncounted (callers b) /\
  activeRequests b = map_weight active (runners b).
Proof.
  intros Hrun.
  destruct (run_ok es _ b (new_ids_ok now n c) (new_counts_ok now n c) Hrun)
    as [_ [H1 H2 H3 H4 H5 H6]].
  split_and!; try done. rewrite H2. apply map_weight_le. by intros [].
Qed.

Definition small : BulkheadConfig := MkBulkheadConfig 1 2 second None true.

(** Two calls; the first one runs, the second is queued. *)
Definition one_queued : list event :=
  [EEnter 0; EAcquire 0; EStart 0; EEnter 0; EAcquire 1; ESend 1; ECount 1].

Lemma bulkhead_capacity_witness :
  exists b, run one_queued (NewBulkhead 0 "db" small) = Next b /\ queuedRequests b = 1 /\
  map_weight executing (runners b) <= semaphore b <= MaxConcurrentCalls (config b).
Proof.
  eexists. split; [vm_compute; reflexivity|]. split; [reflexivity|].
  eapply (bulkhead_capacity 0 "db" small one_queued). vm_compute. reflexivity.
Defined.

(** A queued call is not withdrawn when its caller gives up: after a timeout the
    operation still runs, and is counted both as timed out and as completed; after a
    cancellation the caller and the queue processor both count it, so one request
    makes two rejections. *)
Theorem bulkhead_abandoned_calls now n d t bp :
  0 < d ->
  let c := MkBulkheadConfig 1 d t None bp in
  (exists b, run (one_queued ++ [ETimeout 1; EComplete 0; ERelease 0; EDrop 0; EDequeue;
                                 EProcAcquire; EStart 1; EComplete 1])
               (NewBulkhead now n c) = Next b /\
     responses b !! 1%nat = Some ErrBulkheadTimeout /\
     (totalRequests b, timedOutRequests b, completedRequests b) = (2, 1, 2)) /\
  (exists b, run (one_queued ++ [ECancelWait 1; EDequeue; EProcCancel])
               (NewBulkhead now n c) = Next b /\
     (totalRequests b, rejectedRequests b, activeRequests b) = (2, 2, 1)).
Proof.
  intros Hd c. destruct d as [|p|p]; [lia| |lia].
  split; eexists; (split; [vm_compute; reflexivity|]); vm_compute; try split; reflexivity.
Qed.

Lemma bulkhead_abandoned_calls_witness :
  exists b, run (one_queued ++ [ECancelWait 1; EDequeue; EProcCancel])
              (NewBulkhead 0 "db" (MkBulkheadConfig 1 2 second None true)) = Next b /\
    (totalRequests b, rejectedRequests b, activeRequests b) = (2, 2, 1).
Proof. apply (bulkhead_abandoned_calls 0 "db" 2 second true). lia. Defined.

(** [Close] races with [Execute]: a call that passed the [closed] test before
    [Close] closed the queue sends on a closed channel, which panics. *)
Theorem bulkhead_close_panics now n d t bp :
  0 < d ->
  run [EEnter now; EAcquire 0; EEnter now; EAcquire 1; EClose; ESend 1]
    (NewBulkhead now n (MkBulkheadConfig 1 d t None bp)) = Panic.
Proof. intros Hd. destruct d as [|p|p]; [lia| |lia]. vm_compute. reflexivity. Qed.

Lemma bulkhead_close_panics_witness :
  run [EEnter 0; EAcquire 0; EEnter 0; EAcquire 1; EClose; ESend 1]
    (NewBulkhead 0 "db" small) = Panic.
Proof. apply (bulkhead_close_panics 0 "db" 2 second true). lia. Defined.
