(* ===== verification/MemCache.v ===== *)
(** * MemCache: the in-memory caches

    [pkg/common/cache/memory.go] ([Memory]) and
    [apps/edge-mcp/internal/cache/memory_cache.go] ([Edge]).  Each method holds the
    cache's mutex and is one step; [time.Now()] is an argument.  Go ranges over a map
    in any order, so the eviction loops take the order as an argument and the theorems
    hold for every order.  [CacheOps] is the [cache.Cache] interface as its clients
    use it. *)

From stdpp Require Import base decidable gmap strings list.
From Stdlib Require Import ZArith Lia.
From S2P Require Import Prelude.

Local Open Scope Z_scope.

(** ** The interface

    [Get] writes through a pointer: [Ok (Some v)] returns [nil] and stores [v],
    [Ok None] returns [nil] and leaves the target alone. *)
Class CacheOps (V C : Type) := {
  cache_Get : Z -> string -> C -> result string (option V);
  cache_Set : Z -> string -> V -> Z -> C -> result string unit * C;
  cache_Delete : Z -> string -> C -> result string unit * C;
}.

(** What clients expect of it: a value is there until it expires. *)
Class CacheLaws (V C : Type) `{!CacheOps V C} := {
  get_set t t' k v ttl c : 0 < ttl -> t' <= t + ttl ->
    cache_Get t' k (snd (cache_Set t k v ttl c)) = Ok (Some v);
  get_set_expired t t' k v ttl c : 0 < ttl -> t + ttl < t' ->
    is_ok (cache_Get t' k (snd (cache_Set t k v ttl c))) = false;
  get_set_ne t t' k k' v ttl c : k ≠ k' ->
    cache_Get t' k' (snd (cache_Set t k v ttl c)) = cache_Get t' k' c;
  get_delete t t' k c : is_ok (cache_Get t' k (snd (cache_Delete t k c))) = false;
  get_delete_ne t t' k k' c : k ≠ k' ->
    cache_Get t' k' (snd (cache_Delete t k c)) = cache_Get t' k' c;
}.

(** A TTL map without bound satisfies them. *)
Notation ttl_map V := (gmap string (V * Z)) (only parsing).

#[export] Instance ttl_map_ops V : CacheOps V (ttl_map V) := {
  cache_Get t k c :=
    match c !! k with
    | Some (v, e) => if time_after t e then Err "key expired"%string else Ok (Some v)
    | None => Err "key not found"%string
    end;
  cache_Set t k v ttl c := (Ok (), <[k := (v, t + ttl)]> c);
  cache_Delete t k c := (Ok (), delete k c);
}.

#[export] Instance ttl_map_laws V : CacheLaws V (ttl_map V).
Proof.

  split; intros; unfold cache_Get, cache_Set, cache_Delete, ttl_map_ops, snd, time_after.
  - rewrite lookup_insert_eq. bool_cases; done || lia.
  - rewrite lookup_insert_eq. bool_cases; done || lia.
  - by rewrite lookup_insert_ne.
  - by rewrite lookup_delete_eq.
  - by rewrite lookup_delete_ne.
Qed.

(** ** [pkg/common/cache]'s memory cache *)

Module Memory.

Record cacheItem (V : Type) := Item { value : V; expiration : Z }.
Arguments Item {V} value expiration.
Arguments value {V} c.
Arguments expiration {V} c.

Record MemoryCache (V : Type) := MkCache {
  items : gmap string (cacheItem V);
  maxItems : Z;
  defaultTTL : Z;
}.
Arguments MkCache {V} items maxItems defaultTTL.
Arguments items {V} m.
Arguments maxItems {V} m.
Arguments defaultTTL {V} m.

Section ops.
Context {V : Type}.
Implicit Types c : MemoryCache V.

Definition NewMemoryCache (maxItems defaultTTL : Z) : MemoryCache V :=
  MkCache ∅ maxItems defaultTTL.

(** [value] is never assigned: the result carries nothing. *)
Definition Get (now : Z) (key : string) c : result string (option V) :=
  match items c !! key with
  | None => Err "key not found"%string
  | Some item =>
      if time_after now (expiration item) then Err "key expired"%string else Ok None
  end.

(** One round of the loop in [evictOldest]: [""] stands for no key yet. *)
Definition older (acc : string * Z) (kv : string * cacheItem V) : string * Z :=
  let '(oldestKey, oldestTime) := acc in
  let '(key, item) := kv in
  if String.eqb oldestKey EmptyString || time_before (expiration item) oldestTime
  then (key, expiration item) else acc.

(** [l] is the order of [range c.items]. *)
Definition evictOldest (l : list (string * cacheItem V)) c : MemoryCache V :=
  let '(oldestKey, _) := foldl older (EmptyString, zero_time) l in
  if String.eqb oldestKey EmptyString then c
  else MkCache (delete oldestKey (items c)) (maxItems c) (defaultTTL c).

Definition Set_ (l : list (string * cacheItem V)) (now : Z) (key : string) (v : V)
    (ttl : Z) c : MemoryCache V :=
  let ttl := if ttl =? 0 then defaultTTL c else ttl in
  let c := if maxItems c <=? Z.of_nat (size (items c)) then evictOldest l c else c in
  MkCache (<[key := Item v (now + ttl)]> (items c)) (maxItems c) (defaultTTL c).

Definition Delete (key : string) c : MemoryCache V :=
  MkCache (delete key (items c)) (maxItems c) (defaultTTL c).

Definition Exists (now : Z) (key : string) c : bool :=
  match items c !! key with
  | None => false
  | Some item => negb (time_after now (expiration item))
  end.

Definition Flush c : MemoryCache V := MkCache ∅ (maxItems c) (defaultTTL c).

Definition Size c : Z := Z.of_nat (size (items c)).

(** *** The eviction loop *)

(** Once a key is chosen the loop keeps a key of the list with the least
    expiration seen. *)
Lemma older_fold l k t :
  k ≠ EmptyString -> Forall (λ kv, kv.1 ≠ EmptyString) l ->
  let '(k', t') := foldl older (k, t) l in
  k' ≠ EmptyString /\ t' <= t /\ Forall (λ kv, t' <= expiration kv.2) l /\
  ((k', t') = (k, t) \/ exists item, (k', item) ∈ l /\ expiration item = t').
Proof.
  revert k t. induction l as [|[k1 i1] l IH]; intros k t Hk Hl; simpl.
  { split_and!; try done; by left. }
  apply Forall_cons in Hl as [Hk1 Hl]. simpl in Hk1.
  rewrite (proj2 (String.eqb_neq k _) Hk). simpl. unfold time_before.
  destruct (Z.ltb_spec (expiration i1) t) as [Ht|Ht].
  - specialize (IH k1 (expiration i1) Hk1 Hl). destruct (foldl older _ l) as [k' t'].
    destruct IH as (H1 & H2 & H3 & H4). split_and!; [done|lia|by constructor|].
    right. destruct H4 as [[= -> ->]|(i & Hi & <-)].
    + exists i1. split; [constructor|done].
    + exists i. split; [by constructor|done].
  - specialize (IH k t Hk Hl). destruct (foldl older _ l) as [k' t'].
    destruct IH as (H1 & H2 & H3 & H4). split_and!; [done|lia|constructor; [simpl; lia|done]|].
    destruct H4 as [?|(i & Hi & <-)]; [by left|right].
    exists i. split; [by constructor|done].
Qed.

Definition no_empty_key c : Prop := items c !! EmptyString = None.

(** With a key to evict, [evictOldest] deletes one that expires first, whatever the
    order of the map. *)
Lemma evictOldest_spec l c :
  ranges l (items c) -> no_empty_key c -> items c ≠ ∅ ->
  exists k item, items c !! k = Some item /\
    (forall k' item', items c !! k' = Some item' -> expiration item <= expiration item') /\
    evictOldest l c = MkCache (delete k (items c)) (maxItems c) (defaultTTL c).
Proof.
  intros Hl Hne Hnil.
  assert (Forall (λ kv, kv.1 ≠ EmptyString) l) as Hkeys.
  { apply Forall_forall. intros [k i] Hin Hk. simpl in Hk. subst k.
    apply (ranges_elem l (items c)) in Hin; [|done]. unfold no_empty_key in Hne. congruence. }
  destruct l as [|[k i] l].
  { exfalso. apply Hnil, map_to_list_empty_iff. by apply Permutation_nil_l in Hl. }
  pose proof Hkeys as [Hk Hkeys']%Forall_cons. simpl in Hk.
  unfold evictOldest. simpl. pose proof (older_fold l k (expiration i) Hk Hkeys') as H.
  destruct (foldl older (k, expiration i) l) as [k' t']. destruct H as (H1 & H2 & H3 & H4).
  rewrite (proj2 (String.eqb_neq k' _) H1).
  assert (exists item, (k', item) ∈ (k, i) :: l /\ expiration item = t') as (item & Hin & <-).
  { destruct H4 as [[= -> ->]|(item & ? & ?)]; [exists i|exists item]; split; try done;
      by constructor. }
  exists k', item. split; [by apply (ranges_elem _ _ _ _ Hl)|]. split; [|done].
  intros k2 i2 Hi2. apply (ranges_elem _ _ _ _ Hl) in Hi2.
  apply elem_of_cons in Hi2 as [[= -> ->]|Hi2]; [done|].
  rewrite Forall_forall in H3. by apply (H3 (k2, i2)).
Qed.
End ops.

#[global] Instance memory_ops V : CacheOps V (MemoryCache V) := {
  cache_Get := Get;
  cache_Set t k v ttl c := (Ok (), Set_ (map_to_list (items c)) t k v ttl c);
  cache_Delete t k c := (Ok (), Delete k c);
}.

(** What a client sees of it: never a value, and a hit as long as the item lives. *)
Lemma get_nothing {V} t k (c : MemoryCache V) v : cache_Get t k c = Ok v -> v = None.
Proof.
  unfold cache_Get. simpl. unfold Get. destruct (items c !! k) as [item|]; [|done].
  destruct (time_after t (expiration item)); [done|]. by intros [= <-].
Qed.

Lemma set_get {V} t t' k (v : V) ttl (c : MemoryCache V) :
  0 < ttl -> t' <= t + ttl -> cache_Get t' k (cache_Set t k v ttl c).2 = Ok None.
Proof.
  intros Ht Hle. unfold cache_Get, cache_Set. simpl. unfold Get, Set_. simpl.
  rewrite lookup_insert_eq. simpl. unfold time_after.
  destruct (Z.eqb_spec ttl 0); [lia|]. destruct (Z.ltb_spec (t + ttl) t'); [lia|done].
Qed.

End Memory.

(** ** Caches that can be emptied *)

(** [Flush], and what its clients expect of it. *)
Class FlushOps (V C : Type) := { cache_Flush : C -> C }.
Class FlushLaws (V C : Type) `{!CacheOps V C, !FlushOps V C} := {
  get_flush t k c : is_ok (cache_Get (V := V) t k (cache_Flush c)) = false;
}.

#[export] Instance ttl_map_flush V : FlushOps V (ttl_map V) := {| cache_Flush _ := ∅ |}.
#[export] Instance ttl_map_flush_laws V : FlushLaws V (ttl_map V).
Proof. split. intros t k c. unfold cache_Get, cache_Flush. simpl. by rewrite lookup_empty. Qed.
#[export] Instance memory_flush V : FlushOps V (Memory.MemoryCache V) := {| cache_Flush := Memory.Flush |}.

(** ** The edge server's cache *)

Module Edge.

(** The dynamic values a client stores; [AOther] is any type the cache does not know,
    told apart by an identity. *)
Inductive any :=
| AString (s : string)
| AInt (n : Z)
| AMapString (m : gmap string string)
| AMapInt (m : gmap string Z)
| ABytes (b : list Z)
| AMapAny (id : nat)
| AOther (id : nat).

(** A [map[string]interface{}] that [Get] builds itself, or the stored one. *)
Inductive got :=
| GStored (v : any)
| GMap (m : gmap string any).

(** The static type of the pointer given to [Get]. *)
Inductive target := PMapAny | PMapString | PMapInt | PString | PBytes | PAny | POther.

Record cacheItem := Item { value : any; expiration : Z }.

Record MemoryCache := MkCache {
  items : gmap string cacheItem;
  maxItems : Z;
  defaultTTL : Z;
}.

Definition NewMemoryCache (maxItems defaultTTL : Z) : MemoryCache :=
  MkCache ∅ maxItems defaultTTL.

(** The type switch, the [*interface{}] case and the two conversions. *)
Definition convert (p : target) (v : any) : option got :=
  match p, v with
  | PMapAny, AMapAny _ | PMapString, AMapString _ | PMapInt, AMapInt _
  | PString, AString _ | PBytes, ABytes _ | PAny, _ => Some (GStored v)
  | PMapAny, AMapString m => Some (GMap (AString <$> m))
  | PMapAny, AMapInt m => Some (GMap (AInt <$> m))
  | _, _ => None
  end.

Definition Get (now : Z) (key : string) (p : target) (c : MemoryCache) : result string got :=
  match items c !! key with
  | None => Err "key not found"%string
  | Some item =>
      if time_after now (expiration item) then Err "key expired"%string
      else
        match convert p (value item) with
        | Some g => Ok g
        | None => Err "type mismatch for key"%string
        end
  end.

Definition expired (now : Z) (item : cacheItem) : bool := time_after now (expiration item).

(** The first loop of [Set]: delete the first expired key in the order [l]. *)
Fixpoint drop_expired (now : Z) (l : list (string * cacheItem)) (m : gmap string cacheItem)
  : gmap string cacheItem :=
  match l with
  | [] => m
  | (k, item) :: l => if expired now item then delete k m else drop_expired now l m
  end.

(** The second: delete the first key of the order [l']. *)
Definition drop_first (l' : list (string * cacheItem)) (m : gmap string cacheItem)
  : gmap string cacheItem :=
  match l' with [] => m | (k, _) :: _ => delete k m end.

(** [l] is the order of the first loop; [order] gives that of the second. *)
Definition Set_ (l : list (string * cacheItem))
    (order : gmap string cacheItem -> list (string * cacheItem))
    (now : Z) (key : string) (v : any) (ttl : Z) (c : MemoryCache) : MemoryCache :=
  let ttl := if ttl =? 0 then defaultTTL c else ttl in
  let m := items c in
  let m :=
    if (maxItems c <=? Z.of_nat (size m)) && bool_decide (m !! key = None) then
      let m := drop_expired now l m in
      if maxItems c <=? Z.of_nat (size m) then drop_first (order m) m else m
    else m in
  MkCache (<[key := Item v (now + ttl)]> m) (maxItems c) (defaultTTL c).

Definition Delete (key : string) (c : MemoryCache) : MemoryCache :=
  MkCache (delete key (items c)) (maxItems c) (defaultTTL c).

Definition Size (c : MemoryCache) : Z := Z.of_nat (size (items c)).

(** One tick of [cleanupExpired]. *)
Definition cleanup (now : Z) (c : MemoryCache) : MemoryCache :=
  MkCache (filter (λ kv, expired now kv.2 = false) (items c)) (maxItems c) (defaultTTL c).

Lemma drop_expired_cases now l m :
  ranges l m ->
  (drop_expired now l m = m /\ forall k item, m !! k = Some item -> expired now item = false) \/
  exists k item, m !! k = Some item /\ expired now item = true /\
    drop_expired now l m = delete k m.
Proof.
  intros Hl.
  assert (forall l', (forall kv, kv ∈ l' -> kv ∈ l) ->
    (drop_expired now l' m = m /\ Forall (λ kv, expired now kv.2 = false) l') \/
    exists k item, (k, item) ∈ l /\ expired now item = true /\
      drop_expired now l' m = delete k m) as H.
  { induction l' as [|[k item] l' IH]; intros Hsub; [left; done|]. simpl.
    destruct (expired now item) eqn:He.
    - right. exists k, item. split; [|done]. apply Hsub. constructor.
    - destruct IH as [[? ?]|?]; [|left|by right].
      + intros kv Hkv. apply Hsub. by constructor.
      + split; [done|]. by constructor. }
  destruct (H l) as [[H1 H2]|(k & item & Hin & He & Hd)]; [done| |].
  - left. split; [done|]. intros k item Hk. apply (ranges_elem l m) in Hk; [|done].
    rewrite Forall_forall in H2. by apply (H2 (k, item)).
  - right. exists k, item. split; [|done]. by apply (ranges_elem l m).
Qed.

Lemma drop_first_size order m :
  (forall m, ranges (order m) m) -> m ≠ ∅ ->
  size (drop_first (order m) m) = pred (size m).
Proof.
  intros Ho Hm. pose proof (Ho m) as Hl. destruct (order m) as [|[k x] l] eqn:Hom.
  { exfalso. apply Hm, map_to_list_empty_iff. by apply Permutation_nil_l in Hl. }
  simpl. rewrite map_size_delete.
  assert (m !! k = Some x) as -> by (apply (ranges_elem _ _ _ _ Hl); constructor). done.
Qed.

Lemma delete_size (m : gmap string cacheItem) k item :
  m !! k = Some item -> size (delete k m) = pred (size m) /\ (0 < size m)%nat.
Proof.
  intros Hk. rewrite map_size_delete, Hk. split; [done|].
  apply Nat.neq_0_lt_0. rewrite map_size_ne_0_lookup. by exists k, item.
Qed.

Lemma order_empty order :
  (forall m : gmap string cacheItem, ranges (order m) m) -> order ∅ = [].
Proof.
  intros Ho. pose proof (Ho ∅) as H. unfold ranges in H. rewrite map_to_list_empty in H.
  by apply Permutation_nil_r in H.
Qed.

(** What [Set] does before it stores: nothing, or it deletes one entry, an expired one
    if there is one. *)
Definition room (l : list (string * cacheItem))
    (order : gmap string cacheItem -> list (string * cacheItem))
    (now : Z) (key : string) (max : Z) (m : gmap string cacheItem) : gmap string cacheItem :=
  if (max <=? Z.of_nat (size m)) && bool_decide (m !! key = None) then
    let m := drop_expired now l m in
    if max <=? Z.of_nat (size m) then drop_first (order m) m else m
  else m.

Lemma room_cases l order now key max m :
  ranges l m -> (forall m, ranges (order m) m) -> Z.of_nat (size m) <= Z.max 1 max ->
  (room l order now key max m = m /\
   (Z.of_nat (size m) < max \/ is_Some (m !! key) \/ m = ∅)) \/
  exists k item, m !! k = Some item /\ m !! key = None /\ max <= Z.of_nat (size m) /\
    room l order now key max m = delete k m /\
    (expired now item = true \/
     forall k' item', m !! k' = Some item' -> expired now item' = false).
Proof.
  intros Hl Ho Hsz. unfold room.
  destruct (Z.leb_spec max (Z.of_nat (size m))) as [Hfull|Hfull]; simpl; [|left; auto].
  case_bool_decide as Hkey.
  2: { left. split; [done|]. right. left. by apply not_eq_None_Some. }
  destruct (drop_expired_cases now l m Hl) as [[-> Hnone]|(k & item & Hk & He & ->)].
  - rewrite (proj2 (Z.leb_le _ _) Hfull).
    destruct (order m) as [|[k item] l'] eqn:Hom.
    { left. split; [done|]. right. right. pose proof (Ho m) as H. rewrite Hom in H.
      apply Permutation_nil_l in H. by apply map_to_list_empty_iff. }
    assert (m !! k = Some item) as Hk by (apply (ranges_elem _ _ _ _ (Ho m)); rewrite Hom; constructor).
    right. exists k, item. split_and!; try done. by right.
  - destruct (delete_size m k item Hk) as [Hd Hp].
    right. exists k, item. split_and!; try done; [|by left].
    destruct (Z.leb_spec max (Z.of_nat (size (delete k m)))); [|done].
    assert (delete k m = ∅) as -> by (apply map_size_empty_iff; lia).
    by rewrite order_empty.
Qed.

End Edge.

(** ** Properties *)

(** [MemoryCache.Set] ([pkg/common/cache]): as long as no client uses the empty
    key, a full cache makes room by evicting an entry that expires first, whatever
    order Go ranges over the map in, and the size stays within [maxItems] (at least
    1).  The eviction does not look at the key being set: overwriting a key of a full
    cache evicts an entry too, possibly a different one, and then the cache shrinks. *)
Theorem memory_cache_set {V} l now key v ttl (c : Memory.MemoryCache V) :
  ranges l (Memory.items c) -> Memory.no_empty_key c ->
  0 < Memory.maxItems c -> Memory.Size c = Memory.maxItems c ->
  exists k item, Memory.items c !! k = Some item /\
    (forall k' item', Memory.items c !! k' = Some item' ->
       Memory.expiration item <= Memory.expiration item') /\
    let c' := Memory.Set_ l now key v ttl c in
    (forall k', k' ≠ key ->
       Memory.items c' !! k' = if decide (k = k') then None else Memory.items c !! k') /\
    Memory.Size c' = if decide (is_Some (Memory.items c !! key) /\ k ≠ key)
                     then Memory.maxItems c - 1 else Memory.maxItems c.
Proof.
  intros Hl Hne Hmax Hsz. unfold Memory.Size in *.
  destruct (Memory.evictOldest_spec l c Hl Hne) as (k & item & Hk & Hleast & Hev).
  { intros Hnil. rewrite Hnil, map_size_empty in Hsz. lia. }
  exists k, item. split; [done|]. split; [done|].
  unfold Memory.Set_. rewrite (proj2 (Z.leb_le _ _)), Hev by lia. simpl. split.
  - intros k' Hk'. by rewrite lookup_insert_ne, lookup_delete by done.
  - assert (size (delete k (Memory.items c)) = pred (size (Memory.items c)) /\
            (0 < size (Memory.items c))%nat) as [Hd Hp].
    { rewrite map_size_delete, Hk. split; [done|]. lia. }
    rewrite map_size_insert, Hd, lookup_delete.
    destruct (decide (k = key)) as [<-|Hn].
    + rewrite decide_False by naive_solver. simpl. lia.
    + destruct (Memory.items c !! key) as [x|] eqn:Hx.
      * rewrite decide_True by (split; [by eexists|done]). unfold id. lia.
      * rewrite decide_False; [lia|]. intros [[? ?] _]. done.
Qed.

Definition two_items : Memory.MemoryCache nat :=
  Memory.MkCache {["a" := Memory.Item 1%nat 10; "b" := Memory.Item 2%nat 20]} 2 second.

Lemma memory_cache_set_witness :
  Memory.Size (Memory.Set_ (map_to_list (Memory.items two_items)) 5 "b" 3%nat 30 two_items) = 1 /\
  exists k item, Memory.items two_items !! k = Some item /\
    (forall k' item', Memory.items two_items !! k' = Some item' ->
       Memory.expiration item <= Memory.expiration item').
Proof.
  split; [vm_compute; reflexivity|].
  destruct (memory_cache_set (map_to_list (Memory.items two_items)) 5 "b" 3%nat 30 two_items)
    as (k & item & Hk & Hleast & _);
    [apply ranges_refl|vm_compute; reflexivity|vm_compute; reflexivity|vm_compute; reflexivity|].
  exists k, item. split; [exact Hk|exact Hleast].
Defined.

(** [MemoryCache.Set] (edge server), in any order of its two loops: the stored value
    is what a [Get] of its own type returns until it expires; the size stays within
    [maxItems] (at least 1) if it was; at most one other entry goes, none when the key
    is already there or there is room, and an unexpired one only if no entry has
    expired. *)
Theorem edge_cache_set l order now key v ttl c :
  ranges l (Edge.items c) -> (forall m, ranges (order m) m) ->
  Edge.Size c <= Z.max 1 (Edge.maxItems c) ->
  let c' := Edge.Set_ l order now key v ttl c in
  Edge.items c' !! key
    = Some (Edge.Item v (now + if ttl =? 0 then Edge.defaultTTL c else ttl)) /\
  Edge.Size c' <= Z.max 1 (Edge.maxItems c) /\
  (is_Some (Edge.items c !! key) \/ Edge.Size c < Edge.maxItems c ->
   forall k, k ≠ key -> Edge.items c' !! k = Edge.items c !! k) /\
  (forall k item, k ≠ key -> Edge.items c !! k = Some item -> Edge.items c' !! k = None ->
     Edge.expired now item = false ->
     forall k' item', Edge.items c !! k' = Some item' -> Edge.expired now item' = false).
Proof.
  intros Hl Ho Hsz. unfold Edge.Size in *. simpl.
  set (m := Edge.items c) in *.
  pose proof (Edge.room_cases l order now key (Edge.maxItems c) m Hl Ho Hsz) as Hroom.
  fold m. unfold Edge.Set_. fold m.
  change (if (_ <=? _) && _ then _ else m) with (Edge.room l order now key (Edge.maxItems c) m).
  set (m' := Edge.room _ _ _ _ _ _) in *. clearbody m'. simpl.
  split; [apply lookup_insert_eq|]. rewrite map_size_insert.
  destruct Hroom as [[-> Hcase]|(k & item & Hk & Hkey & Hfull & -> & Hexp)].
  - split_and!.
    + destruct (m !! key) eqn:Hkey; unfold id; [lia|].
      destruct Hcase as [?|[[? ?]|Hm]]; [lia|done|]. rewrite Hm, map_size_empty. lia.
    + intros _ k Hk. by rewrite lookup_insert_ne.
    + intros k item Hne Hk Hgone. rewrite lookup_insert_ne in Hgone by done. congruence.
  - destruct (Edge.delete_size m k item Hk) as [Hd Hp].
    assert (k ≠ key) by congruence. split_and!.
    + rewrite lookup_delete_ne, Hkey, Hd by done. lia.
    + intros [[? ?]|?]; [congruence|lia].
    + intros k1 item1 Hne Hk1 Hgone. rewrite lookup_insert_ne in Hgone by done.
      rewrite lookup_delete in Hgone. case_decide; [subst k1|congruence].
      simplify_eq. intros Hfresh. destruct Hexp; [congruence|done].
Qed.

Definition edge_items : Edge.MemoryCache :=
  Edge.MkCache {["a" := Edge.Item (Edge.AInt 1) 10; "b" := Edge.Item (Edge.AInt 2) 20]} 2 second.

Lemma edge_cache_set_witness :
  let c' := Edge.Set_ (map_to_list (Edge.items edge_items)) map_to_list 15 "c"
              (Edge.AInt 3) 30 edge_items in
  Edge.items c' !! "a"%string = None /\
  Edge.items c' !! "c"%string = Some (Edge.Item (Edge.AInt 3) 45) /\ Edge.Size c' <= 2.
Proof.
  split; [vm_compute; reflexivity|].
  destruct (edge_cache_set (map_to_list (Edge.items edge_items)) map_to_list 15 "c"
              (Edge.AInt 3) 30 edge_items) as (H1 & H2 & _);
    [apply ranges_refl|intros m; apply ranges_refl|vm_compute; congruence|].
  split; [exact H1|exact H2].
Defined.
