(* ===== verification/AuthLimiter.v ===== *)
(** * AuthLimiter: the authentication rate limiter

    [pkg/auth/rate_limiter.go].  The limiter works on a [cache.Cache], proved against
    the interface [CacheLaws], or, without one, on a map of local limits.  [now] is
    [time.Now()], read once per call; a call is one step (the local limit's mutex, and
    a cache's own, make it so up to the gap between two cache calls).  The local map's
    entries are never removed, so a pointer to one and the entry are the same thing. *)

From stdpp Require Import base decidable gmap strings list.
From Stdlib Require Import ZArith Lia.
From S2P Require Import Prelude MemCache.

Local Open Scope Z_scope.

(** The two types the limiter caches. *)
Inductive cached :=
| CBool (b : bool)
| CInt (n : Z).

Record localRateLimit := MkLocal {
  attempts : Z;
  window : Z;
  lockedOut : Z;
}.

Record RateLimiterConfig := MkAuthConfig {
  Enabled : bool;
  MaxAttempts : Z;
  WindowSize : Z;
  LockoutPeriod : Z;
}.

Definition DefaultRateLimiterConfig : RateLimiterConfig :=
  MkAuthConfig true 5 (1 * minute) (15 * minute).

(** [cache]: [None] is the [nil] interface. *)
Record RateLimiter (C : Type) := MkAuthLimiter {
  cache : option C;
  localLimits : gmap string localRateLimit;
  enabled : bool;
  maxAttempts : Z;
  windowSize : Z;
  lockoutPeriod : Z;
}.
Arguments MkAuthLimiter {C}.
Arguments cache {C} r.
Arguments localLimits {C} r.
Arguments enabled {C} r.
Arguments maxAttempts {C} r.
Arguments windowSize {C} r.
Arguments lockoutPeriod {C} r.

Definition NewRateLimiter {C} (ca : option C) (c : option RateLimiterConfig) : RateLimiter C :=
  let c := default DefaultRateLimiterConfig c in
  MkAuthLimiter ca ∅ (Enabled c) (MaxAttempts c) (WindowSize c) (LockoutPeriod c).

Inductive limit_error := LockedOut | TooManyAttempts.

Section limiter.
Context {C : Type} `{!CacheOps cached C}.
Implicit Types rl : RateLimiter C.

Definition with_cache rl (ca : C) : RateLimiter C :=
  MkAuthLimiter (Some ca) (localLimits rl) (enabled rl) (maxAttempts rl) (windowSize rl)
    (lockoutPeriod rl).
Definition with_local rl (identifier : string) (l : localRateLimit) : RateLimiter C :=
  MkAuthLimiter (cache rl) (<[identifier := l]> (localLimits rl)) (enabled rl)
    (maxAttempts rl) (windowSize rl) (lockoutPeriod rl).

Definition key_of (identifier : string) : string := ("auth:ratelimit:" +:+ identifier)%string.
Definition lockout_key (key : string) : string := (key +:+ ":lockout")%string.
Definition count_key (key : string) : string := (key +:+ ":count")%string.

(** [var locked bool; err := cache.Get(..., &locked)]. *)
Definition get_bool (now : Z) (key : string) (ca : C) : result string bool :=
  match cache_Get now key ca with
  | Ok (Some (CBool b)) => Ok b
  | Ok (Some (CInt _)) => Err "type mismatch"%string
  | Ok None => Ok false
  | Err e => Err e
  end.

(** [var attempts int; err := cache.Get(..., &attempts)]: zero unless it was stored. *)
Definition get_count (now : Z) (key : string) (ca : C) : Z :=
  match cache_Get now key ca with
  | Ok (Some (CInt n)) => n
  | _ => 0
  end.

Definition checkCacheLimit (now : Z) (key : string) (ca : C) rl
  : option limit_error * RateLimiter C :=
  match get_bool now (lockout_key key) ca with
  | Ok true => (Some LockedOut, rl)
  | _ =>
      if maxAttempts rl <=? get_count now (count_key key) ca
      then (Some TooManyAttempts,
            with_cache rl (snd (cache_Set now (lockout_key key) (CBool true) (lockoutPeriod rl) ca)))
      else (None, rl)
  end.

Definition recordCacheAttempt (now : Z) (key : string) (success : bool) (ca : C) rl
  : RateLimiter C :=
  if success then
    let ca := snd (cache_Delete now (count_key key) ca) in
    with_cache rl (snd (cache_Delete now (lockout_key key) ca))
  else
    let n := get_count now (count_key key) ca + 1 in
    with_cache rl (snd (cache_Set now (count_key key) (CInt n) (windowSize rl) ca)).

(** [LoadOrStore(identifier, &localRateLimit{window: now})]. *)
Definition load_or_store (now : Z) (identifier : string) rl : localRateLimit :=
  default (MkLocal 0 now zero_time) (localLimits rl !! identifier).

Definition checkLocalLimit (now : Z) (identifier : string) rl
  : option limit_error * RateLimiter C :=
  let limit := load_or_store now identifier rl in
  if negb (lockedOut limit =? zero_time) && time_before now (lockedOut limit)
  then (Some LockedOut, with_local rl identifier limit)
  else
    let limit := if windowSize rl <? time_sub now (window limit)
                 then MkLocal 0 now (lockedOut limit) else limit in
    if maxAttempts rl <=? attempts limit
    then (Some TooManyAttempts,
          with_local rl identifier
            (MkLocal (attempts limit) (window limit) (now + lockoutPeriod rl)))
    else (None, with_local rl identifier limit).

Definition recordLocalAttempt (now : Z) (identifier : string) (success : bool) rl
  : RateLimiter C :=
  let limit := load_or_store now identifier rl in
  with_local rl identifier
    (if success then MkLocal 0 (window limit) zero_time
     else if windowSize rl <? time_sub now (window limit)
     then MkLocal 1 now (lockedOut limit)
     else MkLocal (attempts limit + 1) (window limit) (lockedOut limit)).

Definition CheckLimit (now : Z) (identifier : string) rl : option limit_error * RateLimiter C :=
  if negb (enabled rl) then (None, rl)
  else
    match cache rl with
    | Some ca => checkCacheLimit now (key_of identifier) ca rl
    | None => checkLocalLimit now identifier rl
    end.

Definition RecordAttempt (now : Z) (identifier : string) (success : bool) rl : RateLimiter C :=
  if negb (enabled rl) then rl
  else
    match cache rl with
    | Some ca => recordCacheAttempt now (key_of identifier) success ca rl
    | None => recordLocalAttempt now identifier success rl
    end.

Definition GetLockoutPeriod rl : Z := lockoutPeriod rl.

(** *** Sequences of calls *)

Inductive op :=
| Check_ (now : Z) (identifier : string)
| Attempt (now : Z) (identifier : string) (success : bool).

Definition apply_op (o : op) rl : option (option limit_error) * RateLimiter C :=
  match o with
  | Check_ now id => let '(r, rl) := CheckLimit now id rl in (Some r, rl)
  | Attempt now id ok => (None, RecordAttempt now id ok rl)
  end.

(** The answers of the checks, in order. *)
Fixpoint run_ops (l : list op) rl : list (option limit_error) * RateLimiter C :=
  match l with
  | [] => ([], rl)
  | o :: l =>
      let '(r, rl) := apply_op o rl in
      let '(rs, rl) := run_ops l rl in
      (option_list r ++ rs, rl)
  end.

Definition failures (id : string) (ts : list Z) : list op := (λ t, Attempt t id false) <$> ts.

(** *** Local limits *)

Definition locked (until : Z) (id : string) rl : Prop :=
  exists l, localLimits rl !! id = Some l /\ lockedOut l = until /\ until ≠ zero_time.

Definition same_settings rl rl' : Prop :=
  cache rl' = cache rl /\ enabled rl' = enabled rl /\ maxAttempts rl' = maxAttempts rl /\
  windowSize rl' = windowSize rl /\ lockoutPeriod rl' = lockoutPeriod rl.

(** An operation that cannot lift a lockout of [id] that lasts until [until]. *)
Definition harmless (until : Z) (id : string) (o : op) : Prop :=
  match o with
  | Check_ now _ => now < until
  | Attempt now id' ok => ok = true -> id' ≠ id
  end.

(** An operation writes the local limit of its own identifier only. *)
Lemma checkLocalLimit_writes now id rl :
  exists r x, checkLocalLimit now id rl = (r, with_local rl id x).
Proof. unfold checkLocalLimit. repeat case_match; by eexists _, _. Qed.

Lemma locked_other until id id' x rl :
  id' ≠ id -> locked until id rl -> locked until id (with_local rl id' x).
Proof. intros Hne (l & Hl & H). exists l. simpl. by rewrite lookup_insert_ne. Qed.

Lemma locked_check until id now rl :
  locked until id rl -> now < until ->
  let '(r, rl') := checkLocalLimit now id rl in r = Some LockedOut /\ locked until id rl'.
Proof.
  intros (l & Hl & Hu & Hz) Hnow. unfold checkLocalLimit, load_or_store. rewrite Hl. simpl.
  rewrite Hu, (proj2 (Z.eqb_neq _ _) Hz). unfold time_before.
  rewrite (proj2 (Z.ltb_lt _ _) Hnow). simpl. split; [done|].
  exists l. simpl. by rewrite lookup_insert_eq.
Qed.

Lemma locked_failure until id now rl :
  locked until id rl -> locked until id (recordLocalAttempt now id false rl).
Proof.
  intros (l & Hl & Hu & Hz). unfold recordLocalAttempt, load_or_store. rewrite Hl. simpl.
  eexists. simpl. rewrite lookup_insert_eq. split; [done|]. by case_match.
Qed.

Lemma locked_op until id o rl :
  enabled rl = true -> cache rl = None -> locked until id rl -> harmless until id o ->
  let '(r, rl') := apply_op o rl in
  locked until id rl' /\ same_settings rl rl' /\
  (forall now, o = Check_ now id -> r = Some (Some LockedOut)).
Proof.
  intros He Hc Hlock Ho.
  destruct o as [now id'|now id' ok]; simpl in *.
  - unfold CheckLimit. rewrite He, Hc. simpl.
    destruct (checkLocalLimit_writes now id' rl) as (r & x & Hw).
    destruct (decide (id' = id)) as [->|Hne].
    + pose proof (locked_check until id now rl Hlock Ho) as H. rewrite Hw in *.
      destruct H as [-> H]. done.
    + rewrite Hw. split; [by apply locked_other|]. split; [done|]. congruence.
  - unfold RecordAttempt. rewrite He, Hc. simpl. split; [|done].
    destruct (decide (id' = id)) as [->|Hne]; [|by apply locked_other].
    destruct ok; [by destruct Ho|]. by apply locked_failure.
Qed.

(** Failures within one window add up. *)
Lemma failures_count id ts rl l :
  enabled rl = true -> cache rl = None -> localLimits rl !! id = Some l ->
  Forall (λ t, time_sub t (window l) <= windowSize rl) ts ->
  let rl' := snd (run_ops (failures id ts) rl) in
  localLimits rl' !! id = Some (MkLocal (attempts l + Z.of_nat (length ts)) (window l) (lockedOut l)) /\
  same_settings rl rl'.
Proof.
  revert rl l. induction ts as [|t ts IH]; intros rl l He Hc Hl Hts; simpl.
  { split; [|done]. rewrite Hl. destruct l. simpl. do 2 f_equal. lia. }
  apply Forall_cons in Hts as [Ht Hts].
  set (rl1 := RecordAttempt t id false rl).
  assert (localLimits rl1 !! id = Some (MkLocal (attempts l + 1) (window l) (lockedOut l)) /\
          same_settings rl rl1) as [Hl1 Hs1].
  { unfold rl1, RecordAttempt. rewrite He, Hc. simpl. unfold recordLocalAttempt, load_or_store.
    rewrite Hl. simpl. rewrite (proj2 (Z.ltb_ge _ _) Ht). simpl.
    by rewrite lookup_insert_eq. }
  destruct Hs1 as (H1 & H2 & H3 & H4 & H5).
  destruct (IH rl1 _ ltac:(congruence) ltac:(congruence) Hl1) as [IH1 IH2].
  { simpl. by rewrite H4. }
  change (fmap _ ts) with (failures id ts).
  destruct (run_ops (failures id ts) rl1) as [rs rl2]. simpl in *. split.
  - rewrite IH1. do 2 f_equal. lia.
  - destruct IH2 as (? & ? & ? & ? & ?). unfold same_settings. split_and!; congruence.
Qed.
End limiter.

(** ** The limiter on a cache that keeps its values *)

Section cached.
Context {C : Type} `{!CacheOps cached C, !CacheLaws cached C}.
Implicit Types rl : RateLimiter C.

Lemma keys_differ key : lockout_key key ≠ count_key key.
Proof. unfold lockout_key, count_key. intros H%(inj _). discriminate. Qed.

(** Each failure starts within [d] of the one before. *)
Fixpoint close_by (d t : Z) (ts : list Z) : Prop :=
  match ts with [] => True | t' :: ts => t' <= t + d /\ close_by d t' ts end.

(** [n] counted so far, the last at [t]. *)
Definition counted (key : string) (n t : Z) rl : Prop :=
  exists ca, cache rl = Some ca /\ enabled rl = true /\
    forall t', t' <= t + windowSize rl -> get_count t' (count_key key) ca = n.

Lemma count_failure id n t t' rl :
  0 < windowSize rl -> counted (key_of id) n t rl -> t' <= t + windowSize rl ->
  let rl' := RecordAttempt t' id false rl in
  counted (key_of id) (n + 1) t' rl' /\ windowSize rl' = windowSize rl /\
  maxAttempts rl' = maxAttempts rl /\ lockoutPeriod rl' = lockoutPeriod rl.
Proof.
  intros Hw (ca & Hc & He & Hn) Ht. unfold RecordAttempt. rewrite He, Hc. simpl.
  rewrite Hn by done. split_and!; try done.
  eexists. split; [done|]. split; [done|]. simpl. intros t1 Ht1.
  unfold get_count. by rewrite get_set.
Qed.

Lemma last_cons_default {A} (x d : A) l : List.last (x :: l) d = List.last l x.
Proof.
  revert x d. induction l as [|y l IH]; intros x d; [done|].
  change (List.last (x :: y :: l) d) with (List.last (y :: l) d). by rewrite !IH.
Qed.

Lemma count_failures id ts n t rl :
  0 < windowSize rl -> counted (key_of id) n t rl -> close_by (windowSize rl) t ts ->
  let rl' := snd (run_ops (failures id ts) rl) in
  counted (key_of id) (n + Z.of_nat (length ts)) (List.last ts t) rl' /\
  windowSize rl' = windowSize rl /\ maxAttempts rl' = maxAttempts rl /\
  lockoutPeriod rl' = lockoutPeriod rl.
Proof.
  revert n t rl. induction ts as [|t1 ts IH]; intros n t rl Hw Hn Hts; simpl.
  { by rewrite Z.add_0_r. }
  destruct Hts as [Ht1 Hts].
  destruct (count_failure id n t t1 rl Hw Hn Ht1) as (Hn1 & Hw1 & Hm1 & Hl1).
  destruct (IH (n + 1) t1 (RecordAttempt t1 id false rl)) as (IH1 & IH2 & IH3 & IH4);
    [by rewrite Hw1|done|by rewrite Hw1|].
  change (fmap _ ts) with (failures id ts).
  destruct (run_ops (failures id ts) _) as [rs rl2]. simpl in *.
  rewrite IH2, IH3, IH4, Hw1, Hm1, Hl1. split_and!; try done.
  replace (n + Z.of_nat (S (length ts))) with (n + 1 + Z.of_nat (length ts)) by lia.
  rewrite <-(last_cons_default t1 t ts) in IH1. exact IH1.
Qed.
End cached.

(** ** On the in-memory cache *)

Lemma memory_count now key (ca : Memory.MemoryCache cached) : get_count now key ca = 0.
Proof. unfold get_count. simpl. unfold Memory.Get. by repeat case_match. Qed.

Lemma memory_bool now key (ca : Memory.MemoryCache cached) : get_bool now key ca ≠ Ok true.
Proof. unfold get_bool. simpl. unfold Memory.Get. by repeat case_match. Qed.

Lemma memory_op o (rl : RateLimiter (Memory.MemoryCache cached)) :
  0 < maxAttempts rl -> is_Some (cache rl) ->
  let '(r, rl') := apply_op o rl in
  maxAttempts rl' = maxAttempts rl /\ is_Some (cache rl') /\ (r = None \/ r = Some None).
Proof.
  intros Hm [ca Hc]. destruct o as [now id|now id ok]; simpl.
  - unfold CheckLimit. destruct (enabled rl); simpl; [|split_and!; [done|by exists ca|by right]].
    rewrite Hc. unfold checkCacheLimit.
    pose proof (memory_bool now (lockout_key (key_of id)) ca) as Hb.
    rewrite memory_count, (proj2 (Z.leb_gt _ _) Hm).
    destruct (get_bool now _ ca) as [[]|]; try done;
      (split_and!; [done|by exists ca|by right]).
  - unfold RecordAttempt. destruct (enabled rl); simpl; [|split_and!; [done|by exists ca|by left]].
    rewrite Hc. destruct ok; simpl; (split_and!; [done|by eexists|by left]).
Qed.

(** ** Properties *)

(** Without a cache, [MaxAttempts] failures of one identifier within a window lock
    it out: the next check in the window is refused, and from then on every check
    during [LockoutPeriod] is, however many checks and failures (or successes of
    other identifiers) come between. *)
Theorem auth_local_lockout id c t0 ts t :
  let rl := NewRateLimiter (C := ttl_map cached) None (Some c) in
  Enabled c = true -> MaxAttempts c <= Z.of_nat (length (t0 :: ts)) ->
  Forall (λ t, time_sub t t0 <= WindowSize c) (t0 :: ts ++ [t]) ->
  0 < t + LockoutPeriod c ->
  let '(r, rl1) := CheckLimit t id (snd (run_ops (failures id (t0 :: ts)) rl)) in
  r = Some TooManyAttempts /\
  (t < t + LockoutPeriod c ->
   forall rest t', Forall (harmless (t + LockoutPeriod c) id) rest -> t' < t + LockoutPeriod c ->
     fst (CheckLimit t' id (snd (run_ops rest rl1))) = Some LockedOut).
Proof.
  intros rl He Hmax Hts Hpos.
  apply Forall_cons in Hts as [Ht0 [Hts [Ht _]%Forall_cons]%Forall_app].
  set (rl0 := RecordAttempt t0 id false rl).
  assert (localLimits rl0 !! id = Some (MkLocal 1 t0 zero_time) /\ same_settings rl rl0) as [Hl0 Hs0].
  { unfold rl0, RecordAttempt. simpl. rewrite He. simpl.
    unfold recordLocalAttempt, load_or_store. simpl. rewrite lookup_empty. simpl.
    rewrite (proj2 (Z.ltb_ge _ _) Ht0), lookup_insert_eq. done. }
  destruct Hs0 as (Hc0 & He0 & Hm0 & Hw0 & Hp0). simpl in *.
  destruct (failures_count id ts rl0 _ ltac:(congruence) Hc0 Hl0) as [Hl1 Hs1].
  { simpl. by rewrite Hw0. }
  change (fmap _ ts) with (failures id ts). fold rl0.
  destruct (run_ops (failures id ts) rl0) as [rs rl1]. simpl in *.
  destruct Hs1 as (Hc1 & He1 & Hm1 & Hw1 & Hp1).
  unfold CheckLimit at 1. rewrite He1, He0, He, Hc1, Hc0. simpl.
  unfold checkLocalLimit, load_or_store. rewrite Hl1. simpl.
  rewrite Hw1, Hw0, (proj2 (Z.ltb_ge _ _) Ht). simpl.
  rewrite Hm1, Hm0, (proj2 (Z.leb_le _ _)) by lia. split; [done|].
  intros Hlt rest t' Hrest Ht'.
  set (rl2 := with_local rl1 id _).
  assert (locked (t + LockoutPeriod c) id rl2 /\ enabled rl2 = true /\ cache rl2 = None)
    as (Hlock & He2 & Hc2).
  { split; [|simpl; split; congruence]. eexists. simpl. rewrite lookup_insert_eq.
    split; [done|]. simpl. rewrite Hp1, Hp0. unfold zero_time. split; [done|lia]. }
  clearbody rl2. clear -Hlock He2 Hc2 Hrest Ht'.
  revert rl2 Hlock He2 Hc2. induction Hrest as [|o rest Ho Hrest IH]; intros rl2 Hlock He2 Hc2; simpl.
  - pose proof (locked_op _ id (Check_ t' id) rl2 He2 Hc2 Hlock Ht') as H. simpl in H.
    destruct (CheckLimit t' id rl2). destruct H as (_ & _ & H).
    specialize (H t' eq_refl). by simplify_eq/=.
  - pose proof (locked_op _ id o rl2 He2 Hc2 Hlock Ho) as H.
    destruct (apply_op o rl2) as [r rl3]. destruct H as (Hlock3 & (H1 & H2 & _) & _).
    specialize (IH rl3 Hlock3 ltac:(congruence) ltac:(congruence)).
    by destruct (run_ops rest rl3).
Qed.

Lemma auth_local_lockout_witness :
  let id := "10.0.0.1"%string in
  let rl := NewRateLimiter (C := ttl_map cached) None (Some DefaultRateLimiterConfig) in
  let '(r, rl1) := CheckLimit (6 * second) id
       (snd (run_ops (failures id (second :: [2 * second; 3 * second; 4 * second; 5 * second])) rl)) in
  r = Some TooManyAttempts /\
  (6 * second < 6 * second + 15 * minute ->
   forall rest t', Forall (harmless (6 * second + 15 * minute) id) rest ->
     t' < 6 * second + 15 * minute ->
     fst (CheckLimit t' id (snd (run_ops rest rl1))) = Some LockedOut).
Proof.
  intros id rl.
  apply (auth_local_lockout id DefaultRateLimiterConfig second
           [2 * second; 3 * second; 4 * second; 5 * second] (6 * second));
    [reflexivity|vm_compute; congruence| |vm_compute; reflexivity].
  repeat constructor; vm_compute; congruence.
Defined.

(** On a cache that keeps what is stored ([CacheLaws]), [MaxAttempts] failures, each
    within [WindowSize] of the one before, lock the identifier out: the next check
    within [WindowSize] is refused and so is every check in the [LockoutPeriod] that
    follows it. *)
Theorem auth_cache_lockout {C} `{!CacheOps cached C, !CacheLaws cached C}
    id (rl : RateLimiter C) t0 ts t :
  counted (key_of id) 0 t0 rl -> 0 < windowSize rl -> 0 < lockoutPeriod rl ->
  close_by (windowSize rl) t0 (ts ++ [t]) -> maxAttempts rl <= Z.of_nat (length ts) ->
  let '(r, rl1) := CheckLimit t id (snd (run_ops (failures id ts) rl)) in
  is_Some r /\
  (r = Some TooManyAttempts -> forall t', t' <= t + lockoutPeriod rl ->
     fst (CheckLimit t' id rl1) = Some LockedOut).
Proof.
  intros Hn Hw Hp Hts Hm.
  assert (close_by (windowSize rl) t0 ts /\ t <= List.last ts t0 + windowSize rl) as [Hts' Ht].
  { clear -Hts. revert t0 Hts. induction ts as [|t1 ts IH]; intros t0 Hts; simpl in *; [naive_solver|].
    destruct Hts as [H1 [H2 H3]%IH]. split; [done|].
    rewrite <-(last_cons_default t1 t0 ts) in H3. exact H3. }
  destruct (count_failures id ts 0 t0 rl Hw Hn Hts') as (Hc & Hw1 & Hm1 & Hl1).
  destruct (run_ops (failures id ts) rl) as [rs rl1]. simpl in *.
  destruct Hc as (ca & Hca & He & Hcount). unfold CheckLimit. rewrite He, Hca. simpl.
  unfold checkCacheLimit. rewrite Hcount, Hm1, (proj2 (Z.leb_le _ _)) by (rewrite ?Hw1; lia).
  destruct (get_bool t _ ca) as [[]|]; (split; [by eexists|]); intros Hr; try discriminate;
    intros t' Ht'; simpl; rewrite He; simpl; unfold get_bool; by rewrite get_set by (rewrite Hl1; lia).
Qed.

Lemma auth_cache_lockout_witness :
  let rl := NewRateLimiter (C := ttl_map cached) (Some ∅) None in
  let ts := [0; 40 * second; 80 * second; 120 * second; 160 * second] in
  let '(r, rl1) := CheckLimit (200 * second) "ann" (snd (run_ops (failures "ann" ts) rl)) in
  is_Some r /\
  (r = Some TooManyAttempts -> forall t', t' <= 200 * second + 15 * minute ->
     fst (CheckLimit t' "ann" rl1) = Some LockedOut).
Proof.
  intros rl ts.
  apply (auth_cache_lockout "ann" rl 0 ts (200 * second));
    [exists ∅; split; [reflexivity|split; [reflexivity|intros t' Ht'; reflexivity]]
    |vm_compute; reflexivity|vm_compute; reflexivity
    |vm_compute; repeat (split; [congruence|]); exact I|vm_compute; congruence].
Defined.

(** The same failures do not lock out the local limiter, whose window is fixed. *)
Example local_window_is_fixed :
  let rl := NewRateLimiter (C := ttl_map cached) None None in
  let ts := [0; 40 * second; 80 * second; 120 * second; 160 * second] in
  fst (CheckLimit (200 * second) "ann" (snd (run_ops (failures "ann" ts) rl))) = None.
Proof. vm_compute. reflexivity. Qed.

(** On [pkg/common/cache]'s [MemoryCache], whose [Get] never writes its target, the
    limiter limits nothing: after any calls, every check is allowed. *)
Theorem auth_memory_never_limits l (rl : RateLimiter (Memory.MemoryCache cached)) :
  0 < maxAttempts rl -> is_Some (cache rl) -> Forall (.= None) (fst (run_ops l rl)).
Proof.
  revert rl. induction l as [|o l IH]; intros rl Hm Hc; simpl; [constructor|].
  pose proof (memory_op o rl Hm Hc) as H. destruct (apply_op o rl) as [r rl1].
  destruct H as (Hm1 & Hc1 & Hr). rewrite <-Hm1 in Hm. specialize (IH rl1 Hm Hc1).
  destruct (run_ops l rl1) as [rs rl2]. simpl in *.
  destruct Hr as [-> | ->]; simpl; [done|by constructor].
Qed.

Lemma auth_memory_never_limits_witness :
  let rl := NewRateLimiter (Some (Memory.NewMemoryCache 1000 minute)) None in
  let l := failures "ann" (replicate 100 second) ++ [Check_ (2 * second) "ann"] in
  fst (run_ops l rl) = [None] /\ Forall (.= None) (fst (run_ops l rl)).
Proof.
  intros rl l. split; [vm_compute; reflexivity|].
  apply (auth_memory_never_limits l rl); [vm_compute; reflexivity|eexists; reflexivity].
Defined.
