(* ===== verification/Binary.v ===== *)
(** * Binary: the WebSocket binary header

    [pkg/models/websocket/binary.go].  A byte is a [Z] in [0, 256), a stream the list
    of its bytes.  [ParseBinaryHeader] returns the header and what is left to read. *)

From stdpp Require Import base decidable gmap strings list.
From Stdlib Require Import ZArith Lia.
From S2P Require Import Prelude.

Local Open Scope Z_scope.

Record BinaryHeader := MkHeader {
  Magic : Z;
  Version : Z;
  Type_ : Z;
  Flags : Z;
  SequenceID : Z;
  Method : Z;
  Reserved : Z;
  DataSize : Z;
}.

Definition MagicNumber : Z := 0x4D435057.

Definition MethodInitialize : Z := 1.
Definition MethodToolList : Z := 2.
Definition MethodToolExecute : Z := 3.
Definition MethodContextGet : Z := 4.
Definition MethodContextUpdate : Z := 5.
Definition MethodEventSubscribe : Z := 6.
Definition MethodEventUnsubscribe : Z := 7.
Definition MethodPing : Z := 8.
Definition MethodPong : Z := 9.

Definition FlagCompressed : Z := Z.shiftl 1 0.
Definition FlagEncrypted : Z := Z.shiftl 1 1.
Definition FlagBatch : Z := Z.shiftl 1 2.

(** ** [encoding/binary]'s big-endian integers *)

(** The [n] low bytes of [x], most significant first. *)
Fixpoint put_be (n : nat) (x : Z) : list Z :=
  match n with
  | O => []
  | S n => Z.land (Z.shiftr x (8 * Z.of_nat n)) 255 :: put_be n x
  end.

Definition get_be (bs : list Z) : Z := foldl (λ acc b, Z.lor (Z.shiftl acc 8) b) 0 bs.

Inductive header_error :=
| EOF
| ErrUnexpectedEOF
| ErrInvalidMagic
| ErrUnsupportedVersion
| ErrPayloadTooLarge.

(** [io.ReadFull] of [n] bytes. *)
Definition ReadFull (n : nat) (r : list Z) : result header_error (list Z * list Z) :=
  if (n <=? length r)%nat then Ok (take n r, drop n r)
  else if bool_decide (r = []) then Err EOF else Err ErrUnexpectedEOF.

(** [buf[i:j]]. *)
Definition slice (i j : nat) (buf : list Z) : list Z := take (j - i) (drop i buf).

Definition ParseBinaryHeader (r : list Z) : result header_error (BinaryHeader * list Z) :=
  '(buf, rest) ← ReadFull 24 r;
  let header :=
    MkHeader (get_be (slice 0 4 buf)) (get_be (slice 4 5 buf)) (get_be (slice 5 6 buf))
      (get_be (slice 6 8 buf)) (get_be (slice 8 16 buf)) (get_be (slice 16 18 buf))
      (get_be (slice 18 20 buf)) (get_be (slice 20 24 buf)) in
  if negb (Magic header =? MagicNumber) then Err ErrInvalidMagic
  else if negb (Version header =? 1) then Err ErrUnsupportedVersion
  else if 1024 * 1024 <? DataSize header then Err ErrPayloadTooLarge
  else Ok (header, rest).

Definition WriteBinaryHeader (h : BinaryHeader) : list Z :=
  put_be 4 (Magic h) ++ put_be 1 (Version h) ++ put_be 1 (Type_ h) ++ put_be 2 (Flags h)
  ++ put_be 8 (SequenceID h) ++ put_be 2 (Method h) ++ put_be 2 (Reserved h)
  ++ put_be 4 (DataSize h).

(** ** Flags *)

Definition has_flag (flag : Z) (h : BinaryHeader) : bool :=
  negb (Z.land (Flags h) flag =? 0).
Definition IsCompressed (h : BinaryHeader) : bool := has_flag FlagCompressed h.
Definition IsEncrypted (h : BinaryHeader) : bool := has_flag FlagEncrypted h.
Definition IsBatch (h : BinaryHeader) : bool := has_flag FlagBatch h.

Definition with_flags (f : Z) (h : BinaryHeader) : BinaryHeader :=
  MkHeader (Magic h) (Version h) (Type_ h) f (SequenceID h) (Method h) (Reserved h) (DataSize h).

Definition SetFlag (flag : Z) (h : BinaryHeader) : BinaryHeader :=
  with_flags (Z.lor (Flags h) flag) h.
Definition ClearFlag (flag : Z) (h : BinaryHeader) : BinaryHeader :=
  with_flags (Z.ldiff (Flags h) flag) h.

(** ** Methods *)

Definition MethodToString (method : Z) : string :=
  if method =? MethodInitialize then "initialize"
  else if method =? MethodToolList then "tool.list"
  else if method =? MethodToolExecute then "tool.execute"
  else if method =? MethodContextGet then "context.get"
  else if method =? MethodContextUpdate then "context.update"
  else if method =? MethodEventSubscribe then "event.subscribe"
  else if method =? MethodEventUnsubscribe then "event.unsubscribe"
  else if method =? MethodPing then "ping"
  else if method =? MethodPong then "pong"
  else "unknown".

Definition StringToMethod (method : string) : Z :=
  if String.eqb method "initialize" then MethodInitialize
  else if String.eqb method "tool.list" then MethodToolList
  else if String.eqb method "tool.execute" then MethodToolExecute
  else if String.eqb method "context.get" then MethodContextGet
  else if String.eqb method "context.update" then MethodContextUpdate
  else if String.eqb method "event.subscribe" then MethodEventSubscribe
  else if String.eqb method "event.unsubscribe" then MethodEventUnsubscribe
  else if String.eqb method "ping" then MethodPing
  else if String.eqb method "pong" then MethodPong
  else 0.

(** [MessageType] is a [uint8]: both conversions keep the value. *)
Definition MessageTypeFromByte (b : Z) : Z := b.
Definition ToByte (t : Z) : Z := t mod 256.

(** ** Encoding lemmas *)

Definition byte (b : Z) : Prop := 0 <= b < 256.

Lemma byte_land x : byte (Z.land x 255).
Proof. unfold byte. change 255 with (Z.ones 8). rewrite Z.land_ones by lia. apply Z.mod_pos_bound. lia. Qed.

Lemma put_be_length n x : length (put_be n x) = n.
Proof. induction n; simpl; congruence. Qed.

Lemma put_be_bytes n x : Forall byte (put_be n x).
Proof. induction n; simpl; constructor; auto using byte_land. Qed.

(** One more byte read. *)
Lemma shift_byte acc b : 0 <= acc -> byte b -> Z.lor (Z.shiftl acc 8) b = acc * 256 + b.
Proof.
  intros Ha Hb. unfold byte in Hb.
  assert (Z.land (Z.shiftl acc 8) b = 0) as Hz.
  { apply Z.bits_inj'. intros i Hi. rewrite Z.land_spec, Z.bits_0.
    destruct (Z.ltb_spec i 8); [by rewrite Z.shiftl_spec_low by done|].
    rewrite <-(Z.mod_small b (2 ^ 8)) by (change (2 ^ 8) with 256; lia).
    rewrite Z.mod_pow2_bits_high by lia. apply andb_false_r. }
  rewrite <-Z.lxor_lor, <-Z.add_nocarry_lxor by done.
  by rewrite Z.shiftl_mul_pow2 by lia.
Qed.

Lemma get_be_step acc bs :
  0 <= acc -> Forall byte bs ->
  foldl (λ acc b, Z.lor (Z.shiftl acc 8) b) acc bs = acc * 256 ^ Z.of_nat (length bs) + get_be bs /\
  0 <= get_be bs < 256 ^ Z.of_nat (length bs).
Proof.
  intros Ha Hbs. revert acc Ha. unfold get_be.
  induction Hbs as [|b bs Hb Hbs IH]; intros acc Ha; cbn [foldl length].
  { simpl. lia. }
  rewrite (shift_byte acc), (shift_byte 0) by (done || lia).
  destruct (IH (acc * 256 + b)) as [-> Hr]; [unfold byte in Hb; lia|].
  destruct (IH (0 * 256 + b)) as [-> _]; [unfold byte in Hb; lia|].
  rewrite Nat2Z.inj_succ, Z.pow_succ_r by lia. unfold byte in Hb.
  assert (0 < 256 ^ Z.of_nat (length bs)) by (apply Z.pow_pos_nonneg; lia). nia.
Qed.

Lemma get_be_range bs : Forall byte bs -> 0 <= get_be bs < 256 ^ Z.of_nat (length bs).
Proof. intros H. by apply (get_be_step 0). Qed.

Lemma get_be_cons b bs :
  Forall byte (b :: bs) -> get_be (b :: bs) = b * 256 ^ Z.of_nat (length bs) + get_be bs.
Proof.
  intros [Hb Hbs]%Forall_cons. unfold get_be at 1. simpl. unfold byte in Hb.
  rewrite Z.lor_0_l. apply get_be_step; [lia|done].
Qed.

(** Decoding what was encoded: the value's low [n] bytes. *)
Lemma get_put n x : get_be (put_be n x) = x mod 256 ^ Z.of_nat n.
Proof.
  induction n as [|n IH]; [by rewrite Z.mod_1_r|].
  cbn [put_be]. rewrite get_be_cons by (constructor; auto using byte_land, put_be_bytes).
  rewrite IH, put_be_length. change 255 with (Z.ones 8).
  rewrite Z.land_ones, Z.shiftr_div_pow2 by lia.
  rewrite Z.pow_mul_r by lia. change (2 ^ 8) with 256.
  rewrite Nat2Z.inj_succ, Z.pow_succ_r by lia.
  rewrite (Z.mul_comm 256), Z.rem_mul_r by (try apply Z.pow_nonzero; lia). lia.
Qed.

(** The encoding looks at the low bytes only. *)
Lemma put_be_low m n x k : (n <= m)%nat -> put_be n (k * 256 ^ Z.of_nat m + x) = put_be n x.
Proof.
  induction n as [|n IHn]; intros Hn; [done|]. cbn [put_be].
  rewrite IHn by lia. f_equal. change 255 with (Z.ones 8).
  rewrite !Z.land_ones, !Z.shiftr_div_pow2, Z.pow_mul_r by lia. change (2 ^ 8) with 256.
  replace (k * 256 ^ Z.of_nat m) with (k * 256 ^ Z.of_nat (m - S n) * 256 * 256 ^ Z.of_nat n).
  - rewrite Z.div_add_l by (apply Z.pow_nonzero; lia).
    rewrite Z.add_comm. apply Z.mod_add. lia.
  - rewrite <-!Z.mul_assoc. f_equal. rewrite <-Z.pow_succ_r, <-Z.pow_add_r by lia.
    f_equal. lia.
Qed.

(** Encoding what was decoded. *)
Lemma put_get bs : Forall byte bs -> put_be (length bs) (get_be bs) = bs.
Proof.
  intros Hbs. induction bs as [|b bs IH]; [done|].
  pose proof Hbs as [Hb Hbs']%Forall_cons. pose proof (get_be_range bs Hbs') as Hr.
  assert (0 < 256 ^ Z.of_nat (length bs)) as Hpos by (apply Z.pow_pos_nonneg; lia).
  rewrite get_be_cons by done. cbn [put_be length]. f_equal.
  - change 255 with (Z.ones 8). rewrite Z.land_ones, Z.shiftr_div_pow2 by lia.
    rewrite Z.pow_mul_r by lia. change (2 ^ 8) with 256.
    rewrite Z.div_add_l, (Z.div_small (get_be bs)) by lia.
    rewrite Z.add_0_r. apply Z.mod_small, Hb.
  - etrans; [by apply put_be_low|by apply IH].
Qed.

(** ** Headers *)

Record valid (h : BinaryHeader) : Prop := {
  valid_magic : Magic h = MagicNumber;
  valid_version : Version h = 1;
  valid_type : 0 <= Type_ h < 256;
  valid_flags : 0 <= Flags h < 2 ^ 16;
  valid_sequence : 0 <= SequenceID h < 2 ^ 64;
  valid_method : 0 <= Method h < 2 ^ 16;
  valid_reserved : 0 <= Reserved h < 2 ^ 16;
  valid_size : 0 <= DataSize h <= 1024 * 1024;
}.

Lemma write_bytes h : Forall byte (WriteBinaryHeader h).
Proof. unfold WriteBinaryHeader. rewrite !Forall_app. auto 10 using put_be_bytes. Qed.

Lemma write_length h : length (WriteBinaryHeader h) = 24%nat.
Proof. done. Qed.

Lemma get_put_small n x : 0 <= x < 256 ^ Z.of_nat n -> get_be (put_be n x) = x.
Proof. intros H. rewrite get_put. by apply Z.mod_small. Qed.

Lemma parse_write h rest : valid h -> ParseBinaryHeader (WriteBinaryHeader h ++ rest) = Ok (h, rest).
Proof.
  intros [H1 H2 H3 H4 H5 H6 H7 H8]. unfold MagicNumber in H1. unfold ParseBinaryHeader, ReadFull.
  rewrite (proj2 (Nat.leb_le _ _)) by (rewrite length_app, write_length; lia).
  rewrite take_app_length' by done. rewrite drop_app_length' by done. cbn [mbind result_bind].
  change (slice 0 4 _) with (put_be 4 (Magic h)).
  change (slice 4 5 _) with (put_be 1 (Version h)).
  change (slice 5 6 _) with (put_be 1 (Type_ h)).
  change (slice 6 8 _) with (put_be 2 (Flags h)).
  change (slice 8 16 _) with (put_be 8 (SequenceID h)).
  change (slice 16 18 _) with (put_be 2 (Method h)).
  change (slice 18 20 _) with (put_be 2 (Reserved h)).
  change (slice 20 24 _) with (put_be 4 (DataSize h)).
  rewrite !get_put_small by (unfold_ints; simpl (256 ^ _); lia).
  cbn [Magic Version DataSize]. rewrite H1, H2. cbn -[Z.mul Z.ltb].
  rewrite (proj2 (Z.ltb_ge _ _)) by lia. destruct h. simpl in *. by subst.
Qed.

(** [r] is what is before its first 24 bytes and what is after. *)
Lemma read_full r buf rest :
  ReadFull 24 r = Ok (buf, rest) -> r = buf ++ rest /\ length buf = 24%nat.
Proof.
  unfold ReadFull. destruct (Nat.leb_spec 24 (length r)); [|by case_match].
  intros [= <- <-]. by rewrite take_drop, length_take_le.
Qed.

Lemma put_get_n n bs : length bs = n -> Forall byte bs -> put_be n (get_be bs) = bs.
Proof. intros <-. apply put_get. Qed.

Lemma slice_bytes i j buf : Forall byte buf -> Forall byte (slice i j buf).
Proof. intros H. unfold slice. by apply Forall_take, Forall_drop. Qed.

Lemma slice_range i j buf :
  Forall byte buf -> (i <= j <= length buf)%nat ->
  0 <= get_be (slice i j buf) < 256 ^ Z.of_nat (j - i).
Proof.
  intros H Hij. replace (j - i)%nat with (length (slice i j buf)).
  - by apply get_be_range, slice_bytes.
  - unfold slice. rewrite length_take, length_drop. lia.
Qed.

(** The eight fields of a buffer make up the buffer. *)
Lemma slices_join buf :
  length buf = 24%nat ->
  slice 0 4 buf ++ slice 4 5 buf ++ slice 5 6 buf ++ slice 6 8 buf ++ slice 8 16 buf
  ++ slice 16 18 buf ++ slice 18 20 buf ++ slice 20 24 buf = buf.
Proof.
  intros Hlen. do 24 (destruct buf as [|? buf]; [discriminate|]).
  destruct buf; [done|discriminate].
Qed.

Lemma write_fields buf :
  length buf = 24%nat -> Forall byte buf ->
  WriteBinaryHeader (MkHeader (get_be (slice 0 4 buf)) (get_be (slice 4 5 buf))
    (get_be (slice 5 6 buf)) (get_be (slice 6 8 buf)) (get_be (slice 8 16 buf))
    (get_be (slice 16 18 buf)) (get_be (slice 18 20 buf)) (get_be (slice 20 24 buf))) = buf.
Proof.
  intros Hlen Hbuf. unfold WriteBinaryHeader.
  cbn [Magic Version Type_ Flags SequenceID Method Reserved DataSize].
  rewrite !put_get_n; try (by apply slice_bytes); try (unfold slice; rewrite length_take, length_drop; lia).
  by apply slices_join.
Qed.

Lemma write_parse r h rest :
  Forall byte r -> ParseBinaryHeader r = Ok (h, rest) -> valid h /\ r = WriteBinaryHeader h ++ rest.
Proof.
  intros Hr. unfold ParseBinaryHeader. intros ([buf rest'] & Hrd & H)%bind_ok.
  apply read_full in Hrd as [-> Hlen]. apply Forall_app in Hr as [Hbuf _].
  cbn [Magic Version DataSize] in H.
  destruct (Z.eqb_spec (get_be (slice 0 4 buf)) MagicNumber) as [Hm|]; [|discriminate].
  destruct (Z.eqb_spec (get_be (slice 4 5 buf)) 1) as [Hv|]; [|discriminate].
  cbn [negb] in H.
  destruct (Z.ltb_spec (1024 * 1024) (get_be (slice 20 24 buf))) as [|Hs]; [discriminate|].
  injection H as <- <-. split; [|by rewrite write_fields].
  split; cbn [Magic Version Type_ Flags SequenceID Method Reserved DataSize]; try done;
    match goal with
    | |- context [slice ?i ?j buf] =>
        pose proof (slice_range i j buf Hbuf ltac:(lia)) as Hrange; simpl (256 ^ _) in Hrange; lia
    end.
Qed.

(** ** Names and flags *)

Lemma method_names m : 1 <= m <= 9 -> StringToMethod (MethodToString m) = m.
Proof.
  intros Hm.
  assert (m = 1 \/ m = 2 \/ m = 3 \/ m = 4 \/ m = 5 \/ m = 6 \/ m = 7 \/ m = 8 \/ m = 9) by lia.
  by destruct_or!; subst.
Qed.

Lemma set_flag_set flag h : flag ≠ 0 -> has_flag flag (SetFlag flag h) = true.
Proof.
  intros Hf. unfold has_flag, SetFlag. simpl.
  replace (Z.land (Z.lor (Flags h) flag) flag) with flag.
  - by rewrite (proj2 (Z.eqb_neq _ _) Hf).
  - apply Z.bits_inj'. intros i Hi. rewrite Z.land_spec, Z.lor_spec.
    destruct (Z.testbit (Flags h) i), (Z.testbit flag i); done.
Qed.

Lemma clear_flag_clear flag h : has_flag flag (ClearFlag flag h) = false.
Proof.
  unfold has_flag, ClearFlag. simpl.
  replace (Z.land (Z.ldiff (Flags h) flag) flag) with 0; [done|].
  apply Z.bits_inj'. intros i Hi. rewrite Z.land_spec, Z.ldiff_spec, Z.bits_0.
  destruct (Z.testbit (Flags h) i), (Z.testbit flag i); done.
Qed.

(** ** Properties *)


Definition ping : BinaryHeader := MkHeader MagicNumber 1 0 0 77 MethodPing 0 12.

