(* ===== verification/Status.v ===== *)
(** * Status: life cycles, roles and completion rules of [pkg/models]

    [agent_status.go], [workflow_status_complete.go], [task.go], [task_extended.go],
    [distributed_task_complete.go] and [document_complete.go].  A status is a Go string
    type, so it is a [string], and any string can occur; the constants are the known
    ones.  Metrics calls are left out. *)

From stdpp Require Import base decidable gmap strings list relations.
From Stdlib Require Import ZArith Lia.
From S2P Require Import Prelude GoFloat.

Local Open Scope string_scope.
Local Open Scope Z_scope.

(** [table[s]] and the search of the target in it, as every [CanTransitionTo] does. *)
Definition allowed (table : gmap string (list string)) (s target : string) : bool :=
  match table !! s with
  | None => false
  | Some validTargets => existsb (λ valid, String.eqb valid target) validTargets
  end.

Definition is_one_of (l : list string) (s : string) : bool := existsb (String.eqb s) l.

(** [TransitionTo]: the new status, or the old one with an error. *)
Definition transition (table : gmap string (list string)) (s target : string)
  : string * result string unit :=
  if allowed table s target then (target, Ok ()) else (s, Err "invalid transition").

Module Agent.
Definition validAgentTransitions : gmap string (list string) :=
  list_to_map [
    ("offline", ["starting"]);
    ("starting", ["active"; "error"]);
    ("active", ["draining"; "maintenance"; "error"; "stopping"]);
    ("draining", ["inactive"; "error"]);
    ("inactive", ["active"; "maintenance"; "stopping"]);
    ("maintenance", ["active"; "inactive"; "stopping"]);
    ("error", ["stopping"; "maintenance"]);
    ("stopping", ["offline"])
  ].
Definition CanTransitionTo : string -> string -> bool := allowed validAgentTransitions.
Definition TransitionTo : string -> string -> string * result string unit :=
  transition validAgentTransitions.
Definition statuses : list string :=
  ["active"; "inactive"; "maintenance"; "draining"; "error"; "offline"; "starting"; "stopping"].
Definition Validate (s : string) : bool := is_one_of statuses s.

Record WorkloadInfo := MkWorkload {
  ActiveTasks : Z;
  QueuedTasks : Z;
  CPUUsage : float64;
  MemoryUsage : float64;
  WorkloadScore : float64;
}.

Definition Calculate (w : WorkloadInfo) : WorkloadInfo :=
  let taskScore := f64_mul (f64_of_Z (i64 (ActiveTasks w * 2 + QueuedTasks w))) (f64_of_Z 10) in
  let taskScore := if f64_lt (f64_of_Z 100) taskScore then f64_of_Z 100 else taskScore in
  let resourceScore := f64_div (f64_add (CPUUsage w) (MemoryUsage w)) (f64_of_Z 2) in
  MkWorkload (ActiveTasks w) (QueuedTasks w) (CPUUsage w) (MemoryUsage w)
    (f64_add (f64_mul taskScore (f64_const 6 10)) (f64_mul resourceScore (f64_const 4 10))).
End Agent.

Module Workflow.
Definition WorkflowTransitions : gmap string (list string) :=
  list_to_map [
    ("pending", ["running"; "cancelled"]);
    ("running", ["paused"; "completed"; "failed"; "cancelled"; "timeout"]);
    ("paused", ["running"; "cancelled"; "timeout"]);
    ("completed", []);
    ("failed", []);
    ("cancelled", []);
    ("timeout", [])
  ].
Definition CanTransitionTo : string -> string -> bool := allowed WorkflowTransitions.
Definition IsTerminal (s : string) : bool :=
  is_one_of ["completed"; "failed"; "cancelled"; "timeout"] s.
End Workflow.

Module Step.
Definition StepTransitions : gmap string (list string) :=
  list_to_map [
    ("pending", ["queued"; "skipped"; "cancelling"]);
    ("queued", ["running"; "cancelling"]);
    ("running", ["completed"; "failed"; "retrying"; "cancelling"; "timeout"]);
    ("retrying", ["running"; "failed"; "cancelling"]);
    ("cancelling", ["cancelled"]);
    ("completed", []);
    ("failed", []);
    ("skipped", []);
    ("cancelled", []);
    ("timeout", [])
  ].
Definition CanTransitionTo : string -> string -> bool := allowed StepTransitions.
Definition IsTerminal (s : string) : bool :=
  is_one_of ["completed"; "failed"; "skipped"; "cancelled"; "timeout"] s.
Definition Validate (s : string) : bool :=
  is_one_of ["pending"; "queued"; "running"; "completed"; "failed"; "skipped"; "retrying";
             "cancelling"; "cancelled"; "timeout"] s.
Definition TransitionTo : string -> string -> string * result string unit :=
  transition StepTransitions.
End Step.

(** ** Tasks *)

Module Task.
Record t := MkTask {
  Status : string;
  RetryCount : Z;
  MaxRetries : Z;
  TimeoutSeconds : Z;
  StartedAt : option Z;
  CompletedAt : option Z;
}.

Definition IsTerminal (x : t) : bool :=
  is_one_of ["completed"; "failed"; "cancelled"; "timeout"] (Status x).
Definition CanRetry (x : t) : bool := negb (IsTerminal x) && (RetryCount x <? MaxRetries x).
Definition Duration (x : t) : Z :=
  match StartedAt x, CompletedAt x with
  | Some s, Some c => time_sub c s
  | _, _ => 0
  end.
Definition IsOverdue (now : Z) (x : t) : bool :=
  match StartedAt x with
  | None => false
  | Some s =>
      if IsTerminal x then false
      else time_after now (s + i64 (TimeoutSeconds x * second))
  end.
End Task.

Module Distributed.
Record t := MkDistributed {
  ID_is_nil : bool;
  Type_ : string;
  Priority : string;
  SubtaskIDs : list string;
  CoordinationMode : string;
  CompletionMode : string;
  CompletionThreshold : Z;
  PercentComplete : option float64;
  ResultsCollected : Z;
  StartedAt : option Z;
  EstimatedDuration : Z;
}.

Definition coordination_modes : list string :=
  ["parallel"; "sequential"; "pipeline"; "map_reduce"; "leader_elect"].
Definition completion_modes : list string := ["all"; "any"; "majority"; "threshold"; "best_of"].
Definition CoordinationMode_IsValid (m : string) : bool := is_one_of coordination_modes m.
Definition CompletionMode_IsValid (m : string) : bool := is_one_of completion_modes m.

Definition SetDefaults (x : t) : t :=
  MkDistributed (ID_is_nil x) (Type_ x)
    (if String.eqb (Priority x) EmptyString then "normal" else Priority x)
    (SubtaskIDs x)
    (if String.eqb (CoordinationMode x) EmptyString then "parallel" else CoordinationMode x)
    (if String.eqb (CompletionMode x) EmptyString then "all" else CompletionMode x)
    (CompletionThreshold x) (PercentComplete x) (ResultsCollected x) (StartedAt x)
    (EstimatedDuration x).

Definition Validate (x : t) : result string unit :=
  if ID_is_nil x then Err "distributed task ID is required"
  else if String.eqb (Type_ x) EmptyString then Err "distributed task type is required"
  else if negb (CoordinationMode_IsValid (CoordinationMode x)) then Err "invalid coordination mode"
  else if negb (CompletionMode_IsValid (CompletionMode x)) then Err "invalid completion mode"
  else if String.eqb (CompletionMode x) "threshold" && (CompletionThreshold x <=? 0)
  then Err "completion threshold must be positive for threshold mode"
  else Ok ().

Definition total (x : t) : Z := Z.of_nat (length (SubtaskIDs x)).

Definition CalculateProgress (x : t) : float64 :=
  match PercentComplete x with
  | Some p => p
  | None =>
      if total x =? 0 then f64_of_Z 0
      else f64_mul (f64_div (f64_of_Z (ResultsCollected x)) (f64_of_Z (total x))) (f64_of_Z 100)
  end.

Definition IsComplete (x : t) : bool :=
  if total x =? 0 then true
  else if String.eqb (CompletionMode x) "all" then total x <=? ResultsCollected x
  else if String.eqb (CompletionMode x) "any" then 0 <? ResultsCollected x
  else if String.eqb (CompletionMode x) "majority" then Z.quot (total x) 2 <? ResultsCollected x
  else if String.eqb (CompletionMode x) "threshold" then
    if 0 <? CompletionThreshold x then CompletionThreshold x <=? ResultsCollected x
    else total x <=? ResultsCollected x
  else if String.eqb (CompletionMode x) "best_of" then CompletionThreshold x <=? ResultsCollected x
  else false.

Definition GetEstimatedCompletion (x : t) : option Z :=
  match StartedAt x with
  | None => None
  | Some s => if EstimatedDuration x =? 0 then None else Some (s + EstimatedDuration x)
  end.

Definition with_results (n : Z) (x : t) : t :=
  MkDistributed (ID_is_nil x) (Type_ x) (Priority x) (SubtaskIDs x) (CoordinationMode x)
    (CompletionMode x) (CompletionThreshold x) (PercentComplete x) n (StartedAt x)
    (EstimatedDuration x).
Definition with_mode (m : string) (x : t) : t :=
  MkDistributed (ID_is_nil x) (Type_ x) (Priority x) (SubtaskIDs x) (CoordinationMode x)
    m (CompletionThreshold x) (PercentComplete x) (ResultsCollected x) (StartedAt x)
    (EstimatedDuration x).
End Distributed.

(** ** Workspace roles *)

Module Role.
Definition RolePermissions : gmap string (list string) :=
  list_to_map [
    ("owner", ["*"]);
    ("admin", ["read"; "write"; "delete"; "invite"; "settings"]);
    ("editor", ["read"; "write"; "comment"]);
    ("commenter", ["read"; "comment"]);
    ("viewer", ["read"]);
    ("guest", ["read:public"])
  ].
Definition HasPermission (r permission : string) : bool :=
  match RolePermissions !! r with
  | None => false
  | Some perms => existsb (λ p, String.eqb p "*" || String.eqb p permission) perms
  end.
Definition CanTransitionTo (r target : string) : bool :=
  if negb (String.eqb r "owner") && negb (String.eqb r "admin") then false
  else if String.eqb r "owner" then true
  else if String.eqb r "admin" && String.eqb target "owner" then false
  else true.
Definition hierarchy : gmap string Z :=
  list_to_map [("owner", 6); ("admin", 5); ("editor", 4); ("commenter", 3); ("viewer", 2);
               ("guest", 1)].
Definition IsHigherThan (r other : string) : bool :=
  match hierarchy !! r, hierarchy !! other with
  | Some rLevel, Some oLevel => oLevel <? rLevel
  | _, _ => false
  end.
Definition Validate (r : string) : bool :=
  is_one_of ["owner"; "admin"; "editor"; "commenter"; "viewer"; "guest"] r.
End Role.

(** ** Tables as machines *)

(** The targets a table lists for [s]. *)
Definition targets (table : gmap string (list string)) (s : string) : list string :=
  default [] (table !! s).

Lemma allowed_targets table s t : allowed table s t = true <-> t ∈ targets table s.
Proof.
  unfold allowed, targets. destruct (table !! s) as [l|]; simpl.
  - rewrite existsb_exists. split.
    + intros (x & Hx%list_elem_of_In & ->%String.eqb_eq). done.
    + intros Ht%list_elem_of_In. exists t. by rewrite String.eqb_refl.
  - split; [done|]. by intros ?%elem_of_nil.
Qed.

Lemma is_one_of_elem l s : is_one_of l s = true <-> s ∈ l.
Proof.
  unfold is_one_of. rewrite existsb_exists. split.
  - intros (x & Hx%list_elem_of_In & ->%String.eqb_eq). done.
  - intros Hs%list_elem_of_In. exists s. by rewrite String.eqb_refl.
Qed.

(** [transitions table s t]: [TransitionTo] accepts a step from [s] to [t]. *)
Definition transitions (table : gmap string (list string)) (s t : string) : Prop :=
  transition table s t = (t, Ok ()).

Lemma transitions_targets table s t : transitions table s t <-> t ∈ targets table s.
Proof.
  unfold transitions, transition. rewrite <-allowed_targets.
  destruct (allowed table s t); split; congruence.
Qed.

(** Everything within [n] steps of a set of statuses. *)
Fixpoint reach (table : gmap string (list string)) (n : nat) (l : list string) : list string :=
  match n with
  | O => l
  | S n => reach table n (remove_dups (l ++ (l ≫= targets table)))
  end.

Lemma reach_sound table n l t :
  t ∈ reach table n l -> exists s, s ∈ l /\ rtc (transitions table) s t.
Proof.
  revert l. induction n as [|n IH]; intros l; simpl; [by eauto using rtc_refl|].
  intros (s & Hs & Hr)%IH. rewrite elem_of_remove_dups, elem_of_app, list_elem_of_bind in Hs.
  destruct Hs as [Hs|(s0 & Hs0 & Hs1)]; [by eauto|].
  exists s0. split; [done|]. eapply rtc_l; [|exact Hr]. by apply transitions_targets.
Qed.

(** Terminal statuses are those without a way out, every target is known, and from
    every known status one of [goals] can be reached. *)
Definition entry_ok (table : gmap string (list string)) (terminal : string -> bool)
    (goals : list string) (s : string) (l : list string) : Prop :=
  (terminal s = true <-> l = []) /\ Forall (λ t, is_Some (table !! t)) l /\ s ∉ l /\
  Exists (λ t, t ∈ goals) (reach table 8 [s]).

#[export] Instance entry_ok_dec table terminal goals s l :
  Decision (entry_ok table terminal goals s l).
Proof.
  unfold entry_ok, iff. apply _.
Defined.

Record machine_ok (table : gmap string (list string)) (terminal : string -> bool)
    (goals : list string) : Prop := {
  machine_known : forall s t, transitions table s t ->
    is_Some (table !! s) /\ is_Some (table !! t) /\ s ≠ t;
  machine_final : forall s t, is_Some (table !! s) -> terminal s = true ->
    rtc (transitions table) s t -> t = s;
  machine_moves : forall s, is_Some (table !! s) -> terminal s = false ->
    exists t, transitions table s t;
  machine_reaches : forall s, is_Some (table !! s) ->
    exists t, t ∈ goals /\ rtc (transitions table) s t;
}.

Lemma machine_check table terminal goals :
  bool_decide (map_Forall (entry_ok table terminal goals) table) = true ->
  machine_ok table terminal goals.
Proof.
  intros Hall%bool_decide_eq_true.
  assert (forall s, is_Some (table !! s) -> entry_ok table terminal goals s (targets table s)) as Hs.
  { intros s [l Hl]. unfold targets. rewrite Hl. by apply Hall. }
  split.
  - intros s t Ht%transitions_targets. unfold targets in Ht.
    destruct (table !! s) as [l|] eqn:Hl; [|by apply elem_of_nil in Ht]. simpl in Ht.
    destruct (Hall s l Hl) as (_ & Hk & Hn & _). rewrite Forall_forall in Hk.
    split; [done|]. split; [by apply Hk|]. by intros ->.
  - intros s t Hk Hterm Hr. destruct (Hs s Hk) as (Hiff & _).
    apply proj1 in Hiff. specialize (Hiff Hterm).
    inversion Hr as [|? y ? Hst _]; subst; [done|].
    apply transitions_targets in Hst. rewrite Hiff in Hst. by apply elem_of_nil in Hst.
  - intros s Hk Hterm. destruct (Hs s Hk) as (Hiff & _).
    destruct (targets table s) as [|t l] eqn:Ht.
    + destruct Hiff as [_ Hiff]. rewrite Hiff in Hterm; done.
    + exists t. apply transitions_targets. rewrite Ht. constructor.
  - intros s Hk. destruct (Hs s Hk) as (_ & _ & _ & Hex).
    apply Exists_exists in Hex as (t & Ht & Hg).
    apply reach_sound in Ht as (s' & ->%list_elem_of_singleton & Hr). by exists t.
Qed.

(** ** Properties *)

(** The three status machines: a transition goes from a known status to another
    known one; the terminal statuses of workflows and steps are exactly those that no
    sequence of transitions leaves, and every workflow and step can still reach one; an
    agent is never stuck, can always get back to [offline], and reaches every status
    from there. *)
Theorem status_lifecycles :
  machine_ok Workflow.WorkflowTransitions Workflow.IsTerminal
    ["completed"; "failed"; "cancelled"; "timeout"] /\
  machine_ok Step.StepTransitions Step.IsTerminal
    ["completed"; "failed"; "skipped"; "cancelled"; "timeout"] /\
  machine_ok Agent.validAgentTransitions (λ _, false) ["offline"] /\
  (forall s, Agent.Validate s = true -> rtc (transitions Agent.validAgentTransitions) "offline" s).
Proof.
  split_and!; [apply machine_check; vm_compute; reflexivity..|].
  intros s Hs%is_one_of_elem.
  assert (Forall (λ s, s ∈ reach Agent.validAgentTransitions 8 ["offline"]) Agent.statuses) as Hall.
  { refine (bool_decide_unpack _ _). vm_compute. exact I. }
  rewrite Forall_forall in Hall. specialize (Hall s Hs) as Hr.
  by apply reach_sound in Hr as (s' & ->%list_elem_of_singleton & H).
Qed.

(** Completion of a distributed task never reverts as results arrive, and the modes
    are ordered: all results imply a majority (more than half of the subtasks), a
    majority implies any.  [best_of] is not guarded by [Validate]: with the zero
    threshold it is complete before the first result. *)
Theorem completion_rules x n m :
  n <= m ->
  (Distributed.IsComplete (Distributed.with_results n x) = true ->
   Distributed.IsComplete (Distributed.with_results m x) = true) /\
  (let complete mode := Distributed.IsComplete (Distributed.with_mode mode x) in
   (complete "all" = true -> complete "majority" = true) /\
   (complete "majority" = true -> complete "any" = true) /\
   (complete "majority" = true <->
    Distributed.total x = 0 \/ Distributed.total x < 2 * Distributed.ResultsCollected x)) /\
  (0 <= Distributed.ResultsCollected x -> Distributed.CompletionThreshold x = 0 ->
   Distributed.Validate (Distributed.with_mode "best_of" x)
     = Distributed.Validate (Distributed.with_mode "all" x) /\
   Distributed.IsComplete (Distributed.with_mode "best_of" x) = true).
Proof.
  intros Hnm. destruct x as [nil ty pr ids co mode th pc rc st ed]. simpl.
  unfold Distributed.IsComplete, Distributed.with_results, Distributed.with_mode,
    Distributed.total, Distributed.Validate. simpl.
  assert (0 <= Z.of_nat (length ids)) as Hlen by lia. revert Hlen.
  generalize (Z.of_nat (length ids)). intros len Hlen.
  assert (2 * Z.quot len 2 <= len < 2 * Z.quot len 2 + 2).
  { rewrite Z.quot_div_nonneg by lia. pose proof (Z.div_mod len 2). pose proof (Z.mod_pos_bound len 2). lia. }
  split_and!.
  - repeat case_match; bool_hyps; intros Hc; bool_hyps; try done; try (apply Z.leb_le || apply Z.ltb_lt); lia.
  - bool_cases; intros; try done; lia.
  - bool_cases; intros; try done; lia.
  - bool_cases; split; intros; try done; lia.
  - intros Hrc ->. split; [by repeat case_match|]. bool_cases; done || lia.
Qed.

Definition two_subtasks : Distributed.t :=
  Distributed.MkDistributed false "build" "normal" ["a"; "b"] "parallel" "all" 0 None 0 None 0.

Lemma completion_rules_witness :
  Distributed.Validate (Distributed.with_mode "best_of" two_subtasks) = Ok () /\
  Distributed.IsComplete (Distributed.with_mode "best_of" two_subtasks) = true.
Proof.
  split; [reflexivity|]. apply (completion_rules two_subtasks 0 0); [lia|vm_compute; congruence|reflexivity].
Defined.

(** Roles: [IsHigherThan] orders the valid roles strictly and totally, only an owner,
    or an admin for a role other than owner, may change roles, and an unknown role has
    no permission; but permissions do not follow the order: an admin ranks above an
    editor and a commenter and lacks their ["comment"]. *)
Theorem role_rules r s t :
  (Role.IsHigherThan r s = true -> Role.IsHigherThan s t = true -> Role.IsHigherThan r t = true) /\
  Role.IsHigherThan r r = false /\
  (Role.Validate r = true -> Role.Validate s = true -> r ≠ s ->
   Role.IsHigherThan r s = negb (Role.IsHigherThan s r)) /\
  (Role.CanTransitionTo r t = true <-> r = "owner" \/ r = "admin" /\ t ≠ "owner") /\
  (Role.Validate r = false -> forall p, Role.HasPermission r p = false) /\
  (Role.IsHigherThan "admin" "editor" = true /\ Role.HasPermission "editor" "comment" = true /\
   Role.HasPermission "admin" "comment" = false).
Proof.
  refine (conj _ (conj _ (conj _ (conj _ (conj _ _))))).
  - unfold Role.IsHigherThan. repeat case_match; try done. intros; bool_hyps. apply Z.ltb_lt. lia.
  - unfold Role.IsHigherThan. case_match; [|done]. apply Z.ltb_irrefl.
  - intros Hr%is_one_of_elem Hs%is_one_of_elem Hne.
    assert (Forall (λ r, Forall (λ s, r ≠ s -> Role.IsHigherThan r s = negb (Role.IsHigherThan s r))
              ["owner"; "admin"; "editor"; "commenter"; "viewer"; "guest"])
              ["owner"; "admin"; "editor"; "commenter"; "viewer"; "guest"]) as Hall.
    { refine (bool_decide_unpack _ _). vm_compute. exact I. }
    rewrite Forall_forall in Hall. specialize (Hall r Hr). simpl in Hall.
    rewrite Forall_forall in Hall. by apply Hall.
  - unfold Role.CanTransitionTo.
    destruct (String.eqb_spec r "owner"), (String.eqb_spec r "admin"),
      (String.eqb_spec t "owner"); simpl; naive_solver.
  - intros Hr p. unfold Role.HasPermission.
    destruct (Role.RolePermissions !! r) as [l|] eqn:Hl; [|done].
    apply elem_of_list_to_map_2 in Hl.
    repeat (apply elem_of_cons in Hl as [[= -> ->]|Hl]; [discriminate|]). by apply elem_of_nil in Hl.
  - vm_compute. done.
Qed.
