(* ===== verification/GoStrings.v ===== *)
(** * GoStrings: the string functions of Go's standard library that the code uses

    [strings.Split] and [SplitN], prefixes, suffixes, [Contains], [ReplaceAll], [Join],
    [ToLower]; [strconv.Atoi] and the formatting of integers and floats.  A string is its
    bytes. *)

From stdpp Require Import base decidable gmap strings list.
From Stdlib Require Import ZArith Lia Ascii String.
From Corelib Require Import SpecFloat.
From S2P Require Import Prelude GoFloat.

Local Open Scope string_scope.
Local Open Scope Z_scope.

(** ** The standard library's string functions *)

(** [strings.SplitN(s, sep, 2)] for a one-byte separator: the part before the first
    one, and the rest if there is one. *)
Fixpoint split2 (sep : ascii) (s : string) : string * option string :=
  match s with
  | EmptyString => (EmptyString, None)
  | String a s =>
      if Ascii.eqb a sep then (EmptyString, Some s)
      else let '(p, r) := split2 sep s in (String a p, r)
  end.

(** [strings.Split]. *)
Fixpoint split (sep : ascii) (s : string) : list string :=
  match s with
  | EmptyString => [EmptyString]
  | String a s =>
      if Ascii.eqb a sep then EmptyString :: split sep s
      else
        match split sep s with
        | p :: ps => String a p :: ps
        | [] => [String a EmptyString]
        end
  end.

(** [strings.TrimPrefix(s, "v")]. *)
Definition trim_v (s : string) : string :=
  match s with
  | String a r => if Ascii.eqb a "v" then r else s
  | EmptyString => s
  end.

Definition digit_value (a : ascii) : option Z :=
  let n := Z.of_N (N_of_ascii a) in
  if (48 <=? n) && (n <=? 57) then Some (n - 48) else None.

Fixpoint digits_value (acc : Z) (s : string) : option Z :=
  match s with
  | EmptyString => Some acc
  | String a s =>
      match digit_value a with
      | Some d => digits_value (acc * 10 + d) s
      | None => None
      end
  end.

(** [strconv.Atoi]. *)
Definition Atoi (s : string) : result string Z :=
  let '(negative, body) :=
    match s with
    | String a r =>
        if Ascii.eqb a "-" then (true, r) else if Ascii.eqb a "+" then (false, r) else (false, s)
    | EmptyString => (false, s)
    end in
  match body, digits_value 0 body with
  | EmptyString, _ | _, None => Err "invalid syntax"
  | _, Some n =>
      let z := if negative : bool then - n else n in
      if bool_decide (in_i64 z) then Ok z else Err "value out of range"
  end.

Definition digit_char (d : Z) : ascii := ascii_of_N (Z.to_N (48 + d)).

(** The decimal digits of [n], most significant first, before [s]. *)
Fixpoint digits_loop (fuel : nat) (n : Z) (s : string) : string :=
  match fuel with
  | O => s
  | S fuel =>
      let s := String (digit_char (n mod 10)) s in
      if n / 10 =? 0 then s else digits_loop fuel (n / 10) s
  end.

(** [fmt.Sprintf("%d", n)]: twenty digits are enough for an [int64]. *)
Definition itoa (n : Z) : string :=
  if n <? 0 then String "-" (digits_loop 20 (- n) EmptyString) else digits_loop 20 n EmptyString.

(** [len(s)]. *)
Definition len (s : string) : Z := Z.of_nat (String.length s).

Definition HasPrefix (s p : string) : bool := String.prefix p s.

(** [s[n:]]. *)
Fixpoint drop_bytes (n : nat) (s : string) : string :=
  match n, s with
  | S n, String _ s => drop_bytes n s
  | _, _ => s
  end.

(** [s[:n]]. *)
Fixpoint take_bytes (n : nat) (s : string) : string :=
  match n, s with
  | S n, String a s => String a (take_bytes n s)
  | _, _ => EmptyString
  end.

Definition TrimPrefix (s p : string) : string :=
  if HasPrefix s p then drop_bytes (String.length p) s else s.

Definition HasSuffix (s p : string) : bool :=
  (String.length p <=? String.length s)%nat &&
  String.eqb (drop_bytes (String.length s - String.length p) s) p.

Definition TrimSuffix (s p : string) : string :=
  if HasSuffix s p then take_bytes (String.length s - String.length p) s else s.

Fixpoint Contains (s sub : string) : bool :=
  HasPrefix s sub || match s with EmptyString => false | String _ s => Contains s sub end.

(** [strings.ReplaceAll(s, old, new)] for a non-empty [old]; [skip] counts the bytes of a
    match that are still to be passed over. *)
Fixpoint replace_from (skip : nat) (s old new : string) : string :=
  match s with
  | EmptyString => EmptyString
  | String a r =>
      match skip with
      | S skip => replace_from skip r old new
      | O => if HasPrefix s old then new +:+ replace_from (String.length old - 1) r old new
             else String a (replace_from 0 r old new)
      end
  end.
Definition ReplaceAll (s old new : string) : string := replace_from 0 s old new.

Fixpoint Join (l : list string) (sep : string) : string :=
  match l with
  | [] => EmptyString
  | [x] => x
  | x :: l => x +:+ sep +:+ Join l sep
  end.

(** [strings.ToLower], on ASCII. *)
Definition lower_char (a : ascii) : ascii :=
  let n := N_of_ascii a in
  if (65 <=? n)%N && (n <=? 90)%N then ascii_of_N (n + 32) else a.
Fixpoint ToLower (s : string) : string :=
  match s with EmptyString => EmptyString | String a s => String (lower_char a) (ToLower s) end.

(** ** Floats

    [strconv.FormatFloat(x, 'g', -1, 64)]: the shortest decimal that reads back as [x], the
    closest one to [x] if there are several, with an exponent when it is below -4 or at
    least 6; [%v] prints the same. *)

Fixpoint ndigits (fuel : nat) (n : Z) : Z :=
  match fuel with O => 0 | S fuel => if n =? 0 then 0 else 1 + ndigits fuel (n / 10) end.

(** [num / den] rounded down, as [d * 10^k] with [n] digits. *)
Definition scale (num den k : Z) : Z :=
  if 0 <=? k then num / (den * 10 ^ k) else num * 10 ^ (- k) / den.

(** [d * 10^k] compared with [num / den]. *)
Definition compare_decimal (d k num den : Z) : comparison :=
  if 0 <=? k then (d * 10 ^ k * den ?= num) else (d * den ?= num * 10 ^ (- k)).

(** Four times the value, and the bounds of the decimals that round to it. *)
Record interval := MkInterval { lo : Z; mid : Z; hi : Z; den : Z; closed : bool }.
Definition interval_of (prec emin : Z) (m : positive) (e : Z) : interval :=
  let up := if 0 <=? e then 2 ^ e else 1 in
  let dn := if 0 <=? e then 1 else 2 ^ (- e) in
  let below := if (Z.pos m =? 2 ^ (prec - 1)) && (emin <? e) then 1 else 2 in
  MkInterval ((4 * Z.pos m - below) * up) (4 * Z.pos m * up) ((4 * Z.pos m + 2) * up)
             (4 * dn) (Z.even (Z.pos m)).

Definition inside (i : interval) (d k : Z) : bool :=
  match compare_decimal d k (lo i) (den i), compare_decimal d k (hi i) (den i) with
  | Gt, Lt => true
  | Eq, _ | _, Eq => closed i
  | _, _ => false
  end.

(** Whether [d * 10^k] is closer to the value than [(d + 1) * 10^k]. *)
Definition closer (i : interval) (d k : Z) : bool :=
  match compare_decimal (2 * d + 1) k (2 * mid i) (den i) with
  | Gt => true
  | Eq => Z.even d
  | Lt => false
  end.

Fixpoint strip_zeros (fuel : nat) (d k : Z) : Z * Z :=
  match fuel with
  | O => (d, k)
  | S fuel => if (d mod 10 =? 0) && negb (d =? 0) then strip_zeros fuel (d / 10) (k + 1) else (d, k)
  end.

(** [n] is the number of digits tried; 17 are always enough. *)
Fixpoint shortest (tries : nat) (i : interval) (n mag : Z) : Z * Z :=
  let k := mag - n in
  let d := scale (mid i) (den i) k in
  match tries with
  | O => (d, k)
  | S tries =>
      match inside i d k, inside i (d + 1) k with
      | true, true => if closer i d k then (d, k) else (d + 1, k)
      | true, false => (d, k)
      | false, true => (d + 1, k)
      | false, false => shortest tries i (n + 1) mag
      end
  end.

(** The least [p] with [num / den < 10^p]. *)
Fixpoint magnitude_up (fuel : nat) (num den p : Z) : Z :=
  match fuel with
  | O => p
  | S fuel =>
      match compare_decimal 1 p num den with
      | Gt => p
      | _ => magnitude_up fuel num den (p + 1)
      end
  end.
Definition magnitude (i : interval) : Z :=
  let guess := ndigits 400 (mid i) - ndigits 400 (den i) - 1 in
  magnitude_up 4 (mid i) (den i) guess.

Fixpoint zeros (n : nat) : string := match n with O => EmptyString | S n => String "0" (zeros n) end.

(** The digits [ds], with the decimal point after the first [point] of them. *)
Definition plain (ds : string) (point : Z) : string :=
  let n := len ds in
  if point <=? 0 then "0." +:+ zeros (Z.to_nat (- point)) +:+ ds
  else if n <=? point then ds +:+ zeros (Z.to_nat (point - n))
  else take_bytes (Z.to_nat point) ds +:+ "." +:+ drop_bytes (Z.to_nat point) ds.

Definition scientific (ds : string) (ex : Z) : string :=
  let mant := match ds with
              | String a EmptyString => ds
              | String a r => String a (String "." r)
              | EmptyString => ds
              end in
  let a := Z.abs ex in
  mant +:+ "e" +:+ (if ex <? 0 then "-" else "+") +:+ (if a <? 10 then "0" else EmptyString) +:+ itoa a.

Definition format_with (prec emin : Z) (x : spec_float) : string :=
  match x with
  | S754_nan => "NaN"
  | S754_infinity s => if s then "-Inf" else "+Inf"
  | S754_zero s => if s then "-0" else "0"
  | S754_finite s m e =>
      let i := interval_of prec emin m e in
      let '(d, k) := shortest 17 i 1 (magnitude i) in
      let '(d, k) := strip_zeros 20 d k in
      let ds := itoa d in
      let ex := len ds + k - 1 in
      let body := if (ex <? -4) || (6 <=? ex) then scientific ds ex else plain ds (ex + 1) in
      if s then "-" +:+ body else body
  end.

Definition format_float : float64 -> string := format_with 53 (-1074).
Definition format_float32 : spec_float -> string := format_with 24 (-149).

Example format_float_examples :
  format_float (f64_const 1 10) = "0.1" /\
  format_float (f64_of_Z 150) = "150" /\
  format_float (f64_add (f64_const 1 10) (f64_const 2 10)) = "0.30000000000000004" /\
  format_float (f64_const 1 3) = "0.3333333333333333" /\
  format_float (f64_of_Z (2 ^ 70)) = "1.1805916207174113e+21" /\
  format_float (f64_of_Z 1000000) = "1e+06" /\
  format_float (f64_const (-1) 100000) = "-1e-05".
Proof. vm_compute. done. Qed.

(** ** Prefixes *)

Lemma prefix_cons a s b p :
  HasPrefix (String a s) (String b p) = if Ascii.eqb b a then HasPrefix s p else false.
Proof.
  unfold HasPrefix.
  change (String.prefix (String b p) (String a s)) with (if ascii_dec b a then String.prefix p s else false).
  destruct (ascii_dec b a) as [->|Hn]; [by rewrite Ascii.eqb_refl|].
  by destruct (Ascii.eqb_spec b a).
Qed.

Lemma prefix_app p t : HasPrefix (p +:+ t) p = true.
Proof.
  induction p as [|a p IH]; [by destruct t|].
  change (String a p +:+ t) with (String a (p +:+ t)). by rewrite prefix_cons, Ascii.eqb_refl.
Qed.

Lemma drop_app p t : drop_bytes (String.length p) (p +:+ t) = t.
Proof. induction p as [|a p IH]; [by destruct t|]. exact IH. Qed.

(** ** Splitting what was joined *)

Fixpoint free_of (c : ascii) (s : string) : bool :=
  match s with
  | EmptyString => true
  | String a s => negb (Ascii.eqb a c) && free_of c s
  end.

Lemma free_app c s t : free_of c (s +:+ t) = free_of c s && free_of c t.
Proof. induction s as [|a s IH]; [done|]. simpl. by rewrite IH, andb_assoc. Qed.

Lemma split2_none c s : free_of c s = true -> split2 c s = (s, None).
Proof.
  induction s as [|a s IH]; [done|]. simpl. intros [Ha%negb_true_iff Hs]%andb_prop.
  by rewrite Ha, IH.
Qed.

Lemma split2_some c s t : free_of c s = true -> split2 c (s +:+ String c t) = (s, Some t).
Proof.
  induction s as [|a s IH]; simpl; [by rewrite Ascii.eqb_refl|].
  intros [Ha%negb_true_iff Hs]%andb_prop. by rewrite Ha, IH.
Qed.

Lemma split_free c s : free_of c s = true -> split c s = [s].
Proof.
  induction s as [|a s IH]; [done|]. simpl. intros [Ha%negb_true_iff Hs]%andb_prop.
  by rewrite Ha, IH.
Qed.

Lemma split_cons c s t : free_of c s = true -> split c (s +:+ String c t) = s :: split c t.
Proof.
  induction s as [|a s IH]; simpl; [by rewrite Ascii.eqb_refl|].
  intros [Ha%negb_true_iff Hs]%andb_prop. by rewrite Ha, IH.
Qed.

(** ** Decimal numbers *)

Lemma digit_char_spec d :
  0 <= d < 10 ->
  digit_value (digit_char d) = Some d /\
  Forall (λ c, Ascii.eqb (digit_char d) c = false) ["v"; "+"; "-"; "."]%char.
Proof.
  intros Hd.
  assert (d = 0 \/ d = 1 \/ d = 2 \/ d = 3 \/ d = 4 \/ d = 5 \/ d = 6 \/ d = 7 \/ d = 8 \/ d = 9)
    as Hc by lia.
  destruct_or! Hc; subst; (split; [reflexivity|repeat constructor]).
Qed.

Lemma digits_loop_value fuel n s :
  0 <= n < 10 ^ Z.of_nat fuel -> (0 < fuel)%nat ->
  digits_value 0 (digits_loop fuel n s) = digits_value n s.
Proof.
  revert n s. induction fuel as [|fuel IH]; intros n s Hn Hf; [lia|]. simpl.
  pose proof (Z.div_mod n 10 ltac:(lia)). pose proof (Z.mod_pos_bound n 10 ltac:(lia)).
  destruct (digit_char_spec (n mod 10)) as [Hd _]; [lia|].
  destruct (Z.eqb_spec (n / 10) 0) as [Hz|Hz].
  - simpl. rewrite Hd. f_equal. lia.
  - rewrite Nat2Z.inj_succ, Z.pow_succ_r in Hn by lia.
    rewrite IH; [|lia|].
    + simpl. rewrite Hd. f_equal. lia.
    + destruct fuel; [simpl in Hn; lia|lia].
Qed.

(** The digits contain no separator, and there is at least one. *)
Lemma digits_loop_free c fuel n s :
  c ∈ ["v"; "+"; "-"; "."]%char -> free_of c s = true -> free_of c (digits_loop fuel n s) = true.
Proof.
  intros Hc. revert n s. induction fuel as [|fuel IH]; intros n s Hs; [done|]. simpl.
  pose proof (Z.mod_pos_bound n 10 ltac:(lia)).
  destruct (digit_char_spec (n mod 10)) as [_ Hd]; [lia|].
  rewrite Forall_forall in Hd. specialize (Hd c Hc). simpl in Hd.
  assert (free_of c (String (digit_char (n mod 10)) s) = true) by (simpl; by rewrite Hd, Hs).
  destruct (_ =? 0); [done|]. by apply IH.
Qed.

Lemma digits_loop_head fuel n s :
  exists d r, 0 <= d < 10 /\ digits_loop (S fuel) n s = String (digit_char d) r.
Proof.
  revert n s. induction fuel as [|fuel IH]; intros n s; cbn [digits_loop];
    pose proof (Z.mod_pos_bound n 10 ltac:(lia)); (destruct (_ =? 0); [by eexists _, _|]).
  - by eexists _, _.
  - apply IH.
Qed.

Lemma itoa_free c n : 0 <= n -> c ∈ ["v"; "+"; "-"; "."]%char -> free_of c (itoa n) = true.
Proof.
  intros Hn Hc. unfold itoa. rewrite (proj2 (Z.ltb_ge _ _) Hn). by apply digits_loop_free.
Qed.

Lemma itoa_head n : 0 <= n -> exists d r, 0 <= d < 10 /\ itoa n = String (digit_char d) r.
Proof.
  intros Hn. unfold itoa. rewrite (proj2 (Z.ltb_ge _ _) Hn). apply (digits_loop_head 19).
Qed.

Lemma Atoi_itoa n : 0 <= n <= max_int64 -> Atoi (itoa n) = Ok n.
Proof.
  intros Hn. destruct (itoa_head n) as (d & r & Hd & Heq); [lia|].
  assert (digits_value 0 (itoa n) = Some n) as Hv.
  { unfold itoa. rewrite (proj2 (Z.ltb_ge _ _)) by lia.
    rewrite digits_loop_value; [done| |lia]. unfold_ints. simpl. lia. }
  destruct (digit_char_spec d Hd) as [_ Hsep]. rewrite Heq in *. unfold Atoi.
  rewrite Forall_forall in Hsep.
  rewrite (Hsep "-"%char), (Hsep "+"%char) by set_solver. rewrite Hv.
  rewrite bool_decide_true; [done|]. unfold_ints. lia.
Qed.

Lemma app_nil_string s : s +:+ EmptyString = s.
Proof. induction s as [|a s IH]; [done|]. exact (f_equal (String a) IH). Qed.

Lemma app_string_assoc s t u : (s +:+ t) +:+ u = s +:+ (t +:+ u).
Proof. induction s as [|a s IH]; [done|]. exact (f_equal (String a) IH). Qed.

