(* ===== verification/GoParse.v ===== *)
(** * GoParse: splitting, trimming and parsing of strings

    What the rule engine and others use of [strings] and [strconv]: separators of several
    bytes, white space, [ParseBool] and [ParseFloat] with its decimal and hexadecimal
    syntax, correctly rounded. *)

From stdpp Require Import base decidable strings list.
From Stdlib Require Import ZArith Ascii Lia.
From Corelib Require Import SpecFloat.
From S2P Require Import Prelude GoFloat Utf8 GoStrings.

Local Open Scope string_scope.
Local Open Scope Z_scope.

(** ** [strings] *)

(** [strings.SplitN(s, sep, 2)], for a separator that is not empty. *)
Fixpoint cut (s sep : string) : string * option string :=
  if HasPrefix s sep then (EmptyString, Some (drop_bytes (String.length sep) s))
  else
    match s with
    | EmptyString => (EmptyString, None)
    | String a s => let '(p, r) := cut s sep in (String a p, r)
    end.

(** [strings.Split(s, sep)]: [skip] bytes belong to the separator that was just found. *)
Fixpoint split_from (skip : nat) (s sep : string) : string * list string :=
  match s with
  | EmptyString => (EmptyString, [])
  | String a r =>
      match skip with
      | S skip => split_from skip r sep
      | O =>
          if HasPrefix s sep
          then let '(p, ps) := split_from (String.length sep - 1) r sep in (EmptyString, p :: ps)
          else let '(p, ps) := split_from 0 r sep in (String a p, ps)
      end
  end.
Definition Split (s sep : string) : list string := let '(p, ps) := split_from 0 s sep in p :: ps.

(** [unicode.IsSpace]. *)
Definition IsSpace (r : Z) : bool :=
  between 9 13 r || (r =? 0x20) || (r =? 0x85) || (r =? 0xA0) || (r =? 0x1680) ||
  between 0x2000 0x200A r || (r =? 0x2028) || (r =? 0x2029) || (r =? 0x202F) || (r =? 0x205F) || (r =? 0x3000).

(** The number of bytes of the white space that [bs] begins with. *)
Fixpoint leading_space (fuel : nat) (bs : list Z) : nat :=
  match fuel, bs with
  | S fuel, b :: bs =>
      let '(r, w) := decode_rune b bs in
      if IsSpace r then w + leading_space fuel (drop (w - 1) bs) else 0
  | _, _ => 0
  end.

(** The length of the longest suffix of white space, as [utf8.DecodeLastRune] finds it: the
    shortest prefix after which there is only white space. *)
Fixpoint before_space (bs : list Z) (fuel : nat) : nat :=
  match fuel with
  | O => 0
  | S fuel =>
      match bs with
      | [] => 0
      | b :: rest =>
          if (leading_space (length bs) bs =? length bs)%nat then 0 else S (before_space rest fuel)
      end
  end.

Definition TrimSpace (s : string) : string :=
  let s := drop_bytes (leading_space (String.length s) (bytes_of s)) s in
  take_bytes (before_space (bytes_of s) (String.length s)) s.

(** [strings.Trim(s, c)] for one byte. *)
Fixpoint trim_left (c : ascii) (s : string) : string :=
  match s with
  | String a r => if Ascii.eqb a c then trim_left c r else s
  | EmptyString => s
  end.
Fixpoint trim_right (c : ascii) (s : string) : string :=
  match s with
  | EmptyString => EmptyString
  | String a r =>
      match trim_right c r with
      | EmptyString => if Ascii.eqb a c then EmptyString else String a EmptyString
      | t => String a t
      end
  end.
Definition TrimByte (c : ascii) (s : string) : string := trim_right c (trim_left c s).

(** ** [strconv] *)

Definition ParseBool (s : string) : option bool :=
  if existsb (String.eqb s) ["1"; "t"; "T"; "TRUE"; "true"; "True"] then Some true
  else if existsb (String.eqb s) ["0"; "f"; "F"; "FALSE"; "false"; "False"] then Some false
  else None.

(** [num / den] rounded to the nearest float, to even in the middle: enough bits of the
    quotient, and one that says if there were more. *)
Definition f64_ratio (negative : bool) (num den : Z) : float64 :=
  if num =? 0 then S754_zero negative
  else
    let k := 66 + Z.log2 den - Z.log2 num in
    let n := if 0 <=? k then num * 2 ^ k else num in
    let d := if 0 <=? k then den else den * 2 ^ (- k) in
    let q := 2 * (n / d) + (if n mod d =? 0 then 0 else 1) in
    binary_normalize 53 1024 (if negative then - q else q) (- k - 1) negative.

Definition hex_value (a : ascii) : option Z :=
  match digit_value a with
  | Some d => Some d
  | None =>
      let n := Z.of_N (N_of_ascii (lower_char a)) in
      if (97 <=? n) && (n <=? 102) then Some (n - 87) else None
  end.

(** The digits and the point of a number: their value, how many there were, how many of them
    were after the point, whether there was an underscore, and the rest. *)
Record digits := MkDigits { value : Z; count : nat; fraction : option Z; underscores : bool }.
Fixpoint scan_digits (base : Z) (digit : ascii -> option Z) (d : digits) (s : string) : digits * string :=
  match s with
  | EmptyString => (d, s)
  | String a r =>
      if Ascii.eqb a "_" then scan_digits base digit (MkDigits (value d) (count d) (fraction d) true) r
      else if Ascii.eqb a "." then
        match fraction d with
        | Some _ => (d, s)
        | None => scan_digits base digit (MkDigits (value d) (count d) (Some 0) (underscores d)) r
        end
      else
        match digit a with
        | Some x => scan_digits base digit (MkDigits (value d * base + x) (S (count d))
                      ((λ n, n + 1) <$> fraction d) (underscores d)) r
        | None => (d, s)
        end
  end.

(** An exponent is not read further than five digits. *)
Fixpoint scan_exponent (e : Z) (und : bool) (s : string) : Z * bool * string :=
  match s with
  | EmptyString => (e, und, s)
  | String a r =>
      if Ascii.eqb a "_" then scan_exponent e true r
      else match digit_value a with
           | Some x => scan_exponent (if e <? 10000 then e * 10 + x else e) und r
           | None => (e, und, s)
           end
  end.

Definition exponent (s : string) : option (Z * bool * string) :=
  let '(negative, s) :=
    match s with
    | String a r => if Ascii.eqb a "+" then (false, r) else if Ascii.eqb a "-" then (true, r) else (false, s)
    | EmptyString => (false, s)
    end in
  match s with
  | String a _ =>
      match digit_value a with
      | Some _ => let '(e, und, rest) := scan_exponent 0 false s in
                  Some (if negative then - e else e, und, rest)
      | None => None
      end
  | EmptyString => None
  end.

(** [underscoreOK], without the sign: an underscore is between digits, or between the prefix
    of the base and a digit. *)
Inductive seen := SeenStart | SeenDigit | SeenUnderscore | SeenOther.
Fixpoint underscores_ok (hex : bool) (last : seen) (s : string) : bool :=
  match s with
  | EmptyString => match last with SeenUnderscore => false | _ => true end
  | String a r =>
      if (match (if hex then hex_value a else digit_value a) with Some _ => true | None => false end)
      then underscores_ok hex SeenDigit r
      else if Ascii.eqb a "_"
      then match last with SeenDigit => underscores_ok hex SeenUnderscore r | _ => false end
      else match last with SeenUnderscore => false | _ => underscores_ok hex SeenOther r end
  end.

(** A number without its sign: the float, unless the syntax is wrong. *)
Definition is_hex (s : string) : bool :=
  match s with
  | String a (String b (String _ _)) => Ascii.eqb a "0" && Ascii.eqb (lower_char b) "x"
  | _ => false
  end.

Definition unsigned_float (negative : bool) (s : string) : option float64 :=
  let hex := is_hex s in
  let body := if hex then drop_bytes 2 s else s in
  let '(d, rest) := scan_digits (if hex then 16 else 10) (if hex then hex_value else digit_value)
                      (MkDigits 0 0 None false) body in
  let places := default 0 (fraction d) in
  let well_formed (und : bool) (rest : string) :=
    String.eqb rest "" &&
    (negb und || (if hex then underscores_ok true SeenDigit body else underscores_ok false SeenStart body)) in
  let value_at (e : Z) :=
    if hex
    then let p := e - 4 * places in
         if 0 <=? p then f64_ratio negative (value d * 2 ^ p) 1 else f64_ratio negative (value d) (2 ^ (- p))
    else let p := e - places in
         if 0 <=? p then f64_ratio negative (value d * 10 ^ p) 1 else f64_ratio negative (value d) (10 ^ (- p)) in
  if (count d =? 0)%nat then None
  else
    let marked := match rest with
                  | String a r => if Ascii.eqb (lower_char a) (if hex then "p"%char else "e"%char) then Some r else None
                  | EmptyString => None
                  end in
    match marked with
    | Some r =>
        match exponent r with
        | Some (e, und, rest) =>
            if well_formed (underscores d || und) rest then Some (value_at e) else None
        | None => None
        end
    | None => if negb hex && well_formed (underscores d) rest then Some (value_at 0) else None
    end.

(** [strconv.ParseFloat(s, 64)]: no value for bad syntax, nor for a number out of range. *)
Definition ParseFloat (s : string) : option float64 :=
  let '(signed, negative, body) :=
    match s with
    | String a r => if Ascii.eqb a "+" then (true, false, r) else if Ascii.eqb a "-" then (true, true, r)
                    else (false, false, s)
    | EmptyString => (false, false, s)
    end in
  let word := ToLower body in
  if String.eqb word "inf" || String.eqb word "infinity" then Some (S754_infinity negative)
  else if String.eqb word "nan" && negb signed then Some S754_nan
  else
    match unsigned_float negative body with
    | Some (S754_infinity _) => None
    | r => r
    end.

Example parse_float_examples :
  ParseFloat "0.1" = Some (f64_const 1 10) /\ ParseFloat "-12e-1" = Some (f64_const (-12) 10) /\
  ParseFloat "1_0.5" = Some (f64_const 21 2) /\ ParseFloat "1__0" = None /\ ParseFloat "_1" = None /\
  ParseFloat "0x1.8p1" = Some (f64_of_Z 3) /\ ParseFloat "0x1.8" = None /\ ParseFloat "0x_1p0" = Some (f64_of_Z 1) /\
  ParseFloat ".5" = Some (f64_const 1 2) /\ ParseFloat "." = None /\ ParseFloat "5." = Some (f64_of_Z 5) /\
  ParseFloat "1e400" = None /\ ParseFloat "1e-400" = Some (S754_zero false) /\ ParseFloat "active" = None /\
  ParseFloat "-Inf" = Some (S754_infinity true) /\ ParseFloat "NaN" = Some S754_nan /\
  ParseFloat "123456789012345678901" = Some (f64_of_Z 123456789012345678901) /\
  ParseFloat "4.9e-324" = Some (S754_finite false 1 (-1074)).
Proof. vm_compute. repeat split. Qed.

Example split_examples :
  Split "a && b && c" " && " = ["a"; "b"; "c"] /\ Split "" "x" = [""] /\ Split "aaa" "aa" = [""; "a"] /\
  cut "a == b == c" " == " = ("a", Some "b == c") /\ TrimSpace "  a b " = "a b" /\ TrimSpace "   " = "" /\
  TrimByte "'" "'it''s'" = "it''s".
Proof. vm_compute. repeat split. Qed.

(** ** Laws *)

Lemma app_cons a s t : String a s +:+ t = String a (s +:+ t).
Proof. done. Qed.
Lemma app_empty_r s : s +:+ EmptyString = s.
Proof. induction s as [|a s IH]; [done|]. by rewrite app_cons, IH. Qed.
Lemma app_assoc_s s t u : (s +:+ t) +:+ u = s +:+ (t +:+ u).
Proof. induction s as [|a s IH]; [done|]. by rewrite !app_cons, IH. Qed.

Lemma prefix_split s p : HasPrefix s p = true <-> exists t, s = p +:+ t.
Proof.
  split; [|intros [t ->]; apply prefix_app]. revert s. induction p as [|b p IH]; intros s; [by exists s|].
  destruct s as [|a s]; [done|]. rewrite prefix_cons. destruct (Ascii.eqb_spec b a) as [->|]; [|done].
  intros [t ->]%IH. by exists t.
Qed.

Lemma prefix_trans s p q : HasPrefix s p = true -> HasPrefix p q = true -> HasPrefix s q = true.
Proof.
  rewrite !prefix_split. intros [t ->] [u ->]. exists (u +:+ t). by rewrite app_assoc_s.
Qed.

Lemma contains_cons a s sub : Contains (String a s) sub = HasPrefix (String a s) sub || Contains s sub.
Proof. done. Qed.

(** [sub] occurs in [s]. *)
Lemma contains_spec s sub : Contains s sub = true <-> exists a b, s = a +:+ (sub +:+ b).
Proof.
  split.
  - induction s as [|c s IH]; cbn [Contains]; rewrite orb_true_iff.
    + intros [[b Hb]%prefix_split|H]; [|done]. by exists EmptyString, b.
    + intros [[b Hb]%prefix_split|(a & b & ->)%IH]; [by exists EmptyString, b|by exists (String c a), b].
  - intros (a & b & ->). induction a as [|c a IH].
    + change (EmptyString +:+ (sub +:+ b)) with (sub +:+ b).
      assert (HasPrefix (sub +:+ b) sub = true) as H by apply prefix_app.
      destruct (sub +:+ b); simpl in *; by rewrite H.
    + change (String c a +:+ (sub +:+ b)) with (String c (a +:+ (sub +:+ b))).
      by rewrite contains_cons, IH, orb_true_r.
Qed.

(** What a part of [s] contains, [s] contains. *)
Definition part_of (p s : string) : Prop := exists a b, s = a +:+ (p +:+ b).

Lemma part_of_contains p s sub : part_of p s -> Contains s sub = false -> Contains p sub = false.
Proof.
  intros (a & b & ->) Hs. apply not_true_iff_false. apply not_true_iff_false in Hs.
  intros (c & d & ->)%contains_spec. apply Hs, contains_spec. exists (a +:+ c), (d +:+ b).
  by rewrite !app_assoc_s.
Qed.

Lemma part_of_refl s : part_of s s.
Proof. exists EmptyString, EmptyString. by rewrite app_empty_r. Qed.
Lemma part_of_trans p q s : part_of p q -> part_of q s -> part_of p s.
Proof.
  intros (a & b & ->) (c & d & ->). exists (c +:+ a), (b +:+ d). by rewrite !app_assoc_s.
Qed.

Lemma take_drop_bytes n s : take_bytes n s +:+ drop_bytes n s = s.
Proof.
  revert s. induction n as [|n IH]; intros s; [by destruct s|]. destruct s as [|a s]; [done|].
  cbn [take_bytes drop_bytes]. by rewrite app_cons, IH.
Qed.
Lemma part_of_drop n s : part_of (drop_bytes n s) s.
Proof. exists (take_bytes n s), EmptyString. by rewrite app_empty_r, take_drop_bytes. Qed.
Lemma part_of_take n s : part_of (take_bytes n s) s.
Proof. exists EmptyString, (drop_bytes n s). symmetry. apply take_drop_bytes. Qed.

Lemma part_of_trim_space s : part_of (TrimSpace s) s.
Proof. unfold TrimSpace. eapply part_of_trans; [apply part_of_take|apply part_of_drop]. Qed.

(** *** [Split] *)

Section split.
Context (sep : string) (Hsep : sep ≠ EmptyString).

(** The parts are parts of the string, the first is a prefix of it, and none contains the
    separator. *)
Lemma split_from_parts skip s p ps :
  split_from skip s sep = (p, ps) ->
  HasPrefix (drop_bytes skip s) p = true /\
  forall q, q = p \/ q ∈ ps -> part_of q s /\ Contains q sep = false.
Proof.
  assert (Contains EmptyString sep = false) as He by (by destruct sep).
  assert (forall s, part_of EmptyString s) as Hpe.
  { intros t. exists EmptyString, t. done. }
  assert (forall q a s, part_of q s -> part_of q (String a s)) as Hcons.
  { intros q a t (b & c & ->). by exists (String a b), c. }
  revert skip p ps. induction s as [|a s IH]; intros skip p ps; cbn [split_from drop_bytes].
  { intros [= <- <-]. destruct skip; (split; [done|]); by intros q [->|?%elem_of_nil]. }
  destruct skip as [|skip].
  - destruct (HasPrefix (String a s) sep) eqn:Hpre.
    + destruct (split_from _ s sep) as [p' ps'] eqn:Hs. intros [= <- <-]. apply IH in Hs as [_ Hq].
      split; [done|]. intros q [->|[->|Hin]%elem_of_cons]; [done|split; [apply Hcons|]; apply Hq; by left|].
      split; [apply Hcons|]; apply Hq; by right.
    + destruct (split_from 0 s sep) as [p' ps'] eqn:Hs. intros [= <- <-]. apply IH in Hs as [Hp Hq].
      simpl in Hp. assert (HasPrefix (String a s) (String a p') = true) as Hp'
        by (rewrite prefix_cons, Ascii.eqb_refl; exact Hp).
      split; [done|]. intros q [->|Hin].
      * split.
        { apply prefix_split in Hp' as [t Ht]. exists EmptyString, t. by rewrite Ht. }
        rewrite contains_cons. rewrite (proj2 (Hq p' (or_introl eq_refl))), orb_false_r.
        apply not_true_iff_false. intros H. rewrite (prefix_trans _ _ _ Hp' H) in Hpre. done.
      * split; [apply Hcons|]; apply Hq; by right.
  - intros Hs. apply IH in Hs as [Hp Hq]. split; [done|]. intros q H.
    destruct (Hq q H) as [Hpart Hc]. split; [by apply Hcons|done].
Qed.

Lemma Split_parts s q : q ∈ Split s sep -> part_of q s /\ Contains q sep = false.
Proof.
  unfold Split. destruct (split_from 0 s sep) as [p ps] eqn:Hs. intros H%elem_of_cons.
  by apply (split_from_parts _ _ _ _ Hs).
Qed.
End split.

(** *** What was joined *)

Lemma split_from_skip sep u s : split_from (String.length u) (u +:+ s) sep = split_from 0 s sep.
Proof. induction u as [|a u IH]; [done|]. rewrite app_cons. exact IH. Qed.

(** A separator whose second byte does not occur in the parts, nor at its own start. *)
Section join.
Context (x c : ascii) (t : string) (Hxc : x ≠ c).
Notation sep := (String x (String c t)).

Lemma sep_not_here a s rest :
  free_of c (String a s) = true -> HasPrefix (String a (s +:+ (sep +:+ rest))) sep = false.
Proof.
  cbn [free_of]. intros [_ Hs]%andb_prop. rewrite prefix_cons. destruct (Ascii.eqb x a); [|done].
  destruct s as [|b s].
  - change (EmptyString +:+ (sep +:+ rest)) with (String x ((String c t) +:+ rest)). rewrite prefix_cons.
    by destruct (Ascii.eqb_spec c x) as [->|].
  - rewrite app_cons, prefix_cons. cbn [free_of] in Hs. apply andb_prop in Hs as [Hb _].
    apply negb_true_iff in Hb. by rewrite Ascii.eqb_sym, Hb.
Qed.

Lemma sep_not_in a s : free_of c (String a s) = true -> HasPrefix (String a s) sep = false.
Proof.
  cbn [free_of]. intros [_ Hs]%andb_prop. rewrite prefix_cons. destruct (Ascii.eqb x a); [|done].
  destruct s as [|b s]; [done|]. rewrite prefix_cons. cbn [free_of] in Hs. apply andb_prop in Hs as [Hb _].
  apply negb_true_iff in Hb. by rewrite Ascii.eqb_sym, Hb.
Qed.

Lemma split_from_one p : free_of c p = true -> split_from 0 p sep = (p, []).
Proof.
  induction p as [|a p IH]; [done|]. intros Hp. cbn [split_from]. rewrite sep_not_in by done.
  cbn [free_of] in Hp. apply andb_prop in Hp as [_ Hp]. by rewrite IH.
Qed.

Lemma split_from_more p rest :
  free_of c p = true ->
  split_from 0 (p +:+ (sep +:+ rest)) sep = let '(q, qs) := split_from 0 rest sep in (p, q :: qs).
Proof.
  induction p as [|a p IH]; intros Hp.
  - change (EmptyString +:+ (sep +:+ rest)) with (String x ((String c t) +:+ rest)). cbn [split_from].
    rewrite prefix_cons, Ascii.eqb_refl, prefix_app.
    change (String.length sep - 1)%nat with (String.length (String c t) - 0)%nat.
    rewrite Nat.sub_0_r, split_from_skip. done.
  - rewrite app_cons. cbn [split_from]. rewrite sep_not_here by done.
    cbn [free_of] in Hp. apply andb_prop in Hp as [_ Hp]. rewrite IH by done.
    by destruct (split_from 0 rest sep).
Qed.

Lemma Split_Join l : l ≠ [] -> Forall (λ p, free_of c p = true) l -> Split (Join l sep) sep = l.
Proof.
  intros Hne Hl. unfold Split. enough (split_from 0 (Join l sep) sep = (default EmptyString (head l), tail l)) as ->
    by (by destruct l).
  clear Hne. induction Hl as [|p l Hp Hl IH]; [done|]. destruct l as [|q l]; [by apply split_from_one|].
  change (Join (p :: q :: l) sep) with (p +:+ (sep +:+ Join (q :: l) sep)).
  by rewrite split_from_more, IH.
Qed.

Lemma free_not_contains p : free_of c p = true -> Contains p sep = false.
Proof.
  induction p as [|a p IH]; [done|]. intros Hp. rewrite contains_cons, sep_not_in by done.
  cbn [free_of] in Hp. apply andb_prop in Hp as [_ Hp]. by apply IH.
Qed.

Lemma Join_contains p q l : Contains (Join (p :: q :: l) sep) sep = true.
Proof. apply contains_spec. by exists p, (Join (q :: l) sep). Qed.
End join.

Lemma free_Join c sep l :
  free_of c sep = true -> Forall (λ p, free_of c p = true) l -> free_of c (Join l sep) = true.
Proof.
  intros Hs. induction 1 as [|p l Hp Hl IH]; [done|]. destruct l as [|q l]; [done|].
  change (Join (p :: q :: l) sep) with (p +:+ (sep +:+ Join (q :: l) sep)).
  by rewrite !free_app, Hp, Hs, IH.
Qed.

(** *** [TrimSpace] of what does not begin or end with a space *)

Definition ascii_only (bs : list Z) : Prop := Forall (λ b, 0 <= b < 0x80) bs.


(** ASCII text with something other than white space at both ends. *)
Record neat (s : string) : Prop := {
  neat_ascii : ascii_only (bytes_of s);
  neat_first : exists b, head (bytes_of s) = Some b /\ IsSpace b = false;
  neat_last : exists b, last (bytes_of s) = Some b /\ IsSpace b = false;
}.

Lemma decode_ascii b bs : 0 <= b < 0x80 -> decode_rune b bs = (b, 1%nat).
Proof. intros H. unfold decode_rune. destruct (Z.ltb_spec b 128); [done|lia]. Qed.

Lemma leading_space_lt fuel bs b :
  ascii_only bs -> last bs = Some b -> IsSpace b = false -> (leading_space fuel bs < length bs)%nat.
Proof.
  revert bs. induction fuel as [|fuel IH]; intros bs Ha Hl Hb; [destruct bs; simpl in *; [done|lia]|].
  destruct bs as [|x bs]; [done|]. apply Forall_cons in Ha as [Hx Ha]. cbn [leading_space].
  rewrite decode_ascii by done. destruct (IsSpace x) eqn:Hs; [|simpl; lia].
  destruct bs as [|y bs]; [simpl in Hl; congruence|]. simpl drop.
  specialize (IH (y :: bs) Ha Hl Hb). simpl in *. lia.
Qed.

Lemma before_space_full fuel bs b :
  ascii_only bs -> last bs = Some b -> IsSpace b = false -> (length bs <= fuel)%nat ->
  before_space bs fuel = length bs.
Proof.
  revert bs. induction fuel as [|fuel IH]; intros bs Ha Hl Hb Hf; [by destruct bs; simpl in *; [|lia]|].
  destruct bs as [|x bs]; [done|]. cbn [before_space].
  pose proof (leading_space_lt (length (x :: bs)) (x :: bs) b Ha Hl Hb) as Hlt.
  destruct (Nat.eqb_spec (leading_space (length (x :: bs)) (x :: bs)) (length (x :: bs))); [lia|].
  apply Forall_cons in Ha as [_ Ha]. destruct bs as [|y bs]; [by destruct fuel|].
  rewrite IH; [done..|]. simpl in *. lia.
Qed.

Lemma take_bytes_all s : take_bytes (String.length s) s = s.
Proof. induction s as [|a s IH]; [done|]. simpl. by rewrite IH. Qed.

Lemma trim_neat s : neat s -> TrimSpace s = s.
Proof.
  intros [Ha (b & Hf & Hb) (b' & Hl & Hb')]. unfold TrimSpace.
  assert (leading_space (String.length s) (bytes_of s) = 0%nat) as ->.
  { rewrite <-bytes_of_length. destruct (bytes_of s) as [|x bs]; [done|]. simpl in Hf. injection Hf as ->.
    cbn [length leading_space]. apply Forall_cons in Ha as [Hx _]. rewrite decode_ascii by done. by rewrite Hb. }
  change (drop_bytes 0 s) with s. rewrite (before_space_full _ _ b'), bytes_of_length; try done;
    [apply take_bytes_all|by rewrite bytes_of_length].
Qed.

Lemma neat_app s m t : neat s -> ascii_only (bytes_of m) -> neat t -> neat (s +:+ (m +:+ t)).
Proof.
  intros [Ha (b & Hf & Hb) _] Hm [Ha' _ (b' & Hl & Hb')]. rewrite <-app_assoc_s.
  split; rewrite !bytes_of_app.
  - by repeat apply Forall_app_2.
  - exists b. split; [|done]. by destruct (bytes_of s).
  - exists b'. split; [|done]. rewrite last_app. by rewrite Hl.
Qed.

Lemma neat_Join sep l : ascii_only (bytes_of sep) -> l ≠ [] -> Forall neat l -> neat (Join l sep).
Proof.
  intros Hs Hne Hl. induction Hl as [|p l Hp Hl IH]; [done|]. destruct l as [|q l]; [done|].
  change (Join (p :: q :: l) sep) with (p +:+ (sep +:+ Join (q :: l) sep)). apply neat_app; [done..|].
  by apply IH.
Qed.

(** *** A word between two spaces *)

Section word.
Notation free s := (free_of " "%char s = true).
Notation spaced op := (String " " (op +:+ " ")).

Lemma prefix_word op op' v :
  free op -> free op' -> HasPrefix (op +:+ String " " v) (op' +:+ " ") = String.eqb op op'.
Proof.
  revert op'. induction op as [|a op IH]; intros op' Ho Ho'.
  - destruct op' as [|b op']; [by destruct v|]. rewrite app_cons.
    change (EmptyString +:+ String " " v) with (String " " v). rewrite prefix_cons.
    cbn [free_of] in Ho'. apply andb_prop in Ho' as [Hb _]. apply negb_true_iff in Hb. by rewrite Hb.
  - cbn [free_of] in Ho. apply andb_prop in Ho as [Ha Ho]. apply negb_true_iff in Ha. rewrite app_cons.
    destruct op' as [|b op'].
    + change (EmptyString +:+ " ") with (String " " EmptyString). rewrite prefix_cons, Ascii.eqb_sym, Ha. done.
    + cbn [free_of] in Ho'. apply andb_prop in Ho' as [_ Ho']. rewrite app_cons, prefix_cons.
      cbn [String.eqb]. rewrite Ascii.eqb_sym. destruct (Ascii.eqb a b); [by apply IH|done].
Qed.

Lemma contains_free v op : free v -> Contains v (spaced op) = false.
Proof.
  induction v as [|a v IH]; [done|]. cbn [free_of]. intros [Ha%negb_true_iff Hv]%andb_prop.
  rewrite contains_cons, prefix_cons, Ascii.eqb_sym, Ha, IH; done.
Qed.

Lemma contains_skip f op s : free f -> Contains (f +:+ s) (spaced op) = Contains s (spaced op).
Proof.
  induction f as [|a f IH]; [done|]. cbn [free_of]. intros [Ha%negb_true_iff Hf]%andb_prop.
  rewrite app_cons, contains_cons, prefix_cons, Ascii.eqb_sym, Ha, IH; done.
Qed.

Lemma prefix_free v op : free v -> HasPrefix v (op +:+ " ") = false.
Proof.
  intros Hv. apply not_true_iff_false. intros [t ->]%prefix_split.
  rewrite !free_app in Hv. apply andb_prop in Hv as [Hv _]. apply andb_prop in Hv as [_ Hv]. done.
Qed.

Lemma contains_word f op op' v :
  free f -> free op -> free op' -> free v ->
  Contains (f +:+ (spaced op +:+ v)) (spaced op') = String.eqb op op'.
Proof.
  intros Hf Ho Ho' Hv. rewrite contains_skip by done. rewrite app_cons, contains_cons, prefix_cons, Ascii.eqb_refl.
  rewrite app_assoc_s. change (" " +:+ v) with (String " " v). rewrite prefix_word by done.
  rewrite contains_skip by done. rewrite contains_cons, prefix_cons, Ascii.eqb_refl, prefix_free, contains_free by done.
  by rewrite !orb_false_r.
Qed.

Lemma cut_word f op v :
  free f -> free op -> cut (f +:+ (spaced op +:+ v)) (spaced op) = (f, Some v).
Proof.
  intros Hf Ho. induction f as [|a f IH].
  - change (EmptyString +:+ (spaced op +:+ v)) with (spaced op +:+ v).
    assert (HasPrefix (spaced op +:+ v) (spaced op) = true) as Hp by apply prefix_app.
    rewrite app_cons. cbn [cut]. rewrite <-app_cons, Hp. by rewrite drop_app.
  - rewrite app_cons. cbn [cut]. cbn [free_of] in Hf. apply andb_prop in Hf as [Ha Hf]. apply negb_true_iff in Ha.
    rewrite prefix_cons, Ascii.eqb_sym, Ha. by rewrite IH.
Qed.
End word.

(** ** [time.ParseDuration] and [Duration.String]

    A sequence of decimal numbers with units, in nanoseconds; [None] is an error. *)

(** [leadingInt]: the digits at the beginning; [None] over [2^63]. *)
Fixpoint leading_int (x : Z) (s : string) : option (Z * string) :=
  match s with
  | String a r =>
      match digit_value a with
      | Some d =>
          if 2 ^ 63 / 10 <? x then None
          else let x := x * 10 + d in if 2 ^ 63 <? x then None else leading_int x r
      | None => Some (x, s)
      end
  | EmptyString => Some (x, s)
  end.

(** [leadingFraction]: digits after one that would overflow are dropped. *)
Fixpoint leading_fraction (x : Z) (scale : float64) (overflow : bool) (s : string) : Z * float64 * string :=
  match s with
  | String a r =>
      match digit_value a with
      | Some d =>
          if overflow || ((2 ^ 63 - 1) / 10 <? x) || (2 ^ 63 <? x * 10 + d) then leading_fraction x scale true r
          else leading_fraction (x * 10 + d) (f64_mul scale (f64_of_Z 10)) false r
      | None => (x, scale, s)
      end
  | EmptyString => (x, scale, s)
  end.

Definition of_number (a : ascii) : bool := Ascii.eqb a "." || match digit_value a with Some _ => true | None => false end.

(** The unit, and what follows it. *)
Fixpoint leading_unit (s : string) : string * string :=
  match s with
  | String a r => if of_number a then (EmptyString, s) else let '(u, r) := leading_unit r in (String a u, r)
  | EmptyString => (EmptyString, EmptyString)
  end.

Definition unit_of (u : string) : option Z :=
  if String.eqb u "ns" then Some 1
  else if String.eqb u "us" || String.eqb u (String (ascii_of_nat 0xC2) (String (ascii_of_nat 0xB5) "s")) ||
          String.eqb u (String (ascii_of_nat 0xCE) (String (ascii_of_nat 0xBC) "s")) then Some 1000
  else if String.eqb u "ms" then Some millisecond
  else if String.eqb u "s" then Some second
  else if String.eqb u "m" then Some minute
  else if String.eqb u "h" then Some (60 * minute)
  else None.

(** One number and its unit. *)
Definition one_part (s : string) : option (Z * string) :=
  let begins := match s with String a _ => of_number a | EmptyString => false end in
  if negb begins then None
  else
    match leading_int 0 s with
    | None => None
    | Some (v, r) =>
        let before := negb (String.eqb r s) in
        let '(f, scale, r, behind) :=
          match r with
          | String a t =>
              if Ascii.eqb a "." then
                let '(f, scale, rest) := leading_fraction 0 (f64_of_Z 1) false t in (f, scale, rest, negb (String.eqb rest t))
              else (0, f64_of_Z 1, r, false)
          | EmptyString => (0, f64_of_Z 1, r, false)
          end in
        if negb before && negb behind then None
        else
          let '(u, r) := leading_unit r in
          match (if String.eqb u "" then None else unit_of u) with
          | None => None
          | Some unit =>
              if 2 ^ 63 / unit <? v then None
              else
                let v := v * unit + (if 0 <? f then f64_to_int (f64_mul (f64_of_Z f) (f64_div (f64_of_Z unit) scale)) else 0) in
                if 2 ^ 63 <? v then None else Some (v, r)
          end
    end.

Fixpoint all_parts (fuel : nat) (d : Z) (s : string) : option Z :=
  match s, fuel with
  | EmptyString, _ => Some d
  | _, O => None
  | _, S fuel =>
      match one_part s with
      | Some (v, r) => if 2 ^ 63 <? d + v then None else all_parts fuel (d + v) r
      | None => None
      end
  end.

Definition ParseDuration (s : string) : option Z :=
  let '(neg, s) :=
    match s with
    | String a r => if Ascii.eqb a "-" then (true, r) else if Ascii.eqb a "+" then (false, r) else (false, s)
    | EmptyString => (false, s)
    end in
  if String.eqb s "0" then Some 0
  else if String.eqb s "" then None
  else
    match all_parts (String.length s) 0 s with
    | None => None
    | Some d => if neg then Some (- d) else if 2 ^ 63 - 1 <? d then None else Some d
    end.

Example durations :
  ParseDuration <$> ["1h30m"; "-1.5s"; ".5ms"; "0"; "30d"; "5"; "1.s"; ""; "9223372036854775807ns"; "9223372036854775808ns"] =
  [Some (90 * minute); Some (-1500 * millisecond); Some 500000; Some 0; None; None; Some second; None; Some (2 ^ 63 - 1); None].
Proof. vm_compute. reflexivity. Qed.

(** ** [Duration.String] *)

(** [fmtFrac]: the decimals of [v / 10^prec] without zeros at the end, and the rest. *)
Fixpoint fmt_frac (prec : nat) (v : Z) (print : bool) (acc : string) : string * Z :=
  match prec with
  | O => (if print then String "." acc else acc, v)
  | S prec =>
      let digit := v mod 10 in
      let print := print || negb (digit =? 0) in
      fmt_frac prec (v / 10) print (if print then String (digit_char digit) acc else acc)
  end.
Definition with_fraction (prec : nat) (v : Z) (unit_text : string) : string :=
  let '(f, v) := fmt_frac prec v false "" in itoa v +:+ f +:+ unit_text.

Definition micro_sign : string := String (ascii_of_nat 0xC2) (String (ascii_of_nat 0xB5) "s").
Definition Duration_String (d : Z) : string :=
  let u := Z.abs d in
  let text :=
    if u <? second then
      if u =? 0 then "0s"
      else if u <? 1000 then with_fraction 0 u "ns"
      else if u <? millisecond then with_fraction 3 u micro_sign
      else with_fraction 6 u "ms"
    else
      let '(f, u) := fmt_frac 9 u false "" in
      let seconds := itoa (u mod 60) +:+ f +:+ "s" in
      let u := u / 60 in
      if u =? 0 then seconds
      else
        let minutes := itoa (u mod 60) +:+ "m" +:+ seconds in
        let u := u / 60 in
        if u =? 0 then minutes else itoa u +:+ "h" +:+ minutes in
  if d <? 0 then "-" +:+ text else text.

Example duration_texts :
  Duration_String 0 = "0s" /\ Duration_String 1 = "1ns" /\ Duration_String 1100 = "1.1" +:+ micro_sign /\
  Duration_String (2200 * 1000) = "2.2ms" /\ Duration_String (600 * millisecond) = "600ms" /\
  Duration_String (4 * minute + 5 * second + 1 * millisecond) = "4m5.001s" /\
  Duration_String (- (60 * minute) - 5 * second) = "-1h0m5s" /\ Duration_String (2 ^ 63 - 1) = "2562047h47m16.854775807s" /\
  ParseDuration (Duration_String (61 * second)) = Some (61 * second).
Proof. vm_compute. done. Qed.
