(* ===== verification/Version.v ===== *)
(** * Version: the updater's version numbers

    [pkg/updater/version.go].  An [int] field is a [Z] in the range of [int64], which
    [strconv.Atoi] checks; strings are compared bytewise, as Go does. *)

From stdpp Require Import base decidable gmap strings list.
From Stdlib Require Import ZArith Lia Ascii String.
From S2P Require Import Prelude GoStrings.

Local Open Scope string_scope.
Local Open Scope Z_scope.

(** ** Versions *)

Record Version := MkVersion {
  Major : Z;
  Minor : Z;
  Patch : Z;
  Prerelease : string;
  Build : string;
}.

Definition ParseVersion (v : string) : result string Version :=
  let v := trim_v v in
  match v with
  | EmptyString => Err "empty version string"
  | _ =>
      let '(core, build) := split2 "+" v in
      let '(nums, pre) := split2 "-" core in
      match split "." nums with
      | [] => Err "invalid version format"
      | n0 :: ns =>
          major ← Atoi n0;
          minor ← match ns with [] => Ok 0 | n1 :: _ => Atoi n1 end;
          patch ← match ns with _ :: n2 :: _ => Atoi n2 | _ => Ok 0 end;
          Ok (MkVersion major minor patch (default EmptyString pre) (default EmptyString build))
      end
  end.

Definition String_ (v : Version) : string :=
  let s := itoa (Major v) +:+ "." +:+ itoa (Minor v) +:+ "." +:+ itoa (Patch v) in
  let s := if String.eqb (Prerelease v) EmptyString then s else s +:+ "-" +:+ Prerelease v in
  if String.eqb (Build v) EmptyString then s else s +:+ "+" +:+ Build v.

Definition Compare (v other : Version) : Z :=
  if negb (Major v =? Major other) then if Major v <? Major other then -1 else 1
  else if negb (Minor v =? Minor other) then if Minor v <? Minor other then -1 else 1
  else if negb (Patch v =? Patch other) then if Patch v <? Patch other then -1 else 1
  else
    let none s := String.eqb s EmptyString in
    if none (Prerelease v) && negb (none (Prerelease other)) then 1
    else if negb (none (Prerelease v)) && none (Prerelease other) then -1
    else if negb (String.eqb (Prerelease v) (Prerelease other)) then
      if String.ltb (Prerelease v) (Prerelease other) then -1 else 1
    else 0.

Definition IsNewerThan (v other : Version) : bool := 0 <? Compare v other.
Definition IsOlderThan (v other : Version) : bool := Compare v other <? 0.
Definition Equals (v other : Version) : bool := Compare v other =? 0.
Definition IsStable (v : Version) : bool := String.eqb (Prerelease v) EmptyString.

Definition CompareVersionStrings (v1 v2 : string) : result string Z :=
  match ParseVersion v1 with
  | Err e => Err ("invalid version v1: " +:+ e)
  | Ok ver1 =>
      match ParseVersion v2 with
      | Err e => Err ("invalid version v2: " +:+ e)
      | Ok ver2 => Ok (Compare ver1 ver2)
      end
  end.

Definition IsNewerVersion (v1 v2 : string) : result string bool :=
  r ← CompareVersionStrings v1 v2; Ok (0 <? r).

Example version_examples :
  String_ (MkVersion 1 20 3 "beta.1" "77") = "1.20.3-beta.1+77" /\
  ParseVersion "v1.20" = Ok (MkVersion 1 20 0 EmptyString EmptyString) /\
  is_ok (ParseVersion "1..2") = false /\
  is_ok (ParseVersion "99999999999999999999") = false.
Proof. vm_compute. done. Qed.

(** ** Parsing what was printed *)

Definition numbers (v : Version) : string :=
  itoa (Major v) +:+ "." +:+ itoa (Minor v) +:+ "." +:+ itoa (Patch v).

Record printable (v : Version) : Prop := {
  print_major : 0 <= Major v <= max_int64;
  print_minor : 0 <= Minor v <= max_int64;
  print_patch : 0 <= Patch v <= max_int64;
  print_pre : free_of "+" (Prerelease v) = true;
}.

Lemma numbers_free c v :
  printable v -> c ∈ ["v"; "+"; "-"]%char -> free_of c (numbers v) = true.
Proof.
  intros [[H1 _] [H2 _] [H3 _] _] Hc. unfold numbers. rewrite !free_app, !itoa_free by set_solver by lia.
  revert c Hc. apply Forall_forall. repeat constructor.
Qed.

(** [SplitN] by a separator that the first part does not contain. *)
Lemma split2_opt c s t (b : bool) :
  free_of c s = true ->
  split2 c (if b then s else s +:+ String c t) = (s, if b then None else Some t).
Proof. intros Hs. destruct b; [by apply split2_none|by apply split2_some]. Qed.

Lemma default_empty (s : string) :
  default EmptyString (if String.eqb s EmptyString then None else Some s) = s.
Proof. destruct (String.eqb_spec s EmptyString) as [->|]; done. Qed.

Lemma String_parts v :
  String_ v =
    let core := if String.eqb (Prerelease v) EmptyString then numbers v
                else numbers v +:+ String "-" (Prerelease v) in
    if String.eqb (Build v) EmptyString then core else core +:+ String "+" (Build v).
Proof. done. Qed.

Lemma trim_v_numbers v t : printable v -> trim_v (numbers v +:+ t) = numbers v +:+ t.
Proof.
  intros [[H1 _] _ _ _]. unfold numbers. destruct (itoa_head (Major v) H1) as (d & r & Hd & ->).
  destruct (digit_char_spec d Hd) as [_ Hsep]. simpl.
  rewrite Forall_forall in Hsep. by rewrite (Hsep "v"%char) by set_solver.
Qed.

Lemma String_numbers v : exists t, String_ v = numbers v +:+ t.
Proof.
  rewrite String_parts. simpl.
  destruct (String.eqb (Prerelease v) _), (String.eqb (Build v) _).
  - exists EmptyString. by rewrite app_nil_string.
  - by eexists.
  - by eexists.
  - eexists. apply app_string_assoc.
Qed.

Lemma numbers_split v : printable v -> split "." (numbers v) = [itoa (Major v); itoa (Minor v); itoa (Patch v)].
Proof.
  intros [[H1 _] [H2 _] [H3 _] _]. unfold numbers.
  etrans; [apply (split_cons "." _ (itoa (Minor v) +:+ "." +:+ itoa (Patch v)))|].
  { apply itoa_free; [done|set_solver]. }
  f_equal. etrans; [apply (split_cons "." _ (itoa (Patch v)))|].
  { apply itoa_free; [done|set_solver]. }
  f_equal. apply split_free, itoa_free; [done|set_solver].
Qed.

(** ** Order *)

Definition rank (v : Version) : Z * Z * Z := (Major v, Minor v, Patch v).

(** Prereleases: none is above all, otherwise bytewise. *)
Definition pre_lt (p q : string) : bool :=
  if String.eqb p EmptyString then false
  else if String.eqb q EmptyString then true else String.ltb p q.

Definition lt_version (v w : Version) : bool :=
  (Major v <? Major w) ||
  ((Major v =? Major w) &&
   ((Minor v <? Minor w) ||
    ((Minor v =? Minor w) &&
     ((Patch v <? Patch w) ||
      ((Patch v =? Patch w) && pre_lt (Prerelease v) (Prerelease w)))))).

Lemma pre_lt_trans p q r : pre_lt p q = true -> pre_lt q r = true -> pre_lt p r = true.
Proof.
  unfold pre_lt. destruct (String.eqb_spec p EmptyString), (String.eqb_spec q EmptyString),
    (String.eqb_spec r EmptyString); try done. apply string_ltb_trans.
Qed.

Lemma pre_lt_asym p q : pre_lt p q = true -> pre_lt q p = false.
Proof.
  unfold pre_lt. destruct (String.eqb_spec p EmptyString), (String.eqb_spec q EmptyString);
    try done. apply string_ltb_asym.
Qed.

Lemma pre_lt_connected p q : pre_lt p q = false -> pre_lt q p = false -> p = q.
Proof.
  unfold pre_lt. destruct (String.eqb_spec p EmptyString), (String.eqb_spec q EmptyString);
    try congruence. apply string_ltb_connected.
Qed.

Definition same_version (v w : Version) : Prop :=
  rank v = rank w /\ Prerelease v = Prerelease w.

Lemma Compare_lt v w :
  Compare v w = if lt_version v w then -1 else if lt_version w v then 1 else 0.
Proof.
  unfold Compare, lt_version.
  destruct (Z.eqb_spec (Major v) (Major w)) as [->|]; simpl;
    [|bool_cases; simpl; done || lia].
  rewrite Z.ltb_irrefl, Z.eqb_refl. simpl.
  destruct (Z.eqb_spec (Minor v) (Minor w)) as [->|]; simpl;
    [|bool_cases; simpl; done || lia].
  rewrite Z.ltb_irrefl, Z.eqb_refl. simpl.
  destruct (Z.eqb_spec (Patch v) (Patch w)) as [->|]; simpl;
    [|bool_cases; simpl; done || lia].
  rewrite Z.ltb_irrefl, Z.eqb_refl. simpl. unfold pre_lt.
  destruct (String.eqb_spec (Prerelease v) EmptyString) as [->|],
    (String.eqb_spec (Prerelease w) EmptyString) as [->|]; simpl; try done.
  destruct (String.eqb_spec (Prerelease v) (Prerelease w)) as [->|Hne]; simpl.
  - by rewrite string_ltb_irrefl.
  - destruct (String.ltb (Prerelease v) (Prerelease w)) eqn:H1; [done|].
    destruct (String.ltb (Prerelease w) (Prerelease v)) eqn:H2; [done|].
    by destruct Hne; apply string_ltb_connected.
Qed.

Lemma lt_version_spec v w :
  lt_version v w = true <->
  Major v < Major w \/ (Major v = Major w /\
   (Minor v < Minor w \/ (Minor v = Minor w /\
    (Patch v < Patch w \/ (Patch v = Patch w /\
     pre_lt (Prerelease v) (Prerelease w) = true))))).
Proof.
  unfold lt_version. rewrite !orb_true_iff, !andb_true_iff, !Z.ltb_lt, !Z.eqb_eq.
  rewrite !orb_true_iff, !andb_true_iff, !Z.ltb_lt, !Z.eqb_eq.
  by rewrite !orb_true_iff, !andb_true_iff, !Z.ltb_lt, !Z.eqb_eq.
Qed.

(** Orders on three integers and a prerelease: destruct the comparisons of both specs. *)
Ltac lt_cases := repeat match goal with
  | H : lt_version _ _ = true |- _ => apply lt_version_spec in H
  | H : _ \/ _ |- _ => destruct H
  | H : _ /\ _ |- _ => destruct H
  end.

Lemma lt_version_trans u v w :
  lt_version u v = true -> lt_version v w = true -> lt_version u w = true.
Proof.
  intros H1 H2. apply lt_version_spec. lt_cases; try lia.
  do 3 (right; split; [congruence|]). by eapply pre_lt_trans.
Qed.

Lemma pre_lt_irrefl p : pre_lt p p = false.
Proof. destruct (pre_lt p p) eqn:H; [|done]. by pose proof (pre_lt_asym _ _ H); congruence. Qed.

Lemma lt_version_irrefl v w : same_version v w -> lt_version v w = false.
Proof.
  intros [Hr Hp]. injection Hr as H1 H2 H3. apply not_true_iff_false. intros H.
  lt_cases; try lia. rewrite Hp, pre_lt_irrefl in *. discriminate.
Qed.

Lemma lt_version_asym v w : lt_version v w = true -> lt_version w v = false.
Proof.
  intros H. apply not_true_iff_false. intros H'. pose proof (lt_version_trans _ _ _ H H') as Hvv.
  by rewrite lt_version_irrefl in Hvv.
Qed.

Lemma lt_version_connected v w :
  lt_version v w = false -> lt_version w v = false -> same_version v w.
Proof.
  rewrite <-!not_true_iff_false, !lt_version_spec. unfold same_version, rank. intros H1 H2.
  assert (Major v = Major w) as E1 by lia. assert (Minor v = Minor w) as E2 by lia.
  assert (Patch v = Patch w) as E3 by lia. split; [congruence|].
  apply pre_lt_connected; apply not_true_iff_false; intros H.
  - apply H1. do 3 (right; split; [done|]). done.
  - apply H2. do 3 (right; split; [done|]). done.
Qed.

(** The split by ["+"], then by ["-"]. *)
Lemma String_split v :
  printable v ->
  split2 "+" (String_ v)
    = (if String.eqb (Prerelease v) EmptyString then numbers v
       else numbers v +:+ String "-" (Prerelease v),
       if String.eqb (Build v) EmptyString then None else Some (Build v)) /\
  split2 "-" (if String.eqb (Prerelease v) EmptyString then numbers v
              else numbers v +:+ String "-" (Prerelease v))
    = (numbers v, if String.eqb (Prerelease v) EmptyString then None else Some (Prerelease v)).
Proof.
  intros Hv. rewrite String_parts. split.
  - apply split2_opt. destruct (String.eqb _ _); [apply numbers_free; [done|set_solver]|].
    rewrite free_app, numbers_free by (done || set_solver). simpl. apply (print_pre _ Hv).
  - apply split2_opt, numbers_free; [done|set_solver].
Qed.

(** ** Properties *)

(** Parsing a printed version gives it back, for numbers that fit an [int64] and are
    not negative, any build string and any prerelease without ["+"] (the prerelease may
    contain ["-"] and ["."]); an optional ["v"] in front changes nothing. *)
Theorem version_roundtrip v :
  printable v ->
  ParseVersion (String_ v) = Ok v /\ ParseVersion (String "v" (String_ v)) = Ok v.
Proof.
  intros Hv. destruct (String_numbers v) as [t Ht]. pose proof (trim_v_numbers v t Hv) as Htrim.
  assert (forall s, trim_v s = String_ v -> ParseVersion s = Ok v) as Hparse.
  { intros s Hs. unfold ParseVersion. rewrite Hs.
    destruct (String_ v) as [|a r] eqn:Hne.
    { exfalso. unfold numbers in Ht. destruct (itoa_head (Major v)) as (d & r & _ & Hd);
        [apply Hv|]. rewrite Hd in Ht. discriminate. }
    rewrite <-Hne. destruct (String_split v Hv) as [-> ->]. rewrite numbers_split by done.
    destruct Hv as [H1 H2 H3 _]. rewrite !Atoi_itoa by done. cbn [mbind result_bind].
    rewrite !default_empty. by destruct v. }
  split; apply Hparse; [by rewrite Ht|done].
Qed.

Lemma version_roundtrip_witness :
  ParseVersion (String "v" (String_ (MkVersion 1 20 3 "rc-1.2" "2024+x")))
    = Ok (MkVersion 1 20 3 "rc-1.2" "2024+x").
Proof.
  apply (version_roundtrip (MkVersion 1 20 3 "rc-1.2" "2024+x")).
  split; vm_compute; try (split; congruence); reflexivity.
Defined.

(** [Compare] is a total order on versions up to their build strings: it is
    antisymmetric, zero exactly for equal numbers and prereleases, and transitive.
    Prereleases compare bytewise, not by semantic versioning's rule: ["beta.10"] counts
    as older than ["beta.2"]. *)
Theorem version_order u v w :
  Compare v u = - Compare u v /\
  (Compare u v = 0 <-> same_version u v) /\
  (IsOlderThan u v = true -> IsOlderThan v w = true -> IsOlderThan u w = true) /\
  IsOlderThan (MkVersion 1 0 0 "beta.10" EmptyString) (MkVersion 1 0 0 "beta.2" EmptyString) = true.
Proof.
  unfold IsOlderThan. rewrite !Compare_lt.
  pose proof (lt_version_asym u v) as Huv. pose proof (lt_version_asym v u) as Hvu.
  pose proof (lt_version_trans u v w) as Ht.
  split_and!; [..|by vm_compute].
  - destruct (lt_version u v); [by rewrite Huv|]. by destruct (lt_version v u).
  - split.
    + destruct (lt_version u v) eqn:H1; [done|]. destruct (lt_version v u) eqn:H2; [done|].
      intros _. by apply lt_version_connected.
    + intros Hs. rewrite !lt_version_irrefl; [done|destruct Hs; by split|done].
  - destruct (lt_version u v); [|by destruct (lt_version v u)].
    destruct (lt_version v w); [by rewrite Ht|by destruct (lt_version w v)].
Qed.

Lemma version_order_witness :
  IsOlderThan (MkVersion 1 9 7 "rc.1" EmptyString) (MkVersion 1 10 0 EmptyString EmptyString) = true.
Proof.
  apply (version_order (MkVersion 1 9 7 "rc.1" EmptyString) (MkVersion 1 9 7 EmptyString "b1")
    (MkVersion 1 10 0 EmptyString EmptyString)); by vm_compute.
Defined.
