(* ===== verification/GoAny.v ===== *)
(** * GoAny: values of type [interface{}] and the outcomes of a call

    The services of [pkg/services] keep configurations, inputs and outputs as values
    whose type is known at run time only, as [encoding/json] decodes them.  [any] has a
    constructor per dynamic type that the code asserts or switches on; [AOther] is a value
    of any other comparable type, by the name of the type and the value's identity.  A nil
    map and an empty map behave alike in everything the code does with them, and are one
    value here.  A type assertion is a function to [option]; [==] on interfaces is
    [any_eq], which panics as Go does when both sides have the same type and that type is
    a map or a slice. *)

From stdpp Require Import base decidable gmap strings list.
From Stdlib Require Import ZArith Lia.
From Corelib Require Import SpecFloat.
From S2P Require Import Prelude GoFloat GoStrings.

Local Open Scope string_scope.
Local Open Scope Z_scope.

Inductive any : Type :=
| ANil
| ABool (b : bool)
| AInt (z : Z)
| AInt32 (z : Z)
| AInt64 (z : Z)
| AFloat32 (f : float64)
| AFloat (f : float64)
| AString (s : string)
| AList (l : list any)
| AStrings (l : list string)
| AInts (l : list Z)
| AFloats (l : list float64)
| AMap (m : gmap string any)
| AOther (type : string) (id : Z).

(** [%T]. *)
Definition type_name (v : any) : string :=
  match v with
  | ANil => "<nil>"
  | ABool _ => "bool"
  | AInt _ => "int"
  | AInt32 _ => "int32"
  | AInt64 _ => "int64"
  | AFloat32 _ => "float32"
  | AFloat _ => "float64"
  | AString _ => "string"
  | AList _ => "[]interface {}"
  | AStrings _ => "[]string"
  | AInts _ => "[]int"
  | AFloats _ => "[]float64"
  | AMap _ => "map[string]interface {}"
  | AOther t _ => t
  end.

(** The assertions [v.(T)] of the code. *)
Definition as_string (v : any) : option string := match v with AString s => Some s | _ => None end.
Definition as_bool (v : any) : option bool := match v with ABool b => Some b | _ => None end.
Definition as_int (v : any) : option Z := match v with AInt z => Some z | _ => None end.
Definition as_float (v : any) : option float64 := match v with AFloat f => Some f | _ => None end.
Definition as_map (v : any) : option (gmap string any) := match v with AMap m => Some m | _ => None end.
Definition as_list (v : any) : option (list any) := match v with AList l => Some l | _ => None end.
Definition is_nil (v : any) : bool := match v with ANil => true | _ => false end.

(** [m[k]]: the zero value of [interface{}] is nil. *)
Definition field (m : gmap string any) (k : string) : any := get ANil m k.

(** [a == b] on two interfaces. *)
Inductive comparison_result := Compared (b : bool) | Uncomparable.

Definition any_eq (a b : any) : comparison_result :=
  match a, b with
  | ANil, ANil => Compared true
  | ABool x, ABool y => Compared (bool_decide (x = y))
  | AInt x, AInt y => Compared (x =? y)
  | AInt32 x, AInt32 y => Compared (x =? y)
  | AInt64 x, AInt64 y => Compared (x =? y)
  | AFloat32 x, AFloat32 y => Compared (f64_eq x y)
  | AFloat x, AFloat y => Compared (f64_eq x y)
  | AString x, AString y => Compared (String.eqb x y)
  | AOther t x, AOther u y => Compared (String.eqb t u && (x =? y))
  | AList _, AList _ | AStrings _, AStrings _ | AInts _, AInts _
  | AFloats _, AFloats _ | AMap _, AMap _ => Uncomparable
  | _, _ => Compared false
  end.

(** [%v].  A map is printed in the order of its keys; [other] prints the values of the types
    that are not modelled. *)
Definition brackets (l : list string) : string := "[" +:+ Join l " " +:+ "]".

Fixpoint insert_pair (kv : string * string) (l : list (string * string)) : list (string * string) :=
  match l with
  | [] => [kv]
  | x :: l' => if String.ltb kv.1 x.1 then kv :: l else x :: insert_pair kv l'
  end.
Definition print_map (l : list (string * string)) : string :=
  "map" +:+ brackets ((λ kv : string * string, kv.1 +:+ ":" +:+ kv.2) <$> foldr insert_pair [] l).

Section sprint.
Context (other : string -> Z -> string).

Fixpoint sprint (v : any) : string :=
  match v with
  | ANil => "<nil>"
  | ABool b => if b then "true" else "false"
  | AInt z | AInt32 z | AInt64 z => itoa z
  | AFloat32 f => format_float32 f
  | AFloat f => format_float f
  | AString s => s
  | AList l => brackets (map sprint l)
  | AStrings l => brackets l
  | AInts l => brackets (map itoa l)
  | AFloats l => brackets (map format_float l)
  | AMap m => print_map (map_to_list (sprint <$> m))
  | AOther t id => other t id
  end.
End sprint.

Example sprint_examples :
  sprint (λ t _, t) (AMap (<["b" := AList [AInt 1; ANil]]> (<["a" := ABool true]> ∅)))
    = "map[a:true b:[1 <nil>]]" /\
  sprint (λ t _, t) (AFloat (f64_of_Z 25)) = "25".
Proof. vm_compute. done. Qed.

(** What [encoding/json] decodes into an [interface{}]: numbers become [float64]. *)
Inductive from_json : any -> Prop :=
| json_null : from_json ANil
| json_bool b : from_json (ABool b)
| json_number f : from_json (AFloat f)
| json_string s : from_json (AString s)
| json_array l : (forall v, v ∈ l -> from_json v) -> from_json (AList l)
| json_object m : (forall k v, m !! k = Some v -> from_json v) -> from_json (AMap m).

Lemma any_eq_type a b : any_eq a b = Compared true -> type_name a = type_name b.
Proof.
  destruct a, b; simpl; try done. intros [= H].
  apply andb_prop in H as [H _]. by apply String.eqb_eq in H.
Qed.

Lemma any_eq_uncomparable a b :
  any_eq a b = Uncomparable ->
  type_name a = type_name b /\ as_string a = None /\ as_bool a = None /\ as_int a = None.
Proof. by destruct a, b. Qed.

Lemma from_json_no_int v : from_json v -> as_int v = None.
Proof. by destruct 1. Qed.

Lemma from_json_field m k : from_json (AMap m) -> from_json (field m k).
Proof.
  inversion 1 as [| | | | |m' Hm]; subst. unfold field, get.
  destruct (m !! k) as [v|] eqn:Hk; simpl; [by eapply Hm|constructor].
Qed.

(** ** Outcomes

    A function with an error result returns a value, returns an error, or panics. *)

Inductive outcome (E A : Type) : Type :=
| Returns (a : A)
| Fails (e : E)
| Panics.
Arguments Returns {E A} a.
Arguments Fails {E A} e.
Arguments Panics {E A}.

#[export] Instance outcome_ret {E} : MRet (outcome E) := @Returns E.
#[export] Instance outcome_bind {E} : MBind (outcome E) :=
  λ A B f m, match m with Returns a => f a | Fails e => Fails e | Panics => Panics end.

(** [if err != nil { return wrap(err) }]. *)
Definition map_err {E F A} (wrap : E -> F) (m : outcome E A) : outcome F A :=
  match m with Returns a => Returns a | Fails e => Fails (wrap e) | Panics => Panics end.

(** [err == nil]. *)
Definition is_returns {E A} (m : outcome E A) : bool :=
  match m with Returns _ => true | _ => false end.

(** [for _, x := range l { if err := f(x); err != nil { return err } }]. *)
Fixpoint for_each {E A} (f : A -> outcome E unit) (l : list A) : outcome E unit :=
  match l with
  | [] => Returns ()
  | x :: l => f x ≫= λ _, for_each f l
  end.

Lemma outcome_bind_returns {E A B} (m : outcome E A) (f : A -> outcome E B) b :
  m ≫= f = Returns b <-> exists a, m = Returns a /\ f a = Returns b.
Proof. destruct m; simpl; naive_solver. Qed.

Lemma for_each_returns {E A} (f : A -> outcome E unit) l :
  for_each f l = Returns () <-> Forall (λ x, f x = Returns ()) l.
Proof.
  induction l as [|x l IH]; cbn [for_each]; [done|].
  rewrite outcome_bind_returns, Forall_cons, <-IH. split.
  - intros ([] & ? & ?). done.
  - intros [? ?]. by exists ().
Qed.

Lemma for_each_permutation {E A} (f : A -> outcome E unit) l l' :
  l ≡ₚ l' -> for_each f l = Returns () <-> for_each f l' = Returns ().
Proof. intros Hl. rewrite !for_each_returns, !Forall_forall. by setoid_rewrite Hl. Qed.

#[export] Hint Rewrite @outcome_bind_returns @for_each_returns : go.

(** ** Maps whose keys are interfaces

    A Go map of type [map[interface{}]V]: keys are compared with [==] and a key of a type
    that cannot be compared panics.  A map is a list of pairs, the oldest first. *)

Module AnyMap.
Section map.
Context {V : Type}.
Implicit Types (m : list (any * V)) (k : any).

(** The type of a key that can be hashed. *)
Definition hashable (k : any) : bool :=
  match k with AList _ | AStrings _ | AInts _ | AFloats _ | AMap _ => false | _ => true end.
Definition same_key (a b : any) : bool := match any_eq a b with Compared b => b | Uncomparable => false end.

Definition find_key (k : any) m : option V := snd <$> List.find (λ kv, same_key k (fst kv)) m.
Definition delete_key (k : any) m : list (any * V) := filter (λ kv, same_key k (fst kv) = false) m.
Fixpoint put_key (k : any) (v : V) m : list (any * V) :=
  match m with
  | [] => [(k, v)]
  | (k', v') :: m => if same_key k k' then (k', v) :: m else (k', v') :: put_key k v m
  end.

(** [m[k]], [m[k] = v] and [delete(m, k)]. *)
Definition any_lookup (k : any) m : outcome () (option V) := if hashable k then Returns (find_key k m) else Panics.
Definition any_insert (k : any) (v : V) m : outcome () (list (any * V)) := if hashable k then Returns (put_key k v m) else Panics.
Definition any_delete (k : any) m : outcome () (list (any * V)) := if hashable k then Returns (delete_key k m) else Panics.

Lemma find_put k v m : same_key k k = true -> find_key k (put_key k v m) = Some v.
Proof.
  intros Hk. unfold find_key. induction m as [|[k' v'] m IH]; cbn; [by rewrite Hk|].
  destruct (same_key k k') eqn:H; cbn; rewrite H; [done|exact IH].
Qed.

Lemma length_put_new k v m : find_key k m = None -> length (put_key k v m) = S (length m).
Proof.
  unfold find_key. induction m as [|[k' v'] m IH]; cbn; [done|]. destruct (same_key k k'); [done|]. cbn. intros H. by rewrite IH.
Qed.

Lemma length_delete k m : (length (delete_key k m) <= length m)%nat.
Proof. unfold delete_key. apply length_filter. Qed.

Lemma find_delete k m : find_key k (delete_key k m) = None.
Proof.
  unfold find_key, delete_key. induction m as [|[k' v'] m IH]; [done|]. rewrite filter_cons. cbn.
  destruct (same_key k k') eqn:H; case_decide; try done. cbn. rewrite H. exact IH.
Qed.

Lemma put_elem k v m kv :
  kv ∈ put_key k v m -> kv ∈ m \/ snd kv = v /\ (same_key k (fst kv) = true \/ fst kv = k).
Proof.
  induction m as [|[k' v'] m IH]; cbn; [intros ->%list_elem_of_singleton; right; split; [done|by right]|].
  destruct (same_key k k') eqn:E; cbn; intros [H|H]%elem_of_cons; [rewrite H; right; auto|left; by right|left; rewrite H; by left|].
  destruct (IH H); [left; by right|by right].
Qed.
Lemma delete_elem k m kv : kv ∈ delete_key k m <-> same_key k (fst kv) = false /\ kv ∈ m.
Proof. unfold delete_key. by rewrite list_elem_of_filter. Qed.
Lemma find_elem k v m : find_key k m = Some v -> exists k', (k', v) ∈ m /\ same_key k k' = true.
Proof.
  unfold find_key. induction m as [|[k' v'] m IH]; cbn; [done|]. destruct (same_key k k') eqn:H; cbn.
  - intros [= <-]. exists k'. split; [left|done].
  - intros Hf. destruct (IH Hf) as (k1 & Hin & Hk). exists k1. split; [by right|done].
Qed.
End map.
End AnyMap.
