(* ===== verification/UnicodeText.v ===== *)
(** * UnicodeText: words and white space in text

    The Unicode tables of Go's [unicode] package are arguments ([Unicode]), but for
    [IsSpace]; [strings.TrimSpace] and [strings.Fields] of valid strings are described in
    terms of runes. *)

From stdpp Require Import base decidable list strings.
From Stdlib Require Import ZArith Ascii Lia.
From S2P Require Import Prelude Utf8 GoStrings GoParse GoAny.

Local Open Scope Z_scope.

(** [unicode.IsPunct], [IsUpper], [IsDigit], [strings.ToLower] and [ToUpper]. *)
Class Unicode := {
  IsPunct : Z -> bool;
  IsUpper : Z -> bool;
  IsDigit : Z -> bool;
  to_lower : string -> string;
  to_upper : string -> string;
}.

Definition upper_char (a : ascii) : ascii :=
  let n := Ascii.N_of_ascii a in
  if ((97 <=? n) && (n <=? 122))%N then Ascii.ascii_of_N (n - 32) else a.
Fixpoint map_string (f : ascii -> ascii) (s : string) : string :=
  match s with EmptyString => EmptyString | String a s => String (f a) (map_string f s) end.

(** The tables for ASCII, for examples. *)
Definition ascii_unicode : Unicode := {|
  IsPunct r := between 33 35 r || between 37 42 r || between 44 47 r || between 58 59 r || between 63 64 r ||
               between 91 93 r || (r =? 95) || (r =? 123) || (r =? 125);
  IsUpper := between 65 90;
  IsDigit := between 48 57;
  to_lower := ToLower;
  to_upper := map_string upper_char;
|}.

(** ** Slices and joins *)

Section slices.
Local Open Scope string_scope.
Local Open Scope Z_scope.

Definition newline : string := String (Ascii.ascii_of_nat 10) EmptyString.

(** [s[:i]] and [s[i:]]. *)
Definition slice_to (i : Z) (s : string) : outcome () string :=
  if (0 <=? i) && (i <=? len s) then Returns (take_bytes (Z.to_nat i) s) else Panics.
Definition slice_from (i : Z) (s : string) : outcome () string :=
  if (0 <=? i) && (i <=? len s) then Returns (drop_bytes (Z.to_nat i) s) else Panics.

Lemma string_length_app s t : String.length (s +:+ t) = (String.length s + String.length t)%nat.
Proof. induction s as [|a s IH]; [done|]. exact (f_equal S IH). Qed.
Lemma len_app s t : len (s +:+ t) = len s + len t.
Proof. unfold len. rewrite string_length_app. lia. Qed.
Lemma len_nonneg s : 0 <= len s.
Proof. unfold len. lia. Qed.
Lemma len_pos s : s ≠ "" -> 0 < len s.
Proof. unfold len. destruct s; [done|]. simpl. lia. Qed.

Lemma Join_app l l' : Join (l ++ l')%list "" = Join l "" +:+ Join l' "".
Proof.
  induction l as [|x l IH]; [done|]. destruct l as [|y l]; [by destruct l'; simpl; rewrite ?app_empty_r|].
  change (Join ((x :: y :: l) ++ l') "") with (x +:+ ("" +:+ Join ((y :: l) ++ l') "")). rewrite IH.
  change (Join (x :: y :: l) "") with (x +:+ ("" +:+ Join (y :: l) "")). cbn [String.append]. by rewrite app_assoc_s.
Qed.
Lemma Join_cons x l : Join (x :: l) "" = x +:+ Join l "".
Proof. exact (Join_app [x] l). Qed.

Lemma take_len n s : (n <= String.length s)%nat -> String.length (take_bytes n s) = n.
Proof. revert s. induction n as [|n IH]; intros [|a s]; simpl; [done..|lia|]. intros H. by rewrite IH by lia. Qed.
Lemma drop_len n s : (n <= String.length s)%nat -> String.length (drop_bytes n s) = (String.length s - n)%nat.
Proof. revert s. induction n as [|n IH]; intros [|a s]; simpl; [done..|]. intros H. by rewrite IH by lia. Qed.

Lemma slices i s :
  0 <= i <= len s -> ∃ p q, slice_to i s = Returns p /\ slice_from i s = Returns q /\ s = p +:+ q /\ len p = i /\ len q = len s - i.
Proof.
  intros Hi. exists (take_bytes (Z.to_nat i) s), (drop_bytes (Z.to_nat i) s). unfold slice_to, slice_from.
  assert ((0 <=? i) && (i <=? len s) = true) as -> by (apply andb_true_iff; lia).
  unfold len in *. rewrite take_drop_bytes, take_len, drop_len by lia. split_and!; lia || done.
Qed.

End slices.

(** ** Runs *)

Section runs.
Context {A : Type} (p : A -> bool).
Fixpoint take_run (l : list A) : list A :=
  match l with x :: l => if p x then x :: take_run l else [] | [] => [] end.
Fixpoint drop_run (l : list A) : list A :=
  match l with x :: r => if p x then drop_run r else l | [] => [] end.

Lemma take_drop_run l : take_run l ++ drop_run l = l.
Proof. induction l as [|x l IH]; [done|]. simpl. destruct (p x); [simpl; by rewrite IH|done]. Qed.
Lemma take_run_drop l : take_run l ++ drop (length (take_run l)) l = l.
Proof. rewrite <- (take_drop_run l) at 3. rewrite drop_app_length. apply take_drop_run. Qed.
Lemma take_run_all l : Forall (λ x, p x = true) (take_run l).
Proof. induction l as [|x l IH]; [constructor|]. simpl. destruct (p x) eqn:Hx; by constructor. Qed.
Lemma take_run_full l : Forall (λ x, p x = true) l -> take_run l = l.
Proof. induction 1 as [|x l Hx _ IH]; [done|]. simpl. by rewrite Hx, IH. Qed.
Lemma take_run_app l x r : p x = false -> (length (take_run (l ++ x :: r)) <= length l)%nat.
Proof. intros Hx. induction l as [|y l IH]; simpl; [by rewrite Hx|]. destruct (p y); simpl; lia. Qed.
Lemma drop_run_first l x r : drop_run l = x :: r -> p x = false.
Proof. induction l as [|y l IH]; [done|]. simpl. destruct (p y) eqn:Hy; [done|]. by intros [= <- <-]. Qed.

(** Without the run at the end. *)
Definition strip_end (l : list A) : list A := rev (drop_run (rev l)).
Lemma strip_end_split l : ∃ r, l = strip_end l ++ r /\ Forall (λ x, p x = true) r.
Proof.
  exists (rev (take_run (rev l))). split; [|apply Forall_rev, take_run_all]. unfold strip_end.
  by rewrite <- rev_app_distr, take_drop_run, rev_involutive.
Qed.
Lemma strip_end_nil l : strip_end l = [] -> Forall (λ x, p x = true) l.
Proof. intros H. destruct (strip_end_split l) as (r & -> & Hr). by rewrite H. Qed.
Lemma strip_end_all l : Forall (λ x, p x = true) l -> strip_end l = [].
Proof.
  intros H. unfold strip_end. apply Forall_rev in H. assert (drop_run (rev l) = []) as ->; [|done].
  rewrite <- (app_nil_r (rev l)). clear -H. revert H. generalize (rev l). intros l'. induction 1 as [|x l' Hx _ IH]; [done|].
  simpl. by rewrite Hx.
Qed.
Lemma drop_run_app l r : drop_run l ≠ [] -> drop_run (l ++ r) = drop_run l ++ r.
Proof. induction l as [|x l IH]; [done|]. simpl. by destruct (p x). Qed.
Lemma strip_end_cons x l : strip_end (x :: l) = if bool_decide (strip_end l = []) && p x then [] else x :: strip_end l.
Proof.
  unfold strip_end. cbn [rev]. case_bool_decide as H; cbn [andb].
  - assert (drop_run (rev l) = []) as Hd by (apply (f_equal (@rev A)) in H; by rewrite rev_involutive in H).
    assert (drop_run (rev l ++ [x]) = drop_run [x]) as ->.
    { clear H. revert Hd. generalize (rev l). intros l'. induction l' as [|y l' IH]; [done|]. simpl. destruct (p y); [done|discriminate]. }
    rewrite Hd. simpl. by destruct (p x).
  - rewrite drop_run_app; [by rewrite rev_app_distr|]. intros Hd. by rewrite Hd in H.
Qed.
End runs.

(** ** [TrimSpace] *)

Definition encode_runes (rs : list Z) : list Z := rs ≫= encode_rune.
Definition valid_runes (rs : list Z) : Prop := Forall (λ r, valid_rune r = true) rs.
Definition trim_runes (rs : list Z) : list Z := strip_end IsSpace (drop_run IsSpace rs).

Lemma encode_runes_cons r rs : encode_runes (r :: rs) = encode_rune r ++ encode_runes rs.
Proof. done. Qed.
Lemma encode_runes_app rs rs' : encode_runes (rs ++ rs') = encode_runes rs ++ encode_runes rs'.
Proof. apply bind_app. Qed.

Lemma encode_rune_tail r : valid_rune r = true -> ∃ b l, encode_rune r = b :: l /\ Forall (λ x, cont x = true) l /\
  ∀ rest, decode_rune b (l ++ rest) = (r, S (length l)).
Proof.
  intros Hr. destruct (decode_encode r [] Hr) as (b & l & He & _). exists b, l. split; [done|]. split.
  - revert He. unfold encode_rune. repeat case_match; intros [= <- <-]; repeat constructor; apply cont_low6 || done.
  - intros rest. destruct (decode_encode r rest Hr) as (b' & l' & He' & Hd). rewrite He in He'. by injection He' as <- <-.
Qed.

Lemma leading_space_encode fuel rs :
  valid_runes rs -> (length (encode_runes rs) <= fuel)%nat ->
  leading_space fuel (encode_runes rs) = length (encode_runes (take_run IsSpace rs)).
Proof.
  intros Hv. revert fuel. induction Hv as [|r rs Hr Hv IH]; intros fuel Hf; [by destruct fuel|].
  rewrite encode_runes_cons in *. destruct (encode_rune_tail r Hr) as (b & l & He & _ & Hd). rewrite He in *. cbn [app] in *.
  destruct fuel as [|fuel]; [simpl in Hf; lia|]. cbn [leading_space]. rewrite Hd. cbn [take_run].
  destruct (IsSpace r); [|done]. rewrite encode_runes_cons, He. cbn [length app] in *. rewrite length_app in *.
  rewrite Nat.sub_succ, Nat.sub_0_r, drop_app_length, IH by lia. lia.
Qed.

Lemma leading_space_cont fuel b rest : cont b = true -> leading_space fuel (b :: rest) = 0%nat.
Proof.
  intros Hb%between_true. destruct fuel as [|fuel]; [done|]. cbn [leading_space].
  assert (decode_rune b rest = (RuneError, 1%nat)) as ->; [|done].
  unfold decode_rune. utf8_cases; lia || done.
Qed.

Lemma before_space_cont l rest fuel :
  Forall (λ x, cont x = true) l -> (length (l ++ rest) <= fuel)%nat ->
  before_space (l ++ rest) fuel = (length l + before_space rest (fuel - length l))%nat.
Proof.
  intros Hl. revert fuel. induction Hl as [|b l Hb Hl IH]; intros fuel Hf; [simpl; by rewrite Nat.sub_0_r|].
  destruct fuel as [|fuel]; [simpl in Hf; lia|]. cbn [before_space app]. rewrite leading_space_cont by done.
  cbn [length Nat.eqb]. rewrite IH by (simpl in Hf; lia). simpl. lia.
Qed.

Lemma before_space_encode fuel rs :
  valid_runes rs -> (length (encode_runes rs) <= fuel)%nat ->
  before_space (encode_runes rs) fuel = length (encode_runes (strip_end IsSpace rs)).
Proof.
  intros Hv. revert fuel. induction Hv as [|r rs Hr Hv IH]; intros fuel Hf; [by destruct fuel|].
  pose proof (leading_space_encode (length (encode_runes (r :: rs))) (r :: rs) ltac:(by constructor) (le_n _)) as Hlead.
  rewrite strip_end_cons. rewrite encode_runes_cons in *. destruct (encode_rune_tail r Hr) as (b & l & He & Hl & _).
  rewrite He in *. cbn [app] in *. destruct fuel as [|fuel]; [simpl in Hf; lia|]. cbn [before_space]. rewrite Hlead.
  case_bool_decide as Hs; cbn [andb].
  - apply strip_end_nil in Hs. cbn [take_run]. destruct (IsSpace r) eqn:Hsp.
    + rewrite take_run_full, encode_runes_cons, He by done. by rewrite Nat.eqb_refl.
    + change (encode_runes []) with (@nil Z). cbn [length Nat.eqb]. rewrite before_space_cont by (done || (simpl in Hf; lia)).
      rewrite IH by (simpl in Hf; rewrite length_app in Hf; lia).
      rewrite (strip_end_all IsSpace rs Hs), encode_runes_cons, He. change (encode_runes []) with (@nil Z).
      rewrite app_nil_r. simpl. lia.
  - assert (length (encode_runes (take_run IsSpace (r :: rs))) <> length (b :: l ++ encode_runes rs)) as Hne.
    { change (b :: l ++ encode_runes rs) with ((b :: l) ++ encode_runes rs). rewrite <- He, <- encode_runes_cons.
      rewrite <- (take_drop_run IsSpace (r :: rs)) at 2. rewrite encode_runes_app, length_app. intros Heq.
      assert (drop_run IsSpace (r :: rs) = []) as Hnil.
      { destruct (drop_run IsSpace (r :: rs)) as [|y ys] eqn:Hd; [done|]. exfalso.
        rewrite encode_runes_cons, length_app in Heq. destruct (encode_rune_ascii y) as [Hy|[Hy _]]; [rewrite Hy in Heq; simpl in Heq; lia|].
        destruct (encode_rune y); [done|]. simpl in Heq. lia. }
      apply Hs, strip_end_all. pose proof (take_drop_run IsSpace (r :: rs)) as Hrun. rewrite Hnil, app_nil_r in Hrun.
      pose proof (take_run_all IsSpace (r :: rs)) as Hall. rewrite Hrun in Hall. by apply Forall_cons in Hall as [_ ?]. }
    rewrite (proj2 (Nat.eqb_neq _ _) Hne), before_space_cont by (done || (simpl in Hf; lia)).
    rewrite IH by (simpl in Hf; rewrite length_app in Hf; lia). rewrite encode_runes_cons, He. simpl. rewrite length_app. lia.
Qed.

Lemma string_of_length bs : String.length (string_of bs) = length bs.
Proof. induction bs as [|b bs IH]; [done|]. exact (f_equal S IH). Qed.

Lemma runes_encode rs : string_of_runes rs = string_of (encode_runes rs).
Proof. done. Qed.

Lemma valid_app rs rs' : valid_runes (rs ++ rs') <-> valid_runes rs /\ valid_runes rs'.
Proof. apply Forall_app. Qed.

Lemma trim_runes_split rs : ∃ a b, rs = a ++ trim_runes rs ++ b /\ Forall (λ r, IsSpace r = true) a /\ Forall (λ r, IsSpace r = true) b.
Proof.
  destruct (strip_end_split IsSpace (drop_run IsSpace rs)) as (b & Hb & Hsp).
  exists (take_run IsSpace rs), b. unfold trim_runes. rewrite <- Hb, take_drop_run. split; [done|]. split; [apply take_run_all|done].
Qed.

Lemma trim_runes_valid rs : valid_runes rs -> valid_runes (trim_runes rs).
Proof. intros Hv. destruct (trim_runes_split rs) as (a & b & H & _). rewrite H in Hv. rewrite !valid_app in Hv. tauto. Qed.

Lemma take_bytes_app s t : take_bytes (String.length s) (s +:+ t) = s.
Proof. induction s as [|a s IH]; [by destruct t|]. exact (f_equal (String a) IH). Qed.

(** Trimming a valid string takes away the runes of white space at both ends. *)
Lemma TrimSpace_runes rs : valid_runes rs -> TrimSpace (string_of_runes rs) = string_of_runes (trim_runes rs).
Proof.
  intros Hv. unfold TrimSpace. rewrite bytes_of_string_of_runes, runes_encode, string_of_length, leading_space_encode by done.
  assert (drop_bytes (length (encode_runes (take_run IsSpace rs))) (string_of (encode_runes rs)) =
    string_of (encode_runes (drop_run IsSpace rs))) as ->.
  { rewrite <- (take_drop_run IsSpace rs) at 2. rewrite encode_runes_app, string_of_app.
    rewrite <- (string_of_length (encode_runes (take_run IsSpace rs))). apply drop_app. }
  assert (valid_runes (drop_run IsSpace rs)) as Hd.
  { rewrite <- (take_drop_run IsSpace rs) in Hv. by apply valid_app in Hv as [_ ?]. }
  rewrite <- runes_encode, bytes_of_string_of_runes, runes_encode, string_of_length.
  change (drop_run IsSpace rs ≫= encode_rune) with (encode_runes (drop_run IsSpace rs)).
  rewrite before_space_encode by done. change (strip_end IsSpace (drop_run IsSpace rs)) with (trim_runes rs).
  destruct (strip_end_split IsSpace (drop_run IsSpace rs)) as (b & Hb & _).
  change (strip_end IsSpace (drop_run IsSpace rs)) with (trim_runes rs) in Hb. rewrite Hb.
  rewrite encode_runes_app, string_of_app, <- (string_of_length (encode_runes (trim_runes rs))).
  rewrite runes_encode. apply take_bytes_app.
Qed.

(** What is not white space. *)
Definition ink (rs : list Z) : list Z := filter (λ r, IsSpace r = false) rs.

Lemma ink_app rs rs' : ink (rs ++ rs') = ink rs ++ ink rs'.
Proof. apply filter_app. Qed.
Lemma ink_spaces rs : Forall (λ r, IsSpace r = true) rs -> ink rs = [].
Proof. induction 1 as [|r rs Hr _ IH]; [done|]. unfold ink. rewrite filter_cons_False; [done|]. by rewrite Hr. Qed.
Lemma ink_trim rs : ink (trim_runes rs) = ink rs.
Proof.
  destruct (trim_runes_split rs) as (a & b & H & Ha & Hb). rewrite H at 2.
  by rewrite !ink_app, (ink_spaces a Ha), (ink_spaces b Hb), app_nil_r.
Qed.

(** ** [Fields] *)

Definition flush (cur : list Z) : list (list Z) := match cur with [] => [] | _ => [cur] end.

(** Each rune takes at least one byte, so the number of bytes is enough fuel. *)
Fixpoint fields_from (fuel : nat) (cur bs : list Z) : list (list Z) :=
  match fuel, bs with
  | S fuel, b :: rest =>
      let '(r, w) := decode_rune b rest in
      if IsSpace r then flush cur ++ fields_from fuel [] (drop (w - 1) rest)
      else fields_from fuel (cur ++ take w bs) (drop (w - 1) rest)
  | _, _ => flush cur
  end.
(** [strings.Fields(s)]. *)
Definition Fields (s : string) : list string :=
  let bs := bytes_of s in string_of <$> fields_from (length bs) [] bs.

Example fields_example : Fields "  one two	three " = ["one"; "two"; "three"]%string.
Proof. vm_compute. reflexivity. Qed.
