(* ===== verification/Json.v ===== *)
(** * Json: [encoding/json]

    What the services use of Go's [encoding/json]: parsing a text, decoding a value into an
    [interface{}] and into the fields of a structure, and encoding.  The limit on the depth
    of nesting is left out.  A decoding error is remembered and decoding goes on, as in the
    package; the fuel of the parser is the length of the text. *)

From stdpp Require Import base decidable gmap strings list sorting.
From Stdlib Require Import ZArith Ascii Lia.
From Corelib Require Import SpecFloat.
From S2P Require Import Prelude GoFloat GoStrings Utf8 GoParse GoAny.

Local Open Scope string_scope.
Local Open Scope Z_scope.

(** A number is its literal; an object has its members in the order of the text. *)
Inductive json :=
| JNull
| JBool (b : bool)
| JNumber (literal : string)
| JString (s : string)
| JArray (l : list json)
| JObject (l : list (string * json)).

(** ** Parsing *)

Definition json_space (a : ascii) : bool :=
  let n := Z.of_N (Ascii.N_of_ascii a) in (n =? 32) || (n =? 9) || (n =? 10) || (n =? 13).
Fixpoint skip_space (s : string) : string :=
  match s with String a r => if json_space a then skip_space r else s | EmptyString => s end.

(** The digits at the front of a text. *)
Fixpoint take_digits (s : string) : string * string :=
  match s with
  | String a r =>
      match digit_value a with
      | Some _ => let '(d, r) := take_digits r in (String a d, r)
      | None => (EmptyString, s)
      end
  | EmptyString => (EmptyString, EmptyString)
  end.

Definition optional_sign (s : string) : string * string :=
  match s with
  | String a r => if Ascii.eqb a "+" || Ascii.eqb a "-" then (String a EmptyString, r) else (EmptyString, s)
  | EmptyString => (EmptyString, s)
  end.

(** A sign, an integer without leading zeros, a fraction and an exponent, at the front of a
    text. *)
Definition parse_number (s : string) : option (string * string) :=
  let '(sign, s) := match s with
                    | String a r => if Ascii.eqb a "-" then ("-", r) else (EmptyString, s)
                    | EmptyString => (EmptyString, s)
                    end in
  let '(d, rest) := match s with
                    | String a r => if Ascii.eqb a "0" then ("0", r) else take_digits s
                    | EmptyString => (EmptyString, s)
                    end in
  if String.eqb d EmptyString then None else
  let with_fraction :=
    match rest with
    | String a r =>
        if Ascii.eqb a "." then
          let '(f, r) := take_digits r in if String.eqb f EmptyString then None else Some (String a f, r)
        else Some (EmptyString, rest)
    | EmptyString => Some (EmptyString, rest)
    end in
  match with_fraction with
  | None => None
  | Some (f, rest) =>
      match rest with
      | String a r =>
          if Ascii.eqb a "e" || Ascii.eqb a "E" then
            let '(g, r) := optional_sign r in
            let '(x, r) := take_digits r in
            if String.eqb x EmptyString then None else Some (sign +:+ d +:+ f +:+ String a (g +:+ x), r)
          else Some (sign +:+ d +:+ f, rest)
      | EmptyString => Some (sign +:+ d +:+ f, rest)
      end
  end.

Definition hex4 (s : string) : option (Z * string) :=
  match s with
  | String a (String b (String c (String d r))) =>
      match hex_value a, hex_value b, hex_value c, hex_value d with
      | Some a, Some b, Some c, Some d => Some (((a * 16 + b) * 16 + c) * 16 + d, r)
      | _, _, _, _ => None
      end
  | _ => None
  end.

Definition utf16_pair (r1 r2 : Z) : Z := (r1 - 0xD800) * 1024 + (r2 - 0xDC00) + 0x10000.

(** The rest of a string after its first quote, as bytes: what is not UTF-8 becomes U+FFFD,
    as does half of a surrogate pair. *)
Fixpoint parse_string (fuel : nat) (s : string) : option (list Z * string) :=
  match fuel with
  | O => None
  | S fuel =>
      match s with
      | EmptyString => None
      | String a r =>
          let n := Z.of_N (Ascii.N_of_ascii a) in
          let add (bs : list Z) (rest : string) :=
            match parse_string fuel rest with Some (l, rest) => Some (bs ++ l, rest)%list | None => None end in
          if n =? 34 then Some ([], r)
          else if n <? 32 then None
          else if n =? 92 then
            match r with
            | EmptyString => None
            | String e r =>
                if Ascii.eqb e "u" then
                  match hex4 r with
                  | None => None
                  | Some (u, r) =>
                      if between 0xD800 0xDFFF u then
                        match r with
                        | String b1 (String b2 r2) =>
                            if (Z.of_N (Ascii.N_of_ascii b1) =? 92) && Ascii.eqb b2 "u" then
                              match hex4 r2 with
                              | None => None
                              | Some (u2, r2) =>
                                  if between 0xD800 0xDBFF u && between 0xDC00 0xDFFF u2
                                  then add (encode_rune (utf16_pair u u2)) r2
                                  else add (encode_rune RuneError) r
                              end
                            else add (encode_rune RuneError) r
                        | _ => add (encode_rune RuneError) r
                        end
                      else add (encode_rune u) r
                  end
                else
                  match List.find (λ kv : ascii * Z, Ascii.eqb (fst kv) e)
                          [("b"%char, 8); ("f"%char, 12); ("n"%char, 10); ("r"%char, 13); ("t"%char, 9);
                           ("/"%char, 47); (Ascii.ascii_of_nat 34, 34); (Ascii.ascii_of_nat 92, 92)] with
                  | Some (_, c) => add [c] r
                  | None => None
                  end
            end
          else
            let '(rune, w) := decode_rune n (bytes_of r) in
            add (encode_rune rune) (drop_bytes (w - 1) r)
      end
  end.

Definition quote : ascii := Ascii.ascii_of_nat 34.
Definition starts (a : ascii) (s : string) : option string :=
  match s with String b r => if Ascii.eqb a b then Some r else None | EmptyString => None end.

Fixpoint parse_value (fuel : nat) (s : string) {struct fuel} : option (json * string) :=
  match fuel with
  | O => None
  | S fuel =>
      let s := skip_space s in
      match starts "{" s with
      | Some r =>
          match starts "}" (skip_space r) with
          | Some r => Some (JObject [], r)
          | None => members fuel r []
          end
      | None =>
      match starts "[" s with
      | Some r =>
          match starts "]" (skip_space r) with
          | Some r => Some (JArray [], r)
          | None => elements fuel r []
          end
      | None =>
      match starts quote s with
      | Some r =>
          match parse_string (S (String.length r)) r with
          | Some (bs, r) => Some (JString (string_of bs), r)
          | None => None
          end
      | None =>
          if HasPrefix s "null" then Some (JNull, drop_bytes 4 s)
          else if HasPrefix s "true" then Some (JBool true, drop_bytes 4 s)
          else if HasPrefix s "false" then Some (JBool false, drop_bytes 5 s)
          else match parse_number s with Some (n, r) => Some (JNumber n, r) | None => None end
      end end end
  end
with elements (fuel : nat) (s : string) (acc : list json) {struct fuel} : option (json * string) :=
  match fuel with
  | O => None
  | S fuel =>
      match parse_value fuel s with
      | None => None
      | Some (v, s) =>
          let acc := (acc ++ [v])%list in
          let s := skip_space s in
          match starts "," s with
          | Some s => elements fuel s acc
          | None => match starts "]" s with Some s => Some (JArray acc, s) | None => None end
          end
      end
  end
with members (fuel : nat) (s : string) (acc : list (string * json)) {struct fuel} : option (json * string) :=
  match fuel with
  | O => None
  | S fuel =>
      match starts quote (skip_space s) with
      | None => None
      | Some s =>
          match parse_string (S (String.length s)) s with
          | None => None
          | Some (key, s) =>
              match starts ":" (skip_space s) with
              | None => None
              | Some s =>
                  match parse_value fuel s with
                  | None => None
                  | Some (v, s) =>
                      let acc := (acc ++ [(string_of key, v)])%list in
                      let s := skip_space s in
                      match starts "," s with
                      | Some s => members fuel s acc
                      | None => match starts "}" s with Some s => Some (JObject acc, s) | None => None end
                      end
                  end
              end
          end
      end
  end.

(** A text is one value and white space. *)
Definition parse_json (s : string) : option json :=
  match parse_value (S (String.length s)) s with
  | Some (v, r) => if String.eqb (skip_space r) EmptyString then Some v else None
  | None => None
  end.

(** ** Decoding *)

Record UnmarshalTypeError := MkTypeError {
  bad_Value : string;
  bad_Struct : string;
  bad_Field : string;
  bad_Type : string;
}.

Inductive unmarshal_error := UnexpectedEnd | WrongType (e : UnmarshalTypeError) | BadSyntax (text : string).

Definition unmarshal_error_text (e : unmarshal_error) : string :=
  match e with
  | UnexpectedEnd => "unexpected end of JSON input"
  | WrongType e =>
      if negb (String.eqb (bad_Struct e) "") || negb (String.eqb (bad_Field e) "") then
        "json: cannot unmarshal " +:+ bad_Value e +:+ " into Go struct field " +:+ bad_Struct e +:+ "." +:+ bad_Field e
          +:+ " of type " +:+ bad_Type e
      else "json: cannot unmarshal " +:+ bad_Value e +:+ " into Go value of type " +:+ bad_Type e
  | BadSyntax text => text
  end.

(** A decoded value and the first error. *)
Definition decoded (A : Type) : Type := A * option UnmarshalTypeError.
Definition first_error (e e' : option UnmarshalTypeError) : option UnmarshalTypeError :=
  match e with Some _ => e | None => e' end.

(** How an error names a value. *)
Definition json_kind (v : json) : string :=
  match v with
  | JNull => "null" | JBool _ => "bool" | JNumber _ => "number" | JString _ => "string"
  | JArray _ => "array" | JObject _ => "object"
  end.

(** Where a value is decoded to: the structure and the path of the field. *)
Definition wrong {A} (at_ : string * string) (v : json) (type : string) (a : A) : decoded A :=
  (a, Some (MkTypeError (json_kind v) (fst at_) (snd at_) type)).

(** Into an [interface{}]. *)
Fixpoint to_any (at_ : string * string) (v : json) : decoded any :=
  match v with
  | JNull => (ANil, None)
  | JBool b => (ABool b, None)
  | JString s => (AString s, None)
  | JNumber n =>
      match ParseFloat n with
      | Some f => (AFloat f, None)
      | None => (ANil, Some (MkTypeError ("number " +:+ n) (fst at_) (snd at_) "float64"))
      end
  | JArray l =>
      let r := (fix all (l : list json) : decoded (list any) :=
                  match l with
                  | [] => ([], None)
                  | v :: l => let '(a, e) := to_any at_ v in let '(r, e') := all l in (a :: r, first_error e e')
                  end) l in
      (AList (fst r), snd r)
  | JObject l =>
      let r := (fix all (l : list (string * json)) : decoded (gmap string any -> gmap string any) :=
                  match l with
                  | [] => (id, None)
                  | (k, v) :: l =>
                      let '(a, e) := to_any at_ v in let '(r, e') := all l in
                      (λ m, r (<[k := a]> m), first_error e e')
                  end) l in
      (AMap (fst r ∅), snd r)
  end.

(** Into a field of another type: [null] leaves it as it is. *)
Definition into_any (at_ : string * string) (v : json) (_ : any) : decoded any := to_any at_ v.
Definition into_string (at_ : string * string) (v : json) (s : string) : decoded string :=
  match v with JString t => (t, None) | JNull => (s, None) | _ => wrong at_ v "string" s end.
Definition into_bool (at_ : string * string) (v : json) (b : bool) : decoded bool :=
  match v with JBool c => (c, None) | JNull => (b, None) | _ => wrong at_ v "bool" b end.

(** An [int] is decoded from an integer literal within its range. *)
Definition parse_int (n : string) : option Z :=
  let '(neg, d) := match starts "-" n with Some r => (true, r) | None => (false, n) end in
  match digits_value 0 d with
  | Some x => let x := if neg then - x else x in if bool_decide (in_i64 x) then Some x else None
  | None => None
  end.
Definition into_int (at_ : string * string) (v : json) (z : Z) : decoded Z :=
  match v with
  | JNull => (z, None)
  | JNumber n =>
      match parse_int n with
      | Some x => (x, None)
      | None => (z, Some (MkTypeError ("number " +:+ n) (fst at_) (snd at_) "int"))
      end
  | _ => wrong at_ v "int" z
  end.
Definition into_float (at_ : string * string) (v : json) (f : float64) : decoded float64 :=
  match v with
  | JNull => (f, None)
  | JNumber n =>
      match ParseFloat n with
      | Some x => (x, None)
      | None => (f, Some (MkTypeError ("number " +:+ n) (fst at_) (snd at_) "float64"))
      end
  | _ => wrong at_ v "float64" f
  end.

(** [json.RawMessage]: the value as it is. *)
Definition into_raw (at_ : string * string) (v : json) (_ : option json) : decoded (option json) := (Some v, None).

(** A map: the members are added, each decoded on its own.  [None] is the nil map. *)
Definition into_map {A} (zero : A) (into : string * string -> json -> A -> decoded A) (type : string)
    (at_ : string * string) (v : json) (m : option (gmap string A)) : decoded (option (gmap string A)) :=
  match v with
  | JNull => (None, None)
  | JObject l =>
      let '(m, e) := foldl (λ me kv,
        let '(a, e') := into at_ (snd kv) zero in (<[fst kv := a]> (fst me), first_error (snd me) e'))
        (default ∅ m, None) l in
      (Some m, e)
  | _ => wrong at_ v type m
  end.

(** A pointer: [null] makes it nil, another value is decoded into what it points to. *)
Definition into_ptr {A} (zero : A) (into : string * string -> json -> A -> decoded A)
    (at_ : string * string) (v : json) (p : option A) : decoded (option A) :=
  match v with
  | JNull => (None, None)
  | _ => let '(a, e) := into at_ v (default zero p) in (Some a, e)
  end.

(** A slice is decoded from its first element on. *)
Definition into_list {A} (zero : A) (into : string * string -> json -> A -> decoded A) (type : string)
    (at_ : string * string) (v : json) (l : list A) : decoded (list A) :=
  match v with
  | JNull => ([], None)
  | JArray vs =>
      foldl (λ le v, let '(a, e') := into at_ v zero in (fst le ++ [a], first_error (snd le) e')%list) ([], None) vs
  | _ => wrong at_ v type l
  end.

(** Names of fields match exactly or, failing that, whatever the case.  U+212A and U+017F
    fold to letters. *)
Definition fold_name (s : string) : string :=
  ToLower (ReplaceAll (ReplaceAll s (string_of [0xE2; 0x84; 0xAA]) "k") (string_of [0xC5; 0xBF]) "s").

(** The fields of a structure: a name, and how a value is decoded into it. *)
Definition fields (S : Type) : Type := list (string * (string * string -> json -> S -> decoded S)).

Definition field_named {S} (fs : fields S) (key : string) : option (string * (string * string -> json -> S -> decoded S)) :=
  match List.find (λ f, String.eqb (fst f) key) fs with
  | Some f => Some f
  | None => List.find (λ f, String.eqb (fold_name (fst f)) (fold_name key)) fs
  end.

(** The path of a field within a structure that is itself at [at_]. *)
Definition path (at_ name : string) : string := if String.eqb at_ "" then name else at_ +:+ "." +:+ name.

(** A structure whose type has the name [name]; [type] is how the type is printed. *)
Definition into_struct {S} (name type : string) (fs : fields S) (at_ : string * string) (v : json) (s : S) : decoded S :=
  match v with
  | JNull => (s, None)
  | JObject l =>
      foldl (λ se kv,
        match field_named fs (fst kv) with
        | None => se
        | Some (f, into) =>
            let '(s, e') := into (name, path (snd at_) f) (snd kv) (fst se) in (s, first_error (snd se) e')
        end) (s, None) l
  | _ => wrong at_ v type s
  end.

(** A field of a structure, by how it is read and set. *)
Definition at_field {S A} (get_ : S -> A) (set_ : A -> S -> S) (into : string * string -> json -> A -> decoded A)
    (at_ : string * string) (v : json) (s : S) : decoded S :=
  let '(a, e) := into at_ v (get_ s) in (set_ a s, e).

(** A map of any values, nil being the empty map. *)
Definition any_map (at_ : string * string) (v : json) (m : gmap string any) : decoded (gmap string any) :=
  let '(m, e) := into_map ANil into_any "map[string]interface {}" at_ v (Some m) in (default ∅ m, e).

(** [json.Unmarshal] of a raw message, which is empty when the field was absent. *)
Definition Unmarshal {S} (into : string * string -> json -> S -> decoded S) (v : option json) (zero : S)
    : result unmarshal_error S :=
  match v with
  | None => Err UnexpectedEnd
  | Some v => match into ("", "") v zero with (s, None) => Ok s | (_, Some e) => Err (WrongType e) end
  end.

(** ** Encoding *)

Definition hex_digit (n : Z) : ascii := digit_char (if n <? 10 then n else n + 39).
Definition u_escape (r : Z) : string :=
  String (Ascii.ascii_of_nat 92) (String "u" (String (hex_digit (r / 4096)) (String (hex_digit (r / 256 mod 16))
    (String (hex_digit (r / 16 mod 16)) (String (hex_digit (r mod 16)) EmptyString))))).
Definition escaped (c : string) : string := String (Ascii.ascii_of_nat 92) c.

(** Quotes, control characters, [<], [>], [&], U+2028 and U+2029 are escaped, and so is the
    U+FFFD that stands for a byte that is not UTF-8: [width] is one byte then. *)
Definition encode_char (r : Z) (invalid : bool) : string :=
  if invalid then u_escape RuneError
  else if r =? 34 then escaped (String quote EmptyString)
  else if r =? 92 then escaped (escaped EmptyString)
  else if r =? 8 then escaped "b" else if r =? 12 then escaped "f" else if r =? 10 then escaped "n"
  else if r =? 13 then escaped "r" else if r =? 9 then escaped "t"
  else if (r <? 32) || (r =? 60) || (r =? 62) || (r =? 38) || (r =? 0x2028) || (r =? 0x2029) then u_escape r
  else string_of (encode_rune r).

Fixpoint encode_chars (fuel : nat) (bs : list Z) : string :=
  match fuel, bs with
  | S fuel, b :: bs =>
      let '(r, w) := decode_rune b bs in
      encode_char r ((r =? RuneError) && Nat.eqb w 1) +:+ encode_chars fuel (drop (w - 1) bs)
  | _, _ => EmptyString
  end.
Definition quoted_json (s : string) : string :=
  String quote (encode_chars (String.length s) (bytes_of s) +:+ String quote EmptyString).

(** A number is printed with an exponent below 1e-6 and from 1e21 on. *)
Definition encode_with (prec emin : Z) (x : spec_float) : option string :=
  match x with
  | S754_nan | S754_infinity _ => None
  | S754_zero s => Some (if s then "-0" else "0")
  | S754_finite s m e =>
      let i := interval_of prec emin m e in
      let '(d, k) := shortest 17 i 1 (magnitude i) in
      let '(d, k) := strip_zeros 20 d k in
      let ds := itoa d in
      let ex := len ds + k - 1 in
      let body :=
        if (ex <? -6) || (21 <=? ex) then
          let t := scientific ds ex in if between (-9) (-1) ex then ReplaceAll t "e-0" "e-" else t
        else plain ds (ex + 1) in
      Some (if s then "-" +:+ body else body)
  end.

Definition encode_float : float64 -> option string := encode_with 53 (-1074).
Definition encode_float32 : spec_float -> option string := encode_with 24 (-149).

Fixpoint all_some {A} (l : list (option A)) : option (list A) :=
  match l with
  | [] => Some []
  | Some a :: l => match all_some l with Some r => Some (a :: r) | None => None end
  | None :: _ => None
  end.

Section marshal.
(** The text of a value of a type that is not modelled, if it can be encoded. *)
Context (other : string -> Z -> option string).

Fixpoint Marshal (v : any) : option string :=
  match v with
  | ANil => Some "null"
  | ABool b => Some (if b then "true" else "false")
  | AInt z | AInt32 z | AInt64 z => Some (itoa z)
  | AFloat f => encode_float f
  | AFloat32 f => encode_float32 f
  | AString s => Some (quoted_json s)
  | AList l => match all_some (map Marshal l) with Some r => Some ("[" +:+ Join r "," +:+ "]") | None => None end
  | AStrings l => Some ("[" +:+ Join (quoted_json <$> l) "," +:+ "]")
  | AInts l => Some ("[" +:+ Join (itoa <$> l) "," +:+ "]")
  | AFloats l => match all_some (encode_float <$> l) with Some r => Some ("[" +:+ Join r "," +:+ "]") | None => None end
  | AMap m =>
      let pairs := foldr insert_pair [] ((λ kv : string * option string, (fst kv, default EmptyString (snd kv)))
                                         <$> map_to_list (Marshal <$> m)) in
      if forallb (λ kv : string * option string, match snd kv with Some _ => true | None => false end)
           (map_to_list (Marshal <$> m))
      then Some ("{" +:+ Join ((λ kv : string * string, quoted_json (fst kv) +:+ ":" +:+ snd kv) <$> pairs) "," +:+ "}")
      else None
  | AOther t id => other t id
  end.
End marshal.

(** ** Examples *)

Definition q (s : string) : string := String quote (s +:+ String quote EmptyString).

Example parsed :
  parse_json (" {" +:+ q "a" +:+ " : [1, -2.5e3,true,null], " +:+ q "b" +:+ ":{}} ")
  = Some (JObject [("a", JArray [JNumber "1"; JNumber "-2.5e3"; JBool true; JNull]); ("b", JObject [])]) /\
  parse_json "[1,]" = None /\ parse_json "01" = None /\ parse_json (q (escaped "u00e9")) = Some (JString "é") /\
  parse_json (q (escaped "ud83d" +:+ escaped "ude00")) = Some (JString "😀") /\
  parse_json (q (escaped "ud83d")) = Some (JString (string_of_runes [RuneError])).
Proof. vm_compute. done. Qed.

Example encoded :
  Marshal (λ _ _, None) (AMap (<["b" := AFloat (f64_of_Z 25)]> {["a" := AList [AString ("<" +:+ String quote "é"); ANil]]}))
  = Some ("{" +:+ q "a" +:+ ":[" +:+ q (escaped "u003c" +:+ escaped (String quote "é")) +:+ ",null]," +:+ q "b" +:+ ":25}").
Proof. vm_compute. done. Qed.

Definition name_field : fields string := [("name", into_string)].
Example decoded_names :
  Unmarshal (into_struct "" "struct" name_field) (Some (JObject [("NAME", JString "a"); ("x", JNull)])) "" = Ok "a" /\
  Unmarshal (into_struct "" "struct" name_field) (Some (JObject [("name", JNumber "1")])) ""
    = Err (WrongType (MkTypeError "number" "" "name" "string")) /\
  Unmarshal (into_struct "" "struct" name_field) None "" = Err UnexpectedEnd.
Proof. vm_compute. done. Qed.
