(* ===== verification/McpErrors.v ===== *)
(** * McpErrors: the errors of the edge server

    The files [pkg/models/errors.go] (codes, categories and the builder methods of an
    [ErrorResponse]), [apps/edge-mcp/internal/mcp/error_templates.go] and [errors.go] (how an
    error becomes one of JSON-RPC).  The clock is an argument of what makes an error.  The
    two templates that print a time or a duration are left out. *)

From stdpp Require Import base decidable gmap strings list.
From Stdlib Require Import ZArith Lia.
From S2P Require Import Prelude GoFloat GoStrings GoAny.

Local Open Scope string_scope.
Local Open Scope Z_scope.

Definition ErrorCodeAuthFailed : string := "AUTH_FAILED".
Definition ErrorCodeUnauthorized : string := "UNAUTHORIZED".
Definition ErrorCodeTokenExpired : string := "TOKEN_EXPIRED".
Definition ErrorCodeInvalidAPIKey : string := "INVALID_API_KEY".
Definition ErrorCodePermissionDenied : string := "PERMISSION_DENIED".
Definition ErrorCodeAccountSuspended : string := "ACCOUNT_SUSPENDED".
Definition ErrorCodeMFARequired : string := "MFA_REQUIRED".
Definition ErrorCodeNotFound : string := "NOT_FOUND".
Definition ErrorCodeAlreadyExists : string := "ALREADY_EXISTS".
Definition ErrorCodeConflict : string := "CONFLICT".
Definition ErrorCodeResourceLocked : string := "RESOURCE_LOCKED".
Definition ErrorCodeResourceDeleted : string := "RESOURCE_DELETED".
Definition ErrorCodeResourceExpired : string := "RESOURCE_EXPIRED".
Definition ErrorCodeDependencyFailed : string := "DEPENDENCY_FAILED".
Definition ErrorCodeRateLimit : string := "RATE_LIMIT".
Definition ErrorCodeQuotaExceeded : string := "QUOTA_EXCEEDED".
Definition ErrorCodeConcurrencyLimit : string := "CONCURRENCY_LIMIT".
Definition ErrorCodeBandwidthLimit : string := "BANDWIDTH_LIMIT".
Definition ErrorCodeStorageLimit : string := "STORAGE_LIMIT".
Definition ErrorCodeValidation : string := "VALIDATION_ERROR".
Definition ErrorCodeInvalidInput : string := "INVALID_INPUT".
Definition ErrorCodeMissingParameter : string := "MISSING_PARAMETER".
Definition ErrorCodeInvalidFormat : string := "INVALID_FORMAT".
Definition ErrorCodeOutOfRange : string := "OUT_OF_RANGE".
Definition ErrorCodeTypeMismatch : string := "TYPE_MISMATCH".
Definition ErrorCodeSchemaViolation : string := "SCHEMA_VIOLATION".
Definition ErrorCodeTimeout : string := "TIMEOUT".
Definition ErrorCodeNetworkError : string := "NETWORK_ERROR".
Definition ErrorCodeConnectionFailed : string := "CONNECTION_FAILED".
Definition ErrorCodeServiceOffline : string := "SERVICE_OFFLINE".
Definition ErrorCodeDNSResolution : string := "DNS_RESOLUTION".
Definition ErrorCodeSSLError : string := "SSL_ERROR".
Definition ErrorCodeProxyError : string := "PROXY_ERROR".
Definition ErrorCodeUpstreamError : string := "UPSTREAM_ERROR".
Definition ErrorCodeProviderError : string := "PROVIDER_ERROR".
Definition ErrorCodeIntegrationError : string := "INTEGRATION_ERROR".
Definition ErrorCodeWebhookFailed : string := "WEBHOOK_FAILED".
Definition ErrorCodeAPIError : string := "API_ERROR".
Definition ErrorCodeInternal : string := "INTERNAL_ERROR".
Definition ErrorCodeDatabaseError : string := "DATABASE_ERROR".
Definition ErrorCodeCacheError : string := "CACHE_ERROR".
Definition ErrorCodeConfigError : string := "CONFIG_ERROR".
Definition ErrorCodeInitError : string := "INIT_ERROR".
Definition ErrorCodeShutdown : string := "SHUTDOWN".
Definition ErrorCodeMaintenance : string := "MAINTENANCE".
Definition ErrorCodeProtocolError : string := "PROTOCOL_ERROR".
Definition ErrorCodeVersionMismatch : string := "VERSION_MISMATCH".
Definition ErrorCodeEncodingError : string := "ENCODING_ERROR".
Definition ErrorCodeParsingError : string := "PARSING_ERROR".
Definition ErrorCodeSerializationErr : string := "SERIALIZATION_ERROR".
Definition ErrorCodeInvalidOperation : string := "INVALID_OPERATION".
Definition ErrorCodePreconditionFail : string := "PRECONDITION_FAILED".
Definition ErrorCodeStateError : string := "STATE_ERROR".
Definition ErrorCodeWorkflowError : string := "WORKFLOW_ERROR".
Definition ErrorCodePolicyViolation : string := "POLICY_VIOLATION".

Definition SeverityInfo : string := "INFO".
Definition SeverityWarning : string := "WARNING".
Definition SeverityError : string := "ERROR".
Definition SeverityCritical : string := "CRITICAL".
Definition SeverityFatal : string := "FATAL".

Definition CategoryAuth : string := "AUTHENTICATION".
Definition CategoryResource : string := "RESOURCE".
Definition CategoryRateLimit : string := "RATE_LIMIT".
Definition CategoryValidation : string := "VALIDATION".
Definition CategoryNetwork : string := "NETWORK".
Definition CategoryExternal : string := "EXTERNAL_SERVICE".
Definition CategorySystem : string := "SYSTEM".
Definition CategoryProtocol : string := "PROTOCOL".
Definition CategoryBusiness : string := "BUSINESS_LOGIC".

Record ResourceInfo := MkResource {
  resource_Type : string;
  resource_ID : string;
  resource_Name : string;
  Path : string;
  Owner : string;
  State : string;
  Attributes : gmap string any;
}.

Record RecoveryStep := MkRecovery {
  Order : Z;
  Action : string;
  Description : string;
  recovery_Tool : string;
  Parameters : gmap string any;
  Optional : bool;
}.

Record RetryStrategy := MkStrategy {
  Retryable : bool;
  MaxAttempts : Z;
  BackoffType : string;
  InitialDelay : Z;
  MaxDelay : Z;
  RetryCondition : string;
}.

Record RateLimitInfo := MkRateInfo {
  info_Limit : Z;
  info_Remaining : Z;
  Reset_ : Z;
  Window_ : Z;
  Scope_ : string;
  TierInfo : string;
}.

Inductive ErrorResponse := MkError {
  Code : string;
  Message : string;
  Details : string;
  Category : string;
  Severity : string;
  Timestamp : Z;
  RequestID : string;
  Operation : string;
  Service : string;
  Version : string;
  Resource : option ResourceInfo;
  RelatedResources : list ResourceInfo;
  Suggestion : string;
  Documentation : string;
  AlternativeTools : list string;
  RecoverySteps : list RecoveryStep;
  RetryStrategy_ : option RetryStrategy;
  RetryAfter : option Z;
  RateLimitInfo_ : option RateLimitInfo;
  Metadata : gmap string any;
  StackTrace : list string;
  InnerError : option ErrorResponse;
}.

(** ** Codes *)

Definition one_of (l : list string) (code : string) : bool := bool_decide (code ∈ l).

Definition getCategoryForCode (code : string) : string :=
  if one_of [ErrorCodeAuthFailed; ErrorCodeUnauthorized; ErrorCodeTokenExpired;
      ErrorCodeInvalidAPIKey; ErrorCodePermissionDenied; ErrorCodeAccountSuspended;
     ErrorCodeMFARequired] code
  then CategoryAuth
  else if one_of [ErrorCodeNotFound; ErrorCodeAlreadyExists; ErrorCodeConflict;
      ErrorCodeResourceLocked; ErrorCodeResourceDeleted; ErrorCodeResourceExpired] code
  then CategoryResource
  else if one_of [ErrorCodeRateLimit; ErrorCodeQuotaExceeded; ErrorCodeConcurrencyLimit;
      ErrorCodeBandwidthLimit; ErrorCodeStorageLimit] code
  then CategoryRateLimit
  else if one_of [ErrorCodeValidation; ErrorCodeInvalidInput; ErrorCodeMissingParameter;
      ErrorCodeInvalidFormat; ErrorCodeOutOfRange; ErrorCodeTypeMismatch] code
  then CategoryValidation
  else if one_of [ErrorCodeTimeout; ErrorCodeNetworkError; ErrorCodeConnectionFailed;
      ErrorCodeServiceOffline; ErrorCodeDNSResolution; ErrorCodeSSLError] code
  then CategoryNetwork
  else if one_of [ErrorCodeUpstreamError; ErrorCodeProviderError;
      ErrorCodeIntegrationError; ErrorCodeWebhookFailed; ErrorCodeAPIError] code
  then CategoryExternal
  else if one_of [ErrorCodeInternal; ErrorCodeDatabaseError;
      ErrorCodeCacheError; ErrorCodeConfigError; ErrorCodeInitError; ErrorCodeShutdown] code
  then CategorySystem
  else if one_of [ErrorCodeProtocolError; ErrorCodeVersionMismatch;
      ErrorCodeEncodingError; ErrorCodeParsingError; ErrorCodeSerializationErr] code
  then CategoryProtocol
  else CategoryBusiness.

(** The codes as [errors.go] groups them. *)
Definition sections : list (string * list string) := [
  ("Authentication and Authorization errors", [ErrorCodeAuthFailed; ErrorCodeUnauthorized;
     ErrorCodeTokenExpired; ErrorCodeInvalidAPIKey; ErrorCodePermissionDenied;
     ErrorCodeAccountSuspended; ErrorCodeMFARequired]);
  ("Resource errors", [ErrorCodeNotFound; ErrorCodeAlreadyExists; ErrorCodeConflict;
     ErrorCodeResourceLocked; ErrorCodeResourceDeleted; ErrorCodeResourceExpired;
     ErrorCodeDependencyFailed]);
  ("Rate limiting and quotas", [ErrorCodeRateLimit; ErrorCodeQuotaExceeded;
     ErrorCodeConcurrencyLimit; ErrorCodeBandwidthLimit; ErrorCodeStorageLimit]);
  ("Validation errors", [ErrorCodeValidation; ErrorCodeInvalidInput; ErrorCodeMissingParameter;
     ErrorCodeInvalidFormat; ErrorCodeOutOfRange; ErrorCodeTypeMismatch; ErrorCodeSchemaViolation]);
  ("Network and connectivity", [ErrorCodeTimeout; ErrorCodeNetworkError; ErrorCodeConnectionFailed;
     ErrorCodeServiceOffline; ErrorCodeDNSResolution; ErrorCodeSSLError; ErrorCodeProxyError]);
  ("External service errors", [ErrorCodeUpstreamError; ErrorCodeProviderError;
     ErrorCodeIntegrationError; ErrorCodeWebhookFailed; ErrorCodeAPIError]);
  ("System errors", [ErrorCodeInternal; ErrorCodeDatabaseError; ErrorCodeCacheError;
     ErrorCodeConfigError; ErrorCodeInitError; ErrorCodeShutdown; ErrorCodeMaintenance]);
  ("Protocol and format errors", [ErrorCodeProtocolError; ErrorCodeVersionMismatch;
     ErrorCodeEncodingError; ErrorCodeParsingError; ErrorCodeSerializationErr]);
  ("Business logic errors", [ErrorCodeInvalidOperation; ErrorCodePreconditionFail;
     ErrorCodeStateError; ErrorCodeWorkflowError; ErrorCodePolicyViolation])
].

Definition Error_ (e : ErrorResponse) : string :=
  if negb (String.eqb (Details e) "") then "[" +:+ Code e +:+ "] " +:+ Message e +:+ ": " +:+ Details e
  else "[" +:+ Code e +:+ "] " +:+ Message e.

Definition IsRetryable (e : ErrorResponse) : bool :=
  match RetryStrategy_ e with
  | Some s => Retryable s
  | None =>
      one_of [ErrorCodeTimeout; ErrorCodeNetworkError; ErrorCodeConnectionFailed; ErrorCodeServiceOffline;
              ErrorCodeRateLimit; ErrorCodeConcurrencyLimit; ErrorCodeInternal; ErrorCodeDatabaseError;
              ErrorCodeCacheError] (Code e)
  end.

Definition GetSeverityPriority (e : ErrorResponse) : Z :=
  if String.eqb (Severity e) SeverityInfo then 1
  else if String.eqb (Severity e) SeverityWarning then 2
  else if String.eqb (Severity e) SeverityError then 3
  else if String.eqb (Severity e) SeverityCritical then 4
  else if String.eqb (Severity e) SeverityFatal then 5
  else 3.

(** ** Builders *)

Definition NewErrorResponse (now : Z) (code message : string) : ErrorResponse :=
  MkError code message "" (getCategoryForCode code) SeverityError now "" "" "" "" None [] "" "" [] [] None None
    None ∅ [] None.

Definition WithDetails (x : string) (e : ErrorResponse) : ErrorResponse :=
  MkError (Code e) (Message e) (x) (Category e) (Severity e) (Timestamp e) (RequestID e) (Operation e)
    (Service e) (Version e) (Resource e) (RelatedResources e) (Suggestion e) (Documentation e)
    (AlternativeTools e) (RecoverySteps e) (RetryStrategy_ e) (RetryAfter e) (RateLimitInfo_ e)
    (Metadata e) (StackTrace e) (InnerError e).
Definition WithSeverity (x : string) (e : ErrorResponse) : ErrorResponse :=
  MkError (Code e) (Message e) (Details e) (Category e) (x) (Timestamp e) (RequestID e) (Operation e)
    (Service e) (Version e) (Resource e) (RelatedResources e) (Suggestion e) (Documentation e)
    (AlternativeTools e) (RecoverySteps e) (RetryStrategy_ e) (RetryAfter e) (RateLimitInfo_ e)
    (Metadata e) (StackTrace e) (InnerError e).
Definition WithRequestID (x : string) (e : ErrorResponse) : ErrorResponse :=
  MkError (Code e) (Message e) (Details e) (Category e) (Severity e) (Timestamp e) (x) (Operation e)
    (Service e) (Version e) (Resource e) (RelatedResources e) (Suggestion e) (Documentation e)
    (AlternativeTools e) (RecoverySteps e) (RetryStrategy_ e) (RetryAfter e) (RateLimitInfo_ e)
    (Metadata e) (StackTrace e) (InnerError e).
Definition WithOperation (x : string) (e : ErrorResponse) : ErrorResponse :=
  MkError (Code e) (Message e) (Details e) (Category e) (Severity e) (Timestamp e) (RequestID e) (x)
    (Service e) (Version e) (Resource e) (RelatedResources e) (Suggestion e) (Documentation e)
    (AlternativeTools e) (RecoverySteps e) (RetryStrategy_ e) (RetryAfter e) (RateLimitInfo_ e)
    (Metadata e) (StackTrace e) (InnerError e).
Definition WithService (x : string) (e : ErrorResponse) : ErrorResponse :=
  MkError (Code e) (Message e) (Details e) (Category e) (Severity e) (Timestamp e) (RequestID e)
    (Operation e) (x) (Version e) (Resource e) (RelatedResources e) (Suggestion e) (Documentation e)
    (AlternativeTools e) (RecoverySteps e) (RetryStrategy_ e) (RetryAfter e) (RateLimitInfo_ e)
    (Metadata e) (StackTrace e) (InnerError e).
Definition WithVersion (x : string) (e : ErrorResponse) : ErrorResponse :=
  MkError (Code e) (Message e) (Details e) (Category e) (Severity e) (Timestamp e) (RequestID e)
    (Operation e) (Service e) (x) (Resource e) (RelatedResources e) (Suggestion e) (Documentation e)
    (AlternativeTools e) (RecoverySteps e) (RetryStrategy_ e) (RetryAfter e) (RateLimitInfo_ e)
    (Metadata e) (StackTrace e) (InnerError e).
Definition WithResource (x : ResourceInfo) (e : ErrorResponse) : ErrorResponse :=
  MkError (Code e) (Message e) (Details e) (Category e) (Severity e) (Timestamp e) (RequestID e)
    (Operation e) (Service e) (Version e) (Some x) (RelatedResources e) (Suggestion e)
    (Documentation e) (AlternativeTools e) (RecoverySteps e) (RetryStrategy_ e) (RetryAfter e)
    (RateLimitInfo_ e) (Metadata e) (StackTrace e) (InnerError e).
Definition WithSuggestion (x : string) (e : ErrorResponse) : ErrorResponse :=
  MkError (Code e) (Message e) (Details e) (Category e) (Severity e) (Timestamp e) (RequestID e)
    (Operation e) (Service e) (Version e) (Resource e) (RelatedResources e) (x) (Documentation e)
    (AlternativeTools e) (RecoverySteps e) (RetryStrategy_ e) (RetryAfter e) (RateLimitInfo_ e)
    (Metadata e) (StackTrace e) (InnerError e).
Definition WithDocumentation (x : string) (e : ErrorResponse) : ErrorResponse :=
  MkError (Code e) (Message e) (Details e) (Category e) (Severity e) (Timestamp e) (RequestID e)
    (Operation e) (Service e) (Version e) (Resource e) (RelatedResources e) (Suggestion e) (x)
    (AlternativeTools e) (RecoverySteps e) (RetryStrategy_ e) (RetryAfter e) (RateLimitInfo_ e)
    (Metadata e) (StackTrace e) (InnerError e).
Definition WithRetryAfter (x : Z) (e : ErrorResponse) : ErrorResponse :=
  MkError (Code e) (Message e) (Details e) (Category e) (Severity e) (Timestamp e) (RequestID e)
    (Operation e) (Service e) (Version e) (Resource e) (RelatedResources e) (Suggestion e)
    (Documentation e) (AlternativeTools e) (RecoverySteps e) (RetryStrategy_ e) (Some x)
    (RateLimitInfo_ e) (Metadata e) (StackTrace e) (InnerError e).
Definition WithRateLimitInfo (x : RateLimitInfo) (e : ErrorResponse) : ErrorResponse :=
  MkError (Code e) (Message e) (Details e) (Category e) (Severity e) (Timestamp e) (RequestID e)
    (Operation e) (Service e) (Version e) (Resource e) (RelatedResources e) (Suggestion e)
    (Documentation e) (AlternativeTools e) (RecoverySteps e) (RetryStrategy_ e) (RetryAfter e) (Some x)
    (Metadata e) (StackTrace e) (InnerError e).
Definition WithRecoverySteps (x : list RecoveryStep) (e : ErrorResponse) : ErrorResponse :=
  MkError (Code e) (Message e) (Details e) (Category e) (Severity e) (Timestamp e) (RequestID e)
    (Operation e) (Service e) (Version e) (Resource e) (RelatedResources e) (Suggestion e)
    (Documentation e) (AlternativeTools e) (x) (RetryStrategy_ e) (RetryAfter e) (RateLimitInfo_ e)
    (Metadata e) (StackTrace e) (InnerError e).
Definition WithRetryStrategy (x : RetryStrategy) (e : ErrorResponse) : ErrorResponse :=
  MkError (Code e) (Message e) (Details e) (Category e) (Severity e) (Timestamp e) (RequestID e)
    (Operation e) (Service e) (Version e) (Resource e) (RelatedResources e) (Suggestion e)
    (Documentation e) (AlternativeTools e) (RecoverySteps e) (Some x) (RetryAfter e) (RateLimitInfo_ e)
    (Metadata e) (StackTrace e) (InnerError e).
Definition WithInnerError (x : ErrorResponse) (e : ErrorResponse) : ErrorResponse :=
  MkError (Code e) (Message e) (Details e) (Category e) (Severity e) (Timestamp e) (RequestID e)
    (Operation e) (Service e) (Version e) (Resource e) (RelatedResources e) (Suggestion e)
    (Documentation e) (AlternativeTools e) (RecoverySteps e) (RetryStrategy_ e) (RetryAfter e)
    (RateLimitInfo_ e) (Metadata e) (StackTrace e) (Some x).
Definition set_AlternativeTools (x : list string) (e : ErrorResponse) : ErrorResponse :=
  MkError (Code e) (Message e) (Details e) (Category e) (Severity e) (Timestamp e) (RequestID e)
    (Operation e) (Service e) (Version e) (Resource e) (RelatedResources e) (Suggestion e)
    (Documentation e) (x) (RecoverySteps e) (RetryStrategy_ e) (RetryAfter e) (RateLimitInfo_ e)
    (Metadata e) (StackTrace e) (InnerError e).
Definition put_Metadata (x : gmap string any) (e : ErrorResponse) : ErrorResponse :=
  MkError (Code e) (Message e) (Details e) (Category e) (Severity e) (Timestamp e) (RequestID e)
    (Operation e) (Service e) (Version e) (Resource e) (RelatedResources e) (Suggestion e)
    (Documentation e) (AlternativeTools e) (RecoverySteps e) (RetryStrategy_ e) (RetryAfter e)
    (RateLimitInfo_ e) (x) (StackTrace e) (InnerError e).
Definition WithMetadata (key : string) (value : any) (e : ErrorResponse) : ErrorResponse :=
  put_Metadata (<[key := value]> (Metadata e)) e.

Notation "e |> f" := (f e) (at level 90, left associativity, only parsing) : go_scope.
Local Open Scope go_scope.

(** ** Constructors of [models] *)

Definition no_attributes (type id : string) : ResourceInfo := MkResource type id "" "" "" "" ∅.
Definition quoted (s : string) : string := "'" +:+ s +:+ "'".

Definition models_NewAuthError (now : Z) (message : string) : ErrorResponse :=
  NewErrorResponse now ErrorCodeAuthFailed message |> WithSuggestion "Please check your credentials and try again".

Definition models_NewNotFoundError (now : Z) (resourceType resourceID : string) : ErrorResponse :=
  NewErrorResponse now ErrorCodeNotFound (resourceType +:+ " not found")
  |> WithResource (no_attributes resourceType resourceID)
  |> WithSuggestion ("Verify that the " +:+ resourceType +:+ " exists and you have access").

Definition models_NewValidationError (now : Z) (field issue : string) : ErrorResponse :=
  NewErrorResponse now ErrorCodeValidation ("Validation failed for field " +:+ quoted field)
  |> WithDetails issue
  |> WithMetadata "field" (AString field)
  |> WithSeverity SeverityWarning
  |> WithSuggestion "Check the input format and constraints for this field".

Definition models_NewTimeoutError (now : Z) (operation : string) (timeout : Z) : ErrorResponse :=
  NewErrorResponse now ErrorCodeTimeout ("Operation " +:+ quoted operation +:+ " timed out")
  |> WithOperation operation
  |> WithMetadata "timeout_seconds" (AFloat (duration_seconds timeout))
  |> WithRetryStrategy (MkStrategy true 3 "exponential" (1 * second) (30 * second) "")
  |> WithSuggestion "Try again with a longer timeout or reduce the request size".

(** ** Templates *)

Definition initialize_parameters : gmap string any :=
  <["method" := AString "initialize"]> {["params" := AMap
    (<["protocolVersion" := AString "2025-06-18"]> {["clientInfo" := AMap
      (<["name" := AString "your-client"]> {["version" := AString "1.0.0"]})]})]}.

Definition ProtocolVersionMismatch (now : Z) (clientVersion : string) (serverVersion : string) :
        ErrorResponse :=
  NewErrorResponse now ErrorCodeVersionMismatch "Protocol version mismatch"
  |> WithDetails ("Client requested version " +:+ clientVersion +:+ " but server supports " +:+
        serverVersion)
  |> WithSeverity SeverityError
  |> WithOperation "initialize"
  |> WithSuggestion ("Update your client to use protocol version " +:+ serverVersion)
  |> WithRecoverySteps [
      MkRecovery 1 "upgrade_client" "Upgrade your MCP client to support the latest protocol version"
        "" ∅ false;
      MkRecovery 2 "check_compatibility"
        "Check the MCP protocol documentation for version compatibility matrix" "" ∅ false]
  |> WithDocumentation "https://developer-mesh.io/docs/mcp-protocol-versions".

Definition InvalidRequest (now : Z) (details : string) : ErrorResponse :=
  NewErrorResponse now ErrorCodeProtocolError "Invalid request format"
  |> WithDetails details
  |> WithSeverity SeverityError
  |> WithSuggestion "Ensure request follows JSON-RPC 2.0 specification with required fields"
  |> WithRecoverySteps [
      MkRecovery 1 "validate_json" "Validate that the request is valid JSON" "" ∅ false;
      MkRecovery 2 "check_required_fields" "Ensure 'jsonrpc', 'method', and 'id' fields are present"
        "" ∅ false;
      MkRecovery 3 "verify_method" "Verify the method name matches supported MCP operations" "" ∅ false]
  |> WithDocumentation "https://developer-mesh.io/docs/mcp-protocol".

Definition UninitializedSession (now : Z) : ErrorResponse :=
  NewErrorResponse now ErrorCodePreconditionFail "Session not initialized"
  |> WithDetails "The initialize method must be called before any other operations"
  |> WithSeverity SeverityError
  |> WithSuggestion "Call the 'initialize' method first to establish the session"
  |> WithRecoverySteps [
      MkRecovery 1 "send_initialize"
        "Send an 'initialize' request with protocol version and client info" "" initialize_parameters
        false;
      MkRecovery 2 "send_initialized"
        "After receiving initialize response, send 'initialized' notification" "" (<["method" :=
        AString "initialized"]> {["params" := AMap ∅]}) false]
  |> WithDocumentation "https://developer-mesh.io/docs/mcp-session-lifecycle".

Definition AuthenticationFailed (now : Z) (reason : string) : ErrorResponse :=
  NewErrorResponse now ErrorCodeAuthFailed "Authentication failed"
  |> WithDetails reason
  |> WithSeverity SeverityError
  |> WithSuggestion "Verify your API key or credentials are correct"
  |> WithRecoverySteps [
      MkRecovery 1 "check_api_key" "Verify the API key is correct and not expired" "" ∅ false;
      MkRecovery 2 "check_headers"
        "Ensure the Authorization header is properly formatted (Bearer <token>)" "" ∅ false;
      MkRecovery 3 "regenerate_key" "If the key is invalid, regenerate it from the DevMesh dashboard"
        "" ∅ false]
  |> WithDocumentation "https://developer-mesh.io/docs/authentication".

Definition PermissionDenied (now : Z) (resource : string) (operation : string) : ErrorResponse :=
  NewErrorResponse now ErrorCodePermissionDenied "Permission denied"
  |> WithDetails ("You do not have permission to " +:+ operation +:+ " on " +:+ resource)
  |> WithSeverity SeverityError
  |> WithResource (no_attributes resource "")
  |> WithSuggestion "Contact your administrator to request the required permissions"
  |> WithRecoverySteps [
      MkRecovery 1 "check_permissions"
        "Verify your user has the required permissions in the DevMesh dashboard" "" ∅ false;
      MkRecovery 2 "request_access" "Request access from your team administrator" "" ∅ false;
      MkRecovery 3 "use_alternative" "Use a read-only alternative if available" "" ∅ true]
  |> WithDocumentation "https://developer-mesh.io/docs/permissions".

Definition ToolNotFound (now : Z) (toolName : string) (availableCategories : list string) :
        ErrorResponse :=
  let err_ :=
  NewErrorResponse now ErrorCodeNotFound ("Tool '" +:+ toolName +:+ "' not found")
  |> WithSeverity SeverityError
  |> WithOperation ("tools/call:" +:+ toolName)
  |> WithSuggestion "Use 'tools/list' to see available tools or check the tool name spelling"
  |> WithRecoverySteps [
      MkRecovery 1 "list_tools" "Call tools/list to see all available tools" "tools/list" ∅ false;
      MkRecovery 2 "search_similar" "Search for tools with similar names or in the same category" ""
        ∅ false;
      MkRecovery 3 "check_spelling" "Verify the tool name spelling and format" "" ∅ false]
  |> WithMetadata "tool_name" (AString toolName)
  |> WithDocumentation "https://developer-mesh.io/docs/available-tools" in
  if 0 <? Z.of_nat (length availableCategories) then
    err_ |> WithMetadata "available_categories" (AStrings availableCategories)
    |> WithSuggestion ("Tool '" +:+ toolName +:+ "' not found. Browse tools in categories: " +:+
        brackets availableCategories)
  else err_.

Definition ToolExecutionFailed (now : Z) (toolName : string) (err : string) (alternativeTools : list
        string) : ErrorResponse :=
  let err_ :=
  NewErrorResponse now ErrorCodeIntegrationError ("Tool '" +:+ toolName +:+ "' execution failed")
  |> WithDetails err
  |> WithSeverity SeverityError
  |> WithOperation ("tools/call:" +:+ toolName)
  |> WithSuggestion "Check tool parameters and try again, or use an alternative tool"
  |> WithRecoverySteps [
      MkRecovery 1 "validate_parameters"
        "Verify all required parameters are provided with correct types" "" ∅ false;
      MkRecovery 2 "check_tool_status" "Check if the underlying service is available" "" ∅ false;
      MkRecovery 3 "retry_with_backoff" "Retry the operation after a brief delay" "" ∅ false]
  |> WithMetadata "tool_name" (AString toolName)
  |> WithRetryStrategy (MkStrategy true 3 "exponential" (1 * second) (10 * second) "") in
  match alternativeTools with
  | [] => err_
  | alt :: others =>
      let altToolsStep :=
        match others with
        | [] => MkRecovery 4 "use_alternative" ("Try using alternative tool: " +:+ alt) alt ∅ true
        | _ => MkRecovery 4 "use_alternative"
                 ("Try using one of these alternative tools: " +:+ brackets alternativeTools) "" ∅ true
        end in
      err_ |> set_AlternativeTools alternativeTools |> WithRecoverySteps (RecoverySteps err_ ++
        [altToolsStep])%list
  end.

Definition ParameterValidationFailed (now : Z) (toolName : string) (paramName : string) (issue :
        string) : ErrorResponse :=
  NewErrorResponse now ErrorCodeValidation ("Parameter validation failed for '" +:+ paramName +:+ "'")
  |> WithDetails issue
  |> WithSeverity SeverityWarning
  |> WithOperation ("tools/call:" +:+ toolName)
  |> WithSuggestion "Check the parameter type and format against the tool's input schema"
  |> WithRecoverySteps [
      MkRecovery 1 "check_schema"
        "Review the tool's inputSchema to see required format and constraints" "tools/list" ∅ false;
      MkRecovery 2 "fix_parameter" ("Correct the value for parameter '" +:+ paramName +:+ "'") "" ∅ false;
      MkRecovery 3 "retry" "Retry the tool call with corrected parameters" "" ∅ false]
  |> WithMetadata "tool_name" (AString toolName)
  |> WithMetadata "parameter_name" (AString paramName)
  |> WithDocumentation "https://developer-mesh.io/docs/tool-parameters".

Definition ServiceUnavailable (now : Z) (service : string) (alternativeTools : list string) :
        ErrorResponse :=
  let err_ :=
  NewErrorResponse now ErrorCodeServiceOffline ("Service '" +:+ service +:+
        "' is temporarily unavailable")
  |> WithSeverity SeverityCritical
  |> WithSuggestion
        "The service is experiencing issues. Please try again later or use an alternative service"
  |> WithRecoverySteps [
      MkRecovery 1 "retry_later" "Wait a few minutes and retry the operation" "" ∅ false;
      MkRecovery 2 "check_status" "Check the service status page for known issues" "" ∅ false]
  |> WithMetadata "service" (AString service)
  |> WithRetryStrategy (MkStrategy true 5 "exponential" (5 * second) (2 * minute) "")
  |> WithDocumentation "https://developer-mesh.io/status" in
  if 0 <? Z.of_nat (length alternativeTools) then
    err_ |> set_AlternativeTools alternativeTools
    |> WithRecoverySteps (RecoverySteps err_ ++ [MkRecovery 3 "use_alternative"
         ("Use alternative tools while service is unavailable: " +:+ brackets alternativeTools) "" ∅
        true])%list
  else err_.

Definition UpstreamError (now : Z) (service : string) (statusCode : Z) (errorMsg : string) :
        ErrorResponse :=
  NewErrorResponse now ErrorCodeUpstreamError ("Upstream service '" +:+ service +:+ "' returned error")
  |> WithDetails ("HTTP " +:+ itoa statusCode +:+ ": " +:+ errorMsg)
  |> WithSeverity SeverityError
  |> WithSuggestion "The external service encountered an error. Check service status or try again later"
  |> WithRecoverySteps [
      MkRecovery 1 "check_parameters" "Verify request parameters are valid for the external service"
        "" ∅ false;
      MkRecovery 2 "check_permissions" "Ensure you have proper permissions in the external service"
        "" ∅ false;
      MkRecovery 3 "retry" "Retry the operation if it's a transient error" "" ∅ false]
  |> WithMetadata "service" (AString service)
  |> WithMetadata "status_code" (AInt statusCode)
  |> WithRetryStrategy (MkStrategy ((500 <=? statusCode) || (statusCode =? 429)) 3 "exponential" (1 *
        second) (15 * second) "if_transient_error").

Definition ResourceNotFound (now : Z) (resourceType : string) (resourceID : string) (suggestedTools :
        list string) : ErrorResponse :=
  let err_ :=
  NewErrorResponse now ErrorCodeNotFound (resourceType +:+ " not found")
  |> WithDetails ("No " +:+ resourceType +:+ " with identifier '" +:+ resourceID +:+ "' exists")
  |> WithSeverity SeverityError
  |> WithResource (no_attributes resourceType resourceID)
  |> WithSuggestion ("Verify that the " +:+ resourceType +:+ " exists and you have access to it")
  |> WithRecoverySteps [
      MkRecovery 1 "verify_id" ("Check that the " +:+ resourceType +:+ " identifier '" +:+ resourceID
        +:+ "' is correct") "" ∅ false;
      MkRecovery 2 "check_access" "Verify you have permission to access this resource" "" ∅ false] in
  if 0 <? Z.of_nat (length suggestedTools) then
    err_ |> set_AlternativeTools suggestedTools
    |> WithRecoverySteps (RecoverySteps err_ ++ [MkRecovery 3 "list_resources"
         ("Use tools to list available " +:+ resourceType +:+ "s: " +:+ brackets suggestedTools) "" ∅
        true])%list
  else err_.

Definition Conflict (now : Z) (resourceType : string) (resourceID : string) (reason : string) :
        ErrorResponse :=
  NewErrorResponse now ErrorCodeConflict "Resource conflict"
  |> WithDetails reason
  |> WithSeverity SeverityError
  |> WithResource (no_attributes resourceType resourceID)
  |> WithSuggestion "Refresh the resource state and try again with updated data"
  |> WithRecoverySteps [
      MkRecovery 1 "fetch_latest" "Fetch the latest version of the resource" "" ∅ false;
      MkRecovery 2 "resolve_conflict"
        "Resolve the conflict by updating your changes based on latest state" "" ∅ false;
      MkRecovery 3 "retry" "Retry the operation with resolved data" "" ∅ false].

Definition InternalError (now : Z) (operation : string) (err : string) : ErrorResponse :=
  NewErrorResponse now ErrorCodeInternal "Internal server error"
  |> WithDetails err
  |> WithSeverity SeverityCritical
  |> WithOperation operation
  |> WithSuggestion
        "An unexpected error occurred. Please try again or contact support if the issue persists"
  |> WithRecoverySteps [
      MkRecovery 1 "retry" "Retry the operation as it may be a transient error" "" ∅ false;
      MkRecovery 2 "contact_support" "If the error persists, contact support with the request ID" ""
        ∅ false]
  |> WithRetryStrategy (MkStrategy true 3 "exponential" (1 * second) (10 * second) "")
  |> WithDocumentation "https://developer-mesh.io/support".

Definition ConfigurationError (now : Z) (setting : string) (issue : string) : ErrorResponse :=
  NewErrorResponse now ErrorCodeConfigError "Configuration error"
  |> WithDetails ("Invalid configuration for '" +:+ setting +:+ "': " +:+ issue)
  |> WithSeverity SeverityCritical
  |> WithSuggestion "Check your configuration settings and ensure all required values are provided"
  |> WithRecoverySteps [
      MkRecovery 1 "check_config" "Review the configuration file or environment variables" "" ∅ false;
      MkRecovery 2 "validate_values"
        "Ensure all configuration values are valid and properly formatted" "" ∅ false;
      MkRecovery 3 "restart_service" "Restart the service after correcting the configuration" "" ∅ false]
  |> WithMetadata "setting" (AString setting)
  |> WithDocumentation "https://developer-mesh.io/docs/configuration".

(** ** Errors of JSON-RPC *)

(** A value of the data of an error: any value, or the steps of a recovery. *)
Inductive data_value := Value (v : any) | Steps (l : list RecoveryStep).

Record MCPError := MkMCPError {
  mcp_Code : Z;
  mcp_Message : string;
  Data : gmap string data_value;
}.

Definition rpc_code (code : string) : Z :=
  if one_of [ErrorCodeProtocolError; ErrorCodeVersionMismatch] code then -32600
  else if one_of [ErrorCodeParsingError] code then -32700
  else if one_of [ErrorCodeValidation; ErrorCodeInvalidInput; ErrorCodeMissingParameter] code then -32602
  else if one_of [ErrorCodeAuthFailed; ErrorCodeUnauthorized; ErrorCodeTokenExpired] code then -32001
  else if one_of [ErrorCodeNotFound] code then -32002
  else if one_of [ErrorCodeRateLimit; ErrorCodeQuotaExceeded] code then -32003
  else if one_of [ErrorCodeTimeout] code then -32004
  else if one_of [ErrorCodeInvalidOperation] code then -32601
  else -32603.

Definition put_if (b : bool) (k : string) (v : any) (m : gmap string data_value) : gmap string
        data_value :=
  if b then <[k := Value v]> m else m.
Definition put_some {A} (o : option A) (k : string) (f : A -> any) (m : gmap string data_value) :
        gmap string data_value :=
  match o with Some x => <[k := Value (f x)]> m | None => m end.

(** The data before the metadata, which replace whatever has their keys. *)
Definition own_data (e : ErrorResponse) : gmap string data_value :=
  let m : gmap string data_value :=
    <["severity" := Value (AString (Severity e))]> (<["category" := Value (AString (Category e))]>
      {["code" := Value (AString (Code e))]}) in
  let m := put_if (negb (String.eqb (Suggestion e) "")) "suggestion" (AString (Suggestion e)) m in
  let m := match RecoverySteps e with [] => m | l => <["recovery_steps" := Steps l]> m end in
  let m := put_if (0 <? Z.of_nat (length (AlternativeTools e))) "alternative_tools" (AStrings
        (AlternativeTools e)) m in
  let m := put_some (RetryAfter e) "retry_after_seconds" (λ d, AFloat (duration_seconds d)) m in
  let m := put_some (RateLimitInfo_ e) "rate_limit" (λ i, AMap (<["limit" := AInt (info_Limit i)]>
             (<["remaining" := AInt (info_Remaining i)]> {["reset" := AOther "time.Time" (Reset_
        i)]}))) m in
  let m := put_some (RetryStrategy_ e) "retry_strategy" (λ s, AMap (<["retryable" := ABool (Retryable s)]>
             (<["max_attempts" := AInt (MaxAttempts s)]> (<["backoff_type" := AString (BackoffType s)]>
               {["initial_delay" := AFloat (duration_seconds (InitialDelay s))]})))) m in
  let m := put_some (Resource e) "resource" (λ r, AMap (<["type" := AString (resource_Type r)]>
             (<["id" := AString (resource_ID r)]> {["name" := AString (resource_Name r)]}))) m in
  put_if (negb (String.eqb (Documentation e) "")) "documentation" (AString (Documentation e)) m.

Definition ToMCPError (e : ErrorResponse) : MCPError :=
  MkMCPError (rpc_code (Code e)) (Error_ e) ((Value <$> Metadata e) ∪ own_data e).

Definition NewProtocolError (now : Z) (operation message details : string) : ErrorResponse :=
  NewErrorResponse now ErrorCodeProtocolError message
  |> WithDetails details
  |> WithOperation operation
  |> WithSuggestion "Check that your client implements the MCP protocol correctly"
  |> WithDocumentation "https://developer-mesh.io/docs/mcp-protocol".

Definition NewAuthError (now : Z) (message : string) : ErrorResponse := AuthenticationFailed now message.
Definition NewToolExecutionError (now : Z) (toolName err : string) : ErrorResponse :=
        ToolExecutionFailed now toolName err [].
Definition NewToolExecutionErrorWithAlternatives (now : Z) (toolName err : string) (alternatives :
        list string)
    : ErrorResponse := ToolExecutionFailed now toolName err alternatives.

(** [timeout] and [retryAfter] are the texts of [fmt.Stringer]s. *)
Definition NewTimeoutError (now : Z) (operation : string) (timeout : option string) : ErrorResponse :=
  NewErrorResponse now ErrorCodeTimeout ("Operation " +:+ quoted operation +:+ " timed out")
  |> WithOperation operation
  |> WithMetadata "timeout" (match timeout with Some s => AString s | None => ANil end)
  |> WithSuggestion "Try again with a longer timeout or reduce the request size".
Definition NewRateLimitError (now : Z) (retryAfter : string) : ErrorResponse :=
  NewErrorResponse now ErrorCodeRateLimit "Rate limit exceeded"
  |> WithSuggestion ("Wait " +:+ retryAfter +:+ " before retrying").
Definition NewValidationError (now : Z) (field message : string) : ErrorResponse :=
        models_NewValidationError now field message.
Definition NewNotFoundError (now : Z) (resource identifier : string) : ErrorResponse :=
        models_NewNotFoundError now resource identifier.

(** ** What holds of every template *)

(** The steps of a recovery are numbered from one. *)
Definition numbered (e : ErrorResponse) : Prop :=
  Order <$> RecoverySteps e = Z.of_nat <$> seq 1 (length (RecoverySteps e)).

(** However a template is filled in, the steps it advises are numbered from one without a
    gap, the ones appended for alternatives included. *)
Theorem recovery_steps_numbered now a b c l status :
  Forall numbered [ProtocolVersionMismatch now a b; InvalidRequest now a; UninitializedSession now;
    AuthenticationFailed now a; PermissionDenied now a b; ToolNotFound now a l; ToolExecutionFailed now a b l;
    ParameterValidationFailed now a b c; ServiceUnavailable now a l; UpstreamError now a status b;
    ResourceNotFound now a b l; Conflict now a b c; InternalError now a b; ConfigurationError now a b].
Proof.
  repeat (apply Forall_cons; split); [..|apply Forall_nil_2]; try reflexivity.
  - by destruct l.
  - by destruct l as [|x [|y l]].
  - by destruct l.
  - by destruct l.
Qed.

(** The data of an error are its metadata, and where those are silent its own fields. *)
Lemma mcp_data e k :
  Data (ToMCPError e) !! k =
  match Metadata e !! k with Some v => Some (Value v) | None => own_data e !! k end.
Proof.
  cbn. rewrite lookup_union, lookup_fmap. destruct (Metadata e !! k), (own_data e !! k); done.
Qed.

Lemma one_of_cons a l c : one_of (a :: l) c = String.eqb c a || one_of l c.
Proof.
  unfold one_of. destruct (String.eqb_spec c a) as [->|Hne].
  - apply bool_decide_eq_true. left.
  - apply bool_decide_ext. set_solver.
Qed.

(** A code that is none of those listed in [ToMCPError] is an internal error. *)
Lemma rpc_code_other code :
  code ∉ [ErrorCodeProtocolError; ErrorCodeVersionMismatch; ErrorCodeParsingError; ErrorCodeValidation;
          ErrorCodeInvalidInput; ErrorCodeMissingParameter; ErrorCodeAuthFailed; ErrorCodeUnauthorized;
          ErrorCodeTokenExpired; ErrorCodeNotFound; ErrorCodeRateLimit; ErrorCodeQuotaExceeded; ErrorCodeTimeout;
          ErrorCodeInvalidOperation] -> rpc_code code = -32603.
Proof.
  intros H. unfold rpc_code, one_of. repeat rewrite bool_decide_false; [done|..]; set_solver.
Qed.

(** Codes of a section that have the category of another. *)
Definition category_of_section : list (string * string) :=
  zip (fst <$> sections) [CategoryAuth; CategoryResource; CategoryRateLimit; CategoryValidation; CategoryNetwork;
    CategoryExternal; CategorySystem; CategoryProtocol; CategoryBusiness].
Example misfiled_codes :
  (mjoin (zip_with (λ s cat, filter (λ c, getCategoryForCode c ≠ snd cat) (snd s)) sections category_of_section))
  = [ErrorCodeDependencyFailed; ErrorCodeSchemaViolation; ErrorCodeProxyError; ErrorCodeMaintenance].
Proof. vm_compute. reflexivity. Qed.

(** Metadata can hide the code of an error. *)
Example hidden_code :
  Data (ToMCPError (WithMetadata "code" (AString "OK") (InternalError 0 "op" "failed"))) !! "code"
  = Some (Value (AString "OK")).
Proof. vm_compute. reflexivity. Qed.
