(* ===== verification/Redact.v ===== *)
(** * Redact: secrets in what is logged

    The file [pkg/utils/log_utils.go].  [strings.ToLower] is that of the class [Unicode].
    Only maps and slices of [interface{}] are looked into, as in the code. *)

From stdpp Require Import base decidable gmap strings list.
From Stdlib Require Import ZArith Lia.
From S2P Require Import Prelude GoStrings GoAny UnicodeText.

Local Open Scope string_scope.
Local Open Scope Z_scope.

Definition SensitiveKeys : list string := [
  "password"; "passwd"; "pwd";
  "secret"; "api_key"; "apikey"; "api-key";
  "token"; "access_token"; "refresh_token"; "bearer";
  "authorization"; "auth"; "credentials"; "creds";
  "private_key"; "private-key"; "privatekey";
  "client_secret"; "client-secret"; "clientsecret";
  "encrypted_token"; "github_token"; "personal_access_token";
  "__passthrough_auth"; "pat"].

Definition redacted : any := AString "[REDACTED]".

Section redact.
Context {U : Unicode}.

Definition isSensitiveKey (key : string) : bool := existsb (Contains (to_lower key)) SensitiveKeys.

(** The redaction of a value that is not under a sensitive key. *)
Fixpoint redact_value (v : any) : any :=
  match v with
  | AMap m => AMap (map_imap (λ k x, Some (if isSensitiveKey k then redacted else x)) (redact_value <$> m))
  | AList l => AList (map redact_value l)
  | _ => v
  end.

Definition RedactSensitiveData (data : gmap string any) : gmap string any :=
  map_imap (λ k x, Some (if isSensitiveKey k then redacted else x)) (redact_value <$> data).
Definition redactSlice (l : list any) : list any := map redact_value l.

Definition SanitizeLogValue (key : string) (value : any) : any :=
  if isSensitiveKey key then redacted else redact_value value.

Definition RedactString (value : string) : string :=
  if String.eqb value "" then value
  else if 8 <? len value then take_bytes 3 value +:+ "...[REDACTED]" else "[REDACTED]".

Lemma redact_lookup m k :
  RedactSensitiveData m !! k = (λ x, if isSensitiveKey k then redacted else redact_value x) <$> m !! k.
Proof.
  unfold RedactSensitiveData. rewrite map_lookup_imap, lookup_fmap. by destruct (m !! k).
Qed.
Lemma redact_value_map m : redact_value (AMap m) = AMap (RedactSensitiveData m).
Proof. done. Qed.

(** ** Induction over what is inside a value *)

Fixpoint weight (v : any) : nat :=
  match v with
  | AMap m => S (map_fold (λ _ x n, x + n)%nat O (weight <$> m))
  | AList l => S (foldr (λ x n, weight x + n)%nat O l)
  | _ => O
  end.

Lemma sum_bound (m : gmap string nat) k x : m !! k = Some x -> (x <= map_fold (λ _ x n, x + n)%nat O m)%nat.
Proof.
  intros Hk. rewrite (map_fold_delete_L _ _ k x m) by (done || intros; lia). lia.
Qed.

Lemma nested_ind (P : any -> Prop) :
  (forall m, (forall k v, m !! k = Some v -> P v) -> P (AMap m)) ->
  (forall l, (forall v, v ∈ l -> P v) -> P (AList l)) ->
  (forall v, as_map v = None -> as_list v = None -> P v) -> forall v, P v.
Proof.
  intros Hm Hl Ho v. induction v as [v IH] using (induction_ltof1 _ weight).
  destruct v as [| | | | | | | |l| | | |m|]; try (by apply Ho).
  - apply Hl. intros v Hv. apply IH. unfold ltof. cbn. clear IH Hm Hl Ho. induction Hv as [x l|x y l Hv IHl]; cbn; lia.
  - apply Hm. intros k v Hv. apply IH. unfold ltof. cbn.
    assert ((weight <$> m) !! k = Some (weight v)) as Hw by (by rewrite lookup_fmap, Hv).
    apply sum_bound in Hw. lia.
Qed.

(** ** What a log tells *)

(** Two values that differ only under sensitive keys. *)
Inductive alike : any -> any -> Prop :=
| alike_refl v : alike v v
| alike_map m m' :
    dom m = dom m' ->
    (forall k x y, isSensitiveKey k = false -> m !! k = Some x -> m' !! k = Some y -> alike x y) ->
    alike (AMap m) (AMap m')
| alike_list l l' : Forall2 alike l l' -> alike (AList l) (AList l').

Lemma same_redaction m m' :
  dom m = dom m' ->
  (forall k x y, isSensitiveKey k = false -> m !! k = Some x -> m' !! k = Some y -> redact_value x = redact_value y) ->
  RedactSensitiveData m = RedactSensitiveData m'.
Proof.
  intros Hd H. apply map_eq. intros k. rewrite !redact_lookup.
  destruct (m !! k) as [x|] eqn:Hx, (m' !! k) as [y|] eqn:Hy.
  - simpl. destruct (isSensitiveKey k) eqn:Hk; [done|]. by rewrite (H k x y).
  - apply not_elem_of_dom in Hy. rewrite <-Hd in Hy. by apply not_elem_of_dom in Hy; congruence.
  - apply not_elem_of_dom in Hx. rewrite Hd in Hx. by apply not_elem_of_dom in Hx; congruence.
  - done.
Qed.


(** The other fields stay, and redacting again changes nothing. *)
Lemma redaction_idempotent v : redact_value (redact_value v) = redact_value v.
Proof.
  induction v as [m IH|l IH|v Hm Hl] using nested_ind.
  - rewrite redact_value_map, redact_value_map. f_equal. apply map_eq. intros k. rewrite !redact_lookup.
    destruct (m !! k) as [x|] eqn:Hx; [|done]. simpl. destruct (isSensitiveKey k); [done|]. by rewrite (IH k).
  - cbn. f_equal. rewrite map_map. apply map_ext_in. intros x Hx%list_elem_of_In. by apply IH.
  - by destruct v.
Qed.
End redact.

#[local] Existing Instance ascii_unicode.


(** Values of other types are not looked into, and harmless keys are taken for sensitive
    ones: "pat" is in "path", "auth" in "author". *)
Example redaction_misses :
  RedactSensitiveData (<["path" := AString "/tmp"]> (<["author" := AString "ann"]>
    {["headers" := AOther "map[string]string" 7]}))
  = <["path" := redacted]> (<["author" := redacted]> {["headers" := AOther "map[string]string" 7]}).
Proof. vm_compute. reflexivity. Qed.
