(* ===== verification/ToolRelations.v ===== *)
(** * ToolRelations: how the tools of the edge server relate

    The file [apps/edge-mcp/internal/tools/relationships.go]: prerequisites, follow-ups,
    alternatives and conflicts of tools, the types of their inputs and outputs, and
    templates of workflows, with the tables a new manager starts with.  Ranging over a map
    is an argument where its order shows. *)

From stdpp Require Import base decidable gmap strings list sets.
From Stdlib Require Import ZArith Lia.
From S2P Require Import Prelude GoStrings GoAny.

Local Open Scope string_scope.
Local Open Scope Z_scope.

Record ToolRelationship := MkRelationship {
  Prerequisites : list string;
  CommonlyUsedWith : list string;
  NextSteps : list string;
  Alternatives : list string;
  ConflictsWith : list string;
}.

Record DataType := MkDataType {
  Format : string;
  Schema : string;
  ContentType : string;
  Properties : gmap string any;
}.

Record IOCompatibility := MkIO {
  InputType : DataType;
  OutputType : DataType;
}.

Record WorkflowStep := MkStep {
  Order : Z;
  ToolName : string;
  step_Description : string;
  Required : bool;
  Condition : string;
  InputFrom : string;
  Parameters : gmap string any;
}.

Record WorkflowTemplate := MkTemplate {
  template_Name : string;
  template_Description : string;
  template_Category : string;
  Steps : list WorkflowStep;
  template_Tags : list string;
}.

Record RelationshipManager := MkManager {
  relationships : gmap string ToolRelationship;
  ioCompatibility : gmap string IOCompatibility;
  workflows : list WorkflowTemplate;
}.

(** The categories of [categories.go] that the templates use. *)
Definition CategoryPullRequests : string := "pull_requests".
Definition CategoryIssues : string := "issues".
Definition CategoryCICD : string := "ci_cd".
Definition CategoryAgent : string := "agent".

Definition props (l : list (string * string)) : gmap string any :=
  list_to_map (prod_map id AString <$> l).

Definition default_relationships : list (string * ToolRelationship) := [
    ("github_get_issue", MkRelationship []
       ["github_update_issue"; "github_add_issue_comment"; "github_list_issue_comments"]
       ["github_update_issue"; "github_add_issue_comment"; "github_create_pull_request"]
       ["github_search_issues"]
       []);
    ("github_create_issue", MkRelationship ["github_get_repository"]
       ["github_add_issue_comment"; "github_update_issue"]
       ["github_add_issue_comment"; "github_assign_issue"; "github_add_labels"]
       []
       []);
    ("github_list_issues", MkRelationship []
       ["github_get_issue"; "github_search_issues"]
       ["github_get_issue"; "github_update_issue"; "github_create_issue"]
       ["github_search_issues"]
       []);
    ("github_create_pull_request", MkRelationship ["github_create_branch"; "github_push_files"]
       ["github_add_pull_request_review_comment"; "github_request_reviewers"]
       ["github_request_reviewers"; "github_add_pull_request_review_comment";
         "github_merge_pull_request"]
       []
       []);
    ("github_merge_pull_request", MkRelationship ["github_get_pull_request";
         "github_get_pull_request_reviews"]
       ["github_delete_branch"]
       ["github_delete_branch"; "github_create_release"]
       []
       ["github_update_pull_request"]);
    ("github_run_workflow", MkRelationship ["github_list_workflows"]
       ["github_get_workflow_run"; "github_list_workflow_jobs"]
       ["github_get_workflow_run"; "github_get_workflow_run_logs"; "github_list_artifacts"]
       ["github_rerun_workflow_run"]
       []);
    ("github_cancel_workflow_run", MkRelationship ["github_get_workflow_run"]
       ["github_rerun_workflow_run"]
       ["github_rerun_workflow_run"; "github_run_workflow"]
       []
       ["github_get_workflow_run_logs"]);
    ("agent_heartbeat", MkRelationship []
       ["agent_status"; "agent_list"]
       ["task_assign"; "task_get"]
       []
       []);
    ("task_assign", MkRelationship ["task_create"; "agent_list"]
       ["task_get"; "agent_status"]
       ["task_get"; "task_complete"]
       []
       []);
    ("task_complete", MkRelationship ["task_assign"; "task_get"]
       ["context_update"]
       ["task_create"; "workflow_execute"]
       []
       ["task_assign"]);
    ("workflow_create", MkRelationship []
       ["workflow_list"; "template_get"]
       ["workflow_execute"; "workflow_get"]
       ["template_instantiate"]
       []);
    ("workflow_execute", MkRelationship ["workflow_create"]
       ["workflow_execution_get"; "context_update"]
       ["workflow_execution_get"; "task_list"]
       []
       []);
    ("workflow_cancel", MkRelationship ["workflow_execution_get"]
       []
       ["workflow_execute"]
       []
       ["workflow_execution_get"]);
    ("context_update", MkRelationship []
       ["context_get"; "context_append"]
       ["workflow_execute"; "task_create"]
       ["context_append"]
       []);
    ("context_get", MkRelationship []
       ["context_update"; "context_append"]
       ["context_update"]
       []
       []);
    ("template_instantiate", MkRelationship ["template_list"; "template_get"]
       ["workflow_execute"]
       ["workflow_execute"; "workflow_get"]
       ["workflow_create"]
       [])].

Definition default_workflows : list WorkflowTemplate := [
    MkTemplate "code_review_workflow" "Complete code review process from PR creation to merge"
         CategoryPullRequests [
       MkStep 1 "github_create_branch" "Create feature branch" true "" "" ∅;
       MkStep 2 "github_push_files" "Push code changes" true "" "step_1" ∅;
       MkStep 3 "github_create_pull_request" "Create PR for review" true "" "step_2" ∅;
       MkStep 4 "github_request_reviewers" "Request code reviewers" false "" "step_3" ∅;
       MkStep 5 "github_run_workflow" "Run CI/CD checks" true "" "step_3" ∅;
       MkStep 6 "github_get_pull_request_reviews" "Check review status" true "" "step_3" ∅;
       MkStep 7 "github_merge_pull_request" "Merge approved PR" true "all_reviews_approved" "step_6" ∅;
       MkStep 8 "github_delete_branch" "Clean up feature branch" false "" "step_7" ∅]
       ["review"; "collaboration"; "quality"];
    MkTemplate "issue_resolution_workflow" "Complete issue resolution from creation to closure"
         CategoryIssues [
       MkStep 1 "github_create_issue" "Create new issue" true "" "" ∅;
       MkStep 2 "github_add_labels" "Add appropriate labels" false "" "step_1" ∅;
       MkStep 3 "github_assign_issue" "Assign to developer" true "" "step_1" ∅;
       MkStep 4 "github_create_branch" "Create fix branch" true "" "step_1" ∅;
       MkStep 5 "github_push_files" "Push fix" true "" "step_4" ∅;
       MkStep 6 "github_create_pull_request" "Create PR with fix" true "" "step_5" {["closes_issue"
         := ABool true]};
       MkStep 7 "github_merge_pull_request" "Merge fix" true "" "step_6" ∅;
       MkStep 8 "github_update_issue" "Close issue" true "" "step_1" {["state" := AString "closed"]}]
       ["bug"; "fix"; "tracking"];
    MkTemplate "deployment_workflow" "Deploy application through CI/CD pipeline" CategoryCICD [
       MkStep 1 "github_get_latest_release" "Get current release" true "" "" ∅;
       MkStep 2 "github_create_release" "Create new release" true "" "" ∅;
       MkStep 3 "github_run_workflow" "Trigger deployment workflow" true "" "step_2"
         {["workflow_id" := AString "deploy.yml"]};
       MkStep 4 "github_get_workflow_run" "Monitor deployment" true "" "step_3" ∅;
       MkStep 5 "github_list_workflow_jobs" "Check deployment jobs" false "" "step_4" ∅;
       MkStep 6 "github_get_workflow_run_logs" "Get deployment logs" false "on_failure" "step_4" ∅]
       ["deployment"; "release"; "production"];
    MkTemplate "multi_agent_task_workflow" "Coordinate multiple agents for complex task" CategoryAgent [
       MkStep 1 "context_update" "Set task context" true "" "" ∅;
       MkStep 2 "task_create" "Create main task" true "" "step_1" ∅;
       MkStep 3 "agent_list" "Get available agents" true "" "" ∅;
       MkStep 4 "task_assign" "Assign to best agent" true "" "step_2,step_3" ∅;
       MkStep 5 "task_get" "Monitor task progress" true "" "step_4" ∅;
       MkStep 6 "task_create" "Create follow-up tasks" false "needs_subtasks" "step_5" ∅;
       MkStep 7 "task_complete" "Complete main task" true "" "step_5" ∅;
       MkStep 8 "context_update" "Update context with results" true "" "step_7" ∅]
       ["orchestration"; "multi-agent"; "coordination"]].

Definition default_compatibility : list (string * IOCompatibility) := [
    ("github_get_issue", MkIO
       (MkDataType "json" "issue_identifier" "" (props [("issue_number", "integer"); ("owner",
         "string"); ("repo", "string")]))
       (MkDataType "json" "issue" "application/json" (props [("id", "integer"); ("number",
         "integer"); ("title", "string"); ("body", "string"); ("state", "string")])));
    ("github_create_issue", MkIO
       (MkDataType "json" "issue_create" "" (props [("title", "string"); ("body", "string");
         ("labels", "array"); ("assignees", "array")]))
       (MkDataType "json" "issue" "application/json" (props [])));
    ("github_list_issues", MkIO
       (MkDataType "json" "list_params" "" (props [("state", "string"); ("labels", "string");
         ("sort", "string"); ("direction", "string"); ("per_page", "integer")]))
       (MkDataType "json" "issue_list" "application/json" (props [("issues", "array[issue]");
         ("total", "integer")])));
    ("github_create_pull_request", MkIO
       (MkDataType "json" "pull_request_create" "" (props [("title", "string"); ("body", "string");
         ("head", "string"); ("base", "string")]))
       (MkDataType "json" "pull_request" "application/json" (props [])));
    ("workflow_create", MkIO
       (MkDataType "json" "workflow_definition" "" (props [("name", "string"); ("description",
         "string"); ("steps", "array")]))
       (MkDataType "json" "workflow" "application/json" (props [("id", "string"); ("name",
         "string"); ("created_at", "timestamp")])));
    ("workflow_execute", MkIO
       (MkDataType "json" "workflow_execution_params" "" (props [("workflow_id", "string");
         ("input", "object")]))
       (MkDataType "json" "workflow_execution" "application/json" (props [("execution_id",
         "string"); ("status", "string")])));
    ("task_create", MkIO
       (MkDataType "json" "task_definition" "" (props [("title", "string"); ("description",
         "string"); ("priority", "string"); ("type", "string")]))
       (MkDataType "json" "task" "application/json" (props [("id", "string"); ("status", "string");
         ("created_at", "timestamp")])));
    ("context_update", MkIO
       (MkDataType "json" "context_data" "" (props [("session_id", "string"); ("context",
         "object"); ("merge", "boolean")]))
       (MkDataType "json" "context" "application/json" (props [("version", "integer");
         ("updated_at", "timestamp")])))].

(** ** A new manager *)

Definition initializeDefaultRelationships (rm : RelationshipManager) : RelationshipManager :=
  MkManager (foldl (λ m '(k, r), <[k := r]> m) (relationships rm) default_relationships)
    (ioCompatibility rm) (workflows rm).

Definition initializeDefaultWorkflows (rm : RelationshipManager) : RelationshipManager :=
  MkManager (relationships rm) (ioCompatibility rm) (workflows rm ++ default_workflows)%list.

Definition initializeIOCompatibility (rm : RelationshipManager) : RelationshipManager :=
  MkManager (relationships rm)
    (foldl (λ m '(k, c), <[k := c]> m) (ioCompatibility rm) default_compatibility) (workflows rm).

Definition NewRelationshipManager : RelationshipManager :=
  initializeIOCompatibility (initializeDefaultWorkflows (initializeDefaultRelationships
    (MkManager ∅ ∅ []))).

(** ** Questions *)

Definition GetRelationship (rm : RelationshipManager) (toolName : string) : option ToolRelationship :=
  relationships rm !! toolName.

Definition GetIOCompatibility (rm : RelationshipManager) (toolName : string) : option IOCompatibility :=
  ioCompatibility rm !! toolName.

Definition GetWorkflowsForCategory (rm : RelationshipManager) (category : string) : list WorkflowTemplate :=
  filter (λ wf, template_Category wf = category) (workflows rm).

Definition GetWorkflowsWithTool (rm : RelationshipManager) (toolName : string) : list WorkflowTemplate :=
  filter (λ wf, existsb (λ s, String.eqb (ToolName s) toolName) (Steps wf) = true) (workflows rm).

Definition GetWorkflowByName (rm : RelationshipManager) (name : string) : option WorkflowTemplate :=
  find (λ wf, String.eqb (template_Name wf) name) (workflows rm).

Definition GetAllWorkflows (rm : RelationshipManager) : list WorkflowTemplate := workflows rm.

(** [strings.EqualFold] folds by Unicode's tables; it is an argument. *)
Definition GetWorkflowsWithTag (EqualFold : string -> string -> bool) (rm : RelationshipManager)
    (tag : string) : list WorkflowTemplate :=
  filter (λ wf, existsb (λ t, EqualFold t tag) (template_Tags wf) = true) (workflows rm).

Definition families : list (list string) := [
  ["issue"; "issue_identifier"; "issue_create"; "issue_list"];
  ["pull_request"; "pull_request_identifier"; "pull_request_create"];
  ["workflow"; "workflow_definition"; "workflow_execution_params"; "workflow_execution"];
  ["task"; "task_definition"; "task_identifier"];
  ["context"; "context_data"];
  ["agent"; "agent_status"]
].

Definition isRelatedSchema (schema1 schema2 : string) : bool :=
  existsb (λ family, existsb (String.eqb schema1) family && existsb (String.eqb schema2) family) families.

Definition transformations : gmap string (list string) := list_to_map [
  ("issue", ["issue_identifier"; "issue_create"; "pull_request_create"]);
  ("pull_request", ["issue_create"; "pull_request_identifier"]);
  ("workflow", ["workflow_execution_params"]);
  ("workflow_execution", ["task_definition"]);
  ("task", ["context_data"]);
  ("issue_list", ["issue_identifier"; "issue"]);
  ("context", ["task_definition"; "workflow_execution_params"])
].

Definition canTransform (fromSchema toSchema : string) : bool :=
  match transformations !! fromSchema with
  | Some allowed => existsb (λ schema, String.eqb schema toSchema) allowed
  | None => false
  end.

Definition CheckCompatibility (rm : RelationshipManager) (sourceTool targetTool : string) : bool * string :=
  match ioCompatibility rm !! sourceTool, ioCompatibility rm !! targetTool with
  | Some sourceIO, Some targetIO =>
      let from := Schema (OutputType sourceIO) in
      let to := Schema (InputType targetIO) in
      if String.eqb from to then (true, "direct compatibility")
      else if canTransform from to then
        (true, "compatible with transformation from " +:+ from +:+ " to " +:+ to)
      else if String.eqb (Format (OutputType sourceIO)) (Format (InputType targetIO))
              && isRelatedSchema from to then
        (true, "format compatible, may need transformation")
      else (false, "incompatible types: " +:+ from +:+ " -> " +:+ to)
  | _, _ => (false, "compatibility information not available")
  end.

(** The loop shared by [ValidateDependencies] and [ValidateWorkflow]: what is not available. *)
Definition missing (availableTools wanted : list string) : list string :=
  filter (λ t, t ∉ availableTools) wanted.

Definition ValidateDependencies (rm : RelationshipManager) (toolName : string)
    (availableTools : list string) : bool * list string :=
  match relationships rm !! toolName with
  | None => (true, [])
  | Some rel =>
      let missingPrereqs := missing availableTools (Prerequisites rel) in
      (Z.of_nat (length missingPrereqs) =? 0, missingPrereqs)
  end.

Definition ValidateWorkflow (workflow : WorkflowTemplate) (availableTools : list string) : bool * list string :=
  let missingTools := missing availableTools (ToolName <$> Steps workflow) in
  (Z.of_nat (length missingTools) =? 0, missingTools).

(** The tools are keys of a map: [order] is the order in which it is read. *)
Definition suggestions (rel : ToolRelationship) : gset string :=
  list_to_set (NextSteps rel) ∪ list_to_set (CommonlyUsedWith rel).
Definition SuggestNextTools (order : gset string -> list string) (rm : RelationshipManager)
    (currentTool : string) : list string :=
  match relationships rm !! currentTool with
  | None => []
  | Some rel => order (suggestions rel)
  end.

Definition GetAlternatives (rm : RelationshipManager) (toolName : string) : list string :=
  match relationships rm !! toolName with
  | None => []
  | Some rel => Alternatives rel
  end.

Definition conflicts_with (rm : RelationshipManager) (tool1 tool2 : string) : bool :=
  match relationships rm !! tool1 with
  | Some rel => existsb (λ conflict, String.eqb conflict tool2) (ConflictsWith rel)
  | None => false
  end.
Definition CheckConflicts (rm : RelationshipManager) (tool1 tool2 : string) : bool :=
  conflicts_with rm tool1 tool2 || conflicts_with rm tool2 tool1.

(** ** What they answer *)

Lemma existsb_eqb_elem x l : existsb (String.eqb x) l = true <-> x ∈ l.
Proof.
  rewrite existsb_exists. setoid_rewrite String.eqb_eq. rewrite list_elem_of_In.
  split; [by intros (? & ? & <-)|eauto].
Qed.

Lemma existsb_eqb_elem' x l : existsb (λ y, String.eqb y x) l = true <-> x ∈ l.
Proof.
  rewrite existsb_exists. setoid_rewrite String.eqb_eq. rewrite list_elem_of_In.
  split; [by intros (? & ? & ->)|eauto].
Qed.

Lemma none_missing avail wanted :
  Z.of_nat (length (missing avail wanted)) =? 0 = true <-> forall t, t ∈ wanted -> t ∈ avail.
Proof.
  rewrite Z.eqb_eq. unfold missing. split.
  - intros H t Ht. destruct (decide (t ∈ avail)) as [|Hn]; [done|].
    assert (t ∈ filter (λ t, t ∉ avail) wanted) as Hin by (by apply list_elem_of_filter).
    destruct (filter _ wanted); [by apply not_elem_of_nil in Hin|simpl in H; lia].
  - intros H. destruct (filter (λ t, t ∉ avail) wanted) as [|t l] eqn:E; [done|].
    assert (t ∈ filter (λ t, t ∉ avail) wanted) as [Ht Hw]%list_elem_of_filter by (rewrite E; left).
    by destruct Ht; apply H.
Qed.

(** A tool may run when every prerequisite of it is available, and what is reported missing
    are the prerequisites that are not, in their order. *)
Lemma dependencies_available rm toolName avail rel :
  relationships rm !! toolName = Some rel ->
  (fst (ValidateDependencies rm toolName avail) = true <-> forall t, t ∈ Prerequisites rel -> t ∈ avail) /\
  snd (ValidateDependencies rm toolName avail) `sublist_of` Prerequisites rel /\
  (forall t, t ∈ snd (ValidateDependencies rm toolName avail) <-> t ∈ Prerequisites rel /\ t ∉ avail).
Proof.
  unfold ValidateDependencies. intros ->. cbn [fst snd]. split; [apply none_missing|]. split.
  - apply sublist_filter.
  - intros t. unfold missing. rewrite list_elem_of_filter. tauto.
Qed.

Lemma workflow_available wf avail :
  fst (ValidateWorkflow wf avail) = true <-> forall s, s ∈ Steps wf -> ToolName s ∈ avail.
Proof.
  unfold ValidateWorkflow. cbn [fst]. rewrite none_missing. split.
  - intros H s Hs. apply H, list_elem_of_fmap. eauto.
  - intros H t (s & -> & Hs)%list_elem_of_fmap. auto.
Qed.

Lemma conflicts_symmetric rm a b : CheckConflicts rm a b = CheckConflicts rm b a.
Proof. apply orb_comm. Qed.

(** What a suggestion is. *)
Lemma suggested order rm tool t :
  (forall s : gset string, order s ≡ₚ elements s) ->
  t ∈ SuggestNextTools order rm tool <->
  exists rel, relationships rm !! tool = Some rel /\ (t ∈ NextSteps rel \/ t ∈ CommonlyUsedWith rel).
Proof.
  intros Ho. unfold SuggestNextTools. destruct (relationships rm !! tool) as [rel|]; [|split; [set_solver|by intros (? & ? & _)]].
  rewrite Ho. unfold suggestions. rewrite elem_of_elements, elem_of_union, !elem_of_list_to_set.
  split; [eauto|by intros (? & [= <-] & ?)].
Qed.

Lemma suggestions_once order rm tool :
  (forall s : gset string, order s ≡ₚ elements s) -> NoDup (SuggestNextTools order rm tool).
Proof.
  intros Ho. unfold SuggestNextTools. destruct (relationships rm !! tool); [|apply NoDup_nil_2].
  rewrite Ho. apply NoDup_elements.
Qed.

(** ** The tables of a new manager *)

(** A tool whose prerequisite it also conflicts with: whoever follows one of the two
    lists breaks the other. *)
Definition contradicts (rel : ToolRelationship) : bool :=
  existsb (λ t, bool_decide (t ∈ ConflictsWith rel)) (Prerequisites rel).

Example contradictory_tools :
  (fst <$> filter (λ kr, contradicts (snd kr) = true) default_relationships) = ["task_complete"; "workflow_cancel"].
Proof. vm_compute. reflexivity. Qed.

(** The template of tasks for several agents asks for two tools that conflict. *)
Example multi_agent_workflow_conflicts :
  exists wf, GetWorkflowByName NewRelationshipManager "multi_agent_task_workflow" = Some wf /\
    existsb (λ s, String.eqb (ToolName s) "task_assign") (Steps wf) = true /\
    existsb (λ s, String.eqb (ToolName s) "task_complete") (Steps wf) = true /\
    CheckConflicts NewRelationshipManager "task_assign" "task_complete" = true.
Proof. eexists. split; [vm_compute; reflexivity|]. vm_compute. auto. Qed.

(** The steps of every template are numbered from one. *)
Example templates_numbered :
  forallb (λ wf, bool_decide (Order <$> Steps wf = Z.of_nat <$> seq 1 (length (Steps wf)))) default_workflows = true.
Proof. vm_compute. reflexivity. Qed.

Example create_then_get :
  CheckCompatibility NewRelationshipManager "github_create_issue" "github_get_issue"
  = (true, "compatible with transformation from issue to issue_identifier").
Proof. vm_compute. reflexivity. Qed.
