(* ===== verification/EdgeTools.v ===== *)
(** * EdgeTools: the registry of tools of the edge server and its refresh

    The files [apps/edge-mcp/internal/tools/registry.go] and [refresh.go].  What a handler
    does when it is called is an argument ([call]); a handler is a value that can be
    stored.  The order in which a map is read is an argument where it shows. *)

From stdpp Require Import base decidable gmap strings list sets.
From Stdlib Require Import ZArith Lia.
From S2P Require Import Prelude GoStrings GoAny ToolRelations.

Local Open Scope string_scope.
Local Open Scope Z_scope.

Section tools.
Context {ToolHandler : Type}.

Record ToolDefinition := MkTool {
  Name : string;
  Description : string;
  InputSchema : gmap string any;
  Handler : option ToolHandler;
  Category : string;
  Tags : list string;
  tool_Prerequisites : list string;
  tool_CommonlyUsedWith : list string;
  tool_NextSteps : list string;
  tool_Alternatives : list string;
  tool_ConflictsWith : list string;
  tool_IOCompatibility : option IOCompatibility;
}.

Record Registry := MkRegistry {
  tools : gmap string ToolDefinition;
  relationshipManager : RelationshipManager;
}.

Definition NewRegistry : Registry := MkRegistry ∅ NewRelationshipManager.

Definition set_tools (m : gmap string ToolDefinition) (r : Registry) : Registry :=
  MkRegistry m (relationshipManager r).

Definition RegisterRemote (tool : ToolDefinition) (r : Registry) : Registry :=
  set_tools (<[Name tool := tool]> (tools r)) r.

Definition Register (definitions : list ToolDefinition) (r : Registry) : Registry :=
  foldl (λ r d, RegisterRemote d r) r definitions.

Definition Get (r : Registry) (name : string) : option ToolDefinition := tools r !! name.
Definition Count (r : Registry) : Z := Z.of_nat (size (tools r)).
Definition Size (r : Registry) : Z := Count r.

(** ** Lists of tools *)

Definition hasAllTags (toolTags requiredTags : list string) : bool :=
  forallb (λ t, bool_decide (t ∈ toolTags)) requiredTags.

(** [order] is what ranging over the tools yields. *)
Definition ListAll (order : gmap string ToolDefinition -> list (string * ToolDefinition)) (r : Registry)
    : list ToolDefinition := (order (tools r)).*2.

Definition ListByCategory order (r : Registry) (category : string) : list ToolDefinition :=
  filter (λ t, Category t = category) (ListAll order r).

Definition ListByTags order (r : Registry) (tags : list string) : list ToolDefinition :=
  filter (λ t, hasAllTags (Tags t) tags = true) (ListAll order r).

Definition ListWithFilter order (r : Registry) (category : string) (tags : list string) : list ToolDefinition :=
  filter (λ t,
    (if negb (String.eqb category "") && negb (String.eqb (Category t) category) then false
     else if (0 <? Z.of_nat (length tags)) && negb (hasAllTags (Tags t) tags) then false
     else true) = true) (ListAll order r).

(** ** Execution *)

(** The text of a handler's error is all that its callers read. *)
Inductive tool_error :=
| ToolNotFoundError (name : string)
| ToolConfigError (name reason : string)
| HandlerError (text : string).

Definition error_text (e : tool_error) : string :=
  match e with
  | ToolNotFoundError name => "tool not found: " +:+ name
  | ToolConfigError name reason => "tool " +:+ name +:+ " configuration error: " +:+ reason
  | HandlerError text => text
  end.

(** The handler that a name stands for. *)
Definition resolve (r : Registry) (name : string) : result tool_error ToolHandler :=
  match tools r !! name with
  | None => Err (ToolNotFoundError name)
  | Some tool =>
      match Handler tool with
      | None => Err (ToolConfigError name "no handler configured")
      | Some h => Ok h
      end
  end.

(** [call h args] runs a handler in a context that the caller has built. *)
Definition Execute {S} (call : ToolHandler -> string -> S -> S * outcome string any)
    (r : Registry) (name args : string) (s : S) : S * outcome tool_error any :=
  match resolve r name with
  | Err e => (s, Fails e)
  | Ok h => let '(s, x) := call h args s in (s, map_err HandlerError x)
  end.

(** ** Relationships of registered tools *)

Definition ValidateToolDependencies (order : gset string -> list string) (r : Registry) (toolName : string)
    : bool * list string :=
  ValidateDependencies (relationshipManager r) toolName (order (dom (tools r))).

Definition available (r : Registry) (l : list string) : list string :=
  filter (λ t, is_Some (tools r !! t)) l.

Definition registered_next (order : gset string -> list string) (r : Registry) (currentTool : string)
    : list string := available r (SuggestNextTools order (relationshipManager r) currentTool).

Definition GetAlternativeTools (r : Registry) (toolName : string) : list string :=
  available r (GetAlternatives (relationshipManager r) toolName).

Definition registry_ValidateWorkflow (order : gset string -> list string) (r : Registry)
    (workflow : WorkflowTemplate) : bool * list string :=
  ValidateWorkflow workflow (order (dom (tools r))).

Definition EnrichToolWithRelationships (r : Registry) (t : ToolDefinition) : ToolDefinition :=
  let t :=
    match GetRelationship (relationshipManager r) (Name t) with
    | Some rel => MkTool (Name t) (Description t) (InputSchema t) (Handler t) (Category t) (Tags t)
        (Prerequisites rel) (CommonlyUsedWith rel) (NextSteps rel) (Alternatives rel) (ConflictsWith rel)
        (tool_IOCompatibility t)
    | None => t
    end in
  match GetIOCompatibility (relationshipManager r) (Name t) with
  | Some io => MkTool (Name t) (Description t) (InputSchema t) (Handler t) (Category t) (Tags t)
      (tool_Prerequisites t) (tool_CommonlyUsedWith t) (tool_NextSteps t) (tool_Alternatives t)
      (tool_ConflictsWith t) (Some io)
  | None => t
  end.

Definition ListAllEnriched order (r : Registry) : list ToolDefinition :=
  EnrichToolWithRelationships r <$> ListAll order r.

(** ** Refresh *)

Record RefreshConfig := MkRefreshConfig {
  AutoRefresh : bool;
  RefreshInterval : Z;
  RefreshOnReconnect : bool;
  NotifyOnChange : bool;
}.

Definition DefaultRefreshConfig : RefreshConfig := MkRefreshConfig true (5 * minute) true true.

(** [told] are the lists of tools given to each listener so far. *)
Record RefreshManager := MkRefreshManager {
  refresh_registry : Registry;
  config : RefreshConfig;
  listeners : Z;
  lastHash : string;
  running : bool;
  told : list (list ToolDefinition);
}.

Definition NewRefreshManager (r : Registry) (c : RefreshConfig) : RefreshManager :=
  MkRefreshManager r c 0 "" false [].

Definition AddListener (rm : RefreshManager) : RefreshManager :=
  MkRefreshManager (refresh_registry rm) (config rm) (listeners rm + 1) (lastHash rm) (running rm) (told rm).

Definition calculateHash (l : list ToolDefinition) : string :=
  foldl (λ hash t, (hash +:+ Name t +:+ ":" +:+ Description t +:+ ";")) "" l.

Definition clearAndRegister (l : list ToolDefinition) (rm : RefreshManager) : RefreshManager :=
  let r := refresh_registry rm in
  let newTools := filter (λ kt, Handler (snd kt) ≠ None) (tools r) in
  MkRefreshManager (Register l (set_tools newTools r)) (config rm) (listeners rm) (lastHash rm) (running rm) (told rm).

Definition notifyListeners (l : list ToolDefinition) (rm : RefreshManager) : RefreshManager :=
  MkRefreshManager (refresh_registry rm) (config rm) (listeners rm) (lastHash rm) (running rm)
    (told rm ++ repeat l (Z.to_nat (listeners rm)))%list.

(** [Refresh] takes its mutex for the hash only: it is two steps, between which another
    refresh can run.  The first remembers the hash and says whether it changed. *)
Definition note_hash (newTools : list ToolDefinition) (rm : RefreshManager) : bool * RefreshManager :=
  let newHash := calculateHash newTools in
  (negb (String.eqb newHash (lastHash rm)),
   MkRefreshManager (refresh_registry rm) (config rm) (listeners rm) newHash (running rm) (told rm)).

Definition register_changes (newTools : list ToolDefinition) (rm : RefreshManager) : RefreshManager :=
  let rm := clearAndRegister newTools rm in
  if NotifyOnChange (config rm) then notifyListeners newTools rm else rm.

(** [fetched] is what the refresher returns; there may be no refresher. *)
Definition Refresh {E} (fetched : option (result E (list ToolDefinition))) (rm : RefreshManager)
    : option E * RefreshManager :=
  match fetched with
  | None => (None, rm)
  | Some (Err e) => (Some e, rm)
  | Some (Ok newTools) =>
      let '(hasChanged, rm) := note_hash newTools rm in
      (None, if hasChanged then register_changes newTools rm else rm)
  end.

Definition OnReconnect {E} (fetched : option (result E (list ToolDefinition))) (rm : RefreshManager)
    : RefreshManager :=
  if RefreshOnReconnect (config rm) then snd (Refresh fetched rm) else rm.

Definition set_running (b : bool) (rm : RefreshManager) : RefreshManager :=
  MkRefreshManager (refresh_registry rm) (config rm) (listeners rm) (lastHash rm) b (told rm).

(** The periodic refreshes that [Start] leaves running are later calls of [Refresh]. *)
Definition Start {E} (fetched : option (result E (list ToolDefinition))) (rm : RefreshManager) : RefreshManager :=
  if running rm || negb (AutoRefresh (config rm)) then rm
  else snd (Refresh fetched (set_running true rm)).

(** [Stop] closes [stopChan] and forgets it was running, but a closed channel stays closed:
    [None] is the panic of closing it again. *)
Definition Stop (closed : bool) (rm : RefreshManager) : option (bool * RefreshManager) :=
  if running rm then if closed then None else Some (true, set_running false rm)
  else Some (closed, rm).

(** ** Laws of the registry *)

Definition last_named (n : string) (l : list ToolDefinition) : option ToolDefinition :=
  last (filter (λ t, Name t = n) l).

Lemma register_app l1 l2 r : Register (l1 ++ l2)%list r = Register l2 (Register l1 r).
Proof. apply foldl_app. Qed.

Lemma register_lookup l r n :
  tools (Register l r) !! n = match last_named n l with Some t => Some t | None => tools r !! n end.
Proof.
  induction l as [|t l IH] using rev_ind; [done|].
  rewrite register_app. cbn. rewrite lookup_insert. unfold last_named. rewrite filter_app, filter_cons, filter_nil.
  case_decide as Hn.
  - by rewrite last_snoc.
  - rewrite app_nil_r. apply IH.
Qed.

Lemma register_relationships l r : relationshipManager (Register l r) = relationshipManager r.
Proof. induction l as [|t l IH] using rev_ind; [done|]. by rewrite register_app. Qed.

Lemma last_named_spec n l t : last_named n l = Some t -> t ∈ l /\ Name t = n.
Proof.
  unfold last_named. intros H%last_Some_elem_of. by apply list_elem_of_filter in H as [? ?].
Qed.

Lemma last_named_none n l : last_named n l = None <-> forall t, t ∈ l -> Name t ≠ n.
Proof.
  unfold last_named. rewrite last_None. split.
  - intros H t Ht Hn. assert (t ∈ filter (λ t, Name t = n) l) as Hf by (by apply list_elem_of_filter).
    rewrite H in Hf. by apply not_elem_of_nil in Hf.
  - intros H. destruct (filter _ l) as [|t l'] eqn:E; [done|].
    assert (t ∈ filter (λ t, Name t = n) l) as [? ?]%list_elem_of_filter by (rewrite E; left).
    by destruct (H t).
Qed.

(** The key of a tool is its name. *)
Definition well_named (r : Registry) : Prop := forall n t, tools r !! n = Some t -> Name t = n.

Lemma register_well_named l r : well_named r -> well_named (Register l r).
Proof.
  intros Hr n t. rewrite register_lookup. destruct (last_named n l) eqn:E; [|apply Hr].
  intros [= <-]. by apply last_named_spec in E as [_ ?].
Qed.

Lemma filter_exact order r category tags :
  (forall m : gmap string ToolDefinition, ranges (order m) m) ->
  forall t, t ∈ ListWithFilter order r category tags <->
    (exists n, tools r !! n = Some t) /\ (category = "" \/ Category t = category) /\
    (forall x, x ∈ tags -> x ∈ Tags t).
Proof.
  intros Ho t. unfold ListWithFilter, ListAll. rewrite list_elem_of_filter.
  rewrite list_elem_of_fmap.
  assert ((exists y, t = snd y /\ y ∈ order (tools r)) <-> exists n, tools r !! n = Some t) as ->.
  { split.
    - intros ([n u] & -> & Hy). rewrite (Ho (tools r)) in Hy. apply elem_of_map_to_list in Hy. by exists n.
    - intros [n Hn]. exists (n, t). split; [done|]. rewrite (Ho (tools r)). by apply elem_of_map_to_list. }
  assert (hasAllTags (Tags t) tags = true <-> forall x, x ∈ tags -> x ∈ Tags t) as Htags.
  { unfold hasAllTags. rewrite forallb_forall. setoid_rewrite bool_decide_eq_true.
    by setoid_rewrite list_elem_of_In. }
  destruct (String.eqb_spec category ""), (String.eqb_spec (Category t) category),
    (hasAllTags (Tags t) tags) eqn:Eh, tags as [|a l];
    cbn [negb andb length Z.of_nat Z.ltb Z.compare]; rewrite <-Htags; try naive_solver.
  all: try (change (0 <? Z.of_nat (S (length l))) with true; cbn; naive_solver).
Qed.

(** ** Laws of the refresh *)

Definition with_handlers (l : list ToolDefinition) : Prop := Forall (λ t, Handler t ≠ None) l.

Lemma clear_lookup l rm n :
  tools (refresh_registry (clearAndRegister l rm)) !! n =
  match last_named n l with
  | Some t => Some t
  | None =>
      match tools (refresh_registry rm) !! n with
      | Some t => match Handler t with Some _ => Some t | None => None end
      | None => None
      end
  end.
Proof.
  unfold clearAndRegister. cbn [refresh_registry]. rewrite register_lookup. cbn [tools set_tools].
  destruct (last_named n l); [done|]. rewrite map_lookup_filter.
  destruct (tools (refresh_registry rm) !! n) as [t|]; [|done]. simpl.
  case_guard as Hg; simpl in Hg; destruct (Handler t); try done; by destruct Hg.
Qed.

Lemma register_changes_registry l rm :
  refresh_registry (register_changes l rm) = refresh_registry (clearAndRegister l rm).
Proof. unfold register_changes. by destruct (NotifyOnChange _). Qed.

Lemma refresh_lookup {E} (l : list ToolDefinition) rm n :
  calculateHash l ≠ lastHash rm ->
  tools (refresh_registry (snd (Refresh (E:=E) (Some (Ok l)) rm))) !! n =
  tools (refresh_registry (clearAndRegister l rm)) !! n.
Proof.
  intros Hh. unfold Refresh, note_hash. apply String.eqb_neq in Hh. rewrite Hh. cbn [negb snd].
  by rewrite register_changes_registry, !clear_lookup.
Qed.

(** A refresh with the same names and descriptions changes nothing in the registry, whatever
    else of the tools has changed. *)
Lemma refresh_same_hash {E} (l l' : list ToolDefinition) rm :
  calculateHash l = calculateHash l' -> lastHash rm = calculateHash l ->
  refresh_registry (snd (Refresh (E:=E) (Some (Ok l')) rm)) = refresh_registry rm.
Proof.
  intros H1 H2. unfold Refresh, note_hash. by rewrite <-H1, H2, String.eqb_refl.
Qed.
(** A fetched tool replaces the one of its name; of the others, those with a handler stay. *)
Lemma refresh_effect {E} (l : list ToolDefinition) rm n :
  calculateHash l ≠ lastHash rm ->
  tools (refresh_registry (snd (Refresh (E:=E) (Some (Ok l)) rm))) !! n =
  match last_named n l with
  | Some t => Some t
  | None => match tools (refresh_registry rm) !! n with
            | Some t => match Handler t with Some _ => Some t | None => None end
            | None => None
            end
  end.
Proof. intros Hh. by rewrite refresh_lookup, clear_lookup. Qed.

Definition refreshes {E} (fetches : list (option (result E (list ToolDefinition)))) (rm : RefreshManager)
    : RefreshManager := foldl (λ rm f, snd (Refresh f rm)) rm fetches.

(** What a refresher that makes a proxy for every tool returns, as the client of the core
    platform does. *)
Definition fetched_with_handlers {E} (f : option (result E (list ToolDefinition))) : Prop :=
  match f with Some (Ok l) => with_handlers l | _ => True end.

Lemma refresh_keeps_handler {E} (f : option (result E (list ToolDefinition))) rm n t :
  fetched_with_handlers f ->
  tools (refresh_registry rm) !! n = Some t -> Handler t ≠ None ->
  exists t', tools (refresh_registry (snd (Refresh f rm))) !! n = Some t' /\ Handler t' ≠ None.
Proof.
  intros Hf Ht Hh. destruct f as [[l|e]|]; [|by exists t..].
  destruct (String.eqb_spec (calculateHash l) (lastHash rm)) as [Heq|Hne].
  - exists t. unfold Refresh, note_hash. rewrite Heq, String.eqb_refl. done.
  - rewrite refresh_effect by done. destruct (last_named n l) as [t'|] eqn:El.
    + exists t'. apply last_named_spec in El as [El _]. split; [done|].
      cbn in Hf. unfold with_handlers in Hf. rewrite Forall_forall in Hf. by apply Hf.
    + rewrite Ht. exists t. destruct (Handler t); done.
Qed.

(** A tool that the platform no longer offers stays registered, and callable, through every
    later refresh: the loop that clears "remote" tools keeps those with a handler, and every
    fetched tool has one. *)
Theorem stale_tools_remain {E} (fetches : list (option (result E (list ToolDefinition)))) rm n t :
  tools (refresh_registry rm) !! n = Some t -> Handler t ≠ None ->
  Forall fetched_with_handlers fetches ->
  exists t', tools (refresh_registry (refreshes fetches rm)) !! n = Some t' /\ Handler t' ≠ None.
Proof.
  intros Ht Hh Hf. revert rm t Ht Hh. induction Hf as [|f fs Hf _ IH]; intros rm t Ht Hh; [by exists t|].
  destruct (refresh_keeps_handler f rm n t Hf Ht Hh) as (t' & Ht' & Hh').
  exact (IH _ _ Ht' Hh').
Qed.
End tools.

Arguments ToolDefinition : clear implicits.
Arguments Registry : clear implicits.
Arguments RefreshManager : clear implicits.

(** ** Examples: handlers are names *)

Definition proxy (name description : string) (h : string) : ToolDefinition string :=
  MkTool name description ∅ (Some h) "" [] [] [] [] [] [] None.

Definition fresh_manager : RefreshManager string := NewRefreshManager (MkRegistry ∅ (MkManager ∅ ∅ [])) DefaultRefreshConfig.

Lemma stale_tools_remain_witness :
  exists t, tools (refresh_registry (refreshes (E:=unit) [Some (Ok []); Some (Ok [proxy "c" "" "2"])]
    (snd (Refresh (E:=unit) (Some (Ok [proxy "a" "first" "1"])) fresh_manager)))) !! "a" = Some t /\ Handler t ≠ None.
Proof.
  apply (stale_tools_remain (E:=unit) [Some (Ok []); Some (Ok [proxy "c" "" "2"])] _ _ (proxy "a" "first" "1")).
  - vm_compute. reflexivity.
  - discriminate.
  - repeat constructor. discriminate.
Defined.

(** A tool with a new handler but the old name and description is not replaced. *)
Example changed_tool_missed :
  let rm := snd (Refresh (E:=unit) (Some (Ok [proxy "a" "first" "old"])) fresh_manager) in
  let rm := snd (Refresh (E:=unit) (Some (Ok [proxy "a" "first" "new"])) rm) in
  (tools (refresh_registry rm) !! "a") ≫= Handler = Some "old".
Proof. vm_compute. reflexivity. Qed.

(** Two tools can hash like one. *)
Example hash_collision :
  calculateHash [proxy "a" "b;c:d" ""] = calculateHash [proxy "a" "b" ""; proxy "c" "d" ""].
Proof. vm_compute. reflexivity. Qed.

(** Two refreshes at once: the one that fetched first registers last, and the hash that
    stays is the other's, so the next refresh with the new tool sees no change. *)
Example racing_refreshes :
  let old := [proxy "a" "first" "old"] in let new := [proxy "a" "second" "new"] in
  let '(c1, rm) := note_hash old fresh_manager in
  let '(c2, rm) := note_hash new rm in
  let rm := register_changes old (register_changes new rm) in
  let rm := snd (Refresh (E:=unit) (Some (Ok new)) rm) in
  (c1, c2, (tools (refresh_registry rm) !! "a") ≫= Handler) = (true, true, Some "old").
Proof. vm_compute. reflexivity. Qed.

(** [Stop], [Start], [Stop] panics: the channel is closed twice. *)
Example stopped_twice :
  exists rm1, Stop false (Start (E:=unit) None fresh_manager) = Some (true, rm1) /\
    Stop true (Start (E:=unit) None rm1) = None.
Proof. eexists. split; vm_compute; reflexivity. Qed.
