(* ===== verification/EdgeSearch.v ===== *)
(** * EdgeSearch: searching the tools of the edge server

    The file [apps/edge-mcp/internal/tools/search.go]: how a tool is scored against the
    criteria, and what [Search] returns whatever order the registry's map is read in and
    however [sort.Slice] breaks ties.  [strings.ToLower] is an argument ([Unicode]). *)

From stdpp Require Import base decidable gmap strings list sets sorting relations.
From Stdlib Require Import ZArith Ascii Lia.
From S2P Require Import Prelude GoFloat GoSort GoStrings GoAny UnicodeText ToolRelations EdgeTools.

Local Open Scope Z_scope.

(** ** The distance of two names

    The matrix of [levenshteinDistance], filled cell by cell as the code does, and the
    equivalence with what the name promises: the least number of insertions, deletions and
    substitutions of a byte. *)

Definition min (values : list Z) : Z :=
  match values with
  | [] => 0
  | v :: vs => foldl (λ result v, if v <? result then v else result) v vs
  end.

Definition cell (matrix : list (list Z)) (i j : nat) : Z := default 0 (matrix !! i ≫= lookup j).
Definition put (i j : nat) (v : Z) (matrix : list (list Z)) : list (list Z) := alter <[j := v]> i matrix.

(** [s1[i-1] == s2[j-1]] decides the cost. *)
Definition cost (s1 s2 : string) (i j : nat) : Z :=
  if decide (String.get (i - 1) s1 = String.get (j - 1) s2) then 0 else 1.

Definition fill (s1 s2 : string) (i : nat) (matrix : list (list Z)) (j : nat) : list (list Z) :=
  put i j (min [cell matrix (i - 1) j + 1;
                cell matrix i (j - 1) + 1;
                cell matrix (i - 1) (j - 1) + cost s1 s2 i j]) matrix.

Definition levenshteinDistance (s1 s2 : string) : Z :=
  let n1 := String.length s1 in
  let n2 := String.length s2 in
  if (n1 =? 0)%nat then Z.of_nat n2
  else if (n2 =? 0)%nat then Z.of_nat n1
  else
    let matrix := replicate (S n1) (replicate (S n2) 0) in
    let matrix := foldl (λ m i, put i 0 (Z.of_nat i) m) matrix (seq 0 (S n1)) in
    let matrix := foldl (λ m j, put 0 j (Z.of_nat j) m) matrix (seq 0 (S n2)) in
    let matrix := foldl (λ m i, foldl (fill s1 s2 i) m (seq 1 n2)) matrix (seq 1 n1) in
    cell matrix n1 n2.

Example kitten_sitting : levenshteinDistance "kitten" "sitting" = 3.
Proof. vm_compute. reflexivity. Qed.

(** ** Edits *)

Section edits.
Context {A : Type} `{EqDecision A}.
Implicit Types p q u v : list A.

(** One edit of a text. *)
Inductive edit : list A -> list A -> Prop :=
| edit_delete u x v : edit (u ++ x :: v) (u ++ v)
| edit_insert u x v : edit (u ++ v) (u ++ x :: v)
| edit_replace u x y v : edit (u ++ x :: v) (u ++ y :: v).

(** The distance by recursion on the last characters. *)
Fixpoint distance (p q : list A) : nat :=
  match p with
  | [] => length q
  | x :: p' =>
      (fix inner q :=
        match q with
        | [] => length p
        | y :: q' =>
            (S (distance p' q) `min` S (inner q')
             `min` (distance p' q' + if decide (x = y) then 0 else 1))%nat
        end) q
  end.

Lemma distance_cons x p y q :
  distance (x :: p) (y :: q) =
  (S (distance p (y :: q)) `min` S (distance (x :: p) q)
   `min` (distance p q + if decide (x = y) then 0 else 1))%nat.
Proof. reflexivity. Qed.
Lemma distance_nil_r p : distance p [] = length p.
Proof. by destruct p. Qed.

Lemma edit_cons x p q : edit p q -> edit (x :: p) (x :: q).
Proof.
  intros [u a v|u a v|u a b v].
  - apply (edit_delete (x :: u)).
  - apply (edit_insert (x :: u)).
  - apply (edit_replace (x :: u)).
Qed.

Lemma nsteps_edit_cons n x p q : nsteps edit n p q -> nsteps edit n (x :: p) (x :: q).
Proof. apply (nsteps_congruence (cons x)). intros. by apply edit_cons. Qed.

Lemma edit_rev p q : edit p q -> edit (rev p) (rev q).
Proof.
  intros [u a v|u a v|u a b v]; rewrite !rev_app_distr; cbn [rev]; rewrite <-!app_assoc; constructor.
Qed.

Lemma nsteps_edit_rev n p q : nsteps edit n p q -> nsteps edit n (rev p) (rev q).
Proof. apply (nsteps_congruence (@rev A)). intros. by apply edit_rev. Qed.

Lemma delete_all p : nsteps edit (length p) p [].
Proof.
  induction p as [|x p IH]; [constructor|].
  econstructor; [apply (edit_delete [] x p)|exact IH].
Qed.

Lemma insert_all q : nsteps edit (length q) [] q.
Proof.
  induction q as [|y q IH]; [constructor|].
  eapply nsteps_r; [exact IH|apply (edit_insert [] y q)].
Qed.

(** The distance is enough edits. *)
Lemma distance_enough p q : nsteps edit (distance p q) p q.
Proof.
  revert q. induction p as [|x p IHp]; intros q; [apply insert_all|].
  induction q as [|y q IHq]; [apply delete_all|]. rewrite distance_cons.
  destruct (Nat.min_spec (S (distance p (y :: q)) `min` S (distance (x :: p) q))
    (distance p q + if decide (x = y) then 0 else 1)) as [[_ ->]|[_ ->]].
  - destruct (Nat.min_spec (S (distance p (y :: q))) (S (distance (x :: p) q))) as [[_ ->]|[_ ->]].
    + econstructor; [apply (edit_delete [] x p)|apply IHp].
    + eapply nsteps_r; [apply IHq|apply (edit_insert [] y q)].
  - case_decide as Hxy.
    + subst y. rewrite Nat.add_0_r. apply nsteps_edit_cons, IHp.
    + rewrite Nat.add_1_r. econstructor; [apply (edit_replace [] x y p)|]. apply nsteps_edit_cons, IHp.
Qed.

(** One edit changes the distance by one at most. *)
Definition near p p' : Prop := forall q, (distance p q <= S (distance p' q))%nat.

Lemma near_cons a p p' : near p p' -> near (a :: p) (a :: p').
Proof.
  intros H q. pose proof (H []) as H0. rewrite !distance_nil_r in H0.
  induction q as [|y q IH]; [simpl in *; lia|]. rewrite !distance_cons.
  pose proof (H (y :: q)). pose proof (H q). lia.
Qed.

Lemma near_app u p p' : near p p' -> near (u ++ p) (u ++ p').
Proof. intros H. induction u as [|a u IH]; [done|]. cbn. by apply near_cons. Qed.

Lemma near_delete x p : near p (x :: p) /\ near (x :: p) p.
Proof.
  split; intros q.
  - induction q as [|y q IH]; [rewrite !distance_nil_r; simpl; lia|].
    rewrite distance_cons. assert (distance p (y :: q) <= S (distance p q))%nat.
    { clear. destruct p; [simpl; lia|]. rewrite distance_cons. lia. }
    lia.
  - destruct q as [|y q]; [rewrite !distance_nil_r; simpl; lia|]. rewrite distance_cons. lia.
Qed.

Lemma near_replace x y p : near (x :: p) (y :: p).
Proof.
  intros q. induction q as [|z q IH]; [simpl; lia|].
  rewrite !distance_cons. case_decide; case_decide; lia.
Qed.

Lemma edit_near p p' : edit p p' -> near p p'.
Proof. intros [u x v|u x v|u x y v]; apply near_app; [apply near_delete..|apply near_replace]. Qed.

Lemma distance_least n p q : nsteps edit n p q -> (distance p q <= n)%nat.
Proof.
  induction 1 as [p|n p p' q He _ IH].
  - induction p as [|x p IH]; [done|]. rewrite distance_cons, decide_True by done. lia.
  - pose proof (edit_near _ _ He q). lia.
Qed.
End edits.

(** ** The matrix *)

Lemma min_of_three a b c : min [a; b; c] = Z.min (Z.min a b) c.
Proof.
  cbn. destruct (Z.ltb_spec b a); [rewrite (Z.min_r a b) by lia|rewrite (Z.min_l a b) by lia];
    destruct (Z.ltb_spec c (if b <? a then b else a)); destruct (Z.ltb_spec b a);
    destruct (Z.ltb_spec c a); destruct (Z.ltb_spec c b); lia.
Qed.

Definition shaped (n1 n2 : nat) (m : list (list Z)) : Prop :=
  length m = S n1 /\ Forall (λ row, length row = S n2) m.

Lemma shaped_put n1 n2 m i j v : shaped n1 n2 m -> shaped n1 n2 (put i j v m).
Proof.
  intros [H1 H2]. unfold put. split; [by rewrite length_alter|].
  rewrite Forall_lookup in *. intros k row. rewrite list_lookup_alter.
  case_decide; [|by apply H2]. subst k. intros (r & Hr & ->)%fmap_Some. rewrite length_insert. eauto.
Qed.

Lemma cell_put n1 n2 m i j v k l :
  shaped n1 n2 m -> (i <= n1)%nat -> (j <= n2)%nat ->
  cell (put i j v m) k l = if decide (k = i /\ l = j) then v else cell m k l.
Proof.
  intros [H1 H2] Hi Hj. unfold cell, put. rewrite list_lookup_alter.
  destruct (decide (i = k)) as [->|Hne]; [|by rewrite (decide_False (P := k = i /\ l = j)) by naive_solver].
  destruct (m !! k) as [row|] eqn:E; [|apply lookup_ge_None_1 in E; lia]. cbn.
  rewrite Forall_lookup in H2. apply H2 in E. rewrite list_lookup_insert.
  destruct (decide (j = l)) as [->|Hne].
  - rewrite decide_True by lia. by rewrite decide_True by done.
  - rewrite !decide_False by naive_solver. done.
Qed.

Section matrix.
Variables s1 s2 : string.
Local Notation n1 := (String.length s1).
Local Notation n2 := (String.length s2).
Local Notation a := (String.list_ascii_of_string s1).
Local Notation b := (String.list_ascii_of_string s2).

(** What the cell [i, j] is for. *)
Definition goal_cell (i j : nat) : Z := Z.of_nat (distance (rev (take i a)) (rev (take j b))).

Lemma length_list_ascii s : length (String.list_ascii_of_string s) = String.length s.
Proof. induction s; simpl; auto. Qed.

Lemma get_list_ascii i s : String.get i s = String.list_ascii_of_string s !! i.
Proof. revert i. induction s as [|c s IH]; intros [|i]; simpl; auto. Qed.

Lemma goal_first_row j : (j <= n2)%nat -> goal_cell 0 j = Z.of_nat j.
Proof. intros Hj. unfold goal_cell. rewrite take_0. cbn [rev distance]. rewrite length_rev, length_take, length_list_ascii. lia. Qed.

Lemma goal_first_column i : (i <= n1)%nat -> goal_cell i 0 = Z.of_nat i.
Proof.
  intros Hi. unfold goal_cell. rewrite take_0. cbn [rev]. rewrite distance_nil_r, length_rev, length_take, length_list_ascii.
  lia.
Qed.

Lemma goal_step i j :
  (i < n1)%nat -> (j < n2)%nat ->
  goal_cell (S i) (S j) =
  min [goal_cell i (S j) + 1; goal_cell (S i) j + 1; goal_cell i j + cost s1 s2 (S i) (S j)].
Proof.
  intros Hi Hj. rewrite min_of_three. unfold goal_cell, cost. rewrite !Nat.sub_succ, !Nat.sub_0_r, !get_list_ascii.
  destruct (lookup_lt_is_Some_2 a i) as [x Hx]; [by rewrite length_list_ascii|].
  destruct (lookup_lt_is_Some_2 b j) as [y Hy]; [by rewrite length_list_ascii|].
  rewrite Hx, Hy, (take_S_r _ _ _ Hx), (take_S_r _ _ _ Hy), !rev_app_distr. cbn [rev app].
  rewrite distance_cons, !Nat2Z.inj_min, !Nat2Z.inj_succ, Nat2Z.inj_add.
  destruct (decide (x = y)), (decide (Some x = Some y)); simplify_eq; lia.
Qed.

(** The cells of the rows before [i], and of row [i] before [j], are right, and so are the
    first row and column. *)
Definition filled (i j : nat) (m : list (list Z)) : Prop :=
  shaped n1 n2 m /\
  forall k l, (k <= n1)%nat -> (l <= n2)%nat ->
    (k = 0 \/ l = 0 \/ k < i \/ (k = i /\ l < j))%nat -> cell m k l = goal_cell k l.

Lemma fill_one i j m :
  (0 < i <= n1)%nat -> (0 < j <= n2)%nat -> filled i j m -> filled i (S j) (fill s1 s2 i m j).
Proof.
  intros Hi Hj [Hs Hc]. split; [by apply shaped_put|]. intros k l Hk Hl Hin. unfold fill.
  rewrite (cell_put n1 n2) by (done || lia). case_decide as Hd; [|apply Hc; lia].
  destruct Hd as [-> ->]. destruct i as [|i]; [lia|]. destruct j as [|j]; [lia|].
  rewrite !Nat.sub_succ, !Nat.sub_0_r, goal_step, !Hc by lia. done.
Qed.

Lemma fill_row i n m :
  (0 < i <= n1)%nat -> (n <= n2)%nat -> filled i 1 m ->
  filled i (S n) (foldl (fill s1 s2 i) m (seq 1 n)).
Proof.
  intros Hi. induction n as [|n IH]; intros Hn Hm; [done|].
  rewrite seq_S, foldl_app. cbn [foldl]. apply fill_one; [lia..|]. apply IH; [lia|done].
Qed.

Lemma next_row i m : filled i (S n2) m -> filled (S i) 1 m.
Proof. intros [Hs Hc]. split; [done|]. intros k l Hk Hl Hin. apply Hc; lia. Qed.

Lemma fill_rows n m :
  (n <= n1)%nat -> filled 1 1 m ->
  filled (S n) 1 (foldl (λ m i, foldl (fill s1 s2 i) m (seq 1 n2)) m (seq 1 n)).
Proof.
  induction n as [|n IH]; intros Hn Hm; [done|].
  rewrite seq_S, foldl_app. cbn [foldl]. apply next_row, fill_row; [lia..|]. apply IH; [lia|done].
Qed.

(** The two loops over the edges. *)
Lemma edge (at_ : nat -> nat * nat) n m :
  (forall i, (i < n)%nat -> (at_ i).1 <= n1 /\ (at_ i).2 <= n2)%nat ->
  (forall i i', at_ i = at_ i' -> i = i') ->
  shaped n1 n2 m ->
  let m' := foldl (λ m i, put (at_ i).1 (at_ i).2 (Z.of_nat i) m) m (seq 0 n) in
  shaped n1 n2 m' /\
  (forall i, (i < n)%nat -> cell m' (at_ i).1 (at_ i).2 = Z.of_nat i) /\
  (forall k l, (forall i, (i < n)%nat -> at_ i ≠ (k, l)) -> cell m' k l = cell m k l).
Proof.
  intros Hr Hinj Hs. induction n as [|n IH]; [split; [done|split; [lia|done]]|].
  rewrite seq_S, foldl_app. cbn [foldl]. destruct IH as (Hs' & Hc & Ho); [auto with lia|].
  destruct (Hr n) as [H1 H2]; [lia|]. rewrite Nat.add_0_l. split; [by apply shaped_put|]. split.
  - intros i Hi. rewrite (cell_put n1 n2) by done. case_decide as Hd.
    + f_equal. apply Hinj. destruct (at_ n), (at_ i); simpl in *; naive_solver.
    + apply Hc. destruct (decide (i = n)) as [->|]; [tauto|lia].
  - intros k l Hno. rewrite (cell_put n1 n2) by done. case_decide as Hd.
    + destruct (Hno n); [lia|]. destruct (at_ n); simpl in *; naive_solver.
    + apply Ho. intros i Hi. apply Hno. lia.
Qed.

Lemma edges_filled :
  filled 1 1
    (foldl (λ m j, put 0 j (Z.of_nat j) m)
       (foldl (λ m i, put i 0 (Z.of_nat i) m) (replicate (S n1) (replicate (S n2) 0)) (seq 0 (S n1)))
       (seq 0 (S n2))).
Proof.
  destruct (edge (λ i, (i, 0%nat)) (S n1) (replicate (S n1) (replicate (S n2) 0))) as (Hs & Hc & Ho).
  { simpl. lia. } { naive_solver. }
  { split; [apply length_replicate|]. apply Forall_replicate. by rewrite length_replicate. }
  cbn [fst snd] in Hs, Hc, Ho.
  destruct (edge (λ j, (0%nat, j)) (S n2)
    (foldl (λ m i, put i 0 (Z.of_nat i) m) (replicate (S n1) (replicate (S n2) 0)) (seq 0 (S n1))))
    as (Hs' & Hc' & Ho'); [simpl; lia|naive_solver|done|].
  cbn [fst snd] in Hs', Hc', Ho'. split; [done|]. intros k l Hk Hl Hin.
  destruct k as [|k].
  - rewrite Hc', goal_first_row by lia. done.
  - assert (l = 0)%nat as -> by lia. rewrite Ho' by (intros i _ [=]). rewrite Hc, goal_first_column by lia. done.
Qed.

Lemma levenshtein_distance : levenshteinDistance s1 s2 = Z.of_nat (distance (rev a) (rev b)).
Proof.
  unfold levenshteinDistance. destruct (Nat.eqb_spec n1 0) as [H1|H1].
  { destruct s1; [|done]. cbn. by rewrite length_rev, length_list_ascii. }
  destruct (Nat.eqb_spec n2 0) as [H2|H2].
  { destruct s2; [|done]. cbn [String.list_ascii_of_string rev]. by rewrite distance_nil_r, length_rev, length_list_ascii. }
  destruct (fill_rows n1 _ (Nat.le_refl _) edges_filled) as [_ Hc].
  rewrite Hc by lia. unfold goal_cell. rewrite !take_ge by (rewrite length_list_ascii; lia). done.
Qed.
End matrix.

(** C35 [levenshteinDistance] is the least number of edits that turn one name into the other:
    that many are enough, and no fewer are. *)
Theorem levenshtein_least_edits s1 s2 :
  nsteps edit (Z.to_nat (levenshteinDistance s1 s2)) (String.list_ascii_of_string s1) (String.list_ascii_of_string s2) /\
  forall n, nsteps edit n (String.list_ascii_of_string s1) (String.list_ascii_of_string s2) ->
    levenshteinDistance s1 s2 <= Z.of_nat n.
Proof.
  rewrite levenshtein_distance, Nat2Z.id. split.
  - pose proof (nsteps_edit_rev _ _ _ (distance_enough (rev (String.list_ascii_of_string s1)) (rev (String.list_ascii_of_string s2)))) as H.
    by rewrite !rev_involutive in H.
  - intros n Hn. apply inj_le, distance_least, nsteps_edit_rev, Hn.
Qed.

Local Open Scope string_scope.
Local Open Scope Z_scope.

(** ** Package [strings] *)

(** [strings.Index]. *)
Fixpoint Index (s sub : string) : Z :=
  if HasPrefix s sub then 0
  else match s with
       | EmptyString => -1
       | String _ r => let i := Index r sub in if i <? 0 then -1 else i + 1
       end.

(** The matches of a non-empty text from the left, without overlap; [skip] bytes of the
    last match are still to be passed over. *)
Fixpoint matches (skip : nat) (i : Z) (s sub : string) : list Z :=
  match s with
  | EmptyString => []
  | String _ r =>
      match skip with
      | S skip => matches skip (i + 1) r sub
      | O => if HasPrefix s sub then i :: matches (String.length sub - 1) (i + 1) r sub
             else matches 0 (i + 1) r sub
      end
  end.
(** [strings.Count] for a non-empty text. *)
Definition StringsCount (s sub : string) : Z := Z.of_nat (length (matches 0 0 s sub)).

(** ** Criteria and results *)

Record SearchOptions := MkOptions {
  Keyword : string;
  opt_Category : string;
  opt_Tags : list string;
  opt_InputType : option DataType;
  opt_OutputType : option DataType;
  MaxResults : Z;
  MinRelevanceScore : float64;
  EnableFuzzyMatch : bool;
  FuzzyMaxDistance : Z;
}.

Record MatchDetails := MkMatch {
  NameMatch : bool;
  DescriptionMatch : bool;
  CategoryMatch : bool;
  TagsMatch : bool;
  IOMatch : bool;
  FuzzyMatch : bool;
  FuzzyDistance : Z;
  KeywordPositions : list Z;
  Explanation : string;
}.

Definition no_match : MatchDetails := MkMatch false false false false false false 0 [] "".
Definition match_category (m : MatchDetails) : MatchDetails :=
  MkMatch (NameMatch m) (DescriptionMatch m) true (TagsMatch m) (IOMatch m) (FuzzyMatch m) (FuzzyDistance m) (KeywordPositions m) (Explanation m).
Definition match_tags (m : MatchDetails) : MatchDetails :=
  MkMatch (NameMatch m) (DescriptionMatch m) (CategoryMatch m) true (IOMatch m) (FuzzyMatch m) (FuzzyDistance m) (KeywordPositions m) (Explanation m).
Definition match_io (m : MatchDetails) : MatchDetails :=
  MkMatch (NameMatch m) (DescriptionMatch m) (CategoryMatch m) (TagsMatch m) true (FuzzyMatch m) (FuzzyDistance m) (KeywordPositions m) (Explanation m).
Definition match_keyword (k m : MatchDetails) : MatchDetails :=
  MkMatch (NameMatch k) (DescriptionMatch k) (CategoryMatch m) (TagsMatch m) (IOMatch m) (FuzzyMatch m) (FuzzyDistance m) (KeywordPositions k) (Explanation m).
Definition match_fuzzy (d : Z) (m : MatchDetails) : MatchDetails :=
  MkMatch (NameMatch m) (DescriptionMatch m) (CategoryMatch m) (TagsMatch m) (IOMatch m) true d (KeywordPositions m) (Explanation m).
Definition set_explanation (e : string) (m : MatchDetails) : MatchDetails :=
  MkMatch (NameMatch m) (DescriptionMatch m) (CategoryMatch m) (TagsMatch m) (IOMatch m) (FuzzyMatch m) (FuzzyDistance m) (KeywordPositions m) e.

(** ** Explanations *)

Fixpoint itoa_digits (fuel : nat) (i : Z) (digits : string) : string :=
  match fuel with
  | O => digits
  | S fuel => if 0 <? i then itoa_digits fuel (i / 10) (String (digit_char (i mod 10)) digits) else digits
  end.
Definition search_itoa (i : Z) : string :=
  if i =? 0 then "0"
  else if i <? 0 then "-" +:+ itoa_digits 20 (i64 (- i)) "" else itoa_digits 20 i "".

Definition toString (f : float64) : string :=
  let i := f64_to_int f in
  let d := f64_to_int (f64_mul (f64_sub f (f64_of_Z i)) (f64_of_Z 10)) in
  search_itoa i +:+ "." +:+ search_itoa d.

(** The format is always ["%.1f"], which [sprintf] replaces as a whole. *)
Definition formatScore (score : float64) : string := TrimSuffix (TrimSuffix (toString score) "0") ".".

Definition generateMatchExplanation (m : MatchDetails) (score : float64) : string :=
  let part (b : bool) (s : string) : list string := if b then [s] else [] in
  let parts := (part (CategoryMatch m) "category match" ++ part (TagsMatch m) "tags match" ++
    part (IOMatch m) "I/O types match" ++ part (NameMatch m) "name match" ++
    part (DescriptionMatch m) "description match" ++ part (FuzzyMatch m) "fuzzy name match")%list in
  match parts with
  | [] => "no match"
  | _ => Join parts ", " +:+ " (score: " +:+ formatScore score +:+ ")"
  end.

(** ** Scores *)

Definition matchDataType (dt1 dt2 : DataType) : bool :=
  if negb (String.eqb (Format dt2) "") && negb (String.eqb (Format dt1) (Format dt2)) then false
  else if negb (String.eqb (Schema dt2) "") && negb (String.eqb (Schema dt1) (Schema dt2)) then false
  else if negb (String.eqb (ContentType dt2) "") && negb (String.eqb (ContentType dt1) (ContentType dt2)) then false
  else true.

(** The loop over the positions of the keyword; it ends because the keyword is not empty. *)
Fixpoint positions (fuel : nat) (desc keyword : string) (pos : Z) (found : list Z) : list Z :=
  match fuel with
  | O => found
  | S fuel =>
      let idx := Index (drop_bytes (Z.to_nat pos) desc) keyword in
      if idx =? -1 then found
      else positions fuel desc keyword (pos + idx + len keyword) (found ++ [pos + idx])
  end.

Section search.
Context {ToolHandler : Type} `{HU : !Unicode}.
Local Notation tool := (ToolDefinition ToolHandler).

Definition scoreKeywordMatch (t : tool) (keyword : string) : float64 * MatchDetails :=
  let keyword := to_lower keyword in
  let nameLower := to_lower (Name t) in
  let score := f64_of_Z 0 in
  let '(score, name, found) :=
    if String.eqb nameLower keyword then (f64_add score (f64_of_Z 20), true, [0])
    else if Contains nameLower keyword then
      (f64_add score (f64_of_Z 15), true, [Index nameLower keyword])
    else (score, false, []) in
  let descLower := to_lower (Description t) in
  if Contains descLower keyword then
    let occurrences := StringsCount descLower keyword in
    (f64_add score (f64_add (f64_of_Z 10) (f64_of_Z (min [occurrences - 1; 5] * 2))),
     MkMatch name true false false false false 0
       (positions (S (String.length descLower)) descLower keyword 0 found) "")
  else (score, MkMatch name false false false false false 0 found "").

Definition scoreFuzzyMatch (toolName keyword : string) (maxDistance : Z) : float64 * Z :=
  let distance := levenshteinDistance (to_lower toolName) (to_lower keyword) in
  if maxDistance <? distance then (f64_of_Z 0, distance)
  else (f64_mul (f64_of_Z (maxDistance - distance + 1)) (f64_of_Z 5), distance).

(** A criterion that is a filter: [Err] is the early return without a score. *)
Definition required (given holds : bool) (points : Z) (note : MatchDetails -> MatchDetails)
    (s : float64 * MatchDetails * bool) : result MatchDetails (float64 * MatchDetails * bool) :=
  let '(score, m, any) := s in
  if given then
    if holds then Ok (f64_add score (f64_of_Z points), note m, true) else Err m
  else Ok (score, m, any).

Definition io_matches (t : tool) (side : IOCompatibility -> DataType) (wanted : option DataType) : bool :=
  match tool_IOCompatibility t, wanted with
  | Some io, Some dt => matchDataType (side io) dt
  | _, _ => false
  end.

Definition scoreToolMatch (t : tool) (opts : SearchOptions) : float64 * MatchDetails :=
  let r : result MatchDetails (float64 * MatchDetails * bool) :=
    s ← required (negb (String.eqb (opt_Category opts) "")) (String.eqb (Category t) (opt_Category opts)) 30
          match_category (f64_of_Z 0, no_match, false);
    s ← required (0 <? Z.of_nat (length (opt_Tags opts))) (hasAllTags (Tags t) (opt_Tags opts)) 20 match_tags s;
    s ← required (bool_decide (is_Some (opt_InputType opts))) (io_matches t InputType (opt_InputType opts)) 15 match_io s;
    s ← required (bool_decide (is_Some (opt_OutputType opts))) (io_matches t OutputType (opt_OutputType opts)) 15 match_io s;
    let '(score, m, any) := s : float64 * MatchDetails * bool in
    if negb (String.eqb (Keyword opts) "") then
      let '(keywordScore, k) := scoreKeywordMatch t (Keyword opts) in
      let score := f64_add score keywordScore in
      let m := match_keyword k m in
      if f64_eq keywordScore (f64_of_Z 0) then
        let '(fuzzyScore, fuzzyDist) :=
          if EnableFuzzyMatch opts then scoreFuzzyMatch (Name t) (Keyword opts) (FuzzyMaxDistance opts)
          else (f64_of_Z 0, 0) in
        if f64_lt (f64_of_Z 0) fuzzyScore then Ok (f64_add score fuzzyScore, match_fuzzy fuzzyDist m, true)
        else Err m
      else Ok (score, m, true)
    else Ok (score, m, any) in
  match r with
  | Err m => (f64_of_Z 0, m)
  | Ok (score, m, any) =>
      if any then (score, set_explanation (generateMatchExplanation m score) m) else (f64_of_Z 0, m)
  end.

(** ** Search *)

Record SearchResult := MkResult {
  Tool : tool;
  RelevanceScore : float64;
  MatchDetails_ : MatchDetails;
}.

Definition with_defaults (opts : SearchOptions) : SearchOptions :=
  MkOptions (Keyword opts) (opt_Category opts) (opt_Tags opts) (opt_InputType opts) (opt_OutputType opts)
    (MaxResults opts) (MinRelevanceScore opts) (EnableFuzzyMatch opts)
    (if FuzzyMaxDistance opts =? 0 then 3 else FuzzyMaxDistance opts).

(** One round of the loop over the tools. *)
Definition consider (opts : SearchOptions) (t : tool) : option SearchResult :=
  let '(score, m) := scoreToolMatch t opts in
  if f64_lt (f64_of_Z 0) (MinRelevanceScore opts) && f64_lt score (MinRelevanceScore opts) then None
  else if f64_eq score (f64_of_Z 0) then None
  else Some (MkResult t score m).

Definition better (a b : SearchResult) : bool := f64_lt (RelevanceScore b) (RelevanceScore a).

Definition Search `{!SliceSort} (order : gmap string tool -> list (string * tool))
    (r : Registry ToolHandler) (opts : SearchOptions) : list SearchResult :=
  let opts := with_defaults opts in
  let results := omap (consider opts) (order (tools r)).*2 in
  let results := slice_sort better results in
  if (0 <? MaxResults opts) && (MaxResults opts <? Z.of_nat (length results))
  then take (Z.to_nat (MaxResults opts)) results else results.

Definition zero_options : SearchOptions := MkOptions "" "" [] None None 0 (f64_of_Z 0) false 0.

Definition SearchByKeyword `{!SliceSort} order (r : Registry ToolHandler) (keyword : string) (maxResults : Z) :=
  Search order r (MkOptions keyword "" [] None None maxResults (f64_of_Z 0) true 0).
Definition SearchByCategory `{!SliceSort} order (r : Registry ToolHandler) (category : string) (maxResults : Z) :=
  Search order r (MkOptions "" category [] None None maxResults (f64_of_Z 0) false 0).
Definition SearchByTagsSearch `{!SliceSort} order (r : Registry ToolHandler) (tags : list string) (maxResults : Z) :=
  Search order r (MkOptions "" "" tags None None maxResults (f64_of_Z 0) false 0).
Definition SearchByIOType `{!SliceSort} order (r : Registry ToolHandler) (inputType outputType : option DataType)
    (maxResults : Z) := Search order r (MkOptions "" "" [] inputType outputType maxResults (f64_of_Z 0) false 0).
Definition GetToolSuggestions `{!SliceSort} order (r : Registry ToolHandler) (partial : string) (maxResults : Z) :=
  Search order r (MkOptions partial "" [] None None maxResults (f64_of_Z 0) true 3).
End search.

(** ** The loop over the positions *)

Lemma index_matches i s sub :
  sub ≠ "" ->
  (Index s sub = -1 /\ matches 0 i s sub = []) \/
  (exists k, Index s sub = Z.of_nat k /\ (k + String.length sub <= String.length s)%nat /\
     matches 0 i s sub = i + Z.of_nat k :: matches 0 (i + Z.of_nat k + len sub) (drop_bytes (k + String.length sub) s) sub).
Proof.
  intros Hne. revert i. induction s as [|a s IH]; intros i.
  - left. destruct sub; [done|]. done.
  - cbn [Index matches]. destruct (HasPrefix (String a s) sub) eqn:Hp.
    + right. exists 0%nat. rewrite Nat.add_0_l, Z.add_0_r. split_and!; [done| |].
      * revert Hp. clear. revert s a. induction sub as [|b sub IH]; intros s a; [simpl; lia|].
        unfold HasPrefix. cbn [String.prefix]. destruct (Ascii.ascii_dec b a); [|done].
        destruct s as [|c s]; [destruct sub; [simpl; lia|done]|]. intros H. apply IH in H. simpl in *. lia.
      * f_equal. destruct sub as [|b sub]; [done|]. unfold len. cbn [String.length drop_bytes].
        rewrite Nat.sub_succ, Nat.sub_0_r. clear. generalize (String b sub). intros w.
        assert (forall n j s, matches n j s w = matches 0 (j + Z.of_nat (n `min` String.length s)) (drop_bytes n s) w) as H.
        { induction n as [|n IH]; intros j s'; [rewrite Nat.min_0_l; f_equal; lia|].
          destruct s' as [|c s']; [done|]. cbn [matches drop_bytes String.length]. rewrite IH.
          f_equal. lia. }
        rewrite H. destruct (drop_bytes (String.length sub) s) as [|c r] eqn:Ed; [done|].
        f_equal. assert (String.length sub <= String.length s)%nat.
        { revert s Ed. induction (String.length sub) as [|n IHn]; intros s Ed; [lia|].
          destruct s as [|c' s]; [done|]. cbn in *. apply IHn in Ed. lia. }
        lia.
    + destruct (IH (i + 1)) as [[H1 H2]|(k & H1 & H2 & H3)].
      * left. by rewrite H1, H2.
      * right. exists (S k). rewrite H1, H3. split_and!.
        -- destruct (Z.ltb_spec (Z.of_nat k) 0); lia.
        -- cbn. lia.
        -- rewrite Nat.add_succ_l. cbn [drop_bytes]. f_equal; [lia|]. f_equal; lia.
Qed.

Lemma drop_bytes_drop n m s : drop_bytes n (drop_bytes m s) = drop_bytes (m + n) s.
Proof.
  revert s. induction m as [|m IH]; intros s; [done|]. destruct s as [|a s]; [by destruct n|]. apply IH.
Qed.

Lemma length_drop_bytes n s : String.length (drop_bytes n s) = (String.length s - n)%nat.
Proof. revert s. induction n as [|n IH]; intros [|a s]; try done. apply IH. Qed.

Lemma positions_from fuel desc keyword pos found :
  keyword ≠ "" -> (String.length desc - pos < fuel)%nat ->
  positions fuel desc keyword (Z.of_nat pos) found =
  (found ++ matches 0 (Z.of_nat pos) (drop_bytes pos desc) keyword)%list.
Proof.
  intros Hne. revert pos found. induction fuel as [|fuel IH]; intros pos found Hf; [lia|].
  cbn [positions]. rewrite Nat2Z.id.
  destruct (index_matches (Z.of_nat pos) (drop_bytes pos desc) keyword Hne) as [[H1 H2]|(k & H1 & H2 & H3)].
  - rewrite H1, H2. cbn. by rewrite app_nil_r.
  - rewrite H1, H3. destruct (Z.eqb_spec (Z.of_nat k) (-1)); [lia|]. rewrite drop_bytes_drop.
    rewrite length_drop_bytes in H2. assert (0 < String.length keyword)%nat by (destruct keyword; [done|simpl; lia]).
    unfold len. rewrite <-!Nat2Z.inj_add, IH by lia. rewrite <-app_assoc. cbn [app].
    by rewrite Nat.add_assoc.
Qed.

(** The loop finds the matches that [strings.Count] counts, each once. *)
Lemma positions_all desc keyword found :
  keyword ≠ "" ->
  positions (S (String.length desc)) desc keyword 0 found = (found ++ matches 0 0 desc keyword)%list.
Proof. intros Hne. apply (positions_from _ desc keyword 0); [done|lia]. Qed.

(** ** What a score can be

    Scores are sums of a few constants: every one is listed, up to a distance of a hundred
    for the fuzzy match, so facts about them are computed. *)

Definition sums (points : Z) (l : list float64) : list float64 :=
  (l ++ ((λ x, f64_add x (f64_of_Z points)) <$> l))%list.
Definition filter_scores : list float64 := sums 15 (sums 15 (sums 20 (sums 30 [f64_of_Z 0]))).
Definition name_scores : list float64 :=
  [f64_of_Z 0; f64_add (f64_of_Z 0) (f64_of_Z 20); f64_add (f64_of_Z 0) (f64_of_Z 15)].
Definition keyword_scores : list float64 :=
  (name_scores ++
   (n ← name_scores; k ← [-1; 0; 1; 2; 3; 4; 5]; [f64_add n (f64_add (f64_of_Z 10) (f64_of_Z (k * 2)))]))%list.
Definition fuzzy_scores : list float64 := (λ k, f64_mul (f64_of_Z (Z.of_nat k)) (f64_of_Z 5)) <$> seq 1 101.
Definition plain_scores : list float64 :=
  (f64_of_Z 0 :: filter_scores ++ (b ← filter_scores; k ← keyword_scores; [f64_add b k]))%list.
Definition fuzzy_sums : list float64 :=
  b ← filter_scores; k ← filter (λ k, f64_eq k (f64_of_Z 0) = true) keyword_scores; f ← fuzzy_scores;
  [f64_add (f64_add b k) f].

(** A score is a number, and not negative. *)
Definition proper (x : float64) : bool := f64_eq x x && f64_le (f64_of_Z 0) x.

Lemma plain_scores_proper : forallb proper plain_scores = true.
Proof. vm_compute. reflexivity. Qed.
Lemma fuzzy_sums_proper : forallb proper fuzzy_sums = true.
Proof. vm_compute. reflexivity. Qed.
Lemma plain_scores_bounded : forallb (λ x, f64_le x (f64_of_Z 120)) plain_scores = true.
Proof. vm_compute. reflexivity. Qed.

Section scores.
Context {ToolHandler : Type} `{HU : !Unicode}.
Implicit Types (t : ToolDefinition ToolHandler) (opts : SearchOptions).

Lemma required_score given holds points note s m any l r :
  s ∈ l -> required given holds points note (s, m, any) = Ok r -> fst (fst r) ∈ sums points l.
Proof.
  unfold required, sums. intros Hs. destruct given; [destruct holds; [|done]|]; intros [= <-]; cbn [fst].
  - apply elem_of_app. right. apply list_elem_of_fmap. eauto.
  - apply elem_of_app. by left.
Qed.

Lemma keyword_score t keyword : fst (scoreKeywordMatch t keyword) ∈ keyword_scores.
Proof.
  unfold scoreKeywordMatch. set (kw := to_lower keyword).
  destruct (if String.eqb (to_lower (Name t)) kw then _ else _) as [[n b] ps] eqn:E.
  assert (n ∈ name_scores) as Hn.
  { revert E. destruct (String.eqb _ _); [|destruct (Contains _ _)]; intros [= <- _ _]; unfold name_scores; rewrite !elem_of_cons; auto. }
  unfold keyword_scores. apply elem_of_app.
  destruct (Contains (to_lower (Description t)) kw); cbn [fst]; [right|by left].
  apply list_elem_of_bind. exists n. split; [|done]. apply list_elem_of_bind.
  set (o := StringsCount _ _). exists (min [o - 1; 5]). split; [by apply list_elem_of_singleton|].
  cbn. assert (0 <= o) by (unfold o, StringsCount; lia).
  rewrite !elem_of_cons. destruct (Z.ltb_spec 5 (o - 1)); [tauto|].
  assert (o = 0 \/ o = 1 \/ o = 2 \/ o = 3 \/ o = 4 \/ o = 5 \/ o = 6) as Ho by lia.
  lia.
Qed.

Lemma levenshtein_nonneg s1 s2 : 0 <= levenshteinDistance s1 s2.
Proof. rewrite levenshtein_distance. lia. Qed.

Lemma fuzzy_score name keyword d :
  d <= 100 -> f64_lt (f64_of_Z 0) (fst (scoreFuzzyMatch name keyword d)) = true ->
  fst (scoreFuzzyMatch name keyword d) ∈ fuzzy_scores.
Proof.
  unfold scoreFuzzyMatch. intros Hd. set (k := levenshteinDistance _ _).
  pose proof (levenshtein_nonneg (to_lower name) (to_lower keyword) : 0 <= k).
  destruct (Z.ltb_spec d k); cbn [fst]; [by rewrite f64_lt_irrefl|]. intros _.
  apply list_elem_of_fmap. exists (Z.to_nat (d - k + 1)). split; [by rewrite Z2Nat.id by lia|].
  apply elem_of_seq. lia.
Qed.

(** The criteria that filter, in one step. *)
Definition filters t opts : result MatchDetails (float64 * MatchDetails * bool) :=
  s ← required (negb (String.eqb (opt_Category opts) "")) (String.eqb (Category t) (opt_Category opts)) 30
        match_category (f64_of_Z 0, no_match, false);
  s ← required (0 <? Z.of_nat (length (opt_Tags opts))) (hasAllTags (Tags t) (opt_Tags opts)) 20 match_tags s;
  s ← required (bool_decide (is_Some (opt_InputType opts))) (io_matches t InputType (opt_InputType opts)) 15 match_io s;
  required (bool_decide (is_Some (opt_OutputType opts))) (io_matches t OutputType (opt_OutputType opts)) 15 match_io s.

Lemma filters_score t opts r : filters t opts = Ok r -> fst (fst r) ∈ filter_scores.
Proof.
  unfold filters, filter_scores. intros H. apply bind_ok in H as (s1 & H1 & H).
  apply bind_ok in H as (s2 & H2 & H). apply bind_ok in H as (s3 & H3 & H4).
  assert (fst (fst s1) ∈ sums 30 [f64_of_Z 0]) as G by (eapply required_score; [|exact H1]; by apply list_elem_of_singleton).
  destruct s1 as [[x1 m1] a1]. eapply required_score in H2; [|exact G]. clear G H1.
  destruct s2 as [[x2 m2] a2]. eapply required_score in H3; [|exact H2]. clear H2.
  destruct s3 as [[x3 m3] a3]. eapply required_score in H4; [|exact H3]. exact H4.
Qed.

Lemma scoreToolMatch_filters t opts :
  scoreToolMatch t opts =
  match filters t opts with
  | Err m => (f64_of_Z 0, m)
  | Ok (score, m, any) =>
      match
        (if negb (String.eqb (Keyword opts) "") then
           let '(keywordScore, k) := scoreKeywordMatch t (Keyword opts) in
           if f64_eq keywordScore (f64_of_Z 0) then
             let '(fuzzyScore, fuzzyDist) :=
               if EnableFuzzyMatch opts then scoreFuzzyMatch (Name t) (Keyword opts) (FuzzyMaxDistance opts)
               else (f64_of_Z 0, 0) in
             if f64_lt (f64_of_Z 0) fuzzyScore
             then Ok (f64_add (f64_add score keywordScore) fuzzyScore, match_fuzzy fuzzyDist (match_keyword k m), true)
             else Err (match_keyword k m)
           else Ok (f64_add score keywordScore, match_keyword k m, true)
         else Ok (score, m, any)) : result MatchDetails (float64 * MatchDetails * bool)
      with
      | Err m => (f64_of_Z 0, m)
      | Ok (score, m, any) =>
          if any then (score, set_explanation (generateMatchExplanation m score) m) else (f64_of_Z 0, m)
      end
  end.
Proof.
  unfold scoreToolMatch, filters, mbind, result_bind.
  destruct (required _ _ 30 _ _) as [s1|]; cbn beta iota; [|done].
  destruct (required _ _ 20 _ _) as [s2|]; cbn beta iota; [|done].
  destruct (required _ _ 15 _ s2) as [s3|]; cbn beta iota; [|done].
  destruct (required _ _ 15 _ s3) as [[[s4 m4] a4]|]; cbn beta iota; [|done].
  reflexivity.
Qed.

Lemma score_listed t opts :
  FuzzyMaxDistance opts <= 100 ->
  fst (scoreToolMatch t opts) ∈ plain_scores \/
  (EnableFuzzyMatch opts = true /\ fst (scoreToolMatch t opts) ∈ fuzzy_sums).
Proof.
  intros Hd. rewrite scoreToolMatch_filters.
  assert (f64_of_Z 0 ∈ plain_scores) as H0 by left.
  assert (forall x, x ∈ filter_scores -> x ∈ plain_scores) as Hf.
  { intros x Hx. unfold plain_scores. right. apply elem_of_app. by left. }
  destruct (filters t opts) as [[[score m] any]|m] eqn:E; [|by left].
  apply filters_score in E. cbn [fst] in E.
  destruct (negb (String.eqb (Keyword opts) "")); [|destruct any; left; cbn [fst]; auto].
  pose proof (keyword_score t (Keyword opts)) as Hk.
  destruct (scoreKeywordMatch t (Keyword opts)) as [ks k]. cbn [fst] in Hk.
  destruct (f64_eq ks (f64_of_Z 0)) eqn:E0; [|left; cbn [fst]; right; apply elem_of_app; right;
    apply list_elem_of_bind; exists score; split; [|done]; apply list_elem_of_bind; exists ks;
    split; [by apply list_elem_of_singleton|done]].
  destruct (EnableFuzzyMatch opts); [|by left].
  pose proof (fuzzy_score (Name t) (Keyword opts) _ Hd) as Hz.
  destruct (scoreFuzzyMatch _ _ _) as [fs d]. cbn [fst] in Hz.
  destruct (f64_lt (f64_of_Z 0) fs) eqn:El; [|by left]. right. split; [done|]. cbn [fst].
  apply list_elem_of_bind. exists score. split; [|done]. apply list_elem_of_bind. exists ks.
  split; [|by apply list_elem_of_filter]. apply list_elem_of_bind. exists fs.
  split; [by apply list_elem_of_singleton|auto].
Qed.

Lemma score_proper t opts : FuzzyMaxDistance opts <= 100 -> proper (fst (scoreToolMatch t opts)) = true.
Proof.
  intros Hd. destruct (score_listed t opts Hd) as [H|[_ H]]; apply list_elem_of_In in H.
  - exact (proj1 (forallb_forall _ _) plain_scores_proper _ H).
  - exact (proj1 (forallb_forall _ _) fuzzy_sums_proper _ H).
Qed.

(** Without fuzzy matching a score is at most 120; the documentation says 100. *)
Lemma score_at_most_120 t opts :
  EnableFuzzyMatch opts = false -> f64_le (fst (scoreToolMatch t opts)) (f64_of_Z 120) = true.
Proof.
  intros Hf. set (opts' := MkOptions (Keyword opts) (opt_Category opts) (opt_Tags opts) (opt_InputType opts)
    (opt_OutputType opts) (MaxResults opts) (MinRelevanceScore opts) false 0).
  assert (scoreToolMatch t opts = scoreToolMatch t opts') as ->.
  { rewrite !scoreToolMatch_filters. cbn [EnableFuzzyMatch Keyword opts']. rewrite Hf. reflexivity. }
  destruct (score_listed t opts') as [H|[H _]]; [done| |done]. apply list_elem_of_In in H.
  exact (proj1 (forallb_forall _ _) plain_scores_bounded _ H).
Qed.

(** A tool with a score fits every filter. *)
Definition fits t opts : Prop :=
  (opt_Category opts = "" \/ Category t = opt_Category opts) /\
  (forall x, x ∈ opt_Tags opts -> x ∈ Tags t) /\
  (forall dt, opt_InputType opts = Some dt ->
     exists io, tool_IOCompatibility t = Some io /\ matchDataType (InputType io) dt = true) /\
  (forall dt, opt_OutputType opts = Some dt ->
     exists io, tool_IOCompatibility t = Some io /\ matchDataType (OutputType io) dt = true).

Lemma required_holds given holds points note s r :
  required given holds points note s = Ok r -> given = true -> holds = true.
Proof. unfold required. destruct s as [[x m] any]. by destruct given, holds. Qed.

Lemma io_matches_fits t side wanted dt :
  (bool_decide (is_Some wanted) = true -> io_matches t side wanted = true) -> wanted = Some dt ->
  exists io, tool_IOCompatibility t = Some io /\ matchDataType (side io) dt = true.
Proof.
  unfold io_matches. intros H ->. specialize (H eq_refl). destruct (tool_IOCompatibility t) as [io|]; [|done].
  by exists io.
Qed.

Lemma scored_fits t opts : f64_eq (fst (scoreToolMatch t opts)) (f64_of_Z 0) = false -> fits t opts.
Proof.
  rewrite scoreToolMatch_filters. destruct (filters t opts) as [r|m] eqn:E; [|by intros [=]]. intros _.
  unfold filters in E. apply bind_ok in E as (s1 & H1 & E). apply bind_ok in E as (s2 & H2 & E).
  apply bind_ok in E as (s3 & H3 & H4).
  pose proof (required_holds _ _ _ _ _ _ H1) as G1.
  pose proof (required_holds _ _ _ _ _ _ H2) as G2. pose proof (required_holds _ _ _ _ _ _ H3) as G3.
  pose proof (required_holds _ _ _ _ _ _ H4) as G4. split_and!.
  - destruct (String.eqb_spec (opt_Category opts) ""); [by left|right]. by apply String.eqb_eq, G1.
  - intros x Hx. destruct (opt_Tags opts) as [|a l]; [by apply not_elem_of_nil in Hx|].
    specialize (G2 eq_refl). unfold hasAllTags in G2. rewrite forallb_forall in G2.
    apply list_elem_of_In, G2, bool_decide_eq_true in Hx. done.
  - intros dt. by apply io_matches_fits.
  - intros dt. by apply io_matches_fits.
Qed.

(** ** The result of a search *)

Lemma consider_spec opts t x :
  consider opts t = Some x <->
  Tool x = t /\ (RelevanceScore x, MatchDetails_ x) = scoreToolMatch t opts /\
  f64_eq (RelevanceScore x) (f64_of_Z 0) = false /\
  f64_lt (f64_of_Z 0) (MinRelevanceScore opts) && f64_lt (RelevanceScore x) (MinRelevanceScore opts) = false.
Proof.
  unfold consider. destruct (scoreToolMatch t opts) as [s m]. split.
  - destruct (_ && _) eqn:E1; [done|]. destruct (f64_eq s _) eqn:E2; [done|]. by intros [= <-].
  - destruct x as [t' s' m']. cbn. intros (-> & [= -> ->] & -> & ->). done.
Qed.

Lemma better_orders opts l :
  FuzzyMaxDistance opts <= 100 -> orders better (omap (consider opts) (l : list (ToolDefinition ToolHandler))).
Proof.
  intros Hd.
  assert (forall x, x ∈ omap (consider opts) l -> f64_eq (RelevanceScore x) (RelevanceScore x) = true) as Hp.
  { intros x (t & _ & Hx)%list_elem_of_omap. apply consider_spec in Hx as (_ & Hs & _).
    pose proof (score_proper t opts Hd) as H. rewrite <-Hs in H. cbn in H. unfold proper in H. by bool_hyps. }
  unfold better. split.
  - intros x _. apply f64_lt_irrefl.
  - intros x y z _ _ _ H1 H2. by eapply f64_lt_trans.
  - intros x y z _ _ Hz H. destruct (f64_lt_split _ _ (RelevanceScore z) (Hp z Hz) H); auto.
Qed.
End scores.

Section results.
Context {ToolHandler : Type} `{HU : !Unicode} `{HS : !SliceSort} `{HL : !SliceSortLaws}.
Implicit Types (r : Registry ToolHandler) (opts : SearchOptions).

Lemma considered order r opts x :
  ranges (order (tools r)) (tools r) ->
  x ∈ omap (consider opts) (order (tools r)).*2 <->
  exists n t, tools r !! n = Some t /\ consider opts t = Some x.
Proof.
  intros Ho. rewrite list_elem_of_omap. split.
  - intros (t & Ht & Hx). apply list_elem_of_fmap in Ht as ([n u] & -> & Hy).
    unfold ranges in Ho. rewrite Ho in Hy. apply elem_of_map_to_list in Hy. by exists n, u.
  - intros (n & t & Ht & Hx). exists t. split; [|done]. apply list_elem_of_fmap. exists (n, t).
    split; [done|]. unfold ranges in Ho. rewrite Ho. by apply elem_of_map_to_list.
Qed.

(** [Search] is a prefix of the sorted candidates. *)
Lemma search_prefix order r opts :
  exists rest, slice_sort better (omap (consider (with_defaults opts)) (order (tools r)).*2)
    = (Search order r opts ++ rest)%list /\
    (rest = [] \/ Z.of_nat (length (Search order r opts)) = MaxResults opts).
Proof.
  unfold Search. cbn [MaxResults with_defaults].
  set (l := slice_sort better _).
  destruct (_ && _) eqn:E; [|exists []; split; [by rewrite app_nil_r|by left]].
  apply andb_true_iff in E as [E1 E2]. exists (drop (Z.to_nat (MaxResults opts)) l).
  split; [by rewrite take_drop|right]. rewrite length_take. lia.
Qed.

(** C36 The results of a search are registered tools with their scores, each fits the filters,
    they come best first, and a candidate is left out only when there are [MaxResults]
    results of which none is worse. *)
Theorem search_ranked order r opts :
  ranges (order (tools r)) (tools r) -> FuzzyMaxDistance opts <= 100 ->
  (forall x, x ∈ Search order r opts ->
     (exists n, tools r !! n = Some (Tool x)) /\ consider (with_defaults opts) (Tool x) = Some x /\
     fits (Tool x) opts) /\
  StronglySorted (λ a b, f64_lt (RelevanceScore a) (RelevanceScore b) = false) (Search order r opts) /\
  (forall n t x, tools r !! n = Some t -> consider (with_defaults opts) t = Some x ->
     x ∈ Search order r opts \/
     (Z.of_nat (length (Search order r opts)) = MaxResults opts /\
      forall y, y ∈ Search order r opts -> f64_lt (RelevanceScore y) (RelevanceScore x) = false)).
Proof.
  intros Ho Hd. destruct (search_prefix order r opts) as (rest & Hrest & Hcut).
  assert (FuzzyMaxDistance (with_defaults opts) <= 100) as Hd'.
  { cbn. destruct (Z.eqb_spec (FuzzyMaxDistance opts) 0); lia. }
  pose proof (slice_sort_sorted better _ (better_orders _ (order (tools r)).*2 Hd')) as Hsort.
  assert (forall x, x ∈ (Search order r opts ++ rest)%list <->
    exists n t, tools r !! n = Some t /\ consider (with_defaults opts) t = Some x) as Hall.
  { intros x. rewrite <-Hrest, slice_sort_perm. by apply considered. }
  rewrite Hrest in Hsort. apply StronglySorted_app in Hsort as (Hx & Hs & _). split; [|split].
  - intros x Hin. destruct (proj1 (Hall x)) as (n & t & Ht & Hc); [apply elem_of_app; by left|].
    pose proof Hc as (Ht' & Hsc & Hz & _)%consider_spec. subst t. split; [by exists n|]. split; [done|].
    assert (f64_eq (fst (scoreToolMatch (Tool x) (with_defaults opts))) (f64_of_Z 0) = false) as Hz' by (by rewrite <-Hsc).
    exact (scored_fits _ _ Hz').
  - exact Hs.
  - intros n t x Ht Hc. destruct (elem_of_app (Search order r opts) rest x) as [Hor _]; destruct (Hor (proj2 (Hall x) (ex_intro _ n (ex_intro _ t (conj Ht Hc))))) as [H|H]; [by left|].
    right. destruct Hcut as [->|Hlen]; [by apply not_elem_of_nil in H|]. split; [exact Hlen|].
    intros y Hy. exact (Hx _ _ Hy H).
Qed.
End results.

(** ** Examples *)

#[local] Existing Instances ascii_unicode insertion_sort.

Definition issue_tool (name description : string) : ToolDefinition string :=
  MkTool name description ∅ None "issues" ["read"; "list"] [] [] [] [] []
    (Some (MkIO (MkDataType "json" "issue" "" ∅) (MkDataType "json" "issue" "" ∅))).
Definition issue_registry : Registry string :=
  Register [issue_tool "list_issues" "Lists issues"; issue_tool "get_issue" "An issue"]
    (MkRegistry ∅ (MkManager ∅ ∅ [])).

Lemma search_ranked_witness :
  ranges (map_to_list (tools issue_registry)) (tools issue_registry) /\
  StronglySorted (λ a b, f64_lt (RelevanceScore a) (RelevanceScore b) = false)
    (Search map_to_list issue_registry (MkOptions "lists" "issues" [] None None 1 (f64_of_Z 0) true 0)).
Proof.
  split; [apply ranges_refl|]. apply search_ranked; [apply ranges_refl|vm_compute; discriminate].
Defined.

Example searched :
  (λ x, (Name (Tool x), f64_to_int (RelevanceScore x), Explanation (MatchDetails_ x))) <$>
    Search map_to_list issue_registry (MkOptions "list_isue" "issues" [] None None 0 (f64_of_Z 0) true 0)
  = [("list_issues", 40, "category match, fuzzy name match (score: 40)")].
Proof. vm_compute. reflexivity. Qed.

(** The score of a tool that matches everything: the documentation gives 100 as the most. *)
Example score_120 :
  let dt := MkDataType "json" "issue" "" ∅ in
  f64_to_int (fst (scoreToolMatch (issue_tool "issue" "issue issue issue issue issue issue")
    (MkOptions "issue" "issues" ["read"] (Some dt) (Some dt) 0 (f64_of_Z 0) false 0))) = 120.
Proof. vm_compute. reflexivity. Qed.

(** A generous distance outweighs every other criterion: the tool that does not contain the
    keyword scores 485. *)
Example fuzzy_outweighs :
  f64_to_int (fst (scoreToolMatch (issue_tool "abcd" "") (MkOptions "wxyz" "" [] None None 0 (f64_of_Z 0) true 100))) = 485.
Proof. vm_compute. reflexivity. Qed.
