(* ===== verification/EdgeBatch.v ===== *)
(** * EdgeBatch: batches of tool calls

    The file [apps/edge-mcp/internal/mcp/batch.go].  A sequential batch is a function of
    the world, which tells the time and whether the batch's context is done, and which the
    handlers change.  A parallel batch is a transition system: each goroutine waits for the
    semaphore or for the end of the context, runs its tool, stores its result and releases
    the semaphore; the theorems hold for every interleaving. *)

From stdpp Require Import base decidable gmap strings list sets.
From Stdlib Require Import ZArith Lia.
From S2P Require Import Prelude GoStrings GoAny EdgeTools.

Local Open Scope string_scope.
Local Open Scope Z_scope.

Record BatchConfig := MkBatchConfig {
  MaxBatchSize : Z;
  EnableParallelExecution : bool;
  ContinueOnError : bool;
  Timeout : Z;
  MaxConcurrency : Z;
}.

Definition DefaultBatchConfig : BatchConfig := MkBatchConfig 10 true true (5 * minute) 5.

Record BatchToolCall := MkCall {
  ID : string;
  call_Name : string;
  Arguments : string;
}.

Record BatchRequest := MkRequest {
  Tools : list BatchToolCall;
  request_Parallel : option bool;
}.

Record BatchToolResult := MkToolResult {
  result_ID : string;
  result_Name : string;
  Status : string;
  Result : any;
  Error : string;
  Duration : Z;
  Index : Z;
}.

Record BatchResponse := MkResponse {
  Results : list BatchToolResult;
  TotalDuration : Z;
  SuccessCount : Z;
  ErrorCount : Z;
  Parallel : bool;
}.

(** The zero value that [make] puts into the slice of a parallel batch. *)
Definition zero_result : BatchToolResult := MkToolResult "" "" "" ANil "" 0 0.

Definition batch_empty : string := "batch is empty: at least one tool call is required".
Definition batch_too_large (n max : Z) : string :=
  "batch size " +:+ itoa n +:+ " exceeds maximum " +:+ itoa max.

(** The checks that [Execute] and [ValidateBatchRequest] share. *)
Definition check_size (config : BatchConfig) (request : BatchRequest) : result string unit :=
  let n := Z.of_nat (length (Tools request)) in
  if n =? 0 then Err batch_empty
  else if MaxBatchSize config <? n then Err (batch_too_large n (MaxBatchSize config))
  else Ok ().

Fixpoint check_names (i : Z) (l : list BatchToolCall) : result string unit :=
  match l with
  | [] => Ok ()
  | t :: l => if String.eqb (call_Name t) "" then Err ("tool at index " +:+ itoa i +:+ " has empty name")
              else check_names (i + 1) l
  end.

Definition ValidateBatchRequest (config : BatchConfig) (request : option BatchRequest) : result string unit :=
  match request with
  | None => Err "batch request is nil"
  | Some request => check_size config request ≫= λ _, check_names 0 (Tools request)
  end.

(** The result of a tool whose turn came after the end of the context. *)
Definition timed_out (t : BatchToolCall) (i : Z) : BatchToolResult :=
  MkToolResult (ID t) (call_Name t) "error" ANil "batch execution timeout or cancelled" 0 i.

(** The result of a tool that took [duration]; a panic has none. *)
Definition tool_result (t : BatchToolCall) (i duration : Z) (x : outcome tool_error any) : option BatchToolResult :=
  match x with
  | Returns v => Some (MkToolResult (ID t) (call_Name t) "success" v "" duration i)
  | Fails e => Some (MkToolResult (ID t) (call_Name t) "error" ANil (error_text e) duration i)
  | Panics => None
  end.

(** The summary at the end of [Execute]. *)
Definition summary (results : list BatchToolResult) (total : Z) (parallel : bool) : BatchResponse :=
  let successes := Z.of_nat (length (filter (λ r, Status r = "success") results)) in
  let errors := Z.of_nat (length (filter (λ r, Status r ≠ "success") results)) in
  MkResponse results total successes errors parallel.

(** ** Sequential batches *)

Section sequential.
Context {ToolHandler S : Type}.
(** The clock, the end of the batch's context, and what a handler does. *)
Variable now : S -> Z.
Variable done_ : S -> bool.
Variable call : ToolHandler -> string -> S -> S * outcome string any.
Variables (registry : Registry ToolHandler) (config : BatchConfig).

Definition executeSingleTool (t : BatchToolCall) (i : Z) (s : S) : S * option BatchToolResult :=
  let start := now s in
  let '(s, x) := Execute call registry (call_Name t) (Arguments t) s in
  (s, tool_result t i (time_sub (now s) start) x).

(** The [break] of the code leaves the [select], not the loop: a tool whose turn comes after
    the end of the context runs if the batch does not continue on errors. *)
Fixpoint executeSequential (i : Z) (l : list BatchToolCall) (results : list BatchToolResult) (s : S)
    : S * option (list BatchToolResult) :=
  match l with
  | [] => (s, Some results)
  | t :: l =>
      let run results :=
        let '(s, r) := executeSingleTool t i s in
        match r with
        | None => (s, None)
        | Some r =>
            let results := (results ++ [r])%list in
            if negb (ContinueOnError config) && String.eqb (Status r) "error" then (s, Some results)
            else executeSequential (i + 1) l results s
        end in
      if done_ s then
        let results := (results ++ [timed_out t i])%list in
        if negb (ContinueOnError config) then run results
        else executeSequential (i + 1) l results s
      else run results
  end.
End sequential.

(** ** Parallel batches *)

(** Where a goroutine is; [Running] since when. *)
Inductive phase := Waiting | Running (since : Z) | Stored | Done.

Record batch := MkBatch {
  phases : list phase;
  results : list BatchToolResult;
  clock : Z;
  ended : bool;
  crashed : bool;
}.

(** What can happen next: the goroutine of a call gets the semaphore, sees the end of the
    context, ends its tool with an outcome, or releases the semaphore; time passes; the
    context ends. *)
Inductive event :=
| Acquire (i : nat)
| GiveUp (i : nat)
| Finish (i : nat) (x : outcome string any)
| Release (i : nat)
| Tick (d : Z)
| End_.

Definition holding (p : phase) : bool := match p with Running _ | Stored => true | _ => false end.
Definition is_done (p : phase) : bool := match p with Done => true | _ => false end.
Definition in_use (b : batch) : Z := Z.of_nat (length (filter (λ p, holding p = true) (phases b))).
Definition set_phase (i : nat) (p : phase) (b : batch) : batch :=
  MkBatch (<[i := p]> (phases b)) (results b) (clock b) (ended b) (crashed b).
Definition store (i : nat) (r : BatchToolResult) (b : batch) : batch :=
  MkBatch (phases b) (<[i := r]> (results b)) (clock b) (ended b) (crashed b).

Definition start_batch (now : Z) (n : nat) : batch :=
  MkBatch (replicate n Waiting) (replicate n zero_result) now false false.

Section parallel.
Context {ToolHandler : Type}.
Variables (registry : Registry ToolHandler) (config : BatchConfig) (l : list BatchToolCall).

(** What [registry.Execute] returns, when a handler that runs has the outcome [x]. *)
Definition executed (name : string) (x : outcome string any) : outcome tool_error any :=
  match resolve registry name with
  | Err e => Fails e
  | Ok _ => map_err HandlerError x
  end.

Definition batch_step (e : event) (b : batch) : option batch :=
  if crashed b then None else
  match e with
  | Acquire i =>
      match phases b !! i with
      | Some Waiting => if in_use b <? MaxConcurrency config then Some (set_phase i (Running (clock b)) b) else None
      | _ => None
      end
  | GiveUp i =>
      match phases b !! i, l !! i with
      | Some Waiting, Some t =>
          if ended b then Some (set_phase i Done (store i (timed_out t (Z.of_nat i)) b)) else None
      | _, _ => None
      end
  | Finish i x =>
      match phases b !! i, l !! i with
      | Some (Running since), Some t =>
          match tool_result t (Z.of_nat i) (time_sub (clock b) since) (executed (call_Name t) x) with
          | Some r => Some (set_phase i Stored (store i r b))
          | None => Some (MkBatch (phases b) (results b) (clock b) (ended b) true)
          end
      | _, _ => None
      end
  | Release i =>
      match phases b !! i with
      | Some Stored => Some (set_phase i Done b)
      | _ => None
      end
  | Tick d => if 0 <=? d then Some (MkBatch (phases b) (results b) (clock b + d) (ended b) (crashed b)) else None
  | End_ => Some (MkBatch (phases b) (results b) (clock b) true (crashed b))
  end.

Definition run_batch (es : list event) (b : batch) : option batch := foldl (λ b e, b ≫= batch_step e) (Some b) es.

(** [wg.Wait] returns when every goroutine is done; the results and the time it takes. *)
Definition executeParallel (now : Z) (es : list event) : option (list BatchToolResult * Z) :=
  match run_batch es (start_batch now (length l)) with
  | Some b => if forallb is_done (phases b) then Some (results b, time_sub (clock b) now) else None
  | None => None
  end.
End parallel.

(** [Execute]; [run parallel] is the batch in the mode chosen, [None] if it panics. *)
Definition batch_Execute (config : BatchConfig) (request : BatchRequest)
    (run : bool -> option (list BatchToolResult * Z)) : option (result string BatchResponse) :=
  match check_size config request with
  | Err e => Some (Err e)
  | Ok _ =>
      let parallel := default (EnableParallelExecution config) (request_Parallel request) in
      match run parallel with
      | Some (results, total) => Some (Ok (summary results total parallel))
      | None => None
      end
  end.

(** ** Results in their places *)

(** [r] is the result of the call [t] at place [i]. *)
Definition answers (t : BatchToolCall) (i : nat) (r : BatchToolResult) : Prop :=
  result_ID r = ID t /\ result_Name r = call_Name t /\ Index r = Z.of_nat i /\
  (Status r = "success" \/ Status r = "error").

(** One result per call, each at the place of its call. *)
Definition aligned (l : list BatchToolCall) (rs : list BatchToolResult) : Prop :=
  length rs = length l /\ forall i t r, l !! i = Some t -> rs !! i = Some r -> answers t i r.

Lemma timed_out_answers t i : answers t i (timed_out t (Z.of_nat i)).
Proof. repeat split. by right. Qed.

Lemma tool_result_answers t i d x r : tool_result t (Z.of_nat i) d x = Some r -> answers t i r.
Proof. destruct x; intros [= <-]; repeat split; auto. Qed.

Lemma filter_both {A} (P : A -> Prop) `{!forall x, Decision (P x)} (l : list A) :
  (length (filter P l) + length (filter (λ x, ¬ P x) l))%nat = length l.
Proof.
  induction l as [|x l IH]; [done|]. rewrite !filter_cons.
  destruct (decide (P x)), (decide (¬ P x)); try tauto; cbn; lia.
Qed.

Lemma summary_counts rs total p :
  SuccessCount (summary rs total p) + ErrorCount (summary rs total p) = Z.of_nat (length rs).
Proof. cbn. pose proof (filter_both (λ r, Status r = "success") rs). lia. Qed.

Section parallel_facts.
Context {ToolHandler : Type}.
Variables (registry : Registry ToolHandler) (config : BatchConfig) (l : list BatchToolCall).
Local Notation step := (batch_step registry config l).

Record batch_ok (b : batch) : Prop := {
  ok_phases : length (phases b) = length l;
  ok_results : length (results b) = length l;
  ok_capacity : in_use b <= Z.max 0 (MaxConcurrency config);
  ok_stored : forall i t r, phases b !! i = Some Stored \/ phases b !! i = Some Done ->
    l !! i = Some t -> results b !! i = Some r -> answers t i r;
}.

Lemma in_use_insert b i p q :
  phases b !! i = Some q ->
  in_use (set_phase i p b) + (if holding q then 1 else 0) = in_use b + (if holding p then 1 else 0).
Proof.
  unfold in_use, set_phase. cbn. intros Hq. generalize (phases b) i Hq. clear.
  intros ps. induction ps as [|x ps IH]; intros [|i] Hq; try done.
  - injection Hq as ->. change (<[0%nat := p]> (q :: ps)) with (p :: ps). rewrite !filter_cons.
    destruct (holding p), (holding q); repeat case_decide; cbn [length]; try done; lia.
  - specialize (IH i Hq). change (<[S i := p]> (x :: ps)) with (x :: <[i := p]> ps). rewrite !filter_cons.
    case_decide; cbn [length]; lia.
Qed.

Lemma start_ok now : batch_ok (start_batch now (length l)).
Proof.
  split; cbn; rewrite ?length_replicate; [done..| |].
  - unfold in_use. cbn. assert (filter (λ p, holding p = true) (replicate (length l) Waiting) = []) as ->; [|simpl; lia].
    induction (length l) as [|n IH]; [done|]. cbn [replicate]. rewrite filter_cons. by case_decide.
  - intros i t r [H|H]; apply lookup_replicate in H as [? _]; done.
Qed.

Lemma step_ok e b b' : step e b = Some b' -> batch_ok b -> batch_ok b'.
Proof.
  intros Hs [H1 H2 H3 H4]. unfold batch_step in Hs. destruct (crashed b); [done|].
  destruct e as [i|i|i x|i|d|].
  - destruct (phases b !! i) as [[| | |]|] eqn:E; try done.
    destruct (Z.ltb_spec (in_use b) (MaxConcurrency config)) as [Hlt|]; [|done]. injection Hs as <-.
    pose proof (in_use_insert b i (Running (clock b)) _ E). cbn in *.
    split; cbn; rewrite ?length_insert; [done..|lia|].
    intros j t r Hj. rewrite list_lookup_insert in Hj. case_decide; [|by apply H4]. destruct Hj; simplify_eq.
    all: by case_match.
  - destruct (phases b !! i) as [[| | |]|] eqn:E; try done. destruct (l !! i) as [t|] eqn:El; [|done].
    destruct (ended b); [|done]. injection Hs as <-.
    pose proof (in_use_insert (store i (timed_out t (Z.of_nat i)) b) i Done _ E). cbn in *.
    split; cbn; rewrite ?length_insert; [done..| |].
    { change (in_use (store i (timed_out t (Z.of_nat i)) b)) with (in_use b) in *. lia. }
    intros j t' r Hj Ht Hr. destruct (decide (i = j)) as [->|Hne].
    2: { rewrite list_lookup_insert_ne in Hr by done. rewrite list_lookup_insert_ne in Hj by done. by eapply H4. }
    assert (j < length l)%nat by (by eapply lookup_lt_Some). rewrite list_lookup_insert, decide_True in Hr by lia.
    simplify_eq. apply timed_out_answers.
  - destruct (phases b !! i) as [[| | |]|] eqn:E; try done. destruct (l !! i) as [t|] eqn:El; [|done].
    destruct (tool_result _ _ _ _) as [r0|] eqn:Er; injection Hs as <-; [|by split].
    pose proof (in_use_insert (store i r0 b) i Stored _ E). cbn in *.
    split; cbn; rewrite ?length_insert; [done..| |].
    { change (in_use (store i r0 b)) with (in_use b) in *. lia. }
    intros j t' r Hj Ht Hr. destruct (decide (i = j)) as [->|Hne].
    2: { rewrite list_lookup_insert_ne in Hr by done. rewrite list_lookup_insert_ne in Hj by done. by eapply H4. }
    assert (j < length l)%nat by (by eapply lookup_lt_Some). rewrite list_lookup_insert, decide_True in Hr by lia.
    simplify_eq. by eapply tool_result_answers.
  - destruct (phases b !! i) as [[| | |]|] eqn:E; try done. injection Hs as <-.
    pose proof (in_use_insert b i Done _ E). cbn in *.
    split; cbn; rewrite ?length_insert; [done..|lia|].
    intros j t r Hj. rewrite list_lookup_insert in Hj. case_decide as Hd; [|by apply H4].
    destruct Hd as [<- _]. apply H4. by left.
  - destruct (0 <=? d); [|done]. injection Hs as <-. by split.
  - injection Hs as <-. by split.
Qed.

Lemma run_batch_app es1 es2 b :
  run_batch registry config l (es1 ++ es2)%list b =
  run_batch registry config l es1 b ≫= run_batch registry config l es2.
Proof.
  unfold run_batch. rewrite foldl_app. destruct (foldl _ _ es1) as [b'|]; [done|].
  cbn. induction es2; [done|]. done.
Qed.

Lemma run_batch_ind (P : batch -> Prop) es b b' :
  (forall e b1 b2, step e b1 = Some b2 -> P b1 -> P b2) ->
  run_batch registry config l es b = Some b' -> P b -> P b'.
Proof.
  intros Hstep. revert b'. induction es as [|e es IH] using rev_ind; intros b' Hr Hb; [by injection Hr as <-|].
  rewrite run_batch_app in Hr. apply bind_Some in Hr as (b1 & H1 & H2). eauto.
Qed.

Lemma batch_run_ok now es b : run_batch registry config l es (start_batch now (length l)) = Some b -> batch_ok b.
Proof. intros H. eapply run_batch_ind; [apply step_ok|exact H|apply start_ok]. Qed.

(** ** Termination *)

Definition phase_weight (p : phase) : nat :=
  match p with Waiting => 3 | Running _ => 2 | Stored => 1 | Done => 0 end.
Definition steps_left (b : batch) : nat := sum_list (phase_weight <$> phases b).

Lemma steps_left_insert b i p q :
  phases b !! i = Some q -> (steps_left (set_phase i p b) + phase_weight q = steps_left b + phase_weight p)%nat.
Proof.
  unfold steps_left, set_phase. cbn. intros Hq. generalize (phases b) i Hq. clear.
  intros ps. induction ps as [|x ps IH]; intros [|i] Hq; try done.
  - injection Hq as ->. cbn. lia.
  - specialize (IH i Hq). change (<[S i := p]> (x :: ps)) with (x :: <[i := p]> ps). cbn. lia.
Qed.

(** The steps of goroutines, as opposed to the clock and the context. *)
Definition of_goroutine (e : event) : bool := match e with Tick _ | End_ => false | _ => true end.

Lemma step_measure e b b' :
  step e b = Some b' ->
  if of_goroutine e then crashed b' = true \/ (steps_left b' < steps_left b)%nat else steps_left b' = steps_left b.
Proof.
  intros Hs. unfold batch_step in Hs. destruct (crashed b); [done|].
  destruct e as [i|i|i x|i|d|]; cbn [of_goroutine].
  - destruct (phases b !! i) as [[| | |]|] eqn:E; try done. destruct (_ <? _); [|done]. injection Hs as <-.
    pose proof (steps_left_insert b i (Running (clock b)) _ E). cbn in *. right. lia.
  - destruct (phases b !! i) as [[| | |]|] eqn:E; try done. destruct (l !! i) as [t|]; [|done].
    destruct (ended b); [|done]. injection Hs as <-.
    pose proof (steps_left_insert (store i (timed_out t (Z.of_nat i)) b) i Done _ E). right.
    change (steps_left (store i (timed_out t (Z.of_nat i)) b)) with (steps_left b) in *. cbn in *. lia.
  - destruct (phases b !! i) as [[| | |]|] eqn:E; try done. destruct (l !! i) as [t|]; [|done].
    destruct (tool_result _ _ _ _) as [r0|]; injection Hs as <-; [|by left].
    pose proof (steps_left_insert (store i r0 b) i Stored _ E). right.
    change (steps_left (store i r0 b)) with (steps_left b) in *. cbn in *. lia.
  - destruct (phases b !! i) as [[| | |]|] eqn:E; try done. injection Hs as <-.
    pose proof (steps_left_insert b i Done _ E). right. cbn in *. lia.
  - destruct (0 <=? d); [|done]. by injection Hs as <-.
  - by injection Hs as <-.
Qed.

Lemma holding_somewhere b : 0 < in_use b -> exists i p, phases b !! i = Some p /\ holding p = true.
Proof.
  unfold in_use. intros H. destruct (filter _ (phases b)) as [|p ps] eqn:E; [simpl in H; lia|].
  assert (p ∈ filter (λ p, holding p = true) (phases b)) as [Hp Hin]%list_elem_of_filter by (rewrite E; left).
  apply list_elem_of_lookup in Hin as [i Hi]. by exists i, p.
Qed.

(** A tool that runs can end, so whatever happened, some goroutine can go on. *)
Lemma can_go_on b :
  batch_ok b -> crashed b = false -> 0 < MaxConcurrency config -> forallb is_done (phases b) = false ->
  exists e b', of_goroutine e = true /\ step e b = Some b' /\ crashed b' = false.
Proof.
  intros [H1 H2 H3 H4] Hc Hm Hd.
  assert (forall i p, phases b !! i = Some p -> holding p = true ->
    exists e b', of_goroutine e = true /\ step e b = Some b' /\ crashed b' = false) as Hhold.
  { intros i p Hi Hp. destruct p as [|since| |]; try done.
    - destruct (lookup_lt_is_Some_2 l i) as [t Ht]; [rewrite <-H1; by eapply lookup_lt_Some|].
      exists (Finish i (Returns ANil)). unfold batch_step. rewrite Hc, Hi, Ht. unfold executed.
      destruct (resolve registry (call_Name t)); cbn; eexists; done.
    - exists (Release i). unfold batch_step. rewrite Hc, Hi. eexists. done. }
  destruct (decide (0 < in_use b)) as [Hu|Hu]; [apply holding_somewhere in Hu as (i & p & Hi & Hp); eauto|].
  apply not_true_iff_false in Hd. rewrite forallb_forall in Hd.
  destruct (decide (Forall (λ p, is_done p = true) (phases b))) as [Hall|Hn].
  { destruct Hd. intros p Hp%list_elem_of_In. rewrite Forall_forall in Hall. auto. }
  apply not_Forall_Exists in Hn; [|apply _]. apply Exists_exists in Hn as (p & Hin & Hp).
  apply list_elem_of_lookup in Hin as [i Hi]. destruct p as [|since| |]; [|exact (Hhold _ _ Hi eq_refl)..|by destruct Hp].
  exists (Acquire i). unfold batch_step. rewrite Hc, Hi.
  destruct (Z.ltb_spec (in_use b) (MaxConcurrency config)); [|lia]. eexists. done.
Qed.
End parallel_facts.

Section batch_theorems.
Context {ToolHandler : Type}.
Variables (registry : Registry ToolHandler) (config : BatchConfig) (l : list BatchToolCall).
Local Notation step := (batch_step registry config l).
Local Notation runs := (run_batch registry config l).

Lemma all_done_results b :
  batch_ok config l b -> forallb is_done (phases b) = true -> aligned l (results b).
Proof.
  intros [H1 H2 H3 H4] Hd. split; [done|]. intros i t r Ht Hr. apply (H4 i t r); [|done..]. right.
  destruct (lookup_lt_is_Some_2 (phases b) i) as [p Hp]; [rewrite H1; by eapply lookup_lt_Some|].
  rewrite forallb_forall in Hd. assert (is_done p = true) as Hpd.
  { apply Hd, list_elem_of_In. by eapply list_elem_of_lookup_2. }
  by destruct p.
Qed.

(** C13 Whatever the interleaving, at most [MaxConcurrency] tools of a parallel batch run at
    once, and when the batch returns there is one result per call, in its place, with the
    call's identifier and name. *)
Theorem parallel_batch_aligned now es b :
  runs es (start_batch now (length l)) = Some b ->
  in_use b <= Z.max 0 (MaxConcurrency config) /\
  (forallb is_done (phases b) = true ->
   aligned l (results b) /\
   SuccessCount (summary (results b) 0 true) + ErrorCount (summary (results b) 0 true) = Z.of_nat (length l)).
Proof.
  intros Hr. pose proof (batch_run_ok registry config l _ _ _ Hr) as Hok. split; [apply Hok|].
  intros Hd. pose proof (all_done_results b Hok Hd) as [Hlen Ha]. split; [done|].
  by rewrite summary_counts, Hlen.
Qed.

Definition goroutine_steps (es : list event) : nat := length (filter (λ e, of_goroutine e = true) es).

Lemma steps_bound es b b' :
  runs es b = Some b' -> crashed b' = false -> (goroutine_steps es + steps_left b' <= steps_left b)%nat.
Proof.
  unfold goroutine_steps. revert b'. induction es as [|e es IH] using rev_ind; intros b' Hr Hc.
  { injection Hr as <-. cbn. lia. }
  rewrite run_batch_app in Hr. apply bind_Some in Hr as (b1 & H1 & H2). cbn in H2.
  assert (crashed b1 = false) as Hc1.
  { unfold batch_step in H2. by destruct (crashed b1). }
  specialize (IH b1 H1 Hc1). rewrite filter_app, length_app, filter_cons, filter_nil.
  pose proof (step_measure registry config l e b1 b' H2) as Hm.
  destruct (of_goroutine e) eqn:Eg; case_decide; try done; cbn [length].
  - destruct Hm as [Hm|Hm]; [congruence|lia].
  - lia.
Qed.

(** C14 A parallel batch ends: its goroutines take at most three steps each, and as long as one
    is left some step is possible, so long as a tool that runs can end and there is room for
    one. *)
Theorem parallel_batch_terminates now es b :
  0 < MaxConcurrency config ->
  runs es (start_batch now (length l)) = Some b -> crashed b = false ->
  (goroutine_steps es <= 3 * length l)%nat /\
  (forallb is_done (phases b) = true \/
   exists e b', of_goroutine e = true /\ step e b = Some b' /\ crashed b' = false).
Proof.
  intros Hm Hr Hc. split.
  - pose proof (steps_bound _ _ _ Hr Hc). assert (steps_left (start_batch now (length l)) = 3 * length l)%nat; [|lia].
    unfold steps_left. cbn [phases start_batch]. clear. induction (length l) as [|n IH]; [done|].
    cbn [replicate fmap list_fmap sum_list phase_weight]. cbn in *. lia.
  - destruct (forallb is_done (phases b)) eqn:Hd; [by left|right].
    apply (can_go_on registry config l); [by eapply batch_run_ok|done..].
Qed.

(** With [MaxConcurrency] zero the channel of the semaphore has no room and no reader: no
    tool ever runs, and a batch can only end by its time-out. *)
Lemma no_concurrency_no_tool now es b :
  MaxConcurrency config <= 0 -> runs es (start_batch now (length l)) = Some b ->
  Forall (λ p, p = Waiting \/ p = Done) (phases b) /\ (ended b = false -> Forall (λ p, p = Waiting) (phases b)).
Proof.
  intros Hm Hr. pattern b. eapply run_batch_ind; [|exact Hr|].
  2: { cbn. split; [|intros _]; apply Forall_replicate; auto. }
  clear b Hr. intros e b b' Hs [H1 H2]. unfold batch_step in Hs. destruct (crashed b); [done|].
  assert (forall i since, phases b !! i ≠ Some (Running since) /\ phases b !! i ≠ Some Stored) as Hno.
  { intros i since. rewrite Forall_lookup in H1. split; intros Hi; destruct (H1 _ _ Hi); done. }
  destruct e as [i|i|i x|i|d|].
  - destruct (phases b !! i) as [[| | |]|] eqn:E; try done.
    destruct (Z.ltb_spec (in_use b) (MaxConcurrency config)); [|done]. unfold in_use in *. lia.
  - destruct (phases b !! i) as [[| | |]|] eqn:E; try done. destruct (l !! i) as [t|]; [|done].
    destruct (ended b) eqn:Ee; [|done]. injection Hs as <-. cbn. split; [|congruence].
    apply Forall_insert; [done|by right].
  - destruct (phases b !! i) as [[|since| |]|] eqn:E; try done. destruct (Hno i since) as [[] _]; done.
  - destruct (phases b !! i) as [[| | |]|] eqn:E; try done. destruct (Hno i 0) as [_ []]; done.
  - destruct (0 <=? d); [|done]. by injection Hs as <-.
  - injection Hs as <-. cbn. by split.
Qed.
End batch_theorems.

Section sequential_theorems.
Context {ToolHandler S : Type}.
Variable now : S -> Z.
Variable done_ : S -> bool.
Variable call : ToolHandler -> string -> S -> S * outcome string any.
Variables (registry : Registry ToolHandler) (config : BatchConfig).
Local Notation sequential := (executeSequential now done_ call registry config).
Local Notation single := (executeSingleTool now call registry).

Lemma single_answers t i s s' r : single t (Z.of_nat i) s = (s', Some r) -> answers t i r.
Proof.
  unfold executeSingleTool. destruct (Execute _ _ _ _ s) as [s1 x]. intros [= <- H].
  by apply tool_result_answers in H.
Qed.

Lemma aligned_snoc l rs t r :
  aligned l rs -> answers t (length l) r -> aligned (l ++ [t])%list (rs ++ [r])%list.
Proof.
  intros [Hlen Ha] Hr. split; [by rewrite !length_app, Hlen|]. intros i t' r' Ht Hr'.
  destruct (decide (i = length l)) as [->|Hne].
  - rewrite list_lookup_middle in Ht by done. rewrite list_lookup_middle in Hr' by done. congruence.
  - rewrite lookup_app_l in Ht by (apply lookup_lt_Some in Ht; rewrite length_app in Ht; simpl in Ht; lia).
    pose proof (lookup_lt_Some _ _ _ Ht). rewrite lookup_app_l in Hr' by lia. eauto.
Qed.

Lemma sequential_continues l before rs s s' rs' :
  ContinueOnError config = true -> aligned before rs ->
  sequential (Z.of_nat (length before)) l rs s = (s', Some rs') -> aligned (before ++ l)%list rs'.
Proof.
  intros Hc. revert before rs s. induction l as [|t l IH]; intros before rs s Ha Hs.
  { injection Hs as _ <-. by rewrite app_nil_r. }
  assert (forall rs1 s1, aligned (before ++ [t])%list rs1 ->
    sequential (Z.of_nat (length before) + 1) l rs1 s1 = (s', Some rs') -> aligned (before ++ t :: l)%list rs') as Hnext.
  { intros rs1 s1 Ha1 Hs1. change (t :: l) with ([t] ++ l)%list. rewrite app_assoc. apply (IH _ rs1 s1 Ha1).
    rewrite length_app. cbn [length]. by rewrite Nat2Z.inj_add. }
  cbn [executeSequential] in Hs. rewrite Hc in Hs. cbn [negb andb] in Hs. destruct (done_ s).
  - eapply Hnext; [|exact Hs]. apply aligned_snoc; [done|apply timed_out_answers].
  - destruct (single t _ s) as [s1 [r|]] eqn:E; [|done].
    eapply Hnext; [|exact Hs]. apply aligned_snoc; [done|]. by apply single_answers in E.
Qed.

(** A sequential batch that continues on errors has one result per call, in order. *)
Theorem sequential_batch_aligned l s s' rs :
  ContinueOnError config = true -> sequential 0 l [] s = (s', Some rs) -> aligned l rs.
Proof.
  intros Hc Hs. apply (sequential_continues l [] [] s s' rs Hc); [|exact Hs]. split; [done|]. intros i t r H. done.
Qed.

Lemma sequential_extends i l rs s s' rs' :
  sequential i l rs s = (s', Some rs') -> exists more, rs' = (rs ++ more)%list.
Proof.
  revert i rs s. induction l as [|t l IH]; intros i rs s Hs.
  { injection Hs as _ <-. exists []. by rewrite app_nil_r. }
  assert (forall rs1 s1 a, rs1 = (rs ++ a)%list -> sequential (i + 1) l rs1 s1 = (s', Some rs') ->
    exists more, rs' = (rs ++ more)%list) as Hnext.
  { intros rs1 s1 a -> H. apply IH in H as [more ->]. exists (a ++ more)%list. by rewrite app_assoc. }
  cbn [executeSequential] in Hs. destruct (done_ s), (single t i s) as [s1 [r|]];
    destruct (negb (ContinueOnError config)); cbn [andb] in Hs; try done;
    try (destruct (String.eqb (Status r) "error"); [injection Hs as _ <-; eexists; rewrite <-?app_assoc; reflexivity|]);
    (eapply Hnext; [|exact Hs]); rewrite <-?app_assoc; reflexivity.
Qed.

(** The [break] that should stop a cancelled batch only leaves the [select]: the tool whose
    turn it is runs all the same, after its result was given as a time-out, and has two
    results. *)
Theorem cancelled_batch_runs_tool t l s s1 r s' rs :
  ContinueOnError config = false -> done_ s = true -> single t 0 s = (s1, Some r) ->
  sequential 0 (t :: l) [] s = (s', Some rs) ->
  exists more, rs = (timed_out t 0 :: r :: more)%list.
Proof.
  intros Hc Hd Hr. cbn [executeSequential]. rewrite Hd, Hc, Hr. cbn [negb andb app].
  destruct (String.eqb (Status r) "error").
  - intros [= _ <-]. by exists [].
  - intros H. by apply sequential_extends in H as [more ->]; exists more.
Qed.
End sequential_theorems.

(** ** Witnesses: handlers that return their own name *)

Definition echo_registry : Registry string :=
  Register [MkTool "echo" "" ∅ (Some "echo") "" [] [] [] [] [] [] None] (MkRegistry ∅ (ToolRelations.MkManager ∅ ∅ [])).
Definition echo_call (h args : string) (s : Z * bool) : (Z * bool) * outcome string any :=
  ((fst s + 1, snd s), Returns (AString h)).
Definition careful : BatchConfig := MkBatchConfig 10 false false minute 5.
Definition two_echoes : list BatchToolCall := [MkCall "1" "echo" ""; MkCall "2" "none" ""].
Definition two_echoes_run : list event :=
  [Acquire 1; Tick 5; Acquire 0; Finish 0 (Returns ANil); Release 0; Finish 1 Panics; Release 1]%nat.

Lemma parallel_batch_aligned_witness :
  exists b, run_batch echo_registry DefaultBatchConfig two_echoes two_echoes_run (start_batch 0 2) = Some b /\
    in_use b <= 5 /\ aligned two_echoes (results b).
Proof.
  eexists. split; [vm_compute; reflexivity|].
  match goal with |- in_use ?b <= _ /\ _ =>
    destruct (parallel_batch_aligned echo_registry DefaultBatchConfig two_echoes 0 two_echoes_run b) as [H1 H2] end.
  - vm_compute. reflexivity.
  - split; [exact H1|]. apply H2. reflexivity.
Defined.

Lemma parallel_batch_terminates_witness :
  exists e b', of_goroutine e = true /\
    batch_step echo_registry DefaultBatchConfig two_echoes e (start_batch 0 2) = Some b' /\ crashed b' = false.
Proof.
  destruct (parallel_batch_terminates echo_registry DefaultBatchConfig two_echoes 0 [] (start_batch 0 2)) as [_ [H|H]];
    [reflexivity..|discriminate H|exact H].
Defined.

Lemma sequential_batch_aligned_witness :
  exists rs, snd (executeSequential fst snd echo_call echo_registry DefaultBatchConfig 0 two_echoes [] (0, false)) = Some rs /\
    aligned two_echoes rs.
Proof.
  eexists. split; [vm_compute; reflexivity|].
  eapply (sequential_batch_aligned fst snd echo_call echo_registry DefaultBatchConfig two_echoes (0, false)); [reflexivity|].
  vm_compute. reflexivity.
Defined.

Definition cancelled_run : (Z * bool) * option (list BatchToolResult) :=
  executeSequential fst snd echo_call echo_registry careful 0 two_echoes [] (0, true).

Lemma cancelled_batch_runs_tool_witness :
  exists more, snd cancelled_run =
    Some (timed_out (MkCall "1" "echo" "") 0 :: MkToolResult "1" "echo" "success" (AString "echo") "" 1 0 :: more)%list.
Proof.
  destruct (cancelled_batch_runs_tool fst snd echo_call echo_registry careful (MkCall "1" "echo" "")
    [MkCall "2" "none" ""] (0, true) (1, true) (MkToolResult "1" "echo" "success" (AString "echo") "" 1 0)
    (fst cancelled_run) (default [] (snd cancelled_run))) as [more H]; [reflexivity..|vm_compute; reflexivity|].
  exists more. rewrite <-H. vm_compute. reflexivity.
Defined.

(** Four results for two calls. *)
Example cancelled_batch_results :
  (option_map (map (λ r, (result_ID r, Status r))) (snd cancelled_run))
  = Some [("1", "error"); ("1", "success"); ("2", "error"); ("2", "error")].
Proof. vm_compute. reflexivity. Qed.

(** A panic of a handler ends the process, not the call. *)
Example panic_crashes :
  option_map crashed (run_batch echo_registry DefaultBatchConfig two_echoes
    [Acquire 0; Finish 0 Panics]%nat (start_batch 0 2)) = Some true.
Proof. vm_compute. reflexivity. Qed.
