(* ===== verification/EdgeRateLimit.v ===== *)
(** * EdgeRateLimit: the limits in front of the edge server

    The file [apps/edge-mcp/internal/middleware/rate_limit.go]: a global limiter, one per
    tenant and one per tool of a tenant, and quotas of tenants.  The token buckets of
    [golang.org/x/time/rate] are the class [TokenBucket], whose laws say what that library
    documents: a burst at most, and a rate.  A call sees one instant of the clock, and its
    two locked parts are one step. *)

From stdpp Require Import base decidable gmap strings list sets.
From Stdlib Require Import ZArith Lia.
From S2P Require Import Prelude GoFloat GoStrings GoAny.

Local Open Scope string_scope.
Local Open Scope Z_scope.

(** [rate.NewLimiter(rate.Limit(rps), burst)], [Allow] and [Tokens] at an instant. *)
Class TokenBucket (L : Type) := {
  NewLimiter : Z -> Z -> L;
  Allow : Z -> L -> bool * L;
  Tokens : Z -> L -> float64;
}.

(** [level] is a bound on what a limiter holds, in tokens times [second]. *)
Class TokenBucketLaws (L : Type) `{!TokenBucket L} := {
  is_limiter : Z -> Z -> L -> Prop;
  level : L -> Z -> Z;
  new_limiter : forall rps burst, 0 <= rps -> 0 <= burst -> is_limiter rps burst (NewLimiter rps burst);
  level_nonneg : forall l t, 0 <= level l t;
  level_burst : forall rps burst l t, is_limiter rps burst l -> level l t <= burst * second;
  level_rate : forall rps burst l t u, is_limiter rps burst l -> t <= u -> level l u <= level l t + rps * (u - t);
  allow_limiter : forall rps burst l t, is_limiter rps burst l -> is_limiter rps burst (snd (Allow t l));
  allow_spends : forall rps burst l t, is_limiter rps burst l ->
    level (snd (Allow t l)) t <= level l t - (if fst (Allow t l) then second else 0);
}.

Record RateLimitConfig := MkConfig {
  GlobalRPS : Z;
  GlobalBurst : Z;
  TenantRPS : Z;
  TenantBurst : Z;
  ToolRPS : Z;
  ToolBurst : Z;
  EnableQuotas : bool;
  QuotaResetInterval : Z;
  DefaultQuota : Z;
  CleanupInterval : Z;
  MaxAge : Z;
}.

Definition DefaultRateLimitConfig : RateLimitConfig :=
  MkConfig 1000 2000 100 200 50 100 true (24 * 60 * minute) 10000 (5 * minute) (60 * minute).

Record quotaEntry := MkQuota {
  used : Z;
  limit : Z;
  resetAt : Z;
}.

Record RateLimitResult := MkRateLimit {
  Allowed : bool;
  LimitType : string;
  Limit : Z;
  Remaining : Z;
  ResetAt : Z;
  RetryAfter : Z;
  QuotaUsed : Z;
  QuotaLimit : Z;
  QuotaResetAt : Z;
}.

Section limiter.
Context {L : Type} `{HT : !TokenBucket L}.

Record rateLimiterEntry := MkEntry {
  limiter : L;
  lastAccess : Z;
}.

Record RateLimiter := MkLimiter {
  config : RateLimitConfig;
  limiters : gmap string rateLimiterEntry;
  quotas : gmap string quotaEntry;
  globalRL : L;
  closed : bool;
}.

Definition NewRateLimiter (config : RateLimitConfig) : RateLimiter :=
  MkLimiter config ∅ ∅ (NewLimiter (GlobalRPS config) (GlobalBurst config)) false.

Definition set_limiters (m : gmap string rateLimiterEntry) (rl : RateLimiter) : RateLimiter :=
  MkLimiter (config rl) m (quotas rl) (globalRL rl) (closed rl).
Definition set_quotas (m : gmap string quotaEntry) (rl : RateLimiter) : RateLimiter :=
  MkLimiter (config rl) (limiters rl) m (globalRL rl) (closed rl).
Definition set_global (l : L) (rl : RateLimiter) : RateLimiter :=
  MkLimiter (config rl) (limiters rl) (quotas rl) l (closed rl).

(** The limiter of a key, new if there is none; its access is noted. *)
Definition getLimiter (now : Z) (key : string) (rps burst : Z) (rl : RateLimiter) : L * RateLimiter :=
  let l := match limiters rl !! key with Some entry => limiter entry | None => NewLimiter rps burst end in
  (l, set_limiters (<[key := MkEntry l now]> (limiters rl)) rl).

(** [Allow] on the limiter of a key, which the map holds by pointer. *)
Definition allow_key (now : Z) (key : string) (rps burst : Z) (rl : RateLimiter) : bool * RateLimiter :=
  let '(l, rl) := getLimiter now key rps burst rl in
  let '(ok, l) := Allow now l in
  (ok, set_limiters (<[key := MkEntry l now]> (limiters rl)) rl).

Definition renewed (now interval : Z) (q : quotaEntry) : quotaEntry :=
  if time_after now (resetAt q) then MkQuota 0 (limit q) (now + interval) else q.

Definition checkQuota (now : Z) (tenantID : string) (rl : RateLimiter) : RateLimitResult * RateLimiter :=
  let interval := QuotaResetInterval (config rl) in
  let quota := default (MkQuota 0 (DefaultQuota (config rl)) (now + interval)) (quotas rl !! tenantID) in
  let quota := renewed now interval quota in
  let put q := set_quotas (<[tenantID := q]> (quotas rl)) rl in
  if limit quota <=? used quota then
    (MkRateLimit false "quota" 0 0 zero_time (time_sub (resetAt quota) now) (used quota) (limit quota) (resetAt quota),
     put quota)
  else
    let quota := MkQuota (used quota + 1) (limit quota) (resetAt quota) in
    (MkRateLimit true "quota" 0 0 zero_time 0 (used quota) (limit quota) (resetAt quota), put quota).

Definition tenantKey (tenantID : string) : string := "tenant:" +:+ tenantID.
Definition toolKey (tenantID toolName : string) : string := "tool:" +:+ tenantID +:+ ":" +:+ toolName.

(** A refusal by one of the limiters. *)
Definition refusal (limitType : string) (limit remaining now : Z) : RateLimitResult :=
  MkRateLimit false limitType limit remaining (now + second) second 0 0 zero_time.

(** The refusal of a limiter with a key, if it refuses. *)
Definition limited_by (now : Z) (limitType key : string) (rps burst : Z) (rl : RateLimiter)
    : option RateLimitResult * RateLimiter :=
  let '(ok, rl) := allow_key now key rps burst rl in
  if ok then (None, rl)
  else
    let remaining := match limiters rl !! key with Some e => f64_to_int (Tokens now (limiter e)) | None => 0 end in
    (Some (refusal limitType rps remaining now), rl).

Definition allowed : RateLimitResult := MkRateLimit true "none" 0 0 zero_time 0 0 0 zero_time.

Definition CheckRateLimit (now : Z) (tenantID toolName : string) (rl : RateLimiter) : RateLimitResult * RateLimiter :=
  let c := config rl in
  let tenant := negb (String.eqb tenantID "") in
  let '(ok, g) := Allow now (globalRL rl) in
  let rl := set_global g rl in
  if negb ok then (refusal "global" (GlobalRPS c) 0 now, rl)
  else
    let '(quotaResult, rl) := if EnableQuotas c && tenant then checkQuota now tenantID rl else (allowed, rl) in
    if negb (Allowed quotaResult) then (quotaResult, rl)
    else
      let '(refused, rl) :=
        if tenant then limited_by now "tenant" (tenantKey tenantID) (TenantRPS c) (TenantBurst c) rl
        else (None, rl) in
      match refused with
      | Some r => (r, rl)
      | None =>
          let '(refused, rl) :=
            if negb (String.eqb toolName "") && tenant
            then limited_by now "tool" (toolKey tenantID toolName) (ToolRPS c) (ToolBurst c) rl
            else (None, rl) in
          match refused with
          | Some r => (r, rl)
          | None => (allowed, rl)
          end
      end.

(** ** Housekeeping *)

Definition cleanup (now : Z) (rl : RateLimiter) : RateLimiter :=
  let c := config rl in
  let live := filter (λ ke, time_sub now (lastAccess (snd ke)) <= MaxAge c) (limiters rl) in
  let quota (q : quotaEntry) : option quotaEntry :=
    let q := renewed now (QuotaResetInterval c) q in
    if (used q =? 0) && (MaxAge c <? time_sub now (resetAt q - QuotaResetInterval c)) then None else Some q in
  MkLimiter c live (omap quota (quotas rl)) (globalRL rl) (closed rl).

Definition SetTenantQuota (now : Z) (tenantID : string) (limit_ : Z) (rl : RateLimiter) : RateLimiter :=
  let q := match quotas rl !! tenantID with
           | None => MkQuota 0 limit_ (now + QuotaResetInterval (config rl))
           | Some q => MkQuota (used q) limit_ (resetAt q)
           end in
  set_quotas (<[tenantID := q]> (quotas rl)) rl.

Definition GetTenantQuota (now : Z) (tenantID : string) (rl : RateLimiter) : Z * Z * Z :=
  match quotas rl !! tenantID with
  | None => (0, DefaultQuota (config rl), now + QuotaResetInterval (config rl))
  | Some q => (used q, limit q, resetAt q)
  end.

(** [time.Time.Unix]: seconds since 1970. *)
Definition Unix (t : Z) : Z := t / second - 62135596800.

(** What of a limiter's tokens is told to a client: of an unknown key, its rate. *)
Definition remaining_of (now : Z) (key : string) (rps : Z) (rl : RateLimiter) : Z :=
  match limiters rl !! key with Some e => f64_to_int (Tokens now (limiter e)) | None => rps end.

Definition GetRateLimitMetadata (now : Z) (tenantID toolName : string) (rl : RateLimiter) : gmap string any :=
  let c := config rl in
  let tenant := negb (String.eqb tenantID "") in
  let m : gmap string any :=
    <["global_remaining" := AInt (f64_to_int (Tokens now (globalRL rl)))]> {["global_limit" := AInt (GlobalRPS c)]} in
  let m := if tenant then
      <["tenant_remaining" := AInt (remaining_of now (tenantKey tenantID) (TenantRPS c) rl)]>
        (<["tenant_limit" := AInt (TenantRPS c)]> m) else m in
  let m := if negb (String.eqb toolName "") && tenant then
      <["tool_remaining" := AInt (remaining_of now (toolKey tenantID toolName) (ToolRPS c) rl)]>
        (<["tool_limit" := AInt (ToolRPS c)]> m) else m in
  if EnableQuotas c && tenant then
    let '(used, limit, resetAt) := GetTenantQuota now tenantID rl in
    <["quota_reset_at" := AInt64 (Unix resetAt)]> (<["quota_remaining" := AInt64 (i64 (limit - used))]>
      (<["quota_limit" := AInt64 limit]> (<["quota_used" := AInt64 used]> m)))
  else m.

Definition CreateRateLimitError (r : RateLimitResult) : gmap string any :=
  let m : gmap string any :=
    <["retry_after" := AInt (f64_to_int (duration_seconds (RetryAfter r)))]>
      (<["reset_at" := AInt64 (Unix (ResetAt r))]>
        (<["remaining" := AInt (Remaining r)]>
          (<["limit" := AInt (Limit r)]> {["limit_type" := AString (LimitType r)]}))) in
  if String.eqb (LimitType r) "quota" then
    <["quota_reset_at" := AInt64 (Unix (QuotaResetAt r))]>
      (<["quota_limit" := AInt64 (QuotaLimit r)]> (<["quota_used" := AInt64 (QuotaUsed r)]> m))
  else m.

(** The counts of [GetStats]. *)
Definition key_kind (key : string) : string :=
  if (7 <? len key) && HasPrefix key "tenant:" then "tenant"
  else if (5 <? len key) && HasPrefix key "tool:" then "tool" else "".
Definition limiters_of (kind : string) (rl : RateLimiter) : Z :=
  Z.of_nat (size (filter (λ ke, key_kind (fst ke) = kind) (limiters rl))).
Definition total_quota_used (rl : RateLimiter) : Z :=
  map_fold (λ _ q n, n + used q) 0 (quotas rl).
Definition GetStats (rl : RateLimiter) : gmap string Z :=
  list_to_map [("total_limiters", Z.of_nat (size (limiters rl))); ("tenant_limiters", limiters_of "tenant" rl);
    ("tool_limiters", limiters_of "tool" rl); ("total_quotas", Z.of_nat (size (quotas rl)));
    ("total_quota_used", total_quota_used rl)].

(** [Close] stops the clean-up; a second call does nothing. *)
Definition Close (rl : RateLimiter) : RateLimiter :=
  MkLimiter (config rl) (limiters rl) (quotas rl) (globalRL rl) true.
End limiter.

Arguments RateLimiter : clear implicits.
Arguments rateLimiterEntry : clear implicits.

(** ** Histories *)

Inductive limit_op :=
| Check_ (tenantID toolName : string)
| Cleanup
| SetQuota (tenantID : string) (limit : Z).

Section history.
Context {L : Type} `{HT : !TokenBucket L} `{HL : !TokenBucketLaws L}.
Implicit Types rl : RateLimiter L.

Definition apply_op (op : Z * limit_op) rl : option RateLimitResult * RateLimiter L :=
  match snd op with
  | Check_ tenant tool => let '(r, rl) := CheckRateLimit (fst op) tenant tool rl in (Some r, rl)
  | Cleanup => (None, cleanup (fst op) rl)
  | SetQuota tenant l => (None, SetTenantQuota (fst op) tenant l rl)
  end.

(** Whether an operation lets a request of the tenant through. *)
Definition lets_through (T : string) (op : Z * limit_op) (r : option RateLimitResult) : Z :=
  match snd op, r with
  | Check_ tenant _, Some r => if String.eqb tenant T && Allowed r then 1 else 0
  | _, _ => 0
  end.

Fixpoint let_through (T : string) (ops : list (Z * limit_op)) rl : Z * RateLimiter L :=
  match ops with
  | [] => (0, rl)
  | op :: ops =>
      let '(r, rl) := apply_op op rl in
      let '(n, rl) := let_through T ops rl in
      (lets_through T op r + n, rl)
  end.

(** The operations happen in order between two instants. *)
Fixpoint in_order (t u : Z) (ops : list (Z * limit_op)) : Prop :=
  match ops with
  | [] => t <= u
  | op :: ops => t <= fst op /\ in_order (fst op) u ops
  end.

Lemma in_order_le t u ops : in_order t u ops -> t <= u.
Proof. revert t. induction ops as [|op ops IH]; intros t; [done|]. intros [H1 H2%IH]. lia. Qed.

(** ** Keys *)

Lemma string_app_inj (p a b : string) : p +:+ a = p +:+ b -> a = b.
Proof. induction p as [|c p IH]; [done|]. intros [= H]. auto. Qed.

Lemma tenantKey_inj a b : tenantKey a = tenantKey b -> a = b.
Proof. apply string_app_inj. Qed.

Lemma toolKey_not_tenantKey a b c : toolKey a b ≠ tenantKey c.
Proof. unfold toolKey, tenantKey. done. Qed.

(** ** What a tenant can still spend *)

(** A bound on the level of a limiter last asked at [lastAccess]. *)
Definition allowance (rps burst : Z) (e : option (rateLimiterEntry L)) (t : Z) : Z :=
  match e with
  | Some e => Z.min (burst * second) (level (limiter e) (lastAccess e) + rps * (t - lastAccess e))
  | None => burst * second
  end.

Definition entries_ok (rps burst : Z) (key : string) (t : Z) rl : Prop :=
  forall e, limiters rl !! key = Some e -> is_limiter rps burst (limiter e) /\ lastAccess e <= t.

Lemma allowance_later rps burst e t u : 0 <= rps -> t <= u -> allowance rps burst e u <= allowance rps burst e t + rps * (u - t).
Proof. intros Hr Ht. destruct e as [e|]; cbn; nia. Qed.

Lemma allowance_burst rps burst e t : allowance rps burst e t <= burst * second.
Proof. destruct e; cbn; lia. Qed.

Lemma second_pos : 0 < second.
Proof. done. Qed.

Lemma allow_key_lookup_ne now key rps burst rl ok rl' k :
  allow_key now key rps burst rl = (ok, rl') -> k ≠ key -> limiters rl' !! k = limiters rl !! k.
Proof.
  unfold allow_key, getLimiter. destruct (Allow now _) as [b l]. intros [= _ <-] Hk. cbn.
  by rewrite !lookup_insert_ne.
Qed.

Lemma allow_key_spends now key rps burst rl ok rl' :
  0 <= rps -> 0 <= burst ->
  allow_key now key rps burst rl = (ok, rl') -> entries_ok rps burst key now rl ->
  entries_ok rps burst key now rl' /\
  allowance rps burst (limiters rl' !! key) now + (if ok then second else 0)
    <= allowance rps burst (limiters rl !! key) now.
Proof.
  intros Hr Hb. unfold allow_key, getLimiter.
  set (l0 := match limiters rl !! key with Some e => limiter e | None => NewLimiter rps burst end).
  intros H Hok. assert (is_limiter rps burst l0) as Hl.
  { unfold l0. destruct (limiters rl !! key) as [e|] eqn:E; [by apply Hok in E as [? _]|by apply new_limiter]. }
  assert (level l0 now <= allowance rps burst (limiters rl !! key) now) as Hlev.
  { pose proof (level_burst _ _ l0 now Hl). unfold l0 in *. destruct (limiters rl !! key) as [e|] eqn:E; cbn in *; [|done].
    destruct (Hok e E) as [? ?]. pose proof (level_rate rps burst (limiter e) (lastAccess e) now ltac:(done) ltac:(done)). lia. }
  pose proof (allow_limiter _ _ _ now Hl) as Hl'. pose proof (allow_spends _ _ _ now Hl) as Hs.
  destruct (Allow now l0) as [b l]. cbn in *. injection H as <- <-. cbn. rewrite lookup_insert_eq. split.
  - intros e. cbn. rewrite lookup_insert_eq. intros [= <-]. cbn. split; [done|lia].
  - cbn. rewrite Z.sub_diag, Z.mul_0_r, Z.add_0_r. lia.
Qed.
End history.

Section bounds.
Context {L : Type} `{HT : !TokenBucket L} `{HL : !TokenBucketLaws L}.
Implicit Types rl : RateLimiter L.

Lemma allow_key_config now key rps burst rl : config (snd (allow_key now key rps burst rl)) = config rl /\
  quotas (snd (allow_key now key rps burst rl)) = quotas rl.
Proof. unfold allow_key, getLimiter. by destruct (Allow now _). Qed.

Lemma limited_by_allow now ty key rps burst rl o rl' :
  limited_by now ty key rps burst rl = (o, rl') ->
  exists ok, allow_key now key rps burst rl = (ok, rl') /\
    match o with None => ok = true | Some r => ok = false /\ Allowed r = false /\ LimitType r = ty end.
Proof.
  unfold limited_by. destruct (allow_key now key rps burst rl) as [ok rl1]. destruct ok; intros [= <- <-];
    eexists; split; reflexivity || done.
Qed.

Lemma checkQuota_limiters now tenant rl : limiters (snd (checkQuota now tenant rl)) = limiters rl /\
  config (snd (checkQuota now tenant rl)) = config rl.
Proof. unfold checkQuota. destruct (_ <=? _); done. Qed.

(** The four stages of a check, for one tenant. *)
Record check_stages (now : Z) (tenant tool : string) rl (r : RateLimitResult) rl' : Prop := {
  stage_config : config rl' = config rl;
  stage_limiters : forall T, tenant ≠ T -> limiters rl' !! tenantKey T = limiters rl !! tenantKey T;
  stage_tenant : limiters rl' !! tenantKey tenant = limiters rl !! tenantKey tenant /\
      (tenant = "" \/ Allowed r = false) \/
    exists rl1 ok rl2, limiters rl1 = limiters rl /\
      allow_key now (tenantKey tenant) (TenantRPS (config rl)) (TenantBurst (config rl)) rl1 = (ok, rl2) /\
      limiters rl' !! tenantKey tenant = limiters rl2 !! tenantKey tenant /\ (Allowed r = true -> ok = true);
}.

Lemma check_in_stages now tenant tool rl r rl' :
  CheckRateLimit now tenant tool rl = (r, rl') -> check_stages now tenant tool rl r rl'.
Proof.
  unfold CheckRateLimit. destruct (Allow now (globalRL rl)) as [ok g]. destruct ok; cbn [negb].
  2: { intros [= <- <-]. split; [done..|]. left. split; [done|by right]. }
  set (rl0 := set_global g rl). destruct (String.eqb_spec tenant "") as [->|Hne]; cbn [negb andb].
  { rewrite !andb_false_r. intros [= <- <-]. split; [done..|]. left. split; [done|by left]. }
  rewrite !andb_true_r.
  destruct (if EnableQuotas (config rl) then checkQuota now tenant rl0 else (allowed, rl0)) as [q rl1] eqn:Eq.
  assert (limiters rl1 = limiters rl /\ config rl1 = config rl) as [H1 H2].
  { destruct (EnableQuotas (config rl)); [|by injection Eq as _ <-].
    pose proof (checkQuota_limiters now tenant rl0) as H. by rewrite Eq in H. }
  destruct (Allowed q) eqn:Ea; cbn [negb].
  2: { intros [= <- <-]. split; [done|by intros; rewrite H1|]. left. rewrite H1. split; [done|by right]. }
  destruct (limited_by now "tenant" _ _ _ rl1) as [o rl2] eqn:El.
  apply limited_by_allow in El as (ok & Hk & Ho).
  pose proof (allow_key_config now (tenantKey tenant) (TenantRPS (config rl)) (TenantBurst (config rl)) rl1) as [H3 H3'].
  rewrite Hk in H3, H3'. cbn in H3, H3'.
  assert (forall T, tenant ≠ T -> limiters rl2 !! tenantKey T = limiters rl !! tenantKey T) as H4.
  { intros T HT'. rewrite <-H1. eapply allow_key_lookup_ne; [exact Hk|]. intros ->%tenantKey_inj. done. }
  destruct o as [r0|].
  { destruct Ho as (-> & Hr & _). intros [= <- <-]. split; [congruence|done|]. right.
    exists rl1, false, rl2. rewrite Hr. done. }
  subst ok. destruct (String.eqb tool "") eqn:Et; cbn [negb].
  { intros [= <- <-]. split; [congruence|done|]. right. by exists rl1, true, rl2. }
  destruct (limited_by now "tool" _ _ _ rl2) as [o rl3] eqn:El.
  apply limited_by_allow in El as (ok & Hk3 & Ho).
  pose proof (allow_key_config now (toolKey tenant tool) (ToolRPS (config rl)) (ToolBurst (config rl)) rl2) as [H5 _].
  rewrite Hk3 in H5. cbn in H5.
  assert (forall T, limiters rl3 !! tenantKey T = limiters rl2 !! tenantKey T) as H6.
  { intros T. eapply allow_key_lookup_ne; [exact Hk3|]. done. }
  assert (check_stages now tenant tool rl r rl3) as Hst.
  { split; [congruence| |].
    - intros T HT'. by rewrite H6, H4.
    - right. exists rl1, true, rl2. by rewrite H6. }
  destruct o as [r0|]; intros [= <- <-]; exact Hst.
Qed.

Lemma check_spends now tenant tool rl r rl' T :
  let c := config rl in
  0 <= TenantRPS c -> 0 <= TenantBurst c -> T ≠ "" ->
  CheckRateLimit now tenant tool rl = (r, rl') ->
  entries_ok (TenantRPS c) (TenantBurst c) (tenantKey T) now rl ->
  config rl' = c /\ entries_ok (TenantRPS c) (TenantBurst c) (tenantKey T) now rl' /\
  allowance (TenantRPS c) (TenantBurst c) (limiters rl' !! tenantKey T) now
    + second * lets_through T (now, Check_ tenant tool) (Some r)
    <= allowance (TenantRPS c) (TenantBurst c) (limiters rl !! tenantKey T) now.
Proof.
  cbv zeta. intros Hr Hb HT0 Hc Hok. apply check_in_stages in Hc as [H1 H2 H3]. split; [done|].
  unfold lets_through. cbn [snd]. destruct (String.eqb_spec tenant T) as [->|Hne].
  - destruct H3 as [[H3 H4]|(rl1 & ok & rl2 & E1 & E2 & E3 & E4)].
    + split; [intros e; rewrite H3; apply Hok|]. rewrite H3. destruct H4 as [|H4]; [done|].
      rewrite H4. cbn. lia.
    + pose proof (allow_key_spends _ _ _ _ _ _ _ Hr Hb E2) as [G1 G2]; [intros e; rewrite E1; apply Hok|].
      split; [intros e; rewrite E3; apply G1|]. rewrite E3. rewrite E1 in G2. pose proof second_pos.
      destruct (Allowed r); cbn [andb]; [rewrite E4 in G2 by done; lia|destruct ok; lia].
  - split; [intros e; rewrite H2 by done; apply Hok|]. rewrite H2 by done. cbn. lia.
Qed.

Lemma cleanup_limiters now rl key :
  limiters (cleanup now rl) !! key =
  match limiters rl !! key with
  | Some e => if decide (time_sub now (lastAccess e) <= MaxAge (config rl)) then Some e else None
  | None => None
  end.
Proof.
  cbn. rewrite map_lookup_filter. destruct (limiters rl !! key) as [e|]; [|done]. cbn. by case_guard.
Qed.

Lemma op_spends op rl r rl' T :
  let c := config rl in
  0 <= TenantRPS c -> 0 <= TenantBurst c -> 0 <= MaxAge c < max_int64 ->
  TenantBurst c * second <= TenantRPS c * MaxAge c -> T ≠ "" ->
  apply_op op rl = (r, rl') -> entries_ok (TenantRPS c) (TenantBurst c) (tenantKey T) (fst op) rl ->
  config rl' = c /\ entries_ok (TenantRPS c) (TenantBurst c) (tenantKey T) (fst op) rl' /\
  allowance (TenantRPS c) (TenantBurst c) (limiters rl' !! tenantKey T) (fst op) + second * lets_through T op r
    <= allowance (TenantRPS c) (TenantBurst c) (limiters rl !! tenantKey T) (fst op).
Proof.
  cbv zeta. intros Hr Hb Ha Hf HT0. destruct op as [now op]. unfold apply_op. cbn [fst snd]. destruct op as [tenant tool| |tenant l].
  - destruct (CheckRateLimit now tenant tool rl) as [r0 rl0] eqn:E. intros [= <- <-] Hok. by eapply check_spends.
  - intros [= <- <-] Hok. split; [done|]. unfold entries_ok. rewrite cleanup_limiters.
    destruct (limiters rl !! tenantKey T) as [e|] eqn:E; [|split; [done|cbn; lia]].
    destruct (Hok e E) as [Hl Ht]. case_decide as Hd.
    + split; [by intros ? [= <-]|cbn; lia].
    + split; [done|]. assert (MaxAge (config rl) < now - lastAccess e) by (apply (time_sub_gt now (lastAccess e)); [done|lia]).
      pose proof (level_nonneg (limiter e) (lastAccess e)). cbn. nia.
  - intros [= <- <-] Hok. split; [done|]. split; [exact Hok|]. cbn. lia.
Qed.

End bounds.

(** ** Quotas *)

Section quota_bounds.
Context {L : Type} `{HT : !TokenBucket L}.
Implicit Types rl : RateLimiter L.

Lemma allow_key_quotas now key rps burst rl ok rl' :
  allow_key now key rps burst rl = (ok, rl') -> quotas rl' = quotas rl.
Proof. intros H. pose proof (allow_key_config now key rps burst rl) as [_ G]. by rewrite H in G. Qed.

(** A check asks the quota, or leaves it alone and refuses. *)
Lemma check_quotas now tenant tool rl r rl' :
  EnableQuotas (config rl) = true -> tenant ≠ "" -> CheckRateLimit now tenant tool rl = (r, rl') ->
  (quotas rl' = quotas rl /\ LimitType r = "global" /\ Allowed r = false) \/
  (quotas rl' = quotas (snd (checkQuota now tenant rl)) /\ LimitType r ≠ "global" /\
   (Allowed r = true -> Allowed (fst (checkQuota now tenant rl)) = true) /\
   (LimitType r = "tenant" \/ LimitType r = "tool" -> Allowed (fst (checkQuota now tenant rl)) = true)).
Proof.
  intros Hq Ht. unfold CheckRateLimit. destruct (Allow now (globalRL rl)) as [ok g]. destruct ok; cbn [negb].
  2: { intros [= <- <-]. by left. }
  rewrite Hq. destruct (String.eqb_spec tenant ""); [done|]. cbn [negb andb]. rewrite andb_true_r.
  intros H. right. set (rl0 := set_global g rl) in H.
  assert (fst (checkQuota now tenant rl0) = fst (checkQuota now tenant rl) /\
          quotas (snd (checkQuota now tenant rl0)) = quotas (snd (checkQuota now tenant rl))) as [<- <-].
  { unfold checkQuota. cbn. by destruct (_ <=? _). }
  destruct (checkQuota now tenant rl0) as [q rl1] eqn:E. cbn [fst snd].
  assert (LimitType q = "quota") as Hty.
  { unfold checkQuota in E. destruct (_ <=? _) in E; by injection E as <- _. }
  destruct (Allowed q) eqn:Ea; cbn [negb] in H.
  2: { injection H as <- <-. rewrite Hty, Ea. split_and!; [done..|by intros [?|?]]. }
  destruct (limited_by now "tenant" _ _ _ rl1) as [o rl2] eqn:El.
  apply limited_by_allow in El as (ok & Hk & Ho). apply allow_key_quotas in Hk.
  destruct o as [r0|]; [injection H as <- <-; destruct Ho as (_ & _ & ->); done|].
  destruct (String.eqb tool ""); cbn [negb] in H; [injection H as <- <-; done|].
  destruct (limited_by now "tool" _ _ _ rl2) as [o rl3] eqn:El.
  apply limited_by_allow in El as (ok' & Hk' & Ho'). apply allow_key_quotas in Hk'.
  destruct o as [r0|]; injection H as <- <-; (split; [congruence|]); [|done].
  by destruct Ho' as (_ & _ & ->).
Qed.

Definition quota_left (T : string) rl : Z :=
  match quotas rl !! T with Some q => limit q - used q | None => DefaultQuota (config rl) end.

(** Until [R] the quota of [T] is the default and is not renewed. *)
Definition same_period (R : Z) (T : string) (now : Z) rl : Prop :=
  match quotas rl !! T with
  | Some q => limit q = DefaultQuota (config rl) /\ R <= resetAt q
  | None => R <= now + QuotaResetInterval (config rl)
  end.

Definition sets_quota (T : string) (op : Z * limit_op) : bool :=
  match snd op with SetQuota tenant _ => String.eqb tenant T | _ => false end.

Lemma renewed_before now interval q : now <= resetAt q -> renewed now interval q = q.
Proof. unfold renewed, time_after. intros H. by destruct (Z.ltb_spec (resetAt q) now); [lia|]. Qed.

Lemma checkQuota_left R now T rl :
  0 <= QuotaResetInterval (config rl) -> now <= R -> same_period R T now rl ->
  let '(r, rl') := checkQuota now T rl in
  config rl' = config rl /\ same_period R T now rl' /\
  quota_left T rl' + (if Allowed r then 1 else 0) = quota_left T rl /\ (Allowed r = true -> 0 <= quota_left T rl').
Proof.
  intros Hi Hn Hp. unfold checkQuota.
  set (q := default (MkQuota 0 (DefaultQuota (config rl)) (now + QuotaResetInterval (config rl))) (quotas rl !! T)).
  assert (R <= resetAt q /\ limit q = DefaultQuota (config rl) /\ limit q - used q = quota_left T rl) as (H1 & H2 & H3).
  { unfold q, quota_left, same_period in *. destruct (quotas rl !! T) as [q0|]; cbn; [tauto|]. split_and!; [done..|lia]. }
  rewrite renewed_before by lia. destruct (Z.leb_spec (limit q) (used q)); unfold quota_left, same_period in *; cbn;
    rewrite lookup_insert_eq; cbn; split_and!; try done; try lia; intros; lia.
Qed.

Lemma op_quota R op rl r rl' T :
  let c := config rl in
  EnableQuotas c = true -> 0 <= QuotaResetInterval c -> 0 <= MaxAge c < max_int64 -> T ≠ "" ->
  sets_quota T op = false -> fst op <= R -> same_period R T (fst op) rl ->
  apply_op op rl = (r, rl') ->
  config rl' = c /\ same_period R T (fst op) rl' /\
  quota_left T rl' + lets_through T op r <= quota_left T rl /\
  (0 < lets_through T op r -> 0 <= quota_left T rl').
Proof.
  cbv zeta. intros He Hi Ha HT0 Hset Hn Hp. destruct op as [now op]. unfold apply_op. cbn [fst snd] in *.
  destruct op as [tenant tool| |tenant l].
  - destruct (CheckRateLimit now tenant tool rl) as [r0 rl0] eqn:E. intros [= <- <-].
    assert (config rl0 = config rl) as Hc by (by apply check_in_stages in E as [? _ _]).
    unfold lets_through. cbn [snd].
    destruct (decide (tenant = "")) as [->|Ht].
    + assert (quotas rl0 = quotas rl) as Hq.
      { revert E. unfold CheckRateLimit. destruct (Allow now (globalRL rl)) as [[] g]; cbn [negb]; [|by intros [= _ <-]].
        rewrite !andb_false_r. by intros [= _ <-]. }
      destruct (String.eqb_spec "" T) as [|_]; [congruence|]. cbn [andb]. unfold quota_left, same_period in *.
      rewrite Hq, Hc. split_and!; [done..|lia|lia].
    + apply check_quotas in E as [(Hq & _ & Hal)|(Hq & _ & Hal & _)]; [| |done..].
      * rewrite Hal, andb_false_r. unfold quota_left, same_period in *. rewrite Hq, Hc. split_and!; [done..|lia|lia].
      * destruct (String.eqb_spec tenant T) as [->|Hne]; cbn [andb].
        -- pose proof (checkQuota_left R now T rl Hi Hn Hp) as G. destruct (checkQuota now T rl) as [q rl1].
           cbn [fst snd] in *. destruct G as (G1 & G2 & G3 & G4). unfold quota_left, same_period in *.
           rewrite Hq, Hc. rewrite G1 in G2, G3, G4. split_and!; [done..| |].
           ++ destruct (Allowed r0); [rewrite Hal in G3 by done; lia|destruct (Allowed q); lia].
           ++ destruct (Allowed r0); [intros _; apply G4, Hal; done|lia].
        -- assert (quotas rl0 !! T = quotas rl !! T) as Hq'.
           { rewrite Hq. unfold checkQuota. destruct (_ <=? _); cbn; by rewrite lookup_insert_ne. }
           unfold quota_left, same_period in *. rewrite Hq', Hc. split_and!; [done..|lia|lia].
  - intros [= <- <-]. split; [done|]. unfold lets_through. cbn [snd].
    unfold quota_left, same_period in *. cbn [config quotas cleanup]. rewrite lookup_omap.
    destruct (quotas rl !! T) as [q|]; cbn [mbind option_bind]; [|split_and!; [done|lia|lia]].
    destruct Hp as [H1 H2]. rewrite renewed_before by lia.
    destruct (Z.eqb_spec (used q) 0) as [Hu|Hu]; cbn [andb]; [|split_and!; [done..|lia|lia]].
    destruct (Z.ltb_spec (MaxAge (config rl)) (time_sub now (resetAt q - QuotaResetInterval (config rl)))) as [Hd|Hd];
      [|split_and!; [done..|lia|lia]].
    assert (MaxAge (config rl) < now - (resetAt q - QuotaResetInterval (config rl))) by (apply time_sub_gt; [done|lia]).
    split_and!; lia.
  - intros [= <- <-]. cbn in Hset. apply String.eqb_neq in Hset. split; [done|]. unfold lets_through. cbn [snd].
    unfold quota_left, same_period, SetTenantQuota in *. cbn. rewrite lookup_insert_ne by done. split_and!; [done|lia|lia].
Qed.

Lemma same_period_later R T t u rl : t <= u -> same_period R T t rl -> same_period R T u rl.
Proof. unfold same_period. intros H. destruct (quotas rl !! T); [done|lia]. Qed.

(** Until the quota of a tenant is renewed, the tenant is let through at most as often as
    the quota leaves, however often the clean-up runs; an idle quota that is forgotten comes
    back as it was. *)
Theorem quota_bound ops rl n rl' t u T :
  let c := config rl in
  EnableQuotas c = true -> 0 <= QuotaResetInterval c -> 0 <= MaxAge c < max_int64 -> T ≠ "" ->
  Forall (λ op, sets_quota T op = false) ops -> in_order t u ops -> same_period u T t rl ->
  let_through T ops rl = (n, rl') -> n <= Z.max 0 (quota_left T rl).
Proof.
  cbv zeta. intros He Hi Ha HT0. revert rl n rl' t He Hi Ha.
  induction ops as [|op ops IH]; intros rl n rl' t He Hi Ha Hset Hin Hp Hrun.
  - injection Hrun as <- _. lia.
  - cbn in Hrun, Hin. destruct Hin as [Ht Hin]. inversion_clear Hset as [|? ? Hs Hset'].
    destruct (apply_op op rl) as [r rl1] eqn:E. destruct (let_through T ops rl1) as [m rl2] eqn:E2. injection Hrun as <- <-.
    pose proof (in_order_le _ _ _ Hin).
    destruct (op_quota u op rl r rl1 T He Hi Ha HT0 Hs) as (G1 & G2 & G3 & G4); [lia|by eapply same_period_later|done|].
    rewrite <-G1 in He, Hi, Ha. specialize (IH rl1 m rl2 (fst op) He Hi Ha Hset' Hin G2 E2).
    assert (lets_through T op r = 0 \/ lets_through T op r = 1) as [Hl|Hl].
    { unfold lets_through. destruct (snd op), r as [r|]; auto. destruct (_ && _); auto. }
    + lia.
    + assert (0 <= quota_left T rl1) by (apply G4; lia). lia.
Qed.

(** A request that the limiter of its tenant or of its tool refuses has used the quota up by
    one all the same. *)
Theorem refused_requests_spend_quota now tenant tool rl r rl' q :
  EnableQuotas (config rl) = true -> tenant ≠ "" -> quotas rl !! tenant = Some q -> now <= resetAt q ->
  CheckRateLimit now tenant tool rl = (r, rl') -> LimitType r = "tenant" \/ LimitType r = "tool" ->
  quotas rl' !! tenant = Some (MkQuota (used q + 1) (limit q) (resetAt q)).
Proof.
  intros He Ht Hq Hn Hc Hty. apply check_quotas in Hc as [(_ & Hg & _)|(Hq' & _ & _ & Hal)]; [| |done..].
  { rewrite Hg in Hty. by destruct Hty. }
  rewrite Hq'. specialize (Hal Hty). unfold checkQuota in *. rewrite Hq in *. cbn [default from_option id] in *.
  rewrite renewed_before in * by done. destruct (limit q <=? used q); [done|]. cbn. by rewrite lookup_insert_eq.
Qed.

(** A quota set for a tenant that makes no request is forgotten by the clean-up after
    [MaxAge], long before it is due for renewal. *)
Theorem custom_quota_forgotten now later tenant l rl :
  let c := config rl in
  quotas rl !! tenant = None -> 0 <= MaxAge c < max_int64 ->
  MaxAge c < later - now -> later <= now + QuotaResetInterval c ->
  fst (fst (GetTenantQuota now tenant (SetTenantQuota now tenant l rl))) = 0 /\
  snd (fst (GetTenantQuota now tenant (SetTenantQuota now tenant l rl))) = l /\
  snd (fst (GetTenantQuota later tenant (cleanup later (SetTenantQuota now tenant l rl)))) = DefaultQuota c.
Proof.
  cbv zeta. intros Hn Ha Hm Hl. unfold GetTenantQuota, SetTenantQuota. cbn. rewrite Hn, lookup_insert_eq. cbn.
  rewrite lookup_omap, lookup_insert_eq. cbn [mbind option_bind]. rewrite renewed_before by done. cbn.
  replace (now + QuotaResetInterval (config rl) - QuotaResetInterval (config rl)) with now by lia.
  assert (MaxAge (config rl) < time_sub later now) as H by (apply time_sub_gt; lia).
  apply Z.ltb_lt in H. by rewrite H.
Qed.
End quota_bounds.

(** ** A bucket of whole tokens, for witnesses *)

Record bucket := MkBucket { rate : Z; burst_ : Z; held : Z; last_ : Z }.
Definition bucket_level (l : bucket) (t : Z) : Z :=
  Z.max 0 (Z.min (burst_ l * second) (held l + rate l * Z.max 0 (t - last_ l))).

#[local] Instance bucket_ops : TokenBucket bucket := {
  NewLimiter rps burst := MkBucket rps burst (burst * second) 0;
  Allow t l :=
    let n := bucket_level l t in
    if second <=? n then (true, MkBucket (rate l) (burst_ l) (n - second) (Z.max (last_ l) t))
    else (false, MkBucket (rate l) (burst_ l) n (Z.max (last_ l) t));
  Tokens t l := f64_div (f64_of_Z (bucket_level l t)) (f64_of_Z second);
}.

#[local] Instance bucket_laws : TokenBucketLaws bucket.
Proof.
  refine {| is_limiter rps burst l := rate l = rps /\ burst_ l = burst /\ 0 <= rps /\ 0 <= burst; level := bucket_level |}.
  - intros rps burst Hr Hb. done.
  - intros l t. unfold bucket_level. lia.
  - unfold bucket_level. intros rps burst l t (_ & -> & _ & Hb). pose proof second_pos. nia.
  - unfold bucket_level. intros rps burst l t u (-> & -> & Hr & Hb) Ht. nia.
  - intros rps burst l t (? & ? & ? & ?). cbn. by destruct (second <=? bucket_level l t).
  - intros rps burst l t (Hrt & Hbt & Hr & Hb). cbn.
    assert (forall n, 0 <= n -> bucket_level (MkBucket (rate l) (burst_ l) n (Z.max (last_ l) t)) t <= n) as H.
    { intros n Hn. unfold bucket_level. cbn. replace (Z.max 0 (t - Z.max (last_ l) t)) with 0 by lia. lia. }
    destruct (Z.leb_spec second (bucket_level l t)); cbn [fst snd].
    + specialize (H (bucket_level l t - second)). lia.
    + assert (0 <= bucket_level l t) as Hp by (unfold bucket_level; lia). specialize (H _ Hp). lia.
Qed.

(** Two requests a second, three at once; a quota of five. *)
Definition small_config : RateLimitConfig :=
  MkConfig 100 100 2 3 2 3 true (10 * minute) 5 minute (2 * second).
Definition small_limiter : RateLimiter bucket := NewRateLimiter small_config.
Definition burst_of_requests : list (Z * limit_op) :=
  [(0, Check_ "acme" ""); (0, Check_ "acme" ""); (0, Check_ "acme" ""); (0, Check_ "acme" "");
   (second, Check_ "acme" "t"); (4 * second, Cleanup); (5 * second, Check_ "acme" "t"); (5 * second, Check_ "acme" "t")].

Example small_history : fst (let_through "acme" burst_of_requests small_limiter) = 4.
Proof. vm_compute. reflexivity. Qed.


Lemma quota_bound_witness : fst (let_through "acme" burst_of_requests small_limiter) <= 5.
Proof.
  apply (quota_bound burst_of_requests small_limiter _
    (snd (let_through "acme" burst_of_requests small_limiter)) 0 (5 * second) "acme").
  - reflexivity.
  - vm_compute. discriminate.
  - split; vm_compute; [discriminate|reflexivity].
  - discriminate.
  - repeat constructor.
  - cbn. unfold second, millisecond. lia.
  - vm_compute. discriminate.
  - vm_compute. reflexivity.
Defined.

Definition after_three : RateLimiter bucket := snd (let_through "acme" (take 3 burst_of_requests) small_limiter).

(** The quota has gone down although the fourth request was refused. *)
Lemma refused_requests_spend_quota_witness :
  let '(r, rl) := CheckRateLimit 0 "acme" "" after_three in
  Allowed r = false /\ quotas rl !! "acme" = Some (MkQuota 4 5 (10 * minute)).
Proof.
  destruct (CheckRateLimit 0 "acme" "" after_three) as [r rl] eqn:E.
  assert (r = fst (CheckRateLimit 0 "acme" "" after_three)) as Hr by (by rewrite E).
  split; [rewrite Hr; vm_compute; reflexivity|].
  apply (refused_requests_spend_quota 0 "acme" "" after_three r rl (MkQuota 3 5 (10 * minute))).
  - reflexivity.
  - discriminate.
  - vm_compute. reflexivity.
  - vm_compute. discriminate.
  - exact E.
  - left. rewrite Hr. vm_compute. reflexivity.
Defined.

Lemma custom_quota_forgotten_witness :
  snd (fst (GetTenantQuota (3 * second) "acme" (cleanup (3 * second) (SetTenantQuota 0 "acme" 1000 small_limiter)))) = 5.
Proof.
  apply (custom_quota_forgotten 0 (3 * second) "acme" 1000 small_limiter);
    [reflexivity|split; vm_compute; [discriminate|reflexivity]|reflexivity|vm_compute; discriminate].
Defined.

(** A refusal by the quota says when it ends in [quota_reset_at] only; [reset_at] is the year
    one. *)
Example quota_refusal_reset_at :
  let rl := snd (checkQuota 0 "acme" (SetTenantQuota 0 "acme" 0 small_limiter)) in
  CreateRateLimitError (fst (checkQuota 0 "acme" rl)) !! "reset_at" = Some (AInt64 (-62135596800)).
Proof. vm_compute. reflexivity. Qed.

(** Two tools of two tenants can share a limiter. *)
Example shared_tool_limiter : toolKey "a:b" "c" = toolKey "a" "b:c".
Proof. reflexivity. Qed.
