(* ===== verification/EdgeValidation.v ===== *)
(** * EdgeValidation: validation of what clients of the edge server send

    The file [apps/edge-mcp/internal/validation/validator.go] but for its logging.  The
    regular expressions are character classes; JSON schemas are checked by a library, which
    is an argument. *)

From stdpp Require Import base decidable gmap strings list.
From Stdlib Require Import ZArith Lia.
From S2P Require Import Prelude GoStrings Utf8 GoParse GoAny UnicodeText Json McpErrors.

Local Open Scope string_scope.
Local Open Scope Z_scope.

Record Config := MkConfig {
  MaxParamsSize : Z;
  MaxToolNameLen : Z;
  StrictValidation : bool;
}.
Definition DefaultConfig : Config := MkConfig (1024 * 1024) 256 true.

Record ValidationError := Invalid {
  Field : string;
  invalid_Message : string;
  invalid_Code : string;
}.

Definition ValidationError_Error (e : ValidationError) : string :=
  "validation error in field '" +:+ Field e +:+ "': " +:+ invalid_Message e.

Definition valid : Type := result ValidationError unit.
Definition fails (field message code : string) : valid := Err (Invalid field message code).

(** ** Names *)

(** [unicode.IsControl]. *)
Definition IsControl (r : Z) : bool := between 0 0x1F r || between 0x7F 0x9F r.
Definition alphanumeric (r : Z) : bool := between 48 57 r || between 65 90 r || between 97 122 r.
(** The classes [\$a-zA-Z0-9/_.-] and [a-zA-Z0-9_:.-]. *)
Definition method_rune (r : Z) : bool := alphanumeric r || bool_decide (r ∈ [36; 47; 95; 46; 45]).
Definition tool_rune (r : Z) : bool := alphanumeric r || bool_decide (r ∈ [95; 58; 46; 45]).

Definition ValidateMethodName (method : string) : valid :=
  if len method =? 0 then fails "method" "cannot be empty" "EMPTY_METHOD_NAME"
  else if 128 <? len method then fails "method" "exceeds maximum length of 128 characters" "METHOD_NAME_TOO_LONG"
  else if existsb IsControl (runes method) then fails "method" "contains control characters" "METHOD_CONTAINS_CONTROL_CHARS"
  else if negb (forallb method_rune (runes method)) then
    fails "method" "contains invalid characters (allowed: alphanumeric, /, $, _, ., -)" "INVALID_METHOD_FORMAT"
  else Ok ().

Definition ValidateToolName (v : Config) (toolName : string) : valid :=
  if len toolName =? 0 then fails "name" "tool name cannot be empty" "EMPTY_TOOL_NAME"
  else if MaxToolNameLen v <? len toolName then
    fails "name" ("tool name exceeds maximum length of " +:+ itoa (MaxToolNameLen v) +:+ " characters") "TOOL_NAME_TOO_LONG"
  else if existsb IsControl (runes toolName) then
    fails "name" "tool name contains control characters" "TOOL_NAME_CONTAINS_CONTROL_CHARS"
  else if negb (forallb tool_rune (runes toolName)) then
    fails "name" "tool name contains invalid characters (allowed: alphanumeric, _, -, ., :)" "INVALID_TOOL_NAME_FORMAT"
  else Ok ().

Definition supportedVersions : list string := ["2024-11-05"; "2025-03-26"; "2025-06-18"].
Definition ValidateMCPProtocolVersion (version : string) : valid :=
  if existsb (String.eqb version) supportedVersions then Ok ()
  else fails "protocolVersion" ("unsupported version '" +:+ version +:+ "', supported: " +:+ brackets supportedVersions)
         "UNSUPPORTED_PROTOCOL_VERSION".

(** ** Messages *)

Definition validateJSONRPCID (id : any) : valid :=
  match id with
  | AString _ | AFloat _ | AInt _ | AInt64 _ | ANil => Ok ()
  | _ => fails "id" "must be a string, number, or null" "INVALID_ID_TYPE"
  end.

(** [marshal] is [json.Marshal]: the text of the value or that of an error.  A message holds
    no [json.RawMessage] when it comes from a decoder. *)
Definition validateJSONRPCParams (marshal : any -> result string string) (v : Config) (params : any) : valid :=
  match params with
  | AMap _ | AList _ =>
      match marshal params with
      | Err e => fails "params" ("failed to serialize: " +:+ e) "INVALID_PARAMS_FORMAT"
      | Ok text =>
          if MaxParamsSize v <? len text then
            fails "params" ("size exceeds maximum of " +:+ itoa (MaxParamsSize v) +:+ " bytes") "PARAMS_TOO_LARGE"
          else Ok ()
      end
  | _ => fails "params" "must be an object or array" "INVALID_PARAMS_TYPE"
  end.

Definition if_present (msg : gmap string any) (k : string) (f : any -> valid) : valid :=
  match msg !! k with Some x => f x | None => Ok () end.

Definition validateJSONRPCRequest (marshal : any -> result string string) (v : Config) (msg : gmap string any)
    (method : any) : valid :=
  match as_string method with
  | None => fails "method" "must be a string" "INVALID_METHOD_TYPE"
  | Some methodStr =>
      if String.eqb methodStr "" then fails "method" "cannot be empty" "EMPTY_METHOD"
      else ValidateMethodName methodStr ≫= λ _, if_present msg "id" validateJSONRPCID ≫= λ _,
        if_present msg "params" (validateJSONRPCParams marshal v)
  end.

Definition validateJSONRPCResponse (msg : gmap string any) : valid :=
  match msg !! "id" with
  | None => fails "id" "is required for responses" "MISSING_RESPONSE_ID"
  | Some id => validateJSONRPCID id
  end.

Definition validateJSONRPCErrorResponse (msg : gmap string any) : valid :=
  match msg !! "id" with
  | None => fails "id" "is required for error responses" "MISSING_ERROR_ID"
  | Some id =>
      validateJSONRPCID id ≫= λ _,
      match as_map (field msg "error") with
      | None => fails "error" "must be an object" "INVALID_ERROR_TYPE"
      | Some errObj =>
          match errObj !! "code", errObj !! "message" with
          | None, _ => fails "error.code" "is required" "MISSING_ERROR_CODE"
          | _, None => fails "error.message" "is required" "MISSING_ERROR_MESSAGE"
          | _, _ => Ok ()
          end
      end
  end.

Definition ValidateJSONRPCMessage (marshal : any -> result string string) (v : Config) (msg : gmap string any) : valid :=
  match as_string (field msg "jsonrpc") with
  | None => fails "jsonrpc" "field is required and must be a string" "MISSING_JSONRPC_VERSION"
  | Some jsonrpc =>
      if negb (String.eqb jsonrpc "2.0") then
        fails "jsonrpc" ("must be '2.0', got '" +:+ jsonrpc +:+ "'") "INVALID_JSONRPC_VERSION"
      else
        match msg !! "method", msg !! "result", msg !! "error" with
        | Some method, _, _ => validateJSONRPCRequest marshal v msg method
        | None, Some _, _ => validateJSONRPCResponse msg
        | None, None, Some _ => validateJSONRPCErrorResponse msg
        | None, None, None =>
            fails "method/result/error" "message must contain either 'method', 'result', or 'error' field"
              "INVALID_MESSAGE_TYPE"
        end
  end.

Definition required_text (name : string) (upper : string) (max : Z) (info : gmap string any) : valid :=
  let field_ := "clientInfo." +:+ name in
  match info !! name with
  | None => fails field_ "is required" ("MISSING_CLIENT_" +:+ upper)
  | Some v =>
      match as_string v with
      | None => fails field_ "must be a string" ("INVALID_CLIENT_" +:+ upper +:+ "_TYPE")
      | Some s =>
          if len s =? 0 then fails field_ "cannot be empty" ("EMPTY_CLIENT_" +:+ upper)
          else if max <? len s then
            fails field_ ("exceeds maximum length of " +:+ itoa max +:+ " characters") ("CLIENT_" +:+ upper +:+ "_TOO_LONG")
          else Ok ()
      end
  end.

Definition ValidateClientInfo (clientInfo : gmap string any) : valid :=
  required_text "name" "NAME" 256 clientInfo ≫= λ _, required_text "version" "VERSION" 128 clientInfo.

(** [json.Unmarshal] and [gojsonschema.Validate] of the arguments, which are text: the error
    of the first, the error of the second or the errors it found. *)
Definition ValidateToolArguments (decode_error : string -> option string)
    (schema_errors : gmap string any -> string -> result string (list string))
    (arguments : string) (schema : gmap string any) : valid :=
  if bool_decide (schema = ∅) then
    match decode_error arguments with
    | Some e => fails "arguments" ("invalid JSON: " +:+ e) "INVALID_ARGUMENTS_JSON"
    | None => Ok ()
    end
  else
    match schema_errors schema arguments with
    | Err e => fails "arguments" ("schema validation error: " +:+ e) "SCHEMA_VALIDATION_ERROR"
    | Ok [] => Ok ()
    | Ok errs => fails "arguments" ("schema validation failed: " +:+ Join errs "; ") "ARGUMENTS_SCHEMA_MISMATCH"
    end.

Definition SanitizeString (input : string) : string :=
  TrimSpace (string_of_runes (filter (λ r, negb (IsControl r) || (r =? 10) || (r =? 13) || (r =? 9) = true) (runes input))).

(** ** Errors *)

(** An error of this package, or another one by its text. *)
Definition ToErrorResponse (err : ValidationError + string) (operation : string) : ErrorResponse :=
  let response code message details metadata :=
    MkError code message details CategoryValidation SeverityWarning zero_time "" operation "" "" None [] "" "" [] []
      (Some (MkStrategy false 0 "" 0 0 "")) None None metadata [] None in
  match err with
  | inl ve =>
      response (invalid_Code ve) ("Validation failed: " +:+ invalid_Message ve) ("Field: " +:+ Field ve)
        {["field" := AString (Field ve)]}
  | inr text => response ErrorCodeValidation ("Validation failed: " +:+ text) "" ∅
  end.

(** ** Names are ASCII *)

Lemma method_rune_ascii r : method_rune r = true -> r < 0x80 /\ IsControl r = false.
Proof.
  unfold method_rune, alphanumeric, IsControl. rewrite !orb_true_iff, !between_true, bool_decide_eq_true, orb_false_iff, !between_false.
  intros [[[?|?]|?]|Hin]; [lia..|]. repeat (apply elem_of_cons in Hin as [->|Hin]; [lia|]). by apply elem_of_nil in Hin.
Qed.
Lemma tool_rune_ascii r : tool_rune r = true -> r < 0x80 /\ IsControl r = false.
Proof.
  unfold tool_rune, alphanumeric, IsControl. rewrite !orb_true_iff, !between_true, bool_decide_eq_true, orb_false_iff, !between_false.
  intros [[[?|?]|?]|Hin]; [lia..|]. repeat (apply elem_of_cons in Hin as [->|Hin]; [lia|]). by apply elem_of_nil in Hin.
Qed.

Definition all_bytes (p : Z -> bool) (s : string) : Prop := Forall (λ b, p b = true) (bytes_of s).

(** A class of ASCII characters is checked byte by byte. *)
Lemma class_bytes p s :
  (forall r, p r = true -> r < 0x80 /\ IsControl r = false) ->
  existsb IsControl (runes s) = false /\ forallb p (runes s) = true <-> all_bytes p s.
Proof.
  intros Hp. unfold all_bytes. split.
  - intros [_ H]. rewrite forallb_forall in H.
    rewrite <-runes_ascii; [by apply Forall_forall; intros x Hx%list_elem_of_In; apply H|].
    apply Forall_forall. intros x Hx%list_elem_of_In. by apply Hp, H.
  - intros H.
    assert (runes s = bytes_of s) as ->.
    { rewrite <-(string_of_bytes_of s) at 1. rewrite <-(runes_string_of_runes (bytes_of s)) at 2.
      - unfold string_of_runes. do 2 f_equal. clear -H Hp. pose proof (bytes_of_range s) as Hr. revert H Hr.
        generalize (bytes_of s). induction l as [|b l IH]; [done|]. intros [Hb H]%Forall_cons [Hb0 Hr]%Forall_cons.
        apply Hp in Hb as [Hb _]. change ((b :: l) ≫= encode_rune) with (encode_rune b ++ (l ≫= encode_rune))%list.
        unfold encode_rune at 1. rewrite valid_in by lia. simpl. destruct (Z.ltb_spec b 128); [|lia]. cbn. f_equal. by apply IH.
      - pose proof (bytes_of_range s) as Hr. revert H Hr. generalize (bytes_of s). induction l as [|b l IH]; [constructor|].
        intros [Hb H]%Forall_cons [Hb0 Hr]%Forall_cons. apply Hp in Hb as [Hb _]. constructor; [apply valid_in; lia|by apply IH]. }
    split.
    + apply not_true_iff_false. intros (x & Hx & Hc)%existsb_exists. rewrite Forall_forall in H.
      apply list_elem_of_In in Hx. apply H in Hx. apply Hp in Hx as [_ Hx]. congruence.
    + apply forallb_forall. intros x Hx%list_elem_of_In. rewrite Forall_forall in H. by apply H.
Qed.

Definition method_ok (m : string) : Prop := 0 < len m <= 128 /\ all_bytes method_rune m.
Definition tool_name_ok (v : Config) (n : string) : Prop := 0 < len n <= MaxToolNameLen v /\ all_bytes tool_rune n.

Lemma checks_ok (s : string) (max : Z) (p : Z -> bool) (e1 e2 e3 e4 : valid) :
  (forall r, p r = true -> r < 0x80 /\ IsControl r = false) ->
  e1 ≠ Ok () -> e2 ≠ Ok () -> e3 ≠ Ok () -> e4 ≠ Ok () ->
  (if len s =? 0 then e1 else if max <? len s then e2 else if existsb IsControl (runes s) then e3
   else if negb (forallb p (runes s)) then e4 else Ok ()) = Ok () <-> 0 < len s <= max /\ all_bytes p s.
Proof.
  intros Hp ? ? ? ?. rewrite <-(class_bytes p s Hp). pose proof (len_nonneg s).
  destruct (Z.eqb_spec (len s) 0), (Z.ltb_spec max (len s)), (existsb IsControl (runes s)), (forallb p (runes s)); cbn; split;
    try done; try lia; intros [? [? ?]]; try done; lia.
Qed.

Lemma method_name_valid m : ValidateMethodName m = Ok () <-> method_ok m.
Proof. by apply checks_ok; [apply method_rune_ascii|..]. Qed.
Lemma tool_name_valid v n : ValidateToolName v n = Ok () <-> tool_name_ok v n.
Proof. by apply checks_ok; [apply tool_rune_ascii|..]. Qed.

(** ** Messages of JSON-RPC 2.0 *)

Section messages.
Context (marshal : any -> result string string) (v : Config).

Definition id_ok (id : any) : Prop :=
  id = ANil \/ (exists s, id = AString s) \/ (exists f, id = AFloat f) \/ (exists z, id = AInt z \/ id = AInt64 z).
Definition params_ok (p : any) : Prop :=
  ((exists m, p = AMap m) \/ exists l, p = AList l) /\ exists text, marshal p = Ok text /\ len text <= MaxParamsSize v.

Definition request_ok (msg : gmap string any) (method : any) : Prop :=
  (exists m, method = AString m /\ method_ok m) /\
  (forall id, msg !! "id" = Some id -> id_ok id) /\ (forall p, msg !! "params" = Some p -> params_ok p).
Definition response_ok (msg : gmap string any) : Prop := exists id, msg !! "id" = Some id /\ id_ok id.
Definition error_response_ok (msg : gmap string any) : Prop :=
  response_ok msg /\ exists e, msg !! "error" = Some (AMap e) /\ is_Some (e !! "code") /\ is_Some (e !! "message").

(** A message is a request if it has a method, else a response if it has a result, else the
    response of an error. *)
Definition message_ok (msg : gmap string any) : Prop :=
  msg !! "jsonrpc" = Some (AString "2.0") /\
  ((exists method, msg !! "method" = Some method /\ request_ok msg method) \/
   (msg !! "method" = None /\ is_Some (msg !! "result") /\ response_ok msg) \/
   (msg !! "method" = None /\ msg !! "result" = None /\ error_response_ok msg)).

Lemma bind_unit (m m' : valid) : m ≫= (λ _, m') = Ok () <-> m = Ok () /\ m' = Ok ().
Proof. destruct m as [[]|]; simpl; naive_solver. Qed.

Lemma id_valid id : validateJSONRPCID id = Ok () <-> id_ok id.
Proof. unfold id_ok. destruct id; simpl; naive_solver. Qed.

Lemma params_valid p : validateJSONRPCParams marshal v p = Ok () <-> params_ok p.
Proof.
  unfold params_ok, validateJSONRPCParams.
  assert (forall e : valid, e ≠ Ok () -> (forall x, (match marshal p with Err x => fails "params" ("failed to serialize: " +:+ x) "INVALID_PARAMS_FORMAT"
    | Ok text => if MaxParamsSize v <? len text then e else Ok () end) = Ok x <->
    exists text, marshal p = Ok text /\ len text <= MaxParamsSize v)) as H.
  { intros e He []. destruct (marshal p) as [text|]; [|naive_solver].
    destruct (Z.ltb_spec (MaxParamsSize v) (len text)); split; try done; [|by exists text].
    intros (t & [= <-] & ?). lia. }
  destruct p; try (split; [done|naive_solver]); rewrite H by done; naive_solver.
Qed.

Lemma present_valid msg k f (P : any -> Prop) :
  (forall x, f x = Ok () <-> P x) -> if_present msg k f = Ok () <-> forall x, msg !! k = Some x -> P x.
Proof. intros Hf. unfold if_present. destruct (msg !! k); naive_solver. Qed.

Lemma request_valid msg method : validateJSONRPCRequest marshal v msg method = Ok () <-> request_ok msg method.
Proof.
  unfold validateJSONRPCRequest, request_ok. destruct method as [| | | | | | |m| | | | | |]; cbn [as_string]; try (split; [done|naive_solver]).
  destruct (String.eqb_spec m "") as [->|Hm].
  - split; [done|]. intros [(m & [= <-] & [[H _] _]) _]. by cbv in H.
  - rewrite !bind_unit, method_name_valid, (present_valid _ _ _ _ id_valid), (present_valid _ _ _ _ params_valid). naive_solver.
Qed.

Lemma response_valid msg : validateJSONRPCResponse msg = Ok () <-> response_ok msg.
Proof. unfold validateJSONRPCResponse, response_ok. destruct (msg !! "id"); rewrite ?id_valid; naive_solver. Qed.

Lemma error_response_valid msg : validateJSONRPCErrorResponse msg = Ok () <-> error_response_ok msg.
Proof.
  unfold validateJSONRPCErrorResponse, error_response_ok, response_ok. destruct (msg !! "id") as [id|]; [|naive_solver].
  rewrite bind_unit, id_valid. unfold field, get. destruct (msg !! "error") as [e|]; [|cbn; naive_solver].
  destruct e; cbn [from_option Datatypes.id as_map]; try naive_solver.
  split.
  - intros [Hid H]. split; [by exists id|]. exists m. split; [done|]. revert H. by repeat case_match.
  - intros [(? & [= <-] & Hid) (e & [= <-] & [c Hc] & [t Ht])]. split; [done|].
    by repeat case_match.
Qed.
End messages.

(** [ValidateJSONRPCMessage] accepts exactly the messages of JSON-RPC 2.0 of which the
    method is one to 128 of the allowed characters, the parameters are an object or an array
    within the limit, and the identifier is a text, a number or null. *)
Theorem message_accepted marshal v msg : ValidateJSONRPCMessage marshal v msg = Ok () <-> message_ok marshal v msg.
Proof.
  unfold ValidateJSONRPCMessage, message_ok, field, get. destruct (msg !! "jsonrpc") as [j|]; [|cbn; naive_solver].
  destruct j as [| | | | | | |s| | | | | |]; cbn [from_option Datatypes.id as_string]; try (split; [done|naive_solver]).
  destruct (String.eqb_spec s "2.0") as [->|Hs]; cbn [negb]; [|split; [done|naive_solver]].
  destruct (msg !! "method") as [m|] eqn:Hm; [rewrite request_valid; naive_solver|].
  destruct (msg !! "result") as [r|] eqn:Hr; [rewrite response_valid; naive_solver|].
  destruct (msg !! "error") as [e|] eqn:He; [rewrite error_response_valid; naive_solver|].
  split; [done|]. intros [_ [(? & ? & _)|[(_ & [? ?] & _)|(_ & _ & _ & e & ? & _)]]]; congruence.
Qed.

(** ** What clients are told *)

(** The codes of the errors of this package. *)
Definition own_codes : list string := [
  "MISSING_JSONRPC_VERSION"; "INVALID_JSONRPC_VERSION"; "INVALID_MESSAGE_TYPE"; "INVALID_METHOD_TYPE"; "EMPTY_METHOD";
  "MISSING_RESPONSE_ID"; "MISSING_ERROR_ID"; "INVALID_ERROR_TYPE"; "MISSING_ERROR_CODE"; "MISSING_ERROR_MESSAGE";
  "INVALID_ID_TYPE"; "INVALID_PARAMS_FORMAT"; "PARAMS_TOO_LARGE"; "INVALID_PARAMS_TYPE"; "EMPTY_METHOD_NAME";
  "METHOD_NAME_TOO_LONG"; "METHOD_CONTAINS_CONTROL_CHARS"; "INVALID_METHOD_FORMAT"; "UNSUPPORTED_PROTOCOL_VERSION";
  "EMPTY_TOOL_NAME"; "TOOL_NAME_TOO_LONG"; "TOOL_NAME_CONTAINS_CONTROL_CHARS"; "INVALID_TOOL_NAME_FORMAT";
  "INVALID_ARGUMENTS_JSON"; "SCHEMA_VALIDATION_ERROR"; "ARGUMENTS_SCHEMA_MISMATCH"; "MISSING_CLIENT_NAME";
  "INVALID_CLIENT_NAME_TYPE"; "EMPTY_CLIENT_NAME"; "CLIENT_NAME_TOO_LONG"; "MISSING_CLIENT_VERSION";
  "INVALID_CLIENT_VERSION_TYPE"; "EMPTY_CLIENT_VERSION"; "CLIENT_VERSION_TOO_LONG"].

Definition own_code (x : valid) : Prop := match x with Err e => invalid_Code e ∈ own_codes | Ok _ => True end.

Lemma own_fails f m c : bool_decide (c ∈ own_codes) = true -> own_code (fails f m c).
Proof. exact (bool_decide_eq_true_1 _). Qed.
Lemma own_ok : own_code (Ok ()).
Proof. done. Qed.
Lemma own_bind (m m' : valid) : own_code m -> own_code m' -> own_code (m ≫= λ _, m').
Proof. by destruct m. Qed.
#[local] Hint Resolve own_ok own_bind : own.
#[local] Hint Extern 1 (own_code (fails _ _ _)) => apply own_fails; reflexivity : own.
Ltac own_cases := repeat case_match; auto with own.

Lemma own_method m : own_code (ValidateMethodName m).
Proof. unfold ValidateMethodName. own_cases. Qed.
Lemma own_tool v n : own_code (ValidateToolName v n).
Proof. unfold ValidateToolName. own_cases. Qed.
Lemma own_version s : own_code (ValidateMCPProtocolVersion s).
Proof. unfold ValidateMCPProtocolVersion. own_cases. Qed.
Lemma own_id id : own_code (validateJSONRPCID id).
Proof. unfold validateJSONRPCID. own_cases. Qed.
Lemma own_params marshal v p : own_code (validateJSONRPCParams marshal v p).
Proof. unfold validateJSONRPCParams. own_cases. Qed.
Lemma own_present msg k f : (forall x, own_code (f x)) -> own_code (if_present msg k f).
Proof. intros H. unfold if_present. own_cases. Qed.
#[local] Hint Resolve own_method own_id own_params own_present : own.
Lemma own_message marshal v msg : own_code (ValidateJSONRPCMessage marshal v msg).
Proof.
  unfold ValidateJSONRPCMessage, validateJSONRPCRequest, validateJSONRPCResponse, validateJSONRPCErrorResponse.
  repeat case_match; auto with own. all: apply own_bind; auto with own; own_cases.
Qed.
Lemma own_client info : own_code (ValidateClientInfo info).
Proof. unfold ValidateClientInfo, required_text. apply own_bind; own_cases. Qed.
Lemma own_arguments d f a s : own_code (ValidateToolArguments d f a s).
Proof. unfold ValidateToolArguments. own_cases. Qed.

(** Some check of the package refused its input with this error. *)
Inductive refused (e : ValidationError) : Prop :=
| refused_message marshal v msg : ValidateJSONRPCMessage marshal v msg = Err e -> refused e
| refused_method m : ValidateMethodName m = Err e -> refused e
| refused_tool v n : ValidateToolName v n = Err e -> refused e
| refused_version s : ValidateMCPProtocolVersion s = Err e -> refused e
| refused_client info : ValidateClientInfo info = Err e -> refused e
| refused_arguments d f a s : ValidateToolArguments d f a s = Err e -> refused e.

Lemma refused_own e : refused e -> invalid_Code e ∈ own_codes.
Proof.
  intros H. change (own_code (Err e)).
  destruct H as [m v msg <-|m <-|v n <-|s <-|i <-|d f a s <-];
    auto using own_message, own_method, own_tool, own_version, own_client, own_arguments.
Qed.

(** Whatever a check of the package refuses, the client is told of an internal error
    (-32603) and not of invalid parameters (-32602), for the codes of the package are not
    those that the errors of JSON-RPC are derived from. *)
Theorem invalid_input_misreported e operation : refused e -> mcp_Code (ToMCPError (ToErrorResponse (inl e) operation)) = -32603.
Proof.
  intros H%refused_own. cbn. apply rpc_code_other. intros Hin.
  assert (Forall (λ c, c ∉ own_codes) [ErrorCodeProtocolError; ErrorCodeVersionMismatch; ErrorCodeParsingError; ErrorCodeValidation;
    ErrorCodeInvalidInput; ErrorCodeMissingParameter; ErrorCodeAuthFailed; ErrorCodeUnauthorized; ErrorCodeTokenExpired;
    ErrorCodeNotFound; ErrorCodeRateLimit; ErrorCodeQuotaExceeded; ErrorCodeTimeout; ErrorCodeInvalidOperation]) as Hf.
  { apply (bool_decide_eq_true_1 _). vm_compute. reflexivity. }
  rewrite Forall_forall in Hf. by apply (Hf _ Hin).
Qed.

(** A tool name with a blank. *)
Definition blank_name : ValidationError :=
  Invalid "name" "tool name contains invalid characters (allowed: alphanumeric, _, -, ., :)" "INVALID_TOOL_NAME_FORMAT".
Theorem invalid_input_misreported_witness :
  refused blank_name /\ mcp_Code (ToMCPError (ToErrorResponse (inl blank_name) "tools/call")) = -32603.
Proof.
  assert (refused blank_name) as H by (by apply (refused_tool _ DefaultConfig "list repos")).
  split; [exact H|apply (invalid_input_misreported blank_name "tools/call" H)].
Defined.
