(* ===== verification/EdgeStreaming.v ===== *)
(** * EdgeStreaming: large responses in chunks

    The file [apps/edge-mcp/internal/mcp/streaming.go].  What writing a message to the
    connection does, the end of the stream's context and the clock are functions of the
    world; a writer's mutex makes each write one step.  A client that decodes a message
    finds U+FFFD for every byte of a text that is not UTF-8. *)

From stdpp Require Import base decidable gmap strings list.
From Stdlib Require Import ZArith Lia.
From S2P Require Import Prelude GoFloat GoStrings Utf8 GoParse GoAny UnicodeText Json McpErrors Redact.
Import AnyMap.

Local Open Scope string_scope.
Local Open Scope Z_scope.

Record StreamConfig := MkStreamConfig {
  ChunkSize : Z;
  ProgressInterval : Z;
  EnableLogStreaming : bool;
  MaxConcurrentStreams : Z;
}.
Definition DefaultStreamConfig : StreamConfig := MkStreamConfig (64 * 1024) (500 * millisecond) true 100.

(** What the server sends: a notification with parameters, or a response. *)
Inductive outgoing :=
| Notification (method : string) (params : gmap string any)
| Response (id result_ : any)
| ErrorReply (id : any) (e : MCPError).

Record ProgressNotification := MkProgress {
  Token : string;
  Percentage : float64;
  progress_Message : string;
  Current : Z;
  Total : Z;
}.
Record LogNotification := MkLog {
  Level : string;
  log_Message : string;
  log_Timestamp : Z;
  log_Metadata : gmap string any;
}.
Definition progress_params (p : ProgressNotification) : gmap string any :=
  <["token" := AString (Token p)]> (<["percentage" := AFloat (Percentage p)]>
    (<["message" := AString (progress_Message p)]> (<["current" := AInt64 (Current p)]> {["total" := AInt64 (Total p)]}))).
Definition log_params (l : LogNotification) : gmap string any :=
  <["level" := AString (Level l)]> (<["message" := AString (log_Message l)]>
    (<["timestamp" := AOther "time.Time" (log_Timestamp l)]> {["metadata" := AMap (log_Metadata l)]})).

Definition ShouldStream (content : string) (threshold : Z) : bool := threshold <? len content.
Definition StreamThreshold : Z := 32 * 1024.

Section writer.
Context {S : Type}.
(** [wsjson.Write], the end of the stream's context, the clock; and what is not modelled of
    values: their JSON form and their text. *)
Variable write : outgoing -> S -> S * option string.
Variable done_ : S -> bool.
Variable now : S -> Z.
Variable other_json : string -> Z -> option string.
Variable other_text : string -> Z -> string.
Variable config : StreamConfig.

(** [mustMarshal] panics when the parameters cannot be encoded. *)
Definition mustMarshal (params : gmap string any) : option string := Marshal other_json (AMap params).

Definition notify (method : string) (params : gmap string any) (failed : string) (s : S) : S * outcome string unit :=
  match mustMarshal params with
  | None => (s, Panics)
  | Some _ =>
      let '(s, e) := write (Notification method params) s in
      (s, match e with Some e => Fails (failed +:+ e) | None => Returns () end)
  end.

Definition SendProgress (token : string) (current total : Z) (message : string) : S -> S * outcome string unit :=
  let percentage :=
    if 0 <? total then f64_mul (f64_div (f64_of_Z current) (f64_of_Z total)) (f64_of_Z 100) else f64_of_Z 0 in
  notify "$/progress" (progress_params (MkProgress token percentage message current total))
    "failed to send progress notification: ".

Definition SendLog (level message : string) (metadata : gmap string any) (s : S) : S * outcome string unit :=
  if negb (EnableLogStreaming config) then (s, Returns ())
  else notify "$/logMessage" (log_params (MkLog level message (now s) metadata)) "failed to send log notification: " s.

(** [(len(content) + ChunkSize - 1) / ChunkSize]: division by zero panics. *)
Definition total_chunks (content : string) : option Z :=
  if ChunkSize config =? 0 then None
  else Some (Z.quot (i64 (i64 (len content + ChunkSize config) - 1)) (ChunkSize config)).

(** [content[start:end]] for the chunk [i]. *)
Definition chunk_of (content : string) (i : Z) : outcome () string :=
  let start := i * ChunkSize config in
  let end_ := start + ChunkSize config in
  let end_ := if len content <? end_ then len content else end_ in
  if (0 <=? start) && (start <=? end_) then
    Returns (take_bytes (Z.to_nat (end_ - start)) (drop_bytes (Z.to_nat start) content))
  else Panics.

Definition chunk_params (requestID : any) (i total : Z) (contentType chunk : string) : gmap string any :=
  <["requestId" := requestID]> (<["chunk" := AInt i]> (<["totalChunks" := AInt total]>
    (<["contentType" := AString contentType]> (<["data" := AString chunk]> {["isLast" := ABool (i =? total - 1)]})))).

(** The chunks from [i] on. *)
Fixpoint send_chunks (fuel : nat) (i total : Z) (token : string) (requestID : any) (content contentType : string) (s : S)
    : S * outcome string unit :=
  match fuel with
  | O => (s, Returns ())
  | Datatypes.S fuel =>
      if done_ s then (s, Fails "stream cancelled: context canceled") else
      match chunk_of content i with
      | Returns chunk =>
          match notify "$/contentChunk" (chunk_params requestID i total contentType chunk)
                  ("failed to send chunk " +:+ itoa i +:+ ": ") s with
          | (s, Returns _) =>
              match SendProgress token (i + 1) total ("Sent chunk " +:+ itoa (i + 1) +:+ " of " +:+ itoa total) s with
              | (s, Returns _) => send_chunks fuel (i + 1) total token requestID content contentType s
              | r => r
              end
          | r => r
          end
      | _ => (s, Panics)
      end
  end.

Definition SendChunkedContent (requestID : any) (content contentType : string) (s : S) : S * outcome string unit :=
  match total_chunks content with
  | None => (s, Panics)
  | Some total =>
      let token := "chunk_" +:+ sprint other_text requestID in
      match SendProgress token 0 total "Starting content streaming" s with
      | (s, Returns _) =>
          match send_chunks (Z.to_nat total) 0 total token requestID content contentType s with
          | (s, Returns _) => SendProgress token total total "Content streaming complete" s
          | r => r
          end
      | r => r
      end
  end.

Definition SendFinalResponse (requestID result_ : any) (s : S) : S * outcome string unit :=
  let '(s, e) := write (Response requestID result_) s in
  (s, match e with Some e => Fails ("failed to send final response: " +:+ e) | None => Returns () end).

(** A [StreamingLogger] logs to the client what it logs, redacted. *)
Definition stream_log {U : Unicode} (level msg : string) (fields_ : gmap string any) (s : S) : S * outcome string unit :=
  match SendLog level msg (RedactSensitiveData fields_) s with
  | (s, Panics) => (s, Panics)
  | (s, _) => (s, Returns ())
  end.
End writer.

(** ** Streams *)

Record StreamManager := MkManager {
  streams : list (any * nat);
  manager_config : StreamConfig;
}.
Definition NewStreamManager (config : StreamConfig) : StreamManager := MkManager [] config.
Definition StreamCount (sm : StreamManager) : Z := Z.of_nat (length (streams sm)).

(** A stream is told by a number, [id]. *)
Definition CreateStream (sprint_id : any -> string) (requestID : any) (id : nat) (sm : StreamManager)
    : outcome string (nat * StreamManager) :=
  if MaxConcurrentStreams (manager_config sm) <=? StreamCount sm then
    Fails ("max concurrent streams (" +:+ itoa (MaxConcurrentStreams (manager_config sm)) +:+ ") reached")
  else
    match any_lookup requestID (streams sm) with
    | Returns (Some _) => Fails ("stream for request " +:+ sprint_id requestID +:+ " already exists")
    | Returns None => Returns (id, MkManager (put_key requestID id (streams sm)) (manager_config sm))
    | _ => Panics
    end.

Definition GetStream (requestID : any) (sm : StreamManager) : outcome () (option nat) := any_lookup requestID (streams sm).

Definition CloseStream (sprint_id : any -> string) (requestID : any) (sm : StreamManager) : outcome string (nat * StreamManager) :=
  match any_lookup requestID (streams sm) with
  | Returns (Some id) => Returns (id, MkManager (delete_key requestID (streams sm)) (manager_config sm))
  | Returns None => Fails ("stream for request " +:+ sprint_id requestID +:+ " not found")
  | _ => Panics
  end.

Definition CloseAll (sm : StreamManager) : StreamManager := MkManager [] (manager_config sm).

(** ** What is sent *)

Definition data_of (m : outgoing) : list string :=
  match m with
  | Notification method params =>
      if String.eqb method "$/contentChunk" then match params !! "data" with Some (AString d) => [d] | _ => [] end else []
  | _ => []
  end.
Definition chunks_in (l : list outgoing) : list string := l ≫= data_of.

(** A text cut into pieces of [c] bytes. *)
Fixpoint pieces (n c : nat) (s : string) : list string :=
  match n with O => [] | Datatypes.S n => take_bytes c s :: pieces n c (drop_bytes c s) end.

(** The chunks of a text. *)
Definition chunks (config : StreamConfig) (content : string) : list string :=
  pieces (Z.to_nat (default 0 (total_chunks config content))) (Z.to_nat (ChunkSize config)) content.

Lemma take_all n s : (String.length s <= n)%nat -> take_bytes n s = s.
Proof. revert s. induction n as [|n IH]; intros [|a s] H; simpl in *; [done|lia|done|]. by rewrite IH by lia. Qed.
Lemma drop_all n s : (String.length s <= n)%nat -> drop_bytes n s = "".
Proof. revert s. induction n as [|n IH]; intros [|a s] H; simpl in *; [done|lia|done|]. by rewrite IH by lia. Qed.
Lemma drop_drop n m s : drop_bytes n (drop_bytes m s) = drop_bytes (m + n) s.
Proof. revert s. induction m as [|m IH]; intros [|a s]; simpl; [done..|by destruct n|apply IH]. Qed.
Lemma drop_length n s : String.length (drop_bytes n s) = (String.length s - n)%nat.
Proof. revert s. induction n as [|n IH]; intros [|a s]; simpl; [done..|]. apply IH. Qed.
Lemma take_length n s : String.length (take_bytes n s) = Nat.min n (String.length s).
Proof. revert s. induction n as [|n IH]; intros [|a s]; simpl; [done..|]. by rewrite IH. Qed.

Lemma pieces_join n c s : (String.length s <= n * c)%nat -> Join (pieces n c s) "" = s.
Proof.
  revert s. induction n as [|n IH]; intros s H; [destruct s; simpl in H; [done|lia]|]. cbn [pieces]. rewrite Join_cons, IH; [apply take_drop_bytes|].
  rewrite drop_length. lia.
Qed.

Lemma pieces_nth n c s i : (i < n)%nat -> pieces n c s !! i = Some (take_bytes c (drop_bytes (i * c) s)).
Proof.
  revert s i. induction n as [|n IH]; intros s [|i] H; [lia..|done|]. cbn. rewrite IH by lia. by rewrite drop_drop.
Qed.

Lemma pieces_length n c s : (length (pieces n c s) <= n)%nat.
Proof. revert s. induction n as [|n IH]; intros s; cbn; [done|]. specialize (IH (drop_bytes c s)). lia. Qed.

(** The number of chunks, when the sum does not overflow. *)
Lemma total_enough config content n :
  0 < ChunkSize config -> len content + ChunkSize config <= max_int64 -> total_chunks config content = Some n ->
  0 <= n /\ len content <= n * ChunkSize config < len content + ChunkSize config.
Proof.
  intros Hc Hs. unfold total_chunks. destruct (Z.eqb_spec (ChunkSize config) 0); [lia|]. pose proof (len_nonneg content).
  assert (forall x, -1 <= x <= max_int64 -> i64 x = x) as Hi by (intros x Hx; apply i64_small; unfold in_i64, min_int64, max_int64 in *; lia).
  rewrite (Hi (len content + ChunkSize config)) by lia. rewrite Hi by lia. intros [= <-].
  rewrite Z.quot_div_nonneg by lia. set (c := ChunkSize config) in *.
  pose proof (Z.div_mod (len content + c - 1) c ltac:(lia)). pose proof (Z.mod_pos_bound (len content + c - 1) c Hc). nia.
Qed.

(** Joined, the chunks are the text. *)
Lemma chunks_join config content :
  0 < ChunkSize config -> len content + ChunkSize config <= max_int64 -> Join (chunks config content) "" = content.
Proof.
  intros Hc Hs. apply pieces_join. destruct (total_chunks config content) as [n|] eqn:Hn.
  - apply total_enough in Hn as [? Hn]; [|done..]. cbn. unfold len in Hn. nia.
  - unfold total_chunks in Hn. destruct (Z.eqb_spec (ChunkSize config) 0); [lia|done].
Qed.

Lemma chunk_of_piece config content n i :
  0 < ChunkSize config -> len content + ChunkSize config <= max_int64 -> total_chunks config content = Some n ->
  0 <= i < n -> exists d, chunk_of config content i = Returns d /\ chunks config content !! Z.to_nat i = Some d.
Proof.
  intros Hc Hs Hn Hi. unfold chunks. rewrite Hn. cbn [default from_option]. unfold id.
  rewrite pieces_nth by lia. eexists. split; [|reflexivity]. apply total_enough in Hn as [? Hn]; [|done..].
  unfold chunk_of. set (c := ChunkSize config) in *. assert (i * c < len content) by nia.
  assert (Z.to_nat i * Z.to_nat c = Z.to_nat (i * c))%nat as -> by nia.
  destruct (Z.ltb_spec (len content) (i * c + c)).
  - assert ((0 <=? i * c) && (i * c <=? len content) = true) as -> by (apply andb_true_iff; nia).
    f_equal. rewrite !take_all; [done|..]; rewrite drop_length; unfold len in *; lia.
  - assert ((0 <=? i * c) && (i * c <=? i * c + c) = true) as -> by (apply andb_true_iff; nia).
    do 2 f_equal. lia.
Qed.

Section recorded.
Context {S : Type} (write : outgoing -> S -> S * option string) (done_ : S -> bool).
Context (other_json : string -> Z -> option string) (other_text : string -> Z -> string).
(** Messages that were written stay written; the one that failed may have been. *)
Context (log : S -> list outgoing).
Hypothesis write_log : forall m s, exists l, log (fst (write m s)) = (log s ++ l)%list /\
  (l = [m] \/ l = [] /\ snd (write m s) ≠ None).
Context (config : StreamConfig) (content contentType : string) (requestID : any).
Hypothesis sizes : 0 < ChunkSize config /\ len content + ChunkSize config <= max_int64.

Lemma notify_log method params failed s s' r :
  notify write other_json method params failed s = (s', r) ->
  exists l, log s' = (log s ++ l)%list /\
    (l = [Notification method params] \/ l = [] /\ r ≠ Returns ()).
Proof.
  unfold notify. destruct (mustMarshal _ _); [|intros [= <- <-]; exists []; rewrite app_nil_r; naive_solver].
  pose proof (write_log (Notification method params) s) as (l & Hl & Hc). destruct (write _ s) as [s1 e] eqn:Hw. cbn in *.
  intros [= <- <-]. exists l. split; [done|]. destruct Hc as [->|[-> He]]; [by left|right]. by destruct e.
Qed.

Lemma progress_silent token current total message s s' r :
  SendProgress write other_json token current total message s = (s', r) -> chunks_in (log s') = chunks_in (log s).
Proof.
  intros (l & -> & Hl)%notify_log. unfold chunks_in. rewrite bind_app. destruct Hl as [->|[-> _]]; cbn; by rewrite app_nil_r.
Qed.

Lemma chunk_params_data i total chunk : data_of (Notification "$/contentChunk" (chunk_params requestID i total contentType chunk)) = [chunk].
Proof. unfold data_of, chunk_params. cbn [String.eqb]. by rewrite !lookup_insert_ne, lookup_insert_eq by done. Qed.

Lemma send_chunks_log total token fuel i s s' r :
  total_chunks config content = Some total -> 0 <= i -> i + Z.of_nat fuel = total ->
  send_chunks write done_ other_json config fuel i total token requestID content contentType s = (s', r) ->
  exists k, chunks_in (log s') = (chunks_in (log s) ++ take k (drop (Z.to_nat i) (chunks config content)))%list /\
    (r = Returns () -> k = fuel).
Proof.
  intros Ht. revert i s. induction fuel as [|fuel IH]; intros i s Hi Hf; cbn [send_chunks].
  { intros [= <- <-]. exists O. rewrite take_0, app_nil_r. done. }
  destruct (done_ s); [intros [= <- <-]; exists O; rewrite take_0, app_nil_r; done|].
  destruct (chunk_of_piece config content total i) as (d & -> & Hd); [tauto|tauto|done|lia|].
  destruct (notify _ _ _ _ _ s) as [s1 r1] eqn:H1. apply notify_log in H1 as (l & Hl & Hc).
  assert (forall k, take (Datatypes.S k) (drop (Z.to_nat i) (chunks config content)) =
    d :: take k (drop (Z.to_nat (i + 1)) (chunks config content))) as Hstep.
  { intros k. rewrite (drop_S _ _ _ Hd). cbn. do 2 f_equal. f_equal. lia. }
  assert (chunks_in (log s1) = (chunks_in (log s) ++ [d])%list \/ chunks_in (log s1) = chunks_in (log s) /\ r1 ≠ Returns ()) as Hs1.
  { rewrite Hl. unfold chunks_in. rewrite bind_app. destruct Hc as [->|[-> Hr]]; [left|right].
    - cbn [mbind list_bind]. by rewrite chunk_params_data.
    - cbn. by rewrite app_nil_r. }
  assert (forall r', r1 = r' -> r' ≠ Returns () -> (s1, r') = (s', r) ->
    exists k, chunks_in (log s') = (chunks_in (log s) ++ take k (drop (Z.to_nat i) (chunks config content)))%list /\
      (r = Returns () -> k = Datatypes.S fuel)) as Hfail.
  { intros r' <- Hr [= <- <-]. destruct Hs1 as [Hs1|[Hs1 _]]; [exists 1%nat|exists O]; rewrite Hs1.
    - rewrite Hstep, take_0. done.
    - by rewrite take_0, app_nil_r. }
  destruct r1 as [[]|e|]; [|by apply Hfail..]. clear Hfail. destruct Hs1 as [Hs1|[_ []]]; [|done].
  destruct (SendProgress _ _ _ _ _ _ s1) as [s2 r2] eqn:H2. apply progress_silent in H2. rewrite Hs1 in H2.
  assert (r2 ≠ Returns () -> (s2, r2) = (s', r) ->
    exists k, chunks_in (log s') = (chunks_in (log s) ++ take k (drop (Z.to_nat i) (chunks config content)))%list /\
      (r = Returns () -> k = Datatypes.S fuel)) as Hfail.
  { intros Hr [= <- <-]. exists 1%nat. rewrite H2, Hstep, take_0. done. }
  destruct r2 as [[]|e|]; [|by apply Hfail..]. intros H3. apply IH in H3 as (k & Hk & Hr); [|lia..].
  exists (Datatypes.S k). rewrite Hk, H2, Hstep, <-app_assoc. split; [done|]. intros Hr'. by rewrite Hr.
Qed.
(** Whatever the connection does, what [SendChunkedContent] sends are the first chunks of
    the content, in order; all of them when it returns no error; and the chunks, joined, are
    the content. *)
Theorem chunks_in_order s s' r :
  SendChunkedContent write done_ other_json other_text config requestID content contentType s = (s', r) ->
  Join (chunks config content) "" = content /\
  exists k, chunks_in (log s') = (chunks_in (log s) ++ take k (chunks config content))%list /\
    (r = Returns () -> take k (chunks config content) = chunks config content).
Proof.
  intros H. destruct sizes as [Hc Hs]. split; [by apply chunks_join|]. unfold SendChunkedContent in H.
  destruct (total_chunks config content) as [total|] eqn:Ht; [|unfold total_chunks in Ht; case_match; bool_hyps; [lia|done]].
  assert (forall r', r' ≠ Returns () -> r = r' -> chunks_in (log s') = chunks_in (log s) ->
    exists k, chunks_in (log s') = (chunks_in (log s) ++ take k (chunks config content))%list /\
      (r = Returns () -> take k (chunks config content) = chunks config content)) as Hnone.
  { intros r' Hr -> ->. exists O. rewrite take_0, app_nil_r. split; [reflexivity|]. intros Hx. by destruct Hr. }
  destruct (SendProgress _ _ _ _ _ _ s) as [s1 r1] eqn:H1. apply progress_silent in H1.
  destruct r1 as [[]|e|]; [|injection H as <- <-; by (eapply Hnone; [|reflexivity|exact H1])..].
  destruct (total_enough _ _ _ Hc Hs Ht) as [Hn _].
  destruct (send_chunks _ _ _ _ _ _ _ _ _ _ _ s1) as [s2 r2] eqn:H2.
  apply send_chunks_log in H2 as (k & Hk & Hr); [|done|lia..].
  rewrite H1 in Hk. change (Z.to_nat 0) with O in Hk. rewrite drop_0 in Hk.
  assert (r2 = Returns () -> take k (chunks config content) = chunks config content) as Hall.
  { intros Hr2. apply take_ge. rewrite Hr by done. unfold chunks. rewrite Ht. apply pieces_length. }
  destruct r2 as [[]|e|]; [|injection H as <- <-; by exists k..].
  apply progress_silent in H. exists k. rewrite H. split; [done|]. intros _. by apply Hall.
Qed.
End recorded.

(** A connection that keeps what is written, and never fails. *)
Definition keep (m : outgoing) (l : list outgoing) : list outgoing * option string := ((l ++ [m])%list, None).
Definition small_chunks : StreamConfig := MkStreamConfig 4 (500 * millisecond) true 100.

Lemma keep_log m s : exists l, fst (keep m s) = (s ++ l)%list /\ (l = [m] \/ l = [] /\ snd (keep m s) ≠ None).
Proof. exists [m]. split; [reflexivity|by left]. Qed.
Lemma small_sizes : 0 < ChunkSize small_chunks /\ len "hello world" + ChunkSize small_chunks <= max_int64.
Proof. split; [reflexivity|vm_compute; discriminate]. Qed.

Theorem chunks_in_order_witness :
  exists l, SendChunkedContent keep (λ _, false) (λ _ _, None) (λ _ _, "") small_chunks (AInt 7) "hello world" "text/plain" [] = (l, Returns ()) /\
  chunks_in l = ["hell"; "o wo"; "rld"] /\
  Join (chunks small_chunks "hello world") "" = "hello world" /\
  exists k, chunks_in l = (chunks_in [] ++ take k (chunks small_chunks "hello world"))%list /\
    (Returns () = @Returns string unit () -> take k (chunks small_chunks "hello world") = chunks small_chunks "hello world").
Proof.
  set (r := SendChunkedContent keep (λ _, false) (λ _ _, None) (λ _ _, "") small_chunks (AInt 7) "hello world" "text/plain" []).
  exists (fst r). assert (r = (fst r, Returns ())) as Hr by (vm_compute; reflexivity). split; [exact Hr|].
  split; [vm_compute; reflexivity|].
  exact (chunks_in_order keep (λ _, false) (λ _ _, None) (λ _ _, "") (λ l, l) keep_log small_chunks "hello world" "text/plain" (AInt 7)
    small_sizes [] (fst r) (Returns ()) Hr).
Defined.

(** ** What is read *)

(** A client that reads a text finds U+FFFD for what is not UTF-8. *)
Definition read_text (d : string) : string := string_of_runes (runes d).
Definition received (config : StreamConfig) (content : string) : string := Join (read_text <$> chunks config content) "".

Example read_back : parse_json (quoted_json (take_bytes 2 "aé")) = Some (JString (read_text (take_bytes 2 "aé"))).
Proof. vm_compute. reflexivity. Qed.

(** A first byte without the rest of its rune. *)
Lemma decode_cut b l r : encode_rune r = b :: l -> 0x80 <= r -> valid_rune r = true -> decode_rune b [] = (RuneError, 1%nat) /\ l ≠ [].
Proof.
  intros He Hr Hv. unfold encode_rune in He. rewrite Hv in He. cbn in He. apply valid_rune_range in Hv.
  destruct (Z.ltb_spec r 0x80); [lia|].
  split; [|repeat case_match; by injection He as <- <-].
  assert (0xC2 <= b <= 0xF4) as Hb.
  { repeat case_match; bool_hyps; injection He as <- _; Z.to_euclidean_division_equations; lia. }
  unfold decode_rune. destruct (Z.ltb_spec b 0x80); [lia|]. by repeat case_match.
Qed.

Lemma read_cut s b : utf8 s -> 0 <= b < 256 -> decode_rune b [] = (RuneError, 1%nat) ->
  read_text (s +:+ string_of [b]) = s +:+ string_of_runes [RuneError].
Proof.
  intros (rs & Hv & ->) Hb Hd. unfold read_text, runes, range_string. rewrite bytes_of_app, bytes_of_string_of_runes.
  assert (bytes_of (string_of [b]) = [b]) as -> by (apply bytes_of_string_of; by constructor).
  pose proof (range_from_encode rs (length ((rs ≫= encode_rune) ++ [b])) 0 [b] Hv) as H. rewrite H by (rewrite length_app; lia).
  assert (length rs <= length (rs ≫= encode_rune))%nat as Hl.
  { clear. induction rs as [|r rs IH]; [done|]. change ((r :: rs) ≫= encode_rune) with (encode_rune r ++ (rs ≫= encode_rune))%list.
    rewrite length_app. assert (encode_rune r ≠ []) by (unfold encode_rune; by repeat case_match). destruct (encode_rune r); [done|]. simpl. lia. }
  rewrite length_app. destruct (_ + _ - _)%nat as [|n] eqn:Hn; [simpl in Hn; lia|].
  cbn [range_from]. rewrite Hd. cbn [fmap list_fmap snd]. rewrite string_of_runes_app. f_equal. by destruct n.
Qed.

Lemma take_exact s t : take_bytes (String.length s) (s +:+ t) = s.
Proof. apply take_bytes_app. Qed.

(** A content whose first chunk ends inside a rune is not what the client gets: the rune
    becomes two or more U+FFFD.  The default chunk has 65536 bytes. *)
Theorem boundary_rune_lost config content s r rest :
  content = s +:+ string_of_runes [r] +:+ rest -> utf8 s -> len s = ChunkSize config - 1 ->
  valid_rune r = true -> 0x80 <= r -> r ≠ RuneError -> len content + ChunkSize config <= max_int64 ->
  Join (chunks config content) "" = content /\ received config content ≠ content.
Proof.
  intros Hcon Hs Hl Hv Hr Hne Hsz. pose proof (len_nonneg s). split; [apply chunks_join; [lia|done]|].
  destruct (encode_rune r) as [|b l] eqn:He; [unfold encode_rune in He; by repeat case_match|].
  destruct (decode_cut b l r He Hr Hv) as [Hd Hnl].
  assert (string_of_runes [r] = string_of [b] +:+ string_of l) as Hb.
  { unfold string_of_runes. cbn [mbind list_bind]. by rewrite He, app_nil_r. }
  assert (0 <= b < 256) as Hrange by (pose proof (encode_rune_bytes r) as Hf; rewrite He in Hf; by apply Forall_cons in Hf as [? _]).
  (* the first chunk *)
  destruct (total_chunks config content) as [n|] eqn:Hn; [|unfold total_chunks in Hn; case_match; bool_hyps; [lia|done]].
  assert (0 < ChunkSize config) as Hc by lia. destruct (total_enough _ _ _ Hc Hsz Hn) as [? Hbound].
  assert (0 < len content) as Hpos. { rewrite Hcon, Hb, !len_app. assert (len (string_of [b]) = 1) as -> by done. pose proof (len_nonneg (string_of l)). pose proof (len_nonneg rest). lia. }
  unfold received, chunks. rewrite Hn. cbn [default from_option]. unfold id.
  destruct (Z.to_nat n) as [|k] eqn:Hk; [nia|]. cbn [pieces fmap list_fmap]. rewrite Join_cons.
  assert (take_bytes (Z.to_nat (ChunkSize config)) content = s +:+ string_of [b]) as ->.
  { rewrite Hcon, Hb. replace (s +:+ ((string_of [b] +:+ string_of l) +:+ rest)) with ((s +:+ string_of [b]) +:+ (string_of l +:+ rest))
      by (by rewrite !app_assoc_s).
    replace (Z.to_nat (ChunkSize config)) with (String.length (s +:+ string_of [b])); [apply take_exact|].
    rewrite string_length_app. cbn. unfold len in Hl. lia. }
  rewrite read_cut by done. generalize (Join (read_text <$> pieces k (Z.to_nat (ChunkSize config))
    (drop_bytes (Z.to_nat (ChunkSize config)) content)) "") as t. intros t Heq.
  rewrite Hcon, !app_assoc_s in Heq. apply (f_equal bytes_of) in Heq. rewrite !bytes_of_app in Heq.
  apply app_inv_head in Heq. rewrite !bytes_of_string_of_runes in Heq. cbn [mbind list_bind] in Heq. rewrite !app_nil_r in Heq.
  destruct (decode_encode r (bytes_of rest) Hv) as (b1 & l1 & He1 & Hd1).
  destruct (decode_encode RuneError (bytes_of t) eq_refl) as (b2 & l2 & He2 & Hd2).
  rewrite He1, He2 in Heq. cbn in Heq. injection Heq as <- Heq. rewrite Heq, Hd1 in Hd2. congruence.
Qed.

Theorem boundary_rune_lost_witness :
  exists s rest, let content := s +:+ string_of_runes [0xE9] +:+ rest in
  len s = ChunkSize small_chunks - 1 /\ Join (chunks small_chunks content) "" = content /\ received small_chunks content ≠ content.
Proof.
  exists "caf", " noir". split; [reflexivity|].
  apply (boundary_rune_lost small_chunks _ "caf" 0xE9 " noir"); try reflexivity; try discriminate.
  - exists [99; 97; 102]. split; [repeat constructor|reflexivity].
Defined.

(** ** Streams *)

(** Two streams are told apart by the identifiers that clients choose, whatever the
    connection. *)
Inductive stream_op := Create (requestID : any) (id : nat) | Close (requestID : any) | Close_all.
Definition stream_step (op : stream_op) (sm : StreamManager) : option StreamManager :=
  let keep_ {A} (r : outcome string (A * StreamManager)) :=
    match r with Returns (_, sm) => Some sm | Fails _ => Some sm | Panics => None end in
  match op with
  | Create k i => keep_ (CreateStream (sprint (λ _ _, "")) k i sm)
  | Close k => keep_ (CloseStream (sprint (λ _ _, "")) k sm)
  | Close_all => Some (CloseAll sm)
  end.
Fixpoint stream_run (ops : list stream_op) (sm : StreamManager) : option StreamManager :=
  match ops with
  | [] => Some sm
  | op :: ops => match stream_step op sm with Some sm => stream_run ops sm | None => None end
  end.

Lemma find_hashable {V} k (m : list (any * V)) r : any_lookup k m = Returns r -> r = find_key k m.
Proof. unfold any_lookup. destruct (hashable k); congruence. Qed.

Lemma stream_step_bound op sm sm' :
  stream_step op sm = Some sm' -> 0 <= MaxConcurrentStreams (manager_config sm) ->
  StreamCount sm <= MaxConcurrentStreams (manager_config sm) ->
  manager_config sm' = manager_config sm /\ StreamCount sm' <= MaxConcurrentStreams (manager_config sm').
Proof.
  intros H H0 Hb. destruct op as [k i|k|]; cbn in H.
  - unfold CreateStream in H. destruct (Z.leb_spec (MaxConcurrentStreams (manager_config sm)) (StreamCount sm)); [by injection H as <-|].
    destruct (any_lookup k (streams sm)) as [[j|]| |] eqn:Hk; [by injection H as <-| |done..].
    injection H as <-. split; [done|]. unfold StreamCount in *. cbn. apply find_hashable in Hk.
    rewrite length_put_new by done. lia.
  - unfold CloseStream in H. destruct (any_lookup k (streams sm)) as [[j|]| |] eqn:Hk; [|by injection H as <-|done..].
    injection H as <-. split; [done|]. unfold StreamCount in *. cbn. pose proof (length_delete k (streams sm)). lia.
  - injection H as <-. done.
Qed.

(** There are never more streams than the limit. *)
Theorem streams_bounded config ops sm :
  0 <= MaxConcurrentStreams config -> stream_run ops (NewStreamManager config) = Some sm ->
  StreamCount sm <= MaxConcurrentStreams config.
Proof.
  intros H0. assert (forall ops sm0, manager_config sm0 = config -> StreamCount sm0 <= MaxConcurrentStreams config ->
    stream_run ops sm0 = Some sm -> StreamCount sm <= MaxConcurrentStreams config) as H; [|by apply H].
  clear ops. intros ops. induction ops as [|op ops IH]; intros sm0 Hc Hb; cbn; [by intros [= <-]|].
  destruct (stream_step op sm0) as [sm1|] eqn:Hs; [|done]. apply stream_step_bound in Hs as [Hc1 Hb1]; [|by rewrite Hc..].
  apply IH; congruence.
Qed.

Theorem streams_bounded_witness :
  exists sm, stream_run [Create (AInt 1) 1; Create (AInt 1) 2; Create (AString "a") 3; Close (AInt 1)] (NewStreamManager small_chunks) = Some sm /\
  StreamCount sm = 1 /\ StreamCount sm <= MaxConcurrentStreams small_chunks.
Proof.
  eexists. split; [reflexivity|]. split; [reflexivity|].
  apply (streams_bounded small_chunks [Create (AInt 1) 1; Create (AInt 1) 2; Create (AString "a") 3; Close (AInt 1)]); [discriminate|reflexivity].
Defined.

(** An identifier that is an array panics; a chunk size of zero divides by zero. *)
Example stream_panics :
  stream_step (Create (AList []) 1) (NewStreamManager small_chunks) = None /\
  snd (SendChunkedContent keep (λ _, false) (λ _ _, None) (λ _ _, "") (MkStreamConfig 0 0 true 1) ANil "x" "" []) = Panics.
Proof. split; reflexivity. Qed.
