(* ===== verification/EdgeAuth.v ===== *)
(** * EdgeAuth: who may connect to the edge server

    The file [apps/edge-mcp/internal/auth/auth.go].  The REST API is a function of the world:
    it gives the status of a key, its tenant and a token, or no answer that can be read.  The
    cache of answers is never emptied. *)

From stdpp Require Import base decidable gmap strings list.
From Stdlib Require Import ZArith Lia.
From S2P Require Import Prelude GoStrings GoAny.

Local Open Scope string_scope.
Local Open Scope Z_scope.

Record CachedAuth := MkCached {
  Valid : bool;
  TenantID : string;
  Token : string;
  ExpiresAt : Z;
}.

(** What the code reads of a request: a header by name, and the query parameter [token]. *)
Record http_request := MkHttp {
  header : string -> string;
  query_token : string;
}.

Definition extractAPIKey (r : http_request) : string :=
  let authHeader := header r "Authorization" in
  let authHeader := if String.eqb authHeader "" then header r "X-API-Key" else authHeader in
  let authHeader := if String.eqb authHeader "" then query_token r else authHeader in
  if String.eqb authHeader "" then "" else TrimPrefix authHeader "Bearer ".

Section authenticator.
Context {W : Type}.
(** The clock, and [POST /api/v1/auth/edge-mcp] at an address: [None] when there is no answer
    that can be decoded. *)
Variable now : W -> Z.
Variable post : string -> string -> W -> W * option (bool * string * string).
Variable restAPIURL : string.

Notation state := (gmap string CachedAuth * W)%type.

Definition validateWithAPI (apiKey : string) (s : state) : state * (bool * string * string) :=
  if String.eqb restAPIURL "" then (s, (false, "", ""))
  else
    let '(w, r) := post (TrimSuffix restAPIURL "/" +:+ "/api/v1/auth/edge-mcp") apiKey (snd s) in
    ((fst s, w), default (false, "", "") r).

(** The answer of the cache that is still good. *)
Definition fresh_answer (apiKey : string) (s : state) : bool :=
  match fst s !! apiKey with Some c => Valid c && time_before (now (snd s)) (ExpiresAt c) | None => false end.

Definition AuthenticateRequest (r : http_request) (s : state) : state * bool :=
  let apiKey := extractAPIKey r in
  if String.eqb apiKey "" then (s, false)
  else if fresh_answer apiKey s then (s, true)
  else
    let '(s, (valid, tenant, token)) := validateWithAPI apiKey s in
    ((<[apiKey := MkCached valid tenant token (now (snd s) + 5 * minute)]> (fst s), snd s), valid).

Definition GetTenantID (apiKey : string) (m : gmap string CachedAuth) : result string string :=
  match m !! apiKey with
  | Some c => if Valid c then Ok (TenantID c) else Err "API key not authenticated"
  | None => Err "API key not authenticated"
  end.

(** ** What the platform has said *)

(** A yes of the platform for a key, when it was given. *)
Record grant := MkGrant { g_key : string; g_tenant : string; g_at : Z }.

Definition granted (r : http_request) (s : state) : list grant :=
  let apiKey := extractAPIKey r in
  if String.eqb apiKey "" || fresh_answer apiKey s then []
  else
    let '(s, (valid, tenant, _)) := validateWithAPI apiKey s in
    if valid then [MkGrant apiKey tenant (now (snd s))] else [].

(** The world goes on between requests; [said] are the grants so far. *)
Inductive authenticating : state -> list grant -> Prop :=
| auth_start w : authenticating (∅, w) []
| auth_world m w w' said : authenticating (m, w) said -> authenticating (m, w') said
| auth_request r s said :
    authenticating s said -> authenticating (fst (AuthenticateRequest r s)) (granted r s ++ said).

Definition backed (m : gmap string CachedAuth) (said : list grant) : Prop :=
  forall k c, m !! k = Some c -> Valid c = true -> MkGrant k (TenantID c) (ExpiresAt c - 5 * minute) ∈ said.

Lemma authenticating_backed s said : authenticating s said -> backed (fst s) said.
Proof.
  induction 1 as [w|m w w' said H IH|r s said H IH]; [done|done|]. unfold AuthenticateRequest, granted.
  destruct (String.eqb _ ""), (fresh_answer _ s); cbn [orb]; [done..|]. unfold validateWithAPI.
  assert (forall v t x w, backed (<[extractAPIKey r := MkCached v t x (now w + 5 * minute)]> (fst s))
    ((if v then [MkGrant (extractAPIKey r) t (now w)] else []) ++ said)) as Hadd.
  { intros v t x w k c Hk Hv. apply elem_of_app. destruct (decide (k = extractAPIKey r)) as [->|Hne].
    - rewrite lookup_insert_eq in Hk. injection Hk as <-. cbn in *. rewrite Hv. left.
      replace (now w + 5 * minute - 5 * minute) with (now w) by lia. by apply list_elem_of_singleton.
    - rewrite lookup_insert_ne in Hk by done. right. by apply IH. }
  destruct (String.eqb restAPIURL ""); [apply Hadd|]. destruct (post _ _ _) as [w [[[v t] x]|]]; cbn; apply Hadd.
Qed.

(** A request is let in only if the platform has accepted its key less than five minutes
    before, or accepts it now. *)
Theorem admitted_recently s said r s' :
  authenticating s said -> AuthenticateRequest r s = (s', true) ->
  (exists g, g ∈ said /\ g_key g = extractAPIKey r /\ now (snd s) < g_at g + 5 * minute) \/
  (exists t x, snd (post (TrimSuffix restAPIURL "/" +:+ "/api/v1/auth/edge-mcp") (extractAPIKey r) (snd s)) = Some (true, t, x)).
Proof.
  intros Ha Hr. pose proof (authenticating_backed s said Ha) as Hb. unfold AuthenticateRequest in Hr.
  destruct (String.eqb (extractAPIKey r) ""); [done|]. destruct (fresh_answer (extractAPIKey r) s) eqn:Hf; [left|right].
  - unfold fresh_answer in Hf. destruct (fst s !! extractAPIKey r) as [c|] eqn:Hc; [|done].
    apply andb_true_iff in Hf as [Hv Ht]. eexists. split; [exact (Hb _ c Hc Hv)|]. cbn. split; [done|].
    unfold time_before in Ht. apply Z.ltb_lt in Ht. lia.
  - revert Hr. unfold validateWithAPI. destruct (String.eqb restAPIURL ""); [by intros [= _ ?]|].
    destruct (post _ _ _) as [w [[[v t] x]|]]; cbn; [|by intros [= _ ?]]. intros [= _ ->]. eauto.
Qed.

(** The tenant of a key is given out for good: when the answer about a key has expired,
    [GetTenantID] still gives the tenant. *)
Theorem expired_key_keeps_tenant m k c :
  m !! k = Some c -> Valid c = true -> GetTenantID k m = Ok (TenantID c).
Proof. intros Hk Hv. unfold GetTenantID. by rewrite Hk, Hv. Qed.
End authenticator.

(** ** A platform that revokes a key *)

(** The time, and whether the key is still good. *)
Definition revocable (_ _ : string) (w : Z * bool) : (Z * bool) * option (bool * string * string) :=
  (w, Some (snd w, "acme", "token")).
Definition with_bearer : http_request := MkHttp (λ h, if String.eqb h "Authorization" then "Bearer k1" else "") "".
Definition let_in : (gmap string CachedAuth * (Z * bool)) :=
  fst (AuthenticateRequest fst revocable "http://api" with_bearer (∅, (second, true))).

Theorem admitted_recently_witness :
  AuthenticateRequest fst revocable "http://api" with_bearer (fst let_in, (minute, false)) = ((fst let_in, (minute, false)), true) /\
  ((exists g, g ∈ [MkGrant "k1" "acme" second] /\ g_key g = "k1" /\ minute < g_at g + 5 * minute) \/
   (exists t x, snd (revocable "http://api/api/v1/auth/edge-mcp" "k1" (minute, false)) = Some (true, t, x))).
Proof.
  assert (AuthenticateRequest fst revocable "http://api" with_bearer (fst let_in, (minute, false)) = ((fst let_in, (minute, false)), true)) as H
    by (vm_compute; reflexivity).
  split; [exact H|].
  exact (admitted_recently fst revocable "http://api" (fst let_in, (minute, false)) [MkGrant "k1" "acme" second] with_bearer
    (fst let_in, (minute, false))
    (auth_world fst revocable "http://api" (fst let_in) (second, true) (minute, false) _
      (auth_request fst revocable "http://api" with_bearer (∅, (second, true)) [] (auth_start fst revocable "http://api" (second, true)))) H).
Defined.

(** An hour after its answer expired, and revoked. *)
Theorem expired_key_keeps_tenant_witness :
  snd (AuthenticateRequest fst revocable "http://api" with_bearer (fst let_in, (60 * minute, false))) = false /\
  GetTenantID "k1" (fst let_in) = Ok "acme".
Proof.
  split; [vm_compute; reflexivity|].
  exact (expired_key_keeps_tenant (fst let_in) "k1" (MkCached true "acme" "token" (second + 5 * minute)) ltac:(vm_compute; reflexivity) eq_refl).
Defined.
