(* ===== verification/TextSplitter.v ===== *)
(** * TextSplitter: recursive splitting of text ([pkg/chunking/text/recursive_splitter.go])

    Positions are byte offsets, as in the code.  The length function is an argument; slices
    out of range panic, and [Fails ()] says that the loop of [forceSplit] used up its fuel.
    Sums of lengths are not wrapped around. *)

From stdpp Require Import base decidable gmap strings list.
From Stdlib Require Import ZArith Ascii Lia.
From S2P Require Import Prelude GoFloat Utf8 GoStrings GoParse GoAny UnicodeText.

Local Open Scope string_scope.
Local Open Scope Z_scope.

(** ** Chunks *)

Record TextChunk := MkChunk {
  Content : string;
  Index : Z;
  TokenCount : Z;
  StartChar : Z;
  EndChar : Z;
  Metadata : gmap string any;
}.

Record RecursiveCharacterSplitter := MkSplitter {
  separators : list string;
  chunkSize : Z;
  chunkOverlap : Z;
  lengthFunction : string -> Z;
  keepSeparator : bool;
}.

Definition DefaultSeparators : list string :=
  [newline +:+ newline +:+ newline; newline +:+ newline; newline; ". "; "! "; "? "; "; "; ": "; ", "; " "; ""].

(** The configuration is a splitter whose settings may be missing; the length function is
    given or [None]. *)
Definition NewRecursiveCharacterSplitter (seps : list string) (size overlap : Z) (length_of : option (string -> Z))
    (keep : bool) : RecursiveCharacterSplitter :=
  MkSplitter (match seps with [] => DefaultSeparators | _ => seps end)
    (if size <=? 0 then 1000 else size) (if overlap <? 0 then 200 else overlap)
    (default len length_of) keep.

Section splitter.
Context (r : RecursiveCharacterSplitter).

(** ** Splitting *)

(** The separator is put back, except after the last part. *)
Fixpoint with_separator (separator : string) (splits : list string) : list string :=
  match splits with
  | [] => []
  | [split] => if String.eqb split "" then [] else [split]
  | split :: splits => (split +:+ separator) :: with_separator separator splits
  end.

Definition splitBySeparator (text separator : string) : list string :=
  if String.eqb separator "" then [text]
  else
    let splits := Split text separator in
    if keepSeparator r then with_separator separator splits else splits.

(** Groups of [n] runes; the number of runes is enough fuel. *)
Fixpoint groups (fuel n : nat) (rs : list Z) : list (list Z) :=
  match fuel, rs with
  | S fuel, _ :: _ => take n rs :: groups fuel n (drop n rs)
  | _, _ => []
  end.
Definition splitByCharacters (text : string) : list string :=
  let rs := runes text in string_of_runes <$> groups (List.length rs) (Z.to_nat (chunkSize r)) rs.

Definition is_space_at (text : string) (i : Z) : bool :=
  match String.get (Z.to_nat i) text with Some a => Ascii.eqb a " " | None => false end.

(** The positions from the target down to, and without, its half. *)
Definition candidates (targetLen : Z) : list Z :=
  (λ k, targetLen - Z.of_nat k) <$> seq 0 (Z.to_nat (targetLen - targetLen / 2)).

Definition findSplitPoint (text : string) : Z :=
  if lengthFunction r text <=? chunkSize r then len text
  else
    match List.find (is_space_at text) (candidates (chunkSize r)) with
    | Some i => i + 1
    | None => chunkSize r
    end.

Fixpoint forceSplit (fuel : nat) (text : string) : outcome () (list string) :=
  if chunkSize r <? lengthFunction r text then
    match fuel with
    | O => Fails ()
    | S fuel =>
        let splitPoint := findSplitPoint text in
        slice_to splitPoint text ≫= λ chunk,
        slice_from splitPoint text ≫= λ text,
        forceSplit fuel text ≫= λ chunks,
        Returns (chunk :: chunks)
    end
  else Returns (if String.eqb text "" then [] else [text]).

(** [rec] splits with the separators that are left, if [more] says there are any. *)
Fixpoint each_split (rec : string -> outcome () (list string)) (more : bool) (splits : list string)
    : outcome () (list string) :=
  match splits with
  | [] => Returns []
  | split :: splits =>
      if String.eqb split "" then each_split rec more splits
      else
        let splitLen := lengthFunction r split in
        (if splitLen <? chunkSize r then Returns [split]
         else if (chunkSize r <? splitLen) && more then rec split
         else forceSplit (String.length split) split) ≫= λ here,
        each_split rec more splits ≫= λ finalChunks,
        Returns (here ++ finalChunks)%list
  end.

Fixpoint splitText (seps : list string) (text : string) : outcome () (list string) :=
  match seps with
  | [] => each_split (λ _, Returns []) false (splitByCharacters text)
  | sep :: newSeparators =>
      if String.eqb sep "" || Contains text sep then
        let splits := if String.eqb sep "" then splitByCharacters text else splitBySeparator text sep in
        each_split (splitText newSeparators) (negb (List.length newSeparators =? 0)%nat) splits
      else splitText newSeparators text
  end.

(** ** Merging *)

(** [docs] from the end. *)
Fixpoint overlap_from (docs : list string) (overlapDocs : list string) (overlapLen : Z) : outcome () (list string) :=
  match docs with
  | [] => Returns overlapDocs
  | doc :: docs =>
      if overlapLen <? chunkOverlap r then
        let docLen := lengthFunction r doc in
        if overlapLen + docLen <=? chunkOverlap r
        then overlap_from docs (doc :: overlapDocs) (overlapLen + docLen)
        else
          let remainingLen := chunkOverlap r - overlapLen in
          if (0 <? remainingLen) && (remainingLen <? docLen)
          then slice_from (len doc - remainingLen) doc ≫= λ partialDoc, Returns (partialDoc :: overlapDocs)
          else Returns overlapDocs
      else Returns overlapDocs
  end.
Definition getOverlapDocs (docs : list string) : outcome () (list string) :=
  if (chunkOverlap r =? 0) || (List.length docs =? 0)%nat then Returns [] else overlap_from (rev docs) [] 0.

Definition createChunk (docs : list string) (index : Z) (metadata : gmap string any) (startChar endChar : Z) : TextChunk :=
  let content := Join docs "" in
  MkChunk content index (lengthFunction r content) startChar endChar
    (<["config" := AMap (list_to_map [("chunk_size", AInt (chunkSize r)); ("chunk_overlap", AInt (chunkOverlap r))])]>
      (<["chunk_index" := AInt index]> (<["chunking_method" := AString "recursive_character"]> metadata))).

Definition total (docs : list string) : Z := foldl (λ n doc, n + lengthFunction r doc) 0 docs.

Record merging := MkMerging {
  chunks : list TextChunk;
  currentDocs : list string;
  currentLen : Z;
  startChar : Z;
  currentChar : Z;
}.

Definition chunk_now (metadata : gmap string any) (m : merging) : TextChunk :=
  createChunk (currentDocs m) (Z.of_nat (List.length (chunks m))) metadata (startChar m) (currentChar m).

(** The chunk is finished and the next one begins with the overlap. *)
Definition finish_chunk (metadata : gmap string any) (m : merging) : outcome () merging :=
  getOverlapDocs (currentDocs m) ≫= λ docs,
  Returns (MkMerging (chunks m ++ [chunk_now metadata m])%list docs (total docs) (currentChar m - total docs) (currentChar m)).

Definition merge_one (metadata : gmap string any) (m : merging) (split : string) : outcome () merging :=
  let splitLen := lengthFunction r split in
  (if (0 <? currentLen m) && (chunkSize r <? currentLen m + splitLen) then finish_chunk metadata m else Returns m) ≫= λ m,
  Returns (MkMerging (chunks m) (currentDocs m ++ [split])%list (currentLen m + splitLen) (startChar m) (currentChar m + splitLen)).

Fixpoint merge_all (metadata : gmap string any) (splits : list string) (m : merging) : outcome () merging :=
  match splits with
  | [] => Returns m
  | split :: splits => merge_one metadata m split ≫= merge_all metadata splits
  end.

Definition mergeSplits (splits : list string) (metadata : gmap string any) : outcome () (list TextChunk) :=
  if (List.length splits =? 0)%nat then Returns []
  else
    merge_all metadata splits (MkMerging [] [] 0 0 0) ≫= λ m,
    Returns (if (0 <? List.length (currentDocs m))%nat then (chunks m ++ [chunk_now metadata m])%list else chunks m).

Definition Chunk (text : string) (metadata : gmap string any) : outcome () (list TextChunk) :=
  if String.eqb text "" then Returns []
  else splitText (separators r) text ≫= λ splits, mergeSplits splits metadata.
End splitter.

(** ** Splitting at a separator *)

Lemma byte_get_some s n a : String.get n s = Some a -> (n < String.length s)%nat.
Proof. revert n. induction s as [|b s IH]; intros [|n]; simpl; [done..|lia|]. intros H%IH. lia. Qed.

Lemma Join_split_from sep skip s p ps :
  sep ≠ "" -> split_from skip s sep = (p, ps) -> Join (p :: ps) sep = drop_bytes skip s.
Proof.
  intros Hsep. revert skip p ps. induction s as [|a s IH]; intros skip p ps.
  { cbn [split_from]. intros [= <- <-]. by destruct skip. }
  cbn [split_from]. destruct skip as [|skip]; [|apply IH].
  destruct (HasPrefix (String a s) sep) eqn:Hp.
  - destruct (split_from (String.length sep - 1) s sep) as [q qs] eqn:Hs. intros [= <- <-].
    apply prefix_split in Hp as (t & Ht). destruct sep as [|b sep]; [done|]. rewrite app_cons in Ht. injection Ht as <- ->.
    apply IH in Hs. change (Join ("" :: q :: qs) (String a sep)) with (String a sep +:+ Join (q :: qs) (String a sep)).
    rewrite Hs. simpl String.length. by rewrite Nat.sub_succ, Nat.sub_0_r, drop_app, app_cons.
  - destruct (split_from 0 s sep) as [q qs] eqn:Hs. intros [= <- <-]. apply IH in Hs. cbn [drop_bytes] in *.
    rewrite <- Hs. by destruct qs.
Qed.

Lemma Join_Split s sep : sep ≠ "" -> Join (Split s sep) sep = s.
Proof. intros Hsep. unfold Split. destruct (split_from 0 s sep) as [p ps] eqn:H. by apply Join_split_from in H. Qed.

Lemma Join_with_separator sep l : Join (with_separator sep l) "" = Join l sep.
Proof.
  induction l as [|x l IH]; [done|]. destruct l as [|y l].
  - simpl. destruct (String.eqb_spec x ""); by subst.
  - change (with_separator sep (x :: y :: l)) with ((x +:+ sep) :: with_separator sep (y :: l)).
    change (Join (x :: y :: l) sep) with (x +:+ (sep +:+ Join (y :: l) sep)). by rewrite Join_cons, IH, app_assoc_s.
Qed.

Definition ascii_char (a : ascii) : Prop := (Ascii.N_of_ascii a < 128)%N.
Definition ascii_string (s : string) : Prop := Forall ascii_char (String.list_ascii_of_string s).

Lemma utf8_char a s : ascii_char a -> utf8 s -> utf8 (String a s).
Proof.
  intros Ha (rs & Hv & ->). unfold ascii_char in Ha.
  assert (valid_rune (Z.of_N (Ascii.N_of_ascii a)) = true) as Hr by (apply orb_true_iff; left; apply between_true; lia).
  exists (Z.of_N (Ascii.N_of_ascii a) :: rs). split; [by constructor|]. change (?x :: rs) with ([x] ++ rs)%list.
  rewrite string_of_runes_app. change (String a ?x) with (String a "" +:+ x). f_equal. unfold string_of_runes.
  cbn [mbind list_bind]. rewrite app_nil_r. unfold encode_rune. rewrite Hr. cbn [negb].
  destruct (Z.ltb_spec (Z.of_N (Ascii.N_of_ascii a)) 0x80); [|lia].
  unfold string_of. simpl. by rewrite N2Z.id, Ascii.ascii_N_embedding.
Qed.

Lemma utf8_ascii s : ascii_string s -> utf8 s.
Proof. induction s as [|a s IH]; [intros _; apply utf8_empty|]. intros [Ha Hs]%Forall_cons. apply utf8_char; auto. Qed.

Lemma utf8_strip s t : ascii_string s -> utf8 (s +:+ t) -> utf8 t.
Proof.
  induction s as [|a s IH]; [done|]. intros [Ha Hs]%Forall_cons Hu. apply IH; [done|].
  by apply (utf8_cut "" a (s +:+ t)).
Qed.

Lemma utf8_with_separator sep l :
  sep ≠ "" -> ascii_string sep -> utf8 (Join l sep) -> Forall utf8 (with_separator sep l).
Proof.
  intros Hne Hsep. induction l as [|x l IH]; [constructor|]. destruct l as [|y l].
  - simpl. intros Hx. destruct (String.eqb x ""); by repeat constructor.
  - change (Join (x :: y :: l) sep) with (x +:+ (sep +:+ Join (y :: l) sep)). intros Hu.
    destruct sep as [|a sep]; [done|]. pose proof Hsep as [Ha Hs]%Forall_cons.
    destruct (utf8_cut x a _ Hu Ha) as [Hx Hrest]. apply utf8_strip in Hrest; [|done].
    change (with_separator (String a sep) (x :: y :: l)) with
      ((x +:+ String a sep) :: with_separator (String a sep) (y :: l)).
    constructor; [|by apply IH]. apply utf8_app; [done|by apply utf8_ascii].
Qed.

(** ** Splitting into characters *)

Lemma groups_join fuel n rs :
  (0 < n)%nat -> (length rs <= fuel)%nat -> Join (string_of_runes <$> groups fuel n rs) "" = string_of_runes rs.
Proof.
  intros Hn. revert rs. induction fuel as [|fuel IH]; intros [|r rs] Hf; simpl in Hf; [done|lia|done|].
  cbn [groups fmap list_fmap]. rewrite Join_cons, IH by (rewrite length_drop; simpl; lia).
  by rewrite <- string_of_runes_app, take_drop.
Qed.

Lemma groups_valid fuel n rs :
  Forall (λ r, valid_rune r = true) rs -> Forall utf8 (string_of_runes <$> groups fuel n rs).
Proof.
  revert rs. induction fuel as [|fuel IH]; intros [|r rs] Hv; [constructor..|]. cbn [groups fmap list_fmap].
  constructor; [|apply IH, Forall_drop, Hv]. exists (take n (r :: rs)). split; [by apply Forall_take|done].
Qed.

(** ** The splitter by bytes *)

Section laws.
Context (r : RecursiveCharacterSplitter).
Context (Hlen : lengthFunction r = len) (Hsize : 0 < chunkSize r) (Hoverlap : 0 <= chunkOverlap r).

Definition piece (s : string) : Prop := s ≠ "" /\ len s <= chunkSize r + 1.

Lemma split_point text :
  chunkSize r < len text -> 0 < findSplitPoint r text <= len text /\ findSplitPoint r text <= chunkSize r + 1.
Proof.
  intros Ht. unfold findSplitPoint. rewrite Hlen. destruct (Z.leb_spec (len text) (chunkSize r)); [lia|].
  destruct (List.find _ _) as [i|] eqn:Hf; [|lia]. apply find_some in Hf as [Hin Hsp].
  unfold candidates in Hin. apply list_elem_of_In, list_elem_of_fmap in Hin as (k & -> & Hk%elem_of_seq).
  unfold is_space_at in Hsp. destruct (String.get _ _) as [a|] eqn:Hg; [|done]. apply byte_get_some in Hg.
  unfold len in *. Z.to_euclidean_division_equations. lia.
Qed.

Lemma forceSplit_spec fuel text :
  (String.length text <= fuel)%nat ->
  ∃ l, forceSplit r fuel text = Returns l /\ Forall piece l /\ Join l "" = text.
Proof.
  revert text. induction fuel as [|fuel IH]; intros text Hf; cbn [forceSplit]; rewrite Hlen;
    destruct (Z.ltb_spec (chunkSize r) (len text)) as [Ht|Ht].
  - unfold len in Ht. lia.
  - destruct text; [|simpl in Hf; lia]. by exists [].
  - destruct (split_point text Ht) as [Hsp Hsp'].
    destruct (slices (findSplitPoint r text) text) as (p & q & -> & -> & Htext & Hp & Hq); [lia|]. cbn [mbind outcome_bind].
    destruct (IH q) as (l & -> & Hl & Hj); [unfold len in *; lia|]. exists (p :: l). split; [done|]. split.
    + constructor; [|done]. split; [|lia]. intros ->. unfold len in Hp. simpl in Hp. lia.
    + by rewrite Join_cons, Hj.
  - destruct (String.eqb_spec text "") as [->|Hne]; [by exists []|]. exists [text]. split; [done|]. split; [|done].
    constructor; [|constructor]. split; [done|lia].
Qed.

(** What a way of splitting achieves: small pieces, that make up the text if separators are
    kept and [P]. *)
Definition splits_well (P : Prop) (f : string -> outcome () (list string)) : Prop :=
  ∀ s, ∃ l, f s = Returns l /\ Forall piece l /\ (P -> utf8 s -> Join l "" = s).

Lemma each_split_spec P rec (more : bool) splits :
  (more = true -> splits_well P rec) ->
  ∃ l, each_split r rec more splits = Returns l /\ Forall piece l /\
    (P -> Forall utf8 splits -> Join l "" = Join splits "").
Proof.
  intros Hrec. induction splits as [|x splits (l & IHl & IHp & IHj)]; [by exists []|].
  cbn [each_split]. destruct (String.eqb_spec x "") as [->|Hx].
  { exists l. split; [done|]. split; [done|]. intros Hk [_ Hu]%Forall_cons. by rewrite Join_cons, IHj. }
  rewrite IHl.
  assert (∃ h, (if lengthFunction r x <? chunkSize r then Returns [x]
     else if (chunkSize r <? lengthFunction r x) && more then rec x else forceSplit r (String.length x) x) = Returns h /\
     Forall piece h /\ (P -> utf8 x -> Join h "" = x)) as (h & -> & Hp & Hj).
  { rewrite Hlen. destruct (Z.ltb_spec (len x) (chunkSize r)).
    - exists [x]. split; [done|]. split; [|done]. constructor; [|constructor]. split; [done|lia].
    - destruct (_ && _) eqn:Hm; [apply Hrec; by apply andb_prop in Hm as [_ ?]|].
      destruct (forceSplit_spec (String.length x) x) as (h & -> & Hp & Hj); [lia|]. by exists h. }
  exists (h ++ l)%list. split; [done|]. split; [by apply Forall_app|].
  intros Hk [Hu Hus]%Forall_cons. by rewrite Join_app, Join_cons, Hj, IHj.
Qed.

(** The parts of a separation, split further. *)
Lemma parts_split P rec (more : bool) text splits :
  (more = true -> splits_well P rec) -> (P -> utf8 text -> Join splits "" = text /\ Forall utf8 splits) ->
  ∃ l, each_split r rec more splits = Returns l /\ Forall piece l /\ (P -> utf8 text -> Join l "" = text).
Proof.
  intros Hrec Hs. destruct (each_split_spec P rec more splits Hrec) as (l & Hl & Hp & Hj). exists l.
  split; [done|]. split; [done|]. intros HP Hu. destruct (Hs HP Hu) as [Hjoin Hus]. by rewrite Hj.
Qed.

Lemma characters_join text : utf8 text -> Join (splitByCharacters r text) "" = text /\ Forall utf8 (splitByCharacters r text).
Proof.
  intros Hu. unfold splitByCharacters. rewrite groups_join by lia. split; [by apply utf8_runes|].
  destruct Hu as (rs & Hv & ->). rewrite runes_string_of_runes by done. by apply groups_valid.
Qed.

Lemma separator_join text sep :
  sep ≠ "" -> ascii_string sep -> keepSeparator r = true -> utf8 text ->
  Join (splitBySeparator r text sep) "" = text /\ Forall utf8 (splitBySeparator r text sep).
Proof.
  intros Hne Ha Hk Hu. unfold splitBySeparator. rewrite (proj2 (String.eqb_neq sep "") Hne), Hk.
  rewrite Join_with_separator, Join_Split by done. split; [done|]. apply utf8_with_separator; [done..|].
  by rewrite Join_Split.
Qed.

Definition kept (seps : list string) : Prop := keepSeparator r = true /\ Forall ascii_string seps.

Lemma splitText_spec seps : splits_well (kept seps) (splitText r seps).
Proof.
  induction seps as [|sep seps IH]; intros text; cbn [splitText].
  { apply parts_split; [done|]. intros _. apply characters_join. }
  assert (splits_well (kept (sep :: seps)) (splitText r seps)) as Hrec.
  { intros s. destruct (IH s) as (l & Hl & Hp & Hj). exists l. split_and!; [done..|].
    intros [Hk [_ Hs]%Forall_cons]. by apply Hj. }
  destruct (String.eqb_spec sep "") as [->|Hne]; cbn [orb].
  - apply parts_split; [done|]. intros _. apply characters_join.
  - destruct (Contains text sep); [|apply Hrec]. apply parts_split; [done|].
    intros [Hk [Hsep _]%Forall_cons]. by apply separator_join.
Qed.

(** ** Overlap *)

Lemma overlap_from_spec docs acc :
  len (Join acc "") <= chunkOverlap r ->
  ∃ l pre, overlap_from r docs acc (len (Join acc "")) = Returns l /\ Join (rev docs ++ acc)%list "" = pre +:+ Join l "" /\
  len (Join l "") <= chunkOverlap r.
Proof.
  revert acc. induction docs as [|d docs IH]; intros acc Ha.
  { exists acc, "". done. }
  cbn [overlap_from rev]. rewrite Hlen. rewrite <- app_assoc. cbn [app].
  assert (∃ l pre, Returns (E := ()) acc = Returns l /\ Join (rev docs ++ d :: acc)%list "" = pre +:+ Join l "" /\
    len (Join l "") <= chunkOverlap r) as Hstop.
  { exists acc, (Join (rev docs) "" +:+ d). by rewrite Join_app, Join_cons, app_assoc_s. }
  destruct (Z.ltb_spec (len (Join acc "")) (chunkOverlap r)) as [Hlt|]; [|done].
  destruct (Z.leb_spec (len (Join acc "") + len d) (chunkOverlap r)) as [Hle|Hgt].
  - assert (len (Join acc "") + len d = len (Join (d :: acc) "")) as Heq by (rewrite Join_cons, len_app; lia).
    rewrite Heq. apply IH. lia.
  - destruct (_ && _); [|done].
    destruct (slices (len d - (chunkOverlap r - len (Join acc ""))) d) as (p & q & _ & -> & Hd & Hp & Hq);
      [pose proof (len_nonneg d); lia|]. cbn [mbind outcome_bind].
    exists (q :: acc), (Join (rev docs) "" +:+ p). split; [done|]. rewrite Join_app, !Join_cons, len_app. split; [|lia].
    rewrite Hd at 1. by rewrite !app_assoc_s.
Qed.

Lemma overlap_spec docs :
  ∃ l pre, getOverlapDocs r docs = Returns l /\ Join docs "" = pre +:+ Join l "" /\ len (Join l "") <= chunkOverlap r.
Proof.
  unfold getOverlapDocs. destruct (_ || _).
  - exists [], (Join docs ""). split; [done|]. split; [by rewrite app_empty_r|]. done.
  - destruct (overlap_from_spec (rev docs) []) as (l & pre & H & Hj & Hl); [done|].
    exists l, pre. rewrite rev_involutive, app_nil_r in Hj. done.
Qed.

Lemma total_len docs : total r docs = len (Join docs "").
Proof.
  unfold total. rewrite Hlen. enough (∀ n, foldl (λ n doc, n + len doc) n docs = n + len (Join docs "")) as -> by done.
  induction docs as [|d docs IH]; intros n; [unfold len; simpl; lia|]. simpl foldl. rewrite IH, Join_cons, len_app. lia.
Qed.

(** ** Merging *)

(** [c] is the part of the text between its positions. *)
Definition chunk_of (text : string) (c : TextChunk) : Prop :=
  ∃ pre post, text = pre +:+ (Content c +:+ post) /\ len pre = StartChar c /\ len pre + len (Content c) = EndChar c.

(** The chunks are numbered, are parts of the text that end further and further, each
    begins where the one before has not ended yet or has just ended, and the last ends at [stop]. *)
Fixpoint covers (text : string) (index pos stop : Z) (l : list TextChunk) : Prop :=
  match l with
  | [] => pos = stop
  | c :: l => Index c = index /\ StartChar c <= pos /\ pos < EndChar c /\ chunk_of text c /\
              covers text (index + 1) (EndChar c) stop l
  end.

Lemma covers_more text t i pos stop l : covers text i pos stop l -> covers (text +:+ t) i pos stop l.
Proof.
  revert i pos. induction l as [|c l IH]; intros i pos; [done|]. intros (Hi & Hs & He & (pre & post & -> & Hp & Hq) & Hl).
  cbn [covers]. split_and!; [done..| |by apply IH]. exists pre, (post +:+ t). by rewrite !app_assoc_s.
Qed.

Lemma covers_app text i pos mid stop l c :
  covers text i pos mid l -> Index c = i + Z.of_nat (length l) -> StartChar c <= mid -> mid < EndChar c -> chunk_of text c ->
  EndChar c = stop -> covers text i pos stop (l ++ [c]).
Proof.
  revert i pos. induction l as [|d l IH]; intros i pos.
  - intros -> Hi Hs He Hc <-. simpl. split_and!; [|done..]. simpl in Hi. lia.
  - intros (Hi & Hs & He & Hd & Hl) Hi' Hs' He' Hc Hstop. cbn [covers app]. split_and!; [done..|].
    apply IH; try done. cbn [length] in Hi'. lia.
Qed.

Definition limit : Z := chunkSize r + chunkOverlap r + 1.
Definition small (c : TextChunk) : Prop := len (Content c) <= limit.

(** What has been merged so far: the chunks cover it up to [e], and the documents that are
    left are its end. *)
Record merged (T : string) (m : merging) (e : Z) : Prop := {
  merged_covers : covers T 0 0 e (chunks m);
  merged_small : Forall small (chunks m);
  merged_char : currentChar m = len T;
  merged_len : currentLen m = len (Join (currentDocs m) "");
  merged_docs : ∃ pre, T = pre +:+ Join (currentDocs m) "" /\ len pre = startChar m;
  merged_start : startChar m <= e <= len T;
  merged_limit : len (Join (currentDocs m) "") <= limit;
}.

Lemma merged_app T m e metadata :
  merged T m e -> e < len T -> covers T 0 0 (len T) (chunks m ++ [chunk_now r metadata m]) /\
  Forall small (chunks m ++ [chunk_now r metadata m]).
Proof.
  intros [Hc Hsm Hchar Hl (pre & HT & Hpre) Hs Hlim] He. split.
  - eapply covers_app; [exact Hc|..]; simpl.
    + done.
    + lia.
    + lia.
    + exists pre, "". simpl. rewrite app_empty_r. split; [done|]. split; [done|]. rewrite Hchar, HT, len_app. done.
    + done.
  - apply Forall_app. split; [done|]. by repeat constructor.
Qed.

Lemma merge_one_spec T m e metadata x :
  merged T m e -> (0 < currentLen m -> e < len T) -> piece x ->
  ∃ m' e', merge_one r metadata m x = Returns m' /\ merged (T +:+ x) m' e' /\ e' < len (T +:+ x) /\ 0 < currentLen m'.
Proof.
  intros Hm He [Hx Hpx]. pose proof (len_pos x Hx) as Hx0. unfold merge_one. rewrite Hlen.
  assert (∃ m1 e1, (if (0 <? currentLen m) && (chunkSize r <? currentLen m + len x) then finish_chunk r metadata m else Returns m)
    = Returns m1 /\ merged T m1 e1 /\ currentLen m1 + len x <= limit) as (m1 & e1 & -> & [Hc Hsm Hchar Hl (pre & HT & Hpre) Hs Hlim] & Hfit).
  { pose proof Hm as [_ _ Hchar Hl (pre & HT & Hpre) Hs Hlim].
    destruct (Z.ltb_spec 0 (currentLen m)) as [Hpos|]; cbn [andb].
    2:{ exists m, e. split; [done|]. split; [done|]. unfold limit. lia. }
    destruct (Z.ltb_spec (chunkSize r) (currentLen m + len x)).
    2:{ exists m, e. split; [done|]. split; [done|]. unfold limit. lia. }
    unfold finish_chunk. destruct (overlap_spec (currentDocs m)) as (docs & opre & -> & Hj & Hov). cbn [mbind outcome_bind].
    eexists _, (len T). split; [done|]. destruct (merged_app T m e metadata Hm (He Hpos)) as [Hc' Hsm'].
    pose proof (len_nonneg (Join docs "")). split; [split; cbn [chunks currentDocs currentLen startChar currentChar]|].
    - done.
    - done.
    - done.
    - apply total_len.
    - exists (pre +:+ opre). split; [rewrite HT, Hj; by rewrite app_assoc_s|]. rewrite total_len, Hchar, HT, Hj, !len_app. lia.
    - rewrite total_len, Hchar. lia.
    - unfold limit. lia.
    - cbn [currentLen]. rewrite total_len. unfold limit. lia. }
  cbn [mbind outcome_bind]. eexists _, e1. split; [done|]. rewrite len_app. split; [|split; [lia|]].
  2:{ cbn [currentLen]. pose proof (len_nonneg (Join (currentDocs m1) "")). lia. }
  split; cbn [chunks currentDocs currentLen startChar currentChar].
  - by apply covers_more.
  - done.
  - rewrite len_app. lia.
  - rewrite Join_app, len_app, Join_cons, app_empty_r. lia.
  - exists pre. split; [|done]. rewrite HT, Join_app, Join_cons, app_empty_r. by rewrite app_assoc_s.
  - rewrite len_app. lia.
  - rewrite Join_app, len_app, Join_cons, app_empty_r. lia.
Qed.

Lemma merge_all_spec T m e metadata splits :
  merged T m e -> (0 < currentLen m -> e < len T) -> Forall piece splits ->
  ∃ m' e', merge_all r metadata splits m = Returns m' /\ merged (T +:+ Join splits "") m' e' /\
    (0 < currentLen m' -> e' < len (T +:+ Join splits "")) /\ (0 < currentLen m \/ splits ≠ [] -> 0 < currentLen m').
Proof.
  intros Hm He Hp. revert T m e Hm He. induction Hp as [|x splits Hx Hp IH]; intros T m e Hm He.
  - exists m, e. simpl. rewrite app_empty_r. split_and!; try done. by intros [?|?].
  - destruct (merge_one_spec T m e metadata x Hm He Hx) as (m1 & e1 & H1 & Hm1 & He1 & Hd1).
    destruct (IH (T +:+ x) m1 e1 Hm1 (λ _, He1)) as (m2 & e2 & H2 & Hm2 & Hne2 & Hpos2).
    exists m2, e2. cbn [merge_all]. rewrite H1. cbn [mbind outcome_bind]. rewrite Join_cons, <- app_assoc_s.
    split_and!; [done..|]. intros _. apply Hpos2. by left.
Qed.

Lemma mergeSplits_spec splits metadata :
  Forall piece splits ->
  ∃ l, mergeSplits r splits metadata = Returns l /\ covers (Join splits "") 0 0 (len (Join splits "")) l /\ Forall small l.
Proof.
  intros Hp. unfold mergeSplits. destruct splits as [|x splits]; [by exists []|]. cbn [length Nat.eqb].
  assert (merged "" (MkMerging [] [] 0 0 0) 0) as Hm0.
  { split; try done. - by exists "". - unfold limit, len. simpl. lia. }
  destruct (merge_all_spec "" _ 0 metadata (x :: splits) Hm0) as (m & e & -> & Hm & He & Hpos); [done..|].
  cbn [mbind outcome_bind]. change ("" +:+ ?s) with s in *.
  assert (0 < currentLen m) as Hl by (apply Hpos; by right).
  destruct (currentDocs m) as [|d docs] eqn:Hd.
  { rewrite (merged_len _ _ _ Hm), Hd in Hl. done. }
  cbn [length Nat.ltb Nat.leb]. eexists. split; [done|]. by apply (merged_app _ m e), He.
Qed.
End laws.

(** ** The result *)

(** C1. Chunking by bytes always ends, without a panic, in chunks that are no longer than the size and
    the overlap together, and one more.  If separators are kept and are ASCII, the chunks of
    a valid UTF-8 text are exactly its parts from [StartChar] to [EndChar]: the first begins
    at the beginning, each begins not after the end of the one before and ends later, and
    the last ends at the end. *)
Theorem chunks_cover_text seps size overlap keep text metadata :
  let r := NewRecursiveCharacterSplitter seps size overlap None keep in
  ∃ l, Chunk r text metadata = Returns l /\ Forall (small r) l /\
    (keep = true -> Forall ascii_string seps -> utf8 text -> covers text 0 0 (len text) l).
Proof.
  intros r. assert (0 < chunkSize r /\ 0 <= chunkOverlap r) as (Hs & Ho).
  { unfold r, NewRecursiveCharacterSplitter. simpl. split; bool_cases; lia. }
  unfold Chunk. destruct (String.eqb_spec text "") as [->|Hne]; [by exists []|].
  destruct (splitText_spec r eq_refl Hs (separators r) text) as (splits & -> & Hp & Hj). cbn [mbind outcome_bind].
  destruct (mergeSplits_spec r eq_refl Hs Ho splits metadata Hp) as (l & -> & Hc & Hsm). exists l. split_and!; [done..|].
  intros -> Hseps Hu. rewrite Hj in Hc; [done| |done]. split; [done|]. simpl. destruct seps; [|done].
  apply (bool_decide_eq_true_1 _). vm_compute. reflexivity.
Qed.

(** ** Examples *)

Definition chunked (x : outcome () (list TextChunk)) : list (string * Z * Z) :=
  match x with Returns l => (λ c, (Content c, StartChar c, EndChar c)) <$> l | _ => [] end.

Example kept_separators :
  chunked (Chunk (NewRecursiveCharacterSplitter [] 10 3 None true) "Hello world. This is fine" ∅) =
  [("Hello ", 0, 6); ("lo world. ", 3, 13); ("d. This ", 10, 18); ("is is fine", 15, 25)].
Proof. vm_compute. reflexivity. Qed.

(** Without separators the words run into each other and the positions are not those of the text. *)
Example dropped_separators :
  chunked (Chunk (NewRecursiveCharacterSplitter [] 10 0 None false) "Hello world. This is fine" ∅) =
  [("Helloworld", 0, 10); ("Thisisfine", 10, 20)].
Proof. vm_compute. reflexivity. Qed.

(** A word that is cut at a space is one byte longer than the size, and one that is cut
    elsewhere may be cut within a rune. *)
Example one_too_long :
  chunked (Chunk (NewRecursiveCharacterSplitter ["."] 4 0 None true) "..aaaa bbbb" ∅) =
    [("..", 0, 2); ("aaaa ", 2, 7); ("bbbb", 7, 11)] /\
  (bytes_of ∘ fst ∘ fst) <$> chunked (Chunk (NewRecursiveCharacterSplitter ["."] 3 0 None true) ".éé" ∅)
    = [[0x2E]; [0xC3; 0xA9; 0xC3]; [0xA9]].
Proof. split; vm_compute; reflexivity. Qed.

(** A length function that counts more than bytes makes the slice panic. *)
Example panics_on_weights :
  Chunk (NewRecursiveCharacterSplitter ["."] 4 0 (Some (λ s, 2 * len s)) true) ".abc" ∅ = Panics.
Proof. vm_compute. reflexivity. Qed.
