(* ===== verification/Tokenizer.v ===== *)
(** * Tokenizer: counting tokens and packing contexts

    [pkg/tokenizer/tokenizer.go] ([CountTokens], [Tokenize]) and
    [pkg/tokenizer/context_packer.go].  [TikTokenTokenizer] hands everything over to the
    simple tokenizer. *)

From stdpp Require Import base decidable gmap strings list.
From Stdlib Require Import ZArith Ascii Lia.
From S2P Require Import Prelude GoFloat Utf8 GoStrings GoParse GoAny UnicodeText.

Local Open Scope string_scope.
Local Open Scope Z_scope.

(** ** The interface *)

Class Tokenizer := {
  CountTokens : string -> Z;
  Tokenize : string -> list string;
  GetTokenLimit : Z;
}.

(** ** The simple tokenizer *)

Module Simple.
Section simple.
Context {unicode : Unicode}.

(** The loop over the runes, with the number of tokens and [inWord]. *)
Definition count_rune (acc : Z * bool) (r : Z) : Z * bool :=
  let '(tokens, inWord) := acc in
  if IsSpace r then (if inWord then (tokens + 1, false) else acc)
  else if IsPunct r then (tokens + 1, false)
  else (tokens, true).

Definition CountTokens (text : string) : Z :=
  if String.eqb text "" then 0
  else
    let '(tokens, inWord) := foldl count_rune (0, false) (runes text) in
    let tokens := if inWord then tokens + 1 else tokens in
    let wordCount := Z.of_nat (List.length (Fields text)) in
    let estimatedTokens := f64_to_int (f64_mul (f64_of_Z wordCount) (f64_const 13 10)) in
    if tokens <? estimatedTokens then estimatedTokens else tokens.

Definition flush_token (acc : list string * list Z) : list string :=
  let '(tokens, cur) := acc in match cur with [] => tokens | _ => (tokens ++ [string_of_runes cur])%list end.

(** The loop over the runes, with the tokens and the current one. *)
Definition token_rune (acc : list string * list Z) (r : Z) : list string * list Z :=
  if IsSpace r then
    let tokens := flush_token acc in ((if r =? 10 then tokens ++ [newline] else tokens)%list, [])
  else if IsPunct r then ((flush_token acc ++ [string_of_runes [r]])%list, [])
  else (acc.1, (acc.2 ++ [r])%list).

Definition Tokenize (text : string) : list string := flush_token (foldl token_rune ([], []) (runes text)).

Definition NewSimpleTokenizer (tokenLimit : Z) : Tokenizer :=
  {| Tokenizer.CountTokens := CountTokens; Tokenizer.Tokenize := Tokenize; GetTokenLimit := if tokenLimit <=? 0 then 8192 else tokenLimit |}.

Definition model_limits : list (string * Z) :=
  [("gpt-4", 8192); ("gpt-4-32k", 32768); ("gpt-3.5-turbo", 4096); ("gpt-3.5-turbo-16k", 16384);
   ("text-embedding-3-small", 8191); ("text-embedding-3-large", 8191)].
Definition NewTikTokenTokenizer (model : string) : Tokenizer :=
  NewSimpleTokenizer (get 8192 (list_to_map model_limits : gmap string Z) model).
End simple.

(** A word that is followed by punctuation is not counted. *)
Example words_before_punctuation :
  let _ := ascii_unicode in
  Tokenize "Hello, world." = ["Hello"; ","; "world"; "."] /\ CountTokens "Hello, world." = 2.
Proof. split; vm_compute; reflexivity. Qed.
End Simple.

(** ** The context packer *)

Module ContextItem.
Record t := Mk {
  ID : string;
  ContextID : string;
  Content : string;
  Type_ : string;
  Score : float64;
  Metadata : gmap string any;
}.
End ContextItem.

Section packer.
Context {tokenizer : Tokenizer}.
Implicit Types item : ContextItem.t.

Definition formatContextItem item : string :=
  let type_part := if String.eqb (ContextItem.Type_ item) "" then [] else ["[" +:+ ContextItem.Type_ item +:+ "]"] in
  let time_part := match as_string (field (ContextItem.Metadata item) "timestamp") with
                   | Some timestamp => ["(at " +:+ timestamp +:+ ")"]
                   | None => []
                   end in
  Join (type_part ++ [ContextItem.Content item] ++ time_part)%list " ".

Definition countItemTokens item : Z := CountTokens (formatContextItem item).

Definition canSplitItem item : bool :=
  if String.eqb (ContextItem.Type_ item) "error" then false
  else match as_bool (field (ContextItem.Metadata item) "is_critical") with
       | Some true => false
       | _ => 500 <? len (ContextItem.Content item)
       end.

Definition partial_item item (splitPoint : Z) : outcome () ContextItem.t :=
  slice_to splitPoint (ContextItem.Content item) ≫= λ truncated,
  Returns (ContextItem.Mk (ContextItem.ID item +:+ "_partial") (ContextItem.ContextID item)
    (truncated +:+ "... [truncated]") (ContextItem.Type_ item) (ContextItem.Score item)
    (<["original_length" := AInt (len (ContextItem.Content item))]>
      (<["truncated" := ABool true]> (ContextItem.Metadata item)))).

Fixpoint split_ratios item (maxTokens : Z) (ratios : list float64) : outcome () (option (ContextItem.t * Z)) :=
  match ratios with
  | [] => Returns None
  | ratio :: ratios =>
      partial_item item (f64_to_int (f64_mul (f64_of_Z (len (ContextItem.Content item))) ratio)) ≫= λ partialItem,
      let tokens := countItemTokens partialItem in
      if tokens <=? maxTokens then Returns (Some (partialItem, tokens)) else split_ratios item maxTokens ratios
  end.
Definition splitItem item (maxTokens : Z) : outcome () (option (ContextItem.t * Z)) :=
  split_ratios item maxTokens [f64_const 3 4; f64_const 1 2; f64_const 1 4].

(** The items so far and their tokens. *)
Definition packing : Type := list ContextItem.t * Z.

Fixpoint pack_always (maxTokens : Z) (items : list ContextItem.t) (always : gset string) (p : packing) : packing :=
  match items with
  | [] => p
  | item :: items =>
      if bool_decide (ContextItem.ID item ∈ always) then
        let tokens := countItemTokens item in
        if p.2 + tokens <=? maxTokens
        then pack_always maxTokens items (always ∖ {[ContextItem.ID item]}) ((p.1 ++ [item])%list, p.2 + tokens)
        else pack_always maxTokens items always p
      else pack_always maxTokens items always p
  end.

Definition already_packed (packed : list ContextItem.t) item : bool :=
  existsb (λ packedItem, String.eqb (ContextItem.ID packedItem) (ContextItem.ID item)) packed.

Fixpoint pack_ranked (maxTokens : Z) (items : list ContextItem.t) (p : packing) : outcome () packing :=
  match items with
  | [] => Returns p
  | item :: items =>
      if already_packed p.1 item then pack_ranked maxTokens items p
      else
        let tokens := countItemTokens item in
        if p.2 + tokens <=? maxTokens
        then pack_ranked maxTokens items ((p.1 ++ [item])%list, p.2 + tokens)
        else if canSplitItem item then
          splitItem item (maxTokens - p.2) ≫= λ split,
          Returns match split with
                  | Some (partialItem, partialTokens) => ((p.1 ++ [partialItem])%list, p.2 + partialTokens)
                  | None => p
                  end
        else Returns p
  end.

Definition token_budget (maxTokens : Z) : Z := if maxTokens <=? 0 then GetTokenLimit else maxTokens.

Definition PackContextWindow (rankedItems : list ContextItem.t) (maxTokens : Z) (alwaysInclude : list string)
    : outcome () packing :=
  let maxTokens := token_budget maxTokens in
  pack_ranked maxTokens rankedItems (pack_always maxTokens rankedItems (list_to_set alwaysInclude) ([], 0)).

Definition EstimateContextSize (items : list ContextItem.t) : Z := foldl (λ n item, n + countItemTokens item) 0 items.

Definition GetTokenBudgetUtilization (usedTokens maxTokens : Z) : float64 :=
  if maxTokens <=? 0 then f64_of_Z 0 else f64_div (f64_of_Z usedTokens) (f64_of_Z maxTokens).
End packer.

(** ** The packer keeps within its budget *)

Section budget.
Context {tokenizer : Tokenizer}.
Implicit Types (item : ContextItem.t) (p : packing).

Lemma estimate_app l item : EstimateContextSize (l ++ [item])%list = EstimateContextSize l + countItemTokens item.
Proof. unfold EstimateContextSize. by rewrite foldl_app. Qed.

Lemma already_packed_spec l item : already_packed l item = true <-> ContextItem.ID item ∈ (ContextItem.ID <$> l).
Proof.
  unfold already_packed. rewrite existsb_exists, list_elem_of_fmap. split.
  - intros (y & Hy & Heq%String.eqb_eq). exists y. split; [done|by apply list_elem_of_In].
  - intros (y & Heq & Hy). exists y. split; [by apply list_elem_of_In|by apply String.eqb_eq].
Qed.

(** A packing of whole items of [l]. *)
Record whole (l : list ContextItem.t) (maxTokens : Z) p : Prop := {
  whole_tokens : p.2 = EstimateContextSize p.1;
  whole_budget : p.2 <= maxTokens;
  whole_items : p.1 ⊆ l;
  whole_once : NoDup (ContextItem.ID <$> p.1);
}.

Lemma whole_add l maxTokens p item :
  whole l maxTokens p -> item ∈ l -> ContextItem.ID item ∉ (ContextItem.ID <$> p.1) ->
  p.2 + countItemTokens item <= maxTokens -> whole l maxTokens ((p.1 ++ [item])%list, p.2 + countItemTokens item).
Proof.
  intros [Ht Hb Hi Ho] Hin Hnew Hfit. split; simpl; [by rewrite estimate_app, Ht|done| |].
  - intros x [Hx| ->%list_elem_of_singleton]%elem_of_app; [by apply Hi|done].
  - rewrite fmap_app. apply NoDup_app. split; [done|]. split; [|apply NoDup_singleton].
    intros x Hx ->%list_elem_of_singleton. done.
Qed.

Lemma pack_always_whole l maxTokens items always p :
  items ⊆ l -> (∀ x, x ∈ always -> x ∉ (ContextItem.ID <$> p.1)) -> whole l maxTokens p ->
  whole l maxTokens (pack_always maxTokens items always p).
Proof.
  revert always p. induction items as [|item items IH]; intros always p Hsub Hnew Hp; [done|]. cbn [pack_always].
  assert (item ∈ l /\ items ⊆ l) as [Hitem Hitems].
  { split; [apply Hsub; by left|]. intros x Hx. apply Hsub. by right. }
  case_bool_decide as Ha; [|by apply IH]. destruct (Z.leb_spec (p.2 + countItemTokens item) maxTokens); [|by apply IH].
  apply IH; [done| |by apply whole_add; auto]. simpl. intros x Hx. rewrite fmap_app, not_elem_of_app. split.
  - apply Hnew. set_solver.
  - cbn [fmap list_fmap]. set_solver.
Qed.

(** What comes of the second pass: whole items, and part of one more. *)
Definition packed_well (l : list ContextItem.t) (maxTokens : Z) p : Prop :=
  ∃ items tokens part, whole l maxTokens (items, tokens) /\ p.1 = (items ++ part)%list /\ (length part <= 1)%nat /\
  p.2 = EstimateContextSize p.1 /\ p.2 <= maxTokens.

Lemma split_ratios_fits item n ratios partial tokens :
  split_ratios item n ratios = Returns (Some (partial, tokens)) -> tokens = countItemTokens partial /\ tokens <= n.
Proof.
  induction ratios as [|r ratios IH]; [done|]. cbn [split_ratios]. destruct (partial_item _ _) as [i|[]|]; [|done..].
  cbn [mbind outcome_bind]. destruct (Z.leb_spec (countItemTokens i) n); [|done]. by intros [= <- <-].
Qed.

Lemma splitItem_not_fuel item n : ∀ u, splitItem item n ≠ Fails u.
Proof.
  intros u. unfold splitItem. generalize [f64_const 3 4; f64_const 1 2; f64_const 1 4]. intros ratios.
  induction ratios as [|r ratios IH]; [done|]. cbn [split_ratios]. unfold partial_item, slice_to.
  destruct (_ && _); [|done]. cbn [mbind outcome_bind]. by destruct (_ <=? _).
Qed.

Lemma pack_ranked_whole l maxTokens items p :
  items ⊆ l -> whole l maxTokens p ->
  match pack_ranked maxTokens items p with
  | Returns q => packed_well l maxTokens q
  | Fails _ => False
  | Panics => ∃ item n, item ∈ l /\ canSplitItem item = true /\ splitItem item n = Panics
  end.
Proof.
  revert p. induction items as [|item items IH]; intros p Hsub Hp.
  { destruct p as [packed n]. exists packed, n, []. rewrite app_nil_r. destruct Hp as [Ht Hb Hi Ho]. simpl in *.
    split; [by split|]. split_and!; done || lia. }
  assert (item ∈ l /\ items ⊆ l) as [Hitem Hitems].
  { split; [apply Hsub; by left|]. intros x Hx. apply Hsub. by right. }
  cbn [pack_ranked]. destruct (already_packed p.1 item) eqn:Ha; [by apply IH|].
  assert (ContextItem.ID item ∉ (ContextItem.ID <$> p.1)) as Hnew.
  { intros H. apply already_packed_spec in H. by rewrite Ha in H. }
  destruct (Z.leb_spec (p.2 + countItemTokens item) maxTokens) as [Hfit|_]; [apply IH; [done|by apply whole_add]|].
  assert (packed_well l maxTokens p) as Hstay.
  { destruct p as [packed n]. exists packed, n, []. rewrite app_nil_r. destruct Hp as [Ht Hb Hi Ho]. simpl in *.
    split; [by split|]. split_and!; done || lia. }
  destruct (canSplitItem item) eqn:Hc; [|done].
  destruct (splitItem item (maxTokens - p.2)) as [[[part n]|]|u|] eqn:Hs; cbn [mbind outcome_bind].
  - apply split_ratios_fits in Hs as [-> Hn]. destruct p as [packed k]. exists packed, k, [part]. simpl in *.
    destruct Hp as [Ht Hb Hi Ho]. simpl in *. split; [by split|]. rewrite estimate_app. split_and!; done || lia.
  - done.
  - by apply splitItem_not_fuel in Hs.
  - by exists item, (maxTokens - p.2).
Qed.
End budget.

(** Packing a context: the number of tokens that comes with the packed items is that of their
    formatted texts and is within the budget; the items are given ones, none of them twice,
    and at the end at most a part of one; nothing else happens, unless the slice of an item
    that may be split panics. *)
Theorem packing_within_budget {tokenizer : Tokenizer} items maxTokens always :
  0 <= token_budget maxTokens ->
  match PackContextWindow items maxTokens always with
  | Returns (packed, n) =>
      n = EstimateContextSize packed /\ n <= token_budget maxTokens /\
      ∃ whole part, packed = (whole ++ part)%list /\ (length part <= 1)%nat /\ whole ⊆ items /\ NoDup (ContextItem.ID <$> whole)
  | Fails _ => False
  | Panics => ∃ item n, item ∈ items /\ canSplitItem item = true /\ splitItem item n = Panics
  end.
Proof.
  intros Hb. unfold PackContextWindow. set (start := pack_always _ _ _ _).
  assert (whole items (token_budget maxTokens) start) as Hstart.
  { apply pack_always_whole; [done|by intros x _ ?%elem_of_nil|].
    split; simpl; [done|done|by intros x ?%elem_of_nil|constructor]. }
  pose proof (pack_ranked_whole items (token_budget maxTokens) items start ltac:(done) Hstart) as H.
  destruct (pack_ranked _ _ _) as [[packed n]|u|]; [|done..].
  destruct H as (l & k & part & [_ _ Hi Ho] & Hp & Hl & Ht & Hm). split_and!; [done..|]. by exists l, part.
Qed.

(** ** Witness and examples *)

Definition simple : Tokenizer := let _ := ascii_unicode in Simple.NewSimpleTokenizer 8192.
#[local] Existing Instance simple.

Definition note (id text : string) : ContextItem.t := ContextItem.Mk id "ctx" text "" (f64_of_Z 1) ∅.
Definition notes : list ContextItem.t := [note "a" "one two three"; note "b" "four five six seven"; note "c" "eight"].

Lemma packing_within_budget_witness :
  PackContextWindow notes 6 ["c"] = Returns ([note "c" "eight"; note "a" "one two three"], 4) /\
  4 <= token_budget 6 /\ ∃ whole part, [note "c" "eight"; note "a" "one two three"] = (whole ++ part)%list /\
  (length part <= 1)%nat /\ whole ⊆ notes /\ NoDup (ContextItem.ID <$> whole).
Proof.
  assert (PackContextWindow notes 6 ["c"] = Returns ([note "c" "eight"; note "a" "one two three"], 4)) as Heq
    by (vm_compute; reflexivity).
  split; [exact Heq|]. pose proof (packing_within_budget notes 6 ["c"] ltac:(vm_compute; discriminate)) as H.
  rewrite Heq in H. apply H.
Defined.

(** An item that is always to be included is left out silently if it does not fit, and the
    packing stops at the first item that does not fit. *)
Example first_that_does_not_fit :
  PackContextWindow notes 5 ["b"] = Returns ([note "b" "four five six seven"], 5) /\
  PackContextWindow notes 4 ["b"] = Returns ([note "a" "one two three"], 3).
Proof. split; vm_compute; reflexivity. Qed.

(** A quarter of a long item is what fits. *)
Example part_of_an_item :
  let words := Join (repeat "word " 110) "" in
  match PackContextWindow [note "l" words] 60 [] with
  | Returns ([item], n) => (ContextItem.ID item, len (ContextItem.Content item), n) = ("l_partial", 152, 37)
  | _ => False
  end.
Proof. vm_compute. reflexivity. Qed.

Lemma simple_count_nonneg {unicode : Unicode} s : 0 <= Simple.CountTokens s.
Proof.
  unfold Simple.CountTokens. destruct (String.eqb s ""); [done|].
  assert (∀ rs acc, 0 <= acc.1 -> 0 <= (foldl Simple.count_rune acc rs).1) as Hf.
  { induction rs as [|r rs IH]; intros [n w] Hn; [done|]. cbn [foldl]. apply IH. unfold Simple.count_rune. simpl in Hn.
    destruct (IsSpace r); [destruct w; simpl; lia|]. destruct (IsPunct r); simpl; lia. }
  specialize (Hf (runes s) (0, false) ltac:(done)). destruct (foldl _ _ _) as [n w]. simpl in Hf.
  destruct (Z.ltb_spec (if w then n + 1 else n) (f64_to_int (f64_mul (f64_of_Z (Z.of_nat (List.length (Fields s)))) (f64_const 13 10))));
    destruct w; lia.
Qed.
