(* ===== verification/SentenceSplitter.v ===== *)
(** * SentenceSplitter: sentences ([pkg/chunking/text/sentence_splitter.go])

    The text is decoded into runes once; positions count runes.  The builder of the current
    sentence is the list of the runes written into it. *)

From stdpp Require Import base decidable list strings.
From Stdlib Require Import ZArith Ascii Lia.
From S2P Require Import Prelude Utf8 GoStrings GoParse GoAny UnicodeText.

Local Open Scope string_scope.
Local Open Scope Z_scope.

(** ** The tables *)

Definition abbreviations : list string :=
  ["mr"; "mrs"; "ms"; "dr"; "prof"; "sr"; "jr"; "ph.d"; "m.d"; "b.a"; "m.a"; "b.s"; "m.s";
   "inc"; "corp"; "co"; "ltd"; "llc"; "vs"; "etc"; "i.e"; "e.g"; "cf"; "al"; "et";
   "jan"; "feb"; "mar"; "apr"; "jun"; "jul"; "aug"; "sep"; "sept"; "oct"; "nov"; "dec";
   "mon"; "tue"; "wed"; "thu"; "fri"; "sat"; "sun";
   "ft"; "in"; "cm"; "mm"; "km"; "kg"; "lb"; "oz"; "pt"; "qt";
   "st"; "ave"; "blvd"; "rd"; "u.s"; "u.k"; "u.s.a";
   "api"; "sdk"; "ui"; "ux"; "db"; "os"; "cpu"; "gpu"; "ram"; "ssd"; "http"; "https"; "ftp"; "ssh"; "oauth"].

Definition starters : list string :=
  ["he"; "she"; "it"; "they"; "we"; "you"; "i"; "the"; "a"; "an"; "this"; "that"; "these"; "those";
   "my"; "your"; "his"; "her"; "our"; "their"; "but"; "and"; "or"; "yet"; "so"; "for"; "nor";
   "however"; "therefore"; "moreover"; "furthermore"; "although"; "though"; "while"; "when"; "where";
   "if"; "because"; "since"; "after"; "before"].

Definition titles : list string := ["dr"; "mr"; "mrs"; "ms"; "prof"; "sr"; "jr"].

Definition among (l : list string) (s : string) : bool := existsb (String.eqb s) l.

Section splitter.
Context {unicode : Unicode}.

Definition isAbbreviation (word : string) : bool := among abbreviations (to_lower (TrimSpace word)).
Definition isSentenceStarter (word : string) : bool := among starters (to_lower word).

(** [runes[i] == c], false outside of the text. *)
Definition is_at (rs : list Z) (i : Z) (c : Z) : bool :=
  (0 <=? i) && match rs !! Z.to_nat i with Some r => r =? c | None => false end.
Definition holds_at (p : Z -> bool) (rs : list Z) (i : Z) : bool :=
  (0 <=? i) && match rs !! Z.to_nat i with Some r => p r | None => false end.
Definition from (rs : list Z) (i : Z) : list Z := drop (Z.to_nat i) rs.
Definition count_of (rs : list Z) : Z := Z.of_nat (List.length rs).

Definition getNextWord (rs : list Z) (start : Z) : string :=
  string_of_runes (take_run (λ r, negb (IsSpace r) && negb (IsPunct r)) (from rs start)).

(** The quotes and brackets that may close a sentence: double quote, apostrophe, [)], []] and
    the closing brace. *)
Definition is_closer (r : Z) : bool := (r =? 34) || (r =? 39) || (r =? 41) || (r =? 93) || (r =? 125).
(** All but the brace. *)
Definition is_bracket (r : Z) : bool := (r =? 34) || (r =? 39) || (r =? 41) || (r =? 93).

Definition dot : Z := 46.
(** The word before the period at [pos]. *)
Definition word_before (rs : list Z) (pos : Z) : string :=
  string_of_runes (rev (take_run (λ r, negb (IsSpace r) && negb (r =? dot)) (rev (take (Z.to_nat pos) rs)))).

Definition in_ellipsis (rs : list Z) (pos : Z) : bool :=
  (is_at rs (pos - 1) dot && is_at rs (pos - 2) dot) ||
  (is_at rs (pos - 1) dot && is_at rs (pos + 1) dot) ||
  (is_at rs (pos + 1) dot && is_at rs (pos + 2) dot).

(** The period after an abbreviation. *)
Definition after_abbreviation (rs : list Z) (pos : Z) (word : string) : bool :=
  if is_at rs (pos + 1) dot then false
  else
    let nextPos := pos + 1 + count_of (take_run IsSpace (from rs (pos + 1))) in
    if nextPos <? count_of rs then
      let nextWord := getNextWord rs nextPos in
      if isSentenceStarter nextWord then true
      else if among titles (to_lower word) then false
      else negb (String.eqb nextWord "") && holds_at IsUpper rs nextPos && negb (isAbbreviation (to_lower nextWord))
    else false.

Definition parenDepth (rs : list Z) (pos : Z) : Z :=
  foldl (λ d r, if r =? 40 then d + 1 else if r =? 41 then d - 1 else d) 0 (take (Z.to_nat pos) rs).

(** What follows the punctuation at [pos]. *)
Definition before_capital (rs : list Z) (pos : Z) : bool :=
  if count_of rs <=? pos + 1 then true
  else
    let nextPos := pos + 1 + count_of (take_run is_closer (from rs (pos + 1))) in
    if (nextPos <? count_of rs) && negb (holds_at IsSpace rs nextPos) then false
    else
      let nextPos := nextPos + count_of (take_run IsSpace (from rs nextPos)) in
      if count_of rs <=? nextPos then true
      else
        let between_ := take (Z.to_nat (nextPos - (pos + 1))) (from rs (pos + 1)) in
        if is_at rs pos dot && is_at rs (pos - 1) dot && is_at rs (pos - 2) dot &&
           (count_of (filter (λ r, IsSpace r = true) between_) <? 2) && negb (existsb (Z.eqb 10) between_)
        then false
        else holds_at IsUpper rs nextPos.

Definition isSentenceEnd (rs : list Z) (pos : Z) : bool :=
  if negb (holds_at (λ r, (r =? dot) || (r =? 33) || (r =? 63)) rs pos) then false
  else if is_at rs pos dot then
    if in_ellipsis rs pos then false
    else
      let word := word_before rs pos in
      if isAbbreviation word then after_abbreviation rs pos word
      else if holds_at IsDigit rs (pos - 1) && holds_at IsDigit rs (pos + 1) then false
      else if (0 <? parenDepth rs pos) && (pos + 1 <? count_of rs) && negb (is_at rs (pos + 1) 41) then false
      else before_capital rs pos
  else before_capital rs pos.

Definition isContinuation (rs : list Z) (pos : Z) : bool :=
  if count_of rs <=? pos + 1 then false
  else
    let nextPos := pos + 1 + count_of (take_run is_bracket (from rs (pos + 1))) in
    (nextPos <? count_of rs) && negb (holds_at IsSpace rs nextPos).

(** ** The loop *)

(** A sentence is added unless it is empty. *)
Definition add_sentence (sentence : string) (l : list string) : list string :=
  if String.eqb sentence "" then l else (l ++ [sentence])%list.

(** What is before an opening parenthesis, if it ends like a sentence. *)
Definition ends_quoted (trimmed : string) : bool :=
  match last (bytes_of trimmed) with
  | Some c => (c =? 34) || (c =? 39) || (c =? 33) || (c =? 63)
  | None => false
  end.
Definition split_before (rs : list Z) (i : nat) (acc : list string * list Z) : list string * list Z :=
  if (0 <? i)%nat && is_at rs (Z.of_nat i) 40 && (0 <? List.length acc.2)%nat then
    let trimmed := TrimSpace (string_of_runes acc.2) in
    if ends_quoted trimmed then (add_sentence trimmed acc.1, []) else acc
  else acc.

(** [fuel] is the number of runes: each round passes at least one. *)
Fixpoint split_loop (fuel : nat) (rs : list Z) (i : nat) (acc : list string * list Z) : list string * list Z :=
  match fuel, rs !! i with
  | S fuel, Some r =>
      let '(sentences, cur) := split_before rs i acc in
      let cur := (cur ++ [r])%list in
      if (r =? 10) && is_at rs (Z.of_nat i + 1) 10 then
        let sentence := string_of_runes (cur ++ [10])%list in
        split_loop fuel rs (i + 2)
          (if String.eqb (TrimSpace sentence) "" then sentences else (sentences ++ [sentence])%list, [])
      else if isSentenceEnd rs (Z.of_nat i) && negb (isContinuation rs (Z.of_nat i)) then
        let closers := take_run is_closer (drop (i + 1) rs) in
        split_loop fuel rs (i + 1 + List.length closers)
          (add_sentence (TrimSpace (string_of_runes (cur ++ closers)%list)) sentences, [])
      else split_loop fuel rs (i + 1) (sentences, cur)
  | _, _ => acc
  end.

(** [Split] of [DefaultSentenceSplitter]. *)
Definition Split (text : string) : list string :=
  if String.eqb (TrimSpace text) "" then []
  else
    let rs := runes text in
    let '(sentences, cur) := split_loop (List.length rs) rs 0 ([], []) in
    match cur with [] => sentences | _ => add_sentence (TrimSpace (string_of_runes cur)) sentences end.
End splitter.

Example sentences_example :
  let _ := ascii_unicode in
  Split "Dr. Smith paid 3.50 dollars. Then (see p. 4) he left! Why? Nobody knows..." =
  ["Dr. Smith paid 3.50 dollars."; "Then (see p. 4) he left!"; "Why?"; "Nobody knows..."].
Proof. vm_compute. reflexivity. Qed.

(** ** Nothing but white space is lost *)

Section ink.
Context {unicode : Unicode}.

(** Sentences that are the encodings of these lists of runes. *)
Definition spell (parts : list (list Z)) : list string := string_of_runes <$> parts.
Definition valid_parts (parts : list (list Z)) : Prop := Forall valid_runes parts.

Lemma string_of_runes_nil rs : valid_runes rs -> string_of_runes rs = "" -> rs = [].
Proof.
  intros Hv H. apply (f_equal runes) in H. rewrite runes_string_of_runes in H by done. by rewrite H.
Qed.

Lemma spell_more parts rs : valid_parts parts -> valid_runes rs ->
  ∃ parts', spell parts' = (spell parts ++ [string_of_runes rs])%list /\ valid_parts parts' /\
    ink (concat parts') = (ink (concat parts) ++ ink rs)%list.
Proof.
  intros Hp Hv. exists (parts ++ [rs])%list. unfold spell. rewrite fmap_app. split; [done|]. split.
  - apply Forall_app. split; [done|]. by constructor.
  - rewrite concat_app, ink_app. simpl. by rewrite app_nil_r.
Qed.

Lemma add_trimmed parts rs : valid_parts parts -> valid_runes rs ->
  ∃ parts', spell parts' = add_sentence (TrimSpace (string_of_runes rs)) (spell parts) /\ valid_parts parts' /\
    ink (concat parts') = (ink (concat parts) ++ ink rs)%list.
Proof.
  intros Hp Hv. unfold add_sentence. rewrite TrimSpace_runes by done.
  destruct (String.eqb_spec (string_of_runes (trim_runes rs)) "") as [He|He].
  - apply string_of_runes_nil in He; [|by apply trim_runes_valid]. exists parts. split_and!; [done..|].
    rewrite <- (ink_trim rs), He. by rewrite app_nil_r.
  - rewrite <- (ink_trim rs). apply spell_more; [done|by apply trim_runes_valid].
Qed.

Lemma add_untrimmed parts rs : valid_parts parts -> valid_runes rs ->
  ∃ parts', spell parts' = (if String.eqb (TrimSpace (string_of_runes rs)) "" then spell parts
                            else spell parts ++ [string_of_runes rs])%list /\ valid_parts parts' /\
    ink (concat parts') = (ink (concat parts) ++ ink rs)%list.
Proof.
  intros Hp Hv. rewrite TrimSpace_runes by done. destruct (String.eqb_spec (string_of_runes (trim_runes rs)) "") as [He|He].
  - apply string_of_runes_nil in He; [|by apply trim_runes_valid]. exists parts. split_and!; [done..|].
    rewrite <- (ink_trim rs), He. by rewrite app_nil_r.
  - by apply spell_more.
Qed.

Lemma split_before_ink rs i parts cur :
  valid_parts parts -> valid_runes cur ->
  ∃ parts' cur', split_before rs i (spell parts, cur) = (spell parts', cur') /\ valid_parts parts' /\ valid_runes cur' /\
    (ink (concat parts') ++ ink cur' = ink (concat parts) ++ ink cur)%list.
Proof.
  intros Hp Hv. unfold split_before. cbn [fst snd]. destruct (_ && _); [|by exists parts, cur].
  destruct (ends_quoted _); [|by exists parts, cur]. destruct (add_trimmed parts cur Hp Hv) as (parts' & <- & Hp' & Hi).
  exists parts', []. split_and!; [done..|constructor|]. by rewrite Hi, app_nil_r.
Qed.

Lemma ink_cons r rs : ink (r :: rs) = (ink [r] ++ ink rs)%list.
Proof. apply (ink_app [r] rs). Qed.

Lemma split_loop_ink fuel rs i parts cur :
  valid_runes rs -> valid_parts parts -> valid_runes cur -> (length rs <= i + fuel)%nat ->
  ∃ parts' cur', split_loop fuel rs i (spell parts, cur) = (spell parts', cur') /\ valid_parts parts' /\ valid_runes cur' /\
    (ink (concat parts') ++ ink cur' = ink (concat parts) ++ ink cur ++ ink (drop i rs))%list.
Proof.
  intros Hrs. revert i parts cur. induction fuel as [|fuel IH]; intros i parts cur Hp Hc Hf.
  { exists parts, cur. rewrite drop_ge by lia. change (ink []) with (@nil Z). by rewrite app_nil_r. }
  cbn [split_loop]. destruct (rs !! i) as [r|] eqn:Hr.
  2:{ exists parts, cur. apply lookup_ge_None in Hr. rewrite drop_ge by lia. change (ink []) with (@nil Z). by rewrite app_nil_r. }
  destruct (split_before_ink rs i parts cur Hp Hc) as (p1 & c1 & -> & Hp1 & Hc1 & Hi1).
  rewrite app_assoc, <- Hi1, (drop_S _ _ _ Hr), ink_cons. clear Hi1 Hp Hc parts cur.
  pose proof (proj1 (Forall_lookup _ _) Hrs _ _ Hr) as Hvr.
  assert (valid_runes (c1 ++ [r])) as Hc2 by (apply Forall_app; split; [done|by constructor]).
  destruct ((r =? 10) && is_at rs (Z.of_nat i + 1) 10) eqn:Hnl; [|destruct (isSentenceEnd rs (Z.of_nat i) && negb (isContinuation rs (Z.of_nat i)))].
  - apply andb_prop in Hnl as [_ Hnl]. unfold is_at in Hnl. apply andb_prop in Hnl as [_ Hnl].
    replace (Z.to_nat (Z.of_nat i + 1)) with (S i) in Hnl by lia. destruct (rs !! S i) as [r'|] eqn:Hr'; [|done].
    apply Z.eqb_eq in Hnl as ->.
    assert (valid_runes ((c1 ++ [r]) ++ [10])) as Hc3 by (apply Forall_app; split; [done|by repeat constructor]).
    destruct (add_untrimmed p1 ((c1 ++ [r]) ++ [10]) Hp1 Hc3) as (p2 & <- & Hp2 & Hi2).
    destruct (IH (i + 2)%nat p2 [] Hp2 ltac:(constructor) ltac:(lia)) as (p3 & c3 & -> & Hp3 & Hc3' & Hi3).
    exists p3, c3. split_and!; [done..|]. rewrite Hi3, Hi2, (drop_S _ _ _ Hr'), !ink_app, (ink_cons 10).
    replace (i + 2)%nat with (S (S i)) by lia. change (ink []) with (@nil Z). by rewrite <- !app_assoc.
  - set (cl := take_run is_closer (drop (i + 1) rs)).
    assert (valid_runes ((c1 ++ [r]) ++ cl)%list) as Hc3.
    { apply Forall_app. split; [done|]. pose proof (Forall_drop _ (i + 1) _ Hrs) as Hd.
      rewrite <- (take_drop_run is_closer) in Hd. by apply Forall_app in Hd as [? _]. }
    destruct (add_trimmed p1 ((c1 ++ [r]) ++ cl)%list Hp1 Hc3) as (p2 & <- & Hp2 & Hi2).
    destruct (IH (i + 1 + length cl)%nat p2 [] Hp2 ltac:(constructor) ltac:(lia)) as (p3 & c3 & -> & Hp3 & Hc3' & Hi3).
    exists p3, c3. split_and!; [done..|]. rewrite Hi3, Hi2, !ink_app. replace (S i) with (i + 1)%nat by lia.
    assert (ink (drop (i + 1) rs) = ink cl ++ ink (drop (i + 1 + length cl) rs))%list as ->.
    { pose proof (take_run_drop is_closer (drop (i + 1) rs)) as Ht. fold cl in Ht. rewrite drop_drop in Ht.
      rewrite <- ink_app. by rewrite Ht. }
    change (ink []) with (@nil Z). by rewrite <- !app_assoc.
  - destruct (IH (i + 1)%nat p1 (c1 ++ [r])%list Hp1 Hc2 ltac:(lia)) as (p3 & c3 & -> & Hp3 & Hc3' & Hi3).
    exists p3, c3. split_and!; [done..|]. rewrite Hi3, ink_app. replace (S i) with (i + 1)%nat by lia. by rewrite <- !app_assoc.
Qed.

(** C1. Splitting into sentences loses and moves nothing but white space: the runes of a valid text
    that are no white space are, in order, those of its sentences, whatever the tables of
    letters and punctuation. *)
Theorem sentences_keep_ink text :
  utf8 text -> ink (runes (Join (Split text) "")) = ink (runes text).
Proof.
  intros (rs & Hv & ->). rewrite (runes_string_of_runes rs) by done. unfold Split. rewrite TrimSpace_runes by done.
  rewrite runes_string_of_runes by done.
  destruct (String.eqb_spec (string_of_runes (trim_runes rs)) "") as [He|_].
  { apply string_of_runes_nil in He; [|by apply trim_runes_valid]. rewrite <- (ink_trim rs), He. done. }
  destruct (split_loop_ink (length rs) rs 0 [] [] Hv ltac:(constructor) ltac:(constructor) ltac:(lia)) as (parts & cur & Heq & Hp & Hc & Hi).
  change (spell []) with (@nil string) in Heq. rewrite Heq. rewrite drop_0 in Hi. change (ink (concat [])) with (@nil Z) in Hi.
  change (ink []) with (@nil Z) in Hi. cbn [app] in Hi. rewrite <- Hi.
  assert (∃ parts', match cur with [] => spell parts | _ => add_sentence (TrimSpace (string_of_runes cur)) (spell parts) end = spell parts' /\
    valid_parts parts' /\ ink (concat parts') = (ink (concat parts) ++ ink cur)%list) as (parts' & -> & Hp' & <-).
  { destruct cur as [|c cur]; [exists parts; by rewrite app_nil_r|].
    destruct (add_trimmed parts (c :: cur) Hp Hc) as (p & <- & H). by exists p. }
  assert (Join (spell parts') "" = string_of_runes (concat parts')) as ->.
  { clear. induction parts' as [|q parts IH]; [done|]. cbn [spell fmap list_fmap concat]. rewrite Join_cons, string_of_runes_app.
    f_equal. exact IH. }
  rewrite runes_string_of_runes; [done|]. clear -Hp'. induction Hp' as [|q parts Hq _ IH]; [constructor|]. by apply Forall_app.
Qed.
End ink.

Definition greeting : string := "Dr. Smith said hello!  It was 3.5 degrees... cold.".

Lemma sentences_keep_ink_witness :
  let _ := ascii_unicode in
  Split greeting = ["Dr. Smith said hello!"; "It was 3.5 degrees... cold."] /\
  ink (runes (Join (Split greeting) "")) = ink (runes greeting).
Proof.
  split; [vm_compute; reflexivity|]. apply sentences_keep_ink. exists (runes greeting).
  split; [apply (bool_decide_eq_true_1 _); vm_compute; reflexivity|vm_compute; reflexivity].
Defined.
