(* ===== verification/ServiceErrors.v ===== *)
(** * ServiceErrors: the errors of [pkg/services/errors.go]

    An error is a value; [Wrapped] is [errors.Wrap] and [External] an error that a
    collaborator (repository, rule engine, sanitizer) returned.  The text of a message
    that [fmt.Sprintf] builds is kept as its format and arguments.  [Error] gives the
    text of the errors whose arguments are strings. *)

From stdpp Require Import base decidable gmap strings list pretty.
From Stdlib Require Import ZArith.
From S2P Require Import Prelude GoAny.

Local Open Scope string_scope.

(** A [uuid.UUID]; [uuid.Nil] is [0]. *)
Definition UUID : Type := N.
Definition Nil : UUID := 0%N.

(** [github.com/google/uuid]: the text of an identifier determines it. *)
Class UUIDText := {
  uuid_string : UUID -> string;
  uuid_string_inj :: Inj (=) (=) uuid_string;
}.

(** An implementation for examples. *)
Definition decimal_uuids : UUIDText := {| uuid_string := pretty |}.

Inductive message : Type :=
| Text (s : string)
| Sprintf (format : string) (args : list any).

Inductive error : Type :=
| ValidationError (Field : string) (Message : message)
| ErrRateLimitExceeded
| ErrQuotaExceeded
| ErrResourceNotFound
| ErrConcurrentModification
| QuotaExceededError (Resource : string) (Used Limit : Z)
| DelegationError (Reason : string)
| UnauthorizedError (Action Reason : string)
| NoEligibleAgentsError (TaskType : string) (Requirements : list string)
| WorkflowNotActiveError (WorkflowID : UUID)
| StepNotFoundError (WorkflowID : UUID) (StepID : string)
| StepDependencyError (StepID DependencyID Status : string)
| ErrNoEligibleAgents
| ErrNoCapableAgent
| ErrNotFound
| Errorf (m : message)
| Wrapped (context : string) (e : error)
| External (name : string).

(** [errors.Cause]: the error below the wrapping. *)
Fixpoint cause (e : error) : error :=
  match e with Wrapped _ e => cause e | _ => e end.

Notation res := (outcome error).

Definition wrap {A} (context : string) (m : res A) : res A := map_err (Wrapped context) m.

Lemma wrap_returns {A} context (m : res A) a : wrap context m = Returns a <-> m = Returns a.
Proof. by destruct m. Qed.

#[export] Hint Rewrite @wrap_returns : go.
