(* ===== verification/SemanticChunker.v ===== *)
(** * SemanticChunker: chunks of sentences, and their embeddings

    [pkg/chunking/text/semantic_chunker.go] and [pkg/embedding/document_processor.go].  The
    tokenizer is an argument ([Tokenizer]), and so are the tables of letters; an index out
    of range panics.  Counters are not wrapped around. *)

From stdpp Require Import base decidable gmap strings list.
From Stdlib Require Import ZArith Ascii Lia.
From S2P Require Import Prelude GoFloat Utf8 GoStrings GoParse GoAny ServiceErrors UnicodeText.
From S2P Require Import TextSplitter Tokenizer SentenceSplitter.

Local Open Scope string_scope.
Local Open Scope Z_scope.

Record Config := MkConfig {
  MinChunkSize : Z;
  MaxChunkSize : Z;
  TargetChunkSize : Z;
  OverlapSize : Z;
}.
Definition DefaultConfig : Config := MkConfig 100 1024 512 50.

(** [NewSemanticChunker]: the settings, [None] for [nil]. *)
Definition chunker_config (c : option Config) : Config :=
  let c := default DefaultConfig c in
  MkConfig (if MinChunkSize c =? 0 then 100 else MinChunkSize c) (if MaxChunkSize c =? 0 then 1024 else MaxChunkSize c)
    (if TargetChunkSize c =? 0 then 512 else TargetChunkSize c) (OverlapSize c).

Definition set_content (content : string) (c : TextChunk) : TextChunk :=
  MkChunk content (Index c) (TokenCount c) (StartChar c) (EndChar c) (Metadata c).
Definition set_end (e : Z) (c : TextChunk) : TextChunk :=
  MkChunk (Content c) (Index c) (TokenCount c) (StartChar c) e (Metadata c).

Section chunker.
Context {unicode : Unicode} {tokenizer : Tokenizer} (cfg : Config).

(** ** Boundaries *)

Definition topicShiftIndicators : list string :=
  ["however,"; "furthermore,"; "additionally,"; "in conclusion,"; "on the other hand,"; "in summary,"; "next,"; "finally,";
   "first,"; "second,"; "third,"; "lastly,"; "moreover,"; "nevertheless,"; "consequently,"; "therefore,"; "thus,";
   "in contrast,"; "alternatively,"; "meanwhile,"].

(** [s[1]]; an index out of range panics. *)
Definition byte_at (i : Z) (s : string) : outcome () ascii :=
  match String.get (Z.to_nat i) s with Some a => Returns a | None => Panics end.
Definition is_digit_char (a : ascii) : bool := match digit_value a with Some _ => true | None => false end.

Definition looks_like_header (nextSentence : string) : bool :=
  (len nextSentence <? 100) && negb (HasSuffix nextSentence ".") && negb (HasSuffix nextSentence "!") &&
  negb (HasSuffix nextSentence "?") &&
  let trimmed := TrimSpace nextSentence in
  (0 <? len trimmed) && String.eqb (to_upper (take_bytes 1 trimmed)) (take_bytes 1 trimmed).

Definition bullets : list string :=
  [string_of [0xE2; 0x80; 0xA2]; "-"; "*"; string_of [0xC2; 0xB7]].

(** A numbered list, or a bullet: the second byte of the sentence is read even if there is only one. *)
Definition list_item (trimmedNext : string) : outcome () bool :=
  if 0 <? len trimmedNext then
    (if 2 <? len trimmedNext then byte_at 1 trimmedNext ≫= λ a, Returns (Ascii.eqb a ".") else Returns false)
    ≫= λ dotted : bool,
    (if dotted then Returns true
     else byte_at 1 trimmedNext ≫= λ a,
          if Ascii.eqb a ")" then byte_at 0 trimmedNext ≫= λ d, Returns (is_digit_char d) else Returns false)
    ≫= λ numbered : bool,
    Returns (numbered || existsb (HasPrefix trimmedNext) bullets)
  else Returns false.

(** [rest]: the sentences after the current one. *)
Definition isSemanticBoundary (currentSentence : string) (rest : list string) : outcome () bool :=
  match rest with
  | [] => Returns true
  | nextSentence :: _ =>
      if HasSuffix currentSentence (newline +:+ newline) then Returns true
      else if looks_like_header nextSentence then Returns true
      else if existsb (HasPrefix (to_lower nextSentence)) topicShiftIndicators then Returns true
      else list_item (TrimSpace nextSentence)
  end.

(** ** Overlap *)

(** The sentences from the end, with a fifth more than the overlap allowed. *)
Fixpoint overlap_of (allowed : Z) (sentences : list string) (overlapContent : string) (tokenCount : Z) : string :=
  match sentences with
  | [] => overlapContent
  | sentence :: sentences =>
      if tokenCount <? OverlapSize cfg then
        let sentTokens := CountTokens sentence in
        if tokenCount + sentTokens <=? allowed
        then overlap_of allowed sentences
               (if String.eqb overlapContent "" then sentence else sentence +:+ " " +:+ overlapContent)
               (tokenCount + sentTokens)
        else overlapContent
      else overlapContent
  end.
Definition getOverlapText (content : string) : string :=
  if (OverlapSize cfg <=? 0) || String.eqb content "" then ""
  else
    TrimSpace (overlap_of (f64_to_int (f64_mul (f64_of_Z (OverlapSize cfg)) (f64_const 12 10)))
                 (rev (SentenceSplitter.Split content)) "" 0).

(** ** Finishing a chunk *)

(** The longest beginning of the words that fits; [words] from the end. *)
Fixpoint trim_words (words : list string) : option (string * Z) :=
  match words with
  | [] => None
  | _ :: rest =>
      let testContent := Join (rev words) " " in
      let testTokens := CountTokens testContent in
      if testTokens <=? MaxChunkSize cfg then Some (testContent, testTokens) else trim_words rest
  end.

Definition finalizeChunk (chunk : TextChunk) (index : Z) : TextChunk :=
  let n := CountTokens (Content chunk) in
  let '(content, n) :=
    if MaxChunkSize cfg <? n then default (Content chunk, n) (trim_words (rev (Fields (Content chunk)))) else (Content chunk, n) in
  MkChunk content index n (StartChar chunk) (EndChar chunk)
    (<["config" := AMap (list_to_map [("target_size", AInt (TargetChunkSize cfg)); ("overlap", AInt (OverlapSize cfg))])]>
      (<["chunk_index" := AInt index]> (<["chunking_method" := AString "semantic"]> (Metadata chunk)))).

(** ** The loop over the sentences *)

(** [current] is [None] after the last chunk. *)
Record state := MkState {
  chunks : list TextChunk;
  current : option TextChunk;
  currentTokens : Z;
  currentChar : Z;
}.

Section loop.
Context (metadata : gmap string any).

Definition fresh_chunk (content : string) (start : Z) : TextChunk := MkChunk content 0 0 start 0 metadata.

(** The current chunk ends here. *)
Definition close_chunk (chunk : TextChunk) (s : state) : TextChunk * list TextChunk :=
  let chunk := finalizeChunk (set_end (currentChar s) chunk) (Z.of_nat (List.length (chunks s))) in
  (chunk, (chunks s ++ [chunk])%list).

(** It ends, and the next one begins with the overlap, if that fits together with the sentence. *)
Definition next_chunk (sentenceTokens : Z) (chunk : TextChunk) (s : state) : state :=
  let '(closed, l) := close_chunk chunk s in
  let overlapText := getOverlapText (Content closed) in
  let overlapTokens := CountTokens overlapText in
  if negb (String.eqb overlapText "") && (overlapTokens + sentenceTokens <=? MaxChunkSize cfg)
  then MkState l (Some (fresh_chunk overlapText (currentChar s - len overlapText))) overlapTokens (currentChar s)
  else MkState l (Some (fresh_chunk "" (currentChar s))) 0 (currentChar s).

(** *** A sentence that is too long, word by word *)

Record words_state := MkWords {
  w_chunks : list TextChunk;
  w_chunk : TextChunk;
  currentWords : list string;
  w_tokens : Z;
  w_char : Z;
}.

Definition add_word (w : words_state) (word : string) : words_state :=
  let testTokens := CountTokens (Join (currentWords w ++ [word])%list " ") in
  let char := w_char w + len word + 1 in
  if (MaxChunkSize cfg <? testTokens) && (0 <? List.length (currentWords w))%nat then
    let '(closed, l) := close_chunk (set_content (Join (currentWords w) " ") (w_chunk w))
                          (MkState (w_chunks w) None (w_tokens w) (w_char w)) in
    let overlapText := getOverlapText (Content closed) in
    let words := if negb (String.eqb overlapText "") &&
                    (CountTokens overlapText + CountTokens word <=? MaxChunkSize cfg)
                 then Fields overlapText else [] in
    let words := (words ++ [word])%list in
    let content := Join words " " in
    MkWords l (fresh_chunk content (w_char w)) words (CountTokens content) char
  else MkWords (w_chunks w) (w_chunk w) (currentWords w ++ [word])%list testTokens char.

Definition long_sentence (sentence : string) (chunk : TextChunk) (s : state) : state :=
  let w := foldl add_word (MkWords (chunks s) chunk (Fields (Content chunk)) (currentTokens s) (currentChar s)) (Fields sentence) in
  MkState (w_chunks w) (Some (set_content (Join (currentWords w) " ") (w_chunk w))) (w_tokens w) (w_char w - 1).

(** *** Any other sentence *)

Definition on_chunk (f : TextChunk -> state -> state) (s : state) : state :=
  match current s with Some chunk => f chunk s | None => s end.

(** Chunks that would get too long with the sentence are closed first. *)
Definition make_room (sentenceTokens : Z) (s : state) : state :=
  let s := if (0 <? currentTokens s) && (MaxChunkSize cfg <? currentTokens s + sentenceTokens)
           then on_chunk (next_chunk sentenceTokens) s else s in
  let potentialTokens := currentTokens s + sentenceTokens + (if 0 <? currentTokens s then 1 else 0) in
  if (MaxChunkSize cfg <? potentialTokens) && (MinChunkSize cfg <=? currentTokens s)
  then on_chunk (next_chunk sentenceTokens) s else s.

Definition append_sentence (sentence : string) (sentenceTokens : Z) (chunk : TextChunk) (s : state) : state :=
  let spaced := negb (String.eqb (Content chunk) "") in
  MkState (chunks s)
    (Some (set_content (Content chunk +:+ (if spaced then " " else "") +:+ sentence) chunk))
    (currentTokens s + (if spaced then 1 else 0) + sentenceTokens)
    (currentChar s + (if spaced then 1 else 0) + len sentence).

Definition shouldSplit (sentence : string) (boundary : bool) (rest : list string) (s : state) : outcome () bool :=
  (if TargetChunkSize cfg <=? currentTokens s then isSemanticBoundary sentence rest else Returns false) ≫= λ semantic : bool,
  Returns ((boundary && (MinChunkSize cfg <=? currentTokens s)) || semantic ||
           match rest with
           | next :: _ => MaxChunkSize cfg <? currentTokens s + CountTokens next + 1
           | [] => false
           end).

Definition split_here (more : bool) (chunk : TextChunk) (s : state) : state :=
  MkState (close_chunk chunk s).2 (if more then Some (fresh_chunk "" (currentChar s)) else None) 0 (currentChar s).

(** A sentence with its flag for the end of a paragraph, and the sentences after it. *)
Definition one_sentence (sentence : string) (boundary : bool) (rest : list string) (s : state) : outcome () state :=
  let sentenceTokens := CountTokens sentence in
  if MaxChunkSize cfg <? sentenceTokens then Returns (on_chunk (long_sentence sentence) s)
  else
    let s := on_chunk (append_sentence sentence sentenceTokens) (make_room sentenceTokens s) in
    shouldSplit sentence boundary rest s ≫= λ split : bool,
    Returns (if split then on_chunk (split_here (0 <? List.length rest)%nat) s else s).

Fixpoint all_sentences (l : list (string * bool)) (s : state) : outcome () state :=
  match l with
  | [] => Returns s
  | (sentence, boundary) :: l => one_sentence sentence boundary l.*1 s ≫= all_sentences l
  end.

(** The last chunk, if it is long enough; otherwise it is joined to the one before it. *)
Definition last_chunk (s : state) : list TextChunk :=
  match current s with
  | None => chunks s
  | Some chunk =>
      if MinChunkSize cfg <=? currentTokens s then (close_chunk chunk s).2
      else
        match last (chunks s) with
        | Some lastChunk =>
            if String.eqb (Content chunk) "" then chunks s
            else
              let mergedContent := Content lastChunk +:+ " " +:+ Content chunk in
              let mergedTokens := CountTokens mergedContent in
              if mergedTokens <=? MaxChunkSize cfg
              then (take (List.length (chunks s) - 1) (chunks s) ++
                    [MkChunk mergedContent (Index lastChunk) mergedTokens (StartChar lastChunk) (currentChar s) (Metadata lastChunk)])%list
              else (close_chunk chunk s).2
        | None => chunks s
        end
  end.
End loop.

(** ** Chunking *)

Fixpoint flag_last (l : list string) : list (string * bool) :=
  match l with [] => [] | [x] => [(x, true)] | x :: l => (x, false) :: flag_last l end.

(** The sentences, the last one of each paragraph marked. *)
Definition sentences_of (text : string) : list (string * bool) :=
  GoParse.Split text (newline +:+ newline) ≫= λ para,
  let para := TrimSpace para in
  if String.eqb para "" then [] else flag_last (SentenceSplitter.Split para).

Definition Chunk (text : string) (metadata : gmap string any) : outcome () (list TextChunk) :=
  let sentences := sentences_of text in
  if (List.length sentences =? 0)%nat then Returns []
  else
    all_sentences metadata sentences (MkState [] (Some (fresh_chunk metadata "" 0)) 0 0) ≫= λ s,
    Returns (last_chunk s).
End chunker.

(** ** The document processor *)

Module Document.
Record t := Mk {
  ID : string;
  Content : string;
  ContentType : string;
  Metadata : gmap string any;
}.
End Document.

(** [EmbeddingVector], the vector and its description being [V]. *)
Record EmbeddingVector (V : Type) := MkEmbedding { payload : V; vector_metadata : gmap string any }.
Arguments MkEmbedding {V}.
Arguments payload {V}.
Arguments vector_metadata {V}.

Section processor.
Context {unicode : Unicode} {tokenizer : Tokenizer} {V : Type}.
(** [GenerateEmbedding] of the text, its type and its identifier. *)
Context (GenerateEmbedding : string -> string -> string -> result error (EmbeddingVector V)).
Implicit Types doc : Document.t.

Definition processor_config : Config := chunker_config (Some (MkConfig 200 1000 500 50)).

Definition chunkDocument (cfg : Config) doc : outcome error (list TextChunk) :=
  if String.eqb (Document.Content doc) "" then Fails (Errorf (Text "document content is empty"))
  else map_err (λ _, External "out of fuel") (Chunk cfg (Document.Content doc) (Document.Metadata doc)).

(** The metadata of a chunk win over what is written here, and that over those of the document. *)
Definition embedding_metadata doc (count : Z) (i : nat) (chunk : TextChunk) : gmap string any :=
  Metadata chunk ∪
  (list_to_map [("document_id", AString (Document.ID doc)); ("chunk_index", AInt (Z.of_nat i)); ("chunk_count", AInt count);
                ("content_type", AString (Document.ContentType doc)); ("token_count", AInt (TokenCount chunk));
                ("start_char", AInt (StartChar chunk)); ("end_char", AInt (EndChar chunk))] ∪ Document.Metadata doc).

(** Chunks whose embedding fails are passed over. *)
Definition embed_chunk doc (count : Z) (i : nat) (chunk : TextChunk) : option (EmbeddingVector V) :=
  match GenerateEmbedding (Content chunk) (Document.ContentType doc) (Document.ID doc +:+ "_chunk_" +:+ itoa (Z.of_nat i)) with
  | Err _ => None
  | Ok e => Some (MkEmbedding (payload e) (embedding_metadata doc count i chunk ∪ vector_metadata e))
  end.

Definition ProcessDocument (cfg : Config) doc : outcome error (list (EmbeddingVector V)) :=
  map_err (Wrapped "failed to chunk document") (chunkDocument cfg doc) ≫= λ l,
  let embeddings := omap id (imap (embed_chunk doc (Z.of_nat (List.length l))) l) in
  if (List.length embeddings =? 0)%nat
  then Fails (Errorf (Sprintf "failed to create any embeddings for document %s" [AString (Document.ID doc)]))
  else Returns embeddings.

Definition ProcessDocumentWithConfig (config : Config) doc : outcome error (list (EmbeddingVector V)) :=
  ProcessDocument (chunker_config (Some config)) doc.

(** Documents that fail are passed over; a panic ends the batch. *)
Fixpoint process_all (process : Document.t -> outcome error (list (EmbeddingVector V))) (docs : list Document.t)
    (results : gmap string (list (EmbeddingVector V))) : outcome error (gmap string (list (EmbeddingVector V))) :=
  match docs with
  | [] => Returns results
  | doc :: docs =>
      match process doc with
      | Returns embeddings => process_all process docs (<[Document.ID doc := embeddings]> results)
      | Fails _ => process_all process docs results
      | Panics => Panics
      end
  end.
Definition BatchProcessDocuments (docs : list Document.t) := process_all (ProcessDocument processor_config) docs ∅.
Definition BatchProcessDocumentsWithConfig (docs : list Document.t) (config : Config) :=
  process_all (ProcessDocumentWithConfig config) docs ∅.
End processor.

(** ** Chunks fit *)

Section fit.
Context {unicode : Unicode} {tokenizer : Tokenizer} (cfg : Config) (metadata : gmap string any).
Implicit Types (c : TextChunk) (s : state).

(** No beginning of the words of the text fits. *)
Definition too_long (content : string) : Prop :=
  ∀ ws vs, Fields content = (ws ++ vs)%list -> ws ≠ [] -> MaxChunkSize cfg < CountTokens (Join ws " ").

Definition chunk_ok (i : nat) c : Prop :=
  Index c = Z.of_nat i /\ TokenCount c = CountTokens (Content c) /\
  (TokenCount c <= MaxChunkSize cfg \/ too_long (Content c)).
Definition numbered (l : list TextChunk) : Prop := ∀ i c, l !! i = Some c -> chunk_ok i c.

Lemma trim_words_spec words :
  match trim_words cfg (rev words) with
  | Some (content, n) => n = CountTokens content /\ n <= MaxChunkSize cfg
  | None => ∀ ws vs, words = (ws ++ vs)%list -> ws ≠ [] -> MaxChunkSize cfg < CountTokens (Join ws " ")
  end.
Proof.
  induction words as [|w words IH] using rev_ind; [intros ws vs H Hne; by destruct ws|].
  rewrite rev_unit. cbn [trim_words]. change (rev (w :: rev words)) with (rev (rev words) ++ [w])%list. rewrite rev_involutive.
  destruct (Z.leb_spec (CountTokens (Join (words ++ [w])%list " ")) (MaxChunkSize cfg)) as [Hle|Hgt]; [done|].
  destruct (trim_words cfg (rev words)) as [[content n]|]; [done|]. intros ws vs Heq Hne.
  destruct vs as [|v vs] using rev_ind; [rewrite app_nil_r in Heq; by subst|].
  rewrite app_assoc in Heq. apply app_inj_tail in Heq as [-> _]. by apply (IH ws vs).
Qed.

Lemma finalize_ok c i : chunk_ok i (finalizeChunk cfg c (Z.of_nat i)).
Proof.
  unfold finalizeChunk. pose proof (trim_words_spec (Fields (Content c))) as Ht.
  destruct (Z.ltb_spec (MaxChunkSize cfg) (CountTokens (Content c))) as [Hlt|Hle].
  - destruct (trim_words _ _) as [[content n]|]; (split; [done|]; split).
    + apply Ht.
    + left. apply Ht.
    + done.
    + by right.
  - split; [done|]. split; [done|]. by left.
Qed.

Lemma numbered_snoc l c : numbered l -> chunk_ok (length l) c -> numbered (l ++ [c]).
Proof.
  intros Hl Hc i d Hd. apply lookup_app_Some in Hd as [Hd|[Hle Hd]]; [by apply Hl|].
  apply list_lookup_singleton_Some in Hd as [Hi ->]. by replace i with (length l) by lia.
Qed.

Lemma numbered_close c s : numbered (chunks s) -> numbered (close_chunk cfg c s).2.
Proof. intros H. apply numbered_snoc; [done|]. apply finalize_ok. Qed.

Lemma numbered_on_chunk f s :
  numbered (chunks s) -> (∀ c, numbered (chunks (f c s))) -> numbered (chunks (on_chunk f s)).
Proof. unfold on_chunk. intros Hs Hf. by destruct (current s). Qed.

Lemma numbered_next n c s : numbered (chunks s) -> numbered (chunks (next_chunk cfg metadata n c s)).
Proof.
  intros H. pose proof (numbered_close c s H) as Hc. unfold next_chunk. destruct (close_chunk cfg c s) as [closed l]. simpl in Hc.
  by destruct (_ && _).
Qed.

Lemma numbered_words words w : numbered (w_chunks w) -> numbered (w_chunks (foldl (add_word cfg metadata) w words)).
Proof.
  revert w. induction words as [|word words IH]; intros w Hw; [done|]. cbn [foldl]. apply IH.
  unfold add_word. destruct (_ && _); [|done].
  pose proof (numbered_close (set_content (Join (currentWords w) " ") (w_chunk w))
    (MkState (w_chunks w) None (w_tokens w) (w_char w)) Hw) as Hc.
  by destruct (close_chunk _ _ _) as [closed l].
Qed.

Lemma numbered_room n s : numbered (chunks s) -> numbered (chunks (make_room cfg metadata n s)).
Proof.
  intros Hs. unfold make_room. set (s1 := if (_ && _) then on_chunk _ s else s).
  assert (numbered (chunks s1)) as H1.
  { unfold s1. destruct (_ && _); [|done]. apply numbered_on_chunk; [done|]. intros c. by apply numbered_next. }
  clearbody s1. destruct (_ && _); [|done]. apply numbered_on_chunk; [done|]. intros c. by apply numbered_next.
Qed.

(** What the loop yields. *)
Definition chunked_well (sentences : list string) (m : outcome () state) : Prop :=
  match m with
  | Returns s => numbered (chunks s)
  | Fails _ => False
  | Panics => ∃ x, x ∈ sentences /\ len (TrimSpace x) = 1
  end.

Lemma byte_at_ok i (x : string) : 0 <= i < len x -> ∃ a, byte_at i x = Returns a.
Proof.
  unfold byte_at, len. intros Hi. destruct (String.get (Z.to_nat i) x) as [a|] eqn:Hg; [by exists a|]. exfalso.
  assert (Z.to_nat i < String.length x)%nat as Hlt by lia. clear Hi. revert Hlt Hg. generalize (Z.to_nat i).
  induction x as [|b x IH]; intros [|n]; simpl; intros Hn; [lia..|done|]. apply IH. lia.
Qed.

Lemma byte_at_cases i (x : string) : (∃ a, byte_at i x = Returns a) \/ byte_at i x = Panics.
Proof. unfold byte_at. destruct (String.get _ _) as [a|]; [left; by exists a|by right]. Qed.

Lemma boundary_total sentence rest :
  match isSemanticBoundary sentence rest with
  | Returns _ => True
  | Fails _ => False
  | Panics => ∃ x, x ∈ rest /\ len (TrimSpace x) = 1
  end.
Proof.
  unfold isSemanticBoundary. destruct rest as [|next rest]; [done|]. destruct (HasSuffix _ _); [done|].
  destruct (looks_like_header _); [done|]. destruct (existsb _ _); [done|]. unfold list_item.
  destruct (Z.ltb_spec 0 (len (TrimSpace next))) as [Hpos|]; [|done].
  destruct (decide (len (TrimSpace next) = 1)) as [H1|H1].
  - assert (∃ x, x ∈ next :: rest /\ len (TrimSpace x) = 1) as Hx by (exists next; split; [by left|done]).
    destruct (byte_at_cases 1 (TrimSpace next)) as [[a ->]| ->], (byte_at_cases 0 (TrimSpace next)) as [[d ->]| ->];
      destruct (2 <? _); cbn [mbind outcome_bind]; try done; destruct (Ascii.eqb a "."), (Ascii.eqb a ")"); done.
  - destruct (byte_at_ok 1 (TrimSpace next)) as [a ->]; [lia|]. destruct (byte_at_ok 0 (TrimSpace next)) as [d ->]; [lia|].
    destruct (2 <? _); cbn [mbind outcome_bind]; destruct (Ascii.eqb a "."), (Ascii.eqb a ")"); done.
Qed.

Lemma one_sentence_ok sentence boundary rest s :
  numbered (chunks s) -> chunked_well rest (one_sentence cfg metadata sentence boundary rest s).
Proof.
  intros Hs. unfold one_sentence. destruct (MaxChunkSize cfg <? CountTokens sentence).
  { apply numbered_on_chunk; [done|]. intros c. unfold long_sentence. by apply numbered_words. }
  set (s1 := on_chunk (append_sentence _ _) _).
  assert (numbered (chunks s1)) as H1.
  { apply numbered_on_chunk; [by apply numbered_room|]. intros c. by apply numbered_room. }
  clearbody s1. unfold shouldSplit. pose proof (boundary_total sentence rest) as Hb.
  destruct (if TargetChunkSize cfg <=? currentTokens s1 then isSemanticBoundary sentence rest else Returns false) as [b|u|] eqn:Hi;
    cbn [mbind outcome_bind].
  - cbn [chunked_well]. destruct (_ || _); [|done]. apply numbered_on_chunk; [done|]. intros c. by apply numbered_close.
  - destruct (_ <=? _); [|done]. by rewrite Hi in Hb.
  - destruct (_ <=? _); [|done]. by rewrite Hi in Hb.
Qed.

Lemma all_sentences_ok l s : numbered (chunks s) -> chunked_well l.*1 (all_sentences cfg metadata l s).
Proof.
  revert s. induction l as [|[sentence boundary] l IH]; intros s Hs; [done|]. cbn [all_sentences].
  pose proof (one_sentence_ok sentence boundary l.*1 s Hs) as H. destruct (one_sentence _ _ _ _ _ _) as [s'|u|]; [|done|].
  - cbn [mbind outcome_bind]. specialize (IH s' H). destruct (all_sentences _ _ _ _); [done..|].
    destruct IH as (x & Hx & H1). exists x. split; [by right|done].
  - destruct H as (x & Hx & H1). exists x. split; [by right|done].
Qed.

Lemma last_chunk_ok s : numbered (chunks s) -> numbered (last_chunk cfg s).
Proof.
  intros Hs. unfold last_chunk. destruct (current s) as [c|]; [|done].
  destruct (MinChunkSize cfg <=? currentTokens s); [by apply numbered_close|].
  destruct (last (chunks s)) as [d|] eqn:Hd; [|done]. destruct (String.eqb (Content c) ""); [done|].
  destruct (Z.leb_spec (CountTokens (Content d +:+ " " +:+ Content c)) (MaxChunkSize cfg)); [|by apply numbered_close].
  rewrite last_lookup in Hd. apply numbered_snoc.
  - intros i e He. apply lookup_take_Some in He as [He _]. by apply Hs.
  - rewrite length_take, Nat.min_l by lia. apply Hs in Hd as (Hi & _ & _). split; [|split; [done|by left]].
    cbn [Index]. rewrite Hi. f_equal. lia.
Qed.
End fit.

(** C1. Semantic chunks are numbered from zero, carry the number of their tokens and have no more than
    [MaxChunkSize] of them, unless not even the first word of the chunk fits; the chunker
    ends, and panics at most if some sentence is a single byte. *)
Theorem semantic_chunks_fit {unicode : Unicode} {tokenizer : Tokenizer} cfg text metadata :
  match Chunk cfg text metadata with
  | Returns l => numbered cfg l
  | Fails _ => False
  | Panics => ∃ x, x ∈ (sentences_of text).*1 /\ len (TrimSpace x) = 1
  end.
Proof.
  unfold Chunk. destruct (length (sentences_of text) =? 0)%nat; [done|].
  pose proof (all_sentences_ok cfg metadata (sentences_of text) (MkState [] (Some (fresh_chunk metadata "" 0)) 0 0)) as H.
  specialize (H ltac:(by intros i c ?)). destruct (all_sentences _ _ _ _) as [s|u|]; [|done..]. by apply last_chunk_ok.
Qed.

(** ** Short documents *)

Section short.
Context {unicode : Unicode} {tokenizer : Tokenizer} (cfg : Config) (metadata : gmap string any).
Context (count_nonneg : ∀ x, 0 <= CountTokens x).
Context (min_max : MinChunkSize cfg <= MaxChunkSize cfg) (min_target : MinChunkSize cfg <= TargetChunkSize cfg).

(** The tokens of the sentences, and one more for each. *)
Definition weight (l : list string) : Z := foldr (λ x n, CountTokens x + 1 + n) 0 l.

Lemma weight_nonneg l : 0 <= weight l.
Proof. induction l as [|x l IH]; simpl; [done|]. pose proof (count_nonneg x). lia. Qed.

(** Nothing is closed while the sentences so far weigh [n]. *)
Definition unclosed (n : Z) (s : state) : Prop :=
  chunks s = [] /\ ∃ c, current s = Some c /\ 0 <= currentTokens s /\
  ((Content c = "" /\ currentTokens s = 0) \/ currentTokens s <= n - 1).

Lemma make_room_idle n x s :
  unclosed n s -> 0 <= n -> n + CountTokens x + 1 <= MinChunkSize cfg -> make_room cfg metadata (CountTokens x) s = s.
Proof.
  intros (Hl & c & Hc & Ht & Hs) Hn Hw. pose proof (count_nonneg x).
  unfold make_room. assert ((0 <? currentTokens s) && (MaxChunkSize cfg <? currentTokens s + CountTokens x) = false) as ->.
  { apply andb_false_iff. right. apply Z.ltb_ge. lia. }
  assert (MinChunkSize cfg <=? currentTokens s = false) as -> by (apply Z.leb_gt; lia). by rewrite andb_false_r.
Qed.

Lemma one_short_sentence n x boundary rest s :
  unclosed n s -> 0 <= n -> n + weight (x :: rest) <= MinChunkSize cfg ->
  ∃ s', one_sentence cfg metadata x boundary rest s = Returns s' /\ unclosed (n + CountTokens x + 1) s'.
Proof.
  intros Hu Hn Hw. cbn [weight foldr] in Hw. fold (weight rest) in Hw.
  pose proof (weight_nonneg rest). pose proof (count_nonneg x). unfold one_sentence.
  destruct (Z.ltb_spec (MaxChunkSize cfg) (CountTokens x)); [lia|]. rewrite (make_room_idle n x s Hu) by lia.
  destruct Hu as (Hl & c & Hc & Ht & Hs). unfold on_chunk. rewrite Hc.
  set (s1 := append_sentence x (CountTokens x) c s).
  assert (unclosed (n + CountTokens x + 1) s1 /\ currentTokens s1 <= n + CountTokens x) as [Hu1 Hle].
  { unfold unclosed, s1, append_sentence. simpl. destruct (String.eqb_spec (Content c) "") as [He|He]; simpl.
    - assert (currentTokens s <= n) by (destruct Hs as [[_ ?]|?]; lia). split; [|lia]. split; [done|].
      eexists. split; [done|]. split; [lia|]. right. lia.
    - destruct Hs as [[? _]|Hs]; [done|]. split; [|lia]. split; [done|]. eexists. split; [done|]. split; [lia|]. right. lia. }
  clearbody s1. unfold shouldSplit. assert (TargetChunkSize cfg <=? currentTokens s1 = false) as -> by (apply Z.leb_gt; lia).
  assert (MinChunkSize cfg <=? currentTokens s1 = false) as -> by (apply Z.leb_gt; lia).
  rewrite andb_false_r. cbn [mbind outcome_bind orb].
  assert ((match rest with next :: _ => MaxChunkSize cfg <? currentTokens s1 + CountTokens next + 1 | [] => false end) = false) as ->.
  { destruct rest as [|next rest]; [done|]. cbn [weight foldr] in Hw. fold (weight rest) in Hw. pose proof (weight_nonneg rest).
    apply Z.ltb_ge. lia. }
  exists s1. split; [done|]. exact Hu1.
Qed.

Lemma short_sentences n l s :
  unclosed n s -> 0 <= n -> n + weight l.*1 <= MinChunkSize cfg ->
  ∃ s', all_sentences cfg metadata l s = Returns s' /\ unclosed (n + weight l.*1) s'.
Proof.
  revert n s. induction l as [|[x b] l IH]; intros n s Hu Hn Hw.
  { exists s. split; [done|]. by rewrite Z.add_0_r. }
  cbn [all_sentences]. destruct (one_short_sentence n x b l.*1 s Hu Hn Hw) as (s' & -> & Hu'). cbn [mbind outcome_bind].
  pose proof (count_nonneg x). change (((x, b) :: l).*1) with (x :: l.*1) in *. cbn [weight foldr] in *. fold (weight l.*1) in *.
  destruct (IH (n + CountTokens x + 1) s' Hu') as (s2 & -> & H2); [lia..|]. exists s2. split; [done|].
  by replace (n + (CountTokens x + 1 + weight l.*1)) with (n + CountTokens x + 1 + weight l.*1) by lia.
Qed.

Lemma short_chunks text :
  0 < MinChunkSize cfg -> weight (sentences_of text).*1 <= MinChunkSize cfg -> Chunk cfg text metadata = Returns [].
Proof.
  intros Hpos Hw. unfold Chunk. destruct (length (sentences_of text) =? 0)%nat; [done|].
  destruct (short_sentences 0 (sentences_of text) (MkState [] (Some (fresh_chunk metadata "" 0)) 0 0))
    as (s & -> & Hl & c & Hc & _ & Hs); [|done..|].
  { split; [done|]. eexists. split; [done|]. split; [done|]. by left. }
  cbn [mbind outcome_bind]. unfold last_chunk. rewrite Hc, Hl.
  assert (MinChunkSize cfg <=? currentTokens s = false) as -> by (apply Z.leb_gt; destruct Hs as [[_ ->]|Hs]; lia). done.
Qed.
End short.

(** C2. A document whose sentences have altogether at most [MinChunkSize] tokens, counting one more for each of
    them, has no chunks, so that no embedding can be created for it: it fails whatever the embedding
    service would have answered. *)
Theorem short_document_fails {unicode : Unicode} {tokenizer : Tokenizer} {V : Type}
    (GenerateEmbedding : string -> string -> string -> result error (EmbeddingVector V)) cfg doc
    (count_nonneg : ∀ x, 0 <= CountTokens x)
    (minimum : 0 < MinChunkSize cfg <= MaxChunkSize cfg /\ MinChunkSize cfg <= TargetChunkSize cfg)
    (nonempty : Document.Content doc ≠ "") :
  weight (sentences_of (Document.Content doc)).*1 <= MinChunkSize cfg ->
  ProcessDocument GenerateEmbedding cfg doc =
  Fails (Errorf (Sprintf "failed to create any embeddings for document %s" [AString (Document.ID doc)])).
Proof.
  intros Hw. unfold ProcessDocument, chunkDocument.
  destruct (String.eqb_spec (Document.Content doc) ""); [done|].
  rewrite short_chunks by (try done; lia). done.
Qed.

(** ** Examples *)

Section examples.
#[local] Existing Instance ascii_unicode.
#[local] Existing Instance simple.

Definition note : Document.t := Document.Mk "doc-1" "The cache was restarted. It is healthy again." "text/plain" ∅.

Lemma short_document_fails_witness :
  ProcessDocument (V := unit) (λ _ _ _, Ok (MkEmbedding () ∅)) processor_config note =
  Fails (Errorf (Sprintf "failed to create any embeddings for document %s" [AString "doc-1"])).
Proof.
  apply (short_document_fails (λ _ _ _, Ok (MkEmbedding () ∅)) processor_config note).
  - exact simple_count_nonneg.
  - vm_compute. split; [split; [reflexivity|discriminate]|discriminate].
  - discriminate.
  - vm_compute. discriminate.
Defined.

(** With the target reached, the byte after the first one of the next sentence is read. *)
Example one_byte_sentence_panics :
  Chunk (MkConfig 1 20 1 0) (String.concat (newline +:+ newline) ["It was plan B"; "x"]) ∅ = Panics.
Proof. vm_compute. reflexivity. Qed.

(** The words that do not fit into a chunk are gone. *)
Example words_are_dropped :
  (Content <$> [finalizeChunk (MkConfig 1 3 2 0) (MkChunk "one two three four five" 0 0 0 0 ∅) 0]) = ["one two three"].
Proof. vm_compute. reflexivity. Qed.
End examples.
