(* ===== verification/Redis.v ===== *)
(** * Redis: the store that processes share

    What the services use of Redis through [go-redis]: each command is atomic and has an answer, or
    an error.  The server is an argument ([Redis]); its laws are the documented behaviour of
    the commands over keys that expire.  A command that fails may have been carried out or
    not.  [prog] is the code of a handler between its calls. *)

From stdpp Require Import base decidable gmap strings list.
From Stdlib Require Import ZArith Lia.
From S2P Require Import Prelude GoStrings GoAny ServiceErrors.

Local Open Scope string_scope.
Local Open Scope Z_scope.

Section commands.
Context {V : Type}.

(** What a script does to its key. *)
Inductive reply : Type :=
| SetEX (v : V) (seconds : Z)
| DelReply
| NilReply
| ScriptError (message : string).

(** The answer of [Get] is [None] for [redis.Nil]; that of [Script] tells whether it wrote. *)
Inductive command : Type -> Type :=
| Get (key : string) : command (option V)
| SetNX (key : string) (v : V) (ttl : Z) : command bool
| SetKey (key : string) (v : V) (ttl : Z) : command ()
| Del (key : string) : command ()
| Keys (prefix : string) : command (list string)
| Script (key : string) (f : option V -> reply) : command bool.

(** A value and the time from which its key is gone, if there is one. *)
Notation entry := (V * option Z)%type.
Notation store := (gmap string entry).

Definition live (now : Z) (e : entry) : bool := match e.2 with Some t => now <? t | None => true end.
Definition see (now : Z) (m : store) (key : string) : option V :=
  match m !! key with Some e => if live now e then Some e.1 else None | None => None end.
Definition present (now : Z) (m : store) (key : string) : bool := match see now m key with Some _ => true | None => false end.

(** [go-redis] rounds to milliseconds; no time to live is one without end. *)
Definition deadline (now ttl : Z) : option Z :=
  if ttl =? 0 then None else Some (now + Z.max 1 (ttl / millisecond) * millisecond).

(** The store after a command; [None]: it is refused. *)
Definition writes {A} (c : command A) (now : Z) (m : store) : option store :=
  match c with
  | Get _ | Keys _ => Some m
  | SetNX key v ttl =>
      if ttl <? 0 then None else if present now m key then Some m else Some (<[key := (v, deadline now ttl)]> m)
  | SetKey key v ttl => if ttl <? 0 then None else Some (<[key := (v, deadline now ttl)]> m)
  | Del key => Some (delete key m)
  | Script key f =>
      match f (see now m key) with
      | SetEX v seconds => if seconds <=? 0 then None else Some (<[key := (v, Some (now + seconds * second))]> m)
      | DelReply => Some (delete key m)
      | NilReply => Some m
      | ScriptError _ => None
      end
  end.

Definition answers {A} (c : command A) (now : Z) (m : store) : A -> Prop :=
  match c in command A return A -> Prop with
  | Get key => λ v, v = see now m key
  | SetNX key _ _ => λ b, b = negb (present now m key)
  | SetKey _ _ _ | Del _ => λ _, True
  | Keys prefix => λ l, NoDup l /\ ∀ key, key ∈ l <-> HasPrefix key prefix = true /\ present now m key = true
  | Script key f => λ b, b = match f (see now m key) with SetEX _ _ | DelReply => true | _ => false end
  end.
End commands.
Arguments reply : clear implicits.
Arguments command : clear implicits.
Notation entry V := (V * option Z)%type.
Notation store V := (gmap string (entry V)).

Class Redis (V : Type) := {
  server : Type;
  contents : server -> store V;
  exec : ∀ {A}, command V A -> Z -> server -> server * result error A;
  exec_spec : ∀ A (c : command V A) now s,
    match (exec c now s).2 with
    | Ok a => writes c now (contents s) = Some (contents (exec c now s).1) /\ answers c now (contents s) a
    | Err _ => contents (exec c now s).1 = contents s \/ writes c now (contents s) = Some (contents (exec c now s).1)
    end;
}.
Arguments server V {_}.

(** ** A server for examples: nothing fails that is not refused *)

Section map_server.
Context {V : Type}.

Definition map_exec {A} (c : command V A) (now : Z) (m : store V) : store V * result error A :=
  match writes c now m with
  | None => (m, Err (External "refused"))
  | Some m' =>
      (m', Ok (match c in command _ A return A with
               | Get key => see now m key
               | SetNX key _ _ => negb (present now m key)
               | SetKey _ _ _ | Del _ => ()
               | Keys prefix => (filter (λ kv, HasPrefix kv.1 prefix && live now kv.2) (map_to_list m)).*1
               | Script key f => match f (see now m key) with SetEX _ _ | DelReply => true | _ => false end
               end))
  end.

Program Definition map_server : Redis V :=
  {| server := store V; contents m := m; exec A c now m := map_exec c now m |}.
Next Obligation.
  intros A c now m. unfold map_exec. destruct (writes c now m) as [m'|]; [|by left]. split; [done|].
  destruct c as [| | | |pre|]; try done. split.
  - assert (∀ l : list (string * entry V), NoDup l.*1 -> NoDup (filter (λ kv, HasPrefix kv.1 pre && live now kv.2) l).*1) as H.
    { intros l. induction l as [|kv l IH]; [done|]. rewrite fmap_cons. intros [Hk Hl]%NoDup_cons. rewrite filter_cons.
      case_decide; [|by apply IH]. rewrite fmap_cons. apply NoDup_cons. split; [|by apply IH].
      intros (kv' & Heq & [_ Hin]%list_elem_of_filter)%list_elem_of_fmap. apply Hk, list_elem_of_fmap. by exists kv'. }
    apply H, NoDup_fst_map_to_list.
  - intros key. rewrite list_elem_of_fmap. unfold present, see. split.
    + intros ([k e] & -> & [Hp Hin]%list_elem_of_filter). apply elem_of_map_to_list in Hin. simpl in *.
      apply andb_True in Hp as [Hp Hl]. rewrite Hin. destruct (live now e); [|done]. split; [|done]. by destruct (HasPrefix k pre).
    + intros [Hp Hs]. destruct (m !! key) as [e|] eqn:He; [|done]. destruct (live now e) eqn:Hl; [|done].
      exists (key, e). split; [done|]. apply list_elem_of_filter. split; [simpl; by rewrite Hp, Hl|]. by apply elem_of_map_to_list.
Qed.
End map_server.

(** ** Code that calls *)

(** A handler: it has ended, or makes a call and goes on with its answer. *)
Inductive prog (C : Type -> Type) (A : Type) : Type :=
| Ret (a : A)
| Do {B} (c : C B) (k : B -> prog C A).
Arguments Ret {C A}.
Arguments Do {C A B}.

#[export] Instance prog_ret C : MRet (prog C) := λ A, Ret.
#[export] Instance prog_bind C : MBind (prog C) :=
  λ A B f, fix go (p : prog C A) : prog C B := match p with Ret a => f a | Do c k => Do c (λ b, go (k b)) end.
Definition call {C B} (c : C B) : prog C B := Do c Ret.

Lemma prog_bind_do {C A B D} (c : C D) (k : D -> prog C A) (f : A -> prog C B) : Do c k ≫= f = Do c (λ b, k b ≫= f).
Proof. done. Qed.
Lemma prog_bind_ret {C A B} (a : A) (f : A -> prog C B) : Ret a ≫= f = f a.
Proof. done. Qed.
#[export] Hint Rewrite @prog_bind_do @prog_bind_ret : prog.

(** ** What is seen *)

Section view.
Context {V : Type}.
Implicit Types (m : store V) (key : string).

Lemma see_present now m key : present now m key = false <-> see now m key = None.
Proof. unfold present. by destruct (see now m key). Qed.

Lemma see_live now m key v t : m !! key = Some (v, t) -> see now m key = if live now (v, t) then Some v else None.
Proof. unfold see. by intros ->. Qed.

Lemma see_stored now m key v : see now m key = Some v -> ∃ t, m !! key = Some (v, t) /\ live now (v, t) = true.
Proof.
  unfold see. destruct (m !! key) as [[w t]|]; [|done]. destruct (live now (w, t)) eqn:Hl; [|done]. intros [= <-]. by exists t.
Qed.

(** A deadline is at most a millisecond early. *)
Lemma deadline_late now ttl t : 0 <= ttl -> deadline now ttl = Some t -> now + ttl - millisecond < t.
Proof.
  unfold deadline. intros Ht. destruct (Z.eqb_spec ttl 0); [done|]. intros [= <-].
  pose proof (Z.div_mod ttl millisecond ltac:(done)) as Hd. pose proof (Z.mod_pos_bound ttl millisecond ltac:(done)) as Hm.
  unfold millisecond in *. lia.
Qed.
End view.
