(* ===== verification/ApiKeys.v ===== *)
(** * ApiKeys: authentication by API key

    [pkg/auth/auth.go], [api_keys.go], [key_types.go] and [config_keys.go]: the keys in memory, in
    the table [mcp.api_keys] and in a cache.  The table is a map from the hash of a key, which is
    unique, to its row; a statement may be refused by the database.  Statements on the columns
    [key] and [active], which that table does not have, have an outcome but no effect on it.
    SHA-256 and the library of UUIDs are arguments ([AuthLibraries]).  A call reads the clock
    once; the time of the last use, which nothing reads, is left out, as are logs. *)

From stdpp Require Import base decidable gmap strings list.
From Stdlib Require Import ZArith Ascii Lia.
From S2P Require Import Prelude GoStrings GoAny ServiceErrors MemCache GoParse UnicodeText.

Local Open Scope string_scope.
Local Open Scope Z_scope.

Class AuthLibraries := {
  uuids :: UUIDText;
  sha256_hex : string -> string;
  uuid_parse : string -> option UUID;
  uuid_sha1 : string -> UUID;
  uuid_parse_string : ∀ u, uuid_parse (uuid_string u) = Some u;
  uuid_parse_empty : uuid_parse "" = None;
}.

Inductive auth_error :=
| ErrTokenExpired
| ErrInvalidToken
| ErrNoAPIKey
| ErrInvalidAPIKey
| ErrInsufficientScope
| Failed (context : string) (e : error).

Definition DefaultTenantID : UUID := 1%N.
Definition SystemUserID : UUID := 0%N.

(** ** Types of keys *)

Module KeyType.
Definition Valid (kt : string) : bool :=
  existsb (String.eqb kt) ["user"; "admin"; "agent"; "gateway"].
(** [Scan] of a column of text. *)
Definition Scan (value : string) : string := if Valid value then value else "user".
Definition GetScopes (kt : string) : list string :=
  if String.eqb kt "admin" then ["read"; "write"; "admin"]
  else if String.eqb kt "gateway" then ["read"; "write"; "gateway"]
  else if String.eqb kt "agent" then ["read"; "write"; "agent"]
  else ["read"].
Definition GetRateLimit (kt : string) : Z :=
  if String.eqb kt "admin" then 10000 else if String.eqb kt "gateway" then 5000 else if String.eqb kt "agent" then 1000 else 100.
End KeyType.

Definition generatePrefix (keyType : string) : string :=
  if String.eqb keyType "admin" then "adm" else if String.eqb keyType "gateway" then "gw"
  else if String.eqb keyType "agent" then "agt" else "usr".
Definition getRoleScopes (role : string) : list string :=
  if String.eqb role "admin" then ["read"; "write"; "admin"] else if String.eqb role "write" then ["read"; "write"] else ["read"].
Definition getKeyTypeFromRole (role : string) : string :=
  if existsb (String.eqb role) ["admin"; "agent"; "gateway"] then role else "user".

(** ** Data *)

Record APIKey := MkKey {
  Key : string;
  KeyHash : string;
  KeyPrefix : string;
  TenantID : UUID;
  UserID : UUID;
  Name : string;
  KeyType_ : string;
  Scopes : list string;
  ExpiresAt : option Z;
  CreatedAt : Z;
  Active : bool;
  ParentKeyID : option string;
  AllowedServices : list string;
  RateLimitRequests : Z;
  RateLimitWindowSeconds : Z;
}.
(** A composite literal with the fields that most of the code sets. *)
Definition plain_key (key : string) (tenant user : UUID) (name type : string) (scopes : list string) (expires : option Z) (now : Z) : APIKey :=
  MkKey key "" "" tenant user name type scopes expires now true None [] 0 0.

Inductive AuthType := TypeAPIKey | TypeJWT | TypeNone.

Module User.
Record t := Mk {
  ID : UUID;
  TenantID : UUID;
  Email : string;
  Scopes : list string;
  AuthType_ : AuthType;
  Metadata : gmap string any;
}.
End User.
Notation User := User.t.

Record ServiceConfig := MkConfig {
  JWTSecret : string;
  JWTExpiration : Z;
  APIKeyHeader : string;
  EnableAPIKeys : bool;
  EnableJWT : bool;
  CacheEnabled : bool;
  CacheTTL : Z;
  MaxFailedAttempts : Z;
  LockoutDuration : Z;
}.
Definition DefaultConfig : ServiceConfig :=
  MkConfig "" (24 * 60 * minute) "X-API-Key" true true true (5 * minute) 5 (15 * minute).

(** A row of [mcp.api_keys]; UUIDs as text. *)
Record KeyRow := MkRow {
  row_id : string;
  key_prefix : string;
  tenant_id : string;
  user_id : option string;
  name : string;
  key_type : string;
  scopes : list string;
  is_active : bool;
  expires_at : option Z;
  rate_limit : Z;
  parent_key_id : option string;
  allowed_services : list string;
}.
Definition set_active (b : bool) (r : KeyRow) : KeyRow :=
  MkRow (row_id r) (key_prefix r) (tenant_id r) (user_id r) (name r) (key_type r) (scopes r) b (expires_at r) (rate_limit r)
    (parent_key_id r) (allowed_services r).

(** [fault]: the error that the database reports for a statement. *)
Record authdb := MkDb {
  rows : gmap string KeyRow;
  fault : string -> option error;
}.
Definition set_rows (m : gmap string KeyRow) (d : authdb) : authdb := MkDb m (fault d).

Record Service (C : Type) := MkService {
  config : ServiceConfig;
  db : option authdb;
  cache : option C;
  apiKeys : gmap string APIKey;
}.
Arguments MkService {C}.
Arguments config {C}.
Arguments db {C}.
Arguments cache {C}.
Arguments apiKeys {C}.

Section service.
Context {libs : AuthLibraries} {C : Type} {ops : CacheOps User C}.
Implicit Types s : Service C.

Definition NewService (c : option ServiceConfig) (d : option authdb) (ca : option C) : Service C :=
  MkService (default DefaultConfig c) d ca ∅.
Definition set_db (d : option authdb) s : Service C := MkService (config s) d (cache s) (apiKeys s).
Definition set_cache (ca : option C) s : Service C := MkService (config s) (db s) ca (apiKeys s).
Definition set_keys (m : gmap string APIKey) s : Service C := MkService (config s) (db s) (cache s) m.
Definition store_key (key : string) (k : APIKey) s : Service C := set_keys (<[key := k]> (apiKeys s)) s.

Definition hashAPIKey (apiKey : string) : string := sha256_hex apiKey.
Definition getKeyPrefix (apiKey : string) : string := take_bytes 8 apiKey.

Definition key_char (a : ascii) : bool :=
  let n := Z.of_N (N_of_ascii a) in
  ((97 <=? n) && (n <=? 122)) || ((65 <=? n) && (n <=? 90)) || ((48 <=? n) && (n <=? 57)) || (n =? 95) || (n =? 45).
Fixpoint all_key_chars (s : string) : bool := match s with EmptyString => true | String a s => key_char a && all_key_chars s end.
Definition isValidAPIKeyFormat (apiKey : string) : bool :=
  (0 <? len apiKey) && (len apiKey <=? 256) && all_key_chars apiKey.

(** ** Validation *)

Definition expired (now : Z) (e : option Z) : bool := match e with Some t => t <? now | None => false end.

Definition key_metadata (type name : string) (services : list string) : gmap string any :=
  list_to_map [("key_type", AString type); ("key_name", AString name); ("allowed_services", AStrings services)].
Definition user_of_key (k : APIKey) : User :=
  User.Mk (UserID k) (TenantID k) "" (Scopes k) TypeAPIKey (key_metadata (KeyType_ k) (Name k) (AllowedServices k)).

(** The user of a row that was found: [type] is the type of the key as it was read. *)
Definition user_of_row (type : string -> string) (r : KeyRow) : result auth_error User :=
  let userUUID := match user_id r with Some u => if String.eqb u "" then SystemUserID else default SystemUserID (uuid_parse u) | None => SystemUserID end in
  match uuid_parse (tenant_id r) with
  | None => Err ErrInvalidAPIKey
  | Some tenantUUID => Ok (User.Mk userUUID tenantUUID "" (scopes r) TypeAPIKey (key_metadata (type (key_type r)) (name r) (allowed_services r)))
  end.

(** [WHERE key_hash = $1 AND is_active = true], and the prefix if it is given. *)
Definition select_key (what : string) (hash : string) (prefix : option string) (d : authdb) : result auth_error KeyRow :=
  match fault d what with
  | Some e => Err (Failed "database error" e)
  | None =>
      match rows d !! hash with
      | Some r => if is_active r && match prefix with Some p => String.eqb (key_prefix r) p | None => true end then Ok r else Err ErrInvalidAPIKey
      | None => Err ErrInvalidAPIKey
      end
  end.
Definition validate_row (now : Z) (type : string -> string) (r : KeyRow) : result auth_error User :=
  if expired now (expires_at r) then Err ErrInvalidAPIKey else user_of_row type r.

Definition user_key (apiKey : string) : string := "auth:apikey:" +:+ apiKey.
Definition caches s : option C := if CacheEnabled (config s) then cache s else None.
Definition cache_user (now : Z) (apiKey : string) (u : User) s : Service C :=
  match caches s with
  | Some ca => set_cache (Some (snd (cache_Set now (user_key apiKey) u (CacheTTL (config s)) ca))) s
  | None => s
  end.
Definition cached (now : Z) (apiKey : string) (r : result auth_error User) s : result auth_error User * Service C :=
  match r with Ok u => (Ok u, cache_user now apiKey u s) | Err e => (Err e, s) end.

Definition zero_user : User := User.Mk 0%N 0%N "" [] TypeNone ∅.
Definition as_api_key (u : User) : User :=
  User.Mk (User.ID u) (User.TenantID u) (User.Email u) (User.Scopes u) TypeAPIKey (User.Metadata u).

(** [var cachedUser User; s.cache.Get(ctx, cacheKey, &cachedUser)]. *)
Definition cached_user (now : Z) (apiKey : string) s : option User :=
  match caches s with
  | Some ca =>
      match cache_Get now (user_key apiKey) ca with
      | Ok u => Some (as_api_key (default zero_user u))
      | Err _ => None
      end
  | None => None
  end.

(** A key of the memory or of the table; the table is asked if the key is not in memory, or not
    active there. *)
Definition find_user (now : Z) (apiKey : string) s : result auth_error User :=
  match apiKeys s !! apiKey, db s with
  | None, Some d => select_key "validate" (hashAPIKey apiKey) None d ≫= validate_row now id
  | Some key, d =>
      if Active key then (if expired now (ExpiresAt key) then Err ErrInvalidAPIKey else Ok (user_of_key key))
      else
        match d with
        | Some d => select_key "validate" (hashAPIKey apiKey) (Some (getKeyPrefix apiKey)) d ≫= validate_row now KeyType.Scan
        | None => Err ErrInvalidAPIKey
        end
  | None, None => Err ErrInvalidAPIKey
  end.

Definition ValidateAPIKey (now : Z) (apiKey : string) s : result auth_error User * Service C :=
  if String.eqb apiKey "" then (Err ErrNoAPIKey, s)
  else if negb (isValidAPIKeyFormat apiKey) then (Err ErrInvalidAPIKey, s)
  else
    match cached_user now apiKey s with
    | Some u => (Ok u, s)
    | None => cached now apiKey (find_user now apiKey s) s
    end.

(** ** Revocation *)

(** [UPDATE api_keys SET active = false WHERE key = $1]. *)
Definition RevokeAPIKey (now : Z) (apiKey : string) s : result auth_error () * Service C :=
  let s := set_keys (delete apiKey (apiKeys s)) s in
  match db s ≫= λ d, fault d "revoke" with
  | Some e => (Err (Failed "failed to revoke API key" e), s)
  | None =>
      (Ok (),
       match caches s with
       | Some ca => set_cache (Some (snd (cache_Delete now (user_key apiKey) ca))) s
       | None => s
       end)
  end.

(** [WHERE id = $1 AND tenant_id = $2 AND user_id = $3]. *)
Definition is_key (tenantID userID keyID : string) (r : KeyRow) : bool :=
  String.eqb (row_id r) keyID && String.eqb (tenant_id r) tenantID && match user_id r with Some u => String.eqb u userID | None => false end.
Definition RevokeAPIKeyByID (tenantID userID keyID : string) s : result auth_error () * Service C :=
  match db s with
  | None => (Err (Failed "database connection not available" (External "")), s)
  | Some d =>
      match fault d "revoke by id" with
      | Some e => (Err (Failed "failed to revoke API key" e), s)
      | None =>
          if (size (filter (λ kr : string * KeyRow, is_key tenantID userID keyID kr.2) (rows d)) =? 0)%nat
          then (Err (Failed "API key not found or not authorized" (External "")), s)
          else (Ok (), set_db (Some (set_rows ((λ r, if is_key tenantID userID keyID r then set_active false r else r) <$> rows d) d)) s)
      end
  end.

(** ** Scopes *)

Definition AuthorizeScopes (user : User) (requiredScopes : list string) : option auth_error :=
  if (List.length requiredScopes =? 0)%nat then None
  else
    let userScopeMap : gset string := list_to_set (User.Scopes user) in
    if forallb (λ required, bool_decide (required ∈ userScopeMap)) requiredScopes then None else Some ErrInsufficientScope.

(** ** Creation *)

(** [keyStr] is [generateAPIKey()]. *)
Definition CreateAPIKey (now : Z) (keyStr : string) (tenantID userID : UUID) (name : string) (scopes : list string) (expiresAt : option Z) s
    : result auth_error APIKey * Service C :=
  let apiKey := plain_key keyStr tenantID userID name "" scopes expiresAt now in
  let s := store_key keyStr apiKey s in
  match db s ≫= λ d, fault d "create" with
  | Some e => (Err (Failed "failed to create API key" e), s)
  | None => (Ok apiKey, s)
  end.

Record CreateAPIKeyRequest := MkRequest {
  r_Name : string;
  r_TenantID : string;
  r_UserID : string;
  r_KeyType : string;
  r_Scopes : list string;
  r_ExpiresAt : option Z;
  r_AllowedServices : list string;
  r_ParentKeyID : option string;
  r_RateLimit : option Z;
}.

(** The hash is unique, and a key expires after its creation. *)
Definition insert_row (what : string) (now : Z) (hash : string) (r : KeyRow) (d : authdb) : result error authdb :=
  match fault d what with
  | Some e => Err e
  | None =>
      if bool_decide (is_Some (rows d !! hash)) then Err (External "23505")
      else if match expires_at r with Some t => t <=? now | None => false end then Err (External "23514")
      else Ok (set_rows (<[hash := r]> (rows d)) d)
  end.

Definition is_system (userID : string) : bool := String.eqb userID "" || String.eqb userID "system".

(** [random]: the text of 32 random bytes; [newID]: what [uuid_generate_v4()] gives. *)
Definition CreateAPIKeyWithType (now : Z) (random newID : string) (req : CreateAPIKeyRequest) s : result auth_error APIKey * Service C :=
  if negb (KeyType.Valid (r_KeyType req)) then
    (Err (Failed "" (Errorf (Sprintf "invalid key type: %s" [AString (r_KeyType req)]))), s)
  else
    match uuid_parse (r_TenantID req), (if is_system (r_UserID req) then Some SystemUserID else uuid_parse (r_UserID req)) with
    | None, _ => (Err (Failed "invalid tenant ID" (External "uuid")), s)
    | _, None => (Err (Failed "invalid user ID" (External "uuid")), s)
    | Some tenantUUID, Some userUUID =>
        let keyString := generatePrefix (r_KeyType req) +:+ "_" +:+ random in
        let keyHash := hashAPIKey keyString in
        let keyPrefix := take_bytes 8 keyString in
        let rateLimit := default (KeyType.GetRateLimit (r_KeyType req)) (r_RateLimit req) in
        let scopes := if (List.length (r_Scopes req) =? 0)%nat then KeyType.GetScopes (r_KeyType req) else r_Scopes req in
        let apiKey hash := MkKey keyString hash keyPrefix tenantUUID userUUID (r_Name req) (r_KeyType req) scopes (r_ExpiresAt req) now true
                             (r_ParentKeyID req) (r_AllowedServices req) rateLimit 60 in
        match db s with
        | Some d =>
            let row := MkRow newID keyPrefix (uuid_string tenantUUID) (if is_system (r_UserID req) then None else Some (uuid_string userUUID))
                         (r_Name req) (r_KeyType req) scopes true (r_ExpiresAt req) rateLimit (r_ParentKeyID req) (r_AllowedServices req) in
            match insert_row "insert" now keyHash row d with
            | Err e => (Err (Failed "failed to create API key in database" e), s)
            | Ok d => (Ok (apiKey ""), set_db (Some d) s)
            end
        | None => (Ok (apiKey keyHash), store_key keyString (apiKey keyHash) s)
        end
    end.

(** The key is updated if its hash is there. *)
Definition storeAPIKeyInDB (now : Z) (newID rawKey : string) (k : APIKey) (d : authdb) : result error authdb :=
  let keyHash := sha256_hex rawKey in
  match fault d "exists" with
  | Some e => Err (Wrapped "failed to check existing key" e)
  | None =>
      match rows d !! keyHash with
      | Some r =>
          match fault d "update" with
          | Some e => Err e
          | None =>
              Ok (set_rows (<[keyHash := MkRow (row_id r) (key_prefix r) (tenant_id r) (user_id r) (Name k) (KeyType_ k) (Scopes k) (Active k)
                                         (expires_at r) (rate_limit r) (parent_key_id r) (allowed_services r)]> (rows d)) d)
          end
      | None =>
          insert_row "store" now keyHash
            (MkRow newID (take_bytes 8 rawKey) (uuid_string (TenantID k)) (if bool_decide (UserID k = SystemUserID) then None else Some (uuid_string (UserID k)))
               (Name k) (KeyType_ k) (Scopes k) (Active k) None 1000 None []) d
      end
  end.

(** ** Keys of the configuration *)

Definition tenant_or_default (t : string) : UUID :=
  if String.eqb t "" then DefaultTenantID else default DefaultTenantID (uuid_parse t).

(** [key[len(key)-4:]], for the log. *)
Definition log_suffix (key : string) : outcome () () :=
  if len key <? 4 then Panics else Returns ().

(** [keys] in the order of the range. *)
Definition default_key (now : Z) s (kr : string * string) : outcome () (Service C) :=
  let '(key, role) := kr in
  let s := store_key key (plain_key key DefaultTenantID SystemUserID ("Default " +:+ role +:+ " key") "" (getRoleScopes role) None now) s in
  log_suffix key ≫= λ _, Returns s.
Fixpoint each {A} (f : Service C -> A -> outcome () (Service C)) (l : list A) s : outcome () (Service C) :=
  match l with [] => Returns s | x :: l => f s x ≫= each f l end.
Definition InitializeDefaultAPIKeys (now : Z) (keys : list (string * string)) s : outcome () (Service C) := each (default_key now) keys s.

Definition text_field (m : gmap string any) (k : string) : string := default "" (as_string (field m k)).
(** The role [reader] is read as well. *)
Definition config_scopes (m : gmap string any) : list string :=
  match as_list (field m "scopes") with
  | Some l => omap as_string l
  | None => getRoleScopes (text_field m "role")
  end.
Definition config_user (key : string) (m : gmap string any) : UUID :=
  let userIDStr := text_field m "user_id" in
  if String.eqb userIDStr "" then uuid_sha1 ("user-" +:+ key) else default (uuid_sha1 userIDStr) (uuid_parse userIDStr).
Definition config_key (now : Z) s (kc : string * any) : outcome () (Service C) :=
  let '(key, config) := kc in
  match
    match config with
    | AString v => Some (plain_key key DefaultTenantID SystemUserID ("Default " +:+ v +:+ " key") "" (getRoleScopes v) None now)
    | AMap m =>
        let tenantUUID := tenant_or_default (text_field m "tenant_id") in
        Some (plain_key key tenantUUID (config_user key m) (text_field m "role" +:+ " key for " +:+ uuid_string tenantUUID) "" (config_scopes m) None now)
    | _ => None
    end
  with
  | Some apiKey => log_suffix key ≫= λ _, Returns (store_key key apiKey s)
  | None => Returns s
  end.
Definition InitializeAPIKeysWithConfig (now : Z) (keysConfig : list (string * any)) s : outcome () (Service C) := each (config_key now) keysConfig s.

Record APIKeySettings := MkSettings {
  s_Role : string;
  s_Scopes : list string;
  s_TenantID : string;
  s_ExpiresIn : string;
}.

(** The statement of [persistAPIKey] may fail: the key is in memory. *)
Definition AddAPIKey (now : Z) (key : string) (settings : APIKeySettings) s : result auth_error () * Service C :=
  let refuse context := (Err (Failed context (External "")), s) in
  if String.eqb key "" then refuse "API key cannot be empty"
  else if len key <? 16 then refuse "API key too short (minimum 16 characters)"
  else
    match (if String.eqb (s_TenantID settings) "" then Some DefaultTenantID else uuid_parse (s_TenantID settings)) with
    | None => refuse "invalid tenant ID"
    | Some tenantUUID =>
        let scopes := if (List.length (s_Scopes settings) =? 0)%nat then ["read"] else s_Scopes settings in
        let k expires := plain_key key tenantUUID SystemUserID (s_Role settings +:+ " API key") "" scopes expires now in
        if String.eqb (s_ExpiresIn settings) "" then (Ok (), store_key key (k None) s)
        else
          match ParseDuration (s_ExpiresIn settings) with
          | None => refuse "invalid expiration duration"
          | Some duration =>
              if duration <? 0 then refuse "expiration duration cannot be negative"
              else (Ok (), store_key key (k (Some (now + duration))) s)
          end
    end.

(** *** From the environment *)

Definition development_key (now : Z) s (ks : string * APIKeySettings) : Service C :=
  let '(key, settings) := ks in
  let k := plain_key ("dev_" +:+ key) (tenant_or_default (s_TenantID settings)) (uuid_sha1 ("dev-user-" +:+ key))
             ("Development " +:+ s_Role settings +:+ " key") (getKeyTypeFromRole (s_Role settings)) (s_Scopes settings) None now in
  store_key (Key k) k s.

(** An environment: the entries [NAME=value] in order; [Getenv] gives the value of a name. *)
Fixpoint Getenv (environ : list (string * string)) (name : string) : string :=
  match environ with [] => "" | (n, v) :: l => if String.eqb n name then v else Getenv l name end.

Definition standardKeys : list (string * string * string) :=
  [("ADMIN_API_KEY", "admin", "admin"); ("READER_API_KEY", "reader", "read"); ("MCP_API_KEY", "mcp", "admin"); ("E2E_API_KEY", "e2e", "admin")].

Definition env_tenant (environ : list (string * string)) : UUID := tenant_or_default (Getenv environ "DEFAULT_TENANT_ID").

(** [newID]: the identifier of a new row for the key. *)
Definition standard_key (now : Z) (newID : string -> string) (environ : list (string * string)) s (k : string * string * string) : Service C :=
  let '(envVar, name, role) := k in
  let keyValue := Getenv environ envVar in
  if String.eqb keyValue "" then s
  else
    let apiKey := plain_key keyValue (env_tenant environ) SystemUserID name (getKeyTypeFromRole role) (getRoleScopes role) None now in
    let s := store_key keyValue apiKey s in
    match db s with
    | Some d => match storeAPIKeyInDB now (newID keyValue) keyValue apiKey d with Ok d => set_db (Some d) s | Err _ => s end
    | None => s
    end.

(** [API_KEY_<NAME>_<ROLE>]. *)
Definition custom_key (now : Z) (environ : list (string * string)) s (env : string * string) : Service C :=
  let '(var, keyValue) := env in
  if HasPrefix var "API_KEY_" then
    let keyParts := Split (TrimPrefix var "API_KEY_") "_" in
    if (List.length keyParts <? 2)%nat then s
    else
      let role := ToLower (List.last keyParts "") in
      let name := Join (removelast keyParts) "_" in
      store_key keyValue (plain_key keyValue (env_tenant environ) SystemUserID name (getKeyTypeFromRole role) (getRoleScopes role) None now) s
  else s.

Definition loadKeysFromEnv (now : Z) (newID : string -> string) (environ : list (string * string)) s : Service C :=
  foldl (custom_key now environ) (foldl (standard_key now newID environ) s standardKeys) environ.

(** [keys] in the order of the range. *)
Definition loadDevelopmentKeys (now : Z) newID environ (keys : list (string * APIKeySettings)) s : Service C :=
  if String.eqb (Getenv environ "ENVIRONMENT") "docker" then loadKeysFromEnv now newID environ s else foldl (development_key now) s keys.

Definition loadProductionKeys (now : Z) newID environ (source : string) s : result auth_error () * Service C :=
  if String.eqb source "database" then (Ok (), s)
  else if String.eqb source "env" then (Ok (), loadKeysFromEnv now newID environ s)
  else
    (Err (Failed (if String.eqb source "vault" then "vault integration not implemented"
                  else if String.eqb source "aws-secrets" then "AWS Secrets Manager integration not implemented"
                  else "unsupported key source: " +:+ source) (External "")), s).

Definition LoadAPIKeys (now : Z) newID environ (keys : list (string * APIKeySettings)) (source : string) s : result auth_error () * Service C :=
  let env := Getenv environ "ENVIRONMENT" in
  if existsb (String.eqb env) ["development"; "test"; "docker"; ""] then (Ok (), loadDevelopmentKeys now newID environ keys s)
  else if String.eqb env "production" then loadProductionKeys now newID environ source s
  else (Err (Failed ("unknown environment: " +:+ env) (External "")), s).
End service.

(** ** What a key stands for *)

Section meaning.
Context {libs : AuthLibraries} {C : Type} {ops : CacheOps User C}.
Implicit Types s : Service C.

(** The key is active and has not expired, in memory or in the table, and [u] is the user
    that is kept there. *)
Definition valid_in_memory (t : Z) (key : string) s (u : User) : Prop :=
  ∃ k, apiKeys s !! key = Some k /\ Active k = true /\ expired t (ExpiresAt k) = false /\ u = user_of_key k.
Definition valid_in_table (t : Z) (key : string) s (u : User) : Prop :=
  ∃ d r, db s = Some d /\ rows d !! sha256_hex key = Some r /\ is_active r = true /\ expired t (expires_at r) = false /\
    uuid_parse (tenant_id r) = Some (User.TenantID u) /\ User.Scopes u = scopes r /\ User.AuthType_ u = TypeAPIKey.
Definition valid_key (t : Z) (key : string) s (u : User) : Prop := valid_in_memory t key s u \/ valid_in_table t key s u.

Lemma user_of_row_ok type r u :
  user_of_row type r = Ok u ->
  uuid_parse (tenant_id r) = Some (User.TenantID u) /\ User.Scopes u = scopes r /\ User.AuthType_ u = TypeAPIKey.
Proof. unfold user_of_row. destruct (uuid_parse (tenant_id r)); [|done]. by intros [= <-]. Qed.

Lemma select_ok what hash prefix d r :
  select_key what hash prefix d = Ok r -> rows d !! hash = Some r /\ is_active r = true.
Proof.
  unfold select_key. destruct (fault d what); [done|]. destruct (rows d !! hash) as [r'|]; [|done].
  destruct (is_active r') eqn:Ha; [|done]. simpl. destruct prefix as [p|]; [destruct (String.eqb _ _); [|done]|]; by intros [= <-].
Qed.

Lemma row_valid t key s d what prefix type u :
  db s = Some d -> select_key what (hashAPIKey key) prefix d ≫= validate_row t type = Ok u -> valid_in_table t key s u.
Proof.
  intros Hd (r & Hr & Hu)%bind_ok. apply select_ok in Hr as [Hr Ha]. unfold validate_row in Hu.
  destruct (expired t (expires_at r)) eqn:He; [done|]. exists d, r. apply user_of_row_ok in Hu as (? & ? & ?). by split_and!.
Qed.

Lemma find_valid t key s u : find_user t key s = Ok u -> valid_key t key s u.
Proof.
  unfold find_user. destruct (apiKeys s !! key) as [k|] eqn:Hk.
  - destruct (Active k) eqn:Ha.
    + destruct (expired t (ExpiresAt k)) eqn:He; [done|]. intros [= <-]. left. by exists k.
    + destruct (db s) as [d|] eqn:Hd; [|done]. intros Hu. right. by eapply row_valid.
  - destruct (db s) as [d|] eqn:Hd; [|done]. intros Hu. right. by eapply row_valid.
Qed.

Lemma valid_api_key t key s u : valid_key t key s u -> as_api_key u = u.
Proof. intros [(k & _ & _ & _ & ->)|(d & r & _ & _ & _ & _ & _ & _ & Ht)]; [done|]. destruct u. simpl in *. by subst. Qed.

(** What the other operations do: the cache stays. *)
Definition same_cache s s' : Prop := config s' = config s /\ cache s' = cache s.

Lemma create_same now key t u n sc e s : same_cache s (CreateAPIKey now key t u n sc e s).2.
Proof. unfold CreateAPIKey. by destruct (_ ≫= _). Qed.

Lemma create_with_type_same now random newID req s : same_cache s (CreateAPIKeyWithType now random newID req s).2.
Proof. unfold CreateAPIKeyWithType. repeat case_match; done. Qed.

Lemma revoke_by_id_same t u k s : same_cache s (RevokeAPIKeyByID t u k s).2.
Proof. unfold RevokeAPIKeyByID. repeat case_match; done. Qed.

Lemma add_same now key settings s : same_cache s (AddAPIKey now key settings s).2.
Proof. unfold AddAPIKey. repeat case_match; done. Qed.

Lemma foldl_same {A} (f : Service C -> A -> Service C) (l : list A) s :
  (∀ s x, same_cache s (f s x)) -> same_cache s (foldl f s l).
Proof.
  intros Hf. revert s. induction l as [|x l IH]; intros s; [done|]. destruct (IH (f s x)) as [H1 H2], (Hf s x) as [H3 H4].
  simpl. split; congruence.
Qed.

Lemma env_same now newID environ s : same_cache s (loadKeysFromEnv now newID environ s).
Proof.
  unfold loadKeysFromEnv. assert (same_cache s (foldl (standard_key now newID environ) s standardKeys)) as [H1 H2].
  { apply foldl_same. intros s' [[v n] r]. unfold standard_key. repeat case_match; done. }
  assert (∀ s', same_cache s' (foldl (custom_key now environ) s' environ)) as H.
  { intros s'. apply foldl_same. intros s2 [var v]. unfold custom_key. repeat case_match; done. }
  destruct (H (foldl (standard_key now newID environ) s standardKeys)). split; congruence.
Qed.

Lemma load_same now newID environ keys source s : same_cache s (LoadAPIKeys now newID environ keys source s).2.
Proof.
  unfold LoadAPIKeys, loadDevelopmentKeys, loadProductionKeys. repeat case_match; simpl; try done; try apply env_same.
  apply foldl_same. by intros s' [k x].
Qed.

(** ** Histories *)

(** The service at the beginning of each step, and when the step was made; between two steps any
    other operation may change the keys in memory and in the table. *)
Inductive history (s0 : Service C) : list (Z * Service C) -> Z -> Service C -> Prop :=
| history_start t : history s0 [] t s0
| history_validate l t t' s key :
    history s0 l t s -> t <= t' -> history s0 ((t', s) :: l) t' (ValidateAPIKey t' key s).2
| history_revoke l t t' s key :
    history s0 l t s -> t <= t' -> history s0 ((t', s) :: l) t' (RevokeAPIKey t' key s).2
| history_change l t t' s s' :
    history s0 l t s -> t <= t' -> same_cache s s' -> history s0 ((t', s) :: l) t' s'.

Context {laws : CacheLaws User C}.

(** [u] was the user of the key at some time in the last [CacheTTL]. *)
Definition vouched (l : list (Z * Service C)) (ttl t : Z) (key : string) (u : User) : Prop :=
  ∃ t0 s0, (t0, s0) ∈ l /\ t <= t0 + ttl /\ valid_key t0 key s0 u.
Definition backed (l : list (Z * Service C)) s : Prop :=
  ∀ ca, cache s = Some ca -> ∀ t key v, cache_Get t (user_key key) ca = Ok v ->
  ∃ u, v = Some u /\ vouched l (CacheTTL (config s)) t key u.

Lemma vouched_more x l ttl t key u : vouched l ttl t key u -> vouched (x :: l) ttl t key u.
Proof. intros (t0 & s0 & Hin & H). exists t0, s0. by split; [right|]. Qed.

Lemma backed_more x l s : backed l s -> backed (x :: l) s.
Proof.
  intros H ca Hca t key v Hv. destruct (H ca Hca t key v Hv) as (u & -> & Hu). exists u. split; [done|]. by apply vouched_more.
Qed.

Lemma user_key_inj a b : user_key a = user_key b -> a = b.
Proof. unfold user_key. intros H. simplify_eq. done. Qed.

Lemma backed_cached t key u l s :
  0 < CacheTTL (config s) -> valid_key t key s u -> backed l s -> backed ((t, s) :: l) (cache_user t key u s).
Proof.
  intros Httl Hu Hl. unfold cache_user, caches. destruct (CacheEnabled (config s)); [|by apply backed_more].
  destruct (cache s) as [ca|] eqn:Hca; [|by apply backed_more]. intros ca' [= <-] t' key' v. simpl.
  destruct (decide (key' = key)) as [->|Hne].
  - destruct (Z.le_gt_cases t' (t + CacheTTL (config s))) as [Hle|Hgt].
    + rewrite get_set by done. intros [= <-]. exists u. split; [done|]. exists t, s. by split; [left|].
    + intros Hv. pose proof (get_set_expired t t' (user_key key) u (CacheTTL (config s)) ca Httl ltac:(lia)) as He. by rewrite Hv in He.
  - rewrite get_set_ne by (intros H%user_key_inj; congruence). intros Hv.
    destruct (Hl ca Hca t' key' v Hv) as (u' & -> & Hu'). exists u'. split; [done|]. by apply vouched_more.
Qed.

Lemma backed_revoked t key l s : backed l s -> backed ((t, s) :: l) (RevokeAPIKey t key s).2.
Proof.
  intros Hl. apply (backed_more (t, s)) in Hl. unfold RevokeAPIKey. destruct (_ ≫= _); [done|]. unfold caches. simpl.
  destruct (CacheEnabled (config s)); [|done]. destruct (cache s) as [ca|] eqn:Hca; [|intros ca' H; simpl in H; congruence].
  intros ca' [= <-] t' key' v. simpl. destruct (decide (key' = key)) as [->|Hne].
  - intros Hv. pose proof (get_delete t t' (user_key key) ca) as H. by rewrite Hv in H.
  - rewrite get_delete_ne by (intros H%user_key_inj; congruence). by apply Hl.
Qed.

Lemma validate_cases t key s u s' :
  ValidateAPIKey t key s = (Ok u, s') ->
  (cached_user t key s = Some u /\ s' = s) \/ (find_user t key s = Ok u /\ s' = cache_user t key u s).
Proof.
  unfold ValidateAPIKey. destruct (String.eqb key ""); [done|]. destruct (negb _); [done|].
  destruct (cached_user t key s); [intros [= <- <-]; by left|]. unfold cached. destruct (find_user t key s); [|done].
  intros [= <- <-]. by right.
Qed.

Lemma validate_state t key s : (ValidateAPIKey t key s).2 = s \/ ∃ u, valid_key t key s u /\ (ValidateAPIKey t key s).2 = cache_user t key u s.
Proof.
  destruct (ValidateAPIKey t key s) as [[u|e] s'] eqn:H.
  - apply validate_cases in H as [[_ ->]|[Hu ->]]; [by left|]. right. exists u. split; [by apply find_valid|done].
  - left. unfold ValidateAPIKey, cached in H. destruct (String.eqb key ""); [by simplify_eq|]. destruct (negb _); [by simplify_eq|].
    destruct (cached_user t key s); [by simplify_eq|]. destruct (find_user t key s); by simplify_eq.
Qed.

Lemma cache_user_config t key u s : config (cache_user t key u s) = config s.
Proof. unfold cache_user. by destruct (caches s). Qed.

Lemma history_backed s0 l t s :
  history s0 l t s -> 0 < CacheTTL (config s0) -> backed [] s0 -> config s = config s0 /\ backed l s.
Proof.
  intros H Httl H0. induction H as [t|l t t' s key _ [IHc IH] _|l t t' s key _ [IHc IH] _|l t t' s s' _ [IHc IH] _ [Hc Hca]]; [done|..].
  - destruct (validate_state t' key s) as [->|(u & Hu & ->)]; [by split; [|apply backed_more]|].
    split; [by rewrite cache_user_config|]. apply backed_cached; [by rewrite IHc|done..].
  - split; [|by apply backed_revoked]. unfold RevokeAPIKey. simpl. destruct (_ ≫= _); [done|]. by destruct (caches _).
  - split; [by rewrite Hc|]. apply (backed_more (t', s)) in IH. unfold backed. by rewrite Hc, Hca.
Qed.
End meaning.


(** ** Revocation and creation *)

Section keys.
Context {libs : AuthLibraries} {C : Type} {ops : CacheOps User C}.
Implicit Types s : Service C.

Lemma validate_found t key s u :
  isValidAPIKeyFormat key = true -> find_user t key s = Ok u -> ∃ u', (ValidateAPIKey t key s).1 = Ok u'.
Proof.
  intros Hf Hu. unfold ValidateAPIKey. destruct (String.eqb_spec key "") as [->|_]; [done|]. rewrite Hf. simpl.
  destruct (cached_user t key s) as [u'|]; [by exists u'|]. rewrite Hu. by exists u.
Qed.

Lemma all_key_chars_app a b : all_key_chars (a +:+ b) = all_key_chars a && all_key_chars b.
Proof.
  induction a as [|c a IH]; [done|]. change (String c a +:+ b) with (String c (a +:+ b)). cbn [all_key_chars]. by rewrite IH, andb_assoc.
Qed.
Lemma prefix_chars ty : all_key_chars (generatePrefix ty) = true.
Proof. unfold generatePrefix. by repeat case_match. Qed.
End keys.

(** C2. With a database whose keys do not have the columns [key] and [active], [RevokeAPIKey] revokes nothing that is
    stored there: it answers with an error, and the key is accepted afterwards. *)
Theorem revoked_key_still_valid {libs : AuthLibraries} {C : Type} {ops : CacheOps User C} (s : Service C) d e r u t t' key :
  db s = Some d -> fault d "revoke" = Some e -> fault d "validate" = None ->
  isValidAPIKeyFormat key = true ->
  rows d !! sha256_hex key = Some r -> is_active r = true -> validate_row t' id r = Ok u ->
  let '(answer, s') := RevokeAPIKey t key s in
  is_ok answer = false /\ ∃ u', (ValidateAPIKey t' key s').1 = Ok u'.
Proof.
  intros Hd He Hv Hf Hr Ha Hu. unfold RevokeAPIKey. cbn [set_keys db]. rewrite Hd. cbn [mbind option_bind]. rewrite He. split; [done|].
  apply (validate_found t' key _ u); [done|]. unfold find_user. cbn [set_keys apiKeys db]. rewrite lookup_delete_eq, Hd.
  unfold select_key. rewrite Hv. unfold hashAPIKey. rewrite Hr, Ha. exact Hu.
Qed.

(** C3. A key that [CreateAPIKeyWithType] made, in the database or in memory, is accepted until it expires, for
    the tenant, the user and the scopes that it was made for. *)
Theorem created_key_accepted {libs : AuthLibraries} {C : Type} {ops : CacheOps User C} (s s' : Service C) now t random newID req k :
  CreateAPIKeyWithType now random newID req s = (Ok k, s') ->
  all_key_chars random = true -> len random <= 250 ->
  apiKeys s !! Key k = None -> (∀ d, db s = Some d -> fault d "validate" = None) ->
  cached_user t (Key k) s' = None -> expired t (r_ExpiresAt req) = false ->
  ∃ u, (ValidateAPIKey t (Key k) s').1 = Ok u /\
    User.ID u = UserID k /\ User.TenantID u = TenantID k /\ User.Scopes u = Scopes k /\ User.AuthType_ u = TypeAPIKey.
Proof.
  intros Hc Hr Hlen Hnew Hfault Hcache Hexp.
  assert (∃ u, find_user t (Key k) s' = Ok u /\ User.ID u = UserID k /\ User.TenantID u = TenantID k /\ User.Scopes u = Scopes k /\
    User.AuthType_ u = TypeAPIKey /\ Key k = generatePrefix (r_KeyType req) +:+ "_" +:+ random) as (u & Hu & Hid & Ht & Hs & Hty & Hkey).
  { unfold CreateAPIKeyWithType in Hc. destruct (KeyType.Valid (r_KeyType req)); [|done]. cbn [negb] in Hc.
    destruct (uuid_parse (r_TenantID req)) as [tenant|] eqn:Htenant; [|done].
    destruct (if is_system (r_UserID req) then Some SystemUserID else uuid_parse (r_UserID req)) as [user|] eqn:Huser; [|done].
    destruct (db s) as [d|] eqn:Hd.
    - unfold insert_row in Hc. destruct (fault d "insert"); [done|]. destruct (bool_decide _); [done|].
      cbn [expires_at] in Hc. destruct (match r_ExpiresAt req with Some t => t <=? now | None => false end); [done|]. injection Hc as <- <-.
      set (scopes := if (List.length (r_Scopes req) =? 0)%nat then _ else _) in *.
      exists (User.Mk user tenant "" scopes TypeAPIKey (key_metadata (r_KeyType req) (r_Name req) (r_AllowedServices req))).
      split; [|by split_and!].
      unfold find_user. cbn [set_db apiKeys db]. rewrite Hnew. unfold select_key. cbn [set_rows fault rows]. rewrite (Hfault d eq_refl), lookup_insert_eq.
      cbn [is_active andb mbind result_bind]. unfold validate_row. cbn [expires_at]. rewrite Hexp. unfold user_of_row. cbn [tenant_id user_id].
      rewrite uuid_parse_string. f_equal. f_equal. destruct (is_system (r_UserID req)); [by injection Huser as <-|].
      destruct (String.eqb_spec (uuid_string user) "") as [Hempty|]; [|by rewrite uuid_parse_string].
      pose proof (uuid_parse_string user) as Hp. by rewrite Hempty, uuid_parse_empty in Hp.
    - injection Hc as <- <-. set (apiKey := MkKey _ _ _ _ _ _ _ _ _ _ _ _ _ _ _). exists (user_of_key apiKey). split; [|by split_and!].
      unfold find_user, store_key. cbn [set_keys apiKeys]. rewrite lookup_insert_eq. cbn [apiKey Active ExpiresAt]. by rewrite Hexp. }
  exists u. split; [|done]. unfold ValidateAPIKey. rewrite Hkey. rewrite Hkey in Hu, Hcache.
  set (key := generatePrefix (r_KeyType req) +:+ "_" +:+ random) in *.
  assert (0 < len key <= 256 /\ all_key_chars key = true) as [Hl Hch].
  { unfold key. rewrite !len_app, !all_key_chars_app, prefix_chars, Hr. pose proof (len_nonneg random).
    assert (0 < len (generatePrefix (r_KeyType req)) <= 3) by (unfold generatePrefix; repeat case_match; done).
    change (len "_") with 1. split; [lia|done]. }
  destruct (String.eqb_spec key "") as [Hk|_]; [exfalso; rewrite Hk in Hl; change (len "") with 0 in Hl; lia|]. unfold isValidAPIKeyFormat. rewrite Hch.
  destruct (Z.ltb_spec 0 (len key)); [|lia]. destruct (Z.leb_spec (len key) 256); [|lia]. cbn [andb negb].
  rewrite Hcache. unfold cached. by rewrite Hu.
Qed.

(** ** The memory cache *)

Section memory.
Context {libs : AuthLibraries}.

(** C4. With the memory cache of [pkg/common/cache] a key that was just accepted is accepted again, but as
    nobody's: the user has neither identifier, tenant nor scopes. *)
Theorem memory_cache_user_lost (s s' : Service (Memory.MemoryCache User)) t t' key u :
  CacheEnabled (config s) = true -> cache s ≠ None -> 0 < CacheTTL (config s) -> t' <= t + CacheTTL (config s) ->
  cached_user t key s = None ->
  ValidateAPIKey t key s = (Ok u, s') -> ValidateAPIKey t' key s' = (Ok (as_api_key zero_user), s').
Proof.
  intros Hon Hca Ht Hle Hmiss Hv. pose proof Hv as Hv'. apply validate_cases in Hv' as [[Hc _]|[_ ->]]; [congruence|].
  assert (cached_user t' key (cache_user t key u s) = Some (as_api_key zero_user)) as Hhit.
  { unfold cached_user. destruct (cache s) as [ca|] eqn:Hcache; [|done]. unfold cache_user, caches. rewrite Hon, Hcache.
    cbn [set_cache config cache]. by rewrite Hon, Memory.set_get. }
  unfold ValidateAPIKey in *. destruct (String.eqb key ""); [done|]. destruct (negb _); [done|]. by rewrite Hhit.
Qed.
End memory.

(** ** Witnesses and examples *)

Section examples.

(** Identifiers for examples: a letter per unit. *)
Fixpoint units (n : nat) : string := match n with O => "" | S n => String "x" (units n) end.
Lemma units_length n : String.length (units n) = n.
Proof. induction n; simpl; congruence. Qed.
#[local] Program Instance unary_uuids : UUIDText := {| uuid_string u := String "u" (units (N.to_nat u)) |}.
Next Obligation.
  intros u v H. cbn in H. injection H as H. apply (f_equal String.length) in H. rewrite !units_length in H. lia.
Qed.
#[local] Program Instance example_libraries : AuthLibraries := {|
  sha256_hex s := s;
  uuid_parse s := match s with String a r => if Ascii.eqb a "u" then Some (N.of_nat (String.length r)) else None | EmptyString => None end;
  uuid_sha1 _ := 7%N |}.
Next Obligation. intros u. simpl. rewrite units_length. f_equal. lia. Qed.
Next Obligation. done. Qed.

Notation S := (Service (ttl_map User)) (only parsing).
Definition no_column : authdb := MkDb ∅ (λ what, if existsb (String.eqb what) ["revoke"; "create"] then Some (External "42703") else None).
Definition service0 : S := NewService None (Some no_column) (Some ∅).
Definition request : CreateAPIKeyRequest := MkRequest "ci" "uxx" "" "agent" [] (Some 100) [] None None.
Definition created : result auth_error APIKey * S := CreateAPIKeyWithType 10 "abcdef" "id-1" request service0.
Definition service1 : S := created.2.
Definition key1 : string := "agt_abcdef".
Definition user1 : User := User.Mk 0%N 2%N "" ["read"; "write"; "agent"] TypeAPIKey (key_metadata "agent" "ci" []).

Lemma created_key_accepted_witness :
  ∃ k u, created.1 = Ok k /\ Key k = key1 /\ (ValidateAPIKey 50 key1 service1).1 = Ok u /\
    User.ID u = UserID k /\ User.TenantID u = TenantID k /\ User.Scopes u = Scopes k /\ User.AuthType_ u = TypeAPIKey.
Proof.
  destruct created.1 as [k|e] eqn:Hk; [|vm_compute in Hk; discriminate].
  assert (Key k = key1) as Hkey by (vm_compute in Hk; injection Hk as <-; reflexivity).
  destruct (created_key_accepted service0 service1 10 50 "abcdef" "id-1" request k) as (u & Hu & H).
  - transitivity (created.1, created.2); [apply surjective_pairing|]. unfold service1. by rewrite Hk.
  - reflexivity.
  - vm_compute. discriminate.
  - reflexivity.
  - intros d [= <-]. reflexivity.
  - rewrite Hkey. vm_compute. reflexivity.
  - reflexivity.
  - exists k, u. rewrite Hkey in Hu. split; [done|]. split; [done|]. split; [exact Hu|exact H].
Defined.

Lemma revoked_key_still_valid_witness :
  let '(answer, s') := RevokeAPIKey 20 key1 service1 in
  is_ok answer = false /\ ∃ u', (ValidateAPIKey 30 key1 s').1 = Ok u'.
Proof.
  eapply revoked_key_still_valid; try (vm_compute; reflexivity).
Defined.

(** Accepted at 20, deleted from the table at 30, still accepted at 40. *)
Definition deleted (s : S) : S := set_db (Some (MkDb ∅ (fault no_column))) s.

Lemma memory_cache_user_lost_witness :
  let s : Service (Memory.MemoryCache User) := MkService DefaultConfig (db service1) (Some (Memory.NewMemoryCache 10 minute)) ∅ in
  (ValidateAPIKey 20 key1 s).1 = Ok user1 /\
  (ValidateAPIKey 30 key1 (ValidateAPIKey 20 key1 s).2).1 = Ok (as_api_key zero_user).
Proof.
  intros s. split; [vm_compute; reflexivity|].
  rewrite (memory_cache_user_lost s (ValidateAPIKey 20 key1 s).2 20 30 key1 user1); try (vm_compute; reflexivity); discriminate.
Defined.

(** "30d" is the example of a duration in the settings, but days are no unit. *)
Example days_are_refused :
  (AddAPIKey 0 "0123456789abcdef" (MkSettings "admin" ["admin"] "" "30d") service0).1 = Err (Failed "invalid expiration duration" (External "")).
Proof. reflexivity. Qed.

(** A key of less than four bytes panics where its end is logged. *)
Example short_key_panics : InitializeDefaultAPIKeys 0 [("abc", "admin")] service0 = Panics.
Proof. reflexivity. Qed.
End examples.
