(* ===== verification/AuthMiddleware.v ===== *)
(** * AuthMiddleware: tokens, and who is let in

    JSON web tokens of [pkg/auth/auth.go], [middleware.go] and [auth_middleware.go]: what a request is
    answered, over the keys of [ApiKeys] and the limiter of [AuthLimiter].  The library of
    tokens is an argument ([JWTLibrary]).  The answer of what follows in the chain of
    handlers is an argument; logs, metrics and audit records are left out. *)

From stdpp Require Import base decidable gmap strings list.
From Stdlib Require Import ZArith Ascii Lia.
From S2P Require Import Prelude Utf8 GoStrings GoAny GoParse ServiceErrors UnicodeText MemCache ApiKeys.
From S2P Require AuthLimiter.

Local Open Scope string_scope.
Local Open Scope Z_scope.

(** [Claims]; times in nanoseconds. *)
Module Claims.
Record t := Mk {
  IssuedAt : option Z;
  ExpiresAt : option Z;
  NotBefore : option Z;
  ID : string;
  UserID : string;
  TenantID : string;
  Scopes : list string;
  Email : string;
}.

(** [RegisteredClaims.Valid]. *)
Definition timely (now : Z) (c : t) : Prop :=
  (∀ e, ExpiresAt c = Some e -> now < e) /\ (∀ i, IssuedAt c = Some i -> i <= now) /\ (∀ n, NotBefore c = Some n -> n <= now).
(** Times of whole seconds and valid text survive [encoding/json]. *)
Definition whole (o : option Z) : Prop := ∀ x, o = Some x -> x mod second = 0.
Definition plain (c : t) : Prop :=
  whole (IssuedAt c) /\ whole (ExpiresAt c) /\ whole (NotBefore c) /\
  utf8 (ID c) /\ utf8 (UserID c) /\ utf8 (TenantID c) /\ Forall utf8 (Scopes c) /\ utf8 (Email c).
End Claims.

(** [github.com/golang-jwt/jwt]: [authentic alg secret token c] says that the token carries the claims and a
    signature that the secret verifies. *)
Class JWTLibrary := {
  algorithm : Type;
  HS256 : algorithm;
  is_hmac : algorithm -> bool;
  authentic : algorithm -> string -> string -> Claims.t -> Prop;
  SignedString : Claims.t -> string -> string;
  ParseWithClaims : string -> (algorithm -> option string) -> Z -> option Claims.t;
  hs256_is_hmac : is_hmac HS256 = true;
  parsed_authentic : ∀ token key now c, ParseWithClaims token key now = Some c ->
    Claims.timely now c /\ ∃ alg secret, key alg = Some secret /\ authentic alg secret token c;
  parse_signed : ∀ c secret key now, key HS256 = Some secret -> Claims.plain c -> Claims.timely now c ->
    ParseWithClaims (SignedString c secret) key now = Some c;
  signed_once : ∀ c secret key now c', Claims.plain c -> ParseWithClaims (SignedString c secret) key now = Some c' -> c' = c;
}.

Section tokens.
Context {libs : AuthLibraries} {jwt : JWTLibrary} {C : Type} {ops : CacheOps User C}.
Implicit Types s : Service C.

(** The key function: any other method than HMAC is refused. *)
Definition secret_for (secret : string) (alg : algorithm) : option string := if is_hmac alg then Some secret else None.

Definition ValidateJWT (now : Z) (tokenString : string) s : result auth_error User :=
  if String.eqb tokenString "" || String.eqb (JWTSecret (config s)) "" then Err ErrInvalidToken
  else
    match ParseWithClaims tokenString (secret_for (JWTSecret (config s))) now with
    | None => Err ErrInvalidToken
    | Some claims =>
        if expired now (Claims.ExpiresAt claims) then Err ErrTokenExpired
        else
          match uuid_parse (Claims.UserID claims), uuid_parse (Claims.TenantID claims) with
          | None, _ => Err (Failed "invalid user ID in JWT" (External "uuid"))
          | _, None => Err (Failed "invalid tenant ID in JWT" (External "uuid"))
          | Some userID, Some tenantID =>
              Ok (User.Mk userID tenantID (Claims.Email claims) (Claims.Scopes claims) TypeJWT ∅)
          end
    end.

(** [jwt.NewNumericDate]. *)
Definition NewNumericDate (t : Z) : Z := t / second * second.

(** [tokenID] is [generateID()]. *)
Definition GenerateJWT (now : Z) (tokenID : string) (user : User) s : result auth_error string :=
  if String.eqb (JWTSecret (config s)) "" then Err (Failed "JWT secret not configured" (External ""))
  else
    Ok (SignedString
          (Claims.Mk (Some (NewNumericDate now)) (Some (NewNumericDate (now + JWTExpiration (config s)))) (Some (NewNumericDate now)) tokenID
             (uuid_string (User.ID user)) (uuid_string (User.TenantID user)) (User.Scopes user) (User.Email user))
          (JWTSecret (config s))).
End tokens.

(** ** Requests *)

Record http_request := MkHttp {
  path : string;
  header : string -> string;
  RemoteAddr : string;
  ClientIP : string;
}.

(** The request is answered, or goes on as the user, if there is one. *)
Inductive response :=
| Abort_ (status : Z)
| Next_ (user : option User).

Definition isAuthEndpoint (path : string) : bool := existsb (Contains path) ["/auth/"; "/login"; "/token"; "/oauth/"].
Definition truncateKey (key : string) (length : nat) : string := take_bytes length key.
(** The first address of [X-Forwarded-For], if that header is there. *)
Definition client_address (r : http_request) : string :=
  if String.eqb (header r "X-Forwarded-For") "" then RemoteAddr r
  else match Split (header r "X-Forwarded-For") "," with ip :: _ => TrimSpace ip | [] => RemoteAddr r end.
Definition getIdentifier (r : http_request) : string := "ip:" +:+ client_address r.

Section middleware.
Context {libs : AuthLibraries} {jwt : JWTLibrary} {C : Type} {ops : CacheOps User C}.
Implicit Types s : Service C.

(** The key or token of the header, without [Bearer ]. *)
Definition credential (authHeader : string) : string := TrimPrefix authHeader "Bearer ".
Definition bearer (authHeader : string) : bool := HasPrefix authHeader "Bearer ".

Definition user_of (r : result auth_error User) : option User := match r with Ok u => Some u | Err _ => None end.

(** The key of the [Authorization] header, then that of the configured header. *)
Definition by_api_key (now : Z) (r : http_request) s : option User * Service C :=
  let authHeader := header r "Authorization" in
  let '(user, s) := if String.eqb authHeader "" then (None, s)
                    else let '(u, s) := ValidateAPIKey now (credential authHeader) s in (user_of u, s) in
  let name := APIKeyHeader (config s) in
  if match user with None => negb (String.eqb name "") && negb (String.eqb (header r name) "") | Some _ => false end
  then let '(u, s) := ValidateAPIKey now (header r name) s in (user_of u, s)
  else (user, s).
Definition by_token (now : Z) (r : http_request) s : option User :=
  let authHeader := header r "Authorization" in
  if negb (String.eqb authHeader "") && bearer authHeader then user_of (ValidateJWT now (credential authHeader) s) else None.

Fixpoint try_each (now : Z) (types : list AuthType) (r : http_request) s : response * Service C :=
  match types with
  | [] => (Abort_ 401, s)
  | TypeNone :: _ => (Next_ None, s)
  | TypeAPIKey :: types =>
      match by_api_key now r s with
      | (Some u, s) => (Next_ (Some u), s)
      | (None, s) => try_each now types r s
      end
  | TypeJWT :: types =>
      match by_token now r s with
      | Some u => (Next_ (Some u), s)
      | None => try_each now types r s
      end
  end.

(** [GinMiddleware] and [StandardMiddleware] of the service. *)
Definition GinMiddleware (authTypes : list AuthType) (now : Z) (r : http_request) s : response * Service C :=
  try_each now (match authTypes with [] => [TypeAPIKey] | _ => authTypes end) r s.

(** [user]: what the context holds. *)
Definition RequireScopes (scopes : list string) (user : option User) : response :=
  match user with
  | None => Abort_ 401
  | Some u => match AuthorizeScopes u scopes with Some _ => Abort_ 403 | None => Next_ (Some u) end
  end.

Definition GetTenantFromContext (user : option User) (r : http_request) : option string :=
  match user with
  | Some u => Some (uuid_string (User.TenantID u))
  | None => if String.eqb (header r "X-Tenant-ID") "" then None else Some (header r "X-Tenant-ID")
  end.

(** ** With the limiter *)

Context {L : Type} {limiter_ops : CacheOps AuthLimiter.cached L}.
Notation RateLimiter := (AuthLimiter.RateLimiter L).

Inductive refusal := Limited (e : AuthLimiter.limit_error) | Refused (e : auth_error).

(** A check of the limit, the validation, and its record. *)
Definition with_limit {S} (now : Z) (identifier : string) (validate : S -> result auth_error User * S) (s : S) (rl : RateLimiter)
    : result refusal User * S * RateLimiter :=
  match AuthLimiter.CheckLimit now identifier rl with
  | (Some e, rl) => (Err (Limited e), s, rl)
  | (None, rl) =>
      let '(r, s) := validate s in
      (match r with Ok u => Ok u | Err e => Err (Refused e) end, s, AuthLimiter.RecordAttempt now identifier (is_ok r) rl)
  end.
Definition key_identifier (apiKey : string) : string := "apikey:" +:+ truncateKey apiKey 8.
Definition ValidateAPIKeyWithMetrics (now : Z) (apiKey : string) s (rl : RateLimiter) : result refusal User * Service C * RateLimiter :=
  with_limit now (key_identifier apiKey) (ValidateAPIKey now apiKey) s rl.
Definition ValidateJWTWithMetrics (now : Z) (ipAddress tokenString : string) s (rl : RateLimiter) : result refusal User * Service C * RateLimiter :=
  with_limit now ("jwt:" +:+ (if String.eqb ipAddress "" then "unknown" else ipAddress)) (λ s, (ValidateJWT now tokenString s, s)) s rl.

(** The user of a request: the key of [Authorization], then, limited, that of the configured header, then the
    token. *)
Definition authenticate (now : Z) (r : http_request) s (rl : RateLimiter) : option User * Service C * RateLimiter :=
  let authHeader := header r "Authorization" in
  let '(user, s) := if String.eqb authHeader "" then (None, s)
                    else let '(u, s) := ValidateAPIKey now (credential authHeader) s in (user_of u, s) in
  let name := APIKeyHeader (config s) in
  let '(user, s, rl) :=
    if match user with None => negb (String.eqb name "") && negb (String.eqb (header r name) "") | Some _ => false end
    then let '(u, s, rl) := ValidateAPIKeyWithMetrics now (header r name) s rl in
         (match u with Ok u => Some u | Err _ => None end, s, rl)
    else (user, s, rl) in
  (match user with Some u => Some u | None => by_token now r s end, s, rl).

(** [AuthMiddleware.GinMiddleware].  [next]: the status of the response and whether it was written, and the
    time. *)
Definition LimitedMiddleware (now : Z) (r : http_request) (next : User -> Z * bool * Z) s (rl : RateLimiter)
    : response * Service C * RateLimiter :=
  let endpoint := isAuthEndpoint (path r) in
  let identifier := getIdentifier r in
  match (if endpoint then AuthLimiter.CheckLimit now identifier rl else (None, rl)) with
  | (Some _, rl) => (Abort_ 429, s, rl)
  | (None, rl) =>
      match authenticate now r s rl with
      | (None, s, rl) => (Abort_ 401, s, if endpoint then AuthLimiter.RecordAttempt now identifier false rl else rl)
      | (Some u, s, rl) =>
          let '(status, written, later) := next u in
          (Next_ (Some u), s, if endpoint && written then AuthLimiter.RecordAttempt later identifier (status <? 400) rl else rl)
      end
  end.
End middleware.

(** ** Tokens *)

Lemma numeric_date t : NewNumericDate t mod second = 0 /\ NewNumericDate t <= t < NewNumericDate t + second.
Proof.
  unfold NewNumericDate. split; [by apply Z_mod_mult|]. pose proof (Z.div_mod t second ltac:(done)).
  pose proof (Z.mod_pos_bound t second ltac:(done)). lia.
Qed.

(** C24 A generated token is accepted from the moment it was made until its expiration, in whole seconds, for
    the identifier, tenant, e-mail address and scopes of the user; after that it is refused. *)
Theorem jwt_roundtrip {libs : AuthLibraries} {jwt : JWTLibrary} {C : Type} {ops : CacheOps User C}
    (s : Service C) now tokenID user token t :
  JWTSecret (config s) ≠ "" -> (∀ c, SignedString c (JWTSecret (config s)) ≠ "") ->
  utf8 tokenID -> (∀ u, utf8 (uuid_string u)) -> Forall utf8 (User.Scopes user) -> utf8 (User.Email user) ->
  GenerateJWT now tokenID user s = Ok token -> now <= t ->
  ValidateJWT t token s =
  if t <? NewNumericDate (now + JWTExpiration (config s))
  then Ok (User.Mk (User.ID user) (User.TenantID user) (User.Email user) (User.Scopes user) TypeJWT ∅)
  else Err ErrInvalidToken.
Proof.
  intros Hsecret Hsigned Hid Huuid Hscopes Hemail. unfold GenerateJWT, ValidateJWT.
  destruct (String.eqb_spec (JWTSecret (config s)) ""); [done|]. intros [= <-] Ht.
  set (c := Claims.Mk _ _ _ _ _ _ _ _). destruct (String.eqb_spec (SignedString c (JWTSecret (config s))) ""); [by destruct (Hsigned c)|].
  cbn [orb]. pose proof (numeric_date now) as [Hm Hn]. pose proof (numeric_date (now + JWTExpiration (config s))) as [Hm' _].
  assert (Claims.plain c) as Hplain.
  { unfold c. split; [by intros x [= <-]|]. split; [by intros x [= <-]|]. split; [by intros x [= <-]|].
    exact (conj Hid (conj (Huuid _) (conj (Huuid _) (conj Hscopes Hemail)))). }
  assert (secret_for (JWTSecret (config s)) HS256 = Some (JWTSecret (config s))) as Hkey by (unfold secret_for; by rewrite hs256_is_hmac).
  destruct (Z.ltb_spec t (NewNumericDate (now + JWTExpiration (config s)))) as [Hlt|Hge].
  - rewrite (parse_signed _ _ _ _ Hkey Hplain).
    + unfold expired, c. cbn [Claims.ExpiresAt Claims.UserID Claims.TenantID Claims.Scopes Claims.Email].
      destruct (Z.ltb_spec (NewNumericDate (now + JWTExpiration (config s))) t); [lia|]. by rewrite !uuid_parse_string.
    + split; [by intros x [= <-]|]. split; intros x [= <-]; lia.
  - destruct (ParseWithClaims _ _ t) as [c'|] eqn:Hp; [|done]. exfalso. pose proof (signed_once _ _ _ _ _ Hplain Hp) as ->.
    apply parsed_authentic in Hp as [[He _] _]. specialize (He _ eq_refl). lia.
Qed.

(** C25 A token is accepted only if the configured secret verifies its HMAC signature, whatever algorithm it
    names, and the time is within its dates; the answer [ErrTokenExpired] is never given, because
    the library has refused the token before. *)
Theorem jwt_authentic {libs : AuthLibraries} {jwt : JWTLibrary} {C : Type} {ops : CacheOps User C} (s : Service C) now token :
  match ValidateJWT now token s with
  | Ok u => ∃ alg c, is_hmac alg = true /\ authentic alg (JWTSecret (config s)) token c /\ Claims.timely now c /\
      JWTSecret (config s) ≠ "" /\ uuid_parse (Claims.UserID c) = Some (User.ID u) /\ uuid_parse (Claims.TenantID c) = Some (User.TenantID u) /\
      User.Scopes u = Claims.Scopes c
  | Err e => e ≠ ErrTokenExpired
  end.
Proof.
  unfold ValidateJWT. destruct (String.eqb_spec token "" ); [done|]. destruct (String.eqb_spec (JWTSecret (config s)) ""); [done|].
  cbn [orb]. destruct (ParseWithClaims _ _ now) as [c|] eqn:Hp; [|done]. apply parsed_authentic in Hp as [Htime (alg & secret & Hkey & Ha)].
  unfold secret_for in Hkey. destruct (is_hmac alg) eqn:Halg; [|done]. injection Hkey as <-.
  assert (expired now (Claims.ExpiresAt c) = false) as ->.
  { unfold expired. destruct Htime as [He _]. destruct (Claims.ExpiresAt c) as [e|]; [|done]. specialize (He e eq_refl). apply Z.ltb_ge. lia. }
  destruct (uuid_parse (Claims.UserID c)) as [u|] eqn:Hu; [|done]. destruct (uuid_parse (Claims.TenantID c)) as [t|] eqn:Ht; [|done].
  exists alg, c. by split_and!.
Qed.

(** ** Limits *)

Section limits.
Context {libs : AuthLibraries} {jwt : JWTLibrary} {C : Type} {ops : CacheOps User C} {L : Type} {limiter_ops : CacheOps AuthLimiter.cached L}.
Implicit Types (s : Service C) (rl : AuthLimiter.RateLimiter L).

(** Requests that only have the header [Authorization], at the times given: the answers. *)
Fixpoint guesses (l : list (Z * string)) (path : string) (address : string) s rl : list response * AuthLimiter.RateLimiter L :=
  match l with
  | [] => ([], rl)
  | (t, value) :: l =>
      let r := MkHttp path (λ name, if String.eqb name "Authorization" then value else "") address address in
      let '(answer, s, rl) := LimitedMiddleware t r (λ _, (200, true, t)) s rl in
      let '(answers, rl) := guesses l path address s rl in
      (answer :: answers, rl)
  end.

(** The local limit of an identifier after [n] failures in a window that began at [w]. *)
Definition counts (identifier : string) (n w : Z) rl : Prop :=
  AuthLimiter.localLimits rl !! identifier = Some (AuthLimiter.MkLocal n w zero_time).
Definition local rl : Prop := AuthLimiter.enabled rl = true /\ AuthLimiter.cache rl = None.

Lemma failing_step {S} t identifier (validate : S -> result auth_error User * S) (x : S) n w rl :
  local rl -> n < AuthLimiter.maxAttempts rl -> t - w <= AuthLimiter.windowSize rl -> in_i64 (t - w) ->
  counts identifier n w rl -> is_ok (validate x).1 = false ->
  let '(r, x', rl') := with_limit t identifier validate x rl in
  is_ok r = false /\ x' = (validate x).2 /\ counts identifier (n + 1) w rl' /\ local rl' /\
  AuthLimiter.maxAttempts rl' = AuthLimiter.maxAttempts rl /\ AuthLimiter.windowSize rl' = AuthLimiter.windowSize rl.
Proof.
  intros [He Hca] Hn Hw H64 Hc Hfail. unfold with_limit, AuthLimiter.CheckLimit. rewrite He, Hca. cbn [negb].
  unfold AuthLimiter.checkLocalLimit, AuthLimiter.load_or_store. rewrite Hc. cbn [default from_option id AuthLimiter.lockedOut AuthLimiter.window AuthLimiter.attempts].
  rewrite time_sub_small by done. destruct (Z.ltb_spec (AuthLimiter.windowSize rl) (t - w)); [lia|]. cbn [Z.eqb negb andb zero_time].
  cbn [AuthLimiter.attempts]. destruct (Z.leb_spec (AuthLimiter.maxAttempts rl) n); [lia|].
  destruct (validate x) as [r x']. cbn [fst snd] in *. rewrite Hfail.
  unfold AuthLimiter.RecordAttempt, AuthLimiter.with_local. cbn [AuthLimiter.enabled AuthLimiter.cache]. rewrite He, Hca. cbn [negb].
  unfold AuthLimiter.recordLocalAttempt, AuthLimiter.load_or_store. cbn [AuthLimiter.localLimits]. rewrite lookup_insert_eq.
  cbn [default from_option id AuthLimiter.window AuthLimiter.windowSize AuthLimiter.attempts AuthLimiter.lockedOut]. rewrite time_sub_small by done.
  destruct (Z.ltb_spec (AuthLimiter.windowSize rl) (t - w)); [lia|]. unfold counts, local, AuthLimiter.with_local.
  cbn [AuthLimiter.localLimits AuthLimiter.enabled AuthLimiter.cache AuthLimiter.maxAttempts AuthLimiter.windowSize].
  split_and!; [by destruct r|done|by rewrite lookup_insert_eq|done..].
Qed.

(** Guessed keys, one after the other. *)
Fixpoint try_keys (l : list (Z * string)) s rl : Service C * AuthLimiter.RateLimiter L :=
  match l with
  | [] => (s, rl)
  | (t, key) :: l => let '(_, s, rl) := ValidateAPIKeyWithMetrics t key s rl in try_keys l s rl
  end.

Lemma failed_validation t key s :
  is_ok (ValidateAPIKey t key s).1 = false -> (ValidateAPIKey t key s).2 = s.
Proof.
  unfold ValidateAPIKey. destruct (String.eqb key ""); [done|]. destruct (negb _); [done|]. destruct (cached_user t key s); [done|].
  unfold cached. by destruct (find_user t key s).
Qed.

Lemma try_keys_count l prefix n w s rl :
  local rl -> counts ("apikey:" +:+ prefix) n w rl -> n + Z.of_nat (length l) <= AuthLimiter.maxAttempts rl ->
  Forall (λ tk, truncateKey tk.2 8 = prefix /\ tk.1 - w <= AuthLimiter.windowSize rl /\ in_i64 (tk.1 - w) /\ is_ok (ValidateAPIKey tk.1 tk.2 s).1 = false) l ->
  let '(s', rl') := try_keys l s rl in
  s' = s /\ local rl' /\ counts ("apikey:" +:+ prefix) (n + Z.of_nat (length l)) w rl' /\
  AuthLimiter.maxAttempts rl' = AuthLimiter.maxAttempts rl /\ AuthLimiter.windowSize rl' = AuthLimiter.windowSize rl.
Proof.
  revert n rl. induction l as [|[t key] l IH]; intros n rl Hl Hc Hn Hk; cbn [try_keys length].
  { rewrite Z.add_0_r. by split_and!. }
  apply Forall_cons in Hk as [(Hp & Hw & H64 & Hfail) Hk]. cbn [fst snd] in Hp, Hw, H64, Hfail. cbn [length] in Hn.
  pose proof (failing_step t ("apikey:" +:+ prefix) (ValidateAPIKey t key) s n w rl Hl ltac:(lia) Hw H64 Hc Hfail) as H.
  unfold ValidateAPIKeyWithMetrics, key_identifier. rewrite Hp. destruct (with_limit _ _ _ _ _) as [[r s'] rl'].
  destruct H as (_ & -> & Hc' & Hl' & Hmax & Hwin). rewrite failed_validation by done.
  specialize (IH (n + 1) rl' Hl' Hc' ltac:(rewrite Hmax; lia)). rewrite Hwin in IH. specialize (IH Hk).
  destruct (try_keys l s rl') as [s2 rl2]. destruct IH as (-> & Hl2 & Hc2 & Hm2 & Hw2). rewrite Hmax in Hm2.
  split; [done|]. split; [done|]. split; [|done]. replace (n + Z.of_nat (S (length l))) with (n + 1 + Z.of_nat (length l)) by lia. done.
Qed.
End limits.

(** C3. Keys in the header [Authorization] are not limited: on a path that is not one for authentication, any number of
    requests with wrong keys leaves the limiter as it is, and none is answered with "too many
    attempts". *)
Theorem authorization_header_unlimited {libs : AuthLibraries} {jwt : JWTLibrary} {C : Type} {ops : CacheOps User C} {L : Type}
    {limiter_ops : CacheOps AuthLimiter.cached L} l route address (s : Service C) (rl : AuthLimiter.RateLimiter L) :
  isAuthEndpoint route = false -> APIKeyHeader (config s) ≠ "Authorization" ->
  let '(answers, rl') := guesses l route address s rl in rl' = rl /\ Abort_ 429 ∉ answers.
Proof.
  intros Hpath. revert s. induction l as [|[t value] l IH]; intros s Hname; cbn [guesses]; [by split; [|apply not_elem_of_nil]|].
  set (r := MkHttp _ _ _ _). assert (∃ answer s', LimitedMiddleware t r (λ _, (200, true, t)) s rl = (answer, s', rl) /\
    answer ≠ Abort_ 429 /\ config s' = config s) as (answer & s' & -> & Hne & Hc).
  { unfold LimitedMiddleware. assert (isAuthEndpoint (path r) = false) as -> by exact Hpath. unfold authenticate.
    assert (∃ u s1, (if String.eqb (header r "Authorization") "" then (None, s)
      else let '(u, s) := ValidateAPIKey t (credential (header r "Authorization")) s in (user_of u, s)) = (u, s1) /\ config s1 = config s)
      as (u & s1 & -> & Hc).
    { destruct (String.eqb _ _); [by exists None, s|]. pose proof (validate_state t (credential (header r "Authorization")) s) as Hs.
      destruct (ValidateAPIKey _ _ _) as [u s1]. simpl in Hs. exists (user_of u), s1. split; [done|].
      destruct Hs as [->|(v & _ & ->)]; [done|]. apply cache_user_config. }
    rewrite Hc. assert (String.eqb (header r (APIKeyHeader (config s))) "" = true) as Hempty.
    { unfold r. cbn [header]. destruct (String.eqb_spec (APIKeyHeader (config s)) "Authorization"); [done|reflexivity]. }
    rewrite Hempty, andb_false_r. destruct u as [u|]; [by exists (Next_ (Some u)), s1|].
    destruct (by_token t r s1) as [u|]; [by exists (Next_ (Some u)), s1|by exists (Abort_ 401), s1]. }
  specialize (IH s'). rewrite Hc in IH. specialize (IH Hname). destruct (guesses l route address s' rl) as [answers rl'].
  destruct IH as [-> Hin]. split; [done|]. intros [Heq|H]%elem_of_cons; [congruence|done].
Qed.

(** C4. In the configured header keys are limited by their first eight bytes: after [MaxAttempts] wrong ones in a
    window, every key that begins like them is refused, valid ones as well. *)
Theorem guesses_lock_out_prefix {libs : AuthLibraries} {C : Type} {ops : CacheOps User C} {L : Type}
    {limiter_ops : CacheOps AuthLimiter.cached L} (l : list (Z * string)) prefix t0 t key (s : Service C) (rl : AuthLimiter.RateLimiter L) :
  local rl -> counts ("apikey:" +:+ prefix) 0 t0 rl -> Z.of_nat (length l) = AuthLimiter.maxAttempts rl ->
  Forall (λ tk, truncateKey tk.2 8 = prefix /\ tk.1 - t0 <= AuthLimiter.windowSize rl /\ in_i64 (tk.1 - t0) /\ is_ok (ValidateAPIKey tk.1 tk.2 s).1 = false) l ->
  truncateKey key 8 = prefix -> t - t0 <= AuthLimiter.windowSize rl -> in_i64 (t - t0) ->
  let '(s', rl') := try_keys l s rl in
  (ValidateAPIKeyWithMetrics t key s' rl').1.1 = Err (Limited AuthLimiter.TooManyAttempts).
Proof.
  intros Hl Hc Hn Hk Hp Hw H64. pose proof (try_keys_count l prefix 0 t0 s rl Hl Hc ltac:(lia) Hk) as H.
  destruct (try_keys l s rl) as [s' rl']. destruct H as (-> & [He Hca] & Hc' & Hmax & Hwin).
  unfold ValidateAPIKeyWithMetrics, key_identifier, with_limit, AuthLimiter.CheckLimit. rewrite Hp, He, Hca. cbn [negb].
  unfold AuthLimiter.checkLocalLimit, AuthLimiter.load_or_store. unfold counts in Hc'. rewrite Hc'. cbn [default from_option id AuthLimiter.lockedOut AuthLimiter.window].
  rewrite (time_sub_small t t0 H64), Hwin. destruct (Z.ltb_spec (AuthLimiter.windowSize rl) (t - t0)); [lia|].
  cbn [Z.eqb negb andb zero_time AuthLimiter.attempts]. rewrite Hmax. destruct (Z.leb_spec (AuthLimiter.maxAttempts rl) (0 + Z.of_nat (length l))); [done|lia].
Qed.

(** ** Witnesses *)

Section examples.

(** A library of tokens for examples: a token spells the claims and the secret in bits. *)
Fixpoint bits (p : positive) : string :=
  match p with xH => "" | xO p => String "0" (bits p) | xI p => String "1" (bits p) end.
Fixpoint of_bits (s : string) : positive :=
  match s with EmptyString => xH | String a s => if Ascii.eqb a "0" then xO (of_bits s) else xI (of_bits s) end.
Lemma of_bits_bits p : of_bits (bits p) = p.
Proof. induction p as [p IH|p IH|]; simpl; congruence. Qed.

Notation tuple := (option Z * option Z * option Z * (string * string * string) * list string * string * string)%type.
Definition spelled (c : Claims.t) (secret : string) : string :=
  String "t" (bits (encode (((Claims.IssuedAt c, Claims.ExpiresAt c, Claims.NotBefore c, (Claims.ID c, Claims.UserID c, Claims.TenantID c)),
    Claims.Scopes c, Claims.Email c, secret) : tuple))).
Definition unspelled (token : string) : option (Claims.t * string) :=
  match token with
  | String _ r =>
      match decode (A := tuple) (of_bits r) with
      | Some (i, e, n, (d, u, t), sc, m, secret) => Some (Claims.Mk i e n d u t sc m, secret)
      | None => None
      end
  | EmptyString => None
  end.
Lemma unspelled_spelled c secret : unspelled (spelled c secret) = Some (c, secret).
Proof. unfold unspelled, spelled. rewrite of_bits_bits, countable.decode_encode. by destruct c. Qed.

Definition timely_b (now : Z) (c : Claims.t) : bool :=
  match Claims.ExpiresAt c with Some e => now <? e | None => true end &&
  match Claims.IssuedAt c with Some i => i <=? now | None => true end && match Claims.NotBefore c with Some n => n <=? now | None => true end.
Lemma timely_b_ok now c : timely_b now c = true <-> Claims.timely now c.
Proof.
  unfold timely_b, Claims.timely. destruct c as [i e n d u t sc m]; simpl.
  rewrite !andb_true_iff. split.
  - intros [[He Hi] Hn]. split_and!; intros x ->; [by apply Z.ltb_lt|by apply Z.leb_le..].
  - intros (He & Hi & Hn). destruct e, i, n; repeat split; try apply Z.ltb_lt; try apply Z.leb_le; auto.
Qed.

Definition parse_spelled (token : string) (key : bool -> option string) (now : Z) : option Claims.t :=
  match unspelled token, key true with
  | Some (c, secret), Some secret' =>
      if timely_b now c && String.eqb secret secret' && String.eqb token (spelled c secret) then Some c else None
  | _, _ => None
  end.
#[local] Instance spelled_tokens : JWTLibrary.
Proof.
  refine {| algorithm := bool; HS256 := true; is_hmac alg := alg;
    authentic alg secret token c := alg = true /\ token = spelled c secret; SignedString := spelled; ParseWithClaims := parse_spelled |};
    [done|..]; unfold parse_spelled.
  - intros token key now c. destruct (unspelled token) as [[c' secret]|]; [|done]. destruct (key true) as [secret'|] eqn:Hk; [|done].
    destruct (timely_b now c') eqn:Ht; [|done]. destruct (String.eqb_spec secret secret') as [->|]; [|done].
    destruct (String.eqb_spec token (spelled c' secret')) as [->|]; [|done]. intros [= <-]. split; [by apply timely_b_ok|].
    exists true, secret'. by split_and!.
  - intros c secret key now Hk _ Ht. rewrite unspelled_spelled, Hk. apply timely_b_ok in Ht as ->. by rewrite !String.eqb_refl.
  - intros c secret key now c' _. rewrite unspelled_spelled. destruct (key true); [|done]. destruct (_ && _); [|done]. by intros [= <-].
Defined.

Definition secret_config : ServiceConfig := MkConfig "s3cret" (60 * minute) "X-API-Key" true true true (5 * minute) 5 (15 * minute).
Definition plain_service : Service (ttl_map User) := MkService secret_config None (Some ∅) ∅.

#[local] Program Instance spelled_uuids : UUIDText := {| uuid_string u := String "u" (bits (N.succ_pos u)) |}.
Next Obligation. intros u v H. injection H as H. apply (f_equal of_bits) in H. rewrite !of_bits_bits in H. lia. Qed.
#[local] Program Instance plain_libraries : AuthLibraries := {|
  sha256_hex s := s;
  uuid_parse s := match s with String a r => if Ascii.eqb a "u" then Some (Pos.pred_N (of_bits r)) else None | EmptyString => None end;
  uuid_sha1 _ := 7%N |}.
Next Obligation. intros u. simpl. rewrite of_bits_bits. f_equal. lia. Qed.
Next Obligation. done. Qed.

Lemma utf8_bits p : utf8 (bits p).
Proof.
  assert (∀ s, Forall (λ a, a = "0"%char \/ a = "1"%char) (String.list_ascii_of_string s) -> utf8 s) as H.
  { intros s. induction s as [|a s IH]; simpl; intros Hs; [by exists []|]. apply Forall_cons in Hs as [Ha Hs].
    change (String a s) with (String a "" +:+ s). apply utf8_app; [|by apply IH].
    destruct Ha as [->| ->]; [exists [48]|exists [49]]; (split; [by repeat constructor|reflexivity]). }
  apply H. induction p as [p IH|p IH|]; simpl; constructor; auto.
Qed.

Definition ann : User := User.Mk 5%N 2%N "ann@example.com" ["read"] TypeAPIKey ∅.
Lemma jwt_roundtrip_witness :
  ∃ token, GenerateJWT (1000 * second) "id_1" ann plain_service = Ok token /\
    ValidateJWT (2000 * second) token plain_service = Ok (User.Mk 5%N 2%N "ann@example.com" ["read"] TypeJWT ∅) /\
    ValidateJWT (4600 * second) token plain_service = Err ErrInvalidToken.
Proof.
  assert (∀ s, Forall (λ a, (Ascii.N_of_ascii a < 128)%N) (String.list_ascii_of_string s) -> utf8 s) as Hascii.
  { intros s. induction s as [|a s IH]; simpl; intros Hs; [by exists []|]. apply Forall_cons in Hs as [Ha Hs].
    change (String a s) with (String a "" +:+ s). apply utf8_app; [|by apply IH].
    exists [Z.of_N (N_of_ascii a)]. split.
    - constructor; [|done]. revert Ha. clear. destruct a as [[] [] [] [] [] [] [] []]; vm_compute; done.
    - revert Ha. clear. destruct a as [[] [] [] [] [] [] [] []]; vm_compute; done. }
  assert (∀ s, forallb (λ a, (Ascii.N_of_ascii a <? 128)%N) (String.list_ascii_of_string s) = true -> utf8 s) as Hb.
  { intros s Hs. apply Hascii, List.Forall_forall. intros a Ha. rewrite forallb_forall in Hs. by apply N.ltb_lt, Hs. }
  eexists. split; [reflexivity|].
  pose proof (jwt_roundtrip plain_service (1000 * second) "id_1" ann) as H.
  split; (etransitivity; [apply H; [discriminate|done|by apply Hb| | |by apply Hb|reflexivity|vm_compute; discriminate]|vm_compute; reflexivity]).
  - intros u. change (uuid_string u) with (String "u" "" +:+ bits (N.succ_pos u)). apply utf8_app; [by apply Hb|apply utf8_bits].
  - constructor; [by apply Hb|constructor].
  - intros u. change (uuid_string u) with (String "u" "" +:+ bits (N.succ_pos u)). apply utf8_app; [by apply Hb|apply utf8_bits].
  - constructor; [by apply Hb|constructor].
Defined.

Definition two_guesses : list (Z * string) := [(10, "Bearer wrong-key-1"); (11, "Bearer wrong-key-2")].
Definition limiter : AuthLimiter.RateLimiter (ttl_map AuthLimiter.cached) := AuthLimiter.NewRateLimiter None None.

Lemma authorization_header_unlimited_witness :
  guesses two_guesses "/api/v1/tools" "10.0.0.1" plain_service limiter = ([Abort_ 401; Abort_ 401], limiter) /\
  let '(answers, rl') := guesses two_guesses "/api/v1/tools" "10.0.0.1" plain_service limiter in rl' = limiter /\ Abort_ 429 ∉ answers.
Proof.
  split; [vm_compute; reflexivity|]. apply authorization_header_unlimited; [reflexivity|discriminate].
Defined.

(** The first guess only opens the window, with the right key. *)
Definition known_key : APIKey := plain_key "adm_12345678" 2%N 5%N "ann" "admin" ["admin"] None 0.
Definition key_service : Service (ttl_map User) := MkService secret_config None None {["adm_12345678" := known_key]}.
Definition opened : AuthLimiter.RateLimiter (ttl_map AuthLimiter.cached) :=
  (ValidateAPIKeyWithMetrics second "adm_12345678" key_service limiter).2.
Definition five_guesses : list (Z * string) :=
  (λ i, (Z.of_nat i * second, "adm_1234" +:+ itoa (Z.of_nat i))) <$> [2; 3; 4; 5; 6]%nat.

Lemma guesses_lock_out_prefix_witness :
  is_ok (ValidateAPIKeyWithMetrics second "adm_12345678" key_service limiter).1.1 = true /\
  let '(s', rl') := try_keys five_guesses key_service opened in
  (ValidateAPIKeyWithMetrics (7 * second) "adm_12345678" s' rl').1.1 = Err (Limited AuthLimiter.TooManyAttempts).
Proof.
  split; [vm_compute; reflexivity|].
  apply (guesses_lock_out_prefix five_guesses "adm_1234" second (7 * second) "adm_12345678" key_service opened).
  - split; vm_compute; reflexivity.
  - vm_compute. reflexivity.
  - vm_compute. reflexivity.
  - repeat constructor; vm_compute; reflexivity || discriminate.
  - vm_compute. reflexivity.
  - vm_compute. discriminate.
  - split; vm_compute; discriminate.
Defined.
End examples.
