(* ===== verification/DocumentLock.v ===== *)
(** * DocumentLock: locks that processes share through Redis

    [pkg/services/document_lock_service.go].  A handler is the code between its calls
    ([Redis.prog]): the commands to Redis, the clock and the table of locks that its process
    refreshes.  Any number of handlers, in any number of processes, run interleaved
    ([system]).  The script that takes over an expired lock is the function [acquire_script];
    what Lua's [tonumber] makes of the text of a time is an argument.  A lock is stored as
    its JSON form, which gives the lock back. *)

From stdpp Require Import base decidable gmap strings list.
From Stdlib Require Import ZArith Lia.
From S2P Require Import Prelude GoStrings GoAny ServiceErrors Redis.

Local Open Scope string_scope.
Local Open Scope Z_scope.

(** [hours * time.Minute] and the like are in nanoseconds; [time.Time.Unix]. *)
Definition unix (t : Z) : Z := t / second - 62135596800.

(** What [tonumber] makes of the RFC 3339 text of a time. *)
Class Lua := {
  tonumber_time : Z -> option Z;
  tonumber_unix : ∀ t n, tonumber_time t = Some n -> n = unix t;
}.
(** [getHostname] and [getPID]. *)
Class Host := { hostname : string; host_pid : Z }.

Inductive LockType := LockTypeExclusive | LockTypeShared | LockTypeSection.

Record DocumentLock := MkLock {
  ID : string;
  DocumentID : UUID;
  AgentID : string;
  Type_ : LockType;
  AcquiredAt : Z;
  ExpiresAt : Z;
  RefreshCount : Z;
  Metadata : gmap string any;
}.
Record SectionLock := MkSection {
  lock : DocumentLock;
  SectionID : string;
  StartOffset : Z;
  EndOffset : Z;
}.

(** [currentLock.ExpiresAt = e; currentLock.RefreshCount++]. *)
Definition extended (e : Z) (l : DocumentLock) : DocumentLock :=
  MkLock (ID l) (DocumentID l) (AgentID l) (Type_ l) (AcquiredAt l) e (RefreshCount l + 1) (Metadata l).

Inductive lock_error :=
| LockConflictError (documentID : UUID) (currentHolder : string) (expiresAt : Z)
| UnauthorizedLockError (documentID : UUID) (agentID ownerID : string)
| LockNotFoundError (documentID : UUID)
| LockRefreshLimitError (documentID : UUID) (refreshCount maxRefresh : Z)
| SectionLockConflictError (documentID : UUID) (sectionID currentHolder : string)
| Failed (e : error).

(** A value of Redis: the JSON form of a lock, or other text. *)
Inductive json := LockJson (l : DocumentLock) | SectionJson (l : SectionLock) | OtherJson (s : string).

(** [json.Unmarshal] into a [DocumentLock] and into a [SectionLock]. *)
Definition as_lock (v : json) : option DocumentLock :=
  match v with LockJson l => Some l | SectionJson l => Some (lock l) | OtherJson _ => None end.
Definition as_section (v : json) : option SectionLock :=
  match v with LockJson l => Some (MkSection l "" 0 0) | SectionJson l => Some l | OtherJson _ => None end.
Definition syntax_error : error := External "invalid character".

(** ** The service *)

(** [activeLocks] is a table of the process. *)
Inductive act : Type -> Type :=
| OnRedis {A} (c : command json A) : act (result error A)
| TimeNow : act Z
| Track (l : DocumentLock) : act ()
| Untrack (lockID : string) : act ()
| Tracked : act (list (string * DocumentLock)).

Notation code A := (prog act A).
Notation lock_result A := (result lock_error A).

Definition redis {A} (c : command json A) : code (result error A) := call (OnRedis c).

Section service.
Context {uuids : UUIDText} {lua : Lua} {host : Host}.

Definition lockKeyPrefix : string := "doc:lock:".
Definition sectionKeyPrefix : string := "doc:section:".
Definition defaultTTL : Z := 5 * minute.
Definition maxRefreshCount : Z := 10.
Definition refreshInterval : Z := 30 * second.

Definition lock_key (documentID : UUID) : string := lockKeyPrefix +:+ uuid_string documentID.
Definition section_key (documentID : UUID) (sectionID : string) : string :=
  sectionKeyPrefix +:+ uuid_string documentID +:+ ":" +:+ sectionID.

Definition failed {A} (context : string) (e : error) : lock_result A := Err (Failed (Wrapped context e)).

Definition getLock (key : string) : code (result error (option DocumentLock)) :=
  r ← redis (Get key);
  Ret match r with
      | Err e => Err e
      | Ok None => Ok None
      | Ok (Some data) => match as_lock data with Some l => Ok (Some l) | None => Err syntax_error end
      end.

(** [now > expires] with [expires] nil is an error of the script. *)
Definition acquire_script (newLock : DocumentLock) (seconds now : Z) (current : option json) : reply json :=
  match current with
  | None => SetEX (LockJson newLock) seconds
  | Some data =>
      match as_lock data with
      | None => ScriptError "bad JSON"
      | Some l =>
          match tonumber_time (ExpiresAt l) with
          | None => ScriptError "attempt to compare nil with number"
          | Some expires => if expires <? now then SetEX (LockJson newLock) seconds else NilReply
          end
      end
  end.

Definition tryAcquireExpiredLock (key : string) (newLock : DocumentLock) (duration : Z) : code (result error ()) :=
  now ← call TimeNow;
  r ← redis (Script key (acquire_script newLock (Z.quot duration second) (unix now)));
  Ret match r with
      | Ok true => Ok ()
      | Ok false => Err (External "redis: nil")
      | Err e => Err e
      end.

Definition startAutoRefresh (l : DocumentLock) : code () := call (Track l).
Definition stopAutoRefresh (lockID : string) : code () := call (Untrack lockID).

Definition lock_duration (duration : Z) : Z :=
  let duration := if 30 * minute <? duration then 30 * minute else duration in
  if duration =? 0 then defaultTTL else duration.

(** [lockID] is [uuid.New().String()]. *)
Definition LockDocument (lockID : string) (documentID : UUID) (agentID : string) (duration : Z) : code (lock_result DocumentLock) :=
  let duration := lock_duration duration in
  acquiredAt ← call TimeNow;
  now ← call TimeNow;
  let l := MkLock lockID documentID agentID LockTypeExclusive acquiredAt (now + duration) 0
             (list_to_map [("host", AString hostname); ("pid", AInt host_pid)]) in
  let key := lock_key documentID in
  r ← redis (SetNX key (LockJson l) duration);
  match r with
  | Err e => Ret (failed "failed to acquire lock" e)
  | Ok true => startAutoRefresh l ≫= λ _, Ret (Ok l)
  | Ok false =>
      r ← getLock key;
      match r with
      | Err e => Ret (failed "failed to get existing lock" e)
      | Ok None => now ← call TimeNow; Ret (Err (LockConflictError documentID "unknown" (now + duration)))
      | Ok (Some existingLock) =>
          now ← call TimeNow;
          if ExpiresAt existingLock <? now then
            r ← tryAcquireExpiredLock key l duration;
            match r with
            | Err e => Ret (Err (Failed e))
            | Ok _ => startAutoRefresh l ≫= λ _, Ret (Ok l)
            end
          else Ret (Err (LockConflictError documentID (AgentID existingLock) (ExpiresAt existingLock)))
      end
  end.

Definition UnlockDocument (documentID : UUID) (agentID : string) : code (lock_result ()) :=
  let key := lock_key documentID in
  r ← getLock key;
  match r with
  | Err e => Ret (failed "failed to get lock" e)
  | Ok None => Ret (Ok ())
  | Ok (Some currentLock) =>
      if String.eqb (AgentID currentLock) agentID then
        stopAutoRefresh (ID currentLock) ≫= λ _,
        r ← redis (Del key);
        Ret match r with Err e => failed "failed to delete lock" e | Ok _ => Ok () end
      else Ret (Err (UnauthorizedLockError documentID agentID (AgentID currentLock)))
  end.

Definition ExtendLock (documentID : UUID) (agentID : string) (extension : Z) : code (lock_result ()) :=
  let extension := if 30 * minute <? extension then 30 * minute else extension in
  let key := lock_key documentID in
  r ← getLock key;
  match r with
  | Err e => Ret (failed "failed to get lock" e)
  | Ok None => Ret (Err (LockNotFoundError documentID))
  | Ok (Some currentLock) =>
      if negb (String.eqb (AgentID currentLock) agentID) then
        Ret (Err (UnauthorizedLockError documentID agentID (AgentID currentLock)))
      else if maxRefreshCount <=? RefreshCount currentLock then
        Ret (Err (LockRefreshLimitError documentID (RefreshCount currentLock) maxRefreshCount))
      else
        now ← call TimeNow;
        r ← redis (SetKey key (LockJson (extended (now + extension) currentLock)) extension);
        Ret match r with Err e => failed "failed to extend lock" e | Ok _ => Ok () end
  end.

(** The lock that there is, if any. *)
Definition IsDocumentLocked (documentID : UUID) : code (lock_result (option DocumentLock)) :=
  let key := lock_key documentID in
  r ← getLock key;
  match r with
  | Err e => Ret (Err (Failed e))
  | Ok None => Ret (Ok None)
  | Ok (Some l) =>
      now ← call TimeNow;
      if ExpiresAt l <? now then redis (Del key) ≫= λ _, Ret (Ok None) else Ret (Ok (Some l))
  end.

(** *** Sections *)

(** The section locks that are stored under the keys and not expired; keys that cannot be
    read are passed over. *)
Fixpoint read_sections (keys : list string) (locks : list SectionLock) : code (list SectionLock) :=
  match keys with
  | [] => Ret locks
  | key :: keys =>
      r ← redis (Get key);
      match r with
      | Ok (Some data) =>
          match as_section data with
          | Some l => now ← call TimeNow; read_sections keys (if now <? ExpiresAt (lock l) then (locks ++ [l])%list else locks)
          | None => read_sections keys locks
          end
      | _ => read_sections keys locks
      end
  end.
Definition GetSectionLocks (documentID : UUID) : code (lock_result (list SectionLock)) :=
  r ← redis (Keys (sectionKeyPrefix +:+ uuid_string documentID +:+ ":"));
  match r with
  | Err e => Ret (Err (Failed e))
  | Ok keys => read_sections keys [] ≫= λ locks, Ret (Ok locks)
  end.

Definition LockSection (lockID : string) (documentID : UUID) (sectionID agentID : string) (duration : Z) : code (lock_result SectionLock) :=
  let duration := if duration =? 0 then defaultTTL else duration in
  r ← IsDocumentLocked documentID;
  match r with
  | Err e => Ret (Err e)
  | Ok docLock =>
      match docLock with
      | Some (MkLock _ _ holder LockTypeExclusive _ expires _ _) =>
          if String.eqb holder agentID then Ret None else Ret (Some (LockConflictError documentID holder expires))
      | _ => Ret None
      end ≫= λ conflict : option lock_error,
      match conflict with
      | Some e => Ret (Err e)
      | None =>
          r ← GetSectionLocks documentID;
          match r with
          | Err e => Ret (Err e)
          | Ok existingLocks =>
              match List.find (λ l, String.eqb (SectionID l) sectionID && negb (String.eqb (AgentID (lock l)) agentID)) existingLocks with
              | Some existing => Ret (Err (SectionLockConflictError documentID sectionID (AgentID (lock existing))))
              | None =>
                  acquiredAt ← call TimeNow;
                  now ← call TimeNow;
                  let l := MkSection (MkLock lockID documentID agentID LockTypeSection acquiredAt (now + duration) 0 ∅) sectionID 0 0 in
                  r ← redis (SetKey (section_key documentID sectionID) (SectionJson l) duration);
                  match r with
                  | Err e => Ret (failed "failed to acquire section lock" e)
                  | Ok _ => startAutoRefresh (lock l) ≫= λ _, Ret (Ok l)
                  end
              end
          end
      end
  end.

Definition UnlockSection (documentID : UUID) (sectionID agentID : string) : code (lock_result ()) :=
  let key := section_key documentID sectionID in
  r ← redis (Get key);
  match r with
  | Err e => Ret (Err (Failed e))
  | Ok None => Ret (Ok ())
  | Ok (Some data) =>
      match as_section data with
      | None => Ret (Err (Failed syntax_error))
      | Some l =>
          if String.eqb (AgentID (lock l)) agentID then
            stopAutoRefresh (ID (lock l)) ≫= λ _,
            r ← redis (Del key);
            Ret match r with Err e => Err (Failed e) | Ok _ => Ok () end
          else Ret (Err (UnauthorizedLockError documentID agentID (AgentID (lock l))))
      end
  end.

(** *** All locks of an agent *)

Fixpoint read_locks (agentID : string) (decode : json -> option DocumentLock) (keys : list string) (locks : list DocumentLock)
    : code (list DocumentLock) :=
  match keys with
  | [] => Ret locks
  | key :: keys =>
      r ← redis (Get key);
      match r with
      | Ok (Some data) =>
          match decode data with
          | Some l =>
              if String.eqb (AgentID l) agentID then
                now ← call TimeNow; read_locks agentID decode keys (if now <? ExpiresAt l then (locks ++ [l])%list else locks)
              else read_locks agentID decode keys locks
          | None => read_locks agentID decode keys locks
          end
      | _ => read_locks agentID decode keys locks
      end
  end.
Definition GetActiveLocks (agentID : string) : code (lock_result (list DocumentLock)) :=
  r ← redis (Keys lockKeyPrefix);
  match r with
  | Err e => Ret (Err (Failed e))
  | Ok docKeys =>
      locks ← read_locks agentID as_lock docKeys [];
      r ← redis (Keys sectionKeyPrefix);
      match r with
      | Err e => Ret (Err (Failed e))
      | Ok sectionKeys => read_locks agentID (λ v, lock <$> as_section v) sectionKeys locks ≫= λ locks, Ret (Ok locks)
      end
  end.

(** Section locks are passed over; so are locks that cannot be released. *)
Fixpoint release_all (agentID : string) (locks : list DocumentLock) : code () :=
  match locks with
  | [] => Ret ()
  | l :: locks =>
      match Type_ l with
      | LockTypeSection => release_all agentID locks
      | _ => UnlockDocument (DocumentID l) agentID ≫= λ _, release_all agentID locks
      end
  end.
Definition ReleaseAllLocks (agentID : string) : code (lock_result ()) :=
  r ← GetActiveLocks agentID;
  match r with
  | Err e => Ret (Err e)
  | Ok locks => release_all agentID locks ≫= λ _, Ret (Ok ())
  end.

(** *** Refreshing *)

(** One tick of [autoRefreshLocks].  [info.lock] is the lock as it was acquired. *)
Fixpoint refresh_all (infos : list (string * DocumentLock)) : code () :=
  match infos with
  | [] => Ret ()
  | (key, l) :: infos =>
      now ← call TimeNow;
      if ExpiresAt l - now <? refreshInterval * 2 then
        r ← ExtendLock (DocumentID l) (AgentID l) defaultTTL;
        match r with
        | Err _ => call (Untrack key) ≫= λ _, refresh_all infos
        | Ok _ => refresh_all infos
        end
      else refresh_all infos
  end.
Definition refreshActiveLocks : code () := infos ← call Tracked; refresh_all infos.

Definition DetectDeadlocks : lock_result (list string) := Ok [].
Definition ResolveDeadlock (deadlockID : string) : lock_result () :=
  Err (Failed (Errorf (Text "deadlock resolution not implemented"))).

(** ** Requests *)

Inductive request :=
| RLock (lockID : string) (documentID : UUID) (agentID : string) (duration : Z)
| RUnlock (documentID : UUID) (agentID : string)
| RExtend (documentID : UUID) (agentID : string) (extension : Z)
| RIsLocked (documentID : UUID)
| RLockSection (lockID : string) (documentID : UUID) (sectionID agentID : string) (duration : Z)
| RUnlockSection (documentID : UUID) (sectionID agentID : string)
| RSections (documentID : UUID)
| RActive (agentID : string)
| RReleaseAll (agentID : string)
| RRefresh.

Inductive reply_ :=
| Locked (r : lock_result DocumentLock)
| Done (r : lock_result ())
| State (r : lock_result (option DocumentLock))
| Section_ (r : lock_result SectionLock)
| Sections (r : lock_result (list SectionLock))
| Locks (r : lock_result (list DocumentLock))
| Refreshed.

Definition handler (q : request) : code reply_ :=
  match q with
  | RLock i d a t => LockDocument i d a t ≫= λ r, Ret (Locked r)
  | RUnlock d a => UnlockDocument d a ≫= λ r, Ret (Done r)
  | RExtend d a t => ExtendLock d a t ≫= λ r, Ret (Done r)
  | RIsLocked d => IsDocumentLocked d ≫= λ r, Ret (State r)
  | RLockSection i d x a t => LockSection i d x a t ≫= λ r, Ret (Section_ r)
  | RUnlockSection d x a => UnlockSection d x a ≫= λ r, Ret (Done r)
  | RSections d => GetSectionLocks d ≫= λ r, Ret (Sections r)
  | RActive a => GetActiveLocks a ≫= λ r, Ret (Locks r)
  | RReleaseAll a => ReleaseAllLocks a ≫= λ r, Ret (Done r)
  | RRefresh => refreshActiveLocks ≫= λ _, Ret Refreshed
  end.
End service.

(** ** Handlers interleaved

    Each call of a handler is one step; between two steps time may pass and other handlers
    may go on.  For the statements, a thread keeps what it has read ([knowledge]) and the
    system the locks that were given ([claims]); nothing of the code depends on either. *)

Record knowledge := MkKnowledge {
  seen : option (string * DocumentLock);
  read_at : Z;
  won : option DocumentLock;
}.
Definition ignorant : knowledge := MkKnowledge None 0 None.

Record thread := MkThread {
  process : nat;
  request_ : request;
  rest : code reply_;
  known : knowledge;
}.

(** A lock that was given: to whom, and until when it counts. *)
Record claim := MkClaim {
  c_key : string;
  c_lock : string;
  c_agent : string;
  c_until : Z;
}.
Definition cut (t : Z) (c : claim) : claim := MkClaim (c_key c) (c_lock c) (c_agent c) (Z.min (c_until c) t).
Definition claim_of (key : string) (l : DocumentLock) : claim := MkClaim key (ID l) (AgentID l) (ExpiresAt l).

(** The locks of [agent] are released by the request. *)
Definition frees (q : request) (agent : string) : bool :=
  match q with RUnlock _ a | RReleaseAll a => String.eqb a agent | _ => false end.

Section running.
Context {uuids : UUIDText} {lua : Lua} {host : Host} {redis_server : Redis json}.

Record system := MkSystem {
  srv : server json;
  clock : Z;
  activeLocks : gmap nat (gmap string DocumentLock);
  threads : list thread;
  claims : list claim;
}.

(** A call of a thread of the process. *)
Definition perform {A} (c : act A) (p : nat) (s : system) : system * A :=
  let tracked := get ∅ (activeLocks s) p in
  let set m := MkSystem (srv s) (clock s) (<[p := m]> (activeLocks s)) (threads s) (claims s) in
  match c in act A return system * A with
  | OnRedis c =>
      let '(srv', r) := exec c (clock s) (srv s) in
      (MkSystem srv' (clock s) (activeLocks s) (threads s) (claims s), r)
  | TimeNow => (s, clock s)
  | Track l => (set (<[ID l := l]> tracked), ())
  | Untrack i => (set (delete i tracked), ())
  | Tracked => (s, map_to_list tracked)
  end.

(** What the answer tells. *)
Definition learn_redis {A} (c : command json A) (r : result error A) (k : knowledge) : knowledge :=
  match c in command _ A return result error A -> knowledge with
  | Get key => λ r,
      MkKnowledge match r with Ok (Some v) => pair key <$> as_lock v | _ => None end (read_at k) (won k)
  | SetNX _ v _ => λ r, match r with Ok true => MkKnowledge (seen k) (read_at k) (as_lock v) | _ => k end
  | Script _ f => λ r,
      match r, f None with Ok true, SetEX v _ => MkKnowledge (seen k) (read_at k) (as_lock v) | _, _ => k end
  | _ => λ _, k
  end r.
Definition learn {A} (c : act A) (a : A) (k : knowledge) : knowledge :=
  match c in act A return A -> knowledge with
  | OnRedis c => λ r, learn_redis c r k
  | TimeNow => λ t, MkKnowledge (seen k) t (won k)
  | _ => λ _, k
  end a.

(** What becomes of the claims: a lock is given when it is set, and ends when its holder
    deletes or extends it. *)
Definition claims_redis {A} (q : request) (now : Z) (c : command json A) (r : result error A) (l : list claim) : list claim :=
  let on key f := (λ c, if String.eqb (c_key c) key then f c else c) <$> l in
  match c in command _ A return result error A -> list claim with
  | SetNX key v _ => λ r, match r, as_lock v with Ok true, Some x => claim_of key x :: l | _, _ => l end
  | Script key f => λ r,
      match r, f None with
      | Ok true, SetEX v _ => match as_lock v with Some x => claim_of key x :: l | None => l end
      | _, _ => l
      end
  | SetKey key v _ => λ _, match as_lock v with Some x => on key (cut (ExpiresAt x)) | None => l end
  | Del key => λ _, on key (λ c, if frees q (c_agent c) then cut now c else c)
  | _ => λ _, l
  end r.
Definition claims_after {A} (q : request) (now : Z) (c : act A) (a : A) (l : list claim) : list claim :=
  match c in act A return A -> list claim with OnRedis c => λ r, claims_redis q now c r l | _ => λ _, l end a.

Inductive label := Start (p : nat) (q : request) | Run (i : nat) | Advance (d : N).

Definition run_thread (i : nat) (t : thread) (s : system) : system :=
  match rest t with
  | Ret _ => s
  | Do c k =>
      let '(s', a) := perform c (process t) s in
      MkSystem (srv s') (clock s') (activeLocks s')
        (<[i := MkThread (process t) (request_ t) (k a) (learn c a (known t))]> (threads s))
        (claims_after (request_ t) (clock s) c a (claims s))
  end.

Definition step (x : label) (s : system) : system :=
  match x with
  | Start p q => MkSystem (srv s) (clock s) (activeLocks s) (threads s ++ [MkThread p q (handler q) ignorant])%list (claims s)
  | Run i => match threads s !! i with Some t => run_thread i t s | None => s end
  | Advance d => MkSystem (srv s) (clock s + Z.of_N d) (activeLocks s) (threads s) (claims s)
  end.
Definition run (l : list label) (s : system) : system := foldl (flip step) s l.

(** The call writes a key of which the thread has read the lock that is there, if there still
    is one. *)
Definition same_lock (l l' : DocumentLock) : bool :=
  String.eqb (ID l) (ID l') && String.eqb (AgentID l) (AgentID l') && (ExpiresAt l =? ExpiresAt l').
Definition unchanged (k : knowledge) (now : Z) (m : store json) (key : string) : bool :=
  match see now m key with
  | None => true
  | Some v =>
      match as_lock v, seen k with
      | Some l, Some (key', l') => String.eqb key key' && same_lock l l'
      | _, _ => false
      end
  end.
Definition fresh_command {A} (k : knowledge) (s : system) (c : command json A) : bool :=
  match c with
  | Del key | SetKey key _ _ => HasPrefix key sectionKeyPrefix || unchanged k (clock s) (contents (srv s)) key
  | _ => true
  end.
Definition fresh (x : label) (s : system) : bool :=
  match x with
  | Run i =>
      match threads s !! i with
      | Some (MkThread _ _ (Do (OnRedis c) _) k) => fresh_command k s c
      | _ => true
      end
  | _ => true
  end.
Fixpoint all_fresh (l : list label) (s : system) : bool :=
  match l with [] => true | x :: l => fresh x s && all_fresh l (step x s) end.

(** No handler runs and no lock was given yet; what the store holds does not matter. *)
Definition init (r : server json) (now : Z) : system := MkSystem r now ∅ [] [].
End running.

(** ** What a handler may call *)

Section rules.
Context {uuids : UUIDText} {lua : Lua} {host : Host}.

Definition on_document (key : string) : Prop := HasPrefix key sectionKeyPrefix = false.

(** Locks are set to last no longer than their key, written back by whoever read them, and
    deleted by their holder or when they have expired. *)
Definition allowed_redis {A} (q : request) (k : knowledge) (c : command json A) : Prop :=
  match c with
  | Get _ | Keys _ => True
  | SetNX key v ttl => ∃ l, v = LockJson l /\ key = lock_key (DocumentID l) /\ ExpiresAt l <= read_at k + ttl
  | SetKey key v ttl =>
      HasPrefix key sectionKeyPrefix = true \/
      ∃ l l', seen k = Some (key, l) /\ v = LockJson l' /\ ID l' = ID l /\ AgentID l' = AgentID l /\ ExpiresAt l' <= read_at k + ttl
  | Del key =>
      HasPrefix key sectionKeyPrefix = true \/
      ∃ l, seen k = Some (key, l) /\ (frees q (AgentID l) = true \/ ExpiresAt l < read_at k)
  | Script key f =>
      ∃ l n, f None = SetEX (LockJson l) n /\ key = lock_key (DocumentID l) /\ ExpiresAt l <= read_at k + n * second + second /\
      (∀ old v m, f (Some old) = SetEX v m -> v = LockJson l /\ m = n /\ ∃ l0, as_lock old = Some l0 /\ ExpiresAt l0 < read_at k) /\
      (∀ current, f current ≠ DelReply)
  end.
Definition allowed {A} (q : request) (k : knowledge) (c : act A) : Prop :=
  match c with OnRedis c => allowed_redis q k c | _ => True end.

(** The clock does not go back, and no key is set for a negative time. *)
Definition possible {A} (k : knowledge) (c : act A) (a : A) : Prop :=
  match c in act A return A -> Prop with
  | TimeNow => λ t, read_at k <= t
  | OnRedis c => λ r, match c with SetNX _ _ ttl => is_ok r = true -> 0 <= ttl | _ => True end
  | _ => λ _, True
  end a.

(** [p] calls only what it may, whatever the answers, and ends in [Q]. *)
Fixpoint wp {A} (q : request) (p : code A) (Q : A -> knowledge -> Prop) (k : knowledge) : Prop :=
  match p with
  | Ret a => Q a k
  | Do c f => allowed q k c /\ ∀ a, possible k c a -> wp q (f a) Q (learn c a k)
  end.

Lemma wp_mono {A} q (p : code A) (Q R : A -> knowledge -> Prop) k :
  wp q p Q k -> (∀ a k', Q a k' -> R a k') -> wp q p R k.
Proof.
  revert k. induction p as [a|B c f IH]; intros k; simpl; [auto|]. intros [Hc Hf] H. split; [done|]. intros a Ha. by apply IH; auto.
Qed.

Lemma wp_bind {A B} q (p : code A) (f : A -> code B) Q k :
  wp q p (λ a k', wp q (f a) Q k') k -> wp q (p ≫= f) Q k.
Proof.
  revert k. induction p as [a|C c g IH]; intros k; [done|]. cbn [wp]. intros [Hc Hf]. split; [done|]. intros a Ha. by apply IH, Hf.
Qed.

Lemma lock_key_on_document d : on_document (lock_key d).
Proof. reflexivity. Qed.
Lemma section_key_prefix d x : HasPrefix (section_key d x) sectionKeyPrefix = true.
Proof. unfold section_key. apply GoStrings.prefix_app. Qed.

(** Goes on after a call. *)
Ltac answered := cbn [mbind prog_bind possible learn learn_redis read_at seen won] in *.

Definition anyway {A} (_ : A) (_ : knowledge) : Prop := True.

Lemma wp_getLock q key k :
  wp q (getLock key) (λ r k', read_at k' = read_at k /\ ∀ l, r = Ok (Some l) -> seen k' = Some (key, l)) k.
Proof.
  split; [done|]. intros r _. cbn [wp learn learn_redis]. split; [done|]. intros l.
  destruct r as [[v|]|e]; [|done..]. simpl. destruct (as_lock v); [|done]. by intros [= ->].
Qed.

Lemma wp_script q key l n k :
  key = lock_key (DocumentID l) -> ExpiresAt l <= read_at k + n -> 0 <= n ->
  wp q (tryAcquireExpiredLock key l n) (λ r k', r = Ok () -> won k' = Some l) k.
Proof.
  intros Hk Hl Hn. split; [done|]. intros now Hnow. cbn [possible] in Hnow. cbn [learn]. split.
  - exists l, (Z.quot n second). split; [done|]. split; [done|]. cbn [read_at].
    pose proof (Z.quot_rem n second ltac:(done)) as Hq. pose proof (Z.rem_bound_pos n second Hn ltac:(done)) as Hr. split; [lia|].
    split; [|intros [old|]; unfold acquire_script; repeat case_match; done].
    intros old v m. unfold acquire_script. destruct (as_lock old) as [l0|]; [|done].
    destruct (tonumber_time (ExpiresAt l0)) as [e|] eqn:He; [|done]. apply tonumber_unix in He as ->.
    destruct (Z.ltb_spec (unix (ExpiresAt l0)) (unix now)) as [Hlt|]; [|done]. intros [= <- <-]. split_and!; [done..|].
    exists l0. split; [done|]. unfold unix in Hlt. apply Z.nle_gt. intros Hle.
    apply (Z.div_le_mono _ _ second) in Hle; [lia|done].
  - intros r _. cbn [wp learn learn_redis]. destruct r as [[|]|e]; done.
Qed.

Lemma lock_duration_cap duration : lock_duration duration <= 30 * minute.
Proof. unfold lock_duration. destruct (Z.ltb_spec (30 * minute) duration); [done|]. destruct (_ =? 0); [done|lia]. Qed.

Lemma wp_lock q i d a t k :
  wp q (LockDocument i d a t) (λ r k', ∀ l, r = Ok l -> won k' = Some l) k.
Proof.
  unfold LockDocument. set (n := lock_duration t). split; [done|]. intros acquired Ha. split; [done|]. intros now Hnow.
  cbn [learn possible read_at won seen] in *. split; [eexists; split_and!; [done..|simpl; lia]|].
  intros r Hr. cbn [possible] in Hr. destruct r as [[|]|e]; cbn [learn learn_redis].
  - split; [done|]. intros [] _ l' [= <-]. done.
  - apply wp_bind. eapply wp_mono; [apply wp_getLock|]. intros r k1 [Hk1 _]. cbn [read_at] in Hk1. destruct r as [[x|]|e]; [|by split|by intros l].
    split; [done|]. intros now' Hnow'. answered. destruct (ExpiresAt x <? now'); [|by intros l].
    apply wp_bind. eapply wp_mono; [apply wp_script; [done|simpl; lia|by apply Hr]|].
    intros r k2 Hw. destruct r as [[]|e]; [|by intros l]. split; [done|]. intros [] _ l' [= <-]. by apply Hw.
  - by intros l.
Qed.

Lemma wp_unlock q d a k :
  (∀ l, AgentID l = a -> frees q (AgentID l) = true) -> wp q (UnlockDocument d a) anyway k.
Proof.
  intros Hq. apply wp_bind. eapply wp_mono; [apply wp_getLock|]. intros r k1 [_ Hs]. destruct r as [[l|]|e]; [|done..].
  destruct (String.eqb_spec (AgentID l) a) as [Ha|]; [|done]. split; [done|]. intros [] _. split.
  - right. exists l. split; [by apply Hs|]. left. by apply Hq.
  - by intros r _.
Qed.

Lemma wp_extend q d a t k : wp q (ExtendLock d a t) anyway k.
Proof.
  apply wp_bind. eapply wp_mono; [apply wp_getLock|]. intros r k1 [_ Hs]. destruct r as [[l|]|e]; [|done..].
  destruct (negb _); [done|]. destruct (_ <=? _); [done|]. split; [done|]. intros now _. answered. split; [|by intros r _].
  right. exists l. eexists. split; [by apply Hs|]. split; [done|]. simpl. split_and!; [done..|lia].
Qed.

Lemma wp_is_locked q d Q k :
  (∀ r k', Q r k') -> wp q (IsDocumentLocked d) Q k.
Proof.
  intros HQ. apply wp_bind. eapply wp_mono; [apply wp_getLock|]. intros r k1 [_ Hs]. destruct r as [[l|]|e]; [|apply HQ..].
  split; [done|]. intros now _. answered. destruct (Z.ltb_spec (ExpiresAt l) now); [|apply HQ]. split.
  - right. exists l. split; [by apply Hs|]. by right.
  - intros r _. apply HQ.
Qed.

Lemma wp_read_sections q keys locks Q k : (∀ r k', Q r k') -> wp q (read_sections keys locks) Q k.
Proof.
  intros HQ. revert locks k. induction keys as [|key keys IH]; intros locks k; [apply HQ|]. split; [done|]. intros r _. answered.
  destruct r as [[v|]|e]; [|apply IH..]. destruct (as_section v); [|apply IH]. split; [done|]. intros now _. apply IH.
Qed.

Lemma wp_sections q d Q k : (∀ r k', Q r k') -> wp q (GetSectionLocks d) Q k.
Proof.
  intros HQ. split; [done|]. intros r _. answered. destruct r as [keys|e]; [|apply HQ]. apply wp_bind, wp_read_sections. intros locks k'. apply HQ.
Qed.

Lemma wp_read_locks q a f keys locks Q k : (∀ r k', Q r k') -> wp q (read_locks a f keys locks) Q k.
Proof.
  intros HQ. revert locks k. induction keys as [|key keys IH]; intros locks k; [apply HQ|]. split; [done|]. intros r _. answered.
  destruct r as [[v|]|e]; [|apply IH..]. destruct (f v); [|apply IH]. destruct (String.eqb _ _); [|apply IH].
  split; [done|]. intros now _. apply IH.
Qed.

Lemma wp_active q a Q k : (∀ r k', Q r k') -> wp q (GetActiveLocks a) Q k.
Proof.
  intros HQ. split; [done|]. intros r _. answered. destruct r as [keys|e]; [|apply HQ]. apply wp_bind, wp_read_locks. intros locks k'.
  split; [done|]. intros r _. answered. destruct r as [keys'|e]; [|apply HQ]. apply wp_bind, wp_read_locks. intros locks' k2. apply HQ.
Qed.

Lemma wp_lock_section q i d x a t k : wp q (LockSection i d x a t) anyway k.
Proof.
  apply wp_bind, wp_is_locked. intros r k1. destruct r as [l|e]; [|done]. apply wp_bind.
  assert (∀ c k2, wp q match c with
    | Some e => Ret (Err e)
    | None => GetSectionLocks d ≫= λ r, match r with
      | Err e => Ret (Err e)
      | Ok existingLocks =>
          match List.find (λ l, String.eqb (SectionID l) x && negb (String.eqb (AgentID (lock l)) a)) existingLocks with
          | Some existing => Ret (Err (SectionLockConflictError d x (AgentID (lock existing))))
          | None =>
              acquiredAt ← call TimeNow;
              now ← call TimeNow;
              let l := MkSection (MkLock i d a LockTypeSection acquiredAt (now + (if t =? 0 then defaultTTL else t)) 0 ∅) x 0 0 in
              r ← redis (SetKey (section_key d x) (SectionJson l) (if t =? 0 then defaultTTL else t));
              match r with
              | Err e => Ret (failed "failed to acquire section lock" e)
              | Ok _ => startAutoRefresh (lock l) ≫= λ _, Ret (Ok l)
              end
          end
      end
    end anyway k2) as H.
  { intros c k2. destruct c; [done|]. apply wp_bind, wp_sections. intros r k3. destruct r as [ls|e]; [|done].
    destruct (List.find _ _); [done|]. split; [done|]. intros acquired _. split; [done|]. intros now _. split.
    - left. apply section_key_prefix.
    - intros r _. destruct r; [|done]. split; [done|]. by intros []. }
  destruct l as [[? ? holder [] ? ? ? ?]|]; try apply H. destruct (String.eqb _ _); apply H.
Qed.

Lemma wp_unlock_section q d x a k : wp q (UnlockSection d x a) anyway k.
Proof.
  split; [done|]. intros r _. answered. destruct r as [[v|]|e]; [|done..]. destruct (as_section v); [|done].
  destruct (String.eqb _ _); [|done]. split; [done|]. intros [] _. split; [left; apply section_key_prefix|by intros r _].
Qed.

Lemma wp_release_all a locks k : wp (RReleaseAll a) (release_all a locks) anyway k.
Proof.
  revert k. induction locks as [|l locks IH]; intros k; [done|]. cbn [release_all].
  assert (wp (RReleaseAll a) (UnlockDocument (DocumentID l) a ≫= λ _, release_all a locks) anyway k) as H.
  { apply wp_bind. eapply wp_mono; [apply wp_unlock|by intros]. intros l' <-. apply String.eqb_refl. }
  by destruct (Type_ l).
Qed.

Lemma wp_refresh q infos k : wp q (refresh_all infos) anyway k.
Proof.
  revert k. induction infos as [|[key l] infos IH]; intros k; [done|]. cbn [refresh_all]. split; [done|]. intros now _. answered.
  destruct (_ <? _); [|apply IH]. apply wp_bind. eapply wp_mono; [apply wp_extend|]. intros r k' _.
  destruct r; [apply IH|]. split; [done|]. intros [] _. apply IH.
Qed.

(** A lock is given only to whom it was set for. *)
Definition honest (r : reply_) (k : knowledge) : Prop := ∀ l, r = Locked (Ok l) -> won k = Some l.

Lemma wp_handler q : wp q (handler q) honest ignorant.
Proof.
  assert (∀ A (p : code A) (f : A -> reply_) k, (∀ a l, f a ≠ Locked (Ok l)) -> wp q p anyway k -> wp q (p ≫= λ a, Ret (f a)) honest k) as H.
  { intros A p f k Hf Hp. apply wp_bind. eapply wp_mono; [exact Hp|]. intros a k' _ l Hl. by destruct (Hf a l). }
  destruct q; cbn [handler].
  - apply wp_bind. eapply wp_mono; [apply wp_lock|]. intros r k' Hr l [= ->]. by apply Hr.
  - apply H; [done|]. apply wp_unlock. intros l <-. apply String.eqb_refl.
  - apply H; [done|]. apply wp_extend.
  - apply H; [done|]. by apply wp_is_locked.
  - apply H; [done|]. apply wp_lock_section.
  - apply H; [done|]. apply wp_unlock_section.
  - apply H; [done|]. by apply wp_sections.
  - apply H; [done|]. by apply wp_active.
  - apply H; [done|]. apply wp_bind, wp_active. intros r k'. destruct r as [locks|e]; [|done]. apply wp_bind.
    eapply wp_mono; [apply wp_release_all|]. done.
  - apply H; [done|]. split; [done|]. intros infos _. apply wp_refresh.
Qed.
End rules.

(** ** Exclusion *)

Section exclusion.
Context {uuids : UUIDText} {lua : Lua} {host : Host}.
Implicit Types (m : store json) (c : claim) (k : knowledge).

(** The lock of the claim is stored, for as long as the claim lasts up to a second. *)
Definition holds m c : Prop :=
  ∃ v l dl, m !! c_key c = Some (v, dl) /\ as_lock v = Some l /\ ID l = c_lock c /\ AgentID l = c_agent c /\
  c_until c <= ExpiresAt l /\ match dl with Some t => c_until c <= t + second | None => True end.
Definition backed (now : Z) m (l : list claim) : Prop :=
  ∀ c, c ∈ l -> on_document (c_key c) /\ (now + second < c_until c -> holds m c).

Lemma holds_live now m c :
  holds m c -> now + second < c_until c -> ∃ v l, see now m (c_key c) = Some v /\ as_lock v = Some l /\ ID l = c_lock c /\
    AgentID l = c_agent c /\ c_until c <= ExpiresAt l.
Proof.
  intros (v & l & dl & Hm & Hl & Hi & Ha & He & Hd) Hc. exists v, l. split; [|done]. rewrite (see_live _ _ _ _ _ Hm).
  destruct dl as [t|]; [|done]. unfold live. simpl. destruct (Z.ltb_spec now t); [done|lia].
Qed.

Lemma holds_elsewhere m c key e : key ≠ c_key c -> holds m c -> holds (<[key := e]> m) c.
Proof. intros Hk (v & l & dl & Hm & H). exists v, l, dl. split; [by rewrite lookup_insert_ne|done]. Qed.
Lemma holds_delete m c key : key ≠ c_key c -> holds m c -> holds (delete key m) c.
Proof. intros Hk (v & l & dl & Hm & H). exists v, l, dl. split; [by rewrite lookup_delete_ne|done]. Qed.

(** [c] has been cut. *)
Definition shrinks c c0 : Prop :=
  c_key c = c_key c0 /\ c_lock c = c_lock c0 /\ c_agent c = c_agent c0 /\ c_until c <= c_until c0.
Lemma holds_shrinks m c c0 : shrinks c c0 -> holds m c0 -> holds m c.
Proof.
  intros (Hk & Hl & Ha & Hu) (v & l & dl & Hm & H1 & H2 & H3 & H4 & H5). exists v, l, dl. rewrite Hk, Hl, Ha.
  split_and!; [done..|lia|]. destruct dl; [lia|done].
Qed.

(** A key without a claim that counts can be written. *)
Lemma backed_write now m l key x dl :
  (∀ c, c ∈ l -> c_key c = key -> now + second < c_until c -> False) -> backed now m l -> backed now (<[key := (x, dl)]> m) l.
Proof.
  intros Hkey Hl c Hc. destruct (Hl c Hc) as [Hd Hh]. split; [done|]. intros Hu.
  destruct (decide (key = c_key c)) as [He|]; [by destruct (Hkey c Hc)|]. apply holds_elsewhere; auto.
Qed.

Lemma backed_cons now m l c : on_document (c_key c) -> holds m c -> backed now m l -> backed now m (c :: l).
Proof. intros Hd Hc Hl c' [->|Hin]%elem_of_cons; [done|by apply Hl]. Qed.

(** A new lock where there was none that counts. *)
Lemma backed_new now m l x dl (given : bool) :
  let key := lock_key (DocumentID x) in
  (∀ c, c ∈ l -> c_key c = key -> now + second < c_until c -> False) ->
  match dl with Some t => ExpiresAt x <= t + second | None => True end ->
  backed now m l -> backed now (<[key := (LockJson x, dl)]> m) (if given then claim_of key x :: l else l).
Proof.
  intros key Hkey Hd Hl. pose proof (backed_write now m l key (LockJson x) dl Hkey Hl) as Hw. destruct given; [|done].
  apply backed_cons; [apply lock_key_on_document| |done]. exists (LockJson x), x, dl. rewrite lookup_insert_eq. by split_and!.
Qed.

(** What claims become. *)
Lemma on_key_elem key (f : claim -> claim) (l : list claim) c :
  c ∈ ((λ c, if String.eqb (c_key c) key then f c else c) <$> l) ->
  ∃ c0, c0 ∈ l /\ ((c_key c0 ≠ key /\ c = c0) \/ (c_key c0 = key /\ c = f c0)).
Proof.
  intros (c0 & -> & Hc)%list_elem_of_fmap. exists c0. split; [done|]. destruct (String.eqb_spec (c_key c0) key); auto.
Qed.
Lemma cut_shrinks t c : shrinks (cut t c) c.
Proof. unfold shrinks, cut. simpl. split_and!; [done..|lia]. Qed.

Lemma sections_apart key c : HasPrefix key sectionKeyPrefix = true -> on_document (c_key c) -> key ≠ c_key c.
Proof. unfold on_document. intros H Hc ->. by rewrite H in Hc. Qed.

(** *** One command *)

Definition outcome_of {A} (c : command json A) (now : Z) m m' (r : result error A) : Prop :=
  match r with
  | Ok a => writes c now m = Some m' /\ answers c now m a
  | Err _ => m' = m \/ writes c now m = Some m'
  end.

(** The thread read what is there, if there is something. *)
Lemma unchanged_seen k now m key v :
  unchanged k now m key = true -> see now m key = Some v ->
  ∃ l l', as_lock v = Some l /\ seen k = Some (key, l') /\ ID l = ID l' /\ AgentID l = AgentID l' /\ ExpiresAt l = ExpiresAt l'.
Proof.
  unfold unchanged. intros H Hv. rewrite Hv in H. revert H. destruct (as_lock v) as [l|], (seen k) as [[key' l']|]; try done.
  intros [Hk [[Hi Ha]%andb_prop He]%andb_prop]%andb_prop. exists l, l'. apply String.eqb_eq in Hk as ->.
  split_and!; [done|done|by apply String.eqb_eq|by apply String.eqb_eq|by apply Z.eqb_eq].
Qed.

Lemma setnx_backed q k now key v ttl m m' r l :
  allowed_redis q k (SetNX key v ttl) -> read_at k <= now -> outcome_of (SetNX key v ttl) now m m' r -> backed now m l ->
  backed now m' (claims_redis q now (SetNX key v ttl) r l).
Proof.
  intros (x & -> & -> & Hx) Hread Hout Hl. set (key := lock_key (DocumentID x)) in *.
  assert (m' = m /\ r ≠ Ok true \/ present now m key = false /\ 0 <= ttl /\ m' = <[key := (LockJson x, deadline now ttl)]> m) as H.
  { unfold outcome_of, writes, answers in Hout. destruct r as [b|e].
    - destruct Hout as [Hw ->]. destruct (Z.ltb_spec ttl 0); [done|]. destruct (present now m key); simplify_eq; [by left|by right].
    - destruct Hout as [->|Hw]; [by left|]. destruct (Z.ltb_spec ttl 0); [done|]. destruct (present now m key); simplify_eq; [by left|by right]. }
  destruct H as [[-> Hr]|(Hp & Ht & ->)]; cbn [claims_redis as_lock].
  { by destruct r as [[]|]. }
  assert (∀ given : bool, backed now (<[key := (LockJson x, deadline now ttl)]> m) (if given then claim_of key x :: l else l)) as H.
  { intros given. apply backed_new; [| |done].
    - intros c Hc Hk Hu. destruct (Hl c Hc) as [_ Hh]. destruct (holds_live now m c (Hh Hu) Hu) as (v & y & Hs & _).
      rewrite Hk in Hs. unfold present, key in Hp. by rewrite Hs in Hp.
    - destruct (deadline now ttl) as [t|] eqn:Hd; [|done]. apply deadline_late in Hd; [|done]. unfold second, millisecond in *. lia. }
  destruct r as [[]|]; [apply (H true)|apply (H false)..].
Qed.

Lemma script_backed q k now key f m m' r l :
  allowed_redis q k (Script key f) -> read_at k <= now -> outcome_of (Script key f) now m m' r -> backed now m l ->
  backed now m' (claims_redis q now (Script key f) r l).
Proof.
  intros (x & n & Hf & -> & Hx & Hold & Hdel) Hread Hout Hl. set (key := lock_key (DocumentID x)) in *.
  assert (m' = m /\ r ≠ Ok true \/ ∃ v, f (see now m key) = SetEX v n /\ v = LockJson x /\ m' = <[key := (LockJson x, Some (now + n * second))]> m) as H.
  { assert (∀ v n', f (see now m key) = SetEX v n' -> v = LockJson x /\ n' = n) as Hsame.
    { intros v n' Hv. destruct (see now m key) as [old|]; [by destruct (Hold _ _ _ Hv) as (-> & -> & _)|]. by rewrite Hf in Hv; simplify_eq. }
    unfold outcome_of, writes, answers in Hout. destruct r as [b|e].
    - destruct Hout as [Hw ->]. destruct (f (see now m key)) as [v n'| | |] eqn:Hv; simplify_eq; [|by destruct (Hdel _ Hv)|by left].
      destruct (Hsame _ _ eq_refl) as [-> ->]. destruct (n <=? 0); simplify_eq. right. by exists (LockJson x).
    - destruct Hout as [->|Hw]; [by left|]. destruct (f (see now m key)) as [v n'| | |] eqn:Hv; simplify_eq; [|by destruct (Hdel _ Hv)|by left].
      destruct (Hsame _ _ eq_refl) as [-> ->]. destruct (n <=? 0); simplify_eq. right. by exists (LockJson x). }
  cbn [claims_redis]. rewrite Hf. cbn [as_lock].
  destruct H as [[-> Hr]|(v & Hv & -> & ->)]; [by destruct r as [[]|]|].
  assert (∀ given : bool, backed now (<[key := (LockJson x, Some (now + n * second))]> m) (if given then claim_of key x :: l else l)) as H.
  { intros given. apply backed_new; [|lia|done]. intros c Hc Hk Hu. destruct (Hl c Hc) as [_ Hh].
    destruct (holds_live now m c (Hh Hu) Hu) as (v & y & Hs & Hy & _ & _ & Hle). rewrite Hk in Hs. unfold key in Hv. rewrite Hs in Hv.
    apply Hold in Hv as (_ & _ & l0 & Hl0 & Hlt). rewrite Hy in Hl0. simplify_eq. unfold second, millisecond in *. lia. }
  destruct r as [[]|]; [apply (H true)|apply (H false)..].
Qed.

Lemma set_backed q k now key v ttl m m' r l :
  allowed_redis q k (SetKey key v ttl) -> HasPrefix key sectionKeyPrefix = true \/ unchanged k now m key = true -> read_at k <= now ->
  outcome_of (SetKey key v ttl) now m m' r -> backed now m l -> backed now m' (claims_redis q now (SetKey key v ttl) r l).
Proof.
  intros Hal Hfresh Hread Hout Hl. cbn [claims_redis].
  assert (m' = m \/ 0 <= ttl /\ m' = <[key := (v, deadline now ttl)]> m) as Hm.
  { unfold outcome_of, writes in Hout. destruct r; [destruct Hout as [Hout _]|destruct Hout as [->|Hout]; [by left|]];
      destruct (Z.ltb_spec ttl 0); simplify_eq; by right. }
  assert (backed now m' match as_lock v with
    | Some x => (λ c, if String.eqb (c_key c) key then cut (ExpiresAt x) c else c) <$> l | None => l end) as H; [|by destruct r].
  assert (∀ c, c ∈ match as_lock v with
    | Some x => (λ c, if String.eqb (c_key c) key then cut (ExpiresAt x) c else c) <$> l | None => l end ->
    ∃ c0, c0 ∈ l /\ shrinks c c0 /\ (c_key c0 = key -> ∀ x, as_lock v = Some x -> c_until c <= ExpiresAt x)) as Hsh.
  { intros c. destruct (as_lock v) as [x|].
    - intros Hc. apply on_key_elem in Hc as (c0 & Hc0 & [[Hne ->]|[He ->]]); exists c0; (split; [done|]).
      + split; [by split_and!|done].
      + split; [apply cut_shrinks|]. intros _ y [= <-]. simpl. lia.
    - intros Hc. exists c. by split_and!. }
  intros c Hc. destruct (Hsh c Hc) as (c0 & Hc0 & Hs & Hx). destruct (Hl c0 Hc0) as [Hd Hh]. pose proof Hs as (Hk & _ & _ & Hu).
  split; [by rewrite Hk|]. intros Hval. assert (holds m c0) as H0 by (apply Hh; lia).
  assert (holds m c) as H1 by (by apply (holds_shrinks m c c0)). destruct Hm as [->|(Ht & ->)]; [done|].
  destruct (decide (key = c_key c)) as [He|Hne]; [|by apply holds_elsewhere].
  destruct Hal as [Hp|(y & y' & Hseen & -> & Hi & Ha & Hle)]; [by destruct (sections_apart _ _ Hp Hd); rewrite He, Hk|].
  destruct Hfresh as [Hp|Hfresh]; [by destruct (sections_apart _ _ Hp Hd); rewrite He, Hk|].
  destruct (holds_live now m c H1 Hval) as (w & z & Hsee & Hz & Hiz & Haz & _). rewrite <- He in Hsee.
  apply (unchanged_seen _ _ _ _ _ Hfresh) in Hsee as (z2 & z' & Hz' & Hseen' & Hi' & Ha' & _).
  rewrite Hseen in Hseen'. injection Hseen' as <-. rewrite Hz in Hz'. injection Hz' as <-.
  exists (LockJson y'), y', (deadline now ttl).
  rewrite <- He, lookup_insert_eq. split_and!; [done|done|congruence|congruence| |].
  - apply (Hx ltac:(by rewrite He, Hk) y' eq_refl).
  - destruct (deadline now ttl) as [t|] eqn:Hdl; [|done]. apply deadline_late in Hdl; [|done].
    pose proof (Hx ltac:(by rewrite He, Hk) y' eq_refl). unfold second, millisecond in *. lia.
Qed.

Lemma del_backed q k now key m m' r l :
  allowed_redis q k (Del key) -> HasPrefix key sectionKeyPrefix = true \/ unchanged k now m key = true -> read_at k <= now ->
  outcome_of (Del key) now m m' r -> backed now m l -> backed now m' (claims_redis q now (Del key) r l).
Proof.
  intros Hal Hfresh Hread Hout Hl. cbn [claims_redis].
  assert (m' = m \/ m' = delete key m) as Hm.
  { unfold outcome_of, writes in Hout. destruct r; [destruct Hout as [Hout _]|destruct Hout as [->|Hout]; [by left|]]; simplify_eq; by right. }
  intros c Hc. apply on_key_elem in Hc as (c0 & Hc0 & Hcase). destruct (Hl c0 Hc0) as [Hd Hh].
  assert (shrinks c c0) as Hs.
  { destruct Hcase as [[_ ->]|[_ ->]]; [by split_and!|]. destruct (frees q (c_agent c0)); [apply cut_shrinks|by split_and!]. }
  pose proof Hs as (Hk & _ & Ha & Hu). split; [by rewrite Hk|]. intros Hval.
  assert (holds m c0) as H0 by (apply Hh; lia). assert (holds m c) as H1 by (by apply (holds_shrinks m c c0)).
  destruct Hm as [->| ->]; [done|]. destruct Hcase as [[Hne _]|[He Hc]]; [apply holds_delete; [congruence|done]|]. exfalso.
  destruct Hal as [Hp|(y & Hseen & Hy)]; [by apply (sections_apart key c0)|].
  destruct Hfresh as [Hp|Hfresh]; [by apply (sections_apart key c0)|].
  destruct (holds_live now m c0 H0 ltac:(lia)) as (w & z & Hsee & Hz & _ & Haz & Hle). rewrite He in Hsee.
  apply (unchanged_seen _ _ _ _ _ Hfresh) in Hsee as (z2 & z' & Hz' & Hseen' & _ & Ha' & He').
  rewrite Hseen in Hseen'. injection Hseen' as <-. rewrite Hz in Hz'. injection Hz' as <-.
  destruct Hy as [Hfr|Hexp].
  - rewrite <- Haz, Ha', Hfr in Hc. subst c. simpl in Hval. unfold second, millisecond in *. lia.
  - unfold second, millisecond in *. lia.
Qed.

Lemma redis_backed {A} q k now (c : command json A) m m' r l :
  allowed_redis q k c ->
  match c with
  | Del key | SetKey key _ _ => HasPrefix key sectionKeyPrefix = true \/ unchanged k now m key = true
  | _ => True
  end ->
  read_at k <= now -> outcome_of c now m m' r -> backed now m l -> backed now m' (claims_redis q now c r l).
Proof.
  destruct c; intros Hal Hf Hread Hout Hl.
  - unfold outcome_of, writes in Hout. destruct r; [destruct Hout; by simplify_eq|by destruct Hout; simplify_eq].
  - by eapply setnx_backed.
  - by eapply set_backed.
  - by eapply del_backed.
  - unfold outcome_of, writes in Hout. destruct r; [destruct Hout; by simplify_eq|by destruct Hout; simplify_eq].
  - by eapply script_backed.
Qed.

Lemma backed_later now now' m l : now <= now' -> backed now m l -> backed now' m l.
Proof. intros Hn Hl c Hc. destruct (Hl c Hc) as [Hd Hh]. split; [done|]. intros Hu. apply Hh. lia. Qed.

(** *** What threads have won was given to them *)

Definition given (l : list claim) (x : DocumentLock) : Prop :=
  ∃ c, c ∈ l /\ c_key c = lock_key (DocumentID x) /\ c_lock c = ID x /\ c_agent c = AgentID x.

Lemma given_mono l l' x : (∀ c, c ∈ l -> ∃ c', c' ∈ l' /\ c_key c' = c_key c /\ c_lock c' = c_lock c /\ c_agent c' = c_agent c) ->
  given l x -> given l' x.
Proof. intros H (c & Hc & Hk & Hi & Ha). destruct (H c Hc) as (c' & Hc' & Hk' & Hi' & Ha'). exists c'. split_and!; [done|congruence..]. Qed.

Lemma on_key_given key (f : claim -> claim) (l : list claim) x :
  (∀ c, shrinks (f c) c) -> given l x -> given ((λ c, if String.eqb (c_key c) key then f c else c) <$> l) x.
Proof.
  intros Hf. apply given_mono. intros c Hc. eexists. split; [by apply list_elem_of_fmap_2|]. simpl.
  destruct (String.eqb (c_key c) key); [|done]. by destruct (Hf c) as (? & ? & ? & _).
Qed.

Lemma claims_given {A} q now (c : act A) a l x : given l x -> given (claims_after q now c a l) x.
Proof.
  intros H. destruct c as [A c| | | |]; try done. assert (∀ c', given (c' :: l) x) as Hcons.
  { intros c'. revert H. apply given_mono. intros c0 Hc0. exists c0. by split; [right|]. }
  destruct c; cbn [claims_after claims_redis]; try done.
  - destruct a as [[]|]; try done. by destruct (as_lock v).
  - destruct (as_lock v); [|done]. apply on_key_given; [|done]. intros c. apply cut_shrinks.
  - apply on_key_given; [|done]. intros c. destruct (frees q (c_agent c)); [apply cut_shrinks|by split_and!].
  - destruct a as [[]|], (f None); try done. by destruct (as_lock v).
Qed.

(** What is learnt to be won is given. *)
Lemma learn_given {A} q now k (c : act A) a l x :
  allowed q k c -> (∀ y, won k = Some y -> given l y) -> won (learn c a k) = Some x -> given (claims_after q now c a l) x.
Proof.
  intros Hal Hk Hx. assert (won k = Some x -> given (claims_after q now c a l) x) as Hold by (intros H; by apply claims_given, Hk).
  destruct c as [A c| | | |]; try by apply Hold. destruct c; try by apply Hold.
  - destruct a as [[]|e]; try by apply Hold. destruct Hal as (y & -> & -> & _). simpl in Hx. simplify_eq.
    eexists. split; [by left|]. done.
  - destruct Hal as (y & n & Hf & -> & _). cbn [claims_after claims_redis learn learn_redis] in *. rewrite Hf in *.
    destruct a as [[]|e]; try by apply Hold. simpl in Hx. simplify_eq. eexists. split; [by left|]. done.
Qed.
End exclusion.

(** *** All interleavings *)

Section interleavings.
Context {uuids : UUIDText} {lua : Lua} {host : Host} {redis_server : Redis json}.
Implicit Types (s : system) (t : thread).

Record thread_ok s t : Prop := {
  reads_past : read_at (known t) <= clock s;
  goes_on : wp (request_ t) (rest t) honest (known t);
  won_given : ∀ x, won (known t) = Some x -> given (claims s) x;
}.
Record good s : Prop := {
  good_threads : ∀ i t, threads s !! i = Some t -> thread_ok s t;
  good_claims : backed (clock s) (contents (srv s)) (claims s);
  good_clock : 0 <= clock s;
}.

Lemma perform_clock {A} (c : act A) p s : clock (perform c p s).1 = clock s.
Proof. destruct c; try done. cbn [perform]. by destruct (exec _ _ _). Qed.

Lemma perform_possible {A} (c : act A) p s k : read_at k <= clock s -> possible k c (perform c p s).2.
Proof.
  intros Hk. destruct c as [A c| | | |]; try done. cbn [perform possible].
  pose proof (exec_spec A c (clock s) (srv s)) as H. destruct (exec c (clock s) (srv s)) as [srv' r]. simpl in *.
  destruct c; try done. intros Hr. destruct r as [b|]; [|done]. destruct H as [Hw _]. unfold writes in Hw.
  destruct (Z.ltb_spec ttl 0); [done|lia].
Qed.

Lemma learn_read {A} (c : act A) p s k : read_at k <= clock s -> read_at (learn c (perform c p s).2 k) <= clock s.
Proof.
  intros Hk. destruct c as [A c| | | |]; try done. cbn [perform]. destruct (exec _ _ _) as [srv' r].
  destruct c; simpl; repeat case_match; done.
Qed.

Lemma perform_backed {A} q (c : act A) p s k :
  allowed q k c -> match c with OnRedis c => fresh_command k s c = true | _ => True end -> read_at k <= clock s ->
  backed (clock s) (contents (srv s)) (claims s) ->
  backed (clock s) (contents (srv (perform c p s).1)) (claims_after q (clock s) c (perform c p s).2 (claims s)).
Proof.
  intros Hal Hf Hk Hl. destruct c as [A c| | | |]; try done. cbn [perform].
  pose proof (exec_spec A c (clock s) (srv s)) as H. destruct (exec c (clock s) (srv s)) as [srv' r]. simpl in *.
  eapply redis_backed; [exact Hal| |exact Hk| |exact Hl]; [|by destruct r]. by destruct c; try apply orb_prop.
Qed.

Lemma thread_later s s' t :
  clock s <= clock s' -> (∀ x, given (claims s) x -> given (claims s') x) -> thread_ok s t -> thread_ok s' t.
Proof. intros Hc Hg [Hr Hw Hx]. split; [lia|done|auto]. Qed.

Lemma run_thread_good i s t :
  threads s !! i = Some t -> fresh (Run i) s = true -> good s -> good (run_thread i t s).
Proof.
  intros Hi Hf Hgood. pose proof Hgood as [Ht Hc H0]. unfold fresh in Hf. rewrite Hi in Hf.
  destruct t as [p q [r|A c f] k]; unfold run_thread; simpl; [done|]. destruct (Ht i _ Hi) as [Hr [Hal Hgo] Hw]. simpl in *.
  pose proof (perform_clock c p s) as Hclock. pose proof (perform_possible c p s k Hr) as Hposs.
  pose proof (learn_read c p s k Hr) as Hlr.
  pose proof (perform_backed q c p s k Hal ltac:(by destruct c) Hr Hc) as Hback.
  destruct (perform c p s) as [s' a] eqn:Hp. simpl in *. split; simpl; [|by rewrite Hclock|by rewrite Hclock].
  intros j t Hj. destruct (decide (i = j)) as [<-|Hne].
  - rewrite list_lookup_insert_eq in Hj by (by eapply lookup_lt_Some). injection Hj as <-. split; simpl; [by rewrite Hclock|by apply Hgo|].
    intros x Hx. by eapply learn_given.
  - rewrite list_lookup_insert_ne in Hj by done. eapply thread_later; [| |by eapply Ht]; simpl; [by rewrite Hclock|].
    intros x. apply claims_given.
Qed.

Lemma step_good x s : fresh x s = true -> good s -> good (step x s).
Proof.
  intros Hf Hgood. pose proof Hgood as [Ht Hc H0]. destruct x as [p q|i|d]; cbn [step].
  - split; simpl; [|done..]. intros i t Hi. apply lookup_app_Some in Hi as [Hi|[_ Hi]].
    + eapply thread_later; [| |by eapply Ht]; done.
    + apply list_lookup_singleton_Some in Hi as [_ <-]. split; simpl; [done|apply wp_handler|done].
  - destruct (threads s !! i) as [t|] eqn:Hi; [|done]. by apply run_thread_good.
  - split; simpl; [|by eapply backed_later, Hc; lia|lia]. intros i t Hi. eapply thread_later; [| |by eapply Ht]; simpl; [lia|done].
Qed.

Lemma run_good l s : all_fresh l s = true -> good s -> good (run l s).
Proof.
  revert s. induction l as [|x l IH]; intros s; [done|]. intros [Hf Hl]%andb_prop Hs. cbn. apply IH; [done|]. by apply step_good.
Qed.
End interleavings.

(** C15 Whatever handlers of whatever processes run, and however they are interleaved: as long as no lock is
    written back or deleted by a handler that had read an earlier one, no two agents hold the
    lock of a document at the same time (a lock counts until a second before it expires, is
    released or is extended), and [LockDocument] answers with a lock only if it was given to
    that agent. *)
Theorem lock_exclusive {uuids : UUIDText} {lua : Lua} {host : Host} {redis_server : Redis json} (r : server json) now ls :
  0 <= now -> all_fresh ls (init r now) = true ->
  let s := run ls (init r now) in
  (∀ c1 c2, c1 ∈ claims s -> c2 ∈ claims s -> c_key c1 = c_key c2 ->
     clock s + second < c_until c1 -> clock s + second < c_until c2 -> c_lock c1 = c_lock c2 /\ c_agent c1 = c_agent c2) /\
  (∀ i t l, threads s !! i = Some t -> rest t = Ret (Locked (Ok l)) -> given (claims s) l).
Proof.
  intros Hnow Hf s. assert (good s) as [Ht Hc _].
  { apply run_good; [done|]. split; simpl; [done| |done]. by intros c ?%elem_of_nil. }
  split.
  - intros c1 c2 H1 H2 Hk Hu1 Hu2. destruct (Hc c1 H1) as [_ (v & l & dl & Hm & Hv & Hi & Ha & _)]; [done|].
    destruct (Hc c2 H2) as [_ (v' & l' & dl' & Hm' & Hv' & Hi' & Ha' & _)]; [done|].
    rewrite Hk, Hm' in Hm. injection Hm as <- <-. rewrite Hv' in Hv. injection Hv as <-. split; congruence.
  - intros i t l Hi Hrest. destruct (Ht i t Hi) as [_ Hw Hg]. rewrite Hrest in Hw. apply Hg, Hw. done.
Qed.

(** ** Locks that are left behind *)

Section alone.
Context {uuids : UUIDText} {lua : Lua} {host : Host} {redis_server : Redis json}.

(** A handler that nothing interrupts. *)
Fixpoint run_alone {A} (c : code A) (p : nat) (s : system) : system * A :=
  match c with
  | Ret a => (s, a)
  | Do c k => let '(s', a) := perform c p s in run_alone (k a) p s'
  end.

(** The handler leaves the store as it was and ends in [Q]. *)
Definition idles {A} (c : code A) (p : nat) (s : system) (Q : A -> Prop) : Prop :=
  let '(s', r) := run_alone c p s in contents (srv s') = contents (srv s) /\ clock s' = clock s /\ Q r.

Lemma idles_ret {A} (a : A) p s (Q : A -> Prop) : Q a -> idles (Ret a) p s Q.
Proof. intros H. split; [done|]. by split. Qed.

Lemma idles_now {A} (k : Z -> code A) p s Q : idles (k (clock s)) p s Q -> idles (Do TimeNow k) p s Q.
Proof. done. Qed.

Lemma idles_bind {A B} (c : code A) (f : A -> code B) p s (Q : B -> Prop) :
  idles c p s (λ a, ∀ s', contents (srv s') = contents (srv s) -> clock s' = clock s -> idles (f a) p s' Q) ->
  idles (c ≫= f) p s Q.
Proof.
  unfold idles. intros H.
  assert (run_alone (c ≫= f) p s = let '(s', a) := run_alone c p s in run_alone (f a) p s') as ->.
  { clear. revert s. induction c as [a|C c k IH]; intros s; [done|]. cbn [mbind prog_bind run_alone]. destruct (perform c p s). apply IH. }
  destruct (run_alone c p s) as [s' a]. destruct H as (Hm & Hc & H). specialize (H s' Hm Hc).
  destruct (run_alone (f a) p s') as [s2 b]. destruct H as (-> & -> & HQ). by split_and!.
Qed.

(** A command that writes nothing, or is refused. *)
Lemma idles_redis {A B} (c : command json A) (k : result error A -> code B) p s (Q : B -> Prop) :
  (∀ m', writes c (clock s) (contents (srv s)) = Some m' -> m' = contents (srv s)) ->
  (∀ s' r, contents (srv s') = contents (srv s) -> clock s' = clock s ->
     (∀ a, r = Ok a -> answers c (clock s) (contents (srv s)) a /\ writes c (clock s) (contents (srv s)) ≠ None) -> idles (k r) p s' Q) ->
  idles (Do (OnRedis c) k) p s Q.
Proof.
  intros Hw Hk. unfold idles. cbn [run_alone perform].
  pose proof (exec_spec A c (clock s) (srv s)) as H. destruct (exec c (clock s) (srv s)) as [srv' r]. simpl in H.
  set (s' := MkSystem srv' _ _ _ _). assert (contents srv' = contents (srv s)) as Hm.
  { destruct r; [destruct H; by apply Hw|]. destruct H; [done|by apply Hw]. }
  specialize (Hk s' r Hm eq_refl). unfold idles in Hk. destruct (run_alone (k r) p s') as [s2 b].
  destruct Hk as (H1 & H2 & HQ); [|split_and!; [by rewrite H1|done..]].
  intros a ->. destruct H as [H Ha]. split; [done|]. by rewrite H.
Qed.
End alone.

(** C2. A key that outlives the lock stored under it blocks its document: whoever locks it gets an error and
    nothing changes, because the script that is to replace an expired lock compares the text of
    a time with a number. *)
Theorem expired_lock_blocks {uuids : UUIDText} {lua : Lua} {host : Host} {redis_server : Redis json}
    (text_is_no_number : ∀ t, tonumber_time t = None) lockID documentID agentID duration p (s : system) v l :
  see (clock s) (contents (srv s)) (lock_key documentID) = Some v -> as_lock v = Some l -> ExpiresAt l < clock s ->
  idles (LockDocument lockID documentID agentID duration) p s (λ r, is_ok r = false).
Proof.
  intros Hv Hl He. unfold LockDocument. set (key := lock_key documentID) in *. set (n := lock_duration duration).
  apply idles_now, idles_now, idles_redis.
  { intros m'. unfold writes, present. rewrite Hv. destruct (n <? 0); congruence. }
  intros s1 r Hm1 Hc1 Hr. destruct r as [b|e]; [|by apply idles_ret]. destruct (Hr b eq_refl) as [-> _]. unfold present. rewrite Hv.
  cbn [negb]. apply idles_bind, idles_redis; [by intros m' [= <-]|]. intros s2 r Hm2 Hc2 Hr2. rewrite Hm1, Hc1 in Hr2.
  apply idles_ret. intros s3 Hm3 Hc3.
  destruct r as [w|e]; [|by apply idles_ret]. destruct (Hr2 w eq_refl) as [-> _]. rewrite Hv, Hl.
  apply idles_now. cbn [prog_bind]. rewrite Hc3, Hc1. destruct (Z.ltb_spec (ExpiresAt l) (clock s)); [|lia].
  apply idles_bind, idles_now, idles_redis.
  { intros m'. unfold writes. rewrite Hm3, Hm1, Hc3, Hc1, Hv. unfold acquire_script. by rewrite Hl, text_is_no_number. }
  intros s4 r Hm4 Hc4 Hr4. apply idles_ret. intros s5 Hm5 Hc5. destruct r as [b'|e]; [|by apply idles_ret].
  destruct (Hr4 b' eq_refl) as [_ Hw]. destruct Hw. unfold writes. rewrite Hm3, Hm1, Hc3, Hc1, Hv.
  unfold acquire_script. by rewrite Hl, text_is_no_number.
Qed.

(** ** Witnesses and examples *)

Section examples.
#[local] Existing Instance decimal_uuids.
#[local] Instance lua_text : Lua.
Proof. refine {| tonumber_time _ := None |}. done. Defined.
#[local] Instance some_host : Host := {| hostname := "host"; host_pid := 1 |}.
#[local] Instance map_redis : Redis json := map_server.

Definition doc : UUID := 1%N.
Definition now0 : Z := 63000000000 * second.
Definition after (n : nat) (i : nat) : list label := repeat (Run i) n.
Definition answer (i : nat) (s : system) : option reply_ :=
  match threads s !! i with Some (MkThread _ _ (Ret r) _) => Some r | _ => None end.
(** Whether the thread was given a lock that has not expired, and to whom. *)
Definition holder (s : system) (i : nat) : option string :=
  match answer i s with
  | Some (Locked (Ok l)) => if clock s <? ExpiresAt l then Some (AgentID l) else None
  | _ => None
  end.

(** One agent locks and unlocks, then another one locks. *)
Definition turns : list label :=
  (Start 0 (RLock "l1" doc "a" minute) :: after 5 0 ++ Start 0 (RUnlock doc "a") :: after 4 1 ++
   Start 1 (RLock "l2" doc "b" minute) :: after 5 2)%list.

Lemma lock_exclusive_witness :
  let s := run turns (init (∅ : server json) now0) in
  (c_agent <$> claims s) = ["b"; "a"] /\ holder s 2 = Some "b" /\
  (∀ c1 c2, c1 ∈ claims s -> c2 ∈ claims s -> c_key c1 = c_key c2 ->
     clock s + second < c_until c1 -> clock s + second < c_until c2 -> c_lock c1 = c_lock c2 /\ c_agent c1 = c_agent c2) /\
  (∀ i t l, threads s !! i = Some t -> rest t = Ret (Locked (Ok l)) -> given (claims s) l).
Proof.
  split; [vm_compute; reflexivity|]. split; [vm_compute; reflexivity|]. apply lock_exclusive; [vm_compute; discriminate|].
  vm_compute. reflexivity.
Defined.

(** An agent unlocks when its lock is about to expire: between the reading of the lock and its
    deletion another agent has got it, and a third one gets it then. *)
Example stale_unlock_gives_twice :
  let s := run (Start 0 (RLock "l1" doc "a" minute) :: after 5 0 ++ Start 0 (RUnlock doc "a") :: after 2 1 ++
                [Advance 61000000000] ++ Start 1 (RLock "l2" doc "b" minute) :: after 5 2 ++ after 1 1 ++
                Start 2 (RLock "l3" doc "c" minute) :: after 5 3)%list (init (∅ : server json) now0) in
  (holder s 2, holder s 3) = (Some "b", Some "c").
Proof. vm_compute. reflexivity. Qed.

(** The clean-up of an expired lock may delete the lock of the next agent. *)
Example stale_cleanup_gives_twice :
  let s := run (Start 0 (RLock "l1" doc "a" minute) :: after 5 0 ++ Start 0 (RExtend doc "a" 0) :: after 3 1 ++ [Advance 1] ++
                Start 0 (RIsLocked doc) :: after 2 2 ++ Start 1 (RIsLocked doc) :: after 3 3 ++
                Start 1 (RLock "l2" doc "b" minute) :: after 5 4 ++ after 1 2 ++
                Start 2 (RLock "l3" doc "c" minute) :: after 5 5)%list (init (∅ : server json) now0) in
  (holder s 4, holder s 5) = (Some "b", Some "c").
Proof. vm_compute. reflexivity. Qed.

(** A lock for half an hour is cut to what the refreshing of an earlier lock of the same agent, which it forgot
    to release, leaves of it: ten times five minutes from the last tick. *)
Definition tick (i : nat) : list label := Advance 30000000000 :: Start 0 RRefresh :: after 6 i.
Definition ticks (n : nat) : list label := concat (map tick (seq 2 n)).
Example refresh_shortens_a_later_lock :
  let s := run (Start 0 (RLock "l1" doc "a" minute) :: after 5 0 ++ [Advance 61000000000] ++
                Start 0 (RLock "l2" doc "a" (30 * minute)) :: after 5 1 ++ ticks 11 ++ [Advance 300000000000] ++
                Start 1 (RLock "l3" doc "b" minute) :: after 5 13)%list (init (∅ : server json) now0) in
  (holder s 1, holder s 13) = (Some "a", Some "b").
Proof. vm_compute. reflexivity. Qed.

(** Two agents lock the same section. *)
Example section_given_twice :
  let s := run (Start 0 (RLockSection "l1" doc "x" "a" minute) :: Start 1 (RLockSection "l2" doc "x" "b" minute) ::
                after 2 0 ++ after 2 1 ++ after 4 0 ++ after 4 1)%list (init (∅ : server json) now0) in
  match answer 0 s, answer 1 s with
  | Some (Section_ (Ok l)), Some (Section_ (Ok l')) => (SectionID l, AgentID (lock l), SectionID l', AgentID (lock l')) = ("x", "a", "x", "b")
  | _, _ => False
  end.
Proof. vm_compute. reflexivity. Qed.

(** Extended by nothing, a lock has expired but its key stays. *)
Definition left_behind : system :=
  run (Start 0 (RLock "l1" doc "a" minute) :: after 5 0 ++ Start 0 (RExtend doc "a" 0) :: after 3 1 ++ [Advance 3600000000000])%list
    (init (∅ : server json) now0).
Lemma expired_lock_blocks_witness :
  idles (LockDocument "l2" doc "b" minute) 1 left_behind (λ r, is_ok r = false).
Proof.
  eapply expired_lock_blocks; [intros t; reflexivity|vm_compute; reflexivity|reflexivity|vm_compute; reflexivity].
Defined.
End examples.
