(* ===== verification/Storage.v ===== *)
(** * Storage: what the repositories share

    The retries, errors and queries of [pkg/repository/postgres/base_repository.go], and JSON
    columns.  What passes through a JSONB column comes back as JSON: numbers as [float64],
    times and identifiers as text. *)

From stdpp Require Import base decidable gmap strings list.
From Stdlib Require Import ZArith Lia.
From S2P Require Import Prelude GoFloat GoStrings GoAny ServiceErrors.

Local Open Scope string_scope.
Local Open Scope Z_scope.

Notation JSONMap := (gmap string any).

Definition AUuid (id : UUID) : any := AOther "uuid.UUID" (Z.of_N id).
Definition ATime (t : Z) : any := AOther "time.Time" t.

(** The instant of a call, and the error that the database reports for an operation: on its
    first attempt, its second, and so on. *)
Record database := MkDatabase {
  db_now : Z;
  fault : string -> nat -> option error;
}.

(** What the formats of the database and of [encoding/json] do to values of Go: text that is
    not UTF-8, [float32] numbers, values with a textual form; a timestamp keeps microseconds. *)
Class Encoding := {
  json_string : string -> string;
  json_float32 : float64 -> float64;
  json_other : string -> Z -> string;
  db_time : Z -> Z;
}.

(** [interfaces.ErrDuplicate] and the like. *)
Definition ErrDuplicate : error := External "entity already exists".
Definition ErrOptimisticLock : error := External "optimistic lock failed".
Definition ErrValidation : error := External "validation failed".

Section encoding.
Context {enc : Encoding}.

Definition f64_marshals (f : float64) : bool :=
  match f64_trunc f with Some _ => true | None => false end.

(** [json.Marshal] and then [json.Unmarshal] into an [interface{}]; [None]: a number has no
    JSON form. *)
Fixpoint json (v : any) : option any :=
  match v with
  | ANil => Some ANil
  | ABool b => Some (ABool b)
  | AInt z | AInt32 z | AInt64 z => Some (AFloat (f64_of_Z z))
  | AFloat32 f => if f64_marshals f then Some (AFloat (json_float32 f)) else None
  | AFloat f => if f64_marshals f then Some (AFloat f) else None
  | AString s => Some (AString (json_string s))
  | AList l => AList <$> mapM id (map json l)
  | AStrings l => Some (AList (AString <$> (json_string <$> l)))
  | AInts l => Some (AList ((λ z, AFloat (f64_of_Z z)) <$> l))
  | AFloats l => if forallb f64_marshals l then Some (AList (AFloat <$> l)) else None
  | AMap m =>
      let m := json <$> m in
      if bool_decide (map_Forall (λ _ v, is_Some v) m) then Some (AMap (omap id m)) else None
  | AOther ty x => Some (AString (json_other ty x))
  end.

Definition json_map (m : JSONMap) : option JSONMap :=
  match json (AMap m) with Some (AMap m) => Some m | _ => None end.

Definition marshal (m : JSONMap) (what : string) : result error JSONMap :=
  match json_map m with
  | Some m => Ok m
  | None => Err (Wrapped ("failed to marshal " +:+ what) (External "json: unsupported value"))
  end.

End encoding.

(** ** [base_repository.go] *)

(** An error of the driver with an SQLSTATE is [External] of the code. *)
Definition TranslateError (entity : string) (err : error) : error :=
  match err with
  | External "23505" => ErrDuplicate
  | External "23503" => Wrapped "foreign key constraint violation" ErrValidation
  | External "23502" => Wrapped "required field missing" ErrValidation
  | External "23514" => Wrapped "check constraint violation" ErrValidation
  | External "40001" => ErrOptimisticLock
  | err => Wrapped ("database error for " +:+ entity) err
  end.

(** Comparison with the sentinel values themselves: a wrapped one is another error. *)
Definition no_retry (err : error) : bool :=
  match err with
  | ErrNotFound => true
  | External name => String.eqb name "entity already exists" || String.eqb name "validation failed"
  | _ => false
  end.

Fixpoint attempts {A} (n i : nat) (lastErr : error) (fn : nat -> result error A) : result error A :=
  match n with
  | O => Err (Wrapped "query failed after 3 attempts" lastErr)
  | S n =>
      match fn i with
      | Ok a => Ok a
      | Err err => if no_retry err then Err err else attempts n (S i) err fn
      end
  end.

Definition maxRetries : nat := 3.

(** The context is not cancelled meanwhile. *)
Definition ExecuteQueryWithRetry {A} (fn : nat -> result error A) : result error A :=
  attempts maxRetries 0 (External "<nil>") fn.

(** A statement, or the error that the database answers instead. *)
Definition query {A} (d : database) (operation : string) (i : nat) (err : error -> error)
    (m : result error A) : result error A :=
  match fault d operation i with Some e => Err (err e) | None => m end.

(** An encoding for examples: text and times are unchanged. *)
Definition plain_encoding : Encoding :=
  {| json_string s := s; json_float32 f := f; json_other ty _ := ty; db_time t := t |}.

Definition clean (t : Z) : database := MkDatabase t (λ _ _, None).

(** ** Laws *)

Section retry.
Context {A : Type}.
Implicit Types fn : nat -> result error A.

Definition retries (fn : nat -> result error A) (i : nat) : Prop :=
  exists e, fn i = Err e /\ no_retry e = false.

Lemma attempts_ok n i last fn a :
  attempts n i last fn = Ok a <->
  exists k, (k < n)%nat /\ fn (i + k)%nat = Ok a /\ forall j, (j < k)%nat -> retries fn (i + j).
Proof.
  revert i last. induction n as [|n IH]; intros i last; simpl.
  { split; [done|]. intros (k & Hk & _). lia. }
  destruct (fn i) as [b|e] eqn:Hi.
  - split.
    + intros [= ->]. exists 0%nat. rewrite Nat.add_0_r. split_and!; [lia|done|lia].
    + intros ([|k] & _ & Hk & Hj); [rewrite Nat.add_0_r in Hk; congruence|].
      destruct (Hj 0%nat ltac:(lia)) as (e & He & _). rewrite Nat.add_0_r in He. congruence.
  - destruct (no_retry e) eqn:He.
    + split; [done|]. intros ([|k] & _ & Hk & Hj); [rewrite Nat.add_0_r in Hk; congruence|].
      destruct (Hj 0%nat ltac:(lia)) as (e' & He' & ?). rewrite Nat.add_0_r in He'. congruence.
    + rewrite IH. split.
      * intros (k & Hk & Ha & Hj). exists (S k). rewrite Nat.add_succ_r. split_and!; [lia|done|].
        intros [|j] Hlt; [rewrite Nat.add_0_r; by exists e|].
        rewrite Nat.add_succ_r. apply (Hj j). lia.
      * intros ([|k] & Hk & Ha & Hj); [rewrite Nat.add_0_r in Ha; congruence|].
        exists k. rewrite Nat.add_succ_r in Ha. split_and!; [lia|done|].
        intros j Hlt. specialize (Hj (S j) ltac:(lia)). by rewrite Nat.add_succ_r in Hj.
Qed.

Lemma attempts_gives_up n i last fn :
  (forall j, (j < n)%nat -> retries fn (i + j)) ->
  exists e, attempts n i last fn = Err (Wrapped "query failed after 3 attempts" e) /\
    (n = 0%nat /\ e = last \/ exists m, n = S m /\ fn (i + m)%nat = Err e).
Proof.
  revert i last. induction n as [|n IH]; intros i last H; simpl.
  { exists last. auto. }
  destruct (H 0%nat ltac:(lia)) as (e & He & Hn). rewrite Nat.add_0_r in He. rewrite He, Hn.
  destruct (IH (S i) e) as (e' & Ha & Hcase).
  { intros j Hj. specialize (H (S j) ltac:(lia)). by rewrite Nat.add_succ_r in H. }
  exists e'. split; [done|]. right. exists n. split; [done|].
  destruct Hcase as [[-> ->]|(m & -> & Hm)]; [by rewrite Nat.add_0_r|by rewrite Nat.add_succ_r].
Qed.
End retry.

(** A query that never fails for reasons of the database runs once. *)
Lemma retry_first {A} (fn : nat -> result error A) a :
  fn 0%nat = Ok a -> ExecuteQueryWithRetry fn = Ok a.
Proof. intros H. unfold ExecuteQueryWithRetry. simpl. by rewrite H. Qed.

Lemma query_ok {A} (fn : nat -> result error A) a :
  ExecuteQueryWithRetry fn = Ok a -> exists k, fn k = Ok a.
Proof. intros H. apply (attempts_ok 3 0 (External "<nil>")) in H as (k & _ & Hk & _). by exists k. Qed.

(** A query is tried up to three times: it succeeds with the answer of its first successful
    attempt, when each attempt before failed with an error that is not final; after three such
    failures the caller gets the last of them, wrapped. *)
Theorem query_retries {A} (fn : nat -> result error A) :
  (forall a, ExecuteQueryWithRetry fn = Ok a <->
     exists k, (k < 3)%nat /\ fn k = Ok a /\ forall j, (j < k)%nat -> retries fn j) /\
  ((forall j, (j < 3)%nat -> retries fn j) ->
     exists e, fn 2%nat = Err e /\
  ExecuteQueryWithRetry fn = Err (Wrapped "query failed after 3 attempts" e)).
Proof.
  split; [intros a; apply (attempts_ok 3 0)|]. intros Hr.
  destruct (attempts_gives_up 3 0 (External "<nil>") fn Hr) as (e & He & [[? _]|(m & [= <-] & Hm)]); [done|].
  by exists e.
Qed.
