(* ===== verification/ServiceInterfaces.v ===== *)
(** * ServiceInterfaces: what the services are configured with

    The interfaces of [task_service.go], [pkg/rules/interfaces.go] and
    [pkg/auth/authorizer.go] that [pkg/services] calls, as classes: the clients are proved
    for every implementation.  [None] is a collaborator that is not configured. *)

From stdpp Require Import base decidable gmap strings list.
From Stdlib Require Import ZArith.
From S2P Require Import Prelude GoFloat GoAny ServiceErrors.

Local Open Scope string_scope.

Module Agent.
(** [models.Agent], without its time stamps and attribution. *)
Record t := Mk {
  ID : string;
  TenantID : UUID;
  Name : string;
  ModelID : string;
  Type_ : string;
  Status : string;
  Capabilities : list string;
  Metadata : option (gmap string any);
}.
End Agent.

(** [models.AgentWorkload], without the tasks by type and the estimated time. *)
Module Workload.
Record t := Mk {
  ActiveTasks : Z;
  QueuedTasks : Z;
  LoadScore : float64;
}.
End Workload.

(** [GetAgent] may return a nil agent without an error.  The implementations do not panic. *)
Class AgentService := {
  GetAgent : string -> result error (option Agent.t);
  GetAvailableAgents : result error (list Agent.t);
  GetAgentWorkload : string -> result error Workload.t;
  GetAgentCapabilities : string -> result error (list string);
}.

Module Rules.
(** [rules.Rule], without its expression and settings. *)
Record Rule := MkRule {
  ID : UUID;
  Name : string;
  Category : string;
}.

(** [rules.Decision]. *)
Record Decision := Mk {
  Allowed : bool;
  Reason : string;
  Score : float64;
  Metadata : gmap string any;
}.

(** [rules.Engine]: a nil decision is [None].  Of the data that it is given it may depend on
    the agent, if there is one. *)
Record Engine := MkEngine {
  GetRules : string -> result error (list Rule);
  Evaluate : UUID -> option Agent.t -> result error (option Decision);
}.
End Rules.

Module Auth.
Record Permission := MkPermission {
  Resource : string;
  Action : string;
  Conditions : gmap string any;
}.
Record Decision := MkDecision {
  Allowed : bool;
  Reason : string;
}.
Definition Authorizer : Type := Permission -> Decision.
End Auth.

(** [if s.config.Authorizer != nil { ... return UnauthorizedError }]. *)
Definition authorize (a : option Auth.Authorizer) (p : Auth.Permission) (what : string) : res unit :=
  match a with
  | None => Returns ()
  | Some a =>
      let decision := a p in
      if Auth.Allowed decision then Returns ()
      else Fails (UnauthorizedError what (Auth.Reason decision))
  end.
