(* ===== verification/RuleEngine.v ===== *)
(** * RuleEngine: the rule engine ([pkg/rules/engine.go])

    Rules are reached by pointer from two maps, by name and by category; the pool holds the
    objects.  An evaluator is a closure over the text of its expression, and is that text
    here.  [LoadRules] and the reload differ in their log lines only.  Metrics and log lines
    are left out; each method holds the lock while it works. *)

From stdpp Require Import base decidable gmap strings list relations.
From Stdlib Require Import ZArith Lia Ascii.
From S2P Require Import Prelude GoFloat Utf8 GoStrings GoParse GoAny ServiceErrors.
From S2P Require Import ServiceInterfaces Storage Pool.

Local Open Scope string_scope.
Local Open Scope Z_scope.

(** ** Expressions *)

(** [%v] of the values that are not modelled. *)
Section expressions.
Context (other : string -> Z -> string).

Definition toFloat64 (val : any) : option float64 :=
  match val with
  | AFloat v | AFloat32 v => Some v
  | AInt v | AInt32 v | AInt64 v => Some (f64_of_Z v)
  | AOther type v => if existsb (String.eqb type) ["uint"; "uint32"; "uint64"] then Some (f64_of_Z v) else None
  | AString v => ParseFloat v
  | _ => None
  end.

Definition equals (left right : any) : bool :=
  match toFloat64 left, toFloat64 right with
  | Some leftNum, Some rightNum => f64_eq leftNum rightNum
  | _, _ => String.eqb (sprint other left) (sprint other right)
  end.

Definition greaterThan (left right : any) : result error bool :=
  match toFloat64 left, toFloat64 right with
  | Some leftNum, Some rightNum => Ok (f64_lt rightNum leftNum)
  | _, _ => Err (Errorf (Text "cannot compare non-numeric values with >"))
  end.
Definition lessThan (left right : any) : result error bool :=
  match toFloat64 left, toFloat64 right with
  | Some leftNum, Some rightNum => Ok (f64_lt leftNum rightNum)
  | _, _ => Err (Errorf (Text "cannot compare non-numeric values with <"))
  end.

Definition or_equal (left right : any) (r : result error bool) : result error bool :=
  match r with Ok b => Ok (b || equals left right) | Err e => Err e end.

Definition compare (left : any) (op : string) (right : any) : result error bool :=
  if String.eqb op "==" then Ok (equals left right)
  else if String.eqb op "!=" then Ok (negb (equals left right))
  else if String.eqb op ">" then greaterThan left right
  else if String.eqb op "<" then lessThan left right
  else if String.eqb op ">=" then or_equal left right (greaterThan left right)
  else if String.eqb op "<=" then or_equal left right (lessThan left right)
  else Err (Errorf (Sprintf "unsupported operator: %s" [AString op])).

(** The operators in the order in which they are looked for. *)
Definition operators : list string := ["=="; "!="; ">="; "<="; ">"; "<"].

Fixpoint split_comparison (ops : list string) (expr : string) : option (string * string * string) :=
  match ops with
  | [] => None
  | op :: ops =>
      let sep := " " +:+ op +:+ " " in
      if Contains expr sep
      then match cut expr sep with (field, Some value) => Some (field, op, value) | _ => None end
      else split_comparison ops expr
  end.

Definition quoted (q : string) (value : string) : bool := HasPrefix value q && HasSuffix value q.

(** A lone quote is a prefix and a suffix. *)
Definition parse_value (value : string) : any :=
  if quoted "'" value then AString (TrimByte "'"%char value)
  else if quoted (String (ascii_of_nat 34) EmptyString) value
  then AString (TrimByte (ascii_of_nat 34) value)
  else
    match ParseFloat value with
    | Some v => AFloat v
    | None => match ParseBool value with Some v => ABool v | None => AString value end
    end.

(** A field that is missing makes any comparison false. *)
Definition evaluate_comparison (expr : string) (params : JSONMap) : result error any :=
  match split_comparison operators expr with
  | None => Err (Errorf (Sprintf "unsupported expression: %s" [AString expr]))
  | Some (field, op, value) =>
      match params !! TrimSpace field with
      | None => Ok (ABool false)
      | Some fieldValue =>
          match compare fieldValue op (parse_value (TrimSpace value)) with
          | Ok b => Ok (ABool b)
          | Err e => Err e
          end
      end
  end.

(** [result.(bool)]. *)
Definition is_true (v : any) : bool := match v with ABool b => b | _ => false end.

Section parts.
Context (evaluate : string -> result error any).

Fixpoint all_parts (parts : list string) : result error any :=
  match parts with
  | [] => Ok (ABool true)
  | part :: parts =>
      match evaluate part with
      | Err e => Err e
      | Ok v => if is_true v then all_parts parts else Ok (ABool false)
      end
  end.
Fixpoint any_part (parts : list string) : result error any :=
  match parts with
  | [] => Ok (ABool false)
  | part :: parts =>
      match evaluate part with
      | Err e => Err e
      | Ok v => if is_true v then Ok (ABool true) else any_part parts
      end
  end.
End parts.

(** The recursion is at most three calls deep: [evaluate_no_fuel]. *)
Fixpoint evaluateExpression (fuel : nat) (expr : string) (params : JSONMap) : result error any :=
  match fuel with
  | O => Err (External "out of fuel")
  | S fuel =>
      let expr := TrimSpace expr in
      let evaluate part := evaluateExpression fuel part params in
      if Contains expr " && " then all_parts evaluate (Split expr " && ")
      else if Contains expr " || " then any_part evaluate (Split expr " || ")
      else evaluate_comparison expr params
  end.

Definition evaluate (expr : string) (params : JSONMap) : result error any := evaluateExpression 3 expr params.
End expressions.

(** ** The engine *)

(** [rules.Rule]. *)
Module Rule.
Record t := Mk {
  ID : UUID;
  Name : string;
  Category : string;
  Expression : string;
  Priority : Z;
  Enabled : bool;
  Metadata : JSONMap;
}.

Definition set_ID (x : UUID) (r : t) : t :=
  Mk x (Name r) (Category r) (Expression r) (Priority r) (Enabled r) (Metadata r).
Definition set_Name (x : string) (r : t) : t :=
  Mk (ID r) x (Category r) (Expression r) (Priority r) (Enabled r) (Metadata r).
Definition set_Category (x : string) (r : t) : t :=
  Mk (ID r) (Name r) x (Expression r) (Priority r) (Enabled r) (Metadata r).
Definition set_Expression (x : string) (r : t) : t :=
  Mk (ID r) (Name r) (Category r) x (Priority r) (Enabled r) (Metadata r).
Definition set_Priority (x : Z) (r : t) : t :=
  Mk (ID r) (Name r) (Category r) (Expression r) x (Enabled r) (Metadata r).
Definition set_Enabled (x : bool) (r : t) : t :=
  Mk (ID r) (Name r) (Category r) (Expression r) (Priority r) x (Metadata r).
Definition set_Metadata (x : JSONMap) (r : t) : t :=
  Mk (ID r) (Name r) (Category r) (Expression r) (Priority r) (Enabled r) x.
End Rule.

Record Config := MkConfig { HotReload : bool; ReloadInterval : Z; CacheDuration : Z; MaxRules : Z }.

(** [rules] is the pool; [loadFunc] says if there is a loader, whose answers are arguments. *)
Record engine := MkEngine {
  rules : pool Rule.t;
  rulesByCategory : gmap string (list nat);
  evaluator : gmap string string;
  config : Config;
  loadFunc : bool;
  stopped : bool;
}.

Definition NewEngine (c : Config) : engine :=
  MkEngine empty_pool ∅ ∅
    (MkConfig (HotReload c) (if ReloadInterval c =? 0 then 30 * second else ReloadInterval c)
       (if CacheDuration c =? 0 then 5 * minute else CacheDuration c)
       (if MaxRules c =? 0 then 1000 else MaxRules c)) false false.

Section engine.
Context (other : string -> Z -> string).
(** The order of Go's maps: filters, and the rules by name. *)
Context (range : JSONMap -> list (string * any)) (range_rules : gmap string nat -> list (string * nat)).
Implicit Types (e : engine) (r : Rule.t).

Definition object (e : engine) (a : nat) : option Rule.t := store (rules e) !! a.

Definition parseExpression (expression : string) : result error (JSONMap -> result error any) :=
  Ok (evaluate other expression).

Definition addToCategory (category : string) (a : nat) (m : gmap string (list nat)) : gmap string (list nat) :=
  if String.eqb category "" then m else <[category := (get [] m category ++ [a])%list]> m.

(** The first of the category with this identifier. *)
Fixpoint drop_id (e : engine) (id : UUID) (l : list nat) : list nat :=
  match l with
  | [] => []
  | a :: l => if match object e a with Some r => (Rule.ID r =? id)%N | None => false end
              then l else a :: drop_id e id l
  end.
Definition removeFromCategory (e : engine) (r : Rule.t) (m : gmap string (list nat)) : gmap string (list nat) :=
  if String.eqb (Rule.Category r) "" then m
  else <[Rule.Category r := drop_id e (Rule.ID r) (get [] m (Rule.Category r))]> m.

Definition addRuleInternal (r : Rule.t) (e : engine) : result error engine :=
  if String.eqb (Rule.Name r) "" then Err (Errorf (Text "rule name is required"))
  else if String.eqb (Rule.Expression r) "" then Err (Errorf (Text "rule expression is required"))
  else
    match parseExpression (Rule.Expression r) with
    | Err err => Err (Wrapped "invalid expression" err)
    | Ok _ =>
        let '(a, p) := bind_new (Rule.Name r) r (rules e) in
        Ok (MkEngine p (addToCategory (Rule.Category r) a (rulesByCategory e))
              (<[Rule.Name r := Rule.Expression r]> (evaluator e)) (config e) (loadFunc e) (stopped e))
    end.

(** A rule that is refused is skipped. *)
Definition add_or_skip (e : engine) (r : Rule.t) : engine :=
  match addRuleInternal r e with Ok e => e | Err _ => e end.

Definition LoadRules (l : list Rule.t) (e : engine) : engine :=
  foldl add_or_skip (MkEngine empty_pool ∅ ∅ (config e) (loadFunc e) (stopped e)) l.

Definition SetRuleLoader (given : bool) (e : engine) : result error engine :=
  if given then Ok (MkEngine (rules e) (rulesByCategory e) (evaluator e) (config e) true (stopped e))
  else Err (Errorf (Text "rule loader cannot be nil")).

(** Whether the goroutine is started, which reloads at every tick until it is stopped. *)
Definition StartHotReload (e : engine) : result error () :=
  if negb (HotReload (config e)) then Err (Errorf (Text "hot reload is disabled"))
  else if negb (loadFunc e) then Err (Errorf (Text "no rule loader configured"))
  else Ok ().

Definition StopHotReload (e : engine) : result error engine :=
  if stopped e then Err (Errorf (Text "hot reload already stopped"))
  else Ok (MkEngine (rules e) (rulesByCategory e) (evaluator e) (config e) (loadFunc e) true).

Definition reload (loaded : result error (list Rule.t)) (e : engine) : engine * result error () :=
  if negb (loadFunc e) then (e, Ok ())
  else match loaded with
       | Err err => (e, Err (Wrapped "failed to load rules" err))
       | Ok l => (LoadRules l e, Ok ())
       end.

Definition convertToParams (data : any) : JSONMap :=
  match as_map data with Some m => m | None => {["data" := data]} end.

(** [fmt.Sprintf("Score: %.2f", v)] is the argument [score_text]. *)
Definition decision_of (score_text : float64 -> string) (metadata : JSONMap) (v : any) : result error Rules.Decision :=
  match v with
  | ABool b => Ok (Rules.Mk b (if b then "Rule passed" else "Rule failed") (f64_of_Z 0) metadata)
  | AFloat f => Ok (Rules.Mk (f64_lt (f64_const 1 2) f) (score_text f) f metadata)
  | _ => Err (Errorf (Sprintf "unexpected result type: %T" [v]))
  end.

Definition Evaluate (score_text : float64 -> string) (ruleName : string) (data : any) (e : engine)
    : result error Rules.Decision :=
  match names (rules e) !! ruleName ≫= object e with
  | None => Err (Errorf (Sprintf "rule not found: %s" [AString ruleName]))
  | Some rule =>
      if negb (Rule.Enabled rule) then Ok (Rules.Mk false "Rule is disabled" (f64_of_Z 0) ∅)
      else
        match evaluator e !! ruleName with
        | None => Err (Errorf (Sprintf "no evaluator for rule: %s" [AString ruleName]))
        | Some expression =>
            match evaluate other expression (convertToParams data) with
            | Err err => Err (Wrapped "failed to evaluate rule" err)
            | Ok v => decision_of score_text (Rule.Metadata rule) v
            end
        end
  end.

(** Comparing metadata of a type that has no equality panics. *)
Fixpoint metadata_matches (r : Rule.t) (l : list (string * any)) : res bool :=
  match l with
  | [] => Returns true
  | (k, v) :: l =>
      match any_eq (field (Rule.Metadata r) k) v with
      | Uncomparable => Panics
      | Compared b => if b then metadata_matches r l else Returns false
      end
  end.

Definition matches_one (r : Rule.t) (filter : string * any) : res bool :=
  let '(key, value) := filter in
  if String.eqb key "enabled" then
    Returns match as_bool value with Some enabled => Bool.eqb (Rule.Enabled r) enabled | None => true end
  else if String.eqb key "priority" then
    Returns match as_int value with Some priority => Rule.Priority r =? priority | None => true end
  else if String.eqb key "metadata" then
    match as_map value with Some metadata => metadata_matches r (range metadata) | None => Returns true end
  else Returns true.

Fixpoint matches_all (r : Rule.t) (l : list (string * any)) : res bool :=
  match l with
  | [] => Returns true
  | filter :: l => matches_one r filter ≫= λ b : bool, if b then matches_all r l else Returns false
  end.
Definition matchesFilters (r : Rule.t) (filters : JSONMap) : res bool := matches_all r (range filters).

Fixpoint select_rules (filters : JSONMap) (l : list Rule.t) : res (list Rule.t) :=
  match l with
  | [] => Returns []
  | r :: l =>
      matchesFilters r filters ≫= λ b : bool,
      select_rules filters l ≫= λ rest,
      Returns (if b then r :: rest else rest)
  end.

Definition GetRules (category : string) (filters : JSONMap) (e : engine) : res (list Rule.t) :=
  let addresses := if String.eqb category "" then (range_rules (names (rules e))).*2
                   else get [] (rulesByCategory e) category in
  select_rules filters (omap (object e) addresses).

Definition RegisterRule (new_id : UUID) (r : Rule.t) (e : engine) : result error engine :=
  if MaxRules (config e) <=? Z.of_nat (size (names (rules e)))
  then Err (Errorf (Sprintf "maximum number of rules (%d) reached" [AInt (MaxRules (config e))]))
  else addRuleInternal (if (Rule.ID r =? Nil)%N then Rule.set_ID new_id r else r) e.

(** The updates, one after the other, to the object at [a]. *)
Definition write_rule (a : nat) (f : Rule.t -> Rule.t) (e : engine) : engine :=
  MkEngine (at_address a (λ r, ((), f r)) (rules e)).2 (rulesByCategory e) (evaluator e) (config e)
    (loadFunc e) (stopped e).
Definition set_categories (m : gmap string (list nat)) (e : engine) : engine :=
  MkEngine (rules e) m (evaluator e) (config e) (loadFunc e) (stopped e).
Definition set_evaluator (name expression : string) (e : engine) : engine :=
  MkEngine (rules e) (rulesByCategory e) (<[name := expression]> (evaluator e)) (config e) (loadFunc e) (stopped e).

Definition if_some {A} (x : option A) (f : A -> engine -> engine) (e : engine) : engine :=
  match x with Some x => f x e | None => e end.
Definition with_rule (a : nat) (f : Rule.t -> engine -> engine) (e : engine) : engine :=
  match object e a with Some r => f r e | None => e end.

Definition update_category (a : nat) (category : string) (e : engine) : engine :=
  with_rule a (λ r e,
    let e := set_categories (removeFromCategory e r (rulesByCategory e)) e in
    let e := write_rule a (Rule.set_Category category) e in
    set_categories (addToCategory category a (rulesByCategory e)) e) e.

(** The evaluator is stored under the name that the rule has by now. *)
Definition update_expression (a : nat) (expression : string) (e : engine) : engine :=
  let e := write_rule a (Rule.set_Expression expression) e in
  with_rule a (λ r, set_evaluator (Rule.Name r) expression) e.

Definition apply_updates (a : nat) (updates : JSONMap) (e : engine) : engine :=
  let e := if_some (as_string (field updates "name")) (λ x, write_rule a (Rule.set_Name x)) e in
  let e := if_some (as_string (field updates "category")) (update_category a) e in
  let e := if_some (as_string (field updates "expression")) (update_expression a) e in
  let e := if_some (as_int (field updates "priority")) (λ x, write_rule a (Rule.set_Priority x)) e in
  let e := if_some (as_bool (field updates "enabled")) (λ x, write_rule a (Rule.set_Enabled x)) e in
  if_some (as_map (field updates "metadata")) (λ x, write_rule a (Rule.set_Metadata x)) e.

Definition has_rule_id (e : engine) (ruleID : UUID) (a : nat) : bool :=
  match object e a with Some r => (Rule.ID r =? ruleID)%N | None => false end.

Definition UpdateRule (ruleID : UUID) (updates : JSONMap) (e : engine) : result error engine :=
  match List.find (has_rule_id e ruleID) (range_rules (names (rules e))).*2 with
  | None => Err (Errorf (Sprintf "rule not found: %s" [AUuid ruleID]))
  | Some a => Ok (apply_updates a updates e)
  end.
End engine.

(** ** Laws: expressions *)

Section expression_laws.
Context (other : string -> Z -> string).
Notation comparison_ expr params := (evaluate_comparison other (TrimSpace expr) params).

(** What an expression means, without fuel: [&&] outside of [||]. *)
Definition disjunction (params : JSONMap) (expr : string) : result error any :=
  let expr := TrimSpace expr in
  if Contains expr " || " then any_part (λ part, comparison_ part params) (Split expr " || ")
  else evaluate_comparison other expr params.
Definition conjunction (params : JSONMap) (expr : string) : result error any :=
  if Contains (TrimSpace expr) " && "
  then all_parts (disjunction params) (Split (TrimSpace expr) " && ")
  else disjunction params expr.

Lemma all_parts_ext f g l : (forall p, p ∈ l -> f p = g p) -> all_parts f l = all_parts g l.
Proof.
  induction l as [|p l IH]; [done|]. intros H. simpl. rewrite (H p) by (by left).
  destruct (g p) as [v|]; [|done]. destruct (is_true v); [|done]. apply IH. intros q Hq. apply H. by right.
Qed.
Lemma any_part_ext f g l : (forall p, p ∈ l -> f p = g p) -> any_part f l = any_part g l.
Proof.
  induction l as [|p l IH]; [done|]. intros H. simpl. rewrite (H p) by (by left).
  destruct (g p) as [v|]; [|done]. destruct (is_true v); [done|]. apply IH. intros q Hq. apply H. by right.
Qed.

Lemma evaluate_atom n expr params :
  Contains expr " && " = false -> Contains expr " || " = false ->
  evaluateExpression other (S n) expr params = comparison_ expr params.
Proof.
  intros Ha Ho. cbn [evaluateExpression].
  rewrite !(part_of_contains _ _ _ (part_of_trim_space expr)) by done. done.
Qed.

Lemma evaluate_disjunction n expr params :
  Contains expr " && " = false -> evaluateExpression other (S (S n)) expr params = disjunction params expr.
Proof.
  intros Ha. assert (Contains (TrimSpace expr) " && " = false) as Ht
    by (by apply (part_of_contains _ _ _ (part_of_trim_space expr))).
  remember (S n) as m. cbn [evaluateExpression]. rewrite Ht. unfold disjunction.
  destruct (Contains _ " || "); [|done]. apply any_part_ext. intros p Hp. subst m.
  apply (Split_parts " || ") in Hp as [Hpart Hc]; [|done].
  apply evaluate_atom; [|done]. by apply (part_of_contains _ _ _ Hpart).
Qed.

Lemma evaluate_conjunction n expr params :
  evaluateExpression other (S (S (S n))) expr params = conjunction params expr.
Proof.
  unfold conjunction. destruct (Contains (TrimSpace expr) " && ") eqn:Ha.
  - remember (S (S n)) as m. cbn [evaluateExpression]. rewrite Ha. apply all_parts_ext. intros p Hp. subst m.
    apply (Split_parts " && ") in Hp as [_ Hc]; [|done]. by apply evaluate_disjunction.
  - remember (S (S n)) as m. cbn [evaluateExpression]. rewrite Ha. unfold disjunction.
    destruct (Contains _ " || "); [|done]. apply any_part_ext. intros p Hp. subst m.
    apply (Split_parts " || ") in Hp as [Hpart Hc]; [|done].
    apply evaluate_atom; [|done]. by apply (part_of_contains _ _ _ Hpart).
Qed.
End expression_laws.

(** *** Expressions that are printed from comparisons *)

Record atom := MkAtom { a_field : string; a_op : string; a_value : string }.

(** A word of printable ASCII without [&] and [|]. *)
Definition word_char (b : Z) : bool := between 33 126 b && negb (b =? 38) && negb (b =? 124).
Definition word (s : string) : bool := negb (String.eqb s "") && forallb word_char (bytes_of s).
Definition atom_ok (a : atom) : bool := word (a_field a) && existsb (String.eqb (a_op a)) operators && word (a_value a).

Definition show_atom (a : atom) : string := a_field a +:+ (String " " (a_op a +:+ " ") +:+ a_value a).
Definition show_any (l : list atom) : string := Join (show_atom <$> l) " || ".
Definition show_all (l : list (list atom)) : string := Join (show_any <$> l) " && ".

(** The intended meaning: from left to right, until the result is known or a comparison fails. *)
Definition eval_atom (other : string -> Z -> string) (params : JSONMap) (a : atom) : result error bool :=
  match params !! a_field a with
  | None => Ok false
  | Some v => compare other v (a_op a) (parse_value (a_value a))
  end.
Fixpoint until {A} (stop : bool) (f : A -> result error bool) (l : list A) : result error bool :=
  match l with
  | [] => Ok (negb stop)
  | x :: l => match f x with Err e => Err e | Ok b => if Bool.eqb b stop then Ok stop else until stop f l end
  end.
Definition eval_any other params (l : list atom) : result error bool := until true (eval_atom other params) l.
Definition eval_all other params (l : list (list atom)) : result error bool := until false (eval_any other params) l.

Definition boolean (r : result error bool) : result error any :=
  match r with Ok b => Ok (ABool b) | Err e => Err e end.

Section printed.
Implicit Types (a : atom).

Lemma word_bytes s : word s = true -> Forall (λ b, word_char b = true) (bytes_of s) /\ s ≠ "".
Proof.
  unfold word. intros [Hne Hf]%andb_prop. split.
  - apply Forall_forall. intros b Hb. by apply (proj1 (forallb_forall _ _) Hf), list_elem_of_In.
  - intros ->. done.
Qed.

Lemma word_char_range b : word_char b = true -> 0 <= b < 0x80 /\ IsSpace b = false.
Proof.
  unfold word_char, between. rewrite !andb_true_iff, !Z.leb_le. intros [[[H1 H2] _] _]. split; [lia|].
  unfold IsSpace, between. apply not_true_iff_false.
  rewrite !orb_true_iff, !andb_true_iff, !Z.leb_le, !Z.eqb_eq. lia.
Qed.

Lemma word_neat s : word s = true -> neat s.
Proof.
  intros [Hs Hne]%word_bytes.
  assert (bytes_of s ≠ []) as Hb by (by destruct s).
  assert (ascii_only (bytes_of s)) as Ha by (eapply Forall_impl; [exact Hs|]; intros b Hb'; by apply word_char_range).
  split; [done| |].
  - destruct (bytes_of s) as [|b bs]; [done|]. apply Forall_cons in Hs as [Hb' _]. exists b.
    split; [done|]. by apply word_char_range.
  - destruct (last (bytes_of s)) as [b|] eqn:Hl; [|by apply last_None in Hl].
    exists b. split; [done|]. apply last_Some_elem_of in Hl. rewrite Forall_forall in Hs.
    by apply word_char_range, Hs.
Qed.

Lemma free_bytes c s : free_of c s = true <-> Forall (λ b, b ≠ Z.of_N (N_of_ascii c)) (bytes_of s).
Proof.
  unfold bytes_of. induction s as [|x s IH]; [split; [constructor|done]|].
  change (String.list_ascii_of_string (String x s)) with (x :: String.list_ascii_of_string s).
  rewrite fmap_cons, Forall_cons, <-IH. cbn [free_of].
  rewrite andb_true_iff, negb_true_iff. f_equiv. rewrite <-not_true_iff_false, Ascii.eqb_eq. f_equiv.
  split; [by intros ->|]. intros H. apply N2Z.inj in H. by rewrite <-(ascii_N_embedding x), H, ascii_N_embedding.
Qed.

Lemma word_free c s :
  word s = true -> word_char (Z.of_N (N_of_ascii c)) = false -> free_of c s = true.
Proof.
  intros [Hs _]%word_bytes Hc. apply free_bytes. eapply Forall_impl; [exact Hs|]. intros b Hb ->. congruence.
Qed.

Lemma op_facts op :
  existsb (String.eqb op) operators = true ->
  ascii_only (bytes_of (String " " (op +:+ " "))) /\
  free_of "&"%char op = true /\ free_of "|"%char op = true /\ free_of " "%char op = true.
Proof.
  intros H. cbn [existsb operators] in H. rewrite !orb_true_iff in H.
  repeat destruct H as [H|H]; try done; apply String.eqb_eq in H as ->;
    (split_and!; [|done..]); repeat constructor; done.
Qed.

Lemma atom_parts a :
  atom_ok a = true -> word (a_field a) = true /\ existsb (String.eqb (a_op a)) operators = true /\ word (a_value a) = true.
Proof. unfold atom_ok. intros [[? ?]%andb_prop ?]%andb_prop. done. Qed.

Lemma show_atom_neat a : atom_ok a = true -> neat (show_atom a).
Proof.
  intros (Hf & Ho & Hv)%atom_parts. apply neat_app; [by apply word_neat| |by apply word_neat].
  by apply op_facts.
Qed.

Lemma show_atom_free c a :
  atom_ok a = true -> word_char (Z.of_N (N_of_ascii c)) = false -> c ≠ " "%char ->
  free_of c (a_op a) = true -> free_of c (show_atom a) = true.
Proof.
  intros (Hf & _ & Hv)%atom_parts Hc Hne Ho. unfold show_atom.
  change (String " " (a_op a +:+ " ")) with (" " +:+ (a_op a +:+ " ")).
  rewrite !free_app, Ho, (word_free c (a_field a)), (word_free c (a_value a)) by done.
  cbn [free_of]. by destruct (Ascii.eqb_spec " "%char c) as [<-|].
Qed.

Lemma atom_free_amp a : atom_ok a = true -> free_of "&"%char (show_atom a) = true.
Proof. intros H. apply show_atom_free; [done..|]. by apply op_facts, atom_parts. Qed.
Lemma atom_free_bar a : atom_ok a = true -> free_of "|"%char (show_atom a) = true.
Proof. intros H. apply show_atom_free; [done..|]. by apply op_facts, atom_parts. Qed.

Definition group_ok (l : list atom) : Prop := l ≠ [] /\ Forall (λ a, atom_ok a = true) l.

Lemma show_any_neat l : group_ok l -> neat (show_any l).
Proof.
  intros [Hne Hl]. apply neat_Join; [repeat constructor; done|by destruct l|].
  apply Forall_fmap. eapply Forall_impl; [exact Hl|]. apply show_atom_neat.
Qed.
Lemma show_any_free l : group_ok l -> free_of "&"%char (show_any l) = true.
Proof.
  intros [_ Hl]. apply free_Join; [done|]. apply Forall_fmap. eapply Forall_impl; [exact Hl|].
  apply atom_free_amp.
Qed.
End printed.

Section meaning.
Context (other : string -> Z -> string) (params : JSONMap).

Lemma split_atom a ops :
  word (a_field a) = true -> free_of " "%char (a_op a) = true -> word (a_value a) = true ->
  Forall (λ op, free_of " "%char op = true) ops -> existsb (String.eqb (a_op a)) ops = true ->
  split_comparison ops (show_atom a) = Some (a_field a, a_op a, a_value a).
Proof.
  intros Hf Ho Hv. assert (free_of " "%char (a_field a) = true /\ free_of " "%char (a_value a) = true) as [Hf' Hv']
    by (split; by apply word_free).
  induction 1 as [|op ops Hop Hops IH]; [done|]. cbn [existsb split_comparison]. intros Hin.
  change (" " +:+ op +:+ " ") with (String " " (op +:+ " ")). unfold show_atom at 1.
  rewrite contains_word by done. destruct (String.eqb_spec (a_op a) op) as [<-|Hne].
  - unfold show_atom. by rewrite cut_word.
  - by apply IH.
Qed.

Lemma comparison_show a :
  atom_ok a = true ->
  evaluate_comparison other (TrimSpace (show_atom a)) params = boolean (eval_atom other params a).
Proof.
  intros Ha. rewrite trim_neat by (by apply show_atom_neat). apply atom_parts in Ha as (Hf & Ho & Hv).
  unfold evaluate_comparison. rewrite split_atom; [|done|by apply op_facts|done| |done].
  2:{ repeat constructor. }
  unfold eval_atom. rewrite !trim_neat by (by apply word_neat). destruct (params !! a_field a) as [v|]; [|done].
  unfold boolean. by destruct (compare _ _ _ _).
Qed.

Lemma any_part_show l :
  Forall (λ a, atom_ok a = true) l ->
  any_part (λ part, evaluate_comparison other (TrimSpace part) params) (show_atom <$> l)
    = boolean (eval_any other params l).
Proof.
  unfold eval_any. induction 1 as [|a l Ha Hl IH]; [done|]. cbn [fmap list_fmap any_part until].
  rewrite comparison_show by done. destruct (eval_atom other params a) as [b|e]; [|done]. simpl.
  destruct b; [done|exact IH].
Qed.

Lemma disjunction_show l :
  group_ok l -> disjunction other params (show_any l) = boolean (eval_any other params l).
Proof.
  intros Hok. unfold disjunction. rewrite trim_neat by (by apply show_any_neat). destruct Hok as [Hne Hl].
  unfold show_any. destruct l as [|a [|b l]]; [done| |].
  - cbn [fmap list_fmap Join]. apply Forall_cons in Hl as [Ha _].
    rewrite free_not_contains by (done || by apply atom_free_bar).
    rewrite <-(trim_neat (show_atom a)) by (by apply show_atom_neat). rewrite comparison_show by done.
    unfold eval_any. cbn [until]. destruct (eval_atom other params a) as [[]|]; done.
  - cbn [fmap list_fmap]. rewrite Join_contains.
    change (show_atom a :: show_atom b :: list_fmap _ _ show_atom l) with (show_atom <$> (a :: b :: l)).
    rewrite Split_Join; [exact (any_part_show (a :: b :: l) Hl)|done|done|].
    change (show_atom a :: show_atom b :: (show_atom <$> l)) with (show_atom <$> (a :: b :: l)).
    apply Forall_fmap. eapply Forall_impl; [exact Hl|]. apply atom_free_bar.
Qed.

Lemma all_parts_show l :
  Forall group_ok l -> all_parts (disjunction other params) (show_any <$> l) = boolean (eval_all other params l).
Proof.
  unfold eval_all. induction 1 as [|g l Hg Hl IH]; [done|]. cbn [fmap list_fmap all_parts until].
  rewrite disjunction_show by done. destruct (eval_any other params g) as [b|e]; [|done]. simpl.
  destruct b; [exact IH|done].
Qed.
End meaning.

(** ** Laws: the engine *)

Section engine_laws.
Context (other : string -> Z -> string) (range : JSONMap -> list (string * any)).
Context (range_rules : gmap string nat -> list (string * nat)).
Implicit Types (e : engine) (r : Rule.t).

(** Each name leads to a rule of that name, which has the evaluator of its own expression,
    and every rule has its object. *)
Record indexed e : Prop := {
  names_ok : forall n a, names (rules e) !! n = Some a -> exists r, object e a = Some r /\ Rule.Name r = n /\
    evaluator e !! n = Some (Rule.Expression r);
  names_apart : forall n n' a, names (rules e) !! n = Some a -> names (rules e) !! n' = Some a -> n = n';
}.

Lemma indexed_empty c l s : indexed (MkEngine empty_pool ∅ ∅ c l s).
Proof. split; intros *; simpl; by rewrite lookup_empty. Qed.

Lemma add_ok r e e' :
  addRuleInternal other r e = Ok e' ->
  Rule.Name r ≠ "" /\ Rule.Expression r ≠ "" /\
  e' = MkEngine (bind_new (Rule.Name r) r (rules e)).2
         (addToCategory (Rule.Category r) (length (store (rules e))) (rulesByCategory e))
         (<[Rule.Name r := Rule.Expression r]> (evaluator e)) (config e) (loadFunc e) (stopped e).
Proof.
  unfold addRuleInternal. destruct (String.eqb_spec (Rule.Name r) ""); [done|].
  destruct (String.eqb_spec (Rule.Expression r) ""); [done|]. by intros [= <-].
Qed.

Lemma indexed_add r e e' : addRuleInternal other r e = Ok e' -> indexed e -> indexed e'.
Proof.
  intros (_ & _ & ->)%add_ok [Hn Ha].
  assert (forall n a, names (rules e) !! n = Some a -> (a < length (store (rules e)))%nat) as Hlt.
  { intros n a (r' & Hr' & _)%Hn. by apply lookup_lt_Some in Hr'. }
  split; unfold object; simpl.
  - intros n a [[<- <-]|[Hne Hn']]%lookup_insert_Some.
    + exists r. rewrite list_lookup_middle by done. by rewrite lookup_insert_eq.
    + destruct (Hn n a Hn') as (r' & Hr' & Hnm & He). exists r'.
      rewrite lookup_app_l by (by eapply Hlt). by rewrite lookup_insert_ne.
  - intros n n' a. rewrite !lookup_insert_Some.
    intros [[<- <-]|[Hne H1]] [[<- H2]|[Hne' H2]]; try done; [|apply Hlt in H1; lia|by eapply Ha].
    apply Hlt in H2. lia.
Qed.

Lemma indexed_load l e : indexed (LoadRules other l e).
Proof.
  unfold LoadRules. generalize (indexed_empty (config e) (loadFunc e) (stopped e)).
  generalize (MkEngine empty_pool ∅ ∅ (config e) (loadFunc e) (stopped e)) as e0. clear e.
  induction l as [|r l IH]; intros e Hi; [done|]. simpl. apply IH. unfold add_or_skip.
  destruct (addRuleInternal other r e) as [e'|err] eqn:Hadd; [by eapply indexed_add|done].
Qed.

Lemma indexed_register id r e e' : RegisterRule other id r e = Ok e' -> indexed e -> indexed e'.
Proof. unfold RegisterRule. destruct (_ <=? _); [done|]. apply indexed_add. Qed.

Lemma indexed_categories m e : indexed (set_categories m e) <-> indexed e.
Proof. split; intros [H1 H2]; split; done. Qed.

Lemma object_write a f e b :
  object (write_rule a f e) b = if decide (a = b) then f <$> object e a else object e b.
Proof.
  unfold object, write_rule, at_address. simpl. destruct (store (rules e) !! a) as [r|] eqn:Ha; simpl.
  - destruct (decide (a = b)) as [<-|Hne]; [|by rewrite list_lookup_insert_ne].
    rewrite list_lookup_insert_eq; [done|by eapply lookup_lt_Some].
  - destruct (decide (a = b)) as [<-|]; [by rewrite Ha|done].
Qed.

Lemma names_write a f e : names (rules (write_rule a f e)) = names (rules e).
Proof. unfold write_rule, at_address. by destruct (store (rules e) !! a). Qed.

(** A change that leaves name and expression alone. *)
Lemma indexed_write a f e :
  (forall r, Rule.Name (f r) = Rule.Name r /\ Rule.Expression (f r) = Rule.Expression r) ->
  indexed e -> indexed (write_rule a f e).
Proof.
  intros Hf [Hn Ha]. split; rewrite names_write; [|done].
  intros n b Hb. destruct (Hn n b Hb) as (r & Hr & Hnm & He). rewrite object_write.
  destruct (decide (a = b)) as [->|]; [|by exists r]. rewrite Hr. exists (f r). destruct (Hf r) as [-> ->]. done.
Qed.

Lemma indexed_category a category e : indexed e -> indexed (update_category a category e).
Proof.
  intros Hi. unfold update_category, with_rule. destruct (object e a) as [r|]; [|done].
  apply indexed_categories, indexed_write; [done|]. by apply indexed_categories.
Qed.

Lemma indexed_expression a n expression e :
  names (rules e) !! n = Some a -> indexed e -> indexed (update_expression a expression e).
Proof.
  intros Hna [Hn Ha]. destruct (Hn n a Hna) as (r & Hr & Hnm & He).
  unfold update_expression, with_rule. rewrite object_write, decide_True, Hr by done. simpl.
  split; cbn [set_evaluator rules evaluator]; rewrite names_write; [|done].
  intros m b Hb. change (object (set_evaluator ?x ?y ?z) ?w) with (object z w).
  rewrite object_write. destruct (decide (a = b)) as [<-|Hne].
  - rewrite Hr. simpl. assert (m = n) as -> by (by eapply Ha). exists (Rule.set_Expression expression r).
    split_and!; [done..|]. rewrite Hnm. by rewrite lookup_insert_eq.
  - destruct (Hn m b Hb) as (r' & Hr' & Hnm' & He'). exists r'. split_and!; [done..|].
    rewrite lookup_insert_ne; [done|]. intros Heq. apply Hne. rewrite Hnm in Heq. subst m. congruence.
Qed.

Lemma names_category a category e : names (rules (update_category a category e)) = names (rules e).
Proof.
  unfold update_category, with_rule. destruct (object e a); [|done]. cbn [set_categories rules]. by rewrite names_write.
Qed.

(** An update that does not rename. *)
Lemma indexed_update id updates e e' :
  as_string (field updates "name") = None ->
  (forall m, range_rules m ≡ₚ map_to_list m) ->
  UpdateRule range_rules id updates e = Ok e' -> indexed e -> indexed e'.
Proof.
  intros Hname Hrange. unfold UpdateRule. destruct (List.find _ _) as [a|] eqn:Hf; [|done]. intros [= <-] Hi.
  apply List.find_some in Hf as [Hin _].
  assert (exists n, names (rules e) !! n = Some a) as [n Hn].
  { apply list_elem_of_In in Hin. apply list_elem_of_fmap in Hin as ([n a'] & -> & Hin).
    rewrite Hrange in Hin. exists n. by apply elem_of_map_to_list. }
  unfold apply_updates. rewrite Hname. clear Hname. cbn [if_some].
  set (e1 := if_some (as_string (field updates "category")) _ _).
  assert (indexed e1 /\ names (rules e1) !! n = Some a) as [Hi1 Hn1].
  { subst e1. destruct (as_string _) as [c|]; cbn [if_some]; [|by split].
    rewrite names_category. split; [by apply indexed_category|done]. }
  clearbody e1. set (e2 := if_some (as_string (field updates "expression")) _ _).
  assert (indexed e2) as Hi2.
  { subst e2. destruct (as_string _) as [x|]; cbn [if_some]; [by apply indexed_expression with n|done]. }
  clearbody e2. repeat (match goal with |- indexed (if_some ?x _ _) => destruct x; cbn [if_some] end;
    try (apply indexed_write; [done|])); done.
Qed.
End engine_laws.

(** ** Results *)

(** The evaluation of an expression takes at most three nested calls: more fuel changes
    nothing, and the result is that of [conjunction], which has none. *)
Theorem rule_recursion_bounded other n expr params :
  evaluateExpression other (3 + n) expr params = conjunction other params expr /\
  evaluate other expr params = conjunction other params expr.
Proof. split; apply evaluate_conjunction. Qed.

(** C30 What an expression means.  An expression that is built from comparisons of words, with
    [ || ] between comparisons and [ && ] between these groups, is evaluated as the
    conjunction of the disjunctions, from left to right, up to the first comparison that
    settles it or fails: [&&] is outside of [||], against the usual precedence. *)
Theorem rule_expression_meaning other params l :
  l ≠ [] -> Forall group_ok l ->
  evaluate other (show_all l) params = boolean (eval_all other params l).
Proof.
  intros Hne Hl. unfold evaluate. rewrite evaluate_conjunction. unfold conjunction.
  assert (Forall neat (show_any <$> l)) as Hn by (apply Forall_fmap; eapply Forall_impl; [exact Hl|apply show_any_neat]).
  assert (neat (show_all l)) as Ht.
  { apply neat_Join; [repeat constructor; done|by destruct l|done]. }
  rewrite trim_neat by done. unfold show_all in *. destruct l as [|g [|h l]]; [done| |].
  - cbn [fmap list_fmap Join] in *. apply Forall_cons in Hl as [Hg _].
    rewrite free_not_contains by (done || by apply show_any_free). rewrite disjunction_show by done.
    unfold eval_all. cbn [until]. destruct (eval_any other params g) as [[]|]; done.
  - cbn [fmap list_fmap]. rewrite Join_contains.
    change (show_any g :: show_any h :: (show_any <$> l)) with (show_any <$> (g :: h :: l)).
    rewrite Split_Join; [by apply all_parts_show|done|done|].
    apply Forall_fmap. eapply Forall_impl; [exact Hl|]. apply show_any_free.
Qed.

Section changes.
Context (other : string -> Z -> string) (range_rules : gmap string nat -> list (string * nat)).

(** The changes to an engine, but for an update that renames a rule. *)
Inductive change : engine -> engine -> Prop :=
| change_load l e : change e (LoadRules other l e)
| change_register id r e e' : RegisterRule other id r e = Ok e' -> change e e'
| change_reload loaded e : change e (reload other loaded e).1
| change_update id updates e e' :
    as_string (field updates "name") = None -> UpdateRule range_rules id updates e = Ok e' -> change e e'.

Lemma change_indexed e e' :
  (forall m, range_rules m ≡ₚ map_to_list m) -> change e e' -> indexed e -> indexed e'.
Proof.
  intros Hr Hc Hi. destruct Hc as [l e|id r e e' H|loaded e|id updates e e' Hn H].
  - apply indexed_load.
  - by eapply indexed_register.
  - unfold reload. destruct (negb _); [done|]. destruct loaded; [apply indexed_load|done].
  - by eapply indexed_update.
Qed.

(** A rule is found under its name and judged by its own expression: in every engine that is
    reached by loading, registering, reloading and updating rules without renaming them, the
    decision on a name is that of the rule of that name, if it is enabled; a disabled one
    denies, and a name without a rule is an error. *)
Theorem engine_decides c e score_text n data :
  (forall m, range_rules m ≡ₚ map_to_list m) -> rtc change (NewEngine c) e ->
  match names (rules e) !! n with
  | None => Evaluate other score_text n data e = Err (Errorf (Sprintf "rule not found: %s" [AString n]))
  | Some a => exists r, object e a = Some r /\ Rule.Name r = n /\
      Evaluate other score_text n data e =
        if Rule.Enabled r
        then match evaluate other (Rule.Expression r) (convertToParams data) with
             | Ok v => decision_of score_text (Rule.Metadata r) v
             | Err err => Err (Wrapped "failed to evaluate rule" err)
             end
        else Ok (Rules.Mk false "Rule is disabled" (f64_of_Z 0) ∅)
  end.
Proof.
  intros Hr Hs. assert (indexed e) as [Hn _].
  { revert e Hs. apply rtc_ind_r; [apply indexed_empty|]. intros e e' _ Hc Hi. by apply (change_indexed e). }
  unfold Evaluate. destruct (names (rules e) !! n) as [a|] eqn:Ha; [|done].
  destruct (Hn n a Ha) as (r & Hobj & Hname & He). exists r. split_and!; [done..|].
  cbn [mbind option_bind]. rewrite Hobj, He. by destruct (Rule.Enabled r).
Qed.
End changes.

(** ** Examples *)

Definition no_text : string -> Z -> string := λ t _, t.

(** [a == 1 || b == 1 && c == 1] is false where [a] is 1. *)
Definition precedence_params : JSONMap := list_to_map [("a", AInt 1); ("b", AInt 0); ("c", AInt 0)].
Definition is_one (f : string) : atom := MkAtom f "==" "1".
Definition precedence : list (list atom) := [[is_one "a"; is_one "b"]; [is_one "c"]].

Lemma rule_expression_meaning_witness :
  show_all precedence = "a == 1 || b == 1 && c == 1" /\
  evaluate no_text (show_all precedence) precedence_params = Ok (ABool false).
Proof.
  split; [vm_compute; reflexivity|].
  refine (eq_trans (rule_expression_meaning no_text precedence_params precedence _ _) _).
  - discriminate.
  - repeat constructor; discriminate.
  - vm_compute. reflexivity.
Defined.

Definition small_rule (name expression : string) : Rule.t := Rule.Mk 7%N name "limits" expression 0 true ∅.
Definition loaded : engine :=
  LoadRules no_text [small_rule "few" "count < 3"] (NewEngine (MkConfig false 0 0 0)).
Definition ask (name : string) (n : Z) (e : engine) : option bool :=
  match Evaluate no_text (λ _, "") name (AMap {["count" := AInt n]}) e with
  | Ok d => Some (Rules.Allowed d)
  | Err _ => None
  end.

Lemma engine_decides_witness : ask "few" 2 loaded = Some true /\ ask "few" 5 loaded = Some false.
Proof.
  assert (forall n, exists r, object loaded 0 = Some r /\ Rule.Name r = "few" /\
    Evaluate no_text (λ _, "") "few" (AMap {["count" := AInt n]}) loaded =
      if Rule.Enabled r then
        match evaluate no_text (Rule.Expression r) (convertToParams (AMap {["count" := AInt n]})) with
        | Ok v => decision_of (λ _, "") (Rule.Metadata r) v
        | Err err => Err (Wrapped "failed to evaluate rule" err)
        end
      else Ok (Rules.Mk false "Rule is disabled" (f64_of_Z 0) ∅)) as H.
  { intros n. refine (engine_decides no_text map_to_list (MkConfig false 0 0 0) loaded (λ _, "") "few"
      (AMap {["count" := AInt n]}) (λ m, reflexivity _) _). apply rtc_once, change_load. }
  split; unfold ask.
  - destruct (H 2) as (r & Hr & _ & ->). vm_compute in Hr. injection Hr as <-. vm_compute. reflexivity.
  - destruct (H 5) as (r & Hr & _ & ->). vm_compute in Hr. injection Hr as <-. vm_compute. reflexivity.
Defined.

(** A rule that is renamed is known by its old name only, and keeps its old expression there
    when the expression is replaced as well. *)
Example rename_loses_rule :
  match UpdateRule map_to_list 7%N (list_to_map [("name", AString "several"); ("expression", AString "count < 9")]) loaded with
  | Ok e => ask "several" 5 e = None /\ ask "few" 5 e = Some false
  | Err _ => False
  end.
Proof. vm_compute. done. Qed.

(** A rule that is registered again stays in the list of its category beside the new one. *)
Example registered_twice :
  match RegisterRule no_text 8%N (small_rule "few" "count < 4") loaded with
  | Ok e => match GetRules map_to_list map_to_list "limits" ∅ e with
            | Returns l => Rule.Expression <$> l = ["count < 3"; "count < 4"]
            | _ => False
            end
  | Err _ => False
  end.
Proof. vm_compute. done. Qed.
