(* ===== verification/PolicyManager.v ===== *)
(** * PolicyManager: business policies ([pkg/rules/policy_manager.go])

    The manager keeps policies by name and puts those that were read into a cache.  A
    policy is a value here: what a caller writes through the pointer that [GetPolicy]
    returned is left out.  [GetPolicy] gives up the lock before it fills the cache and
    [UpdatePolicy] between the validation and the update, so each is two steps.  Metrics
    and log lines are left out; [uuid.New()] is an argument. *)

From stdpp Require Import base decidable gmap strings list relations.
From Stdlib Require Import ZArith Lia Ascii.
From S2P Require Import Prelude GoFloat GoStrings GoAny ServiceErrors Storage MemCache RuleEngine.

Local Open Scope string_scope.
Local Open Scope Z_scope.

(** ** Data *)

Module PolicyRule.
Record t := Mk {
  Condition : string;
  Effect : string;
  Actions : list string;
  Resources : list string;
}.
End PolicyRule.

Module Policy.
Record t := Mk {
  ID : UUID;
  Name : string;
  Resource : string;
  Rules : list PolicyRule.t;
  Defaults : JSONMap;
  Version : Z;
}.

Definition zero : t := Mk Nil "" "" [] ∅ 0.
Definition set_ID (x : UUID) (p : t) : t := Mk x (Name p) (Resource p) (Rules p) (Defaults p) (Version p).
Definition set_Version (x : Z) (p : t) : t := Mk (ID p) (Name p) (Resource p) (Rules p) (Defaults p) x.
End Policy.

Record PolicyManagerConfig := MkConfig {
  CacheDuration : Z;
  MaxPolicies : Z;
  EnableCaching : bool;
  HotReload : bool;
  ReloadInterval : Z;
}.

(** No cache is [nil]; [loadFunc] says if there is a loader, whose answers are arguments. *)
Record policyManager (C : Type) := MkManager {
  policies : gmap string Policy.t;
  cache : option C;
  config : PolicyManagerConfig;
  loadFunc : bool;
  stopped : bool;
}.
Arguments MkManager {C}.
Arguments policies {C}.
Arguments cache {C}.
Arguments config {C}.
Arguments loadFunc {C}.
Arguments stopped {C}.

Definition failure (format : string) (args : list any) : error := Errorf (Sprintf format args).

Section manager.
Context {C : Type} {caching : CacheOps Policy.t C} {flushing : FlushOps Policy.t C}.
Implicit Types (pm : policyManager C) (p : Policy.t).

Definition NewPolicyManager (c : PolicyManagerConfig) (cache : option C) : policyManager C :=
  MkManager ∅ cache
    (MkConfig (if CacheDuration c =? 0 then 5 * minute else CacheDuration c)
       (if MaxPolicies c =? 0 then 1000 else MaxPolicies c) (EnableCaching c) (HotReload c)
       (if ReloadInterval c =? 0 then 30 * second else ReloadInterval c)) false false.

Definition set_policies m pm : policyManager C := MkManager m (cache pm) (config pm) (loadFunc pm) (stopped pm).

(** The cache, if it is in use. *)
Definition used_cache pm : option C := if EnableCaching (config pm) then cache pm else None.
Definition on_cache (f : C -> C) pm : policyManager C :=
  if EnableCaching (config pm)
  then MkManager (policies pm) (f <$> cache pm) (config pm) (loadFunc pm) (stopped pm) else pm.

(** ** Validation *)

Definition rule_error (i : Z) (rule : PolicyRule.t) : option error :=
  if negb (String.eqb (PolicyRule.Effect rule) "allow") && negb (String.eqb (PolicyRule.Effect rule) "deny")
  then Some (failure "invalid effect in rule %d: %s" [AInt i; AString (PolicyRule.Effect rule)])
  else if String.eqb (PolicyRule.Condition rule) "" then Some (failure "condition is required in rule %d" [AInt i])
  else if (List.length (PolicyRule.Actions rule) =? 0)%nat
  then Some (failure "at least one action is required in rule %d" [AInt i])
  else if (List.length (PolicyRule.Resources rule) =? 0)%nat
  then Some (failure "at least one resource is required in rule %d" [AInt i])
  else None.

Fixpoint rules_error (i : Z) (l : list PolicyRule.t) : option error :=
  match l with
  | [] => None
  | rule :: l => match rule_error i rule with Some e => Some e | None => rules_error (i + 1) l end
  end.

Definition validatePolicyInternal pm (policy : option Policy.t) (policyCount : Z) (policyExists : bool) : option error :=
  match policy with
  | None => Some (failure "policy is nil" [])
  | Some p =>
      if String.eqb (Policy.Name p) "" then Some (failure "policy name is required" [])
      else if String.eqb (Policy.Resource p) "" then Some (failure "policy resource is required" [])
      else
        match rules_error 0 (Policy.Rules p) with
        | Some e => Some e
        | None =>
            if (MaxPolicies (config pm) <=? policyCount) && negb policyExists
            then Some (failure "maximum number of policies (%d) reached" [AInt (MaxPolicies (config pm))])
            else None
        end
  end.

Definition policyExistsInternal pm (name : string) : bool := match policies pm !! name with Some _ => true | None => false end.

(** The name is read before the test for nil. *)
Definition ValidatePolicy pm (policy : option Policy.t) : res () :=
  match policy with
  | None => Panics
  | Some p =>
      match validatePolicyInternal pm (Some p) (Z.of_nat (size (policies pm))) (policyExistsInternal pm (Policy.Name p)) with
      | Some e => Fails e
      | None => Returns ()
      end
  end.

Definition with_id (new_id : UUID) p : Policy.t := if (Policy.ID p =? Nil)%N then Policy.set_ID new_id p else p.

(** ** Loading *)

Definition addPolicyInternal (new_id : UUID) p pm : policyManager C :=
  match validatePolicyInternal pm (Some p) (Z.of_nat (size (policies pm))) (policyExistsInternal pm (Policy.Name p)) with
  | Some _ => pm
  | None => set_policies (<[Policy.Name p := with_id new_id p]> (policies pm)) pm
  end.

Definition flush_cache pm : policyManager C := on_cache (cache_Flush (V := Policy.t)) pm.

(** Each policy with the identifier that it would be given; those that are refused are skipped. *)
Definition LoadPolicies (l : list (UUID * Policy.t)) pm : policyManager C :=
  flush_cache (foldl (λ pm x, addPolicyInternal x.1 x.2 pm) (set_policies ∅ pm) l).

Definition SetPolicyLoader (given : bool) pm : result error (policyManager C) :=
  if given then Ok (MkManager (policies pm) (cache pm) (config pm) true (stopped pm))
  else Err (failure "policy loader cannot be nil" []).

(** Whether the goroutine is started, which reloads at every tick until it is stopped. *)
Definition StartHotReload pm : result error () :=
  if negb (HotReload (config pm)) then Err (failure "hot reload is disabled" [])
  else if negb (loadFunc pm) then Err (failure "no policy loader configured" [])
  else Ok ().

Definition StopHotReload pm : result error (policyManager C) :=
  if stopped pm then Err (failure "hot reload already stopped" [])
  else Ok (MkManager (policies pm) (cache pm) (config pm) (loadFunc pm) true).

Definition reload (loaded : result error (list (UUID * Policy.t))) pm : policyManager C * result error () :=
  if negb (loadFunc pm) then (pm, Ok ())
  else match loaded with
       | Err err => (pm, Err (Wrapped "failed to load policies" err))
       | Ok l => (LoadPolicies l pm, Ok ())
       end.

(** ** Reading *)

Definition policy_key (name : string) : string := "policy:" +:+ name.

(** A hit without a value leaves the zero policy. *)
Definition cached_policy (now : Z) (policyName : string) pm : option Policy.t :=
  match used_cache pm with
  | None => None
  | Some c => match cache_Get now (policy_key policyName) c with Ok v => Some (default Policy.zero v) | Err _ => None end
  end.

(** What is found, and whether it came from the cache. *)
Definition find_policy (now : Z) (policyName : string) pm : result error (Policy.t * bool) :=
  match cached_policy now policyName pm with
  | Some p => Ok (p, true)
  | None =>
      match policies pm !! policyName with
      | None => Err (failure "policy not found: %s" [AString policyName])
      | Some p => Ok (p, false)
      end
  end.
(** What was found in the map goes into the cache, without the lock. *)
Definition store_policy (now : Z) (policyName : string) p pm : policyManager C :=
  on_cache (λ c, (cache_Set now (policy_key policyName) p (CacheDuration (config pm)) c).2) pm.

Definition GetPolicy (now : Z) (policyName : string) pm : policyManager C * result error Policy.t :=
  match find_policy now policyName pm with
  | Err e => (pm, Err e)
  | Ok (p, true) => (pm, Ok p)
  | Ok (p, false) => (store_policy now policyName p pm, Ok p)
  end.

(** [range]: the order of the map. *)
Definition GetDefaults (range : gmap string Policy.t -> list (string * Policy.t)) (resource resourceType : string) pm : JSONMap :=
  match List.find (λ x, String.eqb (Policy.Resource x.2) resource || String.eqb (Policy.Resource x.2) resourceType)
          (range (policies pm)) with
  | Some (_, p) => Policy.Defaults p
  | None => ∅
  end.

(** [new_id i]: the [uuid.New()] of the i-th rule. *)
Definition rule_of (new_id : nat -> UUID) p (i : nat) (r : PolicyRule.t) : Rule.t :=
  Rule.Mk (new_id i) (Policy.Name p +:+ "_rule_" +:+ itoa (Z.of_nat i)) (Policy.Resource p) (PolicyRule.Condition r)
    (Z.of_nat i) true
    (list_to_map [("effect", AString (PolicyRule.Effect r)); ("actions", AStrings (PolicyRule.Actions r));
                  ("resources", AStrings (PolicyRule.Resources r))]).
Definition GetRules (new_id : nat -> UUID) (now : Z) (policyName : string) pm : policyManager C * result error (list Rule.t) :=
  match GetPolicy now policyName pm with
  | (pm, Err e) => (pm, Err e)
  | (pm, Ok p) => (pm, Ok (imap (rule_of new_id p) (Policy.Rules p)))
  end.

(** ** Updating *)

(** Under the lock, once the policy has been validated. *)
Definition write_policy (now : Z) (new_id : UUID) p pm : policyManager C * Policy.t :=
  let version := match policies pm !! Policy.Name p with
                 | Some existing => i64 (Policy.Version existing + 1)
                 | None => 1
                 end in
  let p := with_id new_id (Policy.set_Version version p) in
  (on_cache (λ c, (cache_Delete (V := Policy.t) now (policy_key (Policy.Name p)) c).2)
     (set_policies (<[Policy.Name p := p]> (policies pm)) pm), p).

(** Gives the policy as it has been stored, which the caller sees through its pointer. *)
Definition UpdatePolicy (now : Z) (new_id : UUID) (policy : option Policy.t) pm : policyManager C * res Policy.t :=
  match policy, ValidatePolicy pm policy with
  | _, Fails e => (pm, Fails (Wrapped "policy validation failed" e))
  | Some p, Returns _ => let '(pm, p) := write_policy now new_id p pm in (pm, Returns p)
  | _, _ => (pm, Panics)
  end.

(** ** Defaults *)

Definition GetString (d : JSONMap) (key defaultValue : string) : string := default defaultValue (as_string (field d key)).
Definition GetInt (d : JSONMap) (key : string) (defaultValue : Z) : Z :=
  match field d key with AInt n => n | AFloat f => f64_to_int f | _ => defaultValue end.
Definition GetFloat (d : JSONMap) (key : string) (defaultValue : float64) : float64 :=
  match field d key with AFloat f => f | AInt n => f64_of_Z n | _ => defaultValue end.
Definition GetBool (d : JSONMap) (key : string) (defaultValue : bool) : bool := default defaultValue (as_bool (field d key)).
(** [nil] reads as the empty map. *)
Definition GetMap (d : JSONMap) (key : string) : JSONMap := default ∅ (as_map (field d key)).
End manager.

(** ** The manager is sound *)

Section sound.
Context {C : Type} {caching : CacheOps Policy.t C} {flushing : FlushOps Policy.t C}.
Context {claws : CacheLaws Policy.t C} {flaws : FlushLaws Policy.t C}.
Implicit Types (pm : policyManager C) (p : Policy.t).

(** The operations, each at once. *)
Inductive step : policyManager C -> policyManager C -> Prop :=
| step_load l pm : Forall (λ x, x.1 ≠ Nil) l -> step pm (LoadPolicies l pm)
| step_reload loaded pm :
    (∀ l, loaded = Ok l -> Forall (λ x, x.1 ≠ Nil) l) -> step pm (reload loaded pm).1
| step_loader given pm pm' : SetPolicyLoader given pm = Ok pm' -> step pm pm'
| step_stop pm pm' : StopHotReload pm = Ok pm' -> step pm pm'
| step_get now name pm : step pm (GetPolicy now name pm).1
| step_rules new_id now name pm : step pm (GetRules new_id now name pm).1
| step_update now new_id policy pm : new_id ≠ Nil -> step pm (UpdatePolicy now new_id policy pm).1.

Definition policy_ok (name : string) p : Prop :=
  Policy.Name p = name /\ name ≠ "" /\ Policy.Resource p ≠ "" /\ rules_error 0 (Policy.Rules p) = None /\ Policy.ID p ≠ Nil.

Definition table_ok pm : Prop :=
  Z.of_nat (size (policies pm)) <= MaxPolicies (config pm) /\ map_Forall policy_ok (policies pm).

Definition cache_ok pm : Prop :=
  ∀ now name p, cached_policy now name pm = Some p -> policies pm !! name = Some p.

Record sound pm : Prop := {
  sound_duration : 0 < CacheDuration (config pm);
  sound_table : table_ok pm;
  sound_cache : cache_ok pm;
}.

Lemma with_id_keeps new_id p :
  Policy.Name (with_id new_id p) = Policy.Name p /\ Policy.Resource (with_id new_id p) = Policy.Resource p /\
  Policy.Rules (with_id new_id p) = Policy.Rules p /\ (new_id ≠ Nil -> Policy.ID (with_id new_id p) ≠ Nil).
Proof. unfold with_id. by destruct (N.eqb_spec (Policy.ID p) Nil). Qed.

(** Storing a policy that was validated. *)
Lemma table_insert pm new_id p v :
  new_id ≠ Nil -> table_ok pm ->
  validatePolicyInternal pm (Some p) (Z.of_nat (size (policies pm))) (policyExistsInternal pm (Policy.Name p)) = None ->
  table_ok (set_policies (<[Policy.Name p := with_id new_id (Policy.set_Version v p)]> (policies pm)) pm).
Proof.
  intros Hid [Hsize Hall] Hv. unfold validatePolicyInternal, policyExistsInternal in Hv.
  destruct (String.eqb_spec (Policy.Name p) "") as [|Hname]; [done|].
  destruct (String.eqb_spec (Policy.Resource p) "") as [|Hres]; [done|].
  destruct (rules_error 0 (Policy.Rules p)) eqn:Hrules; [done|].
  split; simpl.
  - destruct (policies pm !! Policy.Name p) eqn:Hp.
    + by rewrite map_size_insert_Some.
    + rewrite map_size_insert_None by done.
      destruct (Z.leb_spec (MaxPolicies (config pm)) (Z.of_nat (size (policies pm)))); [done|lia].
  - apply map_Forall_insert_2; [|done].
    destruct (with_id_keeps new_id (Policy.set_Version v p)) as (Hn & Hr & Hl & Hi).
    unfold policy_ok. rewrite Hn, Hr, Hl. split_and!; try done. by apply Hi.
Qed.

Lemma used_cache_on f pm : used_cache (on_cache f pm) = f <$> used_cache pm.
Proof. unfold used_cache, on_cache. destruct (EnableCaching (config pm)) eqn:H; simpl; by rewrite H. Qed.

Lemma on_cache_same f pm :
  policies (on_cache f pm) = policies pm /\ config (on_cache f pm) = config pm.
Proof. unfold on_cache. by destruct (EnableCaching (config pm)). Qed.

Lemma policy_key_inj : Inj (=) (=) policy_key.
Proof. intros x y H. by apply (inj (String.append "policy:")) in H. Qed.

Lemma cache_ok_flush pm : cache_ok (flush_cache pm).
Proof.
  intros now name p. unfold cached_policy, flush_cache. rewrite used_cache_on. destruct (used_cache pm) as [c|]; [|done]. simpl.
  pose proof (get_flush (V := Policy.t) now (policy_key name) c) as Hno. by destruct (cache_Get now (policy_key name) _).
Qed.

Lemma cache_ok_store now name p pm :
  0 < CacheDuration (config pm) -> cache_ok pm -> policies pm !! name = Some p -> cache_ok (store_policy now name p pm).
Proof.
  intros Hd Hc Hp now' name' q. unfold cached_policy, store_policy. rewrite used_cache_on, (proj1 (on_cache_same _ _)).
  pose proof (Hc now' name' q) as Hq. unfold cached_policy in Hq. destruct (used_cache pm) as [c|]; [|done]. simpl.
  destruct (decide (name = name')) as [<-|Hne].
  - destruct (Z.le_gt_cases now' (now + CacheDuration (config pm))) as [Hle|Hgt].
    + rewrite get_set by done. by intros [= <-].
    + pose proof (get_set_expired now now' (policy_key name) p _ c Hd Hgt) as Hno.
      clear Hq. by destruct (cache_Get now' (policy_key name) _).
  - rewrite get_set_ne by (intros H; by apply policy_key_inj in H). done.
Qed.

Lemma cache_ok_write now new_id p pm : cache_ok pm -> cache_ok (write_policy now new_id p pm).1.
Proof.
  intros Hc now' name' q. unfold cached_policy, write_policy. simpl.
  rewrite used_cache_on, (proj1 (on_cache_same _ _)). pose proof (Hc now' name' q) as Hq. unfold cached_policy in Hq.
  set (p' := with_id _ _). change (used_cache (set_policies (<[Policy.Name p' := p']> (policies pm)) pm)) with (used_cache pm).
  destruct (used_cache pm) as [c|]; [|done]. simpl. destruct (decide (Policy.Name p' = name')) as [<-|Hne].
  - pose proof (get_delete (V := Policy.t) now now' (policy_key (Policy.Name p')) c) as Hno.
    clear Hq. by destruct (cache_Get now' (policy_key (Policy.Name p')) _).
  - rewrite get_delete_ne by (intros H; by apply policy_key_inj in H). by rewrite lookup_insert_ne.
Qed.

Lemma validated pm p :
  ValidatePolicy pm (Some p) = Returns () ->
  validatePolicyInternal pm (Some p) (Z.of_nat (size (policies pm))) (policyExistsInternal pm (Policy.Name p)) = None.
Proof. unfold ValidatePolicy. by destruct (validatePolicyInternal _ _ _ _). Qed.

Lemma table_add new_id p pm : new_id ≠ Nil -> table_ok pm -> table_ok (addPolicyInternal new_id p pm).
Proof.
  intros Hid Hok. unfold addPolicyInternal. destruct (validatePolicyInternal _ _ _ _) eqn:Hv; [done|].
  pose proof (table_insert pm new_id p (Policy.Version p) Hid Hok Hv) as H. by destruct p.
Qed.

Lemma sound_load l pm : Forall (λ x, x.1 ≠ Nil) l -> sound pm -> sound (LoadPolicies l pm).
Proof.
  intros Hl [Hd [Hsize _] _].
  assert (∀ pm0, table_ok pm0 -> config pm0 = config pm ->
    table_ok (foldl (λ pm x, addPolicyInternal x.1 x.2 pm) pm0 l) /\
    config (foldl (λ pm x, addPolicyInternal x.1 x.2 pm) pm0 l) = config pm) as Hfold.
  { induction Hl as [|x l Hx Hl IH]; intros pm0 Hok Hc; [done|]. simpl. apply IH; [by apply table_add|].
    rewrite <- Hc. unfold addPolicyInternal. by destruct (validatePolicyInternal _ _ _ _). }
  destruct (Hfold (set_policies ∅ pm)) as [[Ht1 Ht2] Hc]; [|done|].
  { split; [|apply map_Forall_empty]. simpl. rewrite map_size_empty. lia. }
  unfold LoadPolicies, flush_cache. split.
  - by rewrite (proj2 (on_cache_same _ _)), Hc.
  - unfold table_ok. by rewrite (proj1 (on_cache_same _ _)), (proj2 (on_cache_same _ _)).
  - apply cache_ok_flush.
Qed.

Lemma sound_get now name pm : sound pm -> sound (GetPolicy now name pm).1.
Proof.
  intros Hs. unfold GetPolicy, find_policy. destruct (cached_policy now name pm) as [p|]; [done|].
  destruct (policies pm !! name) as [p|] eqn:Hp; [|done]. destruct Hs as [Hd [Ht1 Ht2] Hc]. split; simpl.
  - unfold store_policy. by rewrite (proj2 (on_cache_same _ _)).
  - unfold table_ok, store_policy. by rewrite (proj1 (on_cache_same _ _)), (proj2 (on_cache_same _ _)).
  - by apply cache_ok_store.
Qed.

Lemma sound_update now new_id policy pm : new_id ≠ Nil -> sound pm -> sound (UpdatePolicy now new_id policy pm).1.
Proof.
  intros Hid Hs. unfold UpdatePolicy. destruct policy as [p|]; [|done].
  destruct (ValidatePolicy pm (Some p)) as [[]|e|] eqn:Hv; [|done..]. apply validated in Hv. simpl. split.
  - simpl. rewrite (proj2 (on_cache_same _ _)). apply Hs.
  - destruct (with_id_keeps new_id (Policy.set_Version
      match policies pm !! Policy.Name p with Some existing => i64 (Policy.Version existing + 1) | None => 1 end p)) as (Hn & _).
    simpl in Hn. simpl. unfold table_ok. rewrite (proj1 (on_cache_same _ _)), (proj2 (on_cache_same _ _)), Hn.
    apply table_insert; [done|apply Hs|done].
  - apply (cache_ok_write now new_id p pm), Hs.
Qed.

Lemma sound_step pm pm' : step pm pm' -> sound pm -> sound pm'.
Proof.
  intros Hstep Hs. destruct Hstep as [l pm Hl|loaded pm Hl|given pm pm' H|pm pm' H|now name pm|new_id now name pm|now new_id policy pm Hid].
  - by apply sound_load.
  - unfold reload. destruct (negb _); [done|]. destruct loaded as [l|e]; [|done]. apply sound_load; [by apply Hl|done].
  - unfold SetPolicyLoader in H. destruct given; [|done]. injection H as <-. by destruct Hs; split.
  - unfold StopHotReload in H. destruct (stopped pm); [done|]. injection H as <-. by destruct Hs; split.
  - by apply sound_get.
  - pose proof (sound_get now name pm Hs) as H. unfold GetRules. by destruct (GetPolicy now name pm) as [pm' []].
  - by apply sound_update.
Qed.

(** In every state that a new manager reaches, by any operations at any times, there are at most
    [MaxPolicies] policies, each valid, under its own name and with an identifier, and
    [GetPolicy] gives exactly the policy of that name, whatever the cache holds: an update or
    a load is seen at once. *)
Theorem policy_manager_sound c (cache0 : option C) pm now name :
  0 <= CacheDuration c -> 0 <= MaxPolicies c ->
  rtc step (NewPolicyManager c (cache_Flush (V := Policy.t) <$> cache0)) pm ->
  Z.of_nat (size (policies pm)) <= MaxPolicies (config pm) /\ map_Forall policy_ok (policies pm) /\
  (GetPolicy now name pm).2 =
    match policies pm !! name with Some p => Ok p | None => Err (failure "policy not found: %s" [AString name]) end.
Proof.
  intros Hd Hm Hreach. assert (sound pm) as [Hd' [Hsize Hall] Hc].
  { refine (rtc_ind_l (λ x, sound x -> sound pm) pm _ _ _ Hreach _); [done| |].
    - intros x y Hxy _ IH Hx. by apply IH, (sound_step x).
    - assert (Hflush : cache_ok (flush_cache (NewPolicyManager c cache0))) by apply cache_ok_flush.
      split.
      + simpl. destruct (Z.eqb_spec (CacheDuration c) 0); [done|lia].
      + split; [|apply map_Forall_empty]. simpl. rewrite map_size_empty. destruct (Z.eqb_spec (MaxPolicies c) 0); lia.
      + intros t n p H. specialize (Hflush t n p). unfold flush_cache in Hflush.
        rewrite (proj1 (on_cache_same _ _)) in Hflush. apply Hflush. revert H. unfold cached_policy.
        rewrite used_cache_on. unfold used_cache. simpl. by destruct (EnableCaching c). }
  split_and!; [done..|]. unfold GetPolicy, find_policy.
  destruct (cached_policy now name pm) as [p|] eqn:Hcp; [by rewrite (Hc _ _ _ Hcp)|].
  by destruct (policies pm !! name).
Qed.
End sound.

(** ** On the memory cache *)

Section memory.
Implicit Types pm : policyManager (Memory.MemoryCache Policy.t).

Lemma memory_get now name pm : ∀ p, cached_policy now name pm = Some p -> p = Policy.zero.
Proof.
  intros p. unfold cached_policy. destruct (used_cache pm) as [c|]; [|done].
  destruct (cache_Get now (policy_key name) c) as [v|] eqn:Hg; [|done]. apply Memory.get_nothing in Hg as ->. by intros [= <-].
Qed.

(** C1. On the memory cache of [pkg/common/cache] a policy can be read once in the duration of the
    cache: the next reading is a hit, which never carries a value, so it succeeds with the
    policy that has no name, and [GetRules] finds no rules. *)
Theorem memory_policy_read_once t t' name p new_id pm pm' :
  EnableCaching (config pm) = true -> is_Some (cache pm) -> 0 < CacheDuration (config pm) ->
  t' <= t + CacheDuration (config pm) -> p ≠ Policy.zero -> GetPolicy t name pm = (pm', Ok p) ->
  GetPolicy t' name pm' = (pm', Ok Policy.zero) /\ GetRules new_id t' name pm' = (pm', Ok []).
Proof.
  intros Hon [c Hc] Hd Ht Hp Hget.
  assert (H : GetPolicy t' name pm' = (pm', Ok Policy.zero)); [|split; [done|]; unfold GetRules; by rewrite H].
  unfold GetPolicy, find_policy in Hget. destruct (cached_policy t name pm) as [q|] eqn:Hq.
  { injection Hget as _ <-. by apply memory_get in Hq. }
  destruct (policies pm !! name) as [q|]; [|done]. injection Hget as <- <-.
  unfold GetPolicy, find_policy, cached_policy, store_policy. rewrite used_cache_on.
  unfold used_cache. rewrite Hon, Hc. cbn [fmap option_fmap option_map]. by rewrite (Memory.set_get t t').
Qed.
End memory.

(** ** Witnesses and examples *)

Definition with_caching : PolicyManagerConfig := MkConfig 0 2 true false 0.
Definition retention : Policy.t :=
  Policy.Mk Nil "retention" "document" [PolicyRule.Mk "age > 30" "deny" ["read"] ["*"]] {["days" := AInt 30]} 0.
Definition on_map : policyManager (ttl_map Policy.t) := NewPolicyManager with_caching (Some ∅).
Definition on_memory : policyManager (Memory.MemoryCache Policy.t) :=
  NewPolicyManager with_caching (Some (Memory.NewMemoryCache 10 60)).

Lemma policy_manager_sound_witness :
  ∃ pm, rtc step on_map pm /\ (GetPolicy 1 "retention" pm).2 = Ok (Policy.set_Version 1 (Policy.set_ID 7%N retention)) /\
  (GetPolicy 5 "retention" pm).2 =
    match policies pm !! "retention" with Some p => Ok p | None => Err (failure "policy not found: %s" [AString "retention"]) end.
Proof.
  set (pm := (GetPolicy 1 "retention" (UpdatePolicy 0 7%N (Some retention) on_map).1).1).
  assert (Hreach : rtc step on_map pm).
  { eapply rtc_l; [by apply (step_update 0 7%N (Some retention))|]. eapply rtc_l; [apply step_get|apply rtc_refl]. }
  exists pm. split_and!; [done|vm_compute; reflexivity|].
  apply (policy_manager_sound with_caching (Some ∅) pm 5 "retention"); done.
Defined.

Definition given_rule (i : nat) : UUID := N.of_nat (100 + i).

Lemma memory_policy_read_once_witness :
  ∃ pm', GetPolicy 1 "retention" (UpdatePolicy 0 7%N (Some retention) on_memory).1 =
    (pm', Ok (Policy.set_Version 1 (Policy.set_ID 7%N retention))) /\
  GetPolicy 2 "retention" pm' = (pm', Ok Policy.zero) /\ GetRules given_rule 2 "retention" pm' = (pm', Ok []).
Proof.
  set (pm := (UpdatePolicy 0 7%N (Some retention) on_memory).1).
  exists (GetPolicy 1 "retention" pm).1. split; [vm_compute; reflexivity|].
  apply (memory_policy_read_once 1 2 "retention" (Policy.set_Version 1 (Policy.set_ID 7%N retention)) given_rule pm).
  - vm_compute. reflexivity.
  - eexists. vm_compute. reflexivity.
  - vm_compute. reflexivity.
  - vm_compute. discriminate.
  - discriminate.
  - vm_compute. reflexivity.
Defined.

(** An update between the two steps of [GetPolicy]: the old policy stays in the cache. *)
Example stale_policy :
  let pm := (UpdatePolicy 0 7%N (Some retention) on_map).1 in
  ∃ p, find_policy 1 "retention" pm = Ok (p, false) /\
  let pm := (UpdatePolicy 2 7%N (Some retention) pm).1 in
  let pm := store_policy 3 "retention" p pm in
  Policy.Version <$> policies pm !! "retention" = Some 2 /\
  match (GetPolicy 4 "retention" pm).2 with Ok p => Policy.Version p = 1 | Err _ => False end.
Proof. eexists. split; [vm_compute; reflexivity|]. split; vm_compute; reflexivity. Qed.

(** Two updates that have both been validated exceed the maximum. *)
Example one_too_many :
  let named n := Policy.Mk Nil n "document" [] ∅ 0 in
  let pm := (UpdatePolicy 0 7%N (Some (named "a")) on_map).1 in
  ValidatePolicy pm (Some (named "b")) = Returns () /\ ValidatePolicy pm (Some (named "c")) = Returns () /\
  let pm := (write_policy 1 8%N (named "b") pm).1 in
  let pm := (write_policy 1 9%N (named "c") pm).1 in
  (size (policies pm), MaxPolicies (config pm)) = (3%nat, 2).
Proof. split_and!; vm_compute; reflexivity. Qed.
