(* ===== verification/Authorizer.v ===== *)
(** * Authorizer: policies, roles and cached decisions ([pkg/auth/production_authorizer.go])

    The authorizer keeps policies and role bindings in memory and its decisions in any cache
    with the interface of [pkg/common/cache].  Audit records, metrics and traces are left
    out; a change of policies is one step, although [AddPolicy] looks for a duplicate
    before it takes the lock. *)

From stdpp Require Import base decidable gmap strings list relations.
From Stdlib Require Import ZArith Lia Ascii.
From S2P Require Import Prelude GoStrings GoParse GoAny ServiceErrors ServiceInterfaces MemCache.

Local Open Scope string_scope.
Local Open Scope Z_scope.

(** ** Data *)

Module Policy.
Record t := Mk {
  Subject : string;
  Resource : string;
  Action : string;
  Effect : string;
  Tenant : string;
}.
End Policy.

Record AuthRequest := MkRequest {
  Subject : string;
  Resource : string;
  Action : string;
  Tenant : string;
}.

Record authorizer (C : Type) := MkAuthorizer {
  policies : list Policy.t;
  roleBindings : gmap string (list string);
  roles : list string;
  cache : C;
  cacheEnabled : bool;
  cacheDuration : Z;
}.
Arguments MkAuthorizer {C}.
Arguments policies {C}.
Arguments roleBindings {C}.
Arguments roles {C}.
Arguments cache {C}.
Arguments cacheEnabled {C}.
Arguments cacheDuration {C}.

Section authorizer.
Context {C : Type} {caching : CacheOps bool C} {flushing : FlushOps bool C}.
(** [uuid.Parse] succeeds. *)
Context (is_uuid : string -> bool).
Implicit Types (a : authorizer C) (p : Policy.t) (req : AuthRequest).

Definition set_policies l a : authorizer C :=
  MkAuthorizer l (roleBindings a) (roles a) (cache a) (cacheEnabled a) (cacheDuration a).
Definition set_bindings b a : authorizer C :=
  MkAuthorizer (policies a) b (roles a) (cache a) (cacheEnabled a) (cacheDuration a).
Definition set_cache c a : authorizer C :=
  MkAuthorizer (policies a) (roleBindings a) (roles a) c (cacheEnabled a) (cacheDuration a).

Definition failure (s : string) : error := Errorf (Text s).

(** ** Policies *)

(** A star in a policy stands for anything; a policy without a tenant is for all of them. *)
Definition matches (pattern s : string) : bool := String.eqb pattern "*" || String.eqb pattern s.
Definition matchPolicy p (subject resource action tenant : string) : bool :=
  matches (Policy.Subject p) subject && matches (Policy.Resource p) resource &&
  matches (Policy.Action p) action && (String.eqb (Policy.Tenant p) "" || String.eqb (Policy.Tenant p) tenant).

(** The effect of the first policy that matches. *)
Definition first_effect (l : list Policy.t) (subject resource action tenant : string) : option bool :=
  (λ p, negb (String.eqb (Policy.Effect p) "deny"))
    <$> List.find (λ p, matchPolicy p subject resource action tenant) l.

Definition isAuthenticatedAgent (subject : string) : bool := is_uuid subject.

Definition roles_of a (subject : string) : list string :=
  match roleBindings a !! subject with
  | Some l => l
  | None => if isAuthenticatedAgent subject then ["user"] else []
  end.

Fixpoint first_role (l : list Policy.t) (rs : list string) (resource action tenant : string) : option bool :=
  match rs with
  | [] => None
  | role :: rs =>
      match first_effect l role resource action tenant with
      | Some b => Some b
      | None => first_role l rs resource action tenant
      end
  end.

(** Its parameters are always strings, and at least three. *)
Definition enforceWithRetry a req : bool :=
  match first_effect (policies a) (Subject req) (Resource req) (Action req) (Tenant req) with
  | Some b => b
  | None => default false (first_role (policies a) (roles_of a (Subject req)) (Resource req) (Action req) (Tenant req))
  end.

(** ** Requests *)

Definition validateAuthRequest req : result error () :=
  if String.eqb (Subject req) "" then Err (failure "subject is required")
  else if String.eqb (Resource req) "" then Err (failure "resource is required")
  else if String.eqb (Action req) "" then Err (failure "action is required")
  else Ok ().

Definition buildCacheKey req : string :=
  "auth:" +:+ Subject req +:+ ":" +:+ Resource req +:+ ":" +:+ Action req +:+ ":" +:+ Tenant req.

Definition denial (reason : string) : error := failure ("authorization denied: " +:+ reason).
Definition verdict (allowed : bool) (reason : string) : result error () :=
  if allowed then Ok () else Err (denial reason).

Definition AuthorizeRequest (now : Z) req a : authorizer C * result error () :=
  match validateAuthRequest req with
  | Err e => (a, Err (Wrapped "invalid auth request" e))
  | Ok _ =>
      let hit := if cacheEnabled a
                 then match cache_Get now (buildCacheKey req) (cache a) with
                      | Ok v => Some (default false v)
                      | Err _ => None
                      end
                 else None in
      match hit with
      | Some allowed => (a, verdict allowed "cached denial")
      | None =>
          let allowed := enforceWithRetry a req in
          let a := if cacheEnabled a
                   then set_cache (cache_Set now (buildCacheKey req) allowed (cacheDuration a) (cache a)).2 a
                   else a in
          (a, verdict allowed "permission denied")
      end
  end.

(** [error_text]: [err.Error()]. *)
Definition Authorize (error_text : error -> string) (now : Z) (userID tenantID : string)
    (permission : Auth.Permission) a : authorizer C * Auth.Decision :=
  if String.eqb userID "" then (a, Auth.MkDecision false "no user in context")
  else
    match AuthorizeRequest now (MkRequest userID (Auth.Resource permission) (Auth.Action permission) tenantID) a with
    | (a, Err e) => (a, Auth.MkDecision false (error_text e))
    | (a, Ok _) => (a, Auth.MkDecision true "permission granted")
    end.

Definition CheckPermission (now : Z) (userID tenantID resource action : string) a : authorizer C * bool :=
  if String.eqb userID "" then (a, false)
  else let '(a, r) := AuthorizeRequest now (MkRequest userID resource action tenantID) a in (a, is_ok r).

(** ** Changes *)

(** [invalidateCacheForSubject] empties the whole cache. *)
Definition invalidate a : authorizer C := if cacheEnabled a then set_cache (cache_Flush (cache a)) a else a.

Definition validatePolicy p : result error () :=
  if String.eqb (Policy.Subject p) "" then Err (failure "subject is required")
  else if String.eqb (Policy.Resource p) "" then Err (failure "resource is required")
  else if String.eqb (Policy.Action p) "" then Err (failure "action is required")
  else if existsb (String.eqb (Policy.Effect p)) [""; "allow"; "deny"] then Ok ()
  else Err (failure "effect must be 'allow' or 'deny'").

(** Effect and tenant do not count. *)
Definition same_policy (p q : Policy.t) : bool :=
  String.eqb (Policy.Subject q) (Policy.Subject p) && String.eqb (Policy.Resource q) (Policy.Resource p) &&
  String.eqb (Policy.Action q) (Policy.Action p).

Definition AddPolicy p a : authorizer C * result error () :=
  match validatePolicy p with
  | Err e => (a, Err (Wrapped "invalid policy" e))
  | Ok _ =>
      if existsb (same_policy p) (policies a) then (a, Err (failure "policy already exists"))
      else (invalidate (set_policies (policies a ++ [p])%list a), Ok ())
  end.

Definition RemovePolicy p a : authorizer C * result error () :=
  match validatePolicy p with
  | Err e => (a, Err (Wrapped "invalid policy" e))
  | Ok _ =>
      let newPolicies := filter (λ q, same_policy p q = false) (policies a) in
      let a' := set_policies newPolicies a in
      if existsb (same_policy p) (policies a) then (invalidate a', Ok ())
      else (a', Err (failure "policy not found"))
  end.

Definition AddRole (user role : string) a : authorizer C * result error () :=
  if String.eqb user "" || String.eqb role "" then (a, Err (failure "user and role must not be empty"))
  else if negb (existsb (String.eqb role) (roles a))
  then (a, Err (failure ("role '" +:+ role +:+ "' does not exist")))
  else
    let bound := get [] (roleBindings a) user in
    if existsb (String.eqb role) bound then (a, Err (failure "role assignment already exists"))
    else (invalidate (set_bindings (<[user := (bound ++ [role])%list]> (roleBindings a)) a), Ok ()).

Definition RemoveRole (user role : string) a : authorizer C * result error () :=
  if String.eqb user "" || String.eqb role "" then (a, Err (failure "user and role must not be empty"))
  else
    match roleBindings a !! user with
    | None => (a, Err (failure "role assignment not found"))
    | Some l =>
        let newRoles := filter (λ r, String.eqb r role = false) l in
        let a' := set_bindings (<[user := newRoles]> (roleBindings a)) a in
        if existsb (String.eqb role) l then (invalidate a', Ok ())
        else (a', Err (failure "role assignment not found"))
    end.

Definition GetRolesForUser (user : string) a : result error (list string) :=
  if String.eqb user "" then Err (failure "user must not be empty") else Ok (get [] (roleBindings a) user).

Definition GetUsersForRole (range : gmap string (list string) -> list (string * list string)) (role : string) a
    : result error (list string) :=
  if String.eqb role "" then Err (failure "role must not be empty")
  else Ok (filter (λ x, existsb (String.eqb role) x.2 = true) (range (roleBindings a))).*1.

(** A tick of [watchPolicyChanges]. *)
Definition watch_tick a : authorizer C := invalidate a.

(** ** The initial state *)

Definition allow (subject resource action : string) : Policy.t := Policy.Mk subject resource action "allow" "".

Definition defaultPolicies : list Policy.t :=
  [allow "admin" "*" "*";
   allow "user" "workspace" "read"; allow "user" "workspace" "create";
   allow "user" "document" "read"; allow "user" "document" "create";
   allow "user" "task" "read"; allow "user" "task" "create";
   allow "user" "workflow" "read"; allow "user" "workflow" "create";
   allow "user" "workflow" "update"; allow "user" "workflow" "delete";
   allow "viewer" "workspace" "read"; allow "viewer" "document" "read";
   allow "viewer" "task" "read"; allow "viewer" "workflow" "read"].

Definition defaultBindings : gmap string (list string) :=
  list_to_map (("system", ["admin"]) ::
    ((λ u, (u, ["user"])) <$> ["agent-1"; "agent-2"; "backend-dev"; "frontend-dev"; "devops"; "ml-engineer"])).

Definition NewProductionAuthorizer (c : C) (enabled : bool) (duration : Z) : authorizer C :=
  MkAuthorizer defaultPolicies defaultBindings ["admin"; "user"; "viewer"] c enabled duration.
End authorizer.

(** ** A run *)

Inductive op :=
| op_authorize (req : AuthRequest)
| op_add_policy (p : Policy.t)
| op_remove_policy (p : Policy.t)
| op_add_role (user role : string)
| op_remove_role (user role : string)
| op_tick.

(** What the caller learns of an operation: whether it succeeded. *)
Definition outcome {A E S} (x : S * result E A) : S * bool := (x.1, is_ok x.2).

Section run.
Context {C : Type} {caching : CacheOps bool C} {flushing : FlushOps bool C} (is_uuid : string -> bool).

Definition step (now : Z) (o : op) (a : authorizer C) : authorizer C * bool :=
  match o with
  | op_authorize req => outcome (AuthorizeRequest is_uuid now req a)
  | op_add_policy p => outcome (AddPolicy p a)
  | op_remove_policy p => outcome (RemovePolicy p a)
  | op_add_role u r => outcome (AddRole u r a)
  | op_remove_role u r => outcome (RemoveRole u r a)
  | op_tick => (watch_tick a, true)
  end.

Fixpoint run (l : list (Z * op)) (a : authorizer C) : list bool :=
  match l with
  | [] => []
  | (now, o) :: l => let '(a, b) := step now o a in b :: run l a
  end.
End run.

(** Cache keys of such requests do not run into each other. *)
Definition plain_request (req : AuthRequest) : bool :=
  free_of ":" (Subject req) && free_of ":" (Resource req) && free_of ":" (Action req).
Definition plain_op (o : op) : bool := match o with op_authorize req => plain_request req | _ => true end.

Lemma free_cons_inj c s s' r r' :
  free_of c s = true -> free_of c s' = true -> s +:+ String c r = s' +:+ String c r' -> s = s' /\ r = r'.
Proof.
  intros Hs Hs' Heq. apply (f_equal (split2 c)) in Heq. rewrite !split2_some in Heq by done. by simplify_eq.
Qed.

Lemma cache_key_inj req req' :
  plain_request req = true -> plain_request req' = true -> buildCacheKey req = buildCacheKey req' -> req = req'.
Proof.
  destruct req as [s r a t], req' as [s' r' a' t']. unfold plain_request, buildCacheKey. simpl Subject.
  simpl Resource. simpl Action. simpl Tenant.
  intros [[Hs Hr]%andb_prop Ha]%andb_prop [[Hs' Hr']%andb_prop Ha']%andb_prop Heq.
  apply (inj (String.append "auth:")) in Heq.
  destruct (free_cons_inj _ _ _ _ _ Hs Hs' Heq) as [-> Heq'].
  destruct (free_cons_inj _ _ _ _ _ Hr Hr' Heq') as [-> Heq''].
  destruct (free_cons_inj _ _ _ _ _ Ha Ha' Heq'') as [-> ->]. done.
Qed.

(** ** How a request is answered *)

Section authorize.
Context {C : Type} {caching : CacheOps bool C} {flushing : FlushOps bool C} (is_uuid : string -> bool).
Implicit Types a b : authorizer C.

Lemma authorize_valid t req a a' : AuthorizeRequest is_uuid t req a = (a', Ok ()) -> validateAuthRequest req = Ok ().
Proof. unfold AuthorizeRequest. by destruct (validateAuthRequest req) as [[]|]. Qed.

Lemma authorize_hit t req a v :
  validateAuthRequest req = Ok () -> cacheEnabled a = true -> cache_Get t (buildCacheKey req) (cache a) = Ok v ->
  AuthorizeRequest is_uuid t req a = (a, verdict (default false v) "cached denial").
Proof. intros Hv Hon Hg. unfold AuthorizeRequest. by rewrite Hv, Hon, Hg. Qed.

Lemma authorize_miss t req a e :
  validateAuthRequest req = Ok () -> cacheEnabled a = true ->
  cache_Get (V := bool) t (buildCacheKey req) (cache a) = Err e ->
  AuthorizeRequest is_uuid t req a =
    (set_cache (cache_Set t (buildCacheKey req) (enforceWithRetry is_uuid a req) (cacheDuration a) (cache a)).2 a,
     verdict (enforceWithRetry is_uuid a req) "permission denied").
Proof. intros Hv Hon Hg. unfold AuthorizeRequest. by rewrite Hv, Hon, Hg. Qed.

Lemma is_ok_verdict allowed s : is_ok (verdict allowed s) = allowed.
Proof. by destruct allowed. Qed.
End authorize.

(** ** The cache is only an optimisation *)

Section transparent.
Context {C : Type} {caching : CacheOps bool C} {flushing : FlushOps bool C} {claws : CacheLaws bool C} {flaws : FlushLaws bool C}.
Context (is_uuid : string -> bool).
Implicit Types a b : authorizer C.

(** The same authorizer with the cache turned off. *)
Definition uncached a : authorizer C :=
  MkAuthorizer (policies a) (roleBindings a) (roles a) (cache a) false (cacheDuration a).

(** What the cache says of a plain request is what the policies say. *)
Definition coherent a : Prop :=
  ∀ t req v, plain_request req = true -> cache_Get t (buildCacheKey req) (cache a) = Ok v ->
  v = Some (enforceWithRetry is_uuid a req).

(** [a] with a cache and [b] without one answer alike. *)
Definition agree (a b : authorizer C) : Prop :=
  cacheEnabled a = true /\ 0 < cacheDuration a /\ coherent a /\ cacheEnabled b = false /\
  policies b = policies a /\ roleBindings b = roleBindings a /\ roles b = roles a.

Lemma enforce_agree a b req : agree a b -> enforceWithRetry is_uuid b req = enforceWithRetry is_uuid a req.
Proof. intros (_ & _ & _ & _ & Hp & Hr & _). unfold enforceWithRetry, roles_of. by rewrite Hp, Hr. Qed.

Lemma coherent_flush a : coherent (set_cache (cache_Flush (V := bool) (cache a)) a).
Proof. intros t req v _ Hg. pose proof (get_flush (V := bool) t (buildCacheKey req) (cache a)) as H. simpl in Hg. by rewrite Hg in H. Qed.

Lemma coherent_set a t req :
  0 < cacheDuration a -> plain_request req = true -> coherent a ->
  coherent (set_cache (cache_Set t (buildCacheKey req) (enforceWithRetry is_uuid a req) (cacheDuration a) (cache a)).2 a).
Proof.
  intros Hd Hreq Hc t' req' v Hreq' Hg. unfold set_cache in Hg. cbn [cache] in Hg.
  destruct (decide (buildCacheKey req = buildCacheKey req')) as [Heq|Hne].
  - apply cache_key_inj in Heq as <-; [|done..]. destruct (Z.le_gt_cases t' (t + cacheDuration a)) as [Hle|Hgt].
    + rewrite get_set in Hg by done. by injection Hg as <-.
    + pose proof (get_set_expired t t' (buildCacheKey req) (enforceWithRetry is_uuid a req) _ (cache a) Hd Hgt) as H.
      by rewrite Hg in H.
  - rewrite get_set_ne in Hg by done. by apply Hc in Hg.
Qed.

(** A change that empties the cache. *)
Lemma agree_invalidate a b :
  cacheEnabled a = true -> 0 < cacheDuration a -> cacheEnabled b = false ->
  policies b = policies a -> roleBindings b = roleBindings a -> roles b = roles a ->
  agree (invalidate a) (invalidate b).
Proof.
  intros Hon Hd Hoff Hp Hr Hs. unfold invalidate. rewrite Hon, Hoff. split_and!; try done. apply coherent_flush.
Qed.

Lemma no_match_filter {A} (f : A -> bool) l : existsb f l = false -> filter (λ x, f x = false) l = l.
Proof.
  induction l as [|x l IH]; [done|]. cbn [existsb]. intros [Hx Hl]%orb_false_iff. by rewrite filter_cons_True, IH.
Qed.

Lemma agree_authorize t req a b :
  plain_request req = true -> agree a b ->
  agree (AuthorizeRequest is_uuid t req a).1 (AuthorizeRequest is_uuid t req b).1 /\
  is_ok (AuthorizeRequest is_uuid t req a).2 = is_ok (AuthorizeRequest is_uuid t req b).2.
Proof.
  intros Hreq Hab. pose proof (enforce_agree _ _ req Hab) as He. destruct Hab as (Hon & Hd & Hc & Hoff & Hrest).
  assert ((AuthorizeRequest is_uuid t req b).1 = b /\
    (validateAuthRequest req = Ok () ->
      is_ok (AuthorizeRequest is_uuid t req b).2 = enforceWithRetry is_uuid a req)) as [-> Hb].
  { unfold AuthorizeRequest. destruct (validateAuthRequest req); [|done]. rewrite Hoff. simpl. rewrite He.
    split; [done|]. intros _. apply is_ok_verdict. }
  destruct (validateAuthRequest req) as [[]|e] eqn:Hv.
  2:{ unfold AuthorizeRequest. by rewrite Hv. }
  rewrite Hb by done. destruct (cache_Get (V := bool) t (buildCacheKey req) (cache a)) as [v|e] eqn:Hg.
  - rewrite (authorize_hit is_uuid _ _ _ _ Hv Hon Hg). apply Hc in Hg as ->; [|done]. simpl fst. simpl snd.
    by rewrite is_ok_verdict.
  - rewrite (authorize_miss is_uuid _ _ _ _ Hv Hon Hg). simpl fst. simpl snd. rewrite is_ok_verdict.
    split; [|done]. split_and!; try apply Hrest; try done. by apply coherent_set.
Qed.

Lemma agree_bindings t a b u r :
  agree a b ->
  (agree (AddRole u r a).1 (AddRole u r b).1 /\ is_ok (AddRole u r a).2 = is_ok (AddRole u r b).2) /\
  (agree (RemoveRole u r a).1 (RemoveRole u r b).1 /\ is_ok (RemoveRole u r a).2 = is_ok (RemoveRole u r b).2) /\
  agree (step is_uuid t op_tick a).1 (step is_uuid t op_tick b).1.
Proof.
  intros Hab. pose proof Hab as (Hon & Hd & Hc & Hoff & Hp & Hr & Hs). split; [|split].
  - unfold AddRole. destruct (_ || _); [by split|]. rewrite Hs. destruct (negb _); [by split|]. rewrite Hr.
    destruct (existsb _ _); [by split|]. split; [|done]. by apply agree_invalidate.
  - unfold RemoveRole. destruct (_ || _); [by split|]. rewrite Hr. destruct (roleBindings a !! u) as [l|] eqn:Hu; [|by split].
    destruct (existsb (String.eqb r) l) eqn:Hl; (split; [|done]); [by apply agree_invalidate|].
    rewrite (list_filter_iff (λ x, String.eqb x r = false) (λ x, String.eqb r x = false)) by (intros x; by rewrite String.eqb_sym).
    rewrite (no_match_filter (String.eqb r) l Hl), insert_id by done. by destruct a, b; simpl in *; subst.
  - by apply agree_invalidate.
Qed.

Lemma agree_policies a b p :
  agree a b ->
  (agree (AddPolicy p a).1 (AddPolicy p b).1 /\ is_ok (AddPolicy p a).2 = is_ok (AddPolicy p b).2) /\
  (agree (RemovePolicy p a).1 (RemovePolicy p b).1 /\ is_ok (RemovePolicy p a).2 = is_ok (RemovePolicy p b).2).
Proof.
  intros Hab. pose proof Hab as (Hon & Hd & Hc & Hoff & Hp & Hr & Hs).
  unfold AddPolicy, RemovePolicy. destruct (validatePolicy p); [|by repeat split; apply Hab]. rewrite Hp.
  destruct (existsb (same_policy p) (policies a)) eqn:Hl.
  - split; (split; [|done]); [done|]. by apply agree_invalidate.
  - rewrite (no_match_filter _ _ Hl). split; (split; [|done]); [by apply agree_invalidate|].
    by destruct a, b; simpl in *; subst.
Qed.

Lemma agree_step t o a b :
  plain_op o = true -> agree a b ->
  agree (step is_uuid t o a).1 (step is_uuid t o b).1 /\ (step is_uuid t o a).2 = (step is_uuid t o b).2.
Proof.
  intros Ho Hab. destruct o as [req|p|p|u r|u r|]; simpl.
  - by apply agree_authorize.
  - by apply agree_policies.
  - by apply agree_policies.
  - by apply (agree_bindings t a b u r).
  - by apply (agree_bindings t a b u r).
  - split; [|done]. by apply (agree_bindings t a b "" "").
Qed.

Lemma agree_run l a b : Forall (λ x, plain_op x.2 = true) l -> agree a b -> run is_uuid l a = run is_uuid l b.
Proof.
  intros Hl. revert a b. induction Hl as [|[t o] l Ho Hl IH]; intros a b Hab; [done|]. cbn [run].
  destruct (agree_step t o a b Ho Hab) as [Hab' Heq]. destruct (step is_uuid t o a), (step is_uuid t o b).
  simpl in *. by rewrite Heq, (IH _ _ Hab').
Qed.

(** C29 The cache of decisions is only an optimisation: from any policies and roles, with any cache
    that keeps a value until it expires and forgets all when it is flushed, every sequence
    of requests and changes succeeds and fails exactly as without a cache, whatever the
    times, provided no subject, resource or action asked about contains a colon. *)
Theorem cached_authorizer_transparent ps bindings rs (c c' : C) d l :
  0 < d -> Forall (λ x, plain_op x.2 = true) l ->
  run is_uuid l (MkAuthorizer ps bindings rs (cache_Flush (V := bool) c) true d) =
  run is_uuid l (MkAuthorizer ps bindings rs c' false d).
Proof.
  intros Hd Hl. apply agree_run; [done|]. split_and!; try done.
  apply (coherent_flush (MkAuthorizer ps bindings rs c true d)).
Qed.
End transparent.

(** ** Memory caches *)

Section memory.
Context (is_uuid : string -> bool).

(** C1. With the memory cache of [pkg/common/cache] the authorizer grants a request at most once in
    the duration of the cache: when the same request comes again its own decision answers
    it, and a hit of that cache never says [true]. *)
Theorem memory_authorizer_denies t t' req (a a' : authorizer (Memory.MemoryCache bool)) :
  cacheEnabled a = true -> 0 < cacheDuration a -> t' <= t + cacheDuration a ->
  AuthorizeRequest is_uuid t req a = (a', Ok ()) ->
  AuthorizeRequest is_uuid t' req a' = (a', Err (denial "cached denial")).
Proof.
  intros Hon Hd Ht' H. pose proof (authorize_valid is_uuid _ _ _ _ H) as Hv.
  destruct (cache_Get (V := bool) t (buildCacheKey req) (cache a)) as [v|e] eqn:Hg.
  { rewrite (authorize_hit is_uuid _ _ _ _ Hv Hon Hg) in H. by apply Memory.get_nothing in Hg as ->. }
  rewrite (authorize_miss is_uuid _ _ _ _ Hv Hon Hg) in H. injection H as <- _.
  by rewrite (authorize_hit is_uuid t' req _ None Hv) by (done || by apply Memory.set_get).
Qed.
End memory.

(** ** Witnesses and examples *)

Definition no_uuid (_ : string) : bool := false.
Definition memory_authorizer : authorizer (Memory.MemoryCache bool) :=
  NewProductionAuthorizer (Memory.NewMemoryCache 10 60) true 60.
Definition map_authorizer : authorizer (ttl_map bool) := NewProductionAuthorizer ∅ true 60.
Definition read_task (user : string) : AuthRequest := MkRequest user "task" "read" "t1".

Lemma memory_authorizer_denies_witness :
  ∃ a', AuthorizeRequest no_uuid 0 (read_task "agent-1") memory_authorizer = (a', Ok ()) /\
  AuthorizeRequest no_uuid 30 (read_task "agent-1") a' = (a', Err (denial "cached denial")).
Proof.
  exists (AuthorizeRequest no_uuid 0 (read_task "agent-1") memory_authorizer).1.
  split; [vm_compute; reflexivity|].
  apply (memory_authorizer_denies no_uuid 0 30 _ memory_authorizer); vm_compute; reflexivity || discriminate.
Defined.

Definition a_morning : list (Z * op) :=
  [(0, op_authorize (read_task "bob")); (1, op_add_role "bob" "viewer"); (2, op_authorize (read_task "bob"));
   (3, op_authorize (read_task "bob")); (4, op_remove_policy (allow "viewer" "task" "read"));
   (5, op_authorize (read_task "bob"))].

Lemma cached_authorizer_transparent_witness :
  run no_uuid a_morning map_authorizer = [false; true; true; true; true; false] /\
  run no_uuid a_morning map_authorizer =
    run no_uuid a_morning (MkAuthorizer defaultPolicies defaultBindings ["admin"; "user"; "viewer"] (∅ : ttl_map bool) false 60).
Proof.
  split; [vm_compute; reflexivity|].
  assert (map_authorizer = MkAuthorizer defaultPolicies defaultBindings ["admin"; "user"; "viewer"]
    (cache_Flush (V := bool) (∅ : ttl_map bool)) true 60) as -> by reflexivity.
  apply (cached_authorizer_transparent no_uuid defaultPolicies defaultBindings ["admin"; "user"; "viewer"] (∅ : ttl_map bool) ∅ 60 a_morning).
  - reflexivity.
  - apply (bool_decide_eq_true_1 _). vm_compute. reflexivity.
Defined.

(** With a colon in it, one request is answered from the decision on another. *)
Example colliding_keys :
  run no_uuid [(0, op_authorize (MkRequest "system:a" "b" "c" ""))] map_authorizer = [false] /\
  run no_uuid [(0, op_authorize (MkRequest "system" "a:b" "c" "")); (1, op_authorize (MkRequest "system:a" "b" "c" ""))]
    map_authorizer = [true; true].
Proof. split; vm_compute; reflexivity. Qed.

(** Policies do not tell users from roles. *)
Example user_named_admin :
  (AuthorizeRequest no_uuid 0 (MkRequest "admin" "task" "delete" "t1") map_authorizer).2 = Ok ().
Proof. vm_compute. reflexivity. Qed.

(** An agent loses its role of [user] when it is given another, and when that is taken away. *)
Example last_role_removed :
  let agent := String.eqb "7d9c" in
  run agent [(0, op_authorize (read_task "7d9c")); (1, op_add_role "7d9c" "viewer");
             (2, op_authorize (MkRequest "7d9c" "task" "create" "t1"));
             (3, op_remove_role "7d9c" "viewer"); (4, op_authorize (read_task "7d9c"))] map_authorizer =
  [true; true; false; true; false].
Proof. vm_compute. reflexivity. Qed.

(** Nothing can be denied to one tenant that is allowed to all. *)
Example no_deny_beside_allow :
  (AddPolicy (Policy.Mk "user" "task" "read" "deny" "t1") map_authorizer).2 = Err (failure "policy already exists").
Proof. vm_compute. reflexivity. Qed.
