(* ===== verification/ServiceLimits.v ===== *)
(** * ServiceLimits: rate limits and quotas of the services

    [CheckRateLimit] and [CheckQuota] of [pkg/services/base_service.go] and the in-memory
    implementations of their interfaces in [service_helpers.go].  The classes [RateLimiter]
    and [QuotaManager] are those interfaces; every method holds the mutex of its receiver, so
    it is one step. *)

From stdpp Require Import base decidable gmap strings list.
From Stdlib Require Import ZArith Lia.
From S2P Require Import Prelude GoAny ServiceErrors.

Local Open Scope string_scope.
Local Open Scope Z_scope.

(** ** Interfaces ([interfaces.go]) *)

Class RateLimiter (L : Type) := {
  Check : Z -> string -> L -> L * res unit;
}.

Class QuotaManager (Q : Type) := {
  GetQuota : UUID -> string -> Q -> res Z;
  GetUsage : UUID -> string -> Q -> res Z;
  IncrementUsage : UUID -> string -> Z -> Q -> Q * res unit;
}.

(** ** The checks of [BaseService]; [None] is a limiter that is not configured *)

Section checks.
Context `{UUIDText} `{RateLimiter L} `{QuotaManager Q}.

(** [rejected] turns any error of the limiter into the service's own. *)
Definition rejected (r : res unit) : res unit :=
  match r with Fails _ => Fails ErrRateLimitExceeded | r => r end.

Definition CheckRateLimit (now : Z) (tenantID : UUID) (agentID resource : string)
    (limiter : option L) : option L * res unit :=
  match limiter with
  | None => (None, Returns ())
  | Some l =>
      let '(l, r) := Check now ("tenant:" +:+ uuid_string tenantID +:+ ":" +:+ resource) l in
      match rejected r with
      | Returns _ =>
          let '(l, r) := Check now ("agent:" +:+ agentID +:+ ":" +:+ resource) l in
          (Some l, rejected r)
      | r => (Some l, r)
      end
  end.

Definition CheckQuota (tenantID : UUID) (resource : string) (amount : Z) (qm : option Q)
    : option Q * res unit :=
  match qm with
  | None => (None, Returns ())
  | Some q =>
      match (quota ← GetQuota tenantID resource q;
             usage ← GetUsage tenantID resource q;
             if quota <? i64 (usage + amount) then Fails ErrQuotaExceeded else Returns ()) with
      | Returns _ =>
          let '(q, r) := IncrementUsage tenantID resource amount q in (Some q, r)
      | r => (Some q, r)
      end
  end.
End checks.

(** ** [InMemoryRateLimiter]: a fixed window per key *)

Module Window.
Record rateLimitEntry := MkEntry {
  count : Z;
  windowStart : Z;
}.

Record t := MkLimiter {
  limits : gmap string rateLimitEntry;
  rate : Z;
  window : Z;
}.

Definition NewInMemoryRateLimiter (rate window : Z) : t := MkLimiter ∅ rate window.

Definition set_entry (key : string) (e : rateLimitEntry) (rl : t) : t :=
  MkLimiter (<[key := e]> (limits rl)) (rate rl) (window rl).

Definition expired (now : Z) (rl : t) (e : rateLimitEntry) : bool :=
  window rl <? time_sub now (windowStart e).

Definition Check_ (now : Z) (key : string) (rl : t) : t * res unit :=
  match limits rl !! key with
  | Some entry =>
      if expired now rl entry then (set_entry key (MkEntry 1 now) rl, Returns ())
      else if count entry <? rate rl
      then (set_entry key (MkEntry (count entry + 1) (windowStart entry)) rl, Returns ())
      else (rl, Fails ErrRateLimitExceeded)
  | None => (set_entry key (MkEntry 1 now) rl, Returns ())
  end.

Definition CheckWithLimit (now : Z) (key : string) (limit window : Z) (rl : t) : t * res unit :=
  Check_ now key rl.

Definition GetRemaining (key : string) (rl : t) : Z :=
  match limits rl !! key with
  | None => rate rl
  | Some entry => Z.max 0 (i64 (rate rl - count entry))
  end.

Definition Reset_ (key : string) (rl : t) : t :=
  MkLimiter (delete key (limits rl)) (rate rl) (window rl).

(** One tick of [cleanup]. *)
Definition cleanup (now : Z) (rl : t) : t :=
  MkLimiter
    (filter (λ kv : string * rateLimitEntry,
       i64 (window rl * 2) <? time_sub now (windowStart kv.2) = false) (limits rl))
    (rate rl) (window rl).

#[global] Instance InMemoryRateLimiter : RateLimiter t := {| Check := Check_ |}.

(** The outcomes for one key at the times [ts]. *)
Fixpoint checks (key : string) (ts : list Z) (rl : t) : t * list bool :=
  match ts with
  | [] => (rl, [])
  | now :: ts =>
      let '(rl, r) := Check_ now key rl in
      let '(rl, rs) := checks key ts rl in
      (rl, match r with Returns _ => true | _ => false end :: rs)
  end.

Definition admitted (bs : list bool) : Z := Z.of_nat (List.length (filter (λ b, b = true) bs)).

(** Any use of a limiter: the state it can be in when a client arrives. *)
Inductive operation :=
| OpCheck (now : Z) (key : string)
| OpReset (key : string)
| OpCleanup (now : Z).

Definition apply_op (rl : t) (o : operation) : t :=
  match o with
  | OpCheck now key => (Check_ now key rl).1
  | OpReset key => Reset_ key rl
  | OpCleanup now => cleanup now rl
  end.

Definition counts_ok (rl : t) : Prop :=
  map_Forall (λ _ e, 1 <= count e <= Z.max 1 (rate rl)) (limits rl).

Lemma counts_at rl key e :
  counts_ok rl -> limits rl !! key = Some e -> 1 <= count e <= Z.max 1 (rate rl).
Proof. intros Hrl He. exact (Hrl key e He). Qed.

Lemma set_entry_ok key e rl :
  counts_ok rl -> 1 <= count e <= Z.max 1 (rate rl) -> counts_ok (set_entry key e rl).
Proof. intros Hrl He. by apply map_Forall_insert_2. Qed.

Lemma check_ok now key rl : counts_ok rl -> counts_ok (Check_ now key rl).1.
Proof.
  intros Hrl. unfold Check_. destruct (limits rl !! key) as [e|] eqn:He.
  - pose proof (counts_at _ _ _ Hrl He). destruct (expired _ _ _); cbn [fst]; [apply set_entry_ok; [done|cbn [count]; lia]|].
    destruct (Z.ltb_spec (count e) (rate rl)); cbn [fst]; [apply set_entry_ok; [done|cbn [count]; lia]|done].
  - apply set_entry_ok; [done|cbn [count]; lia].
Qed.

Lemma check_config now key rl :
  rate (Check_ now key rl).1 = rate rl /\ window (Check_ now key rl).1 = window rl.
Proof.
  unfold Check_. destruct (limits rl !! key); [|done].
  destruct (expired _ _ _); [done|]. by destruct (_ <? _).
Qed.

Lemma window_admitted_cons b bs : admitted (b :: bs) = (if b then 1 else 0) + admitted bs.
Proof. unfold admitted. rewrite filter_cons. destruct b; simpl; lia. Qed.

Lemma apply_op_ok rl o :
  counts_ok rl ->
  counts_ok (apply_op rl o) /\ rate (apply_op rl o) = rate rl /\ window (apply_op rl o) = window rl.
Proof.
  intros Hrl. destruct o as [now key|key|now]; simpl.
  - split; [by apply check_ok|apply check_config].
  - split; [|done]. by apply map_Forall_delete.
  - split; [|done]. intros k e He. apply map_lookup_filter_Some in He as [He _]. by apply (Hrl k).
Qed.

Lemma apply_ops_ok ops rl :
  counts_ok rl ->
  counts_ok (foldl apply_op rl ops) /\ rate (foldl apply_op rl ops) = rate rl /\
  window (foldl apply_op rl ops) = window rl.
Proof.
  revert rl. induction ops as [|o ops IH]; intros rl Hrl; simpl; [done|].
  destruct (apply_op_ok rl o Hrl) as (Hok & Hr & Hw). destruct (IH _ Hok) as (? & ? & ?).
  split_and!; [done|congruence..].
Qed.

(** While the window of an entry lasts, the entry admits up to the rate. *)
Lemma checks_in_window key ts rl e :
  limits rl !! key = Some e -> 1 <= count e <= Z.max 1 (rate rl) ->
  Forall (λ u, expired u rl e = false) ts ->
  admitted (checks key ts rl).2 <= Z.max 1 (rate rl) - count e.
Proof.
  revert rl e. induction ts as [|u ts IH]; intros rl e He Hc Hts; simpl.
  { change (admitted []) with 0. lia. }
  apply Forall_cons in Hts as [Hex Hts]. unfold Check_ at 1. rewrite He, Hex.
  destruct (Z.ltb_spec (count e) (rate rl)) as [Hlt|Hge].
  - specialize (IH (set_entry key (MkEntry (count e + 1) (windowStart e)) rl)
                   (MkEntry (count e + 1) (windowStart e))).
    destruct (checks key ts _) as [rl' bs]. simpl in *. rewrite window_admitted_cons.
    assert (admitted bs <= Z.max 1 (rate rl) - (count e + 1)); [|lia].
    apply IH; [by rewrite lookup_insert_eq|lia|done].
  - specialize (IH rl e He Hc Hts). destruct (checks key ts rl) as [rl' bs].
    simpl in *. rewrite window_admitted_cons. lia.
Qed.

(** After a reset at [u] the rest of the stretch falls into the new window. *)
Lemma checks_after_reset key u ts t0 rl :
  t0 <= u -> 0 <= window rl < max_int64 ->
  Forall (λ v, t0 <= v <= t0 + window rl) ts ->
  admitted (checks key ts (set_entry key (MkEntry 1 u) rl)).2 <= Z.max 1 (rate rl) - 1.
Proof.
  intros Hu Hw Hts.
  change (rate rl) with (rate (set_entry key (MkEntry 1 u) rl)).
  apply (checks_in_window key ts _ (MkEntry 1 u)); cbn [set_entry limits rate count].
  - by rewrite lookup_insert_eq.
  - lia.
  - eapply Forall_impl; [done|]. intros v Hv. simpl in Hv. unfold expired. simpl.
    apply Z.ltb_ge. unfold time_sub. unfold_ints. lia.
Qed.

Definition spare (key : string) (rl : t) : Z :=
  match limits rl !! key with Some e => Z.max 1 (rate rl) - count e | None => 0 end.

Lemma checks_bound key ts rl t0 :
  0 <= window rl < max_int64 -> counts_ok rl ->
  Forall (λ u, t0 <= u <= t0 + window rl) ts ->
  admitted (checks key ts rl).2 <= Z.max 1 (rate rl) + spare key rl.
Proof.
  intros Hw. revert rl Hw. induction ts as [|u ts IH]; intros rl Hw Hok Hts; simpl.
  { change (admitted []) with 0. unfold spare. destruct (limits rl !! key) as [e|] eqn:He; [|lia].
    pose proof (counts_at _ _ _ Hok He). lia. }
  apply Forall_cons in Hts as [Hu Hts].
  pose proof (checks_after_reset key u ts t0 rl ltac:(lia) Hw Hts) as Hreset.
  unfold Check_ at 1, spare. destruct (limits rl !! key) as [e|] eqn:He.
  - pose proof (counts_at _ _ _ Hok He) as Hc. destruct (expired u rl e).
    + destruct (checks key ts _) as [rl' bs]. simpl in *. rewrite window_admitted_cons. lia.
    + destruct (Z.ltb_spec (count e) (rate rl)) as [Hlt|Hge].
      * specialize (IH (set_entry key (MkEntry (count e + 1) (windowStart e)) rl) Hw).
        unfold spare in IH. simpl in IH. rewrite lookup_insert_eq in IH.
        destruct (checks key ts _) as [rl' bs]. simpl in *. rewrite window_admitted_cons.
        assert (admitted bs <= Z.max 1 (rate rl) + (Z.max 1 (rate rl) - (count e + 1))); [|lia].
        apply IH; [|done]. apply set_entry_ok; [done|simpl; lia].
      * specialize (IH rl Hw Hok Hts). unfold spare in IH. rewrite He in IH.
        destruct (checks key ts rl) as [rl' bs]. simpl in *. rewrite window_admitted_cons. lia.
  - destruct (checks key ts _) as [rl' bs]. simpl in *. rewrite window_admitted_cons. lia.
Qed.

(** Keys do not affect one another. *)
Lemma check_other_key now key key' rl :
  key ≠ key' -> limits (Check_ now key rl).1 !! key' = limits rl !! key'.
Proof.
  intros Hk. unfold Check_. destruct (limits rl !! key) as [e|] eqn:He; simpl.
  - destruct (expired _ _ _); simpl; [by rewrite lookup_insert_ne|].
    destruct (_ <? _); simpl; [by rewrite lookup_insert_ne|done].
  - by rewrite lookup_insert_ne.
Qed.
End Window.

(** ** [InMemoryQuotaManager] *)

Module Quota.
Record quotaEntry := MkQuota {
  used : Z;
  limit : Z;
}.
Definition t : Type := gmap string quotaEntry.

Definition NewInMemoryQuotaManager : t :=
  list_to_map [
    ("tasks", MkQuota 0 10000);
    ("workflows", MkQuota 0 1000);
    ("workspaces", MkQuota 0 100);
    ("documents", MkQuota 0 10000);
    ("agents", MkQuota 0 1000)
  ].

Definition GetQuota_ (tenantID : UUID) (resource : string) (qm : t) : res Z :=
  match (qm : gmap string quotaEntry) !! resource with
  | Some quota => Returns (limit quota)
  | None => Fails ErrResourceNotFound
  end.

Definition GetUsage_ (tenantID : UUID) (resource : string) (qm : t) : res Z :=
  match (qm : gmap string quotaEntry) !! resource with
  | Some quota => Returns (used quota)
  | None => Fails ErrResourceNotFound
  end.

Definition IncrementUsage_ (tenantID : UUID) (resource : string) (amount : Z) (qm : t)
    : t * res unit :=
  match (qm : gmap string quotaEntry) !! resource with
  | None => (qm, Fails ErrResourceNotFound)
  | Some quota =>
      let newUsed := i64 (used quota + amount) in
      if limit quota <? newUsed
      then (qm, Fails (QuotaExceededError resource (used quota) (limit quota)))
      else (<[resource := MkQuota newUsed (limit quota)]> qm, Returns ())
  end.

Definition SetQuota (tenantID : UUID) (resource : string) (newLimit : Z) (qm : t) : t :=
  match (qm : gmap string quotaEntry) !! resource with
  | None => <[resource := MkQuota 0 newLimit]> qm
  | Some quota => <[resource := MkQuota (used quota) newLimit]> qm
  end.

Record QuotaInfo := MkQuotaInfo {
  Resource : string;
  Limit : Z;
  Used : Z;
  Available : Z;
  Period : string;
}.

Definition GetQuotaStatus (tenantID : UUID) (qm : t) : UUID * gmap string QuotaInfo :=
  (tenantID,
   map_imap (λ resource quota,
     Some (MkQuotaInfo resource (limit quota) (used quota) (i64 (limit quota - used quota)) "monthly"))
     (qm : gmap string quotaEntry)).

#[global] Instance InMemoryQuotaManager : QuotaManager t := {|
  GetQuota := GetQuota_;
  GetUsage := GetUsage_;
  IncrementUsage := IncrementUsage_;
|}.

(** No resource is used beyond its limit. *)
Definition within (qm : t) : Prop := map_Forall (λ _ q, used q <= limit q) (qm : gmap string quotaEntry).

Lemma increment_within tenantID resource amount qm :
  within qm -> within (IncrementUsage_ tenantID resource amount qm).1.
Proof.
  intros Hqm. unfold IncrementUsage_. destruct (_ !! resource) as [q|]; [|done].
  destruct (Z.ltb_spec (limit q) (i64 (used q + amount))); [done|].
  apply map_Forall_insert_2; [done|by apply Hqm].
Qed.

Definition usage (resource : string) (qm : t) : Z :=
  match (qm : gmap string quotaEntry) !! resource with Some q => used q | None => 0 end.
End Quota.

(** ** Results *)

(** The number of requests under one key that are let through in any stretch as long as the
    window, whatever the limiter served before, is below twice the rate. *)
Theorem window_limiter_bound rate window ops key t0 ts :
  0 <= window < max_int64 ->
  Forall (λ u, t0 <= u <= t0 + window) ts ->
  Window.admitted (Window.checks key ts
     (foldl Window.apply_op (Window.NewInMemoryRateLimiter rate window) ops)).2
  <= 2 * Z.max 1 rate - 1.
Proof.
  intros Hw Hts.
  destruct (Window.apply_ops_ok ops (Window.NewInMemoryRateLimiter rate window))
    as (Hok & Hr & Hwin); [by apply map_Forall_empty|].
  simpl in Hr, Hwin. set (rl := foldl _ _ _) in *.
  pose proof (Window.checks_bound key ts rl t0) as Hb.
  rewrite Hr, Hwin in Hb. specialize (Hb Hw Hok Hts). unfold Window.spare in Hb. rewrite Hr in Hb.
  destruct (Window.limits rl !! key) as [e|] eqn:He; [|lia].
  pose proof (Window.counts_at _ _ _ Hok He) as Hc. rewrite Hr in Hc. lia.
Qed.

Lemma window_limiter_bound_witness :
  Window.admitted (Window.checks "k" [10; 10; 10; 15; 15; 15; 15]
     (foldl Window.apply_op (Window.NewInMemoryRateLimiter 3 10) [Window.OpCheck 1 "k"])).2 = 5 /\
  Window.admitted (Window.checks "k" [10; 10; 10; 15; 15; 15; 15]
     (foldl Window.apply_op (Window.NewInMemoryRateLimiter 3 10) [Window.OpCheck 1 "k"])).2
  <= 2 * Z.max 1 3 - 1.
Proof.
  split; [vm_compute; reflexivity|].
  apply (window_limiter_bound 3 10 [Window.OpCheck 1 "k"] "k" 10); [unfold_ints; lia|].
  repeat constructor; lia.
Defined.

Lemma check_quota_within tenantID resource amount qm :
  Quota.within qm ->
  exists qm', (CheckQuota tenantID resource amount (Some qm)).1 = Some qm' /\ Quota.within qm'.
Proof.
  intros Hqm. unfold CheckQuota.
  destruct (_ ≫= _) as [[]|e|]; [|by eexists|by eexists].
  pose proof (Quota.increment_within tenantID resource amount qm Hqm) as Hw.
  change (IncrementUsage tenantID resource amount qm)
    with (Quota.IncrementUsage_ tenantID resource amount qm).
  destruct (Quota.IncrementUsage_ tenantID resource amount qm) as [q r]. by exists q.
Qed.

(** A sequence of quota checks: tenant, resource, amount. *)
Definition check_all (qm : option Quota.t) (calls : list (UUID * string * Z)) : option Quota.t :=
  foldl (λ q c, (CheckQuota c.1.1 c.1.2 c.2 q).1) qm calls.
(** From the default quotas, checks in any order never take the usage of a resource beyond
    its limit; the tenant has no influence, so all tenants draw on one allowance. *)
Theorem quota_shared calls tenantID other resource amount :
  exists qm, check_all (Some Quota.NewInMemoryQuotaManager) calls = Some qm /\
    Quota.within qm /\
    CheckQuota tenantID resource amount (Some qm) = CheckQuota other resource amount (Some qm).
Proof.
  assert (exists qm, check_all (Some Quota.NewInMemoryQuotaManager) calls = Some qm /\
    Quota.within qm) as (qm & Hq & Hw); [|by exists qm].
  assert (Quota.within Quota.NewInMemoryQuotaManager) as Hw
    by (apply (bool_decide_unpack _); vm_compute; exact I).
  revert Hw. generalize Quota.NewInMemoryQuotaManager.
  induction calls as [|c calls IH]; intros qm Hw; [by exists qm|].
  destruct (check_quota_within c.1.1 c.1.2 c.2 qm Hw) as (qm' & Heq & Hw'). unfold check_all.
  cbn [foldl]. rewrite Heq. by apply IH.
Qed.

Example quota_race :
  let '(q, r1) := CheckQuota 1%N "workspaces" 100
                    (Some Quota.NewInMemoryQuotaManager) in
  r1 = Returns () /\
  (CheckQuota 2%N "workspaces" 1 q).2 = Fails ErrQuotaExceeded.
Proof. vm_compute. done. Qed.
