(* ===== verification/Transaction.v ===== *)
(** * Transaction: the distributed transactions of [pkg/services/base_service.go]

    A transaction prepares its participants, then commits them all or rolls them all back;
    the participants of a phase run in goroutines, so the order of their effects is an
    argument of [Commit] and [Rollback], constrained to a permutation.  What the participants
    and the compensations do is seen through a trace of events; their answers are a
    parameter.  The mutex is held from start to end of every method, so each is a step.
    [WithTransaction] runs a function on the state of the program, [W]. *)

From stdpp Require Import base decidable gmap strings list relations.
From Stdlib Require Import ZArith Lia.
From S2P Require Import Prelude GoAny ServiceErrors.

Local Open Scope string_scope.
Local Open Scope Z_scope.

Inductive TransactionState :=
| TxStateActive
| TxStatePreparing
| TxStateCommitting
| TxStateAborting
| TxStateCommitted
| TxStateAborted.

#[export] Instance TransactionState_eq_dec : EqDecision TransactionState.
Proof. solve_decision. Defined.

(** What can be observed of a participant, by its identifier, or of a compensation, by its
    number, with the answer it gave. *)
Inductive event :=
| Prepared (participant : string) (ok : bool)
| CommittedBy (participant : string) (ok : bool)
| RolledBack (participant : string) (ok : bool)
| Compensated (n : nat) (ok : bool).

Record tx := MkTx {
  participants : gset string;
  state : TransactionState;
  compensations : list nat;
  cancelled : bool;
  trace : list event;
}.

Definition startDistributedTransaction : tx := MkTx ∅ TxStateActive [] false [].

Definition set_state (st : TransactionState) (t : tx) : tx :=
  MkTx (participants t) st (compensations t) (cancelled t) (trace t).
Definition emit (es : list event) (t : tx) : tx :=
  MkTx (participants t) (state t) (compensations t) (cancelled t) (trace t ++ es).
Definition cancel (t : tx) : tx :=
  MkTx (participants t) (state t) (compensations t) true (trace t).

Definition RegisterParticipant (participantID : string) (t : tx) : tx * res unit :=
  if negb (bool_decide (state t = TxStateActive))
  then (t, Fails (Errorf (Text "cannot register participant: transaction not active")))
  else if bool_decide (participantID ∈ participants t)
  then (t, Fails (Errorf (Sprintf "participant already registered: %s" [AString participantID])))
  else (MkTx ({[participantID]} ∪ participants t) (state t) (compensations t) (cancelled t) (trace t),
        Returns ()).

(** A compensation is a function; here the number under which the trace shows it. *)
Definition AddCompensation (n : nat) (t : tx) : tx :=
  MkTx (participants t) (state t) (compensations t ++ [n]) (cancelled t) (trace t).

(** The answers of participants and compensations: no error. *)
Record answers := MkAnswers {
  prepare_ok : string -> bool;
  commit_ok : string -> bool;
  rollback_ok : string -> bool;
  compensation_ok : nat -> bool;
}.

(** The orders in which the goroutines of the phases run. *)
Record schedule := MkSchedule {
  prepare_order : list string;
  commit_order : list string;
  rollback_order : list string;
}.

Definition fair (o : schedule) (t : tx) : Prop :=
  prepare_order o ≡ₚ elements (participants t) /\
  commit_order o ≡ₚ elements (participants t) /\
  rollback_order o ≡ₚ elements (participants t).

Section two_phase.
Context (a : answers).

Definition prepares (l : list string) : list event := (λ p, Prepared p (prepare_ok a p)) <$> l.
Definition commits (l : list string) : list event := (λ p, CommittedBy p (commit_ok a p)) <$> l.
Definition rollbacks (l : list string) : list event := (λ p, RolledBack p (rollback_ok a p)) <$> l.
Definition compensate (l : list nat) : list event :=
  (λ n, Compensated n (compensation_ok a n)) <$> rev l.

Definition doRollback (o : schedule) (t : tx) : tx :=
  emit (compensate (compensations t)) (emit (rollbacks (rollback_order o)) t).

Definition Commit (o : schedule) (t : tx) : tx * res unit :=
  if negb (bool_decide (state t = TxStateActive))
  then (t, Fails (Errorf (Text "cannot commit: transaction not in active state")))
  else
    let t := emit (prepares (prepare_order o)) (set_state TxStatePreparing t) in
    let prepareErrors := filter (λ p, prepare_ok a p = false) (prepare_order o) in
    if (0 <? List.length prepareErrors)%nat then
      let t := doRollback o (set_state TxStateAborting t) in
      (set_state TxStateAborted t,
       Fails (Errorf (Sprintf "prepare phase failed: %d participants failed"
                        [AInt (Z.of_nat (List.length prepareErrors))])))
    else
      let t := emit (commits (commit_order o)) (set_state TxStateCommitting t) in
      (cancel (set_state TxStateCommitted t), Returns ()).

Definition Rollback (o : schedule) (t : tx) : tx * res unit :=
  if bool_decide (state t = TxStateAborted) || bool_decide (state t = TxStateCommitted)
  then (t, Fails (Errorf (Text "cannot rollback: transaction already finished")))
  else
    let t := doRollback o (set_state TxStateAborting t) in
    (cancel (set_state TxStateAborted t), Returns ()).

(** ** [WithTransaction] and compensations *)

Section with_transaction.
Context {W : Type}.

(** A compensation changes the program's state and may return an error. *)
Definition compensation : Type := W -> W * option error.

(** The newest first. *)
Definition NewCompensator : list compensation := [].
Definition AddCompensation_ (fn : compensation) (c : list compensation) : list compensation := fn :: c.

Fixpoint run_all (c : list compensation) (w : W) : W * list error :=
  match c with
  | [] => (w, [])
  | fn :: c =>
      let '(w, e) := fn w in
      let '(w, errs) := run_all c w in
      (w, match e with Some e => e :: errs | None => errs end)
  end.

Definition Compensate (c : list compensation) (w : W) : W * res unit :=
  let '(w, errs) := run_all c w in
  (w, match errs with e :: _ => Fails (Wrapped "compensation failed" e) | [] => Returns () end).

(** [fn] also gets the transaction, as an interface with [Commit] and [Rollback].  The
    compensator travels in the context under a key of a type that is local to
    [WithTransaction], so nothing can add to it. *)
Definition WithTransaction (o_commit o_rollback : schedule)
    (fn : W -> tx -> W * tx * res unit) (w : W) : W * res unit :=
  let compensator := NewCompensator in
  let '(w, t, err) := fn w startDistributedTransaction in
  match err with
  | Panics => (w, Panics)
  | Fails e =>
      let '(w, _) := Compensate compensator w in
      let '(_, _) := Rollback o_rollback t in
      (w, Fails e)
  | Returns _ =>
      match (Commit o_commit t).2 with
      | Returns _ => (w, Returns ())
      | r => let '(w, _) := Compensate compensator w in (w, r)
      end
  end.
End with_transaction.

(** ** Any use of a transaction *)

Inductive step (t : tx) : tx -> Prop :=
| step_register p : step t (RegisterParticipant p t).1
| step_compensation n : step t (AddCompensation n t)
| step_commit o : fair o t -> step t (Commit o t).1
| step_rollback o : fair o t -> step t (Rollback o t).1.

Definition reachable (t : tx) : Prop := rtc step startDistributedTransaction t.

(** What the trace of a transaction looks like in each of its lasting states; [ps] and [cs]
    are the participants and compensations when it ended. *)
Inductive outcome_of (ps : gset string) : TransactionState -> list event -> Prop :=
| outcome_active : outcome_of ps TxStateActive []
| outcome_committed l l' :
    l ≡ₚ elements ps -> l' ≡ₚ elements ps -> Forall (λ p, prepare_ok a p = true) l ->
    outcome_of ps TxStateCommitted (prepares l ++ commits l')
| outcome_refused l l' cs :
    l ≡ₚ elements ps -> l' ≡ₚ elements ps -> Exists (λ p, prepare_ok a p = false) l ->
    outcome_of ps TxStateAborted (prepares l ++ rollbacks l' ++ compensate cs)
| outcome_aborted l cs :
    l ≡ₚ elements ps ->
    outcome_of ps TxStateAborted (rollbacks l ++ compensate cs).

Lemma prepare_errors_none l :
  (0 <? List.length (filter (λ p, prepare_ok a p = false) l))%nat = false ->
  Forall (λ p, prepare_ok a p = true) l.
Proof.
  induction l as [|p l IH]; [constructor|]. rewrite filter_cons. case_decide as Hp; [done|].
  intros Hl. constructor; [by destruct (prepare_ok a p)|by apply IH].
Qed.

Lemma prepare_errors_some l :
  (0 <? List.length (filter (λ p, prepare_ok a p = false) l))%nat = true ->
  Exists (λ p, prepare_ok a p = false) l.
Proof.
  induction l as [|p l IH]; [done|]. rewrite filter_cons. case_decide as Hp.
  - intros _. by left.
  - intros Hl. right. by apply IH.
Qed.

Lemma reachable_outcome t : reachable t -> outcome_of (participants t) (state t) (trace t).
Proof.
  revert t. apply rtc_ind_r; [constructor|]. intros t t' _ Hs IH.
  destruct Hs as [p|n|o (Hp & Hc & Hr)|o (Hp & Hc & Hr)].
  - unfold RegisterParticipant. case_bool_decide as Ha; simpl; [|done].
    case_bool_decide; simpl; [done|]. rewrite Ha in *. inversion IH; constructor.
  - done.
  - unfold Commit. case_bool_decide as Ha; simpl; [|done].
    rewrite Ha in IH. inversion IH as [Hst Htr| | |].
    destruct (0 <? _)%nat eqn:He; cbn; rewrite <-Htr, <-?app_assoc.
    + constructor; [done|done|by apply prepare_errors_some].
    + constructor; [done|done|by apply prepare_errors_none].
  - unfold Rollback. destruct (bool_decide _) eqn:Ha; simpl; [done|].
    destruct (bool_decide (state t = TxStateCommitted)) eqn:Hb; simpl; [done|].
    apply bool_decide_eq_false in Ha, Hb. inversion IH as [Hst Htr| | |]; try congruence.
    cbn. by constructor.
Qed.

(** Reading events back from the list that a phase emits. *)
Lemma prepared_elem l p ok : Prepared p ok ∈ prepares l <-> p ∈ l /\ ok = prepare_ok a p.
Proof. unfold prepares. rewrite list_elem_of_fmap. naive_solver. Qed.
Lemma committed_elem l p ok : CommittedBy p ok ∈ commits l <-> p ∈ l /\ ok = commit_ok a p.
Proof. unfold commits. rewrite list_elem_of_fmap. naive_solver. Qed.
Lemma rolled_back_elem l p ok : RolledBack p ok ∈ rollbacks l <-> p ∈ l /\ ok = rollback_ok a p.
Proof. unfold rollbacks. rewrite list_elem_of_fmap. naive_solver. Qed.

Lemma phase_disjoint l cs p ok :
  CommittedBy p ok ∉ prepares l /\ CommittedBy p ok ∉ rollbacks l /\
  CommittedBy p ok ∉ compensate cs /\
  RolledBack p ok ∉ prepares l /\ RolledBack p ok ∉ commits l /\ RolledBack p ok ∉ compensate cs.
Proof.
  unfold prepares, rollbacks, commits, compensate. split_and!; rewrite list_elem_of_fmap; naive_solver.
Qed.

Definition finished (t : tx) : Prop := state t = TxStateCommitted \/ state t = TxStateAborted.

Lemma finished_stays t o :
  finished t -> (Commit o t).1 = t /\ (Rollback o t).1 = t /\
  forall p, (RegisterParticipant p t).1 = t.
Proof.
  intros Hf. unfold Commit, Rollback, RegisterParticipant.
  destruct Hf as [Hf|Hf]; rewrite Hf; done.
Qed.
End two_phase.

Section compensator.
Context {W : Type}.
Implicit Types (c : list (compensation (W := W))) (w : W).

Lemma run_all_state c w : (run_all c w).1 = foldl (λ w fn, (fn w).1) w c.
Proof.
  revert w. induction c as [|fn c IH]; intros w; simpl; [done|].
  rewrite <-IH. destruct (fn w) as [w1 e]. simpl. by destruct (run_all c w1).
Qed.

Lemma run_all_errors c w :
  (run_all c w).2 = [] <->
  forall i fn, c !! i = Some fn -> (fn (foldl (λ w fn, (fn w).1) w (take i c))).2 = None.
Proof.
  revert w. induction c as [|fn c IH]; intros w; simpl.
  { split; [|done]. intros _ i fn. by rewrite lookup_nil. }
  specialize (IH (fn w).1). destruct (fn w) as [w1 e] eqn:Hfn. simpl in IH.
  destruct (run_all c w1) as [w2 errs]. simpl in *. split.
  - intros He. destruct e as [e|]; [done|]. subst errs. intros [|i] fn' Hi; simpl in *.
    + injection Hi as <-. by rewrite Hfn.
    + rewrite Hfn. simpl. by apply IH.
  - intros H. pose proof (H 0%nat fn eq_refl) as H0. simpl in H0. rewrite Hfn in H0. simpl in H0.
    subst e. apply IH. intros i fn' Hi. specialize (H (S i) fn' Hi). simpl in H. by rewrite Hfn in H.
Qed.
End compensator.

Lemma with_transaction_alone {W} a o o' (fn : W -> W * res unit) w :
  fair o startDistributedTransaction -> fair o' startDistributedTransaction ->
  WithTransaction a o o' (λ w t, let '(w, r) := fn w in (w, t, r)) w = fn w.
Proof.
  intros Ho Ho'. unfold WithTransaction. destruct (fn w) as [w' [[]|e|]]; [| |done].
  - destruct Ho as (Hp & _). apply Permutation_nil_r in Hp.
    unfold Commit. simpl. by rewrite Hp.
  - by destruct (Rollback a o' startDistributedTransaction).
Qed.

(** ** Results *)


(** A commit reaches its verdict: it succeeds exactly if every participant prepares, and it
    always ends the transaction, telling every participant once. *)
Theorem commit_verdict a t o :
  reachable a t -> state t = TxStateActive -> fair o t ->
  let '(t', r) := Commit a o t in
  (r = Returns () <-> forall p, p ∈ participants t -> prepare_ok a p = true) /\
  match r with
  | Returns _ => state t' = TxStateCommitted /\ cancelled t' = true /\
      trace t' = (prepares a (prepare_order o) ++ commits a (commit_order o))%list
  | _ => state t' = TxStateAborted /\ cancelled t' = cancelled t /\
      trace t' = (prepares a (prepare_order o) ++ rollbacks a (rollback_order o) ++
                  compensate a (compensations t))%list
  end.
Proof.
  intros Ht%reachable_outcome Ha (Hp & Hc & Hr).
  assert (trace t = []) as Htr by (rewrite Ha in Ht; by inversion Ht).
  unfold Commit. rewrite bool_decide_true by done. cbn [negb].
  destruct (0 <? _)%nat eqn:He; cbn; rewrite Htr; cbn; rewrite <-?app_assoc; split; try done.
  - split; [done|]. intros Hall. exfalso. apply prepare_errors_some, Exists_exists in He as (p & Hin & Hno).
    rewrite Hp in Hin. apply elem_of_elements in Hin. rewrite Hall in Hno; done.
  - split; [|done]. intros _ p Hin. apply prepare_errors_none in He. rewrite Forall_forall in He.
    apply He. by rewrite Hp, elem_of_elements.
Qed.

Definition all_ok : answers := MkAnswers (λ _, true) (λ _, true) (λ _, true) (λ _, true).
Definition witness_answers : answers :=
  MkAnswers (λ p, negb (String.eqb p "b")) (λ _, true) (λ _, true) (λ _, true).
Definition witness_schedule : schedule := MkSchedule ["b"; "a"] ["a"; "b"] ["a"; "b"].
Definition witness_tx : tx :=
  AddCompensation 1 (RegisterParticipant "b" (RegisterParticipant "a" startDistributedTransaction).1).1.

Lemma witness_fair : fair witness_schedule witness_tx.
Proof. unfold fair. vm_compute. split_and!; solve_Permutation || constructor. Qed.

Lemma witness_reachable : reachable witness_answers witness_tx.
Proof.
  eapply rtc_l; [apply (step_register _ _ "a")|]. eapply rtc_l; [apply (step_register _ _ "b")|].
  eapply rtc_l; [apply (step_compensation _ _ 1)|]. constructor.
Qed.

Lemma witness_committed :
  reachable all_ok (Commit all_ok witness_schedule witness_tx).1.
Proof.
  eapply rtc_l; [apply (step_register _ _ "a")|]. eapply rtc_l; [apply (step_register _ _ "b")|].
  eapply rtc_l; [apply (step_compensation _ _ 1)|]. eapply rtc_l; [|constructor].
  apply step_commit, witness_fair.
Qed.


Lemma commit_verdict_witness :
  (Commit witness_answers witness_schedule witness_tx).2
    = Fails (Errorf (Sprintf "prepare phase failed: %d participants failed" [AInt 1])) /\
  trace (Commit witness_answers witness_schedule witness_tx).1 =
    [Prepared "b" false; Prepared "a" true; RolledBack "a" true; RolledBack "b" true;
     Compensated 1 true].
Proof.
  pose proof (commit_verdict witness_answers witness_tx witness_schedule witness_reachable
                eq_refl witness_fair) as [_ H].
  vm_compute in H |- *. destruct H as (_ & _ & H). split; [reflexivity|exact H].
Defined.

(** The transactions of [WithTransaction] have no participants and no compensations: when the
    function returns an error or panics, what it did to the program's state stays done. *)
Theorem with_transaction_keeps_effects {W} a o o' (fn : W -> W * res unit) w :
  fair o startDistributedTransaction -> fair o' startDistributedTransaction ->
  WithTransaction a o o' (λ w t, let '(w, r) := fn w in (w, t, r)) w = fn w.
Proof. apply with_transaction_alone. Qed.

(** A function that itself ends the transaction makes [WithTransaction] fail. *)
Definition no_participants : schedule := MkSchedule [] [] [].

Lemma with_transaction_keeps_effects_witness :
  WithTransaction (W := Z) all_ok no_participants no_participants
    (λ w t, let '(w, r) := (w + 1, Fails ErrNotFound) in (w, t, r)) 41 = (42, Fails ErrNotFound).
Proof.
  refine (with_transaction_keeps_effects all_ok no_participants no_participants
            (λ w, (w + 1, Fails ErrNotFound)) 41 _ _);
    unfold fair; vm_compute; repeat constructor.
Defined.

(** [Compensate] runs every compensation, the newest first, whatever errors they return, and
    succeeds exactly if none of them fails. *)
Theorem compensate_all {W} (fns : list (compensation (W := W))) w :
  let c := foldl (λ c fn, AddCompensation_ fn c) NewCompensator fns in
  (Compensate c w).1 = foldr (λ fn w, (fn w).1) w fns /\
  ((Compensate c w).2 = Returns () <->
   forall i fn, rev fns !! i = Some fn ->
     (fn (foldl (λ w fn, (fn w).1) w (take i (rev fns)))).2 = None).
Proof.
  simpl. assert (foldl (λ c fn, AddCompensation_ fn c) NewCompensator fns = rev fns) as ->.
  { unfold NewCompensator. rewrite <-(app_nil_r (rev fns)). generalize (@nil (compensation (W := W))).
    induction fns as [|fn fns IH]; intros c; simpl; [done|]. rewrite IH. by rewrite <-app_assoc. }
  unfold Compensate. destruct (run_all (rev fns) w) as [w' errs] eqn:Hr. split.
  - simpl. transitivity (run_all (rev fns) w).1; [by rewrite Hr|].
    rewrite run_all_state. clear. revert w. induction fns as [|fn fns IH]; intros w; simpl; [done|].
    rewrite foldl_app. simpl. by rewrite IH.
  - rewrite <-run_all_errors, Hr. simpl. by destruct errs.
Qed.
