(* ===== verification/WorkflowModels.v ===== *)
(** * WorkflowModels: workflows, steps and executions ([pkg/models])

    [workflow.go], [workflow_extended.go] and [workflow_steps.go]: a workflow is a list of
    steps with dependencies between them; an execution has a status of its own and one per
    step.  A [JSONMap] is a map of [any].  A [time.Time] is an integer, a pointer to one an
    option. *)

From stdpp Require Import base decidable gmap strings list.
From Stdlib Require Import ZArith Lia.
From S2P Require Import Prelude GoAny ServiceErrors Storage.

Local Open Scope string_scope.
Local Open Scope Z_scope.

Module RetryPolicy.
Record t := Mk {
  MaxAttempts : Z;
  BackoffType : string;
  InitialWait : Z;
  MaxWait : Z;
}.
End RetryPolicy.

Module Step.
Record t := Mk {
  ID : string;
  Name : string;
  Description : string;
  Type_ : string;
  Action : string;
  AgentID : string;
  Input : JSONMap;
  Config : JSONMap;
  Timeout : Z;
  TimeoutSeconds : Z;
  Retries : Z;
  RetryPolicy : RetryPolicy.t;
  ContinueOnError : bool;
  Dependencies : list string;
  OnFailure : string;
}.
End Step.

Module Workflow.
Record t := Mk {
  ID : UUID;
  TenantID : UUID;
  Name : string;
  Type_ : string;
  Version : Z;
  CreatedBy : string;
  Agents : JSONMap;
  Steps : list Step.t;
  Config : JSONMap;
  Description : string;
  Tags : list string;
  IsActive : bool;
  CreatedAt : Z;
  UpdatedAt : Z;
  DeletedAt : option Z;
}.

(** [var w models.Workflow]. *)
Definition zero : t :=
  Mk Nil Nil "" "" 0 "" ∅ [] ∅ "" [] false zero_time zero_time None.

Definition GetSteps (w : t) : list Step.t := Steps w.

Definition SetLastExecutedAt (at_ : Z) (w : t) : t :=
  Mk (ID w) (TenantID w) (Name w) (Type_ w) (Version w) (CreatedBy w) (Agents w) (Steps w)
     (<["last_executed_at" := AOther "*time.Time" at_]> (Config w)) (Description w) (Tags w)
     (IsActive w) (CreatedAt w) (UpdatedAt w) (DeletedAt w).

Definition GetLastExecutedAt (w : t) : option Z :=
  match field (Config w) "last_executed_at" with
  | AOther ty at_ => if String.eqb ty "*time.Time" then Some at_ else None
  | _ => None
  end.
End Workflow.

Definition WorkflowTypeSequential : string := "sequential".
Definition WorkflowTypeParallel : string := "parallel".
Definition WorkflowTypeConditional : string := "conditional".
Definition WorkflowTypeCollaborative : string := "collaborative".

Definition WorkflowStatusPending : string := "pending".
Definition WorkflowStatusRunning : string := "running".
Definition WorkflowStatusPaused : string := "paused".
Definition WorkflowStatusCompleted : string := "completed".
Definition WorkflowStatusFailed : string := "failed".
Definition WorkflowStatusCancelled : string := "cancelled".
Definition WorkflowStatusTimeout : string := "timeout".

Definition StepStatusPending : string := "pending".
Definition StepStatusQueued : string := "queued".
Definition StepStatusRunning : string := "running".
Definition StepStatusCompleted : string := "completed".
Definition StepStatusFailed : string := "failed".
Definition StepStatusSkipped : string := "skipped".
Definition StepStatusRetrying : string := "retrying".
Definition StepStatusCancelling : string := "cancelling".
Definition StepStatusCancelled : string := "cancelled".
Definition StepStatusTimeout : string := "timeout".
Definition StepStatusAwaitingApproval : string := "awaiting_approval".

Module StepStatus.
Record t := Mk {
  StepID : string;
  Status : string;
  AgentID : string;
  Input : JSONMap;
  Output : JSONMap;
  Error : string;
  StartedAt : option Z;
  CompletedAt : option Z;
  RetryCount : Z;
}.

(** Assignments to one field. *)
Definition set_Status (x : string) (e : t) : t :=
  Mk (StepID e) x (AgentID e) (Input e) (Output e) (Error e) (StartedAt e) (CompletedAt e) (RetryCount e).
Definition set_Output (x : JSONMap) (e : t) : t :=
  Mk (StepID e) (Status e) (AgentID e) (Input e) x (Error e) (StartedAt e) (CompletedAt e) (RetryCount e).
Definition set_Error (x : string) (e : t) : t :=
  Mk (StepID e) (Status e) (AgentID e) (Input e) (Output e) x (StartedAt e) (CompletedAt e) (RetryCount e).
Definition set_StartedAt (x : option Z) (e : t) : t :=
  Mk (StepID e) (Status e) (AgentID e) (Input e) (Output e) (Error e) x (CompletedAt e) (RetryCount e).
Definition set_CompletedAt (x : option Z) (e : t) : t :=
  Mk (StepID e) (Status e) (AgentID e) (Input e) (Output e) (Error e) (StartedAt e) x (RetryCount e).
Definition set_RetryCount (x : Z) (e : t) : t :=
  Mk (StepID e) (Status e) (AgentID e) (Input e) (Output e) (Error e) (StartedAt e) (CompletedAt e) x.

(** A step that has not started. *)
Definition pending (id : string) : t := Mk id StepStatusPending "" ∅ ∅ "" None None 0.

Definition GetName (s : t) : string := default "" (as_string (field (Input s) "step_name")).
Definition GetAttempts (s : t) : Z := RetryCount s.
Definition GetCreatedAt (s : t) : Z := default zero_time (StartedAt s).
End StepStatus.

Module Execution.
Record t := Mk {
  ID : UUID;
  WorkflowID : UUID;
  TenantID : UUID;
  Status : string;
  Context : JSONMap;
  State : JSONMap;
  InitiatedBy : string;
  Error : string;
  StartedAt : Z;
  CompletedAt : option Z;
  UpdatedAt : Z;
  Workflow_ : option Workflow.t;
  StepStatuses : gmap string StepStatus.t;
  CurrentStepID : string;
}.

(** [var e models.WorkflowExecution]. *)
Definition zero : t :=
  Mk Nil Nil Nil "" ∅ ∅ "" "" zero_time None zero_time None ∅ "".

Definition Duration (now : Z) (e : t) : Z :=
  match CompletedAt e with
  | None => time_sub now (StartedAt e)
  | Some c => time_sub c (StartedAt e)
  end.

Definition IsTerminal (e : t) : bool :=
  existsb (String.eqb (Status e))
    [WorkflowStatusCompleted; WorkflowStatusFailed; WorkflowStatusCancelled; WorkflowStatusTimeout].

Definition GetTriggeredBy (e : t) : string := InitiatedBy e.

(** nil when absent. *)
Definition GetInput (e : t) : option JSONMap := as_map (field (Context e) "input").

(** Assignments to one field. *)
Definition set_ID (x : UUID) (e : t) : t :=
  Mk x (WorkflowID e) (TenantID e) (Status e) (Context e) (State e) (InitiatedBy e) (Error e) (StartedAt e) (CompletedAt e) (UpdatedAt e) (Workflow_ e) (StepStatuses e) (CurrentStepID e).
Definition set_Status (x : string) (e : t) : t :=
  Mk (ID e) (WorkflowID e) (TenantID e) x (Context e) (State e) (InitiatedBy e) (Error e) (StartedAt e) (CompletedAt e) (UpdatedAt e) (Workflow_ e) (StepStatuses e) (CurrentStepID e).
Definition set_Context (x : JSONMap) (e : t) : t :=
  Mk (ID e) (WorkflowID e) (TenantID e) (Status e) x (State e) (InitiatedBy e) (Error e) (StartedAt e) (CompletedAt e) (UpdatedAt e) (Workflow_ e) (StepStatuses e) (CurrentStepID e).
Definition set_State (x : JSONMap) (e : t) : t :=
  Mk (ID e) (WorkflowID e) (TenantID e) (Status e) (Context e) x (InitiatedBy e) (Error e) (StartedAt e) (CompletedAt e) (UpdatedAt e) (Workflow_ e) (StepStatuses e) (CurrentStepID e).
Definition set_Error (x : string) (e : t) : t :=
  Mk (ID e) (WorkflowID e) (TenantID e) (Status e) (Context e) (State e) (InitiatedBy e) x (StartedAt e) (CompletedAt e) (UpdatedAt e) (Workflow_ e) (StepStatuses e) (CurrentStepID e).
Definition set_StartedAt (x : Z) (e : t) : t :=
  Mk (ID e) (WorkflowID e) (TenantID e) (Status e) (Context e) (State e) (InitiatedBy e) (Error e) x (CompletedAt e) (UpdatedAt e) (Workflow_ e) (StepStatuses e) (CurrentStepID e).
Definition set_CompletedAt (x : option Z) (e : t) : t :=
  Mk (ID e) (WorkflowID e) (TenantID e) (Status e) (Context e) (State e) (InitiatedBy e) (Error e) (StartedAt e) x (UpdatedAt e) (Workflow_ e) (StepStatuses e) (CurrentStepID e).
Definition set_UpdatedAt (x : Z) (e : t) : t :=
  Mk (ID e) (WorkflowID e) (TenantID e) (Status e) (Context e) (State e) (InitiatedBy e) (Error e) (StartedAt e) (CompletedAt e) x (Workflow_ e) (StepStatuses e) (CurrentStepID e).
Definition set_StepStatuses (x : gmap string StepStatus.t) (e : t) : t :=
  Mk (ID e) (WorkflowID e) (TenantID e) (Status e) (Context e) (State e) (InitiatedBy e) (Error e) (StartedAt e) (CompletedAt e) (UpdatedAt e) (Workflow_ e) x (CurrentStepID e).
Definition set_CurrentStepID (x : string) (e : t) : t :=
  Mk (ID e) (WorkflowID e) (TenantID e) (Status e) (Context e) (State e) (InitiatedBy e) (Error e) (StartedAt e) (CompletedAt e) (UpdatedAt e) (Workflow_ e) (StepStatuses e) x.

Definition SetInput (input : JSONMap) (e : t) : t :=
  set_Context (<["input" := AMap input]> (Context e)) e.

(** [e.StepStatuses[id]] with a change to the record it points to. *)
Definition update_step (f : StepStatus.t -> StepStatus.t) (id : string) (e : t) : t :=
  set_StepStatuses (alter f id (StepStatuses e)) e.
End Execution.

(** ** [workflow_steps.go] *)

Definition GetByID (s : list Step.t) (id : string) : option Step.t :=
  match filter (λ x, String.eqb (Step.ID x) id = true) s with
  | [] => None
  | x :: _ => Some x
  end.

Definition GetInExecutionOrder (s : list Step.t) : list Step.t := s.

(** The loop over the dependencies of one step: [seen] are the identifiers up to the step,
    [later] the steps after it. *)
Definition check_dependency (step : Step.t) (seen : gset string) (later : list Step.t)
    (dep : string) : res unit :=
  if bool_decide (dep ∈ seen) then Returns ()
  else if existsb (λ f, String.eqb (Step.ID f) dep) later then Returns ()
  else Fails (Errorf (Sprintf "step %s depends on non-existent step %s"
                       [AString (Step.ID step); AString dep])).

Fixpoint validate_from (i : Z) (seen : gset string) (s : list Step.t) : res unit :=
  match s with
  | [] => Returns ()
  | step :: later =>
      if String.eqb (Step.ID step) ""
      then Fails (Errorf (Sprintf "step at index %d has no ID" [AInt i]))
      else if bool_decide (Step.ID step ∈ seen)
      then Fails (Errorf (Sprintf "duplicate step ID: %s" [AString (Step.ID step)]))
      else
        let seen := {[Step.ID step]} ∪ seen in
        if String.eqb (Step.Name step) ""
        then Fails (Errorf (Sprintf "step %s has no name" [AString (Step.ID step)]))
        else if String.eqb (Step.Type_ step) ""
        then Fails (Errorf (Sprintf "step %s has no type" [AString (Step.ID step)]))
        else for_each (check_dependency step seen later) (Step.Dependencies step) ≫= λ _,
             validate_from (i + 1) seen later
  end.

Definition Validate (s : list Step.t) : res unit :=
  match s with [] => Returns () | _ => validate_from 0 ∅ s end.

(** ** Laws *)

Lemma check_dependency_returns step seen later dep :
  check_dependency step seen later dep = Returns () <-> dep ∈ seen \/ dep ∈ Step.ID <$> later.
Proof.
  unfold check_dependency. case_bool_decide as Hs; [tauto|].
  destruct (existsb _ later) eqn:He; split; try done.
  - intros _. right. apply existsb_exists in He as (x & Hx & Heq).
    apply String.eqb_eq in Heq. apply list_elem_of_fmap. exists x. split; [done|].
    by apply list_elem_of_In.
  - intros [?|Hin]; [done|]. exfalso. apply not_true_iff_false in He. apply He.
    apply existsb_exists. apply list_elem_of_fmap in Hin as (x & -> & Hx).
    exists x. split; [by apply list_elem_of_In|apply String.eqb_refl].
Qed.

(** A step list is valid from a point on when identifiers are new, names and types are
    given, and dependencies are declared somewhere. *)
Definition well_formed (ids : gset string) (step : Step.t) : Prop :=
  Step.ID step ≠ "" /\ Step.Name step ≠ "" /\ Step.Type_ step ≠ "" /\
  Forall (.∈ ids) (Step.Dependencies step).

Lemma validate_from_returns i seen s :
  validate_from i seen s = Returns () <->
  NoDup (Step.ID <$> s) /\ Forall (λ id, id ∉ seen) (Step.ID <$> s) /\
  Forall (well_formed (seen ∪ list_to_set (Step.ID <$> s))) s.
Proof.
  revert i seen. induction s as [|step s IH]; intros i seen; cbn [validate_from fmap list_fmap].
  { split; [|done]. intros _. repeat constructor. }
  destruct (String.eqb_spec (Step.ID step) "").
  { split; [done|]. intros (_ & _ & Hf). by apply Forall_cons in Hf as [(? & _) _]. }
  case_bool_decide as Hd.
  { split; [done|]. intros (_ & Hf & _). by apply Forall_cons in Hf as [? _]. }
  destruct (String.eqb_spec (Step.Name step) "").
  { split; [done|]. intros (_ & _ & Hf). by apply Forall_cons in Hf as [(_ & ? & _) _]. }
  destruct (String.eqb_spec (Step.Type_ step) "").
  { split; [done|]. intros (_ & _ & Hf). by apply Forall_cons in Hf as [(_ & _ & ? & _) _]. }
  assert (({[Step.ID step]} ∪ seen) ∪ list_to_set (Step.ID <$> s)
          = seen ∪ list_to_set (Step.ID step :: (Step.ID <$> s)) :> gset string) as Hset
    by (cbn [list_to_set]; set_solver).
  rewrite outcome_bind_returns, NoDup_cons, !Forall_cons. split.
  - intros ([] & Hdeps & Hrest). apply IH in Hrest as (Hnd & Hnew & Hwf).
    rewrite Hset in Hwf. apply for_each_returns in Hdeps.
    repeat split; try done.
    + intros Hin. rewrite Forall_forall in Hnew. specialize (Hnew _ Hin). set_solver.
    + eapply Forall_impl; [done|]. set_solver.
    + eapply Forall_impl; [done|]. intros d Hdep. simpl in Hdep.
      apply check_dependency_returns in Hdep. cbn [list_to_set].
      rewrite !elem_of_union, elem_of_list_to_set in *. set_solver.
  - intros ([Hni Hnd] & [_ Hnew] & [Hw Hwf]). exists (). split.
    + apply for_each_returns. destruct Hw as (_ & _ & _ & Hw).
      eapply Forall_impl; [done|]. intros d Hdep. simpl in Hdep. apply check_dependency_returns.
      cbn [list_to_set] in Hdep. rewrite !elem_of_union, elem_of_list_to_set in *. set_solver.
    + apply IH. rewrite Hset. repeat split; try done.
      rewrite Forall_forall in *. intros id Hid. specialize (Hnew id Hid).
      assert (id ≠ Step.ID step) by congruence. set_solver.
Qed.

(** [Validate] accepts exactly the lists whose identifiers are distinct and whose steps have
    an identifier, a name, a type, and dependencies among the identifiers of the list,
    earlier, later or the step itself. *)
Lemma steps_validate_iff s :
  Validate s = Returns () <->
  NoDup (Step.ID <$> s) /\ Forall (well_formed (list_to_set (Step.ID <$> s))) s.
Proof.
  unfold Validate. transitivity (validate_from 0 ∅ s = Returns ()); [by destruct s|].
  rewrite validate_from_returns, union_empty_l_L. split; [tauto|].
  intros [? ?]. repeat split; try done. apply Forall_forall. set_solver.
Qed.

Lemma get_by_id_some s id x : GetByID s id = Some x -> x ∈ s /\ Step.ID x = id.
Proof.
  unfold GetByID. destruct (filter _ s) as [|y l] eqn:Hf; [done|]. intros [= ->].
  assert (x ∈ filter (λ x, String.eqb (Step.ID x) id = true) s) as Hx by (rewrite Hf; left).
  apply list_elem_of_filter in Hx as [He Hx]. split; [done|by apply String.eqb_eq].
Qed.

Lemma get_by_id_none s id : GetByID s id = None <-> id ∉ Step.ID <$> s.
Proof.
  unfold GetByID. destruct (filter _ s) as [|y l] eqn:Hf; split; try done.
  - intros _ Hin. apply list_elem_of_fmap in Hin as (x & -> & Hx).
    assert (x ∈ filter (λ y, String.eqb (Step.ID y) (Step.ID x) = true) s) as Hn
      by (apply list_elem_of_filter; split; [apply String.eqb_refl|done]).
    rewrite Hf in Hn. by apply elem_of_nil in Hn.
  - intros Hni. exfalso. apply Hni.
    assert (y ∈ filter (λ x, String.eqb (Step.ID x) id = true) s) as Hy by (rewrite Hf; left).
    apply list_elem_of_filter in Hy as [He Hy]. apply String.eqb_eq in He as <-.
    by apply list_elem_of_fmap_2.
Qed.

Lemma get_input_set input e : Execution.GetInput (Execution.SetInput input e) = Some input.
Proof.
  unfold Execution.GetInput, field. cbn [Execution.SetInput Execution.set_Context Execution.Context].
  by rewrite get_insert, decide_True.
Qed.
