(* ===== verification/WorkflowGraph.v ===== *)
(** * WorkflowGraph: the dependency graph of a workflow

    [validateWorkflow], [validateNoCycles], [ValidateWorkflow] and the order that
    [SimulateWorkflow] computes, of [pkg/services/workflow_service_impl.go].  The depth-first
    search of [validateNoCycles] takes fuel; [no_cycles_decides] shows that one unit per
    node is enough, and that the search decides whether the graph has a cycle. *)

From stdpp Require Import base decidable gmap strings list relations fin_sets.
From Stdlib Require Import ZArith Lia.
From S2P Require Import Prelude GoAny GoStrings ServiceErrors ServiceInterfaces WorkflowModels.

Local Open Scope string_scope.
Local Open Scope Z_scope.

(** ** [validateNoCycles] *)

Definition adjacency (steps : list Step.t) : gmap string (list string) :=
  foldl (λ adj step, <[Step.ID step := Step.Dependencies step]> adj) ∅ steps.

(** The variables that the closure [dfs] captures.  [visited]: 0 unvisited, 1 visiting,
    2 visited. *)
Record dfs_state := MkDfs {
  visited : gmap string Z;
  hasCycle : bool;
}.

Definition colour (s : dfs_state) (node : string) : Z := get 0 (visited s) node.
Definition mark (node : string) (c : Z) (s : dfs_state) : dfs_state :=
  MkDfs (<[node := c]> (visited s)) (hasCycle s).

Section dfs.
Context (adj : gmap string (list string)).

(** The loop over [adj[node]] and the last line of [dfs]; [rec] is the recursive call. *)
Fixpoint dfs_deps (rec : string -> dfs_state -> option dfs_state) (node : string)
    (deps : list string) (s : dfs_state) : option dfs_state :=
  match deps with
  | [] => Some (mark node 2 s)
  | dep :: deps =>
      if colour s dep =? 1 then Some (MkDfs (visited s) true)
      else if colour s dep =? 0 then rec dep s ≫= dfs_deps rec node deps
      else dfs_deps rec node deps s
  end.

Fixpoint dfs (fuel : nat) (node : string) (s : dfs_state) : option dfs_state :=
  match fuel with
  | O => None
  | S fuel =>
      if hasCycle s then Some s
      else dfs_deps (dfs fuel) node (get [] adj node) (mark node 1 s)
  end.

Fixpoint dfs_all (fuel : nat) (steps : list Step.t) (s : dfs_state) : option dfs_state :=
  match steps with
  | [] => Some s
  | step :: steps =>
      if colour s (Step.ID step) =? 0
      then dfs fuel (Step.ID step) s ≫= dfs_all fuel steps
      else dfs_all fuel steps s
  end.
End dfs.

Definition cycle_error : error := ValidationError "steps" (Text "circular dependency detected").

(** The identifiers that occur in a list of steps, and the fuel they need. *)
Definition nodes (steps : list Step.t) : gset string :=
  list_to_set (Step.ID <$> steps) ∪ list_to_set (steps ≫= Step.Dependencies).
Definition enough (steps : list Step.t) : nat := size (nodes steps).

(** The verdict of the search; [None]: the fuel did not suffice. *)
Definition search (fuel : nat) (steps : list Step.t) : option bool :=
  s ← dfs_all (adjacency steps) fuel steps (MkDfs ∅ false); Some (hasCycle s).

(** By [search_decides] the search does not run out of [enough] fuel. *)
Definition validateNoCycles (steps : list Step.t) : res unit :=
  match search (enough steps) steps with
  | Some true => Fails cycle_error
  | Some false => Returns ()
  | None => Panics
  end.

(** ** The search decides cyclicity *)

Section dfs_correct.
Context (adj : gmap string (list string)).

Definition edge (a b : string) : Prop := b ∈ get [] adj a.
Definition cyclic : Prop := exists n, tc edge n n.

Notation black s n := (colour s n = 2).
Notation gray s n := (colour s n = 1).
Notation white s n := (colour s n = 0).

Lemma colour_mark node c s n :
  colour (mark node c s) n = if decide (node = n) then c else colour s n.
Proof. apply get_insert. Qed.

(** A set of nodes with all their successors, none of them on a cycle. *)
Definition closed_off (P : string -> Prop) : Prop :=
  forall n, P n -> (forall m, edge n m -> P m) /\ ~ tc edge n n.

(** The nodes that the search is done with are closed off. *)
Definition settled (s : dfs_state) : Prop := closed_off (λ n, black s n).

Definition three_coloured (s : dfs_state) : Prop :=
  forall n, white s n \/ gray s n \/ black s n.

Lemma tc_head x z : tc edge x z -> exists y, edge x y /\ rtc edge y z.
Proof. destruct 1 as [x y H|x y z H Ht]; exists y; split; auto using tc_rtc. constructor. Qed.

Lemma closed_reach P n m : closed_off P -> P n -> rtc edge n m -> P m.
Proof. intros Hs Hn Hr. induction Hr as [|x y z Hxy _ IH]; [done|]. apply IH. by apply (Hs x). Qed.

Lemma closed_ext (P Q : string -> Prop) : (forall n, P n <-> Q n) -> closed_off P -> closed_off Q.
Proof.
  intros Hpq Hp n Hn. apply Hpq in Hn. destruct (Hp n Hn) as [Hout Hac]. split; [|done].
  intros m Hm. apply Hpq. auto.
Qed.

(** A node whose successors are all closed off can be added. *)
Lemma closed_add P x :
  closed_off P -> ~ P x -> (forall m, edge x m -> P m) -> closed_off (λ n, n = x \/ P n).
Proof.
  intros Hp Hx Hout n [->|Hn].
  - split; [auto|]. intros (m & Hm & Hmr)%tc_head. apply Hx.
    by apply (closed_reach P m x Hp (Hout m Hm)).
  - destruct (Hp n Hn) as [Hn' Hac]. split; [|done]. auto.
Qed.

(** What a search from a state without a cycle ends in: a cycle that exists, or a state
    that is as settled, with the same nodes being visited. *)
Definition explored (s s' : dfs_state) (node : string) : Prop :=
  three_coloured s' /\
  ((hasCycle s' = true /\ cyclic) \/
   (hasCycle s' = false /\ settled s' /\ black s' node /\
    (forall n, gray s' n <-> gray s n) /\ (forall n, black s n -> black s' n))).

Lemma hasCycle_deps fuel node deps s s' :
  hasCycle s = true -> dfs_deps (dfs adj fuel) node deps s = Some s' ->
  three_coloured s -> hasCycle s' = true /\ three_coloured s'.
Proof.
  revert s. induction deps as [|dep deps IH]; intros s Hc Hd H3; simpl in Hd.
  - injection Hd as <-. split; [done|]. intros n. rewrite colour_mark. case_decide; auto.
  - destruct (Z.eqb_spec (colour s dep) 1); [by injection Hd as <-|].
    destruct (Z.eqb_spec (colour s dep) 0); [|by eapply IH].
    destruct fuel as [|fuel]; [done|]. simpl in Hd. rewrite Hc in Hd. by eapply IH.
Qed.

Lemma dfs_deps_explored fuel node deps s s' :
  (forall dep s s', three_coloured s -> hasCycle s = false -> settled s -> white s dep ->
     (forall g, gray s g -> tc edge g dep) -> dfs adj fuel dep s = Some s' -> explored s s' dep) ->
  three_coloured s -> hasCycle s = false -> settled s -> gray s node ->
  (forall g, gray s g -> rtc edge g node) ->
  (forall m, edge node m -> m ∈ deps \/ black s m) ->
  (forall m, m ∈ deps -> edge node m) ->
  dfs_deps (dfs adj fuel) node deps s = Some s' ->
  three_coloured s' /\
  ((hasCycle s' = true /\ cyclic) \/
   (hasCycle s' = false /\ settled s' /\ black s' node /\
    (forall n, n ≠ node -> gray s' n <-> gray s n) /\ (forall n, black s n -> black s' n))).
Proof.
  intros Hrec. revert s. induction deps as [|dep deps IH];
    intros s H3 Hc Hs Hg Hgray Hdone Hedge Hd; simpl in Hd.
  - injection Hd as <-. split; [intros n; rewrite colour_mark; case_decide; auto|]. right.
    split; [done|]. split; [|split; [by rewrite colour_mark, decide_True|split]].
    + eapply closed_ext; [|apply (closed_add (λ n, black s n) node)]; [|done|by rewrite Hg|].
      * intros n. simpl. rewrite colour_mark. case_decide; [naive_solver|].
        split; [intros [?|?]; congruence|auto].
      * intros m Hm. destruct (Hdone m Hm) as [Hin|?]; [by apply elem_of_nil in Hin|done].
    + intros n Hn. rewrite colour_mark, decide_False by done. done.
    + intros n Hb. rewrite colour_mark. by case_decide.
  - destruct (Z.eqb_spec (colour s dep) 1) as [Hdg|].
    { injection Hd as <-. split; [exact H3|]. left. split; [done|]. exists dep.
      eapply tc_rtc_l; [by apply Hgray|]. constructor. apply Hedge. by left. }
    destruct (Z.eqb_spec (colour s dep) 0) as [Hdw|].
    + destruct (dfs adj fuel dep s) as [s1|] eqn:H1; simpl in Hd; [|done].
      assert (explored s s1 dep) as [H31 Hex].
      { apply Hrec; try done. intros g Hgg. eapply tc_rtc_l; [by apply Hgray|].
        constructor. apply Hedge. by left. }
      destruct Hex as [[Hc1 Hcyc]|(Hc1 & Hs1 & Hb1 & Hg1 & Hbs)].
      * destruct (hasCycle_deps _ _ _ _ _ Hc1 Hd H31). auto.
      * destruct (IH s1) as [H3' Hout]; try done.
        -- by apply Hg1.
        -- intros g Hgg. by apply Hgray, Hg1.
        -- intros m Hm. destruct (Hdone m Hm) as [[->|Hin]%elem_of_cons|Hb]; auto.
        -- intros m Hm. apply Hedge. by right.
        -- split; [done|]. destruct Hout as [?|(? & ? & ? & Hgg & Hbb)]; [auto|right].
           split_and!; auto. intros x Hx. by rewrite Hgg, Hg1.
    + apply (IH s); try done.
      * intros m Hm. destruct (Hdone m Hm) as [[->|Hin]%elem_of_cons|Hb]; auto.
        destruct (H3 dep) as [?|[?|?]]; auto; done.
      * intros m Hm. apply Hedge. by right.
Qed.

Lemma dfs_explored fuel node s s' :
  three_coloured s -> hasCycle s = false -> settled s -> white s node ->
  (forall g, gray s g -> tc edge g node) -> dfs adj fuel node s = Some s' -> explored s s' node.
Proof.
  revert node s s'. induction fuel as [|fuel IHf]; intros node s s' H3 Hc Hs Hw Hg Hd; [done|].
  simpl in Hd. rewrite Hc in Hd.
  assert (gray (mark node 1 s) node) as Hgn by (by rewrite colour_mark, decide_True).
  destruct (dfs_deps_explored fuel node (get [] adj node) (mark node 1 s) s') as [H3' Hout]; try done.
  - intros n. rewrite colour_mark. case_decide; auto.
  - eapply closed_ext; [|exact Hs]. intros n. simpl. rewrite colour_mark.
    case_decide; [subst; rewrite Hw; by split|done].
  - intros g. rewrite colour_mark. case_decide as Hn; [subst; by constructor|].
    intros Hgg. by apply tc_rtc, Hg.
  - intros m Hm. by left.
  - split; [done|]. destruct Hout as [?|(? & ? & Hb & Hgg & Hbb)]; [auto|right].
    split_and!; try done.
    + intros n. destruct (decide (n = node)) as [->|Hne]; [split; congruence|].
      rewrite Hgg by done. rewrite colour_mark. by rewrite decide_False by congruence.
    + intros n Hn. apply Hbb. rewrite colour_mark, decide_False; [done|congruence].
Qed.

(** ** The search ends

    A call marks a node that was unvisited, and no node becomes unvisited again: the number
    of unvisited nodes bounds the depth of the recursion. *)

Context (U : gset string) (HU : forall a b, edge a b -> b ∈ U).

Definition unvisited (s : dfs_state) : gset string := filter (λ n, white s n) U.

Lemma unvisited_mark node c s :
  c ≠ 0 -> white s node -> node ∈ U -> (size (unvisited (mark node c s)) < size (unvisited s))%nat.
Proof.
  intros Hc Hw Hn. apply subset_size. split.
  - intros n. unfold unvisited. rewrite !elem_of_filter, colour_mark. case_decide; naive_solver.
  - intros Hsub. assert (node ∈ unvisited (mark node c s)) as Hx
      by (apply Hsub, elem_of_filter; done).
    apply elem_of_filter in Hx as [Hx _]. rewrite colour_mark, decide_True in Hx; done.
Qed.

Lemma unvisited_mark_le node c s : c ≠ 0 -> unvisited (mark node c s) ⊆ unvisited s.
Proof.
  intros Hc n. unfold unvisited. rewrite !elem_of_filter, colour_mark. case_decide; naive_solver.
Qed.

Lemma dfs_deps_total fuel node deps s :
  (forall dep s, white s dep -> dep ∈ U -> (size (unvisited s) <= fuel)%nat ->
     exists s', dfs adj fuel dep s = Some s' /\ unvisited s' ⊆ unvisited s) ->
  (size (unvisited s) <= fuel)%nat -> Forall (.∈ U) deps ->
  exists s', dfs_deps (dfs adj fuel) node deps s = Some s' /\ unvisited s' ⊆ unvisited s.
Proof.
  intros Hrec. revert s. induction deps as [|dep deps IH]; intros s Hf Hd; simpl.
  - exists (mark node 2 s). split; [done|]. by apply unvisited_mark_le.
  - apply Forall_cons in Hd as [Hdep Hd].
    destruct (Z.eqb_spec (colour s dep) 1); [by eexists|].
    destruct (Z.eqb_spec (colour s dep) 0) as [Hw|]; [|by apply IH].
    destruct (Hrec dep s Hw Hdep Hf) as (s1 & -> & Hs1). simpl.
    destruct (IH s1) as (s2 & -> & Hs2); [|done|exists s2; split; [done|set_solver]].
    etrans; [by apply subseteq_size|done].
Qed.

Lemma dfs_total fuel node s :
  white s node -> node ∈ U -> (size (unvisited s) <= fuel)%nat ->
  exists s', dfs adj fuel node s = Some s' /\ unvisited s' ⊆ unvisited s.
Proof.
  revert node s. induction fuel as [|fuel IH]; intros node s Hw Hn Hf.
  { pose proof (unvisited_mark node 1 s ltac:(lia) Hw Hn). lia. }
  simpl. destruct (hasCycle s); [by eexists|].
  pose proof (unvisited_mark node 1 s ltac:(lia) Hw Hn).
  destruct (dfs_deps_total fuel node (get [] adj node) (mark node 1 s)) as (s' & -> & Hs');
    [exact IH|lia|apply Forall_forall; intros d Hd; by apply (HU node)|].
  exists s'. split; [done|]. etrans; [done|]. by apply unvisited_mark_le.
Qed.

Lemma dfs_all_total fuel steps s :
  (size (unvisited s) <= fuel)%nat -> Forall (.∈ U) (Step.ID <$> steps) ->
  is_Some (dfs_all adj fuel steps s).
Proof.
  revert s. induction steps as [|step steps IH]; intros s Hf HI; simpl; [by eexists|].
  apply Forall_cons in HI as [Hi HI].
  destruct (Z.eqb_spec (colour s (Step.ID step)) 0) as [Hw|]; [|by apply IH].
  destruct (dfs_total fuel (Step.ID step) s Hw Hi Hf) as (s1 & -> & Hs1). simpl.
  apply IH; [|done]. etrans; [by apply subseteq_size|done].
Qed.

Lemma dfs_all_cycle fuel steps s s' :
  hasCycle s = true -> dfs_all adj fuel steps s = Some s' -> s' = s.
Proof.
  intros Hc. induction steps as [|step steps IH]; simpl; [congruence|].
  destruct (_ =? 0); [|done]. destruct fuel as [|fuel]; simpl; [done|]. by rewrite Hc.
Qed.

(** Between the searches from the steps no node is being visited. *)
Lemma dfs_all_spec fuel steps s s' :
  three_coloured s -> hasCycle s = false -> settled s -> (forall n, ~ gray s n) ->
  dfs_all adj fuel steps s = Some s' ->
  (hasCycle s' = true /\ cyclic) \/
  (hasCycle s' = false /\ settled s' /\ (forall n, black s n -> black s' n) /\
   Forall (λ step, black s' (Step.ID step)) steps).
Proof.
  revert s. induction steps as [|step steps IH]; intros s H3 Hc Hs Hg Hd; simpl in Hd.
  { injection Hd as <-. auto. }
  destruct (Z.eqb_spec (colour s (Step.ID step)) 0) as [Hw|Hw].
  - destruct (dfs adj fuel (Step.ID step) s) as [s1|] eqn:H1; simpl in Hd; [|done].
    destruct (dfs_explored fuel (Step.ID step) s s1)
      as [H31 [[Hc1 Hcyc]|(Hc1 & Hs1 & Hb1 & Hg1 & Hbb)]]; try done.
    { intros g Hgg. by apply Hg in Hgg. }
    { left. by rewrite (dfs_all_cycle fuel steps s1 s'). }
    destruct (IH s1) as [?|(? & ? & Hbb' & Hall)]; try done; [|auto|].
    { intros n Hn. by apply (Hg n), Hg1. }
    right. split_and!; auto.
  - destruct (IH s) as [?|(? & ? & Hbb & Hall)]; try done; [auto|].
    right. split_and!; auto. apply Forall_cons. split; [|done].
    apply Hbb. destruct (H3 (Step.ID step)) as [?|[Hx|?]]; [done|by apply Hg in Hx|done].
Qed.

Lemma dfs_all_decides fuel steps s' :
  (forall a b, edge a b -> a ∈ Step.ID <$> steps) ->
  dfs_all adj fuel steps (MkDfs ∅ false) = Some s' ->
  hasCycle s' = true <-> cyclic.
Proof.
  intros Hsrc Hd.
  assert (forall n, colour (MkDfs ∅ false) n = 0) as H0 by (intros n; apply get_empty).
  destruct (dfs_all_spec fuel steps (MkDfs ∅ false) s') as [[? ?]|(Hc & Hs & _ & Hall)];
    [intros n; left; apply H0|done|intros n Hn; by rewrite H0 in Hn
    |intros n Hn; by rewrite H0 in Hn|exact Hd| |].
  - done.
  - split; [congruence|]. intros [n Hn]. exfalso.
    destruct (tc_head n n Hn) as (m & Hm & _). apply Hsrc in Hm.
    apply list_elem_of_fmap in Hm as (step & -> & Hin).
    rewrite Forall_forall in Hall. by destruct (Hs _ (Hall step Hin)).
Qed.
End dfs_correct.

(** ** The graph of a list of steps *)

(** The loop that fills a map from the identifier of each step. *)
Definition index_by {A} (f : Step.t -> A) (steps : list Step.t) : gmap string A :=
  foldl (λ m step, <[Step.ID step := f step]> m) ∅ steps.

Lemma index_lookup {A} (f : Step.t -> A) steps id x :
  index_by f steps !! id = Some x -> exists step, step ∈ steps /\ Step.ID step = id /\ f step = x.
Proof.
  unfold index_by. revert id x.
  induction steps as [|step steps IH] using rev_ind; intros id x; [done|].
  rewrite foldl_app. simpl. rewrite lookup_insert. case_decide as Hid.
  - intros [= <-]. exists step. split_and!; [|done..]. apply elem_of_app. right. by left.
  - intros Hl. apply IH in Hl as (y & Hy & ? & ?). exists y. split_and!; [|done..].
    apply elem_of_app. by left.
Qed.

(** With distinct identifiers every step finds its own entry. *)
Lemma index_nodup {A} (f : Step.t -> A) steps step :
  NoDup (Step.ID <$> steps) -> step ∈ steps -> index_by f steps !! Step.ID step = Some (f step).
Proof.
  unfold index_by. revert step.
  induction steps as [|x steps IH] using rev_ind; intros step Hnd Hin; [by apply elem_of_nil in Hin|].
  rewrite foldl_app. simpl. rewrite fmap_app, NoDup_app in Hnd. destruct Hnd as (Hnd & Hdis & _).
  apply elem_of_app in Hin as [Hin|Hin].
  - rewrite lookup_insert_ne; [by apply IH|]. intros Heq.
    apply (Hdis (Step.ID step)); [by apply list_elem_of_fmap_2|]. rewrite <-Heq. by left.
  - apply list_elem_of_singleton in Hin as ->. apply lookup_insert_eq.
Qed.

Lemma edge_source steps a b : edge (adjacency steps) a b -> a ∈ Step.ID <$> steps /\ b ∈ nodes steps.
Proof.
  unfold edge, get. destruct (adjacency steps !! a) as [deps|] eqn:Ha; simpl.
  - intros Hb. apply (index_lookup Step.Dependencies) in Ha as (step & Hin & <- & <-).
    split; [by apply list_elem_of_fmap_2|]. apply elem_of_union. right.
    apply elem_of_list_to_set, list_elem_of_bind. by exists step.
  - intros Hb. by apply elem_of_nil in Hb.
Qed.

Lemma search_decides fuel steps :
  (enough steps <= fuel)%nat ->
  exists b, search fuel steps = Some b /\ (b = true <-> cyclic (adjacency steps)).
Proof.
  intros Hf. unfold search.
  destruct (dfs_all_total (adjacency steps) (nodes steps)
              (λ a b H, proj2 (edge_source steps a b H)) fuel steps (MkDfs ∅ false)) as [s' Hs].
  - etrans; [|exact Hf]. unfold enough. apply subseteq_size. intros n Hn. by apply elem_of_filter in Hn as [_ Hn].
  - apply Forall_forall. intros n Hn. apply elem_of_union. left. by apply elem_of_list_to_set.
  - exists (hasCycle s'). rewrite Hs. split; [done|].
    by apply (dfs_all_decides (adjacency steps) fuel steps s' (λ a b H, proj1 (edge_source steps a b H))).
Qed.

Lemma validate_no_cycles steps :
  (validateNoCycles steps = Returns () <-> ~ cyclic (adjacency steps)) /\
  (validateNoCycles steps = Fails cycle_error <-> cyclic (adjacency steps)).
Proof.
  unfold validateNoCycles.
  destruct (search_decides (enough steps) steps) as ([] & -> & Hb); [lia|..]; split; split; intuition done.
Qed.

(** ** [validateWorkflow] *)

Definition required (f : string) : error := ValidationError f (Text "required").

Definition check_known (seen : gset string) (dep : string) : res unit :=
  if bool_decide (dep ∈ seen) then Returns ()
  else Fails (ValidationError "step.dependencies" (Sprintf "unknown dependency: %s" [AString dep])).

Fixpoint validate_steps (stepIDs : gset string) (steps : list Step.t) : res unit :=
  match steps with
  | [] => Returns ()
  | step :: steps =>
      if String.eqb (Step.ID step) "" then Fails (required "step.id")
      else if bool_decide (Step.ID step ∈ stepIDs)
      then Fails (ValidationError "step.id" (Text "duplicate step ID"))
      else
        let stepIDs := {[Step.ID step]} ∪ stepIDs in
        for_each (check_known stepIDs) (Step.Dependencies step) ≫= λ _, validate_steps stepIDs steps
  end.

Definition validateWorkflow (w : Workflow.t) : res unit :=
  if String.eqb (Workflow.Name w) "" then Fails (required "name")
  else if String.eqb (Workflow.Type_ w) "" then Fails (required "type")
  else
    let workflowSteps := Workflow.GetSteps w in
    match workflowSteps with
    | [] => Fails (ValidationError "steps" (Text "at least one step required"))
    | _ => validate_steps ∅ workflowSteps ≫= λ _, validateNoCycles workflowSteps
    end.

(** Every step comes after the steps it depends on. *)
Fixpoint ordered (before : gset string) (steps : list Step.t) : Prop :=
  match steps with
  | [] => True
  | step :: steps =>
      Step.ID step ≠ "" /\ Step.ID step ∉ before /\ Forall (.∈ before) (Step.Dependencies step) /\
      ordered ({[Step.ID step]} ∪ before) steps
  end.

(** The same, but a step may depend on itself. *)
Fixpoint declared (before : gset string) (steps : list Step.t) : Prop :=
  match steps with
  | [] => True
  | step :: steps =>
      let before' := {[Step.ID step]} ∪ before in
      Step.ID step ≠ "" /\ Step.ID step ∉ before /\ Forall (.∈ before') (Step.Dependencies step) /\
      declared before' steps
  end.

Lemma check_known_returns seen dep : check_known seen dep = Returns () <-> dep ∈ seen.
Proof. unfold check_known. by case_bool_decide. Qed.

Lemma validate_steps_returns seen steps :
  validate_steps seen steps = Returns () <-> declared seen steps.
Proof.
  revert seen. induction steps as [|step steps IH]; intros seen; cbn [validate_steps declared]; [done|].
  destruct (String.eqb_spec (Step.ID step) ""); [split; [done|]; by intros (? & _)|].
  case_bool_decide; [split; [done|]; by intros (_ & ? & _)|].
  rewrite outcome_bind_returns. split.
  - intros ([] & Hd & Hs). rewrite for_each_returns in Hd. apply IH in Hs. split_and!; try done.
    eapply Forall_impl; [done|]. intros d. by rewrite check_known_returns.
  - intros (_ & _ & Hd & Hs). exists (). rewrite for_each_returns, IH. split; [|done].
    eapply Forall_impl; [done|]. intros d. by rewrite check_known_returns.
Qed.

Lemma declared_ids before steps :
  declared before steps -> NoDup (Step.ID <$> steps) /\ Forall (.∉ before) (Step.ID <$> steps).
Proof.
  revert before. induction steps as [|step steps IH]; intros before; simpl; [by repeat constructor|].
  intros (_ & Hn & _ & Hd). apply IH in Hd as [Hnd Hall]. rewrite NoDup_cons, Forall_cons.
  rewrite Forall_forall in Hall. split_and!; try done.
  - intros Hin. apply Hall in Hin. set_solver.
  - apply Forall_forall. intros x Hx. apply Hall in Hx. set_solver.
Qed.

Lemma adjacency_nodup steps step :
  NoDup (Step.ID <$> steps) -> step ∈ steps ->
  get [] (adjacency steps) (Step.ID step) = Step.Dependencies step.
Proof. intros Hnd Hin. apply get_some, (index_nodup Step.Dependencies); done. Qed.

Lemma ordered_closed adj before steps :
  closed_off adj (.∈ before) -> ordered before steps ->
  (forall step, step ∈ steps -> forall m, edge adj (Step.ID step) m -> m ∈ Step.Dependencies step) ->
  closed_off adj (λ n, n ∈ before \/ n ∈ Step.ID <$> steps).
Proof.
  revert before. induction steps as [|step steps IH]; intros before Hc Ho He; simpl in *.
  { eapply closed_ext; [|exact Hc]. intros n. simpl. rewrite elem_of_nil. tauto. }
  destruct Ho as (_ & Hn & Hd & Ho). rewrite Forall_forall in Hd.
  eapply closed_ext; [|apply (IH ({[Step.ID step]} ∪ before))].
  - intros n. simpl. rewrite elem_of_union, elem_of_singleton, elem_of_cons. tauto.
  - eapply closed_ext; [|apply (closed_add adj (.∈ before) (Step.ID step) Hc Hn)].
    + intros n. simpl. by rewrite elem_of_union, elem_of_singleton.
    + intros m Hm. apply Hd, (He step); [by left|done].
  - done.
  - intros x Hx. apply He. by right.
Qed.

Lemma ordered_declared before steps : ordered before steps -> declared before steps.
Proof.
  revert before. induction steps as [|step steps IH]; intros before; simpl; [done|].
  intros (? & ? & Hd & Ho). split_and!; [done..| |by apply IH].
  eapply Forall_impl; [done|]. set_solver.
Qed.

Lemma ordered_acyclic steps : ordered ∅ steps -> ~ cyclic (adjacency steps).
Proof.
  intros Ho [n Hn]. pose proof (ordered_declared _ _ Ho) as Hd.
  destruct (declared_ids _ _ Hd) as [Hnd _].
  destruct (tc_head _ n n Hn) as (m & Hm & _). apply edge_source in Hm as [Hin _].
  refine (proj2 (ordered_closed (adjacency steps) ∅ steps _ Ho _ n _) Hn); [| |by right].
  - intros x Hx. by apply elem_of_empty in Hx.
  - intros step Hs x Hx. unfold edge in Hx. by rewrite adjacency_nodup in Hx.
Qed.

(** Where a step may name itself, acyclicity is what is missing. *)
Lemma declared_ordered before steps :
  declared before steps -> (forall step, step ∈ steps -> Step.ID step ∉ Step.Dependencies step) ->
  ordered before steps.
Proof.
  revert before. induction steps as [|step steps IH]; intros before; simpl; [done|].
  intros (? & ? & Hd & Ho) Hself. split_and!; [done..| |].
  - rewrite Forall_forall in *. intros d Hin. specialize (Hd d Hin). simpl in Hd.
    specialize (Hself step ltac:(by left)). assert (d ≠ Step.ID step) by congruence. set_solver.
  - apply IH; [done|]. intros x Hx. apply Hself. by right.
Qed.

Lemma validate_workflow_iff w :
  validateWorkflow w = Returns () <->
  Workflow.Name w ≠ "" /\ Workflow.Type_ w ≠ "" /\ Workflow.Steps w ≠ [] /\
  ordered ∅ (Workflow.Steps w).
Proof.
  unfold validateWorkflow, Workflow.GetSteps.
  destruct (String.eqb_spec (Workflow.Name w) ""); [naive_solver|].
  destruct (String.eqb_spec (Workflow.Type_ w) ""); [naive_solver|].
  destruct (Workflow.Steps w) as [|step steps] eqn:Hs; [naive_solver|]. rewrite <-Hs.
  rewrite outcome_bind_returns. split.
  - intros ([] & Hv & Hc). apply validate_steps_returns in Hv. apply validate_no_cycles in Hc.
    split_and!; [done|done|congruence|]. apply declared_ordered; [done|].
    intros x Hx Hin. apply Hc. exists (Step.ID x). constructor. unfold edge.
    rewrite adjacency_nodup; [done|by eapply declared_ids|done].
  - intros (_ & _ & _ & Ho). exists (). split.
    + by apply validate_steps_returns, ordered_declared.
    + by apply validate_no_cycles, ordered_acyclic.
Qed.

(** ** [ValidateWorkflow] *)

Section validate.
Context `{AgentService}.
(** The answer of the rule engine to ["workflow_requirements"], if there is an engine. *)
Context (RuleEngine : option (Workflow.t -> result error (option Rules.Decision))).

Definition step_field (step : Step.t) (f : string) : string := "step[" +:+ Step.ID step +:+ "]" +:+ f.

Definition check_agent (step : Step.t) : res unit :=
  if String.eqb (Step.AgentID step) "" then Returns ()
  else
    match GetAgent (Step.AgentID step) with
    | Err _ => Fails (ValidationError (step_field step ".agent_id") (Text "agent not found"))
    | Ok None => Panics
    | Ok (Some agent) =>
        if existsb (λ capability, String.eqb capability (Step.Action step)) (Agent.Capabilities agent)
        then Returns ()
        else Fails (ValidationError (step_field step "")
               (Sprintf "agent %s does not have capability %s"
                  [AString (Step.AgentID step); AString (Step.Action step)]))
    end.

Definition check_step (step : Step.t) : res unit :=
  check_agent step ≫= λ _,
  if Step.TimeoutSeconds step <=? 0
  then Fails (ValidationError (step_field step ".timeout") (Text "must be positive"))
  else if RetryPolicy.MaxAttempts (Step.RetryPolicy step) <? 0
  then Fails (ValidationError (step_field step ".retry_policy.max_attempts") (Text "cannot be negative"))
  else Returns ().

Definition check_sequential (step : Step.t) : res unit :=
  match Step.Dependencies step with
  | [] => Fails (ValidationError (step_field step ".dependencies")
            (Text "sequential workflow steps must have dependencies except the first"))
  | _ => Returns ()
  end.

Definition check_conditional (step : Step.t) : res unit :=
  if String.eqb (Step.Type_ step) "conditional" && is_nil (field (Step.Config step) "condition")
  then Fails (ValidationError (step_field step ".config.condition")
         (Text "conditional step requires condition configuration"))
  else Returns ().

(** The [switch] on the type of the workflow. *)
Definition check_type (w : Workflow.t) : res unit :=
  let steps := Workflow.GetSteps w in
  if String.eqb (Workflow.Type_ w) WorkflowTypeSequential then for_each check_sequential (tail steps)
  else if String.eqb (Workflow.Type_ w) WorkflowTypeParallel then validateNoCycles steps
  else if String.eqb (Workflow.Type_ w) WorkflowTypeConditional then for_each check_conditional steps
  else if String.eqb (Workflow.Type_ w) WorkflowTypeCollaborative then
    if bool_decide (Workflow.Agents w = ∅)
    then Fails (ValidationError "agents" (Text "collaborative workflow requires agent definitions"))
    else Returns ()
  else Returns ().

Definition agent_count (steps : list Step.t) : Z :=
  Z.of_nat (List.length (filter (λ x, negb (String.eqb (Step.AgentID x) "") = true) steps)).

Definition check_requirements (w : Workflow.t) : res unit :=
  match RuleEngine with
  | None => Returns ()
  | Some evaluate =>
      match evaluate w with
      | Ok (Some decision) =>
          match Rules.Allowed decision, as_int (field (Rules.Metadata decision) "min_agents") with
          | true, Some minAgents =>
              let agentCount := agent_count (Workflow.GetSteps w) in
              if (0 <? minAgents) && (agentCount <? minAgents)
              then Fails (ValidationError "steps"
                     (Sprintf "workflow requires at least %d agents, found %d"
                        [AInt minAgents; AInt agentCount]))
              else Returns ()
          | _, _ => Returns ()
          end
      | _ => Returns ()
      end
  end.

(** [rate] is the answer of [CheckRateLimit]; a nil workflow is [None]. *)
Definition ValidateWorkflow (rate : res unit) (workflow : option Workflow.t) : res unit :=
  rate ≫= λ _,
  match workflow with
  | None => Fails (required "workflow")
  | Some w =>
      validateWorkflow w ≫= λ _,
      for_each check_step (Workflow.GetSteps w) ≫= λ _,
      check_type w ≫= λ _,
      check_requirements w
  end.
End validate.

(** ** [SimulateWorkflow] *)

Module Simulation.
(** [models.StepSimulation]; times are in nanoseconds. *)
Record step := MkStep {
  StepID : string;
  CanExecute : bool;
  EstimatedTime : Z;
  Requirements : list string;
  Issues : list string;
}.

(** [models.SimulationResult]; of [ResourceUsage] the number of steps executed. *)
Record t := MkResult {
  Success : bool;
  ExecutionPath : list string;
  TotalTime : Z;
  PotentialErrors : list string;
  Warnings : list string;
  StepDetails : gmap string step;
  execution_steps : Z;
}.
End Simulation.

Section simulate.
Context `{AgentService} (other : string -> Z -> string).

(** One required capability: the issue and the warning if the agent does not have it. *)
Definition missing (step : Step.t) (capabilities : list string) (cap : any) : list (string * string) :=
  let capStr := sprint other cap in
  if existsb (λ agentCap, String.eqb agentCap capStr) capabilities then []
  else [("Missing capability: " +:+ capStr,
         "Step " +:+ Step.ID step +:+ ": Agent " +:+ Step.AgentID step +:+ " missing capability " +:+ capStr)].

(** The agent part for one step: can it execute, requirements, issues, errors, warnings. *)
Definition agent_available (step : Step.t) : option Agent.t :=
  match GetAgent (Step.AgentID step) with Ok (Some agent) => Some agent | _ => None end.

Definition simulate_agent (step : Step.t)
    : bool * list string * list string * list string * list string :=
  if String.eqb (Step.AgentID step) "" then (true, [], [], [], [])
  else
    match agent_available step with
    | None =>
        let issue := "Agent " +:+ Step.AgentID step +:+ " not available" in
        (false, [], [issue], ["Step " +:+ Step.ID step +:+ ": " +:+ issue], [])
    | Some _ =>
        let capabilities :=
          match GetAgentCapabilities (Step.AgentID step) with Ok l => l | _ => [] end in
        match as_list (field (Step.Config step) "required_capabilities") with
        | None => (true, [], [], [], [])
        | Some requiredCaps =>
            let ms := requiredCaps ≫= missing step capabilities in
            (true, sprint other <$> requiredCaps, ms.*1, [], ms.*2)
        end
    end.

Definition estimated_time (step : Step.t) : Z :=
  if 0 <? Step.TimeoutSeconds step
  then Z.quot (i64 (Step.TimeoutSeconds step * second)) 2
  else 5 * second.

(** The first loop does not execute anything: every dependency is listed as a requirement. *)
Definition simulate_step (step : Step.t) : Simulation.step * list string * list string :=
  let '(can, reqs, issues, errors, warnings) := simulate_agent step in
  (Simulation.MkStep (Step.ID step) can (estimated_time step)
     (reqs ++ ((λ dep, "Depends on: " +:+ dep) <$> Step.Dependencies step))%list issues,
   errors, warnings).

Definition step_details (steps : list Step.t) : gmap string Simulation.step :=
  foldl (λ m step, <[Step.ID step := (simulate_step step).1.1]> m) ∅ steps.

Definition can_execute (details : gmap string Simulation.step) (id : string) : bool :=
  match details !! id with Some d => Simulation.CanExecute d | None => false end.

(** [executedSteps] and [result.ExecutionPath]. *)
Definition simulate_one (can : string -> bool) (s : gset string * list string) (step : Step.t)
    : gset string * list string :=
  let '(executed, path) := s in
  if bool_decide (Step.ID step ∈ executed) then s
  else if forallb (λ dep, bool_decide (dep ∈ executed)) (Step.Dependencies step) && can (Step.ID step)
  then ({[Step.ID step]} ∪ executed, path ++ [Step.ID step])%list
  else s.

Definition simulate_pass (can : string -> bool) (steps : list Step.t)
    (s : gset string * list string) : gset string * list string :=
  foldl (simulate_one can) s steps.

Definition simulate_order (can : string -> bool) (steps : list Step.t) : gset string * list string :=
  Nat.iter (List.length steps) (simulate_pass can steps) (∅, []).

Definition total_time (steps : list Step.t) : Z :=
  foldl (λ total step, i64 (total + estimated_time step)) 0 steps.

(** [rate] and [authorized] are the answers of [CheckRateLimit] and of the authorizer. *)
Definition SimulateWorkflow (rate authorized : res unit) (w : Workflow.t) : res Simulation.t :=
  rate ≫= λ _,
  wrap "workflow validation failed" (validateWorkflow w) ≫= λ _,
  authorized ≫= λ _,
  let steps := Workflow.GetSteps w in
  let details := step_details steps in
  let '(executed, path) := simulate_order (can_execute details) steps in
  let success := negb (Z.of_nat (size executed) <? Z.of_nat (List.length steps)) in
  let stuck := if success then []
    else (λ x, "Step " +:+ Step.ID x +:+ " could not be executed") <$>
           filter (λ x, Step.ID x ∉ executed) steps in
  Returns (Simulation.MkResult success path (total_time steps)
    ((steps ≫= λ x, (simulate_step x).1.2) ++ stuck)%list
    (steps ≫= λ x, (simulate_step x).2) details (Z.of_nat (size executed))).
End simulate.

(** ** The simulated order *)

Section order.
Context (can : string -> bool).

Lemma simulate_one_spec executed path step :
  simulate_one can (executed, path) step =
    if decide (Step.ID step ∉ executed /\ Forall (.∈ executed) (Step.Dependencies step) /\
               can (Step.ID step) = true)
    then ({[Step.ID step]} ∪ executed, path ++ [Step.ID step])%list
    else (executed, path).
Proof.
  unfold simulate_one. case_bool_decide as Hin; [by rewrite decide_False by tauto|].
  destruct (forallb _ _) eqn:Hf; simpl.
  - assert (Forall (.∈ executed) (Step.Dependencies step)) as Hd.
    { apply Forall_forall. intros d Hd. rewrite forallb_forall in Hf.
      specialize (Hf d ltac:(by apply list_elem_of_In)). by apply bool_decide_eq_true in Hf. }
    destruct (can _); [by rewrite decide_True by done|by rewrite decide_False by naive_solver].
  - rewrite decide_False; [done|]. intros (_ & Hd & _). apply not_true_iff_false in Hf. apply Hf.
    apply forallb_forall. intros d Hdi. apply bool_decide_eq_true.
    rewrite Forall_forall in Hd. by apply Hd, list_elem_of_In.
Qed.

(** A pass that has nothing left to do. *)
Definition saturated (steps : list Step.t) (executed : gset string) : Prop :=
  Forall (λ step, Step.ID step ∈ executed <->
    Forall (.∈ executed) (Step.Dependencies step) /\ can (Step.ID step) = true) steps.

Lemma pass_saturated steps executed path :
  saturated steps executed -> simulate_pass can steps (executed, path) = (executed, path).
Proof.
  unfold simulate_pass. induction steps as [|step steps IH]; intros Hs; [done|].
  apply Forall_cons in Hs as [Hstep Hs]. cbn [foldl].
  rewrite simulate_one_spec, decide_False by tauto. by apply IH.
Qed.

(** One pass over steps in order executes every step that can be: [path'] is what it adds. *)
Lemma pass_ordered before steps executed path :
  ordered before steps -> executed ⊆ before ->
  exists path',
    simulate_pass can steps (executed, path)
      = (executed ∪ list_to_set path', path ++ path')%list /\
    path' `sublist_of` (Step.ID <$> steps) /\
    saturated steps (executed ∪ list_to_set path') /\
    (forall l1 id l2, path' = (l1 ++ id :: l2)%list ->
       exists step, step ∈ steps /\ Step.ID step = id /\
         Forall (.∈ executed ∪ list_to_set l1) (Step.Dependencies step)).
Proof.
  revert before executed path. induction steps as [|step steps IH]; intros before executed path Ho Hex.
  { exists []. cbn. rewrite union_empty_r_L, app_nil_r. split_and!; [done|done|constructor|].
    intros l1 id l2 Heq. by destruct l1. }
  destruct Ho as (_ & Hn & Hd & Ho).
  destruct (declared_ids _ _ (ordered_declared _ _ Ho)) as [_ Hfresh].
  unfold simulate_pass. cbn [foldl]. rewrite simulate_one_spec. case_decide as Hrun.
  - destruct Hrun as (Hni & Hdeps & Hcan).
    destruct (IH ({[Step.ID step]} ∪ before) ({[Step.ID step]} ∪ executed) (path ++ [Step.ID step])%list Ho)
      as (path'' & Hpass & Hsub & Hsat & Hprec); [set_solver|].
    assert (({[Step.ID step]} ∪ executed) ∪ list_to_set path''
            = executed ∪ list_to_set (Step.ID step :: path'') :> gset string) as Heq by set_solver.
    rewrite Heq in Hpass, Hsat. exists (Step.ID step :: path''). split_and!.
    + unfold simulate_pass in Hpass. by rewrite Hpass, <-app_assoc.
    + by apply sublist_skip.
    + apply Forall_cons. split; [|done]. split; [|set_solver].
      intros _. split; [|done]. eapply Forall_impl; [done|]. set_solver.
    + intros [|x l1] id l2 Hl; simpl in Hl.
      * injection Hl as <- <-. exists step. split_and!; [by left|done|].
        eapply Forall_impl; [done|]. set_solver.
      * injection Hl as <- Hl. destruct (Hprec l1 id l2 Hl) as (y & Hy & Hid & Hyd).
        exists y. split_and!; [by right|done|]. eapply Forall_impl; [done|]. set_solver.
  - destruct (IH ({[Step.ID step]} ∪ before) executed path Ho)
      as (path' & Hpass & Hsub & Hsat & Hprec); [set_solver|].
    assert (forall n, n ∈ {[Step.ID step]} ∪ before -> n ∈ executed ∪ list_to_set path' -> n ∈ executed)
      as Hback.
    { intros n Hnb Hne. apply elem_of_union in Hne as [?|Hp]; [done|]. exfalso.
      apply elem_of_list_to_set in Hp. rewrite Forall_forall in Hfresh.
      refine (Hfresh n _ Hnb). by eapply elem_of_sublist. }
    exists path'. split_and!; [done|by apply sublist_cons| |].
    + apply Forall_cons. split; [|done]. split.
      * intros Hin. apply Hback in Hin; [|set_solver]. exfalso. apply Hn, Hex, Hin.
      * intros [Hdeps Hcan]. exfalso. apply Hrun. split_and!; [auto| |done].
        rewrite Forall_forall in *. intros d Hdi. apply Hback; [|by apply Hdeps].
        apply elem_of_union. right. by apply Hd.
    + intros l1 id l2 Hl. destruct (Hprec l1 id l2 Hl) as (y & Hy & ?).
      exists y. split; [by right|done].
Qed.

Lemma order_ordered steps :
  ordered ∅ steps ->
  exists path,
    simulate_order can steps = (list_to_set path, path) /\
    path `sublist_of` (Step.ID <$> steps) /\ saturated steps (list_to_set path) /\
    (forall l1 id l2, path = (l1 ++ id :: l2)%list ->
       exists step, step ∈ steps /\ Step.ID step = id /\
         Forall (.∈ l1) (Step.Dependencies step)).
Proof.
  intros Ho. destruct (pass_ordered ∅ steps ∅ [] Ho) as (path & Hp & Hsub & Hsat & Hprec); [done|].
  rewrite union_empty_l_L in Hp, Hsat. simpl in Hp. exists path. split_and!; [|done|done|].
  - unfold simulate_order. destruct steps as [|step steps].
    + simpl in Hsub. apply sublist_nil_r in Hsub as ->. done.
    + cbn [List.length]. rewrite Nat.iter_succ_r, Hp. generalize (List.length steps) as n.
      induction n as [|n IH]; [done|]. rewrite Nat.iter_succ, IH. by apply pass_saturated.
  - intros l1 id l2 Hl. destruct (Hprec l1 id l2 Hl) as (y & ? & ? & Hd). exists y. split_and!; [done..|].
    eapply Forall_impl; [done|]. set_solver.
Qed.

(** All steps are executed exactly if each of them can be. *)
Lemma saturated_all steps before executed :
  ordered before steps -> saturated steps executed -> before ⊆ executed ->
  (forall step, step ∈ steps -> can (Step.ID step) = true) ->
  Forall (.∈ executed) (Step.ID <$> steps).
Proof.
  revert before. induction steps as [|step steps IH]; intros before Ho Hs Hb Hcan; [constructor|].
  destruct Ho as (_ & _ & Hd & Ho). apply Forall_cons in Hs as [Hstep Hs].
  assert (Step.ID step ∈ executed) as Hin.
  { apply Hstep. split; [|apply Hcan; by left]. eapply Forall_impl; [done|]. set_solver. }
  constructor; [done|]. apply (IH ({[Step.ID step]} ∪ before)); [done|done|set_solver|].
  intros x Hx. apply Hcan. by right.
Qed.

Lemma order_complete steps path :
  ordered ∅ steps -> path `sublist_of` (Step.ID <$> steps) -> saturated steps (list_to_set path) ->
  (List.length steps <= size (list_to_set path : gset string))%nat <->
  Forall (λ step, can (Step.ID step) = true) steps.
Proof.
  intros Ho Hsub Hsat. destruct (declared_ids _ _ (ordered_declared _ _ Ho)) as [Hnd _].
  assert (NoDup path) as Hndp by (by eapply sublist_NoDup).
  rewrite size_list_to_set by done. split.
  - intros Hlen.
    assert (path ≡ₚ Step.ID <$> steps) as Heq.
    { apply submseteq_length_Permutation; [by apply sublist_submseteq|by rewrite length_fmap]. }
    unfold saturated in Hsat. rewrite Forall_forall in *. intros step Hin. apply Hsat; [done|].
    rewrite Heq. apply elem_of_list_to_set. by apply list_elem_of_fmap_2.
  - intros Hcan. rewrite Forall_forall in Hcan.
    pose proof (saturated_all steps ∅ (list_to_set path) Ho Hsat ltac:(set_solver) Hcan) as Hall.
    rewrite <-(length_fmap Step.ID). apply submseteq_length, NoDup_submseteq; [done|].
    intros x Hx. rewrite Forall_forall in Hall. apply Hall in Hx. by apply elem_of_list_to_set in Hx.
Qed.
End order.

(** ** Results *)

(** C4 [validateNoCycles] refuses a workflow exactly if some step depends on itself, directly or
    through others; the search never needs more fuel than there are identifiers. *)
Theorem no_cycles_decides steps :
  (forall fuel, (size (nodes steps) <= fuel)%nat ->
     exists b, search fuel steps = Some b /\ (b = true <-> exists n, tc (edge (adjacency steps)) n n)) /\
  (validateNoCycles steps = Returns () <-> ~ exists n, tc (edge (adjacency steps)) n n) /\
  (validateNoCycles steps = Fails cycle_error <-> exists n, tc (edge (adjacency steps)) n n).
Proof. split; [exact (λ fuel, search_decides fuel steps)|exact (validate_no_cycles steps)]. Qed.

(** [validateWorkflow] accepts a workflow exactly if it has a name, a type and steps with
    distinct, non-empty identifiers, each after all the steps it depends on; the list is then
    a topological order of its graph, and [Validate] of the model only wants names and types. *)
Theorem validate_workflow_orders w :
  (validateWorkflow w = Returns () <->
   Workflow.Name w ≠ "" /\ Workflow.Type_ w ≠ "" /\ Workflow.Steps w ≠ [] /\
   ordered ∅ (Workflow.Steps w)) /\
  (validateWorkflow w = Returns () ->
   Forall (λ step, Step.Name step ≠ "" /\ Step.Type_ step ≠ "") (Workflow.Steps w) ->
   Validate (Workflow.Steps w) = Returns ()).
Proof.
  split; [apply validate_workflow_iff|]. intros (_ & _ & _ & Ho)%validate_workflow_iff Hnames.
  apply steps_validate_iff. pose proof (ordered_declared _ _ Ho) as Hd.
  split; [by eapply declared_ids|]. clear Ho. revert Hd Hnames.
  rewrite <-(union_empty_l_L (list_to_set _)). generalize (∅ : gset string) as before.
  induction (Workflow.Steps w) as [|step steps IH]; intros before Hd Hn; [constructor|].
  apply Forall_cons in Hn as [[Hname Hty] Hn]. destruct Hd as (Hid & _ & Hdeps & Hd).
  assert ({[Step.ID step]} ∪ before ∪ list_to_set (Step.ID <$> steps)
          = before ∪ list_to_set (Step.ID <$> (step :: steps)) :> gset string) as Heq
    by (cbn [fmap list_fmap list_to_set]; set_solver).
  specialize (IH _ Hd Hn). rewrite Heq in IH. constructor; [|done].
  split_and!; [done..|]. eapply Forall_impl; [done|]. intros d. cbn [fmap list_fmap list_to_set]. set_solver.
Qed.

Definition witness_step (id : string) (deps : list string) : Step.t :=
  Step.Mk id id "" "task" "" "" ∅ ∅ 0 60 0 (RetryPolicy.Mk 0 "" 0 0) false deps "".
Definition witness_workflow (steps : list Step.t) : Workflow.t :=
  Workflow.Mk 7%N 1%N "w" "parallel" 1 "" ∅ steps ∅ "" [] true 0 0 None.

Lemma validate_workflow_orders_witness :
  Validate (Workflow.Steps (witness_workflow [witness_step "a" []; witness_step "b" ["a"]])) = Returns ().
Proof.
  apply validate_workflow_orders; [vm_compute; reflexivity|]. repeat constructor; done.
Defined.

(** A step listed before the step it depends on: the model's [Validate] accepts it, the
    service refuses it. *)
Example forward_dependency :
  let steps := [witness_step "b" ["a"]; witness_step "a" []] in
  Validate steps = Returns () /\ validateNoCycles steps = Returns () /\
  validateWorkflow (witness_workflow steps)
    = Fails (ValidationError "step.dependencies" (Sprintf "unknown dependency: %s" [AString "a"])).
Proof. vm_compute. done. Qed.

(** The simulation of a valid workflow finds the steps that can run: its path lists, in the
    order of the workflow, exactly the steps whose agent is available and whose dependencies
    are all on the path, each after its dependencies; it reports success exactly if the agent
    of every step is available. *)
Theorem simulate_order_correct `{AgentService} other w r :
  SimulateWorkflow other (Returns ()) (Returns ()) w = Returns r ->
  let available step := Step.AgentID step = "" \/ is_Some (agent_available step) in
  let path := Simulation.ExecutionPath r in
  path `sublist_of` (Step.ID <$> Workflow.Steps w) /\
  Forall (λ step, Step.ID step ∈ path <->
    available step /\ Forall (.∈ path) (Step.Dependencies step)) (Workflow.Steps w) /\
  (forall l1 step l2, step ∈ Workflow.Steps w -> path = (l1 ++ Step.ID step :: l2)%list ->
     Forall (.∈ l1) (Step.Dependencies step)) /\
  (Simulation.Success r = true <-> Forall available (Workflow.Steps w)).
Proof.
  intros Hr available path. unfold SimulateWorkflow in Hr. cbn [mbind outcome_bind] in Hr.
  apply outcome_bind_returns in Hr as ([] & Hv & Hr). apply wrap_returns in Hv.
  apply validate_workflow_iff in Hv as (_ & _ & _ & Ho).
  cbn [mbind outcome_bind] in Hr. unfold Workflow.GetSteps in Hr.
  set (can := can_execute _) in Hr. pose proof (declared_ids _ _ (ordered_declared _ _ Ho)) as [Hnd _].
  assert (forall step, step ∈ Workflow.Steps w -> can (Step.ID step) = true <-> available step) as Hcan.
  { intros step Hin. unfold can, can_execute.
    assert (step_details other (Workflow.Steps w) !! Step.ID step = Some (simulate_step other step).1.1) as ->
      by (by apply (index_nodup (λ x, (simulate_step other x).1.1))).
    unfold available, simulate_step, simulate_agent.
    destruct (String.eqb_spec (Step.AgentID step) "") as [He|Hne]; [simpl; tauto|].
    destruct (agent_available step); [|simpl; split; [done|]; intros [?|[? ?]]; done].
    destruct (as_list _); simpl; split; eauto. }
  destruct (order_ordered can (Workflow.Steps w) Ho) as (p & Hp & Hsub & Hsat & Hprec).
  rewrite Hp in Hr. injection Hr as <-. subst path. cbn [Simulation.ExecutionPath Simulation.Success].
  pose proof (order_complete can (Workflow.Steps w) p Ho Hsub Hsat) as Hcomp.
  split_and!; [done| | |].
  - unfold saturated in Hsat. rewrite Forall_forall in *. intros step Hin.
    specialize (Hsat step Hin). rewrite Hcan, elem_of_list_to_set in Hsat by done.
    rewrite Hsat. rewrite !Forall_forall. setoid_rewrite elem_of_list_to_set. tauto.
  - intros l1 step l2 Hin Hl. destruct (Hprec l1 _ l2 Hl) as (y & Hy & Hid & Hd).
    assert (y = step) as ->; [|done].
    apply list_elem_of_lookup in Hy as [i Hi], Hin as [j Hj].
    assert (i = j) as <-; [|congruence].
    eapply (NoDup_lookup _ _ _ (Step.ID step) Hnd); rewrite list_lookup_fmap; [by rewrite Hi, <-Hid|by rewrite Hj].
  - rewrite negb_true_iff, Z.ltb_ge, <-Nat2Z.inj_le, Hcomp, !Forall_forall.
    split; intros Hall x Hx; apply Hcan; auto.
Qed.

(** One agent, ["alpha"]; every other is missing. *)
Definition one_agent : AgentService := {|
  GetAvailableAgents := Ok [];
  GetAgentWorkload _ := Err ErrNotFound;
  GetAgent id := if String.eqb id "alpha" then Ok (Some (Agent.Mk id 1%N "" "" "" "active" ["task"] None))
                 else Err ErrNotFound;
  GetAgentCapabilities id := if String.eqb id "alpha" then Ok ["task"] else Err ErrNotFound;
|}.

Definition with_agent (agent : string) (x : Step.t) : Step.t :=
  Step.Mk (Step.ID x) (Step.Name x) "" (Step.Type_ x) "" agent ∅ ∅ 0 60 0 (Step.RetryPolicy x) false
    (Step.Dependencies x) "".

Lemma simulate_order_correct_witness :
  let w := witness_workflow [with_agent "alpha" (witness_step "a" []);
             with_agent "beta" (witness_step "b" ["a"]); witness_step "c" ["b"];
             witness_step "d" ["a"]] in
  exists r, @SimulateWorkflow one_agent (λ t _, t) (Returns ()) (Returns ()) w = Returns r /\
    Simulation.ExecutionPath r = ["a"; "d"] /\ ~ Simulation.Success r = true.
Proof.
  intros w. destruct (@SimulateWorkflow one_agent (λ t _, t) (Returns ()) (Returns ()) w) as [r|e|] eqn:Hr;
    [|vm_compute in Hr; discriminate..].
  exists r. split; [done|]. pose proof Hr as Hp. vm_compute in Hp. injection Hp as Hp.
  split; [by rewrite <-Hp|]. intros Hs.
  apply (@simulate_order_correct one_agent (λ t _, t) w r Hr) in Hs.
  rewrite Forall_forall in Hs. specialize (Hs (with_agent "beta" (witness_step "b" ["a"]))).
  destruct Hs as [Hs|[x Hs]]; [by right; left|discriminate Hs|vm_compute in Hs; discriminate Hs].
Defined.
