(* ===== verification/WorkflowInput.v ===== *)
(** * WorkflowInput: inputs of executions, conditions of steps

    [validateWorkflowInput] with the checks it calls, and [evaluateCondition], of
    [pkg/services/workflow_service_impl.go].  The input schema is part of the workflow's
    configuration.  [regexp.MatchString] is a parameter.  Go ranges over the maps of the schema
    in any order: [range] is an argument. *)

From stdpp Require Import base decidable gmap strings list.
From Stdlib Require Import ZArith Lia.
From S2P Require Import Prelude GoFloat GoStrings GoAny ServiceErrors ServiceInterfaces WorkflowModels.

Local Open Scope string_scope.
Local Open Scope Z_scope.

(** ** Types *)

Definition expected (fieldName what : string) (value : any) : error :=
  ValidationError fieldName (Text ("expected " +:+ what +:+ ", got " +:+ type_name value)).

Definition is_number (v : any) : bool :=
  match v with AInt _ | AInt32 _ | AInt64 _ | AFloat32 _ | AFloat _ => true | _ => false end.
Definition is_array (v : any) : bool :=
  match v with AList _ | AStrings _ | AInts _ | AFloats _ => true | _ => false end.

Definition check_type (ok : bool) (e : error) : res unit := if ok then Returns () else Fails e.
Definition is_some {A} (o : option A) : bool := match o with Some _ => true | None => false end.

(** An unknown type name accepts every value. *)
Definition has_type (expectedType : string) (value : any) : bool :=
  if String.eqb expectedType "string" then is_some (as_string value)
  else if String.eqb expectedType "number" then is_number value
  else if String.eqb expectedType "boolean" then is_some (as_bool value)
  else if String.eqb expectedType "object" then is_some (as_map value)
  else if String.eqb expectedType "array" then is_array value
  else true.

Definition validateFieldType (fieldName : string) (value : any) (expectedType : string) : res unit :=
  check_type (has_type expectedType value) (expected fieldName expectedType value).

(** ** Constraints *)

Definition below_min (fieldName : string) (value minVal : any) : option error :=
  match value with
  | AInt v =>
      match as_int minVal with
      | Some minInt =>
          if v <? minInt
          then Some (ValidationError fieldName (Sprintf "value %d is less than minimum %d" [value; minVal]))
          else None
      | None => None
      end
  | AFloat v =>
      match as_float minVal with
      | Some minFloat =>
          if f64_lt v minFloat
          then Some (ValidationError fieldName (Sprintf "value %f is less than minimum %f" [value; minVal]))
          else None
      | None => None
      end
  | AString v =>
      match as_int minVal with
      | Some minInt =>
          if len v <? minInt
          then Some (ValidationError fieldName
                 (Sprintf "string length %d is less than minimum %d" [AInt (len v); minVal]))
          else None
      | None => None
      end
  | _ => None
  end.

Definition above_max (fieldName : string) (value maxVal : any) : option error :=
  match value with
  | AInt v =>
      match as_int maxVal with
      | Some maxInt =>
          if maxInt <? v
          then Some (ValidationError fieldName (Sprintf "value %d exceeds maximum %d" [value; maxVal]))
          else None
      | None => None
      end
  | AFloat v =>
      match as_float maxVal with
      | Some maxFloat =>
          if f64_lt maxFloat v
          then Some (ValidationError fieldName (Sprintf "value %f exceeds maximum %f" [value; maxVal]))
          else None
      | None => None
      end
  | AString v =>
      match as_int maxVal with
      | Some maxInt =>
          if maxInt <? len v
          then Some (ValidationError fieldName
                 (Sprintf "string length %d exceeds maximum %d" [AInt (len v); maxVal]))
          else None
      | None => None
      end
  | _ => None
  end.

Definition unless (e : option error) : res unit :=
  match e with Some e => Fails e | None => Returns () end.

Definition validateMinConstraint (fieldName : string) (value minVal : any) : res unit :=
  unless (below_min fieldName value minVal).
Definition validateMaxConstraint (fieldName : string) (value maxVal : any) : res unit :=
  unless (above_max fieldName value maxVal).

(** [value == allowed] for each allowed value in turn. *)
Fixpoint among (value : any) (allowedValues : list any) : outcome error bool :=
  match allowedValues with
  | [] => Returns false
  | allowed :: rest =>
      match any_eq value allowed with
      | Uncomparable => Panics
      | Compared true => Returns true
      | Compared false => among value rest
      end
  end.

Definition validateEnumConstraint (fieldName : string) (value enum : any) : res unit :=
  match as_list enum with
  | None => Returns ()
  | Some allowedValues =>
      found ← among value allowedValues;
      if found : bool then Returns ()
      else Fails (ValidationError fieldName (Sprintf "value %v not in allowed values" [value]))
  end.

Section input.
Context (MatchString : string -> string -> result string bool).

Definition validatePatternConstraint (fieldName : string) (value pattern : any) : res unit :=
  match as_string value, as_string pattern with
  | Some str, Some patternStr =>
      match MatchString patternStr str with
      | Err e => Fails (ValidationError fieldName (Text ("invalid pattern: " +:+ e)))
      | Ok false => Fails (ValidationError fieldName (Text ("value does not match pattern " +:+ patternStr)))
      | Ok true => Returns ()
      end
  | _, _ => Returns ()
  end.

(** One entry of the constraint map, if it is there. *)
Definition constrained (constraints : gmap string any) (key : string) (check : any -> res unit) : res unit :=
  match constraints !! key with Some v => check v | None => Returns () end.

Definition validateFieldConstraint (fieldName : string) (value constraint : any) : res unit :=
  match as_map constraint with
  | None => Returns ()
  | Some c =>
      constrained c "min" (validateMinConstraint fieldName value) ≫= λ _,
      constrained c "max" (validateMaxConstraint fieldName value) ≫= λ _,
      constrained c "pattern" (validatePatternConstraint fieldName value) ≫= λ _,
      constrained c "enum" (validateEnumConstraint fieldName value)
  end.

(** ** [validateWorkflowInput] *)

Context (range : gmap string any -> list (string * any)).

Definition check_required (input : gmap string any) (f : any) : res unit :=
  match as_string f with
  | None => Returns ()
  | Some fieldName =>
      if is_nil (field input fieldName)
      then Fails (ValidationError fieldName (Text "required field missing"))
      else Returns ()
  end.

Definition check_property (input : gmap string any) (p : string * any) : res unit :=
  let '(fieldName, fieldDef) := p in
  match as_map fieldDef with
  | Some fieldDefMap =>
      match as_string (field fieldDefMap "type") with
      | Some fieldType =>
          if is_nil (field input fieldName) then Returns ()
          else validateFieldType fieldName (field input fieldName) fieldType
      | None => Returns ()
      end
  | None => Returns ()
  end.

Definition check_constraint (input : gmap string any) (p : string * any) : res unit :=
  let '(fieldName, constraint) := p in
  if is_nil (field input fieldName) then Returns ()
  else validateFieldConstraint fieldName (field input fieldName) constraint.

(** A part of the schema, if it has the expected type. *)
Definition with_part {A} (assert : any -> option A) (schema : gmap string any) (key : string)
    (check : A -> res unit) : res unit :=
  match assert (field schema key) with Some x => check x | None => Returns () end.

Definition validate_schema (schema input : gmap string any) : res unit :=
  with_part as_list schema "required" (λ l, for_each (check_required input) l) ≫= λ _,
  with_part as_map schema "properties" (λ m, for_each (check_property input) (range m)) ≫= λ _,
  with_part as_map schema "constraints" (λ m, for_each (check_constraint input) (range m)).

Definition validateWorkflowInput (w : Workflow.t) (input : gmap string any) : res unit :=
  match as_map (field (Workflow.Config w) "input_schema") with
  | None => Returns ()
  | Some inputSchema => validate_schema inputSchema input
  end.
End input.

(** ** [evaluateCondition] *)

Section condition.
Context (other : string -> Z -> string).
(** The answer of the rule engine to a rule, if there is an engine. *)
Context (RuleEngine : option (string -> result error Rules.Decision)).

Definition yes_no (b : bool) : res string := Returns (if b then "true" else "false").

Definition compare_floats (lt : float64 -> float64 -> bool) (a b : any) : bool :=
  match as_float a, as_float b with Some x, Some y => lt x y | _, _ => false end.

Definition compare_values (operator : string) (fieldValue value : any) : res string :=
  if String.eqb operator "==" || String.eqb operator "equals" then
    match any_eq fieldValue value with Compared b => yes_no b | Uncomparable => Panics end
  else if String.eqb operator "!=" || String.eqb operator "not_equals" then
    match any_eq fieldValue value with Compared b => yes_no (negb b) | Uncomparable => Panics end
  else if String.eqb operator ">" then yes_no (compare_floats (λ x y, f64_lt y x) fieldValue value)
  else if String.eqb operator "<" then yes_no (compare_floats f64_lt fieldValue value)
  else Fails (Errorf (Text ("unsupported operator: " +:+ operator))).

(** The context first, then the state. *)
Definition field_value (execution : Execution.t) (f : string) : any :=
  let v := field (Execution.Context execution) f in
  if is_nil v then field (Execution.State execution) f else v.

Definition one_of (l : list string) (s : string) : bool := existsb (String.eqb s) l.

Definition evaluate_expression (execution : Execution.t) (expression : string) : string :=
  if one_of ["true"; "1"; "yes"] expression then "true"
  else if one_of ["false"; "0"; "no"] expression then "false"
  else if HasPrefix expression "${" && HasSuffix expression "}" then
    match Execution.Context execution !! TrimSuffix (TrimPrefix expression "${") "}" with
    | Some val => sprint other val
    | None => expression
    end
  else expression.

Definition condition_required (key : string) : error := ValidationError ("condition." +:+ key) (Text "required").

Definition evaluateCondition (execution : Execution.t) (condition : gmap string any) : res string :=
  match as_string (field condition "type") with
  | None => Fails (condition_required "type")
  | Some conditionType =>
      if String.eqb conditionType "expression" then
        match as_string (field condition "expression") with
        | None => Fails (condition_required "expression")
        | Some expression =>
            match as_string (field condition "field"), as_string (field condition "operator"),
                  condition !! "value" with
            | Some f, Some operator, Some value =>
                compare_values operator (field_value execution f) value
            | _, _, _ => Returns (evaluate_expression execution expression)
            end
        end
      else if String.eqb conditionType "script" then
        match as_string (field condition "script") with
        | None => Fails (condition_required "script")
        | Some _ => Returns "true"
        end
      else if String.eqb conditionType "rule" then
        match as_string (field condition "rule") with
        | None => Fails (condition_required "rule")
        | Some ruleName =>
            match RuleEngine with
            | None => Returns "true"
            | Some evaluate =>
                match evaluate ruleName with
                | Err e => Fails (Wrapped "rule evaluation failed" e)
                | Ok decision => yes_no (Rules.Allowed decision)
                end
            end
        end
      else Fails (Errorf (Text ("unsupported condition type: " +:+ conditionType)))
  end.
End condition.

(** ** When comparisons panic *)

Definition composite (v : any) : bool :=
  match v with AList _ | AStrings _ | AInts _ | AFloats _ | AMap _ => true | _ => false end.

Lemma any_eq_panics a b :
  any_eq a b = Uncomparable <-> composite a = true /\ composite b = true /\ type_name a = type_name b.
Proof. destruct a, b; simpl; split; try done; by intros (? & ? & ?). Qed.

Lemma among_panics v l :
  among v l = Panics <-> composite v = true /\ Exists (λ x, composite x = true /\ type_name v = type_name x) l.
Proof.
  induction l as [|x l IH]; simpl; [split; [done|]; intros [_ He]; inversion He|].
  rewrite Exists_cons. destruct (any_eq v x) as [[]|] eqn:Hx.
  - split; [done|]. intros [Hv [Hx'|He]].
    + assert (any_eq v x = Uncomparable) by (apply any_eq_panics; tauto). congruence.
    + exfalso. revert Hx. destruct v; try done; by destruct x.
  - rewrite IH. split; [naive_solver|]. intros [Hv [Hx'|He]]; [|done].
    assert (any_eq v x = Uncomparable) by (apply any_eq_panics; tauto). congruence.
  - apply any_eq_panics in Hx. naive_solver.
Qed.

(** ** What an accepted input satisfies *)

(** [smaller v b]: [v] is below the bound [b] in the sense of the code: numbers of the same
    Go type, or the length of a string against an [int]. *)
Inductive smaller : any -> any -> Prop :=
| smaller_int v b : v < b -> smaller (AInt v) (AInt b)
| smaller_float v b : f64_lt v b = true -> smaller (AFloat v) (AFloat b)
| smaller_length v b : len v < b -> smaller (AString v) (AInt b).

Inductive larger : any -> any -> Prop :=
| larger_int v b : b < v -> larger (AInt v) (AInt b)
| larger_float v b : f64_lt b v = true -> larger (AFloat v) (AFloat b)
| larger_length v b : b < len v -> larger (AString v) (AInt b).

(** Both sides of a bound: the code's test against the relation. *)
Ltac bound_cases :=
  match goal with |- context [if ?t then _ else _] => destruct t eqn:Ht end; simpl; split;
  [done | intros Hs; exfalso; apply Hs; constructor; first [done | bool_hyps; lia]
  |intros _ Hs; inversion Hs; subst; first [congruence | bool_hyps; lia] | done].

Lemma validate_min f v b : validateMinConstraint f v b = Returns () <-> ~ smaller v b.
Proof.
  unfold validateMinConstraint, below_min.
  destruct v, b; simpl; first [split; [intros _ Hs; by inversion Hs|done] | bound_cases].
Qed.

Lemma validate_max f v b : validateMaxConstraint f v b = Returns () <-> ~ larger v b.
Proof.
  unfold validateMaxConstraint, above_max.
  destruct v, b; simpl; first [split; [intros _ Hs; by inversion Hs|done] | bound_cases].
Qed.

Section accepted.
Context (MatchString : string -> string -> result string bool).

Record meets (c : gmap string any) (v : any) : Prop := {
  meets_min b : c !! "min" = Some b -> ~ smaller v b;
  meets_max b : c !! "max" = Some b -> ~ larger v b;
  meets_pattern s p : v = AString s -> c !! "pattern" = Some (AString p) -> MatchString p s = Ok true;
  meets_enum l : c !! "enum" = Some (AList l) -> among v l = Returns true;
}.

Record conforms (schema input : gmap string any) : Prop := {
  conforms_required l name :
    field schema "required" = AList l -> AString name ∈ l -> field input name ≠ ANil;
  conforms_type ps name def ty :
    field schema "properties" = AMap ps -> ps !! name = Some (AMap def) ->
    field def "type" = AString ty -> field input name ≠ ANil ->
    has_type ty (field input name) = true;
  conforms_constraint cs name c :
    field schema "constraints" = AMap cs -> cs !! name = Some (AMap c) ->
    field input name ≠ ANil -> meets c (field input name);
}.

Lemma constrained_returns c key check :
  constrained c key check = Returns () <-> forall v, c !! key = Some v -> check v = Returns ().
Proof. unfold constrained. destruct (c !! key); naive_solver. Qed.

Lemma with_part_returns {A} (assert : any -> option A) schema key check :
  with_part assert schema key check = Returns () <->
  forall x, assert (field schema key) = Some x -> check x = Returns ().
Proof. unfold with_part. destruct (assert _); naive_solver. Qed.

Lemma validate_pattern f v p :
  validatePatternConstraint MatchString f v p = Returns () <->
  forall s q, v = AString s -> p = AString q -> MatchString q s = Ok true.
Proof.
  unfold validatePatternConstraint. destruct v, p; simpl; try (split; [done|done]).
  destruct (MatchString s0 s) as [[]|e] eqn:Hm; split; try done.
  1: by intros _ s' q [= <-] [= <-].
  all: intros H; specialize (H s s0 eq_refl eq_refl); congruence.
Qed.

Lemma validate_enum f v e :
  validateEnumConstraint f v e = Returns () <-> forall l, e = AList l -> among v l = Returns true.
Proof.
  unfold validateEnumConstraint. destruct e; simpl; try (split; [done|done]).
  destruct (among v l) as [[]|?|] eqn:Ha; simpl; split; try done.
  1: by intros _ l' [= <-].
  all: intros H; specialize (H l eq_refl); congruence.
Qed.

Lemma unit_bind {E} (m : outcome E unit) (k : outcome E unit) :
  (m ≫= λ _, k) = Returns () <-> m = Returns () /\ k = Returns ().
Proof. destruct m as [[]|e|]; simpl; naive_solver. Qed.

Lemma validate_constraint f v c :
  validateFieldConstraint MatchString f v (AMap c) = Returns () <-> meets c v.
Proof.
  unfold validateFieldConstraint. cbn [as_map]. rewrite !unit_bind, !constrained_returns.
  setoid_rewrite validate_min. setoid_rewrite validate_max. setoid_rewrite validate_pattern.
  setoid_rewrite validate_enum. split.
  - intros (H1 & H2 & H3 & H4). constructor; eauto.
  - intros [H1 H2 H3 H4]. split_and!; [exact H1|exact H2| |].
    + intros p Hp s q -> ->. by eapply H3.
    + intros e He l ->. by eapply H4.
Qed.

Context (range : gmap string any -> list (string * any)).
Context (range_permutes : forall m, ranges (range m) m).

Lemma range_forall {A} (check : string * any -> outcome A unit) m :
  for_each check (range m) = Returns () <-> forall k v, m !! k = Some v -> check (k, v) = Returns ().
Proof.
  rewrite for_each_returns, Forall_forall. split.
  - intros Hall k v Hk. by apply Hall, (ranges_elem _ _ _ _ (range_permutes m)).
  - intros Hall [k v] Hin. by apply Hall, (ranges_elem _ _ _ _ (range_permutes m)).
Qed.

Lemma not_nil v : is_nil v = false <-> v ≠ ANil.
Proof. destruct v; simpl; naive_solver. Qed.

Lemma check_required_returns input f :
  check_required input f = Returns () <-> forall name, f = AString name -> field input name ≠ ANil.
Proof.
  unfold check_required. destruct f; simpl; try (split; [done|done]).
  destruct (is_nil (field input s)) eqn:Hn.
  - split; [done|]. intros H. specialize (H s eq_refl). by apply not_nil in H; congruence.
  - apply not_nil in Hn. split; [|done]. by intros _ name [= <-].
Qed.

Lemma check_property_returns input name d :
  check_property input (name, d) = Returns () <->
  forall def ty, d = AMap def -> field def "type" = AString ty -> field input name ≠ ANil ->
    has_type ty (field input name) = true.
Proof.
  unfold check_property. destruct d; simpl; try (split; [done|done]).
  destruct (field m "type") eqn:Ht; simpl; try (split; [intros _ def ty [= <-]; congruence|done]).
  unfold validateFieldType, check_type. destruct (is_nil (field input name)) eqn:Hn.
  - split; [|done]. intros _ def ty _ _ Hne%not_nil. congruence.
  - apply not_nil in Hn. destruct (has_type s (field input name)) eqn:Hty; split; try done.
    + intros _ def ty [= <-] Hs _. congruence.
    + intros H. specialize (H m s eq_refl Ht Hn). congruence.
Qed.

Lemma check_constraint_returns input name d :
  check_constraint MatchString input (name, d) = Returns () <->
  forall c, d = AMap c -> field input name ≠ ANil -> meets c (field input name).
Proof.
  unfold check_constraint. destruct (is_nil (field input name)) eqn:Hn.
  - split; [|done]. intros _ c _ Hne%not_nil. congruence.
  - apply not_nil in Hn. destruct d; try (split; [done|done]).
    rewrite validate_constraint. split; [|by auto]. by intros H c [= <-] _.
Qed.

Lemma validate_schema_iff schema input :
  validate_schema MatchString range schema input = Returns () <-> conforms schema input.
Proof.
  unfold validate_schema. rewrite !unit_bind, !with_part_returns.
  setoid_rewrite for_each_returns at 1. setoid_rewrite range_forall.
  setoid_rewrite check_property_returns. setoid_rewrite check_constraint_returns. split.
  - intros (Hr & Ht & Hc). constructor.
    + intros l name Hl Hin. specialize (Hr l). rewrite Hl in Hr. specialize (Hr eq_refl).
      rewrite Forall_forall in Hr. specialize (Hr _ Hin).
      exact (proj1 (check_required_returns input (AString name)) Hr name eq_refl).
    + intros ps name def ty Hps Hname. eapply (Ht ps); [by rewrite Hps|done|done].
    + intros cs name c Hcs Hname. eapply (Hc cs); [by rewrite Hcs|done|done].
  - intros [Hr Ht Hc]. split_and!.
    + intros l Hl. apply Forall_forall. intros f Hf. apply check_required_returns.
      intros name ->. eapply Hr; [|done]. destruct (field schema "required"); naive_solver.
    + intros ps Hps k v Hk def ty -> Hty Hne. eapply Ht; try done.
      destruct (field schema "properties"); naive_solver.
    + intros cs Hcs k v Hk c -> Hne. eapply Hc; try done.
      destruct (field schema "constraints"); naive_solver.
Qed.
End accepted.

(** ** Results *)


Definition obj (l : list (string * any)) : any := AMap (list_to_map l).
Definition witness_schema : gmap string any :=
  list_to_map [("required", AList [AString "name"; AString "count"]);
    ("properties", obj [("name", obj [("type", AString "string")]);
                        ("count", obj [("type", AString "number")])]);
    ("constraints", obj [("count", obj [("max", AFloat (f64_of_Z 10))])])].
Definition schema_workflow (schema : gmap string any) : Workflow.t :=
  Workflow.Mk 7%N 1%N "w" "parallel" 1 "" ∅ [] (<["input_schema" := AMap schema]> ∅) "" [] true 0 0 None.
Definition witness_input (n : Z) : gmap string any :=
  list_to_map [("name", AString "build"); ("count", AFloat (f64_of_Z n))].
Definition no_regexp (p s : string) : result string bool := Ok true.


(** In a configuration that was decoded from JSON, as stored workflows are, [min] and [max]
    never bound the length of a string, nor an [int] value: they are [float64] there. *)
Theorem json_length_unchecked f s bound :
  from_json bound ->
  validateMinConstraint f (AString s) bound = Returns () /\
  validateMaxConstraint f (AString s) bound = Returns () /\
  forall n, validateMinConstraint f (AInt n) bound = Returns () /\
            validateMaxConstraint f (AInt n) bound = Returns ().
Proof. destruct 1; done. Qed.

Lemma json_length_unchecked_witness :
  validateMaxConstraint "name" (AString "far too long") (AFloat (f64_of_Z 3)) = Returns ().
Proof. apply (json_length_unchecked "name" "far too long" (AFloat (f64_of_Z 3))). constructor. Defined.

(** The [enum] check panics exactly if the value is an object or an array and one of the
    allowed values has its type; the equality operators of a condition panic likewise. *)
Theorem comparison_panics f v allowedValues operator :
  (validateEnumConstraint f v (AList allowedValues) = Panics <->
   composite v = true /\ Exists (λ x, composite x = true /\ type_name v = type_name x) allowedValues) /\
  (forall x, compare_values operator v x = Panics <->
     operator ∈ ["=="; "equals"; "!="; "not_equals"] /\
     composite v = true /\ composite x = true /\ type_name v = type_name x).
Proof.
  split.
  - rewrite <-among_panics. unfold validateEnumConstraint. cbn [as_list].
    destruct (among v allowedValues) as [[]|e|]; simpl; naive_solver.
  - intros x. rewrite <-any_eq_panics. unfold compare_values.
    destruct (String.eqb_spec operator "==") as [->|H1]; simpl.
    { destruct (any_eq v x); naive_solver (set_solver). }
    destruct (String.eqb_spec operator "equals") as [->|H2]; simpl.
    { destruct (any_eq v x); naive_solver (set_solver). }
    destruct (String.eqb_spec operator "!=") as [->|H3]; simpl.
    { destruct (any_eq v x); naive_solver (set_solver). }
    destruct (String.eqb_spec operator "not_equals") as [->|H4]; simpl.
    { destruct (any_eq v x); naive_solver (set_solver). }
    destruct (String.eqb operator ">"), (String.eqb operator "<"); split; try done; intros [Ho _]; set_solver.
Qed.

(** A request can do it: the schema allows one object, the input gives another. *)
Example enum_panic :
  validateWorkflowInput no_regexp map_to_list
    (schema_workflow (list_to_map
       [("constraints", obj [("target", obj [("enum", AList [obj []])])])]))
    (list_to_map [("target", obj [("env", AString "prod")])]) = Panics.
Proof. vm_compute. reflexivity. Qed.
