(* ===== verification/WorkflowTemplates.v ===== *)
(** * WorkflowTemplates: templates and the workflows made from them

    The template part of [pkg/services/workflow_service_impl.go]: what is checked of a
    template and of the parameters of an instance, the substitution of parameters into the
    definition, and how a template is stored as a workflow and read back.  The parameters of
    a call are a Go map that may be nil ([None]).  Go ranges over them in any order: [range]
    is an argument. *)

From stdpp Require Import base decidable gmap strings list.
From Stdlib Require Import ZArith Lia Ascii String.
From S2P Require Import Prelude GoFloat GoStrings GoAny ServiceErrors WorkflowModels.

Local Open Scope string_scope.
Local Open Scope Z_scope.

Module TemplateParameter.
Record t := Mk {
  Name : string;
  Type_ : string;
  Description : string;
  Required : bool;
  DefaultValue : any;
}.
End TemplateParameter.

Module Template.
Record t := Mk {
  ID : UUID;
  Name : string;
  Description : string;
  Category : string;
  Definition_ : gmap string any;
  Parameters : list TemplateParameter.t;
  CreatedBy : string;
  CreatedAt : Z;
  UpdatedAt : Z;
}.
End Template.

(** ** Checks *)

Definition parameter_field (i : Z) (f : string) : string := "parameters[" +:+ itoa i +:+ "]." +:+ f.

Definition parameter_types : list string := ["string"; "number"; "boolean"; "array"; "object"].

Fixpoint check_parameters (i : Z) (ps : list TemplateParameter.t) : res unit :=
  match ps with
  | [] => Returns ()
  | p :: ps =>
      if String.eqb (TemplateParameter.Name p) ""
      then Fails (ValidationError (parameter_field i "name") (Text "required"))
      else if String.eqb (TemplateParameter.Type_ p) ""
      then Fails (ValidationError (parameter_field i "type") (Text "required"))
      else if existsb (String.eqb (TemplateParameter.Type_ p)) parameter_types
      then check_parameters (i + 1) ps
      else Fails (ValidationError (parameter_field i "type")
                    (Text ("invalid type: " +:+ TemplateParameter.Type_ p)))
  end.

Definition validateTemplateDefinition (template : Template.t) : res unit :=
  match Template.Definition_ template !! "type", Template.Definition_ template !! "steps" with
  | None, _ => Fails (ValidationError "definition.type" (Text "required"))
  | _, None => Fails (ValidationError "definition.steps" (Text "required"))
  | _, _ => check_parameters 0 (Template.Parameters template)
  end.

Definition parameter_ok (type : string) (v : any) : option string :=
  if String.eqb type "string" then match v with AString _ => None | _ => Some "must be a string" end
  else if String.eqb type "number" then
    match v with
    | AInt _ | AInt32 _ | AInt64 _ | AFloat32 _ | AFloat _ => None
    | _ => Some "must be a number"
    end
  else if String.eqb type "boolean" then match v with ABool _ => None | _ => Some "must be a boolean" end
  else if String.eqb type "array" then match v with AList _ => None | _ => Some "must be an array" end
  else if String.eqb type "object" then match v with AMap _ => None | _ => Some "must be an object" end
  else None.

Definition validateParameterType (p : TemplateParameter.t) (v : any) : res unit :=
  match parameter_ok (TemplateParameter.Type_ p) v with
  | None => Returns ()
  | Some m => Fails (ValidationError (TemplateParameter.Name p) (Text m))
  end.

Definition param (params : option (gmap string any)) (name : string) : option any :=
  params ≫= λ m, m !! name.

(** Fills in the defaults.  Writing to a nil map panics. *)
Fixpoint validateTemplateParameters (ps : list TemplateParameter.t) (params : option (gmap string any))
    : res (option (gmap string any)) :=
  match ps with
  | [] => Returns params
  | p :: ps =>
      match param params (TemplateParameter.Name p) with
      | Some value => validateParameterType p value ≫= λ _, validateTemplateParameters ps params
      | None =>
          if TemplateParameter.Required p
          then Fails (ValidationError (TemplateParameter.Name p) (Text "required parameter missing"))
          else if is_nil (TemplateParameter.DefaultValue p) then validateTemplateParameters ps params
          else
            match params with
            | None => Panics
            | Some m =>
                validateTemplateParameters ps
                  (Some (<[TemplateParameter.Name p := TemplateParameter.DefaultValue p]> m))
            end
      end
  end.

(** ** Substitution *)

Section substitution.
Context (other : string -> Z -> string).

Definition placeholder (key : string) : string := "{" +:+ key +:+ "}".

(** [l] is the order in which Go ranges over the parameters. *)
Definition substituteTemplateParams (l : list (string * any)) (text : string) : string :=
  foldl (λ result kv, ReplaceAll result (placeholder kv.1) (sprint other kv.2)) text l.

Definition name_parameters (l : list (string * any)) (name : string) : string :=
  foldl (λ name kv,
    if Contains name (placeholder kv.1)
    then ReplaceAll name (placeholder kv.1) (sprint other kv.2) else name) name l.

(** [now] is the minute, formatted. *)
Definition generateWorkflowName (now : string) (l : list (string * any)) (template : Template.t) : string :=
  name_parameters l (Template.Name template) +:+ " - " +:+ now.

Fixpoint deepCopyWithSubstitution (l : list (string * any)) (value : any) : any :=
  match value with
  | AString s => AString (substituteTemplateParams l s)
  | AMap m => AMap (deepCopyWithSubstitution l <$> m)
  | AList vs => AList (map (deepCopyWithSubstitution l) vs)
  | v => v
  end.

Definition getStringValue (m : gmap string any) (key : string) : string :=
  default "" (as_string (field m key)).
Definition getBoolValue (m : gmap string any) (key : string) : bool :=
  default false (as_bool (field m key)).

Definition extractWorkflowType (definition : gmap string any) : string :=
  match as_string (field definition "type") with
  | Some typeStr =>
      if existsb (String.eqb typeStr)
           [WorkflowTypeSequential; WorkflowTypeParallel; WorkflowTypeConditional; WorkflowTypeCollaborative]
      then typeStr else WorkflowTypeSequential
  | None => WorkflowTypeSequential
  end.

Definition strings_of (l : list any) : list string := omap as_string l.

(** [int(x)] of an optional [float64] field. *)
Definition int_value (m : gmap string any) (key : string) : Z :=
  match as_float (field m key) with Some x => f64_to_int x | None => 0 end.

(** The retry policy and [timeout_seconds] that are not in the definition stay zero. *)
Definition step_of (m : gmap string any) : Step.t :=
  Step.Mk (getStringValue m "id") (getStringValue m "name") (getStringValue m "description")
    (getStringValue m "type") (getStringValue m "action") (getStringValue m "agent_id")
    (default ∅ (as_map (field m "input"))) (default ∅ (as_map (field m "config")))
    (i64 (int_value m "timeout" * second)) (int_value m "timeout_seconds") (int_value m "retries")
    (RetryPolicy.Mk 0 "" 0 0) (getBoolValue m "continue_on_error")
    (match as_list (field m "dependencies") with Some deps => strings_of deps | None => [] end)
    (getStringValue m "on_failure").

Definition instantiateTemplateSteps (l : list (string * any)) (definition : gmap string any) : list Step.t :=
  let stepsData := default [] (as_list (field definition "steps")) in
  step_of <$> omap (λ d, as_map (deepCopyWithSubstitution l d)) stepsData.

(** The workflow that [CreateFromTemplate] passes to [CreateWorkflow]. *)
Definition instantiate (tenantID : UUID) (now : string) (templateID : any) (l : list (string * any))
    (params : gmap string any) (template : Template.t) : Workflow.t :=
  Workflow.Mk Nil tenantID (generateWorkflowName now l template)
    (extractWorkflowType (Template.Definition_ template)) 0 "" ∅
    (instantiateTemplateSteps l (Template.Definition_ template))
    (<["created_from_template" := templateID]> (<["template_params" := AMap params]> ∅))
    (substituteTemplateParams l (Template.Description template))
    ["from-template:" +:+ Template.Name template] true zero_time zero_time None.
End substitution.

(** ** Storing a template as a workflow *)

(** What [CreateWorkflowTemplate] checks before it stores; the sanitizer of the repository
    returns its input. *)
Definition check_template (rate quota authorized : res unit) (template : option Template.t) : res Template.t :=
  rate ≫= λ _,
  quota ≫= λ _,
  match template with
  | None => Fails (ValidationError "template" (Text "required"))
  | Some t =>
      if String.eqb (Template.Name t) "" then Fails (ValidationError "name" (Text "required"))
      else if bool_decide (Template.Definition_ t = ∅)
      then Fails (ValidationError "definition" (Text "required"))
      else
        authorized ≫= λ _,
        wrap "template validation failed" (validateTemplateDefinition t) ≫= λ _,
        Returns t
  end.

(** The stored workflow.  Its configuration also holds the parameters, as a Go slice. *)
Definition stored (tenantID : UUID) (t : Template.t) : Workflow.t :=
  Workflow.Mk (Template.ID t) tenantID ("TEMPLATE:" +:+ Template.Name t) WorkflowTypeSequential 0
    (Template.CreatedBy t) ∅ []
    (<["template" := ABool true]> (<["definition" := AMap (Template.Definition_ t)]> ∅))
    (Template.Description t) ["template"; Template.Category t] false
    (Template.CreatedAt t) (Template.UpdatedAt t) None.

Fixpoint extractTemplateCategory (tags : list string) : string :=
  match tags with
  | [] => "general"
  | tag :: tags =>
      if HasPrefix tag "category:" then TrimPrefix tag "category:" else extractTemplateCategory tags
  end.

(** [GetWorkflowTemplate] on the workflow that the repository returns; [parameters] is the
    outcome of [Config["parameters"].([]models.TemplateParameter)], which fails for a
    configuration decoded from JSON. *)
Definition template_of (parameters : option (list TemplateParameter.t)) (w : Workflow.t) : res Template.t :=
  match as_bool (field (Workflow.Config w) "template") with
  | Some true =>
      Returns (Template.Mk (Workflow.ID w) (TrimPrefix (Workflow.Name w) "TEMPLATE:")
        (Workflow.Description w) (extractTemplateCategory (Workflow.Tags w))
        (default ∅ (as_map (field (Workflow.Config w) "definition"))) (default [] parameters)
        (Workflow.CreatedBy w) (Workflow.CreatedAt w) (Workflow.UpdatedAt w))
  | _ => Fails (ValidationError "template" (Text "not a template"))
  end.

(** ** Substitution of brace-free values is simultaneous *)

Definition brace_free (s : string) : Prop := free_of "{" s = true /\ free_of "}" s = true.

(** A text as literal pieces and placeholders. *)
Inductive token := Lit (s : string) | Key (k : string).

Definition token_ok (t : token) : Prop := match t with Lit s | Key s => brace_free s end.

Fixpoint render (ts : list token) : string :=
  match ts with
  | [] => ""
  | Lit s :: ts => s +:+ render ts
  | Key k :: ts => placeholder k +:+ render ts
  end.

Lemma trim_prefix_app p t : TrimPrefix (p +:+ t) p = t.
Proof. unfold TrimPrefix. by rewrite prefix_app, drop_app. Qed.

(** Nothing happens to what starts with another byte than the placeholder. *)
Lemma replace_byte a s k v :
  Ascii.eqb a "{" = false ->
  replace_from 0 (String a s) (placeholder k) v = String a (replace_from 0 s (placeholder k) v).
Proof.
  intros Ha. cbn [replace_from]. change (placeholder k) with (String "{" (k +:+ "}")).
  rewrite prefix_cons, Ascii.eqb_sym. by rewrite Ha.
Qed.

Lemma replace_literal s t k v :
  free_of "{" s = true ->
  replace_from 0 (s +:+ t) (placeholder k) v = s +:+ replace_from 0 t (placeholder k) v.
Proof.
  induction s as [|a s IH]; [done|]. simpl free_of. intros [Ha%negb_true_iff Hs]%andb_prop.
  change (String a s +:+ t) with (String a (s +:+ t)). rewrite replace_byte by done. by rewrite IH.
Qed.

Lemma replace_skip s t old v : replace_from (String.length s) (s +:+ t) old v = replace_from 0 t old v.
Proof. induction s as [|a s IH]; [done|]. exact IH. Qed.

Lemma replace_hit t k v :
  replace_from 0 (placeholder k +:+ t) (placeholder k) v = v +:+ replace_from 0 t (placeholder k) v.
Proof.
  pose proof (prefix_app (placeholder k) t) as Hp.
  change (placeholder k +:+ t) with (String "{" ((k +:+ "}") +:+ t)) in *.
  cbn [replace_from]. rewrite Hp. f_equal.
  change (String.length (placeholder k) - 1)%nat with (String.length (k +:+ "}") - 0)%nat.
  rewrite Nat.sub_0_r. apply replace_skip.
Qed.

Lemma prefix_key k k' t :
  free_of "}" k = true -> free_of "}" k' = true ->
  HasPrefix ((k' +:+ "}") +:+ t) (k +:+ "}") = true -> k = k'.
Proof.
  revert k'. induction k as [|a k IH]; intros [|b k']; cbn [free_of].
  - done.
  - intros _ [Hb%negb_true_iff _]%andb_prop. change (("" +:+ "}")) with (String "}" "").
    change ((String b k' +:+ "}") +:+ t) with (String b ((k' +:+ "}") +:+ t)).
    by rewrite prefix_cons, Ascii.eqb_sym, Hb.
  - intros [Ha%negb_true_iff _]%andb_prop _. change (("" +:+ "}") +:+ t) with (String "}" t).
    change (String a k +:+ "}") with (String a (k +:+ "}")). by rewrite prefix_cons, Ha.
  - intros [_ Hk]%andb_prop [_ Hk']%andb_prop.
    change ((String b k' +:+ "}") +:+ t) with (String b ((k' +:+ "}") +:+ t)).
    change (String a k +:+ "}") with (String a (k +:+ "}")). rewrite prefix_cons.
    destruct (Ascii.eqb_spec a b) as [->|]; [|done]. intros Hp. f_equal. by apply IH.
Qed.

Lemma replace_miss t k k' v :
  brace_free k -> brace_free k' -> k ≠ k' ->
  replace_from 0 (placeholder k' +:+ t) (placeholder k) v
    = placeholder k' +:+ replace_from 0 t (placeholder k) v.
Proof.
  intros [_ Hk] [Ho' Hk'] Hne.
  assert (HasPrefix (placeholder k' +:+ t) (placeholder k) = false) as Hp.
  { apply not_true_iff_false. intros Hp. apply Hne.
    change (placeholder k' +:+ t) with (String "{" ((k' +:+ "}") +:+ t)) in Hp.
    change (placeholder k) with (String "{" (k +:+ "}")) in Hp.
    rewrite prefix_cons, Ascii.eqb_refl in Hp. by eapply prefix_key. }
  change (placeholder k' +:+ t) with (String "{" ((k' +:+ "}") +:+ t)) in *.
  cbn [replace_from]. rewrite Hp. unfold placeholder at 2. simpl. f_equal.
  rewrite !app_string_assoc, replace_literal by done. f_equal.
Qed.

Definition subst_one (k v : string) (t : token) : token :=
  match t with Key k' => if decide (k' = k) then Lit v else t | Lit _ => t end.

Lemma replace_tokens ts k v :
  brace_free k -> Forall token_ok ts ->
  ReplaceAll (render ts) (placeholder k) v = render (subst_one k v <$> ts).
Proof.
  intros Hk. unfold ReplaceAll. induction ts as [|[s|k'] ts IH]; intros Hts; [done|..];
    apply Forall_cons in Hts as [Ht Hts]; cbn [render fmap list_fmap subst_one].
  - rewrite replace_literal by apply Ht. f_equal. by apply IH.
  - case_decide as Hd; [subst k'|]; cbn [render].
    + rewrite replace_hit. f_equal. by apply IH.
    + rewrite replace_miss by (done || congruence). f_equal. by apply IH.
Qed.

Lemma subst_one_ok k v ts : brace_free v -> Forall token_ok ts -> Forall token_ok (subst_one k v <$> ts).
Proof.
  intros Hv Hts. apply Forall_fmap. eapply Forall_impl; [done|]. intros [s|k'] Ht; simpl; [done|].
  by case_decide.
Qed.

(** All placeholders at once. *)
Definition subst_all (other : string -> Z -> string) (params : gmap string any) (t : token) : token :=
  match t with
  | Key k => match params !! k with Some v => Lit (sprint other v) | None => t end
  | Lit _ => t
  end.

Lemma substitute_tokens other (l : list (string * any)) ts :
  NoDup l.*1 -> Forall (λ kv, brace_free kv.1 /\ brace_free (sprint other kv.2)) l ->
  Forall token_ok ts ->
  substituteTemplateParams other l (render ts)
    = render (subst_all other (list_to_map l) <$> ts).
Proof.
  unfold substituteTemplateParams. revert ts.
  induction l as [|[k v] l IH]; intros ts Hnd Hl Hts; cbn [foldl].
  - f_equal. rewrite <-(list_fmap_id ts) at 1. apply list_fmap_ext. intros _ [s|k] _; done.
  - apply Forall_cons in Hl as [[Hk Hv] Hl]. apply NoDup_cons in Hnd as [Hn Hnd]. simpl in Hk, Hv.
    rewrite replace_tokens, IH; [|done..|by apply subst_one_ok|done|done].
    f_equal. rewrite <-list_fmap_compose. apply list_fmap_ext. intros _ [s|k'] _; [done|].
    unfold compose, subst_one. simpl. case_decide as Hd.
    + subst k'. by rewrite lookup_insert_eq.
    + by rewrite lookup_insert_ne by congruence.
Qed.

(** ** Results *)


Definition witness_params : gmap string any :=
  list_to_map [("env", AString "prod"); ("n", AInt 3)].

(** A value that contains a placeholder makes the result depend on the order. *)
Example substitution_order :
  let l := [("a", AString "{b}"); ("b", AString "x")] in
  substituteTemplateParams (λ t _, t) l "{a}" = "x" /\
  substituteTemplateParams (λ t _, t) (rev l) "{a}" = "{b}".
Proof. vm_compute. done. Qed.

(** Reading a stored template back gives the template, except that its category becomes
    ["general"] unless it starts with ["category:"], and that the parameters are those that the
    configuration still holds as a Go slice. *)
Theorem template_storage tenantID parameters t :
  template_of parameters (stored tenantID t) =
    Returns (Template.Mk (Template.ID t) (Template.Name t) (Template.Description t)
      (if HasPrefix (Template.Category t) "category:"
       then TrimPrefix (Template.Category t) "category:" else "general")
      (Template.Definition_ t) (default [] parameters) (Template.CreatedBy t)
      (Template.CreatedAt t) (Template.UpdatedAt t)).
Proof.
  unfold template_of, stored, field, get. cbn [Workflow.Config Workflow.ID Workflow.Name
    Workflow.Description Workflow.Tags Workflow.CreatedBy Workflow.CreatedAt Workflow.UpdatedAt].
  rewrite lookup_insert_eq, lookup_insert_ne, lookup_insert_eq by done. cbn [default as_bool as_map id].
  by rewrite trim_prefix_app.
Qed.

(** The parameters of an instance. *)
Definition given (params : gmap string any) (p : TemplateParameter.t) : Prop :=
  match params !! TemplateParameter.Name p with
  | Some v => parameter_ok (TemplateParameter.Type_ p) v = None
  | None => TemplateParameter.Required p = false
  end.

Definition with_default (params : gmap string any) (p : TemplateParameter.t) : gmap string any :=
  match params !! TemplateParameter.Name p with
  | Some _ => params
  | None => if is_nil (TemplateParameter.DefaultValue p) then params
            else <[TemplateParameter.Name p := TemplateParameter.DefaultValue p]> params
  end.

Lemma with_default_other params p name :
  name ≠ TemplateParameter.Name p -> with_default params p !! name = params !! name.
Proof.
  intros Hn. unfold with_default. destruct (params !! TemplateParameter.Name p); [done|].
  destruct (is_nil _); [done|]. by rewrite lookup_insert_ne.
Qed.

(** Exactly the calls with every required parameter and values of the declared types are
    accepted; missing parameters get their default, whose type is not checked.  A call with a
    nil map panics where a default would be stored. *)
Theorem template_parameters ps params :
  NoDup (TemplateParameter.Name <$> ps) ->
  (forall r, validateTemplateParameters ps (Some params) = Returns r <->
     Forall (given params) ps /\ r = Some (foldl with_default params ps)) /\
  (validateTemplateParameters ps None = Panics <->
   exists l1 p l2, ps = (l1 ++ p :: l2)%list /\
     Forall (λ q, TemplateParameter.Required q = false) (l1 ++ [p]) /\
     is_nil (TemplateParameter.DefaultValue p) = false).
Proof.
  intros Hnd. split.
  - revert params Hnd. induction ps as [|p ps IH]; intros params Hnd r; cbn [validateTemplateParameters foldl].
    { split; [intros [= <-]; done|]. by intros [_ ->]. }
    apply NoDup_cons in Hnd as [Hn Hnd]. rewrite Forall_cons. unfold given at 1, param. cbn [mbind option_bind].
    assert (forall params', (forall q, q ∈ ps -> params' !! TemplateParameter.Name q = params !! TemplateParameter.Name q) ->
              Forall (given params') ps <-> Forall (given params) ps) as Hsame.
    { intros params' Hp. rewrite !Forall_forall. unfold given. split; intros Hall q Hq;
        specialize (Hall q Hq); rewrite (Hp q Hq) in *; done. }
    destruct (params !! TemplateParameter.Name p) as [v|] eqn:Hp.
    + unfold validateParameterType. destruct (parameter_ok _ v); cbn [mbind outcome_bind].
      * split; [done|]. by intros [[? _] _].
      * rewrite IH by done. unfold with_default. rewrite Hp. tauto.
    + destruct (TemplateParameter.Required p); [split; [done|]; by intros [[? _] _]|].
      unfold with_default at 2. rewrite Hp. destruct (is_nil _); [rewrite IH by done; tauto|].
      rewrite IH by done. rewrite Hsame; [tauto|]. intros q Hq.
      rewrite lookup_insert_ne; [done|]. intros Heq. apply Hn. rewrite Heq. by apply list_elem_of_fmap_2.
  - clear Hnd. induction ps as [|p ps IH]; cbn [validateTemplateParameters].
    { split; [done|]. intros (l1 & p & l2 & Hl & _). by destruct l1. }
    unfold param. cbn [mbind option_bind]. destruct (TemplateParameter.Required p) eqn:Hreq.
    { split; [done|]. intros ([|x l1] & q & l2 & [= -> ->] & Hf & _);
        apply Forall_cons in Hf as [? _]; congruence. }
    destruct (is_nil (TemplateParameter.DefaultValue p)) eqn:Hd.
    + rewrite IH. split.
      * intros (l1 & q & l2 & -> & Hf & Hq). exists (p :: l1), q, l2. split_and!; [done| |done].
        by constructor.
      * intros ([|x l1] & q & l2 & [= -> ->] & Hf & Hq); [congruence|].
        apply Forall_cons in Hf as [_ Hf]. by exists l1, q, l2.
    + split; [|done]. intros _. exists [], p, ps. split_and!; [done| |done]. by repeat constructor.
Qed.

Definition witness_parameters : list TemplateParameter.t :=
  [TemplateParameter.Mk "env" "string" "" true ANil;
   TemplateParameter.Mk "n" "number" "" false (AString "three")].
Lemma template_parameters_witness :
  validateTemplateParameters witness_parameters (Some (<["env" := AString "prod"]> ∅))
    = Returns (Some (<["n" := AString "three"]> (<["env" := AString "prod"]> ∅))).
Proof.
  apply (template_parameters witness_parameters (<["env" := AString "prod"]> ∅)).
  - apply (bool_decide_unpack _). vm_compute. exact I.
  - split; [repeat constructor|]. vm_compute. reflexivity.
Defined.
