(* ===== verification/ServiceMonad.v ===== *)
(** * ServiceMonad: stateful methods that return an error or panic

    A method of a service is a function of the service's state that returns the new state
    with an outcome; what it did before an error or a panic stays done. *)

From stdpp Require Import base decidable tactics strings.
From Stdlib Require Import ZArith.
From S2P Require Import Prelude GoAny ServiceErrors.

Definition M (S A : Type) : Type := S -> S * res A.

#[export] Instance M_ret {S} : MRet (M S) := λ A a s, (s, Returns a).
#[export] Instance M_bind {S} : MBind (M S) := λ A B f m s,
  match m s with
  | (s, Returns a) => f a s
  | (s, Fails e) => (s, Fails e)
  | (s, Panics) => (s, Panics)
  end.

Section monad.
Context {S : Type}.

Definition ret {A} (a : A) : M S A := λ s, (s, Returns a).
Definition throw {A} (e : error) : M S A := λ s, (s, Fails e).
Definition panic {A} : M S A := λ s, (s, Panics).
Definition lift {A} (r : res A) : M S A := λ s, (s, r).
Definition of_result {A} (r : result error A) : M S A :=
  match r with Ok a => ret a | Err e => throw e end.
Definition gets {A} (f : S -> A) : M S A := λ s, (s, Returns (f s)).
Definition modify (f : S -> S) : M S unit := λ s, (f s, Returns ()).
Definition guard_ (b : bool) (e : error) : M S unit := if b then ret () else throw e.

(** [if err := m; err != nil { log }]: the error is dropped, a panic is not. *)
Definition ignore {A} (m : M S A) : M S unit := λ s,
  match m s with (s, Panics) => (s, Panics) | (s, _) => (s, Returns ()) end.

(** [errors.Wrap]. *)
Definition wrapping {A} (context : String.string) (m : M S A) : M S A := λ s,
  let '(s, r) := m s in (s, wrap context r).

Fixpoint for_each_ {A} (f : A -> M S unit) (l : list A) : M S unit :=
  match l with
  | nil => ret ()
  | cons x l => f x ≫= λ _, for_each_ f l
  end.
End monad.

Section laws.
Context {S : Type}.

Lemma bind_inv {A B} (m : M S A) (f : A -> M S B) s s' r :
  (m ≫= f) s = (s', r) ->
  (exists a s1, m s = (s1, Returns a) /\ f a s1 = (s', r)) \/
  (exists e, m s = (s', Fails e) /\ r = Fails e) \/
  (m s = (s', Panics) /\ r = Panics).
Proof.
  unfold mbind, M_bind. destruct (m s) as [s1 [a|e|]]; intros H.
  - left. by exists a, s1.
  - right. left. exists e. by injection H as <- <-.
  - right. right. by injection H as <- <-.
Qed.

(** What a computation that returns has done. *)
Lemma bind_returns {A B} (m : M S A) (f : A -> M S B) s s' b :
  (m ≫= f) s = (s', Returns b) <->
  exists a s1, m s = (s1, Returns a) /\ f a s1 = (s', Returns b).
Proof.
  split.
  - intros [(a & s1 & Hm & Hf)|[(e & _ & He)|[_ He]]]%bind_inv; [by exists a, s1|done|done].
  - intros (a & s1 & Hm & Hf). unfold mbind, M_bind. by rewrite Hm.
Qed.
Lemma ret_returns {A} (a b : A) (s s' : S) :
  ret a s = (s', Returns b) <-> s' = s /\ b = a.
Proof. split; [by intros [= <- <-]|by intros [-> ->]]. Qed.
Lemma lift_returns {A} (r : res A) a (s s' : S) :
  lift r s = (s', Returns a) <-> s' = s /\ r = Returns a.
Proof. split; [by intros [= <- ->]|by intros [-> ->]]. Qed.
Lemma guard_returns b e (s s' : S) u : guard_ b e s = (s', Returns u) <-> s' = s /\ b = true.
Proof. destruct b, u; split; try done; [by intros [= <-]|by intros [-> _]|by intros [_ ?]]. Qed.
Lemma wrapping_returns {A} c (m : M S A) s s' a :
  wrapping c m s = (s', Returns a) <-> m s = (s', Returns a).
Proof.
  unfold wrapping. destruct (m s) as [s1 [b|e|]]; simpl; split; congruence.
Qed.

(** A computation that keeps a predicate on states keeps it whatever its outcome. *)
Definition keeps {A} (P : S -> Prop) (m : M S A) : Prop := forall s, P s -> P (m s).1.

Lemma keeps_bind {A B} P (m : M S A) (f : A -> M S B) :
  keeps P m -> (forall a, keeps P (f a)) -> keeps P (m ≫= f).
Proof.
  intros Hm Hf s Hs. unfold mbind, M_bind. specialize (Hm s Hs).
  destruct (m s) as [s1 [a|e|]]; simpl in *; [by apply Hf|done|done].
Qed.

(** The same, where the continuation may use what the first part returned. *)
Lemma keeps_bind_val {A B} P (Q : A -> Prop) (m : M S A) (f : A -> M S B) :
  keeps P m -> (forall s s' a, P s -> m s = (s', Returns a) -> Q a) ->
  (forall a, Q a -> keeps P (f a)) -> keeps P (m ≫= f).
Proof.
  intros Hm Hq Hf s Hs. unfold mbind, M_bind. specialize (Hm s Hs).
  destruct (m s) as [s1 [a|e|]] eqn:Heq; simpl in *; [|done|done].
  apply (Hf a); [by eapply Hq|done].
Qed.

Lemma keeps_ret {A} P (a : A) : keeps P (ret (S := S) a).
Proof. by intros s Hs. Qed.
Lemma keeps_throw {A} P e : keeps P (throw (S := S) (A := A) e).
Proof. by intros s Hs. Qed.
Lemma keeps_panic {A} P : keeps P (panic (S := S) (A := A)).
Proof. by intros s Hs. Qed.
Lemma keeps_lift {A} P (r : res A) : keeps P (lift (S := S) r).
Proof. by intros s Hs. Qed.
Lemma keeps_of_result {A} P (r : result error A) : keeps P (of_result (S := S) r).
Proof. by destruct r; intros s Hs. Qed.
Lemma keeps_gets {A} P (f : S -> A) : keeps P (gets f).
Proof. by intros s Hs. Qed.
Lemma keeps_guard P b e : keeps P (guard_ (S := S) b e).
Proof. by destruct b; intros s Hs. Qed.
Lemma keeps_modify P f : (forall s, P s -> P (f s)) -> keeps P (modify (S := S) f).
Proof. intros Hf s Hs. by apply Hf. Qed.
Lemma keeps_ignore {A} P (m : M S A) : keeps P m -> keeps P (ignore m).
Proof.
  intros Hm s Hs. specialize (Hm s Hs). unfold ignore. by destruct (m s) as [s1 [a|e|]].
Qed.
Lemma keeps_wrapping {A} P c (m : M S A) : keeps P m -> keeps P (wrapping c m).
Proof. intros Hm s Hs. specialize (Hm s Hs). unfold wrapping. by destruct (m s). Qed.
Lemma keeps_for_each {A} P (f : A -> M S unit) l : (forall x, keeps P (f x)) -> keeps P (for_each_ f l).
Proof.
  intros Hf. induction l as [|x l IH]; [apply keeps_ret|]. cbn [for_each_]. by apply keeps_bind.
Qed.

(** A triple: from a state in [P], [m] returns with [Q], or ends otherwise in a state in [F]. *)
Definition triple {A} (P : S -> Prop) (m : M S A) (Q : A -> S -> Prop) (F : S -> Prop) : Prop :=
  forall s, P s -> match m s with (s', Returns a) => Q a s' | (s', _) => F s' end.

Lemma triple_bind {A B} P (m : M S A) Q (f : A -> M S B) Q' F :
  triple P m Q F -> (forall a, triple (Q a) (f a) Q' F) -> triple P (m ≫= f) Q' F.
Proof.
  intros Hm Hf s Hs. unfold mbind, M_bind. specialize (Hm s Hs).
  destruct (m s) as [s1 [a|e|]]; [by apply Hf|done|done].
Qed.
Lemma triple_weaken {A} (P P' : S -> Prop) (m : M S A) Q F :
  (forall s, P s -> P' s) -> triple P' m Q F -> triple P m Q F.
Proof. intros HP Hm s Hs. by apply Hm, HP. Qed.
Lemma triple_keeps {A} (P F : S -> Prop) (m : M S A) :
  (forall s, P s -> F s) -> keeps F m -> triple P m (λ _, F) F.
Proof.
  intros HF Hm s Hs. specialize (Hm s (HF s Hs)). by destruct (m s) as [s1 [a|e|]].
Qed.
Lemma keeps_triple {A} F (m : M S A) : triple F m (λ _, F) F -> keeps F m.
Proof. intros Hm s Hs. specialize (Hm s Hs). by destruct (m s) as [s1 [a|e|]]. Qed.
Lemma triple_lift {A} (P F : S -> Prop) (r : res A) :
  (forall s, P s -> F s) -> triple P (lift r) (λ a s, P s /\ r = Returns a) F.
Proof. intros HF s Hs. unfold lift. destruct r; [done|by apply HF|by apply HF]. Qed.
Lemma triple_guard (P F : S -> Prop) b e :
  (forall s, P s -> F s) -> triple P (guard_ b e) (λ _ s, P s /\ b = true) F.
Proof. intros HF s Hs. unfold guard_. destruct b; [done|by apply HF]. Qed.
Lemma reads_bind {A B} (m : M S A) (f : A -> M S B) s :
  (forall s, (m s).1 = s) -> (forall a s, (f a s).1 = s) -> ((m ≫= f) s).1 = s.
Proof.
  intros Hm Hf. unfold mbind, M_bind. specialize (Hm s). destruct (m s) as [s1 [a|e|]]; simpl in Hm; subst;
    [apply Hf|done..].
Qed.
Lemma reads_guard b e s : (guard_ (S := S) b e s).1 = s.
Proof. by destruct b. Qed.

(** [m] only reads. *)
Lemma triple_reads {A B} P (m : M S A) (f : A -> M S B) Q F :
  (forall s, P s -> F s) -> (forall s, (m s).1 = s) -> (forall a, triple P (f a) Q F) ->
  triple P (m ≫= f) Q F.
Proof.
  intros HF Hm Hf s Hs. unfold mbind, M_bind. specialize (Hm s). destruct (m s) as [s1 [a|e|]];
    simpl in Hm; subst; [by apply Hf|by apply HF..].
Qed.
Lemma triple_wrapping {A} P c (m : M S A) Q F : triple P m Q F -> triple P (wrapping c m) Q F.
Proof. intros Hm s Hs. specialize (Hm s Hs). unfold wrapping. by destruct (m s) as [s1 [a|e|]]. Qed.
End laws.

Create HintDb keeps discriminated.
#[export] Hint Resolve keeps_ret keeps_throw keeps_panic keeps_lift keeps_of_result keeps_gets
  keeps_guard keeps_ignore keeps_wrapping keeps_for_each : keeps.
#[export] Hint Extern 4 (keeps _ (_ ≫= _)) => apply keeps_bind; [|intros ?] : keeps.
#[export] Hint Extern 5 (keeps _ (match ?x with _ => _ end)) => destruct x : keeps.
#[export] Hint Extern 5 (keeps _ (let '(_, _) := ?x in _)) => destruct x : keeps.
#[export] Hint Rewrite @bind_returns @ret_returns @lift_returns @guard_returns @wrapping_returns : returns.
