(* ===== verification/WorkflowService.v ===== *)
(** * WorkflowService: executing workflows

    The core of [pkg/services/workflow_service_impl.go]: cached reads, [ExecuteWorkflow],
    [ExecuteWorkflowStep], the approval step and the completion check.  The state is what the
    service holds: two caches, the repository, the set of active executions and the goroutines
    it has started ([jobs]), each a separate step of the system.  The caches are any
    implementation of [CacheOps]; the service itself uses [Memory.MemoryCache].  A call happens
    at one instant, [now].  Step types other than [approval] run tasks, scripts and requests:
    [run_step] is a parameter. *)

From stdpp Require Import base decidable gmap strings list.
From Stdlib Require Import ZArith Lia.
From S2P Require Import Prelude GoFloat GoStrings GoAny ServiceErrors ServiceInterfaces.
From S2P Require Import ServiceMonad Storage MemCache Transaction WorkflowModels WorkflowGraph.
From S2P Require Import WorkflowInput.

Local Open Scope string_scope.
Local Open Scope Z_scope.

(** ** The repository ([interfaces.WorkflowRepository]) *)

(** [CreateExecution] fills in fields of the record it is given.  [repo_Rollback before after]
    undoes the operations of a transaction that began in [before]. *)
Class WorkflowRepository (R : Type) := {
  repo_Get : database -> UUID -> R -> result error Workflow.t;
  repo_Create : database -> Workflow.t -> R -> result error (Workflow.t * R);
  repo_Update : database -> Workflow.t -> R -> result error R;
  repo_Delete : database -> UUID -> R -> result error R;
  repo_GetExecution : database -> UUID -> R -> result error Execution.t;
  repo_CreateExecution : database -> Execution.t -> R -> result error (Execution.t * R);
  repo_UpdateExecution : database -> Execution.t -> R -> result error R;
  repo_UpdateStepStatus : database -> UUID -> string -> string -> JSONMap -> R -> result error R;
  repo_Rollback : R -> R -> R;
}.

(** [models.PendingApproval], without the lists of votes, which nothing fills. *)
Record PendingApproval := MkPending {
  ExecutionID : UUID;
  WorkflowID : UUID;
  StepID : string;
  StepName : string;
  RequestedAt : Z;
  RequiredBy : list string;
  DueBy : Z;
}.

(** What the caches hold. *)
Inductive cached :=
| CWorkflow (w : Workflow.t)
| CExecution (e : Execution.t)
| CID (id : UUID)
| CApproval (p : PendingApproval).

(** Goroutines that have been started and have not run yet. *)
Inductive job :=
| JStart (execution : Execution.t) (steps : list Step.t)
| JStep (executionID : UUID) (stepID : string)
| JResume (execution : Execution.t)
| JRetry (execution : Execution.t)
| JApproval (execution : Execution.t) (stepID : string) (key : string).

Record state (R C : Type) := MkState {
  workflowCache : C;
  executionCache : C;
  repo : R;
  activeExecutions : gset UUID;
  jobs : list job;
}.
Arguments MkState {R C}.
Arguments workflowCache {R C}.
Arguments executionCache {R C}.
Arguments repo {R C}.
Arguments activeExecutions {R C}.
Arguments jobs {R C}.

(** The request context, the clock and the answers of collaborators during one call. *)
Record env := MkEnv {
  now : Z;
  tenantID : UUID;
  agentID : string;
  new_id : UUID;
  db_fault : string -> nat -> option error;
  rate : string -> res unit;
  authorizer : option Auth.Authorizer;
  begin_ok : result error unit;
  commit_ok : result error unit;
  publish : string -> res unit;
  broadcast : string -> res unit;
  error_text : error -> string;
  regexp : string -> string -> result string bool;
  range : gmap string any -> list (string * any);
  run_step : Execution.t -> Step.t -> Execution.t * res JSONMap;
}.

Section service.
Context {R C : Type} {repository : WorkflowRepository R} {caching : CacheOps cached C} {uuids : UUIDText}.
Notation M := (ServiceMonad.M (state R C)).

Implicit Types (s : state R C) (e : Execution.t).

(** ** Parts of the state *)

Definition set_workflowCache (c : C) s : state R C :=
  MkState c (executionCache s) (repo s) (activeExecutions s) (jobs s).
Definition set_executionCache (c : C) s : state R C :=
  MkState (workflowCache s) c (repo s) (activeExecutions s) (jobs s).
Definition set_repo (r : R) s : state R C :=
  MkState (workflowCache s) (executionCache s) r (activeExecutions s) (jobs s).
Definition set_active (a : gset UUID) s : state R C :=
  MkState (workflowCache s) (executionCache s) (repo s) a (jobs s).
Definition spawn (j : job) : M unit := modify (λ s,
  MkState (workflowCache s) (executionCache s) (repo s) (activeExecutions s) (jobs s ++ [j])%list).
Definition activate (id : UUID) : M unit := modify (λ s, set_active ({[id]} ∪ activeExecutions s) s).
Definition deactivate (id : UUID) : M unit := modify (λ s, set_active (activeExecutions s ∖ {[id]}) s).

(** A write of the repository: an error leaves it as it was. *)
Definition repo_run {A} (f : R -> result error (A * R)) : M A := λ s,
  match f (repo s) with Ok (a, r) => (set_repo r s, Returns a) | Err e => (s, Fails e) end.
Definition repo_do (f : R -> result error R) : M unit := λ s,
  match f (repo s) with Ok r => (set_repo r s, Returns ()) | Err e => (s, Fails e) end.

Definition workflow_key (id : UUID) : string := "workflow:" +:+ uuid_string id.
Definition execution_key (id : UUID) : string := "execution:" +:+ uuid_string id.
Definition idempotency_key (key : string) : string := "idempotency:" +:+ key.
Definition approval_key (id : UUID) (stepID : string) : string :=
  "approval:" +:+ uuid_string id +:+ ":" +:+ stepID.

Definition hour : Z := 60 * minute.

Section ops.
Context (E : env).

Definition db : database := MkDatabase (now E) (db_fault E).

(** A cached value of the type that was asked for; [None]: [Get] wrote nothing.  Keys of
    different types have different prefixes. *)
Definition as_workflow (v : option cached) : Workflow.t :=
  match v with Some (CWorkflow w) => w | _ => Workflow.zero end.
Definition as_execution (v : option cached) : Execution.t :=
  match v with Some (CExecution e) => e | _ => Execution.zero end.
Definition as_id (v : option cached) : UUID := match v with Some (CID id) => id | _ => Nil end.

Definition cache_execution (key : string) (v : cached) (ttl : Z) : M unit :=
  modify (λ s, set_executionCache (cache_Set (now E) key v ttl (executionCache s)).2 s).
Definition forget_execution (id : UUID) : M unit :=
  modify (λ s, set_executionCache (cache_Delete (now E) (execution_key id) (executionCache s)).2 s).

Definition getWorkflow (id : UUID) : M Workflow.t := λ s,
  match cache_Get (now E) (workflow_key id) (workflowCache s) with
  | Ok v => (s, Returns (as_workflow v))
  | Err _ =>
      match repo_Get db id (repo s) with
      | Err e => (s, Fails e)
      | Ok w =>
          (set_workflowCache
             (cache_Set (now E) (workflow_key id) (CWorkflow w) (10 * minute) (workflowCache s)).2 s,
           Returns w)
      end
  end.

Definition not_found_error (id : UUID) (err : error) : error :=
  match cause err with
  | ErrNotFound => Errorf (Text ("execution not found: " +:+ uuid_string id))
  | _ => err
  end.

Definition getExecution (id : UUID) : M Execution.t := λ s,
  match cache_Get (now E) (execution_key id) (executionCache s) with
  | Ok v => (s, Returns (as_execution v))
  | Err _ =>
      match repo_GetExecution db id (repo s) with
      | Err e => (s, Fails (not_found_error id e))
      | Ok e =>
          (set_executionCache
             (cache_Set (now E) (execution_key id) (CExecution e) (5 * minute) (executionCache s)).2 s,
           Returns e)
      end
  end.

(** The lock is released when the method returns, before the caller uses the execution. *)
Definition getExecutionWithLock (id : UUID) : M Execution.t := getExecution id.

Definition checkExecutionIdempotency (key : string) : M UUID := λ s,
  match cache_Get (now E) (idempotency_key key) (executionCache s) with
  | Ok v => if (as_id v =? Nil)%N then (s, Fails (Errorf (Text "not found"))) else (s, Returns (as_id v))
  | Err _ => (s, Fails (Errorf (Text "not found")))
  end.

Definition storeExecutionIdempotencyKey (key : string) (id : UUID) : M unit :=
  cache_execution (idempotency_key key) (CID id) (24 * hour).

Definition conditions (l : list (string * any)) : gmap string any := list_to_map l.
Definition authorize_ (resource action what : string) (l : list (string * any)) : M unit :=
  lift (authorize (authorizer E) (Auth.MkPermission resource action (conditions l)) what).

(** [WithTransaction] around a method: its transaction has no participants. *)
Definition no_answers : answers := MkAnswers (λ _, true) (λ _, true) (λ _, true) (λ _, true).
Definition with_transaction (m : M unit) : M unit := λ s,
  WithTransaction no_answers no_participants no_participants
    (λ s t, let '(s, r) := m s in (s, t, r)) s.

(** ** [ExecuteWorkflow] *)

Definition initial_statuses (steps : list Step.t) : gmap string StepStatus.t :=
  index_by (λ x, StepStatus.pending (Step.ID x)) steps.

Definition new_execution (id workflowID tenant : UUID) (initiator status : string)
    (steps : list Step.t) : Execution.t :=
  Execution.Mk id workflowID tenant status ∅ ∅ initiator "" (now E) None zero_time None
    (initial_statuses steps) "".

Definition initial_steps (w : Workflow.t) : list Step.t :=
  filter (λ x, Step.Dependencies x = []) (Workflow.GetSteps w).

Definition startExecution (w : Workflow.t) e : M unit :=
  activate (Execution.ID e) ≫= λ _, spawn (JStart e (initial_steps w)).

(** The body of the database transaction: an error rolls the repository back. *)
Definition execution_transaction (w : Workflow.t) e (idempotencyKey : string) : M Execution.t := λ s,
  let before := repo s in
  match of_result (begin_ok E) s with
  | (s, Fails err) => (s, Fails (Wrapped "failed to begin transaction" err))
  | (s, _) =>
      match (wrapping "failed to create execution" (repo_run (repo_CreateExecution db e)) ≫= λ e,
             (if String.eqb idempotencyKey "" then ret ()
              else storeExecutionIdempotencyKey idempotencyKey (Execution.ID e)) ≫= λ _,
             repo_do (repo_Update db (Workflow.SetLastExecutedAt (Execution.StartedAt e) w)) ≫= λ _,
             wrapping "failed to commit transaction" (of_result (commit_ok E)) ≫= λ _,
             ignore (lift (publish E "WorkflowExecutionStarted")) ≫= λ _,
             ret e) s with
      | (s, Fails err) => (set_repo (repo_Rollback before (repo s)) s, Fails err)
      | r => r
      end
  end.

(** [None]: no key was given, or no execution is known under it. *)
Definition existing_execution (idempotencyKey : string) : M (option UUID) := λ s,
  if String.eqb idempotencyKey "" then (s, Returns None)
  else
    match checkExecutionIdempotency idempotencyKey s with
    | (s, Returns id) => (s, Returns (Some id))
    | (s, Fails _) => (s, Returns None)
    | (s, Panics) => (s, Panics)
    end.

Definition ExecuteWorkflow (workflowID : UUID) (input : JSONMap) (idempotencyKey : string)
    : M Execution.t :=
  lift (rate E "workflow:execute") ≫= λ _,
  existing_execution idempotencyKey ≫= λ existing,
  match existing with
  | Some existingID => getExecution existingID
  | None =>
      wrapping "workflow not found" (getWorkflow workflowID) ≫= λ w,
      guard_ (Workflow.IsActive w) (WorkflowNotActiveError workflowID) ≫= λ _,
      lift (wrap "input validation failed" (validateWorkflowInput (regexp E) (range E) w input)) ≫= λ _,
      wrapping "authorization failed"
        (authorize_ "workflow" "execute" "execute workflow"
           [("workflow_id", AUuid (Workflow.ID w)); ("type", AString (Workflow.Type_ w))]) ≫= λ _,
      let e := Execution.SetInput input
                 (new_execution (new_id E) workflowID (Workflow.TenantID w) (agentID E)
                    WorkflowStatusPending (Workflow.GetSteps w)) in
      execution_transaction w e idempotencyKey ≫= λ e,
      startExecution w e ≫= λ _,
      ret e
  end.

(** ** Steps *)

Definition check_dependency (step : Step.t) e (depID : string) : res unit :=
  match Execution.StepStatuses e !! depID with
  | None => Fails (Errorf (Sprintf "dependency step %s not found" [AString depID]))
  | Some depStatus =>
      if String.eqb (StepStatus.Status depStatus) StepStatusCompleted then Returns ()
      else Fails (StepDependencyError (Step.ID step) depID (StepStatus.Status depStatus))
  end.

Definition checkStepDependencies e (step : Step.t) : res unit :=
  for_each (check_dependency step e) (Step.Dependencies step).

Definition approvers (step : Step.t) : list string :=
  match as_list (field (Step.Config step) "approvers") with
  | Some l => omap as_string l
  | None => []
  end.

Definition approval_timeout (step : Step.t) : Z :=
  match as_float (field (Step.Config step) "timeout_minutes") with
  | Some m => i64 (f64_to_int m * minute)
  | None => 24 * hour
  end.

Definition approval_strategy (step : Step.t) : string :=
  default "any" (as_string (field (Step.Config step) "strategy")).

(** The record of the request reads [execution.Workflow.Name]: a nil pointer panics.  The
    goroutine that this starts shares the execution with the caller, which goes on changing
    it: [ExecuteWorkflowStep] adds it to the jobs with the record as it leaves it. *)
Definition executeApprovalStep e (step : Step.t) : M (Execution.t * JSONMap) :=
  match approvers step with
  | [] => throw (ValidationError "approvers" (Text "at least one approver required for approval step"))
  | requiredApprovers =>
      match Execution.Workflow_ e with
      | None => panic
      | Some _ =>
          let timeout := approval_timeout step in
          let due := now E + timeout in
          let key := approval_key (Execution.ID e) (Step.ID step) in
          let names := AStrings requiredApprovers in
          cache_execution key
            (CApproval (MkPending (Execution.ID e) (Execution.WorkflowID e) (Step.ID step)
                          (Step.Name step) (now E) requiredApprovers due)) timeout ≫= λ _,
          let e := Execution.update_step (λ x,
            StepStatus.set_Output (list_to_map [("approval_requested_at", ATime (now E));
                ("required_approvers", names); ("due_by", ATime due)])
              (StepStatus.set_Status StepStatusAwaitingApproval x)) (Step.ID step) e in
          ret (e, list_to_map [("status", AString "awaiting_approval"); ("approval_id", AString key);
                    ("required_approvers", names); ("strategy", AString (approval_strategy step));
                    ("due_by", ATime due); ("requested_at", ATime (now E))])
      end
  end.

Definition other_step_types : list string :=
  ["task"; "parallel"; "conditional"; "sequential"; "script"; "webhook"; "branching"; "compensation"].

(** The [switch] on [step.Type]: the execution as the step leaves it, and its outcome. *)
Definition dispatch e (step : Step.t) : M (Execution.t * result error JSONMap) := λ s,
  if String.eqb (Step.Type_ step) "approval" then
    match executeApprovalStep e step s with
    | (s, Returns (e, output)) => (s, Returns (e, Ok output))
    | (s, Fails err) => (s, Returns (e, Err err))
    | (s, Panics) => (s, Panics)
    end
  else if existsb (String.eqb (Step.Type_ step)) other_step_types then
    match run_step E e step with
    | (e, Returns output) => (s, Returns (e, Ok output))
    | (e, Fails err) => (s, Returns (e, Err err))
    | (_, Panics) => (s, Panics)
    end
  else (s, Returns (e, Err (Errorf (Text ("unsupported step type: " +:+ Step.Type_ step))))).

(** ** Completion *)

Definition unfinished (x : StepStatus.t) : bool :=
  String.eqb (StepStatus.Status x) StepStatusPending || String.eqb (StepStatus.Status x) StepStatusRunning.
Definition has_failed (x : StepStatus.t) : bool := String.eqb (StepStatus.Status x) StepStatusFailed.

(** The loop stops at the first unfinished step, so its order does not matter. *)
Definition statuses e : list StepStatus.t := (map_to_list (Execution.StepStatuses e)).*2.

Definition completed e : Execution.t :=
  Execution.set_CompletedAt (Some (now E))
    (Execution.set_Status
       (if existsb has_failed (statuses e) then WorkflowStatusFailed else WorkflowStatusCompleted) e).

Definition checkWorkflowCompletion e : M Execution.t :=
  if existsb unfinished (statuses e) then ret e
  else
    ignore (repo_do (repo_UpdateExecution db (completed e))) ≫= λ _,
    ignore (lift (publish E "WorkflowExecutionCompleted")) ≫= λ _,
    ret (completed e).

(** ** [ExecuteWorkflowStep] *)

Definition start_step (x : StepStatus.t) : StepStatus.t :=
  StepStatus.set_RetryCount (i64 (StepStatus.RetryCount x + 1))
    (StepStatus.set_StartedAt (Some (now E)) (StepStatus.set_Status StepStatusRunning x)).

Definition finish_step (r : result error JSONMap) (x : StepStatus.t) : StepStatus.t :=
  StepStatus.set_CompletedAt (Some (now E))
    (match r with
     | Ok output => StepStatus.set_Output output (StepStatus.set_Status StepStatusCompleted x)
     | Err err => StepStatus.set_Error (error_text E err) (StepStatus.set_Status StepStatusFailed x)
     end).

Definition outcome_status (r : result error JSONMap) : string :=
  match r with Ok _ => StepStatusCompleted | Err _ => StepStatusFailed end.
Definition outcome_output (r : result error JSONMap) : JSONMap :=
  match r with Ok output => output | Err _ => ∅ end.

(** The goroutine of an approval step that returned, with the execution as it is at the end. *)
Definition watch_approval (step : Step.t) (r : result error JSONMap) e : M unit :=
  if String.eqb (Step.Type_ step) "approval" && is_ok r
  then spawn (JApproval e (Step.ID step) (approval_key (Execution.ID e) (Step.ID step)))
  else ret ().

(** From the end of the step on. *)
Definition record_step (executionID : UUID) (step : Step.t) (r : result error JSONMap) e : M unit := λ s,
  let e := Execution.update_step (finish_step r) (Step.ID step) e in
  match repo_do (repo_UpdateStepStatus db executionID (Step.ID step) (outcome_status r) (outcome_output r)) s with
  | (s, Fails err) => (watch_approval step r e ≫= λ _, throw err) s
  | (s, Panics) => (s, Panics)
  | (s, Returns _) =>
      (checkWorkflowCompletion e ≫= λ e,
       watch_approval step r e ≫= λ _,
       match r with Ok _ => ret () | Err err => throw err end) s
  end.

Definition ExecuteWorkflowStep (executionID : UUID) (stepID : string) : M unit :=
  getExecutionWithLock executionID ≫= λ e,
  getWorkflow (Execution.WorkflowID e) ≫= λ w,
  match GetByID (Workflow.GetSteps w) stepID with
  | None => throw (StepNotFoundError Nil stepID)
  | Some step =>
      lift (checkStepDependencies e step) ≫= λ _,
      match Execution.StepStatuses e !! stepID with
      | None => panic
      | Some _ =>
          let e := Execution.update_step start_step stepID e in
          repo_do (repo_UpdateStepStatus db executionID stepID StepStatusRunning ∅) ≫= λ _,
          dispatch e step ≫= λ er,
          record_step executionID step er.2 er.1
      end
  end.

(** The goroutine of [startExecution]: errors are logged. *)
Definition run_start e (steps : list Step.t) : M unit :=
  for_each_ (λ step, ignore (ExecuteWorkflowStep (Execution.ID e) (Step.ID step))) steps ≫= λ _,
  deactivate (Execution.ID e).

(** [continueWorkflowExecution] starts a goroutine for each step that the completed step was
    the last obstacle of. *)
Definition continueWorkflowExecution e (completedStepID : string) : M unit :=
  wrapping "failed to get workflow" (getWorkflow (Execution.WorkflowID e)) ≫= λ w,
  for_each_ (λ step, spawn (JStep (Execution.ID e) (Step.ID step)))
    (filter (λ step, bool_decide (completedStepID ∈ Step.Dependencies step) &&
                     is_returns (checkStepDependencies e step) = true) (Workflow.GetSteps w)).
End ops.
End service.

(** ** Laws *)

Section laws.
Context {R C : Type} {repository : WorkflowRepository R} {caching : CacheOps cached C} {uuids : UUIDText}.
Implicit Types s : state R C.

Lemma with_transaction_run (m : M (state R C) unit) s : with_transaction m s = m s.
Proof. apply with_transaction_alone; unfold fair; by vm_compute. Qed.

(** What reading does: the caches may change, nothing else does. *)
Definition same_but_caches s s' : Prop :=
  repo s' = repo s /\ activeExecutions s' = activeExecutions s /\ jobs s' = jobs s.

Lemma getWorkflow_reads E id s : same_but_caches s (getWorkflow E id s).1.
Proof. unfold getWorkflow. destruct (cache_Get _ _ _); [|destruct (repo_Get _ _ _)]; by split_and!. Qed.

Lemma getExecution_reads E id s : same_but_caches s (getExecution E id s).1.
Proof.
  unfold getExecution. destruct (cache_Get _ _ _); [|destruct (repo_GetExecution _ _ _)]; by split_and!.
Qed.

Lemma existing_execution_reads E key s : (existing_execution E key s).1 = s.
Proof.
  unfold existing_execution, checkExecutionIdempotency. destruct (String.eqb key ""); [done|].
  destruct (cache_Get _ _ _) as [v|]; [|done]. by destruct (_ =? _)%N.
Qed.
End laws.

Section more_laws.
Context {R C : Type} {repository : WorkflowRepository R} {caching : CacheOps cached C} {uuids : UUIDText}.
Implicit Types s : state R C.

Lemma initial_statuses_lookup (steps : list Step.t) id :
  initial_statuses steps !! id =
    if decide (id ∈ Step.ID <$> steps) then Some (StepStatus.pending id) else None.
Proof.
  unfold initial_statuses. case_decide as Hin.
  - destruct (index_by _ steps !! id) as [x|] eqn:Hl.
    + apply (index_lookup (λ x, StepStatus.pending (Step.ID x))) in Hl as (step & _ & <- & <-). done.
    + exfalso. revert Hl Hin. clear. unfold index_by.
      induction steps as [|x steps IH] using rev_ind; intros Hl Hin; [by apply elem_of_nil in Hin|].
      rewrite foldl_app in Hl. simpl in Hl. apply lookup_insert_None in Hl as [Hl Hne].
      rewrite fmap_app, elem_of_app in Hin. destruct Hin as [Hin|Hin]; [by apply IH|].
      apply list_elem_of_singleton in Hin. congruence.
  - destruct (index_by _ steps !! id) as [x|] eqn:Hl; [|done].
    apply (index_lookup (λ x, StepStatus.pending (Step.ID x))) in Hl as (step & Hs & <- & _).
    exfalso. by apply Hin, list_elem_of_fmap_2.
Qed.

Lemma checkStepDependencies_returns e step :
  checkStepDependencies e step = Returns () <->
  forall dep, dep ∈ Step.Dependencies step ->
    exists x, Execution.StepStatuses e !! dep = Some x /\ StepStatus.Status x = StepStatusCompleted.
Proof.
  unfold checkStepDependencies. rewrite for_each_returns, Forall_forall.
  split; intros Hd dep Hin; specialize (Hd dep Hin); revert Hd; unfold check_dependency.
  - destruct (Execution.StepStatuses e !! dep) as [x|]; [|done].
    destruct (String.eqb_spec (StepStatus.Status x) StepStatusCompleted); [|done]. intros _. by exists x.
  - intros (x & -> & ->). by rewrite String.eqb_refl.
Qed.

Lemma repo_run_returns {A} (f : R -> result error (A * R)) a s s' :
  repo_run f s = (s', Returns a) <-> exists r, f (repo s) = Ok (a, r) /\ s' = set_repo r s.
Proof.
  unfold repo_run. destruct (f (repo s)) as [[b r]|e]; split.
  - intros [= <- <-]. by exists r.
  - intros (r' & [= -> ->] & ->). done.
  - done.
  - by intros (? & ? & _).
Qed.

Lemma repo_do_returns (f : R -> result error R) s s' u :
  repo_do f s = (s', Returns u) <-> exists r, f (repo s) = Ok r /\ s' = set_repo r s.
Proof.
  destruct u. unfold repo_do. destruct (f (repo s)) as [r|e]; split.
  - intros [= <-]. by exists r.
  - intros (r' & [= ->] & ->). done.
  - done.
  - by intros (? & ? & _).
Qed.

Lemma of_result_returns {A} (r : result error A) a s s' :
  of_result r s = (s', Returns a) <-> s' = s /\ r = Ok a.
Proof. destruct r; split; try done; [by intros [= <- <-]|by intros [-> [= ->]]|by intros [_ ?]]. Qed.

Lemma ignore_returns {A} (m : M (state R C) A) s s' u :
  ignore m s = (s', Returns u) -> (m s).1 = s'.
Proof. unfold ignore. by destruct (m s) as [s1 [a|e|]]; intros [=]. Qed.

(** The caches after the transaction: the idempotency key may have been stored. *)
Lemma execution_transaction_returns E w e key s s' e' :
  execution_transaction E w e key s = (s', Returns e') ->
  exists r1 r2, repo_CreateExecution (db E) e (repo s) = Ok (e', r1) /\
    repo_Update (db E) (Workflow.SetLastExecutedAt (Execution.StartedAt e') w) r1 = Ok r2 /\
    s' = MkState (workflowCache s) (executionCache s') r2 (activeExecutions s) (jobs s).
Proof.
  unfold execution_transaction. destruct (begin_ok E) as [[]|err]; [|done]. cbn [of_result ret].
  destruct ((wrapping _ _ ≫= _) s) as [s1 [e1|err|]] eqn:Hrun; intros [= -> ->].
  autorewrite with returns in Hrun. destruct Hrun as (e2 & s2 & Hc & Hrun).
  rewrite wrapping_returns, repo_run_returns in Hc. destruct Hc as (r1 & Hc & ->).
  rewrite bind_returns in Hrun. destruct Hrun as ([] & s3 & Hk & Hrun).
  rewrite bind_returns in Hrun. destruct Hrun as ([] & s4 & Hu & Hrun).
  rewrite repo_do_returns in Hu. destruct Hu as (r2 & Hu & ->).
  rewrite bind_returns in Hrun. destruct Hrun as ([] & s5 & Hok & Hrun).
  rewrite wrapping_returns, of_result_returns in Hok. destruct Hok as [-> _].
  rewrite bind_returns in Hrun. destruct Hrun as ([] & s6 & Hp & Hrun).
  apply ignore_returns in Hp. apply ret_returns in Hrun as [-> ->]. simpl in Hp. subst s6.
  assert (repo s3 = r1 /\ s3 = MkState (workflowCache s) (executionCache s3) r1 (activeExecutions s) (jobs s))
    as [Hr3 H3].
  { destruct (String.eqb key ""); [apply ret_returns in Hk as [-> _]; by destruct s|].
    injection Hk as <-. done. }
  rewrite Hr3 in Hu. exists r1, r2. split_and!; [done|done|]. rewrite H3. done.
Qed.
End more_laws.

(** ** Results *)

Section results.
Context {R C : Type} {repository : WorkflowRepository R} {caching : CacheOps cached C} {uuids : UUIDText}.
Implicit Types s : state R C.

(** What a new execution of a workflow looks like: pending, with exactly the steps of the
    workflow, all of them pending. *)
Definition fresh_execution (E : env) (w : Workflow.t) (workflowID : UUID) (input : JSONMap)
    (e : Execution.t) : Prop :=
  Execution.ID e = new_id E /\ Execution.WorkflowID e = workflowID /\
  Execution.TenantID e = Workflow.TenantID w /\ Execution.Status e = WorkflowStatusPending /\
  Execution.InitiatedBy e = agentID E /\ Execution.StartedAt e = now E /\
  Execution.GetInput e = Some input /\
  forall id, Execution.StepStatuses e !! id =
    if decide (id ∈ Step.ID <$> Workflow.Steps w) then Some (StepStatus.pending id) else None.


(** C3 A step runs only when the steps that it depends on are complete: a call of
    [ExecuteWorkflowStep] that writes anything but the caches, starts a goroutine, or succeeds
    has read an execution in which every dependency of the step is marked completed. *)
Theorem step_waits_for_dependencies E executionID stepID s :
  let '(s', r) := ExecuteWorkflowStep E executionID stepID s in
  (same_but_caches s s' /\ r ≠ Returns ()) \/
  exists e s1 w s2 step,
    getExecution E executionID s = (s1, Returns e) /\
    getWorkflow E (Execution.WorkflowID e) s1 = (s2, Returns w) /\
    step ∈ Workflow.Steps w /\ Step.ID step = stepID /\
    forall dep, dep ∈ Step.Dependencies step ->
      exists x, Execution.StepStatuses e !! dep = Some x /\ StepStatus.Status x = StepStatusCompleted.
Proof.
  destruct (ExecuteWorkflowStep E executionID stepID s) as [s' r] eqn:Hrun.
  unfold ExecuteWorkflowStep, getExecutionWithLock in Hrun.
  pose proof (getExecution_reads E executionID s) as He.
  apply bind_inv in Hrun as [(e & s1 & He1 & Hrun)|[(err & He1 & ->)|[He1 ->]]];
    rewrite He1 in He; [|by left|by left]. simpl in He.
  pose proof (getWorkflow_reads E (Execution.WorkflowID e) s1) as Hw.
  assert (forall s2, same_but_caches s1 s2 -> same_but_caches s s2) as Htrans
    by (unfold same_but_caches in *; intros s2; intuition congruence).
  apply bind_inv in Hrun as [(w & s2 & Hw1 & Hrun)|[(err & Hw1 & ->)|[Hw1 ->]]];
    rewrite Hw1 in Hw; [|by left; split; [apply Htrans|]..]. simpl in Hw.
  destruct (GetByID (Workflow.GetSteps w) stepID) as [step|] eqn:Hg.
  2:{ injection Hrun as <- <-. left. split; [by apply Htrans|done]. }
  apply get_by_id_some in Hg as [Hin Hid].
  apply bind_inv in Hrun as [([] & s3 & Hd & Hrun)|[(err & Hd & ->)|[Hd ->]]].
  - right. apply lift_returns in Hd as [-> Hd]. exists e, s1, w, s2, step. split_and!; try done.
    by apply checkStepDependencies_returns.
  - left. injection Hd as <- _. split; [by apply Htrans|done].
  - left. injection Hd as <- _. split; [by apply Htrans|done].
Qed.

(** The completion check: as long as a step is pending or running nothing happens;
    otherwise the execution is stored as finished, and it has failed exactly if a step has. *)
Theorem completion_check E e s s' e' :
  checkWorkflowCompletion E e s = (s', Returns e') ->
  ((exists id x, Execution.StepStatuses e !! id = Some x /\
      (StepStatus.Status x = StepStatusPending \/ StepStatus.Status x = StepStatusRunning)) /\
   s' = s /\ e' = e) \/
  ((forall id x, Execution.StepStatuses e !! id = Some x ->
      StepStatus.Status x ≠ StepStatusPending /\ StepStatus.Status x ≠ StepStatusRunning) /\
   Execution.CompletedAt e' = Some (now E) /\ Execution.StepStatuses e' = Execution.StepStatuses e /\
   (Execution.Status e' = WorkflowStatusFailed /\
      (exists id x, Execution.StepStatuses e !! id = Some x /\ StepStatus.Status x = StepStatusFailed) \/
    Execution.Status e' = WorkflowStatusCompleted /\
      (forall id x, Execution.StepStatuses e !! id = Some x -> StepStatus.Status x ≠ StepStatusFailed)) /\
   repo s' = match repo_UpdateExecution (db E) e' (repo s) with Ok r => r | Err _ => repo s end).
Proof.
  assert (forall p, existsb p (statuses e) = true <->
            exists id x, Execution.StepStatuses e !! id = Some x /\ p x = true) as Hex.
  { intros p. rewrite existsb_exists. unfold statuses. split.
    - intros (x & Hx & Hp). apply list_elem_of_In, list_elem_of_fmap in Hx as ([id y] & -> & Hy).
      apply elem_of_map_to_list in Hy. by exists id, y.
    - intros (id & x & Hx & Hp). exists x. split; [|done]. apply list_elem_of_In, list_elem_of_fmap.
      exists (id, x). split; [done|]. by apply elem_of_map_to_list. }
  unfold checkWorkflowCompletion. destruct (existsb unfinished (statuses e)) eqn:Hu.
  { intros [= <- <-]. left. split; [|done]. apply Hex in Hu as (id & x & Hx & Hp).
    exists id, x. split; [done|]. unfold unfinished in Hp.
    by apply orb_true_iff in Hp as [?%String.eqb_eq|?%String.eqb_eq]; auto. }
  rewrite bind_returns. setoid_rewrite bind_returns.
  intros ([] & s1 & H1 & [] & s2 & H2 & H3). apply ignore_returns in H1, H2.
  apply ret_returns in H3 as [-> ->]. simpl in H2. subst s2. right. split_and!; try done.
  - intros id x Hx. apply not_true_iff_false in Hu. rewrite Hex in Hu.
    split; intros Hs; apply Hu; exists id, x; split; try done; unfold unfinished; rewrite Hs; done.
  - cbn. destruct (existsb has_failed (statuses e)) eqn:Hf.
    + left. split; [done|]. apply Hex in Hf as (id & x & Hx & Hp%String.eqb_eq). by exists id, x.
    + right. split; [done|]. intros id x Hx Hs. apply not_true_iff_false in Hf. apply Hf, Hex.
      exists id, x. split; [done|]. unfold has_failed. by rewrite Hs.
  - rewrite <-H1. unfold repo_do. by destruct (repo_UpdateExecution _ _ _).
Qed.

(** An approval step does not wait for its approval.  It marks itself as awaiting and
    returns; [ExecuteWorkflowStep] then marks every step that returned as completed, in the
    execution and in the repository, before anyone has decided. *)
Theorem approval_not_awaited E e step x s :
  Step.Type_ step = "approval" -> approvers step ≠ [] -> is_Some (Execution.Workflow_ e) ->
  Execution.StepStatuses e !! Step.ID step = Some x ->
  exists s' e' output,
    dispatch E e step s = (s', Returns (e', Ok output)) /\
    output !! "status" = Some (AString "awaiting_approval") /\
    (exists y, Execution.StepStatuses e' !! Step.ID step = Some y /\
       StepStatus.Status y = StepStatusAwaitingApproval) /\
    outcome_status (Ok output) = StepStatusCompleted /\
    exists z, Execution.StepStatuses (Execution.update_step (finish_step E (Ok output)) (Step.ID step) e')
        !! Step.ID step = Some z /\
      StepStatus.Status z = StepStatusCompleted /\ StepStatus.Output z = output.
Proof.
  intros Hty Ha [w Hw] Hx. unfold dispatch. rewrite Hty. cbn [String.eqb Ascii.eqb Bool.eqb].
  unfold executeApprovalStep. destruct (approvers step) as [|a l]; [done|]. rewrite Hw.
  do 3 eexists. split; [cbn; reflexivity|]. split_and!; [done| |done|]; cbn.
  - rewrite lookup_alter_eq, Hx. simpl. by eexists.
  - rewrite lookup_alter_eq, lookup_alter_eq, Hx. simpl. by eexists.
Qed.
End results.

(** ** Examples: a repository of two maps *)

Definition shelf : Type := gmap UUID Workflow.t * gmap UUID Execution.t.

Definition found {A} (m : gmap UUID A) (id : UUID) : result error A :=
  match m !! id with Some a => Ok a | None => Err ErrNotFound end.

Definition shelf_repository : WorkflowRepository shelf := {|
  repo_Get _ id r := found r.1 id;
  repo_Create _ w r := Ok (w, (<[Workflow.ID w := w]> r.1, r.2));
  repo_Update _ w r := Ok (<[Workflow.ID w := w]> r.1, r.2);
  repo_Delete _ id r := Ok (delete id r.1, r.2);
  repo_GetExecution _ id r := found r.2 id;
  repo_CreateExecution _ e r := Ok (e, (r.1, <[Execution.ID e := e]> r.2));
  repo_UpdateExecution _ e r := Ok (r.1, <[Execution.ID e := e]> r.2);
  repo_UpdateStepStatus _ _ _ _ _ r := Ok r;
  repo_Rollback before _ := before;
|}.

(** A call at [t] whose collaborators all agree. *)
Definition calm (t : Z) (id : UUID) : env :=
  MkEnv t 1%N "agent" id (λ _ _, None) (λ _, Returns ()) None (Ok ()) (Ok ())
    (λ _, Returns ()) (λ _, Returns ()) (λ _, "error") (λ _ _, Ok true)
    (λ m, map_to_list m) (λ e _, (e, Returns ∅)).

Definition sample_step (id type_ : string) (deps : list string) (config : JSONMap) : Step.t :=
  Step.Mk id id "" type_ "" "" ∅ config 0 0 0 (RetryPolicy.Mk 0 "" 0 0) false deps "".

Definition approval_config : JSONMap := <["approvers" := AList [AString "alice"]]> ∅.

Definition two_steps : Workflow.t :=
  Workflow.Mk 3%N 1%N "release" "sequential" 1 "agent" ∅
    [sample_step "build" "task" [] ∅; sample_step "sign" "approval" ["build"] approval_config]
    ∅ "" [] true 0 0 None.

Definition empty_state {R} (r : R) : state R (Memory.MemoryCache cached) :=
  MkState (Memory.NewMemoryCache 1000 (10 * minute)) (Memory.NewMemoryCache 5000 (5 * minute)) r ∅ [].

Definition on_shelf : state shelf (Memory.MemoryCache cached) :=
  empty_state (<[3%N := two_steps]> ∅, ∅).

Definition executed (input : JSONMap) : state shelf (Memory.MemoryCache cached) * res Execution.t :=
  ExecuteWorkflow (repository := shelf_repository) (uuids := decimal_uuids)
    (calm 10 8%N) 3%N input "" on_shelf.


(** The execution of [two_steps] when both steps are done, one of them badly. *)
Definition with_statuses (a b : string) : Execution.t :=
  Execution.set_StepStatuses
    (<["build" := StepStatus.set_Status a (StepStatus.pending "build")]>
      (<["sign" := StepStatus.set_Status b (StepStatus.pending "sign")]> ∅))
    (Execution.set_ID 8%N Execution.zero).

Lemma completion_check_witness :
  exists s' e', checkWorkflowCompletion (repository := shelf_repository) (calm 10 8%N)
      (with_statuses "completed" "failed") on_shelf = (s', Returns e') /\
    Execution.Status e' = WorkflowStatusFailed.
Proof.
  do 2 eexists. split; [vm_compute; reflexivity|].
  destruct (completion_check (repository := shelf_repository) (calm 10 8%N)
              (with_statuses "completed" "failed") on_shelf _ _ ltac:(vm_compute; reflexivity))
    as [((id & x & Hx & Hs) & _)|(_ & _ & _ & [[H _]|[H Hall]] & _)].
  - exfalso. revert Hx. unfold with_statuses. cbn. rewrite !lookup_insert_Some, lookup_empty.
    intros [[_ <-]|[_ [[_ <-]|[_ ?]]]]; destruct Hs; discriminate.
  - exact H.
  - discriminate H.
Defined.

(** A step that still waits for its approval counts as done. *)
Example awaiting_counts_as_done :
  exists s' e', checkWorkflowCompletion (repository := shelf_repository) (calm 10 8%N)
      (with_statuses "completed" "awaiting_approval") on_shelf = (s', Returns e') /\
    Execution.Status e' = WorkflowStatusCompleted.
Proof. do 2 eexists. by vm_compute. Qed.

Definition approving : Execution.t :=
  Execution.Mk 8%N 3%N 1%N "running" ∅ ∅ "agent" "" 0 None 0 (Some two_steps)
    (initial_statuses (Workflow.Steps two_steps)) "".

Lemma approval_not_awaited_witness :
  exists s' e' output,
    dispatch (R := shelf) (C := Memory.MemoryCache cached) (uuids := decimal_uuids) (calm 10 8%N)
      approving (sample_step "sign" "approval" ["build"] approval_config) on_shelf
      = (s', Returns (e', Ok output)) /\
    output !! "status" = Some (AString "awaiting_approval").
Proof.
  destruct (approval_not_awaited (R := shelf) (C := Memory.MemoryCache cached)
              (uuids := decimal_uuids) (calm 10 8%N) approving
              (sample_step "sign" "approval" ["build"] approval_config) (StepStatus.pending "sign")
              on_shelf eq_refl ltac:(discriminate) ltac:(by eexists) ltac:(vm_compute; reflexivity))
    as (s' & e' & output & Hd & Ho & _).
  exists s', e', output. by split.
Defined.
