(* ===== verification/ExecutionControl.v ===== *)
(** * ExecutionControl: controlling executions and their steps

    The rest of the execution methods of [pkg/services/workflow_service_impl.go]: pausing,
    resuming, cancelling, retrying, approving, and moving the steps of an execution by hand
    ([StartWorkflow], [CompleteStep], [FailStep], [RetryStep]), with the goroutines that they
    start.  The methods read an execution, change their copy and write it back. *)

From stdpp Require Import base decidable gmap strings list.
From Stdlib Require Import ZArith Lia.
From S2P Require Import Prelude GoFloat GoStrings GoAny ServiceErrors ServiceInterfaces.
From S2P Require Import ServiceMonad Storage MemCache Transaction WorkflowModels WorkflowGraph.
From S2P Require Import WorkflowService.

Local Open Scope string_scope.
Local Open Scope Z_scope.

(** [models.ApprovalDecision]. *)
Record ApprovalDecision := MkApproval {
  Approved : bool;
  ApprovedBy : string;
  Comments : string;
}.

(** [models.StepExecution]. *)
Record StepExecution := MkStepExecution {
  se_ExecutionID : UUID;
  se_StepName : string;
  se_StartedAt : Z;
  se_CompletedAt : option Z;
  se_Status : string;
  se_Result : JSONMap;
  se_Error : option string;
  se_RetryCount : Z;
}.

(** [models.ExecutionStatus], with the entries of its [Metrics]. *)
Record ExecutionStatus := MkExecutionStatus {
  es_ExecutionID : UUID;
  es_WorkflowID : UUID;
  es_Status : string;
  es_Progress : Z;
  es_CurrentSteps : list string;
  es_CompletedSteps : Z;
  es_TotalSteps : Z;
  es_StartedAt : Z;
  es_UpdatedAt : Z;
  failed_steps : Z;
  running_steps : Z;
  duration_ms : Z;
  es_error : string;
}.

Section control.
Context {R C : Type} {repository : WorkflowRepository R} {caching : CacheOps cached C} {uuids : UUIDText}.
Notation M := (ServiceMonad.M (state R C)).
Context (E : env).
Implicit Types e : Execution.t.

Definition update_execution e : M unit :=
  wrapping "failed to update execution" (repo_do (repo_UpdateExecution (db E) e)).

Definition cannot (what : string) e : error :=
  ValidationError "status" (Text ("cannot " +:+ what +:+ " execution in status " +:+ Execution.Status e)).

Definition set_context (l : list (string * any)) e : Execution.t :=
  Execution.set_Context (foldl (λ m kv, <[kv.1 := kv.2]> m) (Execution.Context e) l) e.

Definition execution_permission (executionID : UUID) e : list (string * any) :=
  [("execution_id", AUuid executionID); ("workflow_id", AUuid (Execution.WorkflowID e))].

(** The common beginning: rate limit, read, authorize. *)
Definition load (limit action what : string) (executionID : UUID) : M Execution.t :=
  lift (rate E limit) ≫= λ _,
  getExecution E executionID ≫= λ e,
  authorize_ E "workflow_execution" action what (execution_permission executionID e) ≫= λ _,
  ret e.

(** ** [GetExecutionStatus] *)

Definition count_status (st : string) e : Z :=
  Z.of_nat (List.length (filter (λ x, StepStatus.Status x = st) (statuses e))).

Definition progress (completedSteps totalSteps : Z) : Z :=
  if totalSteps =? 0 then 0
  else f64_to_int (f64_mul (f64_div (f64_of_Z completedSteps) (f64_of_Z totalSteps)) (f64_of_Z 100)).

Definition GetExecutionStatus (executionID : UUID) : M ExecutionStatus :=
  load "execution:status" "read" "get execution status" executionID ≫= λ e,
  let total := Z.of_nat (size (Execution.StepStatuses e)) in
  let done_ := count_status StepStatusCompleted e in
  ret (MkExecutionStatus executionID (Execution.WorkflowID e) (Execution.Status e)
         (progress done_ total) [Execution.CurrentStepID e] done_ total
         (Execution.StartedAt e) (Execution.UpdatedAt e)
         (count_status StepStatusFailed e) (count_status StepStatusRunning e)
         (Z.quot (Execution.Duration (now E) e) millisecond) (Execution.Error e)).

(** ** [UpdateExecution] *)

Definition UpdateExecution e : M Execution.t :=
  if (Execution.ID e =? Nil)%N then throw (ValidationError "execution.id" (Text "required"))
  else
    wrapping "failed to get existing execution" (getExecution E (Execution.ID e)) ≫= λ existing,
    authorize_ E "workflow_execution" "update" "update workflow execution"
      [("execution_id", AUuid (Execution.ID e)); ("workflow_id", AUuid (Execution.WorkflowID existing));
       ("tenant_id", AUuid (Execution.TenantID existing))] ≫= λ _,
    let e := Execution.set_UpdatedAt (now E) e in
    with_transaction
      (update_execution e ≫= λ _, lift (publish E "WorkflowExecutionUpdated")) ≫= λ _,
    forget_execution E (Execution.ID e) ≫= λ _,
    ret e.

(** ** Pause, resume, cancel *)

Definition paused (reason : string) e : Execution.t :=
  set_context [("pause_reason", AString reason); ("paused_at", ATime (now E))]
    (Execution.set_UpdatedAt (now E) (Execution.set_Status WorkflowStatusPaused e)).

Definition PauseExecution (executionID : UUID) (reason : string) : M unit :=
  load "execution:pause" "pause" "pause execution" executionID ≫= λ e,
  guard_ (String.eqb (Execution.Status e) WorkflowStatusRunning) (cannot "pause" e) ≫= λ _,
  update_execution (paused reason e) ≫= λ _,
  deactivate executionID ≫= λ _,
  forget_execution E executionID ≫= λ _,
  ignore (lift (publish E "ExecutionPaused")).

Definition resumed e : Execution.t :=
  let e := set_context [("resumed_at", ATime (now E))]
             (Execution.set_UpdatedAt (now E) (Execution.set_Status WorkflowStatusRunning e)) in
  Execution.set_Context (delete "pause_reason" (Execution.Context e)) e.

Definition ResumeExecution (executionID : UUID) : M unit :=
  load "execution:resume" "resume" "resume execution" executionID ≫= λ e,
  guard_ (String.eqb (Execution.Status e) WorkflowStatusPaused) (cannot "resume" e) ≫= λ _,
  update_execution (resumed e) ≫= λ _,
  activate executionID ≫= λ _,
  spawn (JResume (resumed e)) ≫= λ _,
  forget_execution E executionID ≫= λ _,
  ignore (lift (publish E "ExecutionResumed")).

(** The goroutine of [ResumeExecution]: the current step, or every pending step whose
    dependencies are complete. *)
Definition run_resume e : M unit := λ s,
  let executionID := Execution.ID e in
  let attempt step := ignore (ExecuteWorkflowStep E executionID step) in
  match getWorkflow E (Execution.WorkflowID e) s with
  | (s, Panics) => (s, Panics)
  | (s, Fails _) => deactivate executionID s
  | (s, Returns w) =>
      ((if String.eqb (Execution.CurrentStepID e) "" then
          for_each_ (λ step,
            match Execution.StepStatuses e !! Step.ID step with
            | Some x =>
                if String.eqb (StepStatus.Status x) StepStatusPending &&
                   is_returns (checkStepDependencies e step)
                then attempt (Step.ID step) else ret ()
            | None => ret ()
            end) (Workflow.GetSteps w)
        else attempt (Execution.CurrentStepID e)) ≫= λ _,
       deactivate executionID) s
  end.

Definition cancel_step (reason : string) (x : StepStatus.t) : StepStatus.t :=
  if unfinished x
  then StepStatus.set_Error ("Execution cancelled: " +:+ reason)
         (StepStatus.set_CompletedAt (Some (now E)) (StepStatus.set_Status StepStatusCancelled x))
  else x.

Definition cancelled (reason : string) e : Execution.t :=
  let e := set_context [("cancel_reason", AString reason); ("cancelled_by", AString (agentID E))]
    (Execution.set_UpdatedAt (now E) (Execution.set_CompletedAt (Some (now E))
       (Execution.set_Status WorkflowStatusCancelled e))) in
  Execution.set_StepStatuses (cancel_step reason <$> Execution.StepStatuses e) e.

Definition uncancellable (st : string) : bool :=
  existsb (String.eqb st) [WorkflowStatusCompleted; WorkflowStatusFailed; WorkflowStatusCancelled].

Definition CancelExecution (executionID : UUID) (reason : string) : M unit :=
  load "execution:cancel" "cancel" "cancel execution" executionID ≫= λ e,
  guard_ (negb (uncancellable (Execution.Status e))) (cannot "cancel" e) ≫= λ _,
  with_transaction
    (update_execution (cancelled reason e) ≫= λ _,
     ignore (getWorkflow E (Execution.WorkflowID e))) ≫= λ _,
  deactivate executionID ≫= λ _,
  forget_execution E executionID ≫= λ _,
  ignore (lift (publish E "ExecutionCancelled")).

(** ** Retry *)

Definition retry_step (x : StepStatus.t) : StepStatus.t :=
  StepStatus.set_RetryCount (i64 (StepStatus.RetryCount x + 1))
    (StepStatus.set_Output ∅ (StepStatus.set_Error ""
       (StepStatus.set_CompletedAt None (StepStatus.set_StartedAt None
          (StepStatus.set_Status StepStatusPending x))))).

(** The steps from [fromStep] on, in the order of the workflow; all for [""]. *)
Fixpoint from_step (found : bool) (fromStep : string) (steps : list Step.t) : list Step.t :=
  match steps with
  | [] => []
  | step :: rest =>
      let found := found || String.eqb (Step.ID step) fromStep in
      if found then step :: from_step found fromStep rest else from_step found fromStep rest
  end.

Definition reset_steps (steps : list Step.t) e : Execution.t :=
  foldl (λ e step, Execution.update_step retry_step (Step.ID step) e) e steps.

Definition retry_target (fromStep : string) (w : Workflow.t) e : string :=
  if negb (String.eqb fromStep "") then fromStep
  else match initial_steps w with step :: _ => Step.ID step | [] => Execution.CurrentStepID e end.

Definition retried (w : Workflow.t) (fromStep : string) (retryCount : Z) e : Execution.t :=
  let e := set_context [("retry_count", AInt (i64 (retryCount + 1))); ("retry_from_step", AString fromStep);
                        ("retried_at", ATime (now E)); ("retried_by", AString (agentID E))]
    (Execution.set_CompletedAt None
       (Execution.set_UpdatedAt (now E) (Execution.set_Status WorkflowStatusRunning e))) in
  let e := reset_steps (from_step (String.eqb fromStep "") fromStep (Workflow.GetSteps w)) e in
  Execution.set_CurrentStepID (retry_target fromStep w e) e.

Definition int_of (m : JSONMap) (key : string) (otherwise : Z) : Z :=
  default otherwise (as_int (field m key)).

Definition RetryExecution (executionID : UUID) (fromStep : string) : M unit :=
  load "execution:retry" "retry" "retry execution" executionID ≫= λ e,
  guard_ (String.eqb (Execution.Status e) WorkflowStatusFailed) (cannot "retry" e) ≫= λ _,
  guard_ (String.eqb fromStep "" || bool_decide (is_Some (Execution.StepStatuses e !! fromStep)))
    (ValidationError "fromStep" (Text ("step " +:+ fromStep +:+ " not found in execution"))) ≫= λ _,
  wrapping "failed to get workflow" (getWorkflow E (Execution.WorkflowID e)) ≫= λ w,
  let retryCount := int_of (Execution.Context e) "retry_count" 0 in
  let maxRetries := int_of (Workflow.Config w) "max_retries" 3 in
  guard_ (retryCount <? maxRetries)
    (ValidationError "retry_count" (Sprintf "execution has been retried %d times, max is %d"
       [AInt retryCount; AInt maxRetries])) ≫= λ _,
  let e := retried w fromStep retryCount e in
  with_transaction (update_execution e) ≫= λ _,
  activate executionID ≫= λ _,
  spawn (JRetry e) ≫= λ _,
  forget_execution E executionID ≫= λ _,
  ignore (lift (publish E "ExecutionRetried")).

Definition run_retry e : M unit :=
  (if String.eqb (Execution.CurrentStepID e) "" then ret ()
   else ignore (ExecuteWorkflowStep E (Execution.ID e) (Execution.CurrentStepID e))) ≫= λ _,
  deactivate (Execution.ID e).

(** ** Approvals *)

Definition decision_of (a : ApprovalDecision) : string :=
  if Approved a then "approved"
  else if negb (String.eqb (Comments a) "") && Contains (ToLower (Comments a)) "escalate"
  then "escalated" else "rejected".

Definition rejection (a : ApprovalDecision) : string :=
  "Approval rejected by " +:+ ApprovedBy a +:+ ": " +:+ Comments a.

Definition add_output (key : string) (v : any) (x : StepStatus.t) : StepStatus.t :=
  StepStatus.set_Output (<[key := v]> (StepStatus.Output x)) x.

Definition AApproval : any := AOther "*models.ApprovalDecision" 0.

(** The effect of a decision on the execution; an approval also starts the next steps. *)
Definition decide_step (a : ApprovalDecision) (step : Step.t) e : M Execution.t :=
  let e := Execution.update_step (add_output "approval" AApproval) (Step.ID step) e in
  if String.eqb (decision_of a) "approved" then
    let e := Execution.update_step (λ x, StepStatus.set_CompletedAt (Some (now E))
               (StepStatus.set_Status StepStatusCompleted x)) (Step.ID step) e in
    wrapping "failed to continue workflow" (continueWorkflowExecution E e (Step.ID step)) ≫= λ _,
    ret e
  else if String.eqb (decision_of a) "rejected" then
    let e := Execution.update_step (λ x, StepStatus.set_Error (rejection a)
               (StepStatus.set_CompletedAt (Some (now E))
                  (StepStatus.set_Status StepStatusFailed x))) (Step.ID step) e in
    ret (if String.eqb (Step.OnFailure step) "fail_workflow"
         then Execution.set_CompletedAt (Some (now E)) (Execution.set_Error (rejection a)
                (Execution.set_Status WorkflowStatusFailed e))
         else e)
  else
    match as_string (field (Step.Config step) "escalate_to") with
    | None => ret e
    | Some escalateTo =>
        wrapping "failed to notify escalation" (lift (broadcast E escalateTo)) ≫= λ _,
        ret (Execution.update_step (add_output "escalated_to" (AString escalateTo)) (Step.ID step) e)
    end.

Definition SubmitApproval (executionID : UUID) (stepID : string) (approval : option ApprovalDecision)
    : M unit :=
  lift (rate E "approval:submit") ≫= λ _,
  match approval with
  | None => throw (ValidationError "approval" (Text "required"))
  | Some a =>
      guard_ (negb (String.eqb (ApprovedBy a) "")) (ValidationError "approved_by" (Text "required")) ≫= λ _,
      getExecution E executionID ≫= λ e,
      authorize_ E "workflow_approval" "submit" "submit approval"
        [("execution_id", AUuid executionID); ("step_id", AString stepID);
         ("approver_id", AString (ApprovedBy a))] ≫= λ _,
      match Execution.StepStatuses e !! stepID with
      | None => throw (ValidationError "step_id" (Text ("step " +:+ stepID +:+ " not found in execution")))
      | Some stepStatus =>
          guard_ (String.eqb (StepStatus.Status stepStatus) StepStatusAwaitingApproval)
            (ValidationError "status" (Text ("step " +:+ stepID +:+
               " is not awaiting approval, current status: " +:+ StepStatus.Status stepStatus))) ≫= λ _,
          wrapping "failed to get workflow" (getWorkflow E (Execution.WorkflowID e)) ≫= λ w,
          match GetByID (Workflow.GetSteps w) stepID with
          | None => throw (ValidationError "step_id"
                      (Text ("step " +:+ stepID +:+ " not found in workflow definition")))
          | Some targetStep =>
              with_transaction
                (decide_step a targetStep e ≫= λ e,
                 update_execution (Execution.set_UpdatedAt (now E) e)) ≫= λ _,
              forget_execution E executionID ≫= λ _,
              ignore (lift (publish E "ApprovalSubmitted"))
          end
      end
  end.

(** The goroutine that waits for an approval to expire: [E]'s clock is the time it wakes up. *)
Definition run_approval e (stepID key : string) : M unit := λ s,
  match cache_Get (now E) key (executionCache s) with
  | Err _ => (s, Returns ())
  | Ok _ =>
      match Execution.StepStatuses e !! stepID with
      | None => (s, Returns ())
      | Some _ =>
          ignore (UpdateExecution (Execution.update_step (λ x,
            StepStatus.set_Error "approval timeout" (StepStatus.set_Status StepStatusTimeout x)) stepID e)) s
      end
  end.

(** ** Steps moved by hand *)

(** The fields that the caller may leave out. *)
Definition prepared e : Execution.t :=
  let e := if (Execution.ID e =? Nil)%N then Execution.set_ID (new_id E) e else e in
  let e := if String.eqb (Execution.Status e) "" then Execution.set_Status WorkflowStatusPending e else e in
  if Execution.StartedAt e =? zero_time then Execution.set_StartedAt (now E) e else e.

Definition CreateExecution e : M Execution.t :=
  if (Execution.WorkflowID e =? Nil)%N then throw (Errorf (Text "workflow ID is required"))
  else
    wrapping "failed to create execution" (repo_run (repo_CreateExecution (db E) (prepared e))) ≫= λ e,
    cache_execution E (uuid_string (Execution.ID e)) (CExecution e) (5 * minute) ≫= λ _,
    activate (Execution.ID e) ≫= λ _,
    ignore (lift (publish E "ExecutionCreated")) ≫= λ _,
    ret e.

Definition run_now (x : StepStatus.t) : StepStatus.t :=
  StepStatus.set_StartedAt (Some (now E)) (StepStatus.set_Status StepStatusRunning x).

(** [input] is nil for [None]. *)
Definition StartWorkflow (workflowID : UUID) (initiatorID : string) (input : option JSONMap)
    : M Execution.t :=
  wrapping "workflow not found" (getWorkflow E workflowID) ≫= λ w,
  let e := new_execution E (new_id E) workflowID (Workflow.TenantID w) initiatorID
             WorkflowStatusRunning (Workflow.GetSteps w) in
  let e := match input with Some input => Execution.SetInput input e | None => e end in
  CreateExecution e ≫= λ e,
  match Workflow.GetSteps w with
  | [] => ret e
  | firstStep :: _ =>
      UpdateExecution (Execution.update_step run_now (Step.ID firstStep)
                         (Execution.set_CurrentStepID (Step.ID firstStep) e))
  end.

Definition step_missing (stepID : string) (suffix : string) : error :=
  Errorf (Text ("step " +:+ stepID +:+ " not found" +:+ suffix)).
Definition step_not (stepID what : string) (x : StepStatus.t) : error :=
  Errorf (Text ("step " +:+ stepID +:+ " is not " +:+ what +:+ " (status: " +:+ StepStatus.Status x +:+ ")")).

(** The position of a step; 0 if it is not there. *)
Definition step_index (stepID : string) (steps : list Step.t) : nat :=
  match list_find (λ x, Step.ID x = stepID) steps with Some (i, _) => i | None => 0%nat end.

Definition complete_step (output : option JSONMap) (x : StepStatus.t) : StepStatus.t :=
  let x := StepStatus.set_CompletedAt (Some (now E)) (StepStatus.set_Status StepStatusCompleted x) in
  match output with Some o => StepStatus.set_Output o x | None => x end.

(** After a step comes the next of the list; after the last the execution is complete. *)
Definition advance (w : Workflow.t) (stepID : string) e : M Execution.t :=
  match Workflow.GetSteps w !! S (step_index stepID (Workflow.GetSteps w)) with
  | Some nextStep =>
      match Execution.StepStatuses e !! Step.ID nextStep with
      | None => panic
      | Some _ =>
          ret (Execution.update_step run_now (Step.ID nextStep)
                 (Execution.set_CurrentStepID (Step.ID nextStep) e))
      end
  | None =>
      ret (Execution.set_CurrentStepID "" (Execution.set_CompletedAt (Some (now E))
             (Execution.set_Status WorkflowStatusCompleted e)))
  end.

Definition CompleteStep (executionID : UUID) (stepID : string) (output : option JSONMap) : M unit :=
  getExecution E executionID ≫= λ e,
  match Execution.StepStatuses e !! stepID with
  | None => throw (step_missing stepID " in execution")
  | Some stepStatus =>
      guard_ (String.eqb (StepStatus.Status stepStatus) StepStatusRunning)
        (step_not stepID "running" stepStatus) ≫= λ _,
      let e := Execution.update_step (complete_step output) stepID e in
      getWorkflow E (Execution.WorkflowID e) ≫= λ w,
      advance w stepID e ≫= λ e,
      UpdateExecution e ≫= λ _,
      ret ()
  end.

Definition fail_step (reason : string) (details : option JSONMap) (x : StepStatus.t) : StepStatus.t :=
  let x := StepStatus.set_Error reason (StepStatus.set_CompletedAt (Some (now E))
             (StepStatus.set_Status StepStatusFailed x)) in
  match details with Some d => StepStatus.set_Output d x | None => x end.

Definition FailStep (executionID : UUID) (stepID reason : string) (details : option JSONMap) : M unit :=
  getExecution E executionID ≫= λ e,
  match Execution.StepStatuses e !! stepID with
  | None => throw (step_missing stepID "")
  | Some _ =>
      UpdateExecution
        (Execution.set_Error reason (Execution.set_CompletedAt (Some (now E))
           (Execution.set_Status WorkflowStatusFailed
              (Execution.update_step (fail_step reason details) stepID e)))) ≫= λ _,
      ret ()
  end.

Definition rerun_step (x : StepStatus.t) : StepStatus.t :=
  StepStatus.set_RetryCount (i64 (StepStatus.RetryCount x + 1))
    (StepStatus.set_Error "" (StepStatus.set_CompletedAt None (run_now x))).

Definition RetryStep (executionID : UUID) (stepID : string) : M unit :=
  getExecution E executionID ≫= λ e,
  match Execution.StepStatuses e !! stepID with
  | None => throw (step_missing stepID "")
  | Some stepStatus =>
      guard_ (String.eqb (StepStatus.Status stepStatus) StepStatusFailed)
        (step_not stepID "failed" stepStatus) ≫= λ _,
      let e := Execution.update_step rerun_step stepID e in
      let e := if String.eqb (Execution.Status e) WorkflowStatusFailed
               then Execution.set_Error "" (Execution.set_CompletedAt None
                      (Execution.set_Status WorkflowStatusRunning e))
               else e in
      UpdateExecution (Execution.set_CurrentStepID stepID e) ≫= λ _,
      ret ()
  end.

(** ** Queries *)

Definition getStringPtr (s : string) : option string := if String.eqb s "" then None else Some s.

Definition step_execution (executionID : UUID) (stepID : string) (x : StepStatus.t) : StepExecution :=
  MkStepExecution executionID stepID (StepStatus.GetCreatedAt x) (StepStatus.CompletedAt x)
    (StepStatus.Status x) (StepStatus.Output x) (getStringPtr (StepStatus.Error x)) (StepStatus.RetryCount x).

Definition GetCurrentStep (executionID : UUID) : M (option StepExecution) :=
  getExecution E executionID ≫= λ e,
  if String.eqb (Execution.CurrentStepID e) "" then ret None
  else
    match Execution.StepStatuses e !! Execution.CurrentStepID e with
    | None => throw (Errorf (Text "current step not found"))
    | Some x => ret (Some (step_execution executionID (Execution.CurrentStepID e) x))
    end.

(** In the order in which Go ranges over the map. *)
Definition GetPendingSteps (l : list (string * StepStatus.t)) (executionID : UUID) : list StepExecution :=
  (λ kv : string * StepStatus.t,
     MkStepExecution executionID kv.1 (StepStatus.GetCreatedAt kv.2) None (StepStatus.Status kv.2) ∅ None
       (StepStatus.RetryCount kv.2)) <$> filter (λ kv, unfinished kv.2 = true) l.

Definition GetStepExecution (executionID : UUID) (stepID : string) : M StepExecution :=
  getExecution E executionID ≫= λ e,
  match Execution.StepStatuses e !! stepID with
  | None => throw (step_missing stepID "")
  | Some x => ret (step_execution executionID stepID x)
  end.

(** ** The service as a system *)

(** A request, or a goroutine of the list of started ones. *)
Inductive request :=
| RExecuteWorkflow (workflowID : UUID) (input : JSONMap) (idempotencyKey : string)
| RExecuteWorkflowStep (executionID : UUID) (stepID : string)
| RStatus (executionID : UUID)
| RPause (executionID : UUID) (reason : string)
| RResume (executionID : UUID)
| RCancel (executionID : UUID) (reason : string)
| RRetry (executionID : UUID) (fromStep : string)
| RApprove (executionID : UUID) (stepID : string) (a : option ApprovalDecision)
| RStart (workflowID : UUID) (initiatorID : string) (input : option JSONMap)
| RComplete (executionID : UUID) (stepID : string) (output : option JSONMap)
| RFail (executionID : UUID) (stepID reason : string) (details : option JSONMap)
| RRetryStep (executionID : UUID) (stepID : string)
| RStep (executionID : UUID) (stepID : string).

Definition discard {A} (m : M A) : M unit := m ≫= λ _, ret ().

Definition serve (r : request) : M unit :=
  match r with
  | RExecuteWorkflow w i k => discard (ExecuteWorkflow E w i k)
  | RExecuteWorkflowStep x st => ExecuteWorkflowStep E x st
  | RStatus x => discard (GetExecutionStatus x)
  | RPause x reason => PauseExecution x reason
  | RResume x => ResumeExecution x
  | RCancel x reason => CancelExecution x reason
  | RRetry x st => RetryExecution x st
  | RApprove x st a => SubmitApproval x st a
  | RStart w i input => discard (StartWorkflow w i input)
  | RComplete x st o => CompleteStep x st o
  | RFail x st reason d => FailStep x st reason d
  | RRetryStep x st => RetryStep x st
  | RStep x st => discard (GetStepExecution x st)
  end.

Definition run_job (j : job) : M unit :=
  match j with
  | JStart e steps => run_start E e steps
  | JStep x st => ignore (ExecuteWorkflowStep E x st)
  | JResume e => run_resume e
  | JRetry e => run_retry e
  | JApproval e st key => run_approval e st key
  end.

Definition set_jobs (js : list job) (s : state R C) : state R C :=
  MkState (workflowCache s) (executionCache s) (repo s) (activeExecutions s) js.
End control.

(** A request is served, or a started goroutine runs, at some instant and with some answers of
    the collaborators. *)
Inductive step `{!WorkflowRepository R, !CacheOps cached C, !UUIDText} (s : state R C) : state R C -> Prop :=
| step_serve E r : step s (serve E r s).1
| step_job E j js js' : jobs s = (js ++ j :: js')%list ->
    step s (run_job E j (set_jobs (js ++ js')%list s)).1.

(** ** Laws *)

Lemma from_step_true fromStep steps : from_step true fromStep steps = steps.
Proof. induction steps as [|x steps IH]; simpl; congruence. Qed.

Lemma from_step_split fromStep pre step post :
  fromStep ∉ Step.ID <$> pre -> Step.ID step = fromStep ->
  from_step false fromStep (pre ++ step :: post) = (step :: post)%list.
Proof.
  intros Hni Hid. induction pre as [|x pre IH]; simpl.
  - rewrite Hid, String.eqb_refl, from_step_true. done.
  - rewrite fmap_cons, not_elem_of_cons in Hni. destruct Hni as [Hx Hni].
    destruct (String.eqb_spec (Step.ID x) fromStep); [congruence|]. by apply IH.
Qed.

(** The steps that are reset, one after another. *)
Lemma reset_steps_lookup steps e id :
  NoDup (Step.ID <$> steps) ->
  Execution.StepStatuses (reset_steps steps e) !! id =
    if decide (id ∈ Step.ID <$> steps) then retry_step <$> Execution.StepStatuses e !! id
    else Execution.StepStatuses e !! id.
Proof.
  unfold reset_steps. revert e. induction steps as [|x steps IH]; intros e Hnd; [done|].
  rewrite fmap_cons, NoDup_cons in Hnd. destruct Hnd as [Hx Hnd]. simpl. rewrite IH by done.
  unfold Execution.update_step, Execution.set_StepStatuses. cbn [Execution.StepStatuses].
  rewrite lookup_alter. repeat case_decide; subst; try done; set_solver.
Qed.

Lemma reset_steps_keeps steps e :
  Execution.Status (reset_steps steps e) = Execution.Status e /\
  Execution.CompletedAt (reset_steps steps e) = Execution.CompletedAt e.
Proof.
  unfold reset_steps. revert e. induction steps as [|x steps IH]; intros e; [done|]. simpl.
  destruct (IH (Execution.update_step retry_step (Step.ID x) e)) as [-> ->]. done.
Qed.

Lemma step_index_split pre step post :
  Step.ID step ∉ Step.ID <$> pre ->
  step_index (Step.ID step) (pre ++ step :: post) = List.length pre.
Proof.
  intros Hni. unfold step_index.
  assert (list_find (λ x, Step.ID x = Step.ID step) (pre ++ step :: post) = Some (List.length pre, step)) as ->;
    [|done].
  apply list_find_Some. split_and!; [by apply list_lookup_middle|done|].
  intros j y Hy Hj. rewrite lookup_app_l in Hy by done. intros Heq.
  apply Hni. rewrite <-Heq. apply list_elem_of_fmap_2. by eapply list_elem_of_lookup_2.
Qed.

(** ** Results *)

(** Retrying an execution from a step runs it again with that step as its current one; the
    steps that come before it in the list keep their status, and the step and all that come
    after it, whatever they depend on, are pending again with one retry more. *)
Theorem retry_resets E w fromStep n e pre step post :
  Workflow.Steps w = (pre ++ step :: post)%list -> NoDup (Step.ID <$> Workflow.Steps w) ->
  Step.ID step = fromStep -> fromStep ≠ "" ->
  let e' := retried E w fromStep n e in
  Execution.Status e' = WorkflowStatusRunning /\ Execution.CurrentStepID e' = fromStep /\
  Execution.CompletedAt e' = None /\
  (forall x, x ∈ pre -> Execution.StepStatuses e' !! Step.ID x = Execution.StepStatuses e !! Step.ID x) /\
  (forall x, x ∈ step :: post ->
     Execution.StepStatuses e' !! Step.ID x = retry_step <$> Execution.StepStatuses e !! Step.ID x).
Proof.
  intros Hs Hnd Hid Hne e'. rewrite Hs, fmap_app, fmap_cons in Hnd.
  apply NoDup_app in Hnd as (_ & Hdis & Hnd).
  assert (fromStep ∉ Step.ID <$> pre) as Hni.
  { intros Hin. apply (Hdis _ Hin). rewrite <-Hid. by left. }
  subst e'. unfold retried, Workflow.GetSteps. rewrite Hs.
  destruct (String.eqb_spec fromStep ""); [done|]. rewrite (from_step_split fromStep pre step post) by done.
  unfold retry_target. destruct (String.eqb_spec fromStep ""); [done|]. cbn [negb].
  cbn [Execution.set_CurrentStepID Execution.Status Execution.CurrentStepID Execution.StepStatuses Execution.CompletedAt].
  split_and!; try done.
  - by rewrite (proj1 (reset_steps_keeps _ _)).
  - by rewrite (proj2 (reset_steps_keeps _ _)).
  - intros x Hx. rewrite reset_steps_lookup by (by rewrite fmap_cons).
    rewrite decide_False; [done|]. apply Hdis. by apply list_elem_of_fmap_2.
  - intros x Hx. rewrite reset_steps_lookup by (by rewrite fmap_cons).
    rewrite decide_True; [done|]. by apply list_elem_of_fmap_2.
Qed.

(** Completing a step by hand moves on by position: the next step of the list starts, even
    if steps that it depends on are not complete, and after the last step the execution is
    complete, whatever the statuses of the other steps. *)
Theorem advance_by_position {R C} E w e pre step post (s : state R C) :
  Workflow.Steps w = (pre ++ step :: post)%list -> NoDup (Step.ID <$> Workflow.Steps w) ->
  match post with
  | [] => exists e', advance E w (Step.ID step) e s = (s, Returns e') /\
      Execution.Status e' = WorkflowStatusCompleted /\ Execution.CurrentStepID e' = "" /\
      Execution.StepStatuses e' = Execution.StepStatuses e
  | next :: _ =>
      match Execution.StepStatuses e !! Step.ID next with
      | None => advance E w (Step.ID step) e s = (s, Panics)
      | Some x => exists e', advance E w (Step.ID step) e s = (s, Returns e') /\
          Execution.Status e' = Execution.Status e /\ Execution.CurrentStepID e' = Step.ID next /\
          Execution.StepStatuses e' = <[Step.ID next := run_now E x]> (Execution.StepStatuses e)
      end
  end.
Proof.
  intros Hs Hnd. rewrite Hs, fmap_app, fmap_cons in Hnd. apply NoDup_app in Hnd as (_ & Hdis & _).
  unfold advance, Workflow.GetSteps. rewrite Hs, step_index_split.
  2:{ intros Hin. apply (Hdis _ Hin). by left. }
  assert ((pre ++ step :: post)%list !! S (List.length pre) = post !! 0%nat) as ->.
  { rewrite lookup_app_r by lia. by replace (S (List.length pre) - List.length pre)%nat with 1%nat by lia. }
  destruct post as [|next post]; simpl; [by eexists|].
  destruct (Execution.StepStatuses e !! Step.ID next) as [x|] eqn:Hx; [|done].
  eexists. split; [reflexivity|]. cbn. split_and!; try done.
  apply map_eq. intros i. rewrite lookup_alter, lookup_insert. case_decide; subst; [by rewrite Hx|done].
Qed.

Definition chain : Workflow.t :=
  Workflow.Mk 3%N 1%N "chain" "sequential" 1 "agent" ∅
    [sample_step "a" "task" [] ∅; sample_step "b" "task" [] ∅; sample_step "c" "task" ["a"; "b"] ∅]
    ∅ "" [] true 0 0 None.

Definition halted : Execution.t :=
  Execution.set_StepStatuses
    (<["a" := StepStatus.set_Status "completed" (StepStatus.pending "a")]>
      (<["b" := StepStatus.set_Status "failed" (StepStatus.pending "b")]>
        (<["c" := StepStatus.pending "c"]> ∅)))
    (Execution.set_Status "failed" (Execution.set_ID 8%N Execution.zero)).

Lemma retry_resets_witness :
  let e' := retried (calm 10 9%N) chain "b" 0 halted in
  StepStatus.Status <$> Execution.StepStatuses e' !! "a" = Some "completed" /\
  StepStatus.Status <$> Execution.StepStatuses e' !! "b" = Some "pending" /\
  StepStatus.Status <$> Execution.StepStatuses e' !! "c" = Some "pending".
Proof.
  destruct (retry_resets (calm 10 9%N) chain "b" 0 halted
              [sample_step "a" "task" [] ∅] (sample_step "b" "task" [] ∅)
              [sample_step "c" "task" ["a"; "b"] ∅] eq_refl
              ltac:(repeat (apply NoDup_cons; split; [rewrite ?elem_of_cons; rewrite elem_of_nil; naive_solver|]); apply NoDup_nil_2)
              eq_refl ltac:(discriminate))
    as (_ & _ & _ & Hpre & Hpost).
  split_and!.
  - by rewrite (Hpre (sample_step "a" "task" [] ∅)) by left.
  - by rewrite (Hpost (sample_step "b" "task" [] ∅)) by left.
  - by rewrite (Hpost (sample_step "c" "task" ["a"; "b"] ∅)) by (right; left).
Defined.

(** Step ["c"] needs ["a"] and ["b"]; it starts although ["b"] has failed. *)
Lemma advance_by_position_witness :
  exists e', advance (R := shelf) (C := Memory.MemoryCache cached) (calm 10 9%N) chain "b" halted on_shelf
      = (on_shelf, Returns e') /\
    StepStatus.Status <$> Execution.StepStatuses e' !! "c" = Some "running".
Proof.
  destruct (advance_by_position (R := shelf) (C := Memory.MemoryCache cached) (calm 10 9%N) chain halted
              [sample_step "a" "task" [] ∅] (sample_step "b" "task" [] ∅)
              [sample_step "c" "task" ["a"; "b"] ∅] on_shelf eq_refl
              ltac:(repeat (apply NoDup_cons; split; [rewrite ?elem_of_cons; rewrite elem_of_nil; naive_solver|]); apply NoDup_nil_2))
    as (e' & Ha & _ & _ & Hst).
  exists e'. split; [exact Ha|]. rewrite Hst. reflexivity.
Defined.
