(* ===== verification/WorkflowRows.v ===== *)
(** * WorkflowRows: the workflow repository on tables

    [pkg/repository/postgres/workflow_repository.go]: workflows and their executions as
    rows, written and read column by column.  The runtime part of an execution (its workflow, the statuses of its steps, the
    current step) has no column.  The repository's own read-through cache is left out, as are
    replication delays between the two connections. *)

From stdpp Require Import base decidable gmap strings list.
From Stdlib Require Import ZArith Lia.
From S2P Require Import Prelude GoFloat GoStrings GoAny ServiceErrors ServiceMonad Storage.
From S2P Require Import WorkflowModels WorkflowService.

Local Open Scope string_scope.
Local Open Scope Z_scope.

(** ** Rows *)

Module Table.

Record execution_row := MkRow {
  id : UUID;
  workflow_id : UUID;
  tenant_id : UUID;
  status : string;
  context : JSONMap;
  execution_state : JSONMap;
  initiated_by : string;
  execution_error : string;
  started_at : Z;
  completed_at : option Z;
  updated_at : Z;
}.

(** Scanning a row into a new [models.WorkflowExecution]. *)
Definition scan (row : execution_row) : Execution.t :=
  Execution.Mk (id row) (workflow_id row) (tenant_id row) (status row) (context row)
    (execution_state row) (initiated_by row) (execution_error row) (started_at row)
    (completed_at row) (updated_at row) None ∅ "".

Record Rows := MkRows {
  workflows : gmap UUID Workflow.t;
  executions : gmap UUID execution_row;
}.

Definition set_executions (m : gmap UUID execution_row) (r : Rows) : Rows := MkRows (workflows r) m.
Definition set_workflows (m : gmap UUID Workflow.t) (r : Rows) : Rows := MkRows m (executions r).

Section columns.
Context {enc : Encoding}.

(** The steps of a workflow through their column. *)
Definition json_step (step : Step.t) : result error Step.t :=
  match marshal (Step.Input step) "steps", marshal (Step.Config step) "steps" with
  | Ok input, Ok config =>
      Ok (Step.Mk (Step.ID step) (Step.Name step) (Step.Description step) (Step.Type_ step)
            (Step.Action step) (Step.AgentID step) input config (Step.Timeout step)
            (Step.TimeoutSeconds step) (Step.Retries step) (Step.RetryPolicy step)
            (Step.ContinueOnError step) (Step.Dependencies step) (Step.OnFailure step))
  | Err e, _ | _, Err e => Err e
  end.

Fixpoint json_steps (steps : list Step.t) : result error (list Step.t) :=
  match steps with
  | [] => Ok []
  | step :: rest =>
      match json_step step, json_steps rest with
      | Ok step, Ok rest => Ok (step :: rest)
      | Err e, _ | _, Err e => Err e
      end
  end.

(** The workflow that its columns give back. *)
Definition columns (w : Workflow.t) : result error Workflow.t :=
  match marshal (Workflow.Agents w) "agents", json_steps (Workflow.Steps w),
        marshal (Workflow.Config w) "config" with
  | Ok agents, Ok steps, Ok config =>
      Ok (Workflow.Mk (Workflow.ID w) (Workflow.TenantID w) (Workflow.Name w) (Workflow.Type_ w)
            (Workflow.Version w) (Workflow.CreatedBy w) agents steps config
            (Workflow.Description w) (Workflow.Tags w) (Workflow.IsActive w)
            (db_time (Workflow.CreatedAt w)) (db_time (Workflow.UpdatedAt w))
            (db_time <$> Workflow.DeletedAt w))
  | Err e, _, _ | _, Err e, _ | _, _, Err e => Err e
  end.

Definition stamped (w : Workflow.t) (id : UUID) (version : Z) (is_active : bool) (created updated : Z)
    : Workflow.t :=
  Workflow.Mk id (Workflow.TenantID w) (Workflow.Name w) (Workflow.Type_ w) version
    (Workflow.CreatedBy w) (Workflow.Agents w) (Workflow.Steps w) (Workflow.Config w)
    (Workflow.Description w) (Workflow.Tags w) is_active created updated (Workflow.DeletedAt w).

(** ** Operations *)

(** The service gives every workflow and execution an identifier before it stores it. *)
Definition Create (d : database) (w : Workflow.t) (r : Rows) : result error (Workflow.t * Rows) :=
  ExecuteQueryWithRetry (λ i,
    let w := stamped w (Workflow.ID w) 1 true (db_now d) (db_now d) in
    query d "create_workflow" i (TranslateError "workflow")
      match columns w with
      | Err e => Err (TranslateError "workflow" e)
      | Ok row =>
          match workflows r !! Workflow.ID w with
          | Some _ => Err ErrDuplicate
          | None => Ok (w, set_workflows (<[Workflow.ID w := row]> (workflows r)) r)
          end
      end).

Definition live (r : Rows) (id : UUID) : option Workflow.t :=
  match workflows r !! id with
  | Some w => if bool_decide (Workflow.DeletedAt w = None) then Some w else None
  | None => None
  end.

Definition Get (d : database) (id : UUID) (r : Rows) : result error Workflow.t :=
  query d "get_workflow" 0 (Wrapped "failed to get workflow")
    match live r id with Some w => Ok w | None => Err ErrNotFound end.

(** The columns that an update leaves alone: identifier, tenant, creator, creation time. *)
Definition updated_columns (w row : Workflow.t) : Workflow.t :=
  Workflow.Mk (Workflow.ID row) (Workflow.TenantID row) (Workflow.Name w) (Workflow.Type_ w)
    (Workflow.Version w) (Workflow.CreatedBy row) (Workflow.Agents w) (Workflow.Steps w)
    (Workflow.Config w) (Workflow.Description w) (Workflow.Tags w) (Workflow.IsActive w)
    (Workflow.CreatedAt row) (Workflow.UpdatedAt w) (Workflow.DeletedAt row).

(** It runs on [writeDB] even when the repository was made for a transaction. *)
Definition Update (d : database) (w : Workflow.t) (r : Rows) : result error Rows :=
  let oldVersion := Workflow.Version w in
  let w := stamped w (Workflow.ID w) (i64 (oldVersion + 1)) (Workflow.IsActive w)
             (Workflow.CreatedAt w) (db_now d) in
  query d "update_workflow" 0 (TranslateError "workflow")
    match columns w with
    | Err e => Err (TranslateError "workflow" e)
    | Ok new =>
        match live r (Workflow.ID w) with
        | None => Err ErrNotFound
        | Some row =>
            if Workflow.Version row =? oldVersion
            then Ok (set_workflows (<[Workflow.ID w := updated_columns new row]> (workflows r)) r)
            else Err ErrOptimisticLock
        end
    end.

Definition active_status (st : string) : bool :=
  existsb (String.eqb st) ["pending"; "running"; "paused"].

Definition active_executions (id : UUID) (r : Rows) : list execution_row :=
  filter (λ row, workflow_id row = id /\ active_status (status row) = true)
    (map_to_list (executions r)).*2.

Definition Delete (d : database) (id : UUID) (r : Rows) : result error Rows :=
  query d "delete_workflow" 0 (λ e, e)
    match active_executions id r with
    | (_ :: _) as active =>
        Err (Errorf (Sprintf "cannot delete workflow with %d active executions"
               [AInt (Z.of_nat (List.length active))]))
    | [] =>
        match live r id with
        | None => Err ErrNotFound
        | Some _ => Ok (set_workflows (delete id (workflows r)) r)
        end
    end.

Definition new_row (d : database) (e : Execution.t) (context state : JSONMap) : execution_row :=
  MkRow (Execution.ID e) (Execution.WorkflowID e) (Execution.TenantID e) (Execution.Status e)
    context state (Execution.InitiatedBy e) (Execution.Error e)
    (db_time (db_now d)) None (db_time (db_now d)).

Definition filled (d : database) (e : Execution.t) : Execution.t :=
  let e := Execution.set_UpdatedAt (db_now d) (Execution.set_StartedAt (db_now d) e) in
  if String.eqb (Execution.Status e) "" then Execution.set_Status WorkflowStatusPending e else e.

(** [completed_at] is not among the columns of the statement. *)
Definition CreateExecution (d : database) (e : Execution.t) (r : Rows)
    : result error (Execution.t * Rows) :=
  ExecuteQueryWithRetry (λ i,
    let e := filled d e in
    match marshal (Execution.Context e) "context", marshal (Execution.State e) "state" with
    | Ok context, Ok state =>
        query d "create_execution" i (TranslateError "workflow_execution")
          match executions r !! Execution.ID e with
          | Some _ => Err ErrDuplicate
          | None =>
              Ok (e, set_executions (<[Execution.ID e := new_row d e context state]> (executions r)) r)
          end
    | Err err, _ | _, Err err => Err err
    end).

Definition GetExecution (d : database) (id : UUID) (r : Rows) : result error Execution.t :=
  query d "get_execution" 0 (Wrapped "failed to get workflow execution")
    match executions r !! id with Some row => Ok (scan row) | None => Err ErrNotFound end.

Definition rewritten (d : database) (e : Execution.t) (context state : JSONMap) (row : execution_row)
    : execution_row :=
  MkRow (id row) (workflow_id row) (tenant_id row) (Execution.Status e) context state
    (initiated_by row) (Execution.Error e) (started_at row) (db_time <$> Execution.CompletedAt e)
    (db_time (db_now d)).

Definition UpdateExecution (d : database) (e : Execution.t) (r : Rows) : result error Rows :=
  ExecuteQueryWithRetry (λ i,
    match marshal (Execution.Context e) "context", marshal (Execution.State e) "state" with
    | Ok context, Ok state =>
        query d "update_execution" i (TranslateError "workflow_execution")
          match executions r !! Execution.ID e with
          | None => Err ErrNotFound
          | Some row =>
              Ok (set_executions (<[Execution.ID e := rewritten d e context state row]> (executions r)) r)
          end
    | Err err, _ | _, Err err => Err err
    end).

(** The entry of a step in the [state] column. *)
Definition step_entry (d : database) (stepID status : string) (output : JSONMap) : any :=
  AMap (list_to_map [("step_id", AString stepID); ("status", AString status);
                     ("output", AMap output); ("completed_at", ATime (db_now d))]).

Definition with_entry (d : database) (stepID status : string) (output : JSONMap) (state : JSONMap)
    : JSONMap :=
  let statuses := default ∅ (as_map (field state "step_statuses")) in
  <["step_statuses" := AMap (<[stepID := step_entry d stepID status output]> statuses)]> state.

Definition UpdateStepStatus (d : database) (executionID : UUID) (stepID status_ : string)
    (output : JSONMap) (r : Rows) : result error Rows :=
  query d "update_step_status" 0 (λ e, e)
    match executions r !! executionID with
    | None => Err ErrNotFound
    | Some row =>
        match marshal (with_entry d stepID status_ output (execution_state row)) "state" with
        | Err e => Err e
        | Ok state =>
            Ok (set_executions (<[executionID :=
                  MkRow (id row) (workflow_id row) (tenant_id row) (status row) (context row) state
                    (initiated_by row) (execution_error row) (started_at row) (completed_at row)
                    (db_time (db_now d))]> (executions r)) r)
        end
    end.

(** [Update] is not part of the transaction, so rolling back leaves the workflows. *)
#[global] Instance rows_repository : WorkflowRepository Rows := {
  repo_Get := Get;
  repo_Create := Create;
  repo_Update := Update;
  repo_Delete := Delete;
  repo_GetExecution := GetExecution;
  repo_CreateExecution := CreateExecution;
  repo_UpdateExecution := UpdateExecution;
  repo_UpdateStepStatus := UpdateStepStatus;
  repo_Rollback before after := MkRows (workflows after) (executions before);
}.
End columns.
End Table.

(** ** Laws *)

Section table.
Context {enc : Encoding}.
Import Table.

(** The execution that storage gives back for [e] as [CreateExecution] stored it. *)
Definition as_stored (d : database) (e : Execution.t) (context state : JSONMap) : Execution.t :=
  scan (new_row d (filled d e) context state).

Lemma create_execution_ok d e r e' r' :
  CreateExecution d e r = Ok (e', r') ->
  e' = filled d e /\ executions r !! Execution.ID e = None /\
  exists context state, json_map (Execution.Context e) = Some context /\
    json_map (Execution.State e) = Some state /\
    r' = set_executions (<[Execution.ID e := new_row d (filled d e) context state]> (executions r)) r.
Proof.
  intros (k & Hq)%query_ok. revert Hq. unfold marshal.
  assert (Execution.ID (filled d e) = Execution.ID e /\
          Execution.Context (filled d e) = Execution.Context e /\
          Execution.State (filled d e) = Execution.State e) as (-> & -> & ->)
    by (unfold filled; by destruct (String.eqb _ _)).
  destruct (json_map (Execution.Context e)) as [context|]; [|done].
  destruct (json_map (Execution.State e)) as [state|]; [|done].
  unfold query. destruct (fault _ _ _); [done|].
  destruct (executions r !! Execution.ID e) eqn:Hr; [done|]. intros [= <- <-].
  split_and!; [done|done|]. by exists context, state.
Qed.

Lemma update_execution_ok d e r r' :
  UpdateExecution d e r = Ok r' ->
  exists row context state, executions r !! Execution.ID e = Some row /\
    json_map (Execution.Context e) = Some context /\ json_map (Execution.State e) = Some state /\
    r' = set_executions (<[Execution.ID e := rewritten d e context state row]> (executions r)) r.
Proof.
  intros (k & Hq)%query_ok. revert Hq. unfold marshal.
  destruct (json_map (Execution.Context e)) as [context|]; [|done].
  destruct (json_map (Execution.State e)) as [state|]; [|done].
  unfold query. destruct (fault _ _ _); [done|].
  destruct (executions r !! Execution.ID e) as [row|]; [|done]. intros [= <-].
  by exists row, context, state.
Qed.

Lemma update_ok d w r r' :
  Update d w r = Ok r' ->
  exists row new, live r (Workflow.ID w) = Some row /\ Workflow.Version row = Workflow.Version w /\
    columns (stamped w (Workflow.ID w) (i64 (Workflow.Version w + 1)) (Workflow.IsActive w)
               (Workflow.CreatedAt w) (db_now d)) = Ok new /\
    r' = set_workflows (<[Workflow.ID w := updated_columns new row]> (workflows r)) r.
Proof.
  unfold Update, query. destruct (fault _ _ _); [done|]. cbn [Workflow.ID stamped].
  destruct (columns _) as [new|] eqn:Hc; [|done].
  destruct (live r (Workflow.ID w)) as [row|] eqn:Hl; [|done].
  destruct (Z.eqb_spec (Workflow.Version row) (Workflow.Version w)) as [Hv|]; [|done].
  intros [= <-]. by exists row, new.
Qed.

Lemma columns_version w new :
  columns w = Ok new -> Workflow.Version new = Workflow.Version w.
Proof.
  unfold columns. destruct (marshal _ _); [|done]. destruct (json_steps _); [|done].
  destruct (marshal _ _); [|done]. by intros [= <-].
Qed.

Lemma i64_succ_ne v : i64 (v + 1) ≠ v.
Proof.
  intros Hv. assert ((v + 1) mod 2 ^ 64 = v mod 2 ^ 64) as He by (by rewrite <-i64_mod, Hv).
  revert He. Z.to_euclidean_division_equations. lia.
Qed.
End table.

(** ** Results *)

(** What is stored and read back is the execution without its runtime part: the statuses of
    its steps, its current step and its workflow are gone, its completion time as well, and its
    context and state have passed through JSON.  An update changes the status, the context,
    the state, the error and the completion time, and nothing else that was stored. *)
Theorem execution_storage {enc : Encoding} d d' e e' r r' :
  Table.CreateExecution d e r = Ok (e', r') -> fault d' "get_execution" 0 = None ->
  exists context state, json_map (Execution.Context e) = Some context /\
    json_map (Execution.State e) = Some state /\
    Table.GetExecution d' (Execution.ID e) r' = Ok
      (Execution.Mk (Execution.ID e) (Execution.WorkflowID e) (Execution.TenantID e)
         (if String.eqb (Execution.Status e) "" then WorkflowStatusPending else Execution.Status e)
         context state (Execution.InitiatedBy e) (Execution.Error e)
         (db_time (db_now d)) None (db_time (db_now d)) None ∅ "") /\
    (forall u d2 r2, Table.UpdateExecution d2 u r' = Ok r2 -> Execution.ID u = Execution.ID e ->
       exists context' state', json_map (Execution.Context u) = Some context' /\
         json_map (Execution.State u) = Some state' /\
         Table.GetExecution d' (Execution.ID e) r2 = Ok
           (Execution.Mk (Execution.ID e) (Execution.WorkflowID e) (Execution.TenantID e)
              (Execution.Status u) context' state' (Execution.InitiatedBy e) (Execution.Error u)
              (db_time (db_now d)) (db_time <$> Execution.CompletedAt u) (db_time (db_now d2))
              None ∅ "")).
Proof.
  intros (-> & _ & context & state & Hc & Hs & ->)%create_execution_ok Hf.
  exists context, state. unfold Table.GetExecution, query. rewrite Hf.
  cbn [Table.executions Table.set_executions]. rewrite lookup_insert_eq. split_and!; try done.
  { unfold Table.filled, Table.scan, Table.new_row. by destruct (String.eqb (Execution.Status e) "") eqn:He; cbn; rewrite He. }
  intros u d2 r2 (row & c & st & Hr & Hc2 & Hs2 & ->)%update_execution_ok Hu.
  exists c, st. split_and!; try done. cbn [Table.executions Table.set_executions] in *.
  rewrite Hu, lookup_insert_eq in Hr. injection Hr as <-. rewrite Hu, lookup_insert_eq.
  unfold Table.scan, Table.rewritten, Table.new_row, Table.filled. cbn.
  by destruct (String.eqb (Execution.Status e) "").
Qed.

Definition no_rows : Table.Rows := Table.MkRows ∅ ∅.
Definition sample_execution : Execution.t :=
  Execution.set_StepStatuses (<["a" := StepStatus.pending "a"]> ∅)
    (Execution.SetInput (<["n" := AInt 3]> ∅) (Execution.set_ID 7%N Execution.zero)).

Lemma execution_storage_witness :
  exists r', Table.CreateExecution (enc := plain_encoding) (clean 5) sample_execution no_rows
      = Ok (Table.filled (clean 5) sample_execution, r') /\
    exists context e, Table.GetExecution (clean 9) 7%N r' = Ok e /\
      Execution.Context e = context /\ Execution.StepStatuses e = ∅.
Proof.
  eexists. split; [vm_compute; reflexivity|].
  destruct (execution_storage (enc := plain_encoding) (clean 5) (clean 9) sample_execution
              _ no_rows _ ltac:(vm_compute; reflexivity) eq_refl)
    as (context & state & _ & _ & H & _).
  eexists _, _. split; [exact H|]. by split.
Defined.

(** Optimistic locking: of two updates that start from the same version of a workflow, the
    second one is refused, and so is an update of a workflow that is not there. *)
Theorem optimistic_lock {enc : Encoding} d d' w w' r r' :
  Table.Update d w r = Ok r' ->
  Workflow.ID w' = Workflow.ID w -> Workflow.Version w' = Workflow.Version w ->
  fault d' "update_workflow" 0 = None ->
  is_ok (Table.columns (Table.stamped w' (Workflow.ID w') (i64 (Workflow.Version w' + 1))
           (Workflow.IsActive w') (Workflow.CreatedAt w') (db_now d'))) = true ->
  Table.Update d' w' r' = Err ErrOptimisticLock.
Proof.
  intros (row & new & Hl & Hv & Hc & ->)%update_ok Hid Hver Hf Hok.
  unfold Table.Update, query. rewrite Hf. cbn [Workflow.ID Table.stamped].
  destruct (Table.columns (Table.stamped w' _ _ _ _ _)); [|done].
  unfold Table.live in *. cbn [Table.workflows Table.set_workflows]. rewrite Hid, lookup_insert_eq.
  destruct (Table.workflows r !! Workflow.ID w) as [w0|]; [|done].
  cbn [Workflow.DeletedAt Table.updated_columns]. case_bool_decide as Hd; [|done].
  injection Hl as ->. rewrite bool_decide_true by done. cbn [Workflow.Version Table.updated_columns].
  apply columns_version in Hc. cbn in Hc. rewrite Hc, Hver.
  destruct (Z.eqb_spec (i64 (Workflow.Version w + 1)) (Workflow.Version w)) as [He|]; [|done].
  by apply i64_succ_ne in He.
Qed.

Definition sample_workflow : Workflow.t :=
  Workflow.Mk 3%N 1%N "deploy" "sequential" 1 "agent" ∅ [] ∅ "" [] true 0 0 None.

Lemma optimistic_lock_witness :
  exists r', Table.Update (enc := plain_encoding) (clean 5) sample_workflow
               (Table.MkRows (<[3%N := sample_workflow]> ∅) ∅) = Ok r' /\
    Table.Update (enc := plain_encoding) (clean 6) sample_workflow r' = Err ErrOptimisticLock.
Proof.
  eexists. split; [vm_compute; reflexivity|].
  apply (optimistic_lock (enc := plain_encoding) (clean 5) (clean 6) sample_workflow sample_workflow
           (Table.MkRows (<[3%N := sample_workflow]> ∅) ∅)); reflexivity.
Defined.
