(* ===== verification/WorkflowSystem.v ===== *)
(** * WorkflowSystem: the workflow service with its repository and its caches

    [NewWorkflowService] gives the service in-memory caches ([MemCache]); its repository is
    [WorkflowRows].  What the service does with these two: an in-memory cache answers a hit
    without writing the value, and a stored execution has lost the statuses of its steps. *)

From stdpp Require Import base decidable gmap strings list relations.
From Stdlib Require Import ZArith Lia.
From S2P Require Import Prelude GoFloat GoStrings GoAny ServiceErrors ServiceInterfaces.
From S2P Require Import ServiceMonad Storage MemCache Transaction WorkflowModels WorkflowGraph.
From S2P Require Import WorkflowInput WorkflowService ExecutionControl WorkflowRows.

Local Open Scope string_scope.
Local Open Scope Z_scope.

Section system.
Context {enc : Encoding} {uuids : UUIDText}.

Notation cache := (Memory.MemoryCache cached).
Notation system := (state Table.Rows cache).
Implicit Types s : system.

(** [NewWorkflowService]. *)
Definition NewWorkflowService (r : Table.Rows) : system := empty_state r.

(** ** Reading *)

(** An execution without its runtime part: as a hit of the cache, and as a row. *)
Definition bare (e : Execution.t) : Prop :=
  Execution.StepStatuses e = ∅ /\ Execution.Workflow_ e = None /\ Execution.CurrentStepID e = "".

Lemma getExecution_bare E id s s' e : getExecution E id s = (s', Returns e) -> bare e.
Proof.
  unfold getExecution. destruct (cache_Get _ _ _) as [v|err] eqn:Hg.
  - apply Memory.get_nothing in Hg as ->. by intros [= _ <-].
  - destruct (repo_GetExecution _ _ _) as [e'|err'] eqn:Hr; [|done]. intros [= _ <-].
    revert Hr. simpl. unfold Table.GetExecution, query. destruct (fault _ _ _); [done|].
    destruct (Table.executions (repo s) !! id); [|done]. by intros [= <-].
Qed.

Lemma bare_no_step e id : bare e -> Execution.StepStatuses e !! id = None.
Proof. intros (-> & _ & _). apply lookup_empty. Qed.

(** A hit gives a workflow with nothing in it. *)
Lemma getWorkflow_hit E id s v :
  cache_Get (now E) (workflow_key id) (workflowCache s) = Ok v ->
  getWorkflow E id s = (s, Returns Workflow.zero).
Proof.
  intros Hg. unfold getWorkflow. rewrite Hg. apply Memory.get_nothing in Hg as ->. done.
Qed.

Lemma existing_execution_none E key s : existing_execution E key s = (s, Returns None).
Proof.
  unfold existing_execution, checkExecutionIdempotency. destruct (String.eqb key ""); [done|].
  destruct (cache_Get _ _ _) as [v|err] eqn:Hg; [|done].
  apply Memory.get_nothing in Hg as ->. done.
Qed.

(** After a step, it is as if nothing had been called, but for the caches. *)
Lemma step_never_runs E x st s :
  same_but_caches s (ExecuteWorkflowStep E x st s).1 /\ (ExecuteWorkflowStep E x st s).2 ≠ Returns ().
Proof.
  destruct (ExecuteWorkflowStep E x st s) as [s' r] eqn:Hrun.
  unfold ExecuteWorkflowStep, getExecutionWithLock in Hrun.
  pose proof (getExecution_reads E x s) as He.
  apply bind_inv in Hrun as [(e & s1 & He1 & Hrun)|[(err & He1 & ->)|[He1 ->]]];
    rewrite He1 in He; [|done|done]. apply getExecution_bare in He1. cbn [fst] in He.
  pose proof (getWorkflow_reads E (Execution.WorkflowID e) s1) as Hw.
  assert (forall s2, same_but_caches s1 s2 -> same_but_caches s s2) as Htrans
    by (unfold same_but_caches in *; intros s2; intuition congruence).
  apply bind_inv in Hrun as [(w & s2 & Hw1 & Hrun)|[(err & Hw1 & ->)|[Hw1 ->]]];
    rewrite Hw1 in Hw; [|split; [by apply Htrans|done]..]. cbn [fst] in Hw.
  destruct (GetByID (Workflow.GetSteps w) st) as [step|].
  2:{ injection Hrun as <- <-. split; [by apply Htrans|done]. }
  apply bind_inv in Hrun as [([] & s3 & Hd & Hrun)|[(err & Hd & ->)|[Hd ->]]];
    injection Hd as <- _; [|split; [by apply Htrans|done]..].
  rewrite bare_no_step in Hrun by done. injection Hrun as <- <-. split; [by apply Htrans|done].
Qed.

(** ** An invariant of the service *)

Definition unfinished_status (st : string) : Prop :=
  st ∈ [WorkflowStatusPending; WorkflowStatusRunning; WorkflowStatusPaused; WorkflowStatusCancelled].

Definition no_approval (j : job) : Prop := match j with JApproval _ _ _ => False | _ => True end.

Definition never_done s : Prop :=
  Forall no_approval (jobs s) /\
  map_Forall (λ _ row, unfinished_status (Table.status row)) (Table.executions (repo s)).

Lemma never_done_reads s s' : same_but_caches s s' -> never_done s -> never_done s'.
Proof. unfold never_done. by intros (-> & _ & ->). Qed.

Lemma keeps_getExecution E id : keeps never_done (getExecution E id).
Proof. intros s. apply never_done_reads, getExecution_reads. Qed.
Lemma keeps_getWorkflow E id : keeps never_done (getWorkflow E id).
Proof. intros s. apply never_done_reads, getWorkflow_reads. Qed.
Lemma keeps_step E x st : keeps never_done (ExecuteWorkflowStep E x st).
Proof. intros s. apply never_done_reads, step_never_runs. Qed.
Lemma keeps_existing E key : keeps never_done (existing_execution E key).
Proof. intros s Hs. by rewrite existing_execution_none. Qed.
Lemma keeps_cache E k v ttl : keeps never_done (cache_execution E k v ttl).
Proof. by intros s. Qed.
Lemma keeps_forget E id : keeps never_done (forget_execution E id).
Proof. by intros s. Qed.
Lemma keeps_activate id : keeps never_done (activate id).
Proof. by intros s. Qed.
Lemma keeps_deactivate id : keeps never_done (deactivate id).
Proof. by intros s. Qed.
Lemma keeps_authorize E r a w l : keeps never_done (authorize_ E r a w l).
Proof. apply keeps_lift. Qed.
Lemma keeps_spawn j : no_approval j -> keeps never_done (spawn j).
Proof. intros Hj s [? ?]. split; [|done]. by apply Forall_app_2, Forall_singleton. Qed.
Lemma keeps_transaction (m : M system unit) : keeps never_done m -> keeps never_done (with_transaction m).
Proof. intros Hm s. rewrite with_transaction_run. apply Hm. Qed.

Lemma keeps_update E e :
  unfinished_status (Execution.Status e) ->
  keeps never_done (repo_do (repo_UpdateExecution (db E) e)).
Proof.
  intros He s [Hj Hs]. unfold repo_do. destruct (repo_UpdateExecution _ _ _) as [r|err] eqn:Hu; [|done].
  split; [done|]. apply update_execution_ok in Hu as (row & c & st & _ & _ & _ & ->).
  by apply map_Forall_insert_2.
Qed.

Lemma keeps_create E e :
  unfinished_status (Execution.Status e) ->
  keeps never_done (repo_run (repo_CreateExecution (db E) e)).
Proof.
  intros He s [Hj Hs]. unfold repo_run. destruct (repo_CreateExecution _ _ _) as [[e' r]|err] eqn:Hu; [|done].
  split; [done|]. apply create_execution_ok in Hu as (_ & _ & c & st & _ & _ & ->).
  apply map_Forall_insert_2; [|done]. cbn. unfold Table.filled.
  destruct (String.eqb _ ""); [by left|done].
Qed.

Lemma keeps_update_workflow E w : keeps never_done (repo_do (repo_Update (db E) w)).
Proof.
  intros s [Hj Hs]. unfold repo_do. destruct (repo_Update _ _ _) as [r|err] eqn:Hu; [|done].
  apply update_ok in Hu as (row & new & _ & _ & _ & ->). done.
Qed.

Lemma unfinished_1 st : st ∈ ["pending"; "running"; "paused"; "cancelled"] -> unfinished_status st.
Proof. done. Qed.
End system.

#[export] Hint Resolve keeps_getExecution keeps_getWorkflow keeps_step keeps_existing keeps_cache
  keeps_forget keeps_activate keeps_deactivate keeps_authorize keeps_transaction
  keeps_update_workflow : keeps.

Ltac known_status := unfold unfinished_status; cbn; set_solver.
Ltac keep := eauto 12 with keeps.

Section invariant.
Context {enc : Encoding} {uuids : UUIDText}.
Notation system := (state Table.Rows (Memory.MemoryCache cached)).
Implicit Types s : system.

Lemma keeps_update_execution E e :
  unfinished_status (Execution.Status e) -> keeps never_done (update_execution E e).
Proof. intros He. by apply keeps_wrapping, keeps_update. Qed.

Lemma keeps_UpdateExecution E e :
  unfinished_status (Execution.Status e) -> keeps never_done (UpdateExecution E e).
Proof.
  intros He. unfold UpdateExecution. destruct (_ =? _)%N; keep.
  apply keeps_bind; [keep|intros ?]. apply keeps_bind; [keep|intros _].
  apply keeps_bind; [|keep]. apply keeps_transaction, keeps_bind; [|keep].
  by apply keeps_update_execution.
Qed.

Lemma keeps_load E l a w x : keeps never_done (load E l a w x).
Proof. unfold load. keep. Qed.

Lemma keeps_pause E x reason : keeps never_done (PauseExecution E x reason).
Proof.
  unfold PauseExecution. apply keeps_bind; [apply keeps_load|intros e].
  apply keeps_bind; [keep|intros _]. apply keeps_bind; [|keep].
  apply keeps_update_execution. known_status.
Qed.

Lemma keeps_resume E x : keeps never_done (ResumeExecution E x).
Proof.
  unfold ResumeExecution. apply keeps_bind; [apply keeps_load|intros e].
  apply keeps_bind; [keep|intros _]. apply keeps_bind; [apply keeps_update_execution; known_status|intros _].
  apply keeps_bind; [keep|intros _]. apply keeps_bind; [by apply keeps_spawn|keep].
Qed.

Lemma keeps_cancel E x reason : keeps never_done (CancelExecution E x reason).
Proof.
  unfold CancelExecution. apply keeps_bind; [apply keeps_load|intros e].
  apply keeps_bind; [keep|intros _]. apply keeps_bind; [|keep].
  apply keeps_transaction, keeps_bind; [apply keeps_update_execution; known_status|keep].
Qed.

Lemma retried_status E w from n e : Execution.Status (retried E w from n e) = WorkflowStatusRunning.
Proof.
  unfold retried. cbn [Execution.set_CurrentStepID Execution.Status].
  by rewrite (proj1 (reset_steps_keeps _ _)).
Qed.

Lemma keeps_retry E x from : keeps never_done (RetryExecution E x from).
Proof.
  unfold RetryExecution. apply keeps_bind; [apply keeps_load|intros e].
  apply keeps_bind; [keep|intros _]. apply keeps_bind; [keep|intros _].
  apply keeps_bind; [keep|intros w]. apply keeps_bind; [keep|intros _].
  apply keeps_bind; [apply keeps_transaction, keeps_update_execution; rewrite retried_status; known_status|intros _].
  apply keeps_bind; [keep|intros _]. apply keeps_bind; [by apply keeps_spawn|keep].
Qed.

(** What follows a lookup of a step in an execution that was read never happens. *)
Lemma keeps_no_step {A} E x st (k : Execution.t -> StepStatus.t -> M system A) err :
  keeps never_done (getExecution E x ≫= λ e,
    match Execution.StepStatuses e !! st with None => throw err | Some y => k e y end).
Proof.
  apply (keeps_bind_val _ bare); [keep|intros s s' e _; apply getExecution_bare|].
  intros e He. rewrite bare_no_step by done. keep.
Qed.

Lemma keeps_approve E x st a : keeps never_done (SubmitApproval E x st a).
Proof.
  unfold SubmitApproval. apply keeps_bind; [keep|intros _]. destruct a as [a|]; [|keep].
  apply keeps_bind; [keep|intros _].
  apply (keeps_bind_val _ bare); [keep|intros s s' e _; apply getExecution_bare|].
  intros e He. apply keeps_bind; [keep|intros _]. rewrite bare_no_step by done. keep.
Qed.

(** The states after a transaction of [ExecuteWorkflow]. *)
Lemma keeps_execution_transaction E w e key :
  unfinished_status (Execution.Status e) -> keeps never_done (execution_transaction E w e key).
Proof.
  intros He s Hs. unfold execution_transaction. destruct (begin_ok E) as [[]|err]; [|done]. cbn [of_result ret].
  match goal with |- context [match ?m s with _ => _ end] => assert (keeps never_done m) as Hk end.
  { apply keeps_bind; [by apply keeps_wrapping, keeps_create|intros e'].
    apply keeps_bind; [|keep]. destruct (String.eqb key ""); [keep|apply keeps_cache]. }
  specialize (Hk s Hs).
  destruct ((wrapping _ _ ≫= _) s) as [s1 [e1|err|]]; [done| |done].
  destruct Hk as [Hj _]. by split; [|apply Hs].
Qed.

Lemma keeps_execute E w i k : keeps never_done (ExecuteWorkflow E w i k).
Proof.
  unfold ExecuteWorkflow. apply keeps_bind; [keep|intros _]. apply keeps_bind; [keep|intros [x|]]; [keep|].
  apply keeps_bind; [keep|intros wf]. apply keeps_bind; [keep|intros _].
  apply keeps_bind; [keep|intros _]. apply keeps_bind; [keep|intros _].
  apply keeps_bind; [apply keeps_execution_transaction; known_status|intros e].
  apply keeps_bind; [|keep]. apply keeps_bind; [keep|intros _]. by apply keeps_spawn.
Qed.

Lemma prepared_status E e :
  Execution.Status e = WorkflowStatusRunning -> Execution.Status (prepared E e) = WorkflowStatusRunning.
Proof.
  intros He. unfold prepared. destruct (Execution.ID e =? Nil)%N; cbn; rewrite He; cbn;
    destruct (_ =? zero_time); done.
Qed.

Lemma create_execution_status E e s s' e' :
  Execution.Status e = WorkflowStatusRunning ->
  CreateExecution E e s = (s', Returns e') -> Execution.Status e' = WorkflowStatusRunning.
Proof.
  intros He. unfold CreateExecution. destruct (_ =? Nil)%N; [done|].
  rewrite bind_returns. intros (e1 & s1 & Hc & Hrun).
  rewrite wrapping_returns, repo_run_returns in Hc. destruct Hc as (r & Hc & ->).
  apply create_execution_ok in Hc as (-> & _).
  rewrite bind_returns in Hrun. destruct Hrun as ([] & s2 & _ & Hrun).
  rewrite bind_returns in Hrun. destruct Hrun as ([] & s3 & _ & Hrun).
  rewrite bind_returns in Hrun. destruct Hrun as ([] & s4 & _ & Hrun).
  apply ret_returns in Hrun as [_ ->]. apply (prepared_status E) in He. unfold Table.filled. cbn.
  by rewrite He.
Qed.

Lemma keeps_CreateExecution E e :
  Execution.Status e = WorkflowStatusRunning -> keeps never_done (CreateExecution E e).
Proof.
  intros He. unfold CreateExecution. destruct (_ =? Nil)%N; [keep|].
  apply keeps_bind; [|keep]. apply keeps_wrapping, keeps_create. rewrite prepared_status by done.
  known_status.
Qed.

Lemma keeps_start E w i input : keeps never_done (StartWorkflow E w i input).
Proof.
  unfold StartWorkflow. apply keeps_bind; [keep|intros wf].
  match goal with |- keeps _ (CreateExecution E ?e ≫= _) =>
    assert (Execution.Status e = WorkflowStatusRunning) as He by (by destruct input) end.
  apply (keeps_bind_val _ (λ e, Execution.Status e = WorkflowStatusRunning)).
  - by apply keeps_CreateExecution.
  - intros s s' e _. by apply create_execution_status.
  - intros e Hs. destruct (Workflow.GetSteps wf); [keep|]. apply keeps_UpdateExecution. cbn. rewrite Hs.
    known_status.
Qed.

Lemma keeps_discard {A} (m : M system A) : keeps never_done m -> keeps never_done (discard m).
Proof. intros Hm. unfold discard. keep. Qed.

Lemma keeps_serve E r : keeps never_done (serve E r).
Proof.
  destruct r; cbn [serve]; try apply keeps_discard.
  - apply keeps_execute.
  - apply keeps_step.
  - unfold GetExecutionStatus. apply keeps_bind; [apply keeps_load|keep].
  - apply keeps_pause.
  - apply keeps_resume.
  - apply keeps_cancel.
  - apply keeps_retry.
  - apply keeps_approve.
  - apply keeps_start.
  - apply keeps_no_step.
  - apply keeps_no_step.
  - apply keeps_no_step.
  - unfold GetStepExecution. apply keeps_no_step.
Qed.

Lemma keeps_resume_job E e : keeps never_done (run_resume E e).
Proof.
  intros s Hs. unfold run_resume. pose proof (keeps_getWorkflow E (Execution.WorkflowID e) s Hs) as Hw.
  destruct (getWorkflow E _ s) as [s1 [w|err|]]; [|by apply keeps_deactivate|done].
  match goal with |- never_done (?m s1).1 => enough (keeps never_done m) as Hm by (by apply Hm) end.
  apply keeps_bind; [|keep]. destruct (String.eqb _ _); [|keep].
  apply keeps_for_each. intros step. destruct (Execution.StepStatuses e !! Step.ID step) as [y|]; [|keep].
  destruct (_ && _); keep.
Qed.

Lemma keeps_job E j : no_approval j -> keeps never_done (run_job E j).
Proof.
  destruct j; intros Hj; cbn [run_job]; [|keep| |unfold run_retry; keep|done].
  - unfold run_start. apply keeps_bind; [|keep]. apply keeps_for_each. keep.
  - apply keeps_resume_job.
Qed.
End invariant.

(** ** Results *)

Section results.
Context {enc : Encoding} {uuids : UUIDText}.
Notation system := (state Table.Rows (Memory.MemoryCache cached)).
Implicit Types s : system.

(** Nothing but the caches changes, and the caller does not get a success. *)
Definition rejected {A} (m : M system A) : Prop :=
  forall s, same_but_caches s (m s).1 /\ forall a, (m s).2 ≠ Returns a.

Lemma rejected_bind {A B} (m : M system A) (f : A -> M system B) (Q : A -> Prop) :
  (forall s, same_but_caches s (m s).1) -> (forall s s' a, m s = (s', Returns a) -> Q a) ->
  (forall a, Q a -> rejected (f a)) -> rejected (m ≫= f).
Proof.
  intros Hm Hq Hf s. specialize (Hm s). specialize (Hq s). unfold mbind, M_bind.
  destruct (m s) as [s1 [a|err|]]; [|done|done].
  destruct (Hf a (Hq s1 a eq_refl) s1) as [Hs Hr]. split; [|done].
  unfold same_but_caches in *. cbn [fst] in *. intuition congruence.
Qed.

Lemma rejected_throw {A} e : rejected (throw (A := A) e).
Proof. by intros s. Qed.

Lemma rejected_no_step {A} E x st (k : Execution.t -> StepStatus.t -> M system A) err :
  rejected (getExecution E x ≫= λ e,
    match Execution.StepStatuses e !! st with None => throw err | Some y => k e y end).
Proof.
  apply (rejected_bind _ _ bare); [intros s; apply getExecution_reads|intros s s' a; apply getExecution_bare|].
  intros e He. rewrite bare_no_step by done. apply rejected_throw.
Qed.

(** No step of an execution can be executed, completed, failed, retried or approved: each of
    these calls ends in an error or a panic, whatever the state of the service and whatever
    its collaborators answer, and changes nothing but the caches. *)
Theorem no_step_advances E x st s :
  (same_but_caches s (ExecuteWorkflowStep E x st s).1 /\ (ExecuteWorkflowStep E x st s).2 ≠ Returns ()) /\
  (forall o, rejected (CompleteStep E x st o)) /\
  (forall reason details, rejected (FailStep E x st reason details)) /\
  rejected (RetryStep E x st) /\
  (forall a, rejected (SubmitApproval E x st a)).
Proof.
  split_and!; [apply step_never_runs|apply step_never_runs|intros o; apply rejected_no_step| |apply rejected_no_step|].
  { intros reason details. apply rejected_no_step. }
  intros a. unfold SubmitApproval.
  apply (rejected_bind _ _ (λ _, True)); [done..|intros _ _]. destruct a as [a|]; [|apply rejected_throw].
  apply (rejected_bind _ _ (λ _, True)); [by intros s0; destruct (negb _)|done|intros _ _].
  apply (rejected_bind _ _ bare); [intros s0; apply getExecution_reads|intros s0 s' e; apply getExecution_bare|].
  intros e He. apply (rejected_bind _ _ (λ _, True)); [done..|intros _ _].
  rewrite bare_no_step by done. apply rejected_throw.
Qed.

(** C9 An execution never finishes.  In every state that the service reaches from a repository
    without executions, by any requests to run, pause, resume, cancel and retry executions
    and to move their steps, and by any runs of the goroutines that it started, each stored
    execution is pending, running, paused or cancelled, never completed and never failed. *)
Theorem executions_never_finish r s :
  Table.executions r = ∅ -> rtc step (NewWorkflowService r) s ->
  forall id row, Table.executions (repo s) !! id = Some row ->
    Table.status row ∈ [WorkflowStatusPending; WorkflowStatusRunning; WorkflowStatusPaused;
                        WorkflowStatusCancelled].
Proof.
  intros Hr Hs. enough (never_done s) as [_ Hd] by (intros id row Hrow; exact (Hd id row Hrow)).
  revert s Hs. apply rtc_ind_r.
  - split; [constructor|]. cbn. rewrite Hr. apply map_Forall_empty.
  - intros s s' _ Hstep IH. destruct Hstep as [E q|E j js js' Hj]; [by apply keeps_serve|].
    destruct IH as [Hn Hd]. rewrite Hj in Hn. apply Forall_app in Hn as [Hn1 Hn2].
    apply Forall_cons in Hn2 as [Hjob Hn2]. apply keeps_job; [done|].
    split; [by apply Forall_app|done].
Qed.

(** The call fails, and changes nothing. *)
Definition refused_as_inactive E workflowID input key s : Prop :=
  ExecuteWorkflow E workflowID input key s = (s, Fails (WorkflowNotActiveError workflowID)).

(** After an execution of a workflow, the workflow is refused as not active for the next ten
    minutes: the read of the first call has put it into the cache, and the second call takes
    the hit, which leaves its record empty.  An idempotency key does not help: the key of the
    first call is not found. *)
Theorem second_execution_refused E E' s s1 workflowID input input' key key' e :
  ExecuteWorkflow E workflowID input key s = (s1, Returns e) ->
  rate E' "workflow:execute" = Returns () -> now E' <= now E + 10 * minute ->
  refused_as_inactive E' workflowID input' key' s1.
Proof.
  intros Hrun Hrate Hnow.
  assert (exists v, cache_Get (now E') (workflow_key workflowID) (workflowCache s1) = Ok v) as [v Hv].
  { unfold ExecuteWorkflow in Hrun. rewrite bind_returns in Hrun. destruct Hrun as ([] & s2 & H2 & Hrun).
    apply lift_returns in H2 as [-> _]. rewrite bind_returns in Hrun.
    destruct Hrun as (ex & s3 & Hex & Hrun). rewrite existing_execution_none in Hex. injection Hex as <- <-.
    rewrite bind_returns in Hrun. destruct Hrun as (w & s4 & Hw & Hrun). rewrite wrapping_returns in Hw.
    rewrite bind_returns in Hrun. destruct Hrun as ([] & s5 & Hg & Hrun). apply guard_returns in Hg as [-> Hact].
    rewrite bind_returns in Hrun. destruct Hrun as ([] & s6 & Hv & Hrun). apply lift_returns in Hv as [-> _].
    rewrite bind_returns in Hrun. destruct Hrun as ([] & s7 & Ha & Hrun). rewrite wrapping_returns in Ha.
    apply lift_returns in Ha as [-> _].
    rewrite bind_returns in Hrun. destruct Hrun as (e1 & s8 & Ht & Hrun).
    apply execution_transaction_returns in Ht as (r1 & r2 & _ & _ & Hs8).
    cbn in Hrun. injection Hrun as <- _. rewrite Hs8. cbn [workflowCache set_active].
    unfold getWorkflow in Hw. destruct (cache_Get (now E) _ _) as [v|err] eqn:Hget.
    - apply Memory.get_nothing in Hget as ->. injection Hw as _ <-. done.
    - destruct (repo_Get _ _ _) as [w'|err']; [|done]. injection Hw as <- _.
      exists None. apply Memory.set_get; [reflexivity|done]. }
  unfold refused_as_inactive, ExecuteWorkflow, mbind, M_bind. unfold lift at 1. rewrite Hrate, existing_execution_none.
  unfold wrapping at 1. rewrite (getWorkflow_hit _ _ _ _ Hv). done.
Qed.
End results.

(** ** Examples *)

Definition release_rows : Table.Rows := Table.MkRows (<[3%N := two_steps]> ∅) ∅.

#[local] Existing Instances plain_encoding decimal_uuids.

Definition first_call : state Table.Rows (Memory.MemoryCache cached) * res Execution.t :=
  ExecuteWorkflow (calm 10 8%N) 3%N ∅ "key" (NewWorkflowService release_rows).

Lemma second_execution_refused_witness :
  is_returns first_call.2 = true /\
  ExecuteWorkflow (calm 11 9%N) 3%N ∅ "key" first_call.1
    = (first_call.1, Fails (WorkflowNotActiveError 3%N)).
Proof.
  assert (is_returns first_call.2 = true) as Hok by (vm_compute; reflexivity).
  split; [exact Hok|]. destruct first_call as [s1 [e|err|]] eqn:Hf; [|discriminate Hok..].
  refine (second_execution_refused (calm 10 8%N) (calm 11 9%N) _ s1 3%N ∅ ∅ "key" "key" e Hf eq_refl _).
  vm_compute. discriminate.
Defined.

Lemma first_reached :
  rtc step (NewWorkflowService release_rows)
    (serve (calm 10 8%N) (RExecuteWorkflow 3%N ∅ "key") (NewWorkflowService release_rows)).1.
Proof. apply rtc_once, step_serve. Qed.

Lemma executions_never_finish_witness :
  exists row, Table.executions
      (repo (serve (calm 10 8%N) (RExecuteWorkflow 3%N ∅ "key") (NewWorkflowService release_rows)).1)
      !! 8%N = Some row /\
    Table.status row ∈ ["pending"; "running"; "paused"; "cancelled"].
Proof.
  destruct (Table.executions
      (repo (serve (calm 10 8%N) (RExecuteWorkflow 3%N ∅ "key") (NewWorkflowService release_rows)).1)
      !! 8%N) as [row|] eqn:Hrow; [|vm_compute in Hrow; discriminate Hrow].
  exists row. split; [reflexivity|].
  exact (executions_never_finish release_rows _ eq_refl first_reached 8%N row Hrow).
Defined.

(** The update of the workflow is outside of the transaction: when the commit fails there is
    no execution, but the version of the workflow has gone up. *)
Definition failing_commit : env :=
  MkEnv 10 1%N "agent" 8%N (λ _ _, None) (λ _, Returns ()) None (Ok ()) (Err (External "conn"))
    (λ _, Returns ()) (λ _, Returns ()) (λ _, "error") (λ _ _, Ok true)
    (λ m, map_to_list m) (λ e _, (e, Returns ∅)).

Example failed_commit_bumps_version :
  let '(s, r) := ExecuteWorkflow failing_commit 3%N ∅ "" (NewWorkflowService release_rows) in
  is_returns r = false /\ Table.executions (repo s) !! 8%N = None /\
  Workflow.Version <$> Table.workflows (repo s) !! 3%N = Some 2.
Proof. by vm_compute. Qed.
