(* ===== verification/TaskModels.v ===== *)
(** * TaskModels: tasks ([pkg/models/task.go])

    A [Result] that is nil differs from an empty one, since the code tests it and writes to it;
    nil [Parameters] are empty.  Computed fields that no column stores are left out. *)

From stdpp Require Import base decidable gmap strings list.
From Stdlib Require Import ZArith Lia.
From S2P Require Import Prelude GoAny ServiceErrors Storage.

Local Open Scope string_scope.
Local Open Scope Z_scope.

Definition TaskStatusPending : string := "pending".
Definition TaskStatusAssigned : string := "assigned".
Definition TaskStatusAccepted : string := "accepted".
Definition TaskStatusRejected : string := "rejected".
Definition TaskStatusInProgress : string := "in_progress".
Definition TaskStatusCompleted : string := "completed".
Definition TaskStatusFailed : string := "failed".
Definition TaskStatusCancelled : string := "cancelled".
Definition TaskStatusTimeout : string := "timeout".

Definition TaskPriorityLow : string := "low".
Definition TaskPriorityNormal : string := "normal".
Definition TaskPriorityHigh : string := "high".
Definition TaskPriorityCritical : string := "critical".

Definition AgentStatusActive : string := "active".

Module Task.
Record t := Mk {
  ID : UUID;
  TenantID : UUID;
  Type_ : string;
  Status : string;
  Priority : string;
  CreatedBy : string;
  AssignedTo : option string;
  ParentTaskID : option UUID;
  Title : string;
  Description : string;
  Parameters : JSONMap;
  Result : option JSONMap;
  Error : string;
  MaxRetries : Z;
  RetryCount : Z;
  TimeoutSeconds : Z;
  CreatedAt : Z;
  AssignedAt : option Z;
  StartedAt : option Z;
  CompletedAt : option Z;
  UpdatedAt : Z;
  DeletedAt : option Z;
  Version : Z;
}.

(** Assignments to one field. *)
Definition set_ID (x : UUID) (e : t) : t :=
  Mk x (TenantID e) (Type_ e) (Status e) (Priority e) (CreatedBy e) (AssignedTo e) (ParentTaskID
     e) (Title e) (Description e) (Parameters e) (Result e) (Error e) (MaxRetries e) (RetryCount
     e) (TimeoutSeconds e) (CreatedAt e) (AssignedAt e) (StartedAt e) (CompletedAt e) (UpdatedAt
     e) (DeletedAt e) (Version e).
Definition set_TenantID (x : UUID) (e : t) : t :=
  Mk (ID e) x (Type_ e) (Status e) (Priority e) (CreatedBy e) (AssignedTo e) (ParentTaskID e)
     (Title e) (Description e) (Parameters e) (Result e) (Error e) (MaxRetries e) (RetryCount e)
     (TimeoutSeconds e) (CreatedAt e) (AssignedAt e) (StartedAt e) (CompletedAt e) (UpdatedAt e)
     (DeletedAt e) (Version e).
Definition set_Status (x : string) (e : t) : t :=
  Mk (ID e) (TenantID e) (Type_ e) x (Priority e) (CreatedBy e) (AssignedTo e) (ParentTaskID e)
     (Title e) (Description e) (Parameters e) (Result e) (Error e) (MaxRetries e) (RetryCount e)
     (TimeoutSeconds e) (CreatedAt e) (AssignedAt e) (StartedAt e) (CompletedAt e) (UpdatedAt e)
     (DeletedAt e) (Version e).
Definition set_Priority (x : string) (e : t) : t :=
  Mk (ID e) (TenantID e) (Type_ e) (Status e) x (CreatedBy e) (AssignedTo e) (ParentTaskID e)
     (Title e) (Description e) (Parameters e) (Result e) (Error e) (MaxRetries e) (RetryCount e)
     (TimeoutSeconds e) (CreatedAt e) (AssignedAt e) (StartedAt e) (CompletedAt e) (UpdatedAt e)
     (DeletedAt e) (Version e).
Definition set_CreatedBy (x : string) (e : t) : t :=
  Mk (ID e) (TenantID e) (Type_ e) (Status e) (Priority e) x (AssignedTo e) (ParentTaskID e)
     (Title e) (Description e) (Parameters e) (Result e) (Error e) (MaxRetries e) (RetryCount e)
     (TimeoutSeconds e) (CreatedAt e) (AssignedAt e) (StartedAt e) (CompletedAt e) (UpdatedAt e)
     (DeletedAt e) (Version e).
Definition set_AssignedTo (x : option string) (e : t) : t :=
  Mk (ID e) (TenantID e) (Type_ e) (Status e) (Priority e) (CreatedBy e) x (ParentTaskID e)
     (Title e) (Description e) (Parameters e) (Result e) (Error e) (MaxRetries e) (RetryCount e)
     (TimeoutSeconds e) (CreatedAt e) (AssignedAt e) (StartedAt e) (CompletedAt e) (UpdatedAt e)
     (DeletedAt e) (Version e).
Definition set_Parameters (x : JSONMap) (e : t) : t :=
  Mk (ID e) (TenantID e) (Type_ e) (Status e) (Priority e) (CreatedBy e) (AssignedTo e)
     (ParentTaskID e) (Title e) (Description e) x (Result e) (Error e) (MaxRetries e)
     (RetryCount e) (TimeoutSeconds e) (CreatedAt e) (AssignedAt e) (StartedAt e) (CompletedAt
     e) (UpdatedAt e) (DeletedAt e) (Version e).
Definition set_Result (x : option JSONMap) (e : t) : t :=
  Mk (ID e) (TenantID e) (Type_ e) (Status e) (Priority e) (CreatedBy e) (AssignedTo e)
     (ParentTaskID e) (Title e) (Description e) (Parameters e) x (Error e) (MaxRetries e)
     (RetryCount e) (TimeoutSeconds e) (CreatedAt e) (AssignedAt e) (StartedAt e) (CompletedAt
     e) (UpdatedAt e) (DeletedAt e) (Version e).
Definition set_Error (x : string) (e : t) : t :=
  Mk (ID e) (TenantID e) (Type_ e) (Status e) (Priority e) (CreatedBy e) (AssignedTo e)
     (ParentTaskID e) (Title e) (Description e) (Parameters e) (Result e) x (MaxRetries e)
     (RetryCount e) (TimeoutSeconds e) (CreatedAt e) (AssignedAt e) (StartedAt e) (CompletedAt
     e) (UpdatedAt e) (DeletedAt e) (Version e).
Definition set_MaxRetries (x : Z) (e : t) : t :=
  Mk (ID e) (TenantID e) (Type_ e) (Status e) (Priority e) (CreatedBy e) (AssignedTo e)
     (ParentTaskID e) (Title e) (Description e) (Parameters e) (Result e) (Error e) x
     (RetryCount e) (TimeoutSeconds e) (CreatedAt e) (AssignedAt e) (StartedAt e) (CompletedAt
     e) (UpdatedAt e) (DeletedAt e) (Version e).
Definition set_RetryCount (x : Z) (e : t) : t :=
  Mk (ID e) (TenantID e) (Type_ e) (Status e) (Priority e) (CreatedBy e) (AssignedTo e)
     (ParentTaskID e) (Title e) (Description e) (Parameters e) (Result e) (Error e) (MaxRetries
     e) x (TimeoutSeconds e) (CreatedAt e) (AssignedAt e) (StartedAt e) (CompletedAt e)
     (UpdatedAt e) (DeletedAt e) (Version e).
Definition set_TimeoutSeconds (x : Z) (e : t) : t :=
  Mk (ID e) (TenantID e) (Type_ e) (Status e) (Priority e) (CreatedBy e) (AssignedTo e)
     (ParentTaskID e) (Title e) (Description e) (Parameters e) (Result e) (Error e) (MaxRetries
     e) (RetryCount e) x (CreatedAt e) (AssignedAt e) (StartedAt e) (CompletedAt e) (UpdatedAt
     e) (DeletedAt e) (Version e).
Definition set_CreatedAt (x : Z) (e : t) : t :=
  Mk (ID e) (TenantID e) (Type_ e) (Status e) (Priority e) (CreatedBy e) (AssignedTo e)
     (ParentTaskID e) (Title e) (Description e) (Parameters e) (Result e) (Error e) (MaxRetries
     e) (RetryCount e) (TimeoutSeconds e) x (AssignedAt e) (StartedAt e) (CompletedAt e)
     (UpdatedAt e) (DeletedAt e) (Version e).
Definition set_AssignedAt (x : option Z) (e : t) : t :=
  Mk (ID e) (TenantID e) (Type_ e) (Status e) (Priority e) (CreatedBy e) (AssignedTo e)
     (ParentTaskID e) (Title e) (Description e) (Parameters e) (Result e) (Error e) (MaxRetries
     e) (RetryCount e) (TimeoutSeconds e) (CreatedAt e) x (StartedAt e) (CompletedAt e)
     (UpdatedAt e) (DeletedAt e) (Version e).
Definition set_StartedAt (x : option Z) (e : t) : t :=
  Mk (ID e) (TenantID e) (Type_ e) (Status e) (Priority e) (CreatedBy e) (AssignedTo e)
     (ParentTaskID e) (Title e) (Description e) (Parameters e) (Result e) (Error e) (MaxRetries
     e) (RetryCount e) (TimeoutSeconds e) (CreatedAt e) (AssignedAt e) x (CompletedAt e)
     (UpdatedAt e) (DeletedAt e) (Version e).
Definition set_CompletedAt (x : option Z) (e : t) : t :=
  Mk (ID e) (TenantID e) (Type_ e) (Status e) (Priority e) (CreatedBy e) (AssignedTo e)
     (ParentTaskID e) (Title e) (Description e) (Parameters e) (Result e) (Error e) (MaxRetries
     e) (RetryCount e) (TimeoutSeconds e) (CreatedAt e) (AssignedAt e) (StartedAt e) x
     (UpdatedAt e) (DeletedAt e) (Version e).
Definition set_UpdatedAt (x : Z) (e : t) : t :=
  Mk (ID e) (TenantID e) (Type_ e) (Status e) (Priority e) (CreatedBy e) (AssignedTo e)
     (ParentTaskID e) (Title e) (Description e) (Parameters e) (Result e) (Error e) (MaxRetries
     e) (RetryCount e) (TimeoutSeconds e) (CreatedAt e) (AssignedAt e) (StartedAt e)
     (CompletedAt e) x (DeletedAt e) (Version e).
Definition set_Version (x : Z) (e : t) : t :=
  Mk (ID e) (TenantID e) (Type_ e) (Status e) (Priority e) (CreatedBy e) (AssignedTo e)
     (ParentTaskID e) (Title e) (Description e) (Parameters e) (Result e) (Error e) (MaxRetries
     e) (RetryCount e) (TimeoutSeconds e) (CreatedAt e) (AssignedAt e) (StartedAt e)
     (CompletedAt e) (UpdatedAt e) (DeletedAt e) x.
Definition set_Title (x : string) (e : t) : t :=
  Mk (ID e) (TenantID e) (Type_ e) (Status e) (Priority e) (CreatedBy e) (AssignedTo e)
     (ParentTaskID e) x (Description e) (Parameters e) (Result e) (Error e) (MaxRetries e)
     (RetryCount e) (TimeoutSeconds e) (CreatedAt e) (AssignedAt e) (StartedAt e) (CompletedAt
     e) (UpdatedAt e) (DeletedAt e) (Version e).
Definition set_Description (x : string) (e : t) : t :=
  Mk (ID e) (TenantID e) (Type_ e) (Status e) (Priority e) (CreatedBy e) (AssignedTo e)
     (ParentTaskID e) (Title e) x (Parameters e) (Result e) (Error e) (MaxRetries e) (RetryCount
     e) (TimeoutSeconds e) (CreatedAt e) (AssignedAt e) (StartedAt e) (CompletedAt e) (UpdatedAt
     e) (DeletedAt e) (Version e).

(** [task.Result[key] = v] for a map that is not nil. *)
Definition add_result (l : list (string * any)) (e : t) : t :=
  set_Result (Some (foldl (λ m kv, <[kv.1 := kv.2]> m) (default ∅ (Result e)) l)) e.
End Task.

(** [models.TaskDelegation]. *)
Module Delegation.
Record t := Mk {
  ID : UUID;
  TaskID : UUID;
  FromAgentID : string;
  ToAgentID : string;
  Reason : string;
  DelegationType : string;
  Metadata : JSONMap;
  DelegatedAt : Z;
}.

Definition stamp (id : UUID) (at_ : Z) (d : t) : t :=
  Mk id (TaskID d) (FromAgentID d) (ToAgentID d) (Reason d) (DelegationType d) (Metadata d) at_.
End Delegation.

(** ** [isValidStatusTransition] *)

Definition validTransitions : list (string * list string) :=
  [(TaskStatusPending, [TaskStatusAssigned; TaskStatusCancelled]);
   (TaskStatusAssigned, [TaskStatusAccepted; TaskStatusRejected; TaskStatusCancelled]);
   (TaskStatusAccepted, [TaskStatusInProgress; TaskStatusCancelled]);
   (TaskStatusRejected, [TaskStatusPending; TaskStatusCancelled]);
   (TaskStatusInProgress, [TaskStatusCompleted; TaskStatusFailed; TaskStatusCancelled]);
   (TaskStatusCompleted, []);
   (TaskStatusFailed, [TaskStatusPending]);
   (TaskStatusCancelled, [])].

Definition isValidStatusTransition (from to : string) : bool :=
  match (list_to_map validTransitions : gmap string (list string)) !! from with
  | Some allowed => existsb (String.eqb to) allowed
  | None => false
  end.
