(* ===== verification/TaskRows.v ===== *)
(** * TaskRows: the task repository on a table

    [pkg/repository/postgres/task_repository.go]: the key of the table is [(id, created_at)],
    so there may be several rows with one identifier; a read answers the first of them, an
    update and a deletion meet all.  Columns that an insert leaves out have the defaults [0] and
    [""], and a [result] that is NULL.  The circuit breaker, the read-through cache and the
    delay between the two connections are left out. *)

From stdpp Require Import base decidable gmap strings list.
From Stdlib Require Import ZArith Lia.
From S2P Require Import Prelude GoSort GoAny ServiceErrors Storage TaskModels.

Local Open Scope string_scope.
Local Open Scope Z_scope.

(** [types.ErrNotFound] and the like are values of their own: none of them is the error of the
    same meaning of [interfaces]. *)
Module types.
Definition ErrNotFound : error := External "types: entity not found".
Definition ErrAlreadyExists : error := External "types: entity already exists".
Definition ErrOptimisticLock : error := External "types: version mismatch".
End types.

(** [models.TaskTree]. *)
Module TaskTree.
Record t := Mk {
  Root : Task.t;
  Children : gmap UUID (list Task.t);
  Depth : nat;
}.
End TaskTree.

(** ** The interface ([interfaces.TaskRepository]) *)

(** An operation that writes fills in fields of the record that it is given. *)
Class TaskRepository (R : Type) := {
  task_Get : database -> UUID -> R -> result error Task.t;
  task_GetForUpdate : database -> UUID -> R -> result error Task.t;
  task_Create : database -> Task.t -> R -> result error (Task.t * R);
  task_Update : database -> Task.t -> R -> result error (Task.t * R);
  task_UpdateWithVersion : database -> Task.t -> Z -> R -> result error (Task.t * R);
  task_Delete : database -> UUID -> R -> result error R;
  task_CreateDelegation : database -> Delegation.t -> R -> result error R;
  task_GetTaskTree : database -> UUID -> nat -> R -> result error (option TaskTree.t);
}.

(** ** The table *)

Module Tasks.

Record Rows := MkRows {
  tasks : list Task.t;
  delegations : list Delegation.t;
}.

Definition set_tasks (l : list Task.t) (r : Rows) : Rows := MkRows l (delegations r).

Section table.
Context {enc : Encoding}.

(** What the columns of an insert give back. *)
Definition inserted (task : Task.t) (parameters : JSONMap) : Task.t :=
  Task.Mk (Task.ID task) (Task.TenantID task) (Task.Type_ task) (Task.Status task)
    (Task.Priority task) (Task.CreatedBy task) (Task.AssignedTo task) (Task.ParentTaskID task)
    (Task.Title task) (Task.Description task) parameters None "" (Task.MaxRetries task) 0
    (Task.TimeoutSeconds task) (db_time (Task.CreatedAt task)) None None None
    (db_time (Task.UpdatedAt task)) None 1.

Definition marshal_result (m : option JSONMap) : result error (option JSONMap) :=
  match m with
  | None => Ok None
  | Some m => match marshal m "result" with Ok m => Ok (Some m) | Err e => Err e end
  end.

(** The columns that an update sets; the others keep the value of the row. *)
Definition overwritten (task row : Task.t) (parameters : JSONMap) (res : option JSONMap) : Task.t :=
  Task.Mk (Task.ID row) (Task.TenantID row) (Task.Type_ task) (Task.Status task)
    (Task.Priority task) (Task.CreatedBy row) (Task.AssignedTo task) (Task.ParentTaskID row)
    (Task.Title task) (Task.Description task) parameters res (Task.Error task)
    (Task.MaxRetries row) (Task.RetryCount task) (Task.TimeoutSeconds row) (Task.CreatedAt row)
    (db_time <$> Task.AssignedAt task) (db_time <$> Task.StartedAt task)
    (db_time <$> Task.CompletedAt task) (db_time (Task.UpdatedAt task)) (Task.DeletedAt row)
    (Task.Version task).

Definition live (id : UUID) (task : Task.t) : bool :=
  (Task.ID task =? id)%N && bool_decide (Task.DeletedAt task = None).

Definition lookup (id : UUID) (r : Rows) : option Task.t := List.find (live id) (tasks r).

Definition same_key (task row : Task.t) : bool :=
  (Task.ID row =? Task.ID task)%N && (Task.CreatedAt row =? db_time (Task.CreatedAt task)).

(** An SQL error of a statement is wrapped, not translated. *)
Definition doCreate (d : database) (i : nat) (task : Task.t) (r : Rows) : result error (Task.t * Rows) :=
  let task := Task.set_Version 1 (Task.set_UpdatedAt (db_now d) (Task.set_CreatedAt (db_now d) task)) in
  query d "task_create" i (Wrapped "failed to create task")
    match marshal (Task.Parameters task) "parameters" with
    | Err e => Err (Wrapped "failed to create task" e)
    | Ok parameters =>
        if existsb (same_key task) (tasks r) then Err types.ErrAlreadyExists
        else Ok (task, set_tasks (tasks r ++ [inserted task parameters])%list r)
    end.

(** [isRetryableError] tests the error itself, and [doCreate] has wrapped it: only the text of
    a connection error gets through. *)
Definition isRetryableError (err : error) : bool :=
  match cause err with
  | External name => existsb (String.eqb name) ["connection refused"; "connection reset"; "broken pipe"]
  | _ => false
  end.

Fixpoint createWithRetry (n i : nat) (err : error) (d : database) (task : Task.t) (r : Rows)
    : result error (Task.t * Rows) :=
  match n with
  | O => Err err
  | S n =>
      match doCreate d i task r with
      | Ok x => Ok x
      | Err err => if isRetryableError err then createWithRetry n (S i) err d task r else Err err
      end
  end.

Definition Create (d : database) (task : Task.t) (r : Rows) : result error (Task.t * Rows) :=
  createWithRetry maxRetries 0 (External "<nil>") d task r.

Definition Get (d : database) (id : UUID) (r : Rows) : result error Task.t :=
  query d "task_get" 0 (Wrapped "failed to get task")
    match lookup id r with Some task => Ok task | None => Err types.ErrNotFound end.

(** The row lock ends with the statement: it is not inside of a transaction. *)
Definition GetForUpdate (d : database) (id : UUID) (r : Rows) : result error Task.t :=
  query d "task_get_for_update" 0 (Wrapped "failed to get task for update")
    match lookup id r with Some task => Ok task | None => Err types.ErrNotFound end.

(** The rows of a task that satisfy [when], with the columns of [task]. *)
Definition update_rows (when_ : Task.t -> bool) (task : Task.t) (parameters : JSONMap)
    (res : option JSONMap) (r : Rows) : Rows :=
  set_tasks ((λ row, if live (Task.ID task) row && when_ row
                     then overwritten task row parameters res else row) <$> tasks r) r.

Definition doUpdate (d : database) (operation : string) (when_ : Task.t -> bool) (missing : error)
    (task : Task.t) (r : Rows) : result error (Task.t * Rows) :=
  query d operation 0 (Wrapped "failed to update task")
    match marshal (Task.Parameters task) "parameters", marshal_result (Task.Result task) with
    | Ok parameters, Ok res =>
        match lookup (Task.ID task) r with
        | None => Err types.ErrNotFound
        | Some _ =>
            if existsb (λ row, live (Task.ID task) row && when_ row) (tasks r)
            then Ok (task, update_rows when_ task parameters res r) else Err missing
        end
    | Err e, _ | _, Err e => Err (Wrapped "failed to update task" e)
    end.

Definition Update (d : database) (task : Task.t) (r : Rows) : result error (Task.t * Rows) :=
  doUpdate d "task_update" (λ _, true) types.ErrNotFound
    (Task.set_UpdatedAt (db_now d) (Task.set_Version (i64 (Task.Version task + 1)) task)) r.

Definition UpdateWithVersion (d : database) (task : Task.t) (expectedVersion : Z) (r : Rows)
    : result error (Task.t * Rows) :=
  doUpdate d "task_update_with_version" (λ row, Task.Version row =? expectedVersion)
    types.ErrOptimisticLock
    (Task.set_UpdatedAt (db_now d) (Task.set_Version (i64 (expectedVersion + 1)) task)) r.

Definition child_of (id : UUID) (task : Task.t) : bool :=
  bool_decide (Task.ParentTaskID task = Some id) && bool_decide (Task.DeletedAt task = None).

Definition Delete (d : database) (id : UUID) (r : Rows) : result error Rows :=
  query d "delete_task" 0 (λ e, e)
    (if existsb (child_of id) (tasks r) then Err (Errorf (Text "cannot delete task with active subtasks"))
     else
       match lookup id r with
       | None => Err types.ErrNotFound
       | Some _ => Ok (set_tasks (filter (λ row, (Task.ID row =? id)%N = false) (tasks r)) r)
       end).

Definition CreateDelegation (d : database) (x : Delegation.t) (r : Rows) : result error Rows :=
  query d "create_delegation" 0 (Wrapped "failed to create delegation") (Ok (MkRows (tasks r) (delegations r ++ [x])%list)).

(** [ORDER BY created_at ASC]. *)
Definition GetSubtasks (d : database) (parent : UUID) (r : Rows) : result error (list Task.t) :=
  query d "get_subtasks" 0 (Wrapped "failed to get subtasks")
    (Ok (foldr (insert_sorted (λ a b, Task.CreatedAt a <? Task.CreatedAt b)) []
           (filter (λ task, child_of parent task = true) (tasks r)))).

(** [depth] levels are left: the recursion of the code is bounded by [maxDepth]. *)
Fixpoint loadTaskChildren (depth : nat) (d : database) (maxDepth : nat) (parent : UUID) (r : Rows)
    (tree : TaskTree.t) : result error TaskTree.t :=
  match depth with
  | O => Ok tree
  | S depth =>
      match GetSubtasks d parent r with
      | Err e => Err e
      | Ok [] => Ok tree
      | Ok children =>
          let tree := TaskTree.Mk (TaskTree.Root tree) (<[parent := children]> (TaskTree.Children tree))
                        (Nat.max (TaskTree.Depth tree) (maxDepth - depth)) in
          foldl (λ acc child,
            match acc with
            | Ok tree => loadTaskChildren depth d maxDepth (Task.ID child) r tree
            | Err e => Err e
            end) (Ok tree) children
      end
  end.

Definition GetTaskTree (d : database) (root : UUID) (maxDepth : nat) (r : Rows)
    : result error (option TaskTree.t) :=
  match Get d root r with
  | Err e => Err e
  | Ok task =>
      match loadTaskChildren maxDepth d maxDepth root r (TaskTree.Mk task ∅ 0) with
      | Ok tree => Ok (Some tree)
      | Err e => Err e
      end
  end.

#[global] Instance tasks_repository : TaskRepository Rows := {
  task_Get := Get;
  task_GetForUpdate := GetForUpdate;
  task_Create := Create;
  task_Update := Update;
  task_UpdateWithVersion := UpdateWithVersion;
  task_Delete := Delete;
  task_CreateDelegation := CreateDelegation;
  task_GetTaskTree := GetTaskTree;
}.
End table.
End Tasks.
