(* ===== verification/Assignment.v ===== *)
(** * Assignment: which agent gets a task

    [pkg/services/assignment_engine.go]: the filters that make an agent eligible, the choice
    of a strategy, and the five strategies.  The engine keeps a round-robin counter and two
    caches; [now] is the instant of a call, [pick n] what [rand.Intn(n)] answers, and
    [slice_sort] is [sort.Slice] with its contract.  Log lines and metrics are left out. *)

From stdpp Require Import base decidable gmap strings list sorting.
From Stdlib Require Import ZArith Lia.
From S2P Require Import Prelude GoFloat GoSort GoStrings GoAny ServiceErrors ServiceInterfaces.
From S2P Require Import Storage ServiceMonad TaskModels.

Local Open Scope string_scope.
Local Open Scope Z_scope.

(** [models.AgentPerformance], without the metrics by type of task. *)
Module Performance.
Record t := Mk {
  TasksCompleted : Z;
  TasksFailed : Z;
  AverageCompletionTime : float64;
  SuccessRate : float64;
  LoadFactor : float64;
  SpeedScore : float64;
}.
End Performance.

Record engine := MkEngine {
  counter : Z;
  workloadCache : gmap string (Workload.t * Z);
  performanceCache : gmap string (Performance.t * Z);
}.

Definition NewAssignmentEngine : engine := MkEngine 0 ∅ ∅.

Notation M := (ServiceMonad.M engine).

(** Constants of the source. *)
Definition tenths (n : Z) : float64 := f64_const n 10.
Definition hundredths (n : Z) : float64 := f64_const n 100.

(** ** Required capabilities *)

Definition with_field (m : JSONMap) (key prefix : string) : list string :=
  match as_string (field m key) with Some s => [prefix +:+ s] | None => [] end.

Definition extractRequiredCapabilities (task : Task.t) : list string :=
  ((if String.eqb (Task.Type_ task) "" then [] else [Task.Type_ task]) ++
   match as_list (field (Task.Parameters task) "required_capabilities") with
   | Some l => omap as_string l
   | None => []
   end ++
   with_field (Task.Parameters task) "language" "lang:" ++
   with_field (Task.Parameters task) "environment" "env:" ++
   with_field (Task.Parameters task) "tool" "tool:")%list.

(** ["all"] stands for every capability. *)
Definition has_capability (capSet : list string) (req : string) : bool :=
  bool_decide (req ∈ capSet) || bool_decide ("all" ∈ capSet).

Definition hasRequiredCapabilities (agent : Agent.t) (agentCaps requiredCaps : list string) : bool :=
  forallb (has_capability (agentCaps ++ Agent.Capabilities agent)%list) requiredCaps.

Section engine.
Context {agents_of : AgentService} {sorter : SliceSort}.
Context (ruleEngine : option Rules.Engine) (now : Z) (pick : nat -> nat).

(** ** Eligible agents *)

Definition cacheDuration : Z := 30 * second.

Definition overloaded_score (w : Workload.t) : bool := f64_lt (tenths 8) (Workload.LoadScore w).

(** A cached workload is tested by its score alone, a fresh one also by its active tasks. *)
Definition isAgentOverloaded (agentID : string) : M bool := λ e,
  let fresh :=
    match GetAgentWorkload agentID with
    | Err _ => (e, Returns false)
    | Ok w =>
        (MkEngine (counter e) (<[agentID := (w, now)]> (workloadCache e)) (performanceCache e),
         Returns (overloaded_score w || (10 <? Workload.ActiveTasks w)))
    end in
  match workloadCache e !! agentID with
  | Some (w, timestamp) =>
      if time_sub now timestamp <? cacheDuration then (e, Returns (overloaded_score w)) else fresh
  | None => fresh
  end.

Definition eligible (task : Task.t) (agent : Agent.t) : M bool :=
  if negb (Agent.TenantID agent =? Task.TenantID task)%N then ret false
  else if negb (String.eqb (Agent.Status agent) AgentStatusActive) then ret false
  else
    match GetAgentCapabilities (Agent.ID agent) with
    | Err _ => ret false
    | Ok capabilities =>
        if hasRequiredCapabilities agent capabilities (extractRequiredCapabilities task)
        then isAgentOverloaded (Agent.ID agent) ≫= λ overloaded : bool, ret (negb overloaded)
        else ret false
    end.

Fixpoint filter_agents (test : Agent.t -> M bool) (agents : list Agent.t) : M (list Agent.t) :=
  match agents with
  | [] => ret []
  | agent :: agents =>
      test agent ≫= λ ok : bool,
      filter_agents test agents ≫= λ rest,
      ret (if ok then agent :: rest else rest)
  end.

(** The log line for a refused agent reads the reason of the decision: a nil one panics. *)
Fixpoint allowed_by (r : Rules.Engine) (rules : list Rules.Rule) (agent : Agent.t) : M bool :=
  match rules with
  | [] => ret true
  | rule :: rules =>
      match Rules.Evaluate r (Rules.ID rule) (Some agent) with
      | Err _ => ret false
      | Ok None => panic
      | Ok (Some decision) =>
          if Rules.Allowed decision then allowed_by r rules agent else ret false
      end
  end.

Definition getEligibleAgents (task : Task.t) (rules : list Rules.Rule) : M (list Agent.t) :=
  match GetAvailableAgents with
  | Err e => throw (Wrapped "failed to get available agents" e)
  | Ok agents =>
      filter_agents (eligible task) agents ≫= λ eligibleAgents,
      match ruleEngine with
      | Some r => filter_agents (allowed_by r rules) eligibleAgents
      | None => ret eligibleAgents
      end
  end.

(** ** Strategies *)

Inductive strategy := RoundRobin | LeastLoaded | CapabilityMatch | PerformanceBased | CostOptimized.

Definition registered : list (string * strategy) :=
  [("round_robin", RoundRobin); ("least_loaded", LeastLoaded); ("capability_match", CapabilityMatch);
   ("performance_based", PerformanceBased); ("cost_optimized", CostOptimized)].

Definition strategy_named (name : string) : option strategy :=
  (list_to_map registered : gmap string strategy) !! name.

Definition urgent (task : Task.t) : bool :=
  String.eqb (Task.Priority task) TaskPriorityHigh || String.eqb (Task.Priority task) TaskPriorityCritical.

(** The first rule about assignment that is allowed and names a strategy. *)
Fixpoint rule_strategy (r : Rules.Engine) (rules : list Rules.Rule) : option strategy :=
  match rules with
  | [] => None
  | rule :: rules =>
      let this :=
        if String.eqb (Rules.Name rule) "assignment_strategy" || String.eqb (Rules.Category rule) "assignment"
        then
          match Rules.Evaluate r (Rules.ID rule) None with
          | Ok (Some decision) =>
              if Rules.Allowed decision
              then as_string (field (Rules.Metadata decision) "strategy") ≫= strategy_named
              else None
          | _ => None
          end
        else None in
      match this with Some s => Some s | None => rule_strategy r rules end
  end.

Definition type_strategy (task : Task.t) : strategy :=
  let among l := existsb (String.eqb (Task.Type_ task)) l in
  if among ["build"; "deploy"] then LeastLoaded
  else if among ["test"] then CapabilityMatch
  else if among ["monitor"; "health_check"] then RoundRobin
  else if among ["backup"; "restore"] then PerformanceBased
  else if among ["data_processing"; "analysis"] then
    match as_int (field (Task.Parameters task) "data_size") with
    | Some dataSize => if 1000000 <? dataSize then CostOptimized else LeastLoaded
    | None => LeastLoaded
    end
  else CapabilityMatch.

Definition determineStrategy (task : Task.t) (rules : list Rules.Rule) : strategy :=
  if urgent task then PerformanceBased
  else if default false (as_bool (field (Task.Parameters task) "cost_sensitive")) then CostOptimized
  else
    match (match ruleEngine with Some r => rule_strategy r rules | None => None end) with
    | Some s => s
    | None => type_strategy task
    end.

(** *** Round robin *)

Definition assign_round_robin (agents : list Agent.t) : M Agent.t := λ e,
  let index := counter e mod Z.of_nat (List.length agents) in
  (MkEngine (u64 (counter e + 1)) (workloadCache e) (performanceCache e),
   match agents !! Z.to_nat index with Some agent => Returns agent | None => Panics end).

(** *** Least loaded *)

Definition load_score (agent : Agent.t) : float64 :=
  let w := match GetAgentWorkload (Agent.ID agent) with
           | Ok w => w
           | Err _ => Workload.Mk 0 0 (tenths 1)
           end in
  let loadScore := f64_add (f64_mul (f64_of_Z (Workload.ActiveTasks w)) (tenths 7))
                           (f64_mul (f64_of_Z (Workload.QueuedTasks w)) (tenths 3)) in
  if f64_lt (f64_of_Z 0) (Workload.LoadScore w)
  then f64_div (f64_add loadScore (f64_mul (Workload.LoadScore w) (f64_of_Z 100))) (f64_of_Z 2)
  else loadScore.

Definition by_score (a b : Agent.t * float64) : bool := f64_lt a.2 b.2.
Definition by_score_desc (a b : Agent.t * float64) : bool := f64_lt b.2 a.2.

(** The agents at the head of the sorted list that share its score. *)
Fixpoint candidates (minLoad : float64) (l : list (Agent.t * float64)) : list (Agent.t * float64) :=
  match l with
  | [] => []
  | al :: l => if f64_eq al.2 minLoad then al :: candidates minLoad l else []
  end.

Definition first_of {A} (l : list (A * float64)) : res A :=
  match l with [] => Panics | x :: _ => Returns x.1 end.

Definition assign_least_loaded (agents : list Agent.t) : res Agent.t :=
  let sorted := slice_sort by_score ((λ agent, (agent, load_score agent)) <$> agents) in
  match sorted with
  | [] => Panics
  | al :: _ =>
      let c := candidates al.2 sorted in
      let selectedIndex := if (1 <? List.length c)%nat then pick (List.length c) else O in
      match c !! selectedIndex with Some al => Returns al.1 | None => Panics end
  end.

(** *** Capability match *)

Definition relevance : list (string * list string) :=
  [("build", ["docker"; "maven"; "gradle"; "npm"; "go"; "make"]);
   ("test", ["junit"; "pytest"; "jest"; "go-test"; "selenium"]);
   ("deploy", ["kubernetes"; "docker"; "terraform"; "ansible"; "helm"]);
   ("monitor", ["prometheus"; "grafana"; "datadog"; "newrelic"])].

Definition isRelevantCapability (capability taskType : string) : bool :=
  String.eqb capability taskType ||
  match (list_to_map relevance : gmap string (list string)) !! taskType with
  | Some relevantCaps => existsb (String.eqb capability) relevantCaps
  | None => false
  end.

(** Only the capabilities on the agent's own record count here. *)
Definition matched (agent : Agent.t) (requiredCaps : list string) : list string :=
  filter (λ req, has_capability (Agent.Capabilities agent) req = true) requiredCaps.
Definition missing_caps (agent : Agent.t) (requiredCaps : list string) : list string :=
  filter (λ req, has_capability (Agent.Capabilities agent) req = false) requiredCaps.

Definition extra_score (task : Task.t) (requiredCaps : list string) (agent : Agent.t) : float64 :=
  let sum := foldl (λ acc cap,
    if isRelevantCapability cap (Task.Type_ task) && negb (existsb (String.eqb cap) requiredCaps)
    then f64_add acc (tenths 1) else acc) (f64_of_Z 0) (Agent.Capabilities agent) in
  if f64_lt (tenths 3) sum then tenths 3 else sum.

Definition capability_score (task : Task.t) (agent : Agent.t) : float64 :=
  let requiredCaps := extractRequiredCapabilities task in
  f64_add (f64_div (f64_of_Z (Z.of_nat (List.length (matched agent requiredCaps))))
                   (f64_of_Z (Z.of_nat (List.length requiredCaps))))
          (extra_score task requiredCaps agent).

Definition assign_capability (task : Task.t) (agents : list Agent.t) : res Agent.t :=
  let sorted := slice_sort by_score_desc ((λ agent, (agent, capability_score task agent)) <$> agents) in
  match filter (λ al, missing_caps al.1 (extractRequiredCapabilities task) = []) sorted with
  | [] => Fails ErrNoCapableAgent
  | al :: _ => Returns al.1
  end.

(** *** Performance *)

Definition defaults_performance : Performance.t :=
  Performance.Mk 0 0 (f64_of_Z 300) (tenths 8) (tenths 5) (tenths 7).

Definition of_workload (agentID : string) : float64 * float64 :=
  match GetAgentWorkload agentID with
  | Ok w =>
      (Workload.LoadScore w,
       if f64_lt (Workload.LoadScore w) (tenths 3) then tenths 9
       else if f64_lt (Workload.LoadScore w) (tenths 7) then tenths 7 else tenths 5)
  | Err _ => (tenths 5, tenths 7)
  end.

(** The part that reads the agent's metadata. *)
Definition of_metadata (m : gmap string any) (load speed : float64) (taskType : string) : Performance.t :=
  let completed := match as_float (field m "tasks_completed") with Some x => f64_to_int x | None => 0 end in
  let failed := match as_float (field m "tasks_failed") with Some x => f64_to_int x | None => 0 end in
  let success :=
    if 0 <? completed
    then f64_div (f64_of_Z (i64 (completed - failed))) (f64_of_Z completed) else tenths 8 in
  let avg := default (f64_of_Z 300) (as_float (field m "avg_completion_time")) in
  let metrics := as_map (field m "task_type_metrics") ≫= λ tt, as_map (field tt taskType) in
  let positive key otherwise :=
    match metrics ≫= λ mm, as_float (field mm key) with
    | Some x => if f64_lt (f64_of_Z 0) x then x else otherwise
    | None => otherwise
    end in
  Performance.Mk completed failed (positive "average_time" avg) (positive "success_rate" success) load speed.

(** Without metadata the default is used, and a log line prints the error of [GetAgent]: if
    there was none, [err.Error()] panics.  A nil agent panics as well. *)
Definition fresh_performance (agentID taskType : string) : res Performance.t :=
  let '(load, speed) := of_workload agentID in
  match GetAgent agentID with
  | Err _ => Returns defaults_performance
  | Ok None => Panics
  | Ok (Some agent) =>
      match Agent.Metadata agent with
      | None => Panics
      | Some m => Returns (of_metadata m load speed taskType)
      end
  end.

Definition performance_key (agentID taskType : string) : string :=
  "perf_" +:+ agentID +:+ "_" +:+ taskType.

Definition getAgentPerformance (agentID taskType : string) : M Performance.t := λ e,
  let key := performance_key agentID taskType in
  let fresh :=
    match fresh_performance agentID taskType with
    | Returns perf =>
        (MkEngine (counter e) (workloadCache e) (<[key := (perf, now)]> (performanceCache e)), Returns perf)
    | r => (e, r)
    end in
  match performanceCache e !! key with
  | Some (perf, timestamp) =>
      if time_sub now timestamp <? 5 * minute then (e, Returns perf) else fresh
  | None => fresh
  end.

Definition calculatePerformance (perf : Performance.t) (task : Task.t) : float64 :=
  let expectedTime := if 0 <? Task.TimeoutSeconds task then f64_of_Z (Task.TimeoutSeconds task)
                      else f64_of_Z 300 in
  let speedScore :=
    if f64_lt (f64_of_Z 0) (Performance.AverageCompletionTime perf) then
      let ratio := f64_div expectedTime (Performance.AverageCompletionTime perf) in
      f64_div (if f64_lt (f64_of_Z 2) ratio then f64_of_Z 2 else ratio) (f64_of_Z 2)
    else Performance.SpeedScore perf in
  let availabilityScore := f64_sub (f64_of_Z 1) (Performance.LoadFactor perf) in
  let '(successWeight, speedWeight, availabilityWeight) :=
    if urgent task then (hundredths 45, tenths 4, hundredths 15) else (tenths 5, tenths 3, tenths 2) in
  let score := f64_add (f64_add (f64_mul (Performance.SuccessRate perf) successWeight)
                                (f64_mul speedScore speedWeight))
                       (f64_mul availabilityScore availabilityWeight) in
  let score :=
    if (10 <? Performance.TasksFailed perf) && f64_lt (Performance.SuccessRate perf) (tenths 7)
    then f64_mul score (tenths 8) else score in
  let score :=
    if (100 <? Performance.TasksCompleted perf) && f64_lt (hundredths 95) (Performance.SuccessRate perf)
    then f64_mul score (tenths 11) else score in
  if f64_lt (f64_of_Z 1) score then f64_of_Z 1 else score.

Fixpoint score_performances (task : Task.t) (agents : list Agent.t) : M (list (Agent.t * float64)) :=
  match agents with
  | [] => ret []
  | agent :: agents =>
      getAgentPerformance (Agent.ID agent) (Task.Type_ task) ≫= λ perf,
      score_performances task agents ≫= λ rest,
      ret ((agent, calculatePerformance perf task) :: rest)
  end.

Definition assign_performance (task : Task.t) (agents : list Agent.t) : M Agent.t :=
  score_performances task agents ≫= λ performances,
  lift (first_of (slice_sort by_score_desc performances)).

(** *** Cost *)

Definition metadata_float (agent : Agent.t) (key : string) : option float64 :=
  Agent.Metadata agent ≫= λ m, as_float (field m key).

Definition first_float (agent : Agent.t) (keys : list string) : option float64 :=
  head (omap (metadata_float agent) keys).

Definition isFirstTimeTaskType (agent : Agent.t) (taskType : string) : bool :=
  match Agent.Metadata agent with
  | None => true
  | Some m =>
      negb (match as_map (field m "task_history") with
            | Some history => bool_decide (is_Some (history !! taskType))
            | None => false
            end) &&
      negb (match as_int (field m (taskType +:+ "_completed")) with Some count => 0 <? count | None => false end)
  end.

Definition agent_cost (task : Task.t) (agent : Agent.t) : float64 :=
  let hour := f64_of_Z 3600 in
  let defaultHours := match as_float (field (Task.Parameters task) "estimated_duration") with
                      | Some duration => f64_div duration hour
                      | None => f64_of_Z 1
                      end in
  let hourlyRate := default (f64_of_Z 10) (first_float agent ["hourly_rate"; "cost_per_hour"; "rate"]) in
  let hours := match first_float agent ["avg_" +:+ Task.Type_ task +:+ "_time"; "avg_task_time"] with
               | Some avgTime => f64_div avgTime hour
               | None => defaultHours
               end in
  let hours := match metadata_float agent "performance_factor" with
               | Some perfFactor => f64_div hours perfFactor
               | None => hours
               end in
  let cost := f64_mul hourlyRate hours in
  let cost := match metadata_float agent "overhead_cost" with
              | Some overhead => f64_add cost overhead
              | None => cost
              end in
  let cost := match metadata_float agent "setup_cost" with
              | Some setupCost =>
                  if isFirstTimeTaskType agent (Task.Type_ task) then f64_add cost setupCost else cost
              | None => cost
              end in
  match as_float (field (Task.Parameters task) "complexity") with
  | Some complexity => f64_mul cost (f64_add (f64_of_Z 1) (f64_div complexity (f64_of_Z 10)))
  | None => cost
  end.

Definition assign_cost (task : Task.t) (agents : list Agent.t) : res Agent.t :=
  first_of (slice_sort by_score ((λ agent, (agent, agent_cost task agent)) <$> agents)).

Definition Assign (s : strategy) (task : Task.t) (agents : list Agent.t) : M Agent.t :=
  match agents with
  | [] => throw ErrNoEligibleAgents
  | _ =>
      match s with
      | RoundRobin => assign_round_robin agents
      | LeastLoaded => lift (assign_least_loaded agents)
      | CapabilityMatch => lift (assign_capability task agents)
      | PerformanceBased => assign_performance task agents
      | CostOptimized => lift (assign_cost task agents)
      end
  end.

(** ** [FindBestAgent] *)

Definition assignment_rules : res (list Rules.Rule) :=
  match ruleEngine with
  | None => Returns []
  | Some r => match Rules.GetRules r "task.assignment" with Ok l => Returns l | Err e => Fails e end
  end.

Definition FindBestAgent (task : Task.t) : M Agent.t :=
  lift assignment_rules ≫= λ rules,
  getEligibleAgents task rules ≫= λ eligibleAgents,
  match eligibleAgents with
  | [] => throw ErrNoEligibleAgents
  | _ => Assign (determineStrategy task rules) task eligibleAgents
  end.
End engine.

(** ** Laws *)

Section laws.
Context {agents_of : AgentService} {sorter : SliceSort} {sorter_laws : SliceSortLaws}.
Context (ruleEngine : option Rules.Engine) (now : Z) (pick : nat -> nat).

(** What an eligible agent satisfies. *)
Definition suits (task : Task.t) (agent : Agent.t) : Prop :=
  Agent.TenantID agent = Task.TenantID task /\ Agent.Status agent = AgentStatusActive /\
  exists capabilities, GetAgentCapabilities (Agent.ID agent) = Ok capabilities /\
    forall req, req ∈ extractRequiredCapabilities task ->
      req ∈ (capabilities ++ Agent.Capabilities agent)%list \/
      "all" ∈ (capabilities ++ Agent.Capabilities agent)%list.

Lemma eligible_suits task agent e e' : eligible now task agent e = (e', Returns true) -> suits task agent.
Proof.
  unfold eligible. destruct (N.eqb_spec (Agent.TenantID agent) (Task.TenantID task)); [|done].
  destruct (String.eqb_spec (Agent.Status agent) AgentStatusActive); [|done]. cbn [negb].
  destruct (GetAgentCapabilities (Agent.ID agent)) as [capabilities|] eqn:Hc; [|done].
  destruct (hasRequiredCapabilities _ _ _) eqn:Hr; [|done]. intros _.
  split_and!; [done..|]. exists capabilities. split; [done|]. intros req Hin.
  unfold hasRequiredCapabilities in Hr. rewrite forallb_forall in Hr.
  apply list_elem_of_In in Hin. specialize (Hr req Hin). unfold has_capability in Hr.
  rewrite orb_true_iff, !bool_decide_eq_true in Hr. done.
Qed.

Lemma filter_agents_spec (test : Agent.t -> M bool) agents e e' l :
  filter_agents test agents e = (e', Returns l) ->
  forall a, a ∈ l -> a ∈ agents /\ exists e1 e2, test a e1 = (e2, Returns true).
Proof.
  revert e e' l. induction agents as [|agent agents IH]; intros e e' l; cbn [filter_agents].
  { intros [= _ <-] a Ha. by apply elem_of_nil in Ha. }
  rewrite bind_returns. intros (ok & e1 & Ht & Hrun). rewrite bind_returns in Hrun.
  destruct Hrun as (rest & e2 & Hf & Hrun). apply ret_returns in Hrun as [_ ->].
  intros a Ha. destruct ok; [apply elem_of_cons in Ha as [->|Ha]|].
  - split; [by left|]. by exists e, e1.
  - destruct (IH _ _ _ Hf a Ha) as [? ?]. split; [by right|done].
  - destruct (IH _ _ _ Hf a Ha) as [? ?]. split; [by right|done].
Qed.

Lemma allowed_by_all r rules agent e e' :
  allowed_by r rules agent e = (e', Returns true) ->
  forall rule, rule ∈ rules -> exists d, Rules.Evaluate r (Rules.ID rule) (Some agent) = Ok (Some d) /\
    Rules.Allowed d = true.
Proof.
  induction rules as [|x rules IH]; cbn [allowed_by]; [intros _ rule Hin; by apply elem_of_nil in Hin|].
  destruct (Rules.Evaluate r (Rules.ID x) (Some agent)) as [[d|]|] eqn:He; [|done..].
  destruct (Rules.Allowed d) eqn:Hd; [|done]. intros Hrun rule [->|Hin]%elem_of_cons; [|by apply IH].
  by exists d.
Qed.

Lemma first_of_sorted {A} (less : A * float64 -> A * float64 -> bool) l a :
  first_of (slice_sort less l) = Returns a -> exists s, (a, s) ∈ l.
Proof.
  destruct (slice_sort less l) as [|[b s] l'] eqn:Hs; [done|]. intros [= ->]. exists s.
  rewrite <-(slice_sort_perm less l), Hs. by left.
Qed.

Lemma scored_elem (f : Agent.t -> float64) (agents : list Agent.t) (a : Agent.t) (s : float64) :
  (a, s) ∈ (λ agent, (agent, f agent)) <$> agents -> a ∈ agents.
Proof. intros (b & [= -> _] & Hb)%list_elem_of_fmap. done. Qed.

Lemma candidates_elem m l x : x ∈ candidates m l -> x ∈ l /\ f64_eq x.2 m = true.
Proof.
  induction l as [|y l IH]; simpl; [intros H; by apply elem_of_nil in H|].
  destruct (f64_eq y.2 m) eqn:He; [|intros H; by apply elem_of_nil in H].
  intros [->|Hx]%elem_of_cons; [split; [by left|done]|]. destruct (IH Hx). split; [by right|done].
Qed.

Lemma least_loaded_elem agents a : assign_least_loaded pick agents = Returns a -> a ∈ agents.
Proof.
  unfold assign_least_loaded. destruct (slice_sort _ _) as [|al l] eqn:Hs; [done|].
  destruct (candidates al.2 (al :: l) !! _) as [b|] eqn:Hc; [|done]. intros [= <-].
  apply list_elem_of_lookup_2, candidates_elem in Hc as [Hb _]. rewrite <-Hs, slice_sort_perm in Hb.
  destruct b as [b s]. by eapply scored_elem.
Qed.

Lemma score_performances_agents task agents e e' l :
  score_performances now task agents e = (e', Returns l) -> l.*1 = agents.
Proof.
  revert e e' l. induction agents as [|a agents IH]; intros e e' l; cbn [score_performances].
  { by intros [= _ <-]. }
  rewrite bind_returns. intros (perf & e1 & _ & Hrun). rewrite bind_returns in Hrun.
  destruct Hrun as (rest & e2 & Hf & Hrun). apply ret_returns in Hrun as [_ ->].
  rewrite fmap_cons. f_equal. by eapply IH.
Qed.

(** Every strategy picks one of the agents. *)
Lemma assign_elem s task agents e e' a :
  Assign now pick s task agents e = (e', Returns a) -> a ∈ agents.
Proof.
  unfold Assign. destruct agents as [|x agents]; [done|]. generalize (x :: agents). clear x agents.
  intros agents. destruct s.
  - unfold assign_round_robin. destruct (agents !! _) as [b|] eqn:Hb; [|done].
    intros [= _ <-]. by eapply list_elem_of_lookup_2.
  - intros [_ H]%lift_returns. by apply least_loaded_elem.
  - intros [_ H]%lift_returns. unfold assign_capability in H.
    destruct (filter _ _) as [|[b s] l] eqn:Hf; [done|]. injection H as ->.
    assert ((a, s) ∈ filter (λ al, missing_caps al.1 (extractRequiredCapabilities task) = [])
              (slice_sort by_score_desc ((λ agent, (agent, capability_score task agent)) <$> agents)))
      as Hin by (rewrite Hf; left).
    apply list_elem_of_filter in Hin as [_ Hin]. rewrite slice_sort_perm in Hin. by eapply scored_elem.
  - unfold assign_performance. rewrite bind_returns. intros (l & e1 & Hl & Hrun).
    apply lift_returns in Hrun as [_ H]. apply first_of_sorted in H as [s Hin].
    apply score_performances_agents in Hl as <-. apply list_elem_of_fmap. by exists (a, s).
  - intros [_ H]%lift_returns. apply first_of_sorted in H as [s Hin]. by eapply scored_elem.
Qed.

(** The [n]-th of a series of calls. *)
Fixpoint turns (n : nat) (agents : list Agent.t) (e : engine) : list (res Agent.t) :=
  match n with
  | O => []
  | S n => let '(e, r) := assign_round_robin agents e in r :: turns n agents e
  end.

Lemma turns_lookup n agents e j :
  (j < n)%nat -> 0 <= counter e -> counter e + Z.of_nat n <= 2 ^ 64 ->
  turns n agents e !! j =
    Some match agents !! Z.to_nat ((counter e + Z.of_nat j) mod Z.of_nat (List.length agents)) with
         | Some a => Returns a
         | None => Panics
         end.
Proof.
  revert e j. induction n as [|n IH]; intros e j Hj H0 Hn; [lia|]. simpl.
  destruct j as [|j]; simpl; [by rewrite Z.add_0_r|].
  assert (u64 (counter e + 1) = counter e + 1) as Hu by (unfold u64; rewrite Z.mod_small; lia).
  rewrite IH by (cbn [counter]; rewrite ?Hu; lia). cbn [counter]. rewrite Hu.
  by replace (counter e + 1 + Z.of_nat j) with (counter e + Z.of_nat (S j)) by lia.
Qed.
End laws.

(** ** Results *)

Section results.
Context {agents_of : AgentService} {sorter : SliceSort} {sorter_laws : SliceSortLaws}.
Context (ruleEngine : option Rules.Engine) (now : Z) (pick : nat -> nat).

(** C31 The agent that gets a task, whatever the strategy, is an available agent of the tenant of
    the task; it is active, has every capability that the task requires or the wildcard, and
    each rule about assignment allows it. *)
Theorem assigned_agent_suits task e e' agent :
  FindBestAgent ruleEngine now pick task e = (e', Returns agent) ->
  (exists agents, GetAvailableAgents = Ok agents /\ agent ∈ agents) /\ suits task agent /\
  forall r, ruleEngine = Some r -> exists rules, Rules.GetRules r "task.assignment" = Ok rules /\
    forall rule, rule ∈ rules -> exists d,
      Rules.Evaluate r (Rules.ID rule) (Some agent) = Ok (Some d) /\ Rules.Allowed d = true.
Proof.
  unfold FindBestAgent. rewrite bind_returns. intros (rules & e1 & Hrules & Hrun).
  apply lift_returns in Hrules as [-> Hrules]. rewrite bind_returns in Hrun.
  destruct Hrun as (el & e2 & Hel & Hrun).
  assert (agent ∈ el) as Hin by (destruct el; [done|]; by eapply assign_elem). clear Hrun.
  unfold getEligibleAgents in Hel. destruct GetAvailableAgents as [agents|]; [|done].
  rewrite bind_returns in Hel. destruct Hel as (first & e3 & Hfirst & Hel).
  assert (agent ∈ first /\ forall r, ruleEngine = Some r -> forall rule, rule ∈ rules -> exists d,
            Rules.Evaluate r (Rules.ID rule) (Some agent) = Ok (Some d) /\ Rules.Allowed d = true)
    as [Hag Hall].
  { destruct ruleEngine as [r|]; [|by apply ret_returns in Hel as [_ ->]].
    destruct (filter_agents_spec _ _ _ _ _ Hel agent Hin) as (Hf & e4 & e5 & Ht). split; [done|].
    intros r' [= <-]. by eapply allowed_by_all. }
  destruct (filter_agents_spec _ _ _ _ _ Hfirst agent Hag) as (Ha & e6 & e7 & Ht).
  split_and!; [by exists agents|by eapply eligible_suits|].
  intros r ->. exists rules. split; [|by apply Hall]. unfold assignment_rules in Hrules.
  destruct (Rules.GetRules r "task.assignment"); congruence.
Qed.

(** Round robin is fair: as many calls in a row as there are agents pick every one of them once,
    in turn, as long as the counter does not overflow in between. *)
Theorem round_robin_fair agents e :
  agents ≠ [] -> 0 <= counter e -> counter e + Z.of_nat (List.length agents) <= 2 ^ 64 ->
  let k := Z.to_nat (counter e mod Z.of_nat (List.length agents)) in
  turns (List.length agents) agents e = Returns <$> (drop k agents ++ take k agents)%list.
Proof.
  intros Hne H0 Hn k. set (n := List.length agents) in *.
  assert (0 < n)%nat as Hpos by (subst n; destruct agents; simpl; [done|lia]).
  assert (k < n)%nat as Hk by (subst k; pose proof (Z.mod_pos_bound (counter e) (Z.of_nat n)); lia).
  apply list_eq. intros j. rewrite list_lookup_fmap.
  destruct (decide (j < n)%nat) as [Hj|Hj].
  2:{ rewrite !lookup_ge_None_2; [done| |].
      - rewrite length_app, length_drop, length_take. fold n. lia.
      - clear -Hj. revert e j Hj. induction n as [|n IH]; intros e j Hj; simpl; [lia|].
        destruct j; [lia|]. apply le_n_S, IH. lia. }
  rewrite turns_lookup by done. fold n.
  assert (Z.to_nat ((counter e + Z.of_nat j) mod Z.of_nat n) = if decide (j < n - k)%nat then (k + j)%nat else (k + j - n)%nat) as ->.
  { pose proof (Z.div_mod (counter e) (Z.of_nat n) ltac:(lia)) as Hdm.
    pose proof (Z.mod_pos_bound (counter e) (Z.of_nat n) ltac:(lia)) as Hmod.
    replace (counter e + Z.of_nat j)
      with (Z.of_nat (k + j) + (counter e / Z.of_nat n) * Z.of_nat n) by (subst k; lia).
    rewrite Z.mod_add by lia. case_decide.
    - rewrite Z.mod_small; lia.
    - replace (Z.of_nat (k + j)) with (Z.of_nat (k + j - n) + 1 * Z.of_nat n) by lia.
      rewrite Z.mod_add by lia. rewrite Z.mod_small; lia. }
  case_decide.
  - rewrite lookup_app_l by (rewrite length_drop; fold n; lia). rewrite lookup_drop.
    destruct (agents !! (k + j)%nat) eqn:Hl; [done|]. apply lookup_ge_None in Hl. fold n in Hl. lia.
  - rewrite lookup_app_r by (rewrite length_drop; fold n; lia).
    rewrite length_drop. fold n. rewrite lookup_take by lia.
    replace (j - (n - k))%nat with (k + j - n)%nat by lia. rewrite decide_True by lia.
    destruct (agents !! (k + j - n)%nat) eqn:Hl; [done|]. apply lookup_ge_None in Hl. fold n in Hl. lia.
Qed.

(** The least-loaded strategy picks an agent such that no other has a lower score, if the
    scores are numbers, for any answer of the random generator in its range. *)
Theorem least_loaded_minimal agents :
  agents ≠ [] -> (forall a, a ∈ agents -> f64_eq (load_score a) (load_score a) = true) ->
  (forall n, (0 < n)%nat -> (pick n < n)%nat) ->
  exists a, assign_least_loaded pick agents = Returns a /\ a ∈ agents /\
    forall b, b ∈ agents -> f64_lt (load_score b) (load_score a) = false.
Proof.
  intros Hne Hnum Hpick. unfold assign_least_loaded.
  set (scored := (λ agent, (agent, load_score agent)) <$> agents).
  assert (forall x, x ∈ scored -> x.2 = load_score x.1 /\ x.1 ∈ agents) as Hsc
    by (intros x (a & -> & Ha)%list_elem_of_fmap; done).
  assert (orders by_score scored) as Ho.
  { split; unfold by_score.
    - intros x _. apply f64_lt_irrefl.
    - intros x y z _ _ _. apply f64_lt_trans.
    - intros x y z _ _ Hz. destruct (Hsc z Hz) as [-> Hin]. apply f64_lt_split. by apply Hnum. }
  pose proof (slice_sort_sorted by_score scored Ho) as Hsorted.
  pose proof (slice_sort_perm by_score scored) as Hperm.
  destruct (slice_sort by_score scored) as [|al l] eqn:Hs.
  { exfalso. apply Permutation_nil_l in Hperm. subst scored. by destruct agents. }
  assert (al ∈ candidates al.2 (al :: l)) as Hal.
  { simpl. assert (al ∈ scored) as Hin by (rewrite <-Hperm; left).
    destruct (Hsc al Hin) as [-> Hin']. rewrite Hnum by done. by left. }
  set (c := candidates al.2 (al :: l)) in *.
  assert (0 < List.length c)%nat as Hc by (destruct c; [by apply elem_of_nil in Hal|simpl; lia]).
  assert ((if (1 <? List.length c)%nat then pick (List.length c) else O) < List.length c)%nat as Hlt
    by (destruct (_ <? _)%nat; [by apply Hpick|done]).
  apply lookup_lt_is_Some_2 in Hlt as [x Hx]. rewrite Hx. exists x.1. split; [done|].
  apply list_elem_of_lookup_2, candidates_elem in Hx as [Hx Heq].
  rewrite Hperm in Hx. destruct (Hsc x Hx) as [Hxs Hxa]. split; [done|]. intros b Hb.
  rewrite <-Hxs. rewrite (f64_eq_lt_r _ _ _ Heq).
  assert ((b, load_score b) ∈ al :: l) as Hbin.
  { rewrite Hperm. apply list_elem_of_fmap. by exists b. }
  apply StronglySorted_inv in Hsorted as [_ Hall]. apply elem_of_cons in Hbin as [<-|Hbin].
  - apply f64_lt_irrefl.
  - rewrite Forall_forall in Hall. exact (Hall _ Hbin).
Qed.

(** The performance strategy panics as soon as one of the agents has no metadata and no cached
    performance: its log line asks for the text of an error that did not occur. *)
Theorem performance_panics task agents e a record :
  a ∈ agents -> GetAgent (Agent.ID a) = Ok (Some record) -> Agent.Metadata record = None ->
  (forall b, b ∈ agents -> performanceCache e !! performance_key (Agent.ID b) (Task.Type_ task) = None) ->
  NoDup ((λ b, performance_key (Agent.ID b) (Task.Type_ task)) <$> agents) ->
  (Assign now pick PerformanceBased task agents e).2 = Panics.
Proof.
  intros Ha Hget Hmd Hcache Hnd.
  enough ((score_performances now task agents e).2 = Panics) as Hs.
  { unfold Assign. destruct agents as [|x agents]; [by apply elem_of_nil in Ha|].
    unfold assign_performance, mbind, M_bind.
    destruct (score_performances now task (x :: agents) e) as [e1 [l|err|]]; done. }
  revert e Hcache. induction agents as [|x agents IH]; intros e Hcache; [by apply elem_of_nil in Ha|].
  rewrite fmap_cons, NoDup_cons in Hnd. destruct Hnd as [Hx Hnd].
  cbn [score_performances]. unfold mbind, M_bind at 1. unfold getAgentPerformance.
  rewrite (Hcache x) by left. destruct (fresh_performance (Agent.ID x) (Task.Type_ task)) as [perf|err|] eqn:Hf.
  - apply elem_of_cons in Ha as [->|Ha].
    { unfold fresh_performance in Hf. rewrite Hget, Hmd in Hf. by destruct (of_workload _). }
    set (e1 := MkEngine _ _ _).
    assert ((score_performances now task agents e1).2 = Panics) as Hp.
    { apply IH; [done..|]. intros b Hb. cbn. rewrite lookup_insert_ne; [apply Hcache; by right|].
      intros Heq. apply Hx. rewrite Heq. by apply (list_elem_of_fmap_2 (λ b, performance_key (Agent.ID b) (Task.Type_ task))). }
    unfold mbind, M_bind. destruct (score_performances now task agents e1) as [e2 r].
    cbn in Hp. by subst r.
  - unfold fresh_performance in Hf. destruct (of_workload _), (GetAgent (Agent.ID x)) as [[y|]|]; [|done..].
    by destruct (Agent.Metadata y).
  - done.
Qed.
End results.

(** ** Examples *)

(** Agents of tenant 1: ["a"] and ["b"] idle with metadata, ["c"] busy and without. *)
Definition sample_agent (id : string) (metadata : option (gmap string any)) : Agent.t :=
  Agent.Mk id 1%N id "" "" "active" ["build"; "docker"] metadata.
Definition agent_a : Agent.t := sample_agent "a" (Some ∅).
Definition agent_b : Agent.t := sample_agent "b" (Some ∅).
Definition agent_c : Agent.t := sample_agent "c" None.

Definition sample_agents : AgentService := {|
  GetAgent id := if String.eqb id "a" then Ok (Some agent_a) else if String.eqb id "b" then Ok (Some agent_b)
                 else Ok (Some agent_c);
  GetAvailableAgents := Ok [agent_a; agent_b; agent_c];
  GetAgentWorkload id := Ok (Workload.Mk (if String.eqb id "a" then 4 else 1) 0 (f64_of_Z 0));
  GetAgentCapabilities _ := Ok [];
|}.

Definition sample_task (priority : string) : Task.t :=
  Task.Mk 5%N 1%N "build" "pending" priority "agent" None None "t" "" ∅ None "" 3 0 60 0 None None None 0 None 1.

#[local] Existing Instance sample_agents.

Definition found_agent : engine * res Agent.t :=
  FindBestAgent None 10 (λ n, O) (sample_task "normal") NewAssignmentEngine.

Lemma assigned_agent_suits_witness :
  exists e', found_agent = (e', Returns agent_b) /\ suits (sample_task "normal") agent_b.
Proof.
  destruct found_agent as [e' r] eqn:Hf. exists e'.
  assert (r = Returns agent_b) as -> by (change r with (e', r).2; rewrite <-Hf; vm_compute; reflexivity).
  split; [reflexivity|].
  exact (proj1 (proj2 (assigned_agent_suits None 10 (λ n, O) (sample_task "normal") _ _ _ Hf))).
Defined.

Lemma round_robin_fair_witness :
  turns 3 [agent_a; agent_b; agent_c] (MkEngine 4 ∅ ∅) = [Returns agent_b; Returns agent_c; Returns agent_a].
Proof.
  exact (round_robin_fair [agent_a; agent_b; agent_c] (MkEngine 4 ∅ ∅) ltac:(discriminate)
           ltac:(vm_compute; discriminate) ltac:(vm_compute; discriminate)).
Defined.

Lemma least_loaded_minimal_witness :
  exists a, assign_least_loaded (λ n, O) [agent_a; agent_b; agent_c] = Returns a /\
    f64_lt (load_score agent_a) (load_score a) = false.
Proof.
  destruct (least_loaded_minimal (λ n, O) [agent_a; agent_b; agent_c]) as (a & Ha & _ & Hmin).
  - discriminate.
  - intros a Ha. repeat (apply elem_of_cons in Ha as [->|Ha]; [vm_compute; reflexivity|]).
    by apply elem_of_nil in Ha.
  - auto.
  - exists a. split; [exact Ha|]. apply Hmin. by left.
Defined.

Lemma performance_panics_witness :
  (Assign 10 (λ n, O) PerformanceBased (sample_task "high") [agent_a; agent_c] NewAssignmentEngine).2 = Panics.
Proof.
  refine (performance_panics 10 (λ n, O) (sample_task "high") [agent_a; agent_c] NewAssignmentEngine
            agent_c agent_c _ eq_refl eq_refl (λ b _, eq_refl) _).
  - right. by left.
  - apply (bool_decide_eq_true_1 _). vm_compute. reflexivity.
Defined.
