(* ===== verification/RuleAssignment.v ===== *)
(** * RuleAssignment: the assignment of tasks by the rule engine

    [AssignmentEngine] asks [rules.Engine] for the rules of the category
    ["task.assignment"] and then evaluates each of them by its identifier, where the engine
    keeps rules by name.  Together they assign nothing. *)

From stdpp Require Import base decidable gmap strings list pretty.
From Stdlib Require Import ZArith Lia Ascii.
From S2P Require Import Prelude GoFloat GoSort GoStrings GoAny ServiceErrors ServiceInterfaces.
From S2P Require Import Storage ServiceMonad Pool RuleEngine TaskModels Assignment.

Local Open Scope string_scope.
Local Open Scope Z_scope.

Section composition.
Context {uuids : UUIDText}.
Context (other : string -> Z -> string) (range : JSONMap -> list (string * any)).
Context (range_rules : gmap string nat -> list (string * nat)).
Context (score_text : float64 -> string).
(** The data that the assignment engine passes: they may depend on the agent. *)
Context (data : option Agent.t -> any).

Definition as_rule (r : Rule.t) : Rules.Rule := Rules.MkRule (Rule.ID r) (Rule.Name r) (Rule.Category r).

(** The filters are the type of the task and its priority, which [matchesFilters] does not
    look at. *)
Definition filters : JSONMap := list_to_map [("task_type", AString ""); ("priority", AOther "models.TaskPriority" 0)].

(** The engine behind the interface. *)
Definition as_rules (e : RuleEngine.engine) : Rules.Engine :=
  Rules.MkEngine
    (λ category, match GetRules range range_rules category filters e with
                 | Returns l => Ok (as_rule <$> l)
                 | Fails err => Err err
                 | Panics => Ok []
                 end)
    (λ id agent, match Evaluate other score_text (uuid_string id) (data agent) e with
                 | Ok d => Ok (Some d)
                 | Err err => Err err
                 end).

Lemma filters_match e category :
  (forall m, range m ≡ₚ map_to_list m) ->
  exists l, GetRules range range_rules category filters e = Returns l /\
    l = omap (object e) (if String.eqb category "" then (range_rules (names (rules e))).*2
                         else get [] (rulesByCategory e) category).
Proof.
  intros Hr. eexists. split; [|reflexivity]. unfold GetRules. set (l := omap _ _). clearbody l.
  assert (forall r, matchesFilters range r filters = Returns true) as Hm.
  { intros r. unfold matchesFilters.
    assert (forall k v, (k, v) ∈ range filters -> matches_one range r (k, v) = Returns true) as Hone.
    { intros k v. rewrite Hr, elem_of_map_to_list. unfold filters. cbn [list_to_map foldr fst snd].
      rewrite !lookup_insert_Some, lookup_empty. intros [[<- <-]|[_ [[<- <-]|[_ ?]]]]; done. }
    induction (range filters) as [|[k v] l' IH]; [done|]. cbn [matches_all].
    rewrite (Hone k v) by (by left). cbn. apply IH. intros k' v' Hin. apply Hone. by right. }
  induction l as [|r l IH]; [done|]. cbn [select_rules]. rewrite Hm.
  unfold mbind, outcome_bind in *. by rewrite IH.
Qed.

Section assign.
Context {agents_of : AgentService} {sorter : SliceSort} (e : RuleEngine.engine) (now : Z) (pick : nat -> nat).

Lemma filter_none test agents (s : Assignment.engine) :
  (forall agent s', (test agent s').1 = s' /\ (test agent s').2 = Returns false) ->
  filter_agents test agents s = (s, Returns []).
Proof.
  intros Ht. induction agents as [|agent agents IH]; [done|]. cbn [filter_agents]. unfold mbind, M_bind.
  destruct (Ht agent s) as [H1 H2]. destruct (test agent s) as [s1 r]. simpl in H1, H2. subst.
  by rewrite IH.
Qed.

(** No agent is found for any task, as soon as there is one rule for assignments: the rule is
    looked up by its identifier and, unless some rule has an identifier for its name, not
    found, which makes every agent ineligible. *)
Theorem assignment_rules_exclude_all task s :
  (forall m, range m ≡ₚ map_to_list m) ->
  get [] (rulesByCategory e) "task.assignment" ≫= (λ a, option_list (object e a)) ≠ [] ->
  (forall id, names (rules e) !! uuid_string id = None) ->
  forall a, (FindBestAgent (Some (as_rules e)) now pick task s).2 ≠ Returns a.
Proof.
  intros Hr Hne Hno a. unfold FindBestAgent, assignment_rules. cbn [Rules.GetRules as_rules].
  destruct (filters_match e "task.assignment" Hr) as (l & -> & Hl). cbn [String.eqb] in Hl.
  assert (l ≠ []) as Hl' .
  { rewrite Hl. intros H. apply Hne. clear -H. induction (get [] _ _) as [|b bs IH]; [done|]. cbn in *.
    destruct (object e b); [done|]. by apply IH. }
  destruct l as [|r l]; [done|]. unfold mbind at 1, M_bind at 1, lift. cbn [fmap list_fmap].
  unfold getEligibleAgents. destruct GetAvailableAgents as [agents|err]; [|done].
  unfold mbind at 1 2, M_bind at 1 2. destruct (filter_agents _ _ _) as [s1 [eligible_|err|]]; [|done..].
  rewrite filter_none; [done|]. intros agent s'. cbn [allowed_by Rules.Evaluate as_rules Rules.ID as_rule].
  unfold Evaluate. by rewrite Hno.
Qed.
End assign.
End composition.

(** ** Example *)

Definition prefer_large : Rule.t := Rule.Mk 7%N "prefer large" "task.assignment" "1 == 1" 0 true ∅.
Definition one_rule : RuleEngine.engine :=
  LoadRules (λ t _, t) [prefer_large] (RuleEngine.NewEngine (MkConfig false 0 0 0)).

(** Identifiers in another notation than the names of rules. *)
Definition marked (id : UUID) : string := String "#"%char (pretty id).
Lemma marked_inj : Inj (=) (=) marked.
Proof. intros x y [= H]. by apply (inj pretty). Qed.
Definition marked_uuids : UUIDText := {| uuid_string := marked; uuid_string_inj := marked_inj |}.

#[local] Existing Instances marked_uuids sample_agents.

Lemma assignment_rules_exclude_all_witness :
  (FindBestAgent (Some (as_rules (λ t _, t) map_to_list map_to_list (λ _, "") (λ _, ANil) one_rule)) 10 (λ _, O)
     (sample_task "normal") NewAssignmentEngine).2 ≠ Returns agent_b.
Proof.
  refine (assignment_rules_exclude_all (λ t _, t) map_to_list map_to_list (λ _, "") (λ _, ANil)
            one_rule 10 (λ _, O) (sample_task "normal") NewAssignmentEngine _ _ _ agent_b).
  - intros m. reflexivity.
  - vm_compute. discriminate.
  - intros id. change (names (rules one_rule)) with (<["prefer large" := O]> ∅ : gmap string nat).
    rewrite lookup_insert_ne by discriminate. apply lookup_empty.
Defined.

(** Without the rule an agent is found. *)
Example found_without_rules : found_agent.2 = Returns agent_b.
Proof. vm_compute. reflexivity. Qed.
