(* ===== verification/TaskService.v ===== *)
(** * TaskService: the life of a task

    [pkg/services/task_service_impl.go] and the progress tracker of [task_helpers.go]: creating,
    assigning, accepting, rejecting, starting, completing, failing, retrying, delegating and
    cancelling tasks.  The state is the assignment engine, the cache of tasks, the repository
    and the tasks that the tracker watches.  A call happens at one instant.  Notifications,
    log lines, metrics and the statistics cache, which nothing reads, are left out. *)

From stdpp Require Import base decidable gmap strings list relations.
From Stdlib Require Import ZArith Lia.
From S2P Require Import Prelude GoFloat GoSort GoStrings GoAny ServiceErrors ServiceInterfaces.
From S2P Require Import Storage ServiceMonad MemCache Transaction TaskModels TaskRows Assignment.

Local Open Scope string_scope.
Local Open Scope Z_scope.

(** What the cache holds: tasks, and identifiers under idempotency keys. *)
Inductive cached :=
| CTask (task : Task.t)
| CID (id : UUID).

(** [rules.Defaults]. *)
Record Defaults := MkDefaults {
  GetString : string -> string -> string;
  GetInt : string -> Z -> Z;
  GetMap : string -> option JSONMap;
}.

Record Sanitizer := MkSanitizer {
  SanitizeString : string -> string;
  SanitizeJSON : JSONMap -> result error JSONMap;
}.

(** The request context, the clock and the collaborators during one call. *)
Record env := MkEnv {
  now : Z;
  tenantID : UUID;
  agentID : string;
  new_id : UUID;
  db_fault : string -> nat -> option error;
  rate : string -> res unit;
  quota : res unit;
  sanitizer : option Sanitizer;
  authorizer : option Auth.Authorizer;
  permission : option (string -> bool);
  defaults : option (string -> result error Defaults);
  rules : option Rules.Engine;
  auto_rules : result error (list Rules.Rule);
  pick : nat -> nat;
  publish : string -> res unit;
  format_time : Z -> string;
  format_duration : Z -> string;
}.

Record state (R C : Type) := MkState {
  assignmentEngine : engine;
  taskCache : C;
  repo : R;
  tracked : gmap UUID Z;
}.
Arguments MkState {R C}.
Arguments assignmentEngine {R C}.
Arguments taskCache {R C}.
Arguments repo {R C}.
Arguments tracked {R C}.

Section service.
Context {R C : Type} {repository : TaskRepository R} {caching : CacheOps cached C}.
Context {uuids : UUIDText} {agents_of : AgentService} {sorter : SliceSort}.
Notation M := (ServiceMonad.M (state R C)).
Implicit Types s : state R C.
Context (E : env).

Definition db : database := MkDatabase (now E) (db_fault E).

Definition set_cache (c : C) s : state R C := MkState (assignmentEngine s) c (repo s) (tracked s).
Definition set_repo (r : R) s : state R C := MkState (assignmentEngine s) (taskCache s) r (tracked s).
Definition set_tracked (m : gmap UUID Z) s : state R C :=
  MkState (assignmentEngine s) (taskCache s) (repo s) m.

Definition fail_with {A} (message : string) : M A := throw (Errorf (Text message)).
Definition need (b : bool) (message : string) : M unit := guard_ b (Errorf (Text message)).

Definition read {A} (f : R -> result error A) : M A := λ s,
  match f (repo s) with Ok a => (s, Returns a) | Err e => (s, Fails e) end.
Definition write {A} (f : R -> result error (A * R)) : M A := λ s,
  match f (repo s) with Ok (a, r) => (set_repo r s, Returns a) | Err e => (s, Fails e) end.
Definition write_ (f : R -> result error R) : M unit := λ s,
  match f (repo s) with Ok r => (set_repo r s, Returns ()) | Err e => (s, Fails e) end.

(** The engine works on its part of the state. *)
Definition with_engine {A} (m : ServiceMonad.M engine A) : M A := λ s,
  let '(e, r) := m (assignmentEngine s) in (MkState e (taskCache s) (repo s) (tracked s), r).

Definition find_agent (task : Task.t) : M Agent.t :=
  with_engine (FindBestAgent (rules E) (now E) (pick E) task).

Definition task_key (id : UUID) : string := "task:" +:+ uuid_string id.
Definition idem_key (key : string) : string := "idem:" +:+ key.

Definition forget (key : string) : M unit :=
  modify (λ s, set_cache (cache_Delete (now E) key (taskCache s)).2 s).
Definition remember (key : string) (v : cached) (ttl : Z) : M unit :=
  modify (λ s, set_cache (cache_Set (now E) key v ttl (taskCache s)).2 s).

Definition Track (id : UUID) : M unit := modify (λ s, set_tracked (<[id := now E]> (tracked s)) s).
Definition Untrack (id : UUID) : M unit := modify (λ s, set_tracked (delete id (tracked s)) s).

(** [WithTransaction] around a method, which leaves its result in a variable. *)
Definition in_transaction {A} (m : M A) : M A := λ s,
  match WithTransaction (MkAnswers (λ _, true) (λ _, true) (λ _, true) (λ _, true))
          no_participants no_participants
          (λ w t, let '(s, r) := m w.1 in
                  (match r with Returns a => (s, Some a) | _ => (s, None) end, t,
                   match r with Returns _ => Returns () | Fails e => Fails e | Panics => Panics end))
          (s, None) with
  | (s, Some a, Returns _) => (s, Returns a)
  | (s, _, Fails e) => (s, Fails e)
  | (s, _, _) => (s, Panics)
  end.

(** ** Reading a task *)

(** What a cache hit leaves in the variable; [None]: nothing was written. *)
Definition zero_task : Task.t :=
  Task.Mk Nil Nil "" "" "" "" None None "" "" ∅ None "" 0 0 0 zero_time None None None zero_time None 0.
Definition as_task (v : option cached) : Task.t :=
  match v with Some (CTask t) => t | _ => zero_task end.
Definition as_id (v : option cached) : UUID := match v with Some (CID id) => id | _ => Nil end.

Definition Get (id : UUID) : M Task.t := λ s,
  match cache_Get (now E) (task_key id) (taskCache s) with
  | Ok v => (s, Returns (as_task v))
  | Err _ =>
      (read (task_Get db id) ≫= λ task,
       remember (task_key id) (CTask task) (5 * minute) ≫= λ _,
       ret task) s
  end.

(** The checks that most methods begin with. *)
Definition allowed_to (action what : string) : M unit :=
  need (match permission E with Some p => p action | None => true end) ("unauthorized to " +:+ what).
Definition has_id (id : UUID) (what : string) : M unit := need (negb (id =? Nil)%N) (what +:+ " ID is required").
Definition given (s message : string) : M unit := need (negb (String.eqb s "")) message.

Definition fetch (id : UUID) : M Task.t := wrapping "failed to get task" (read (task_Get db id)).
Definition assigned_to (agent : string) (task : Task.t) : M unit :=
  need (bool_decide (Task.AssignedTo task = Some agent)) "task is not assigned to this agent".
Definition in_status (l : list string) (what : string) (task : Task.t) : M unit :=
  need (existsb (String.eqb (Task.Status task)) l)
    ("task cannot be " +:+ what +:+ " in status " +:+ Task.Status task).

(** [s.repo.Update] and the cache. *)
Definition save (what : string) (task : Task.t) : M Task.t :=
  wrapping ("failed to " +:+ what +:+ " task") (write (task_Update db task)) ≫= λ task,
  forget (task_key (Task.ID task)) ≫= λ _,
  ret task.

Definition touched (task : Task.t) : Task.t := Task.set_UpdatedAt (now E) task.

(** The common beginning of the methods of an agent. *)
Definition of_agent (id : UUID) (agent : string) (status what : string) : M Task.t :=
  fetch id ≫= λ task,
  assigned_to agent task ≫= λ _,
  in_status [status] what task ≫= λ _,
  ret task.

(** ** Assignment *)

Definition assigned (agent : string) (task : Task.t) : Task.t :=
  touched (Task.set_Status TaskStatusAssigned (Task.set_AssignedTo (Some agent) task)).

Definition assignable (task : Task.t) : M unit :=
  in_status [TaskStatusPending; TaskStatusAssigned] "assigned" task.

Definition AssignTask (id : UUID) (agent : string) : M unit :=
  has_id id "task" ≫= λ _, given agent "agent ID is required" ≫= λ _,
  allowed_to "assign" "assign task" ≫= λ _,
  fetch id ≫= λ task,
  assignable task ≫= λ _,
  match GetAgent agent with
  | Err e => throw (Wrapped "failed to get agent" e)
  | Ok None => panic
  | Ok (Some a) =>
      need (String.eqb (Agent.Status a) AgentStatusActive) ("agent is not active: " +:+ Agent.Status a) ≫= λ _,
      save "assign" (assigned agent task) ≫= λ _, ret ()
  end.

(** The strategy that the caller names is not used. *)
Definition AutoAssignTask (id : UUID) : M unit :=
  has_id id "task" ≫= λ _, allowed_to "assign" "assign task" ≫= λ _,
  fetch id ≫= λ task,
  assignable task ≫= λ _,
  wrapping "failed to auto-assign task" (find_agent task) ≫= λ agent,
  AssignTask id (Agent.ID agent).

Definition shouldAutoAssign (task : Task.t) : bool :=
  String.eqb (Task.Priority task) TaskPriorityHigh ||
  match rules E, auto_rules E with
  | Some _, Ok (_ :: _) => true
  | _, _ => false
  end.

(** ** Creation *)

Definition checkIdempotency (key : string) : M (option UUID) := λ s,
  if String.eqb key "" then (s, Returns None)
  else
    match cache_Get (now E) (idem_key key) (taskCache s) with
    | Ok v => (s, Returns (if (as_id v =? Nil)%N then None else Some (as_id v)))
    | Err _ => (s, Returns None)
    end.

Definition sanitizeTask (task : Task.t) : res Task.t :=
  match sanitizer E with
  | None => Returns task
  | Some z =>
      let task := Task.set_Title (SanitizeString z (Task.Title task))
                    (Task.set_Description (SanitizeString z (Task.Description task)) task) in
      match SanitizeJSON z (Task.Parameters task) with
      | Ok params => Returns (Task.set_Parameters params task)
      | Err e => Fails e
      end
  end.

Definition validateTask (task : Task.t) : res unit :=
  if String.eqb (Task.Type_ task) "" then Fails (ValidationError "type" (Text "required"))
  else if String.eqb (Task.Title task) "" then Fails (ValidationError "title" (Text "required"))
  else if 500 <? len (Task.Title task) then Fails (ValidationError "title" (Text "exceeds maximum length"))
  else Returns ().

Definition authorizeTaskCreation (task : Task.t) : res unit :=
  authorize (authorizer E)
    (Auth.MkPermission "task" "create"
       (list_to_map [("type", AString (Task.Type_ task)); ("priority", AOther "models.TaskPriority" 0)]))
    "create task".

(** Parameters that the caller gave win. *)
Definition applyTaskDefaults (task : Task.t) : res Task.t :=
  match defaults E with
  | None => Returns task
  | Some policy =>
      match policy (Task.Type_ task) with
      | Err e => Fails e
      | Ok d =>
          let task := if String.eqb (Task.Priority task) ""
                      then Task.set_Priority (GetString d "priority" TaskPriorityNormal) task else task in
          let task := if Task.MaxRetries task =? 0
                      then Task.set_MaxRetries (GetInt d "max_retries" 3) task else task in
          let task := if Task.TimeoutSeconds task =? 0
                      then Task.set_TimeoutSeconds (GetInt d "timeout_seconds" 3600) task else task in
          Returns match GetMap d "parameters" with
                  | Some params => Task.set_Parameters (Task.Parameters task ∪ params) task
                  | None => task
                  end
      end
  end.

Definition new_task (task : Task.t) : Task.t :=
  Task.set_Version 1 (Task.set_Status TaskStatusPending (Task.set_CreatedBy (agentID E)
    (Task.set_TenantID (tenantID E) (Task.set_ID (new_id E) task)))).

(** An assignment that fails leaves the task pending. *)
Definition auto_assigned (task : Task.t) : M Task.t := λ s,
  if bool_decide (Task.AssignedTo task = None) && shouldAutoAssign task then
    match find_agent task s with
    | (s, Returns agent) =>
        (s, Returns (Task.set_AssignedAt (Some (now E)) (Task.set_Status TaskStatusAssigned
                       (Task.set_AssignedTo (Some (Agent.ID agent)) task))))
    | (s, Fails _) => (s, Returns task)
    | (s, Panics) => (s, Panics)
    end
  else (s, Returns task).

Definition Create (task : Task.t) (idempotencyKey : string) : M Task.t :=
  lift (rate E "task:create") ≫= λ _, lift (quota E) ≫= λ _,
  checkIdempotency idempotencyKey ≫= λ existing,
  match existing with
  | Some existingID => ret (Task.set_ID existingID task)
  | None =>
      lift (wrap "input sanitization failed" (sanitizeTask task)) ≫= λ task,
      lift (wrap "task validation failed" (validateTask task)) ≫= λ _,
      lift (wrap "authorization failed" (authorizeTaskCreation task)) ≫= λ _,
      in_transaction (
        lift (applyTaskDefaults (new_task task)) ≫= λ task,
        auto_assigned task ≫= λ task,
        wrapping "failed to create task" (write (task_Create db task)) ≫= λ task,
        (if String.eqb idempotencyKey "" then ret ()
         else remember (idem_key idempotencyKey) (CID (Task.ID task)) (24 * (60 * minute))) ≫= λ _,
        lift (publish E "TaskCreated") ≫= λ _,
        ret task) ≫= λ task,
      match Task.AssignedTo task with
      | Some agent => forget ("agent:" +:+ agent +:+ ":tasks")
      | None => ret ()
      end ≫= λ _,
      Track (Task.ID task) ≫= λ _,
      ret task
  end.

(** ** Updates by hand *)

Definition Update (task : Task.t) : M Task.t :=
  has_id (Task.ID task) "task" ≫= λ _, allowed_to "update" "update task" ≫= λ _,
  wrapping "failed to get existing task" (read (task_Get db (Task.ID task))) ≫= λ existing,
  need (String.eqb (Task.Status existing) (Task.Status task) ||
        isValidStatusTransition (Task.Status existing) (Task.Status task))
    ("invalid status transition from " +:+ Task.Status existing +:+ " to " +:+ Task.Status task) ≫= λ _,
  save "update" (touched task).

Definition Delete (id : UUID) : M unit :=
  has_id id "task" ≫= λ _, allowed_to "delete" "delete task" ≫= λ _,
  fetch id ≫= λ task,
  need (negb (String.eqb (Task.Status task) TaskStatusInProgress)) "cannot delete in-progress task" ≫= λ _,
  wrapping "failed to delete task" (write_ (task_Delete db id)) ≫= λ _,
  forget (task_key id).

(** ** The methods of an agent *)

Definition AcceptTask (id : UUID) (agent : string) : M unit :=
  has_id id "task" ≫= λ _, given agent "agent ID is required" ≫= λ _,
  of_agent id agent TaskStatusAssigned "accepted" ≫= λ task,
  save "accept" (touched (Task.set_Status TaskStatusAccepted task)) ≫= λ _, ret ().

Definition RejectTask (id : UUID) (agent reason : string) : M unit :=
  has_id id "task" ≫= λ _, given agent "agent ID is required" ≫= λ _,
  given reason "rejection reason is required" ≫= λ _,
  of_agent id agent TaskStatusAssigned "rejected" ≫= λ task,
  save "reject"
    (Task.add_result [("rejection_reason", AString reason); ("rejected_by", AString agent);
                      ("rejected_at", AString (format_time E (now E)))]
       (touched (Task.set_AssignedTo None (Task.set_Status TaskStatusRejected task)))) ≫= λ _, ret ().

Definition StartTask (id : UUID) (agent : string) : M unit :=
  has_id id "task" ≫= λ _, given agent "agent ID is required" ≫= λ _,
  of_agent id agent TaskStatusAccepted "started" ≫= λ task,
  save "start" (touched (Task.set_StartedAt (Some (now E)) (Task.set_Status TaskStatusInProgress task)))
    ≫= λ _, ret ().

Definition progress_entries (progress : Z) (message : string) : list (string * any) :=
  ([("progress", AInt progress); ("last_progress_update", AString (format_time E (now E)))] ++
   if String.eqb message "" then [] else [("progress_message", AString message)])%list.

Definition UpdateProgress (id : UUID) (progress : Z) (message : string) : M unit :=
  has_id id "task" ≫= λ _,
  need ((0 <=? progress) && (progress <=? 100)) "progress must be between 0 and 100" ≫= λ _,
  fetch id ≫= λ task,
  need (String.eqb (Task.Status task) TaskStatusInProgress)
    ("cannot update progress for task in status " +:+ Task.Status task) ≫= λ _,
  save "update" (touched (Task.add_result (progress_entries progress message) task)) ≫= λ _, ret ().

(** A result that is not an object is stored only if there was no result before. *)
Definition with_result (result : any) (task : Task.t) : Task.t :=
  match as_map result, Task.Result task with
  | Some m, _ => Task.set_Result (Some m) task
  | None, None => Task.set_Result (Some {["data" := result]}) task
  | None, Some _ => task
  end.

Definition completed (agent : string) (result : any) (task : Task.t) : Task.t :=
  let task := touched (Task.set_CompletedAt (Some (now E)) (Task.set_Status TaskStatusCompleted task)) in
  Task.add_result
    ([("progress", AInt 100); ("completed_by", AString agent)] ++
     match Task.StartedAt task with
     | Some started => [("duration_seconds", AFloat (duration_seconds (time_sub (now E) started)))]
     | None => []
     end)%list (with_result result task).

Definition CompleteTask (id : UUID) (agent : string) (result : any) : M unit :=
  has_id id "task" ≫= λ _, given agent "agent ID is required" ≫= λ _,
  of_agent id agent TaskStatusInProgress "completed" ≫= λ task,
  save "complete" (completed agent result task) ≫= λ _, ret ().

Definition FailTask (id : UUID) (agent errorMsg : string) : M unit :=
  has_id id "task" ≫= λ _, given agent "agent ID is required" ≫= λ _,
  given errorMsg "error message is required" ≫= λ _,
  of_agent id agent TaskStatusInProgress "failed" ≫= λ task,
  save "fail"
    (Task.add_result [("failed_at", AString (format_time E (now E))); ("failed_by", AString agent);
                      ("error_message", AString errorMsg)]
       (Task.set_Error errorMsg (touched (Task.set_Status TaskStatusFailed task)))) ≫= λ _, ret ().

(** ** Retry *)

Definition retried (task : Task.t) : Task.t :=
  let n := i64 (Task.RetryCount task + 1) in
  Task.add_result [("retry_count", AInt n); ("retried_at", AString (format_time E (now E)))]
    (Task.set_CompletedAt None (Task.set_StartedAt None (touched (Task.set_RetryCount n
      (Task.set_Error "" (Task.set_AssignedTo None (Task.set_Status TaskStatusPending task))))))).

Definition RetryTask (id : UUID) : M unit :=
  has_id id "task" ≫= λ _, allowed_to "retry" "retry task" ≫= λ _,
  fetch id ≫= λ task,
  in_status [TaskStatusFailed; TaskStatusCancelled] "retried" task ≫= λ _,
  need (Task.RetryCount task <? Task.MaxRetries task) "task has reached max retry limit" ≫= λ _,
  save "retry" (retried task) ≫= λ task,
  if shouldAutoAssign task then ignore (AutoAssignTask id) else ret ().

(** ** Delegation *)

Definition validateDelegation (task : Task.t) (d : Delegation.t) : M unit :=
  need (negb (existsb (String.eqb (Task.Status task)) [TaskStatusCompleted; TaskStatusCancelled]))
    "cannot delegate completed or cancelled task" ≫= λ _,
  need (Delegation.TaskID d =? Task.ID task)%N "delegation task ID must match task ID" ≫= λ _,
  given (Delegation.FromAgentID d) "delegation from agent is required" ≫= λ _,
  given (Delegation.ToAgentID d) "delegation to agent is required" ≫= λ _,
  need (negb (String.eqb (Delegation.FromAgentID d) (Delegation.ToAgentID d)))
    "cannot delegate to same agent" ≫= λ _,
  need (bool_decide (Task.AssignedTo task = Some (Delegation.FromAgentID d)))
    "task is not assigned to delegating agent" ≫= λ _,
  match GetAgent (Delegation.ToAgentID d) with
  | Err e => throw (Wrapped "failed to get target agent" e)
  | Ok None => panic
  | Ok (Some a) => need (String.eqb (Agent.Status a) AgentStatusActive) "target agent is not active"
  end.

(** The rule engine is asked by name; a nil decision panics. *)
Definition delegation_policy (decision : result error (option Rules.Decision)) : M unit :=
  match rules E with
  | None => ret ()
  | Some _ =>
      match decision with
      | Err e => throw (Wrapped "policy evaluation failed" e)
      | Ok None => panic
      | Ok (Some d) => guard_ (Rules.Allowed d) (DelegationError (Rules.Reason d))
      end
  end.

Definition delegated (d : Delegation.t) (task : Task.t) : Task.t :=
  Task.set_Version (i64 (Task.Version task + 1))
    (Task.set_AssignedAt (Some (now E)) (Task.set_Status TaskStatusAssigned
       (Task.set_AssignedTo (Some (Delegation.ToAgentID d)) task))).

(** [errors.Is(err, interfaces.ErrOptimisticLock)]. *)
Definition delegation_error (err : error) : error :=
  match cause err with
  | External "optimistic lock failed" => ErrConcurrentModification
  | _ => Wrapped "failed to update task" err
  end.

Definition DelegateTask (d : Delegation.t) (decision : result error (option Rules.Decision)) : M unit :=
  lift (rate E "task:delegate") ≫= λ _,
  wrapping "failed to get task" (read (task_GetForUpdate db (Delegation.TaskID d))) ≫= λ task,
  validateDelegation task d ≫= λ _,
  delegation_policy decision ≫= λ _,
  in_transaction (
    wrapping "failed to create delegation"
      (write_ (task_CreateDelegation db (Delegation.stamp (new_id E) (now E) d))) ≫= λ _,
    (λ s, match write (task_UpdateWithVersion db (delegated d task) (Task.Version task)) s with
          | (s, Fails err) => (s, Fails (delegation_error err))
          | r => r
          end) ≫= λ _,
    lift (publish E "TaskDelegated")).

(** ** Trees of tasks *)

(** The subtask itself is changed in memory only. *)
Definition SubmitSubtaskResult (parentID subtaskID : UUID) (result : any) : M unit :=
  has_id parentID "parent task" ≫= λ _, has_id subtaskID "subtask" ≫= λ _,
  allowed_to "update" "submit subtask result" ≫= λ _,
  wrapping "failed to get parent task" (read (task_Get db parentID)) ≫= λ parent,
  wrapping "failed to get subtask" (read (task_Get db subtaskID)) ≫= λ subtask,
  need (bool_decide (Task.ParentTaskID subtask = Some parentID))
    "subtask does not belong to parent task" ≫= λ _,
  let own := default ∅ (Task.Result subtask) in
  let own := match as_map result with Some m => m ∪ own | None => <["data" := result]> own end in
  let results := default ∅ (as_map (field (default ∅ (Task.Result parent)) "subtask_results")) in
  wrapping "failed to update parent task"
    (write (task_Update db (Task.add_result
       [("subtask_results", AMap (<[uuid_string subtaskID := AMap own]> results))] parent))) ≫= λ _,
  forget (task_key parentID) ≫= λ _,
  forget (task_key subtaskID).

Definition GetTaskTree (id : UUID) : M TaskTree.t :=
  has_id id "root task" ≫= λ _, allowed_to "read" "read task tree" ≫= λ _,
  wrapping "failed to get root task" (read (task_Get db id)) ≫= λ root,
  wrapping "failed to get task tree" (read (task_GetTaskTree db id 10)) ≫= λ tree,
  ret (default (TaskTree.Mk root ∅ 0) tree).

Definition cancellable (task : Task.t) : bool :=
  negb (existsb (String.eqb (Task.Status task)) [TaskStatusCompleted; TaskStatusCancelled]).

(** Every task of the tree is attempted; the first error is the result. *)
Fixpoint cancel_all (reason : string) (tasks : list Task.t) : M (option error) :=
  match tasks with
  | [] => ret None
  | task :: tasks =>
      (λ s,
        if cancellable task then
          match write (task_Update db (touched (Task.set_Error reason
                   (Task.set_Status TaskStatusCancelled task)))) s with
          | (s, Fails e) => (s, Returns (Some e))
          | (s, _) => (s, Returns None)
          end
        else (s, Returns None)) ≫= λ err : option error,
      cancel_all reason tasks ≫= λ errs,
      ret (match err with Some e => Some e | None => errs end)
  end.

(** [order]: the goroutines run in any order. *)
Definition CancelTaskTree (order : list Task.t -> list Task.t) (id : UUID) (reason : string) : M unit :=
  has_id id "root task" ≫= λ _, given reason "cancellation reason is required" ≫= λ _,
  allowed_to "cancel" "cancel task tree" ≫= λ _,
  wrapping "failed to get task tree" (GetTaskTree id) ≫= λ tree,
  cancel_all reason (order (TaskTree.Root tree :: concat (map_to_list (TaskTree.Children tree)).*2)) ≫= λ err,
  match err with
  | Some e => throw (Wrapped "failed to cancel task tree" e)
  | None => forget (task_key id)
  end.

(** ** Tasks of workflows *)

Definition workflow_task (stepID : UUID) (params : JSONMap) (workflowID : UUID) : Task.t :=
  Task.Mk (new_id E) (tenantID E) "workflow_step" TaskStatusPending TaskPriorityNormal "" None None
    ("Workflow Step " +:+ uuid_string stepID) "Task created from workflow step" params
    (Some (list_to_map [("workflow_id", AString (uuid_string workflowID)); ("step_id", AString (uuid_string stepID))]))
    "" 0 0 0 (now E) None None None (now E) None 0.

(** [NewTaskService] does not set the workflow service: [configured] says if one was. *)
Definition CreateWorkflowTask (configured : bool) (workflowID stepID : UUID) (params : JSONMap) : M Task.t :=
  has_id workflowID "workflow" ≫= λ _, has_id stepID "step" ≫= λ _,
  allowed_to "create" "create workflow task" ≫= λ _,
  need configured "workflow service not configured" ≫= λ _,
  wrapping "failed to create workflow task" (Create (workflow_task stepID params workflowID) "").

Definition CompleteWorkflowTask (id : UUID) (output : any) : M unit :=
  has_id id "task" ≫= λ _, allowed_to "complete" "complete workflow task" ≫= λ _,
  fetch id ≫= λ task,
  need (String.eqb (Task.Type_ task) "workflow_step") "task is not a workflow task" ≫= λ _,
  wrapping "failed to complete workflow task" (CompleteTask id (default "" (Task.AssignedTo task)) output).

(** ** The progress tracker *)

Definition progress_percent (elapsed : Z) (task : Task.t) : float64 :=
  if 0 <? Task.TimeoutSeconds task then
    let p := f64_mul (f64_div (duration_seconds elapsed) (f64_of_Z (Task.TimeoutSeconds task))) (f64_of_Z 100) in
    if f64_lt (f64_of_Z 100) p then f64_of_Z 100 else p
  else f64_of_Z 0.

Definition old_progress (task : Task.t) : Z :=
  match Task.Result task ≫= λ m, as_float (field m "progress") with
  | Some p => f64_to_int p
  | None => 0
  end.

Definition report_progress (id : UUID) (elapsed : Z) (task : Task.t) : M unit :=
  let newProgress := f64_to_int (progress_percent elapsed task) in
  if String.eqb (Task.Status task) TaskStatusInProgress && (5 <=? i64 (newProgress - old_progress task))
  then ignore (UpdateProgress id newProgress ("Task running for " +:+ format_duration E elapsed))
  else ret ().

Definition task_timeout (task : Task.t) : Z := i64 (Task.TimeoutSeconds task * second).
Definition critical_threshold (task : Task.t) : Z :=
  if 0 <? Task.TimeoutSeconds task then Z.quot (i64 (task_timeout task * 90)) 100 else 60 * minute.

Definition timed_out (message : string) (task : Task.t) : Task.t :=
  Task.set_CompletedAt (Some (now E)) (Task.set_Error message (Task.set_Status TaskStatusTimeout task)).

Definition check_timeout (id : UUID) (elapsed : Z) (task : Task.t) : M unit :=
  if (critical_threshold task <? elapsed) && (0 <? Task.TimeoutSeconds task) && (task_timeout task <? elapsed)
  then
    ignore (Update (timed_out ("Task timed out after " +:+ format_duration E elapsed +:+ " (timeout: " +:+
                               itoa (Task.TimeoutSeconds task) +:+ "s)") task)) ≫= λ _,
    Untrack id
  else ret ().

Definition check_task (id : UUID) (startTime : Z) : M unit := λ s,
  let elapsed := time_sub (now E) startTime in
  match Get id s with
  | (s, Fails _) => (s, Returns ())
  | (s, Panics) => (s, Panics)
  | (s, Returns task) =>
      (if existsb (String.eqb (Task.Status task)) [TaskStatusCompleted; TaskStatusFailed]
       then Untrack id
       else report_progress id elapsed task ≫= λ _, check_timeout id elapsed task) s
  end.

(** One tick; [l] is the order of the map of tracked tasks. *)
Definition checkProgress (l : list (UUID * Z)) : M unit := for_each_ (λ x, check_task x.1 x.2) l.

(** ** Requests *)

Inductive request :=
| RCreate (task : Task.t) (key : string)
| RUpdate (task : Task.t)
| RAssign (id : UUID) (agent : string)
| RAutoAssign (id : UUID)
| RAccept (id : UUID) (agent : string)
| RReject (id : UUID) (agent reason : string)
| RStart (id : UUID) (agent : string)
| RProgress (id : UUID) (progress : Z) (message : string)
| RComplete (id : UUID) (agent : string) (result : any)
| RFail (id : UUID) (agent message : string)
| RRetry (id : UUID)
| RDelegate (d : Delegation.t) (decision : result error (option Rules.Decision))
| RSubtask (parent subtask : UUID) (result : any)
| RCancelTree (id : UUID) (reason : string)
| RWorkflowTask (workflow step : UUID) (params : JSONMap)
| RCompleteWorkflowTask (id : UUID) (output : any)
| RTick.

Definition discard {A} (m : M A) : M unit := m ≫= λ _, ret ().

(** [order]: the order of the goroutines of a cancellation. *)
Definition serve (order : list Task.t -> list Task.t) (r : request) : M unit :=
  match r with
  | RCreate task key => discard (Create task key)
  | RUpdate task => discard (Update task)
  | RAssign id agent => AssignTask id agent
  | RAutoAssign id => AutoAssignTask id
  | RAccept id agent => AcceptTask id agent
  | RReject id agent reason => RejectTask id agent reason
  | RStart id agent => StartTask id agent
  | RProgress id progress message => UpdateProgress id progress message
  | RComplete id agent result => CompleteTask id agent result
  | RFail id agent message => FailTask id agent message
  | RRetry id => RetryTask id
  | RDelegate d decision => DelegateTask d decision
  | RSubtask parent subtask result => SubmitSubtaskResult parent subtask result
  | RCancelTree id reason => CancelTaskTree order id reason
  | RWorkflowTask workflow step params => discard (CreateWorkflowTask true workflow step params)
  | RCompleteWorkflowTask id output => CompleteWorkflowTask id output
  | RTick => λ s, checkProgress (map_to_list (tracked s)) s
  end.
End service.
