(* ===== verification/TaskLife.v ===== *)
(** * TaskLife: what happens to the tasks of the repository

    The task service on the repository of [TaskRows]: how a status can change, under any
    requests; what the progress tracker, idempotency keys, results and the cancellation of a
    tree come to. *)

From stdpp Require Import base decidable gmap strings list relations.
From Stdlib Require Import ZArith Lia.
From S2P Require Import Prelude GoFloat GoSort GoStrings GoAny ServiceErrors ServiceInterfaces.
From S2P Require Import Storage ServiceMonad MemCache Transaction TaskModels TaskRows Assignment.
From S2P Require Import TaskService.

Local Open Scope string_scope.
Local Open Scope Z_scope.

(** ** The table *)

Definition ids (r : Tasks.Rows) : list UUID := Task.ID <$> Tasks.tasks r.

Section table.
Context {enc : Encoding}.
Implicit Types (r : Tasks.Rows) (task t : Task.t).

Lemma live_spec id task : Tasks.live id task = true <-> Task.ID task = id /\ Task.DeletedAt task = None.
Proof. unfold Tasks.live. by rewrite andb_true_iff, N.eqb_eq, bool_decide_eq_true. Qed.

Lemma lookup_spec id r t : Tasks.lookup id r = Some t -> Task.ID t = id /\ t ∈ Tasks.tasks r.
Proof.
  unfold Tasks.lookup. intros [Hin Hl]%List.find_some. apply live_spec in Hl as [? _].
  by rewrite list_elem_of_In.
Qed.

(** With one row for each identifier, a live row is the one that is found. *)
Lemma lookup_unique id r t :
  NoDup (ids r) -> t ∈ Tasks.tasks r -> Tasks.live id t = true -> Tasks.lookup id r = Some t.
Proof.
  unfold ids, Tasks.lookup. intros Hnd Hin Hl. induction (Tasks.tasks r) as [|x l IH]; [by apply elem_of_nil in Hin|].
  apply NoDup_cons in Hnd as [Hx Hnd]. simpl. apply elem_of_cons in Hin as [->|Hin]; [by rewrite Hl|].
  destruct (Tasks.live id x) eqn:Hlx; [|by apply IH].
  apply live_spec in Hlx as [Hid _]. apply live_spec in Hl as [Hid' _]. destruct Hx.
  rewrite Hid, <-Hid'. by apply list_elem_of_fmap_2.
Qed.

Lemma lookup_update_rows w task p res r id :
  Tasks.lookup id (Tasks.update_rows w task p res r) =
  (λ row, if Tasks.live (Task.ID task) row && w row then Tasks.overwritten task row p res else row)
    <$> Tasks.lookup id r.
Proof.
  unfold Tasks.lookup, Tasks.update_rows. simpl. induction (Tasks.tasks r) as [|x l IH]; [done|]. simpl.
  match goal with |- context [Tasks.live id ?y] => assert (Tasks.live id y = Tasks.live id x) as -> end.
  { by destruct (_ && _). }
  by destruct (Tasks.live id x).
Qed.

Lemma ids_update_rows w task p res r : ids (Tasks.update_rows w task p res r) = ids r.
Proof.
  unfold ids, Tasks.update_rows. simpl. rewrite <-list_fmap_compose. apply list_fmap_ext.
  intros i x _. simpl. by destruct (_ && _).
Qed.

(** What the writes of the repository do when they succeed. *)
Lemma doUpdate_ok d op w missing task r task' r' :
  Tasks.doUpdate d op w missing task r = Ok (task', r') ->
  task' = task /\ exists p res t, marshal (Task.Parameters task) "parameters" = Ok p /\
    Tasks.marshal_result (Task.Result task) = Ok res /\ Tasks.lookup (Task.ID task) r = Some t /\
    r' = Tasks.update_rows w task p res r.
Proof.
  unfold Tasks.doUpdate, query. destruct (fault _ _ _); [done|].
  destruct (marshal _ _) as [p|]; [|done]. destruct (Tasks.marshal_result _) as [res|]; [|done].
  destruct (Tasks.lookup _ _) as [t|] eqn:Ht; [|done]. destruct (existsb _ _); [|done].
  intros [= <- <-]. split; [done|]. by exists p, res, t.
Qed.

Lemma doCreate_ok d i task r task' r' :
  Tasks.doCreate d i task r = Ok (task', r') ->
  Task.ID task' = Task.ID task /\ exists row, Task.ID row = Task.ID task /\
    Task.Status row = Task.Status task /\ Task.DeletedAt row = None /\
    r' = Tasks.set_tasks (Tasks.tasks r ++ [row])%list r.
Proof.
  unfold Tasks.doCreate, query. destruct (fault _ _ _); [done|].
  destruct (marshal _ _) as [p|]; [|done]. destruct (existsb _ _); [done|].
  intros [= <- <-]. split; [done|]. eexists. split_and!; cycle 3; [reflexivity|done..].
Qed.

Lemma create_ok d task r task' r' :
  Tasks.Create d task r = Ok (task', r') ->
  Task.ID task' = Task.ID task /\ exists row, Task.ID row = Task.ID task /\
    Task.Status row = Task.Status task /\ Task.DeletedAt row = None /\
    r' = Tasks.set_tasks (Tasks.tasks r ++ [row])%list r.
Proof.
  unfold Tasks.Create. generalize maxRetries as n, 0%nat as i, (External "<nil>") as err.
  induction n as [|n IH]; intros i err; simpl; [done|].
  destruct (Tasks.doCreate d i task r) as [[x rx]|e] eqn:Hc.
  - intros [= <- <-]. by eapply doCreate_ok.
  - destruct (Tasks.isRetryableError e); [apply IH|done].
Qed.

Lemma get_ok d id r t : Tasks.Get d id r = Ok t -> Tasks.lookup id r = Some t.
Proof.
  unfold Tasks.Get, query. destruct (fault _ _ _); [done|]. by destruct (Tasks.lookup _ _) as [?|]; [intros [= ->]|].
Qed.
Lemma get_for_update_ok d id r t : Tasks.GetForUpdate d id r = Ok t -> Tasks.lookup id r = Some t.
Proof.
  unfold Tasks.GetForUpdate, query. destruct (fault _ _ _); [done|].
  by destruct (Tasks.lookup _ _) as [?|]; [intros [= ->]|].
Qed.
End table.

(** ** How a repository evolves *)

(** The tasks of [r] are in [r'], with a status related to the one they had. *)
Definition evolves (Rel : string -> string -> Prop) (r r' : Tasks.Rows) : Prop :=
  (NoDup (ids r) -> NoDup (ids r')) /\
  forall id t, Tasks.lookup id r = Some t ->
    exists t', Tasks.lookup id r' = Some t' /\ Rel (Task.Status t) (Task.Status t').

Section evolves.
Context {enc : Encoding} (Rel : string -> string -> Prop) {refl : Reflexive Rel} {tr : Transitive Rel}.

Lemma evolves_refl r : evolves Rel r r.
Proof. split; [done|]. intros id t Ht. by exists t. Qed.
Lemma evolves_trans r1 r2 r3 : evolves Rel r1 r2 -> evolves Rel r2 r3 -> evolves Rel r1 r3.
Proof.
  intros [Hn1 H1] [Hn2 H2]. split; [auto|]. intros id t Ht.
  destruct (H1 id t Ht) as (t1 & Ht1 & Hr1). destruct (H2 id t1 Ht1) as (t2 & Ht2 & Hr2).
  exists t2. split; [done|]. by etransitivity.
Qed.

Lemma evolves_update w task p res r t0 :
  Tasks.lookup (Task.ID task) r = Some t0 -> Rel (Task.Status t0) (Task.Status task) ->
  evolves Rel r (Tasks.update_rows w task p res r).
Proof.
  intros Ht0 Hrel. split; [by rewrite ids_update_rows|]. intros id t Ht.
  rewrite lookup_update_rows, Ht. eexists. split; [done|].
  destruct (Tasks.live (Task.ID task) t && w t) eqn:Hl; [|done].
  apply andb_true_iff in Hl as [[Hid _]%live_spec _].
  apply lookup_spec in Ht as Hid'. assert (t0 = t) as -> by (destruct Hid' as [? _]; congruence). done.
Qed.

Lemma evolves_append row r :
  Task.ID row ∉ ids r -> evolves Rel r (Tasks.set_tasks (Tasks.tasks r ++ [row])%list r).
Proof.
  intros Hfresh. split.
  - unfold ids. simpl. rewrite fmap_app. intros Hnd. apply NoDup_app. split_and!; [done| |apply NoDup_singleton].
    intros x Hx ->%list_elem_of_singleton. done.
  - intros id t Ht. exists t. split; [|done]. unfold Tasks.lookup in *. simpl.
    revert Ht. induction (Tasks.tasks r) as [|x l IH]; simpl; [done|]. by destruct (Tasks.live id x).
Qed.
End evolves.

(** ** The requests *)

Section requests.
Context {enc : Encoding} {C : Type} {caching : CacheOps cached C}.
Context {uuids : UUIDText} {agents_of : AgentService} {sorter : SliceSort}.
Context (Rel : string -> string -> Prop) {refl : Reflexive Rel} {tr : Transitive Rel} (r0 : Tasks.Rows).
Notation system := (state Tasks.Rows C).
Implicit Types (s : system) (task t : Task.t).

Definition from_r0 s : Prop := evolves Rel r0 (repo s).
Definition found id t s : Prop := from_r0 s /\ Tasks.lookup id (repo s) = Some t.

(** What the code needs to know to save a task. *)
Definition savable task s : Prop :=
  from_r0 s /\ exists t0, Tasks.lookup (Task.ID task) (repo s) = Some t0 /\
    Rel (Task.Status t0) (Task.Status task).

Lemma write_update E task (P : system -> Prop) :
  (forall s, P s -> savable task s) ->
  triple P (write (task_Update (db E) task)) (λ _, from_r0) from_r0.
Proof.
  intros HP s Hs. destruct (HP s Hs) as [Hr (t0 & Ht0 & Hrel)]. unfold write. simpl.
  destruct (Tasks.Update _ _ _) as [[task' r']|e] eqn:Hu; [|done].
  apply doUpdate_ok in Hu as (_ & p & res & t & _ & _ & _ & ->).
  eapply evolves_trans; [done|exact Hr|]. by apply evolves_update with t0.
Qed.

Lemma keeps_drop key E : keeps from_r0 (forget E key).
Proof. by intros s. Qed.
Lemma keeps_remember E key v ttl : keeps from_r0 (remember E key v ttl).
Proof. by intros s. Qed.
Lemma keeps_tracked E id : keeps from_r0 (Track E id).
Proof. by intros s. Qed.
Lemma keeps_untracked id : keeps from_r0 (Untrack id).
Proof. by intros s. Qed.
Lemma keeps_read {A} f : keeps from_r0 (read (A := A) f).
Proof. intros s Hs. unfold read. by destruct (f _). Qed.
Lemma keeps_find_agent E task : keeps from_r0 (find_agent E task).
Proof. intros s Hs. unfold find_agent, with_engine. by destruct (FindBestAgent _ _ _ _ _). Qed.
Lemma keeps_need b m : keeps from_r0 (need b m).
Proof. apply keeps_guard. Qed.

Lemma in_transaction_run {A} (m : ServiceMonad.M system A) s : in_transaction m s = m s.
Proof.
  unfold in_transaction.
  pose proof (with_transaction_alone (MkAnswers (λ _, true) (λ _, true) (λ _, true) (λ _, true))
    no_participants no_participants
    (λ w : system * option A, let '(s, r) := m w.1 in
       (match r with Returns a => (s, Some a) | _ => (s, None) end,
        match r with Returns _ => Returns () | Fails e => Fails e | Panics => Panics end)) (s, None)) as Hw.
  match type of Hw with ?a -> ?b -> ?x = _ => assert a as Ha by (unfold fair; vm_compute; repeat constructor);
    specialize (Hw Ha Ha) end.
  match goal with |- context [WithTransaction ?a ?o ?o' ?f ?w] =>
    match type of Hw with WithTransaction _ _ _ ?g _ = _ =>
      assert (WithTransaction a o o' f w = WithTransaction a o o' g w) as -> by
        (unfold WithTransaction; by destruct (m (s, None).1)) end end.
  rewrite Hw. cbn [fst]. by destruct (m s) as [s1 [a|e|]].
Qed.

Lemma triple_transaction {A} P (m : ServiceMonad.M system A) Q F :
  triple P m Q F -> triple P (in_transaction m) Q F.
Proof. intros Hm s. rewrite in_transaction_run. apply Hm. Qed.

Lemma triple_need P b m :
  (forall s, P s -> from_r0 s) -> triple P (need b m) (λ _ s, P s /\ b = true) from_r0.
Proof. apply triple_guard. Qed.

Lemma triple_get E id msg :
  triple from_r0 (wrapping msg (read (task_Get (db E) id))) (λ t, found id t) from_r0.
Proof.
  apply triple_wrapping. intros s Hs. unfold read. simpl.
  destruct (Tasks.Get _ _ _) as [t|e] eqn:Hg; [|done]. by apply get_ok in Hg.
Qed.

Lemma triple_fetch E id : triple from_r0 (fetch E id) (λ t, found id t) from_r0.
Proof. apply triple_get. Qed.

Lemma triple_save E what task P :
  (forall s, P s -> savable task s) -> triple P (save E what task) (λ _, from_r0) from_r0.
Proof.
  intros HP. unfold save. eapply triple_bind; [by apply triple_wrapping, write_update|].
  intros t. apply triple_keeps; [done|]. apply keeps_bind; [apply keeps_drop|intros _; apply keeps_ret].
Qed.

(** Keeping [from_r0], where the continuation of a read uses what was read. *)
Lemma keeps_fetch {A} E id (f : Task.t -> ServiceMonad.M system A) :
  (forall t, triple (found id t) (f t) (λ _, from_r0) from_r0) -> keeps from_r0 (fetch E id ≫= f).
Proof. intros Hf. apply keeps_triple. eapply triple_bind; [apply triple_fetch|done]. Qed.

Lemma triple_then {A} (P : system -> Prop) b m (f : unit -> ServiceMonad.M system A) :
  (forall s, P s -> from_r0 s) ->
  (b = true -> triple P (f ()) (λ _, from_r0) from_r0) -> triple P (need b m ≫= f) (λ _, from_r0) from_r0.
Proof.
  intros HP Hf. eapply triple_bind; [by apply triple_need|]. intros [] s [Hs Hb]. by apply Hf.
Qed.

Lemma triple_save_then {A} E what task (P : system -> Prop) (f : Task.t -> ServiceMonad.M system A) :
  (forall s, P s -> savable task s) -> (forall t, keeps from_r0 (f t)) ->
  triple P (save E what task ≫= f) (λ _, from_r0) from_r0.
Proof.
  intros HP Hf. eapply triple_bind; [by apply triple_save|]. intros t. by apply triple_keeps.
Qed.

(** A task that was read, and written back with a new status. *)
Lemma savable_found id t task :
  Task.ID task = Task.ID t -> Rel (Task.Status t) (Task.Status task) ->
  forall s, found id t s -> savable task s.
Proof.
  intros Hid Hrel s [Hr Hl]. split; [done|]. exists t. apply lookup_spec in Hl as Hl'.
  by rewrite Hid, (proj1 Hl').
Qed.

Lemma found_from_r0 id t s : found id t s -> from_r0 s.
Proof. by intros [? _]. Qed.

(** The methods of an agent check the status that they start from. *)
Lemma keeps_of_agent {A} E id agent status what (f : Task.t -> ServiceMonad.M system A) :
  (forall t, Task.Status t = status -> triple (found id t) (f t) (λ _, from_r0) from_r0) ->
  keeps from_r0 (of_agent E id agent status what ≫= f).
Proof.
  intros Hf. apply keeps_triple. eapply triple_bind with (Q := λ t s, found id t s /\ Task.Status t = status).
  - unfold of_agent. eapply triple_bind; [apply triple_fetch|intros t].
    eapply triple_bind; [by apply triple_need, found_from_r0|intros []].
    eapply triple_bind; [apply triple_need; intros s [Hs _]; by apply found_from_r0 in Hs|intros []].
    intros s [[Hs _] Hst]. split; [done|]. simpl in Hst. rewrite orb_false_r in Hst.
    by apply String.eqb_eq in Hst.
  - intros t s [Hs Hst]. by apply Hf.
Qed.
End requests.

#[export] Hint Resolve keeps_drop keeps_remember keeps_tracked keeps_untracked keeps_read
  keeps_find_agent keeps_need found_from_r0 : keeps.

Section methods.
Context {enc : Encoding} {C : Type} {caching : CacheOps cached C}.
Context {uuids : UUIDText} {agents_of : AgentService} {sorter : SliceSort}.
Context (Rel : string -> string -> Prop) {refl : Reflexive Rel} {tr : Transitive Rel} (r0 : Tasks.Rows).
Notation system := (state Tasks.Rows C).
Notation inv := (from_r0 (C := C) Rel r0).
Implicit Types (s : system) (task t : Task.t).

Local Ltac needs := repeat (apply keeps_bind; [apply keeps_need|intros []]).

Lemma keeps_UpdateProgress E id p m : keeps inv (UpdateProgress E id p m).
Proof.
  unfold UpdateProgress, has_id. needs. apply keeps_fetch. intros t.
  apply triple_then; [by intros s [? _]|intros _].
  apply (triple_save_then Rel r0); [|intros; apply keeps_ret]. by apply (savable_found Rel r0 id t).
Qed.

Lemma keeps_Update E task :
  (forall a, isValidStatusTransition a (Task.Status task) = true -> Rel a (Task.Status task)) ->
  keeps inv (Update E task).
Proof.
  intros Hok. unfold Update, has_id, allowed_to. needs. apply keeps_triple.
  eapply triple_bind; [apply (triple_get Rel r0)|intros t].
  intros s [Hs Hl]. unfold mbind, M_bind, need, guard_. cbn beta.
  destruct (_ || _) eqn:Hst; [|done].
  apply (triple_save Rel r0 E "update" (touched E task) (found Rel r0 (Task.ID task) t)); [|done].
  intros s1 [Hs1 Hl1]. split; [done|]. exists t. split; [done|].
  apply orb_true_iff in Hst as [->%String.eqb_eq|Hst]; [done|]. by apply Hok.
Qed.

Lemma never_to_timeout a : isValidStatusTransition a TaskStatusTimeout = false.
Proof.
  unfold isValidStatusTransition. destruct (_ !! a) as [l|] eqn:Hl; [|done].
  apply elem_of_list_to_map_2 in Hl. unfold validTransitions in Hl.
  repeat (apply elem_of_cons in Hl as [[= -> ->]|Hl]; [reflexivity|]). by apply elem_of_nil in Hl.
Qed.

Lemma keeps_Get E id : keeps inv (Get E id).
Proof.
  intros s Hs. unfold Get. destruct (cache_Get _ _ _); [done|].
  apply keeps_bind; [apply keeps_read|intros t|done].
  apply keeps_bind; [apply keeps_remember|intros _; apply keeps_ret].
Qed.

Lemma keeps_report E id elapsed t : keeps inv (report_progress E id elapsed t).
Proof.
  unfold report_progress. destruct (_ && _); [|apply keeps_ret]. apply keeps_ignore, keeps_UpdateProgress.
Qed.

Lemma keeps_check_timeout E id elapsed t : keeps inv (check_timeout E id elapsed t).
Proof.
  unfold check_timeout. destruct (_ && _); [|apply keeps_ret].
  apply keeps_bind; [|intros _; apply keeps_untracked]. apply keeps_ignore, keeps_Update.
  intros a. cbn. by rewrite never_to_timeout.
Qed.

Lemma keeps_tick E l : keeps inv (checkProgress E l).
Proof.
  apply keeps_for_each. intros [id t0] s Hs. unfold check_task. cbn [fst snd].
  pose proof (keeps_Get E id s Hs) as Hg. destruct (Get E id s) as [s1 [t|e|]]; [|done|done].
  destruct (existsb _ _); [by apply keeps_untracked|].
  apply keeps_bind; [apply keeps_report|intros _; apply keeps_check_timeout|done].
Qed.
End methods.

(** ** The lives of tasks *)

(** The table of transitions, and four moves that it does not have: a task that was cancelled
    is retried, any task that is not completed is cancelled with its tree, and any task that
    is neither completed nor cancelled is delegated. *)
Definition move (a b : string) : Prop :=
  isValidStatusTransition a b = true \/
  (a = TaskStatusCancelled /\ b = TaskStatusPending) \/
  (a ≠ TaskStatusCompleted /\ b = TaskStatusCancelled) \/
  (a ∉ [TaskStatusCompleted; TaskStatusCancelled] /\ b = TaskStatusAssigned).

Section life.
Context {enc : Encoding} {C : Type} {caching : CacheOps cached C}.
Context {uuids : UUIDText} {agents_of : AgentService} {sorter : SliceSort}.
Context (r0 : Tasks.Rows).
Notation Rel := (rtc move).
Notation system := (state Tasks.Rows C).
Notation inv := (from_r0 (C := C) Rel r0).
Implicit Types (s : system) (task t : Task.t).

Local Ltac needs := unfold has_id, given, allowed_to; repeat (apply keeps_bind; [apply keeps_need|intros []]).
Local Ltac saves id t := apply (triple_save_then Rel r0);
  [apply (savable_found Rel r0 id t); [done|]|intros; apply keeps_ret].

Lemma valid_move a b : isValidStatusTransition a b = true -> Rel a b.
Proof. intros H. by apply rtc_once; left. Qed.

Lemma keeps_AssignTask E id agent : keeps inv (AssignTask E id agent).
Proof.
  unfold AssignTask. needs. apply keeps_fetch. intros t.
  unfold assignable, in_status. apply triple_then; [by intros s [? _]|intros Hst].
  destruct (GetAgent agent) as [[a|]|e]; [|by intros s [? _]..].
  apply triple_then; [by intros s [? _]|intros _]. saves id t.
  apply existsb_exists in Hst as (x & Hx & ->%String.eqb_eq).
  destruct Hx as [<-|[<-|[]]]; [by apply valid_move|done].
Qed.

Lemma keeps_AutoAssignTask E id : keeps inv (AutoAssignTask E id).
Proof.
  unfold AutoAssignTask. needs. apply keeps_bind; [apply keeps_wrapping, keeps_read|intros t].
  apply keeps_bind; [apply keeps_need|intros _].
  apply keeps_bind; [apply keeps_wrapping, keeps_find_agent|intros a; apply keeps_AssignTask].
Qed.

Lemma keeps_AcceptTask E id agent : keeps inv (AcceptTask E id agent).
Proof.
  unfold AcceptTask. needs. apply keeps_of_agent. intros t Hst. saves id t. rewrite Hst. by apply valid_move.
Qed.
Lemma keeps_RejectTask E id agent reason : keeps inv (RejectTask E id agent reason).
Proof.
  unfold RejectTask. needs. apply keeps_of_agent. intros t Hst. saves id t. rewrite Hst. by apply valid_move.
Qed.
Lemma keeps_StartTask E id agent : keeps inv (StartTask E id agent).
Proof.
  unfold StartTask. needs. apply keeps_of_agent. intros t Hst. saves id t. rewrite Hst. by apply valid_move.
Qed.
Lemma keeps_FailTask E id agent m : keeps inv (FailTask E id agent m).
Proof.
  unfold FailTask. needs. apply keeps_of_agent. intros t Hst. saves id t. rewrite Hst. by apply valid_move.
Qed.

Lemma completed_id E agent result task : Task.ID (completed E agent result task) = Task.ID task.
Proof.
  unfold completed, with_result. destruct (as_map result); [done|]. cbn.
  by destruct (Task.Result task).
Qed.
Lemma completed_status E agent result task :
  Task.Status (completed E agent result task) = TaskStatusCompleted.
Proof.
  unfold completed, with_result. destruct (as_map result); [done|]. cbn.
  by destruct (Task.Result task).
Qed.

Lemma keeps_CompleteTask E id agent result : keeps inv (CompleteTask E id agent result).
Proof.
  unfold CompleteTask. needs. apply keeps_of_agent. intros t Hst.
  apply (triple_save_then Rel r0); [|intros; apply keeps_ret].
  apply (savable_found Rel r0 id t); [apply completed_id|].
  rewrite Hst, completed_status. by apply valid_move.
Qed.

Lemma keeps_RetryTask E id : keeps inv (RetryTask E id).
Proof.
  unfold RetryTask. needs. apply keeps_fetch. intros t.
  apply triple_then; [by intros s [? _]|intros Hst]. apply triple_then; [by intros s [? _]|intros _].
  apply (triple_save_then Rel r0).
  - apply (savable_found Rel r0 id t); [done|].
    apply existsb_exists in Hst as (x & Hx & ->%String.eqb_eq).
    destruct Hx as [<-|[<-|[]]]; [by apply valid_move|apply rtc_once; right; by left].
  - intros t1. destruct (shouldAutoAssign E t1); [|apply keeps_ret].
    apply keeps_ignore, keeps_AutoAssignTask.
Qed.

Lemma keeps_SubmitSubtaskResult E p c result : keeps inv (SubmitSubtaskResult E p c result).
Proof.
  unfold SubmitSubtaskResult. needs. apply keeps_triple.
  eapply triple_bind; [apply (triple_get Rel r0)|intros t].
  eapply triple_bind with (Q := λ _, found Rel r0 p t).
  { apply triple_wrapping. intros s [Hs Hl]. unfold read. by destruct (task_Get _ _ _). }
  intros t1. apply triple_then; [by intros s [? _]|intros _].
  eapply triple_bind; [apply triple_wrapping, (write_update Rel r0)|intros ?].
  - by apply (savable_found Rel r0 p t).
  - apply triple_keeps; [done|]. apply keeps_bind; [|intros _]; apply keeps_drop.
Qed.

(** A new task has a fresh identifier. *)
Definition fresh E s : Prop := inv s /\ new_id E ∉ ids (repo s).

Lemma applyTaskDefaults_id E task task' :
  applyTaskDefaults E task = Returns task' -> Task.ID task' = Task.ID task.
Proof.
  unfold applyTaskDefaults. destruct (defaults E) as [policy|]; [|by intros [= <-]].
  destruct (policy _) as [d|]; [|done]. intros [= <-].
  destruct (GetMap d "parameters"); cbn;
    repeat match goal with |- context [if ?b then _ else _] => destruct b; cbn end; done.
Qed.

Lemma triple_auto_assigned E task id :
  triple (λ s, fresh E s /\ Task.ID task = id) (auto_assigned E task)
    (λ t s, fresh E s /\ Task.ID t = id) inv.
Proof.
  intros s [Hs Hid]. unfold auto_assigned. destruct (_ && _); [|done].
  unfold find_agent, with_engine. destruct (FindBestAgent _ _ _ _ _) as [e r]. by destruct r; [..|apply Hs].
Qed.

Lemma triple_write_create E task :
  triple (λ s, fresh E s /\ Task.ID task = new_id E) (write (task_Create (db E) task)) (λ _, inv) inv.
Proof.
  intros s [[Hs Hf] Hid]. unfold write. simpl. destruct (Tasks.Create _ _ _) as [[t r]|e] eqn:Hc; [|done].
  apply create_ok in Hc as (_ & row & Hrow & _ & _ & ->). eapply evolves_trans; [apply _|exact Hs|].
  apply evolves_append; [apply _|]. by rewrite Hrow, Hid.
Qed.

Lemma triple_Create E task key : triple (fresh E) (Create E task key) (λ _, inv) inv.
Proof.
  assert (forall s, fresh E s -> inv s) as HF by by intros s [? _].
  unfold Create. apply triple_reads; [done..|intros _]. apply triple_reads; [done..|intros _].
  apply triple_reads; [done| |intros [x|]].
  { intros s. unfold checkIdempotency. destruct (String.eqb _ _); [done|]. by destruct (cache_Get _ _ _). }
  { by intros s [? _]. }
  apply triple_reads; [done..|intros t1]. apply triple_reads; [done..|intros _].
  apply triple_reads; [done..|intros _]. eapply triple_bind.
  - apply triple_transaction. eapply triple_bind with (Q := λ t s, fresh E s /\ Task.ID t = new_id E).
    { intros s Hs. unfold lift. destruct (applyTaskDefaults _ _) eqn:Hd; [|by apply HF..].
      by apply applyTaskDefaults_id in Hd. }
    intros t2. eapply triple_bind; [apply triple_auto_assigned|intros t3].
    eapply triple_bind; [apply triple_wrapping, triple_write_create|intros t4].
    apply triple_keeps; [done|]. apply keeps_bind; [|intros _].
    { destruct (String.eqb key ""); [apply keeps_ret|apply keeps_remember]. }
    apply keeps_bind; [apply keeps_lift|intros _; apply keeps_ret].
  - intros t5. apply triple_keeps; [done|]. apply keeps_bind; [|intros _].
    { destruct (Task.AssignedTo t5); [apply keeps_drop|apply keeps_ret]. }
    apply keeps_bind; [apply keeps_tracked|intros _; apply keeps_ret].
Qed.

(** ** Delegation *)

Lemma validateDelegation_reads task d s : (validateDelegation task d s).1 = s.
Proof.
  unfold validateDelegation. revert s.
  repeat (intros ?; apply reads_bind; [intros; apply reads_guard|intros _]).
  intros ?. destruct (GetAgent _) as [[a|]|]; [apply reads_guard|done..].
Qed.

Lemma validateDelegation_status task d s u :
  (validateDelegation task d s).2 = Returns u ->
  Task.Status task ∉ [TaskStatusCompleted; TaskStatusCancelled].
Proof.
  unfold validateDelegation. unfold mbind at 1, M_bind at 1, need at 1, guard_.
  destruct (negb _) eqn:Hb; [|done]. intros _ Hin. apply negb_true_iff, not_true_iff_false in Hb.
  apply Hb, existsb_exists. exists (Task.Status task). by rewrite <-list_elem_of_In, String.eqb_refl.
Qed.

Lemma keeps_DelegateTask E d decision : keeps inv (DelegateTask E d decision).
Proof.
  unfold DelegateTask. apply keeps_bind; [apply keeps_lift|intros _]. apply keeps_triple.
  eapply triple_bind with (Q := λ t, found Rel r0 (Delegation.TaskID d) t).
  { apply triple_wrapping. intros s Hs. unfold read. simpl.
    destruct (Tasks.GetForUpdate _ _ _) as [t|e] eqn:Hg; [|done]. by apply get_for_update_ok in Hg. }
  intros t. eapply triple_bind with (Q := λ _ s, found Rel r0 (Delegation.TaskID d) t s /\
    Task.Status t ∉ [TaskStatusCompleted; TaskStatusCancelled]).
  { intros s Hs. pose proof (validateDelegation_reads t d s) as Hv.
    pose proof (validateDelegation_status t d s) as Hst.
    destruct (validateDelegation t d s) as [s1 [u|e|]]; simpl in *; subst; [|apply Hs..]. by split; [|apply (Hst u)]. }
  intros _. apply triple_reads; [by intros s [[? _] _]| |intros _].
  { intros s. unfold delegation_policy. destruct (rules E); [|done].
    destruct decision as [[x|]|]; [|done..]. by destruct (Rules.Allowed x). }
  apply triple_transaction. eapply triple_bind with (Q := λ _ s, found Rel r0 (Delegation.TaskID d) t s /\
      Task.Status t ∉ [TaskStatusCompleted; TaskStatusCancelled]);
    [|intros _; eapply triple_bind with (Q := λ _, inv); [|intros _]].
  - apply triple_wrapping. intros s [[Hs Hl] Hst]. unfold write_. simpl.
    destruct (Tasks.CreateDelegation _ _ _) as [r|e] eqn:Hc; [|done].
    unfold Tasks.CreateDelegation, query in Hc. destruct (fault _ _ _); [done|]. by injection Hc as <-.
  - intros s [Hs Hst].
    assert (Rel (Task.Status t) TaskStatusAssigned) as Hrel by (apply rtc_once; by do 3 right).
    destruct (savable_found Rel r0 _ t (delegated E d t) eq_refl Hrel s Hs) as [Hr (t0 & Ht0 & Hrel0)].
    unfold write. simpl. destruct (Tasks.UpdateWithVersion _ _ _ _) as [[t' r']|e] eqn:Hu; [|done].
    apply doUpdate_ok in Hu as (_ & p & res & t1 & _ & _ & _ & ->).
    eapply evolves_trans; [apply _|exact Hr|]. apply (evolves_update _ _ _ _ _ _ t0); [done|exact Hrel0].
  - intros s Hs. unfold lift. by destruct (publish E _).
Qed.
End life.

(** ** Trees *)

(** The live tasks whose parent is [id], the oldest first. *)
Definition subtasks (r : Tasks.Rows) (id : UUID) : list Task.t :=
  foldr (insert_sorted (λ a b, Task.CreatedAt a <? Task.CreatedAt b)) []
    (filter (λ task, Tasks.child_of id task = true) (Tasks.tasks r)).

(** Those, and the ones below them: [n] levels. *)
Fixpoint descendants (n : nat) (r : Tasks.Rows) (id : UUID) : list Task.t :=
  match n with
  | O => []
  | S n => let l := subtasks r id in (l ++ (l ≫= λ child, descendants n r (Task.ID child)))%list
  end.

Definition kids (tree : TaskTree.t) : list Task.t := concat (map_to_list (TaskTree.Children tree)).*2.

Lemma elem_of_kids tree t :
  t ∈ kids tree <-> exists id l, TaskTree.Children tree !! id = Some l /\ t ∈ l.
Proof.
  unfold kids. rewrite list_elem_of_In, in_concat. setoid_rewrite <-list_elem_of_In. split.
  - intros (l & ([id l'] & -> & Hl%elem_of_map_to_list)%list_elem_of_fmap & Ht). by exists id, l'.
  - intros (id & l & Hl & Ht). exists l. split; [|done]. apply list_elem_of_fmap. exists (id, l).
    by rewrite elem_of_map_to_list.
Qed.

Section tree.
Context (d : database) (r : Tasks.Rows).

Lemma GetSubtasks_ok id l : Tasks.GetSubtasks d id r = Ok l -> l = subtasks r id.
Proof. unfold Tasks.GetSubtasks, query. destruct (fault _ _ _); [done|]. by intros [= <-]. Qed.

Definition consistent (tree : TaskTree.t) : Prop :=
  map_Forall (λ id l, l = subtasks r id) (TaskTree.Children tree).

Definition loaded (tree : TaskTree.t) (l : list Task.t) (tree' : TaskTree.t) : Prop :=
  consistent tree' /\ TaskTree.Root tree' = TaskTree.Root tree /\
  forall t, t ∈ kids tree' <-> t ∈ kids tree \/ t ∈ l.

Lemma loaded_insert tree id n :
  consistent tree ->
  loaded tree (subtasks r id)
    (TaskTree.Mk (TaskTree.Root tree) (<[id := subtasks r id]> (TaskTree.Children tree)) n).
Proof.
  intros Hc. split_and!; [by apply map_Forall_insert_2|done|]. intros t. rewrite !elem_of_kids. simpl. split.
  - intros (k & l & [[-> <-]|[_ Hl]]%lookup_insert_Some & Ht); [by right|left; by eauto].
  - intros [(k & l & Hl & Ht)|Ht].
    + destruct (decide (k = id)) as [->|Hne].
      * exists id, (subtasks r id). rewrite lookup_insert_eq. by rewrite <-(Hc id l Hl).
      * exists k, l. by rewrite lookup_insert_ne.
    + exists id, (subtasks r id). by rewrite lookup_insert_eq.
Qed.

(** The loop over the children, where [load] loads what is below one of them. *)
Lemma load_all (load : UUID -> TaskTree.t -> result error TaskTree.t) (below : UUID -> list Task.t) :
  (forall id tree tree', consistent tree -> load id tree = Ok tree' -> loaded tree (below id) tree') ->
  forall todo sofar tree t1 tree', loaded tree sofar t1 ->
    foldl (λ acc child, match acc with Ok t => load (Task.ID child) t | Err e => Err e end) (Ok t1) todo
      = Ok tree' ->
    loaded tree (sofar ++ (todo ≫= λ child, below (Task.ID child))) tree'.
Proof.
  intros Hload. induction todo as [|c todo IH]; intros sofar tree t1 tree' Hi; cbn [foldl].
  { intros [= <-]. by rewrite app_nil_r. }
  destruct (load (Task.ID c) t1) as [t2|e] eqn:Ht2.
  2:{ intros Hf. exfalso. clear -Hf. induction todo as [|y todo IH]; [done|by apply IH]. }
  destruct Hi as (H1 & H2 & H3). apply Hload in Ht2 as (H4 & H5 & H6); [|done].
  cbn [mbind list_bind]. rewrite (assoc_L (++)%list). apply IH. split_and!; [done|congruence|].
  intros t. rewrite H6, H3, elem_of_app. tauto.
Qed.

Lemma loadTaskChildren_ok depth maxDepth parent tree tree' :
  consistent tree -> Tasks.loadTaskChildren depth d maxDepth parent r tree = Ok tree' ->
  loaded tree (descendants depth r parent) tree'.
Proof.
  revert parent tree tree'. induction depth as [|depth IH]; intros parent tree tree' Hc;
    cbn [Tasks.loadTaskChildren descendants].
  { intros [= <-]. split_and!; [done..|]. intros t. rewrite elem_of_nil. tauto. }
  destruct (Tasks.GetSubtasks d parent r) as [l|e] eqn:Hl; [|done]. apply GetSubtasks_ok in Hl.
  rewrite <-Hl. destruct l as [|x l].
  { intros [= <-]. split_and!; [done..|]. intros t. cbn. rewrite elem_of_nil. tauto. }
  apply (load_all (λ id tree, Tasks.loadTaskChildren depth d maxDepth id r tree)); [done|].
  pose proof (loaded_insert tree parent (Nat.max (TaskTree.Depth tree) (maxDepth - depth)) Hc) as Hi.
  by rewrite <-Hl in Hi.
Qed.

Lemma GetTaskTree_ok id n tree root :
  Tasks.lookup id r = Some root -> Tasks.GetTaskTree d id n r = Ok tree ->
  exists tr, tree = Some tr /\ TaskTree.Root tr = root /\
    forall t, t ∈ kids tr <-> t ∈ descendants n r id.
Proof.
  intros Hroot. unfold Tasks.GetTaskTree. destruct (Tasks.Get d id r) as [t|e] eqn:Hg; [|done].
  apply get_ok in Hg. assert (t = root) as -> by congruence.
  destruct (Tasks.loadTaskChildren _ _ _ _ _ _) as [tr|e] eqn:Hl; [|done]. intros [= <-].
  apply loadTaskChildren_ok in Hl as (_ & Hr & Hk); [|apply map_Forall_empty].
  exists tr. split_and!; [done..|]. intros t. rewrite Hk, elem_of_kids. simpl. split; [|by right].
  intros [(k & l & Hl & _)|?]; [by rewrite lookup_empty in Hl|done].
Qed.
End tree.

Lemma elem_of_subtasks r id t : t ∈ subtasks r id <-> t ∈ Tasks.tasks r /\ Tasks.child_of id t = true.
Proof.
  pose proof (insertion_sort_perm (λ a b, Task.CreatedAt a <? Task.CreatedAt b)
    (filter (λ task, Tasks.child_of id task = true) (Tasks.tasks r))) as Hp.
  unfold subtasks. unfold slice_sort, insertion_sort in Hp. rewrite Hp, list_elem_of_filter. tauto.
Qed.

Lemma elem_of_descendants n r id t :
  t ∈ descendants n r id -> t ∈ Tasks.tasks r /\ Tasks.live (Task.ID t) t = true.
Proof.
  revert id. induction n as [|n IH]; intros id; simpl; [by intros ?%elem_of_nil|].
  rewrite elem_of_app, list_elem_of_bind. intros [[Hin Hc]%elem_of_subtasks|(c & Hc & _)]; [|by eapply IH].
  split; [done|]. apply andb_true_iff in Hc as [_ Hd]. unfold Tasks.live. by rewrite N.eqb_refl.
Qed.

(** ** Cancellation of a tree *)

Section cancel.
Context {enc : Encoding} {C : Type} {caching : CacheOps cached C}.
Context {uuids : UUIDText} (E : env).
Notation Rel := (rtc move).
Notation system := (state Tasks.Rows C).
Implicit Types (s : system) (task t : Task.t) (l : list Task.t).

Definition cancelled_by reason task : Task.t :=
  touched E (Task.set_Error reason (Task.set_Status TaskStatusCancelled task)).

(** The rows of the tasks of [l] are as they were read, or cancelled meanwhile. *)
Definition as_read l s : Prop :=
  forall t, t ∈ l -> exists t', Tasks.lookup (Task.ID t) (repo s) = Some t' /\
    (Task.Status t' = Task.Status t \/ Task.Status t' = TaskStatusCancelled).

Lemma cancellable_move task t' :
  cancellable task = true ->
  Task.Status t' = Task.Status task \/ Task.Status t' = TaskStatusCancelled ->
  Rel (Task.Status t') TaskStatusCancelled.
Proof.
  intros Hc [->| ->]; [|done]. apply rtc_once. right. right. left. split; [|done]. intros Heq.
  unfold cancellable in Hc. rewrite Heq in Hc. done.
Qed.

(** One task of the tree. *)
Lemma lookup_cancelled reason x p res r id t' :
  Tasks.lookup id (Tasks.update_rows (λ _, true) (Task.set_UpdatedAt (db_now (db E))
      (Task.set_Version (i64 (Task.Version (cancelled_by reason x) + 1)) (cancelled_by reason x))) p res r) = Some t' <->
  exists t, Tasks.lookup id r = Some t /\
    t' = if (Task.ID t =? Task.ID x)%N then Tasks.overwritten (Task.set_UpdatedAt (db_now (db E))
           (Task.set_Version (i64 (Task.Version (cancelled_by reason x) + 1)) (cancelled_by reason x))) t p res else t.
Proof.
  rewrite lookup_update_rows, fmap_Some. split; intros (t & Ht & ->); exists t; (split; [done|]);
    unfold Tasks.lookup in Ht; apply List.find_some in Ht as [_ [_ Hd]%live_spec];
    unfold Tasks.live; rewrite andb_true_r, (bool_decide_eq_true_2 _ Hd), andb_true_r; done.
Qed.

Lemma cancel_all_keeps r0 reason l s :
  from_r0 Rel r0 s -> as_read l s -> from_r0 Rel r0 (cancel_all E reason l s).1.
Proof.
  revert s. induction l as [|x l IH]; intros s Hs Hl; [done|]. cbn [cancel_all].
  assert (as_read l s) as Hl' by (intros t Ht; apply Hl; by right).
  assert (forall s1 err, from_r0 Rel r0 s1 -> as_read l s1 ->
    from_r0 Rel r0 ((cancel_all E reason l ≫= λ errs, ret (match err with Some e => Some e | None => errs end)) s1).1)
    as Hrest.
  { intros s1 err H1 H2. specialize (IH s1 H1 H2). unfold mbind, M_bind.
    by destruct (cancel_all E reason l s1) as [s2 [?|?|]]. }
  unfold mbind at 1, M_bind at 1. destruct (cancellable x) eqn:Hc; [|exact (Hrest s None Hs Hl')].
  unfold write. simpl. destruct (Tasks.Update _ _ _) as [[t r]|e] eqn:Hu; [|exact (Hrest s (Some e) Hs Hl')].
  apply doUpdate_ok in Hu as (_ & p & res & t0 & _ & _ & Ht0 & ->).
  destruct (Hl x ltac:(by left)) as (t1 & Ht1 & Hst).
  apply (Hrest (set_repo _ s) None).
  - eapply evolves_trans; [apply _|exact Hs|]. apply (evolves_update _ _ _ _ _ _ t1); [done|].
    by apply (cancellable_move x).
  - intros y Hy. destruct (Hl' y Hy) as (t2 & Ht2 & Hst2). cbn [repo set_repo].
    eexists. split; [apply (lookup_cancelled reason x); by exists t2|]. destruct (_ =? _)%N; [by right|done].
Qed.

(** When no update fails, exactly the tasks that could be cancelled are. *)
Lemma cancel_all_ok reason l s s' :
  cancel_all E reason l s = (s', Returns None) ->
  (forall t, t ∈ l -> cancellable t = true ->
     exists t', Tasks.lookup (Task.ID t) (repo s') = Some t' /\ Task.Status t' = TaskStatusCancelled) /\
  (forall id, (forall t, t ∈ l -> Task.ID t = id -> cancellable t = false) ->
     Tasks.lookup id (repo s') = Tasks.lookup id (repo s)).
Proof.
  revert s. induction l as [|x l IH]; intros s.
  { intros [= <-]. split; [by intros t ?%elem_of_nil|done]. }
  cbn [cancel_all]. rewrite bind_returns. intros (err & s1 & H1 & H2).
  rewrite bind_returns in H2. destruct H2 as (errs & s2 & H2 & H3). apply ret_returns in H3 as [-> H3].
  destruct err as [e|]; [done|]. subst errs. apply IH in H2 as [Hin Hout].
  destruct (cancellable x) eqn:Hc.
  2:{ injection H1 as <-. split.
      - intros t [->|Ht]%elem_of_cons; [by rewrite Hc|by apply Hin].
      - intros id Hid. apply Hout. intros t Ht. apply Hid. by right. }
  unfold write in H1. simpl in H1. destruct (Tasks.Update _ _ _) as [[t r]|e] eqn:Hu; [|done].
  injection H1 as <-. apply doUpdate_ok in Hu as (_ & p & res & t0 & _ & _ & Ht0 & ->).
  split.
  - intros u Ht Hct. apply elem_of_cons in Ht as [->|Ht]; [|by apply Hin].
    destruct (existsb (λ y, (Task.ID y =? Task.ID x)%N && cancellable y) l) eqn:Hex.
    + apply existsb_exists in Hex as (y & Hy & [Hyx%N.eqb_eq Hcy]%andb_true_iff).
      rewrite <-Hyx. apply Hin; [by apply list_elem_of_In|done].
    + rewrite Hout.
      2:{ intros y Hy Hyx. apply not_true_iff_false. intros Hcy. apply not_true_iff_false in Hex.
          apply Hex, existsb_exists. exists y. by rewrite Hyx, N.eqb_refl, <-list_elem_of_In. }
      eexists. split; [apply (lookup_cancelled reason x); by exists t0|].
      apply lookup_spec in Ht0 as [Hid _]. cbn in Hid. by rewrite Hid, N.eqb_refl.
  - intros id Hid. rewrite Hout by (intros u Ht; apply Hid; by right). cbn [repo set_repo].
    rewrite lookup_update_rows. destruct (Tasks.lookup id (repo s)) as [t1|] eqn:Ht1; [|done]. simpl. f_equal.
    apply lookup_spec in Ht1 as [Hid1 _]. destruct (_ && _) eqn:Hl; [|done].
    apply andb_true_iff in Hl as [[Hx _]%live_spec _]. cbn in Hx.
    rewrite (Hid x) in Hc; [done|by left|congruence].
Qed.
End cancel.

Section results.
Context {enc : Encoding} {uuids : UUIDText} {agents_of : AgentService} {sorter : SliceSort}.
Notation Rel := (rtc move).

Section any_cache.
Context {C : Type} {caching : CacheOps cached C}.
Notation system := (state Tasks.Rows C).
Implicit Types (s : system) (task t : Task.t).

(** The root and the ten levels below it. *)
Definition in_tree (r : Tasks.Rows) (id : UUID) (t : Task.t) : Prop :=
  Tasks.lookup id r = Some t \/ t ∈ descendants 10 r id.

Lemma in_tree_lookup r id t : NoDup (ids r) -> in_tree r id t -> Tasks.lookup (Task.ID t) r = Some t.
Proof.
  intros Hnd [Hl|Ht].
  - pose proof (proj1 (lookup_spec _ _ _ Hl)) as ->. done.
  - apply elem_of_descendants in Ht as [Hin Hl]. by apply lookup_unique.
Qed.

Lemma read_returns {A} (f : Tasks.Rows -> result error A) s s' a :
  read f s = (s', Returns a) <-> s' = s /\ f (repo s) = Ok a.
Proof.
  unfold read. destruct (f (repo s)) as [b|e]; split; [by intros [= <- ->]|by intros [-> [= ->]]|done|by intros [_ ?]].
Qed.

Lemma GetTaskTree_reads E id s s' tree :
  GetTaskTree E id s = (s', Returns tree) ->
  s' = s /\ forall t, t ∈ TaskTree.Root tree :: kids tree <-> in_tree (repo s) id t.
Proof.
  unfold GetTaskTree, has_id, allowed_to, need. rewrite bind_returns. intros ([] & s1 & [-> _]%guard_returns & H).
  rewrite bind_returns in H. destruct H as ([] & s2 & [-> _]%guard_returns & H).
  rewrite bind_returns in H. destruct H as (root & s3 & Hr & H).
  rewrite wrapping_returns, read_returns in Hr. destruct Hr as [-> Hr]. apply get_ok in Hr.
  rewrite bind_returns in H. destruct H as (tr & s4 & Ht & H).
  rewrite wrapping_returns, read_returns in Ht. destruct Ht as [-> Ht].
  apply ret_returns in H as [-> ->]. split; [done|].
  destruct (GetTaskTree_ok _ _ _ _ _ _ Hr Ht) as (x & -> & Hroot & Hk). intros t. simpl.
  unfold in_tree. rewrite elem_of_cons, Hk, Hroot, Hr. split; (intros [H|H]; [left; congruence|by right]).
Qed.

Lemma keeps_CancelTaskTree r0 order E id reason :
  NoDup (ids r0) -> (forall l, order l ≡ₚ l) ->
  keeps (from_r0 (C := C) Rel r0) (CancelTaskTree E order id reason).
Proof.
  intros Hnd Ho. unfold CancelTaskTree, has_id, given, allowed_to.
  repeat (apply keeps_bind; [apply keeps_need|intros []]). apply keeps_triple.
  eapply triple_bind with (Q := λ tree s, from_r0 Rel r0 s /\
    forall t, t ∈ TaskTree.Root tree :: kids tree -> in_tree (repo s) id t).
  { apply triple_wrapping. intros s Hs. pose proof (GetTaskTree_reads E id s) as Hr.
    assert (keeps (from_r0 (C := C) Rel r0) (GetTaskTree E id)) as Hk.
    { unfold GetTaskTree, has_id, allowed_to. repeat (apply keeps_bind; [apply keeps_need|intros []]).
      repeat (apply keeps_bind; [apply keeps_wrapping, keeps_read|intros ?]). apply keeps_ret. }
    specialize (Hk s Hs). destruct (GetTaskTree E id s) as [s1 [tree|e|]]; [|done..].
    destruct (Hr s1 tree eq_refl) as [-> Ht]. split; [done|]. intros t. apply Ht. }
  intros tree s [Hs Ht].
  assert (as_read (order (TaskTree.Root tree :: kids tree)) s) as Hread.
  { intros t Hin. rewrite Ho in Hin. exists t. split; [|by left].
    apply (in_tree_lookup _ id); [by apply Hs|by apply Ht]. }
  pose proof (cancel_all_keeps E r0 reason _ s Hs Hread) as Hc.
  unfold mbind, M_bind. fold (kids tree).
  destruct (cancel_all _ _ _ s) as [s1 [[e|]|e|]]; done.
Qed.

Lemma keeps_discard_task {A} (P : system -> Prop) (m : ServiceMonad.M system A) :
  keeps P m -> keeps P (discard m).
Proof. intros Hm. apply keeps_bind; [done|intros _; apply keeps_ret]. Qed.

Lemma triple_discard {A} (P F : system -> Prop) (m : ServiceMonad.M system A) :
  triple P m (λ _, F) F -> triple P (discard m) (λ _, F) F.
Proof. intros Hm. eapply triple_bind; [done|]. intros _ s Hs. done. Qed.

Lemma keeps_triple_at {A} (F P : system -> Prop) (m : ServiceMonad.M system A) s :
  triple P m (λ _, F) F -> P s -> F (m s).1.
Proof. intros Hm Hs. specialize (Hm s Hs). by destruct (m s) as [s1 [a|e|]]. Qed.

Lemma keeps_serve_tasks r0 order E q :
  NoDup (ids r0) -> (forall l, order l ≡ₚ l) ->
  forall s, from_r0 (C := C) Rel r0 s -> new_id E ∉ ids (repo s) -> from_r0 Rel r0 (serve E order q s).1.
Proof.
  intros Hnd Ho s Hs Hf. destruct q; cbn [serve].
  - apply (keeps_triple_at _ (fresh r0 E)); [|done]. apply triple_discard, triple_Create.
  - apply keeps_discard_task; [|done]. apply (keeps_Update Rel). intros a. apply valid_move.
  - by apply keeps_AssignTask.
  - by apply keeps_AutoAssignTask.
  - by apply keeps_AcceptTask.
  - by apply keeps_RejectTask.
  - by apply keeps_StartTask.
  - by apply (keeps_UpdateProgress Rel).
  - by apply keeps_CompleteTask.
  - by apply keeps_FailTask.
  - by apply keeps_RetryTask.
  - by apply keeps_DelegateTask.
  - by apply keeps_SubmitSubtaskResult.
  - by apply keeps_CancelTaskTree.
  - apply (keeps_triple_at _ (fresh r0 E)); [|done]. apply triple_discard.
    unfold CreateWorkflowTask, has_id, allowed_to.
    assert (forall s, fresh (C := C) r0 E s -> from_r0 Rel r0 s) as HF by by intros ? [? _].
    do 4 (apply triple_reads; [done|intros; apply reads_guard|intros _]).
    apply triple_wrapping, triple_Create.
  - unfold CompleteWorkflowTask, has_id, allowed_to.
    apply keeps_bind; [apply keeps_need|intros _|done]. apply keeps_bind; [apply keeps_need|intros _].
    apply keeps_bind; [apply keeps_wrapping, keeps_read|intros t].
    apply keeps_bind; [apply keeps_need|intros _]. apply keeps_wrapping, keeps_CompleteTask.
  - by apply (keeps_tick Rel).
Qed.

(** A request at some instant, with any answers of the collaborators; the identifier that it
    generates for a new task is not in use.  Deletions aside, these are all requests. *)
Inductive step : system -> system -> Prop :=
| step_request E order q s :
    (forall l, order l ≡ₚ l) -> new_id E ∉ ids (repo s) -> step s (serve E order q s).1.

Lemma steps_evolve s s' : NoDup (ids (repo s)) -> rtc step s s' -> evolves Rel (repo s) (repo s').
Proof.
  intros Hnd. revert s'. apply rtc_ind_r; [apply evolves_refl; apply _|].
  intros s1 s2 _ Hstep IH. destruct Hstep as [E order q s1 Ho Hf].
  apply (keeps_serve_tasks (repo s)); done.
Qed.

Lemma move_from_completed b : Rel TaskStatusCompleted b -> b = TaskStatusCompleted.
Proof.
  intros Hr. remember TaskStatusCompleted as a eqn:Ha. revert Ha. induction Hr as [a|a b c Hab Hbc IH]; [done|].
  intros ->. exfalso. destruct Hab as [H|[[H _]|[[H _]|[H _]]]]; [|done|done|apply H; by left].
  unfold isValidStatusTransition in H. vm_compute in H. done.
Qed.

Lemma move_to_timeout a : Rel a TaskStatusTimeout -> a = TaskStatusTimeout.
Proof.
  intros [->|(b & _ & [H|[[_ H]|[[_ H]|[_ H]]]])]%rtc_inv_r; [done| |done..].
  by rewrite never_to_timeout in H.
Qed.


Definition status_of (id : UUID) s : option string := Task.Status <$> Tasks.lookup id (repo s).

(** The progress tracker cannot time a task out: whatever it tracks and however long ago it
    began, a tick leaves every task with the status that it had.  The update to ["timeout"] is
    refused, since the table of transitions has no such status. *)
Theorem tick_times_nothing_out E l s id st :
  status_of id s = Some st -> status_of id (checkProgress E l s).1 = Some st.
Proof.
  unfold status_of. intros (t & Ht & ->)%fmap_Some.
  pose proof (keeps_tick (C := C) eq (repo s) E l s (evolves_refl eq (repo s))) as [_ He].
  destruct (He id t Ht) as (t' & -> & Heq). simpl. by rewrite Heq.
Qed.

(** C28 Cancelling a tree.  If it returns without an error, the root and the tasks of the ten
    levels below it are cancelled, but for those that were completed; all other tasks, and
    those of the tree that were completed or cancelled, are as they were. *)
Theorem cancel_tree order E id reason s s' :
  NoDup (ids (repo s)) -> (forall l, order l ≡ₚ l) ->
  CancelTaskTree E order id reason s = (s', Returns ()) ->
  (forall t, in_tree (repo s) id t -> exists t', Tasks.lookup (Task.ID t) (repo s') = Some t' /\
     Task.Status t' = if bool_decide (Task.Status t = TaskStatusCompleted)
                      then TaskStatusCompleted else TaskStatusCancelled) /\
  (forall k, (forall t, in_tree (repo s) id t -> Task.ID t = k -> cancellable t = false) ->
     Tasks.lookup k (repo s') = Tasks.lookup k (repo s)).
Proof.
  intros Hnd Ho. unfold CancelTaskTree, has_id, given, allowed_to, need.
  rewrite bind_returns. intros ([] & s1 & [-> _]%guard_returns & H).
  rewrite bind_returns in H. destruct H as ([] & s2 & [-> _]%guard_returns & H).
  rewrite bind_returns in H. destruct H as ([] & s3 & [-> _]%guard_returns & H).
  rewrite bind_returns in H. destruct H as (tree & s4 & Ht & H).
  rewrite wrapping_returns in Ht. apply GetTaskTree_reads in Ht as [-> Ht].
  rewrite bind_returns in H. destruct H as (err & s5 & Hc & H). destruct err as [e|]; [done|].
  assert (repo s' = repo s5) as -> by (injection H as <-; done). clear H.
  apply cancel_all_ok in Hc as [Hin Hout]. fold (kids tree) in *. split.
  - intros t Htr. pose proof (in_tree_lookup _ _ _ Hnd Htr) as Hl. destruct (cancellable t) eqn:Hct.
    + destruct (Hin t) as (t' & Hl' & Hst); [rewrite Ho; by apply Ht|done|]. exists t'. split; [done|].
      rewrite bool_decide_eq_false_2; [done|]. intros Heq. unfold cancellable in Hct. by rewrite Heq in Hct.
    + exists t. split.
      * rewrite Hout; [done|]. intros y Hy Hid. rewrite Ho in Hy. apply Ht, in_tree_lookup in Hy; [|done].
        rewrite Hid in Hy. congruence.
      * apply negb_false_iff, existsb_exists in Hct as (x & Hx & ->%String.eqb_eq).
        by destruct Hx as [<-|[<-|[]]].
  - intros k Hk. apply Hout. intros t Hin'. rewrite Ho in Hin'. apply Hk. by apply Ht.
Qed.

Lemma bind_ext {A B} (m : ServiceMonad.M system A) (f g : A -> ServiceMonad.M system B) s :
  (forall a s', m s = (s', Returns a) -> f a s' = g a s') -> (m ≫= f) s = (m ≫= g) s.
Proof. intros H. unfold mbind, M_bind. destruct (m s) as [s1 [a|e|]]; [by apply H|done..]. Qed.

Lemma of_agent_returns E id agent status what s s' t :
  of_agent E id agent status what s = (s', Returns t) ->
  s' = s /\ Tasks.lookup id (repo s) = Some t /\ Task.AssignedTo t = Some agent /\ Task.Status t = status.
Proof.
  unfold of_agent, assigned_to, in_status, need. rewrite bind_returns. intros (t1 & s1 & Ht & H).
  unfold fetch in Ht. rewrite wrapping_returns, read_returns in Ht. destruct Ht as [-> Ht]. apply get_ok in Ht.
  rewrite bind_returns in H. destruct H as ([] & s2 & [-> Ha]%guard_returns & H).
  rewrite bind_returns in H. destruct H as ([] & s3 & [-> Hs]%guard_returns & H).
  apply ret_returns in H as [-> ->]. apply bool_decide_eq_true in Ha. simpl in Hs.
  rewrite orb_false_r in Hs. by apply String.eqb_eq in Hs.
Qed.

(** A result that is not an object is lost if the task has any entry in its result already, as
    it has after a report of progress: the call is the same, whatever the result. *)
Theorem result_dropped E id agent v v' s t :
  Tasks.lookup id (repo s) = Some t -> Task.Result t ≠ None -> as_map v = None -> as_map v' = None ->
  CompleteTask E id agent v s = CompleteTask E id agent v' s.
Proof.
  intros Ht Hr Hv Hv'. unfold CompleteTask, has_id, given, need.
  apply bind_ext. intros _ s1 [-> _]%guard_returns. apply bind_ext. intros _ s2 [-> _]%guard_returns.
  apply bind_ext. intros t1 s3 (-> & Ht1 & _)%of_agent_returns. assert (t1 = t) as -> by congruence.
  enough (completed E agent v t = completed E agent v' t) as -> by done.
  unfold completed, with_result. rewrite Hv, Hv'. cbn. by destruct (Task.Result t).
Qed.
End any_cache.

(** ** With the cache of [NewTaskService] *)

Section memory.
Notation system := (state Tasks.Rows (Memory.MemoryCache cached)).
Implicit Types (s : system) (task t : Task.t).

Lemma idempotency_never_found E key s : checkIdempotency E key s = (s, Returns None).
Proof.
  unfold checkIdempotency. destruct (String.eqb key ""); [done|]. unfold cache_Get. simpl. unfold Memory.Get.
  destruct (Memory.items _ !! _) as [item|]; [|done]. by destruct (time_after _ _).
Qed.

(** An idempotency key does nothing: a call that returns has added a new row to the table,
    whatever was created under the key before. *)
Theorem key_ignored E task key s s' t :
  Create E task key s = (s', Returns t) ->
  Task.ID t = new_id E /\
  exists row, Task.ID row = new_id E /\ Tasks.tasks (repo s') = (Tasks.tasks (repo s) ++ [row])%list.
Proof.
  unfold Create. rewrite bind_returns. intros ([] & s1 & [-> _]%lift_returns & H).
  rewrite bind_returns in H. destruct H as ([] & s2 & [-> _]%lift_returns & H).
  rewrite bind_returns in H. destruct H as (x & s3 & Hx & H). rewrite idempotency_never_found in Hx.
  injection Hx as <- <-.
  rewrite bind_returns in H. destruct H as (t1 & s4 & [-> _]%lift_returns & H).
  rewrite bind_returns in H. destruct H as ([] & s5 & [-> _]%lift_returns & H).
  rewrite bind_returns in H. destruct H as ([] & s6 & [-> _]%lift_returns & H).
  rewrite bind_returns in H. destruct H as (t2 & s7 & Ht & H).
  assert (repo s' = repo s7 /\ t = t2) as [-> ->].
  { rewrite bind_returns in H. destruct H as ([] & s8 & H8 & H).
    assert (repo s8 = repo s7) as <- by (destruct (Task.AssignedTo t2); by injection H8 as <-).
    by injection H as <- <-. }
  rewrite in_transaction_run, bind_returns in Ht. destruct Ht as (t3 & s9 & [-> Hd]%lift_returns & Ht).
  apply applyTaskDefaults_id in Hd. cbn in Hd.
  rewrite bind_returns in Ht. destruct Ht as (t4 & s10 & Ha & Ht).
  assert (repo s10 = repo s /\ Task.ID t4 = new_id E) as [Hr Hid].
  { unfold auto_assigned in Ha. destruct (_ && _); [|by injection Ha as <- <-].
    unfold find_agent, with_engine in Ha. destruct (FindBestAgent _ _ _ _ _) as [e [a|err|]];
      [by injection Ha as <- <-..|done]. }
  rewrite bind_returns in Ht. destruct Ht as (t5 & s11 & Hc & Ht). rewrite wrapping_returns in Hc.
  unfold write in Hc. simpl in Hc. destruct (Tasks.Create _ _ _) as [[t6 r]|e] eqn:Hcr; [|done].
  injection Hc as <- <-. apply create_ok in Hcr as (H6 & row & Hrow & _ & _ & ->).
  rewrite bind_returns in Ht. destruct Ht as ([] & s12 & Hk & Ht).
  rewrite bind_returns in Ht. destruct Ht as ([] & s13 & [-> _]%lift_returns & Ht).
  apply ret_returns in Ht as [-> ->].
  assert (repo s12 = Tasks.set_tasks (Tasks.tasks (repo s10) ++ [row])%list (repo s10)) as ->
    by (destruct (String.eqb key ""); by injection Hk as <-).
  split; [congruence|]. exists row. split; [congruence|]. by rewrite Hr.
Qed.
End memory.
End results.

(** ** Examples *)

Definition calm_task (t : Z) (fresh_id : UUID) : env :=
  MkEnv t 1%N "agent" fresh_id (λ _ _, None) (λ _, Returns ()) (Returns ()) None None None None None
    (Ok []) (λ _, O) (λ _, Returns ()) (λ _, "time") (λ _, "duration").

#[local] Existing Instances plain_encoding decimal_uuids sample_agents.

Notation demo := (state Tasks.Rows (Memory.MemoryCache cached)).

Definition row (id : UUID) (parent : option UUID) (status : string) (result : option JSONMap) : Task.t :=
  Task.Mk id 1%N "build" status "normal" "agent" (Some "a") parent "t" "" ∅ result "" 3 0 60 0 None (Some 0)
    None 0 None 1.

Definition with_rows (l : list Task.t) : demo :=
  MkState NewAssignmentEngine (Memory.NewMemoryCache 100 (5 * minute)) (Tasks.MkRows l []) ∅.

Definition root_and_two : demo :=
  with_rows [row 1%N None "in_progress" (Some ∅); row 2%N (Some 1%N) "completed" None;
             row 3%N (Some 2%N) "pending" None].

Lemma distinct_rows : NoDup (ids (repo root_and_two)).
Proof. apply (bool_decide_eq_true_1 _). vm_compute. reflexivity. Qed.

(** A new task, from its creation to its completion. *)
Example a_life :
  let ask t q s := (serve (calm_task t 9%N) (λ l, l) q s).1 in
  let s := ask 1 (RCreate (sample_task "normal") "key") (with_rows []) in
  let s := ask 5 (RComplete 9%N "a" ANil) (ask 4 (RStart 9%N "a") (ask 3 (RAccept 9%N "a") (ask 2 (RAssign 9%N "a") s))) in
  (λ t, (Task.Status t, Task.StartedAt t, Task.CompletedAt t)) <$> Tasks.lookup 9%N (repo s)
    = Some ("completed", Some 4, Some 5).
Proof. vm_compute. reflexivity. Qed.


(** Started at 0 with a minute to run, looked at after an hour. *)
Lemma tick_times_nothing_out_witness :
  status_of 1%N (checkProgress (calm_task (60 * minute) 9%N) [(1%N, 0)] root_and_two).1 = Some "in_progress".
Proof.
  exact (tick_times_nothing_out (calm_task (60 * minute) 9%N) [(1%N, 0)] root_and_two 1%N "in_progress"
           ltac:(vm_compute; reflexivity)).
Defined.

Definition cancelled_demo : demo * res unit :=
  CancelTaskTree (calm_task 7 9%N) (λ l, rev l) 1%N "stop" root_and_two.

Lemma cancel_tree_witness :
  exists t', Tasks.lookup 3%N (repo cancelled_demo.1) = Some t' /\ Task.Status t' = "cancelled".
Proof.
  assert (cancelled_demo.2 = Returns ()) as Hok by (vm_compute; reflexivity).
  destruct cancelled_demo as [s' r] eqn:Hd. cbn [fst snd] in *. subst r.
  destruct (cancel_tree (λ l, rev l) (calm_task 7 9%N) 1%N "stop" root_and_two s') as [Hin _].
  - exact distinct_rows.
  - intros l. symmetry. apply Permutation_rev.
  - exact Hd.
  - apply (Hin (row 3%N (Some 2%N) "pending" None)). right.
    change (descendants 10 (repo root_and_two) 1%N) with
      [row 2%N (Some 1%N) "completed" None; row 3%N (Some 2%N) "pending" None].
    right. left.
Defined.

Lemma result_dropped_witness :
  CompleteTask (calm_task 7 9%N) 1%N "a" (AString "done") root_and_two =
  CompleteTask (calm_task 7 9%N) 1%N "a" ANil root_and_two.
Proof.
  exact (result_dropped (calm_task 7 9%N) 1%N "a" (AString "done") ANil root_and_two
           (row 1%N None "in_progress" (Some ∅)) ltac:(vm_compute; reflexivity) ltac:(discriminate)
           eq_refl eq_refl).
Defined.

Definition created_once : demo * res Task.t :=
  Create (calm_task 7 8%N) (sample_task "normal") "key" (with_rows []).
Definition created_twice : demo * res Task.t :=
  Create (calm_task 8 9%N) (sample_task "normal") "key" created_once.1.

Lemma key_ignored_witness :
  is_returns created_once.2 = true /\
  exists t row, created_twice.2 = Returns t /\ Task.ID t = 9%N /\
    Tasks.tasks (repo created_twice.1) = (Tasks.tasks (repo created_once.1) ++ [row])%list.
Proof.
  split; [vm_compute; reflexivity|].
  assert (is_returns created_twice.2 = true) as Hok by (vm_compute; reflexivity).
  destruct created_twice as [s' [t|e|]] eqn:Hd; [|discriminate Hok..].
  destruct (key_ignored (calm_task 8 9%N) (sample_task "normal") "key" created_once.1 s' t Hd)
    as [Hid (r & _ & Hr)].
  exists t, r. split; [reflexivity|]. split; [exact Hid|exact Hr].
Defined.

(** A task eleven levels below the root survives. *)
Definition chain (n : nat) : list Task.t :=
  (λ i, row (N.of_nat (S i)) (match i with O => None | S _ => Some (N.of_nat i) end) "pending" None) <$> seq 0 n.

Example eleventh_level_survives :
  let s := (CancelTaskTree (calm_task 7 99%N) (λ l, l) 1%N "stop" (with_rows (chain 12))).1 in
  (Task.Status <$> Tasks.lookup 11%N (repo s)) = Some "cancelled" /\
  (Task.Status <$> Tasks.lookup 12%N (repo s)) = Some "pending".
Proof. vm_compute. split; reflexivity. Qed.
