(* ===== verification/CoreClient.v ===== *)
(** * CoreClient: the edge server as a client of the core platform

    The file [apps/edge-mcp/internal/core/client.go] and the bundle of credentials of
    [pkg/models/passthrough_auth.go].  HTTP and the clock are functions of the world; the
    retries are those of [Retry].  OAuth tokens and the context of the agent are values as
    they were decoded. *)

From stdpp Require Import base decidable gmap strings list.
From Stdlib Require Import ZArith Lia.
From S2P Require Import Prelude GoFloat GoStrings GoParse GoAny Json Retry ToolRelations EdgeTools.

Local Open Scope string_scope.
Local Open Scope Z_scope.

(** ** Credentials *)

Record PassthroughCredential := MkCredential {
  cred_Type : string;
  cred_Token : string;
  Username : string;
  Password : string;
  KeyName : string;
  KeyValue : string;
  Properties : option (gmap string string);
}.

Record PassthroughAuthBundle := MkBundle {
  Credentials : gmap string (option PassthroughCredential);
  SessionTokens : gmap string string;
  OAuthTokens : gmap string any;
  CustomHeaders : gmap string string;
  AgentContext : any;
}.
Definition empty_bundle : PassthroughAuthBundle := MkBundle ∅ ∅ ∅ ∅ ANil.
Definition empty_credential : PassthroughCredential := MkCredential "" "" "" "" "" "" None.

(** A field that is left out when it is empty. *)
Definition text_field (k v : string) : gmap string any := if String.eqb v "" then ∅ else {[k := AString v]}.
Definition map_field (k : string) (m : gmap string any) : gmap string any := if bool_decide (m = ∅) then ∅ else {[k := AMap m]}.

Definition credential_json (c : PassthroughCredential) : any :=
  AMap ({["type" := AString (cred_Type c)]} ∪ text_field "token" (cred_Token c) ∪ text_field "username" (Username c)
    ∪ text_field "password" (Password c) ∪ text_field "key_name" (KeyName c) ∪ text_field "key_value" (KeyValue c)
    ∪ map_field "properties" (AString <$> default ∅ (Properties c))).
Definition bundle_json (b : PassthroughAuthBundle) : any :=
  AMap (map_field "credentials" ((λ c, match c with Some c => credential_json c | None => ANil end) <$> Credentials b)
    ∪ map_field "session_tokens" (AString <$> SessionTokens b) ∪ map_field "oauth_tokens" (OAuthTokens b)
    ∪ map_field "custom_headers" (AString <$> CustomHeaders b)
    ∪ (if is_nil (AgentContext b) then ∅ else {["agent_context" := AgentContext b]})).

Notation strings_type := "map[string]string" (only parsing).
Definition string_map (at_ : string * string) (v : json) (m : gmap string string) : decoded (gmap string string) :=
  let '(m, e) := into_map "" into_string strings_type at_ v (Some m) in (default ∅ m, e).

Definition credential_fields : fields PassthroughCredential := [
  ("type", at_field cred_Type (λ x c, MkCredential x (cred_Token c) (Username c) (Password c) (KeyName c) (KeyValue c) (Properties c)) into_string);
  ("token", at_field cred_Token (λ x c, MkCredential (cred_Type c) x (Username c) (Password c) (KeyName c) (KeyValue c) (Properties c)) into_string);
  ("username", at_field Username (λ x c, MkCredential (cred_Type c) (cred_Token c) x (Password c) (KeyName c) (KeyValue c) (Properties c)) into_string);
  ("password", at_field Password (λ x c, MkCredential (cred_Type c) (cred_Token c) (Username c) x (KeyName c) (KeyValue c) (Properties c)) into_string);
  ("key_name", at_field KeyName (λ x c, MkCredential (cred_Type c) (cred_Token c) (Username c) (Password c) x (KeyValue c) (Properties c)) into_string);
  ("key_value", at_field KeyValue (λ x c, MkCredential (cred_Type c) (cred_Token c) (Username c) (Password c) (KeyName c) x (Properties c)) into_string);
  ("properties", at_field Properties (λ x c, MkCredential (cred_Type c) (cred_Token c) (Username c) (Password c) (KeyName c) (KeyValue c) x)
     (into_map "" into_string strings_type))].
Definition into_credential := into_struct "PassthroughCredential" "models.PassthroughCredential" credential_fields.

Definition credential_map (at_ : string * string) (v : json) (m : gmap string (option PassthroughCredential)) :=
  let '(m, e) := into_map None (into_ptr empty_credential into_credential) "map[string]*models.PassthroughCredential" at_ v (Some m) in
  (default ∅ m, e).
Definition bundle_fields : fields PassthroughAuthBundle := [
  ("credentials", at_field Credentials (λ x b, MkBundle x (SessionTokens b) (OAuthTokens b) (CustomHeaders b) (AgentContext b)) credential_map);
  ("session_tokens", at_field SessionTokens (λ x b, MkBundle (Credentials b) x (OAuthTokens b) (CustomHeaders b) (AgentContext b)) string_map);
  ("oauth_tokens", at_field OAuthTokens (λ x b, MkBundle (Credentials b) (SessionTokens b) x (CustomHeaders b) (AgentContext b)) any_map);
  ("custom_headers", at_field CustomHeaders (λ x b, MkBundle (Credentials b) (SessionTokens b) (OAuthTokens b) x (AgentContext b)) string_map);
  ("agent_context", at_field AgentContext (λ x b, MkBundle (Credentials b) (SessionTokens b) (OAuthTokens b) (CustomHeaders b) x) into_any)].
Definition into_bundle := into_struct "PassthroughAuthBundle" "models.PassthroughAuthBundle" bundle_fields.

(** ** Names *)

Definition normalizeClientType (clientName clientType : string) : string :=
  let nameLower := ToLower clientName in
  let typeLower := ToLower clientType in
  let among l := existsb (String.eqb typeLower) l in
  if Contains nameLower "claude" && Contains nameLower "code" then "claude-code"
  else if Contains nameLower "claude-code" then "claude-code"
  else if among ["claude-code"; "claude_code"; "claudecode"] then "claude-code"
  else if among ["ide"; "editor"; "vscode"; "cursor"] then "ide"
  else if among ["agent"; "ai"; "bot"] then "agent"
  else if among ["cli"; "terminal"; "command-line"; "commandline"] then "cli"
  else if String.eqb typeLower "" then
    if Contains nameLower "ide" || Contains nameLower "editor" then "ide"
    else if Contains nameLower "agent" || Contains nameLower "bot" then "agent"
    else "cli"
  else "cli".

(** The handler of a remote tool. *)
Inductive proxy := Proxy (toolName toolID : string).

Definition providers : list string := ["harness_"; "github_"; "gitlab_"; "jira_"; "slack_"; "bitbucket_"].
Definition action_of_name (toolName : string) : string :=
  match List.find (HasPrefix toolName) providers with Some p => TrimPrefix toolName p | None => "" end.

(** The arguments that move into the nested parameters. *)
Definition top_level : list string := ["owner"; "repo"; "branch"; "pull_number"; "issue_number"; "ref"].

(** The action and the parameters of a call. *)
Definition action_and_parameters (toolName : string) (parsedArgs : gmap string any) : string * gmap string any :=
  let action := action_of_name toolName in
  let '(action, parsedArgs) :=
    if String.eqb action "" then
      match as_string (field parsedArgs "action") with
      | Some a => (a, delete "action" parsedArgs)
      | None => (action, parsedArgs)
      end
    else (action, parsedArgs) in
  let parameters :=
    match as_map (field parsedArgs "parameters") with
    | Some params => filter (λ kv, fst kv ∈ top_level) parsedArgs ∪ params
    | None => parsedArgs
    end in
  (action, parameters).

Definition tool_payload (toolName : string) (auth : option PassthroughAuthBundle) (args : option json) : gmap string any :=
  let parsedArgs :=
    match Unmarshal (into_map ANil into_any "map[string]interface {}") args None with Ok m => default ∅ m | Err _ => ∅ end in
  let '(action, parameters) := action_and_parameters toolName parsedArgs in
  let payload : gmap string any := {["parameters" := AMap parameters]} in
  let payload := if String.eqb action "" then payload else <["action" := AString action]> payload in
  match auth with Some b => <["passthrough_auth" := bundle_json b]> payload | None => payload end.

(** What [UpdateContext] sends. *)
Definition context_payload (contextData : gmap string any) : gmap string any :=
  match as_string (field contextData "content") with
  | Some content =>
      let role := default "user" (as_string (field contextData "role")) in
      {["content" := AList [AMap (<["role" := AString role]> (<["content" := AString content]> {["type" := AString "text"]}))]]}
  | None => contextData
  end.

(** ** Responses of the platform *)

Record AuthResponse := MkAuthResponse {
  Success : bool;
  auth_Token : string;
  auth_Message : string;
  auth_TenantID : string;
}.
Definition auth_response_fields : fields AuthResponse := [
  ("success", at_field Success (λ x a, MkAuthResponse x (auth_Token a) (auth_Message a) (auth_TenantID a)) into_bool);
  ("token", at_field auth_Token (λ x a, MkAuthResponse (Success a) x (auth_Message a) (auth_TenantID a)) into_string);
  ("message", at_field auth_Message (λ x a, MkAuthResponse (Success a) (auth_Token a) x (auth_TenantID a)) into_string);
  ("tenant_id", at_field auth_TenantID (λ x a, MkAuthResponse (Success a) (auth_Token a) (auth_Message a) x) into_string)].

Record remote_tool := MkRemote {
  remote_ID : string;
  remote_Name : string;
  DisplayName : string;
  remote_Description : string;
  remote_Config : option (gmap string any);
  Schema : option (gmap string any);
}.
Definition remote_fields : fields remote_tool :=
  let m := into_map ANil into_any "map[string]interface {}" in [
  ("id", at_field remote_ID (λ x t, MkRemote x (remote_Name t) (DisplayName t) (remote_Description t) (remote_Config t) (Schema t)) into_string);
  ("tool_name", at_field remote_Name (λ x t, MkRemote (remote_ID t) x (DisplayName t) (remote_Description t) (remote_Config t) (Schema t)) into_string);
  ("display_name", at_field DisplayName (λ x t, MkRemote (remote_ID t) (remote_Name t) x (remote_Description t) (remote_Config t) (Schema t)) into_string);
  ("description", at_field remote_Description (λ x t, MkRemote (remote_ID t) (remote_Name t) (DisplayName t) x (remote_Config t) (Schema t)) into_string);
  ("config", at_field remote_Config (λ x t, MkRemote (remote_ID t) (remote_Name t) (DisplayName t) (remote_Description t) x (Schema t)) m);
  ("schema", at_field Schema (λ x t, MkRemote (remote_ID t) (remote_Name t) (DisplayName t) (remote_Description t) (remote_Config t) x) m)].
Definition into_tools := into_list (MkRemote "" "" "" "" None None) (into_struct "" "struct {...}" remote_fields) "[]struct {...}".

Definition definition_of (t : remote_tool) : ToolDefinition proxy :=
  let description :=
    if String.eqb (remote_Description t) "" && negb (String.eqb (DisplayName t) "") then DisplayName t +:+ " integration"
    else remote_Description t in
  let inputSchema :=
    match remote_Config t ≫= (λ c, as_map (field c "schema")) with Some s => Some s | None => Schema t end in
  MkTool (remote_Name t) description (default ∅ inputSchema) (Some (Proxy (remote_Name t) (remote_ID t))) "" [] [] [] [] [] [] None.

(** ** The client *)

Record settings := MkSettings {
  baseURL : string;
  edgeMCPID : string;
  apiKey : string;
}.
Definition maxFailures : Z := 3.
Definition backoffTime : Z := 5 * second.

Record Client := MkClient {
  tenantID : string;
  connected : bool;
  lastError : option string;
  lastHealthCheck : Z;
  failureCount : Z;
  nextRetryTime : Z;
  toolIDMap : gmap string string;
  currentSessionID : string;
  currentContextID : string;
}.
Definition NewClient : Client := MkClient "" false None zero_time 0 zero_time ∅ "" "".

Definition set_connection (b : bool) (c : Client) : Client :=
  MkClient (tenantID c) b (lastError c) (lastHealthCheck c) (failureCount c) (nextRetryTime c) (toolIDMap c)
    (currentSessionID c) (currentContextID c).
Definition note_tool (name id : string) (c : Client) : Client :=
  MkClient (tenantID c) (connected c) (lastError c) (lastHealthCheck c) (failureCount c) (nextRetryTime c)
    (<[name := id]> (toolIDMap c)) (currentSessionID c) (currentContextID c).
Definition set_session (sid : string) (cid : option string) (c : Client) : Client :=
  MkClient (tenantID c) (connected c) (lastError c) (lastHealthCheck c) (failureCount c) (nextRetryTime c) (toolIDMap c)
    sid (default (currentContextID c) cid).

(** [handleFailure] and what a successful authentication sets. *)
Definition handleFailure (now : Z) (err : string) (c : Client) : Client :=
  let n := failureCount c + 1 in
  MkClient (tenantID c) false (Some err) (lastHealthCheck c) n
    (if maxFailures <=? n then now + backoffTime else nextRetryTime c) (toolIDMap c) (currentSessionID c) (currentContextID c).
Definition authenticated (now : Z) (tenant : string) (c : Client) : Client :=
  MkClient (if String.eqb tenant "" then tenantID c else tenant) true None now 0 (nextRetryTime c) (toolIDMap c)
    (currentSessionID c) (currentContextID c).

(** The texts of a request: method, address and body. *)
Record request := MkRequest { method : string; url : string; body : option string; with_key : bool }.

Section client.
Context {W : Type}.
(** [httpClient.Do] and reading the body: the error or the status and the body. *)
Variable http : request -> W -> W * result string (Z * string).
Variable now : W -> Z.
(** What is printed of a time; what the decoder says of a body; the JSON form of values that
    are not modelled. *)
Variable time_text : Z -> string.
Variable bad_body : string -> string.
Variable other_json : string -> Z -> option string.
Variables (pow : float64 -> float64 -> float64) (rand : nat -> float64).
Variable conf : settings.

Notation state := (Client * W)%type.
Definition on_client (f : Client -> Client) (s : state) : state := (f (fst s), snd s).
Definition time (s : state) : Z := now (snd s).

Definition doRequest (method_ path : string) (payload : option any) (s : state) : state * result string (Z * string) :=
  let send b :=
    let '(w, r) := http (MkRequest method_ (baseURL conf +:+ path) b (negb (String.eqb (apiKey conf) ""))) (snd s) in
    ((fst s, w), r) in
  match payload with
  | None => send None
  | Some p =>
      match Marshal other_json p with
      | None => (s, Err "failed to marshal request body: json: unsupported value")
      | Some text => send (Some text)
      end
  end.

(** [json.NewDecoder(body).Decode]: the first value of the body. *)
Definition decode {A} (into : string * string -> json -> A -> decoded A) (body_ : string) (zero : A) : result string A :=
  match parse_value (S (String.length body_)) body_ with
  | None => Err (bad_body body_)
  | Some (v, _) =>
      match Unmarshal into (Some v) zero with Ok a => Ok a | Err e => Err (unmarshal_error_text e) end
  end.

Definition AuthenticateWithCore (s : state) : state * option string :=
  let c := fst s in
  if time_before (time s) (nextRetryTime c) then
    (s, Some ("circuit breaker open, retry after " +:+ time_text (nextRetryTime c)))
  else if String.eqb (baseURL conf) "" then (on_client (set_connection false) s, None)
  else
    let authReq := AMap (<["edge_mcp_id" := AString (edgeMCPID conf)]> {["api_key" := AString (apiKey conf)]}) in
    let fail s err msg := (on_client (handleFailure (time s) err) s, Some msg) in
    match doRequest "POST" "/api/v1/auth/edge-mcp" (Some authReq) s with
    | (s, Err e) => fail s e ("authentication failed: " +:+ e)
    | (s, Ok (status, body_)) =>
        if negb (status =? 200) then
          let e := "authentication failed with status " +:+ itoa status +:+ ": " +:+ body_ in fail s e e
        else
          match decode (into_struct "AuthResponse" "core.AuthResponse" auth_response_fields) body_ (MkAuthResponse false "" "" "") with
          | Err e => fail s e ("failed to decode auth response: " +:+ e)
          | Ok r =>
              if negb (Success r) then
                let e := "authentication failed: " +:+ auth_Message r in fail s e e
              else (on_client (authenticated (time s) (auth_TenantID r)) s, None)
          end
    end.

(** One attempt at fetching the tools of a tenant: the tools, or the error of the attempt. *)
Definition fetch_once (tenant what : string) (s : state) : state * result error (list (ToolDefinition proxy)) :=
  match doRequest "GET" ("/api/v1/tools?tenant_id=" +:+ tenant +:+ "&edge_mcp=true") None s with
  | (s, Err e) => (s, Err (NetworkError e))
  | (s, Ok (status, body_)) =>
      if negb (status =? 200) then (s, Err (HTTPError status (what +:+ body_)))
      else
        match decode (into_struct "" "struct {...}" [("tools", into_tools)]) body_ [] with
        | Err e => (s, Err (Wrap "failed to decode tools response" (Sentinel e)))
        | Ok l =>
            (on_client (λ c, foldl (λ c t, note_tool (remote_Name t) (remote_ID t) c) c l) s, Ok (definition_of <$> l))
        end
  end.

Definition retryConfig : RetryConfig :=
  MkUtilsConfig 3 (1 * second) (10 * second) (f64_of_Z 2) (f64_const 1 10) []
    (Some (λ e, match as_HTTPError e with Some code => HTTPError_IsRetryable code | None => as_NetworkError e end)).

(** The attempts as the loop of [utils.RetryWithBackoff] sees them. *)
Definition after (once : state -> state * result error (list (ToolDefinition proxy))) (n : nat) (s : state) : state :=
  Nat.iter n (λ s, fst (once s)) s.
Definition attempts (once : state -> state * result error (list (ToolDefinition proxy))) (s : state) : env :=
  MkEnv (λ n, match snd (once (after once n s)) with Ok _ => None | Err e => Some e end)
    (λ n, time_sub (time (after once (S n) s)) (time s)) (λ _, None) (λ _, None).
Definition with_retry (once : state -> state * result error (list (ToolDefinition proxy))) (s : state)
    : state * result error (list (ToolDefinition proxy)) :=
  let '(r, e, _) := RetryWithBackoff pow rand (Some retryConfig) (attempts once s) in
  let n := Z.to_nat (Attempts r) in
  (after once n s,
   match e with
   | Some e => Err e
   | None => snd (once (after once (n - 1) s))
   end).

Definition FetchRemoteTools (s : state) : state * result error (list (ToolDefinition proxy)) :=
  if negb (connected (fst s)) then (s, Ok [])
  else with_retry (fetch_once (tenantID (fst s)) "Failed to fetch tools: ") s.

Definition FetchToolsForTenant (tenant : string) (s : state) : state * result error (list (ToolDefinition proxy)) :=
  if negb (connected (fst s)) then (s, Ok [])
  else if String.eqb tenant "" then FetchRemoteTools s
  else with_retry (fetch_once tenant ("Failed to fetch tools for tenant " +:+ tenant +:+ ": ")) s.

(** The call of a handler that [createProxyHandler] made. *)
Definition call_proxy (auth : option PassthroughAuthBundle) (h : proxy) (args : option json) (s : state) : state * result string any :=
  let '(Proxy toolName toolID) := h in
  if negb (connected (fst s)) then (s, Err "not connected to Core Platform")
  else
    match doRequest "POST" ("/api/v1/tools/" +:+ toolID +:+ "/execute") (Some (AMap (tool_payload toolName auth args))) s with
    | (s, Err e) => (s, Err ("failed to execute remote tool: " +:+ e))
    | (s, Ok (status, body_)) =>
        (s, if negb (status =? 200) then Err ("remote tool execution failed, status " +:+ itoa status +:+ ": " +:+ body_)
            else match decode into_any body_ ANil with Ok v => Ok v | Err e => Err ("failed to decode result: " +:+ e) end)
    end.

(** [time.Unix]. *)
Definition unix (t : Z) : Z := t / second - 62135596800.
Definition local_session_id (s : state) : string := "session-" +:+ itoa (unix (time s)) +:+ "-" +:+ edgeMCPID conf.

Definition session_fields : fields (string * option string) := [
  ("session_id", at_field fst (λ x p, (x, snd p)) into_string);
  ("context_id", at_field snd (λ x p, (fst p, x)) (into_ptr "" into_string))].

(** It never fails. *)
Definition CreateSession (clientName clientType : string) (s : state) : state * string :=
  let sessionID := local_session_id s in
  if negb (connected (fst s)) then (s, sessionID)
  else
    let payload := AMap (<["session_id" := AString sessionID]> (<["edge_mcp_id" := AString (edgeMCPID conf)]>
      (<["tenant_id" := AString (tenantID (fst s))]> (<["client_name" := AString clientName]>
        {["client_type" := AString (normalizeClientType clientName clientType)]})))) in
    match doRequest "POST" "/api/v1/sessions" (Some payload) s with
    | (s, Err _) => (s, sessionID)
    | (s, Ok (status, body_)) =>
        if (status =? 201) || (status =? 200) then
          match decode (into_struct "" "struct {...}" session_fields) body_ ("", None) with
          | Err _ => (s, sessionID)
          | Ok (sid, cid) => (on_client (set_session sid cid) s, sid)
          end
        else (s, sessionID)
    end.

Definition CloseSession (sessionID : string) (s : state) : state * option string :=
  if negb (connected (fst s)) then (s, None)
  else
    match doRequest "DELETE" ("/api/v1/sessions/" +:+ sessionID) None s with
    | (s, Err e) => (s, Some ("failed to close session: " +:+ e))
    | (s, Ok _) => (s, None)
    end.

(** The arguments are sent as they are. *)
Definition RecordToolExecution (sessionID toolName : string) (args result_ : any) (s : state) : state :=
  if negb (connected (fst s)) then s
  else fst (doRequest "POST" "/api/v1/executions" (Some (AMap (<["session_id" := AString sessionID]>
    (<["tool_name" := AString toolName]> (<["arguments" := args]> (<["result" := result_]>
      {["timestamp" := AInt64 (unix (time s))]})))))) s).

Definition UpdateContext (contextID : string) (contextData : gmap string any) (s : state) : state * option string :=
  if negb (connected (fst s)) then (s, None)
  else
    match doRequest "PUT" ("/api/v1/contexts/" +:+ contextID) (Some (AMap (context_payload contextData))) s with
    | (s, Err e) => (s, Some ("failed to update context: " +:+ e))
    | (s, Ok (status, body_)) =>
        (s, if negb (status =? 200) then Some ("context update failed, status " +:+ itoa status +:+ ": " +:+ body_) else None)
    end.

Definition GetContext (sessionID : string) (s : state) : state * result string (gmap string any) :=
  if negb (connected (fst s)) then (s, Ok ∅)
  else
    match doRequest "GET" ("/api/v1/context/" +:+ sessionID) None s with
    | (s, Err e) => (s, Err ("failed to get context: " +:+ e))
    | (s, Ok (_, body_)) =>
        (s, match decode (into_map ANil into_any "map[string]interface {}") body_ None with
            | Ok m => Ok (default ∅ m)
            | Err e => Err ("failed to decode context: " +:+ e)
            end)
    end.

Definition AppendContext (sessionID : string) (appendData : gmap string any) (s : state) : state * option string :=
  if negb (connected (fst s)) then (s, None)
  else
    match doRequest "PATCH" ("/api/v1/context/" +:+ sessionID) (Some (AMap {["append" := AMap appendData]})) s with
    | (s, Err e) => (s, Some ("failed to append context: " +:+ e))
    | (s, Ok _) => (s, None)
    end.

Definition SearchContext (contextID query : string) (limit_ : Z) (s : state) : state * result string (list any) :=
  if negb (connected (fst s)) then (s, Err "not connected to Core Platform")
  else
    let payload : gmap string any := {["query" := AString query]} in
    let payload := if 0 <? limit_ then <["limit" := AInt limit_]> payload else payload in
    match doRequest "POST" ("/api/v1/contexts/" +:+ contextID +:+ "/search") (Some (AMap payload)) s with
    | (s, Err e) => (s, Err ("failed to search context: " +:+ e))
    | (s, Ok (status, body_)) =>
        if negb (status =? 200) then (s, Err ("context search failed, status " +:+ itoa status +:+ ": " +:+ body_))
        else
          (s, match decode (into_struct "" "struct {...}" [
                  ("context_id", λ a v l, (l, snd (into_string a v "")));
                  ("query", λ a v l, (l, snd (into_string a v "")));
                  ("results", into_list ANil into_any "[]interface {}")]) body_ [] with
              | Ok l => Ok l
              | Err e => Err ("failed to decode search results: " +:+ e)
              end)
    end.

Definition GetStatus (c : Client) : gmap string any :=
  <["connected" := ABool (connected c)]> (<["base_url" := AString (baseURL conf)]> (<["tenant_id" := AString (tenantID c)]>
    (<["edge_mcp_id" := AString (edgeMCPID conf)]> (<["session_id" := AString (currentSessionID c)]>
      (<["context_id" := AString (currentContextID c)]> {["last_error" := AString (default "" (lastError c))]}))))).

Definition GetCurrentContextID (c : Client) : string := currentContextID c.
End client.

(** ** What holds of the client *)

(** The types that the database accepts. *)
Lemma normalize_allowed name type : normalizeClientType name type ∈ ["claude-code"; "ide"; "agent"; "cli"].
Proof. unfold normalizeClientType. repeat case_match; set_solver. Qed.

(** "ide" is also in "video". *)
Example video_is_an_ide : normalizeClientType "video-tool" "" = "ide".
Proof. reflexivity. Qed.

(** A client that is connected has no failure behind it. *)
Definition clean (c : Client) : Prop := connected c = true -> failureCount c = 0 /\ lastError c = None.

Section laws.
Context {W : Type} (http : request -> W -> W * result string (Z * string)) (now : W -> Z).
Context (time_text : Z -> string) (bad_body : string -> string) (other_json : string -> Z -> option string).
Context (pow : float64 -> float64 -> float64) (rand : nat -> float64) (conf : settings).
Notation state := (Client * W)%type.

Lemma doRequest_client m p b (s s' : state) r : doRequest http other_json conf m p b s = (s', r) -> fst s' = fst s.
Proof. unfold doRequest. repeat case_match; by intros [= <- <-]. Qed.

Inductive core_op :=
| Authenticate_
| Fetch (tenant : string)
| CallTool (auth : option PassthroughAuthBundle) (h : proxy) (args : option json)
| OpenSession (name type : string)
| EndSession (id : string)
| Record_ (id tool : string) (args result_ : any)
| Update_ (id : string) (m : gmap string any)
| Get_ (id : string)
| Append_ (id : string) (m : gmap string any)
| Search_ (id query : string) (n : Z).

Definition core_step (op : core_op) (s : state) : state :=
  match op with
  | Authenticate_ => fst (AuthenticateWithCore http now time_text bad_body other_json conf s)
  | Fetch t => fst (FetchToolsForTenant http now bad_body other_json pow rand conf t s)
  | CallTool a h x => fst (call_proxy http bad_body other_json conf a h x s)
  | OpenSession n t => fst (CreateSession http now bad_body other_json conf n t s)
  | EndSession i => fst (CloseSession http other_json conf i s)
  | Record_ i t a r => RecordToolExecution http now other_json conf i t a r s
  | Update_ i m => fst (UpdateContext http other_json conf i m s)
  | Get_ i => fst (GetContext http bad_body other_json conf i s)
  | Append_ i m => fst (AppendContext http other_json conf i m s)
  | Search_ i q n => fst (SearchContext http bad_body other_json conf i q n s)
  end.

(** What is left of a client by anything but an authentication. *)
Definition connection (c : Client) : bool * option string * Z * Z := (connected c, lastError c, failureCount c, nextRetryTime c).

Lemma fetch_once_connection t what (s : state) :
  connection (fst (fst (fetch_once http bad_body other_json conf t what s))) = connection (fst s).
Proof.
  unfold fetch_once. destruct (doRequest _ _ _ _ _ _ s) as [s' r] eqn:H. apply doRequest_client in H.
  destruct r as [[status b]|e]; [|by rewrite <-H]. case_match; [by rewrite <-H|].
  destruct (decode _ _ _ _) as [l|e]; cbn; rewrite <-H; [|done].
  clear H. generalize (fst s'). induction l as [|t' l IH]; intros c; [done|]. cbn. by rewrite IH.
Qed.

Lemma with_retry_connection once (s : state) :
  (forall s, connection (fst (fst (once s))) = connection (fst s)) ->
  connection (fst (fst (with_retry now pow rand once s))) = connection (fst s).
Proof.
  intros Ho. unfold with_retry. destruct (RetryWithBackoff _ _ _ _) as [[r e] zs]. cbn [fst].
  generalize (Z.to_nat (Attempts r)) as n. induction n as [|n IH]; [done|].
  change (after once (S n) s) with (fst (once (after once n s))). by rewrite Ho.
Qed.

Ltac offline_or_request s :=
  destruct (connected (fst s)); cbn [negb]; [|done];
  match goal with |- context [doRequest ?a ?b ?c ?d ?e ?f s] =>
    let Hr := fresh "Hr" in
    destruct (doRequest a b c d e f s) as [? ?] eqn:Hr; apply doRequest_client in Hr; rewrite <-Hr; clear Hr
  end; by repeat case_match.

Lemma core_step_connection op (s : state) : op ≠ Authenticate_ -> connection (fst (core_step op s)) = connection (fst s).
Proof.
  intros Hop. destruct op as [|t|a [tn ti] x|n t|i|i t a r|i m|i|i m|i q n]; cbn [core_step]; [done|..].
  { unfold FetchToolsForTenant, FetchRemoteTools. repeat case_match; cbn; auto using with_retry_connection, fetch_once_connection. }
  - unfold call_proxy. offline_or_request s.
  - unfold CreateSession. offline_or_request s.
  - unfold CloseSession. offline_or_request s.
  - unfold RecordToolExecution. offline_or_request s.
  - unfold UpdateContext. offline_or_request s.
  - unfold GetContext. offline_or_request s.
  - unfold AppendContext. offline_or_request s.
  - unfold SearchContext. offline_or_request s.
Qed.

(** However the platform answers, a client that is connected has no failure behind it and
    no error to report: the failures that open its breaker are those since the last success. *)
Theorem connected_clean ops w : clean (fst (foldl (λ s op, core_step op s) (NewClient, w) ops)).
Proof.
  induction ops as [|op ops IH] using rev_ind; [by intros [=]|]. rewrite foldl_app. cbn [foldl].
  set (s := foldl _ _ ops) in *.
  assert (op = Authenticate_ \/ op ≠ Authenticate_) as [->|Hop] by (destruct op; by (left + right)).
  2: { pose proof (core_step_connection op s Hop) as H. unfold connection in H. injection H as H1 H2 H3 _.
       unfold clean in *. by rewrite H1, H2, H3. }
  cbn [core_step]. unfold AuthenticateWithCore. case_match; [done|]. case_match; [by intros [=]|].
  destruct (doRequest _ _ _ _ _ _ s) as [s' r] eqn:Hr. apply doRequest_client in Hr.
  destruct r as [[status b]|e]; [|by intros [=]]. case_match; [by intros [=]|].
  destruct (decode _ _ _ _) as [a|e]; [|by intros [=]]. case_match; [by intros [=]|]. done.
Qed.

(** After a third failure in a row the platform is left alone for the backoff: an
    authentication before its end makes no request, however the world has changed. *)
Theorem breaker_spares_platform (s s' : state) e w :
  nextRetryTime (fst s) <= time now s -> 2 <= failureCount (fst s) ->
  AuthenticateWithCore http now time_text bad_body other_json conf s = (s', Some e) ->
  now w < time now s' + backoffTime ->
  AuthenticateWithCore http now time_text bad_body other_json conf (fst s', w)
  = ((fst s', w), Some ("circuit breaker open, retry after " +:+ time_text (nextRetryTime (fst s')))).
Proof.
  intros Hn Hf H Hw.
  assert (nextRetryTime (fst s') = time now s' + backoffTime) as Hs'.
  { revert H. unfold AuthenticateWithCore, time_before. destruct (Z.ltb_spec (time now s) (nextRetryTime (fst s))); [lia|].
    case_match; [done|]. destruct (doRequest _ _ _ _ _ _ s) as [s1 r] eqn:Hr. apply doRequest_client in Hr.
    assert (forall x, nextRetryTime (handleFailure (time now s1) x (fst s1)) = time now s1 + backoffTime) as Hfail.
    { intros x. unfold handleFailure. rewrite Hr. cbn. by destruct (Z.leb_spec maxFailures (failureCount (fst s) + 1)); [|unfold maxFailures in *; lia]. }
    unfold on_client. repeat case_match; intros [= <- _]; try apply Hfail; done. }
  unfold AuthenticateWithCore at 1. unfold time_before. cbn [fst].
  destruct (Z.ltb_spec (time now (fst s', w)) (nextRetryTime (fst s'))) as [_|Hge]; [done|]. unfold time in *. cbn in *. lia.
Qed.

(** [AppendContext] reports success whatever the platform answers: the status is not
    looked at. *)
Theorem append_ignores_status sid data (s s' : state) status body_ :
  connected (fst s) = true ->
  doRequest http other_json conf "PATCH" ("/api/v1/context/" +:+ sid) (Some (AMap {["append" := AMap data]})) s = (s', Ok (status, body_)) ->
  AppendContext http other_json conf sid data s = (s', None).
Proof. intros Hc H. unfold AppendContext. by rewrite Hc, H. Qed.
End laws.

(** ** A platform *)

(** A platform that counts its requests and always answers the same, at a time. *)
Definition answers (status : Z) (body_ : string) (r : request) (w : Z * Z) : (Z * Z) * result string (Z * string) :=
  ((fst w, snd w + 1), Ok (status, body_)).
Definition some_settings : settings := MkSettings "http://core" "edge-1" "key".
Definition auth_at (status : Z) (body_ : string) (s : Client * (Z * Z)) : (Client * (Z * Z)) * option string :=
  AuthenticateWithCore (answers status body_) fst (λ _, "t") (λ _, "EOF") (λ _ _, None) some_settings s.
Definition twice_failed : Client * (Z * Z) := fst (auth_at 500 "" (fst (auth_at 500 "" (NewClient, (10 * second, 0))))).

Theorem breaker_spares_platform_witness :
  let s' := fst (auth_at 500 "" twice_failed) in
  snd s' = (10 * second, 3) /\
  auth_at 200 "{}" (fst s', (14 * second, 3)) = ((fst s', (14 * second, 3)), Some "circuit breaker open, retry after t").
Proof.
  split; [vm_compute; reflexivity|].
  exact (breaker_spares_platform (answers 500 "") fst (λ _, "t") (λ _, "EOF") (λ _ _, None) some_settings twice_failed
    (fst (auth_at 500 "" twice_failed)) "authentication failed with status 500: " (14 * second, 3)
    ltac:(vm_compute; discriminate) ltac:(vm_compute; discriminate) ltac:(vm_compute; reflexivity) ltac:(vm_compute; reflexivity)).
Defined.

Definition online : Client * (Z * Z) :=
  fst (auth_at 200 ("{" +:+ String quote "success" +:+ String quote ":true}") (NewClient, (10 * second, 0))).

Theorem append_ignores_status_witness :
  connected (fst online) = true /\
  AppendContext (answers 404 "404 page not found") (λ _ _, None) some_settings "s1" ∅ online = ((fst online, (10 * second, 2)), None).
Proof.
  split; [vm_compute; reflexivity|].
  apply (append_ignores_status (answers 404 "404 page not found") (λ _ _, None) some_settings "s1" ∅ online
    (fst online, (10 * second, 2)) 404 "404 page not found"); vm_compute; reflexivity.
Defined.

(** [GetContext] of the same address does not look at the status either. *)
Example error_body_is_context :
  snd (GetContext (answers 500 ("{" +:+ String quote "error" +:+ String quote ":1}")) (λ _, "") (λ _ _, None) some_settings "s1" online)
  = Ok {["error" := AFloat (f64_of_Z 1)]}.
Proof. vm_compute. reflexivity. Qed.

(** Sessions that begin in the same second have the same identifier. *)
Example sessions_collide :
  let offline w := snd (CreateSession (answers 200 "") fst (λ _, "") (λ _ _, None) some_settings "a" "cli" (NewClient, (w, 0))) in
  offline (63800000000 * second + 1) = "session-1664403200-edge-1" /\
  offline (63800000000 * second + 999) = offline (63800000000 * second + 1).
Proof. vm_compute. done. Qed.

(** The arguments of a tool of a provider. *)
Example provider_payload :
  action_and_parameters "github_get_issue"
    (<["owner" := AString "o"]> (<["x" := ANil]> {["parameters" := AMap {["owner" := AString "other"]}]}))
  = ("get_issue", {["owner" := AString "o"]}) /\
  action_and_parameters "deploy" (<["action" := AString "run"]> {["x" := ANil]}) = ("run", {["x" := ANil]}).
Proof. vm_compute. done. Qed.
