(* ===== verification/EdgeHandler.v ===== *)
(** * EdgeHandler: the handler of the edge server's protocol

    The file [apps/edge-mcp/internal/mcp/handler.go].  A message is handled up to the point
    where a tool or a batch runs ([begin]), which takes time, and from there to the reply
    ([finish]); what comes before and after is a function of the handler, a record that all
    connections share.  The core platform, the semantic context manager, the cache and the
    platform's description are records of functions of the world.  Logging, tracing and
    metrics are left out. *)

From stdpp Require Import base decidable gmap strings list.
From Stdlib Require Import ZArith Lia.
From S2P Require Import Prelude GoFloat GoStrings GoParse GoAny UnicodeText Json ToolRelations EdgeTools CoreClient EdgeBatch.
From S2P Require Import EdgeRateLimit McpErrors EdgeValidation Redact EdgeStreaming.
Import AnyMap.

Local Open Scope string_scope.
Local Open Scope Z_scope.
Local Open Scope go_scope.

(** ** Messages *)

(** What is read of a message: a field that is absent is nil or empty. *)
Record MCPMessage := MkMessage {
  msg_ID : any;
  msg_Method : string;
  msg_Params : option json;
}.

Definition ignored {S A} (zero : A) (into : string * string -> json -> A -> decoded A)
    (at_ : string * string) (v : json) (s : S) : decoded S := (s, snd (into at_ v zero)).

Definition error_fields : fields unit := [
  ("code", ignored 0 into_int); ("message", ignored "" into_string); ("data", ignored ANil into_any)].
Definition message_fields : fields MCPMessage := [
  ("jsonrpc", ignored "" into_string);
  ("id", at_field msg_ID (λ x m, MkMessage x (msg_Method m) (msg_Params m)) into_any);
  ("method", at_field msg_Method (λ x m, MkMessage (msg_ID m) x (msg_Params m)) into_string);
  ("params", at_field msg_Params (λ x m, MkMessage (msg_ID m) (msg_Method m) x) into_raw);
  ("result", ignored ANil into_any);
  ("error", ignored () (into_struct "MCPError" "mcp.MCPError" error_fields))].
Definition empty_message : MCPMessage := MkMessage ANil "" None.
(** Decoding keeps what it could set, with the first error. *)
Definition decode_message (v : json) : decoded MCPMessage :=
  into_struct "MCPMessage" "mcp.MCPMessage" message_fields ("", "") v empty_message.

Record Session := MkSession {
  session_ID : string;
  Initialized : bool;
  session_TenantID : string;
  CoreSession : string;
  CreatedAt : Z;
  LastActivity : Z;
  PassthroughAuth : option PassthroughAuthBundle;
}.
Definition set_initialized (s : Session) : Session :=
  MkSession (session_ID s) true (session_TenantID s) (CoreSession s) (CreatedAt s) (LastActivity s) (PassthroughAuth s).
Definition set_auth (b : PassthroughAuthBundle) (s : Session) : Session :=
  MkSession (session_ID s) (Initialized s) (session_TenantID s) (CoreSession s) (CreatedAt s) (LastActivity s) (Some b).
Definition set_core (c : string) (s : Session) : Session :=
  MkSession (session_ID s) (Initialized s) (session_TenantID s) c (CreatedAt s) (LastActivity s) (PassthroughAuth s).
Definition set_activity (t : Z) (s : Session) : Session :=
  MkSession (session_ID s) (Initialized s) (session_TenantID s) (CoreSession s) (CreatedAt s) t (PassthroughAuth s).

(** ** What the handler calls *)

Section collaborators.
Variables (W TH : Type).

Record CorePlatform := MkCore {
  core_CreateSession : string -> string -> W -> W * string;
  core_CloseSession : string -> W -> W;
  core_FetchToolsForTenant : string -> W -> W * option (list (ToolDefinition TH));
  core_RecordToolExecution : string -> string -> any -> any -> W -> W;
  core_UpdateContext : string -> gmap string any -> W -> W * option string;
  core_GetContext : string -> W -> W * result string (gmap string any);
  core_AppendContext : string -> gmap string any -> W -> W * option string;
  core_SearchContext : string -> string -> Z -> W -> W * result string (list any);
  core_GetStatus : W -> gmap string any;
}.

Record SemanticContextManager := MkSemantic {
  sem_GetContext : string -> gmap string any -> W -> W * result string any;
  sem_UpdateContext : string -> gmap string any -> W -> W * option string;
  sem_GetRelevantContext : string -> string -> Z -> W -> W * result string any;
  sem_CompactContext : string -> string -> W -> W * option string;
  sem_SearchContext : string -> string -> Z -> W -> W * result string any;
}.

(** The cache, the clock, the description of the platform, and what is not modelled of values
    and of the standard library. *)
Record Surroundings := MkSurroundings {
  clock_ : W -> Z;
  cache_Get : string -> W -> option (gmap string any);
  cache_Set : string -> any -> Z -> W -> W;
  cache_Size : W -> Z;
  platform_info : W -> any;
  other_text : string -> Z -> string;
  other_json : string -> Z -> option string;
  raw_text : json -> string;
  EqualFold : string -> string -> bool;
  tool_order : gmap string (ToolDefinition TH) -> list (string * ToolDefinition TH);
}.
End collaborators.
Arguments MkCore {W TH}.
Arguments MkSemantic {W}.
Arguments MkSurroundings {W TH}.
Arguments clock_ {W TH}. Arguments cache_Get {W TH}. Arguments cache_Set {W TH}. Arguments cache_Size {W TH}.
Arguments platform_info {W TH}. Arguments other_text {W TH}. Arguments other_json {W TH}. Arguments raw_text {W TH}.
Arguments EqualFold {W TH}. Arguments tool_order {W TH}.
Arguments core_CreateSession {W TH}. Arguments core_CloseSession {W TH}. Arguments core_FetchToolsForTenant {W TH}.
Arguments core_RecordToolExecution {W TH}. Arguments core_UpdateContext {W TH}. Arguments core_GetContext {W TH}.
Arguments core_AppendContext {W TH}. Arguments core_SearchContext {W TH}. Arguments core_GetStatus {W TH}.
Arguments sem_GetContext {W}. Arguments sem_UpdateContext {W}. Arguments sem_GetRelevantContext {W}.
Arguments sem_CompactContext {W}. Arguments sem_SearchContext {W}.

(** ** The handler *)

(** A tool or a batch that runs for a request, in a context of its own. *)
Inductive job := ToolJob (name : string) (args : option json) | BatchJob (request_ : BatchRequest).
Record running := MkRunning {
  run_id : any;
  run_ctx : nat;
  run_job : job;
  run_core : string;
  run_auth : option PassthroughAuthBundle;
}.

(** How the handling of a message goes on: a reply or none, an error, a panic, a wait for a
    mutex that nobody will release, or a tool that runs. *)
Inductive verdict :=
| Replies (r : option outgoing)
| Refuses (e : ErrorResponse)
| Crashes
| Hangs
| Runs (r : running).

Section handler.
Context {W TH L : Type} `{HT : !TokenBucket L}.
Variable env_ : Surroundings W TH.
Variable coreClient : option (CorePlatform W TH).
Variable semanticContextMgr : option (SemanticContextManager W).
(** Whether the logger is a [StandardLogger], whose level can be set. *)
Variable standard_logger : bool.

(** [requests_locked]: a panic left [requestsMu] locked.  [cancelled] are the contexts that
    were cancelled; [next_ctx] is the next context's number. *)
Record Handler := MkHandler {
  tools_ : Registry TH;
  sessions : gmap string Session;
  rateLimiter : RateLimiter L;
  activeRequests : list (any * nat);
  requests_locked : bool;
  next_ctx : nat;
  cancelled : list nat;
  log_level : string;
  activeRefreshes : nat;
  world : W;
}.

Definition set_sessions (m : gmap string Session) (h : Handler) : Handler :=
  MkHandler (tools_ h) m (rateLimiter h) (activeRequests h) (requests_locked h) (next_ctx h) (cancelled h) (log_level h)
    (activeRefreshes h) (world h).
Definition set_limiter (rl : RateLimiter L) (h : Handler) : Handler :=
  MkHandler (tools_ h) (sessions h) rl (activeRequests h) (requests_locked h) (next_ctx h) (cancelled h) (log_level h)
    (activeRefreshes h) (world h).
Definition set_requests (l : list (any * nat)) (locked : bool) (h : Handler) : Handler :=
  MkHandler (tools_ h) (sessions h) (rateLimiter h) l locked (next_ctx h) (cancelled h) (log_level h)
    (activeRefreshes h) (world h).
Definition set_contexts (n : nat) (l : list nat) (h : Handler) : Handler :=
  MkHandler (tools_ h) (sessions h) (rateLimiter h) (activeRequests h) (requests_locked h) n l (log_level h)
    (activeRefreshes h) (world h).
Definition set_level (s : string) (h : Handler) : Handler :=
  MkHandler (tools_ h) (sessions h) (rateLimiter h) (activeRequests h) (requests_locked h) (next_ctx h) (cancelled h) s
    (activeRefreshes h) (world h).
Definition set_refreshes (n : nat) (h : Handler) : Handler :=
  MkHandler (tools_ h) (sessions h) (rateLimiter h) (activeRequests h) (requests_locked h) (next_ctx h) (cancelled h) (log_level h)
    n (world h).
Definition set_world (w : W) (h : Handler) : Handler :=
  MkHandler (tools_ h) (sessions h) (rateLimiter h) (activeRequests h) (requests_locked h) (next_ctx h) (cancelled h) (log_level h)
    (activeRefreshes h) w.
Definition on_session (sid : string) (f : Session -> Session) (h : Handler) : Handler :=
  match sessions h !! sid with Some s => set_sessions (<[sid := f s]> (sessions h)) h | None => h end.

Definition now_ (h : Handler) : Z := clock_ env_ (world h).
Definition sprint_ (v : any) : string := sprint (other_text env_) v.
Definition result_of (msg : MCPMessage) (m : gmap string any) : verdict := Replies (Some (Response (msg_ID msg) (AMap m))).
Definition text_content (text : string) : any := AList [AMap (<["type" := AString "text"]> {["text" := AString text]})].

(** The parameters of a request. *)
Definition params_of {A} (fs : fields A) (msg : MCPMessage) (zero : A) : result unmarshal_error A :=
  Unmarshal (into_struct "" "struct {...}" fs) (msg_Params msg) zero.
Definition bad_params (h : Handler) (text operation : string) (e : unmarshal_error) : ErrorResponse :=
  NewValidationError (now_ h) "params" (text +:+ unmarshal_error_text e) |> WithOperation operation.

(** ** Sessions *)

Record init_params := MkInit {
  ProtocolVersion : string;
  client_Name : string;
  client_Version : string;
  client_Type : string;
  init_Credentials : option PassthroughAuthBundle;
}.
Definition client_fields : fields init_params := [
  ("name", at_field client_Name (λ x p, MkInit (ProtocolVersion p) x (client_Version p) (client_Type p) (init_Credentials p)) into_string);
  ("version", at_field client_Version (λ x p, MkInit (ProtocolVersion p) (client_Name p) x (client_Type p) (init_Credentials p)) into_string);
  ("type", at_field client_Type (λ x p, MkInit (ProtocolVersion p) (client_Name p) (client_Version p) x (init_Credentials p)) into_string)].
Definition init_fields : fields init_params := [
  ("protocolVersion", at_field ProtocolVersion (λ x p, MkInit x (client_Name p) (client_Version p) (client_Type p) (init_Credentials p)) into_string);
  ("clientInfo", into_struct "" "struct {...}" client_fields);
  ("credentials", at_field init_Credentials (λ x p, MkInit (ProtocolVersion p) (client_Name p) (client_Version p) (client_Type p) x)
     (into_ptr empty_bundle into_bundle))].

Definition server_capabilities : gmap string any :=
  <["tools" := AMap {["listChanged" := ABool true]}]>
    (<["resources" := AMap (<["subscribe" := ABool false]> {["listChanged" := ABool false]})]>
      (<["prompts" := AMap ∅]> {["logging" := AMap ∅]})).
Definition initialize_result (version : string) : gmap string any :=
  <["protocolVersion" := AString version]>
    (<["serverInfo" := AMap (<["name" := AString "edge-mcp"]> {["version" := AString "1.0.0"]})]>
      {["capabilities" := AMap server_capabilities]}).

Definition handleInitialize (sid : string) (msg : MCPMessage) (h : Handler) : Handler * verdict :=
  match params_of init_fields msg (MkInit "" "" "" "" None) with
  | Err e =>
      (h, Refuses (NewProtocolError (now_ h) "initialize" "Invalid initialize params"
                     ("Failed to parse initialize parameters: " +:+ unmarshal_error_text e)))
  | Ok p =>
      let clientInfo : gmap string any := <["name" := AString (client_Name p)]> {["version" := AString (client_Version p)]} in
      let clientInfo := if String.eqb (client_Type p) "" then clientInfo else <["type" := AString (client_Type p)]> clientInfo in
      match ValidateMCPProtocolVersion (ProtocolVersion p), ValidateClientInfo clientInfo with
      | Err e, _ | Ok _, Err e => (h, Refuses (ToErrorResponse (inl e) "initialize"))
      | Ok _, Ok _ =>
          let h :=
            match sessions h !! sid with
            | None => h
            | Some _ =>
                let h := on_session sid set_initialized h in
                let h := match init_Credentials p with Some b => on_session sid (set_auth b) h | None => h end in
                match coreClient with
                | None => h
                | Some core =>
                    let '(w, coreSessionID) := core_CreateSession core (client_Name p) (client_Type p) (world h) in
                    let h := on_session sid (set_core coreSessionID) (set_world w h) in
                    set_refreshes (S (activeRefreshes h)) h
                end
            end in
          (h, result_of msg (initialize_result (ProtocolVersion p)))
      end
  end.

Definition handleInitialized (sid : string) (h : Handler) : Handler * verdict :=
  (on_session sid set_initialized h, Replies None).
Definition handlePing (msg : MCPMessage) (h : Handler) : Handler * verdict := (h, result_of msg ∅).

Definition handleShutdown (sid : string) (msg : MCPMessage) (h : Handler) : Handler * verdict :=
  let h :=
    match sessions h !! sid, coreClient with
    | Some s, Some core =>
        if String.eqb (CoreSession s) "" then h else set_world (core_CloseSession core (CoreSession s) (world h)) h
    | _, _ => h
    end in
  (set_sessions (delete sid (sessions h)) h, result_of msg ∅).

(** ** Lists of tools *)

(** The modules that permissions enable; nil permissions are [None].  What cannot be decoded
    is ignored. *)
Definition permission_fields : fields (gmap string bool) :=
  [("enabled_modules", λ at_ v m, let '(m, e) := into_map false into_bool "map[string]bool" at_ v (Some m) in (default ∅ m, e))].
Definition harness_permissions (s : Session) : option (gmap string bool) :=
  match PassthroughAuth s ≫= (λ b, Credentials b !! "harness") with
  | Some (Some c) =>
      match Properties c ≫= (λ p, p !! "permissions") with
      | Some text =>
          if String.eqb text "" then None
          else match parse_json text with
               | Some v => fst (into_ptr ∅ (into_struct "HarnessPermissions" "harness.HarnessPermissions" permission_fields) ("", "") v None)
               | None => None
               end
      | None => None
      end
  | _ => None
  end.

Definition moduleMap : list (string * string) := [
  ("pipelines", "ci"); ("executions", "ci"); ("projects", "core"); ("orgs", "core"); ("connectors", "core"); ("secrets", "core");
  ("delegates", "core"); ("templates", "ci"); ("triggers", "ci"); ("services", "cd"); ("environments", "cd");
  ("infrastructures", "cd"); ("manifests", "cd"); ("gitops", "gitops"); ("featureflags", "cf"); ("ccm", "ccm"); ("cv", "cv");
  ("chaos", "chaos"); ("sto", "sto"); ("idp", "idp"); ("iacm", "iacm"); ("ssca", "ssca")].

Definition isHarnessOperationAllowed (operation : string) (enabled : gmap string bool) : bool :=
  match Split operation "/" with
  | module :: _ :: _ =>
      existsb (λ kv : string * bool, snd kv && EqualFold env_ module (fst kv)) (map_to_list enabled)
      || match List.find (λ kv, String.eqb (fst kv) module) moduleMap with
         | Some (_, mapped) => get false enabled mapped
         | None => false
         end
  | _ => true
  end.

Definition tool_allowed (enabled : gmap string bool) (name : string) : bool :=
  if HasPrefix name "harness_" then
    isHarnessOperationAllowed (ReplaceAll (TrimPrefix name "harness_") "_" "/") enabled
  else true.
Definition filterToolsByPermissions (allTools : list (ToolDefinition TH)) (s : option Session) : list (ToolDefinition TH) :=
  match s ≫= harness_permissions with
  | None => allTools
  | Some enabled => filter (λ t, tool_allowed enabled (Name t) = true) allTools
  end.

Definition merge_tools (l l' : list (ToolDefinition TH)) : gmap string (ToolDefinition TH) :=
  foldl (λ m t, <[Name t := t]> m) ∅ (l ++ l')%list.

(** A session that is gone is a nil pointer, of which the log asks the tenant. *)
Definition handleToolsList (sid : string) (msg : MCPMessage) (h : Handler) : Handler * verdict :=
  let session := sessions h !! sid in
  let allTools := ListAll (tool_order env_) (tools_ h) in
  let '(h, allTools) :=
    match coreClient, session with
    | Some core, Some s =>
        if String.eqb (session_TenantID s) "" then (h, allTools)
        else
          match core_FetchToolsForTenant core (session_TenantID s) (world h) with
          | (w, Some tenantTools) => (set_world w h, (tool_order env_ (merge_tools allTools tenantTools)).*2)
          | (w, None) => (set_world w h, allTools)
          end
    | _, _ => (h, allTools)
    end in
  let toolList := (λ t, AMap (<["name" := AString (Name t)]> (<["description" := AString (EdgeTools.Description t)]>
                     {["inputSchema" := AMap (InputSchema t)]}))) <$> filterToolsByPermissions allTools session in
  match session with
  | None => (h, Crashes)
  | Some _ => (h, result_of msg {["tools" := AList toolList]})
  end.

(** ** Requests that can be cancelled *)

(** [trackRequest] locks the mutex and unlocks it at its end, which a panic skips. *)
Definition trackRequest (id : any) (ctx : nat) (h : Handler) : Handler * option verdict :=
  if requests_locked h then (h, Some Hangs)
  else match any_insert id ctx (activeRequests h) with
       | Returns l => (set_requests l false h, None)
       | _ => (set_requests (activeRequests h) true h, Some Crashes)
       end.
Definition untrackRequest (id : any) (h : Handler) : Handler * option verdict :=
  if requests_locked h then (h, Some Hangs) else (set_requests (delete_key id (activeRequests h)) false h, None).
Definition cancel_ctx (ctx : nat) (h : Handler) : Handler := set_contexts (next_ctx h) (ctx :: cancelled h) h.

(** A context for the request, tracked if the request has an identifier. *)
Definition start_job (sid : string) (msg : MCPMessage) (j : job) (h : Handler) : Handler * verdict :=
  let ctx := next_ctx h in
  let h := set_contexts (S ctx) (cancelled h) h in
  let session := sessions h !! sid in
  let r := MkRunning (msg_ID msg) ctx j (match session with Some s => CoreSession s | None => "" end) (session ≫= PassthroughAuth) in
  if is_nil (msg_ID msg) then (h, Runs r)
  else
    match trackRequest (msg_ID msg) ctx h with
    | (h, None) => (h, Runs r)
    | (h, Some Crashes) => (cancel_ctx ctx h, Crashes)
    | (h, Some v) => (h, v)
    end.

(** The deferred calls at the end of a request: it is no longer tracked, and then its context
    is cancelled. *)
Definition end_job (r : running) (h : Handler) : Handler * option verdict :=
  match if is_nil (run_id r) then (h, None) else untrackRequest (run_id r) h with
  | (h, None) => (cancel_ctx (run_ctx r) h, None)
  | hv => hv
  end.

Definition handleCancelRequest (msg : MCPMessage) (h : Handler) : Handler * verdict :=
  match params_of [("id", into_any)] msg ANil with
  | Err e => (h, Refuses (bad_params h "Invalid cancel request parameters: " "$/cancelRequest" e))
  | Ok id =>
      if requests_locked h then (h, Hangs)
      else match any_lookup id (activeRequests h) with
           | Returns (Some ctx) => (cancel_ctx ctx (set_requests (delete_key id (activeRequests h)) false h), result_of msg ∅)
           | Returns None => (h, result_of msg ∅)
           | _ => (set_requests (activeRequests h) true h, Crashes)
           end
  end.

(** ** Context operations *)

Definition context_key (sid : string) : string := "context:" +:+ sid.
Definition context_reply (msg : MCPMessage) (operation : string) (h : Handler) (r : result string any) : verdict :=
  match r with
  | Err e => Refuses (InternalError (now_ h) operation e |> WithSuggestion "Retry the operation or check connectivity")
  | Ok v => result_of msg {["content" := text_content (sprint_ v)]}
  end.
(** [json.Unmarshal] of the arguments; the error names the operation. *)
Definition bad_arguments (h : Handler) (text operation : string) (e : unmarshal_error) : verdict :=
  Refuses (NewValidationError (now_ h) "arguments" (text +:+ unmarshal_error_text e) |> WithOperation operation).

Record context_params := MkContextParams {
  ctx_Content : string;
  ctx_Role : string;
  ImportanceScore : float64;
  ctx_Metadata : gmap string any;
}.
Definition context_fields : fields context_params := [
  ("content", at_field ctx_Content (λ x p, MkContextParams x (ctx_Role p) (ImportanceScore p) (ctx_Metadata p)) into_string);
  ("role", at_field ctx_Role (λ x p, MkContextParams (ctx_Content p) x (ImportanceScore p) (ctx_Metadata p)) into_string);
  ("importance_score", at_field ImportanceScore (λ x p, MkContextParams (ctx_Content p) (ctx_Role p) x (ctx_Metadata p)) into_float);
  ("metadata", at_field ctx_Metadata (λ x p, MkContextParams (ctx_Content p) (ctx_Role p) (ImportanceScore p) x) any_map)].
Definition search_fields : fields (string * Z) := [
  ("query", at_field fst (λ x p, (x, snd p)) into_string); ("limit", at_field snd (λ x p, (fst p, x)) into_int)].
Definition get_fields : fields (string * Z) := [
  ("relevance_query", at_field fst (λ x p, (x, snd p)) into_string); ("max_tokens", at_field snd (λ x p, (fst p, x)) into_int)].

(** The update that the manager gets, with a default role and more metadata. *)
Definition context_update (role : string) (more : gmap string any) (p : context_params) : gmap string any :=
  let metadata := if f64_lt (f64_of_Z 0) (ImportanceScore p)
                  then <["importance_score" := AFloat (ImportanceScore p)]> (ctx_Metadata p) else ctx_Metadata p in
  <["role" := AString (if String.eqb (ctx_Role p) "" then role else ctx_Role p)]>
    (<["content" := AString (ctx_Content p)]> {["metadata" := AMap (more ∪ metadata)]}).

Definition args_struct {A} (fs : fields A) (args : option json) (zero : A) : result unmarshal_error A :=
  Unmarshal (into_struct "" "struct {...}" fs) args zero.
(** The end of an operation that returns an error or a fixed result. *)
Definition done_or (e : option string) (m : gmap string any) : result string any :=
  match e with Some e => Err e | None => Ok (AMap m) end.

Definition semantic_operation (sem : SemanticContextManager W) (ctxID : string) (msg : MCPMessage) (operation : string)
    (args : option json) (h : Handler) : Handler * verdict :=
  let reply (w : W) (r : result string any) := let h := set_world w h in (h, context_reply msg operation h r) in
  if String.eqb operation "context.update" then
    match args_struct context_fields args (MkContextParams "" "" (f64_of_Z 0) ∅) with
    | Err e => (h, bad_arguments h "Invalid context update data: " "context.update" e)
    | Ok p =>
        let '(w, e) := sem_UpdateContext sem ctxID (context_update "user" ∅ p) (world h) in
        reply w (done_or e (<["success" := ABool true]> (<["embedding_enabled" := ABool true]> {["context_id" := AString ctxID]})))
    end
  else if String.eqb operation "context.get" then
    let '(query, maxTokens) := match args_struct get_fields args ("", 0) with Ok p => p | Err _ => ("", 0) end in
    if String.eqb query "" then
      let opts : gmap string any := if 0 <? maxTokens then {["max_tokens" := AInt maxTokens]} else ∅ in
      let '(w, r) := sem_GetContext sem ctxID opts (world h) in reply w r
    else let '(w, r) := sem_GetRelevantContext sem ctxID query maxTokens (world h) in reply w r
  else if String.eqb operation "context.compact" then
    match args_struct [("strategy", into_string)] args "" with
    | Err e => (h, bad_arguments h "Invalid compact parameters: " "context.compact" e)
    | Ok strategy =>
        let strategy := if String.eqb strategy "" then "summarize" else strategy in
        let '(w, e) := sem_CompactContext sem ctxID strategy (world h) in
        reply w (done_or e (<["success" := ABool true]> {["strategy" := AString strategy]}))
    end
  else if String.eqb operation "context.search" then
    match args_struct search_fields args ("", 0) with
    | Err e => (h, bad_arguments h "Invalid search parameters: " "context.search" e)
    | Ok (query, limit) =>
        let '(w, r) := sem_SearchContext sem query ctxID (if limit =? 0 then 10 else limit) (world h) in reply w r
    end
  else if String.eqb operation "context.append" then
    match args_struct context_fields args (MkContextParams "" "" (f64_of_Z 0) ∅) with
    | Err e => (h, bad_arguments h "Invalid append data: " "context.append" e)
    | Ok p =>
        let '(w, e) := sem_UpdateContext sem ctxID (context_update "assistant" {["append" := ABool true]} p) (world h) in
        reply w (done_or e (<["success" := ABool true]> {["appended" := ABool true]}))
    end
  else (h, Refuses (NewProtocolError (now_ h) operation "Unsupported operation" ("Operation '" +:+ operation +:+ "' is not supported"))).

Definition into_object := into_map ANil into_any "map[string]interface {}".

Definition core_operation (core : CorePlatform W TH) (sid ctxID : string) (msg : MCPMessage) (operation : string)
    (args : option json) (h : Handler) : Handler * verdict :=
  let reply (w : W) (r : result string any) := let h := set_world w h in (h, context_reply msg operation h r) in
  let success : gmap string any := {["success" := ABool true]} in
  if String.eqb ctxID "" then
    (h, Refuses (UninitializedSession (now_ h) |> WithDetails "Core Platform session must be established before context operations"))
  else if String.eqb operation "context.update" then
    match Unmarshal into_object args None with
    | Err e => (h, bad_arguments h "Invalid context update data: " "context.update" e)
    | Ok m =>
        let '(w, e) := core_UpdateContext core ctxID (default ∅ m) (world h) in
        let w := match e with None => cache_Set env_ (context_key sid) (AMap (default ∅ m)) (5 * minute) w | Some _ => w end in
        reply w (done_or e success)
    end
  else if String.eqb operation "context.get" then
    match cache_Get env_ (context_key sid) (world h) with
    | Some m => (h, context_reply msg operation h (Ok (AMap m)))
    | None =>
        match core_GetContext core ctxID (world h) with
        | (w, Ok m) => reply (cache_Set env_ (context_key sid) (AMap m) (5 * minute) w) (Ok (AMap m))
        | (w, Err e) => reply w (Err e)
        end
    end
  else if String.eqb operation "context.append" then
    match Unmarshal into_object args None with
    | Err e => (h, bad_arguments h "Invalid append data: " "context.append" e)
    | Ok m => let '(w, e) := core_AppendContext core ctxID (default ∅ m) (world h) in reply w (done_or e success)
    end
  else if String.eqb operation "context.search" then
    match args_struct search_fields args ("", 0) with
    | Err e => (h, bad_arguments h "Invalid search parameters: " "context.search" e)
    | Ok (query, limit) =>
        let '(w, r) := core_SearchContext core ctxID query (if limit =? 0 then 10 else limit) (world h) in
        reply w (match r with Ok l => Ok (AList l) | Err e => Err e end)
    end
  else if String.eqb operation "context.compact" then
    (h, Refuses (NewProtocolError (now_ h) operation "Operation not supported"
                   ("Operation '" +:+ operation +:+ "' requires semantic context manager")))
  else (h, Refuses (NewProtocolError (now_ h) operation "Unsupported operation" ("Operation '" +:+ operation +:+ "' is not supported"))).

Definition handleContextOperation (sid : string) (msg : MCPMessage) (operation : string) (args : option json) (h : Handler)
    : Handler * verdict :=
  let coreContextID := match sessions h !! sid with Some s => CoreSession s | None => "" end in
  match semanticContextMgr, coreClient with
  | Some sem, _ => semantic_operation sem coreContextID msg operation args h
  | None, Some core => core_operation core sid coreContextID msg operation args h
  | None, None =>
      (h, Refuses (NewProtocolError (now_ h) operation "Context backend not available"
                     "Context operations require either semantic context manager or Core Platform connection"))
  end.

(** ** Calls of tools *)

Definition context_operations : list string := ["context.update"; "context.append"; "context.get"; "context.compact"; "context.search"].
Definition tool_fields : fields (string * option json) := [
  ("name", at_field fst (λ x p, (x, snd p)) into_string); ("arguments", at_field snd (λ x p, (fst p, x)) into_raw)].

Definition handleToolCall (sid : string) (msg : MCPMessage) (h : Handler) : Handler * verdict :=
  match params_of tool_fields msg ("", None) with
  | Err e => (h, Refuses (bad_params h "Invalid tool call parameters: " "tools/call" e |> WithRequestID (sprint_ (msg_ID msg))))
  | Ok (name, args) =>
      match ValidateToolName EdgeValidation.DefaultConfig name with
      | Err e => (h, Refuses (ToErrorResponse (inl e) "tools/call"))
      | Ok _ =>
          if existsb (String.eqb name) context_operations then handleContextOperation sid msg name args h
          else start_job sid msg (ToolJob name args) h
      end
  end.

Definition call_fields : fields BatchToolCall := [
  ("id", at_field ID (λ x t, MkCall x (call_Name t) (Arguments t)) into_string);
  ("name", at_field call_Name (λ x t, MkCall (ID t) x (Arguments t)) into_string);
  ("arguments", λ _ v t, (MkCall (ID t) (call_Name t) (raw_text env_ v), None))].
Definition batch_fields : fields BatchRequest := [
  ("tools", at_field Tools (λ x b, EdgeBatch.MkRequest x (request_Parallel b))
     (into_list (MkCall "" "" "") (into_struct "BatchToolCall" "mcp.BatchToolCall" call_fields) "[]mcp.BatchToolCall"));
  ("parallel", at_field request_Parallel (λ x b, EdgeBatch.MkRequest (Tools b) x) (into_ptr false into_bool))].

Definition handleBatchToolCall (sid : string) (msg : MCPMessage) (h : Handler) : Handler * verdict :=
  let refused field_ text :=
    (h, Refuses (NewValidationError (now_ h) field_ text |> WithOperation "tools/batch" |> WithRequestID (sprint_ (msg_ID msg)))) in
  match params_of batch_fields msg (EdgeBatch.MkRequest [] None) with
  | Err e => refused "params" ("Invalid batch tool call parameters: " +:+ unmarshal_error_text e)
  | Ok b =>
      match ValidateBatchRequest DefaultBatchConfig (Some b) with
      | Err e => refused "batch" e
      | Ok _ => start_job sid msg (BatchJob b) h
      end
  end.

(** The categories of the tools, each once. *)
Definition categories_of (l : list (ToolDefinition TH)) : list string :=
  foldl (λ acc t, if negb (String.eqb (EdgeTools.Category t) "") && negb (bool_decide (EdgeTools.Category t ∈ acc)) then (acc ++ [EdgeTools.Category t])%list else acc) [] l.

(** A value of type [[]map[string]interface{}] is one of a type that is not modelled. *)
Definition maps_type : string := "[]map[string]interface {}".

Definition raw_any (args : option json) : any := match args with Some v => fst (to_any ("", "") v) | None => ANil end.

Definition tool_reply (r : running) (name : string) (args : option json) (x : outcome tool_error any) (h : Handler) : Handler * verdict :=
  match x with
  | Panics => (h, Crashes)
  | Fails (ToolNotFoundError _) =>
      let allTools := ListAll (tool_order env_) (tools_ h) in
      (h, Refuses (ToolNotFound (now_ h) name (categories_of allTools)
                   |> WithOperation ("tools/call:" +:+ name)
                   |> WithRequestID (sprint_ (run_id r))
                   |> WithMetadata "available_tools_count" (AInt (Z.of_nat (length allTools)))))
  | Fails (ToolConfigError _ _ as e) =>
      (h, Refuses (InternalError (now_ h) ("tools/call:" +:+ name) (error_text e) |> WithRequestID (sprint_ (run_id r))))
  | Fails (HandlerError _ as e) =>
      let alternatives := match Get (tools_ h) name with Some t => tool_Alternatives t | None => [] end in
      (h, Refuses (NewToolExecutionErrorWithAlternatives (now_ h) name (error_text e) alternatives |> WithRequestID (sprint_ (run_id r))))
  | Returns v =>
      let h :=
        match coreClient with
        | Some core =>
            if String.eqb (run_core r) "" then h
            else set_world (core_RecordToolExecution core (run_core r) name (raw_any args) v (world h)) h
        | None => h
        end in
      let reply content := (h, Replies (Some (Response (run_id r) (AMap {["content" := content]})))) in
      match as_map v ≫= (λ m, m !! "content") with
      | None => reply (text_content (sprint_ v))
      | Some (AOther t _ as c) => if String.eqb t maps_type then reply c else (h, Crashes)
      | Some _ => (h, Crashes)
      end
  end.

(** A result of a batch, as a value. *)
Definition result_any (t : BatchToolResult) : any :=
  AMap (<["id" := AString (result_ID t)]> (<["name" := AString (result_Name t)]> (<["status" := AString (Status t)]>
    (<["result" := Result t]> (<["error" := AString (Error t)]> (<["duration_ms" := AInt64 (Duration t)]> {["index" := AInt (Index t)]})))))).
Definition call_any (t : BatchToolCall) : any :=
  AMap (<["id" := AString (ID t)]> (<["name" := AString (call_Name t)]> {["arguments" := AString (Arguments t)]})).
Definition Milliseconds (d : Z) : Z := Z.quot d millisecond.

(** [None] is the panic of a tool. *)
Definition batch_reply (r : running) (b : BatchRequest) (x : option (result string BatchResponse)) (h : Handler) : Handler * verdict :=
  let n := Z.of_nat (length (Tools b)) in
  match x with
  | None => (h, Crashes)
  | Some (Err e) =>
      (h, Refuses (InternalError (now_ h) "tools/batch" e |> WithRequestID (sprint_ (run_id r)) |> WithMetadata "batch_size" (AInt n)))
  | Some (Ok resp) =>
      let h :=
        match coreClient with
        | Some core =>
            if String.eqb (run_core r) "" then h
            else
              let batchSummary : gmap string any :=
                <["type" := AString "batch"]> (<["tools" := AList (call_any <$> Tools b)]>
                  (<["success_count" := AInt (SuccessCount resp)]> (<["error_count" := AInt (ErrorCount resp)]>
                    {["duration_ms" := AInt64 (Milliseconds (TotalDuration resp))]}))) in
              set_world (core_RecordToolExecution core (run_core r) "tools/batch" ANil (AMap batchSummary) (world h)) h
        | None => h
        end in
      let contentText := "Batch execution completed: " +:+ itoa (SuccessCount resp) +:+ "/" +:+ itoa n +:+ " tools succeeded" in
      (h, Replies (Some (Response (run_id r) (AMap (
        <["content" := text_content contentText]> (<["batch_results" := AList (result_any <$> Results resp)]>
          (<["success_count" := AInt (SuccessCount resp)]> (<["error_count" := AInt (ErrorCount resp)]>
            (<["total_duration" := AInt64 (Milliseconds (TotalDuration resp))]>
              {["parallel" := ABool (Parallel resp)]})))))))))
  end.

(** ** Other requests *)

Definition resource (uri name description : string) : any :=
  AMap (<["uri" := AString uri]> (<["name" := AString name]> (<["description" := AString description]>
    {["mimeType" := AString "application/json"]}))).
Definition handleResourcesList (msg : MCPMessage) (h : Handler) : Handler * verdict :=
  let resources := [
    resource "edge://system/info" "System Information" "Edge MCP system information";
    resource "edge://platform/info" "Platform Information" "Operating system and platform capabilities";
    resource "edge://tools/list" "Available Tools" "List of available tools"] in
  let resources :=
    match coreClient with
    | Some _ => (resources ++ [resource "core://connection/status" "Core Connection Status" "Status of Core Platform connection"])%list
    | None => resources
    end in
  (h, result_of msg {["resources" := AList resources]}).

Definition resource_content (uri : string) (h : Handler) : option any :=
  if String.eqb uri "edge://system/info" then
    Some (AMap (<["version" := AString "1.0.0"]> (<["core_connected" := ABool (bool_decide (is_Some coreClient))]>
      (<["tools_count" := AInt (Count (tools_ h))]> {["cache_size" := AInt (cache_Size env_ (world h))]}))))
  else if String.eqb uri "edge://platform/info" then Some (platform_info env_ (world h))
  else if String.eqb uri "edge://tools/list" then Some (AStrings (Name <$> ListAll (tool_order env_) (tools_ h)))
  else if String.eqb uri "core://connection/status" then
    Some match coreClient with
         | Some core => AMap (core_GetStatus core (world h))
         | None => AMap (<["connected" := ABool false]> {["error" := AString "Core Platform not configured"]})
         end
  else None.
Definition handleResourceRead (msg : MCPMessage) (h : Handler) : Handler * verdict :=
  match params_of [("uri", into_string)] msg "" with
  | Err e => (h, Refuses (bad_params h "Invalid resource read parameters: " "resources/read" e))
  | Ok uri =>
      match resource_content uri h with
      | None => (h, Refuses (ResourceNotFound (now_ h) "resource" uri ["resources/list"] |> WithOperation "resources/read"))
      | Some content =>
          (h, result_of msg {["contents" := AList [AMap (<["uri" := AString uri]> (<["mimeType" := AString "application/json"]>
                {["text" := AString (default "" (Marshal (other_json env_) content))]}))]]})
      end
  end.

Definition handlePromptsList (msg : MCPMessage) (h : Handler) : Handler * verdict := (h, result_of msg {["prompts" := AList []]}).

Definition levelMap : list (string * string) :=
  [("debug", "DEBUG"); ("info", "INFO"); ("warning", "WARN"); ("warn", "WARN"); ("error", "ERROR")].
(** The level is that of the handler's logger: of all sessions. *)
Definition handleLoggingSetLevel (msg : MCPMessage) (h : Handler) : Handler * verdict :=
  match params_of [("level", into_string)] msg "" with
  | Err e => (h, Refuses (bad_params h "Invalid logging parameters: " "logging/setLevel" e))
  | Ok level =>
      match List.find (λ kv, String.eqb (fst kv) level) levelMap with
      | None =>
          (h, Refuses (NewValidationError (now_ h) "level" ("Invalid log level '" +:+ level +:+ "'. Valid levels: " +:+
                         brackets (fst <$> levelMap)) |> WithOperation "logging/setLevel"))
      | Some (_, newLevel) => (if standard_logger then set_level newLevel h else h, result_of msg ∅)
      end
  end.

(** ** Messages *)

(** The name by which a call of a tool is limited. *)
Definition limited_tool (msg : MCPMessage) : string :=
  if String.eqb (msg_Method msg) "tools/call" then
    match params_of [("name", into_string)] msg "" with Ok name => name | Err _ => "" end
  else "".
Definition unlimited : list string := ["initialize"; "initialized"; "ping"].

Definition dispatch (sid : string) (msg : MCPMessage) (h : Handler) : Handler * verdict :=
  let m := msg_Method msg in
  if String.eqb m "initialize" then handleInitialize sid msg h
  else if String.eqb m "initialized" then handleInitialized sid h
  else if String.eqb m "ping" then handlePing msg h
  else if String.eqb m "shutdown" then handleShutdown sid msg h
  else if String.eqb m "tools/list" then handleToolsList sid msg h
  else if String.eqb m "tools/call" then handleToolCall sid msg h
  else if String.eqb m "tools/batch" then handleBatchToolCall sid msg h
  else if String.eqb m "resources/list" then handleResourcesList msg h
  else if String.eqb m "resources/read" then handleResourceRead msg h
  else if String.eqb m "prompts/list" then handlePromptsList msg h
  else if String.eqb m "logging/setLevel" then handleLoggingSetLevel msg h
  else if String.eqb m "$/cancelRequest" then handleCancelRequest msg h
  else (h, Refuses (NewProtocolError (now_ h) m "Method not found" ("The method '" +:+ m +:+ "' is not supported by this server"))).

(** [handleMessage], up to a tool that runs. *)
Definition begin (sid : string) (msg : MCPMessage) (h : Handler) : Handler * verdict :=
  match sessions h !! sid with
  | None => (h, Refuses (NewProtocolError (now_ h) (msg_Method msg) "Session not found" "The session does not exist or has expired"))
  | Some session =>
      if existsb (String.eqb (msg_Method msg)) unlimited then dispatch sid msg h
      else
        let '(r, rl) := CheckRateLimit (now_ h) (session_TenantID session) (limited_tool msg) (rateLimiter h) in
        let h := set_limiter rl h in
        if Allowed r then dispatch sid msg h
        else (h, Replies (Some (ErrorReply (msg_ID msg)
                (MkMCPError 429 ("Rate limit exceeded: " +:+ LimitType r) (McpErrors.Value <$> CreateRateLimitError r)))))
  end.

(** What a tool or a batch came to. *)
Inductive outcome_of_job :=
| ToolDone (x : outcome tool_error any)
| BatchDone (x : option (result string BatchResponse)).

(** [handleMessage] from there on: the reply, and the deferred calls. *)
Definition job_reply (r : running) (x : outcome_of_job) (h : Handler) : Handler * verdict :=
  match run_job r, x with
  | ToolJob name args, ToolDone x => tool_reply r name args x h
  | BatchJob b, BatchDone x => batch_reply r b x h
  | _, _ => (h, Crashes)
  end.
Definition finish (r : running) (x : outcome_of_job) (h : Handler) : Handler * verdict :=
  let '(h, v) := job_reply r x h in
  let '(h, stuck) := end_job r h in
  (h, default v stuck).

(** What the connection sends: errors become errors of JSON-RPC. *)
Definition reply_of (msg_id : any) (v : verdict) : option outgoing :=
  match v with
  | Replies r => r
  | Refuses e => Some (ErrorReply msg_id (ToMCPError e))
  | _ => None
  end.

(** ** Connections *)

(** A new session, of the tenant that the authenticator knows by the key. *)
Definition open_session (sid tenant : string) (h : Handler) : Handler :=
  set_sessions (<[sid := MkSession sid false tenant "" (now_ h) (now_ h) None]> (sessions h)) h.
Definition close_session (sid : string) (h : Handler) : Handler := set_sessions (delete sid (sessions h)) h.
(** A message was read. *)
Definition note_activity (sid : string) (h : Handler) : Handler := on_session sid (set_activity (now_ h)) h.

(** [Shutdown]: what runs is cancelled and the sessions are forgotten. *)
Definition Shutdown (h : Handler) : option Handler :=
  if requests_locked h then None
  else Some (set_sessions ∅ (set_limiter (EdgeRateLimit.Close (rateLimiter h)) (set_contexts (next_ctx h) ((activeRequests h).*2 ++ cancelled h)%list h))).

(** The response of a connection is streamed when its text is long and it has an identifier. *)
Definition streamed (text : string) (id : any) : bool := ShouldStream text StreamThreshold && negb (is_nil id).

(** ** Standard input *)

(** What the decoder finds next: a value, text that is no JSON, or the end.  Once it has
    found such text, or the end within a value, it says so for ever. *)
Inductive input := Value_ (v : json) | Garbage (error_ : string).

Section stdio.
(** Running a tool or a batch. *)
Variable perform : running -> Handler -> Handler * outcome_of_job.

Definition handleMessage (sid : string) (msg : MCPMessage) (h : Handler) : Handler * verdict :=
  match begin sid msg h with
  | (h, Runs r) => let '(h, x) := perform r h in finish r x h
  | hv => hv
  end.

Inductive stdio_end := Closed | ShutDown | Crashed | Stuck | GoesOn.

Definition parse_error (text : string) : outgoing :=
  ErrorReply ANil (MkMCPError (-32700) "Parse error" {["data" := McpErrors.Value (AString text)]}).

(** [fuel] messages at most. *)
Fixpoint stdio_loop (fuel : nat) (sid : string) (l : list input) (out : list outgoing) (h : Handler)
    : list outgoing * stdio_end * Handler :=
  match fuel with
  | O => (out, GoesOn, h)
  | S fuel =>
      match l with
      | [] => (out, Closed, h)
      | Garbage e :: _ => stdio_loop fuel sid l (out ++ [parse_error e])%list h
      | Value_ v :: l =>
          match decode_message v with
          | (_, Some e) => stdio_loop fuel sid l (out ++ [parse_error (unmarshal_error_text (WrongType e))])%list h
          | (msg, None) =>
              let '(h, v) := handleMessage sid msg (note_activity sid h) in
              let out := match reply_of (msg_ID msg) v with Some r => (out ++ [r])%list | None => out end in
              match v with
              | Crashes => (out, Crashed, h)
              | Hangs | Runs _ => (out, Stuck, h)
              | _ => if String.eqb (msg_Method msg) "shutdown" then (out, ShutDown, h) else stdio_loop fuel sid l out h
              end
          end
      end
  end.

Definition HandleStdio (fuel : nat) (sid : string) (l : list input) (h : Handler) : list outgoing * stdio_end * Handler :=
  let '(out, e, h) := stdio_loop fuel sid l [] (open_session sid "" h) in
  (out, e, match e with GoesOn | Stuck => h | _ => close_session sid h end).

(** Text that is no JSON is answered without end: for any number of turns, each turn
    is one more parse error, and the input after it is never read. *)
Theorem parse_errors_without_end fuel sid e l out h :
  stdio_loop fuel sid (Garbage e :: l) out h =
    ((out ++ repeat (parse_error e) fuel)%list, GoesOn, h).
Proof.
  revert out. induction fuel as [|fuel IH]; intros out; cbn [stdio_loop repeat]; [by rewrite app_nil_r|].
  rewrite IH. by rewrite <-app_assoc.
Qed.
End stdio.
End handler.
Arguments MkHandler {W TH L}.
