(* ===== verification/EdgeSystem.v ===== *)
(** * EdgeSystem: the edge server and its connections

    [EdgeHandler] shared by any number of connections, as a transition system: a connection
    reads one message at a time and waits for the tool that the message runs; meanwhile
    other connections go on.  What a message does before and after its tool is one step. *)

From stdpp Require Import base decidable gmap strings list.
From Stdlib Require Import ZArith Lia.
From S2P Require Import Prelude GoFloat GoStrings GoParse GoAny UnicodeText Json ToolRelations EdgeTools CoreClient EdgeBatch.
From S2P Require Import EdgeRateLimit McpErrors EdgeValidation Redact EdgeStreaming EdgeAuth EdgeHandler.
Import AnyMap.

Local Open Scope string_scope.
Local Open Scope Z_scope.

(** ** What handling a message leaves alone *)

Section frame.
Context {W TH L : Type} `{HT : !TokenBucket L}.
Variable env_ : Surroundings W TH.
Variable coreClient : option (CorePlatform W TH).
Variable semanticContextMgr : option (SemanticContextManager W).
Variable standard_logger : bool.
Notation Handler := (Handler (W:=W) (TH:=TH) (L:=L)).
Implicit Types (h : Handler) (msg : MCPMessage) (r : running).

(** The requests that can be cancelled, and the contexts. *)
Definition requests h : list (any * nat) * bool * nat * list nat :=
  (activeRequests h, requests_locked h, next_ctx h, cancelled h).

(** A message that runs no tool is answered, at once and with its own identifier. *)
Definition own_reply (id : any) (v : verdict) : Prop :=
  match v with
  | Replies (Some (Response i _)) | Replies (Some (ErrorReply i _)) => i = id
  | Replies (Some (Notification _ _)) | Replies None => False
  | Refuses _ | Crashes | Hangs => True
  | Runs _ => False
  end.
Definition simple h msg (hv : Handler * verdict) : Prop := requests (fst hv) = requests h /\ own_reply (msg_ID msg) (snd hv).

Lemma on_session_requests sid f h : requests (on_session sid f h) = requests h.
Proof. unfold on_session. by case_match. Qed.

Ltac by_cases := repeat case_match; simplify_eq; by split.

Lemma initialize_simple sid msg h : simple h msg (handleInitialize env_ coreClient sid msg h).
Proof.
  unfold handleInitialize, simple. repeat case_match; simplify_eq; cbn [fst snd]; (split; [|done]);
    rewrite ?on_session_requests; try done; unfold requests, set_refreshes; cbn;
    repeat match goal with |- context [on_session ?a ?b ?c] =>
      let E := fresh in pose proof (on_session_requests a b c) as E; unfold requests in E; injection E as -> -> -> ->; cbn end; done.
Qed.
Lemma shutdown_simple sid msg h : simple h msg (handleShutdown coreClient sid msg h).
Proof. unfold handleShutdown, simple. by_cases. Qed.
Lemma tools_list_simple sid msg h : simple h msg (handleToolsList env_ coreClient sid msg h).
Proof. unfold handleToolsList, simple. by_cases. Qed.
Lemma context_reply_own msg op h (x : result string any) : own_reply (msg_ID msg) (context_reply env_ msg op h x).
Proof. by destruct x. Qed.
Lemma semantic_simple sem cid msg op args h : simple h msg (semantic_operation env_ sem cid msg op args h).
Proof.
  unfold semantic_operation, simple. repeat case_match; simplify_eq; cbn [fst snd]; split; try done; apply context_reply_own.
Qed.
Lemma core_simple core sid cid msg op args h : simple h msg (core_operation env_ core sid cid msg op args h).
Proof.
  unfold core_operation, simple. repeat case_match; simplify_eq; cbn [fst snd]; split; try done; apply context_reply_own.
Qed.
Lemma context_simple sid msg op args h : simple h msg (handleContextOperation env_ coreClient semanticContextMgr sid msg op args h).
Proof.
  unfold handleContextOperation. destruct semanticContextMgr; [apply semantic_simple|]. destruct coreClient; [apply core_simple|by split].
Qed.
Lemma resources_list_simple msg h : simple h msg (handleResourcesList coreClient msg h).
Proof. unfold handleResourcesList, simple. by_cases. Qed.
Lemma resource_read_simple msg h : simple h msg (handleResourceRead env_ coreClient msg h).
Proof. unfold handleResourceRead, simple. by_cases. Qed.
Lemma level_simple msg h : simple h msg (handleLoggingSetLevel env_ standard_logger msg h).
Proof. unfold handleLoggingSetLevel, simple. by_cases. Qed.

(** ** Calls and cancellations *)

(** A request that starts a tool. *)
Inductive starts_job h msg (hv : Handler * verdict) : Prop :=
| started r l :
    snd hv = Runs r -> run_id r = msg_ID msg -> run_ctx r = next_ctx h ->
    requests (fst hv) = (l, requests_locked h, S (next_ctx h), cancelled h) ->
    (if is_nil (msg_ID msg) then l = activeRequests h
     else requests_locked h = false /\ hashable (msg_ID msg) = true /\ l = put_key (msg_ID msg) (next_ctx h) (activeRequests h)) ->
    starts_job h msg hv
| crashed_ :
    snd hv = Crashes -> requests_locked h = false -> hashable (msg_ID msg) = false ->
    requests (fst hv) = (activeRequests h, true, S (next_ctx h), next_ctx h :: cancelled h) -> starts_job h msg hv
| hung :
    snd hv = Hangs -> requests_locked h = true ->
    requests (fst hv) = (activeRequests h, true, S (next_ctx h), cancelled h) -> starts_job h msg hv.

Lemma start_job_starts sid msg j h : starts_job h msg (start_job sid msg j h).
Proof.
  unfold start_job. destruct (is_nil (msg_ID msg)) eqn:Hn.
  - eapply started; cbn; try reflexivity. by rewrite Hn.
  - unfold trackRequest. cbn [requests_locked set_contexts]. destruct (requests_locked h) eqn:Hl.
    + apply hung; cbn; [done|done|]. unfold requests. cbn. by rewrite Hl.
    + unfold any_insert. destruct (hashable (msg_ID msg)) eqn:Hh.
      * eapply started; cbn; try reflexivity. { unfold requests. cbn. by rewrite Hl. } by rewrite Hn.
      * by apply crashed_.
Qed.

Definition simple_or_starts h msg (hv : Handler * verdict) : Prop := simple h msg hv \/ starts_job h msg hv.

Lemma tool_call_frame sid msg h : simple_or_starts h msg (handleToolCall env_ coreClient semanticContextMgr sid msg h).
Proof.
  unfold handleToolCall. repeat case_match; [left; apply context_simple|right; apply start_job_starts|by left..].
Qed.
Lemma batch_call_frame sid msg h : simple_or_starts h msg (handleBatchToolCall env_ sid msg h).
Proof. unfold handleBatchToolCall. repeat case_match; [right; apply start_job_starts|by left..]. Qed.

(** A cancellation forgets the requests with the identifier, and cancels a context that was
    tracked under it. *)
Inductive cancels h msg (hv : Handler * verdict) : Prop :=
| cancels_nothing : requests (fst hv) = requests h -> own_reply (msg_ID msg) (snd hv) -> cancels h msg hv
| cancels_one id ctx :
    find_key id (activeRequests h) = Some ctx -> requests_locked h = false ->
    requests (fst hv) = (delete_key id (activeRequests h), false, next_ctx h, ctx :: cancelled h) ->
    own_reply (msg_ID msg) (snd hv) -> cancels h msg hv
| cancel_crashes : requests (fst hv) = (activeRequests h, true, next_ctx h, cancelled h) -> snd hv = Crashes -> cancels h msg hv.

Lemma cancel_frame msg h : cancels h msg (handleCancelRequest env_ msg h).
Proof.
  unfold handleCancelRequest. destruct (params_of _ _ _) as [id|e]; [|by apply cancels_nothing].
  destruct (requests_locked h) eqn:Hl; [by apply cancels_nothing|].
  destruct (any_lookup id (activeRequests h)) as [[ctx|]| |] eqn:Hk; try (by apply cancel_crashes); [|by apply cancels_nothing].
  apply find_hashable in Hk. by eapply cancels_one.
Qed.

(** What any message does to the requests. *)
Inductive handles h msg (hv : Handler * verdict) : Prop :=
| handles_simple : simple h msg hv -> handles h msg hv
| handles_notification : requests (fst hv) = requests h -> snd hv = Replies None -> msg_Method msg = "initialized" -> handles h msg hv
| handles_start : starts_job h msg hv -> handles h msg hv
| handles_cancel : msg_Method msg = "$/cancelRequest" -> cancels h msg hv -> handles h msg hv.

Lemma dispatch_handles sid msg h : handles h msg (dispatch env_ coreClient semanticContextMgr standard_logger sid msg h).
Proof.
  unfold dispatch.
  destruct (String.eqb_spec (msg_Method msg) "initialize"); [apply handles_simple, initialize_simple|].
  destruct (String.eqb_spec (msg_Method msg) "initialized"); [apply handles_notification; [apply on_session_requests|done..]|].
  destruct (String.eqb_spec (msg_Method msg) "ping"); [by apply handles_simple|].
  destruct (String.eqb_spec (msg_Method msg) "shutdown"); [apply handles_simple, shutdown_simple|].
  destruct (String.eqb_spec (msg_Method msg) "tools/list"); [apply handles_simple, tools_list_simple|].
  destruct (String.eqb_spec (msg_Method msg) "tools/call").
  { destruct (tool_call_frame sid msg h); [by apply handles_simple|by apply handles_start]. }
  destruct (String.eqb_spec (msg_Method msg) "tools/batch").
  { destruct (batch_call_frame sid msg h); [by apply handles_simple|by apply handles_start]. }
  destruct (String.eqb_spec (msg_Method msg) "resources/list"); [apply handles_simple, resources_list_simple|].
  destruct (String.eqb_spec (msg_Method msg) "resources/read"); [apply handles_simple, resource_read_simple|].
  destruct (String.eqb_spec (msg_Method msg) "prompts/list"); [by apply handles_simple|].
  destruct (String.eqb_spec (msg_Method msg) "logging/setLevel"); [apply handles_simple, level_simple|].
  destruct (String.eqb_spec (msg_Method msg) "$/cancelRequest"); [apply handles_cancel; [done|apply cancel_frame]|].
  by apply handles_simple.
Qed.

Lemma cancels_requests h h' msg hv : requests h = requests h' -> cancels h msg hv -> cancels h' msg hv.
Proof.
  intros Hr H. unfold requests in Hr. injection Hr as H1 H2 H3 H4.
  destruct H; [eapply cancels_nothing|eapply cancels_one|eapply cancel_crashes]; eauto; unfold requests in *; try congruence;
    rewrite <-?H1, <-?H2, <-?H3, <-?H4; eauto.
Qed.

Lemma handles_requests h h' msg hv : requests h = requests h' -> handles h msg hv -> handles h' msg hv.
Proof.
  intros Hr H. pose proof Hr as Hr'. unfold requests in Hr'. injection Hr' as H1 H2 H3 H4. destruct H as [[H5 H6]|H5 H6 H7|H5|H5 H6].
  - apply handles_simple. split; [congruence|done].
  - apply handles_notification; congruence || done.
  - apply handles_start. destruct H5; [eapply started|eapply crashed_|eapply hung]; eauto; try congruence;
      rewrite <-?H1, <-?H2, <-?H3, <-?H4; eauto; congruence.
  - apply handles_cancel; [done|]. by eapply cancels_requests.
Qed.

Lemma begin_handles sid msg h : handles h msg (begin env_ coreClient semanticContextMgr standard_logger sid msg h).
Proof.
  unfold begin. destruct (sessions h !! sid); [|by apply handles_simple]. case_match; [apply dispatch_handles|].
  destruct (CheckRateLimit _ _ _ _) as [r rl]. destruct (Allowed r); [|by apply handles_simple].
  by eapply handles_requests, dispatch_handles.
Qed.

Lemma begin_cancels sid msg h :
  msg_Method msg = "$/cancelRequest" -> cancels h msg (begin env_ coreClient semanticContextMgr standard_logger sid msg h).
Proof.
  intros Hm. unfold begin, dispatch. rewrite Hm. destruct (sessions h !! sid); [|by apply cancels_nothing]. cbn -[CheckRateLimit].
  destruct (CheckRateLimit _ _ _ _) as [r rl]. destruct (Allowed r); [|by apply cancels_nothing].
  by eapply cancels_requests, cancel_frame.
Qed.

(** The end of a tool answers its request, and forgets it, unless the mutex is locked. *)
Inductive ends r h (hv : Handler * verdict) : Prop :=
| ends_forgotten :
    (is_nil (run_id r) = false -> requests_locked h = false) ->
    requests (fst hv) =
      (if is_nil (run_id r) then activeRequests h else delete_key (run_id r) (activeRequests h),
       requests_locked h, next_ctx h, run_ctx r :: cancelled h) ->
    own_reply (run_id r) (snd hv) -> ends r h hv
| ends_hung :
    is_nil (run_id r) = false -> requests_locked h = true -> requests (fst hv) = requests h -> snd hv = Hangs -> ends r h hv.

Lemma finish_ends r x h : ends r h (finish env_ coreClient r x h).
Proof.
  assert (requests (fst (job_reply env_ coreClient r x h)) = requests h /\
    own_reply (run_id r) (snd (job_reply env_ coreClient r x h))) as [H1 H2].
  { unfold job_reply. destruct (run_job r), x; try done; [unfold tool_reply|unfold batch_reply]; repeat case_match; simplify_eq; by split. }
  unfold finish. destruct (job_reply env_ coreClient r x h) as [h' v]. cbn [fst snd] in *.
  pose proof H1 as H1'. unfold requests in H1'. injection H1' as E1 E2 E3 E4. unfold end_job, untrackRequest.
  destruct (is_nil (run_id r)) eqn:Hn.
  - apply ends_forgotten; [by rewrite Hn| |done]. unfold requests. cbn. rewrite Hn. congruence.
  - destruct (requests_locked h') eqn:Hl.
    + apply ends_hung; [done|congruence|done|reflexivity].
    + apply ends_forgotten; [congruence| |done]. unfold requests. cbn. rewrite Hn. congruence.
Qed.

(** The answer to a message has the message's identifier, whether or not it takes a tool. *)
Definition reply_id (o : outgoing) : option any :=
  match o with Response i _ | ErrorReply i _ => Some i | Notification _ _ => None end.

Definition identified (id : any) (v : verdict) : Prop :=
  match reply_of id v with Some o => reply_id o = Some id | None => v = Crashes \/ v = Hangs end.
Lemma own_identified id v : own_reply id v -> identified id v.
Proof. unfold identified. destruct v as [[[]|]| | | |]; cbn; intros H; subst; auto; done. Qed.

(** C12 Every answer carries the identifier of the message it answers: the answer that is
    given at once, and the answer given when the tool of the message is done.  Only the
    notification [initialized] has no answer, unless the handler panics or waits for ever. *)
Theorem answers_carry_identifier sid msg h :
  let '(_, v) := begin env_ coreClient semanticContextMgr standard_logger sid msg h in
  identified (msg_ID msg) v \/ (v = Replies None /\ msg_Method msg = "initialized") \/
  exists r, v = Runs r /\ run_id r = msg_ID msg /\
    forall x later, identified (msg_ID msg) (snd (finish env_ coreClient (L:=L) r x later)).
Proof.
  pose proof (begin_handles sid msg h) as H. destruct (begin _ _ _ _ sid msg h) as [h' v]. cbn in *.
  destruct H as [[_ Hv]|_ Hv Hm|Hs|_ Hc]; cbn in *; [left; by apply own_identified|by right; left| |left].
  - destruct Hs as [r l Hv Hid|Hv|Hv]; cbn in Hv; subst v; [right; right|left; cbv; tauto..].
    exists r. split; [done|]. split; [done|]. intros x later. rewrite <-Hid.
    destruct (finish_ends r x later) as [_ _ Ho|_ _ _ ->]; [by apply own_identified|by right].
  - destruct Hc as [_ Hv|? ? _ _ _ Hv|_ Hv]; cbn in Hv; [by apply own_identified..|subst v; by left].
Qed.

(** ** Connections *)

(** A connection reads the next message ([Idle]) or waits: for the tool of its last message
    ([Busy]), or for the mutex, at the start of a request or at its end ([Stuck]). *)
Inductive status := Idle | Busy (r : running) | Stuck_ (r : option running).
Record system := MkSystem { conns : gmap string status; shared : Handler }.

Definition settle (r : option running) (v : verdict) : option status :=
  match v with
  | Replies _ | Refuses _ => Some Idle
  | Crashes => None
  | Hangs => Some (Stuck_ r)
  | Runs r => Some (Busy r)
  end.
(** A panic ends the connection: its deferred calls forget the session. *)
Definition settled (sid : string) (r : option running) (hv : Handler * verdict) (s : system) : system :=
  match settle r (snd hv) with
  | Some st => MkSystem (<[sid := st]> (conns s)) (fst hv)
  | None => MkSystem (delete sid (conns s)) (close_session sid (fst hv))
  end.

(** An identifier that was read as JSON is no NaN: it equals itself, if it can be compared. *)
Definition from_json (id : any) : Prop := hashable id = true -> same_key id id = true.

Definition received (sid : string) msg (s : system) : system :=
  settled sid None (begin env_ coreClient semanticContextMgr standard_logger sid msg (note_activity env_ sid (shared s))) s.

(** [step_other]: the world goes on, the limiter is cleaned up, and tools are refreshed. *)
Inductive step : system -> system -> Prop :=
| step_connect sid tenant s :
    conns s !! sid = None -> step s (MkSystem (<[sid := Idle]> (conns s)) (open_session env_ sid tenant (shared s)))
| step_receive sid msg s :
    conns s !! sid = Some Idle -> from_json (msg_ID msg) -> step s (received sid msg s)
| step_done sid r x s :
    conns s !! sid = Some (Busy r) -> step s (settled sid (Some r) (finish env_ coreClient r x (shared s)) s)
| step_disconnect sid s :
    conns s !! sid = Some Idle -> step s (MkSystem (delete sid (conns s)) (close_session sid (shared s)))
| step_shutdown s h' : Shutdown (shared s) = Some h' -> step s (MkSystem (conns s) h')
| step_other s h' : requests h' = requests (shared s) -> step s (MkSystem (conns s) h').

Inductive reachable_system : system -> Prop :=
| system_start h : activeRequests h = [] -> reachable_system (MkSystem ∅ h)
| system_step s s' : reachable_system s -> step s s' -> reachable_system s'.

(** The connection works at the request, or waits to forget it. *)
Definition works (s : system) (sid : string) (r : running) : Prop :=
  conns s !! sid = Some (Busy r) \/ conns s !! sid = Some (Stuck_ (Some r)).
Definition owned (s : system) (kv : any * nat) : Prop :=
  exists sid r, works s sid r /\ run_ctx r = snd kv /\ is_nil (run_id r) = false /\ same_key (run_id r) (fst kv) = true.
Definition all_owned (s : system) : Prop := forall kv, kv ∈ activeRequests (shared s) -> owned s kv.

(** Who works goes on working while another connection changes, or an idle one does. *)
Lemma works_settled sid o hv s sid' r : works s sid' r -> sid' ≠ sid -> works (settled sid o hv s) sid' r.
Proof. intros Hw Hne. unfold works, settled. destruct (settle o (snd hv)); cbn; rewrite ?lookup_insert_ne, ?lookup_delete_ne; done. Qed.
Lemma idle_works s sid sid' r : conns s !! sid = Some Idle -> works s sid' r -> sid' ≠ sid.
Proof. intros Hi [Hw|Hw] ->; congruence. Qed.

Lemma settled_requests sid o hv s : requests (shared (settled sid o hv s)) = requests (fst hv).
Proof. unfold settled. by destruct (settle o (snd hv)). Qed.
Lemma requests_active h h' : requests h = requests h' -> activeRequests h = activeRequests h'.
Proof. intros H. by injection H. Qed.
Lemma settled_active sid o hv s : activeRequests (shared (settled sid o hv s)) = activeRequests (fst hv).
Proof. apply requests_active, settled_requests. Qed.
Lemma note_requests sid h : requests (note_activity env_ sid h) = requests h.
Proof. apply on_session_requests. Qed.

Lemma received_handles sid msg s : handles (shared s) msg (begin env_ coreClient semanticContextMgr standard_logger sid msg (note_activity env_ sid (shared s))).
Proof. eapply handles_requests, begin_handles. apply note_requests. Qed.

Lemma received_owned sid msg s :
  conns s !! sid = Some Idle -> from_json (msg_ID msg) -> all_owned s -> all_owned (received sid msg s).
Proof.
  intros Hi Hj Ho kv. pose proof (received_handles sid msg s) as H. unfold received. destruct (begin _ _ _ _ _ _ _) as [h' v].
  rewrite settled_active.
  assert (kv ∈ activeRequests (shared s) -> owned (settled sid None (h', v) s) kv) as Hkeep.
  { intros (sid' & r & Hw & Hr)%Ho. exists sid', r. split; [|done]. apply works_settled; [done|]. by eapply idle_works. }
  destruct H as [[H _]|H _ _|Hs|_ Hc]; cbn in *; try (by rewrite (requests_active _ _ H)).
  - destruct Hs as [r l Hv Hid Hctx Hrq Hl|_ _ _ Hrq|_ _ Hrq]; cbn in *; injection Hrq as -> _ _ _; [|done..].
    destruct (is_nil (msg_ID msg)) eqn:Hn; [by subst l|]. destruct Hl as (_ & Hh & ->).
    intros [?|[E Hk]]%put_elem; [by apply Hkeep|]. exists sid, r. split.
    + left. unfold settled. cbn. rewrite Hv. cbn. by rewrite lookup_insert_eq.
    + rewrite Hid, Hctx. split; [done|]. split; [done|]. destruct Hk as [Hk| ->]; [done|]. by apply Hj.
  - destruct Hc as [Hrq _|id ctx _ _ Hrq _|Hrq _]; cbn in *; [by rewrite (requests_active _ _ Hrq)|injection Hrq as -> _ _ _..].
    + intros [_ ?]%delete_elem. by apply Hkeep.
    + done.
Qed.

Lemma done_owned sid r x s :
  conns s !! sid = Some (Busy r) -> all_owned s -> all_owned (settled sid (Some r) (finish env_ coreClient r x (shared s)) s).
Proof.
  intros Hb Ho kv. rewrite settled_active.
  destruct (finish_ends r x (shared s)) as [_ Hrq _|Hn Hl Hrq Hv].
  - injection Hrq as -> _ _ _. intros Hin.
    assert (kv ∈ activeRequests (shared s)) as (sid' & r' & Hw & Hc & Hn & Hk)%Ho by (destruct (is_nil _); [done|by apply delete_elem in Hin as [_ ?]]).
    exists sid', r'. split; [|done]. apply works_settled; [done|]. intros ->.
    assert (r' = r) as -> by (destruct Hw; congruence). rewrite Hn in Hin. apply delete_elem in Hin as [Hf _]. congruence.
  - rewrite (requests_active _ _ Hrq). intros (sid' & r' & Hw & Hr)%Ho. exists sid', r'. split; [|done].
    destruct (decide (sid' = sid)) as [->|Hne]; [|by apply works_settled].
    assert (r' = r) as -> by (destruct Hw; congruence). right. unfold settled. rewrite Hv. cbn. by rewrite lookup_insert_eq.
Qed.

Lemma reachable_owned s : reachable_system s -> all_owned s.
Proof.
  induction 1 as [h Hh|s s' _ IH Hs]; [intros kv; cbn; rewrite Hh; by intros ?%elem_of_nil|].
  destruct Hs as [sid tenant s Hf|sid msg s|sid r x s|sid s Hi|s h' Hd|s h' Hrq].
  - intros kv Hin. destruct (IH kv Hin) as (sid' & r & Hw & Hr). exists sid', r. split; [|done].
    unfold works. cbn. by rewrite !lookup_insert_ne by (intros ->; destruct Hw; congruence).
  - by apply received_owned.
  - by apply done_owned.
  - intros kv Hin. destruct (IH kv Hin) as (sid' & r & Hw & Hr). exists sid', r. split; [|done].
    unfold works. cbn. rewrite !lookup_delete_ne by (intros ->; by eapply idle_works). done.
  - unfold Shutdown in Hd. destruct (requests_locked _); [done|]. injection Hd as <-. exact IH.
  - intros kv. cbn. rewrite (requests_active _ _ Hrq). apply IH.
Qed.


(** ** The mutex of the requests *)

Lemma requests_lock h h' : requests h = requests h' -> requests_locked h = requests_locked h'.
Proof. intros H. by injection H. Qed.

Lemma handles_locked h msg hv : requests_locked h = true -> handles h msg hv -> requests_locked (fst hv) = true.
Proof.
  intros Hl H. assert (forall l n c, requests (fst hv) = (l, true, n, c) -> requests_locked (fst hv) = true) as Hlock
    by (intros l n c E; by injection E).
  destruct H as [[Hrq _]|Hrq _ _|[? ? _ _ _ Hrq _|_ _ _ Hrq|_ _ Hrq]|_ [Hrq _|? ? _ Hf _ _|Hrq _]];
    try (rewrite (requests_lock _ _ Hrq); exact Hl); try (by eapply Hlock); [|congruence].
  rewrite Hl in Hrq. by eapply Hlock.
Qed.
Lemma ends_locked r h hv : requests_locked h = true -> ends r h hv -> requests_locked (fst hv) = true.
Proof. intros Hl [_ Hrq _|_ _ Hrq _]; [by injection Hrq as _ -> _ _|by rewrite (requests_lock _ _ Hrq)]. Qed.

Lemma step_locked s s' : step s s' -> requests_locked (shared s) = true -> requests_locked (shared s') = true.
Proof.
  assert (forall sid o hv s, requests_locked (shared (settled sid o hv s)) = requests_locked (fst hv)) as Hset
    by (intros; apply requests_lock, settled_requests).
  intros [sid tenant s0 _|sid msg s0 _ _|sid r x s0 _|sid s0 _|s0 h' Hd|s0 h' Hrq] Hl; cbn; try done.
  - unfold received. rewrite Hset. eapply handles_locked, received_handles. done.
  - rewrite Hset. eapply ends_locked, finish_ends. done.
  - unfold Shutdown in Hd. by rewrite Hl in Hd.
  - by rewrite (requests_lock _ _ Hrq).
Qed.

(** C11 Once a panic has left the mutex of the requests locked, whatever happens: no request
    with an identifier runs a tool again, on any connection, a tool that ran for such a
    request never answers, and the server cannot shut down. *)
Theorem one_panic_blocks_all s s' :
  requests_locked (shared s) = true -> rtc step s s' ->
  (forall sid msg r, snd (begin env_ coreClient semanticContextMgr standard_logger sid msg (shared s')) = Runs r -> is_nil (msg_ID msg) = true) /\
  (forall r x, is_nil (run_id r) = false -> snd (finish env_ coreClient r x (shared s')) = Hangs) /\
  Shutdown (shared s') = None.
Proof.
  intros Hl Hs. assert (requests_locked (shared s') = true) as Hl' by (induction Hs; eauto using step_locked). clear Hs Hl.
  split; [|split].
  - intros sid msg r Hv. destruct (begin_handles sid msg (shared s')) as [[_ H]|_ H _|[? ? _ _ _ _ H|H _ _ _|H _ _]|_ [_ H|? ? _ _ _ H|_ H]];
      try congruence; [by rewrite Hv in H| |by rewrite Hv in H..].
    destruct (is_nil (msg_ID msg)); [done|]. destruct H. congruence.
  - intros r x Hn. by destruct (finish_ends r x (shared s')) as [Hf _ _|_ _ _ Hv]; [rewrite Hf in Hl'|].
  - unfold Shutdown. by rewrite Hl'.
Qed.

End frame.

(** ** Two clients *)

#[local] Existing Instance bucket_ops.

Definition quiet : Surroundings unit unit :=
  MkSurroundings (λ _, 0) (λ _ _, None) (λ _ _ _ w, w) (λ _, 0) (λ _, ANil) (λ _ _, "") (λ _ _, None) (λ _, "") String.eqb map_to_list.
Definition idle_handler : Handler (W:=unit) (TH:=unit) (L:=bucket) :=
  MkHandler (EdgeTools.MkRegistry ∅ (ToolRelations.MkManager ∅ ∅ [])) ∅ small_limiter [] false 0 [] "INFO" 0 ().
Notation small_system := (system (W:=unit) (TH:=unit) (L:=bucket)).
Definition empty_server : small_system := MkSystem ∅ idle_handler.

(** The message of a JSON object. *)
Definition message_of (id : json) (method : string) (params : list (string * json)) : MCPMessage :=
  fst (decode_message (JObject [("jsonrpc", JString "2.0"); ("id", id); ("method", JString method); ("params", JObject params)])).
Definition call_one : MCPMessage := message_of (JNumber "1") "tools/call" [("name", JString "agent_list")].
Definition cancel_one : MCPMessage := message_of (JNumber "2") "$/cancelRequest" [("id", JNumber "1")].

Definition receives (sid : string) (msg : MCPMessage) (s : small_system) : small_system := received quiet None None false sid msg s.
Definition connects (sid : string) (s : small_system) : small_system :=
  MkSystem (<[sid := Idle]> (conns s)) (open_session quiet sid "acme" (shared s)).
(** The first client's request runs; the second has just connected. *)
Definition one_runs : small_system := connects "second" (receives "first" call_one (connects "first" empty_server)).

Lemma two_clients : reachable_system quiet None None false one_runs.
Proof.
  eapply system_step; [|apply step_connect; vm_compute; reflexivity].
  eapply system_step; [|apply step_receive; [vm_compute; reflexivity|intros _; vm_compute; reflexivity]].
  eapply system_step; [|apply step_connect; reflexivity]. by apply system_start.
Qed.


(** A client calls a tool with an array as the identifier: the handler panics with the mutex
    locked. *)
Definition after_array : small_system :=
  receives "first" (message_of (JArray [JNumber "1"]) "tools/call" [("name", JString "agent_list")]) (connects "first" empty_server).

Theorem one_panic_blocks_all_witness :
  snd (begin quiet None None false "second" call_one (shared (connects "second" after_array))) = Hangs /\
  (forall sid msg r, snd (begin quiet None None false sid msg (shared (connects "second" after_array))) = Runs r -> is_nil (msg_ID msg) = true).
Proof.
  split; [vm_compute; reflexivity|].
  apply (one_panic_blocks_all quiet None None false after_array (connects "second" after_array)).
  - vm_compute. reflexivity.
  - apply rtc_once, step_connect. vm_compute. reflexivity.
Defined.

(** ** What the protocol leaves open *)

Definition first_verdict (msg : MCPMessage) : verdict := snd (begin quiet None None false "first" msg (shared (connects "first" empty_server))).

(** A client that has not initialized its session may call tools. *)
Example uninitialized_session_served : exists r, first_verdict call_one = Runs r.
Proof. eexists. vm_compute. reflexivity. Qed.

(** An unknown method is an invalid request (-32600), not a method not found (-32601). *)
Example unknown_method_code :
  match reply_of ANil (first_verdict (message_of (JNumber "1") "tools/run" [])) with
  | Some (ErrorReply _ e) => mcp_Code e
  | _ => 0
  end = -32600.
Proof. vm_compute. reflexivity. Qed.

(** The result of a tool that has a content of its own, decoded from JSON, panics. *)
Example own_content_panics :
  snd (tool_reply quiet None (MkRunning (AString "1") 0 (ToolJob "t" None) "" None) "t" None
    (Returns (AMap {["content" := AList [AString "text"]]})) idle_handler) = Crashes.
Proof. vm_compute. reflexivity. Qed.

(** A client sets the level of the logger of all clients. *)
Example log_level_is_shared :
  log_level (fst (begin quiet None None true "first"
    (message_of (JNumber "1") "logging/setLevel" [("level", JString "error")]) (shared one_runs))) = "ERROR".
Proof. vm_compute. reflexivity. Qed.

(** What a batch of ten calls takes of the limits of its tenant is one request. *)
Example batch_counts_once :
  limited_tool (message_of (JNumber "1") "tools/batch" [("tools", JArray [JObject [("name", JString "agent_list")]])]) = "".
Proof. vm_compute. reflexivity. Qed.
