(* ===== verification/Dedup.v ===== *)
(** * Dedup: webhook events that arrive twice

    The file [pkg/webhook/deduplication.go].  Bloom filters are the library's, given by
    their law: what was added is found.  An operation is a program over the filters of its
    process, the clock and the commands of Redis ([Redis]); the filters are a state of the
    process, Redis is shared.  The text of SHA-256 in hexadecimal is an argument. *)

From stdpp Require Import base decidable gmap strings list.
From Stdlib Require Import ZArith Lia.
From S2P Require Import Prelude GoFloat GoStrings GoAny ServiceErrors Redis.

Local Open Scope string_scope.
Local Open Scope Z_scope.

(** [bloom.NewWithEstimates], [bloom.New], and the methods of a filter. *)
Class BloomFilter (B : Type) := {
  bloom_with_estimates : Z -> float64 -> B;
  bloom_new : Z -> Z -> B;
  bloom_Add : string -> B -> B;
  bloom_Test : string -> B -> bool;
  MarshalBinary : B -> option string;
  UnmarshalBinary : string -> option B;
}.
Class BloomFilterLaws (B : Type) `{!BloomFilter B} := {
  bloom_added x (b : B) : bloom_Test x (bloom_Add x b) = true;
  bloom_kept x y (b : B) : bloom_Test x b = true -> bloom_Test x (bloom_Add y b) = true;
}.

Record WindowConfig := MkWindow {
  Duration : Z;
  MaxSize : Z;
}.
Record DeduplicationConfig := MkConfig {
  WindowConfigs : gmap string WindowConfig;
  DefaultWindow : WindowConfig;
  BloomFilterSize : Z;
  BloomFilterHashFuncs : Z;
  BloomRotationPeriod : Z;
  RedisKeyPrefix : string;
}.
Definition DefaultDeduplicationConfig : DeduplicationConfig :=
  MkConfig
    (<["github" := MkWindow (5 * minute) 10000]>
      (<["gitlab" := MkWindow (5 * minute) 10000]> {["jira" := MkWindow (10 * minute) 5000]}))
    (MkWindow (5 * minute) 10000) 1000000 7 (24 * (60 * minute)) "webhook:dedup:".

Record DeduplicationMetrics := MkMetrics {
  TotalChecked : Z;
  Duplicates : Z;
  UniqueEvents : Z;
  BloomFalsePositives : Z;
}.
Inductive metric := Checked | Duplicate | Unique | FalsePositive.
Definition count (k : metric) (m : DeduplicationMetrics) : DeduplicationMetrics :=
  let up (k' : bool) (n : Z) := if k' then i64 (n + 1) else n in
  MkMetrics (up (match k with Checked => true | _ => false end) (TotalChecked m))
    (up (match k with Duplicate => true | _ => false end) (Duplicates m))
    (up (match k with Unique => true | _ => false end) (UniqueEvents m))
    (up (match k with FalsePositive => true | _ => false end) (BloomFalsePositives m)).

(** What an operation does: commands of Redis, the clock, the test of both filters, an
    addition to the current one, and counting. *)
Inductive act : Type -> Type :=
| OnRedis {A} (c : command string A) : act (result error A)
| TimeNow : act Z
| TestBlooms (messageID : string) : act (bool * bool)
| AddBloom (messageID : string) : act ()
| Count (k : metric) : act ().
Notation code A := (prog act A).
Definition redis {A} (c : command string A) : code (result error A) := call (OnRedis c).

Section deduplicator.
Context {B : Type} `{HB : !BloomFilter B}.
Variable config : DeduplicationConfig.

Record Deduplicator := MkDeduplicator {
  currentBloom : B;
  previousBloom : B;
  lastRotation : Z;
  metrics : DeduplicationMetrics;
}.
Definition set_blooms (cur prev : B) (d : Deduplicator) : Deduplicator := MkDeduplicator cur prev (lastRotation d) (metrics d).
Definition set_metrics (m : DeduplicationMetrics) (d : Deduplicator) : Deduplicator :=
  MkDeduplicator (currentBloom d) (previousBloom d) (lastRotation d) m.

(** The number of hash functions in percent is given for the rate of false positives. *)
Definition fresh_bloom : B :=
  bloom_with_estimates (BloomFilterSize config) (f64_div (f64_of_Z (BloomFilterHashFuncs config)) (f64_of_Z 100)).

Definition GenerateMessageID (sha256_hex : string -> string) (toolID eventType payload : string) : string :=
  toolID +:+ ":" +:+ eventType +:+ ":" +:+ take_bytes 16 (sha256_hex payload).

Definition getWindow (toolType : string) : WindowConfig := default (DefaultWindow config) (WindowConfigs config !! toolType).
Definition redis_key (messageID : string) : string := RedisKeyPrefix config +:+ messageID.
Definition unix_text (now : Z) : string := itoa (now / second).

Definition recordUnique (messageID : string) : code () :=
  _ ← call (AddBloom messageID);
  call (Count Unique).

Definition CheckDuplicate (messageID toolType : string) : code (result error (bool * string)) :=
  _ ← call (Count Checked);
  '(inCurrent, inPrevious) ← call (TestBlooms messageID);
  let window := getWindow toolType in
  now ← call TimeNow;
  if negb inCurrent && negb inPrevious then
    _ ← redis (SetKey (redis_key messageID) (unix_text now) (Duration window));
    _ ← recordUnique messageID;
    Ret (Ok (false, ""))
  else
    r ← redis (SetNX (redis_key messageID) (unix_text now) (Duration window));
    match r with
    | Err e => Ret (Err (Wrapped "failed to check duplicate in Redis" e))
    | Ok false =>
        _ ← redis (Get (redis_key messageID));
        _ ← call (Count Duplicate);
        Ret (Ok (true, messageID))
    | Ok true =>
        _ ← call (Count FalsePositive);
        _ ← recordUnique messageID;
        Ret (Ok (false, ""))
    end.

Record DeduplicationResult := MkResult {
  IsDuplicate : bool;
  OriginalEventID : string;
  MessageID : string;
  CheckDuration : Z;
}.
Definition ProcessEvent (sha256_hex : string -> string) (toolID toolType eventType payload : string) : code (result error DeduplicationResult) :=
  start ← call TimeNow;
  let messageID := GenerateMessageID sha256_hex toolID eventType payload in
  r ← CheckDuplicate messageID toolType;
  match r with
  | Err e => Ret (Err e)
  | Ok (isDuplicate, originalID) =>
      now ← call TimeNow;
      Ret (Ok (MkResult isDuplicate originalID messageID (time_sub now start)))
  end.

(** ** The filters *)

Definition bloom_key (name : string) : string := RedisKeyPrefix config +:+ "bloom:" +:+ name.
Definition saveBloomFilter (name : string) (b : B) : option (command string ()) :=
  data ← MarshalBinary b; Some (SetKey (bloom_key name) data (48 * (60 * minute))).

(** One tick of [rotationLoop]; the commands that save are sent in order, and what they
    answer is logged only.  The filters' lock is held meanwhile. *)
Definition rotation_due (now : Z) (d : Deduplicator) : bool := BloomRotationPeriod config <=? time_sub now (lastRotation d).
Definition rotateBloomFilters (now : Z) (d : Deduplicator) : Deduplicator * list (command string ()) :=
  (MkDeduplicator fresh_bloom (currentBloom d) now (metrics d),
   omap id [saveBloomFilter "current" (currentBloom d); saveBloomFilter "previous" (currentBloom d)]).

Definition loaded (r : result error (option string)) (old : B) : B :=
  match r with Ok (Some data) => default old (UnmarshalBinary data) | _ => old end.
Definition loadBloomFilters (d : Deduplicator) : code Deduplicator :=
  current ← redis (Get (bloom_key "current"));
  previous ← redis (Get (bloom_key "previous"));
  Ret (set_blooms (loaded current (currentBloom d)) (loaded previous (previousBloom d)) d).
Definition NewDeduplicator (now : Z) : code Deduplicator :=
  loadBloomFilters (MkDeduplicator fresh_bloom fresh_bloom now (MkMetrics 0 0 0 0)).

Definition percentage (n total : Z) : float64 :=
  if 0 <? total then f64_mul (f64_div (f64_of_Z n) (f64_of_Z total)) (f64_of_Z 100) else f64_of_Z 0.
(** The size of the filters and the time of the rotation are left out. *)
Definition GetMetrics (d : Deduplicator) : gmap string any :=
  let m := metrics d in
  <["total_checked" := AInt64 (TotalChecked m)]> (<["duplicates" := AInt64 (Duplicates m)]>
    (<["unique_events" := AInt64 (UniqueEvents m)]>
      (<["duplicate_rate" := AFloat (percentage (Duplicates m) (TotalChecked m))]>
        (<["bloom_false_positives" := AInt64 (BloomFalsePositives m)]>
          {["false_positive_rate" := AFloat (percentage (BloomFalsePositives m) (UniqueEvents m))]})))).

(** ** A process and Redis

    Time passes before each action.  What the other processes do leaves the events alone
    that this process has let through. *)

Context `{HR : !Redis string} `{HL : !BloomFilterLaws B}.

Record world := MkWorld {
  proc : Deduplicator;
  srv : server string;
  clock : Z;
}.
Definition set_proc (d : Deduplicator) (w : world) : world := MkWorld d (srv w) (clock w).
Definition wait (d : Z) (w : world) : world := MkWorld (proc w) (srv w) (clock w + d).

Definition perform {A} (c : act A) (w : world) : world * A :=
  match c in act A return world * A with
  | OnRedis c => let '(s, r) := exec c (clock w) (srv w) in (MkWorld (proc w) s (clock w), r)
  | TimeNow => (w, clock w)
  | TestBlooms x => (w, (bloom_Test x (currentBloom (proc w)), bloom_Test x (previousBloom (proc w))))
  | AddBloom x => (set_proc (set_blooms (bloom_Add x (currentBloom (proc w))) (previousBloom (proc w)) (proc w)) w, ())
  | Count k => (set_proc (set_metrics (count k (metrics (proc w))) (proc w)) w, ())
  end.

Fixpoint runs {A} (c : code A) (w w' : world) (a : A) : Prop :=
  match c with
  | Ret b => w' = w /\ a = b
  | Do c k => exists d, 0 <= d /\ runs (k (perform c (wait d w)).2) (perform c (wait d w)).1 w' a
  end.

Definition sent (l : list (command string ())) (now : Z) (s : server string) : server string :=
  foldl (λ s c, (exec c now s).1) s l.
Definition rotate (w : world) : world :=
  let '(d, l) := rotateBloomFilters (clock w) (proc w) in MkWorld d (sent l (clock w) (srv w)) (clock w).

(** An event that was let through, when that was, and how long Redis holds its key. *)
Record passed := MkPassed { p_ID : string; p_time : Z; p_until : Z }.
Definition holds_until (key : string) (t : Z) (w : world) : Prop := exists v, contents (srv w) !! key = Some (v, Some t).

Inductive history : world -> list passed -> Prop :=
| started w : lastRotation (proc w) <= clock w -> history w []
| waited w l d : history w l -> 0 <= d -> history (wait d w) l
| rotated w l : history w l -> rotation_due (clock w) (proc w) = true -> history (rotate w) l
| others w l s :
    history w l -> (forall p, p ∈ l -> contents s !! redis_key (p_ID p) = contents (srv w) !! redis_key (p_ID p)) ->
    history (MkWorld (proc w) s (clock w)) l
| check w l x tool w' r : history w l -> runs (CheckDuplicate x tool) w w' r -> history w' l
| check_passed w l x tool w' t :
    history w l -> runs (CheckDuplicate x tool) w w' (Ok (false, "")) -> holds_until (redis_key x) t w' ->
    history w' (MkPassed x (clock w') t :: l).

(** The filters know the event, or it is older than a rotation; Redis holds its key. *)
Record known (w : world) (p : passed) : Prop := {
  known_time : p_time p <= clock w;
  known_rotation : lastRotation (proc w) <= clock w;
  known_bloom :
    bloom_Test (p_ID p) (currentBloom (proc w)) = true \/
    bloom_Test (p_ID p) (previousBloom (proc w)) = true /\ p_time p <= lastRotation (proc w) \/
    p_time p + BloomRotationPeriod config <= lastRotation (proc w);
  known_key : p_until p <= clock w \/ holds_until (redis_key (p_ID p)) (p_until p) w;
}.

(** ** What an action leaves *)

Lemma exec_keeps {A} (c : command string A) now s key :
  (forall m, writes c now (contents s) = Some m -> m !! key = contents s !! key) ->
  contents (exec c now s).1 !! key = contents s !! key.
Proof.
  intros H. pose proof (exec_spec A c now s) as He. destruct (exec c now s) as [s' [a|e]]; cbn in *.
  - destruct He as [He _]. by apply H.
  - destruct He as [->|He]; [done|by apply H].
Qed.

Lemma redis_key_inj x y : redis_key x = redis_key y -> x = y.
Proof. apply (inj (String.app (RedisKeyPrefix config))). Qed.

(** A command is harmless for an event if it leaves its key alone for as long as it counts. *)
Definition harmless {A} (c : act A) (w : world) (p : passed) : Prop :=
  match c with
  | OnRedis c => forall now m, clock w <= now < p_until p -> writes c now (contents (srv w)) = Some m ->
      m !! redis_key (p_ID p) = contents (srv w) !! redis_key (p_ID p)
  | _ => True
  end.

Lemma act_known {A} (c : act A) w d p :
  0 <= d -> known w p -> harmless c w p -> known (perform c (wait d w)).1 p.
Proof using HB HL.
  intros Hd [Ht Hl Hb Hk] Hc.
  assert (known (wait d w) p) as [Ht' Hl' Hb' Hk'].
  { split; cbn; [lia..|done|]. destruct Hk as [Hk|Hk]; [left; lia|by right]. }
  destruct c as [A c| |x|x|k]; cbn [perform]; try by split.
  - pose proof (exec_keeps c (clock w + d) (srv w) (redis_key (p_ID p))) as He. cbn [clock srv wait].
    destruct (exec c (clock w + d) (srv w)) as [s r]. split; cbn in *; [done..|].
    destruct (Z.le_gt_cases (p_until p) (clock w + d)); [by left|]. right. destruct Hk' as [?|[v Hv]]; [lia|]. exists v.
    cbn. rewrite He; [done|]. intros m Hm. apply (Hc (clock w + d)); [lia|done].
  - split; cbn in *; [done..| |done]. destruct Hb' as [?|?]; [|by right]. left. by apply bloom_kept.
Qed.

(** A key that is set only if it is not there is safe; a key that is set anyway is that of
    another event, or of one that no longer counts. *)
Lemma setnx_harmless key v ttl w p : known w p -> harmless (OnRedis (SetNX key v ttl)) w p.
Proof.
  intros [_ _ _ Hk] now m Hnow. cbn [writes]. destruct (ttl <? 0); [done|]. destruct Hk as [?|[u Hu]]; [lia|].
  destruct (decide (key = redis_key (p_ID p))) as [->|Hne].
  - unfold present, see. rewrite Hu. cbn. destruct (Z.ltb_spec now (p_until p)); [by intros [= <-]|lia].
  - destruct (present now _ key); intros [= <-]; [done|]. by apply lookup_insert_ne.
Qed.
Lemma setkey_harmless key v ttl w p : key ≠ redis_key (p_ID p) \/ p_until p <= clock w -> harmless (OnRedis (SetKey key v ttl)) w p.
Proof.
  intros Hk now m Hnow. cbn [writes]. destruct (ttl <? 0); [done|]. intros [= <-]. destruct Hk; [|lia]. by apply lookup_insert_ne.
Qed.
Lemma get_harmless key w p : harmless (OnRedis (Get key)) w p.
Proof. intros now m _ [= <-]. done. Qed.

Lemma forgotten_expired w p x :
  known w p -> p_until p <= p_time p + BloomRotationPeriod config ->
  bloom_Test x (currentBloom (proc w)) = false -> bloom_Test x (previousBloom (proc w)) = false ->
  redis_key x ≠ redis_key (p_ID p) \/ p_until p <= clock w.
Proof.
  intros [_ Hl Hb _] Hu Hc Hp. destruct (decide (x = p_ID p)) as [->|Hne]; [right|left; by intros ?%redis_key_inj].
  destruct Hb as [?|[[? _]|?]]; [congruence..|lia].
Qed.

Lemma record_known x w w' p u : known w p -> runs (recordUnique x) w w' u -> known w' p.
Proof using HB HL.
  intros H. cbn -[perform]. intros (d1 & H1 & d2 & H2 & -> & _). apply act_known; [done| |done]. by apply act_known.
Qed.

Lemma runs_bind {A C} (c : code A) (f : A -> code C) w w' r :
  runs (c ≫= f) w w' r <-> exists w1 a, runs c w w1 a /\ runs (f a) w1 w' r.
Proof.
  revert w. induction c as [a|D c k IH]; intros w; cbn [mbind prog_bind runs].
  - split; [intros H; by exists w, a|by intros (? & ? & [-> ->] & H)].
  - setoid_rewrite IH. naive_solver.
Qed.
Lemma runs_call {A C} (c : act A) (f : A -> code C) w w' r :
  runs (call c ≫= f) w w' r <->
  exists d, 0 <= d /\ runs (f (perform c (wait d w)).2) (perform c (wait d w)).1 w' r.
Proof. done. Qed.

Lemma perform_time {A} (c : act A) w : clock (perform c w).1 = clock w.
Proof. destruct c; try done. cbn [perform]. by destruct (exec _ _ _). Qed.
Lemma runs_clock {A} (c : code A) w w' r : runs c w w' r -> clock w <= clock w'.
Proof.
  revert w. induction c as [a|D c k IH]; intros w; cbn [runs]; [intros [-> _]; lia|].
  intros (d & Hd & H%IH). rewrite perform_time in H. cbn in H. lia.
Qed.

(** The key of an event that counts is there: it is not set again. *)
Lemma setnx_known v ttl w d p s b :
  0 <= d -> known w p -> exec (SetNX (redis_key (p_ID p)) v ttl) (clock w + d) (srv w) = (s, Ok b) ->
  clock w + d < p_until p -> b = false.
Proof.
  intros Hd [_ _ _ Hk] He Ht. pose proof (exec_spec bool (SetNX (redis_key (p_ID p)) v ttl) (clock w + d) (srv w)) as H.
  rewrite He in H. destruct H as [_ ->]. destruct Hk as [?|[u Hu]]; [lia|].
  unfold present, see. rewrite Hu. cbn. by destruct (Z.ltb_spec (clock w + d) (p_until p)); [|lia].
Qed.

(** Whatever a check does, it leaves an event that was let through known, and it lets the
    same event through again only when it no longer counts. *)
Definition refused (x : string) (r : result error (bool * string)) : Prop := r = Ok (true, x) \/ exists e, r = Err e.

Lemma setnx_branch x dur w w' r p :
  known w p ->
  runs (r ← redis (SetNX (redis_key x) (unix_text (clock w)) dur);
        match r with
        | Err e => Ret (Err (Wrapped "failed to check duplicate in Redis" e))
        | Ok false => _ ← redis (Get (redis_key x)); _ ← call (Count Duplicate); Ret (Ok (true, x))
        | Ok true => _ ← call (Count FalsePositive); _ ← recordUnique x; Ret (Ok (false, ""))
        end) w w' r ->
  known w' p /\ (x = p_ID p -> clock w' < p_until p -> refused x r).
Proof using HB HL.
  intros H. unfold redis. rewrite runs_call. intros (d & Hd & Hr). pose proof (runs_clock _ _ _ _ Hr) as Ht. rewrite perform_time in Ht.
  pose proof (act_known (OnRedis (SetNX (redis_key x) (unix_text (clock w)) dur)) w d p Hd H (setnx_harmless _ _ _ _ _ H)) as H1.
  cbn [perform srv clock wait] in *. destruct (exec _ _ _) as [s [[]|e]] eqn:He; cbn [fst snd] in *.
  - rewrite runs_call in Hr. destruct Hr as (d2 & Hd2 & Hr). apply (act_known (Count FalsePositive) _ d2) in H1; [|done..].
    apply runs_bind in Hr as (w5 & u & H5%(record_known _ _ _ p) & [-> ->]); [|done]. split; [done|].
    intros -> Hlt. exfalso. assert (true = false) as [=]. eapply setnx_known; [exact Hd|exact H|exact He|lia].
  - rewrite runs_call in Hr. destruct Hr as (d2 & Hd2 & Hr). apply (act_known (OnRedis (Get (redis_key x))) _ d2) in H1; [|done|apply get_harmless].
    destruct Hr as (d3 & Hd3 & -> & ->). split; [by apply act_known|]. intros _ _. by left.
  - destruct Hr as [-> ->]. split; [done|]. intros _ _. right. by eexists.
Qed.

Lemma check_known x tool w w' r p :
  known w p -> p_until p <= p_time p + BloomRotationPeriod config -> runs (CheckDuplicate x tool) w w' r ->
  known w' p /\ (x = p_ID p -> clock w' < p_until p -> refused x r).
Proof using HB HL.
  intros H Hu. unfold CheckDuplicate. rewrite runs_call. intros (d1 & Hd1 & Hr).
  apply (act_known (Count Checked) _ d1) in H; [|done..]. revert H Hr. generalize (perform (Count Checked) (wait d1 w)).1. clear w. intros w H.
  rewrite runs_call. intros (d2 & Hd2 & Hr). apply (act_known TimeNow _ d2) in H; [|done..].
  cbn [perform fst snd] in *. revert H Hr. generalize (wait d2 w). clear w. intros w H.
  rewrite runs_call. intros (d3 & Hd3 & Hr). pose proof (act_known TimeNow _ d3 p Hd3 H I) as H3. cbn [perform fst snd] in *.
  destruct (bloom_Test x (currentBloom (proc w))) eqn:Hc; [|destruct (bloom_Test x (previousBloom (proc w))) eqn:Hp]; cbn [negb andb] in Hr;
    [by eapply setnx_branch..|].
  pose proof (runs_clock _ _ _ _ Hr) as Ht. revert Hr. unfold redis. rewrite runs_call. intros (d4 & Hd4 & Hr).
  assert (redis_key x ≠ redis_key (p_ID p) \/ p_until p <= clock w) as Hf by (by apply forgotten_expired).
  pose proof (act_known (OnRedis (SetKey (redis_key x) (unix_text (clock (wait d3 w))) (Duration (getWindow tool)))) (wait d3 w) d4 p Hd4 H3
    ltac:(apply setkey_harmless; destruct Hf; [by left|right; cbn; lia])) as H4.
  apply runs_bind in Hr as (w5 & u & H5%(record_known _ _ _ p) & [-> ->]); [|done]. split; [done|].
  intros -> Hlt. destruct Hf as [?|Hf]; [done|]. cbn in Ht. lia.
Qed.

Lemma perform_rotation {A} (c : act A) w : lastRotation (proc (perform c w).1) = lastRotation (proc w).
Proof. destruct c; try done. cbn [perform]. by destruct (exec _ _ _). Qed.
Lemma runs_rotation {A} (c : code A) w w' r : runs c w w' r -> lastRotation (proc w') = lastRotation (proc w).
Proof.
  revert w. induction c as [a|D c k IH]; intros w; cbn [runs]; [by intros [-> _]|].
  intros (d & Hd & H%IH). by rewrite perform_rotation in H.
Qed.
Lemma history_rotation w l : history w l -> lastRotation (proc w) <= clock w.
Proof.
  induction 1 as [w|w l d|w l|w l s| | ]; try done; [cbn; lia| |].
  - erewrite runs_rotation by done. etrans; [|by eapply runs_clock]. done.
  - erewrite runs_rotation by done. etrans; [|by eapply runs_clock]. done.
Qed.

(** An event that is let through is in the current filter. *)
Lemma record_adds x w w' u : runs (recordUnique x) w w' u -> bloom_Test x (currentBloom (proc w')) = true.
Proof using HB HL. cbn -[bloom_Test bloom_Add]. intros (d1 & H1 & d2 & H2 & -> & _). apply bloom_added. Qed.
Lemma check_adds x tool w w' s : runs (CheckDuplicate x tool) w w' (Ok (false, s)) -> bloom_Test x (currentBloom (proc w')) = true.
Proof using HB HL.
  unfold CheckDuplicate. rewrite runs_call. intros (d1 & Hd1 & Hr). rewrite runs_call in Hr. destruct Hr as (d2 & Hd2 & Hr). cbn [perform fst snd] in Hr.
  rewrite runs_call in Hr. destruct Hr as (d3 & Hd3 & Hr). unfold redis in Hr.
  destruct (_ && _); rewrite runs_call in Hr; destruct Hr as (d4 & Hd4 & Hr).
  - apply runs_bind in Hr as (w5 & u & H5%record_adds & [-> _]). done.
  - destruct (perform _ _).2 as [[]|e].
    + rewrite runs_call in Hr. destruct Hr as (d5 & Hd5 & Hr). apply runs_bind in Hr as (w5 & u & H5%record_adds & [-> _]). done.
    + destruct Hr as (d5 & Hd5 & d6 & Hd6 & _ & [=]).
    + by destruct Hr as [_ [=]].
Qed.

(** The keys of the filters are not those of events. *)
Definition reserved : list string := ["bloom:current"; "bloom:previous"].
Lemma sent_keeps l now s key :
  (forall c, c ∈ l -> exists name v ttl, c = SetKey (bloom_key name) v ttl /\ bloom_key name ≠ key) ->
  contents (sent l now s) !! key = contents s !! key.
Proof.
  revert s. induction l as [|c l IH]; intros s H; [done|]. cbn. etrans; [apply IH; intros c' Hc'; apply H; by right|].
  destruct (H c) as (name & v & ttl & -> & Hne); [by left|]. apply exec_keeps. intros m. cbn. destruct (ttl <? 0); [done|].
  intros [= <-]. by apply lookup_insert_ne.
Qed.

Lemma rotate_known w p :
  0 < BloomRotationPeriod config -> rotation_due (clock w) (proc w) = true -> p_ID p ∉ reserved -> known w p -> known (rotate w) p.
Proof.
  intros H0 Hdue Hres [Ht Hl Hb Hk]. unfold rotation_due in Hdue. apply Z.leb_le in Hdue.
  assert (lastRotation (proc w) + BloomRotationPeriod config <= clock w) as Hp by (unfold time_sub, min_int64, max_int64 in Hdue; lia).
  unfold rotate, rotateBloomFilters. split; cbn [proc clock lastRotation currentBloom previousBloom]; [done..| |].
  - destruct Hb as [?|[[_ ?]|?]]; [right; left; by split|right; right; lia..].
  - destruct Hk as [?|[v Hv]]; [by left|]. right. exists v. cbn [srv]. rewrite <-Hv. apply sent_keeps.
    intros c Hc. apply list_elem_of_omap in Hc as (o & Ho & Hs). cbn in Hs. subst o.
    assert (forall name, name ∈ ["current"; "previous"] -> bloom_key name ≠ redis_key (p_ID p)) as Hn.
    { intros name Hname Heq. unfold bloom_key, redis_key in Heq. apply (inj (String.app (RedisKeyPrefix config))) in Heq.
      apply Hres. rewrite <-Heq. unfold reserved. set_solver. }
    assert (exists name, name ∈ ["current"; "previous"] /\ saveBloomFilter name (currentBloom (proc w)) = Some c) as (name & Hname & Hsave).
    { apply elem_of_cons in Ho as [Ho|Ho]; [exists "current"; split; [set_solver|done]|].
      apply list_elem_of_singleton in Ho. exists "previous". split; [set_solver|done]. }
    unfold saveBloomFilter in Hsave. destruct (MarshalBinary _) as [data|]; [|done]. injection Hsave as <-.
    eexists _, _, _. split; [done|]. by apply Hn.
Qed.

Lemma history_known w l p :
  0 < BloomRotationPeriod config -> history w l -> p ∈ l -> p_until p <= p_time p + BloomRotationPeriod config ->
  p_ID p ∉ reserved -> known w p.
Proof using HB HL.
  intros H0 H Hin Hu Hres. induction H as [w Hw|w l d H IH Hd|w l H IH Hdue|w l s H IH Hs|w l x tool w' r H IH Hr|w l x tool w' t H IH Hr Hh].
  - by apply elem_of_nil in Hin.
  - by apply (act_known TimeNow _ d p Hd (IH Hin)).
  - by apply rotate_known; [| | |apply IH].
  - destruct (IH Hin) as [? ? ? Hk]. split; [done..|]. destruct Hk as [?|[v Hv]]; [by left|]. right. exists v. cbn. by rewrite Hs.
  - by eapply check_known; [apply IH| |].
  - apply elem_of_cons in Hin as [->|Hin]; [|by eapply check_known; [apply IH| |]]. split; cbn.
    + done.
    + eapply (history_rotation w' l), check; done.
    + left. by eapply check_adds.
    + by right.
Qed.


(** What a process has let through is unknown to another: a process whose filters do not
    have the event lets it through, whatever Redis holds, and then holds it for itself. *)
Theorem other_process_repeats x tool w w' r :
  bloom_Test x (currentBloom (proc w)) = false -> bloom_Test x (previousBloom (proc w)) = false ->
  runs (CheckDuplicate x tool) w w' r -> r = Ok (false, "") /\ bloom_Test x (currentBloom (proc w')) = true.
Proof using HB HL.
  intros Hc Hp Hr. assert (r = Ok (false, "")) as ->; [|split; [done|by eapply check_adds]].
  revert Hr. unfold CheckDuplicate. rewrite runs_call. intros (d1 & Hd1 & Hr). rewrite runs_call in Hr. destruct Hr as (d2 & Hd2 & Hr).
  cbn [perform fst snd] in Hr. cbn in Hc, Hp. cbn [set_proc set_metrics proc wait currentBloom previousBloom] in Hr. rewrite Hc, Hp in Hr.
  rewrite runs_call in Hr. destruct Hr as (d3 & Hd3 & Hr). cbn [negb andb] in Hr. unfold redis in Hr. rewrite runs_call in Hr.
  destruct Hr as (d4 & Hd4 & Hr). by apply runs_bind in Hr as (w5 & u & _ & [_ ->]).
Qed.
End deduplicator.
Arguments MkDeduplicator {B}.

(** ** Filters that remember exactly *)

#[local] Instance exact_filter : BloomFilter (list string) := {
  bloom_with_estimates _ _ := [];
  bloom_new _ _ := [];
  bloom_Add := cons;
  bloom_Test x l := existsb (String.eqb x) l;
  MarshalBinary l := Some (Join l ",");
  UnmarshalBinary s := Some [s];
}.
#[local] Instance exact_filter_laws : BloomFilterLaws (list string).
Proof.
  split; [intros x b; cbn; by rewrite String.eqb_refl|]. intros x y b H. cbn. cbn in H. rewrite H. by destruct (String.eqb x y).
Qed.
#[local] Existing Instance map_server.

Fixpoint run_code {A} (c : code A) (w : world) : world * A :=
  match c with Ret a => (w, a) | Do c k => let '(w, a) := perform c w in run_code (k a) w end.
Lemma run_runs {A} (c : code A) w : runs c w (run_code c w).1 (run_code c w).2.
Proof.
  revert w. induction c as [a|C c k IH]; intros w; [done|]. cbn. exists 0. split; [done|].
  assert (wait 0 w = w) as -> by (destruct w; unfold wait; cbn; f_equal; lia). destruct (perform c w) as [w' a]. apply IH.
Qed.

Notation small_world := (world (B:=list string)).
Notation check_at := (CheckDuplicate DefaultDeduplicationConfig).
Definition fresh_process (s : server string) : small_world := MkWorld (MkDeduplicator [] [] 0 (MkMetrics 0 0 0 0)) s 0.
Definition push_event : string := GenerateMessageID (λ _, "0123456789abcdef0123") "hooks" "push" "{}".
Definition first_push : small_world := (run_code (check_at push_event "github") (fresh_process ∅)).1.

Lemma first_push_history : history DefaultDeduplicationConfig first_push [MkPassed push_event 0 (5 * minute)].
Proof.
  apply (check_passed DefaultDeduplicationConfig (fresh_process ∅) [] push_event "github" first_push (5 * minute)).
  - by apply started.
  - pose proof (run_runs (check_at push_event "github") (fresh_process ∅)) as H.
    replace (run_code (check_at push_event "github") (fresh_process ∅)).2 with (@Ok error (bool * string) (false, "")) in H by (vm_compute; reflexivity).
    exact H.
  - exists "0". vm_compute. reflexivity.
Qed.

(** The same push a minute later. *)
Definition second_push : small_world * result error (bool * string) := run_code (check_at push_event "github") (wait minute first_push).


(** Another process, with the Redis that the first one has written to. *)
Definition other_process : small_world := fresh_process (srv first_push).

Theorem other_process_repeats_witness :
  see 0 (srv other_process) (redis_key DefaultDeduplicationConfig push_event) = Some "0" /\
  snd (run_code (check_at push_event "github") other_process) = Ok (false, "").
Proof.
  split; [vm_compute; reflexivity|].
  apply (other_process_repeats DefaultDeduplicationConfig push_event "github" other_process
    (run_code (check_at push_event "github") other_process).1); [reflexivity|reflexivity|apply run_runs].
Defined.

(** One action of an operation. *)
Definition advance {A} (c : code A) (w : world) : world * code A :=
  match c with Ret a => (w, Ret a) | Do c k => let '(w, a) := perform c w in (w, k a) end.

(** Two checks of one process overlap: the second begins when the first has tested the
    filters and not yet added to them.  Both let the event through. *)
Example overlapping_checks :
  let '(w, first) := advance (check_at push_event "github") (fresh_process ∅) in
  let '(w, first) := advance first w in
  let '(w, r2) := run_code (check_at push_event "github") w in
  let '(_, r1) := run_code first w in
  r1 = Ok (false, "") /\ r2 = Ok (false, "").
Proof. vm_compute. split; reflexivity. Qed.

(** The parts of an identifier are joined without escaping. *)
Example identifiers_collide : GenerateMessageID (λ _, "0") "a:b" "c" "" = GenerateMessageID (λ _, "0") "a" "b:c" "".
Proof. reflexivity. Qed.
