(* ===== verification/ContextLock.v ===== *)
(** * ContextLock: locks of webhook contexts

    The file [pkg/webhook/context_lock.go].  A lock is a key of Redis that holds the
    identifier of its holder; the scripts compare it before they delete the key or set its
    time to live.  Identifiers come from [uuid.New()].  Metrics and logging are left out. *)

From stdpp Require Import base decidable gmap strings list.
From Stdlib Require Import ZArith Lia.
From S2P Require Import Prelude GoFloat GoStrings GoAny ServiceErrors Redis.

Local Open Scope string_scope.
Local Open Scope Z_scope.

Definition lockKeyPrefix : string := "context:lock:".
Definition lockTTL : Z := 30 * second.
Definition lockRetryDelay : Z := 100 * millisecond.
Definition maxLockRetries : nat := 10.

Record ContextLock := MkLock {
  lockID : string;
  contextID : string;
  tenantID : string;
  acquiredAt : Z;
}.

(** [Sleep] tells whether the context of the call has ended. *)
Inductive act : Type -> Type :=
| OnRedis {A} (c : command string A) : act (result error A)
| TimeNow : act Z
| Sleep (d : Z) : act bool.
Notation code A := (prog act A).
Definition redis {A} (c : command string A) : code (result error A) := call (OnRedis c).

Definition lock_key (tenant context : string) : string := lockKeyPrefix +:+ tenant +:+ ":" +:+ context.

Definition acquired (id tenant context : string) : code (result error ContextLock) :=
  now ← call TimeNow; Ret (Ok (MkLock id context tenant now)).
Fixpoint acquire (retries : nat) (id tenant context : string) : code (result error ContextLock) :=
  match retries with
  | O => Ret (Err (External ("failed to acquire lock after " +:+ itoa (Z.of_nat maxLockRetries) +:+ " retries")))
  | S retries =>
      r ← redis (SetNX (lock_key tenant context) id lockTTL);
      match r with
      | Err e => Ret (Err (Wrapped "failed to acquire lock" e))
      | Ok true => acquired id tenant context
      | Ok false =>
          ended ← call (Sleep lockRetryDelay);
          if ended : bool then Ret (Err (External "context canceled")) else acquire retries id tenant context
      end
  end.
Definition AcquireContextLock : string -> string -> string -> code (result error ContextLock) := acquire maxLockRetries.

Definition TryAcquireContextLock (id tenant context : string) : code (result error ContextLock) :=
  r ← redis (SetNX (lock_key tenant context) id lockTTL);
  match r with
  | Err e => Ret (Err (Wrapped "failed to acquire lock" e))
  | Ok false => Ret (Err (External "lock is already held"))
  | Ok true => acquired id tenant context
  end.

(** The scripts: the key is deleted, or expires, if it holds the identifier. *)
Definition release_script (id : string) (current : option string) : reply string :=
  if decide (current = Some id) then DelReply else NilReply.
Definition extend_script (id : string) (seconds : Z) (current : option string) : reply string :=
  if decide (current = Some id) then if seconds <=? 0 then DelReply else SetEX id seconds else NilReply.

Definition owned_or (context message : string) (r : result error bool) : result error () :=
  match r with
  | Err e => Err (Wrapped context e)
  | Ok false => Err (External message)
  | Ok true => Ok ()
  end.
Definition key_of (l : ContextLock) : string := lock_key (tenantID l) (contextID l).
Definition Release (l : ContextLock) : code (result error ()) :=
  r ← redis (Script (key_of l) (release_script (lockID l)));
  Ret (owned_or "failed to release lock" "lock was already released or expired" r).
Definition ExtendLock (l : ContextLock) (duration : Z) : code (result error ()) :=
  r ← redis (Script (key_of l) (extend_script (lockID l) (f64_to_int (duration_seconds duration))));
  Ret (owned_or "failed to extend lock" "lock is no longer owned by this instance" r).

(** ** Any number of holders *)

Section holders.
Context `{HR : !Redis string}.

(** The commands of an operation with the identifier [id]. *)
Inductive own (id : string) : forall {A}, command string A -> Prop :=
| own_set key : own id (SetNX key id lockTTL)
| own_release key : own id (Script key (release_script id))
| own_extend key seconds : own id (Script key (extend_script id seconds)).
Fixpoint only_own {A} (id : string) (c : code A) : Prop :=
  match c with
  | Ret _ => True
  | Do c k => match c with OnRedis c => own id c | _ => True end /\ forall a, only_own id (k a)
  end.

Lemma acquire_own n id tenant context : only_own id (acquire n id tenant context).
Proof. induction n as [|n IH]; [done|]. split; [constructor|]. intros [[]|e]; cbn; [by split|split; [done|by intros []]|done]. Qed.
Lemma try_own id tenant context : only_own id (TryAcquireContextLock id tenant context).
Proof. split; [constructor|]. intros [[]|e]; cbn; [by split|done..]. Qed.
Lemma release_own l : only_own (lockID l) (Release l).
Proof. split; [constructor|]. done. Qed.
Lemma extend_own l d : only_own (lockID l) (ExtendLock l d).
Proof. split; [constructor|]. done. Qed.

(** A holder relies on its lock until the time that its last command has given it: after an
    error it relies on nothing. *)
Record claim := MkClaim { c_key : string; c_ID : string; c_until : Z }.
Definition forget (key id : string) (l : list claim) : list claim :=
  filter (λ c, ¬ (c_key c = key /\ c_ID c = id)) l.

Definition claims_after {A} (id : string) (now : Z) (c : command string A) (r : result error A) (l : list claim) : list claim :=
  match c in command _ A return result error A -> list claim with
  | SetNX key v ttl => λ r,
      match r with
      | Ok true => MkClaim key id (now + ttl) :: forget key id l
      | _ => l
      end
  | Script key f => λ r,
      match r, f (Some id) with
      | Ok true, SetEX _ seconds => MkClaim key id (now + seconds * second) :: forget key id l
      | Ok false, _ => l
      | _, _ => forget key id l
      end
  | _ => λ _, l
  end r.

Record system := MkSystem { srv : server string; clock : Z; claims : list claim }.

(** Any holder sends any command that an operation of its may send, at any time. *)
Inductive step : system -> system -> Prop :=
| step_wait s d : 0 <= d -> step s (MkSystem (srv s) (clock s + d) (claims s))
| step_command s id {A} (c : command string A) :
    own id c ->
    step s (let '(srv', r) := exec c (clock s) (srv s) in MkSystem srv' (clock s) (claims_after id (clock s) c r (claims s))).
Inductive reachable : system -> Prop :=
| reach_start srv clock : reachable (MkSystem srv clock [])
| reach_step s s' : reachable s -> step s s' -> reachable s'.

(** The key of a claim that counts holds the identifier of its holder. *)
Definition held_by (now : Z) (m : store string) (c : claim) : Prop :=
  now < c_until c -> exists t, m !! c_key c = Some (c_ID c, t) /\ (t = None \/ exists u, t = Some u /\ c_until c <= u).
Definition backed (now : Z) (m : store string) (l : list claim) : Prop := forall c, c ∈ l -> held_by now m c.

Lemma held_see now m c : now < c_until c -> held_by now m c -> see now m (c_key c) = Some (c_ID c).
Proof.
  intros Hn (t & Hm & Ht); [done|]. unfold see. rewrite Hm. unfold live. cbn. destruct Ht as [->|(u & -> & Hu)]; [done|].
  by destruct (Z.ltb_spec now u); [|lia].
Qed.

Lemma forget_elem key id l c : c ∈ forget key id l <-> ¬ (c_key c = key /\ c_ID c = id) /\ c ∈ l.
Proof. unfold forget. by rewrite list_elem_of_filter. Qed.

(** Claims on other keys do not notice a write. *)
Lemma held_other now m m' c : m' !! c_key c = m !! c_key c -> held_by now m c -> held_by now m' c.
Proof. intros He H Hn. rewrite He. by apply H. Qed.

Lemma insert_backed now m key id t l u :
  backed now m l -> u <= t -> (forall c, c ∈ l -> c_key c = key -> c_ID c ≠ id -> c_until c <= now) ->
  backed now (<[key := (id, Some t)]> m) (MkClaim key id u :: forget key id l).
Proof.
  intros Hl Ht Ho c [->|[Hf Hin]%forget_elem]%elem_of_cons Hn; cbn.
  - rewrite lookup_insert_eq. eauto 10.
  - destruct (decide (c_key c = key)) as [Hk|Hne].
    + destruct (decide (c_ID c = id)) as [|Hi]; [by destruct Hf|]. specialize (Ho c Hin Hk Hi). lia.
    + rewrite lookup_insert_ne by done. by apply Hl.
Qed.
(** A write to a key on which no claim of another counts. *)
Lemma write_backed now m m' key id l :
  backed now m l -> (forall k, k ≠ key -> m' !! k = m !! k) ->
  (forall c, c ∈ l -> c_key c = key -> c_ID c ≠ id -> c_until c <= now) -> backed now m' (forget key id l).
Proof.
  intros Hl Hm Ho c [Hf Hin]%forget_elem. destruct (decide (c_key c = key)) as [Hk|Hne].
  - destruct (decide (c_ID c = id)) as [|Hi]; [by destruct Hf|]. specialize (Ho c Hin Hk Hi). intros ?. lia.
  - eapply held_other; [by apply Hm|by apply Hl].
Qed.

Lemma others_expired now m key id l :
  backed now m l -> see now m key = None \/ see now m key = Some id ->
  forall c, c ∈ l -> c_key c = key -> c_ID c ≠ id -> c_until c <= now.
Proof.
  intros Hl Hs c Hin Hk Hi. apply Z.nlt_ge. intros Hn. pose proof (held_see _ _ _ Hn (Hl c Hin)) as H. rewrite Hk in H.
  destruct Hs; congruence.
Qed.

Lemma context_set_backed now m m' key id l (r : result error bool) :
  backed now m l -> match r with
    | Ok b => writes (SetNX key id lockTTL) now m = Some m' /\ b = negb (present now m key)
    | Err _ => m' = m \/ writes (SetNX key id lockTTL) now m = Some m' end ->
  backed now m' (claims_after id now (SetNX key id lockTTL) r l).
Proof.
  intros Hl Hr. cbn [writes] in Hr. replace (lockTTL <? 0) with false in Hr by done.
  replace (deadline now lockTTL) with (Some (now + lockTTL)) in Hr.
  2: reflexivity.
  destruct (present now m key) eqn:Hp.
  - assert (m' = m) as -> by (destruct r; [destruct Hr as [[= ->] _]|destruct Hr as [->|[= ->]]]; done).
    destruct r as [b|e]; [|done]. destruct Hr as [_ ->]. done.
  - apply see_present in Hp. pose proof (others_expired now m key id l Hl (or_introl Hp)) as Ho.
    assert (m' = <[key := (id, Some (now + lockTTL))]> m \/ m' = m) as Hm
      by (destruct r; [destruct Hr as [[= ->] _]|destruct Hr as [->|[= ->]]]; auto).
    assert (backed now m' l) as Hkeep.
    { destruct Hm as [->| ->]; [|done]. intros c Hin. destruct (decide (c_key c = key)) as [Hk|Hne].
      - intros Hn. pose proof (held_see _ _ _ Hn (Hl c Hin)) as H. rewrite Hk, Hp in H. done.
      - eapply held_other; [by apply lookup_insert_ne|by apply Hl]. }
    destruct r as [b|e]; [|done]. destruct Hr as [[= <-] ->]. cbn. by apply insert_backed.
Qed.

Lemma context_script_backed now m m' key id f l (r : result error bool) :
  backed now m l -> (f = release_script id \/ exists n, f = extend_script id n) ->
  match r with
  | Ok b => writes (Script key f) now m = Some m' /\ b = match f (see now m key) with SetEX _ _ | DelReply => true | _ => false end
  | Err _ => m' = m \/ writes (Script key f) now m = Some m' end ->
  backed now m' (claims_after id now (Script key f) r l).
Proof.
  intros Hl Hf Hr. cbn [writes] in Hr. destruct (decide (see now m key = Some id)) as [Hs|Hs].
  - pose proof (others_expired now m key id l Hl (or_intror Hs)) as Ho. rewrite Hs in Hr.
    assert (forall t, backed now (<[key := (id, t)]> m) (forget key id l)) as Hins
      by (intros t; apply (write_backed now m); [done|intros k Hk; by apply lookup_insert_ne|done]).
    assert (backed now (delete key m) (forget key id l)) as Hdel
      by (apply (write_backed now m); [done|intros k Hk; by apply lookup_delete_ne|done]).
    assert (backed now m (forget key id l)) as Hsame by (by apply (write_backed now m)).
    assert (f (Some id) = DelReply \/ exists n, f (Some id) = SetEX id n /\ 0 < n) as [Hd|(n & Hd & Hn)].
    { destruct Hf as [->|[n ->]]; unfold release_script, extend_script; rewrite decide_True by done; [by left|].
      destruct (Z.leb_spec n 0); [by left|right; by exists n]. }
    + rewrite Hd in Hr. cbn. rewrite Hd. destruct r as [b|e]; [destruct Hr as [[= <-] ->]; done|]. destruct Hr as [->|[= <-]]; done.
    + rewrite Hd in Hr. replace (n <=? 0) with false in Hr by lia. cbn. rewrite Hd.
      destruct r as [b|e]; [destruct Hr as [[= <-] ->]; by apply insert_backed|]. destruct Hr as [->|[= <-]]; done.
  - assert (f (see now m key) = NilReply) as Hn
      by (destruct Hf as [->|[n ->]]; unfold release_script, extend_script; by rewrite decide_False).
    rewrite Hn in Hr. assert (m' = m) as -> by (destruct r; [destruct Hr as [[= ->] _]|destruct Hr as [->|[= ->]]]; done).
    cbn. destruct r as [b|e]; [destruct Hr as [_ ->]; done|].
    intros c [_ Hin]%forget_elem. by apply Hl.
Qed.

Lemma reachable_backed s : reachable s -> backed (clock s) (contents (srv s)) (claims s).
Proof.
  induction 1 as [srv0 clock0|s s' _ IH Hs]; [by intros c ?%elem_of_nil|]. destruct Hs as [s d Hd|s id A c Hc].
  - intros c Hin Hn. apply (IH c Hin). cbn in Hn. lia.
  - pose proof (exec_spec A c (clock s) (srv s)) as He. destruct (exec c (clock s) (srv s)) as [srv' r]. cbn in *.
    destruct Hc as [key|key|key n].
    + by apply (context_set_backed _ (contents (srv s))).
    + apply (context_script_backed _ (contents (srv s))); [done|by left|done].
    + apply (context_script_backed _ (contents (srv s))); [done|right; by eexists|done].
Qed.

End holders.

(** ** Two workers *)

#[local] Existing Instance map_server.

Definition does (id : string) {A} (c : command string A) (s : system) : system :=
  let '(srv', r) := exec c (clock s) (srv s) in MkSystem srv' (clock s) (claims_after id (clock s) c r (claims s)).
Definition tries (id : string) : system -> system := does id (SetNX (lock_key "acme" "ctx") id lockTTL).
Definition contended : system := tries "b" (MkSystem (srv (tries "a" (MkSystem ∅ 0 []))) second (claims (tries "a" (MkSystem ∅ 0 [])))).

Lemma contended_reachable : reachable contended.
Proof.
  apply (reach_step (MkSystem (srv (tries "a" (MkSystem ∅ 0 []))) (0 + second) (claims (tries "a" (MkSystem ∅ 0 []))))).
  - apply (reach_step (tries "a" (MkSystem ∅ 0 []))); [|exact (step_wait (tries "a" (MkSystem ∅ 0 [])) second ltac:(discriminate))].
    apply (reach_step (MkSystem ∅ 0 [])); [apply reach_start|]. apply (step_command (MkSystem ∅ 0 []) "a"). apply own_set.
  - apply (step_command (MkSystem _ (0 + second) _) "b"). apply own_set.
Qed.


(** The lock lasts 30 seconds and nothing renews it: a worker that takes longer goes on
    without it. *)
Example lock_lost_after_ttl :
  see (31 * second) (srv contended) (lock_key "acme" "ctx") = None.
Proof. vm_compute. reflexivity. Qed.
