(* ===== verification/Retrieval.v ===== *)
(** * Retrieval: hybrid search and diversity

    The files [mmr.go], [hybrid.go] and [bm25.go] of [pkg/rag/retrieval], and
    [pkg/rag/scoring/scorer.go].  The embedding client, the vector repository and the
    database are functions of the world; [math.Sqrt] is [SpecFloat]'s, products of two
    [float32] are rounded to 24 bits before they are added. *)

From stdpp Require Import base decidable gmap strings list sorting.
From Stdlib Require Import ZArith Lia.
From Corelib Require Import SpecFloat.
From S2P Require Import Prelude GoFloat GoStrings GoSort GoAny.

Local Open Scope string_scope.
Local Open Scope Z_scope.

(** ** Package [math] *)

Definition f64_sqrt (x : float64) : float64 := SFsqrt 53 1024 x.
Definition MaxFloat64 : float64 := S754_finite false (2 ^ 53 - 1) 971.
Definition f64_neg (x : float64) : float64 := SFopp x.
(** A [float32] as [SpecFloat] has it, and its conversion. *)
Definition f32_mul (x y : spec_float) : spec_float := SFmul 24 128 x y.
Definition f64_of_f32 (x : spec_float) : float64 :=
  match x with S754_finite s m e => binary_normalize 53 1024 (if s then Z.neg m else Z.pos m) e s | _ => x end.
Definition f32_of_Z (n : Z) : spec_float := binary_normalize 24 128 n 0 false.

Definition is_nan (x : float64) : bool := match x with S754_nan => true | _ => false end.
Definition Max (x y : float64) : float64 :=
  match x, y with
  | S754_infinity false, _ | _, S754_infinity false => S754_infinity false
  | S754_nan, _ | _, S754_nan => S754_nan
  | S754_zero s, S754_zero _ => if s then y else x
  | _, _ => if f64_lt y x then x else y
  end.
Definition Min (x y : float64) : float64 :=
  match x, y with
  | S754_infinity true, _ | _, S754_infinity true => S754_infinity true
  | S754_nan, _ | _, S754_nan => S754_nan
  | S754_zero s, S754_zero _ => if s then x else y
  | _, _ => if f64_lt x y then x else y
  end.

Record SearchResult := MkResult {
  ID : string;
  Content : string;
  DocumentID : string;
  Score : float64;
  URL : string;
  Title : string;
  SourceType : string;
  Metadata : gmap string any;
  Embedding : list spec_float;
  EmbeddingID : option string;
}.
Definition set_Score (x : float64) (r : SearchResult) : SearchResult :=
  MkResult (ID r) (Content r) (DocumentID r) x (URL r) (Title r) (SourceType r) (Metadata r) (Embedding r) (EmbeddingID r).
Definition has_embedding (r : SearchResult) : bool := match Embedding r with [] => false | _ => true end.

(** ** Maximal marginal relevance *)

Definition one : float64 := f64_of_Z 1.
Definition zero : float64 := f64_of_Z 0.

(** The value of [Lambda]. *)
Definition NewMMR (lambda : float64) : float64 :=
  if f64_lt lambda zero || f64_lt one lambda then f64_const 7 10 else lambda.
Definition SetLambda (lambda old : float64) : float64 :=
  if f64_le zero lambda && f64_le lambda one then lambda else old.

Definition dot (a b : list spec_float) : float64 :=
  foldl (λ s xy, f64_add s (f64_of_f32 (f32_mul (fst xy) (snd xy)))) zero (zip a b).
Definition cosineSimilarity (a b : list spec_float) : float64 :=
  if negb (length a =? length b)%nat then zero
  else if (length a =? 0)%nat then zero
  else
    let normA := dot a a in
    let normB := dot b b in
    if f64_eq normA zero || f64_eq normB zero then zero
    else f64_div (dot a b) (f64_mul (f64_sqrt normA) (f64_sqrt normB)).

Section mmr.
Variable Lambda : float64.
Variable queryEmbedding : list spec_float.

(** The largest similarity to what was selected. *)
Definition max_similarity (selected : list SearchResult) (candidate : SearchResult) : float64 :=
  foldl (λ maxSim sel,
      if has_embedding sel then
        let sim := cosineSimilarity (Embedding candidate) (Embedding sel) in if f64_lt maxSim sim then sim else maxSim
      else maxSim) zero selected.
Definition mmrScore (selected : list SearchResult) (candidate : SearchResult) : float64 :=
  f64_sub (f64_mul Lambda (cosineSimilarity (Embedding candidate) queryEmbedding))
          (f64_mul (f64_sub one Lambda) (max_similarity selected candidate)).

(** One pass over what remains: the best score and where it is. *)
Fixpoint pick (selected : list SearchResult) (i : nat) (l : list SearchResult) (best : float64 * option nat) : float64 * option nat :=
  match l with
  | [] => best
  | candidate :: l =>
      let best :=
        if has_embedding candidate then
          let score := mmrScore selected candidate in if f64_lt (fst best) score then (score, Some i) else best
        else best in
      pick selected (S i) l best
  end.
Definition no_pick : float64 * option nat := (f64_neg MaxFloat64, None).

Fixpoint rerank_loop (fuel : nat) (selected remaining : list SearchResult) : list SearchResult :=
  match fuel with
  | O => selected
  | S fuel =>
      match pick selected 0 remaining no_pick with
      | (_, None) => selected
      | (_, Some i) =>
          match remaining !! i with
          | Some best => rerank_loop fuel (selected ++ [best]) (delete i remaining)
          | None => selected
          end
      end
  end.

(** The loop goes on while something remains: one turn takes one away. *)
Definition Rerank (candidates : list SearchResult) : list SearchResult :=
  match candidates with
  | [] => []
  | c :: rest => rerank_loop (length rest) [c] rest
  end.

Definition decay (n i : nat) (r : SearchResult) : SearchResult :=
  let positionWeight := f64_sub one (f64_div (f64_of_Z (Z.of_nat i)) (f64_of_Z (Z.of_nat n))) in
  set_Score (f64_mul (Score r) (f64_add (f64_const 1 2) (f64_mul (f64_const 1 2) positionWeight))) r.
Definition RerankWithScores (candidates : list SearchResult) : result string (list SearchResult) :=
  match queryEmbedding with
  | [] => Err "query embedding cannot be empty"
  | _ => let reranked := Rerank candidates in Ok (imap (decay (length reranked)) reranked)
  end.
End mmr.

(** The similarities of all pairs, in the order of the loops. *)
Fixpoint pair_similarities (l : list SearchResult) : list float64 :=
  match l with
  | [] => []
  | r :: l =>
      ((if has_embedding r then (λ r', cosineSimilarity (Embedding r) (Embedding r')) <$> List.filter has_embedding l else [])
       ++ pair_similarities l)%list
  end.
Definition GetDiversityScore (results : list SearchResult) : float64 :=
  if (length results <? 2)%nat then one
  else match pair_similarities results with
       | [] => one
       | l => f64_sub one (f64_div (foldl f64_add zero l) (f64_of_Z (Z.of_nat (length l))))
       end.

(** ** What the reranking selects *)

Section greedy.
Variable Lambda : float64.
Variable queryEmbedding : list spec_float.
Notation score := (mmrScore Lambda queryEmbedding).
Implicit Types (selected remaining l : list SearchResult).

(** No candidate in [l] with an embedding scores more than [s]. *)
Definition unbeaten selected (s : float64) l : Prop :=
  forall x, x ∈ l -> has_embedding x = true -> f64_lt s (score selected x) = false.

(** A greedy choice: each pick is unbeaten by what remains, until nothing has a score. *)
Inductive greedy : list SearchResult -> list SearchResult -> list SearchResult -> list SearchResult -> Prop :=
| greedy_end selected l : unbeaten selected (f64_neg MaxFloat64) l -> greedy selected l [] l
| greedy_pick selected l i x picks left :
    l !! i = Some x -> has_embedding x = true -> f64_lt (f64_neg MaxFloat64) (score selected x) = true ->
    unbeaten selected (score selected x) l -> greedy (selected ++ [x]) (delete i l) picks left ->
    greedy selected l (x :: picks) left.

Lemma pick_spec selected i l s o s' o' :
  pick Lambda queryEmbedding selected i l (s, o) = (s', o') ->
  unbeaten selected s' l /\
  (s' = s /\ o' = o \/
   exists j x, l !! j = Some x /\ o' = Some (i + j)%nat /\ has_embedding x = true /\ s' = score selected x /\ f64_lt s s' = true).
Proof.
  revert i s o. induction l as [|c l IH]; intros i s o; cbn [pick].
  { intros [= <- <-]. split; [by intros x ?%elem_of_nil|by left]. }
  destruct (has_embedding c) eqn:Hc; cbn [fst]; [destruct (f64_lt s (score selected c)) eqn:Hlt|]; intros [Hu Ho]%IH.
  - split.
    + intros x [->|Hx]%elem_of_cons Hex; [|by apply Hu]. destruct Ho as [[-> _]|(j & y & _ & _ & _ & _ & Hlt')]; [apply f64_lt_irrefl|].
      apply not_true_iff_false. intros H. pose proof (f64_lt_trans _ _ _ Hlt' H) as H'. by rewrite f64_lt_irrefl in H'.
    + right. destruct Ho as [[-> ->]|(j & y & Hj & -> & Hy & -> & Hlt')].
      * exists 0%nat, c. rewrite Nat.add_0_r. done.
      * exists (S j), y. split; [done|]. split; [f_equal; lia|]. split; [done|]. split; [done|]. by eapply f64_lt_trans.
  - split.
    + intros x [->|Hx]%elem_of_cons Hex; [|by apply Hu]. destruct Ho as [[-> _]|(j & y & _ & _ & _ & _ & Hlt')]; [done|].
      apply not_true_iff_false. intros H. pose proof (f64_lt_trans _ _ _ Hlt' H) as H'. congruence.
    + destruct Ho as [?|(j & y & Hj & -> & ?)]; [by left|]. right. exists (S j), y. split; [done|]. split; [f_equal; lia|done].
  - split.
    + intros x [->|Hx]%elem_of_cons Hex; [congruence|by apply Hu].
    + destruct Ho as [?|(j & y & Hj & -> & ?)]; [by left|]. right. exists (S j), y. split; [done|]. split; [f_equal; lia|done].
Qed.

Lemma loop_greedy fuel selected remaining :
  (length remaining <= fuel)%nat ->
  exists picks left, rerank_loop Lambda queryEmbedding fuel selected remaining = (selected ++ picks)%list /\
    greedy selected remaining picks left.
Proof.
  revert selected remaining. induction fuel as [|fuel IH]; intros selected remaining Hf; cbn [rerank_loop].
  - destruct remaining; [|cbn in Hf; lia]. exists [], []. rewrite app_nil_r. split; [done|]. constructor. by intros x ?%elem_of_nil.
  - destruct (pick _ _ _ _ _ _) as [s o] eqn:Hp. apply pick_spec in Hp as [Hu Ho].
    destruct Ho as [[-> ->]|(j & x & Hj & -> & Hx & -> & Hlt)].
    + exists [], remaining. rewrite app_nil_r. split; [done|]. by constructor.
    + cbn [Nat.add]. rewrite Hj. pose proof (length_delete remaining j (mk_is_Some _ _ Hj)) as Hl.
      pose proof (lookup_lt_Some _ _ _ Hj) as Hlj.
      destruct (IH (selected ++ [x])%list (delete j remaining)) as (picks & left & -> & Hg); [lia|].
      exists (x :: picks), left. split; [by rewrite <-app_assoc|]. by eapply greedy_pick.
Qed.

Lemma greedy_perm selected l picks left : greedy selected l picks left -> (picks ++ left)%list ≡ₚ l.
Proof.
  induction 1 as [|selected l i x picks left Hi _ _ _ _ IH]; [done|]. cbn. rewrite IH. symmetry. by apply delete_Permutation.
Qed.
Lemma greedy_left selected l picks left :
  greedy selected l picks left -> unbeaten (selected ++ picks) (f64_neg MaxFloat64) left.
Proof. induction 1 as [|selected l i x picks left _ _ _ _ _ IH]; [by rewrite app_nil_r|]. by rewrite <-app_assoc in IH. Qed.

(** C39 Reranking keeps the first candidate and then chooses greedily: each further result
    is one of those that remain, has an embedding, and none that remains has a better
    balance of relevance and diversity.  Nothing is lost or repeated but the candidates that
    are left over, which have no embedding, or no score above the least number. *)
Theorem mmr_greedy c rest :
  exists picks left, Rerank Lambda queryEmbedding (c :: rest) = c :: picks /\ greedy [c] rest picks left /\
    (c :: picks ++ left)%list ≡ₚ c :: rest /\
    forall x, x ∈ left -> has_embedding x = false \/ f64_lt (f64_neg MaxFloat64) (score (c :: picks) x) = false.
Proof.
  destruct (loop_greedy (length rest) [c] rest) as (picks & left & Hr & Hg); [done|]. exists picks, left.
  split; [exact Hr|]. split; [done|]. split; [by rewrite (greedy_perm _ _ _ _ Hg)|].
  intros x Hx. destruct (has_embedding x) eqn:He; [right|by left]. by apply (greedy_left _ _ _ _ Hg).
Qed.
End greedy.

(** ** Keyword search *)

(** The statement and its arguments; the statement is the code's but for white space. *)
Definition bm25_select : string :=
  "SELECT dc.id, dc.content, dc.document_id, similarity(dc.content, $1) as score, d.url, d.title, d.source_type, d.metadata, dc.embedding_id FROM rag.document_chunks dc JOIN rag.documents d ON d.id = dc.document_id WHERE dc.content % $1".
Definition add_filter (column : string) (value : option any) (q : string * list any * Z) : string * list any * Z :=
  match value with
  | Some (AString s) =>
      if String.eqb s "" then q
      else let '(sql, args, argIndex) := q in
           (sql +:+ " AND " +:+ column +:+ " = $" +:+ itoa argIndex, (args ++ [AString s])%list, argIndex + 1)
  | _ => q
  end.
Definition filtered_query (query : string) (filters : gmap string any) (limit : Z) : string * list any :=
  let '(sql, args, argIndex) :=
    add_filter "d.tenant_id" (filters !! "tenant_id") (add_filter "d.source_type" (filters !! "source_type") (bm25_select, [AString query], 2)) in
  (sql +:+ " ORDER BY similarity(dc.content, $1) DESC LIMIT $" +:+ itoa argIndex, (args ++ [AInt limit])%list).

(** ** Hybrid search *)

Record HybridSearchConfig := MkHybridConfig {
  VectorWeight : float64;
  BM25Weight : float64;
  ImportanceWeight : float64;
  MMRLambda : float64;
}.
Definition DefaultHybridSearchConfig : HybridSearchConfig :=
  MkHybridConfig (f64_const 6 10) (f64_const 2 10) (f64_const 2 10) (f64_const 7 10).
Record SearchOptions := MkOptions {
  Limit : Z;
  MinScore : float64;
  opt_TenantID : string;
  opt_SourceType : string;
  ApplyMMR : bool;
  IncludeMetadata : bool;
}.
(** An embedding of the repository, as far as it is read. *)
Record StoredEmbedding := MkEmbedding {
  emb_ID : string;
  emb_Text : string;
  emb_Embedding : list spec_float;
  emb_Metadata : gmap string any;
}.

Section hybrid.
Context {W : Type} `{HS : !SliceSort}.
(** [EmbedContent], [SearchEmbeddings] and [SelectContext]; an error is its text. *)
Variable EmbedContent : string -> W -> W * result string (list spec_float * string).
Variable SearchEmbeddings : list spec_float -> string -> Z -> W -> W * result string (list StoredEmbedding).
Variable Select : string -> list any -> W -> W * result string (list SearchResult).
(** The order in which a map is walked. *)
Variable order : gmap string SearchResult -> list (string * SearchResult).
Variable h : HybridSearchConfig.

Definition SearchWithFilters (query : string) (filters : gmap string any) (limit : Z) (w : W) : W * result string (list SearchResult) :=
  if String.eqb query "" then (w, Err "query cannot be empty")
  else
    let '(sql, args) := filtered_query query filters limit in
    match Select sql args w with
    | (w, Err e) => (w, Err ("filtered BM25 search failed: " +:+ e))
    | r => r
    end.

Definition text_of (m : gmap string any) (k : string) : string := match m !! k with Some (AString s) => s | _ => "" end.
Definition as_result (e : StoredEmbedding) : SearchResult :=
  MkResult (emb_ID e) (emb_Text e) (text_of (emb_Metadata e) "document_id") one "" "" (text_of (emb_Metadata e) "source_type")
    (emb_Metadata e) (emb_Embedding e) (Some (emb_ID e)).
Definition vectorSearch (queryEmbedding : list spec_float) (modelName : string) (limit : Z) (w : W) : W * result string (list SearchResult) :=
  match SearchEmbeddings queryEmbedding modelName limit w with
  | (w, Err e) => (w, Err ("vector repository search failed: " +:+ e))
  | (w, Ok l) => (w, Ok (as_result <$> l))
  end.
Definition bm25Search (query : string) (limit : Z) (opts : SearchOptions) (w : W) : W * result string (list SearchResult) :=
  let filters : gmap string any := if String.eqb (opt_TenantID opts) "" then ∅ else {["tenant_id" := AString (opt_TenantID opts)]} in
  let filters := if String.eqb (opt_SourceType opts) "" then filters else <["source_type" := AString (opt_SourceType opts)]> filters in
  SearchWithFilters query filters limit w.

(** The share of a rank, and the results of a search added to the scores. *)
Definition rank_share (weight : float64) (rank : nat) : float64 := f64_div weight (f64_of_Z (Z.of_nat rank + 60)).
Definition add_score (x : float64) (r : SearchResult) : SearchResult := set_Score (f64_add (Score r) x) r.
Fixpoint fuse (weight : float64) (rank : nat) (l : list SearchResult) (m : gmap string SearchResult) : gmap string SearchResult :=
  match l with
  | [] => m
  | r :: l => fuse weight (S rank) l (<[ID r := add_score (rank_share weight rank) (default (set_Score zero r) (m !! ID r))]> m)
  end.
Definition add_importance (r : SearchResult) : SearchResult :=
  match Metadata r !! "importance_score" with
  | Some (AFloat importance) => add_score (f64_mul (ImportanceWeight h) importance) r
  | _ => r
  end.
Definition fused (vectorResults bm25Results : list SearchResult) : gmap string SearchResult :=
  add_importance <$> fuse (BM25Weight h) 0 bm25Results (fuse (VectorWeight h) 0 vectorResults ∅).
Definition reciprocalRankFusion (vectorResults bm25Results : list SearchResult) : list SearchResult :=
  slice_sort (λ a b, f64_lt (Score b) (Score a)) (order (fused vectorResults bm25Results)).*2.

Definition filterByScore (results : list SearchResult) (minScore : float64) : list SearchResult :=
  if f64_le minScore zero then results else List.filter (λ r, f64_le minScore (Score r)) results.

(** [None] is the panic of a slice that ends before it begins, for a negative limit. *)
Definition limited (limit : Z) (l : list SearchResult) : option (list SearchResult) :=
  if limit <? Z.of_nat (length l) then if limit <? 0 then None else Some (take (Z.to_nat limit) l) else Some l.

Definition SearchWithOptions (query : string) (opts : SearchOptions) (w : W) : W * outcome string (list SearchResult) :=
  if String.eqb query "" then (w, Fails "query cannot be empty")
  else match EmbedContent query w with
  | (w, Err e) => (w, Fails ("failed to generate query embedding: " +:+ e))
  | (w, Ok (queryEmbedding, modelName)) =>
      let candidateLimit := i64 (Limit opts * 3) in
      match vectorSearch queryEmbedding modelName candidateLimit w with
      | (w, Err e) => (w, Fails ("vector search failed: " +:+ e))
      | (w, Ok vectorResults) =>
          match bm25Search query candidateLimit opts w with
          | (w, Err e) => (w, Fails ("BM25 search failed: " +:+ e))
          | (w, Ok bm25Results) =>
              let filtered := filterByScore (reciprocalRankFusion vectorResults bm25Results) (MinScore opts) in
              let filtered :=
                if ApplyMMR opts && (Limit opts <? Z.of_nat (length filtered))
                then Rerank (NewMMR (MMRLambda h)) queryEmbedding filtered else filtered in
              (w, match limited (Limit opts) filtered with Some l => Returns l | None => Panics end)
          end
      end
  end.
Definition Search (query : string) (limit : Z) (w : W) : W * outcome string (list SearchResult) :=
  SearchWithOptions query (MkOptions limit (f64_const 4 10) "" "" true true) w.
End hybrid.

Definition UpdateWeights (two_decimals : float64 -> string) (vector bm25 importance : float64) (h : HybridSearchConfig) : result string HybridSearchConfig :=
  let total := f64_add (f64_add vector bm25) importance in
  if f64_lt (f64_const 101 100) total || f64_lt total (f64_const 99 100) then
    Err ("weights must sum to 1.0, got " +:+ two_decimals total)
  else Ok (MkHybridConfig vector bm25 importance (MMRLambda h)).

(** ** The default search *)

Definition no_importance (r : SearchResult) : Prop :=
  match Metadata r !! "importance_score" with Some (AFloat _) => False | _ => True end.
Definition shares (weight : float64) : list float64 := rank_share weight <$> seq 0 100.
Definition first_scores (weight : float64) : list float64 := f64_add zero <$> shares weight.
Definition fusion_scores (h : HybridSearchConfig) : list float64 :=
  let keyword_shares := shares (BM25Weight h) in
  (first_scores (VectorWeight h) ++ first_scores (BM25Weight h) ++
   (s ← first_scores (VectorWeight h); f64_add s <$> keyword_shares))%list.

(** No score that the default weights can give reaches the default threshold. *)
Lemma default_scores_low : forallb (λ s, negb (f64_le (f64_const 4 10) s)) (fusion_scores DefaultHybridSearchConfig) = true.
Proof. vm_compute. reflexivity. Qed.

Section default_search.
Implicit Types (m : gmap string SearchResult) (l : list SearchResult).

Lemma share_elem weight k : (k < 100)%nat -> rank_share weight k ∈ shares weight.
Proof. intros H. unfold shares. apply list_elem_of_fmap. exists k. split; [done|]. apply elem_of_seq. lia. Qed.
Lemma add_share_elem s weight k : (k < 100)%nat -> f64_add s (rank_share weight k) ∈ f64_add s <$> shares weight.
Proof. intros H. apply list_elem_of_fmap_2. by apply share_elem. Qed.

(** Where a result of the fusion comes from, when no identifier comes twice. *)
Lemma fuse_lookup weight rank l m id r :
  NoDup (ID <$> l) -> fuse weight rank l m !! id = Some r ->
  m !! id = Some r /\ id ∉ (ID <$> l) \/
  exists k x, l !! k = Some x /\ ID x = id /\ r = add_score (rank_share weight (rank + k)) (default (set_Score zero x) (m !! id)).
Proof.
  revert rank m. induction l as [|x l IH]; intros rank m Hn Hr; cbn in Hr; [left; split; [done|apply not_elem_of_nil]|].
  rewrite fmap_cons in Hn. apply NoDup_cons in Hn as [Hx Hn].
  destruct (IH _ _ Hn Hr) as [[H Hid]|(k & y & Hk & Hy & Hm)]; destruct (decide (ID x = id)) as [<-|Hne].
  - rewrite lookup_insert_eq in H. injection H as <-. right. exists 0%nat, x. by rewrite Nat.add_0_r.
  - rewrite lookup_insert_ne in H by done. left. split; [done|]. rewrite fmap_cons. intros [?|?]%elem_of_cons; congruence.
  - destruct Hx. rewrite <-Hy. apply list_elem_of_fmap. exists y. split; [done|]. by eapply list_elem_of_lookup_2.
  - rewrite lookup_insert_ne in Hm by done. right. exists (S k), y. split; [done|]. split; [done|]. by rewrite Nat.add_succ_r.
Qed.

Lemma fused_score h vectorResults bm25Results id r :
  NoDup (ID <$> vectorResults) -> NoDup (ID <$> bm25Results) -> (length vectorResults <= 100)%nat -> (length bm25Results <= 100)%nat ->
  Forall no_importance vectorResults -> Forall no_importance bm25Results ->
  fused h vectorResults bm25Results !! id = Some r -> Score r ∈ fusion_scores h.
Proof.
  intros Hnv Hnb Hlv Hlb Hiv Hib Hr. unfold fused in Hr. rewrite lookup_fmap in Hr. destruct (fuse _ _ bm25Results _ !! id) as [r2|] eqn:H2; [|done].
  rewrite Forall_lookup in Hiv, Hib.
  assert (forall l k x, (length l <= 100)%nat -> l !! k = Some x -> (k < 100)%nat) as Hlt
    by (intros l k x Hl Hk%lookup_lt_Some; lia).
  assert (forall r1, fuse (VectorWeight h) 0 vectorResults ∅ !! id = Some r1 ->
    no_importance r1 /\ Score r1 ∈ first_scores (VectorWeight h)) as Hfirst.
  { intros r1 H1. apply fuse_lookup in H1 as [[H1 _]|(k & x & Hk & _ & ->)]; [done| |done]. rewrite lookup_empty.
    split; [exact (Hiv k x Hk)|]. refine (add_share_elem zero (VectorWeight h) k _). exact (Hlt _ k x Hlv Hk). }
  assert (no_importance r2 /\ Score r2 ∈ fusion_scores h) as [Hno Hs].
  { unfold fusion_scores. rewrite !elem_of_app. apply fuse_lookup in H2 as [[H2 _]|(k & x & Hk & _ & ->)]; [| |done].
    - destruct (Hfirst _ H2). split; [done|by left].
    - pose proof (Hlt _ k x Hlb Hk) as Hk100. destruct (fuse (VectorWeight h) 0 vectorResults ∅ !! id) as [r1|] eqn:H1.
      + destruct (Hfirst _ eq_refl) as [Hno Hs]. split; [exact Hno|]. right; right. apply list_elem_of_bind. exists (Score r1).
        split; [exact (add_share_elem (Score r1) (BM25Weight h) k Hk100)|done].
      + split; [exact (Hib k x Hk)|]. right; left. exact (add_share_elem zero (BM25Weight h) k Hk100). }
  injection Hr as <-. unfold add_importance. unfold no_importance in Hno. destruct (Metadata r2 !! "importance_score") as [[]|]; done.
Qed.
End default_search.

(** C40 The default search finds nothing: whatever the repositories return, as long as it is
    no more than a hundred results of each kind, no result comes twice and no metadata carry an
    importance score, every result is below the default threshold of 0.4, since the ranks
    give at most 0.8/60. *)
Theorem default_search_finds_nothing {W} `{HS : !SliceSort} `{!SliceSortLaws} (embed : string -> W -> W * result string (list spec_float * string))
    find select (order : gmap string SearchResult -> list (string * SearchResult)) query limit w w1 w2 w3 e model vectors keywords :
  (forall m, order m ≡ₚ map_to_list m) -> query ≠ "" -> 0 <= limit ->
  embed query w = (w1, Ok (e, model)) -> find e model (i64 (limit * 3)) w1 = (w2, Ok vectors) ->
  bm25Search select query (i64 (limit * 3)) (MkOptions limit (f64_const 4 10) "" "" true true) w2 = (w3, Ok keywords) ->
  (length vectors <= 100)%nat -> (length keywords <= 100)%nat -> NoDup (emb_ID <$> vectors) -> NoDup (ID <$> keywords) ->
  Forall no_importance (as_result <$> vectors) -> Forall no_importance keywords ->
  Search embed find select order DefaultHybridSearchConfig query limit w = (w3, Returns []).
Proof.
  intros Ho Hq Hlim He Hf Hb Hlv Hlk Hnv Hnk Hiv Hik. unfold Search, SearchWithOptions, vectorSearch. apply String.eqb_neq in Hq. rewrite Hq, He. cbn [Limit MinScore ApplyMMR].
  rewrite Hf, Hb. assert (filterByScore (reciprocalRankFusion order DefaultHybridSearchConfig (as_result <$> vectors) keywords) (f64_const 4 10) = []) as ->.
  2:{ assert ((limit <? Z.of_nat (@length SearchResult [])) = false) as Hl by (apply Z.ltb_ge; cbn; lia). unfold limited. cbn [andb].
      by rewrite Hl, Hl. }
  unfold filterByScore. replace (f64_le (f64_const 4 10) zero) with false by (vm_compute; reflexivity).
  assert (forall l, (forall r, r ∈ l -> f64_le (f64_const 4 10) (Score r) = false) -> List.filter (λ r, f64_le (f64_const 4 10) (Score r)) l = []) as Hfilter.
  { intros l. induction l as [|r l IH]; intros Hall; [done|]. cbn -[f64_le f64_const]. rewrite Hall by (by left). apply IH. intros r' Hr'. apply Hall. by right. }
  apply Hfilter. intros r Hr. unfold reciprocalRankFusion in Hr. rewrite slice_sort_perm in Hr.
  apply list_elem_of_fmap in Hr as ([id r'] & -> & Hin). rewrite Ho in Hin. apply elem_of_map_to_list in Hin. cbn [snd].
  apply fused_score in Hin; [|by rewrite <-list_fmap_compose|done|by rewrite length_fmap|done..].
  pose proof default_scores_low as Hlow. rewrite forallb_forall in Hlow. apply list_elem_of_In, Hlow in Hin. by apply negb_true_iff.
Qed.

(** ** Scores of documents *)

Record ScoringWeights := MkWeights { Base : float64; Freshness : float64; Authority : float64; Popularity : float64; Quality : float64 }.
Definition DefaultWeights : ScoringWeights :=
  MkWeights (f64_const 3 10) (f64_const 2 10) (f64_const 2 10) (f64_const 2 10) (f64_const 1 10).

Record Document := MkDocument {
  doc_SourceType : string;
  doc_Title : string;
  doc_Content : string;
  BaseScore : float64;
  FreshnessScore : float64;
  AuthorityScore : float64;
  PopularityScore : float64;
  QualityScore : float64;
  ImportanceScore : float64;
  UpdatedAt : Z;
}.
Definition set_scores (freshness quality importance : float64) (d : Document) : Document :=
  MkDocument (doc_SourceType d) (doc_Title d) (doc_Content d) (BaseScore d) freshness (AuthorityScore d) (PopularityScore d) quality
    importance (UpdatedAt d).

Definition hour : Z := 60 * minute.
(** [time.Duration.Hours], and the days since a time. *)
Definition Hours (d : Z) : float64 := f64_add (f64_of_Z (Z.quot d hour)) (f64_div (f64_of_Z (Z.rem d hour)) (f64_of_Z hour)).
Definition days_since (now t : Z) : float64 := f64_div (Hours (time_sub now t)) (f64_of_Z 24).
Definition below (x : float64) (n : Z) : bool := f64_lt x (f64_of_Z n).
Definition clamp (x : float64) : float64 := Min (Max x zero) one.

Definition applyTimeDecay (now updatedAt : Z) (score : float64) : float64 :=
  let days := days_since now updatedAt in
  if below days 7 then score
  else if below days 30 then f64_mul score (f64_const 95 100)
  else if below days 90 then f64_mul score (f64_const 8 10)
  else if below days 180 then f64_mul score (f64_const 6 10)
  else f64_mul score (f64_const 4 10).
Definition CalculateImportance (w : ScoringWeights) (now : Z) (d : Document) : float64 :=
  let importance :=
    f64_add (f64_add (f64_add (f64_add (f64_mul (BaseScore d) (Base w)) (f64_mul (FreshnessScore d) (Freshness w)))
      (f64_mul (AuthorityScore d) (Authority w))) (f64_mul (PopularityScore d) (Popularity w))) (f64_mul (QualityScore d) (Quality w)) in
  clamp (applyTimeDecay now (UpdatedAt d) importance).
Definition CalculateFreshnessScore (now updatedAt : Z) : float64 :=
  let days := days_since now updatedAt in
  if below days 1 then one
  else if below days 7 then f64_const 9 10
  else if below days 30 then f64_const 7 10
  else if below days 90 then f64_const 5 10
  else f64_const 3 10.
Definition CalculateQualityScore (content title : string) : float64 :=
  let n := len content in
  let score := f64_const 5 10 in
  let score := if 1000 <? n then f64_add score (f64_const 2 10) else if 500 <? n then f64_add score (f64_const 1 10) else score in
  let score := if n <? 100 then f64_sub score (f64_const 2 10) else score in
  let score := if negb (String.eqb title "") && (5 <? len title) then f64_add score (f64_const 1 10) else score in
  clamp score.
Definition boosts : list (string * float64) :=
  [("github", one); ("confluence", f64_const 11 10); ("jira", f64_const 9 10); ("web", f64_const 8 10); ("local", f64_const 105 100)].
Definition ApplySourceBoost (sourceType : string) (score : float64) : float64 :=
  Min (f64_mul score (match List.find (λ kv, String.eqb (fst kv) sourceType) boosts with Some kv => snd kv | None => one end)) one.
Definition ScoreDocument (w : ScoringWeights) (now : Z) (d : Document) : Document :=
  let freshness := if f64_eq (FreshnessScore d) zero then CalculateFreshnessScore now (UpdatedAt d) else FreshnessScore d in
  let quality := if f64_eq (QualityScore d) zero then CalculateQualityScore (doc_Content d) (doc_Title d) else QualityScore d in
  let d := set_scores freshness quality (ImportanceScore d) d in
  let importance := CalculateImportance w now d in
  set_scores freshness quality (ApplySourceBoost (doc_SourceType d) importance) d.

Lemma clamp_bounds x : is_nan (clamp x) = true \/ f64_le zero (clamp x) = true /\ f64_le (clamp x) one = true.
Proof.
  unfold clamp, Min, Max. change zero with (S754_zero false). change one with (S754_finite false 4503599627370496 (-52)).
  destruct x as [[]|[]| |[] m e]; cbn -[f64_lt]; auto.
  destruct (f64_lt (S754_zero false) (S754_finite false m e)) eqn:H0; cbn -[f64_lt f64_le]; auto.
  destruct (f64_lt (S754_finite false m e) (S754_finite false 4503599627370496 (-52))) eqn:H1; cbn -[f64_lt f64_le]; auto.
  right. split; [done|]. revert H1. unfold f64_lt, f64_le, SFltb, SFleb. by destruct (SFcompare _ _) as [[]|].
Qed.

(** Whatever the parts of a document's score are, its importance is NaN or lies between 0
    and 1, for any weights. *)
Theorem importance_bounded w now d :
  is_nan (CalculateImportance w now d) = true \/
  f64_le zero (CalculateImportance w now d) = true /\ f64_le (CalculateImportance w now d) one = true.
Proof. apply clamp_bounds. Qed.

(** ** Examples *)

Definition plain_result (id : string) (e : list spec_float) : SearchResult := MkResult id "" "" one "" "" "" ∅ e None.
Definition unit_x : list spec_float := [f32_of_Z 1; f32_of_Z 0].
Definition unit_y : list spec_float := [f32_of_Z 0; f32_of_Z 1].

Definition embeds (_ : string) (w : unit) : unit * result string (list spec_float * string) := (w, Ok (unit_x, "model")).
Definition finds (_ : list spec_float) (_ : string) (_ : Z) (w : unit) : unit * result string (list StoredEmbedding) :=
  (w, Ok [MkEmbedding "e1" "exact match" unit_x ∅; MkEmbedding "e2" "" unit_y ∅]).
Definition selects (_ : string) (_ : list any) (w : unit) : unit * result string (list SearchResult) := (w, Ok [plain_result "e1" []]).

(** The best match of both searches is not found. *)
Theorem default_search_finds_nothing_witness :
  Search embeds finds selects map_to_list DefaultHybridSearchConfig "exact match" 10 () = ((), Returns []).
Proof.
  apply (default_search_finds_nothing embeds finds selects map_to_list "exact match" 10 () () () () unit_x "model"
    [MkEmbedding "e1" "exact match" unit_x ∅; MkEmbedding "e2" "" unit_y ∅] [plain_result "e1" []]).
  - intros m. reflexivity.
  - discriminate.
  - discriminate.
  - reflexivity.
  - reflexivity.
  - reflexivity.
  - cbn. lia.
  - cbn. lia.
  - apply (bool_decide_eq_true_1 _). vm_compute. reflexivity.
  - apply (bool_decide_eq_true_1 _). vm_compute. reflexivity.
  - repeat constructor.
  - repeat constructor.
Defined.

(** Results of the keyword search have no embedding: reranking drops all but the first. *)
Example keyword_results_dropped :
  ID <$> Rerank (f64_const 7 10) unit_x [plain_result "a" []; plain_result "b" []; plain_result "c" unit_x; plain_result "d" []] = ["a"; "c"].
Proof. vm_compute. reflexivity. Qed.

(** A duplicate of the first result comes last. *)
Example diversity_first :
  ID <$> Rerank (f64_const 1 2) unit_x [plain_result "a" unit_x; plain_result "b" unit_x; plain_result "c" unit_y] = ["a"; "b"; "c"] /\
  ID <$> Rerank (f64_const 1 4) unit_x [plain_result "a" unit_x; plain_result "b" unit_x; plain_result "c" unit_y] = ["a"; "c"; "b"].
Proof. vm_compute. split; reflexivity. Qed.

(** As many arguments as placeholders, in their order. *)
Example filtered_query_example :
  snd (filtered_query "q" (<["tenant_id" := AString "t"]> {["source_type" := AString "github"]}) 5) =
    [AString "q"; AString "github"; AString "t"; AInt 5].
Proof. vm_compute. reflexivity. Qed.

(** A search with a negative limit panics when it finds something. *)
Example negative_limit_panics :
  snd (SearchWithOptions embeds finds selects map_to_list DefaultHybridSearchConfig "q" (MkOptions (-1) zero "" "" false true) ()) = Panics.
Proof. vm_compute. reflexivity. Qed.
