(* ===== verification/EdgeBuiltin.v ===== *)
(** * EdgeBuiltin: what the edge server's built-in tools share

    The files [metadata.go], [rate_limiter.go] and [response_helper.go] of
    [apps/edge-mcp/internal/tools/builtin]: the limits of the tools and the answers kept
    for repeated requests, which are variables of the package and so are shared by all
    sessions, the form of the answers, and the templates of workflows; and the lists with
    filters, order and pages that five tools have in common.  The readings of the clock
    within one call have names ([readings]).  How a time is written depends on the zone of
    the host and is an argument. *)

From stdpp Require Import base decidable gmap strings list sorting.
From Stdlib Require Import ZArith Lia.
From S2P Require Import Prelude GoFloat GoStrings GoAny GoSort GoParse Json EdgeTools.

Local Open Scope string_scope.
Local Open Scope Z_scope.

(** [t.Format(time.RFC3339)]. *)
Class TimeText := FormatRFC3339 : Z -> string.

(** ** Records *)

Record RateLimitInfo := MkLimitInfo {
  RequestsPerMinute : Z;
  BurstSize : Z;
  limit_Description : string;
}.
Record RateLimitStatus := MkLimitStatus {
  Remaining : Z;
  Reset : Z;
  Limit : Z;
}.
Record ResponseMetadata := MkMetadata {
  RequestID : string;
  Timestamp : Z;
  Duration : string;
  IdempotencyKey : string;
  meta_RateLimit : option RateLimitStatus;
}.
Record StandardResponse := MkResponse {
  Success : bool;
  Data : gmap string any;
  Error_ : string;
  Metadata : ResponseMetadata;
  NextSteps_ : list string;
}.
Record IdempotencyEntry := MkEntry {
  entry_Key : string;
  Response : StandardResponse;
  entry_CreatedAt : Z;
  ExpiresAt : Z;
}.
Record TokenBucket := MkBucket {
  tokens : Z;
  maxTokens : Z;
  refillRate : Z;
  lastRefill : Z;
}.
Record RateLimiter := MkLimiter {
  buckets : gmap string TokenBucket;
  configs : gmap string RateLimitInfo;
}.

(** What a handler returns: a response, a map, a map one of whose values is a list of
    maps, or a list. *)
Inductive reply :=
| Standard (r : StandardResponse)
| Plain (m : gmap string any)
| Page (name : string) (rows : list (gmap string any)) (rest : gmap string any)
| Listed (l : list any).

(** The readings of the clock in one call, by what they are for, in the order of the
    code. *)
Record readings := MkReadings {
  at_start : Z;
  at_bucket : Z;
  at_refill : Z;
  at_reset : Z;
  at_retry : Z;
  at_lookup : Z;
  at_action : Z;
  at_answer : Z;
  at_store : Z;
}.
Definition all_at (t : Z) : readings := MkReadings t t t t t t t t t.

(** ** Limits of the tools *)

Definition GetRateLimitForTool (toolName : string) : RateLimitInfo :=
  if String.eqb toolName "agent_heartbeat" then MkLimitInfo 600 20 "Higher limit for maintaining agent liveness"
  else if String.eqb toolName "workflow_execute" then MkLimitInfo 60 10 "Moderate limit to prevent workflow flooding"
  else if String.eqb toolName "task_create" then MkLimitInfo 120 20 "Standard limit for task creation"
  else if String.eqb toolName "task_get_batch" then MkLimitInfo 30 5 "Lower limit for batch operations"
  else if String.eqb toolName "context_update" then MkLimitInfo 300 50 "High limit for context management"
  else MkLimitInfo 100 10 "Standard rate limit".

Definition limited_tools : list string :=
  ["agent_heartbeat"; "agent_list"; "agent_status";
   "workflow_create"; "workflow_execute"; "workflow_list"; "workflow_get";
   "workflow_execution_list"; "workflow_execution_get"; "workflow_cancel";
   "task_create"; "task_assign"; "task_complete"; "task_list"; "task_get"; "task_get_batch";
   "context_update"; "context_append"; "context_get"; "context_list";
   "template_list"; "template_get"; "template_instantiate"].

Definition new_bucket (config : RateLimitInfo) (now : Z) : TokenBucket :=
  MkBucket (BurstSize config) (BurstSize config) (RequestsPerMinute config) now.
Definition add_tool (now : Z) (rl : RateLimiter) (tool : string) : RateLimiter :=
  let config := GetRateLimitForTool tool in
  MkLimiter (<[tool := new_bucket config now]> (buckets rl)) (<[tool := config]> (configs rl)).
(** [initializeConfigs]. *)
Definition NewRateLimiter (now : Z) : RateLimiter := foldl (add_tool now) (MkLimiter ∅ ∅) limited_tools.

(** [elapsed.Minutes()]. *)
Definition Minutes (d : Z) : float64 :=
  f64_add (f64_of_Z (Z.quot d minute)) (f64_div (f64_of_Z (Z.rem d minute)) (f64_of_Z minute)).

Definition refillBucket (now : Z) (bucket : TokenBucket) : TokenBucket :=
  let elapsed := time_sub now (lastRefill bucket) in
  let tokensToAdd := f64_to_int (f64_mul (Minutes elapsed) (f64_of_Z (refillRate bucket))) in
  if 0 <? tokensToAdd then
    MkBucket (Z.min (i64 (tokens bucket + tokensToAdd)) (maxTokens bucket)) (maxTokens bucket) (refillRate bucket) now
  else bucket.

Definition take_token (b : TokenBucket) : TokenBucket * bool :=
  if 0 <? tokens b then (MkBucket (tokens b - 1) (maxTokens b) (refillRate b) (lastRefill b), true) else (b, false).

(** The rate of a tool is never zero, so the division does not panic. *)
Definition CheckAndConsume (r : readings) (toolName : string) (rl : RateLimiter) : RateLimiter * (bool * RateLimitStatus) :=
  let rl := match buckets rl !! toolName with Some _ => rl | None => add_tool (at_bucket r) rl toolName end in
  let bucket := default (new_bucket (GetRateLimitForTool toolName) (at_bucket r)) (buckets rl !! toolName) in
  let '(bucket, allowed) := take_token (refillBucket (at_refill r) bucket) in
  let resetTime := at_reset r + Z.quot minute (refillRate bucket) in
  (MkLimiter (<[toolName := bucket]> (buckets rl)) (configs rl),
   (allowed, MkLimitStatus (tokens bucket) resetTime (maxTokens bucket))).

(** One tick of the goroutine; every bucket is refilled on its own. *)
Definition refillBuckets (now : Z) (rl : RateLimiter) : RateLimiter :=
  MkLimiter (refillBucket now <$> buckets rl) (configs rl).

(** ** Answers kept for repeated requests *)

Notation IdempotencyStore := (gmap string IdempotencyEntry) (only parsing).
Definition store_Get (now : Z) (key : string) (s : IdempotencyStore) : option StandardResponse :=
  match s !! key with
  | Some entry => if time_after now (ExpiresAt entry) then None else Some (Response entry)
  | None => None
  end.
Definition store_Set (now : Z) (key : string) (response : StandardResponse) (ttl : Z) (s : IdempotencyStore) : IdempotencyStore :=
  <[key := MkEntry key response now (now + ttl)]> s.
(** One tick of the goroutine. *)
Definition cleanupExpired (now : Z) (s : IdempotencyStore) : IdempotencyStore :=
  filter (λ kv, time_after now (ExpiresAt (snd kv)) = false) s.

Definition CheckIdempotency (now : Z) (key : string) (s : IdempotencyStore) : option StandardResponse :=
  if String.eqb key "" then None else store_Get now key s.
Definition StoreIdempotentResponse (now : Z) (key : string) (response : StandardResponse) (s : IdempotencyStore) : IdempotencyStore :=
  if String.eqb key "" then s else store_Set now key response (5 * minute) s.

(** [GlobalRateLimiter] and [GlobalIdempotencyStore]. *)
Record globals := MkGlobals {
  GlobalRateLimiter : RateLimiter;
  GlobalIdempotencyStore : IdempotencyStore;
}.
Definition set_limiter (rl : RateLimiter) (g : globals) : globals := MkGlobals rl (GlobalIdempotencyStore g).
Definition set_answers (s : IdempotencyStore) (g : globals) : globals := MkGlobals (GlobalRateLimiter g) s.

(** ** Responses *)

Record ResponseBuilder := MkBuilder {
  startTime : Z;
  requestID : string;
  idempotencyKey : string;
}.
Definition NewResponseBuilder (now : Z) (id : string) : ResponseBuilder := MkBuilder now id "".
Definition WithIdempotencyKey (key : string) (rb : ResponseBuilder) : ResponseBuilder :=
  MkBuilder (startTime rb) (requestID rb) key.

Definition no_metadata : ResponseMetadata := MkMetadata "" 0 "" "" None.
Definition limit_metadata (key : string) (status : RateLimitStatus) : ResponseMetadata := MkMetadata "" 0 "" key (Some status).
(** The builder's own values go over those of the metadata, except for the key. *)
Definition completed (now : Z) (rb : ResponseBuilder) (m : ResponseMetadata) : ResponseMetadata :=
  MkMetadata (requestID rb) (startTime rb) (itoa (Z.quot (time_sub now (startTime rb)) millisecond) +:+ "ms")
    (if String.eqb (IdempotencyKey m) "" then idempotencyKey rb else IdempotencyKey m) (meta_RateLimit m).
Definition SuccessWithMetadata (now : Z) (rb : ResponseBuilder) (data : gmap string any) (m : ResponseMetadata) (nextSteps : list string)
    : StandardResponse := MkResponse true data "" (completed now rb m) nextSteps.
Definition ErrorWithMetadata (now : Z) (rb : ResponseBuilder) (err : string) (m : ResponseMetadata) : StandardResponse :=
  MkResponse false ∅ err (completed now rb m) [].
Definition Success_ (now : Z) (rb : ResponseBuilder) (data : gmap string any) (nextSteps : list string) : StandardResponse :=
  SuccessWithMetadata now rb data no_metadata nextSteps.
Definition Error (now : Z) (rb : ResponseBuilder) (err : string) : StandardResponse := ErrorWithMetadata now rb err no_metadata.

(** The refusal of a limited tool. *)
Definition limit_exceeded (r : readings) (rb : ResponseBuilder) (status : RateLimitStatus) : StandardResponse :=
  ErrorWithMetadata (at_answer r) rb
    ("rate limit exceeded, please retry after " +:+ Duration_String (time_sub (Reset status) (at_retry r)))
    (limit_metadata "" status).

(** How a handler that knows keys ends: its answer is kept when the request has a key. *)
Definition answer_and_keep (r : readings) (rb : ResponseBuilder) (key : string) (status : RateLimitStatus)
    (result_ : gmap string any) (nextSteps : list string) (g : globals) : globals * StandardResponse :=
  let response := SuccessWithMetadata (at_answer r) rb result_ (limit_metadata key status) nextSteps in
  (set_answers (StoreIdempotentResponse (at_store r) key response (GlobalIdempotencyStore g)) g, response).

Definition text (s : string) : any := AString s.
Definition int (z : Z) : any := AInt z.
Definition object (l : list (string * any)) : gmap string any := list_to_map l.

(** [count] is the value of the context's entry, if it is an [int]. *)
Definition some_found (context : gmap string any) : bool :=
  match context !! "count" with Some (AInt count) => 0 <? count | _ => false end.
Definition SuggestNextTools (currentTool : string) (context : gmap string any) : list string :=
  let named := String.eqb currentTool in
  if named "workflow_create" then ["workflow_execute"; "workflow_get"]
  else if named "workflow_execute" then ["workflow_execution_get"; "workflow_execution_list"]
  else if named "task_create" then ["task_assign"; "task_get"; "task_list"]
  else if named "task_assign" then ["task_complete"; "task_get"; "agent_status"]
  else if named "agent_heartbeat" then ["agent_status"; "agent_list"]
  else if named "context_update" then ["context_get"; "context_append"]
  else if named "context_append" then ["context_get"; "context_list"]
  else if named "workflow_list" then if some_found context then ["workflow_get"; "workflow_execute"] else ["workflow_create"]
  else if named "task_list" then if some_found context then ["task_get"; "task_assign"; "task_get_batch"] else ["task_create"]
  else if named "agent_list" then if some_found context then ["agent_status"; "task_assign"] else ["agent_heartbeat"]
  else if named "workflow_execution_list" then ["workflow_execution_get"; "workflow_cancel"]
  else if named "task_get_batch" then ["task_assign"; "task_complete"]
  else if named "task_complete" then ["task_list"; "task_create"]
  else if named "workflow_cancel" then ["workflow_execution_get"; "workflow_list"]
  else [].

Definition GetCapabilityLimits (toolName : string) : gmap string any :=
  let named := String.eqb toolName in
  let limits l d := object (l ++ [("description", text d)])%list in
  if named "task_get_batch" then limits [("max_tasks", int 50)] "Maximum 50 tasks per batch request"
  else if named "agent_list" || named "workflow_list" || named "task_list" || named "context_list" then
    limits [("max_limit", int 100); ("default_limit", int 50); ("max_offset", int 10000)] "Pagination limits for list operations"
  else if named "agent_heartbeat" then limits [("timeout_minutes", int 5)] "Agent marked offline after 5 minutes without heartbeat"
  else if named "workflow_execute" then limits [("simulation_delay_ms", int 100)] "Simulated execution completes after 100ms"
  else if named "context_append" then limits [("max_array_size", int 1000)] "Maximum array size for appended values"
  else if named "workflow_create" then limits [("max_steps", int 100)] "Maximum 100 steps per workflow"
  else ∅.

(** ** The tools and their schemas *)

(** The handlers of the five providers. *)
Inductive handler :=
| AgentList | AgentHeartbeat | AgentGetStatus
| WorkflowList | WorkflowGet | ExecutionList | ExecutionGet | WorkflowCreate | WorkflowExecute | WorkflowCancel
| TaskList | TaskGet | TaskGetBatch | TaskCreate | TaskAssign | TaskComplete
| ContextCreate | ContextList | ContextGet | ContextUpdate | ContextAppend | ContextSearch | ContextCompact | ContextDelete
| TemplateList | TemplateGet | TemplateInstantiate.

(** A property of an object's schema, and the schema. *)
Definition prop_with (name type : string) (description : list (string * any)) : string * any :=
  (name, AMap (object (("type", text type) :: description))).
Definition prop (name type description : string) : string * any := prop_with name type [("description", text description)].
Definition choice (name description : string) (values : list string) : string * any :=
  prop_with name "string" [("description", text description); ("enum", AStrings values)].
Definition schema (props : list (string * any)) (required : list string) : gmap string any :=
  object ([("type", text "object"); ("properties", AMap (object props))]
          ++ (match required with [] => [] | _ => [("required", AStrings required)] end))%list.
Definition limit_prop (what : string) : string * any :=
  prop_with "limit" "integer" [("description", text ("Maximum number of " +:+ what +:+ " to return (default: 50, max: 100)"));
    ("minimum", int 1); ("maximum", int 100)].
Definition offset_prop (what : string) : string * any :=
  prop_with "offset" "integer" [("description", text ("Number of " +:+ what +:+ " to skip for pagination (default: 0)")); ("minimum", int 0)].
Definition sort_props (keys : list string) (order : string) : list (string * any) :=
  [choice "sort_by" "Field to sort by" keys; choice "sort_order" ("Sort order (default: " +:+ order +:+ ")") ["asc"; "desc"]].
Definition list_tags : list string := ["read"; "list"; "filter"; "sort"; "paginate"].
Definition tool (name description : string) (h : handler) (category : string) (tags : list string) (input : gmap string any)
    : ToolDefinition handler := MkTool name description input (Some h) category tags [] [] [] [] [] None.

(** ** Lists with filters, an order and pages

    The handlers that list have the same parameters but for the filters, which a handler
    that does not have them leaves empty. *)

Record ListParams := MkList {
  lp_Status : string;
  lp_Priority : string;
  lp_AgentID : string;
  lp_WorkflowID : string;
  lp_Limit : Z;
  lp_Offset : Z;
  SortBy : string;
  SortOrder : string;
}.
Definition no_params : ListParams := MkList "" "" "" "" 0 0 "" "".
Definition page_fields : fields ListParams := [
  ("limit", at_field lp_Limit (λ x p, MkList (lp_Status p) (lp_Priority p) (lp_AgentID p) (lp_WorkflowID p) x (lp_Offset p) (SortBy p) (SortOrder p)) into_int);
  ("offset", at_field lp_Offset (λ x p, MkList (lp_Status p) (lp_Priority p) (lp_AgentID p) (lp_WorkflowID p) (lp_Limit p) x (SortBy p) (SortOrder p)) into_int);
  ("sort_by", at_field SortBy (λ x p, MkList (lp_Status p) (lp_Priority p) (lp_AgentID p) (lp_WorkflowID p) (lp_Limit p) (lp_Offset p) x (SortOrder p)) into_string);
  ("sort_order", at_field SortOrder (λ x p, MkList (lp_Status p) (lp_Priority p) (lp_AgentID p) (lp_WorkflowID p) (lp_Limit p) (lp_Offset p) (SortBy p) x) into_string)].
Definition status_field : string * (string * string -> json -> ListParams -> decoded ListParams) :=
  ("status", at_field lp_Status (λ x p, MkList x (lp_Priority p) (lp_AgentID p) (lp_WorkflowID p) (lp_Limit p) (lp_Offset p) (SortBy p) (SortOrder p)) into_string).

(** The error of [json.Unmarshal] as the handlers wrap it. *)
Definition params_of {P} (fs : fields P) (zero : P) (args : option json) : result string P :=
  match Unmarshal (into_struct "" "struct {...}" fs) args zero with
  | Ok p => Ok p
  | Err e => Err ("invalid parameters: " +:+ unmarshal_error_text e)
  end.

Definition with_list_defaults (order : string) (p : ListParams) : ListParams :=
  let limit := if lp_Limit p <=? 0 then 50 else if 100 <? lp_Limit p then 100 else lp_Limit p in
  let offset := if lp_Offset p <? 0 then 0 else lp_Offset p in
  MkList (lp_Status p) (lp_Priority p) (lp_AgentID p) (lp_WorkflowID p) limit offset (SortBy p)
    (if String.eqb (SortOrder p) "" then order else SortOrder p).

(** An empty filter lets everything pass. *)
Definition passes (filter_ value : string) : bool := String.eqb filter_ "" || String.eqb value filter_.

(** The text and the number at a key of a row: every row has the keys that rows are sorted
    by. *)
Definition text_at (k : string) (row : gmap string any) : string := default "" (row !! k ≫= as_string).
Definition int_at (k : string) (row : gmap string any) : Z := default 0 (row !! k ≫= as_int).

(** [less] of a key that can be sorted by; for another key the comparison is false both
    ways, whatever the order. *)
Definition in_order_of (p : ListParams) (less : option (gmap string any -> gmap string any -> bool)) (a b : gmap string any) : bool :=
  match less with
  | None => false
  | Some less => if String.eqb (SortOrder p) "desc" then negb (less a b) else less a b
  end.
Definition sorted_rows `{SliceSort} (p : ListParams) (less : option (gmap string any -> gmap string any -> bool))
    (rows : list (gmap string any)) : list (gmap string any) :=
  if String.eqb (SortBy p) "" then rows else slice_sort (in_order_of p less) rows.

(** [rows[start:end]]: the sum of offset and limit is an [int]; a slice whose end is before
    its start panics. *)
Definition page_of {A} (offset limit : Z) (rows : list A) : option (list A) :=
  let totalCount := Z.of_nat (length rows) in
  let start := Z.min offset totalCount in
  let end_ := Z.min (i64 (offset + limit)) totalCount in
  if end_ <? start then None else Some (take (Z.to_nat (end_ - start)) (drop (Z.to_nat start) rows)).

Definition listing {E} (p : ListParams) (name : string) (rows : list (gmap string any)) (extra : list (string * any)) : outcome E reply :=
  match page_of (lp_Offset p) (lp_Limit p) rows with
  | None => Panics
  | Some page =>
      Returns (Page name page (object ([("count", int (Z.of_nat (length page))); ("total_count", int (Z.of_nat (length rows)));
        ("offset", int (lp_Offset p)); ("limit", int (lp_Limit p))] ++ extra)%list))
  end.

#[global] Arguments CheckAndConsume : simpl never.
#[global] Arguments params_of : simpl never.

(** ** What holds of pages *)

Lemma list_defaults_bounds order p :
  let p := with_list_defaults order p in 0 <= lp_Offset p /\ 1 <= lp_Limit p <= 100.
Proof. simpl. repeat case_match; bool_hyps; lia. Qed.

Lemma page_of_ok {A} offset limit (rows : list A) :
  0 <= offset -> 0 <= limit -> offset + limit <= max_int64 ->
  page_of offset limit rows = Some (take (Z.to_nat limit) (drop (Z.to_nat offset) rows)).
Proof.
  intros Ho Hl Hm. unfold page_of. rewrite (i64_small (offset + limit)) by (unfold_ints; lia).
  set (n := Z.of_nat (length rows)). assert (0 <= n) by lia.
  destruct (Z.ltb_spec (Z.min (offset + limit) n) (Z.min offset n)); [lia|]. f_equal.
  destruct (Z.le_gt_cases n offset) as [Hn|Hn].
  - rewrite !(drop_ge rows) by lia. by rewrite !take_nil.
  - rewrite (Z.min_l offset) by lia.
    destruct (Z.le_gt_cases n (offset + limit)) as [Hn'|Hn'].
    + rewrite Z.min_r by lia. rewrite !take_ge; [done|rewrite length_drop; lia..].
    + rewrite Z.min_l by lia. do 2 f_equal. lia.
Qed.

(** An offset so large that the sum is negative. *)
Lemma page_of_huge {A} offset limit (rows : list A) :
  in_i64 offset -> in_i64 limit -> 0 <= limit -> max_int64 < offset + limit -> page_of offset limit rows = None.
Proof.
  intros Ho Hl Hl' Hm. unfold page_of.
  assert (i64 (offset + limit) = offset + limit - 2 ^ 64) as ->.
  { unfold i64. unfold_ints. rewrite (Z.mod_eq _ 18446744073709551616) by lia.
    replace ((offset + limit + 9223372036854775808) / 18446744073709551616) with 1; [lia|].
    apply Z.div_unique with (offset + limit + 9223372036854775808 - 18446744073709551616); lia. }
  unfold_ints. destruct (Z.ltb_spec (Z.min (offset + limit - 18446744073709551616) (Z.of_nat (length rows))) (Z.min offset (Z.of_nat (length rows))));
    [done|lia].
Qed.

(** The pages of a list, one after the other, are the list. *)
Fixpoint pages {A} (limit : Z) (n : nat) (rows : list A) : list A :=
  match n with
  | O => []
  | S n => pages limit n rows ++ default [] (page_of (Z.of_nat n * limit) limit rows)
  end.
Lemma pages_cover {A} limit n (rows : list A) :
  0 < limit -> Z.of_nat n * limit <= max_int64 -> Z.of_nat (length rows) <= Z.of_nat n * limit -> pages limit n rows = rows.
Proof.
  intros Hl Hm Hn. enough (forall k, (k <= n)%nat -> pages limit k rows = take (Z.to_nat (Z.of_nat k * limit)) rows) as H.
  { rewrite H by done. apply take_ge. lia. }
  induction k as [|k IH]; intros Hk; simpl; [by rewrite take_0|].
  rewrite IH by lia. rewrite page_of_ok by nia. simpl.
  set (m := Z.to_nat (Z.of_nat k * limit)). set (l := Z.to_nat limit).
  replace (Z.to_nat (Z.of_nat (S k) * limit)) with (m + l)%nat by (subst m l; nia).
  by rewrite <-take_take_drop.
Qed.

Lemma list_filter_perm {A} (f : A -> bool) l l' : l ≡ₚ l' -> List.filter f l ≡ₚ List.filter f l'.
Proof.
  induction 1 as [|x l l' _ IH|x y l|l1 l2 l3 _ IH1 _ IH2]; simpl; [done|case_match; by rewrite ?IH| |by etrans].
  repeat case_match; solve_Permutation.
Qed.

(** Ordering by a text or a number of each element. *)
Lemma orders_by {A B} (f : A -> B) (lt : B -> B -> bool) l :
  (forall x, lt x x = false) -> (forall x y z, lt x y = true -> lt y z = true -> lt x z = true) ->
  (forall x y z, lt x y = true -> lt x z = true \/ lt z y = true) ->
  orders (λ a b, lt (f a) (f b)) l.
Proof. intros Hi Ht Hs. split; eauto. Qed.
Lemma string_ltb_split x y z : String.ltb x y = true -> String.ltb x z = true \/ String.ltb z y = true.
Proof.
  intros H. destruct (String.ltb x z) eqn:Hxz; [by left|]. right.
  destruct (String.ltb z x) eqn:Hzx; [by eapply string_ltb_trans|].
  by rewrite <-(string_ltb_connected _ _ Hxz Hzx).
Qed.
Lemma orders_by_text {A} (f : A -> string) l : orders (λ a b, String.ltb (f a) (f b)) l.
Proof. apply orders_by; [apply string_ltb_irrefl|apply string_ltb_trans|apply string_ltb_split]. Qed.
Lemma orders_by_int {A} (f : A -> Z) l : orders (λ a b, f a <? f b) l.
Proof. apply orders_by; intros; bool_hyps; lia. Qed.

(** Turning [less] around makes an element come before itself: what [sort.Slice] asks for
    holds of no list but the empty one. *)
Lemma descending_no_order p less row rows :
  SortOrder p = "desc" -> (forall a, less a a = false) -> ¬ orders (in_order_of p (Some less)) (row :: rows).
Proof.
  intros Hp Hl H. pose proof (less_irrefl _ _ H row ltac:(left)) as Hr. unfold in_order_of in Hr.
  by rewrite Hp, Hl in Hr.
Qed.

(** ** What holds of kept answers *)

(** What any tool may do to what the tools share, at a reading of the clock: change the
    limits, keep an answer under a key for which it has found none, remove old ones. *)
Inductive shared_step : Z -> globals -> globals -> Prop :=
| step_limits now rl g : shared_step now g (set_limiter rl g)
| step_keeps looked stored key response g :
    CheckIdempotency looked key (GlobalIdempotencyStore g) = None ->
    shared_step looked g (set_answers (StoreIdempotentResponse stored key response (GlobalIdempotencyStore g)) g)
| step_cleans now g : shared_step now g (set_answers (cleanupExpired now (GlobalIdempotencyStore g)) g).

Definition kept (key : string) (response : StandardResponse) (until : Z) (g : globals) : Prop :=
  exists e, GlobalIdempotencyStore g !! key = Some e /\ Response e = response /\ ExpiresAt e = until.

Lemma kept_found key response until g now :
  key <> "" -> kept key response until g -> now <= until -> CheckIdempotency now key (GlobalIdempotencyStore g) = Some response.
Proof.
  intros Hk (e & He & <- & <-) Ht. unfold CheckIdempotency, store_Get. rewrite He.
  apply String.eqb_neq in Hk as ->. unfold time_after. by destruct (Z.ltb_spec (ExpiresAt e) now); [lia|].
Qed.
Lemma stored_kept now key response g :
  key <> "" -> kept key response (now + 5 * minute) (set_answers (StoreIdempotentResponse now key response (GlobalIdempotencyStore g)) g).
Proof.
  intros Hk. unfold StoreIdempotentResponse, store_Set, kept. apply String.eqb_neq in Hk as ->.
  exists (MkEntry key response now (now + 5 * minute)). split; [apply lookup_insert_eq|done].
Qed.
Lemma kept_step key response until t g g' :
  key <> "" -> kept key response until g -> t <= until -> shared_step t g g' -> kept key response until g'.
Proof.
  intros Hk Hg Ht Hs. revert Hg Ht. destruct Hs as [now rl g0|looked stored key' response' g0 Hn|now g0]; intros Hg Ht; [done| |].
  - unfold StoreIdempotentResponse. destruct (String.eqb_spec key' "") as [|Hk']; [by destruct g0|].
    destruct (decide (key' = key)) as [->|Hne].
    { by rewrite (kept_found key response until) in Hn. }
    destruct Hg as (e & He & Hr). exists e. split; [|done]. by apply lookup_insert_Some; right.
  - destruct Hg as (e & He & Hr & Hu). exists e. simpl. split; [|done].
    apply map_lookup_filter_Some. split; [done|]. unfold time_after. simpl. subst until. by apply Z.ltb_ge.
Qed.

(** ** Examples *)

(** Times as decimal numbers. *)
Definition decimal_times : TimeText := itoa.
Definition fresh_globals : globals := MkGlobals (NewRateLimiter 0) ∅.

(** One request every 1.1 seconds, where a hundred a minute are allowed: each refill drops
    what is left of a token, so tokens come at the rate of one a request; asking every 0.7
    seconds gains one token each, and every 0.5 seconds one every second time. *)
Definition tokens_after (bursts : nat) (every : Z) : Z :=
  tokens (foldl (λ b i, refillBucket (Z.of_nat i * every) b) (MkBucket 0 1000 100 0) (seq 1 bursts)).
Example refill_drops_fractions :
  tokens_after 60 (1100 * millisecond) = 60 /\ Z.quot (100 * (66 * second)) minute = 110 /\
  tokens_after 60 (500 * millisecond) = 30 /\ Z.quot (100 * (30 * second)) minute = 50.
Proof. vm_compute. done. Qed.

(** A tool of every tenant: twenty requests at once and no more. *)
Fixpoint checks (n : nat) (t : Z) (tool_ : string) (rl : RateLimiter) : list bool :=
  match n with
  | O => []
  | S n => let '(rl, (allowed, _)) := CheckAndConsume (all_at t) tool_ rl in allowed :: checks n t tool_ rl
  end.
Example burst_example : checks 22 0 "task_create" (NewRateLimiter 0) = (repeat true 20 ++ [false; false])%list.
Proof. vm_compute. done. Qed.

(** ** What the server documents of its tools

    The tables of [enhanced_tools.go]: for some tools, the tools that follow, rates, limits
    and examples.  Maps within an example stand as values of any kind. *)

Record Example_ := MkExample {
  example_Description : string;
  example_Input : gmap string any;
}.
Record ToolMetadata := MkToolMetadata {
  NextTools : list string;
  RateLimit : RateLimitInfo;
  Limits : gmap string any;
  Examples : list Example_;
  AdvancedParams : list string;
}.
(** The name and the description of the tool's definition; its other fields are not set. *)
Record EnhancedToolDefinition := MkEnhanced {
  enhanced_Name : string;
  enhanced_Description : string;
  enhanced_Metadata : ToolMetadata;
}.

Definition GetEnhancedAgentTools : list EnhancedToolDefinition := [
  MkEnhanced "agent_heartbeat" "Send agent heartbeat to maintain connection status. Agents are marked offline after 5 minutes without heartbeat."
    (MkToolMetadata ["agent_status"; "agent_list"; "task_assign"]
       (MkLimitInfo 600 20 "High frequency allowed for maintaining agent liveness")
       (object [("timeout_minutes", int 5); ("max_agents_per_tenant", int 1000)])
       [MkExample "Send online heartbeat for agent" (object [("agent_id", text "agent-123"); ("status", text "online")])] []);
  MkEnhanced "agent_list" "List all registered agents with pagination and filtering. Returns online/offline status based on heartbeat recency."
    (MkToolMetadata ["agent_status"; "task_assign"; "agent_heartbeat"] (MkLimitInfo 100 10 "Standard rate limit for list operations")
       (object [("max_limit", int 100); ("default_limit", int 50); ("max_offset", int 10000)])
       [MkExample "List online agents with pagination" (object [("status", text "online"); ("limit", int 10); ("offset", int 0)])]
       ["sort_by"; "sort_order"])].

Definition GetEnhancedWorkflowTools : list EnhancedToolDefinition := [
  MkEnhanced "workflow_create" "Create a new workflow definition. Maximum 100 steps per workflow."
    (MkToolMetadata ["workflow_execute"; "workflow_get"; "workflow_list"] (MkLimitInfo 60 10 "Moderate limit for workflow creation")
       (object [("max_steps", int 100); ("max_name_length", int 255); ("max_description", int 1000)])
       [MkExample "Create deployment workflow"
          (object [("name", text "deploy-service"); ("description", text "Deploy microservice to production");
             ("steps", AList [AMap (object [("name", text "build"); ("type", text "action")]);
                              AMap (object [("name", text "test"); ("type", text "action"); ("depends_on", AStrings ["build"])])])])] []);
  MkEnhanced "workflow_execute" "Execute a workflow. Currently simulates execution with 100ms delay."
    (MkToolMetadata ["workflow_execution_get"; "workflow_execution_list"; "workflow_cancel"]
       (MkLimitInfo 60 10 "Controlled rate to prevent workflow flooding")
       (object [("simulation_delay_ms", int 100); ("max_concurrent", int 10)])
       [MkExample "Execute workflow with input parameters"
          (object [("workflow_id", text "workflow-123");
             ("input", AMap (object [("environment", text "production"); ("version", text "1.2.3")]))])] [])].

Definition GetEnhancedTaskTools : list EnhancedToolDefinition := [
  MkEnhanced "task_create" "Create a new task with specified type and priority."
    (MkToolMetadata ["task_assign"; "task_get"; "task_list"] (MkLimitInfo 120 20 "Standard limit for task creation")
       (object [("max_title_length", int 255); ("max_description_length", int 2000)])
       [MkExample "Create high-priority deployment task"
          (object [("title", text "Deploy v2.0 to production"); ("type", text "deployment"); ("priority", text "high");
             ("description", text "Deploy new version with database migrations")])] []);
  MkEnhanced "task_get_batch" "Get details of multiple tasks in a single operation. Maximum 50 tasks per request."
    (MkToolMetadata ["task_assign"; "task_complete"; "task_list"] (MkLimitInfo 30 5 "Lower limit for batch operations to prevent overload")
       (object [("max_tasks_per_request", int 50)])
       [MkExample "Get multiple tasks by ID" (object [("task_ids", AStrings ["task-1"; "task-2"; "task-3"])])] []);
  MkEnhanced "task_complete" "Mark a task as completed or failed with optional result data."
    (MkToolMetadata ["task_list"; "task_create"; "workflow_execute"] (MkLimitInfo 100 10 "Standard rate limit")
       (object [("max_result_size_kb", int 100)])
       [MkExample "Complete task with success result"
          (object [("task_id", text "task-123"); ("status", text "completed");
             ("result", AMap (object [("deployment_url", text "https://app.example.com"); ("version", text "2.0.1")]))])] [])].

Definition GetEnhancedContextTools : list EnhancedToolDefinition := [
  MkEnhanced "context_update" "Update session context with merge options. Use 'merge: true' for partial updates."
    (MkToolMetadata ["context_get"; "context_append"; "workflow_execute"] (MkLimitInfo 300 50 "High limit for context management")
       (object [("max_context_size_kb", int 1000); ("max_key_length", int 100); ("max_depth", int 10)])
       [MkExample "Update context with merge"
          (object [("session_id", text "session-123");
             ("context", AMap (object [("user_id", text "user-456"); ("preferences", AMap (object [("theme", text "dark")]))]));
             ("merge", ABool true)])] ["merge"]);
  MkEnhanced "context_append" "Append values to context arrays or create new entries. Handles type coercion automatically."
    (MkToolMetadata ["context_get"; "context_list"] (MkLimitInfo 300 50 "High limit for context management")
       (object [("max_array_size", int 1000); ("max_value_size_kb", int 100)])
       [MkExample "Append to existing array"
          (object [("session_id", text "session-123"); ("key", text "events");
             ("value", AMap (object [("type", text "click"); ("timestamp", text "2024-01-20T10:00:00Z")]))])] [])].

Definition enhanced_tools : list EnhancedToolDefinition :=
  (GetEnhancedAgentTools ++ GetEnhancedWorkflowTools ++ GetEnhancedTaskTools ++ GetEnhancedContextTools)%list.

(** The tools whose documented rate is the one that [CheckAndConsume] uses. *)
Definition rate_as_documented (e : EnhancedToolDefinition) : bool :=
  let doc := RateLimit (enhanced_Metadata e) in
  let used := GetRateLimitForTool (enhanced_Name e) in
  (RequestsPerMinute doc =? RequestsPerMinute used) && (BurstSize doc =? BurstSize used).
Example undocumented_rates :
  enhanced_Name <$> List.filter (λ e, negb (rate_as_documented e)) enhanced_tools = ["workflow_create"; "context_append"].
Proof. vm_compute. done. Qed.
(** What is suggested after a tool, here and in [SuggestNextTools]. *)
Example other_suggestions :
  enhanced_Name <$> List.filter (λ e, negb (bool_decide (NextTools (enhanced_Metadata e) = SuggestNextTools (enhanced_Name e) ∅))) enhanced_tools
  = ["agent_heartbeat"; "agent_list"; "workflow_create"; "workflow_execute"; "task_get_batch"; "task_complete"; "context_update"].
Proof. vm_compute. done. Qed.
