(* ===== verification/EdgeTasks.v ===== *)
(** * EdgeTasks: the edge server's task tools

    The file [apps/edge-mcp/internal/tools/builtin/task_provider.go].  Every handler holds
    the mutex while it reads or changes the tasks, and touches them once, so a handler is
    one step but for [handleCreate], whose look at the kept answers, insertion and keeping
    of the answer are three: the steps are functions here, which [handleCreate] composes.
    The order in which Go walks the table of tasks is an argument. *)

From stdpp Require Import base decidable gmap strings list sorting.
From Stdlib Require Import ZArith Lia.
From S2P Require Import Prelude GoFloat GoStrings GoAny GoSort Json EdgeTools EdgeBuiltin.

Local Open Scope string_scope.
Local Open Scope Z_scope.

Record Task := MkTask {
  ID : string;
  Title : string;
  task_Description : string;
  task_Type : string;
  Priority : string;
  Status : string;
  AgentID : string;
  AgentType : string;
  Result : gmap string any;
  CreatedAt : Z;
  AssignedAt : option Z;
  CompletedAt : option Z;
}.
Notation TaskProvider := (gmap string Task) (only parsing).
Definition NewTaskProvider : TaskProvider := ∅.

Definition GetDefinitions : list (ToolDefinition handler) := [
  tool "task_list" "List all tasks with optional filters" TaskList "task_management" list_tags
    (schema ([choice "status" "Filter by task status" ["pending"; "assigned"; "in_progress"; "completed"; "failed"];
              choice "priority" "Filter by priority" ["low"; "medium"; "high"; "critical"];
              prop "agent_id" "string" "Filter by assigned agent"; limit_prop "tasks"; offset_prop "tasks"]
             ++ sort_props ["id"; "title"; "priority"; "status"; "created_at"] "desc")%list []);
  tool "task_get" "Get details of a specific task" TaskGet "task_management" ["read"]
    (schema [prop "task_id" "string" "ID of the task to retrieve"] ["task_id"]);
  tool "task_get_batch" "Get details of multiple tasks in a single operation" TaskGetBatch "task_management" ["read"; "batch"]
    (schema [prop_with "task_ids" "array" [("description", text "IDs of tasks to retrieve (max 50)");
               ("items", AMap (object [("type", text "string")])); ("maxItems", int 50)]] ["task_ids"]);
  tool "task_create" "Create a new task" TaskCreate "task_management" ["write"; "validation"; "idempotent"]
    (schema [prop "title" "string" "Title of the task"; prop "description" "string" "Detailed description of the task";
             choice "type" "Type of task" ["code_review"; "testing"; "deployment"; "analysis"; "general"];
             choice "priority" "Priority level" ["low"; "medium"; "high"; "critical"];
             prop "agent_type" "string" "Preferred agent type for this task";
             prop "idempotency_key" "string" "Unique key for idempotent requests (prevents duplicate task creation)"] ["title"]);
  tool "task_assign" "Assign a task to an agent" TaskAssign "" []
    (schema [prop "task_id" "string" "ID of the task to assign"; prop "agent_id" "string" "ID of the agent to assign to"]
            ["task_id"; "agent_id"]);
  tool "task_complete" "Mark a task as complete" TaskComplete "" []
    (schema [prop "task_id" "string" "ID of the task to complete"; prop "result" "object" "Result data from task completion";
             choice "status" "Final status (completed or failed)" ["completed"; "failed"]] ["task_id"])].

Section tasks.
Context `{TT : TimeText}.

(** ** Creating *)

Record CreateParams := MkCreate {
  p_Title : string;
  p_Description : string;
  p_Type : string;
  p_Priority : string;
  p_AgentType : string;
  p_Key : string;
}.
Definition create_fields : fields CreateParams := [
  ("title", at_field p_Title (λ x p, MkCreate x (p_Description p) (p_Type p) (p_Priority p) (p_AgentType p) (p_Key p)) into_string);
  ("description", at_field p_Description (λ x p, MkCreate (p_Title p) x (p_Type p) (p_Priority p) (p_AgentType p) (p_Key p)) into_string);
  ("type", at_field p_Type (λ x p, MkCreate (p_Title p) (p_Description p) x (p_Priority p) (p_AgentType p) (p_Key p)) into_string);
  ("priority", at_field p_Priority (λ x p, MkCreate (p_Title p) (p_Description p) (p_Type p) x (p_AgentType p) (p_Key p)) into_string);
  ("agent_type", at_field p_AgentType (λ x p, MkCreate (p_Title p) (p_Description p) (p_Type p) (p_Priority p) x (p_Key p)) into_string);
  ("idempotency_key", at_field p_Key (λ x p, MkCreate (p_Title p) (p_Description p) (p_Type p) (p_Priority p) (p_AgentType p) x) into_string)].
Definition create_params : option json -> result string CreateParams := params_of create_fields (MkCreate "" "" "" "" "" "").

Definition or_default (value default_ : string) : string := if String.eqb value "" then default_ else value.
Definition new_task (id : string) (now : Z) (p : CreateParams) : Task :=
  MkTask id (p_Title p) (p_Description p) (or_default (p_Type p) "general") (or_default (p_Priority p) "medium") "pending"
    "" (p_AgentType p) ∅ now None None.
Definition created_data (task : Task) : gmap string any :=
  object [("id", text (ID task)); ("title", text (Title task)); ("type", text (task_Type task)); ("priority", text (Priority task));
    ("status", text (Status task)); ("created_at", text (FormatRFC3339 (CreatedAt task)));
    ("message", text ("Task created: " +:+ Title task))].

(** What comes before the insertion: the limit, the parameters and the kept answer.
    [inr] goes on. *)
Definition before_create (r : readings) (rb : ResponseBuilder) (args : option json) (g : globals)
    : globals * (StandardResponse + CreateParams * RateLimitStatus) :=
  let '(rl, (allowed, status)) := CheckAndConsume r "task_create" (GlobalRateLimiter g) in
  let g := set_limiter rl g in
  (g,
   if negb allowed then inl (limit_exceeded r rb status)
   else
     match create_params args with
     | Err e => inl (Error (at_answer r) rb e)
     | Ok p =>
         if String.eqb (p_Title p) "" then inl (Error (at_answer r) rb "title is required")
         else
           match CheckIdempotency (at_lookup r) (p_Key p) (GlobalIdempotencyStore g) with
           | Some cachedResponse => inl cachedResponse
           | None => inr (p, status)
           end
     end).
Definition handleCreate (r : readings) (rid id : string) (args : option json) (s : globals * TaskProvider)
    : (globals * TaskProvider) * StandardResponse :=
  let '(g, tasks) := s in
  let rb := NewResponseBuilder (at_start r) rid in
  let '(g, x) := before_create r rb args g in
  match x with
  | inl response => ((g, tasks), response)
  | inr (p, status) =>
      let task := new_task id (at_action r) p in
      let '(g, response) := answer_and_keep r rb (p_Key p) status (created_data task) ["task_assign"; "task_get"; "task_list"] g in
      ((g, <[id := task]> tasks), response)
  end.

(** ** Assigning and completing *)

Definition assign_fields : fields (string * string) := [
  ("task_id", at_field fst (λ x p, (x, snd p)) into_string); ("agent_id", at_field snd (λ x p, (fst p, x)) into_string)].
Definition assigned (agent : string) (now : Z) (task : Task) : Task :=
  MkTask (ID task) (Title task) (task_Description task) (task_Type task) (Priority task) "assigned" agent (AgentType task)
    (Result task) (CreatedAt task) (Some now) (CompletedAt task).
Definition handleAssign (now : Z) (args : option json) (tasks : TaskProvider) : TaskProvider * result string (gmap string any) :=
  match params_of assign_fields ("", "") args with
  | Err e => (tasks, Err e)
  | Ok (id, agent) =>
      if String.eqb id "" then (tasks, Err "task_id is required")
      else if String.eqb agent "" then (tasks, Err "agent_id is required")
      else
        match tasks !! id with
        | None => (tasks, Err ("task not found: " +:+ id))
        | Some task =>
            if negb (String.eqb (Status task) "pending") && negb (String.eqb (Status task) "assigned") then
              (tasks, Err ("cannot assign task in status: " +:+ Status task))
            else
              let task := assigned agent now task in
              (<[id := task]> tasks,
               Ok (object [("task_id", text (ID task)); ("agent_id", text (AgentID task)); ("status", text (Status task));
                 ("assigned_at", text (FormatRFC3339 now));
                 ("message", text ("Task '" +:+ Title task +:+ "' assigned to agent " +:+ agent))]))
        end
  end.

Record CompleteParams := MkComplete { c_TaskID : string; c_Result : gmap string any; c_Status : string }.
Definition complete_fields : fields CompleteParams := [
  ("task_id", at_field c_TaskID (λ x p, MkComplete x (c_Result p) (c_Status p)) into_string);
  ("result", at_field c_Result (λ x p, MkComplete (c_TaskID p) x (c_Status p)) any_map);
  ("status", at_field c_Status (λ x p, MkComplete (c_TaskID p) (c_Result p) x) into_string)].
Definition finished (task : Task) : bool := String.eqb (Status task) "completed" || String.eqb (Status task) "failed".
Definition finished_with (status : string) (result_ : gmap string any) (now : Z) (task : Task) : Task :=
  MkTask (ID task) (Title task) (task_Description task) (task_Type task) (Priority task) status (AgentID task) (AgentType task)
    result_ (CreatedAt task) (AssignedAt task) (Some now).
Definition handleComplete (now : Z) (args : option json) (tasks : TaskProvider) : TaskProvider * result string (gmap string any) :=
  match params_of complete_fields (MkComplete "" ∅ "") args with
  | Err e => (tasks, Err e)
  | Ok p =>
      let id := c_TaskID p in
      let status := or_default (c_Status p) "completed" in
      if String.eqb id "" then (tasks, Err "task_id is required")
      else if negb (String.eqb status "completed") && negb (String.eqb status "failed") then
        (tasks, Err ("invalid status: " +:+ status +:+ " (must be 'completed' or 'failed')"))
      else
        match tasks !! id with
        | None => (tasks, Err ("task not found: " +:+ id))
        | Some task =>
            if finished task then (tasks, Err ("task already finished with status: " +:+ Status task))
            else
              let task := finished_with status (c_Result p) now task in
              (<[id := task]> tasks,
               Ok (object [("task_id", text (ID task)); ("title", text (Title task)); ("status", text (Status task));
                 ("completed_at", text (FormatRFC3339 now));
                 ("message", text ("Task '" +:+ Title task +:+ "' marked as " +:+ status))]))
        end
  end.

(** ** Reading *)

Definition when {A} (o : option A) (f : A -> list (string * any)) : list (string * any) := match o with Some a => f a | None => [] end.
Definition list_row (task : Task) : gmap string any :=
  object ([("id", text (ID task)); ("title", text (Title task)); ("description", text (task_Description task));
    ("type", text (task_Type task)); ("priority", text (Priority task)); ("status", text (Status task));
    ("created_at", text (FormatRFC3339 (CreatedAt task)))]
    ++ (if String.eqb (AgentID task) "" then [] else [("agent_id", text (AgentID task))])
    ++ when (AssignedAt task) (λ t, [("assigned_at", text (FormatRFC3339 t))])
    ++ when (CompletedAt task) (λ t, [("completed_at", text (FormatRFC3339 t))]))%list.
Definition details (task : Task) : gmap string any :=
  object ([("id", text (ID task)); ("title", text (Title task)); ("description", text (task_Description task));
    ("type", text (task_Type task)); ("priority", text (Priority task)); ("status", text (Status task));
    ("agent_id", text (AgentID task)); ("agent_type", text (AgentType task)); ("result", AMap (Result task));
    ("created_at", text (FormatRFC3339 (CreatedAt task)))]
    ++ when (AssignedAt task) (λ t, [("assigned_at", text (FormatRFC3339 t))])
    ++ when (CompletedAt task) (λ t, [("completed_at", text (FormatRFC3339 t));
         ("duration_seconds", int (f64_to_int (duration_seconds (time_sub t (CreatedAt task)))))]))%list.

Definition handleGet (args : option json) (tasks : TaskProvider) : result string (gmap string any) :=
  match params_of [("task_id", at_field id (λ x _, x) into_string)] "" args with
  | Err e => Err e
  | Ok taskID =>
      if String.eqb taskID "" then Err "task_id is required"
      else match tasks !! taskID with None => Err ("task not found: " +:+ taskID) | Some task => Ok (details task) end
  end.

Definition handleGetBatch (args : option json) (tasks : TaskProvider) : result string reply :=
  match params_of [("task_ids", at_field id (λ x _, x) (into_list "" into_string "[]string"))] [] args with
  | Err e => Err e
  | Ok ids =>
      if Z.of_nat (length ids) =? 0 then Err "task_ids is required and cannot be empty"
      else if 50 <? Z.of_nat (length ids) then Err "cannot retrieve more than 50 tasks at once"
      else
        let found := omap (λ i, tasks !! i) ids in
        let notFound := filter (λ i, tasks !! i = None) ids in
        Ok (Page "tasks" (details <$> found)
          (object ([("found_count", int (Z.of_nat (length found))); ("total_requested", int (Z.of_nat (length ids)))]
            ++ match notFound with [] => [] | _ => [("not_found", AStrings notFound)] end)%list))
  end.

Definition priority_rank (priority : string) : Z :=
  if String.eqb priority "critical" then 4 else if String.eqb priority "high" then 3
  else if String.eqb priority "medium" then 2 else if String.eqb priority "low" then 1 else 0.
Definition less_by (key : string) : option (gmap string any -> gmap string any -> bool) :=
  let by_text k := Some (λ a b, String.ltb (text_at k a) (text_at k b)) in
  if String.eqb key "id" then by_text "id"
  else if String.eqb key "title" then by_text "title"
  else if String.eqb key "priority" then
    Some (λ a b, priority_rank (text_at "priority" a) <? priority_rank (text_at "priority" b))
  else if String.eqb key "status" then by_text "status"
  else if String.eqb key "created_at" then by_text "created_at"
  else None.
Definition list_fields : fields ListParams := status_field ::
  ("priority", at_field lp_Priority (λ x p, MkList (lp_Status p) x (lp_AgentID p) (lp_WorkflowID p) (lp_Limit p) (lp_Offset p) (SortBy p) (SortOrder p)) into_string) ::
  ("agent_id", at_field lp_AgentID (λ x p, MkList (lp_Status p) (lp_Priority p) x (lp_WorkflowID p) (lp_Limit p) (lp_Offset p) (SortBy p) (SortOrder p)) into_string) ::
  page_fields.
Definition selected (p : ListParams) (task : Task) : bool :=
  passes (lp_Status p) (Status task) && passes (lp_Priority p) (Priority task) && passes (lp_AgentID p) (AgentID task).
Definition task_rows (order : TaskProvider -> list (string * Task)) (p : ListParams) (tasks : TaskProvider) : list (gmap string any) :=
  list_row <$> List.filter (selected p) (order tasks).*2.
Definition handleList `{SliceSort} (order : TaskProvider -> list (string * Task)) (args : option json) (tasks : TaskProvider)
    : outcome string reply :=
  match params_of list_fields no_params args with
  | Err e => Fails e
  | Ok p =>
      let p := with_list_defaults "desc" p in
      listing p "tasks" (sorted_rows p (less_by (SortBy p)) (task_rows order p tasks)) []
  end.

(** ** The life of a task *)

Definition state : Type := globals * TaskProvider.
(** A step of a session or of the server, at the reading of the clock that decides about
    kept answers.  Identifiers of new tasks are fresh. *)
Inductive step : Z -> state -> state -> Prop :=
| creates r rid id args s : snd s !! id = None -> step (at_lookup r) s (handleCreate r rid id args s).1
| assigns now args g tasks : step now (g, tasks) (g, (handleAssign now args tasks).1)
| completes now args g tasks : step now (g, tasks) (g, (handleComplete now args tasks).1)
| elsewhere now g g' tasks : shared_step now g g' -> step now (g, tasks) (g', tasks).
Definition steps (P : Z -> Prop) : state -> state -> Prop := rtc (λ s s', exists t, P t /\ step t s s').

Record task_ok (id : string) (t : Task) : Prop := {
  ok_ID : ID t = id;
  ok_Title : Title t <> "";
  ok_Status : Status t ∈ ["pending"; "assigned"; "completed"; "failed"];
  ok_pending : Status t = "pending" -> AgentID t = "" /\ AssignedAt t = None;
  ok_assigned : Status t = "assigned" -> AgentID t <> "" /\ is_Some (AssignedAt t);
  ok_finished : is_Some (CompletedAt t) <-> finished t = true;
}.
(** What may become of a task: a finished one is not changed. *)
Record task_goes_on (t t' : Task) : Prop := {
  same_identity : ID t' = ID t /\ Title t' = Title t /\ task_Type t' = task_Type t /\ Priority t' = Priority t /\ CreatedAt t' = CreatedAt t;
  same_if_finished : finished t = true -> t' = t;
}.

#[local] Instance task_goes_on_preorder : PreOrder task_goes_on.
Proof.
  split; [by split|]. intros t t' t'' [H1 H2] [H3 H4]. split; [naive_solver congruence|].
  intros H. rewrite (H2 H) in *. auto.
Qed.

Lemma assigned_goes_on agent now t :
  Status t = "pending" \/ Status t = "assigned" -> task_goes_on t (assigned agent now t).
Proof. intros H. split; [done|]. unfold finished. by destruct H as [-> | ->]. Qed.
Lemma finished_goes_on status result_ now t : finished t = false -> task_goes_on t (finished_with status result_ now t).
Proof. intros H. split; [done|]. by rewrite H. Qed.
Lemma assignable t :
  negb (String.eqb (Status t) "pending") && negb (String.eqb (Status t) "assigned") = false -> Status t = "pending" \/ Status t = "assigned".
Proof. rewrite andb_false_iff, !negb_false_iff, !String.eqb_eq. done. Qed.

Definition tasks_ok (tasks : TaskProvider) : Prop := map_Forall task_ok tasks.
(** Every task is there afterwards. *)
Definition all_go_on (tasks tasks' : TaskProvider) : Prop :=
  forall id t, tasks !! id = Some t -> exists t', tasks' !! id = Some t' /\ task_goes_on t t'.
#[local] Instance all_go_on_preorder : PreOrder all_go_on.
Proof.
  split; [intros tasks id t Ht; by exists t|].
  intros a b c H1 H2 id t Ht. destruct (H1 _ _ Ht) as (t' & Ht' & G). destruct (H2 _ _ Ht') as (t'' & Ht'' & G').
  exists t''. split; [done|by etrans].
Qed.

Lemma update_task_ok tasks id t t' :
  tasks_ok tasks -> tasks !! id = Some t -> task_ok id t' -> task_goes_on t t' ->
  tasks_ok (<[id := t']> tasks) /\ all_go_on tasks (<[id := t']> tasks).
Proof.
  intros Hok Ht Ht' G. split; [by apply map_Forall_insert_2|].
  intros i ti Hi. destruct (decide (i = id)) as [->|Hne].
  - simplify_eq. exists t'. by rewrite lookup_insert_eq.
  - exists ti. by rewrite lookup_insert_ne.
Qed.
Lemma add_task_ok tasks id t : tasks_ok tasks -> tasks !! id = None -> task_ok id t ->
  tasks_ok (<[id := t]> tasks) /\ all_go_on tasks (<[id := t]> tasks).
Proof.
  intros Hok Hn Ht. split; [by apply map_Forall_insert_2|].
  intros i ti Hi. exists ti. rewrite lookup_insert_ne by congruence. done.
Qed.

Lemma new_task_ok id now p : p_Title p <> "" -> task_ok id (new_task id now p).
Proof. intros H. split; try done; [set_solver|]. split; [by intros [? [=]]|done]. Qed.

Lemma assign_ok now args tasks :
  tasks_ok tasks -> tasks_ok (handleAssign now args tasks).1 /\ all_go_on tasks (handleAssign now args tasks).1.
Proof.
  intros Hok. unfold handleAssign. destruct (params_of _ _ _) as [[id agent]|e]; [|done].
  repeat (case_match; [done|]). destruct (tasks !! id) as [t|] eqn:Ht; [|done].
  case_match; [done|]. simpl. pose proof (assignable _ ltac:(eassumption)) as Hs.
  apply (update_task_ok _ _ t); [done..| |by apply assigned_goes_on].
  destruct (Hok _ _ Ht) as [Hid Hti _ _ _ Hf]. split; try done.
  - set_solver.
  - intros _. split; [by apply String.eqb_neq|done].
  - simpl. rewrite Hf. unfold finished. simpl. by destruct Hs as [-> | ->].
Qed.

Lemma complete_ok now args tasks :
  tasks_ok tasks -> tasks_ok (handleComplete now args tasks).1 /\ all_go_on tasks (handleComplete now args tasks).1.
Proof.
  intros Hok. unfold handleComplete. destruct (params_of _ _ _) as [p|e]; [|done].
  case_match; [done|]. case_match eqn:Hst; [done|]. destruct (tasks !! c_TaskID p) as [t|] eqn:Ht; [|done].
  case_match eqn:Hf; [done|]. simpl. apply (update_task_ok _ _ t); [done..| |by apply finished_goes_on].
  destruct (Hok _ _ Ht) as [Hid Hti _ _ _ _]. set (status := or_default _ _) in *.
  assert (status = "completed" \/ status = "failed") as Hs.
  { revert Hst. by rewrite andb_false_iff, !negb_false_iff, !String.eqb_eq. }
  split; try done; simpl.
  - destruct Hs as [-> | ->]; set_solver.
  - destruct Hs as [-> | ->]; done.
  - destruct Hs as [-> | ->]; done.
  - unfold finished. simpl. destruct Hs as [-> | ->]; (split; [done|eauto]).
Qed.

Lemma before_create_titled r rb args g g' p status : before_create r rb args g = (g', inr (p, status)) -> p_Title p <> "".
Proof.
  unfold before_create. destruct (CheckAndConsume _ _ _) as [rl [allowed st]]. intros [= _ H].
  case_match; [done|]. destruct (create_params args); [|done]. case_match eqn:Ht; [done|]. case_match; [done|].
  simplify_eq. by apply String.eqb_neq.
Qed.

Lemma task_step_ok t s s' : step t s s' -> tasks_ok (snd s) -> tasks_ok (snd s') /\ all_go_on (snd s) (snd s').
Proof.
  intros H Hok. destruct H as [r rid id args [g tasks] Hn|now args g tasks|now args g tasks|now g g' tasks]; cbn [fst snd] in *.
  - unfold handleCreate. destruct (before_create r (NewResponseBuilder (at_start r) rid) args g) as [g' [resp|[p status]]] eqn:Hb; [done|].
    unfold answer_and_keep. simpl. apply add_task_ok; [done..|]. by eapply new_task_ok, before_create_titled.
  - by apply assign_ok.
  - by apply complete_ok.
  - done.
Qed.

(** C20 The life of the edge server's tasks.  Whatever is called, and however the other
    tools change what is shared: a task waits without an agent, is assigned to one, or is
    finished with the time it was finished at; tasks are never lost and keep their
    identifier, title, type, priority and time of creation; and a finished task never
    changes again. *)
Theorem edge_task_lifecycle P g s : steps P (g, NewTaskProvider) s ->
  tasks_ok (snd s) /\ forall s', steps P s s' -> tasks_ok (snd s') /\ all_go_on (snd s) (snd s').
Proof.
  assert (forall s s', steps P s s' -> tasks_ok (snd s) -> tasks_ok (snd s') /\ all_go_on (snd s) (snd s')) as H.
  { intros x y Hxy. induction Hxy as [x|x y z (t & _ & Hs) _ IH]; [done|]. intros Hx.
    destruct (task_step_ok _ _ _ Hs Hx) as [Hy G]. destruct (IH Hy) as [Hz G']. split; [done|by etrans]. }
  intros Hs. assert (tasks_ok (snd s)) as Hok by (eapply H; [done|apply map_Forall_empty]). split; eauto.
Qed.

(** ** Repeated requests *)

Lemma create_kept r rid id args s p status g :
  before_create r (NewResponseBuilder (at_start r) rid) args (fst s) = (g, inr (p, status)) -> p_Key p <> "" ->
  let '(s', response) := handleCreate r rid id args s in
  snd s' !! id = Some (new_task id (at_action r) p) /\ Success response = true /\
  kept (p_Key p) response (at_store r + 5 * minute) (fst s').
Proof.
  intros Hb Hk. unfold handleCreate. destruct s as [g0 tasks]. simpl in Hb. rewrite Hb. unfold answer_and_keep. simpl.
  rewrite lookup_insert_eq. split; [done|split; [done|]]. by apply stored_kept.
Qed.

Lemma before_create_step r rb args g : shared_step (at_lookup r) g (before_create r rb args g).1.
Proof. unfold before_create. destruct (CheckAndConsume _ _ _) as [rl [allowed st]]. constructor. Qed.
Lemma before_create_looked r rb args g g' p status :
  before_create r rb args g = (g', inr (p, status)) -> CheckIdempotency (at_lookup r) (p_Key p) (GlobalIdempotencyStore g') = None.
Proof.
  unfold before_create. destruct (CheckAndConsume _ _ _) as [rl [allowed st]]. intros [= <- H].
  case_match; [done|]. destruct (create_params args); [|done]. case_match; [done|]. case_match eqn:Hc; [done|].
  by simplify_eq.
Qed.

Lemma task_step_keeps key response until t s s' :
  key <> "" -> t <= until -> step t s s' -> kept key response until (fst s) -> kept key response until (fst s').
Proof.
  intros Hk Ht Hs Hg. revert Ht Hg. destruct Hs as [r rid id args [g tasks] Hn|now args g tasks|now args g tasks|now g g' tasks Hs];
    intros Ht Hg; cbn [fst snd] in *; [unfold handleCreate|done|done|by eapply kept_step].
  pose proof (before_create_step r (NewResponseBuilder (at_start r) rid) args g) as Hb.
  destruct (before_create _ _ _ _) as [g' [resp|[p status]]] eqn:Hc; simpl in *; [by eapply kept_step|].
  eapply (kept_step _ _ _ (at_lookup r) g'); [done|by eapply kept_step|done|].
  constructor. by eapply before_create_looked.
Qed.

(** A request to create a task that is repeated with its key creates nothing for five
    minutes: whatever has happened in between, in these tools or in the others that share
    the kept answers, the answer is the first one, word for word, or a refusal by the
    limit, and the tasks are as they were, even if the repeated request asks for another
    task. *)
Theorem repeated_creation_creates_nothing r rid id args s g p status r' rid' id' args' p' s' :
  before_create r (NewResponseBuilder (at_start r) rid) args (fst s) = (g, inr (p, status)) -> p_Key p <> "" ->
  steps (λ t, t <= at_store r + 5 * minute) (handleCreate r rid id args s).1 s' ->
  at_lookup r' <= at_store r + 5 * minute -> create_params args' = Ok p' -> p_Key p' = p_Key p -> p_Title p' <> "" ->
  let '(s'', response) := handleCreate r' rid' id' args' s' in
  snd s'' = snd s' /\ (response = (handleCreate r rid id args s).2 \/ Success response = false).
Proof.
  intros Hb Hk Hs Ht Hp' Hk' Ht'. pose proof (create_kept r rid id args s p status g Hb Hk) as Hc.
  destruct (handleCreate r rid id args s) as [s1 response]. destruct Hc as (_ & _ & Hc). simpl in *.
  assert (kept (p_Key p) response (at_store r + 5 * minute) (fst s')) as Hkept.
  { clear -Hs Hc Hk. induction Hs as [|x y z (t & Hle & Hst) _ IH]; [done|]. apply IH. by eapply task_step_keeps. }
  destruct s' as [g' tasks']. unfold handleCreate, before_create.
  destruct (CheckAndConsume _ _ _) as [rl [allowed st]]. destruct allowed; simpl; [|by auto].
  rewrite Hp'. apply String.eqb_neq in Ht' as ->. rewrite Hk'.
  rewrite (kept_found (p_Key p) response (at_store r + 5 * minute)); [by auto|done|done|lia].
Qed.

(** ** Listing *)

Definition sortable : list string := ["id"; "title"; "priority"; "status"; "created_at"].
Lemma less_by_orders key rows : key ∈ sortable -> exists less, less_by key = Some less /\ orders less rows.
Proof.
  unfold sortable. rewrite !elem_of_cons, elem_of_nil. intros H.
  destruct_or! H; try done; subst; (eexists; split; [reflexivity|]); try apply orders_by_text.
  apply (orders_by_int (λ a, priority_rank (text_at "priority" a))).
Qed.

(** Listing tasks in ascending order: the answer is the page at the offset of a list
    that holds the row of every task that passes the filters, and no other, sorted by the
    field that was asked for; the total counts that list, and one page after the other
    gives all of it ([pages_cover]). *)
Theorem task_list_sorted `{HS : !SliceSort} `{!SliceSortLaws} order args tasks p :
  params_of list_fields no_params args = Ok p -> SortOrder p = "asc" -> SortBy p ∈ sortable -> lp_Offset p <= 2 ^ 62 ->
  ranges (order tasks) tasks ->
  let p := with_list_defaults "desc" p in
  exists rows less,
    less_by (SortBy p) = Some less /\ StronglySorted (not_after less) rows /\
    rows ≡ₚ list_row <$> List.filter (selected p) (map_to_list tasks).*2 /\
    exists rest, handleList order args tasks = Returns (Page "tasks" (take (Z.to_nat (lp_Limit p)) (drop (Z.to_nat (lp_Offset p)) rows)) rest) /\
      rest !! "total_count" = Some (int (Z.of_nat (length rows))).
Proof.
  intros Hp Ho Hby Hoff Hr q.
  destruct (list_defaults_bounds "desc" p) as [Ho1 Hl]. fold q in Ho1, Hl.
  assert (SortOrder q = "asc") as Hoq by (subst q; simpl; by rewrite Ho).
  assert (SortBy q = SortBy p) as Hbq by done.
  destruct (less_by_orders (SortBy q) (task_rows order q tasks)) as (less & Hless & Hord); [by rewrite Hbq|].
  exists (slice_sort less (task_rows order q tasks)), less. split; [done|]. split; [by apply slice_sort_sorted|].
  split.
  { rewrite slice_sort_perm. unfold task_rows. apply fmap_Permutation, list_filter_perm. by rewrite Hr. }
  unfold handleList. rewrite Hp. fold q. unfold listing.
  assert (sorted_rows q (less_by (SortBy q)) (task_rows order q tasks) = slice_sort less (task_rows order q tasks)) as ->.
  { unfold sorted_rows. rewrite Hless. replace (String.eqb (SortBy q) "") with false.
    - unfold in_order_of. by rewrite Hoq.
    - symmetry. apply String.eqb_neq. intros E. rewrite Hbq in E. rewrite E in Hby. by vm_compute in Hby; set_solver. }
  rewrite page_of_ok; [|lia..|].
  - eexists. split; [reflexivity|]. reflexivity.
  - subst q. simpl in *. unfold_ints. change (2 ^ 62) with 4611686018427387904 in Hoff. repeat case_match; bool_hyps; lia.
Qed.

(** Large offsets.  An offset that is close to the largest [int] passes the checks of
    the parameters, overflows when the limit is added to it, and makes the handler panic. *)
Theorem huge_offset_panics `{!SliceSort} order args tasks p :
  params_of list_fields no_params args = Ok p -> max_int64 - 50 < lp_Offset p <= max_int64 -> lp_Limit p = 0 ->
  handleList order args tasks = Panics.
Proof.
  intros Hp Ho Hl. unfold handleList. rewrite Hp. set (q := with_list_defaults "desc" p).
  assert (lp_Limit q = 50) as Hlq by (subst q; simpl; by rewrite Hl).
  assert (lp_Offset q = lp_Offset p) as Hoq by (subst q; simpl; case_match; bool_hyps; unfold_ints; lia).
  unfold listing. rewrite page_of_huge; [done|..]; rewrite ?Hoq, ?Hlq; unfold_ints; lia.
Qed.
End tasks.

(** ** Witnesses and examples *)

#[local] Existing Instance decimal_times.

Definition deploy_args : option json := Some (JObject [("title", JString "Deploy"); ("idempotency_key", JString "k")]).
Definition deploy_params : CreateParams := MkCreate "Deploy" "" "" "" "" "k".
Notation deployed := (handleCreate (all_at 0) "r1" "t1" deploy_args (fresh_globals, NewTaskProvider)).1.
Definition ids_args (l : list (string * string)) : option json := Some (JObject ((λ kv, (fst kv, JString (snd kv))) <$> l)).
Definition assign_args : option json := ids_args [("task_id", "t1"); ("agent_id", "a1")].
Definition handed_out : TaskProvider := (handleAssign 1 assign_args (snd deployed)).1.
Definition end_args : option json := ids_args [("task_id", "t1")].
Definition ended : state := (fst deployed, (handleComplete 2 end_args handed_out).1).

Lemma deployed_ended (P : Z -> Prop) : P 1 -> P 2 -> steps P deployed ended.
Proof.
  intros H1 H2. apply (rtc_l _ _ (fst deployed, handed_out)).
  { exists 1. split; [done|]. unfold handed_out. rewrite (surjective_pairing deployed) at 1.
    apply (assigns 1 assign_args (fst deployed) (snd deployed)). }
  apply rtc_once. exists 2. split; [done|]. unfold ended. apply (completes 2 end_args (fst deployed) handed_out).
Qed.
Lemma ended_steps : steps (λ _, True) (fresh_globals, NewTaskProvider) ended.
Proof.
  eapply rtc_l; [|by apply deployed_ended].
  exists 0. split; [done|]. exact (creates (all_at 0) "r1" "t1" deploy_args (fresh_globals, NewTaskProvider) eq_refl).
Qed.

Theorem edge_task_lifecycle_witness :
  steps (λ _, True) (fresh_globals, NewTaskProvider) ended /\ tasks_ok (snd ended) /\
  map_to_list (Status <$> snd ended) = [("t1", "completed")].
Proof.
  split; [exact ended_steps|]. split; [exact (proj1 (edge_task_lifecycle _ _ _ ended_steps))|]. vm_compute. reflexivity.
Defined.

Definition limit_left (n : Z) : RateLimitStatus := MkLimitStatus n (Z.quot minute 120) 20.
Definition other_args : option json := Some (JObject [("idempotency_key", JString "k"); ("title", JString "Other")]).
Definition looked_first : globals := fst (before_create (all_at 0) (NewResponseBuilder (at_start (all_at 0)) "r1") deploy_args (fst (fresh_globals, NewTaskProvider))).
Lemma deploy_looked :
  before_create (all_at 0) (NewResponseBuilder (at_start (all_at 0)) "r1") deploy_args (fst (fresh_globals, NewTaskProvider))
  = (looked_first, inr (deploy_params, limit_left 19)).
Proof. vm_compute. reflexivity. Qed.
Lemma ended_soon :
  steps (λ t, t <= at_store (all_at 0) + 5 * minute) deployed ended.
Proof. by apply deployed_ended. Qed.
Lemma other_decoded : create_params other_args = Ok (MkCreate "Other" "" "" "" "" "k").
Proof. vm_compute. reflexivity. Qed.

Theorem repeated_creation_creates_nothing_witness :
  let '(s'', response) := handleCreate (all_at (4 * minute)) "r2" "t2" other_args ended in
  snd s'' = snd ended /\
  (response = (handleCreate (all_at 0) "r1" "t1" deploy_args (fresh_globals, NewTaskProvider)).2 \/ Success response = false).
Proof.
  exact (repeated_creation_creates_nothing (all_at 0) "r1" "t1" deploy_args (fresh_globals, NewTaskProvider)
    looked_first deploy_params (limit_left 19)
    (all_at (4 * minute)) "r2" "t2" other_args (MkCreate "Other" "" "" "" "" "k") ended
    deploy_looked ltac:(discriminate) ended_soon ltac:(vm_compute; discriminate) other_decoded eq_refl ltac:(discriminate)).
Defined.

(** Without the steps in between being one after the other: both requests look before
    either has kept its answer, and both create a task. *)
Example overlapping_creations :
  let x := before_create (all_at 0) (NewResponseBuilder 0 "r1") deploy_args fresh_globals in
  let y := before_create (all_at 0) (NewResponseBuilder 0 "r2") deploy_args (fst x) in
  snd x = inr (deploy_params, limit_left 19) /\ snd y = inr (deploy_params, limit_left 18).
Proof. vm_compute. done. Qed.

Definition three_tasks : TaskProvider :=
  <["1" := new_task "1" 0 (MkCreate "b" "" "" "low" "" "")]>
    (<["2" := new_task "2" 1 (MkCreate "a" "" "" "critical" "" "")]> {["3" := new_task "3" 2 (MkCreate "c" "" "" "" "" "")]}).
Definition by_title : option json := Some (JObject [("sort_by", JString "title"); ("sort_order", JString "asc"); ("limit", JNumber "2")]).
Definition by_title_params : ListParams := MkList "" "" "" "" 2 0 "title" "asc".

Lemma by_title_decoded : params_of list_fields no_params by_title = Ok by_title_params.
Proof. vm_compute. reflexivity. Qed.
Theorem task_list_sorted_witness :
  exists rows rest, handleList map_to_list by_title three_tasks = Returns (Page "tasks" (take 2 (drop 0 rows)) rest) /\
    rest !! "total_count" = Some (int (Z.of_nat (length rows))).
Proof.
  destruct (task_list_sorted map_to_list by_title three_tasks by_title_params by_title_decoded eq_refl ltac:(right; left)
    ltac:(vm_compute; discriminate) (ranges_refl _)) as (rows & less & _ & _ & _ & rest & Hr & Hc).
  exists rows, rest. exact (conj Hr Hc).
Defined.
Example two_by_title :
  match handleList map_to_list by_title three_tasks with
  | Returns (Page _ rows _) => text_at "title" <$> rows = ["a"; "b"]
  | _ => False
  end.
Proof. vm_compute. done. Qed.

Theorem huge_offset_panics_witness :
  handleList map_to_list (Some (JObject [("offset", JNumber "9223372036854775800")])) three_tasks = Panics.
Proof.
  apply (huge_offset_panics map_to_list _ _ (MkList "" "" "" "" 0 9223372036854775800 "" "")); [vm_compute; reflexivity|vm_compute; done|done].
Defined.

(** The default order is descending, for which the comparison puts every element before
    itself; the enumerations of the schema are not tested. *)
Example descending_is_no_order rows :
  rows <> [] -> ¬ orders (in_order_of (MkList "" "" "" "" 50 0 "title" "desc") (less_by "title")) rows.
Proof. destruct rows as [|row rows]; [done|]. intros _. apply descending_no_order; [done|]. intros a. apply string_ltb_irrefl. Qed.
Example any_priority_accepted :
  Priority <$> (handleCreate (all_at 0) "r" "t" (Some (JObject [("title", JString "x"); ("priority", JString "whatever")]))
    (fresh_globals, NewTaskProvider)).1.2 = {["t" := "whatever"]}.
Proof. vm_compute. done. Qed.
