(* ===== verification/EdgeWorkflows.v ===== *)
(** * EdgeWorkflows: the edge server's workflow tools

    The file [apps/edge-mcp/internal/tools/builtin/workflow_provider.go].  Executing a
    workflow starts a goroutine that sleeps and then writes the execution's end; it is a
    job of the state, run at any later time.  The structures within an answer stand as the
    JSON objects that they are encoded to. *)

From stdpp Require Import base decidable gmap strings list sorting.
From Stdlib Require Import ZArith Lia.
From S2P Require Import Prelude GoFloat GoStrings GoAny GoSort Json EdgeTools EdgeBuiltin.

Local Open Scope string_scope.
Local Open Scope Z_scope.

Record WorkflowStep := MkStep {
  step_Name : string;
  step_Type : string;
  step_Config : gmap string any;
  DependsOn : list string;
}.
Record Workflow := MkWorkflow {
  ID : string;
  Name : string;
  Description : string;
  Steps : list WorkflowStep;
  Config : gmap string any;
  CreatedAt : Z;
}.
Record WorkflowExecution := MkExecution {
  exec_ID : string;
  WorkflowID : string;
  Status : string;
  Input : gmap string any;
  Output : gmap string any;
  StartedAt : Z;
  EndedAt : option Z;
  exec_Error : string;
}.
(** What a goroutine of [handleExecute] has: its execution and the number of steps. *)
Record job := MkJob { job_ID : string; job_steps : Z }.
Record WorkflowProvider := MkProvider {
  workflows : gmap string Workflow;
  executions : gmap string WorkflowExecution;
  jobs : list job;
}.
Definition NewWorkflowProvider : WorkflowProvider := MkProvider ∅ ∅ [].
Definition set_executions (m : gmap string WorkflowExecution) (js : list job) (p : WorkflowProvider) : WorkflowProvider :=
  MkProvider (workflows p) m js.

Definition GetDefinitions : list (ToolDefinition handler) := [
  tool "workflow_list" "List all workflow definitions" WorkflowList "workflow" list_tags
    (schema ([limit_prop "workflows"; offset_prop "workflows"] ++ sort_props ["id"; "name"; "created_at"] "asc")%list []);
  tool "workflow_get" "Get details of a specific workflow" WorkflowGet "" []
    (schema [prop "workflow_id" "string" "ID of the workflow to retrieve"] ["workflow_id"]);
  tool "workflow_execution_list" "List all workflow executions with optional filters" ExecutionList "" []
    (schema ([prop "workflow_id" "string" "Filter by workflow ID";
              choice "status" "Filter by execution status" ["pending"; "running"; "completed"; "failed"; "cancelled"];
              limit_prop "executions"; offset_prop "executions"]
             ++ sort_props ["id"; "workflow_id"; "status"; "started_at"] "desc")%list []);
  tool "workflow_execution_get" "Get status of a specific workflow execution" ExecutionGet "" []
    (schema [prop "execution_id" "string" "ID of the execution to retrieve"] ["execution_id"]);
  tool "workflow_create" "Create a new workflow definition" WorkflowCreate "" []
    (schema [prop "name" "string" "Name of the workflow"; prop "description" "string" "Description of the workflow";
             prop_with "steps" "array" [("description", text "List of workflow steps");
               ("items", AMap (object [("type", text "object");
                  ("properties", AMap (object [prop_with "name" "string" []; prop_with "type" "string" []; prop_with "config" "object" [];
                     prop_with "depends_on" "array" [("items", AMap (object [("type", text "string")]))]]));
                  ("required", AStrings ["name"; "type"])]))];
             prop "config" "object" "Workflow configuration";
             prop "idempotency_key" "string" "Unique key for idempotent requests (prevents duplicate workflow creation)"] ["name"; "steps"]);
  tool "workflow_execute" "Execute a workflow" WorkflowExecute "" []
    (schema [prop "workflow_id" "string" "ID of the workflow to execute"; prop "input" "object" "Input parameters for the workflow";
             prop "idempotency_key" "string" "Unique key for idempotent requests (prevents duplicate executions)"] ["workflow_id"]);
  tool "workflow_cancel" "Cancel a running workflow execution" WorkflowCancel "" []
    (schema [prop "execution_id" "string" "ID of the execution to cancel"] ["execution_id"])].

Section workflows.
Context `{TT : TimeText}.

(** ** Creating *)

Definition step_fields : fields WorkflowStep := [
  ("name", at_field step_Name (λ x s, MkStep x (step_Type s) (step_Config s) (DependsOn s)) into_string);
  ("type", at_field step_Type (λ x s, MkStep (step_Name s) x (step_Config s) (DependsOn s)) into_string);
  ("config", at_field step_Config (λ x s, MkStep (step_Name s) (step_Type s) x (DependsOn s)) any_map);
  ("depends_on", at_field DependsOn (λ x s, MkStep (step_Name s) (step_Type s) (step_Config s) x) (into_list "" into_string "[]string"))].
Definition into_steps := into_list (MkStep "" "" ∅ []) (into_struct "WorkflowStep" "builtin.WorkflowStep" step_fields) "[]builtin.WorkflowStep".
Record CreateParams := MkCreate {
  p_Name : string;
  p_Description : string;
  p_Steps : list WorkflowStep;
  p_Config : gmap string any;
  p_Key : string;
}.
Definition create_fields : fields CreateParams := [
  ("name", at_field p_Name (λ x p, MkCreate x (p_Description p) (p_Steps p) (p_Config p) (p_Key p)) into_string);
  ("description", at_field p_Description (λ x p, MkCreate (p_Name p) x (p_Steps p) (p_Config p) (p_Key p)) into_string);
  ("steps", at_field p_Steps (λ x p, MkCreate (p_Name p) (p_Description p) x (p_Config p) (p_Key p)) into_steps);
  ("config", at_field p_Config (λ x p, MkCreate (p_Name p) (p_Description p) (p_Steps p) x (p_Key p)) any_map);
  ("idempotency_key", at_field p_Key (λ x p, MkCreate (p_Name p) (p_Description p) (p_Steps p) (p_Config p) x) into_string)].

Definition count_of (w : Workflow) : any := int (Z.of_nat (length (Steps w))).
Definition handleCreate (r : readings) (rid id : string) (args : option json) (s : globals * WorkflowProvider)
    : (globals * WorkflowProvider) * StandardResponse :=
  let '(g, pr) := s in
  let rb := NewResponseBuilder (at_start r) rid in
  let '(rl, (allowed, status)) := CheckAndConsume r "workflow_create" (GlobalRateLimiter g) in
  let g := set_limiter rl g in
  let refuse e := ((g, pr), Error (at_answer r) rb e) in
  if negb allowed then ((g, pr), limit_exceeded r rb status)
  else
    match params_of create_fields (MkCreate "" "" [] ∅ "") args with
    | Err e => refuse e
    | Ok p =>
        if String.eqb (p_Name p) "" then refuse "name is required"
        else if Z.of_nat (length (p_Steps p)) =? 0 then refuse "at least one step is required"
        else
          match CheckIdempotency (at_lookup r) (p_Key p) (GlobalIdempotencyStore g) with
          | Some cachedResponse => ((g, pr), cachedResponse)
          | None =>
              let w := MkWorkflow id (p_Name p) (p_Description p) (p_Steps p) (p_Config p) (at_action r) in
              let data := object [("id", text (ID w)); ("name", text (Name w)); ("description", text (Description w));
                ("steps_count", count_of w); ("created_at", text (FormatRFC3339 (CreatedAt w)));
                ("message", text ("Workflow '" +:+ Name w +:+ "' created successfully"))] in
              let '(g, response) := answer_and_keep r rb (p_Key p) status data ["workflow_execute"; "workflow_get"] g in
              ((g, MkProvider (<[id := w]> (workflows pr)) (executions pr) (jobs pr)), response)
          end
    end.

(** ** Executing and cancelling *)

(** The key that the schema declares is decoded and not used. *)
Definition execute_fields : fields (string * gmap string any * string) := [
  ("workflow_id", at_field (λ p, p.1.1) (λ x p, (x, p.1.2, p.2)) into_string);
  ("input", at_field (λ p, p.1.2) (λ x p, (p.1.1, x, p.2)) any_map);
  ("idempotency_key", at_field (λ p, p.2) (λ x p, (p.1.1, p.1.2, x)) into_string)].
Definition handleExecute (r : readings) (rid id : string) (args : option json) (s : globals * WorkflowProvider)
    : (globals * WorkflowProvider) * result string reply :=
  let '(g, pr) := s in
  let rb := NewResponseBuilder (at_start r) rid in
  let '(rl, (allowed, status)) := CheckAndConsume r "workflow_execute" (GlobalRateLimiter g) in
  let g := set_limiter rl g in
  if negb allowed then ((g, pr), Ok (Standard (limit_exceeded r rb status)))
  else
    match params_of execute_fields ("", ∅, "") args with
    | Err e => ((g, pr), Err e)
    | Ok (workflowID, input, _) =>
        if String.eqb workflowID "" then ((g, pr), Err "workflow_id is required")
        else
          match workflows pr !! workflowID with
          | None => ((g, pr), Err ("workflow not found: " +:+ workflowID))
          | Some workflow =>
              let execution := MkExecution id workflowID "running" input ∅ (at_action r) None "" in
              ((g, set_executions (<[id := execution]> (executions pr)) (MkJob id (Z.of_nat (length (Steps workflow))) :: jobs pr) pr),
               Ok (Plain (object [("execution_id", text id); ("workflow_id", text workflowID); ("status", text (Status execution));
                 ("started_at", text (FormatRFC3339 (StartedAt execution)));
                 ("message", text ("Workflow execution started: " +:+ id))])))
          end
    end.

(** What the goroutine does after its sleep. *)
Definition completed_by (now : Z) (j : job) (e : WorkflowExecution) : WorkflowExecution :=
  MkExecution (exec_ID e) (WorkflowID e) "completed" (Input e)
    (object [("result", text "success"); ("steps_executed", int (job_steps j))]) (StartedAt e) (Some now) (exec_Error e).
Definition run_job (now : Z) (j : job) (pr : WorkflowProvider) : WorkflowProvider :=
  set_executions (alter (completed_by now j) (job_ID j) (executions pr)) (jobs pr) pr.

Definition one_id (name : string) : fields string := [(name, at_field id (λ x _, x) into_string)].
Definition cancelled (now : Z) (e : WorkflowExecution) : WorkflowExecution :=
  MkExecution (exec_ID e) (WorkflowID e) "cancelled" (Input e) (Output e) (StartedAt e) (Some now) (exec_Error e).
Definition handleCancel (now : Z) (args : option json) (pr : WorkflowProvider) : WorkflowProvider * result string (gmap string any) :=
  match params_of (one_id "execution_id") "" args with
  | Err e => (pr, Err e)
  | Ok id =>
      if String.eqb id "" then (pr, Err "execution_id is required")
      else
        match executions pr !! id with
        | None => (pr, Err ("execution not found: " +:+ id))
        | Some execution =>
            if negb (String.eqb (Status execution) "running") && negb (String.eqb (Status execution) "pending") then
              (pr, Err ("cannot cancel execution in status: " +:+ Status execution))
            else
              let execution := cancelled now execution in
              (set_executions (<[id := execution]> (executions pr)) (jobs pr) pr,
               Ok (object [("execution_id", text (exec_ID execution)); ("status", text (Status execution));
                 ("message", text ("Workflow execution cancelled: " +:+ exec_ID execution))]))
        end
  end.

(** ** Reading *)

Definition when {A} (o : option A) (f : A -> list (string * any)) : list (string * any) := match o with Some a => f a | None => [] end.
Definition if_text (k v : string) : list (string * any) := if String.eqb v "" then [] else [(k, text v)].
Definition ended_fields (e : WorkflowExecution) : list (string * any) :=
  when (EndedAt e) (λ t, [("ended_at", text (FormatRFC3339 t));
    ("duration_seconds", int (f64_to_int (duration_seconds (time_sub t (StartedAt e)))))]).

Definition workflow_row (w : Workflow) : gmap string any :=
  object [("id", text (ID w)); ("name", text (Name w)); ("description", text (Description w)); ("steps_count", count_of w);
    ("created_at", text (FormatRFC3339 (CreatedAt w)))].
Definition workflow_less (key : string) : option (gmap string any -> gmap string any -> bool) :=
  if bool_decide (key ∈ ["id"; "name"; "created_at"]) then Some (λ a b, String.ltb (text_at key a) (text_at key b)) else None.
Definition handleList `{SliceSort} (order : gmap string Workflow -> list (string * Workflow)) (args : option json) (pr : WorkflowProvider)
    : outcome string reply :=
  match params_of page_fields no_params args with
  | Err e => Fails e
  | Ok p =>
      let p := with_list_defaults "asc" p in
      listing p "workflows" (sorted_rows p (workflow_less (SortBy p)) (workflow_row <$> (order (workflows pr)).*2)) []
  end.

Definition step_json (s : WorkflowStep) : any :=
  AMap (object ([("name", text (step_Name s)); ("type", text (step_Type s))]
    ++ (if bool_decide (step_Config s = ∅) then [] else [("config", AMap (step_Config s))])
    ++ match DependsOn s with [] => [] | l => [("depends_on", AStrings l)] end)%list).
Definition handleGet (args : option json) (pr : WorkflowProvider) : result string (gmap string any) :=
  match params_of (one_id "workflow_id") "" args with
  | Err e => Err e
  | Ok workflowID =>
      if String.eqb workflowID "" then Err "workflow_id is required"
      else
        match workflows pr !! workflowID with
        | None => Err ("workflow not found: " +:+ workflowID)
        | Some w => Ok (object [("id", text (ID w)); ("name", text (Name w)); ("description", text (Description w));
            ("steps", AList (step_json <$> Steps w)); ("config", AMap (Config w)); ("created_at", text (FormatRFC3339 (CreatedAt w)))])
        end
  end.

Definition execution_row (ws : gmap string Workflow) (e : WorkflowExecution) : gmap string any :=
  object ([("id", text (exec_ID e)); ("workflow_id", text (WorkflowID e)); ("status", text (Status e));
      ("started_at", text (FormatRFC3339 (StartedAt e)))]
    ++ when (ws !! WorkflowID e) (λ w, [("workflow_name", text (Name w))])
    ++ ended_fields e ++ if_text "error" (exec_Error e))%list.
Definition execution_less (key : string) : option (gmap string any -> gmap string any -> bool) :=
  if bool_decide (key ∈ ["id"; "workflow_id"; "status"; "started_at"]) then Some (λ a b, String.ltb (text_at key a) (text_at key b)) else None.
Definition execution_fields : fields ListParams := status_field ::
  ("workflow_id", at_field lp_WorkflowID (λ x p, MkList (lp_Status p) (lp_Priority p) (lp_AgentID p) x (lp_Limit p) (lp_Offset p) (SortBy p) (SortOrder p)) into_string) ::
  page_fields.
Definition handleExecutionList `{SliceSort} (order : gmap string WorkflowExecution -> list (string * WorkflowExecution))
    (args : option json) (pr : WorkflowProvider) : outcome string reply :=
  match params_of execution_fields no_params args with
  | Err e => Fails e
  | Ok p =>
      let p := with_list_defaults "desc" p in
      let chosen := List.filter (λ e, passes (lp_WorkflowID p) (WorkflowID e) && passes (lp_Status p) (Status e)) (order (executions pr)).*2 in
      listing p "executions" (sorted_rows p (execution_less (SortBy p)) (execution_row (workflows pr) <$> chosen)) []
  end.

Definition handleExecutionGet (args : option json) (pr : WorkflowProvider) : result string (gmap string any) :=
  match params_of (one_id "execution_id") "" args with
  | Err e => Err e
  | Ok executionID =>
      if String.eqb executionID "" then Err "execution_id is required"
      else
        match executions pr !! executionID with
        | None => Err ("execution not found: " +:+ executionID)
        | Some e => Ok (object ([("id", text (exec_ID e)); ("workflow_id", text (WorkflowID e)); ("status", text (Status e));
              ("input", AMap (Input e)); ("output", AMap (Output e)); ("started_at", text (FormatRFC3339 (StartedAt e)))]
            ++ ended_fields e ++ if_text "error" (exec_Error e))%list)
        end
  end.

(** ** What becomes of executions *)

Definition state : Type := globals * WorkflowProvider.
Inductive step : state -> state -> Prop :=
| creates r rid id args s : step s (handleCreate r rid id args s).1
| executes r rid id args s : executions (snd s) !! id = None -> step s (handleExecute r rid id args s).1
| cancels now args g pr : step (g, pr) (g, (handleCancel now args pr).1)
| wakes now j js js' g pr : jobs pr = (js ++ j :: js')%list ->
    step (g, pr) (g, run_job now j (set_executions (executions pr) (js ++ js')%list pr))
| elsewhere now g g' pr : shared_step now g g' -> step (g, pr) (g', pr).
Definition reachable (s : state) : Prop := exists g, rtc step (g, NewWorkflowProvider) s.

Definition has_ended (e : WorkflowExecution) : Prop :=
  Status e = "completed" /\ Output e !! "result" = Some (text "success") /\ is_Some (EndedAt e).
Definition is_waiting (pr : WorkflowProvider) (id : string) : Prop := exists j, j ∈ jobs pr /\ job_ID j = id.
(** An execution has its end or its goroutine has not run. *)
Definition ends_or_waits (pr : WorkflowProvider) : Prop := forall id e, executions pr !! id = Some e -> has_ended e \/ is_waiting pr id.

Lemma completed_has_ended now j e : has_ended (completed_by now j e).
Proof. split; [done|]. split; [done|]. by eexists. Qed.

Lemma wakes_ok now j js js' pr : jobs pr = (js ++ j :: js')%list -> ends_or_waits pr ->
  ends_or_waits (run_job now j (set_executions (executions pr) (js ++ js')%list pr)).
Proof.
  intros Hj H id e. simpl. destruct (decide (job_ID j = id)) as [<-|Hne].
  - rewrite lookup_alter_eq. intros (e0 & _ & ->)%fmap_Some. left. apply completed_has_ended.
  - rewrite lookup_alter_ne by done. intros He. destruct (H id e He) as [|(i & Hi & Hid)]; [by left|right].
    exists i. split; [|done]. simpl. rewrite Hj in Hi. set_solver.
Qed.

Lemma cancel_ok now args pr : ends_or_waits pr -> ends_or_waits (handleCancel now args pr).1.
Proof.
  intros H. unfold handleCancel. destruct (params_of _ _ _) as [id|e]; [|done]. case_match; [done|].
  destruct (executions pr !! id) as [e|] eqn:He; [|done]. case_match eqn:Hs; [done|].
  intros i ei. simpl. destruct (decide (i = id)) as [->|Hne].
  - intros _. right. destruct (H id e He) as [[Hc _]|Hw]; [|done].
    revert Hs. rewrite Hc. done.
  - rewrite lookup_insert_ne by done. apply H.
Qed.

Lemma execute_ok r rid id args s : ends_or_waits (snd s) -> ends_or_waits (snd (handleExecute r rid id args s).1).
Proof.
  destruct s as [g pr]. unfold handleExecute. simpl. intros H. destruct (CheckAndConsume _ _ _) as [rl [allowed st]].
  case_match; [done|]. destruct (params_of _ _ _) as [[[wid input] key]|e]; [|done]. case_match; [done|].
  destruct (workflows pr !! wid) as [w|]; [|done]. intros i e. simpl. destruct (decide (i = id)) as [->|Hne].
  - intros _. right. eexists. split; [left|done].
  - rewrite lookup_insert_ne by done. intros He. destruct (H i e He) as [|(j & Hj & Hid)]; [by left|right].
    exists j. split; [by right|done].
Qed.

Lemma create_same_executions r rid id args s :
  executions (snd (handleCreate r rid id args s).1) = executions (snd s) /\ jobs (snd (handleCreate r rid id args s).1) = jobs (snd s).
Proof.
  destruct s as [g pr]. unfold handleCreate. destruct (CheckAndConsume _ _ _) as [rl [allowed st]]. unfold answer_and_keep.
  by repeat case_match.
Qed.

Lemma step_ends_or_waits s s' : step s s' -> ends_or_waits (snd s) -> ends_or_waits (snd s').
Proof.
  intros H Hs. destruct H; cbn [fst snd] in *; [|by apply execute_ok|by apply cancel_ok|by apply wakes_ok|done].
  unfold ends_or_waits, is_waiting. by destruct (create_same_executions r rid id args s) as [-> ->].
Qed.

Lemma reachable_ends_or_waits s : reachable s -> ends_or_waits (snd s).
Proof.
  intros (g & H). assert (ends_or_waits (snd (g, NewWorkflowProvider))) as H0 by done.
  induction H as [|x y z Hxy _ IH]; [done|]. by apply IH, (step_ends_or_waits x).
Qed.

End workflows.

(** ** Witness and examples *)

#[local] Existing Instance decimal_times.

Definition build_args : option json :=
  Some (JObject [("name", JString "build"); ("steps", JArray [JObject [("name", JString "make"); ("type", JString "action")]])]).
Notation after_create := (handleCreate (all_at 0) "r1" "w1" build_args (fresh_globals, NewWorkflowProvider)).1 (only parsing).
Definition execute_args : option json := Some (JObject [("workflow_id", JString "w1"); ("idempotency_key", JString "k")]).
Notation after_execute := (handleExecute (all_at 1) "r2" "e1" execute_args after_create).1 (only parsing).
Definition cancel_args : option json := Some (JObject [("execution_id", JString "e1")]).

Lemma after_execute_reachable : reachable after_execute.
Proof.
  exists fresh_globals. eapply rtc_l; [exact (creates (all_at 0) "r1" "w1" build_args (fresh_globals, NewWorkflowProvider))|].
  apply rtc_once. refine (executes (all_at 1) "r2" "e1" execute_args after_create _). vm_compute. reflexivity.
Qed.
Lemma cancel_decoded : params_of (one_id "execution_id") "" cancel_args = Ok "e1".
Proof. vm_compute. reflexivity. Qed.
Definition cancel_answer : gmap string any :=
  object [("execution_id", text "e1"); ("status", text "cancelled"); ("message", text "Workflow execution cancelled: e1")].
Lemma cancel_accepted : (handleCancel 2 cancel_args (snd after_execute)).2 = Ok cancel_answer.
Proof. vm_compute. reflexivity. Qed.


Example completed_after_cancel :
  Status <$> executions (run_job 3 (MkJob "e1" 1) (handleCancel 2 cancel_args (snd after_execute)).1) = {["e1" := "completed"]}.
Proof. vm_compute. done. Qed.

(** The key of a request to execute is not looked at. *)
Example executed_twice :
  Status <$> executions (snd (handleExecute (all_at 2) "r3" "e2" execute_args after_execute).1) = {["e1" := "running"; "e2" := "running"]}.
Proof. vm_compute. done. Qed.

(** Steps that wait for one another are accepted. *)
Example cyclic_steps_accepted :
  let step_ n d := JObject [("name", JString n); ("type", JString "action"); ("depends_on", JArray [JString d])] in
  Success (handleCreate (all_at 0) "r" "w" (Some (JObject [("name", JString "x"); ("steps", JArray [step_ "a" "b"; step_ "b" "a"])]))
    (fresh_globals, NewWorkflowProvider)).2 = true.
Proof. vm_compute. done. Qed.
