(* ===== verification/EdgeAgents.v ===== *)
(** * EdgeAgents: the edge server's agent tools

    The file [apps/edge-mcp/internal/tools/builtin/agent_provider.go].  The provider has
    no mutex: what is modelled is one call after the other; two at once are a concurrent
    access to a map, which ends the process. *)

From stdpp Require Import base decidable gmap strings list sorting.
From Stdlib Require Import ZArith Lia.
From S2P Require Import Prelude GoFloat GoStrings GoAny GoSort Json EdgeTools EdgeBuiltin.

Local Open Scope string_scope.
Local Open Scope Z_scope.

Record AgentStatus := MkAgent {
  AgentID : string;
  Status : string;
  LastHeartbeat : Z;
  Version : string;
  Capabilities : list string;
}.
Definition set_status (x : string) (a : AgentStatus) : AgentStatus := MkAgent (AgentID a) x (LastHeartbeat a) (Version a) (Capabilities a).
Notation AgentProvider := (gmap string AgentStatus) (only parsing).
Definition NewAgentProvider : AgentProvider := ∅.

Definition GetDefinitions : list (ToolDefinition handler) := [
  tool "agent_list" "List all registered agents with their current status" AgentList "agent" list_tags
    (schema ([choice "status" "Filter agents by status (online, busy, offline)" ["online"; "busy"; "offline"];
              limit_prop "agents"; offset_prop "agents"] ++ sort_props ["agent_id"; "status"; "last_heartbeat"] "asc")%list []);
  tool "agent_heartbeat" "Send agent heartbeat to maintain connection status" AgentHeartbeat "agent" ["write"; "realtime"]
    (schema [prop "agent_id" "string" "Unique identifier for the agent"; prop "timestamp" "number" "Unix timestamp of the heartbeat";
             choice "status" "Current agent status (online, busy, offline)" ["online"; "busy"; "offline"]] ["agent_id"]);
  tool "agent_status" "Get the current status of an agent" AgentGetStatus "agent" ["read"]
    (schema [prop "agent_id" "string" "Unique identifier for the agent"] ["agent_id"])].

Section agents.
Context `{TT : TimeText}.

(** The time stamp is decoded and not used. *)
Definition heartbeat_fields : fields (string * float64 * string) := [
  ("agent_id", at_field (λ p, p.1.1) (λ x p, (x, p.1.2, p.2)) into_string);
  ("timestamp", at_field (λ p, p.1.2) (λ x p, (p.1.1, x, p.2)) into_float);
  ("status", at_field (λ p, p.2) (λ x p, (p.1.1, p.1.2, x)) into_string)].
Definition heard (now : Z) (id status : string) (known : option AgentStatus) : AgentStatus :=
  let a := default (MkAgent id "" zero_time "" []) known in
  let a := MkAgent (AgentID a) (Status a) now (Version a) (Capabilities a) in
  if negb (String.eqb status "") then set_status status a
  else if String.eqb (Status a) "" then set_status "online" a
  else a.
Definition handleHeartbeat (now : Z) (args : option json) (agents : AgentProvider) : AgentProvider * result string (gmap string any) :=
  match params_of heartbeat_fields ("", f64_of_Z 0, "") args with
  | Err e => (agents, Err e)
  | Ok (id, _, status) =>
      if String.eqb id "" then (agents, Err "agent_id is required")
      else
        let a := heard now id status (agents !! id) in
        (<[id := a]> agents,
         Ok (object [("success", ABool true); ("message", text ("Heartbeat received for agent " +:+ id)); ("status", text (Status a))]))
  end.

(** An agent that has not been heard of for five minutes is marked when it is looked at. *)
Definition refreshed (now : Z) (a : AgentStatus) : AgentStatus :=
  if 5 * minute <? time_sub now (LastHeartbeat a) then set_status "offline" a else a.
Definition handleStatus (now : Z) (args : option json) (agents : AgentProvider) : AgentProvider * result string (gmap string any) :=
  match params_of [("agent_id", at_field id (λ x _, x) into_string)] "" args with
  | Err e => (agents, Err e)
  | Ok id =>
      if String.eqb id "" then (agents, Err "agent_id is required")
      else
        match agents !! id with
        | None => (agents, Ok (object [("agent_id", text id); ("status", text "unknown");
                                ("message", text "Agent not found or no heartbeat received")]))
        | Some a =>
            let a := refreshed now a in
            (<[id := a]> agents,
             Ok (object [("agent_id", text (AgentID a)); ("status", text (Status a));
               ("last_heartbeat", text (FormatRFC3339 (LastHeartbeat a))); ("version", text (Version a)); ("capabilities", AStrings (Capabilities a))]))
        end
  end.

Definition agent_row (now : Z) (a : AgentStatus) : gmap string any :=
  object [("agent_id", text (AgentID a)); ("status", text (Status a)); ("last_heartbeat", text (FormatRFC3339 (LastHeartbeat a)));
    ("age_seconds", int (f64_to_int (duration_seconds (time_sub now (LastHeartbeat a)))));
    ("version", text (Version a)); ("capabilities", AStrings (Capabilities a))].
Definition less_by (key : string) : option (gmap string any -> gmap string any -> bool) :=
  if bool_decide (key ∈ ["agent_id"; "status"; "last_heartbeat"]) then Some (λ a b, String.ltb (text_at key a) (text_at key b)) else None.
(** [seen id] is the reading of the clock when the loop comes to the agent. *)
Definition handleList `{SliceSort} (order : AgentProvider -> list (string * AgentStatus)) (now : Z) (seen : string -> Z)
    (args : option json) (agents : AgentProvider) : AgentProvider * outcome string reply :=
  match params_of (status_field :: page_fields) no_params args with
  | Err e => (agents, Fails e)
  | Ok p =>
      let p := with_list_defaults "asc" p in
      let agents := map_imap (λ id a, Some (refreshed (seen id) a)) agents in
      let rows := agent_row now <$> List.filter (λ a, passes (lp_Status p) (Status a)) (order agents).*2 in
      (agents, listing p "agents" (sorted_rows p (less_by (SortBy p)) rows) [("timestamp", text (FormatRFC3339 now))])
  end.

(** ** What becomes of an agent's status *)

(** Calls of the tools one after the other, all of whose heartbeats of the agent [id] have
    no status. *)
Inductive step (id : string) : Z -> AgentProvider -> AgentProvider -> Prop :=
| beats now args agents :
    (forall t status, params_of heartbeat_fields ("", f64_of_Z 0, "") args = Ok (id, t, status) -> status = "") ->
    step id now agents (handleHeartbeat now args agents).1
| looks now args agents : step id now agents (handleStatus now args agents).1
| lists `{SliceSort} order now seen args agents : step id now agents (handleList order now seen args agents).1.

Definition is_offline (agents : AgentProvider) (id : string) : Prop := exists a, agents !! id = Some a /\ Status a = "offline".

Lemma refreshed_offline now a : Status a = "offline" -> Status (refreshed now a) = "offline".
Proof. intros H. unfold refreshed. by case_match. Qed.

Lemma step_offline id now agents agents' : step id now agents agents' -> is_offline agents id -> is_offline agents' id.
Proof.
  intros H (a & Ha & Hs). destruct H as [now args agents Hb|now args agents|? order now seen args agents].
  - unfold handleHeartbeat. destruct (params_of _ _ _) as [[[i t] status]|e]; [|by exists a].
    case_match; [by exists a|]. simpl. destruct (decide (i = id)) as [->|Hne].
    + exists (heard now id status (agents !! id)). rewrite lookup_insert_eq. split; [done|].
      rewrite (Hb t status eq_refl), Ha. unfold heard. simpl. by rewrite Hs.
    + exists a. by rewrite lookup_insert_ne.
  - unfold handleStatus. destruct (params_of _ _ _) as [i|e]; [|by exists a].
    case_match; [by exists a|]. destruct (agents !! i) as [b|] eqn:Hb; [|by exists a]. simpl.
    destruct (decide (i = id)) as [->|Hne]; [|exists a; by rewrite lookup_insert_ne].
    simplify_eq. exists (refreshed now a). rewrite lookup_insert_eq. split; [done|by apply refreshed_offline].
  - unfold handleList. destruct (params_of _ _ _) as [p|e]; [|by exists a]. simpl.
    exists (refreshed (seen id) a). rewrite map_lookup_imap, Ha. split; [done|by apply refreshed_offline].
Qed.

(** C22 An agent that comes back is not seen.  Once an agent has been silent for more than
    five minutes and somebody has asked for its status, it is offline for good: however
    often it then sends heartbeats, unless one of them names a status, its status stays
    "offline", and that is also what its heartbeats are answered. *)
Theorem returning_agent_stays_offline id now args a agents agents' :
  params_of [("agent_id", at_field Datatypes.id (λ x _, x) into_string)] "" args = Ok id -> id <> "" ->
  agents !! id = Some a -> 5 * minute < now - LastHeartbeat a ->
  rtc (λ x y, exists t, step id t x y) (handleStatus now args agents).1 agents' ->
  is_offline agents' id /\
  forall t args' stamp, params_of heartbeat_fields ("", f64_of_Z 0, "") args' = Ok (id, stamp, "") ->
    exists data, (handleHeartbeat t args' agents').2 = Ok data /\ text_at "status" data = "offline".
Proof.
  intros Hp Hid Ha Ht Hr. assert (is_offline (handleStatus now args agents).1 id) as H0.
  { unfold handleStatus. rewrite Hp. apply String.eqb_neq in Hid as ->. rewrite Ha. simpl.
    exists (refreshed now a). rewrite lookup_insert_eq. split; [done|]. unfold refreshed.
    assert (5 * minute < time_sub now (LastHeartbeat a)) as Hlt.
    { apply time_sub_gt; [|done]. unfold minute, second, millisecond. unfold_ints. lia. }
    apply Z.ltb_lt in Hlt. by rewrite Hlt. }
  assert (is_offline agents' id) as H1.
  { induction Hr as [|x y z (t & Hxy) _ IH]; [done|]. by apply IH, (step_offline id t x). }
  split; [done|]. intros t args' stamp Hp'. destruct H1 as (b & Hb & Hs). unfold handleHeartbeat. rewrite Hp'.
  apply String.eqb_neq in Hid as ->. eexists. split; [reflexivity|]. rewrite Hb. unfold heard. simpl. by rewrite Hs.
Qed.

(** A heartbeat that names a status is what is reported for five minutes. *)
Lemma heartbeat_reported id status now now' known :
  status <> "" -> now' - now <= 5 * minute -> Status (refreshed now' (heard now id status known)) = status.
Proof.
  intros Hs Ht. unfold refreshed, heard. apply String.eqb_neq in Hs as ->. simpl.
  destruct (Z.ltb_spec (5 * minute) (time_sub now' now)) as [H|]; [|done].
  apply time_sub_gt in H; [lia|]. unfold minute, second, millisecond. unfold_ints. lia.
Qed.
End agents.

(** ** Witness *)

#[local] Existing Instance decimal_times.

Definition agent_args (l : list (string * string)) : option json := Some (JObject ((λ kv, (fst kv, JString (snd kv))) <$> l)).
Definition of_a1 : option json := agent_args [("agent_id", "a1")].
Definition known_agents : AgentProvider := {["a1" := MkAgent "a1" "online" 0 "" []]}.
Notation marked := (handleStatus (6 * minute) of_a1 known_agents).1.
Notation back_again := (handleHeartbeat (7 * minute) of_a1 marked).1.
Lemma a1_decoded : params_of [("agent_id", at_field id (λ x _, x) into_string)] "" of_a1 = Ok "a1".
Proof. vm_compute. reflexivity. Qed.
Lemma a1_beats : params_of heartbeat_fields ("", f64_of_Z 0, "") of_a1 = Ok ("a1", f64_of_Z 0, "").
Proof. vm_compute. reflexivity. Qed.
Lemma back_again_step : rtc (λ x y, exists t, step "a1" t x y) marked back_again.
Proof. apply rtc_once. exists (7 * minute). apply beats. rewrite a1_beats. by intros t status [= _ <-]. Qed.

Theorem returning_agent_stays_offline_witness :
  is_offline back_again "a1" /\
  exists data, (handleHeartbeat (8 * minute) of_a1 back_again).2 = Ok data /\ text_at "status" data = "offline".
Proof.
  destruct (returning_agent_stays_offline "a1" (6 * minute) of_a1 (MkAgent "a1" "online" 0 "" []) known_agents back_again a1_decoded
    ltac:(discriminate) eq_refl ltac:(vm_compute; reflexivity) back_again_step) as [H1 H2].
  exact (conj H1 (H2 _ _ _ a1_beats)).
Defined.
