(* ===== verification/EdgeTemplates.v ===== *)
(** * EdgeTemplates: the edge server's templates of workflows

    [WorkflowTemplates] of [apps/edge-mcp/internal/tools/builtin/metadata.go] and the tools
    of [template_provider.go] over it.  Structures and slices of maps within an answer stand
    as the JSON values that they are encoded to. *)

From stdpp Require Import base decidable gmap strings list sorting.
From Stdlib Require Import ZArith Lia.
From S2P Require Import Prelude GoStrings GoAny Json EdgeTools EdgeBuiltin.

Local Open Scope string_scope.
Local Open Scope Z_scope.

Record TemplateVariable := MkVariable {
  var_Name : string;
  var_Type : string;
  var_Description : string;
  Default : any;
  var_Example : any;
}.
Record WorkflowTemplateStep := MkStep {
  Tool : string;
  step_Description : string;
  step_Input : gmap string any;
  DependsOn : list string;
  OutputVar : string;
}.
Record WorkflowTemplate := MkTemplate {
  ID : string;
  Name : string;
  Description : string;
  Category : string;
  Steps : list WorkflowTemplateStep;
  RequiredVariables : list TemplateVariable;
  OptionalVariables : list TemplateVariable;
}.

Definition deploy_with_review : WorkflowTemplate :=
  MkTemplate "deploy-with-review" "Deploy with Code Review" "Create task, assign for review, then deploy" "deployment"
    [MkStep "task_create" "Create deployment task"
       (object [("title", text "${deployment_title}"); ("type", text "deployment"); ("priority", text "high")]) [] "task_id";
     MkStep "task_assign" "Assign to reviewer"
       (object [("task_id", text "${task_id}"); ("agent_id", text "${reviewer_id}")]) ["task_create"] "";
     MkStep "workflow_execute" "Execute deployment workflow"
       (object [("workflow_id", text "${deployment_workflow_id}")]) ["task_assign"] ""]
    [MkVariable "deployment_title" "string" "Title for the deployment task" ANil (text "Deploy API v2.0 to production");
     MkVariable "reviewer_id" "string" "Agent ID of the code reviewer" ANil (text "agent-senior-dev-1");
     MkVariable "deployment_workflow_id" "string" "ID of the deployment workflow to execute" ANil (text "workflow-deploy-prod")] [].
Definition batch_task_processing : WorkflowTemplate :=
  MkTemplate "batch-task-processing" "Batch Task Processing" "Create multiple tasks and assign to available agents" "task-management"
    [MkStep "agent_list" "Get available agents" (object [("status", text "online"); ("limit", int 10)]) [] "available_agents";
     MkStep "task_create" "Create tasks from batch"
       (object [("title", text "${task_title}"); ("type", text "processing"); ("priority", text "${task_priority}")]) [] "task_ids"]
    [MkVariable "task_title" "string" "Title for the tasks to create" ANil (text "Process data batch")]
    [MkVariable "task_priority" "string" "Priority level for tasks" (text "medium") (text "high")].
Definition WorkflowTemplates : list WorkflowTemplate := [deploy_with_review; batch_task_processing].

Definition GetDefinitions : list (ToolDefinition handler) := [
  tool "template_list" "List all available workflow templates with their categories and descriptions" TemplateList "" []
    (schema [choice "category" "Filter templates by category" ["deployment"; "task-management"; "monitoring"; "security"]] []);
  tool "template_get" "Get detailed information about a specific workflow template" TemplateGet "" []
    (schema [prop "template_id" "string" "ID of the template to retrieve"] ["template_id"]);
  tool "template_instantiate" "Create a workflow from a template with variable substitution" TemplateInstantiate "" []
    (schema [prop "template_id" "string" "ID of the template to instantiate";
             prop "variables" "object" "Variables to substitute in the template";
             prop "name" "string" "Name for the instantiated workflow"] ["template_id"; "name"])].

(** ** Listing and getting *)

Definition if_text (k v : string) : list (string * any) := if String.eqb v "" then [] else [(k, text v)].
Definition if_any (k : string) (v : any) : list (string * any) := if is_nil v then [] else [(k, v)].
Definition variable_json (v : TemplateVariable) : any :=
  AMap (object ([("name", text (var_Name v)); ("type", text (var_Type v)); ("description", text (var_Description v))]
    ++ if_any "default" (Default v) ++ if_any "example" (var_Example v))%list).
Definition template_step_json (s : WorkflowTemplateStep) : any :=
  AMap (object ([("tool", text (Tool s)); ("description", text (step_Description s)); ("input", AMap (step_Input s))]
    ++ match DependsOn s with [] => [] | l => [("depends_on", AStrings l)] end ++ if_text "output_var" (OutputVar s))%list).
(** A nil slice is [null]. *)
Definition variables_json (l : list TemplateVariable) : any := match l with [] => ANil | _ => AList (variable_json <$> l) end.
Definition one_text (name : string) : fields string := [(name, at_field id (λ x _, x) into_string)].

Definition template_row (t : WorkflowTemplate) : gmap string any :=
  object [("id", text (ID t)); ("name", text (Name t)); ("description", text (Description t)); ("category", text (Category t));
    ("steps_count", int (Z.of_nat (length (Steps t)))); ("required_variables", variables_json (RequiredVariables t));
    ("optional_variables", variables_json (OptionalVariables t))].
Definition handleList (r : readings) (rid : string) (args : option json) : StandardResponse :=
  let rb := NewResponseBuilder (at_start r) rid in
  match params_of (one_text "category") "" args with
  | Err e => Error (at_answer r) rb e
  | Ok category =>
      let templates := List.filter (λ t, passes category (Category t)) WorkflowTemplates in
      Success_ (at_answer r) rb
        (object [("templates", AList (AMap <$> (template_row <$> templates))); ("count", int (Z.of_nat (length templates)))])
        ["template_get"; "template_instantiate"]
  end.

Definition find_template (templateID : string) : option WorkflowTemplate :=
  List.find (λ t, String.eqb (ID t) templateID) WorkflowTemplates.
Definition handleGet (r : readings) (rid : string) (args : option json) : StandardResponse :=
  let rb := NewResponseBuilder (at_start r) rid in
  match params_of (one_text "template_id") "" args with
  | Err e => Error (at_answer r) rb e
  | Ok templateID =>
      if String.eqb templateID "" then Error (at_answer r) rb "template_id is required"
      else
        match find_template templateID with
        | None => Error (at_answer r) rb ("template not found: " +:+ templateID)
        | Some t =>
            Success_ (at_answer r) rb
              (object [("id", text (ID t)); ("name", text (Name t)); ("description", text (Description t)); ("category", text (Category t));
                ("steps", AList (template_step_json <$> Steps t)); ("required_variables", variables_json (RequiredVariables t));
                ("optional_variables", variables_json (OptionalVariables t))])
              ["template_instantiate"]
        end
  end.

(** ** Instantiating *)

(** The variable that a text refers to, the whole of it being [${name}]. *)
Definition reference (v : string) : option string :=
  if (3 <? len v) && String.eqb (take_bytes 2 v) "${" && HasSuffix v "}" then
    Some (take_bytes (Z.to_nat (len v - 3)) (drop_bytes 2 v))
  else None.
Fixpoint substitute (variables : gmap string any) (v : any) : any :=
  match v with
  | AString s =>
      match reference s with
      | Some varName => default v (variables !! varName)
      | None => v
      end
  | AMap m => AMap (substitute variables <$> m)
  | _ => v
  end.
Definition substituteVariables (input variables : gmap string any) : gmap string any := substitute variables <$> input.

Record InstantiateParams := MkInstantiate { i_TemplateID : string; i_Variables : gmap string any; i_Name : string }.
Definition instantiate_fields : fields InstantiateParams := [
  ("template_id", at_field i_TemplateID (λ x p, MkInstantiate x (i_Variables p) (i_Name p)) into_string);
  ("variables", at_field i_Variables (λ x p, MkInstantiate (i_TemplateID p) x (i_Name p)) any_map);
  ("name", at_field i_Name (λ x p, MkInstantiate (i_TemplateID p) (i_Variables p) x) into_string)].
Definition missing_variables (t : WorkflowTemplate) (variables : gmap string any) : list string :=
  filter (λ n, variables !! n = None) (var_Name <$> RequiredVariables t).
Definition with_defaults (t : WorkflowTemplate) (variables : gmap string any) : gmap string any :=
  foldl (λ m v, if bool_decide (m !! var_Name v = None) && negb (is_nil (Default v)) then <[var_Name v := Default v]> m else m)
    variables (OptionalVariables t).
Definition instantiated_step (variables : gmap string any) (s : WorkflowTemplateStep) : gmap string any :=
  object ([("name", text (Tool s)); ("type", text "tool"); ("tool", text (Tool s)); ("description", text (step_Description s));
    ("input", AMap (substituteVariables (step_Input s) variables))]
    ++ match DependsOn s with [] => [] | l => [("depends_on", AStrings l)] end)%list.
Definition instantiated (t : WorkflowTemplate) (variables : gmap string any) : list (gmap string any) :=
  instantiated_step (with_defaults t variables) <$> Steps t.

Definition handleInstantiate (r : readings) (rid : string) (args : option json) : StandardResponse :=
  let rb := NewResponseBuilder (at_start r) rid in
  let refuse e := Error (at_answer r) rb e in
  match params_of instantiate_fields (MkInstantiate "" ∅ "") args with
  | Err e => refuse e
  | Ok p =>
      if String.eqb (i_TemplateID p) "" then refuse "template_id is required"
      else if String.eqb (i_Name p) "" then refuse "name is required"
      else
        match find_template (i_TemplateID p) with
        | None => refuse ("template not found: " +:+ i_TemplateID p)
        | Some t =>
            match missing_variables t (i_Variables p) with
            | (_ :: _) as missingVars => refuse ("missing required variables: " +:+ brackets missingVars)
            | [] =>
                Success_ (at_answer r) rb
                  (object [("workflow", AMap (object [("name", text (i_Name p));
                      ("description", text ("Instantiated from template: " +:+ Name t));
                      ("steps", AList (AMap <$> instantiated t (i_Variables p))); ("template_id", text (i_TemplateID p))]));
                    ("message", text ("Workflow '" +:+ i_Name p +:+ "' created from template '" +:+ Name t +:+ "'"))])
                  ["workflow_create"; "workflow_execute"]
            end
        end
  end.

(** ** What substitution does *)

(** A name that a value refers to, somewhere in it. *)
Inductive refers (n : string) : any -> Prop :=
| refers_here s : reference s = Some n -> refers n (AString s)
| refers_within m k v : m !! k = Some v -> refers n v -> refers n (AMap m).

(** After substitution, what is referred to was referred to and is no variable, or the
    value of a variable brought it in: values are not substituted in turn. *)
Lemma substitute_refers variables v n : refers n (substitute variables v) ->
  refers n v /\ variables !! n = None \/
  exists n' w, refers n' v /\ variables !! n' = Some w /\ refers n w.
Proof.
  intros H. remember (substitute variables v) as u eqn:Hu. revert v Hu. induction H as [s Hs|m k w Hk Hr IH]; intros v Hu.
  - destruct v as [| | | | | | |s'| | | | |m'|]; simplify_eq/=; try done.
    destruct (reference s') as [n'|] eqn:Hn; simplify_eq/=.
    destruct (variables !! n') as [w|] eqn:Hw; simplify_eq/=.
    + right. exists n', (AString s). split_and!; [by constructor|done|by constructor].
    + left. split; [by constructor|congruence].
  - destruct v as [| | | | | | |s'| | | | |m'|]; simplify_eq/=; try done.
    + destruct (reference s') as [n'|] eqn:Hn; simplify_eq/=.
      destruct (variables !! n') as [w'|] eqn:Hw; simplify_eq/=.
      right. exists n', (AMap m). split_and!; [by constructor|done|by econstructor].
    + rewrite lookup_fmap in Hk. destruct (m' !! k) as [v'|] eqn:Hv; simplify_eq/=.
      destruct (IH v' eq_refl) as [[H1 H2]|(n' & w' & H1 & H2 & H3)].
      * left. split; [by econstructor|done].
      * right. exists n', w'. split_and!; [by econstructor|done..].
Qed.

(** The same, as a list for values that are known. *)
Fixpoint references (v : any) : list string :=
  match v with
  | AString s => match reference s with Some n => [n] | None => [] end
  | AMap m => (map_to_list (references <$> m)).*2 ≫= id
  | _ => []
  end.
Lemma refers_listed n v : refers n v -> n ∈ references v.
Proof.
  induction 1 as [s Hs|m k v Hk Hr IH]; simpl.
  - rewrite Hs. by left.
  - apply list_elem_of_bind. exists (references v). split; [done|]. apply list_elem_of_fmap.
    exists (k, references v). split; [done|]. apply elem_of_map_to_list. rewrite lookup_fmap, Hk. done.
Qed.

Lemma with_defaults_lookup t variables k x : with_defaults t variables !! k = Some x ->
  variables !! k = Some x \/ exists v, v ∈ OptionalVariables t /\ Default v = x.
Proof.
  unfold with_defaults. generalize (OptionalVariables t). intros l. revert variables.
  induction l as [|v l IH]; intros m; simpl; [by left|]. intros H.
  destruct (IH _ H) as [Hm|(v' & Hv & Hd)]; [|right; exists v'; split; [by right|done]].
  revert Hm. case_match; [|by left]. destruct (decide (var_Name v = k)) as [<-|Hne].
  - rewrite lookup_insert_eq. intros [= <-]. right. exists v. split; [left|done].
  - rewrite lookup_insert_ne by done. by left.
Qed.
Lemma with_defaults_keeps t variables k x : variables !! k = Some x -> with_defaults t variables !! k = Some x.
Proof.
  unfold with_defaults. generalize (OptionalVariables t). intros l. revert variables.
  induction l as [|v l IH]; intros m; simpl; [done|]. intros H. apply IH.
  case_match eqn:Hc; [|done]. apply andb_prop in Hc as [Hc%bool_decide_eq_true_1 _].
  by rewrite lookup_insert_ne by congruence.
Qed.
Lemma required_given t variables n :
  missing_variables t variables = [] -> n ∈ var_Name <$> RequiredVariables t -> is_Some (variables !! n).
Proof.
  intros Hm Hn. destruct (variables !! n) eqn:H; [by eexists|]. exfalso.
  assert (n ∈ missing_variables t variables) as Hin by by apply list_elem_of_filter.
  rewrite Hm in Hin. set_solver.
Qed.


(** ** Witness and examples *)

Definition deploy_variables : gmap string any :=
  object [("deployment_title", text "v2"); ("reviewer_id", text "ann"); ("deployment_workflow_id", text "w")].
Lemma deploy_variables_plain k x n : deploy_variables !! k = Some x -> ¬ refers n x.
Proof.
  intros H Hr. apply refers_listed in Hr. revert n Hr.
  assert (map_Forall (λ _ x, references x = []) deploy_variables) as Ha by (apply (bool_decide_eq_true_1 _); vm_compute; reflexivity).
  rewrite (Ha k x H). set_solver.
Qed.
Definition assign_step : WorkflowTemplateStep :=
  MkStep "task_assign" "Assign to reviewer" (object [("task_id", text "${task_id}"); ("agent_id", text "${reviewer_id}")]) ["task_create"] "".
Lemma assign_left_over : refers "task_id" (AMap (substituteVariables (step_Input assign_step) (with_defaults deploy_with_review deploy_variables))).
Proof. apply (refers_within _ _ "task_id" (text "${task_id}")); [vm_compute; reflexivity|]. constructor. vm_compute. reflexivity. Qed.


Example batch_instantiated :
  (λ s, field s "input") <$> instantiated batch_task_processing (object [("task_title", text "Count")]) =
  [AMap (object [("status", text "online"); ("limit", int 10)]);
   AMap (object [("title", text "Count"); ("type", text "processing"); ("priority", text "medium")])].
Proof. vm_compute. done. Qed.
Example missing_listed :
  Error_ (handleInstantiate (all_at 0) "r" (Some (JObject [("template_id", JString "deploy-with-review"); ("name", JString "x")])))
  = "missing required variables: [deployment_title reviewer_id deployment_workflow_id]".
Proof. vm_compute. done. Qed.
(** A category that the schema offers and no template has. *)
Example no_monitoring_templates : List.filter (λ t, passes "monitoring" (Category t)) WorkflowTemplates = [].
Proof. vm_compute. done. Qed.
