(* ===== verification/EdgeContexts.v ===== *)
(** * EdgeContexts: the edge server's context tools

    The files [context_provider.go] and [context_handlers.go] of
    [apps/edge-mcp/internal/tools/builtin].  With a client of the core platform some of the
    handlers hand the call on to it; the interface is an argument. *)

From stdpp Require Import base decidable gmap strings list sorting.
From Stdlib Require Import ZArith Lia.
From S2P Require Import Prelude GoStrings GoAny GoSort Json EdgeTools EdgeBuiltin.

Local Open Scope string_scope.
Local Open Scope Z_scope.

(** The interface of the platform's client over the state [W] of the platform; the last
    operation is there when the client has it. *)
Record CorePlatformClient (W : Type) := MkCore {
  core_CreateSession : string -> string -> W -> W * result string string;
  core_GetContext : string -> W -> W * result string (gmap string any);
  core_UpdateContext : string -> gmap string any -> W -> W * option string;
  core_AppendContext : string -> gmap string any -> W -> W * option string;
  core_SearchContext : string -> string -> Z -> W -> W * result string (list any);
  core_GetCurrentContextID : option (W -> string);
}.
Arguments MkCore {W}. Arguments core_CreateSession {W}. Arguments core_GetContext {W}. Arguments core_UpdateContext {W}.
Arguments core_AppendContext {W}. Arguments core_SearchContext {W}. Arguments core_GetCurrentContextID {W}.

Record SessionContext := MkSession {
  SessionID : string;
  Context : gmap string any;
  UpdatedAt : Z;
  Version : Z;
}.

Definition session_prop (mode : string) : string * any := prop "session_id" "string" ("Session identifier" +:+ mode).
Definition context_prop : string * any := prop "context_id" "string" "Context identifier (for Core Platform delegation)".
Definition role_prop : string * any := choice "role" "Role of the content (user, assistant, system)" ["user"; "assistant"; "system"].
Definition standalone : string := " (for standalone mode)".
(** A schema that says that nothing is required. *)
Definition open_schema (props : list (string * any)) : gmap string any := <["required" := AStrings []]> (schema props []).
Definition GetDefinitions : list (ToolDefinition handler) := [
  tool "context_create" "Create a new context session" ContextCreate "context" ["write"]
    (schema [prop "client_name" "string" "Name of the client creating the context";
             prop "client_type" "string" "Type of client (e.g., 'claude-code', 'ide', 'agent')"] ["client_name"]);
  tool "context_list" "List all active sessions" ContextList "context" ["read"; "list"]
    (schema ([limit_prop "sessions"; offset_prop "sessions"] ++ sort_props ["session_id"; "version"; "updated_at"] "desc")%list []);
  tool "context_get" "Get current context for a session" ContextGet "context" ["read"]
    (open_schema [session_prop ""; context_prop]);
  tool "context_update" "Update context for a session" ContextUpdate "context" ["write"]
    (open_schema [session_prop standalone; context_prop; prop "context" "object" "Context data to set";
       prop "content" "string" "Text content to add to context (for semantic operations)"; role_prop;
       prop_with "merge" "boolean" [("description", text "If true, merge with existing context; if false, replace"); ("default", ABool false)];
       prop "idempotency_key" "string" "Unique key for idempotent requests (prevents duplicate updates)"]);
  tool "context_append" "Append to context array or add new context values" ContextAppend "context" ["write"]
    (open_schema [session_prop standalone; context_prop; prop "key" "string" "Context key to append to";
       ("value", AMap (object [("description", text "Value to append")]));
       prop "content" "string" "Text content to append (for semantic operations)"; role_prop;
       prop "idempotency_key" "string" "Unique key for idempotent requests (prevents duplicate appends)"]);
  tool "context_search" "Perform semantic search across context items" ContextSearch "context" ["read"; "search"]
    (schema [prop "context_id" "string" "Context identifier to search within"; prop "query" "string" "Search query for semantic matching";
             prop_with "limit" "integer" [("description", text "Maximum number of results to return (default: 10)");
               ("minimum", int 1); ("maximum", int 100)]] ["context_id"; "query"]);
  tool "context_compact" "Compact context to reduce size using various strategies" ContextCompact "context" ["write"]
    (schema [prop "context_id" "string" "Context identifier to compact";
             prop_with "strategy" "string" [("description", text "Compaction strategy to use");
               ("enum", AStrings ["summarize"; "prune"; "semantic"; "sliding"; "tool_clear"]); ("default", text "summarize")]] ["context_id"]);
  tool "context_delete" "Delete a context session" ContextDelete "context" ["delete"]
    (open_schema [session_prop standalone; context_prop])].

Section contexts.
Context `{TT : TimeText} {W : Type}.
Variable coreClient : option (CorePlatformClient W).

Record state := MkState {
  shared : globals;
  sessions : gmap string SessionContext;
  platform : W;
}.
Definition set_sessions (m : gmap string SessionContext) (s : state) : state := MkState (shared s) m (platform s).
Definition set_shared (g : globals) (s : state) : state := MkState g (sessions s) (platform s).
Definition set_platform (w : W) (s : state) : state := MkState (shared s) (sessions s) w.

(** [t.UnixNano()]. *)
Definition UnixNano (t : Z) : Z := i64 (t - 62135596800 * second).

Definition two_texts (a b : string) : fields (string * string) := [
  (a, at_field fst (λ x p, (x, snd p)) into_string); (b, at_field snd (λ x p, (fst p, x)) into_string)].
Definition handleCreate (r : readings) (args : option json) (s : state) : state * result string (gmap string any) :=
  match params_of (two_texts "client_name" "client_type") ("", "") args with
  | Err e => (s, Err e)
  | Ok (clientName, clientType) =>
      if String.eqb clientName "" then (s, Err "client_name is required")
      else
        let client := [("client_name", text clientName); ("client_type", text clientType)] in
        match coreClient with
        | Some core =>
            match core_CreateSession core clientName clientType (platform s) with
            | (w, Err e) => (set_platform w s, Err ("failed to create context via Core Platform: " +:+ e))
            | (w, Ok sessionID) =>
                let current := match core_GetCurrentContextID core with Some f => f w | None => "" end in
                let contextID := if String.eqb current "" then sessionID else current in
                (set_platform w s, Ok (object ([("success", ABool true); ("session_id", text sessionID); ("context_id", text contextID);
                   ("backend", text "core_platform")] ++ client)%list))
            end
        | None =>
            let sessionID := "session-" +:+ itoa (UnixNano (at_start r)) in
            (set_sessions (<[sessionID := MkSession sessionID ∅ (at_action r) 1]> (sessions s)) s,
             Ok (object ([("success", ABool true); ("session_id", text sessionID); ("backend", text "standalone")] ++ client)%list))
        end
  end.

(** ** Updating *)

Record UpdateParams := MkUpdate {
  u_SessionID : string;
  u_ContextID : string;
  u_Context : option (gmap string any);
  Content : string;
  Role : string;
  Merge : bool;
  u_Key : string;
}.
Definition update_fields : fields UpdateParams := [
  ("session_id", at_field u_SessionID (λ x p, MkUpdate x (u_ContextID p) (u_Context p) (Content p) (Role p) (Merge p) (u_Key p)) into_string);
  ("context_id", at_field u_ContextID (λ x p, MkUpdate (u_SessionID p) x (u_Context p) (Content p) (Role p) (Merge p) (u_Key p)) into_string);
  ("context", at_field u_Context (λ x p, MkUpdate (u_SessionID p) (u_ContextID p) x (Content p) (Role p) (Merge p) (u_Key p))
     (into_map ANil into_any "map[string]interface {}"));
  ("content", at_field Content (λ x p, MkUpdate (u_SessionID p) (u_ContextID p) (u_Context p) x (Role p) (Merge p) (u_Key p)) into_string);
  ("role", at_field Role (λ x p, MkUpdate (u_SessionID p) (u_ContextID p) (u_Context p) (Content p) x (Merge p) (u_Key p)) into_string);
  ("merge", at_field Merge (λ x p, MkUpdate (u_SessionID p) (u_ContextID p) (u_Context p) (Content p) (Role p) x (u_Key p)) into_bool);
  ("idempotency_key", at_field u_Key (λ x p, MkUpdate (u_SessionID p) (u_ContextID p) (u_Context p) (Content p) (Role p) (Merge p) x) into_string)].
Definition update_params : option json -> result string UpdateParams := params_of update_fields (MkUpdate "" "" None "" "" false "").

Definition new_session (id : string) : SessionContext := MkSession id ∅ zero_time 0.
Definition session_of (id : string) (s : state) : SessionContext := default (new_session id) (sessions s !! id).
(** A version is an [int]. *)
Definition next_version (context_ : gmap string any) (now : Z) (c : SessionContext) : SessionContext :=
  MkSession (SessionID c) context_ now (i64 (Version c + 1)).
(** The entries of an update go over those that are there. *)
Definition updated_context (merge : bool) (update old : gmap string any) : gmap string any := if merge then update ∪ old else update.
Definition core_update (p : UpdateParams) : option (gmap string any) :=
  if negb (String.eqb (Content p) "") then
    Some (object [("content", text (Content p)); ("role", text (if String.eqb (Role p) "" then "user" else Role p))])
  else u_Context p.

Definition keep_answer (r : readings) (rb : ResponseBuilder) (key : string) (status : RateLimitStatus) (data : gmap string any)
    (next : list string) (s : state) : state * StandardResponse :=
  let '(g, response) := answer_and_keep r rb key status data next (shared s) in (set_shared g s, response).

Definition handleUpdate (r : readings) (rid : string) (args : option json) (s : state) : state * StandardResponse :=
  let rb := NewResponseBuilder (at_start r) rid in
  let '(rl, (allowed, status)) := CheckAndConsume r "context_update" (GlobalRateLimiter (shared s)) in
  let s := set_shared (set_limiter rl (shared s)) s in
  let refuse e := (s, Error (at_answer r) rb e) in
  if negb allowed then (s, limit_exceeded r rb status)
  else
    match update_params args with
    | Err e => refuse e
    | Ok p =>
        match (if String.eqb (u_ContextID p) "" then None else coreClient) with
        | Some core =>
            match core_update p with
            | None => refuse "either 'content' or 'context' is required"
            | Some update =>
                match core_UpdateContext core (u_ContextID p) update (platform s) with
                | (w, Some e) => (set_platform w s, Error (at_answer r) rb ("failed to update context via Core Platform: " +:+ e))
                | (w, None) =>
                    keep_answer r rb (u_Key p) status
                      (object [("success", ABool true); ("context_id", text (u_ContextID p)); ("backend", text "core_platform");
                        ("embedding_enabled", ABool true)]) ["context_get"; "context_search"] (set_platform w s)
                end
            end
        | None =>
            if String.eqb (u_SessionID p) "" then refuse "session_id is required for standalone mode"
            else
              match u_Context p with
              | None => refuse "context is required for standalone mode"
              | Some update =>
                  match CheckIdempotency (at_lookup r) (u_Key p) (GlobalIdempotencyStore (shared s)) with
                  | Some cachedResponse => (s, cachedResponse)
                  | None =>
                      let c := session_of (u_SessionID p) s in
                      let c := next_version (updated_context (Merge p) update (Context c)) (at_action r) c in
                      keep_answer r rb (u_Key p) status
                        (object [("session_id", text (SessionID c)); ("version", int (Version c)); ("updated_at", text (FormatRFC3339 (UpdatedAt c)));
                          ("context_size", int (Z.of_nat (size (Context c)))); ("backend", text "standalone");
                          ("message", text ("Context updated for session " +:+ u_SessionID p))])
                        ["context_get"; "context_append"] (set_sessions (<[u_SessionID p := c]> (sessions s)) s)
                  end
              end
        end
    end.

(** ** Appending *)

Record AppendParams := MkAppend { a_SessionID : string; a_Key : string; a_Value : any; a_Idempotency : string }.
(** The key for repeated requests is decoded and not used. *)
Definition append_fields : fields AppendParams := [
  ("session_id", at_field a_SessionID (λ x p, MkAppend x (a_Key p) (a_Value p) (a_Idempotency p)) into_string);
  ("key", at_field a_Key (λ x p, MkAppend (a_SessionID p) x (a_Value p) (a_Idempotency p)) into_string);
  ("value", at_field a_Value (λ x p, MkAppend (a_SessionID p) (a_Key p) x (a_Idempotency p)) into_any);
  ("idempotency_key", at_field a_Idempotency (λ x p, MkAppend (a_SessionID p) (a_Key p) (a_Value p) x) into_string)].
(** An array is added to, in place of another value comes the array of both. *)
Definition appended (existing : option any) (value : any) : any :=
  match existing with
  | None => value
  | Some (AList l) => AList (l ++ [value])
  | Some v => AList [v; value]
  end.
Definition handleAppend (r : readings) (rid : string) (args : option json) (s : state) : state * result string reply :=
  let rb := NewResponseBuilder (at_start r) rid in
  let '(rl, (allowed, status)) := CheckAndConsume r "context_append" (GlobalRateLimiter (shared s)) in
  let s := set_shared (set_limiter rl (shared s)) s in
  if negb allowed then (s, Ok (Standard (limit_exceeded r rb status)))
  else
    match params_of append_fields (MkAppend "" "" ANil "") args with
    | Err e => (s, Err e)
    | Ok p =>
        if String.eqb (a_SessionID p) "" then (s, Err "session_id is required")
        else if String.eqb (a_Key p) "" then (s, Err "key is required")
        else if is_nil (a_Value p) then (s, Err "value is required")
        else
          let c := session_of (a_SessionID p) s in
          let c := next_version (<[a_Key p := appended (Context c !! a_Key p) (a_Value p)]> (Context c)) (at_action r) c in
          (set_sessions (<[a_SessionID p := c]> (sessions s)) s,
           Ok (Plain (object [("session_id", text (SessionID c)); ("key", text (a_Key p)); ("version", int (Version c));
             ("updated_at", text (FormatRFC3339 (UpdatedAt c))); ("message", text ("Value appended to context key '" +:+ a_Key p +:+ "'"))])))
    end.

(** ** Reading and deleting *)

Definition session_row (c : SessionContext) : gmap string any :=
  object [("session_id", text (SessionID c)); ("version", int (Version c)); ("updated_at", text (FormatRFC3339 (UpdatedAt c)));
    ("context_size", int (Z.of_nat (size (Context c))))].
Definition less_by (key : string) : option (gmap string any -> gmap string any -> bool) :=
  if String.eqb key "version" then Some (λ a b, int_at "version" a <? int_at "version" b)
  else if bool_decide (key ∈ ["session_id"; "updated_at"]) then Some (λ a b, String.ltb (text_at key a) (text_at key b))
  else None.
Definition handleList `{SliceSort} (order : gmap string SessionContext -> list (string * SessionContext)) (args : option json) (s : state)
    : outcome string reply :=
  match params_of page_fields no_params args with
  | Err e => Fails e
  | Ok p =>
      let p := with_list_defaults "desc" p in
      listing p "sessions" (sorted_rows p (less_by (SortBy p)) (session_row <$> (order (sessions s)).*2)) []
  end.

Definition handleGet (args : option json) (s : state) : state * result string (gmap string any) :=
  match params_of (two_texts "session_id" "context_id") ("", "") args with
  | Err e => (s, Err e)
  | Ok (sessionID, contextID) =>
      match (if String.eqb contextID "" then None else coreClient) with
      | Some core =>
          match core_GetContext core contextID (platform s) with
          | (w, Err e) => (set_platform w s, Err ("failed to get context via Core Platform: " +:+ e))
          | (w, Ok m) => (set_platform w s, Ok m)
          end
      | None =>
          if String.eqb sessionID "" then (s, Err "session_id is required for standalone mode")
          else
            match sessions s !! sessionID with
            | None => (s, Err ("session not found: " +:+ sessionID))
            | Some c => (s, Ok (object [("session_id", text (SessionID c)); ("context", AMap (Context c)); ("version", int (Version c));
                            ("updated_at", text (FormatRFC3339 (UpdatedAt c)))]))
            end
      end
  end.

Record SearchParams := MkSearch { s_ContextID : string; Query : string; s_Limit : Z }.
Definition search_fields : fields SearchParams := [
  ("context_id", at_field s_ContextID (λ x p, MkSearch x (Query p) (s_Limit p)) into_string);
  ("query", at_field Query (λ x p, MkSearch (s_ContextID p) x (s_Limit p)) into_string);
  ("limit", at_field s_Limit (λ x p, MkSearch (s_ContextID p) (Query p) x) into_int)].
Definition handleSearch (args : option json) (s : state) : state * result string reply :=
  match params_of search_fields (MkSearch "" "" 0) args with
  | Err e => (s, Err e)
  | Ok p =>
      if String.eqb (s_ContextID p) "" then (s, Err "context_id is required")
      else if String.eqb (Query p) "" then (s, Err "query is required")
      else
        let limit := if s_Limit p =? 0 then 10 else s_Limit p in
        match coreClient with
        | None => (s, Err "context_search requires Core Platform connection for semantic search")
        | Some core =>
            match core_SearchContext core (s_ContextID p) (Query p) limit (platform s) with
            | (w, Err e) => (set_platform w s, Err ("failed to search context via Core Platform: " +:+ e))
            | (w, Ok l) => (set_platform w s, Ok (Listed l))
            end
        end
  end.

(** Nothing is compacted. *)
Definition handleCompact (args : option json) : result string reply :=
  match params_of (two_texts "context_id" "strategy") ("", "") args with
  | Err e => Err e
  | Ok (contextID, _) =>
      if String.eqb contextID "" then Err "context_id is required"
      else Err "context_compact is not yet available via Core Platform REST API - use REST API /api/v1/contexts/:id/compact endpoint directly"
  end.

Definition handleDelete (args : option json) (s : state) : state * result string (gmap string any) :=
  match params_of (two_texts "session_id" "context_id") ("", "") args with
  | Err e => (s, Err e)
  | Ok (sessionID, contextID) =>
      if negb (String.eqb contextID "") then
        (s, Err "context_delete for Core Platform contexts is not yet available - use REST API /api/v1/contexts/:id endpoint directly")
      else if String.eqb sessionID "" then (s, Err "either session_id or context_id is required")
      else
        match sessions s !! sessionID with
        | None => (s, Err ("session not found: " +:+ sessionID))
        | Some _ =>
            (set_sessions (delete sessionID (sessions s)) s,
             Ok (object [("success", ABool true); ("session_id", text sessionID); ("backend", text "standalone");
               ("message", text "Session deleted successfully")]))
        end
  end.

(** ** What the handlers do *)

(** What collects under a key: the first value as it is, then an array; a first value that
    is itself an array is taken for what was collected before. *)
Lemma appended_all x ys :
  foldl (λ o v, Some (appended o v)) None (x :: ys) =
  Some (match ys with [] => x | _ => AList ((match x with AList l => l | _ => [x] end) ++ ys)%list end).
Proof.
  assert (forall l, foldl (λ o v, Some (appended o v)) (Some (AList l)) ys = Some (AList (l ++ ys)%list)) as H.
  { induction ys as [|y ys IH]; intros l; simpl; [by rewrite app_nil_r|]. by rewrite IH, <-app_assoc. }
  destruct ys as [|y ys]; simpl; [done|].
  assert (forall l, foldl (λ o v, Some (appended o v)) (Some (AList (l ++ [y])%list)) ys = Some (AList (l ++ y :: ys)%list)) as H'.
  { intros l. specialize (H l). simpl in H. exact H. }
  by destruct x; rewrite <-H'.
Qed.

(** An update that is handed to the platform is handed on each time, with a key that is
    known as with any other. *)
Lemma delegated_update_repeats r rid args s core p update :
  coreClient = Some core -> update_params args = Ok p -> u_ContextID p <> "" -> core_update p = Some update ->
  (CheckAndConsume r "context_update" (GlobalRateLimiter (shared s))).2.1 = true ->
  platform (handleUpdate r rid args s).1 = (core_UpdateContext core (u_ContextID p) update (platform s)).1.
Proof.
  intros Hc Hp Hi Hu Ha. unfold handleUpdate. destruct (CheckAndConsume _ _ _) as [rl [allowed status]]. simpl in Ha. subst allowed.
  simpl. apply String.eqb_neq in Hi. rewrite Hp, Hi, Hc, Hu. simpl.
  destruct (core_UpdateContext _ _ _ _) as [w [e|]]; done.
Qed.

(** Without a platform: the new context, and the version counts the changes. *)
Lemma standalone_update r rid args s p update :
  coreClient = None -> update_params args = Ok p -> u_SessionID p <> "" -> u_Context p = Some update ->
  (CheckAndConsume r "context_update" (GlobalRateLimiter (shared s))).2.1 = true ->
  CheckIdempotency (at_lookup r) (u_Key p) (GlobalIdempotencyStore (shared s)) = None ->
  let c := session_of (u_SessionID p) s in
  sessions (handleUpdate r rid args s).1 =
    <[u_SessionID p := next_version (updated_context (Merge p) update (Context c)) (at_action r) c]> (sessions s).
Proof.
  intros Hc Hp Hi Hu Ha Hk. unfold handleUpdate. destruct (CheckAndConsume _ _ _) as [rl [allowed status]]. simpl in Ha. subst allowed.
  simpl. apply String.eqb_neq in Hi. rewrite Hp, Hc, Hi, Hu, Hk. by destruct (String.eqb (u_ContextID p) "").
Qed.
End contexts.
Arguments state : clear implicits.

(** ** Examples *)

#[local] Existing Instance decimal_times.

Definition empty_state : state () := MkState fresh_globals ∅ ().
Definition append_args (v : json) : option json :=
  Some (JObject [("session_id", JString "s"); ("key", JString "events"); ("value", v); ("idempotency_key", JString "k")]).
Definition append_to (v : json) (s : state ()) : state () := (handleAppend (all_at 0) "r" (append_args v) s).1.
(** The key is not looked at; an array that is appended first is not distinguished from what
    was collected. *)
Example appended_twice :
  Context <$> sessions (append_to (JString "a") (append_to (JString "a") empty_state))
    = <["s" := <["events" := AList [AString "a"; AString "a"]]> ∅]> ∅ /\
  Context <$> sessions (append_to (JString "b") (append_to (JArray [JString "a"]) empty_state))
    = <["s" := <["events" := AList [AString "a"; AString "b"]]> ∅]> ∅.
Proof. vm_compute. split; reflexivity. Qed.

(** A platform that counts updates: one key, two updates. *)
Definition counting_core : CorePlatformClient Z := MkCore (λ _ _ w, (w, Ok "")) (λ _ w, (w, Ok ∅)) (λ _ _ w, (w + 1, None))
  (λ _ _ w, (w, None)) (λ _ _ _ w, (w, Ok [])) None.
Definition delegated_args : option json :=
  Some (JObject [("context_id", JString "c"); ("content", JString "hi"); ("idempotency_key", JString "k")]).
Definition delegated (s : state Z) : state Z := (handleUpdate (Some counting_core) (all_at 0) "r" delegated_args s).1.
Example delegated_twice : platform (delegated (delegated (MkState fresh_globals ∅ 0))) = 2.
Proof. vm_compute. done. Qed.

(** Two sessions created in the same nanosecond are one. *)
Example created_at_once :
  let create s := (handleCreate None (all_at 0) (Some (JObject [("client_name", JString "x")])) s).1 in
  size (sessions (create (create empty_state))) = 1%nat.
Proof. vm_compute. done. Qed.
