(* ===== verification/EdgeProviders.v ===== *)
(** * EdgeProviders: the built-in tools of the edge server together

    What [main] of [apps/edge-mcp/cmd/server/main.go] registers: the definitions of the five
    providers of [apps/edge-mcp/internal/tools/builtin], in their order, and what a call of
    a tool by its name does to the providers and to what they share. *)

From stdpp Require Import base decidable gmap strings list sorting.
From Stdlib Require Import ZArith Lia.
From S2P Require Import Prelude GoStrings GoAny GoSort Json EdgeTools EdgeBuiltin.
From S2P Require Import EdgeAgents EdgeTemplates EdgeWorkflows EdgeContexts EdgeTasks.

Local Open Scope string_scope.
Local Open Scope Z_scope.

Definition builtin_definitions : list (ToolDefinition handler) :=
  (EdgeAgents.GetDefinitions ++ EdgeWorkflows.GetDefinitions ++ EdgeTasks.GetDefinitions ++ EdgeContexts.GetDefinitions
   ++ EdgeTemplates.GetDefinitions)%list.
Definition builtin_registry : Registry handler := Register builtin_definitions NewRegistry.

(** No tool takes the name of another, and every handler has its tool. *)
Example builtin_names :
  Count builtin_registry = 27 /\
  resolve builtin_registry "task_create" = Ok TaskCreate /\ resolve builtin_registry "workflow_cancel" = Ok WorkflowCancel /\
  forallb (λ d, match resolve builtin_registry (EdgeTools.Name d), Handler d with Ok _, Some _ => true | _, _ => false end) builtin_definitions = true.
Proof. vm_compute. done. Qed.

Section server.
Context `{TT : TimeText} `{HS : !SliceSort} {W : Type}.
Variable coreClient : option (CorePlatformClient W).
(** How a map is walked. *)
Variable order : forall A, gmap string A -> list (string * A).

Record server := MkServer {
  variables : globals;
  agents : gmap string AgentStatus;
  flows : WorkflowProvider;
  tasks : gmap string Task;
  contexts : gmap string SessionContext;
  platform_ : W;
}.
Definition set_variables (g : globals) (s : server) : server := MkServer g (agents s) (flows s) (tasks s) (contexts s) (platform_ s).
Definition set_agents (m : gmap string AgentStatus) (s : server) : server := MkServer (variables s) m (flows s) (tasks s) (contexts s) (platform_ s).
Definition set_flows (x : globals * WorkflowProvider) (s : server) : server := MkServer (fst x) (agents s) (snd x) (tasks s) (contexts s) (platform_ s).
Definition set_tasks (x : globals * gmap string Task) (s : server) : server := MkServer (fst x) (agents s) (flows s) (snd x) (contexts s) (platform_ s).
Definition context_state (s : server) : EdgeContexts.state W := MkState (variables s) (contexts s) (platform_ s).
Definition set_context_state (c : EdgeContexts.state W) (s : server) : server :=
  MkServer (shared c) (agents s) (flows s) (tasks s) (sessions c) (platform c).

Definition answer {A} (wrap : A -> reply) (r : result string A) : outcome string reply :=
  match r with Ok a => Returns (wrap a) | Err e => Fails e end.

(** The readings of the clock and the new identifiers of one call are arguments. *)
Definition run_tool (r : readings) (rid id : string) (h : handler) (args : option json) (s : server) : server * outcome string reply :=
  let on_agents x := (set_agents (fst x) s, snd x) in
  let on_tasks x := (set_tasks (fst x) s, Returns (Standard (snd x))) in
  let on_contexts {A} (wrap : A -> reply) (x : EdgeContexts.state W * result string A) := (set_context_state (fst x) s, answer wrap (snd x)) in
  match h with
  | AgentList => on_agents (EdgeAgents.handleList (order _) (at_start r) (λ _, at_action r) args (agents s))
  | AgentHeartbeat => let x := handleHeartbeat (at_action r) args (agents s) in (set_agents (fst x) s, answer Plain (snd x))
  | AgentGetStatus => let x := handleStatus (at_action r) args (agents s) in (set_agents (fst x) s, answer Plain (snd x))
  | WorkflowList => (s, EdgeWorkflows.handleList (order _) args (flows s))
  | WorkflowGet => (s, answer Plain (EdgeWorkflows.handleGet args (flows s)))
  | ExecutionList => (s, handleExecutionList (order _) args (flows s))
  | ExecutionGet => (s, answer Plain (handleExecutionGet args (flows s)))
  | WorkflowCreate =>
      let x := EdgeWorkflows.handleCreate r rid id args (variables s, flows s) in (set_flows (fst x) s, Returns (Standard (snd x)))
  | WorkflowExecute => let x := handleExecute r rid id args (variables s, flows s) in (set_flows (fst x) s, answer (λ y, y) (snd x))
  | WorkflowCancel => let x := handleCancel (at_action r) args (flows s) in (set_flows (variables s, fst x) s, answer Plain (snd x))
  | TaskList => (s, EdgeTasks.handleList (order _) args (tasks s))
  | TaskGet => (s, answer Plain (EdgeTasks.handleGet args (tasks s)))
  | TaskGetBatch => (s, answer (λ y, y) (handleGetBatch args (tasks s)))
  | TaskCreate => on_tasks (EdgeTasks.handleCreate r rid id args (variables s, tasks s))
  | TaskAssign => let x := handleAssign (at_action r) args (tasks s) in (set_tasks (variables s, fst x) s, answer Plain (snd x))
  | TaskComplete => let x := handleComplete (at_action r) args (tasks s) in (set_tasks (variables s, fst x) s, answer Plain (snd x))
  | ContextCreate => on_contexts Plain (EdgeContexts.handleCreate coreClient r args (context_state s))
  | ContextList => (s, EdgeContexts.handleList (order _) args (context_state s))
  | ContextGet => on_contexts Plain (EdgeContexts.handleGet coreClient args (context_state s))
  | ContextUpdate => let x := handleUpdate coreClient r rid args (context_state s) in (set_context_state (fst x) s, Returns (Standard (snd x)))
  | ContextAppend => on_contexts (λ y, y) (handleAppend r rid args (context_state s))
  | ContextSearch => on_contexts (λ y, y) (handleSearch coreClient args (context_state s))
  | ContextCompact => (s, answer (λ y, y) (handleCompact args))
  | ContextDelete => on_contexts Plain (handleDelete args (context_state s))
  | TemplateList => (s, Returns (Standard (EdgeTemplates.handleList r rid args)))
  | TemplateGet => (s, Returns (Standard (EdgeTemplates.handleGet r rid args)))
  | TemplateInstantiate => (s, Returns (Standard (handleInstantiate r rid args)))
  end.

(** A call by name: the registry finds the handler, which is given the decoded arguments;
    [encode] is how an answer becomes the value that the protocol handler gets. *)
Definition call_tool (encode : reply -> any) (r : readings) (rid id : string) (h : handler) (args : string) (s : server)
    : server * outcome string any :=
  let x := run_tool r rid id h (parse_json args) s in
  (fst x, match snd x with Returns y => Returns (encode y) | Fails e => Fails e | Panics => Panics end).
Definition Execute_builtin (encode : reply -> any) (r : readings) (rid id name args : string) (s : server) : server * outcome tool_error any :=
  Execute (call_tool encode r rid id) builtin_registry name args s.

(** ** One key, one action *)

(** The server goes on: calls of tools, goroutines of executions, and changes of what is
    shared by the other parts of the server. *)
Inductive server_step : Z -> server -> server -> Prop :=
| calls r rid id h args s : server_step (at_lookup r) s (run_tool r rid id h args s).1
| job_runs t now j js s : server_step t s (set_flows (variables s, run_job now j (set_executions (executions (flows s)) js (flows s))) s)
| upkeep t g s : shared_step t (variables s) g -> server_step t s (set_variables g s).

(** A request with a key to one of the tools that know keys, which has the parameters that
    the tool insists on. *)
Definition keyed_request (h : handler) (args : option json) (key : string) : Prop :=
  match h with
  | TaskCreate => exists p, create_params args = Ok p /\ p_Title p <> "" /\ EdgeTasks.p_Key p = key
  | WorkflowCreate =>
      exists p, params_of EdgeWorkflows.create_fields (EdgeWorkflows.MkCreate "" "" [] ∅ "") args = Ok p /\
        p_Name p <> "" /\ p_Steps p <> [] /\ EdgeWorkflows.p_Key p = key
  | ContextUpdate => exists p, update_params args = Ok p /\ u_SessionID p <> "" /\ is_Some (u_Context p) /\ u_Key p = key
  | _ => False
  end.

(** What a tool does to what is shared, in any case. *)
Ltac limiter_step := match goal with |- context [CheckAndConsume ?r ?n ?l] => destruct (CheckAndConsume r n l) as [rl [allowed status]] end.
Ltac unchanged := solve [done | apply rtc_refl | apply rtc_once; constructor].
Lemma run_tool_shared r rid id h args s : coreClient = None ->
  rtc (shared_step (at_lookup r)) (variables s) (variables (run_tool r rid id h args s).1).
Proof.
  intros Hc. destruct h; cbn [run_tool fst snd variables set_agents set_flows set_tasks set_context_state]; try unchanged.
  - unfold EdgeWorkflows.handleCreate, answer_and_keep. limiter_step. destruct allowed; simpl; [|unchanged].
    destruct (params_of _ _ _) as [p|e]; [|unchanged]. repeat (case_match; [unchanged|]).
    eapply rtc_l; [apply (step_limits _ rl)|]. apply rtc_once, (step_keeps _ _ _ _ (set_limiter rl (variables s))). assumption.
  - unfold handleExecute. limiter_step. destruct allowed; simpl; [|unchanged].
    destruct (params_of _ _ _) as [[[wid input] key]|e]; [|unchanged]. case_match; [unchanged|]. by case_match; unchanged.
  - unfold EdgeTasks.handleCreate. pose proof (before_create_step r (NewResponseBuilder (at_start r) rid) args (variables s)) as Hb.
    destruct (before_create _ _ _ _) as [g [resp|[p status]]] eqn:E; simpl in *; [by apply rtc_once|].
    eapply rtc_l; [exact Hb|]. apply rtc_once. constructor. by eapply before_create_looked.
  - unfold EdgeContexts.handleCreate. rewrite Hc. destruct (params_of _ _ _) as [[a b]|e]; [|unchanged]. by case_match; unchanged.
  - unfold EdgeContexts.handleGet. rewrite Hc. destruct (params_of _ _ _) as [[a b]|e]; [|unchanged].
    case_match eqn:Hx; [by case_match|]. by repeat case_match; unchanged.
  - unfold handleUpdate, keep_answer, answer_and_keep. limiter_step. destruct allowed; simpl; [|unchanged].
    destruct (update_params args) as [p|e]; [|unchanged]. rewrite Hc.
    replace (if (u_ContextID p =? "")%string then None else None) with (@None (CorePlatformClient W)) by by case_match.
    case_match; [unchanged|]. case_match; [|unchanged]. case_match; [unchanged|].
    eapply rtc_l; [apply (step_limits _ rl)|]. apply rtc_once, (step_keeps _ _ _ _ (set_limiter rl (variables s))). assumption.
  - unfold handleAppend. limiter_step. destruct allowed; simpl; [|unchanged].
    destruct (params_of _ _ _) as [p|e]; [|unchanged]. repeat (case_match; [unchanged|]). unchanged.
  - unfold handleSearch. rewrite Hc. destruct (params_of _ _ _) as [p|e]; [|unchanged]. by repeat case_match; unchanged.
  - unfold handleDelete. destruct (params_of _ _ _) as [[a b]|e]; [|unchanged]. by repeat case_match; unchanged.
Qed.

Definition same_but_limits (s s' : server) : Prop :=
  agents s' = agents s /\ flows s' = flows s /\ tasks s' = tasks s /\ contexts s' = contexts s /\ platform_ s' = platform_ s /\
  GlobalIdempotencyStore (variables s') = GlobalIdempotencyStore (variables s).

Lemma server_step_keeps key response until t s s' :
  coreClient = None -> key <> "" -> t <= until -> server_step t s s' ->
  kept key response until (variables s) -> kept key response until (variables s').
Proof.
  intros Hc Hk Ht Hs Hg. destruct Hs as [r rid id h args s|t now j js s|t g s Hg']; [|done|by eapply kept_step].
  pose proof (run_tool_shared r rid id h args s Hc) as Hr. revert Hr Hg. generalize (variables (run_tool r rid id h args s).1).
  generalize (variables s). intros g g' Hr. induction Hr as [|x y z Hxy _ IH]; [done|]. intros Hx. by eapply IH, kept_step.
Qed.

(** The shape that the three handlers share: a refusal or [None] of the parameters' checks
    aside, an answer is kept or was kept. *)
Lemma keyed_first r rid id h args s key response :
  coreClient = None -> keyed_request h args key -> key <> "" ->
  CheckIdempotency (at_lookup r) key (GlobalIdempotencyStore (variables s)) = None ->
  (run_tool r rid id h args s).2 = Returns (Standard response) -> Success response = true ->
  kept key response (at_store r + 5 * minute) (variables (run_tool r rid id h args s).1).
Proof.
  intros Hc Hq Hk Hn Ha Hs. destruct h; try done; destruct Hq as [p Hp]; revert Ha;
    cbn [run_tool fst snd variables set_flows set_tasks set_context_state].
  - destruct Hp as (Hp & Hname & Hsteps & <-). unfold EdgeWorkflows.handleCreate, answer_and_keep. limiter_step.
    destruct allowed; simpl; [|intros [= <-]; done]. rewrite Hp. apply String.eqb_neq in Hname as ->.
    destruct (p_Steps p) as [|st l]; [done|]. simpl. rewrite Hn. intros [= <-]. exact (stored_kept _ _ _ (set_limiter rl (variables s)) Hk).
  - destruct Hp as (Hp & Htitle & <-).
    unfold EdgeTasks.handleCreate, before_create, answer_and_keep. limiter_step.
    destruct allowed; simpl; [|intros [= <-]; done]. rewrite Hp. apply String.eqb_neq in Htitle as ->.
    rewrite Hn. simpl. intros [= <-]. exact (stored_kept _ _ _ (set_limiter rl (variables s)) Hk).
  - destruct Hp as (Hp & Hsession & [update Hu] & <-). unfold handleUpdate, keep_answer, answer_and_keep. limiter_step.
    destruct allowed; simpl; [|intros [= <-]; done]. rewrite Hp, Hc.
    replace (if (u_ContextID p =? "")%string then None else None) with (@None (CorePlatformClient W)) by by case_match.
    apply String.eqb_neq in Hsession as ->. rewrite Hu, Hn. intros [= <-]. exact (stored_kept _ _ _ (set_limiter rl (variables s)) Hk).
Qed.

Lemma keyed_again r rid id h args s key response until :
  coreClient = None -> keyed_request h args key -> key <> "" -> kept key response until (variables s) -> at_lookup r <= until ->
  exists x, (run_tool r rid id h args s).2 = Returns (Standard x) /\ (x = response \/ Success x = false) /\
    same_but_limits s (run_tool r rid id h args s).1.
Proof.
  intros Hc Hq Hk Hg Ht. pose proof (kept_found key response until (variables s) (at_lookup r) Hk Hg Ht) as Hn.
  destruct h; try done; destruct Hq as [p Hp]; cbn [run_tool fst snd set_flows set_tasks set_context_state].
  - destruct Hp as (Hp & Hname & Hsteps & <-). unfold EdgeWorkflows.handleCreate. limiter_step.
    destruct allowed; simpl; [|by eexists; split; [reflexivity|split; [by right|]]]. rewrite Hp. apply String.eqb_neq in Hname as ->.
    destruct (p_Steps p) as [|st l]; [done|]. simpl. rewrite Hn. eexists; split; [reflexivity|split; [by left|done]].
  - destruct Hp as (Hp & Htitle & <-). unfold EdgeTasks.handleCreate, before_create. limiter_step.
    destruct allowed; simpl; [|by eexists; split; [reflexivity|split; [by right|]]]. rewrite Hp. apply String.eqb_neq in Htitle as ->.
    rewrite Hn. eexists; split; [reflexivity|split; [by left|done]].
  - destruct Hp as (Hp & Hsession & [update Hu] & <-). unfold handleUpdate. limiter_step.
    destruct allowed; simpl; [|by eexists; split; [reflexivity|split; [by right|]]]. rewrite Hp, Hc.
    replace (if (u_ContextID p =? "")%string then None else None) with (@None (CorePlatformClient W)) by by case_match.
    apply String.eqb_neq in Hsession as ->. rewrite Hu, Hn. eexists; split; [reflexivity|split; [by left|done]].
Qed.

End server.

(** ** Witness and examples *)

#[local] Existing Instance decimal_times.

Definition in_key_order (A : Type) (m : gmap string A) : list (string * A) := map_to_list m.
Definition empty_server : server (W := ()) := MkServer fresh_globals ∅ NewWorkflowProvider ∅ ∅ ().
Notation run := (run_tool (None : option (CorePlatformClient ())) in_key_order).
Definition task_args : option json := Some (JObject [("title", JString "Deploy"); ("idempotency_key", JString "k")]).
Definition flow_args : option json :=
  Some (JObject [("name", JString "Build"); ("idempotency_key", JString "k"); ("steps", JArray [JObject [("name", JString "make")]])]).
Definition task_answer : StandardResponse :=
  match (run (all_at 0) "r1" "t1" TaskCreate task_args empty_server).2 with Returns (Standard x) => x | _ => MkResponse false ∅ "" no_metadata [] end.

Lemma task_request : keyed_request TaskCreate task_args "k".
Proof. exists (EdgeTasks.MkCreate "Deploy" "" "" "" "" "k"). split; [vm_compute; reflexivity|done]. Qed.
Lemma flow_request : keyed_request WorkflowCreate flow_args "k".
Proof. exists (EdgeWorkflows.MkCreate "Build" "" [MkStep "make" "" ∅ []] ∅ "k"). split; [vm_compute; reflexivity|done]. Qed.
Lemma task_answered : (run (all_at 0) "r1" "t1" TaskCreate task_args empty_server).2 = Returns (Standard task_answer).
Proof. vm_compute. reflexivity. Qed.
Lemma task_created : Success task_answer = true.
Proof. vm_compute. reflexivity. Qed.


Example workflow_never_created :
  let s := (run (all_at 0) "r1" "t1" TaskCreate task_args empty_server).1 in
  let '(s, x) := run (all_at minute) "r2" "w1" WorkflowCreate flow_args s in
  match x with Returns (Standard y) => (Success y, Data y !! "message") | _ => (false, None) end = (true, Some (text "Task created: Deploy")) /\
  size (workflows (flows s)) = 0%nat.
Proof. vm_compute. done. Qed.

(** A panic of a tool, by its name: [EdgeBatch.panic_crashes] says what it does in a batch. *)
Example panic_by_name :
  (Execute_builtin None in_key_order (λ _, ANil) (all_at 0) "r" "i" "task_list" ("{" +:+ q "offset" +:+ ":9223372036854775800}") empty_server).2 = Panics.
Proof. vm_compute. done. Qed.

(** What a template becomes when it is created as a workflow, as the next step that the
    answer suggests: the inputs of the steps are lost, and with them all variables. *)
Definition instantiated_args : option json :=
  Some (JObject [("name", JString "x"); ("steps", JArray [JObject [("name", JString "task_create"); ("type", JString "tool");
    ("tool", JString "task_create"); ("input", JObject [("title", JString "v2")])]])]).
Example inputs_lost :
  Steps <$> workflows (flows (run (all_at 0) "r" "w" WorkflowCreate instantiated_args empty_server).1)
  = {["w" := [MkStep "task_create" "tool" ∅ []]]}.
Proof. vm_compute. done. Qed.
